(* ===== verification/_CoqProject ===== *)
-Q . S2P
Prelude.v
CFloat.v
CharConv.v
SizeBuf.v
Crc.v
ComString.v
ComMisc.v
Zone.v
Ring.v
Cache.v
Hunk.v
Net.v
NetDgrm.v
NetMain.v
NetLoop.v
Cvar.v
Cmd.v
PrExec.v
SvMessage.v
ClParse.v
IpLog.v
TasScript.v
TasIo.v
TasText.v
Console.v
Keys.v
FloatOrder.v
DecText.v
World.v
Sound.v
SndMix.v
SndMem.v
Motion.v
Physics.v
SvMove.v
ClInput.v
SvUser.v
Edict.v
EdictText.v
SaveGame.v
