(* ===== verification/Prelude.v ===== *)
(** * A model of the TASQuake engine

    TASQuake is a port of the Quake engine with tools for tool-assisted runs.  The engine is C
    (src/Source); it is built as 32-bit x86 code with SSE arithmetic and OpenGL ([GLQUAKE]).
    This library models the parts that carry its logic and state, function by function, and
    proves what makes them correct.

    ** How the program is modelled

    A C function is a Rocq function with the same name where possible, over a record of the
    globals it uses.  It returns [res]: [Ok] with a value and the new state, or a [Fault] that
    says how it left: through [Sys_Error], through [Host_Error], or by doing something C gives
    no meaning to (an access outside an object, a null dereference).  So a theorem that a
    function returns [Ok] says that none of these happens.  Integers are [Z] with the conversions
    of their width written out ([u8], [s16], [s32], ...), floats are IEEE numbers (CFloat.v),
    strings and arrays are lists of bytes, and linked structures are records in a finite map from
    addresses with 0 as null.  A loop whose length the data does not bound by its structure has a
    fuel argument; the fuel is taken from the size of the data (the number of records of a list,
    the bytes of a buffer, the runaway limit of the virtual machine), and the theorems state that
    the result is not [OutOfFuel].  Code of other libraries and of parts that are not modelled is
    an argument: the operating system's sockets and files, built-in functions of the virtual
    machine, callbacks, the clock.

    ** The parts and how they fit together

    - Prelude.v (this file): outcomes, machine integers, arrays, tactics, shared lemmas.
      CFloat.v: [float] and [double].  Ring.v: circular lists with a sentinel.
    - SizeBuf.v (common.c): message buffers and the encoding of values in messages, used by
      everything that talks over the network.
    - ComString.v, ComMisc.v (common.c): strings, numbers, paths, the token parser, the command
      line, print buffers, and the random number generator a run is replayed with.
    - Crc.v (crc.c): check sums.
    - Zone.v, Cache.v, Hunk.v (zone.c): the three allocators that share the engine's memory; the
      hunk moves and evicts cached blocks that are in its way.
    - Net.v, NetMain.v (net.h, net_main.c): sockets and the calls of client and server, against
      an interface ([DriverLaws]) that NetLoop.v (net_loop.c) implements; NetDgrm.v (net_dgrm.c):
      the datagram driver with its reliable channel.
    - Cvar.v, Cmd.v (cvar.c, cmd.c): console variables, the command buffer, tokens, aliases and
      dispatch.
    - PrExec.v (pr_exec.c, pr_comp.h): the QuakeC virtual machine.
    - SvMessage.v (sv_main.c) and ClParse.v (cl_parse.c): what the server writes to a client about
      entities and the player, and how the client reads it.
    - IpLog.v (iplog.c): the log of players' names by address, a search tree in a ring of slots.
    - Console.v, Keys.v (console.c, keys.c): the ring of text lines, word wrap and resizing; key
      names and bindings, key events with the commands of buttons, the line editor.
    - World.v (world.c): the tree of areas and its lists of links, linking of entities with the
      triggers they touch, contents of points, traces through hulls and through the lists.
    - Motion.v, Physics.v (sv_phys.c): the frame of the server: the steps that all movements share,
      pushers, players, monsters and thrown things, against the traces and links of World.v.
      SvMove.v (sv_move.c): steps of monsters.  SvUser.v (sv_user.c): what a player's command does,
      and the messages of the clients.  ClInput.v (cl_input.c): buttons, the command and its way to
      the server.  Sound.v (sv_main.c, cl_parse.c): the message of a sound; SndMem.v, SndMix.v
      (snd_mem.c, snd_mix.c): wave files, resampling, and mixing into the ring of the device.
    - Edict.v (pr_edict.c): entities of the virtual machine, their texts, the entities of a map;
      EdictText.v: which texts are read back; SaveGame.v (host_cmd.c): saved games.  Memory for
      strings is an interface ([HunkAlloc]) that Hunk.v implements.
    - TasScript.v, TasIo.v, TasText.v (libtasquake): scripts of tool-assisted runs as blocks of
      commands by frame, editing, shifting, merging and playing them; readers and writers of
      memory and files; the text of a script.
    - CharConv.v, FloatOrder.v, DecText.v: texts of numbers as the C and C++ libraries write and
      read them, and the order of floats, for the parts above.

    ** What the theorems show

    Memory: allocation and release keep the block lists of the zone, the cache and the hunk well
    formed, blocks do not overlap, other blocks keep their contents, and a block that is released
    and asked for again can be had again.  Network: over a network that loses, repeats, reorders
    and invents packets the reliable channel delivers a prefix of what was sent, in order and
    once; unreliable messages arrive at most once and in order; every call returns; the pool of
    sockets is never corrupted; the loopback driver is a queue.  Messages: what is written is read
    back, for every field type, for entity updates against baselines and for all that the server
    tells a player about himself.
    Console: all of the command buffer is executed, in order, by any executor whose commands leave
    buffer and wait alone; tokens and quoted strings are read back, and a whole written configuration
    sets every variable again; the lookup cache of variables does not change what is found.
    Virtual machine: calls and returns are balanced and restore the locals of the caller, a
    program either ends or is stopped by the runaway counter, and one that ends in an error keeps
    its part of the locals stack.  Name log: the tree behaves as a bounded queue whatever the
    random merges do.
    Console and keys: the ring of lines shows the text that was printed, the editor edits the line
    as a list of characters, a released key ends the command it started, bindings are restored
    from what is written.  World: every entity is in the list of the smallest area that holds its
    box, a trace stops at the nearest of all solid entities, the triggers that are touched are
    those whose boxes meet.  Movement: the lists of the areas stay well formed in a frame, a pusher
    moves, with what it carries, unless an entity is stuck in it, and then nothing has moved; a
    player who is stuck is moved to the first free place that is tried, a blocked step of a monster
    changes nothing, velocities stay within their limit, and a command changes only the player.  Input: a button is the set of keys that hold it, moves leave in order when their time
    has come, and the server reads the move the client wrote.  Sound: mixing in blocks, channel by channel, is
    computing every sample on its own, and a wave file is understood.  Entities: a slot that is given out is clear and was not freed
    recently, the parsers end on every text, and a saved game is loaded with every global and
    every field that has a text.  Scripts: edits keep the blocks sorted and mean what they say, scripts
    that follow one another in memory are read back one by one, and so is a script in a file.

    Where the code does not do what it means to, a theorem shows it: the buffer overruns of the
    loopback driver, of the command buffer and of entity updates, the sockets that are not closed
    at shutdown, the pointer that stays in the cache of a deleted variable, the locals stack that
    an error does not reset, the shot that is not added because a later one turns, the predicted throw that hits the thrower, the trace that is read
    before it is written, the direction that is ten degrees off.

    ** What is not modelled

    Drawing, the sound device and the choice of channels (snd_dma.c), video and the other calls of the operating system (gl_*.c, snd_linux.c,
    vid_*.c, in_*.c, sys_*.c): their effect is outside the program.  Reading of pack files,
    models, demos and the progs file: file input whose result is data for the renderer or the
    virtual machine.  The head of a saved game, which [fscanf] reads.  The tools in
    src/Source/tas and the optimizer of libtasquake, which search and simulate with the whole
    engine.  Connection set-up of the datagram driver, the server browser, the spawning of a
    server and most console commands of the host, which are calls of the parts above and of parts
    that are not modelled.  Menus, status bar and view: drawing. *)

From Stdlib Require Export ZArith Lia.
From Stdlib Require Import Ascii.
From stdpp Require Export base option list strings gmap.

#[global] Open Scope Z_scope.

(** * Outcomes

    The C functions either return, or leave through [Sys_Error] (which ends the
    process), or through [Host_Error] (which [longjmp]s back to the frame loop),
    or do something the C standard gives no meaning to (an access outside an
    object, a null dereference).  [fault] names the three abnormal exits, so that
    a theorem that a function returns [Ok] also says that none of them happens. *)
Inductive fault : Type :=
| Sys_Error (msg : string)
| Host_Error (msg : string)
| Undefined (what : string)
| OutOfFuel.

Inductive res (A : Type) : Type :=
| Ok (a : A)
| Fault (f : fault).
Arguments Ok {A} a.
Arguments Fault {A} f.

#[global] Instance res_ret : MRet res := fun A a => Ok a.
#[global] Instance res_bind : MBind res := fun A B k m =>
  match m with Ok a => k a | Fault f => Fault f end.
#[global] Instance res_map : FMap res := fun A B g m =>
  match m with Ok a => Ok (g a) | Fault f => Fault f end.

#[global] Instance fault_eq_dec : EqDecision fault.
Proof. solve_decision. Defined.

Definition is_ok {A} (m : res A) : bool :=
  match m with Ok _ => true | Fault _ => false end.

Definition of_option {A} (f : fault) (o : option A) : res A :=
  match o with Some a => Ok a | None => Fault f end.

Lemma bind_Ok_inv {A B} (m : res A) (k : A -> res B) b :
  m ≫= k = Ok b -> exists a, m = Ok a /\ k a = Ok b.
Proof. destruct m; simpl; intros; [eauto|discriminate]. Qed.

Lemma bind_Ok {A B} (a : A) (k : A -> res B) : Ok a ≫= k = k a.
Proof. reflexivity. Qed.

(** * Machine integers

    An [int], [short], [char] is the [Z] it denotes; the conversion the C code
    performs is written out with these functions. *)
Definition u8 (z : Z) : Z := z `mod` 256.
Definition u16 (z : Z) : Z := z `mod` 65536.
Definition u32 (z : Z) : Z := z `mod` 4294967296.
Definition s8 (z : Z) : Z := (z + 128) `mod` 256 - 128.
Definition s16 (z : Z) : Z := (z + 32768) `mod` 65536 - 32768.
Definition s32 (z : Z) : Z := (z + 2147483648) `mod` 4294967296 - 2147483648.

Definition INT_MAX : Z := 2147483647.
Definition INT_MIN : Z := -2147483648.

Definition is_byte (z : Z) : Prop := 0 <= z < 256.
Definition is_int (z : Z) : Prop := INT_MIN <= z <= INT_MAX.

#[global] Instance is_byte_dec z : Decision (is_byte z).
Proof. unfold is_byte. apply _. Defined.

Abbreviation bytes := (list Z).
Abbreviation zlen l := (Z.of_nat (length l)).

(** Nonzero integers are true in C. *)
Definition truth (z : Z) : bool := negb (z =? 0).

Declare Scope c_scope.
Delimit Scope c_scope with C.
Infix "&" := Z.land (at level 40, left associativity) : c_scope.
Infix ".|" := Z.lor (at level 50, left associativity) : c_scope.
Infix "<<" := Z.shiftl (at level 35, no associativity) : c_scope.
Infix ">>" := Z.shiftr (at level 35, no associativity) : c_scope.
#[global] Open Scope c_scope.

(** * C strings

    A [char *] that points at a terminated string is the list of its bytes
    without the terminator. [cs] writes one from a literal. *)
Fixpoint cs (s : string) : bytes :=
  match s with
  | EmptyString => []
  | String c s' => Z.of_nat (nat_of_ascii c) :: cs s'
  end.

Definition is_cstr (s : bytes) : Prop := Forall (fun c => 0 < c < 256) s.

#[global] Instance is_cstr_dec s : Decision (is_cstr s).
Proof. unfold is_cstr. apply _. Defined.

(** The string a byte array holds: everything before its first zero. *)
Fixpoint until0 (l : bytes) : bytes :=
  match l with
  | [] => []
  | c :: l' => if c =? 0 then [] else c :: until0 l'
  end.

(** * Arrays

    [store] is a run of byte writes into an array object: outside the object it
    is undefined, inside it replaces exactly the addressed bytes.  Offsets are
    integers because the code computes them. *)
Definition splice (a : bytes) (off : nat) (d : bytes) : bytes :=
  take off a ++ d ++ drop (off + length d) a.

Definition store (a : bytes) (off : Z) (d : bytes) : res bytes :=
  if (0 <=? off) && (off + Z.of_nat (length d) <=? Z.of_nat (length a))
  then Ok (splice a (Z.to_nat off) d)
  else Fault (Undefined "store outside the object").

(** [slice a off n]: the [n] bytes at [off]. *)
Definition slice (a : bytes) (off n : Z) : bytes :=
  take (Z.to_nat n) (drop (Z.to_nat off) a).

Definition load (a : bytes) (off n : Z) : res bytes :=
  if (0 <=? off) && (0 <=? n) && (off + n <=? Z.of_nat (length a))
  then Ok (slice a off n)
  else Fault (Undefined "load outside the object").

Definition load1 (a : bytes) (off : Z) : res Z :=
  if 0 <=? off
  then of_option (Undefined "load outside the object") (a !! Z.to_nat off)
  else Fault (Undefined "load outside the object").

(** * Tactics and hint databases *)
Create HintDb quake.
Create HintDb quake_rw.

(** Turn boolean comparisons in the context into propositions. *)
Ltac bool_props :=
  repeat match goal with
  | H : (_ && _) = true |- _ => apply andb_true_iff in H as [? ?]
  | H : (_ || _) = false |- _ => apply orb_false_iff in H as [? ?]
  | H : negb _ = true |- _ => apply negb_true_iff in H
  | H : negb _ = false |- _ => apply negb_false_iff in H
  | H : (_ <=? _) = true |- _ => apply Z.leb_le in H
  | H : (_ <=? _) = false |- _ => apply Z.leb_gt in H
  | H : (_ <? _) = true |- _ => apply Z.ltb_lt in H
  | H : (_ <? _) = false |- _ => apply Z.ltb_ge in H
  | H : (_ =? _) = true |- _ => apply Z.eqb_eq in H
  | H : (_ =? _) = false |- _ => apply Z.eqb_neq in H
  end.

(** Split on the first conditional of the goal and keep what it says. *)
Ltac case_if :=
  match goal with
  | |- context [if ?b then _ else _] =>
      let E := fresh "E" in destruct b eqn:E; bool_props
  end.

Ltac case_if_in H :=
  match type of H with
  | context [if ?b then _ else _] =>
      let E := fresh "E" in destruct b eqn:E; bool_props
  end.

(** Walk through the successful binds of a hypothesis. *)
Ltac inv_ok :=
  repeat match goal with
  | H : Ok _ = Ok _ |- _ => injection H as H; simplify_eq
  | H : Fault _ = Ok _ |- _ => discriminate H
  | H : mret _ = Ok _ |- _ => injection H as H; simplify_eq
  | H : _ ≫= _ = Ok _ |- _ =>
      let a := fresh "a" in let E := fresh "E" in
      apply bind_Ok_inv in H as (a & E & H); cbn beta iota in H
  end.

(** Decide a closed decidable proposition by evaluation. *)
Ltac by_decide := apply (bool_decide_unpack _); vm_compute; exact I.

(** A closed equation or comparison, by evaluation. *)
Ltac by_vm := vm_compute; first [reflexivity | discriminate].

Ltac wrap_lia :=
  unfold u8, u16, u32, s8, s16, s32, is_byte, is_int, INT_MAX, INT_MIN in *;
  Z.to_euclidean_division_equations; lia.

(** * Integer lemmas *)

Lemma land_255 z : Z.land z 255 = z `mod` 256.
Proof. apply (Z.land_ones z 8). lia. Qed.

Lemma land_65535 z : Z.land z 65535 = z `mod` 65536.
Proof. apply (Z.land_ones z 16). lia. Qed.

Lemma shiftr_8 z : Z.shiftr z 8 = z / 256.
Proof. apply (Z.shiftr_div_pow2 z 8). lia. Qed.
Lemma shiftr_16 z : Z.shiftr z 16 = z / 65536.
Proof. apply (Z.shiftr_div_pow2 z 16). lia. Qed.
Lemma shiftr_24 z : Z.shiftr z 24 = z / 16777216.
Proof. apply (Z.shiftr_div_pow2 z 24). lia. Qed.
Lemma shiftl_8 z : Z.shiftl z 8 = z * 256.
Proof. apply (Z.shiftl_mul_pow2 z 8). lia. Qed.
Lemma shiftl_16 z : Z.shiftl z 16 = z * 65536.
Proof. apply (Z.shiftl_mul_pow2 z 16). lia. Qed.
Lemma shiftl_24 z : Z.shiftl z 24 = z * 16777216.
Proof. apply (Z.shiftl_mul_pow2 z 24). lia. Qed.

#[export] Hint Rewrite land_255 land_65535 shiftr_8 shiftr_16 shiftr_24
  shiftl_8 shiftl_16 shiftl_24 : quake_rw.

Lemma u8_range z : 0 <= u8 z < 256.
Proof. wrap_lia. Qed.
Lemma u16_range z : 0 <= u16 z < 65536.
Proof. wrap_lia. Qed.
Lemma u32_range z : 0 <= u32 z < 4294967296.
Proof. wrap_lia. Qed.
Lemma s8_range z : -128 <= s8 z < 128.
Proof. wrap_lia. Qed.
Lemma s16_range z : -32768 <= s16 z < 32768.
Proof. wrap_lia. Qed.
Lemma s32_range z : -2147483648 <= s32 z < 2147483648.
Proof. wrap_lia. Qed.
Lemma s32_id z : -2147483648 <= z < 2147483648 -> s32 z = z.
Proof. intros. unfold s32. rewrite Z.mod_small; lia. Qed.
Lemma u32_id z : 0 <= z < 4294967296 -> u32 z = z.
Proof. intros. unfold u32. by rewrite Z.mod_small. Qed.
Lemma u8_id z : 0 <= z < 256 -> u8 z = z.
Proof. intros. unfold u8. by rewrite Z.mod_small. Qed.
Lemma s8_u8 z : -128 <= z < 128 -> s8 (u8 z) = z.
Proof. intros. wrap_lia. Qed.

#[export] Hint Resolve u8_range u16_range u32_range s8_range s16_range s32_range : quake.

(** Rounding up to a power of two with a mask: [(z + (a-1)) & ~(a-1)]. *)
Lemma land_lnot_mod z n :
  0 <= n -> Z.land z (Z.lnot (2 ^ n - 1)) = z - z `mod` 2 ^ n.
Proof.
  intros Hn.
  assert (Z.land z (2 ^ n - 1) = z `mod` 2 ^ n) as Hl.
  { replace (2 ^ n - 1) with (Z.ones n) by (rewrite Z.ones_equiv; lia).
    by apply Z.land_ones. }
  rewrite <- Hl, <- Z.ldiff_land.
  rewrite (Z.sub_nocarry_ldiff z (Z.land z (2 ^ n - 1))).
  - apply Z.bits_inj'. intros i Hi.
    rewrite !Z.ldiff_spec, Z.land_spec. by destruct (Z.testbit z i), (Z.testbit _ i).
  - apply Z.bits_inj'. intros i Hi.
    rewrite Z.ldiff_spec, Z.land_spec, Z.bits_0.
    by destruct (Z.testbit z i), (Z.testbit _ i).
Qed.

Lemma align8 z : Z.land (z + 7) (Z.lnot 7) = z + 7 - (z + 7) `mod` 8.
Proof. apply (land_lnot_mod (z + 7) 3). lia. Qed.
Lemma align16 z : Z.land (z + 15) (Z.lnot 15) = z + 15 - (z + 15) `mod` 16.
Proof. apply (land_lnot_mod (z + 15) 4). lia. Qed.
Lemma align4 z : Z.land (z + 3) (Z.lnot 3) = z + 3 - (z + 3) `mod` 4.
Proof. apply (land_lnot_mod (z + 3) 2). lia. Qed.

(** * Array lemmas *)

Lemma length_splice a off d :
  (off + length d <= length a)%nat -> length (splice a off d) = length a.
Proof.
  intros. unfold splice. rewrite !length_app, length_take, length_drop. lia.
Qed.

Lemma store_ok a off d :
  0 <= off -> off + Z.of_nat (length d) <= Z.of_nat (length a) ->
  store a off d = Ok (splice a (Z.to_nat off) d).
Proof. intros. unfold store. case_if; [done|]. apply andb_false_iff in E. lia. Qed.

Lemma store_length a off d a' :
  store a off d = Ok a' -> length a' = length a.
Proof. unfold store. case_if; intros; inv_ok. apply length_splice. lia. Qed.

Lemma slice_splice_same a off d :
  (off + length d <= length a)%nat ->
  slice (splice a off d) (Z.of_nat off) (Z.of_nat (length d)) = d.
Proof.
  intros. unfold slice, splice. rewrite !Nat2Z.id.
  rewrite drop_app_ge by (rewrite length_take; lia).
  rewrite length_take, Nat.min_l by lia.
  rewrite Nat.sub_diag, drop_0, take_app_le by lia. by rewrite take_ge by lia.
Qed.

Lemma take_splice_before a off d n :
  (n <= off)%nat -> (off <= length a)%nat -> take n (splice a off d) = take n a.
Proof.
  intros. unfold splice. rewrite take_app_le by (rewrite length_take; lia).
  by rewrite take_take, Nat.min_l by lia.
Qed.

Lemma take_splice_through a off d :
  (off + length d <= length a)%nat ->
  take (off + length d) (splice a off d) = take off a ++ d.
Proof.
  intros. unfold splice. rewrite app_assoc, take_app_le.
  - rewrite take_ge; [done|]. rewrite length_app, length_take. lia.
  - rewrite length_app, length_take. lia.
Qed.

Lemma splice_nil a off : splice a off [] = a.
Proof. unfold splice. cbn. by rewrite Nat.add_0_r, take_drop. Qed.

Lemma splice_app a r d :
  splice (a ++ r) (length a) d = a ++ d ++ drop (length d) r.
Proof.
  unfold splice. rewrite take_app_length, drop_app_ge by lia. do 3 f_equal. lia.
Qed.

(** Writing a run is writing its head and then its tail. *)
Lemma splice_cons a off c d :
  (off + 1 + length d <= length a)%nat ->
  splice (splice a off [c]) (S off) d = splice a off (c :: d).
Proof.
  intros H. unfold splice. cbn [length].
  rewrite (app_assoc _ [c]), take_app_length' by (rewrite length_app, length_take; cbn [length]; lia).
  rewrite drop_app_ge by (rewrite length_app, length_take; cbn [length]; lia).
  rewrite length_app, length_take, Nat.min_l, drop_drop by lia. cbn [length].
  rewrite <- (app_assoc _ [c]). cbn [app]. do 4 f_equal. lia.
Qed.

Lemma slice_length a off n :
  0 <= off -> 0 <= n -> off + n <= Z.of_nat (length a) ->
  Z.of_nat (length (slice a off n)) = n.
Proof. intros. unfold slice. rewrite length_take, length_drop. lia. Qed.

Lemma load_ok a off n :
  0 <= off -> 0 <= n -> off + n <= Z.of_nat (length a) -> load a off n = Ok (slice a off n).
Proof. intros. unfold load. case_if; [done|]. rewrite !andb_false_iff in E. lia. Qed.

(** Reading the middle of a concatenation. *)
Lemma load_mid p d r off n :
  off = Z.of_nat (length p) -> n = Z.of_nat (length d) -> load (p ++ d ++ r) off n = Ok d.
Proof.
  intros -> ->. rewrite load_ok by (rewrite ?length_app; lia). unfold slice.
  by rewrite !Nat2Z.id, drop_app_length, take_app_length.
Qed.

Lemma load1_lookup a off b :
  0 <= off -> a !! Z.to_nat off = Some b -> load1 a off = Ok b.
Proof. intros ? H. unfold load1. case_if; [|lia]. by rewrite H. Qed.

Lemma until0_app0 s l : Forall (fun c => c <> 0) s -> until0 (s ++ 0 :: l) = s.
Proof.
  induction 1 as [|c s Hc _ IH]; simpl; [done|].
  case_if; [lia|]. by rewrite IH.
Qed.

Lemma cstr_nonzero s : is_cstr s -> Forall (fun c => c <> 0) s.
Proof. intros H. eapply Forall_impl; [exact H|]. cbn. lia. Qed.

Lemma until0_cstr s l : is_cstr s -> until0 (s ++ 0 :: l) = s.
Proof. intros. by apply until0_app0, cstr_nonzero. Qed.

Lemma until0_nonzero l : Forall (fun c => c <> 0) (until0 l).
Proof. induction l as [|c l IH]; simpl; [done|]. case_if; by constructor. Qed.

Lemma until0_prefix l : take (length (until0 l)) l = until0 l.
Proof. induction l as [|c l IH]; simpl; [done|]. case_if; simpl; by rewrite ?IH. Qed.

#[export] Hint Resolve store_ok : quake.
