(* ===== verification/CFloat.v ===== *)
(** IEEE floating point as the C code uses it.

    [float] and [double] are the Standard Library's [spec_float] at the two
    precisions, rounding to nearest even, so every expression evaluates.  A float
    read through a union ([eval_t] of the virtual machine, the [dat] unions of the
    message functions) is its 32-bit pattern; [bits_of_f32] and [f32_of_bits]
    convert.  The formats have a single NaN, written as the pattern the SSE unit
    produces for an invalid operation. *)

From Stdlib Require Import SpecFloat.
From S2P Require Import Prelude.

Abbreviation f32 := spec_float.
Abbreviation f64 := spec_float.

Definition f32_add : f32 -> f32 -> f32 := SFadd 24 128.
Definition f32_sub : f32 -> f32 -> f32 := SFsub 24 128.
Definition f32_mul : f32 -> f32 -> f32 := SFmul 24 128.
Definition f32_div : f32 -> f32 -> f32 := SFdiv 24 128.
Definition f64_add : f64 -> f64 -> f64 := SFadd 53 1024.
Definition f64_sub : f64 -> f64 -> f64 := SFsub 53 1024.
Definition f64_mul : f64 -> f64 -> f64 := SFmul 53 1024.
Definition f64_div : f64 -> f64 -> f64 := SFdiv 53 1024.

Definition f_eqb : spec_float -> spec_float -> bool := SFeqb.
Definition f_ltb : spec_float -> spec_float -> bool := SFltb.
Definition f_leb : spec_float -> spec_float -> bool := SFleb.

(** [(float)z], [(double)z] of an integer. *)
Definition f32_of_Z (z : Z) : f32 := binary_normalize 24 128 z 0 false.
Definition f64_of_Z (z : Z) : f64 := binary_normalize 53 1024 z 0 false.

(** Widening and narrowing. *)
Definition f_convert (prec emax : Z) (x : spec_float) : spec_float :=
  match x with
  | S754_finite s m e => binary_round prec emax s m e
  | _ => x
  end.
Definition f64_of_f32 (x : f32) : f64 := f_convert 53 1024 x.
Definition f32_of_f64 (x : f64) : f32 := f_convert 24 128 x.

(** The integer part, towards zero. *)
Definition f_trunc (x : spec_float) : option Z :=
  match x with
  | S754_zero _ => Some 0
  | S754_finite s m e =>
      let a := if 0 <=? e then Z.pos m * 2 ^ e else Z.pos m / 2 ^ (- e) in
      Some (if s then - a else a)
  | _ => None
  end.

(** [(int)x]: out of range values convert to the "integer indefinite" pattern of
    the SSE conversion instructions. *)
Definition f_to_int (x : spec_float) : Z :=
  match f_trunc x with
  | Some z => if (INT_MIN <=? z) && (z <=? INT_MAX) then z else INT_MIN
  | None => INT_MIN
  end.

(** C truth of a float: everything that does not compare equal to zero. *)
Definition f_truth (x : spec_float) : bool := negb (f_eqb x (S754_zero false)).

Definition sign_bit (s : bool) : Z := if s then 2147483648 else 0.

Definition bits_of_f32 (x : f32) : Z :=
  match x with
  | S754_zero s => sign_bit s
  | S754_infinity s => sign_bit s + 2139095040
  | S754_nan => 4290772992
  | S754_finite s m e =>
      if Z.pos m <? 8388608
      then sign_bit s + Z.pos m
      else sign_bit s + (e + 150) * 8388608 + (Z.pos m - 8388608)
  end.

Definition f32_of_bits (b : Z) : f32 :=
  let s := 2147483648 <=? b in
  let ex := (b / 8388608) `mod` 256 in
  let mant := b `mod` 8388608 in
  if ex =? 0 then
    match mant with
    | Z.pos m => S754_finite s m (-149)
    | _ => S754_zero s
    end
  else if ex =? 255 then
    if mant =? 0 then S754_infinity s else S754_nan
  else
    match mant + 8388608 with
    | Z.pos m => S754_finite s m (ex - 150)
    | _ => S754_nan
    end.

(** The well-formed single-precision values. *)
Definition f32_valid (x : f32) : Prop := valid_binary 24 128 x = true.

(** ** Lemmas *)

Lemma digits2_bounds m :
  2 ^ (Z.pos (digits2_pos m) - 1) <= Z.pos m < 2 ^ Z.pos (digits2_pos m).
Proof.
  induction m as [m IH|m IH|]; simpl digits2_pos; [| |simpl; lia].
  all: set (d := Z.pos (digits2_pos m)) in *.
  all: rewrite Pos2Z.inj_succ; fold d.
  all: replace (2 ^ Z.succ d) with (2 * 2 ^ d) by (rewrite Z.pow_succ_r; lia).
  all: replace (Z.succ d - 1) with (Z.succ (d - 1)) by lia.
  all: replace (2 ^ Z.succ (d - 1)) with (2 * 2 ^ (d - 1)) by (rewrite Z.pow_succ_r; lia).
  all: lia.
Qed.

(** A valid finite value is normal (24 digits) or has the least exponent. *)
Lemma f32_valid_finite s m e :
  f32_valid (S754_finite s m e) ->
  Z.pos m < 16777216 /\ -149 <= e <= 104 /\ (Z.pos m < 8388608 -> e = -149).
Proof.
  unfold f32_valid, valid_binary, bounded, canonical_mantissa, fexp, emin.
  intros H. bool_props.
  pose proof (digits2_bounds m) as [Hlo Hhi].
  set (d := Z.pos (digits2_pos m)) in *.
  assert (d <= 24) by lia.
  assert (2 ^ d <= 2 ^ 24) by (apply Z.pow_le_mono_r; lia).
  split; [lia|]. split; [lia|]. intros Hm.
  destruct (decide (d = 24)) as [Hd|]; [|lia].
  rewrite Hd in Hlo. lia.
Qed.

Lemma sign_bit_cases s : sign_bit s = 0 \/ sign_bit s = 2147483648.
Proof. destruct s; auto. Qed.

Lemma bits_of_f32_range x :
  f32_valid x -> 0 <= bits_of_f32 x < 4294967296.
Proof.
  intros Hv. destruct x as [s|s| |s m e]; simpl; try (destruct s; simpl; lia); try lia.
  apply f32_valid_finite in Hv as (? & ? & ?).
  case_if; destruct s; simpl; lia.
Qed.

(** Decoding the fields of an encoded value. *)
Lemma f32_fields (s : bool) ex mant :
  0 <= ex < 256 -> 0 <= mant < 8388608 ->
  let b := sign_bit s + ex * 8388608 + mant in
  (2147483648 <=? b) = s /\ (b / 8388608) `mod` 256 = ex /\ b `mod` 8388608 = mant.
Proof.
  intros He Hm b. subst b.
  assert (ex * 8388608 <= 255 * 8388608) by lia.
  split; [destruct s; simpl; [apply Z.leb_le|apply Z.leb_gt]; lia|].
  set (h := (if s then 256 else 0) + ex).
  replace (sign_bit s + ex * 8388608 + mant) with (mant + h * 8388608)
    by (unfold h; destruct s; simpl sign_bit; lia).
  rewrite Z.div_add, Z.div_small, Z.mod_add, (Z.mod_small mant) by lia.
  split; [|done]. subst h. rewrite Z.add_0_l. destruct s.
  - replace (256 + ex) with (ex + 1 * 256) by lia. rewrite Z.mod_add, Z.mod_small; lia.
  - rewrite Z.mod_small; lia.
Qed.

Lemma f32_bits_roundtrip x : f32_valid x -> f32_of_bits (bits_of_f32 x) = x.
Proof.
  intros Hv. destruct x as [s|s| |s m e]; try (destruct s; reflexivity); try reflexivity.
  apply f32_valid_finite in Hv as (Hm & He & Hsub).
  unfold bits_of_f32, f32_of_bits. destruct (Z.pos m <? 8388608) eqn:E; bool_props.
  - pose proof (f32_fields s 0 (Z.pos m) ltac:(lia) ltac:(lia)) as (H1 & H2 & H3).
    rewrite Z.mul_0_l, Z.add_0_r in H1, H2, H3.
    rewrite H1, H2, H3. simpl. rewrite Hsub by lia. done.
  - pose proof (f32_fields s (e + 150) (Z.pos m - 8388608) ltac:(lia) ltac:(lia))
      as (H1 & H2 & H3).
    rewrite H1, H2, H3.
    do 2 (case_if; [lia|]).
    replace (Z.pos m - 8388608 + 8388608) with (Z.pos m) by lia.
    f_equal. lia.
Qed.
