(* ===== verification/CharConv.v ===== *)
(** Decimal texts of floats, as the C++ library writes and reads them.

    The TAS scripts store values with [std::to_chars] and read them with [std::from_chars];
    other texts are made with [operator<<].  The values of floats and of decimal texts are
    rational numbers.  [to_chars] writes the fewest digits that read back to the same float,
    in fixed or in scientific notation, whichever is shorter; [from_chars] rounds to nearest,
    ties to even, and gives no value for a text that is no number or outside the range. *)

From Stdlib Require Import SpecFloat QArith Qround Qpower Lqa.
From S2P Require Import Prelude CFloat.

#[export] Instance f32_eq_dec : EqDecision f32.
Proof. solve_decision. Defined.

(** * Rational numbers *)

Definition p2 (e : Z) : Q := Qpower 2 e.
Definition p10 (e : Z) : Q := Qpower 10 e.

(** Round to the nearest integer, ties to even. *)
Definition rhe (q : Q) : Z :=
  let f := Qfloor q in
  match Qcompare (q - inject_Z f) (1 # 2) with
  | Lt => f
  | Gt => f + 1
  | Eq => if Z.even f then f else f + 1
  end.

(** The greatest exponent [<= e] with [b ^ e <= q], among [fuel] many. *)
Fixpoint flog (b : Q) (fuel : nat) (e : Z) (q : Q) : Z :=
  match fuel with
  | O => e
  | S fuel => if Qle_bool (Qpower b e) q then e else flog b fuel (e - 1) q
  end.

(** The mantissa and the exponent of the float nearest to a positive [q]. *)
Definition round_q (q : Q) : option (positive * Z) :=
  let e := Z.max (-149) (flog 2 300 128 q - 23) in
  let m := rhe (q / p2 e) in
  let e' := if m =? 16777216 then e + 1 else e in
  let m' := if m =? 16777216 then 8388608 else m in
  if (104 <? e') || (m' <=? 0) then None else Some (Z.to_pos m', e').
Definition round_f32 (s : bool) (q : Q) : option f32 := (fun x => S754_finite s (fst x) (snd x)) <$> round_q q.

(** * Decimal digits *)

Fixpoint dec_loop (fuel : nat) (n : Z) (acc : bytes) : bytes :=
  match fuel with
  | O => acc
  | S fuel =>
      let acc := (48 + n `mod` 10) :: acc in
      if n <? 10 then acc else dec_loop fuel (n / 10) acc
  end.

(** The digits of [n >= 0]; it has at most as many as its binary representation. *)
Definition dec (n : Z) : bytes := dec_loop (S (Z.to_nat (Z.log2 n))) n [].

Definition is_digit (c : Z) : bool := (48 <=? c) && (c <=? 57).

Definition undec (ds : bytes) : Z := foldl (fun v c => v * 10 + (c - 48)) 0 ds.

Fixpoint take_digits (s : bytes) : bytes * bytes :=
  match s with
  | c :: s' => if is_digit c then let '(ds, r) := take_digits s' in (c :: ds, r) else ([], s)
  | [] => ([], [])
  end.

(** * Reading *)

(** Is the next character [x], and what comes after it. *)
Definition accept (x : Z) (s : bytes) : bool * bytes :=
  match s with c :: r => if c =? x then (true, r) else (false, s) | [] => (false, s) end.

(** An exponent, or 0 when there is none. *)
Definition exponent (r : bytes) : Z :=
  match r with
  | c :: r =>
      if (c =? 101) || (c =? 69) then
        let '(neg, r) := accept 45 (snd (accept 43 r)) in
        let '(ds, _) := take_digits r in
        if neg : bool then - undec ds else undec ds
      else 0
  | [] => 0
  end.

Definition lower (c : Z) : Z := if (65 <=? c) && (c <=? 90) then c + 32 else c.

Definition from_chars (s : bytes) : option f32 :=
  let '(neg, s) := accept 45 s in
  let word := lower <$> take 3 s in
  if bool_decide (word = cs "inf") then Some (S754_infinity neg)
  else if bool_decide (word = cs "nan") then Some S754_nan
  else
    let '(ip, r) := take_digits s in
    let '(point, r) := accept 46 r in
    let '(fp, r) := if point : bool then take_digits r else ([], r) in
    if bool_decide (ip ++ fp = []) then None
    else
      let d := undec (ip ++ fp) in
      if d =? 0 then Some (S754_zero neg)
      else round_f32 neg (inject_Z d * p10 (exponent r - zlen fp)).

(** * Writing *)

(** [n] significant digits of [q], as an integer and the power of ten it counts. *)
Definition sig_digits (n : Z) (q : Q) : Z * Z :=
  let k := flog 10 100 39 q - n + 1 in
  (rhe (q / p10 k), k).

(** The fewest digits, 9 at most, that round back to the float. *)
Fixpoint shortest (tries : nat) (n : Z) (f : f32) (q : Q) : Z * Z :=
  let '(d, k) := sig_digits n q in
  match tries with
  | O => (d, k)
  | S tries =>
      if bool_decide (round_f32 false (inject_Z d * p10 k) = Some f) then (d, k)
      else shortest tries (n + 1) f q
  end.

Fixpoint strip_zeros (fuel : nat) (d k : Z) : Z * Z :=
  match fuel with
  | O => (d, k)
  | S fuel => if d `mod` 10 =? 0 then strip_zeros fuel (d / 10) (k + 1) else (d, k)
  end.

Definition zeros (n : Z) : bytes := replicate (Z.to_nat n) 48.

Definition exp_text (x : Z) : bytes :=
  [101; if x <? 0 then 45 else 43] ++ (if Z.abs x <? 10 then [48] else []) ++ dec (Z.abs x).

Definition sci_text (d k : Z) : bytes :=
  match dec d with
  | c :: rest => [c] ++ (match rest with [] => [] | _ => 46 :: rest end) ++ exp_text (k + zlen rest)
  | [] => []
  end.

(** [whole]: the value when it is an integer. *)
Definition fixed_text (d k whole : Z) : bytes :=
  let ds := dec d in
  let x := k + zlen ds - 1 in
  if 0 <=? k then dec whole
  else if 0 <=? x then take (Z.to_nat (x + 1)) ds ++ [46] ++ drop (Z.to_nat (x + 1)) ds
  else [48; 46] ++ zeros (- x - 1) ++ ds.

Definition sign_text (s : bool) : bytes := if s then [45] else [].

Definition finite_text (m : positive) (e : Z) : bytes :=
  let q := (inject_Z (Zpos m) * p2 e)%Q in
  let '(d, k) := shortest 8 1 (S754_finite false m e) q in
  let '(d, k) := strip_zeros 9 d k in
  let fixed := fixed_text d k (if 0 <=? e then Zpos m * 2 ^ e else d * 10 ^ k) in
  let sci := sci_text d k in
  if (length fixed <=? length sci)%nat then fixed else sci.

Definition to_chars (f : f32) : bytes :=
  match f with
  | S754_zero s => sign_text s ++ [48]
  | S754_infinity s => sign_text s ++ cs "inf"
  | S754_nan => cs "nan"
  | S754_finite s m e => sign_text s ++ finite_text m e
  end.

(** [operator<<] on a stream with its default precision of six digits ([printf (%g)]). *)
Definition stream_text (f : f32) : bytes :=
  match f with
  | S754_zero s => sign_text s ++ [48]
  | S754_infinity s => sign_text s ++ cs "inf"
  | S754_nan => cs "nan"
  | S754_finite s m e =>
      let '(d, k) := sig_digits 6 (inject_Z (Zpos m) * p2 e) in
      let x := k + zlen (dec d) - 1 in
      let '(d, k) := strip_zeros 9 d k in
      sign_text s ++
      (if (-4 <=? x) && (x <? 6) then fixed_text d k (d * 10 ^ k) else sci_text d k)
  end.

Example to_chars_samples :
  (to_chars <$> [f32_of_bits 0x3f8020c5; f32_of_bits 0x3dcccccd; f32_of_Z 100; f32_of_Z (-3); f32_of_Z 12345678; f32_of_Z (10 ^ 10); f32_of_bits 1; f32_of_bits 0x7f7fffff]) =
  [cs "1.001"; cs "0.1"; cs "100"; cs "-3"; cs "12345678"; cs "1e+10"; cs "1e-45"; cs "3.4028235e+38"].
Proof. by_vm. Qed.

Example stream_text_samples :
  (stream_text <$> [f32_of_bits 0x42f6e9d5; f32_of_bits 0x3dcccccd; f32_of_Z 1234567; f32_of_Z (-3)]) =
  [cs "123.457"; cs "0.1"; cs "1.23457e+06"; cs "-3"].
Proof. by_vm. Qed.

Example from_chars_samples :
  (from_chars <$> [cs "1.001"; cs "-.5"; cs "2e3x"; cs "-"; cs "1e99"]) =
  [Some (f32_of_bits 0x3f8020c5); Some (f32_of_bits 0xbf000000); Some (f32_of_Z 2000); None; None].
Proof. by_vm. Qed.

(** * Rounding *)

#[local] Open Scope Q_scope.

Lemma p2_pos e : 0 < p2 e.
Proof. apply Qpower_0_lt. reflexivity. Qed.

Lemma p10_pos e : 0 < p10 e.
Proof. apply Qpower_0_lt. reflexivity. Qed.

Lemma p2_plus a b : p2 (a + b) == p2 a * p2 b.
Proof. apply Qpower_plus. discriminate. Qed.

Lemma p10_plus a b : p10 (a + b) == p10 a * p10 b.
Proof. apply Qpower_plus. discriminate. Qed.

#[global] Instance rhe_comp : Proper (Qeq ==> eq) rhe.
Proof. intros q q' H. unfold rhe. rewrite (Qfloor_comp _ _ H), H. done. Qed.

#[global] Instance Qle_bool_comp : Proper (Qeq ==> Qeq ==> eq) Qle_bool.
Proof. intros a b H c d H'. apply eq_iff_eq_true. rewrite !Qle_bool_iff, H, H'. done. Qed.

#[global] Instance flog_comp b fuel e : Proper (Qeq ==> eq) (flog b fuel e).
Proof.
  intros q q' H. revert e. induction fuel as [|fuel IH]; intros e; [done|]. cbn [flog]. rewrite H, IH. done.
Qed.

#[global] Instance round_q_comp : Proper (Qeq ==> eq) round_q.
Proof.
  intros q q' H. unfold round_q. rewrite (flog_comp 2 300 128 q q' H). set (e := Z.max _ _).
  assert (E : rhe (q / p2 e) = rhe (q' / p2 e)) by (apply rhe_comp; rewrite H; reflexivity). cbn zeta. by rewrite E.
Qed.

#[global] Instance round_comp s : Proper (Qeq ==> eq) (round_f32 s).
Proof. intros q q' H. unfold round_f32. by rewrite H. Qed.

Lemma rhe_near q : inject_Z (rhe q) - (1 # 2) <= q <= inject_Z (rhe q) + (1 # 2).
Proof.
  unfold rhe. pose proof (Qfloor_le q) as Hlo. pose proof (Qlt_floor q) as Hhi.
  rewrite inject_Z_plus in Hhi. set (f := Qfloor q) in *. change (inject_Z 1) with 1 in Hhi.
  destruct (Qcompare_spec (q - inject_Z f) (1 # 2)) as [H|H|H];
    [destruct (Z.even f)| |]; rewrite ?inject_Z_plus; change (inject_Z 1) with 1; lra.
Qed.

Lemma rhe_unique q z : inject_Z z - (1 # 2) < q < inject_Z z + (1 # 2) -> rhe q = z.
Proof.
  intros [Hlo Hhi]. pose proof (rhe_near q) as [H1 H2].
  assert (A : inject_Z (rhe q) < inject_Z (z + 1)) by (rewrite inject_Z_plus; change (inject_Z 1) with 1; lra).
  assert (B : inject_Z z < inject_Z (rhe q + 1)) by (rewrite inject_Z_plus; change (inject_Z 1) with 1; lra).
  rewrite <- Zlt_Qlt in A, B. lia.
Qed.

Lemma flog_spec b fuel : 1 < b -> forall e q, Qpower b (e - Z.of_nat fuel) <= q -> q < Qpower b (e + 1) ->
  let r := flog b fuel e q in Qpower b r <= q /\ q < Qpower b (r + 1).
Proof.
  intros Hb. induction fuel as [|fuel IH]; intros e q Hlo Hhi.
  - cbn. rewrite Z.sub_0_r in Hlo. done.
  - cbn [flog]. destruct (Qle_bool (Qpower b e) q) eqn:E; [apply Qle_bool_iff in E; done|].
    apply IH.
    + replace (e - 1 - Z.of_nat fuel)%Z with (e - Z.of_nat (S fuel))%Z by lia. done.
    + replace (e - 1 + 1)%Z with e by lia. apply Qnot_le_lt. intros H%Qle_bool_iff. congruence.
Qed.

(** The exponent is determined by its bounds. *)
Lemma flog2_unique q l : (-172 <= l <= 128)%Z -> p2 l <= q -> q < p2 (l + 1) -> flog 2 300 128 q = l.
Proof.
  intros Hl Hlo Hhi. destruct (flog_spec 2 300 ltac:(reflexivity) 128 q) as [H1 H2].
  - eapply Qle_trans; [|exact Hlo]. apply Qpower_le_compat_l; [lia|discriminate].
  - eapply Qlt_le_trans; [exact Hhi|]. apply Qpower_le_compat_l; [lia|discriminate].
  - set (r := flog 2 300 128 q) in *.
    assert (l < r + 1)%Z by (eapply (Qpower_lt_compat_l_inv 2); [|reflexivity]; eapply Qle_lt_trans; [exact Hlo|exact H2]).
    assert (r < l + 1)%Z by (eapply (Qpower_lt_compat_l_inv 2); [|reflexivity]; eapply Qle_lt_trans; [exact H1|exact Hhi]).
    lia.
Qed.

(** The value of a float, without its sign. *)
Definition mag (m : positive) (e : Z) : Q := inject_Z (Zpos m) * p2 e.

(** Numbers this close to a float are rounded to it. *)
Definition close (m : positive) (e : Z) (y : Q) : Prop :=
  mag m e - mag m e * (1 # 200000000) <= y <= mag m e + mag m e * (1 # 200000000).

Lemma p2_scale e n w : w * p2 e < p2 (e + n) <-> w < p2 n.
Proof.
  rewrite p2_plus, (Qmult_comm (p2 e)). apply Qmult_lt_r, p2_pos.
Qed.

Lemma p2_scale_le e n w : p2 (e + n) <= w * p2 e <-> p2 n <= w.
Proof.
  rewrite p2_plus, (Qmult_comm (p2 e)). apply Qmult_le_r, p2_pos.
Qed.

Lemma round_f32_intro s q l m e m0 :
  flog 2 300 128 q = l -> Z.max (-149) (l - 23) = e -> rhe (q / p2 e) = m0 ->
  ((m0 = Zpos m /\ m0 <> 16777216)%Z \/ (m0 = 16777216 /\ m = 8388608%positive)%Z) ->
  let e' := if (m0 =? 16777216)%Z then (e + 1)%Z else e in
  (e' <= 104)%Z -> round_f32 s q = Some (S754_finite s m e').
Proof.
  intros Hl He Hm Hcase e' Hmax. unfold round_f32, round_q. rewrite Hl, He, Hm. fold e'.
  assert (Hm' : (if (m0 =? 16777216)%Z then 8388608%Z else m0) = Zpos m).
  { destruct Hcase as [[-> H]|[-> ->]]; [|done]. by rewrite (proj2 (Z.eqb_neq _ _) H). }
  rewrite Hm', (proj2 (Z.ltb_ge _ _) Hmax). done.
Qed.

Lemma round_near s m e y : f32_valid (S754_finite s m e) -> close m e y -> round_f32 s y = Some (S754_finite s m e).
Proof.
  intros (Hm & He & Hsub)%f32_valid_finite [Hlo Hhi]. pose proof (p2_pos e) as Ht.
  set (w := y / p2 e). assert (Hw : y == w * p2 e) by (unfold w; field; intros E; rewrite E in Ht; discriminate).
  set (M := inject_Z (Zpos m)). unfold mag in Hlo, Hhi. fold M in Hlo, Hhi.
  assert (Hwb : M - M * (1 # 200000000) <= w /\ w <= M + M * (1 # 200000000)).
  { split; apply (Qmult_le_r _ _ (p2 e) Ht); rewrite <- Hw; [eapply Qle_trans; [|exact Hlo]|eapply Qle_trans; [exact Hhi|]];
      apply Qle_lteq; right; field. }
  assert (HM : 1 <= M /\ M <= 16777215) by (unfold M; change 1 with (inject_Z 1); change 16777215 with (inject_Z 16777215);
    rewrite <- !Zle_Qle; lia).
  assert (Hne : ~ p2 e == 0) by (intros E; rewrite E in Ht; discriminate).
  assert (Hround : rhe (w * p2 e / p2 e) = Zpos m).
  { assert (Hq : w * p2 e / p2 e == w) by (field; done). rewrite (rhe_comp _ _ Hq). apply rhe_unique. fold M. lra. }
  assert (H22 : p2 22 == 4194304) by reflexivity. assert (H23 : p2 23 == 8388608) by reflexivity.
  assert (H24 : p2 24 == 16777216) by reflexivity.
  rewrite (round_comp s _ _ Hw). assert (Hm24 : (Zpos m =? 16777216)%Z = false) by (apply Z.eqb_neq; lia).
  assert (Hgo : forall l, flog 2 300 128 (w * p2 e) = l -> Z.max (-149) (l - 23) = e -> round_f32 s (w * p2 e) = Some (S754_finite s m e)).
  { intros l Hl Hmax. pose proof (round_f32_intro s _ l m e _ Hl Hmax Hround) as H. rewrite Hm24 in H. apply H; [left; lia|lia]. }
  destruct (Qlt_le_dec w (p2 23)) as [Hb|Hb].
  - destruct (decide (e = -149)%Z) as [->|Hn].
    + apply (Hgo _ eq_refl). destruct (flog_spec 2 300 ltac:(reflexivity) 128 (w * p2 (-149))) as [Hf _].
      * apply (Qle_trans _ (p2 (-149 + -23))); [apply Qpower_le_compat_l; [lia|discriminate]|].
        apply p2_scale_le. assert (p2 (-23) == 1 # 8388608) by reflexivity. lra.
      * apply (Qlt_trans _ (p2 (-149 + 23))); [by apply p2_scale|]. reflexivity.
      * assert (flog 2 300 128 (w * p2 (-149)) < -149 + 23)%Z; [|lia].
        apply (Qpower_lt_compat_l_inv 2); [|reflexivity]. eapply Qle_lt_trans; [exact Hf|]. by apply p2_scale.
    + assert (Hm8 : m = 8388608%positive).
      { assert (8388608 <= Zpos m)%Z by (destruct (Z.le_gt_cases 8388608 (Zpos m)); [done|]; lia).
        assert (Hlt : M < 8388609) by lra. unfold M in Hlt. change 8388609 with (inject_Z 8388609) in Hlt. rewrite <- Zlt_Qlt in Hlt. lia. }
      subst m. assert (Hr2 : rhe (w * p2 e / p2 (e - 1)) = 16777216%Z).
      { assert (Hq : w * p2 e / p2 (e - 1) == 2 * w).
        { replace (e - 1)%Z with (e + -1)%Z by lia. rewrite p2_plus. assert (Hh : p2 (-1) == / 2) by reflexivity. rewrite Hh. field. done. }
        rewrite (rhe_comp _ _ Hq). apply rhe_unique. change (inject_Z 16777216) with 16777216.
        assert (M == 8388608) by reflexivity. lra. }
      assert (Hl : flog 2 300 128 (w * p2 e) = (e + 22)%Z).
      { apply flog2_unique; [lia| |].
        - apply p2_scale_le. assert (M == 8388608) by reflexivity. lra.
        - replace (e + 22 + 1)%Z with (e + 23)%Z by lia. by apply p2_scale. }
      pose proof (round_f32_intro s _ _ 8388608 (e - 1) _ Hl ltac:(lia) Hr2 ltac:(by right)) as H.
      cbn zeta in H. rewrite Z.eqb_refl in H. replace (e - 1 + 1)%Z with e in H by lia. apply H. lia.
  - apply (Hgo (e + 23)%Z); [|lia]. apply flog2_unique; [lia|by apply p2_scale_le|].
    replace (e + 23 + 1)%Z with (e + 24)%Z by lia. apply p2_scale. lra.
Qed.

(** * Digits *)

#[local] Close Scope Q_scope.

Lemma undec_loop ds v : foldl (fun v c => v * 10 + (c - 48)) v ds = v * 10 ^ zlen ds + undec ds.
Proof.
  unfold undec. revert v. induction ds as [|c ds IH]; intros v; [simpl; lia|]. cbn [foldl]. rewrite IH, (IH (0 * 10 + (c - 48))).
  cbn [length]. rewrite Nat2Z.inj_succ, Z.pow_succ_r by lia. lia.
Qed.

Lemma undec_app a b : undec (a ++ b) = undec a * 10 ^ zlen b + undec b.
Proof. unfold undec at 1. rewrite foldl_app. apply undec_loop. Qed.

Lemma undec_zeros n : undec (zeros n) = 0.
Proof.
  unfold zeros. induction (Z.to_nat n) as [|k IH]; [done|]. change (replicate (S k) 48) with ([48] ++ replicate k 48).
  rewrite undec_app, IH. done.
Qed.

Definition all_digits (ds : bytes) : Prop := Forall (fun c => is_digit c = true) ds.

Lemma dec_loop_spec fuel : forall n acc, 0 <= n -> n < 10 ^ Z.of_nat fuel -> (0 < fuel)%nat -> exists ds, dec_loop fuel n acc = ds ++ acc /\
  all_digits ds /\ undec ds = n /\ ds <> [].
Proof.
  induction fuel as [|fuel IH]; intros n acc Hn Hf Hpos; [lia|]. cbn [dec_loop].
  assert (Hd : is_digit (48 + n `mod` 10) = true).
  { unfold is_digit. pose proof (Z.mod_pos_bound n 10 ltac:(lia)). apply andb_true_iff. split; apply Z.leb_le; lia. }
  rewrite Nat2Z.inj_succ, Z.pow_succ_r in Hf by lia.
  destruct (n <? 10) eqn:E; bool_props.
  - exists [48 + n `mod` 10]. split; [done|]. split; [by constructor|]. split; [|done]. unfold undec. cbn. rewrite Z.mod_small; lia.
  - destruct (IH (n / 10) ((48 + n `mod` 10) :: acc)) as (ds & E1 & H1 & H2 & H3).
    + apply Z.div_pos; lia.
    + apply Z.div_lt_upper_bound; lia.
    + destruct fuel; [simpl in Hf; lia|lia].
    + exists (ds ++ [48 + n `mod` 10]). rewrite E1, <- app_assoc. split; [done|]. split; [by apply Forall_app; split; [|constructor]|].
      split; [|by destruct ds]. rewrite undec_app, H2. unfold undec. cbn. pose proof (Z.div_mod n 10 ltac:(lia)). lia.
Qed.

Lemma dec_spec n : 0 <= n -> all_digits (dec n) /\ undec (dec n) = n /\ dec n <> [].
Proof.
  intros Hn. unfold dec. destruct (dec_loop_spec (S (Z.to_nat (Z.log2 n))) n [] Hn) as (ds & -> & H); [|lia|by rewrite app_nil_r].
  destruct (decide (n = 0)) as [->|]; [done|]. pose proof (Z.log2_spec n ltac:(lia)) as [_ Hlt].
  eapply Z.lt_le_trans; [exact Hlt|]. rewrite Nat2Z.inj_succ, Z2Nat.id by apply Z.log2_nonneg.
  apply Z.pow_le_mono_l. lia.
Qed.

(** The text that follows starts with something else. *)
Definition ends_digits (r : bytes) : Prop := match r with c :: _ => is_digit c = false | [] => True end.

Lemma take_digits_app ds r : all_digits ds -> ends_digits r -> take_digits (ds ++ r) = (ds, r).
Proof.
  intros H Hr. induction H as [|c ds Hc _ IH].
  - destruct r as [|c r]; [done|]. simpl in *. by rewrite Hr.
  - cbn [app take_digits]. by rewrite Hc, IH.
Qed.

Lemma take_digits_all ds : all_digits ds -> take_digits ds = (ds, []).
Proof. intros H. rewrite <- (app_nil_r ds) at 1. by apply take_digits_app. Qed.

Lemma digit_neq c x : is_digit c = true -> is_digit x = false -> (c =? x) = false.
Proof. intros Hc Hx. apply Z.eqb_neq. intros ->. congruence. Qed.

Lemma accept_digits x ds r : all_digits ds -> ds <> [] -> is_digit x = false -> accept x (ds ++ r) = (false, ds ++ r).
Proof. intros H Hne Hx. destruct H as [|c ds Hc _]; [done|]. cbn. by rewrite (digit_neq c x). Qed.

Lemma accept_sign s ds r : all_digits ds -> ds <> [] -> accept 45 (sign_text s ++ ds ++ r) = (s, ds ++ r).
Proof. intros H Hne. destruct s; [done|]. exact (accept_digits 45 ds r H Hne eq_refl). Qed.

Lemma no_word ds r w : all_digits ds -> ds <> [] -> match w with c :: _ => 97 <= c | [] => False end ->
  lower <$> take 3 (ds ++ r) <> w.
Proof.
  intros H Hne Hw. destruct H as [|c ds Hc _]; [done|]. destruct w as [|c' w]; [done|]. cbn. intros E. injection E as E _.
  unfold is_digit in Hc. unfold lower in E. bool_props. case_if_in E; bool_props; lia.
Qed.

Definition value_of (s : bool) (d x : Z) : option f32 :=
  if d =? 0 then Some (S754_zero s) else round_f32 s (inject_Z d * p10 x).

(** A number without a point. *)
Lemma from_chars_int s ds r : all_digits ds -> ds <> [] -> ends_digits r -> accept 46 r = (false, r) ->
  from_chars (sign_text s ++ ds ++ r) = value_of s (undec ds) (exponent r).
Proof.
  intros Hd Hne Hr Hp. unfold from_chars. rewrite accept_sign by done.
  rewrite !bool_decide_false by (by apply no_word). rewrite take_digits_app by done. rewrite Hp. cbn zeta.
  rewrite app_nil_r, bool_decide_false by done. unfold value_of. cbn [length]. by rewrite Z.sub_0_r.
Qed.

(** A number with a point. *)
Lemma from_chars_point s ip fp r : all_digits ip -> ip <> [] -> all_digits fp -> ends_digits r ->
  from_chars (sign_text s ++ ip ++ 46 :: fp ++ r) = value_of s (undec (ip ++ fp)) (exponent r - zlen fp).
Proof.
  intros Hd Hne Hf Hr. unfold from_chars. rewrite accept_sign by done.
  rewrite !bool_decide_false by (by apply no_word). rewrite take_digits_app by done.
  change (accept 46 (46 :: fp ++ r)) with (true, fp ++ r). cbn iota beta zeta. rewrite take_digits_app by done.
  rewrite bool_decide_false by (by destruct ip). done.
Qed.

Lemma exponent_text x : exponent (exp_text x) = x.
Proof.
  unfold exp_text. destruct (dec_spec (Z.abs x) ltac:(lia)) as (Hd & Hu & Hne). set (ds := dec (Z.abs x)) in *.
  set (pre := if Z.abs x <? 10 then [48] else []).
  assert (Hpre : all_digits (pre ++ ds) /\ undec (pre ++ ds) = Z.abs x /\ pre ++ ds <> []).
  { unfold pre. destruct (Z.abs x <? 10); [|done]. split; [by constructor|]. split; [|done]. rewrite undec_app, Hu. done. }
  destruct Hpre as (Hd' & Hu' & Hne'). cbn [app exponent]. cbn [Z.eqb orb Pos.eqb].
  assert (Ha : accept 45 (snd (accept 43 ((if x <? 0 then 45 else 43) :: pre ++ ds))) = (x <? 0, pre ++ ds)).
  { destruct (x <? 0); [done|]. pose proof (accept_digits 45 (pre ++ ds) [] Hd' Hne' eq_refl) as H. by rewrite app_nil_r in H. }
  rewrite Ha, take_digits_all, Hu' by done. destruct (x <? 0) eqn:E; bool_props; lia.
Qed.

Lemma exp_text_ends x : ends_digits (exp_text x) /\ accept 46 (exp_text x) = (false, exp_text x).
Proof. done. Qed.

Lemma sci_read s d k : 0 < d -> from_chars (sign_text s ++ sci_text d k) = value_of s d k.
Proof.
  intros Hd. unfold sci_text. destruct (dec_spec d ltac:(lia)) as (Ha & Hu & Hne). destruct (dec d) as [|c rest] eqn:E; [done|].
  pose proof Ha as [Hc Hrest]%Forall_cons. destruct (exp_text_ends (k + zlen rest)) as [He1 He2].
  destruct rest as [|c' rest'].
  - change (from_chars (sign_text s ++ [c] ++ exp_text (k + 0)) = value_of s d k).
    rewrite from_chars_int; [|constructor; [exact Hc|constructor]|discriminate|exact He1|exact He2]. by rewrite exponent_text, Hu, Z.add_0_r.
  - set (rest := c' :: rest') in *. change (from_chars (sign_text s ++ [c] ++ 46 :: rest ++ exp_text (k + zlen rest)) = value_of s d k).
    rewrite from_chars_point; [|constructor; [exact Hc|constructor]|discriminate|exact Hrest|exact He1].
    rewrite exponent_text. change ([c] ++ rest) with (c :: rest). rewrite Hu.
    replace (k + zlen rest - zlen rest) with k by lia. reflexivity.
Qed.

Lemma all_digits_zeros n : all_digits (zeros n).
Proof. unfold zeros. by apply Forall_replicate. Qed.

Lemma fixed_read s d k whole : 0 < d -> 0 <= whole ->
  from_chars (sign_text s ++ fixed_text d k whole) = if 0 <=? k then value_of s whole 0 else value_of s d k.
Proof.
  intros Hd Hw. unfold fixed_text. destruct (dec_spec d ltac:(lia)) as (Ha & Hu & Hne).
  destruct (0 <=? k) eqn:Ek; bool_props.
  - destruct (dec_spec whole Hw) as (Ha' & Hu' & Hne'). rewrite <- (app_nil_r (dec whole)).
    rewrite from_chars_int by done. by rewrite Hu'.
  - set (ds := dec d) in *. set (x := k + zlen ds - 1). destruct (0 <=? x) eqn:Ex; bool_props.
    + assert (Hl : (Z.to_nat (x + 1) <= length ds)%nat) by lia.
      set (n := Z.to_nat (x + 1)) in *.
      assert (E : take n ds ++ [46] ++ drop n ds = take n ds ++ 46 :: drop n ds ++ []) by (by rewrite app_nil_r). rewrite E.
      rewrite from_chars_point; [| | | |done].
      * rewrite take_drop, Hu. cbn [exponent]. rewrite length_drop.
        replace (0 - Z.of_nat (length ds - n)) with k by lia. reflexivity.
      * by apply Forall_take.
      * destruct ds; [done|]. unfold n. replace (Z.to_nat (x + 1)) with (S (Z.to_nat x)) by lia. discriminate.
      * by apply Forall_drop.
    + rewrite <- (app_nil_r (zeros _ ++ ds)). change ([48; 46] ++ (zeros (- x - 1) ++ ds) ++ []) with ([48] ++ 46 :: (zeros (- x - 1) ++ ds) ++ []).
      rewrite from_chars_point; [|by constructor|discriminate|apply Forall_app; split; [apply all_digits_zeros|done]|done].
      rewrite app_assoc, undec_app, Hu. change ([48] ++ zeros (- x - 1)) with ([48] ++ zeros (- x - 1)).
      rewrite undec_app, undec_zeros. change (undec [48]) with 0. rewrite Z.mul_0_l, Z.add_0_l.
      cbn [exponent]. rewrite length_app. unfold zeros. rewrite length_replicate.
      replace (0 - Z.of_nat (Z.to_nat (- x - 1) + length ds)) with k by lia. reflexivity.
Qed.

(** * The shortest text *)

Lemma mag_bounds s m e : f32_valid (S754_finite s m e) -> (p10 (39 - 100) <= mag m e /\ mag m e < p10 (39 + 1))%Q.
Proof.
  intros (Hm & He & _)%f32_valid_finite. unfold mag. pose proof (p2_pos e) as Ht. split.
  - apply (Qle_trans _ (p2 (-149))); [by vm_compute|]. apply (Qle_trans _ (1 * p2 e)%Q).
    + rewrite Qmult_1_l. apply Qpower_le_compat_l; [lia|discriminate].
    + apply Qmult_le_r; [done|]. change 1%Q with (inject_Z 1). rewrite <- Zle_Qle. lia.
  - apply (Qlt_le_trans _ (p2 24 * p2 104)%Q); [|by vm_compute]. apply (Qlt_le_trans _ (p2 24 * p2 e)%Q).
    + apply Qmult_lt_r; [done|]. change (p2 24) with (inject_Z 16777216). rewrite <- Zlt_Qlt. lia.
    + apply Qmult_le_l; [reflexivity|]. apply Qpower_le_compat_l; [lia|discriminate].
Qed.

Lemma sig_digits_spec s m e n d k : f32_valid (S754_finite s m e) -> 1 <= n -> sig_digits n (mag m e) = (d, k) ->
  0 < d /\ (mag m e - p10 k * (1 # 2) <= inject_Z d * p10 k <= mag m e + p10 k * (1 # 2))%Q /\
  (p10 (k + n - 1) <= mag m e)%Q.
Proof.
  intros Hv Hn E. unfold sig_digits in E. pose proof (f_equal fst E) as Ed. pose proof (f_equal snd E) as Ek. cbn [fst snd] in Ed, Ek. clear E. destruct (mag_bounds s m e Hv) as [Hlo Hhi].
  destruct (flog_spec 10 100 ltac:(reflexivity) 39 (mag m e) Hlo Hhi) as [Hf _]. rewrite Ek in Ed.
  replace (flog 10 100 39 (mag m e)) with (k + n - 1) in Hf by lia. fold (p10 (k + n - 1)) in Hf.
  pose proof (p10_pos k) as Hk. assert (Hne : ~ (p10 k == 0)%Q) by (intros H; rewrite H in Hk; discriminate).
  set (w := (mag m e / p10 k)%Q) in *. assert (Hw : (mag m e == w * p10 k)%Q) by (unfold w; field; done).
  pose proof (rhe_near w) as [H1 H2]. rewrite Ed in H1, H2. split; [|split; [|done]].
  - assert (Hw1 : (1 <= w)%Q).
    { apply (Qmult_le_r _ _ (p10 k) Hk). rewrite <- Hw, Qmult_1_l. eapply Qle_trans; [|exact Hf].
      apply Qpower_le_compat_l; [lia|discriminate]. }
    assert (Hd : (inject_Z 0 < inject_Z d)%Q) by (change (inject_Z 0) with 0%Q; lra). by rewrite <- Zlt_Qlt in Hd.
  - rewrite Hw. split.
    + assert (H : (w * p10 k <= (inject_Z d + (1 # 2)) * p10 k)%Q) by (by apply Qmult_le_r). lra.
    + assert (H : ((inject_Z d - (1 # 2)) * p10 k <= w * p10 k)%Q) by (by apply Qmult_le_r). lra.
Qed.

(** Nine digits are always enough. *)
Lemma nine_digits s m e d k : f32_valid (S754_finite s m e) -> sig_digits 9 (mag m e) = (d, k) ->
  round_f32 s (inject_Z d * p10 k) = Some (S754_finite s m e).
Proof.
  intros Hv E. destruct (sig_digits_spec s m e 9 d k Hv ltac:(lia) E) as (_ & [H1 H2] & Hf). apply round_near; [done|].
  replace (k + 9 - 1) with (k + 8) in Hf by lia. rewrite p10_plus in Hf. change (p10 8) with (100000000 # 1)%Q in Hf.
  unfold close. split; lra.
Qed.

Lemma round_sign s m e q : round_f32 false q = Some (S754_finite false m e) -> round_f32 s q = Some (S754_finite s m e).
Proof.
  unfold round_f32. destruct (round_q q) as [[m' e']|]; [|discriminate]. cbn. intros H. injection H as -> ->. done.
Qed.

#[local] Opaque sig_digits round_q mag.

Lemma shortest_spec m e : f32_valid (S754_finite false m e) -> forall tries n d k, n + Z.of_nat tries = 9 -> 1 <= n ->
  shortest tries n (S754_finite false m e) (mag m e) = (d, k) ->
  0 < d /\ round_f32 false (inject_Z d * p10 k) = Some (S754_finite false m e).
Proof.
  intros Hv. induction tries as [|tries IH]; intros n d k Hn H1 E; cbn [shortest] in E;
    destruct (sig_digits n (mag m e)) as [d0 k0] eqn:Es.
  - injection E as -> ->. assert (n = 9) by lia. subst n.
    split; [by eapply (sig_digits_spec false m e 9)|by apply nine_digits].
  - case_bool_decide as Hr; [|eapply IH; [| |exact E]; lia]. injection E as -> ->.
    split; [by eapply (sig_digits_spec false m e n)|exact Hr].
Qed.

#[local] Transparent sig_digits round_q mag.

Lemma strip_zeros_spec fuel : forall d k d' k', 0 < d -> strip_zeros fuel d k = (d', k') ->
  0 < d' /\ (inject_Z d' * p10 k' == inject_Z d * p10 k)%Q.
Proof.
  induction fuel as [|fuel IH]; intros d k d' k' Hd E; cbn [strip_zeros] in E; [by injection E as <- <-|].
  case_if_in E; [|by injection E as <- <-]. rename E0 into Hmod.
  assert (Hdiv : d = 10 * (d / 10)) by (pose proof (Z.div_mod d 10 ltac:(lia)); lia).
  destruct (IH (d / 10) (k + 1) d' k' ltac:(lia) E) as [Hpos Heq]. split; [done|]. rewrite Heq.
  rewrite Hdiv at 2. rewrite inject_Z_mult, p10_plus. change (p10 1) with 10%Q. change (inject_Z 10) with 10%Q. lra.
Qed.

Lemma value_of_round s d k q f : 0 < d -> (inject_Z d * p10 k == q)%Q -> round_f32 s q = Some f -> value_of s d k = Some f.
Proof.
  intros Hd Hq Hr. unfold value_of. rewrite (proj2 (Z.eqb_neq _ _)) by lia. by rewrite (round_comp s _ _ Hq).
Qed.

Lemma p10_int k : 0 <= k -> (p10 k == inject_Z (10 ^ k))%Q.
Proof. intros Hk. unfold p10. rewrite Zpower_Qpower by done. reflexivity. Qed.

Lemma finite_read s m e : f32_valid (S754_finite s m e) -> from_chars (sign_text s ++ finite_text m e) = Some (S754_finite s m e).
Proof.
  intros Hv. assert (Hv' : f32_valid (S754_finite false m e)) by done. unfold finite_text. fold (mag m e).
  destruct (shortest 8 1 (S754_finite false m e) (mag m e)) as [d0 k0] eqn:Es.
  destruct (shortest_spec m e Hv' 8 1 d0 k0 eq_refl ltac:(lia) Es) as [Hd0 Hr]. apply (round_sign s) in Hr.
  destruct (strip_zeros 9 d0 k0) as [d k] eqn:Ez. destruct (strip_zeros_spec 9 _ _ _ _ Hd0 Ez) as [Hd Hq].
  assert (Hval : value_of s d k = Some (S754_finite s m e)) by (by eapply value_of_round).
  case_if; [|by rewrite sci_read]. clear E. rewrite fixed_read; [|done|].
  - destruct (0 <=? k) eqn:Ek; [|done]. bool_props. destruct (0 <=? e) eqn:Ee; bool_props.
    + eapply (value_of_round s _ 0 (mag m e)); [apply Z.mul_pos_pos; [lia|apply Z.pow_pos_nonneg; lia]| |].
      * change (p10 0) with 1%Q. rewrite Qmult_1_r, inject_Z_mult. unfold mag, p2. by rewrite Zpower_Qpower.
      * apply round_near; [done|]. unfold close. assert (0 < mag m e)%Q; [|split; lra].
        unfold mag. apply Qmult_lt_0_compat; [|apply p2_pos]. done.
    + eapply value_of_round; [apply Z.mul_pos_pos; [done|apply Z.pow_pos_nonneg; lia]| |exact Hr].
      rewrite <- Hq. change (p10 0) with 1%Q. rewrite Qmult_1_r, inject_Z_mult, p10_int by done. reflexivity.
  - destruct (0 <=? e) eqn:Ee; bool_props; [apply Z.mul_nonneg_nonneg; [lia|apply Z.pow_nonneg; lia]|].
    apply Z.mul_nonneg_nonneg; [lia|apply Z.pow_nonneg; lia].
Qed.

(** The text [std::to_chars] writes for a float reads back, with [std::from_chars], to the same
    float: nine significant digits always suffice, and the notations it chooses between denote
    the same number. *)
Lemma to_chars_read f : f32_valid f -> from_chars (to_chars f) = Some f.
Proof.
  intros Hv. destruct f as [s|s| |s m e]; [by destruct s|by destruct s|done|by apply finite_read].
Qed.

(** * The characters of a number *)

Definition is_finite (f : f32) : bool := match f with S754_zero _ | S754_finite _ _ _ => true | _ => false end.

Definition numeric (c : Z) : bool := is_digit c || (c =? 46) || (c =? 45) || (c =? 43) || (c =? 101).
Definition starts_number (l : bytes) : Prop := match l with c :: _ => is_digit c || (c =? 46) || (c =? 45) = true | [] => False end.

Lemma dec_digits n : all_digits (dec n) /\ dec n <> [].
Proof.
  assert (H : forall fuel n acc, all_digits acc -> all_digits (dec_loop fuel n acc)).
  { induction fuel as [|fuel IH]; intros k acc Ha; [done|]. cbn [dec_loop].
    assert (Hc : all_digits (48 + k `mod` 10 :: acc)).
    { constructor; [|done]. unfold is_digit. pose proof (Z.mod_pos_bound k 10 ltac:(lia)). apply andb_true_iff. rewrite !Z.leb_le. lia. }
    destruct (k <? 10); [done|]. by apply IH. }
  split; [apply H; constructor|]. assert (Hne : forall fuel n acc, acc <> [] -> dec_loop fuel n acc <> []).
  { induction fuel as [|fuel IH]; intros k acc Ha; [done|]. cbn [dec_loop]. destruct (k <? 10); [done|]. by apply IH. }
  unfold dec. cbn [dec_loop]. destruct (n <? 10); [done|]. by apply Hne.
Qed.

Definition number_text (l : bytes) : Prop := Forall (fun c => numeric c = true) l /\ starts_number l.

Lemma digits_numeric l : all_digits l -> Forall (fun c => numeric c = true) l.
Proof. intros H. eapply Forall_impl; [exact H|]. intros c Hc. cbn in Hc |- *. unfold numeric. by rewrite Hc. Qed.

Lemma digits_text l r : all_digits l -> l <> [] -> Forall (fun c => numeric c = true) r -> number_text (l ++ r).
Proof.
  intros Hl Hne Hr. split; [apply Forall_app; split; [by apply digits_numeric|done]|].
  destruct Hl as [|c l Hc _]; [done|]. cbn in Hc |- *. by rewrite Hc.
Qed.

Lemma fixed_text_number d k whole : number_text (fixed_text d k whole).
Proof.
  unfold fixed_text. destruct (dec_digits d) as [Hd Hn], (dec_digits whole) as [Hw Hwn]. cbv zeta. case_if.
  - rewrite <- (app_nil_r (dec whole)). by apply digits_text.
  - case_if.
    + apply digits_text; [by apply Forall_take|destruct (dec d) as [|z b]; [done|]|].
      * replace (Z.to_nat (k + zlen (z :: b) - 1 + 1)) with (S (Z.to_nat (k + zlen (z :: b) - 1))) by lia. done.
      * constructor; [done|]. by apply digits_numeric, Forall_drop.
    + split; [|done]. repeat (constructor; [done|]). apply digits_numeric, Forall_app. split; [apply all_digits_zeros|done].
Qed.

Lemma sci_text_number d k : number_text (sci_text d k).
Proof.
  unfold sci_text. destruct (dec_digits d) as [Hd Hn]. destruct (dec d) as [|c rest]; [done|]. apply Forall_cons in Hd as [Hc Hr].
  apply digits_text; [by constructor|done|]. apply Forall_app. split.
  - destruct rest; [constructor|]. constructor; [done|]. by apply digits_numeric.
  - unfold exp_text. repeat (constructor; [by case_if || done|]). apply Forall_app. split; [case_if; by repeat constructor|].
    apply digits_numeric, dec_digits.
Qed.

Lemma to_chars_number f : is_finite f = true -> number_text (to_chars f).
Proof.
  assert (Hs : forall s l, number_text l -> number_text (sign_text s ++ l)).
  { intros [] l [H1 H2]; [|done]. split; [constructor; [done|exact H1]|done]. }
  destruct f as [s|s| |s m e]; intros H; try done; [apply Hs; by split; repeat constructor|]. apply Hs. unfold finite_text.
  destruct (shortest _ _ _ _) as [d k], (strip_zeros 9 d k) as [d' k']. case_if; [apply fixed_text_number|apply sci_text_number].
Qed.
