(* ===== verification/SizeBuf.v ===== *)
(** Size-checked message buffers and the wire encoding (Source/common.c).

    [sizebuf] is [sizebuf_t]: the [data] pointer is the array object it points
    at, so a write outside that object is [Undefined].  The reading functions
    work on the globals [net_message], [msg_readcount] and [msg_badread], kept in
    [msgstate].  Console output ([Con_Printf]) is not part of the state. *)

From Stdlib Require Import SpecFloat.
From S2P Require Import Prelude CFloat.

(** * Byte order *)

Inductive endian : Type := LittleEndian | BigEndian.

(** The machine's own layout of a [short] and of an [int]. *)
Definition native2 (h : endian) (b0 b1 : Z) : Z :=
  match h with
  | LittleEndian => s16 (b0 + b1 * 256)
  | BigEndian => s16 (b1 + b0 * 256)
  end.

Definition bytes_of_int (h : endian) (l : Z) : bytes :=
  let b := [u8 l; u8 (l >> 8); u8 (l >> 16); u8 (l >> 24)] in
  match h with LittleEndian => b | BigEndian => rev b end.

Definition int_of_bytes (h : endian) (b : bytes) : Z :=
  match (match h with LittleEndian => b | BigEndian => rev b end) with
  | [b0; b1; b2; b3] => s32 (b0 + b1 * 256 + b2 * 65536 + b3 * 16777216)
  | _ => 0
  end.

(** C: Source/common.c:296-304 ShortSwap *)
Definition ShortSwap (l : Z) : Z :=
  let b1 := u8 (l & 255) in
  let b2 := u8 ((l >> 8) & 255) in
  s16 ((b1 << 8) + b2).

(** C: Source/common.c:306-309 ShortNoSwap *)
Definition ShortNoSwap (l : Z) : Z := l.

(** C: Source/common.c:311-321 LongSwap *)
Definition LongSwap (l : Z) : Z :=
  let b1 := u8 (l & 255) in
  let b2 := u8 ((l >> 8) & 255) in
  let b3 := u8 ((l >> 16) & 255) in
  let b4 := u8 ((l >> 24) & 255) in
  s32 ((b1 << 24) + (b2 << 16) + (b3 << 8) + b4).

(** C: Source/common.c:323-326 LongNoSwap *)
Definition LongNoSwap (l : Z) : Z := l.

(** A [float] that is only moved around is its bit pattern: swapping one can
    produce any pattern, signalling NaNs included.
    C: Source/common.c:328-343 FloatSwap *)
Definition FloatSwap (h : endian) (f : Z) : Z :=
  match bytes_of_int h f with
  | [b0; b1; b2; b3] => u32 (int_of_bytes h [b3; b2; b1; b0])
  | _ => 0
  end.

(** C: Source/common.c:345-348 FloatNoSwap *)
Definition FloatNoSwap (f : Z) : Z := f.

(** C: Source/common.c:287-294 BigShort *)
Record byteorder : Type := {
  bigendien : bool;
  BigShort : Z -> Z;
  LittleShort : Z -> Z;
  BigLong : Z -> Z;
  LittleLong : Z -> Z;
  BigFloat : Z -> Z;
  LittleFloat : Z -> Z
}.

(** The run-time test [*(short * )swaptest == 1] on the bytes 1, 0.
    C: Source/common.c:986-1010 COM_Init *)
Definition COM_Init_byteorder (h : endian) : byteorder :=
  if native2 h 1 0 =? 1 then
    {| bigendien := false;
       BigShort := ShortSwap; LittleShort := ShortNoSwap;
       BigLong := LongSwap; LittleLong := LongNoSwap;
       BigFloat := FloatSwap h; LittleFloat := FloatNoSwap |}
  else
    {| bigendien := true;
       BigShort := ShortNoSwap; LittleShort := ShortSwap;
       BigLong := LongNoSwap; LittleLong := LongSwap;
       BigFloat := FloatNoSwap; LittleFloat := FloatSwap h |}.

(** * Buffers *)

(** C: Source/common.h:58-65 sizebuf_t *)
Record sizebuf : Type := SizeBuf {
  allowoverflow : bool;
  overflowed : bool;
  data : bytes;
  maxsize : Z;
  cursize : Z
}.

Definition set_cursize (n : Z) (b : sizebuf) : sizebuf :=
  SizeBuf (allowoverflow b) (overflowed b) (data b) (maxsize b) n.
Definition set_data (d : bytes) (b : sizebuf) : sizebuf :=
  SizeBuf (allowoverflow b) (overflowed b) d (maxsize b) (cursize b).
Definition set_overflowed (o : bool) (b : sizebuf) : sizebuf :=
  SizeBuf (allowoverflow b) o (data b) (maxsize b) (cursize b).

(** Write bytes at an offset of the data object. *)
Definition poke (b : sizebuf) (off : Z) (d : bytes) : res sizebuf :=
  a ← store (data b) off d; mret (set_data a b).

(** C: Source/common.c:585-591 SZ_Free *)
Definition SZ_Free (buf : sizebuf) : sizebuf := set_cursize 0 buf.

(** C: Source/common.c:593-596 SZ_Clear *)
Definition SZ_Clear (buf : sizebuf) : sizebuf := set_cursize 0 buf.

(** Returns the offset the C pointer has in the data object.
    C: Source/common.c:598-619 SZ_GetSpace *)
Definition SZ_GetSpace (buf : sizebuf) (length : Z) : res (Z * sizebuf) :=
  buf ← (if maxsize buf <? cursize buf + length then
           if negb (allowoverflow buf) then
             Fault (Sys_Error "SZ_GetSpace: overflow without allowoverflow set")
           else if maxsize buf <? length then
             Fault (Sys_Error "SZ_GetSpace: %i is > full buffer size")
           else mret (SZ_Clear (set_overflowed true buf))
         else mret buf);
  mret (cursize buf, set_cursize (cursize buf + length) buf).

(** [memcpy] of a whole byte list to the reserved space.
    C: Source/common.c:621-624 SZ_Write *)
Definition SZ_Write (buf : sizebuf) (d : bytes) : res sizebuf :=
  '(off, buf) ← SZ_GetSpace buf (Z.of_nat (length d)); poke buf off d.

(** C: Source/common.c:626-637 SZ_Print *)
Definition SZ_Print (buf : sizebuf) (s : bytes) : res sizebuf :=
  let len := Z.of_nat (length s) + 1 in
  last ← load1 (data buf) (cursize buf - 1);
  if truth last then
    '(off, buf) ← SZ_GetSpace buf len; poke buf off (s ++ [0])
  else
    '(off, buf) ← SZ_GetSpace buf (len - 1); poke buf (off - 1) (s ++ [0]).

(** * Writing *)

(** C: Source/common.c:361-372 MSG_WriteChar *)
Definition MSG_WriteChar (sb : sizebuf) (c : Z) : res sizebuf :=
  '(off, sb) ← SZ_GetSpace sb 1; poke sb off [u8 c].

(** C: Source/common.c:374-385 MSG_WriteByte *)
Definition MSG_WriteByte (sb : sizebuf) (c : Z) : res sizebuf :=
  '(off, sb) ← SZ_GetSpace sb 1; poke sb off [u8 c].

(** C: Source/common.c:387-399 MSG_WriteShort *)
Definition MSG_WriteShort (sb : sizebuf) (c : Z) : res sizebuf :=
  '(off, sb) ← SZ_GetSpace sb 2; poke sb off [u8 (c & 255); u8 (c >> 8)].

(** C: Source/common.c:401-410 MSG_WriteLong *)
Definition MSG_WriteLong (sb : sizebuf) (c : Z) : res sizebuf :=
  '(off, sb) ← SZ_GetSpace sb 4;
  poke sb off [u8 (c & 255); u8 ((c >> 8) & 255); u8 ((c >> 16) & 255); u8 (c >> 24)].

(** C: Source/common.c:412-424 MSG_WriteFloat *)
Definition MSG_WriteFloat (h : endian) (sb : sizebuf) (f : f32) : res sizebuf :=
  let l := s32 (bits_of_f32 f) in
  let l := LittleLong (COM_Init_byteorder h) l in
  SZ_Write sb (bytes_of_int h l).

(** [None] is the null pointer.
    C: Source/common.c:426-432 MSG_WriteString *)
Definition MSG_WriteString (sb : sizebuf) (s : option bytes) : res sizebuf :=
  match s with
  | None => SZ_Write sb [0]
  | Some s => SZ_Write sb (s ++ [0])
  end.

(** C: Source/common.c:434-437 MSG_WriteCoord *)
Definition MSG_WriteCoord (sb : sizebuf) (f : f32) : res sizebuf :=
  MSG_WriteShort sb (f_to_int (f32_mul f (f32_of_Z 8))).

Definition f64_half : f64 := f64_div (f64_of_Z 1) (f64_of_Z 2).

(** C: Source/mathlib.h:41-41 Q_rint *)
Definition Q_rint (x : f64) : Z :=
  if f_ltb (f64_of_Z 0) x
  then f_to_int (f64_add x f64_half)
  else f_to_int (f64_sub x f64_half).

(** C: Source/common.c:439-442 MSG_WriteAngle *)
Definition MSG_WriteAngle (sb : sizebuf) (f : f32) : res sizebuf :=
  MSG_WriteByte sb
    (Q_rint (f64_div (f64_mul (f64_of_f32 f) (f64_of_Z 256)) (f64_of_Z 360)) & 255).

(** C: Source/common.c:444-447 MSG_WriteAngle16 *)
Definition MSG_WriteAngle16 (sb : sizebuf) (f : f32) : res sizebuf :=
  MSG_WriteShort sb
    (Q_rint (f64_div (f64_mul (f64_of_f32 f) (f64_of_Z 65536)) (f64_of_Z 360)) & 65535).

(** * Reading *)

(** C: Source/common.c:450-451 msg_readcount *)
Record msgstate : Type := MsgState {
  net_message : sizebuf;
  msg_readcount : Z;
  msg_badread : bool
}.

Definition badread (m : msgstate) : msgstate :=
  MsgState (net_message m) (msg_readcount m) true.
Definition advance (n : Z) (m : msgstate) : msgstate :=
  MsgState (net_message m) (msg_readcount m + n) (msg_badread m).
Definition peek (m : msgstate) (i : Z) : res Z :=
  load1 (data (net_message m)) (msg_readcount m + i).

(** C: Source/common.c:453-457 MSG_BeginReading *)
Definition MSG_BeginReading (m : msgstate) : msgstate :=
  MsgState (net_message m) 0 false.

(** C: Source/common.c:460-469 MSG_ReadChar *)
Definition MSG_ReadChar (m : msgstate) : res (Z * msgstate) :=
  if cursize (net_message m) <=? msg_readcount m then mret (-1, badread m)
  else b ← peek m 0; mret (s8 b, advance 1 m).

(** C: Source/common.c:471-480 MSG_ReadByte *)
Definition MSG_ReadByte (m : msgstate) : res (Z * msgstate) :=
  if cursize (net_message m) <=? msg_readcount m then mret (-1, badread m)
  else b ← peek m 0; mret (b, advance 1 m).

(** C: Source/common.c:482-498 MSG_ReadShort *)
Definition MSG_ReadShort (m : msgstate) : res (Z * msgstate) :=
  if cursize (net_message m) <? msg_readcount m + 2 then mret (-1, badread m)
  else b0 ← peek m 0; b1 ← peek m 1;
       mret (s16 (b0 + (b1 << 8)), advance 2 m).

(** C: Source/common.c:500-518 MSG_ReadLong *)
Definition MSG_ReadLong (m : msgstate) : res (Z * msgstate) :=
  if cursize (net_message m) <? msg_readcount m + 4 then mret (-1, badread m)
  else b0 ← peek m 0; b1 ← peek m 1; b2 ← peek m 2; b3 ← peek m 3;
       mret (s32 (b0 + (b1 << 8) + (b2 << 16) + (b3 << 24)), advance 4 m).

(** There is no test against [cursize] here.
    C: Source/common.c:520-538 MSG_ReadFloat *)
Definition MSG_ReadFloat (h : endian) (m : msgstate) : res (f32 * msgstate) :=
  b0 ← peek m 0; b1 ← peek m 1; b2 ← peek m 2; b3 ← peek m 3;
  let l := int_of_bytes h [b0; b1; b2; b3] in
  let l := LittleLong (COM_Init_byteorder h) l in
  mret (f32_of_bits (u32 l), advance 4 m).

(** The [do] loop, with [room] the number of characters [string] still takes. *)
Fixpoint ReadString_loop (room : nat) (m : msgstate) : res (bytes * msgstate) :=
  match room with
  | O => mret ([], m)
  | S room =>
      '(c, m) ← MSG_ReadChar m;
      if (c =? -1) || (c =? 0) then mret ([], m)
      else '(s, m) ← ReadString_loop room m; mret (u8 c :: s, m)
  end.

(** C: Source/common.c:540-557 MSG_ReadString *)
Definition MSG_ReadString (m : msgstate) : res (bytes * msgstate) :=
  ReadString_loop (2048 - 1) m.

(** C: Source/common.c:559-562 MSG_ReadCoord *)
Definition MSG_ReadCoord (m : msgstate) : res (f32 * msgstate) :=
  '(c, m) ← MSG_ReadShort m;
  mret (f32_of_f64 (f64_mul (f64_of_Z c) (f64_div (f64_of_Z 1) (f64_of_Z 8))), m).

(** C: Source/common.c:564-567 MSG_ReadAngle *)
Definition MSG_ReadAngle (m : msgstate) : res (f32 * msgstate) :=
  '(c, m) ← MSG_ReadChar m;
  mret (f32_of_f64 (f64_mul (f64_of_Z c) (f64_div (f64_of_Z 360) (f64_of_Z 256))), m).

(** C: Source/common.c:569-572 MSG_ReadAngle16 *)
Definition MSG_ReadAngle16 (m : msgstate) : res (f32 * msgstate) :=
  '(c, m) ← MSG_ReadShort m;
  mret (f32_of_f64 (f64_mul (f64_of_Z c) (f64_div (f64_of_Z 360) (f64_of_Z 65536))), m).

(** * Invariant and abstract contents *)

Definition sb_wf (b : sizebuf) : Prop :=
  0 <= cursize b <= maxsize b /\ maxsize b <= Z.of_nat (length (data b)).

Definition contents (b : sizebuf) : bytes := take (Z.to_nat (cursize b)) (data b).

Lemma length_contents b : sb_wf b -> Z.of_nat (length (contents b)) = cursize b.
Proof. intros [? ?]. unfold contents. rewrite length_take. lia. Qed.

Lemma sb_wf_clear b : sb_wf b -> sb_wf (SZ_Clear b).
Proof. unfold sb_wf. simpl. lia. Qed.

(** Every branch of [SZ_Write]: the bytes are appended when they fit; else an
    overflowable buffer restarts with them, and anything else is an error. *)
Lemma SZ_Write_fits b d :
  sb_wf b -> cursize b + Z.of_nat (length d) <= maxsize b ->
  exists b', SZ_Write b d = Ok b' /\ sb_wf b' /\ contents b' = contents b ++ d /\
    cursize b' = cursize b + Z.of_nat (length d) /\ overflowed b' = overflowed b /\
    maxsize b' = maxsize b /\ allowoverflow b' = allowoverflow b /\
    length (data b') = length (data b).
Proof.
  intros [Hc Hm] Hfit. unfold SZ_Write, SZ_GetSpace. case_if; [lia|].
  cbn [mbind res_bind mret res_ret]. unfold poke. cbn [set_cursize data].
  rewrite store_ok by lia. cbn.
  eexists; split; [done|]. unfold sb_wf, contents; cbn.
  rewrite length_splice by lia. split_and!; try lia; try done.
  rewrite Z2Nat.inj_add, Nat2Z.id by lia. by rewrite take_splice_through by lia.
Qed.

Lemma SZ_Write_overflow b d :
  sb_wf b -> maxsize b < cursize b + Z.of_nat (length d) ->
  allowoverflow b = true -> Z.of_nat (length d) <= maxsize b ->
  exists b', SZ_Write b d = Ok b' /\ sb_wf b' /\ contents b' = d /\
    overflowed b' = true /\ maxsize b' = maxsize b /\ allowoverflow b' = true /\
    length (data b') = length (data b).
Proof.
  intros [Hc Hm] Hov Ha Hd. unfold SZ_Write, SZ_GetSpace. rewrite Ha.
  case_if; [|lia]. cbn [negb]. case_if; [lia|].
  cbn [mbind res_bind mret res_ret]. unfold poke. cbn [set_cursize SZ_Clear set_overflowed data cursize].
  rewrite store_ok by lia. cbn.
  eexists; split; [done|]. unfold sb_wf, contents; cbn.
  rewrite length_splice by lia. split_and!; try lia; try done.
  match goal with |- take ?n _ = _ => replace n with (0 + length d)%nat by lia end.
  etrans; [apply (take_splice_through (data b) 0 d); lia|done].
Qed.

Lemma SZ_Write_error b d :
  maxsize b < cursize b + Z.of_nat (length d) ->
  allowoverflow b = false \/ maxsize b < Z.of_nat (length d) ->
  exists msg, SZ_Write b d = Fault (Sys_Error msg).
Proof.
  intros Hov He. unfold SZ_Write, SZ_GetSpace. case_if; [|lia].
  destruct (allowoverflow b); cbn [negb]; [|eexists; reflexivity].
  destruct He as [|He]; [done|]. case_if; [|lia]. eexists; reflexivity.
Qed.

(** What [SZ_Write] returns satisfies the invariant, whatever it is given. *)
Lemma SZ_Write_wf b d b' : sb_wf b -> SZ_Write b d = Ok b' -> sb_wf b'.
Proof.
  intros Hw Hb.
  destruct (decide (cursize b + Z.of_nat (length d) <= maxsize b)) as [Hf|Hf].
  - destruct (SZ_Write_fits b d Hw Hf) as (? & ? & ? & _). congruence.
  - destruct (allowoverflow b) eqn:Ha; [destruct (decide (Z.of_nat (length d) <= maxsize b))|].
    + destruct (SZ_Write_overflow b d) as (? & ? & ? & _); try done; [lia|congruence].
    + destruct (SZ_Write_error b d) as [? ?]; [lia|right; lia|congruence].
    + destruct (SZ_Write_error b d) as [? ?]; [lia|by left|congruence].
Qed.

(** * The wire interface

    A field type is given by its writer, its reader, the values it is meant for
    and the bytes it puts on the wire.  The two laws are what a message parser
    relies on; the instances below discharge them for the message functions. *)

(** The reader stands before [rest] (a suffix of the message). *)
Definition reading (m : msgstate) (rest : bytes) : Prop :=
  sb_wf (net_message m) /\ 0 <= msg_readcount m <= cursize (net_message m) /\
  drop (Z.to_nat (msg_readcount m)) (contents (net_message m)) = rest.

Class Wire {A : Type} (write : sizebuf -> A -> res sizebuf)
    (read : msgstate -> res (A * msgstate)) (vals : A -> Prop) (wire : A -> bytes) := {
  wire_write : forall sb x, write sb x = SZ_Write sb (wire x);
  wire_read : forall m x rest, vals x -> reading m (wire x ++ rest) ->
    read m = Ok (x, advance (Z.of_nat (length (wire x))) m)
}.

Lemma reading_bound m l rest :
  reading m (l ++ rest) ->
  msg_readcount m + Z.of_nat (length l) <= cursize (net_message m).
Proof.
  intros (Hw & Hr & Hd). pose proof (length_contents _ Hw) as Hl.
  apply (f_equal length) in Hd. rewrite length_drop, length_app in Hd. lia.
Qed.

Lemma reading_advance m l rest :
  reading m (l ++ rest) -> reading (advance (Z.of_nat (length l)) m) rest.
Proof.
  intros H. pose proof (reading_bound _ _ _ H). destruct H as (Hw & Hr & Hd).
  split; [done|]. cbn. split; [lia|].
  rewrite Z2Nat.inj_add, Nat2Z.id, <- drop_drop, Hd by lia.
  by rewrite drop_app_length.
Qed.

Lemma reading_peek m l i b :
  reading m l -> 0 <= i -> l !! Z.to_nat i = Some b -> peek m i = Ok b.
Proof.
  intros (Hw & Hr & <-) Hi Hb. unfold peek.
  apply load1_lookup; [lia|].
  rewrite lookup_drop in Hb. unfold contents in Hb.
  rewrite Z2Nat.inj_add by lia.
  pose proof (lookup_lt_Some _ _ _ Hb) as Hlt. rewrite length_take in Hlt.
  by rewrite lookup_take_lt in Hb by lia.
Qed.

Lemma reading_after_write b d b' bad :
  sb_wf b -> cursize b + Z.of_nat (length d) <= maxsize b -> SZ_Write b d = Ok b' ->
  reading (MsgState b' (cursize b) bad) (d ++ []) /\
  cursize b' = cursize b + Z.of_nat (length d).
Proof.
  intros Hw Hf Hb. destruct (SZ_Write_fits b d Hw Hf) as (b'' & E & Hw' & Hc & Hn & _).
  assert (b'' = b') by congruence. subst b''. split; [|lia].
  split; [done|]. cbn. split; [destruct Hw; lia|].
  rewrite Hc, app_nil_r.
  pose proof (length_contents _ Hw).
  rewrite drop_app_ge by lia.
  by replace (Z.to_nat (cursize b) - length (contents b))%nat with 0%nat by lia.
Qed.

(** Whatever field type: what was written is read back, and the reader ends at
    the end of the message with the bad-read flag as it was. *)
Lemma wire_roundtrip `{W : Wire A write read vals wire} b x b' bad :
  sb_wf b -> cursize b + Z.of_nat (length (wire x)) <= maxsize b -> vals x ->
  write b x = Ok b' ->
  read (MsgState b' (cursize b) bad) = Ok (x, MsgState b' (cursize b') bad).
Proof.
  intros Hw Hf Hx Hb. rewrite wire_write in Hb.
  destruct (reading_after_write _ _ _ bad Hw Hf Hb) as [Hr Hc].
  rewrite (wire_read _ x [] Hx Hr). unfold advance. cbn. by rewrite Hc.
Qed.

(** Discharges the reading law of fixed-width fields. *)
Ltac read_fixed Hr :=
  pose proof (reading_bound _ _ _ Hr) as Hbound; cbn in Hbound;
  case_if; [exfalso; lia|];
  repeat (erewrite (reading_peek _ _ _ _ Hr) by (cbn; (lia || reflexivity));
          cbn [mbind res_bind]).

#[export] Instance wire_char :
  Wire MSG_WriteChar MSG_ReadChar (fun c => -128 <= c < 128) (fun c => [u8 c]).
Proof.
  split; [reflexivity|]. intros m c rest Hc Hr. unfold MSG_ReadChar.
  read_fixed Hr. by rewrite s8_u8.
Qed.

#[export] Instance wire_byte :
  Wire MSG_WriteByte MSG_ReadByte (fun c => 0 <= c < 256) (fun c => [u8 c]).
Proof.
  split; [reflexivity|]. intros m c rest Hc Hr. unfold MSG_ReadByte.
  read_fixed Hr. by rewrite u8_id.
Qed.

Definition short_bytes (c : Z) : bytes := [u8 (c & 255); u8 (c >> 8)].
Definition long_bytes (c : Z) : bytes :=
  [u8 (c & 255); u8 ((c >> 8) & 255); u8 ((c >> 16) & 255); u8 (c >> 24)].

Lemma short_bytes_id c :
  -32768 <= c < 32768 -> s16 (u8 (c & 255) + (u8 (c >> 8) << 8)) = c.
Proof. intros. autorewrite with quake_rw. wrap_lia. Qed.

Lemma long_bytes_id c :
  -2147483648 <= c < 2147483648 ->
  s32 (u8 (c & 255) + (u8 ((c >> 8) & 255) << 8) + (u8 ((c >> 16) & 255) << 16)
       + (u8 (c >> 24) << 24)) = c.
Proof. intros. autorewrite with quake_rw. wrap_lia. Qed.

#[export] Instance wire_short :
  Wire MSG_WriteShort MSG_ReadShort (fun c => -32768 <= c < 32768) short_bytes.
Proof.
  split; [reflexivity|]. intros m c rest Hc Hr. unfold MSG_ReadShort.
  read_fixed Hr. cbn. by rewrite short_bytes_id.
Qed.

#[export] Instance wire_long :
  Wire MSG_WriteLong MSG_ReadLong (fun c => -2147483648 <= c < 2147483648) long_bytes.
Proof.
  split; [reflexivity|]. intros m c rest Hc Hr. unfold MSG_ReadLong.
  read_fixed Hr. cbn. by rewrite long_bytes_id.
Qed.

(** The bytes of an integer assembled from bytes. *)
Lemma s32_digits a b c d :
  is_byte a -> is_byte b -> is_byte c -> is_byte d ->
  let x := s32 (a + b * 256 + c * 65536 + d * 16777216) in
  u8 x = a /\ u8 (x / 256) = b /\ u8 (x / 65536) = c /\ u8 (x / 16777216) = d.
Proof.
  unfold is_byte. intros Ha Hb Hc Hd. cbv zeta.
  set (x := a + b * 256 + c * 65536 + d * 16777216).
  assert (s32 x = x \/ s32 x = x - 4294967296) as [->| ->] by (subst x; wrap_lia).
  all: subst x; unfold u8; split_and!; Z.to_euclidean_division_equations; lia.
Qed.

Definition of_digits (a b c d : Z) : Z := s32 (a + b * 256 + c * 65536 + d * 16777216).

(** A 32-bit integer is the assembly of its bytes. *)
Lemma int_digits l :
  -2147483648 <= l < 2147483648 ->
  exists a b c d, is_byte a /\ is_byte b /\ is_byte c /\ is_byte d /\ l = of_digits a b c d.
Proof.
  intros Hl. exists (u8 l), (u8 (l / 256)), (u8 (l / 65536)), (u8 (l / 16777216)).
  split_and!; try apply u8_range. unfold of_digits. wrap_lia.
Qed.

Section Digits.
Context (a b c d : Z) (Ha : is_byte a) (Hb : is_byte b) (Hc : is_byte c) (Hd : is_byte d).

Lemma long_bytes_digits : long_bytes (of_digits a b c d) = [a; b; c; d].
Proof.
  destruct (s32_digits a b c d) as (H1 & H2 & H3 & H4); auto.
  unfold long_bytes, of_digits. autorewrite with quake_rw. unfold u8 in *.
  rewrite !Zmod_mod. by rewrite H1, H2, H3, H4.
Qed.

Lemma bytes_of_int_digits h :
  bytes_of_int h (of_digits a b c d) =
    match h with LittleEndian => [a; b; c; d] | BigEndian => [d; c; b; a] end.
Proof.
  destruct (s32_digits a b c d) as (H1 & H2 & H3 & H4); auto.
  unfold bytes_of_int, of_digits. autorewrite with quake_rw.
  rewrite H1, H2, H3, H4. by destruct h.
Qed.

Lemma LongSwap_digits : LongSwap (of_digits a b c d) = of_digits d c b a.
Proof.
  destruct (s32_digits a b c d) as (H1 & H2 & H3 & H4); auto.
  unfold LongSwap, of_digits. autorewrite with quake_rw. unfold u8 in *.
  rewrite !Zmod_mod, H1, H2, H3, H4. f_equal. lia.
Qed.
End Digits.

Lemma LittleLong_host h :
  LittleLong (COM_Init_byteorder h) =
    match h with LittleEndian => LongNoSwap | BigEndian => LongSwap end.
Proof. by destruct h. Qed.

Lemma bytes_of_int_little h l :
  -2147483648 <= l < 2147483648 ->
  bytes_of_int h (LittleLong (COM_Init_byteorder h) l) = long_bytes l.
Proof.
  intros (a & b & c & d & Ha & Hb & Hc & Hd & ->)%int_digits.
  rewrite LittleLong_host, long_bytes_digits by done. destruct h.
  - by apply bytes_of_int_digits.
  - rewrite LongSwap_digits by done. by rewrite bytes_of_int_digits.
Qed.

Lemma int_of_long_bytes h l :
  -2147483648 <= l < 2147483648 ->
  LittleLong (COM_Init_byteorder h) (int_of_bytes h (long_bytes l)) = l.
Proof.
  intros (a & b & c & d & Ha & Hb & Hc & Hd & ->)%int_digits.
  rewrite LittleLong_host, long_bytes_digits by done. destruct h; [done|].
  apply (LongSwap_digits d c b a); done.
Qed.

#[export] Instance wire_float h :
  Wire (MSG_WriteFloat h) (MSG_ReadFloat h) f32_valid
    (fun f => long_bytes (s32 (bits_of_f32 f))).
Proof.
  split.
  - intros sb f. unfold MSG_WriteFloat. rewrite bytes_of_int_little; [done|].
    apply s32_range.
  - intros m f rest Hf Hr. unfold MSG_ReadFloat.
    pose proof (reading_bound _ _ _ Hr) as Hbound.
    repeat (erewrite (reading_peek _ _ _ _ Hr) by (cbn; (lia || reflexivity));
            cbn [mbind res_bind]).
    match goal with |- context [int_of_bytes h ?b] =>
      change b with (long_bytes (s32 (bits_of_f32 f))) end.
    rewrite int_of_long_bytes by apply s32_range.
    pose proof (bits_of_f32_range _ Hf).
    replace (u32 (s32 (bits_of_f32 f))) with (bits_of_f32 f) by wrap_lia.
    by rewrite f32_bits_roundtrip.
Qed.

(** The strings that survive: no byte 255 (which reads as -1) and short enough
    that the terminator is consumed. *)
Definition wire_str (s : bytes) : Prop :=
  Forall (fun c => 0 < c < 255) s /\ (length s <= 2046)%nat.

Lemma advance_advance a b m : advance b (advance a m) = advance (a + b) m.
Proof. unfold advance. cbn. f_equal. lia. Qed.

Lemma read_char_at m c rest :
  reading m (c :: rest) -> 0 <= c < 256 -> MSG_ReadChar m = Ok (s8 c, advance 1 m).
Proof.
  intros Hr Hc. unfold MSG_ReadChar.
  pose proof (reading_bound m [c] rest Hr) as Hb. cbn in Hb. case_if; [lia|].
  by rewrite (reading_peek m (c :: rest) 0 c Hr).
Qed.

Lemma ReadString_loop_spec s rest :
  Forall (fun c => 0 < c < 255) s -> forall room m, (length s < room)%nat ->
  reading m (s ++ 0 :: rest) ->
  ReadString_loop room m = Ok (s, advance (Z.of_nat (length s + 1)) m).
Proof.
  induction 1 as [|c s Hc _ IH]; intros [|room] m Hlen Hr; cbn [length] in Hlen; try lia.
  - cbn [ReadString_loop app] in *. rewrite (read_char_at m 0 rest Hr) by lia. done.
  - cbn [app] in Hr.
    assert (s8 c <> -1 /\ s8 c <> 0 /\ u8 (s8 c) = c) as (Hm & H0 & Hu) by wrap_lia.
    cbn [ReadString_loop]. rewrite (read_char_at m c _ Hr) by lia. cbn [mbind res_bind].
    case_if; [apply orb_true_iff in E as [E|E]; bool_props; lia|].
    rewrite (IH room (advance 1 m)); [|lia|by apply (reading_advance m [c])].
    cbn. rewrite Hu, advance_advance. repeat f_equal. lia.
Qed.

#[export] Instance wire_string :
  Wire (fun sb s => MSG_WriteString sb (Some s)) MSG_ReadString wire_str
    (fun s => s ++ [0]).
Proof.
  split; [done|]. intros m s rest [Hs Hl] Hr. unfold MSG_ReadString.
  rewrite (ReadString_loop_spec s rest); [by rewrite length_app|done|lia|].
  by rewrite <- app_assoc in Hr.
Qed.

(** * Whole messages *)

(** The field types of a message, as a parser sees them. *)
Inductive field : Type :=
| FChar (c : Z) | FByte (c : Z) | FShort (c : Z) | FLong (c : Z)
| FFloat (f : f32) | FString (s : bytes).

Definition field_valid (f : field) : Prop :=
  match f with
  | FChar c => -128 <= c < 128
  | FByte c => 0 <= c < 256
  | FShort c => -32768 <= c < 32768
  | FLong c => -2147483648 <= c < 2147483648
  | FFloat f => f32_valid f
  | FString s => wire_str s
  end.

Definition write_field (h : endian) (sb : sizebuf) (f : field) : res sizebuf :=
  match f with
  | FChar c => MSG_WriteChar sb c
  | FByte c => MSG_WriteByte sb c
  | FShort c => MSG_WriteShort sb c
  | FLong c => MSG_WriteLong sb c
  | FFloat f => MSG_WriteFloat h sb f
  | FString s => MSG_WriteString sb (Some s)
  end.

(** Read a field of the same type as [f]. *)
Definition read_field (h : endian) (f : field) (m : msgstate) : res (field * msgstate) :=
  match f with
  | FChar _ => '(c, m) ← MSG_ReadChar m; mret (FChar c, m)
  | FByte _ => '(c, m) ← MSG_ReadByte m; mret (FByte c, m)
  | FShort _ => '(c, m) ← MSG_ReadShort m; mret (FShort c, m)
  | FLong _ => '(c, m) ← MSG_ReadLong m; mret (FLong c, m)
  | FFloat _ => '(x, m) ← MSG_ReadFloat h m; mret (FFloat x, m)
  | FString _ => '(s, m) ← MSG_ReadString m; mret (FString s, m)
  end.

Definition field_bytes (f : field) : bytes :=
  match f with
  | FChar c | FByte c => [u8 c]
  | FShort c => short_bytes c
  | FLong c => long_bytes c
  | FFloat f => long_bytes (s32 (bits_of_f32 f))
  | FString s => s ++ [0]
  end.

Fixpoint write_fields (h : endian) (sb : sizebuf) (fs : list field) : res sizebuf :=
  match fs with
  | [] => mret sb
  | f :: fs => sb ← write_field h sb f; write_fields h sb fs
  end.

Fixpoint read_fields (h : endian) (fs : list field) (m : msgstate)
    : res (list field * msgstate) :=
  match fs with
  | [] => mret ([], m)
  | f :: fs =>
      '(x, m) ← read_field h f m; '(xs, m) ← read_fields h fs m; mret (x :: xs, m)
  end.

Lemma write_field_bytes h sb f : write_field h sb f = SZ_Write sb (field_bytes f).
Proof. destruct f; try reflexivity. apply (wire_write (Wire := wire_float h)). Qed.

Lemma read_field_bytes h m f rest :
  field_valid f -> reading m (field_bytes f ++ rest) ->
  read_field h f m = Ok (f, advance (Z.of_nat (length (field_bytes f))) m).
Proof.
  intros Hv Hr. destruct f; cbn [read_field].
  - by rewrite (wire_read (Wire := wire_char) m _ rest Hv Hr).
  - by rewrite (wire_read (Wire := wire_byte) m _ rest Hv Hr).
  - by rewrite (wire_read (Wire := wire_short) m _ rest Hv Hr).
  - by rewrite (wire_read (Wire := wire_long) m _ rest Hv Hr).
  - by rewrite (wire_read (Wire := wire_float h) m _ rest Hv Hr).
  - by rewrite (wire_read (Wire := wire_string) m _ rest Hv Hr).
Qed.

Definition fields_bytes (fs : list field) : bytes := concat (field_bytes <$> fs).

Lemma write_fields_spec h fs sb :
  sb_wf sb -> cursize sb + Z.of_nat (length (fields_bytes fs)) <= maxsize sb ->
  exists sb', write_fields h sb fs = Ok sb' /\ sb_wf sb' /\
    contents sb' = contents sb ++ fields_bytes fs.
Proof.
  revert sb. induction fs as [|f fs IH]; intros sb Hw Hf; unfold fields_bytes in *; cbn in Hf |- *.
  - exists sb. by rewrite app_nil_r.
  - rewrite length_app in Hf. rewrite write_field_bytes.
    destruct (SZ_Write_fits sb (field_bytes f) Hw) as (b & -> & Hw' & Hc & Hn & _ & Hm & _); [lia|].
    cbn. destruct (IH b Hw') as (b' & -> & Hw'' & Hc'); [rewrite Hn, Hm; lia|].
    exists b'. split_and!; [done..|]. by rewrite Hc', Hc, (app_assoc (contents sb)).
Qed.

Lemma read_fields_spec h fs : forall m rest,
  Forall field_valid fs -> reading m (fields_bytes fs ++ rest) ->
  read_fields h fs m = Ok (fs, advance (Z.of_nat (length (fields_bytes fs))) m).
Proof.
  induction fs as [|f fs IH]; intros m rest Hv Hr; unfold fields_bytes in *; cbn in *.
  - unfold advance. rewrite Z.add_0_r. by destruct m.
  - apply Forall_cons in Hv as [Hf Hv]. rewrite <- app_assoc in Hr.
    rewrite (read_field_bytes h m f _ Hf Hr). cbn.
    rewrite (IH _ rest Hv) by (by apply reading_advance). cbn.
    rewrite advance_advance, length_app. repeat f_equal. lia.
Qed.

(** C10: Message round trip.  Any sequence of valid fields that fits in an empty
    buffer can be written, and reading the fields back in the same order yields
    exactly the values written, consumes the whole message and leaves
    [msg_badread] false, on hosts of either byte order. *)
Theorem message_roundtrip hw hr fs sb :
  sb_wf sb -> Forall field_valid fs ->
  Z.of_nat (length (fields_bytes fs)) <= maxsize sb ->
  exists sb', write_fields hw (SZ_Clear sb) fs = Ok sb' /\
    read_fields hr fs (MSG_BeginReading (MsgState sb' 0 true))
      = Ok (fs, MsgState sb' (cursize sb') false).
Proof.
  intros Hw Hv Hlen.
  destruct (write_fields_spec hw fs (SZ_Clear sb)) as (sb' & E & Hw' & Hc);
    [by apply sb_wf_clear|cbn; lia|].
  exists sb'. split; [done|]. pose proof (length_contents _ Hw') as Hl.
  change (contents (SZ_Clear sb)) with (@nil Z) in Hc. rewrite Hc, app_nil_l in Hl.
  rewrite (read_fields_spec hr fs _ []); [|done|].
  - unfold advance, MSG_BeginReading. cbn [msg_readcount net_message msg_badread].
    by rewrite Hl.
  - split; [done|]. cbn. split; [lia|]. by rewrite Hc, app_nil_r.
Qed.

Definition example_buf : sizebuf := SizeBuf false false (replicate 64 7) 64 5.

Lemma message_roundtrip_witness :
  exists sb', write_fields BigEndian (SZ_Clear example_buf)
      [FByte 200; FShort (-2); FLong 70000; FString (cs "hi"); FFloat (f32_of_Z 3)] = Ok sb' /\
    read_fields LittleEndian
      [FByte 200; FShort (-2); FLong 70000; FString (cs "hi"); FFloat (f32_of_Z 3)]
      (MSG_BeginReading (MsgState sb' 0 true))
    = Ok ([FByte 200; FShort (-2); FLong 70000; FString (cs "hi"); FFloat (f32_of_Z 3)],
          MsgState sb' (cursize sb') false).
Proof.
  apply message_roundtrip.
  - unfold sb_wf, example_buf. cbn. lia.
  - repeat constructor; cbn; try lia.
  - vm_compute. discriminate.
Defined.

(** [SZ_Write] on every branch: the bytes are appended when they fit; when
    they do not, an overflowable buffer restarts holding just them and records the
    overflow; a fixed buffer, or more bytes than the buffer can ever hold, ends in
    [Sys_Error].  The buffer invariant is kept whenever it returns. *)
Theorem SZ_Write_spec b d :
  sb_wf b ->
  let n := Z.of_nat (length d) in
  (cursize b + n <= maxsize b ->
     exists b', SZ_Write b d = Ok b' /\ sb_wf b' /\ contents b' = contents b ++ d /\
       overflowed b' = overflowed b) /\
  (maxsize b < cursize b + n -> allowoverflow b = true -> n <= maxsize b ->
     exists b', SZ_Write b d = Ok b' /\ sb_wf b' /\ contents b' = d /\ overflowed b' = true) /\
  (maxsize b < cursize b + n -> allowoverflow b = false \/ maxsize b < n ->
     exists msg, SZ_Write b d = Fault (Sys_Error msg)).
Proof.
  intros Hw n. split_and!; intros.
  - destruct (SZ_Write_fits b d Hw) as (b' & ?); [done|]. exists b'. tauto.
  - destruct (SZ_Write_overflow b d Hw) as (b' & ?); [done..|]. exists b'. tauto.
  - by apply SZ_Write_error.
Qed.

Lemma SZ_Write_spec_witness :
  (exists b', SZ_Write example_buf [1; 2] = Ok b' /\ sb_wf b' /\
     contents b' = contents example_buf ++ [1; 2] /\ overflowed b' = false) /\
  (exists msg, SZ_Write example_buf (replicate 60 0) = Fault (Sys_Error msg)).
Proof.
  assert (sb_wf example_buf) as Hw by (unfold sb_wf, example_buf; cbn; lia).
  split.
  - apply (proj1 (SZ_Write_spec example_buf [1; 2] Hw)). vm_compute. discriminate.
  - apply (proj2 (proj2 (SZ_Write_spec example_buf (replicate 60 0) Hw)));
      [reflexivity|left; reflexivity].
Defined.
