(* ===== verification/Crc.v ===== *)
(** The 16-bit CRC (Source/crc.c), with a bit-serial reference definition.

    The table-driven loop is shown to compute the CRC with polynomial 0x1021 bit
    by bit, which is what the comment in crc.c says of it. *)

From S2P Require Import Prelude.

(** C: Source/crc.c:29-29 CRC_INIT_VALUE *)
Definition CRC_INIT_VALUE : Z := 0xffff.
(** C: Source/crc.c:30-30 CRC_XOR_VALUE *)
Definition CRC_XOR_VALUE : Z := 0x0000.

(** C: Source/crc.c:32-66 crctable *)
Definition crctable : list Z :=
  [0x0000; 0x1021; 0x2042; 0x3063; 0x4084; 0x50a5; 0x60c6; 0x70e7;
   0x8108; 0x9129; 0xa14a; 0xb16b; 0xc18c; 0xd1ad; 0xe1ce; 0xf1ef;
   0x1231; 0x0210; 0x3273; 0x2252; 0x52b5; 0x4294; 0x72f7; 0x62d6;
   0x9339; 0x8318; 0xb37b; 0xa35a; 0xd3bd; 0xc39c; 0xf3ff; 0xe3de;
   0x2462; 0x3443; 0x0420; 0x1401; 0x64e6; 0x74c7; 0x44a4; 0x5485;
   0xa56a; 0xb54b; 0x8528; 0x9509; 0xe5ee; 0xf5cf; 0xc5ac; 0xd58d;
   0x3653; 0x2672; 0x1611; 0x0630; 0x76d7; 0x66f6; 0x5695; 0x46b4;
   0xb75b; 0xa77a; 0x9719; 0x8738; 0xf7df; 0xe7fe; 0xd79d; 0xc7bc;
   0x48c4; 0x58e5; 0x6886; 0x78a7; 0x0840; 0x1861; 0x2802; 0x3823;
   0xc9cc; 0xd9ed; 0xe98e; 0xf9af; 0x8948; 0x9969; 0xa90a; 0xb92b;
   0x5af5; 0x4ad4; 0x7ab7; 0x6a96; 0x1a71; 0x0a50; 0x3a33; 0x2a12;
   0xdbfd; 0xcbdc; 0xfbbf; 0xeb9e; 0x9b79; 0x8b58; 0xbb3b; 0xab1a;
   0x6ca6; 0x7c87; 0x4ce4; 0x5cc5; 0x2c22; 0x3c03; 0x0c60; 0x1c41;
   0xedae; 0xfd8f; 0xcdec; 0xddcd; 0xad2a; 0xbd0b; 0x8d68; 0x9d49;
   0x7e97; 0x6eb6; 0x5ed5; 0x4ef4; 0x3e13; 0x2e32; 0x1e51; 0x0e70;
   0xff9f; 0xefbe; 0xdfdd; 0xcffc; 0xbf1b; 0xaf3a; 0x9f59; 0x8f78;
   0x9188; 0x81a9; 0xb1ca; 0xa1eb; 0xd10c; 0xc12d; 0xf14e; 0xe16f;
   0x1080; 0x00a1; 0x30c2; 0x20e3; 0x5004; 0x4025; 0x7046; 0x6067;
   0x83b9; 0x9398; 0xa3fb; 0xb3da; 0xc33d; 0xd31c; 0xe37f; 0xf35e;
   0x02b1; 0x1290; 0x22f3; 0x32d2; 0x4235; 0x5214; 0x6277; 0x7256;
   0xb5ea; 0xa5cb; 0x95a8; 0x8589; 0xf56e; 0xe54f; 0xd52c; 0xc50d;
   0x34e2; 0x24c3; 0x14a0; 0x0481; 0x7466; 0x6447; 0x5424; 0x4405;
   0xa7db; 0xb7fa; 0x8799; 0x97b8; 0xe75f; 0xf77e; 0xc71d; 0xd73c;
   0x26d3; 0x36f2; 0x0691; 0x16b0; 0x6657; 0x7676; 0x4615; 0x5634;
   0xd94c; 0xc96d; 0xf90e; 0xe92f; 0x99c8; 0x89e9; 0xb98a; 0xa9ab;
   0x5844; 0x4865; 0x7806; 0x6827; 0x18c0; 0x08e1; 0x3882; 0x28a3;
   0xcb7d; 0xdb5c; 0xeb3f; 0xfb1e; 0x8bf9; 0x9bd8; 0xabbb; 0xbb9a;
   0x4a75; 0x5a54; 0x6a37; 0x7a16; 0x0af1; 0x1ad0; 0x2ab3; 0x3a92;
   0xfd2e; 0xed0f; 0xdd6c; 0xcd4d; 0xbdaa; 0xad8b; 0x9de8; 0x8dc9;
   0x7c26; 0x6c07; 0x5c64; 0x4c45; 0x3ca2; 0x2c83; 0x1ce0; 0x0cc1;
   0xef1f; 0xff3e; 0xcf5d; 0xdf7c; 0xaf9b; 0xbfba; 0x8fd9; 0x9ff8;
   0x6e17; 0x7e36; 0x4e55; 0x5e74; 0x2e93; 0x3eb2; 0x0ed1; 0x1ef0].

(** Table accesses outside the 256 entries are undefined. *)
Definition table_at (i : Z) : res Z :=
  if 0 <=? i then of_option (Undefined "crctable index") (crctable !! Z.to_nat i)
  else Fault (Undefined "crctable index").

(** C: Source/crc.c:68-71 CRC_Init *)
Definition CRC_Init : Z := CRC_INIT_VALUE.

(** C: Source/crc.c:73-76 CRC_ProcessByte *)
Definition CRC_ProcessByte (crcvalue data : Z) : res Z :=
  t ← table_at (Z.lxor (crcvalue >> 8) data);
  mret (u16 (Z.lxor (crcvalue << 8) t)).

(** C: Source/crc.c:78-81 CRC_Value *)
Definition CRC_Value (crcvalue : Z) : Z := Z.lxor crcvalue CRC_XOR_VALUE.

(** The body of the [while] loop, over the bytes it reads. *)
Fixpoint CRC_loop (crc : Z) (data : bytes) : res Z :=
  match data with
  | [] => mret crc
  | b :: data =>
      t ← table_at (Z.lxor (crc >> 8) b);
      CRC_loop (u16 (Z.lxor (crc << 8) t)) data
  end.

(** C: Source/crc.c:83-91 CRC_Block *)
Definition CRC_Block (data : bytes) (size : Z) : res Z :=
  buf ← load data 0 size;
  crc ← CRC_loop CRC_INIT_VALUE buf;
  mret (Z.lxor crc CRC_XOR_VALUE).

(** * Reference: one bit at a time *)

Definition crc_bit (c : Z) : Z :=
  Z.land (Z.lxor (c << 1) (if Z.testbit c 15 then 0x1021 else 0)) 0xffff.

Definition crc_bits8 (c : Z) : Z :=
  crc_bit (crc_bit (crc_bit (crc_bit (crc_bit (crc_bit (crc_bit (crc_bit c))))))).

Definition crc_byte (c b : Z) : Z := crc_bits8 (Z.lxor c (b << 8)).

Definition crc_ref (data : bytes) : Z := foldl crc_byte 0xffff data.

(** * Proof *)

Lemma lxor_land_distr a b m : Z.land (Z.lxor a b) m = Z.lxor (Z.land a m) (Z.land b m).
Proof.
  apply Z.bits_inj'. intros n _. rewrite !Z.lxor_spec, !Z.land_spec, Z.lxor_spec.
  by destruct (Z.testbit a n), (Z.testbit b n), (Z.testbit m n).
Qed.

Lemma lxor_swap a b c d :
  Z.lxor (Z.lxor a b) (Z.lxor c d) = Z.lxor (Z.lxor a c) (Z.lxor b d).
Proof.
  rewrite !Z.lxor_assoc. f_equal. rewrite <- !Z.lxor_assoc. f_equal. apply Z.lxor_comm.
Qed.

Lemma crc_bit_linear a b : crc_bit (Z.lxor a b) = Z.lxor (crc_bit a) (crc_bit b).
Proof.
  unfold crc_bit. rewrite <- lxor_land_distr. f_equal.
  rewrite Z.shiftl_lxor, Z.lxor_spec.
  rewrite (lxor_swap (a << 1)). f_equal.
  by destruct (Z.testbit a 15), (Z.testbit b 15).
Qed.

Lemma crc_bits8_linear a b : crc_bits8 (Z.lxor a b) = Z.lxor (crc_bits8 a) (crc_bits8 b).
Proof. unfold crc_bits8. by rewrite !crc_bit_linear. Qed.

Definition bytes256 : list Z := Z.of_nat <$> seq 0 256.

Lemma bytes256_all (P : Z -> bool) :
  forallb P bytes256 = true -> forall b, 0 <= b < 256 -> P b = true.
Proof.
  intros H b Hb. rewrite forallb_forall in H. apply H.
  unfold bytes256. apply list_elem_of_In, list_elem_of_fmap.
  exists (Z.to_nat b). split; [lia|]. apply elem_of_seq. lia.
Qed.

(** Each entry is the remainder of its index, and low bytes shift out unchanged. *)
Lemma crctable_entry i :
  0 <= i < 256 -> table_at i = Ok (crc_bits8 (i << 8)).
Proof.
  intros Hi. pose proof (bytes256_all
    (fun i => match table_at i with Ok t => t =? crc_bits8 (i << 8) | _ => false end)
    ltac:(vm_compute; reflexivity) i Hi) as H. cbv beta in H.
  destruct (table_at i); [|done]. by apply Z.eqb_eq in H as ->.
Qed.

Lemma crc_bits8_low l : 0 <= l < 256 -> crc_bits8 l = l << 8.
Proof.
  intros Hl. pose proof (bytes256_all (fun l => crc_bits8 l =? l << 8)
    ltac:(vm_compute; reflexivity) l Hl) as H. by apply Z.eqb_eq in H.
Qed.

Lemma lxor_byte_range a b : 0 <= a < 256 -> 0 <= b < 256 -> 0 <= Z.lxor a b < 256.
Proof.
  intros Ha Hb. assert (0 <= Z.lxor a b) by (apply Z.lxor_nonneg; lia). split; [done|].
  destruct (decide (Z.lxor a b = 0)) as [->|]; [lia|].
  apply (Z.log2_lt_pow2 _ 8); [lia|].
  pose proof (Z.log2_lxor a b ltac:(lia) ltac:(lia)).
  assert (Z.log2 a < 8 /\ Z.log2 b < 8) as [? ?]; [|lia].
  assert (Z.log2 a <= Z.log2 255) by (apply Z.log2_le_mono; lia).
  assert (Z.log2 b <= Z.log2 255) by (apply Z.log2_le_mono; lia).
  change (Z.log2 255) with 7 in *. lia.
Qed.

Lemma split_word c :
  0 <= c < 65536 -> c = Z.lxor ((c >> 8) << 8) (c `mod` 256).
Proof.
  intros Hc. rewrite <- land_255. change 255 with (Z.ones 8).
  apply Z.bits_inj'. intros n Hn.
  rewrite Z.lxor_spec, Z.land_spec, Z.testbit_ones_nonneg by lia.
  destruct (decide (n < 8)).
  - rewrite Z.shiftl_spec_low by lia. destruct (Z.ltb_spec n 8); [|lia].
    by rewrite andb_true_r, xorb_false_l.
  - rewrite Z.shiftl_spec, Z.shiftr_spec by lia. destruct (Z.ltb_spec n 8); [lia|].
    rewrite andb_false_r, xorb_false_r. f_equal. lia.
Qed.

Lemma crc_bit_range c : 0 <= crc_bit c < 65536.
Proof. unfold crc_bit. rewrite land_65535. apply Z.mod_pos_bound. lia. Qed.

Lemma crc_bits8_range c : 0 <= crc_bits8 c < 65536.
Proof. unfold crc_bits8. apply crc_bit_range. Qed.

(** One table step is eight reference steps. *)
Lemma table_step crc b :
  0 <= crc < 65536 -> 0 <= b < 256 ->
  (t ← table_at (Z.lxor (crc >> 8) b); mret (u16 (Z.lxor (crc << 8) t)))
    = Ok (crc_byte crc b).
Proof.
  intros Hc Hb.
  assert (0 <= crc >> 8 < 256) as Hhi by (rewrite shiftr_8; wrap_lia).
  rewrite crctable_entry by (by apply lxor_byte_range).
  cbn [mbind res_bind mret res_ret]. f_equal. unfold crc_byte, u16.
  rewrite <- land_65535, lxor_land_distr.
  rewrite (split_word crc Hc) at 3.
  replace (Z.lxor (Z.lxor ((crc >> 8) << 8) (crc `mod` 256)) (b << 8))
    with (Z.lxor (Z.lxor (crc >> 8) b << 8) (crc `mod` 256)).
  2:{ rewrite Z.shiftl_lxor, !Z.lxor_assoc. f_equal. apply Z.lxor_comm. }
  rewrite crc_bits8_linear, (crc_bits8_low (crc `mod` 256)) by (apply Z.mod_pos_bound; lia).
  rewrite Z.lxor_comm. f_equal.
  - rewrite land_65535. apply Z.mod_small, crc_bits8_range.
  - rewrite land_65535, !shiftl_8. wrap_lia.
Qed.

Lemma crc_byte_range c b : 0 <= crc_byte c b < 65536.
Proof. apply crc_bits8_range. Qed.

Lemma CRC_loop_ref data : forall crc,
  0 <= crc < 65536 -> Forall is_byte data ->
  CRC_loop crc data = Ok (foldl crc_byte crc data).
Proof.
  induction data as [|b data IH]; intros crc Hc Hd; [done|].
  apply Forall_cons in Hd as [Hb Hd]. cbn [CRC_loop foldl].
  pose proof (table_step crc b Hc Hb) as Ht.
  apply bind_Ok_inv in Ht as (t & Et & Ht). injection Ht as Ht.
  rewrite Et. cbn [mbind res_bind]. rewrite Ht. apply IH; [|done].
  apply crc_byte_range.
Qed.

Lemma CRC_Block_ref data :
  Forall is_byte data -> CRC_Block data (Z.of_nat (length data)) = Ok (crc_ref data).
Proof.
  intros Hd. unfold CRC_Block, load, slice.
  case_if; [|repeat (apply andb_false_iff in E as [E|E]); bool_props; lia].
  cbn [mbind res_bind]. rewrite drop_0, Nat2Z.id, take_ge by lia.
  rewrite CRC_loop_ref by (done || (unfold CRC_INIT_VALUE; lia)).
  cbn. by rewrite Z.lxor_0_r.
Qed.

(** C35: The table-driven [CRC_Block] computes the bit-serial CRC with polynomial
    0x1021 and initial value 0xffff of every byte string, and never indexes
    outside the table. *)
Theorem CRC_Block_bitwise data :
  Forall is_byte data ->
  CRC_Block data (Z.of_nat (length data)) = Ok (foldl crc_byte 0xffff data).
Proof. apply CRC_Block_ref. Qed.

Lemma CRC_Block_bitwise_witness :
  Forall is_byte (cs "123456789") /\ CRC_Block (cs "123456789") 9 = Ok 0x29b1.
Proof.
  assert (Forall is_byte (cs "123456789")) as H
    by (by_decide).
  split; [exact H|]. exact (CRC_Block_bitwise (cs "123456789") H).
Defined.

Lemma crc_residue c :
  0 <= c < 65536 -> crc_byte (crc_byte c (c >> 8)) (c `mod` 256) = 0.
Proof.
  intros Hc. assert (0 <= c `mod` 256 < 256) as Hl by (apply Z.mod_pos_bound; lia).
  unfold crc_byte at 2. rewrite (split_word c Hc) at 1.
  replace (Z.lxor (Z.lxor ((c >> 8) << 8) (c `mod` 256)) ((c >> 8) << 8)) with (c `mod` 256).
  2:{ by rewrite Z.lxor_comm, <- Z.lxor_assoc, Z.lxor_nilpotent, Z.lxor_0_l. }
  rewrite crc_bits8_low by done. unfold crc_byte. by rewrite Z.lxor_nilpotent.
Qed.

(** Check of a received block: appending the CRC of a message to it, high byte
    first, makes the CRC of the whole zero. *)
Theorem CRC_Block_residue data c :
  Forall is_byte data -> CRC_Block data (Z.of_nat (length data)) = Ok c ->
  CRC_Block (data ++ [c >> 8; c `mod` 256]) (Z.of_nat (length data + 2)) = Ok 0.
Proof.
  intros Hd Hc. rewrite CRC_Block_ref in Hc by done. injection Hc as Hc.
  assert (0 <= c < 65536) as Hr.
  { subst c. unfold crc_ref. destruct data as [|b data] using rev_ind; [simpl; lia|].
    rewrite foldl_app. apply crc_byte_range. }
  replace (length data + 2)%nat with (length (data ++ [c >> 8; c `mod` 256]))
    by (rewrite length_app; done).
  rewrite CRC_Block_ref.
  - unfold crc_ref in *. rewrite foldl_app, Hc. cbn [foldl]. by rewrite crc_residue.
  - apply Forall_app. split; [done|]. rewrite shiftr_8.
    repeat constructor; wrap_lia.
Qed.

Lemma CRC_Block_residue_witness :
  CRC_Block (cs "123456789" ++ [0x29; 0xb1]) 11 = Ok 0.
Proof.
  apply (CRC_Block_residue (cs "123456789") 0x29b1).
  - by_decide.
  - vm_compute. reflexivity.
Defined.
