(* ===== verification/ComString.v ===== *)
(** String helpers, the token parser and the command line of Source/common.c.

    A [char *] argument is the byte list of the string; [at0] reads a string with
    its terminator.  [char] is signed, as on the supported compilers, so a byte
    is compared as [s8] of it.  Destination buffers are array objects. *)

From Stdlib Require Import SpecFloat.
From S2P Require Import Prelude CFloat.

(** The [i]-th character, the terminator included (as an unsigned byte). *)
Definition at0 (s : bytes) (i : nat) : Z := default 0 (s !! i).

(** * Copies *)

(** C: Source/common.c:130-135 Q_strcpy *)
Definition Q_strcpy (dest src : bytes) : res bytes := store dest 0 (src ++ [0]).

(** The loop: [i] is how far [dest] has moved.  [count--] is evaluated only when
    the source character is not the terminator. *)
Fixpoint Q_strncpy_loop (dest : bytes) (i : Z) (src : bytes) (count : Z)
    : res (bytes * Z * Z) :=
  match src with
  | [] => mret (dest, i, count)
  | c :: src =>
      if count =? 0 then mret (dest, i, count - 1)
      else dest ← store dest i [c]; Q_strncpy_loop dest (i + 1) src (count - 1)
  end.

(** C: Source/common.c:137-143 Q_strncpy *)
Definition Q_strncpy (dest src : bytes) (count : Z) : res bytes :=
  '(dest, i, count) ← Q_strncpy_loop dest 0 src count;
  if truth count then store dest i [0] else mret dest.

(** [strncpy] of the C library: at most [n] characters, padded with zeros. *)
Definition c_strncpy (dest src : bytes) (n : nat) : res bytes :=
  store dest 0 (take n src ++ replicate (n - length src) 0).

(** C: Source/common.c:262-266 Q_strncpyz *)
Definition Q_strncpyz (dest src : bytes) (size : nat) : res bytes :=
  dest ← c_strncpy dest src (size - 1);
  store dest (Z.of_nat size - 1) [0].

(** * Numbers *)

Definition is_digit (c : Z) : bool := (48 <=? c) && (c <=? 57).

Fixpoint atoi_hex (str : bytes) (val : Z) : Z :=
  match str with
  | [] => val
  | b :: str =>
      let c := s8 b in
      if is_digit c then atoi_hex str (s32 ((val << 4) + c - 48))
      else if (97 <=? c) && (c <=? 102) then atoi_hex str (s32 ((val << 4) + c - 97 + 10))
      else if (65 <=? c) && (c <=? 70) then atoi_hex str (s32 ((val << 4) + c - 65 + 10))
      else val
  end.

Fixpoint atoi_dec (str : bytes) (val : Z) : Z :=
  match str with
  | [] => val
  | b :: str =>
      let c := s8 b in
      if (c <? 48) || (57 <? c) then val
      else atoi_dec str (s32 (val * 10 + c - 48))
  end.

(** Both loops stop at the first other character, the terminator included.
    C: Source/common.c:145-193 Q_atoi *)
Definition Q_atoi (str : bytes) : Z :=
  let '(sign, str) := if at0 str 0 =? 45 then (-1, drop 1 str) else (1, str) in
  if (at0 str 0 =? 48) && ((at0 str 1 =? 120) || (at0 str 1 =? 88)) then
    s32 (atoi_hex (drop 2 str) 0 * sign)
  else if at0 str 0 =? 39 then s32 (sign * s8 (at0 str 1))
  else s32 (atoi_dec str 0 * sign).

Fixpoint atof_hex (str : bytes) (val : f64) : f64 :=
  match str with
  | [] => val
  | b :: str =>
      let c := s8 b in
      let x16 := f64_mul val (f64_of_Z 16) in
      if is_digit c then
        atof_hex str (f64_sub (f64_add x16 (f64_of_Z c)) (f64_of_Z 48))
      else if (97 <=? c) && (c <=? 102) then
        atof_hex str (f64_add (f64_sub (f64_add x16 (f64_of_Z c)) (f64_of_Z 97)) (f64_of_Z 10))
      else if (65 <=? c) && (c <=? 70) then
        atof_hex str (f64_add (f64_sub (f64_add x16 (f64_of_Z c)) (f64_of_Z 65)) (f64_of_Z 10))
      else val
  end.

(** The decimal loop: value, number of digits, and the digit count at the last
    '.', or -1. *)
Fixpoint atof_dec (str : bytes) (val : f64) (total decimal : Z) : f64 * Z * Z :=
  match str with
  | [] => (val, total, decimal)
  | b :: str =>
      let c := s8 b in
      if c =? 46 then atof_dec str val total total
      else if (c <? 48) || (57 <? c) then (val, total, decimal)
      else atof_dec str
             (f64_sub (f64_add (f64_mul val (f64_of_Z 10)) (f64_of_Z c)) (f64_of_Z 48))
             (total + 1) decimal
  end.

Fixpoint atof_scale (n : nat) (val : f64) : f64 :=
  match n with
  | O => val
  | S n => atof_scale n (f64_div val (f64_of_Z 10))
  end.

(** C: Source/common.c:195-260 Q_atof *)
Definition Q_atof (str : bytes) : f32 :=
  let '(sign, str) := if at0 str 0 =? 45 then (-1, drop 1 str) else (1, str) in
  let ret val := f32_of_f64 (f64_mul val (f64_of_Z sign)) in
  if (at0 str 0 =? 48) && ((at0 str 1 =? 120) || (at0 str 1 =? 88)) then
    ret (atof_hex (drop 2 str) (f64_of_Z 0))
  else if at0 str 0 =? 39 then f32_of_Z (sign * s8 (at0 str 1))
  else
    let '(val, total, decimal) := atof_dec str (f64_of_Z 0) 0 (-1) in
    if decimal =? -1 then ret val
    else ret (atof_scale (Z.to_nat (total - decimal)) val).

(** * File names *)

(** [strrchr (s, c)]: index of the last occurrence. *)
Fixpoint strrchr (s : bytes) (c : Z) : option nat :=
  match s with
  | [] => None
  | x :: s =>
      match strrchr s c with
      | Some i => Some (S i)
      | None => if x =? c then Some O else None
      end
  end.

Fixpoint SkipPath_loop (last pathname : bytes) : bytes :=
  match pathname with
  | [] => last
  | c :: rest => SkipPath_loop (if (c =? 47) || (c =? 92) then rest else last) rest
  end.

(** C: Source/common.c:646-659 COM_SkipPath *)
Definition COM_SkipPath (pathname : bytes) : bytes := SkipPath_loop pathname pathname.

(** C: Source/common.c:666-680 COM_StripExtension *)
Definition COM_StripExtension (inn out : bytes) : res bytes :=
  match strrchr inn 46 with
  | None => Q_strncpyz out inn (length inn + 1)
  | Some dot => store out 0 (take dot inn ++ [0])
  end.

(** C: Source/common.c:687-701 COM_FileExtension *)
Definition COM_FileExtension (inn : bytes) : bytes :=
  match strrchr inn 46 with
  | None => []
  | Some dot => take 7 (drop (S dot) inn)
  end.

(** Walk down from index [i] until index 0 or the character [c]. *)
Fixpoint back_to (s : bytes) (c : Z) (i : nat) : nat :=
  match i with
  | O => O
  | S j => if at0 s i =? c then i else back_to s c j
  end.

(** For an empty name [s] starts one before the string.
    C: Source/common.c:708-728 COM_FileBase *)
Definition COM_FileBase (inn out : bytes) : res bytes :=
  match inn with
  | [] => Fault (Undefined "COM_FileBase: reads before the string")
  | _ =>
      let s := back_to inn 46 (length inn - 1) in
      let s2 := back_to inn 47 s in
      if Z.of_nat s - Z.of_nat s2 <? 2 then Q_strcpy out (cs "?model?")
      else
        let s := (s - 1)%nat in
        out ← c_strncpy out (drop (s2 + 1) inn) (s - s2);
        store out (Z.of_nat (s - s2)) [0]
  end.

(** [strcat]/[strncat] onto the string an array holds. *)
Definition c_strncat (path : bytes) (ext : bytes) (n : nat) : res bytes :=
  store path (Z.of_nat (length (until0 path))) (take n ext ++ [0]).

Definition MAX_OSPATH : nat := 128.

(** Does the backward scan of the extension functions find a '.' before it meets
    a '/' or index 0? *)
Fixpoint scan_dot (s : bytes) (i : nat) : bool :=
  if at0 s i =? 47 then false
  else match i with
       | O => false
       | S j => if at0 s i =? 46 then true else scan_dot s j
       end.

(** C: Source/common.c:739-756 COM_ForceExtension *)
Definition COM_ForceExtension (path extension : bytes) : res bytes :=
  match until0 path with
  | [] => Fault (Undefined "COM_ForceExtension: reads before the string")
  | name =>
      if scan_dot name (length name - 1) then
        path ← COM_StripExtension name path;
        c_strncat path extension (length extension)
      else c_strncat path extension MAX_OSPATH
  end.

(** C: Source/common.c:766-777 COM_DefaultExtension *)
Definition COM_DefaultExtension (path extension : bytes) : res bytes :=
  match until0 path with
  | [] => Fault (Undefined "COM_DefaultExtension: reads before the string")
  | name =>
      if scan_dot name (length name - 1) then mret path
      else c_strncat path extension MAX_OSPATH
  end.

(** * Tokens *)

(** The pointer [COM_Parse] is given and returns: null, somewhere in a string,
    or one past its terminator. *)
Inductive cptr : Type := Null | At (s : bytes) | PastEnd.

(** Append to [com_token], an array of 1024 characters with its terminator. *)
Definition token_put (tok : bytes) (c : Z) : res bytes :=
  if Z.of_nat (length tok) <? 1024 then mret (tok ++ [c])
  else Fault (Undefined "com_token overflow").

Definition token_end (tok : bytes) (p : cptr) : res (bytes * cptr) :=
  if Z.of_nat (length tok) <? 1024 then mret (tok, p)
  else Fault (Undefined "com_token overflow").

(** [while ((c = *data) <= ' ')]: [None] when the terminator is met. *)
Fixpoint skip_blank (data : bytes) : option bytes :=
  match data with
  | [] => None
  | b :: rest => if s8 b <=? 32 then skip_blank rest else Some data
  end.

(** [while ( *data && *data != '\n')] *)
Fixpoint skip_line (data : bytes) : bytes :=
  match data with
  | [] => []
  | b :: rest => if b =? 10 then data else skip_line rest
  end.

(** White space and comments, each [goto skipwhite] one unit of fuel. *)
Fixpoint skip_white (fuel : nat) (data : bytes) : res (option bytes) :=
  match fuel with
  | O => Fault OutOfFuel
  | S fuel =>
      match skip_blank data with
      | None => mret None
      | Some data =>
          if (at0 data 0 =? 47) && (at0 data 1 =? 47)
          then skip_white fuel (skip_line data)
          else mret (Some data)
      end
  end.

Fixpoint parse_quoted (tok data : bytes) : res (bytes * cptr) :=
  match data with
  | [] => token_end tok PastEnd
  | b :: rest =>
      if b =? 34 then token_end tok (At rest)
      else tok ← token_put tok b; parse_quoted tok rest
  end.

(** Characters that are tokens of their own, and those that end a word. *)
Definition is_single (c : Z) : bool :=
  (c =? 123) || (c =? 125) || (c =? 41) || (c =? 40) || (c =? 39) || (c =? 58).
Definition is_break (c : Z) : bool :=
  (c =? 123) || (c =? 125) || (c =? 41) || (c =? 40) || (c =? 39).

Fixpoint parse_word (tok : bytes) (c : Z) (data : bytes) : res (bytes * cptr) :=
  tok ← token_put tok c;
  match data with
  | [] => token_end tok (At [])
  | b :: rest =>
      if is_break (s8 b) || (s8 b <=? 32) then token_end tok (At data)
      else parse_word tok b rest
  end.

(** Returns [com_token] and the advanced pointer.
    C: Source/common.c:786-854 COM_Parse *)
Definition COM_Parse (data : cptr) : res (bytes * cptr) :=
  match data with
  | Null => mret ([], Null)
  | PastEnd => Fault (Undefined "COM_Parse: reads past the terminator")
  | At s =>
      w ← skip_white (length s + 1) s;
      match w with
      | None => mret ([], Null)
      | Some [] => mret ([], Null)
      | Some (b :: rest) =>
          let c := s8 b in
          if c =? 34 then parse_quoted [] rest
          else if is_single c then mret ([b], At rest)
          else parse_word [] b rest
      end
  end.

(** * Properties of the parser *)

Lemma skip_blank_suffix s d : skip_blank s = Some d -> d `suffix_of` s /\ d <> [].
Proof.
  induction s as [|b s IH]; cbn; [done|]. case_if; intros H.
  - destruct (IH H) as [? ?]. split; [by apply suffix_cons_r|done].
  - simplify_eq. split; [done|discriminate].
Qed.

Lemma skip_line_suffix s : skip_line s `suffix_of` s.
Proof.
  induction s as [|b s IH]; cbn; [done|]. case_if; [done|]. by apply suffix_cons_r.
Qed.

Lemma skip_line_comment s :
  at0 s 0 = 47 -> (length (skip_line s) < length s)%nat.
Proof.
  destruct s as [|b s]; [discriminate|]. cbn. intros ->. cbn.
  pose proof (suffix_length _ _ (skip_line_suffix s)). lia.
Qed.

(** The fuel [COM_Parse] passes is enough, and what is left is a suffix. *)
Lemma skip_white_total fuel s :
  (length s < fuel)%nat ->
  exists o, skip_white fuel s = Ok o /\
    match o with None => True | Some d => d `suffix_of` s /\ d <> [] end.
Proof.
  revert s. induction fuel as [|fuel IH]; intros s Hf; [lia|]. cbn [skip_white].
  destruct (skip_blank s) as [d|] eqn:E; [|by exists None].
  apply skip_blank_suffix in E as [Hs Hd]. pose proof (suffix_length _ _ Hs).
  case_if; [|by exists (Some d)].
  pose proof (skip_line_comment d ltac:(done)).
  destruct (IH (skip_line d)) as (o & -> & Ho); [lia|]. exists o. split; [done|].
  destruct o as [e|]; [|done]. destruct Ho as [He ?]. split; [|done].
  etrans; [exact He|]. etrans; [apply skip_line_suffix|done].
Qed.

Lemma token_put_ok tok c : (length tok < 1024)%nat -> token_put tok c = Ok (tok ++ [c]).
Proof. intros. unfold token_put. case_if; [done|lia]. Qed.

Lemma token_end_ok tok p : (length tok < 1024)%nat -> token_end tok p = Ok (tok, p).
Proof. intros. unfold token_end. case_if; [done|lia]. Qed.

Lemma parse_quoted_total data : forall tok,
  (length tok + length data < 1024)%nat ->
  exists t p, parse_quoted tok data = Ok (t, p) /\ (length t < 1024)%nat /\
    (p = PastEnd \/ exists rest, p = At rest /\ rest `suffix_of` data).
Proof.
  induction data as [|b data IH]; intros tok Hl; cbn [parse_quoted length] in *.
  - rewrite token_end_ok by lia. eexists _, _. split; [done|]. split; [lia|by left].
  - case_if.
    + rewrite token_end_ok by lia. eexists _, _. split; [done|]. split; [lia|].
      right. eexists. split; [done|]. by apply suffix_cons_r.
    + rewrite token_put_ok by lia. cbn [mbind res_bind].
      destruct (IH (tok ++ [b])) as (t & p & -> & Ht & Hp); [rewrite length_app; cbn; lia|].
      eexists _, _. split; [done|]. split; [done|].
      destruct Hp as [->|(rest & -> & ?)]; [by left|]. right. eexists. split; [done|].
      by apply suffix_cons_r.
Qed.

Lemma parse_word_total data : forall tok c,
  (length tok + length data + 1 < 1024)%nat ->
  exists t rest, parse_word tok c data = Ok (t, At rest) /\ (length t < 1024)%nat /\
    rest `suffix_of` data.
Proof.
  induction data as [|b data IH]; intros tok c Hl; cbn [length] in Hl;
    cbn [parse_word]; rewrite token_put_ok by lia; cbn [mbind res_bind].
  all: assert (length (tok ++ [c]) = length tok + 1)%nat as Ht by (by rewrite length_app).
  - rewrite token_end_ok by lia. eexists _, _. split; [done|]. split; [lia|done].
  - destruct (is_break (s8 b) || (s8 b <=? 32)).
    + rewrite token_end_ok by lia. eexists _, _. split; [done|]. split; [lia|done].
    + destruct (IH (tok ++ [c]) b) as (t & rest & -> & ? & ?); [lia|].
      eexists _, _. split; [done|]. split; [done|]. by apply suffix_cons_r.
Qed.

Lemma suffix_tail_length (b : Z) rest s d :
  rest `suffix_of` d -> b :: d `suffix_of` s -> (length rest < length s)%nat.
Proof. intros H1 H2. apply suffix_length in H1, H2. cbn in H2. lia. Qed.

(** On any string shorter than the token buffer [COM_Parse] returns: the
    skipping loop needs no more rounds than the string has characters, the token
    fits in [com_token], and the pointer is null, strictly further into the
    string, or (unterminated quote) one past its terminator. *)
Theorem COM_Parse_total s :
  (length s < 1024)%nat ->
  exists tok p, COM_Parse (At s) = Ok (tok, p) /\ (length tok < 1024)%nat /\
    (p = Null \/ p = PastEnd \/
     exists rest, p = At rest /\ rest `suffix_of` s /\ (length rest < length s)%nat).
Proof.
  intros Hs. cbn [COM_Parse].
  destruct (skip_white_total (length s + 1) s) as (o & -> & Ho); [lia|]. cbn [mbind res_bind].
  destruct o as [[|b d]|]; try (eexists _, _; split; [done|]; cbn; split; [lia|by left]).
  destruct Ho as [Hsuf _]. pose proof (suffix_length _ _ Hsuf) as Hlen. cbn in Hlen.
  assert (d `suffix_of` s) as Hd by (etrans; [by apply suffix_cons_r|exact Hsuf]).
  case_if; [|case_if].
  - destruct (parse_quoted_total d []) as (t & p & -> & Ht & Hp); [cbn; lia|].
    eexists _, _. split; [done|]. split; [done|]. right.
    destruct Hp as [->|(rest & -> & Hr)]; [by left|]. right. exists rest.
    split; [done|]. split; [by etrans|]. by eapply suffix_tail_length.
  - eexists _, _. split; [done|]. split; [cbn; lia|]. right; right. exists d.
    split; [done|]. split; [done|lia].
  - destruct (parse_word_total d [] b) as (t & rest & -> & Ht & Hr); [cbn; lia|].
    eexists _, _. split; [done|]. split; [done|]. right; right. exists rest.
    split; [done|]. split; [by etrans|]. by eapply suffix_tail_length.
Qed.

Lemma COM_Parse_total_witness :
  exists tok p, COM_Parse (At (cs "  // note")) = Ok (tok, p) /\ (length tok < 1024)%nat /\
    (p = Null \/ p = PastEnd \/
     exists rest, p = At rest /\ rest `suffix_of` cs "  // note" /\
       (length rest < length (cs "  // note"))%nat).
Proof. apply COM_Parse_total. cbn. lia. Defined.

(** ** Printing and parsing token lists *)

Definition quotable (t : bytes) : Prop :=
  Forall (fun c => 0 < c < 256 /\ c <> 34) t /\ (length t < 1024)%nat.

#[global] Instance quotable_dec t : Decision (quotable t).
Proof. unfold quotable. apply _. Defined.

Definition print_tokens (ts : list bytes) : bytes :=
  concat ((fun t => 34 :: t ++ [34; 32]) <$> ts).

(** Parse tokens until the pointer is null. *)
Fixpoint parse_tokens (fuel : nat) (p : cptr) : res (list bytes) :=
  match fuel with
  | O => Fault OutOfFuel
  | S fuel =>
      '(t, p) ← COM_Parse p;
      match p with
      | Null => mret []
      | _ => ts ← parse_tokens fuel p; mret (t :: ts)
      end
  end.

Lemma parse_quoted_spec t rest : forall tok,
  Forall (fun c => 0 < c < 256 /\ c <> 34) t -> (length tok + length t < 1024)%nat ->
  parse_quoted tok (t ++ 34 :: rest) = Ok (tok ++ t, At rest).
Proof.
  induction t as [|c t IH]; intros tok Hq Hl; cbn in *.
  - rewrite app_nil_r. by rewrite token_end_ok by lia.
  - apply Forall_cons in Hq as [[? ?] Hq]. case_if; [lia|].
    rewrite token_put_ok by lia. cbn [mbind res_bind].
    rewrite IH; [by rewrite <- app_assoc|done|rewrite length_app; cbn; lia].
Qed.

(** One leading blank is skipped whatever follows. *)
Lemma COM_Parse_quoted t rest pre :
  quotable t -> (pre = [] \/ pre = [32]) ->
  COM_Parse (At (pre ++ 34 :: t ++ 34 :: rest)) = Ok (t, At rest).
Proof.
  intros [Hq Hl] Hpre. cbn [COM_Parse].
  assert (forall n, skip_white (n + 1) (pre ++ 34 :: t ++ 34 :: rest)
            = Ok (Some (34 :: t ++ 34 :: rest))) as Hw.
  { intros n. rewrite Nat.add_1_r. destruct Hpre as [-> | ->]; done. }
  rewrite Hw. cbn. by rewrite parse_quoted_spec.
Qed.

Lemma parse_tokens_aux ts : forall fuel pre,
  Forall quotable ts -> (length ts < fuel)%nat -> (pre = [] \/ pre = [32]) ->
  parse_tokens fuel (At (pre ++ print_tokens ts)) = Ok ts.
Proof.
  induction ts as [|t ts IH]; intros fuel pre Hq Hf Hpre; destruct fuel as [|fuel];
    try (cbn in Hf; lia); cbn [parse_tokens].
  - destruct Hpre as [-> | ->]; done.
  - apply Forall_cons in Hq as [Ht Hq].
    change (print_tokens (t :: ts)) with ((34 :: t ++ [34; 32]) ++ print_tokens ts).
    rewrite <- app_comm_cons, <- app_assoc. cbn [app].
    rewrite (COM_Parse_quoted t (32 :: print_tokens ts) pre) by done.
    cbn [mbind res_bind]. change (32 :: print_tokens ts) with ([32] ++ print_tokens ts).
    rewrite IH; [done|done|cbn in Hf; lia|by right].
Qed.

(** Token round trip: printing any list of quotable tokens between quotes and
    parsing the text with repeated [COM_Parse] calls yields exactly the list. *)
Theorem parse_print_tokens ts :
  Forall quotable ts -> parse_tokens (length ts + 1) (At (print_tokens ts)) = Ok ts.
Proof.
  intros. rewrite <- (app_nil_l (print_tokens ts)).
  apply parse_tokens_aux; [done|lia|by left].
Qed.

Lemma parse_print_tokens_witness :
  parse_tokens 3 (At (print_tokens [cs "map e1m1"; cs "{}"])) = Ok [cs "map e1m1"; cs "{}"].
Proof.
  apply (parse_print_tokens [cs "map e1m1"; cs "{}"]). by_decide.
Defined.

(** A quote that is never closed. *)
Lemma COM_Parse_open t : quotable t -> COM_Parse (At (34 :: t)) = Ok (t, PastEnd).
Proof.
  intros [Hq Hl]. cbn [COM_Parse].
  assert (forall n, skip_white (n + 1) (34 :: t) = Ok (Some (34 :: t))) as Hw.
  { intros n. by rewrite Nat.add_1_r. }
  rewrite Hw. cbn. clear Hw.
  assert (forall tok, (length tok + length t < 1024)%nat ->
            parse_quoted tok t = Ok (tok ++ t, PastEnd)) as Hp; [|by apply (Hp [])].
  clear Hl. induction Hq as [|c t [? ?] _ IH]; intros tok Hl; cbn in *.
  - rewrite app_nil_r. by rewrite token_end_ok by lia.
  - case_if; [lia|]. rewrite token_put_ok by lia. cbn [mbind res_bind].
    rewrite IH; [by rewrite <- app_assoc|rewrite length_app; cbn; lia].
Qed.

(** An unterminated quote makes [COM_Parse] return a pointer past the end of
    the text, and the next call reads there. *)
Theorem COM_Parse_unterminated t :
  quotable t ->
  COM_Parse (At (34 :: t)) = Ok (t, PastEnd) /\
  exists what, COM_Parse PastEnd = Fault (Undefined what).
Proof. intros Ht. split; [by apply COM_Parse_open|by eexists]. Qed.

Lemma COM_Parse_unterminated_witness :
  COM_Parse (At (34 :: cs "abc")) = Ok (cs "abc", PastEnd) /\
  exists what, COM_Parse PastEnd = Fault (Undefined what).
Proof. apply COM_Parse_unterminated. by_decide. Defined.

(** * Numbers *)

Definition dec_value (ds : list Z) : Z := foldl (fun v d => v * 10 + d) 0 ds.
Definition dec_chars (ds : list Z) : bytes := (fun d => 48 + d) <$> ds.
Definition not_digit (s : bytes) : Prop := is_digit (s8 (at0 s 0)) = false.

Lemma dec_fold_mono ds : forall v,
  0 <= v -> Forall (fun d => 0 <= d < 10) ds ->
  v <= foldl (fun v d => v * 10 + d) v ds.
Proof.
  induction ds as [|d ds IH]; intros v Hv Hd; cbn; [lia|].
  apply Forall_cons in Hd as [? Hd]. specialize (IH (v * 10 + d) ltac:(lia) Hd). lia.
Qed.

Lemma atoi_dec_spec ds rest : forall v,
  0 <= v -> Forall (fun d => 0 <= d < 10) ds -> not_digit rest ->
  foldl (fun v d => v * 10 + d) v ds <= INT_MAX ->
  atoi_dec (dec_chars ds ++ rest) v = foldl (fun v d => v * 10 + d) v ds.
Proof.
  induction ds as [|d ds IH]; intros v Hv Hd Hr Hmax; cbn [dec_chars fmap list_fmap app] in *.
  - cbn. destruct rest as [|b rest]; [done|]. cbn in *.
    destruct ((s8 b <? 48) || (57 <? s8 b)) eqn:E; [done|].
    unfold not_digit, is_digit, at0 in Hr. cbn in Hr.
    apply orb_false_iff in E as [? ?]. apply andb_false_iff in Hr as [Hr|Hr]; bool_props; lia.
  - apply Forall_cons in Hd as [Hd0 Hd]. cbn [atoi_dec foldl] in *.
    pose proof (dec_fold_mono ds (v * 10 + d) ltac:(lia) Hd).
    assert (s8 (48 + d) = 48 + d) as -> by wrap_lia.
    destruct ((48 + d <? 48) || (57 <? 48 + d)) eqn:E;
      [apply orb_true_iff in E as [E|E]; bool_props; lia|].
    unfold INT_MAX in *. rewrite (s32_id (v * 10 + (48 + d) - 48)) by lia.
    replace (v * 10 + (48 + d) - 48) with (v * 10 + d) by lia. apply IH; [lia|done..].
Qed.

(** [Q_atoi] reads decimal numbers: for every nonempty digit string whose value
    fits in an [int], with or without a minus sign and followed by anything that is
    not a digit (nor turns a leading zero into a hex prefix), it returns the value. *)
Theorem Q_atoi_decimal d ds rest :
  Forall (fun d => 0 <= d < 10) (d :: ds) -> not_digit rest ->
  (ds = [] -> at0 rest 0 <> 120 /\ at0 rest 0 <> 88) ->
  dec_value (d :: ds) <= INT_MAX ->
  Q_atoi (dec_chars (d :: ds) ++ rest) = dec_value (d :: ds) /\
  Q_atoi (45 :: dec_chars (d :: ds) ++ rest) = - dec_value (d :: ds).
Proof.
  intros Hd Hr Hx Hmax.
  pose proof (atoi_dec_spec (d :: ds) rest 0 ltac:(lia) Hd Hr Hmax) as Hspec.
  assert (0 <= dec_value (d :: ds)) as Hpos by (apply (dec_fold_mono (d :: ds) 0); [lia|done]).
  fold (dec_value (d :: ds)) in Hspec. unfold INT_MAX in Hmax.
  assert (forall sign, sign = 1 \/ sign = -1 ->
    let str := dec_chars (d :: ds) ++ rest in
    (if (at0 str 0 =? 48) && ((at0 str 1 =? 120) || (at0 str 1 =? 88)) then
       s32 (atoi_hex (drop 2 str) 0 * sign)
     else if at0 str 0 =? 39 then s32 (sign * s8 (at0 str 1))
     else s32 (atoi_dec str 0 * sign)) = dec_value (d :: ds) * sign) as Hgo.
  { intros sign Hs str. unfold str. rewrite Hspec.
    apply Forall_cons in Hd as [Hd0 Hd]. cbn [dec_chars fmap list_fmap app].
    match goal with |- (if ?c then _ else _) = _ => assert (c = false) as -> end.
    { apply andb_false_iff. right. destruct ds as [|d1 ds].
      - destruct (Hx eq_refl). change (at0 (48 + d :: [] ++ rest) 1) with (at0 rest 0).
        apply orb_false_iff. split; by apply Z.eqb_neq.
      - apply Forall_cons in Hd as [Hd1 _]. unfold at0. cbn.
        apply orb_false_iff. split; apply Z.eqb_neq; lia. }
    case_if; [unfold at0 in E; cbn in E; lia|]. rewrite s32_id by (destruct Hs; subst; lia). done. }
  unfold Q_atoi. split.
  - assert (at0 (dec_chars (d :: ds) ++ rest) 0 =? 45 = false) as ->.
    { apply Forall_cons in Hd as [Hd0 _]. unfold at0. cbn. apply Z.eqb_neq. lia. }
    rewrite (Hgo 1) by auto. lia.
  - change (at0 (45 :: dec_chars (d :: ds) ++ rest) 0 =? 45) with true. cbn [drop].
    change (drop 0 ?x) with x. rewrite (Hgo (-1)) by auto. lia.
Qed.

Lemma Q_atoi_decimal_witness :
  Q_atoi (cs "26000 port") = 26000 /\ Q_atoi (cs "-26000 port") = -26000.
Proof.
  apply (Q_atoi_decimal 2 [6; 0; 0; 0] (cs " port")); [by_decide|reflexivity|discriminate|].
  vm_compute. discriminate.
Defined.

(** * Copies *)

Lemma Q_strncpy_loop_spec src : forall dest i count,
  (i + Nat.min count (length src) <= length dest)%nat ->
  Q_strncpy_loop dest (Z.of_nat i) src (Z.of_nat count)
    = Ok (splice dest i (take count src), Z.of_nat (i + Nat.min count (length src)),
          if decide (count < length src)%nat then -1
          else Z.of_nat count - Z.of_nat (length src)).
Proof.
  induction src as [|c src IH]; intros dest i count Hl; cbn [Q_strncpy_loop length] in *.
  - rewrite take_nil, splice_nil, Nat.min_0_r, Nat.add_0_r, Z.sub_0_r.
    by destruct (decide (count < 0)%nat); [lia|].
  - destruct count as [|count].
    + cbn. rewrite splice_nil, Nat.add_0_r. by destruct (decide _); [|lia].
    + case_if; [lia|]. rewrite store_ok by (cbn; lia). cbn [mbind res_bind].
      rewrite Nat2Z.id.
      replace (Z.of_nat i + 1) with (Z.of_nat (S i)) by lia.
      replace (Z.of_nat (S count) - 1) with (Z.of_nat count) by lia.
      rewrite IH by (rewrite length_splice; cbn in *; lia).
      rewrite splice_cons by (rewrite length_take; cbn in *; lia).
      replace (S i + count `min` length src)%nat
        with (i + S count `min` S (length src))%nat by lia.
      replace (Z.of_nat (S count) - Z.of_nat (S (length src)))
        with (Z.of_nat count - Z.of_nat (length src)) by lia.
      by destruct (decide (count < length src)%nat), (decide (S count < S (length src))%nat);
        try lia.
Qed.

(** The bytes [Q_strncpy] writes: with a terminator unless the source has exactly
    [count] characters. *)
Definition strncpy_bytes (src : bytes) (count : nat) : bytes :=
  take count src ++ (if decide (length src = count) then [] else [0]).

Lemma Q_strncpy_ok dest src count :
  (length (strncpy_bytes src count) <= length dest)%nat ->
  Q_strncpy dest src (Z.of_nat count) = Ok (splice dest 0 (strncpy_bytes src count)).
Proof.
  unfold strncpy_bytes. rewrite length_app, length_take. intros Hl.
  unfold Q_strncpy.
  pose proof (Q_strncpy_loop_spec src dest 0 count ltac:(lia)) as Hloop.
  change (Z.of_nat 0) with 0 in Hloop. rewrite Hloop. clear Hloop.
  cbn [mbind res_bind]. rewrite Nat.add_0_l.
  destruct (decide (length src = count)) as [He|He].
  - rewrite app_nil_r. destruct (decide _); [lia|]. unfold truth.
    case_if; [lia|done].
  - cbn [length] in Hl. unfold truth.
    match goal with |- (if negb (?z =? 0) then _ else _) = _ => assert (z <> 0) as Hz end.
    { destruct (decide _); lia. }
    case_if; [|lia].
    assert (length (splice dest 0 (take count src)) = length dest) as Hsp
      by (apply length_splice; rewrite length_take; lia).
    rewrite store_ok by (rewrite ?Hsp; cbn [length]; lia).
    f_equal. rewrite Nat2Z.id.
    unfold splice. rewrite !take_0, !app_nil_l, !Nat.add_0_l, !length_app, !length_take.
    rewrite take_app_length' by (rewrite length_take; lia).
    rewrite drop_app_ge by (rewrite length_take; cbn; lia).
    rewrite length_take, drop_drop, <- app_assoc. cbn [length]. repeat f_equal. lia.
Qed.

(** [Q_strncpy (dest, src, count)] writes [count + 1] bytes when the source is
    longer than [count] (the test [if (count)] sees -1), so copying into an array of
    [count] bytes stores outside it; sources of at most [count] characters are copied
    inside the array, terminated only when shorter. *)
Theorem Q_strncpy_overrun dest src count :
  length dest = count ->
  ((length src <= count)%nat ->
     Q_strncpy dest src (Z.of_nat count) = Ok (splice dest 0 (strncpy_bytes src count))) /\
  ((count < length src)%nat ->
     exists what, Q_strncpy dest src (Z.of_nat count) = Fault (Undefined what)).
Proof.
  intros Hd. split; intros Hs.
  - apply Q_strncpy_ok. unfold strncpy_bytes. rewrite length_app, length_take.
    destruct (decide _); cbn; lia.
  - unfold Q_strncpy.
  pose proof (Q_strncpy_loop_spec src dest 0 count ltac:(lia)) as Hloop.
  change (Z.of_nat 0) with 0 in Hloop. rewrite Hloop. clear Hloop.
    cbn [mbind res_bind]. destruct (decide _); [|lia]. cbn [truth negb Z.eqb].
    assert (length (splice dest 0 (take count src)) = length dest) as Hsp
      by (apply length_splice; rewrite length_take; lia).
    eexists. unfold store. rewrite Hsp. case_if; [cbn [length] in *; lia|done].
Qed.

Lemma Q_strncpy_overrun_witness :
  Q_strncpy [9; 9; 9; 9] (cs "ab") 4 = Ok [97; 98; 0; 9] /\
  exists what, Q_strncpy [9; 9; 9; 9] (cs "abcde") 4 = Fault (Undefined what).
Proof.
  split.
  - apply (proj1 (Q_strncpy_overrun [9; 9; 9; 9] (cs "ab") 4 eq_refl)). cbn. lia.
  - apply (proj2 (Q_strncpy_overrun [9; 9; 9; 9] (cs "abcde") 4 eq_refl)). cbn. lia.
Defined.

(** * File names *)

Lemma at0_app_ge a b i : at0 (a ++ b) (length a + i) = at0 b i.
Proof. unfold at0. rewrite lookup_app_r by lia. by rewrite Nat.add_comm, Nat.add_sub. Qed.

Lemma at0_in b i c : (i < length b)%nat -> c ∉ b -> at0 b i <> c.
Proof.
  intros Hi Hc He. destruct (lookup_lt_is_Some_2 b i Hi) as [x Hx].
  unfold at0 in He. rewrite Hx in He. cbn in He. subst x.
  apply Hc. by eapply list_elem_of_lookup_2.
Qed.

(** Scanning back over characters other than [c] stops at the [c] before them. *)
Lemma back_to_found a b r c n :
  c ∉ b -> (n <= length b)%nat ->
  back_to (a ++ c :: b ++ r) c (length a + n) = length a.
Proof.
  intros Hc. induction n as [|n IH]; intros Hn.
  - rewrite Nat.add_0_r. destruct a as [|x a]; [done|]. cbn [length back_to].
    replace (at0 ((x :: a) ++ c :: b ++ r) (S (length a))) with c; [by rewrite Z.eqb_refl|].
    rewrite <- (Nat.add_0_r (S (length a))). change (S (length a)) with (length (x :: a)).
    by rewrite at0_app_ge.
  - rewrite Nat.add_succ_r. cbn [back_to]. rewrite <- Nat.add_succ_r, at0_app_ge.
    case_if; [|by apply IH; lia]. exfalso.
    destruct (lookup_lt_is_Some_2 b n ltac:(lia)) as [y Hy].
    unfold at0 in E. change ((c :: b ++ r) !! S n) with ((b ++ r) !! n) in E.
    rewrite lookup_app_l, Hy in E by lia. cbn in E. subst y.
    apply Hc. by eapply list_elem_of_lookup_2.
Qed.

Lemma back_to_zero s c n :
  (forall i, (0 < i <= n)%nat -> at0 s i <> c) -> back_to s c n = 0%nat.
Proof.
  induction n as [|n IH]; intros H; [done|]. cbn [back_to].
  case_if; [exfalso; by apply (H (S n)); [lia|]|]. apply IH. intros; apply H; lia.
Qed.

Lemma c_strncpy_exact out s n :
  (n <= length s)%nat -> (n <= length out)%nat ->
  c_strncpy out s n = Ok (splice out 0 (take n s)).
Proof.
  intros Hs Ho. unfold c_strncpy.
  replace (n - length s)%nat with 0%nat by lia. cbn [replicate]. rewrite app_nil_r.
  apply store_ok; [lia|]. rewrite length_take. lia.
Qed.

(** Copying [n] characters and terminating them. *)
Lemma copy_terminated out s n :
  (n <= length s)%nat -> (n < length out)%nat -> is_cstr s ->
  exists out', (o ← c_strncpy out s n; store o (Z.of_nat n) [0]) = Ok out' /\
    until0 out' = take n s.
Proof.
  intros Hs Ho Hc. rewrite c_strncpy_exact by lia. cbn [mbind res_bind].
  assert (length (splice out 0 (take n s)) = length out) as Hl
    by (apply length_splice; rewrite length_take; lia).
  rewrite store_ok by (rewrite ?Hl; cbn [length]; lia). eexists. split; [done|].
  unfold splice at 1. rewrite Nat2Z.id.
  assert (take n (splice out 0 (take n s)) = take n s) as ->.
  { unfold splice. cbn [take app]. rewrite take_0, app_nil_l, take_app_length'; [done|].
    rewrite length_take. lia. }
  apply until0_cstr. by apply Forall_take.
Qed.

(** [COM_FileBase] of [dir/base.ext] is [base].  Without a directory part the
    scan for '/' stops at index 0 and the character there is dropped: the "base name"
    of [player.mdl] comes out as [layer]. *)
Theorem COM_FileBase_spec dir base ext c out :
  is_cstr (c :: base) -> 47 ∉ base -> 46 ∉ ext -> base <> [] ->
  (length base < length out)%nat ->
  (exists out', COM_FileBase (dir ++ 47 :: base ++ 46 :: ext) out = Ok out' /\
     until0 out' = base) /\
  (exists out', COM_FileBase (c :: base ++ 46 :: ext) out = Ok out' /\ until0 out' = base).
Proof.
  intros Hc Hsl Hdot Hne Hout. apply Forall_cons in Hc as [_ Hb].
  assert (0 < length base)%nat as Hlb by (destruct base; [done|cbn; lia]).
  assert (forall inn pre x, inn = pre ++ x :: base ++ 46 :: ext ->
    back_to inn 47 (length pre + S (length base)) = length pre ->
    exists out', COM_FileBase inn out = Ok out' /\ until0 out' = base) as Hgo.
  { intros inn pre x Hinn Hs2.
    assert (back_to inn 46 (length inn - 1) = length pre + S (length base))%nat as Hs.
    { replace inn with ((pre ++ x :: base) ++ 46 :: ext ++ [])
        by (by rewrite app_nil_r, Hinn, <- app_assoc).
      rewrite app_nil_r, length_app, <- (app_nil_r ext). cbn [length].
      replace (length (pre ++ x :: base) + S (length (ext ++ [])) - 1)%nat
        with (length (pre ++ x :: base) + length ext)%nat by (rewrite app_nil_r; lia).
      rewrite back_to_found by (done || lia). rewrite length_app. done. }
    unfold COM_FileBase. destruct inn as [|y inn']; [by destruct pre|].
    rewrite Hs, Hs2. case_if; [lia|].
    replace (length pre + S (length base) - 1 - length pre)%nat with (length base) by lia.
    rewrite Hinn, Nat.add_1_r.
    replace (drop (S (length pre)) (pre ++ x :: base ++ 46 :: ext)) with (base ++ 46 :: ext).
    2:{ rewrite drop_app_ge by lia. by replace (S (length pre) - length pre)%nat with 1%nat by lia. }
    pose proof (c_strncpy_exact out (base ++ 46 :: ext) (length base)
                  ltac:(rewrite length_app; lia) ltac:(lia)) as Hcp.
    rewrite take_app_length in Hcp. rewrite Hcp.
    pose proof (copy_terminated out base (length base) ltac:(lia) ltac:(lia) Hb) as Hct.
    rewrite (c_strncpy_exact out base) in Hct by lia. by rewrite take_ge in Hct by lia. }
  split.
  - apply (Hgo _ dir 47 eq_refl).
    replace (base ++ 46 :: ext) with ((base ++ [46]) ++ ext) by (by rewrite <- app_assoc).
    apply back_to_found; [set_solver|rewrite length_app; cbn [length]; lia].
  - apply (Hgo _ [] c eq_refl). apply back_to_zero. intros [|i] Hi; [lia|].
    change (at0 ([] ++ c :: base ++ 46 :: ext) (S i)) with (at0 (base ++ 46 :: ext) i).
    replace (base ++ 46 :: ext) with ((base ++ [46]) ++ ext) by (by rewrite <- app_assoc).
    unfold at0. rewrite lookup_app_l by (rewrite length_app; cbn in *; lia).
    apply at0_in; [rewrite length_app; cbn in *; lia|set_solver].
Qed.

Lemma COM_FileBase_spec_witness :
  (exists out', COM_FileBase (cs "progs/player.mdl") (replicate 32 1) = Ok out' /\
     until0 out' = cs "player") /\
  (exists out', COM_FileBase (cs "xplayer.mdl") (replicate 32 1) = Ok out' /\
     until0 out' = cs "player").
Proof.
  apply (COM_FileBase_spec (cs "progs") (cs "player") (cs "mdl") 120 (replicate 32 1));
    [by_decide|by_decide|by_decide|discriminate|cbn; lia].
Defined.

Lemma scan_dot_found s i j :
  (0 < j <= i)%nat -> at0 s j = 46 -> (forall k, (j < k <= i)%nat -> at0 s k <> 47) ->
  scan_dot s i = true.
Proof.
  induction i as [|i IH]; intros Hj Hd Hs; [lia|]. cbn [scan_dot].
  destruct (decide (j = S i)) as [->|].
  - by rewrite Hd.
  - case_if; [by exfalso; apply (Hs (S i)); [lia|]|]. case_if; [done|].
    apply IH; [lia|done|]. intros; apply Hs; lia.
Qed.

(** After [COM_DefaultExtension] the path has an extension, so applying it again
    changes nothing; a path that had one is left as it was. *)
Theorem COM_DefaultExtension_idempotent path ext path' :
  is_cstr ext -> at0 ext 0 = 46 -> 47 ∉ ext -> (length ext <= MAX_OSPATH)%nat ->
  COM_DefaultExtension path ext = Ok path' ->
  COM_DefaultExtension path' ext = Ok path' /\
  (until0 path' = until0 path \/ until0 path' = until0 path ++ ext).
Proof.
  intros Hc Hdot Hsl Hlen H. unfold COM_DefaultExtension in H.
  destruct (until0 path) as [|x name] eqn:Hn; [done|].
  case_if_in H.
  { injection H as <-. split; [|left; done].
    unfold COM_DefaultExtension. by rewrite Hn, E. }
  assert (until0 path' = (x :: name) ++ ext) as Hp.
  { unfold c_strncat, store in H. rewrite Hn in H. case_if_in H; [|done]. injection H as <-.
    rewrite take_ge in * by done. rewrite length_app in *. cbn [length] in *.
    unfold splice. rewrite Nat2Z.id.
    change (S (length name)) with (length (x :: name)). rewrite <- Hn, until0_prefix.
    rewrite <- app_assoc, (app_assoc (until0 path)). cbn [app]. apply until0_app0.
    apply Forall_app. split; [apply until0_nonzero|by apply cstr_nonzero]. }
  split; [|right; done]. unfold COM_DefaultExtension. rewrite Hp. cbn [app].
  rewrite (scan_dot_found _ _ (length (x :: name))); [done|..].
  - rewrite app_comm_cons, length_app. destruct ext; [done|]. cbn [length]. lia.
  - rewrite app_comm_cons, <- (Nat.add_0_r (length (x :: name))). by rewrite at0_app_ge.
  - intros k Hk. rewrite app_comm_cons in *. rewrite length_app in Hk.
    replace k with (length (x :: name) + (k - length (x :: name)))%nat by lia.
    rewrite at0_app_ge. apply at0_in; [lia|done].
Qed.

Lemma COM_DefaultExtension_idempotent_witness :
  COM_DefaultExtension (cs "e1m1.dem" ++ replicate 9 0) (cs ".dem")
    = Ok (cs "e1m1.dem" ++ replicate 9 0) /\
  (until0 (cs "e1m1.dem" ++ replicate 9 0) = until0 (cs "e1m1" ++ replicate 13 0) \/
   until0 (cs "e1m1.dem" ++ replicate 9 0) = until0 (cs "e1m1" ++ replicate 13 0) ++ cs ".dem").
Proof.
  apply COM_DefaultExtension_idempotent;
    [by_decide|reflexivity|by_decide|cbn; unfold MAX_OSPATH; lia|reflexivity].
Defined.
