(* ===== verification/ComMisc.v ===== *)
(** The command line, the rotating print buffers and the random number generator
    of Source/common.c.

    The generator replaces the C library's [rand] (common.h redefines the name), so
    that a run is reproducible from the seed a savestate records. *)

From S2P Require Import Prelude ComString.

(** * Command line *)

Definition MAX_NUM_ARGVS : nat := 50.
Definition CMDLINE_LENGTH : nat := 256.

(** C: Source/common.c:29-37 safeargvs *)
Definition safeargvs : list bytes :=
  [cs "-stdvid"; cs "-nolan"; cs "-nosound"; cs "-nocdaudio"; cs "-nojoy"; cs "-nomouse";
   cs "-dibonly"].

(** [com_argv] has [com_argc] arguments and the dummy after them. *)
Record argstate : Type := ArgState {
  com_cmdline : bytes;
  com_argc : Z;
  com_argv : list (option bytes);
  rogue : Z;
  hipnotic : Z;
  nehahra : Z;
  runequake : Z
}.

(** The search loop of [COM_CheckParm], [argv] starting at index [i]. *)
Fixpoint CheckParm_loop (parm : bytes) (i argc : Z) (argv : list (option bytes)) : Z :=
  match argv with
  | [] => 0
  | a :: argv =>
      if i <? argc then
        match a with
        | None => CheckParm_loop parm (i + 1) argc argv
        | Some s => if bool_decide (parm = s) then i else CheckParm_loop parm (i + 1) argc argv
        end
      else 0
  end.

(** C: Source/common.c:864-877 COM_CheckParm *)
Definition COM_CheckParm (st : argstate) (parm : bytes) : Z :=
  CheckParm_loop parm 1 (com_argc st) (drop 1 (com_argv st)).

(** C: Source/common.c:900-903 COM_Argc *)
Definition COM_Argc (st : argstate) : Z := com_argc st.

(** C: Source/common.c:905-910 COM_Argv *)
Definition COM_Argv (st : argstate) (arg : Z) : option bytes :=
  if (arg <? 0) || (com_argc st <=? arg) then Some []
  else mjoin (com_argv st !! Z.to_nat arg).

(** The first loop of [COM_InitArgv]: [line] is what [com_cmdline] holds. *)
Fixpoint cmdline_loop (line : bytes) (argv : list bytes) : bytes :=
  match argv with
  | [] => line
  | a :: argv =>
      let line := line ++ take (CMDLINE_LENGTH - 1 - length line) a in
      if decide (length line < CMDLINE_LENGTH - 1)%nat
      then cmdline_loop (line ++ [32]) argv
      else line
  end.

(** The program's globals before [COM_InitArgv] runs. *)
Definition argstate_init : argstate := ArgState [] 0 [] 0 0 0 0.

(** The argument strings the system passes are never null.
    C: Source/common.c:917-979 COM_InitArgv *)
Definition COM_InitArgv (argv : list bytes) : res argstate :=
  let args := take MAX_NUM_ARGVS argv in
  let cmdline := cmdline_loop [] args in
  let safe := existsb (fun a => bool_decide (cs "-safe" = a)) args in
  let largv := args ++ (if safe then safeargvs else []) in
  let st := ArgState cmdline (Z.of_nat (length largv)) ((Some <$> largv) ++ [Some (cs " ")])
              0 0 0 0 in
  let flag name := if truth (COM_CheckParm st (cs name)) then 1 else 0 in
  let st := ArgState (com_cmdline st) (com_argc st) (com_argv st)
              (flag "-rogue") (flag "-hipnotic") (flag "-nehahra") (flag "-runequake") in
  if truth (hipnotic st) && truth (rogue st)
  then Fault (Sys_Error "You can't run both mission packs at the same time")
  else mret st.

Lemma cmdline_loop_length argv : forall line,
  (length line <= CMDLINE_LENGTH - 1)%nat ->
  (length (cmdline_loop line argv) <= CMDLINE_LENGTH - 1)%nat.
Proof.
  induction argv as [|a argv IH]; intros line Hl; cbn [cmdline_loop]; [done|].
  assert (length (line ++ take (CMDLINE_LENGTH - 1 - length line) a) <= CMDLINE_LENGTH - 1)%nat
    by (rewrite length_app, length_take; lia).
  destruct (decide _); [|done]. apply IH. rewrite length_app. cbn [length]. lia.
Qed.

(** [CheckParm_loop] returns the first index at which the parameter stands. *)
Lemma CheckParm_loop_spec parm argc argv : forall i,
  0 < i ->
  let r := CheckParm_loop parm i argc argv in
  (r = 0 /\ forall k, argv !! k = Some (Some parm) -> argc <= i + Z.of_nat k) \/
  (i <= r < argc /\ argv !! Z.to_nat (r - i) = Some (Some parm) /\
   forall k, (k < Z.to_nat (r - i))%nat -> argv !! k <> Some (Some parm)).
Proof.
  induction argv as [|a argv IH]; intros i Hi; cbn [CheckParm_loop].
  { left. split; [done|]. intros k Hk. by rewrite lookup_nil in Hk. }
  case_if; [|left; split; [done|]; intros; lia].
  destruct (decide (a = Some parm)) as [->|Hne].
  - rewrite bool_decide_true by done. right. rewrite Z.sub_diag. cbn.
    split; [lia|]. split; [done|]. intros; lia.
  - assert (match a with
            | None => CheckParm_loop parm (i + 1) argc argv
            | Some s => if bool_decide (parm = s) then i else CheckParm_loop parm (i + 1) argc argv
            end = CheckParm_loop parm (i + 1) argc argv) as ->.
    { destruct a as [s|]; [|done]. rewrite bool_decide_false by congruence. done. }
    destruct (IH (i + 1) ltac:(lia)) as [[-> Hk]|(Hr & Hl & Hk)].
    + left. split; [done|]. intros [|k] Hl; cbn in Hl; [congruence|].
      specialize (Hk _ Hl). lia.
    + right. split; [lia|]. set (r := CheckParm_loop parm (i + 1) argc argv) in *.
      replace (Z.to_nat (r - i)) with (S (Z.to_nat (r - (i + 1)))) by lia.
      split; [done|]. intros [|k] Hlt; cbn; [congruence|]. apply Hk. lia.
Qed.

(** [COM_InitArgv] builds a bounded command line (at most 255 characters for the
    256-byte buffer) and at most 57 arguments however long the real one is, and on what
    it builds [COM_CheckParm] returns 0 exactly for the parameters that are not among
    arguments 1 to [com_argc - 1], and otherwise the first position they stand at. *)
Theorem COM_InitArgv_CheckParm argv st parm :
  COM_InitArgv argv = Ok st ->
  (length (com_cmdline st) < CMDLINE_LENGTH)%nat /\ 0 <= com_argc st <= 57 /\
  let r := COM_CheckParm st parm in
  (r = 0 -> forall k, 1 <= k < com_argc st -> com_argv st !! Z.to_nat k <> Some (Some parm)) /\
  (r <> 0 -> 1 <= r < com_argc st /\ COM_Argv st r = Some parm /\
     forall k, 1 <= k < r -> com_argv st !! Z.to_nat k <> Some (Some parm)).
Proof.
  intros H. unfold COM_InitArgv in H. case_if_in H; [done|]. injection H as <-.
  cbn [com_cmdline com_argc com_argv].
  split; [|split].
  - pose proof (cmdline_loop_length (take MAX_NUM_ARGVS argv) [] ltac:(cbn; lia)).
    unfold CMDLINE_LENGTH in *. lia.
  - rewrite length_app, length_take. unfold MAX_NUM_ARGVS. destruct (existsb _ _); cbn [length safeargvs]; lia.
  - unfold COM_CheckParm, COM_Argv. cbn [com_argc com_argv].
    set (av := ((Some <$> _) ++ _)). set (ac := Z.of_nat _).
    destruct (CheckParm_loop_spec parm ac (drop 1 av) 1 ltac:(lia)) as [[-> Hk]|(Hr & Hl & Hk)].
    + split; [|done]. intros _ k Hb Hl. specialize (Hk (Z.to_nat (k - 1))).
      rewrite lookup_drop in Hk. replace (1 + Z.to_nat (k - 1))%nat with (Z.to_nat k) in Hk by lia.
      specialize (Hk Hl). lia.
    + set (r := CheckParm_loop parm 1 ac (drop 1 av)) in *. split; [lia|]. intros _.
      split; [done|]. rewrite lookup_drop in Hl.
      replace (1 + Z.to_nat (r - 1))%nat with (Z.to_nat r) in Hl by lia. split.
      * destruct ((r <? 0) || (ac <=? r)) eqn:Eb;
          [apply orb_true_iff in Eb as [?|?]; bool_props; lia|]. by rewrite Hl.
      * intros k Hb. specialize (Hk (Z.to_nat (k - 1)) ltac:(lia)). rewrite lookup_drop in Hk.
        by replace (1 + Z.to_nat (k - 1))%nat with (Z.to_nat k) in Hk by lia.
Qed.

Definition example_args : list bytes := [cs "quake"; cs "-safe"; cs "-port"; cs "26001"].

Lemma COM_InitArgv_CheckParm_witness :
  exists st, COM_InitArgv example_args = Ok st /\ COM_CheckParm st (cs "-port") = 2 /\
    COM_Argv st 2 = Some (cs "-port").
Proof.
  eexists. split; [vm_compute; reflexivity|]. split; [vm_compute; reflexivity|].
  pose proof (COM_InitArgv_CheckParm example_args _ (cs "-port") eq_refl) as (_ & _ & _ & H).
  destruct H as (_ & H & _); [vm_compute; discriminate|]. exact H.
Defined.

(** * Print buffers *)

(** [string[8][2048]] and [idx]; formatted text is cut to 2047 characters. *)
Record vastate : Type := VaState { va_string : list bytes; va_idx : nat }.

Definition va_init : vastate := VaState (replicate 8 []) 0.

(** The text is what [vsnprintf] would produce for the format and its arguments.
    Returns the index of the buffer.
    C: Source/common.c:1031-1046 va *)
Definition va (text : bytes) (st : vastate) : nat * vastate :=
  let idx := S (va_idx st) in
  let idx := if (idx =? 8)%nat then O else idx in
  (idx, VaState (<[idx := take 2047 text]> (va_string st)) idx).

Fixpoint va_run (texts : list bytes) (st : vastate) : vastate :=
  match texts with
  | [] => st
  | t :: texts => va_run texts (snd (va t st))
  end.

Definition va_wf (st : vastate) : Prop := length (va_string st) = 8%nat /\ (va_idx st < 8)%nat.

Lemma va_wf_step t st : va_wf st -> va_wf (snd (va t st)).
Proof.
  intros [Hl Hi]. unfold va, va_wf. cbn. rewrite length_insert. split; [done|].
  destruct (va_idx st =? 7)%nat eqn:E; [lia|]. apply Nat.eqb_neq in E. lia.
Qed.

Lemma va_idx_step t st : va_wf st -> va_idx (snd (va t st)) = ((va_idx st + 1) mod 8)%nat.
Proof.
  intros [_ Hb]. unfold va. cbn [snd va_idx]. destruct (S (va_idx st) =? 8)%nat eqn:E.
  - apply Nat.eqb_eq in E. by replace (va_idx st) with 7%nat by lia.
  - apply Nat.eqb_neq in E. rewrite Nat.mod_small by lia. lia.
Qed.

(** A buffer the following calls do not come round to keeps its text. *)
Lemma va_run_other texts : forall st i,
  va_wf st ->
  (forall j, (1 <= j <= length texts)%nat -> i <> ((va_idx st + j) mod 8)%nat) ->
  va_string (va_run texts st) !! i = va_string st !! i.
Proof.
  induction texts as [|t texts IH]; intros st i Hw Hi; [done|]. cbn [va_run length] in *.
  pose proof (va_idx_step t st Hw) as Hidx.
  rewrite IH; [|by apply va_wf_step|].
  - cbn [va snd va_string]. apply list_lookup_insert_ne.
    change (va_idx (snd (va t st)) <> i). rewrite Hidx. specialize (Hi 1%nat). lia.
  - intros j Hj. rewrite Hidx, Nat.Div0.add_mod_idemp_l, <- Nat.add_assoc. apply Hi. lia.
Qed.

(** The string [va] returns is the formatted text (cut to 2047 characters) and
    stays intact during the next seven calls. *)
Theorem va_keeps_seven t texts st :
  va_wf st -> (length texts <= 7)%nat ->
  let '(i, st') := va t st in
  va_string (va_run texts st') !! i = Some (take 2047 t).
Proof.
  intros Hw Hk. pose proof (va_wf_step t st Hw) as Hw'.
  change (va_string (va_run texts (snd (va t st))) !! va_idx (snd (va t st))
    = Some (take 2047 t)).
  rewrite va_run_other; [|done|].
  - destruct Hw' as [Hl Hb]. cbn in *. apply list_lookup_insert_eq.
    rewrite length_insert in Hl. lia.
  - destruct Hw' as [_ Hb]. set (v := va_idx (snd (va t st))) in *. intros j Hj Heq.
    pose proof (Nat.Div0.div_mod (v + j) 8) as Hdm. rewrite <- Heq in Hdm.
    destruct ((v + j) / 8)%nat as [|[|q]]; lia.
Qed.

Lemma va_keeps_seven_witness :
  va_string (va_run (replicate 7 (cs "x")) (snd (va (cs "e1m1") va_init))) !! 1%nat
    = Some (cs "e1m1").
Proof.
  apply (va_keeps_seven (cs "e1m1") (replicate 7 (cs "x")) va_init); [split; cbn; lia|cbn; lia].
Defined.

(** * Random numbers *)

(** C: Source/common.c:1693-1697 next *)
Record rng : Type := Rng {
  next : Z;          (* unsigned *)
  frame_seed : Z;
  prev_index : Z;
  rng_index : Z;
  count : Z
}.

(** [unpaused] is [tas_gamestate == unpaused].
    C: Source/common.c:1700-1708 Frame_RNG_Seed *)
Definition Frame_RNG_Seed (unpaused : bool) (r : rng) : rng :=
  let r := if unpaused
           then Rng (next r) (frame_seed r) (rng_index r) (rng_index r)
                    (s32 (rng_index r - prev_index r))
           else r in
  Rng (next r) (next r) (prev_index r) (rng_index r) (count r).

(** C: Source/common.c:1710-1716 Get_RNG_Seed *)
Definition Get_RNG_Seed (r : rng) : Z := frame_seed r.

(** C: Source/common.c:1718-1721 Get_RNG_Count *)
Definition Get_RNG_Count (r : rng) : Z := count r.

(** C: Source/common.c:1723-1726 Get_RNG_Index *)
Definition Get_RNG_Index (r : rng) : Z := rng_index r.

(** [tas_rand_Hook] only logs.
    C: Source/common.c:1728-1735 tas_rand *)
Definition tas_rand (r : rng) : Z * rng :=
  let nx := u32 (next r * 1103515245 + 12345) in
  (u32 (nx / 65536) `mod` 32768,
   Rng nx (frame_seed r) (prev_index r) (s32 (rng_index r + 1)) (count r)).

(** C: Source/common.c:1737-1745 tas_srand *)
Definition tas_srand (seed : Z) (r : rng) : rng :=
  Rng (u32 seed) (frame_seed r) 0 0 (count r).

(** The numbers a run of calls draws. *)
Fixpoint draws (n : nat) (r : rng) : list Z * rng :=
  match n with
  | O => ([], r)
  | S n => let '(x, r) := tas_rand r in let '(xs, r) := draws n r in (x :: xs, r)
  end.

Definition rng_wf (r : rng) : Prop := 0 <= next r < 4294967296.

Lemma rng_wf_rand r : rng_wf (snd (tas_rand r)).
Proof. apply u32_range. Qed.

(** The draws depend on [next] only. *)
Lemma draws_next n : forall r1 r2,
  next r1 = next r2 ->
  fst (draws n r1) = fst (draws n r2) /\
  next (snd (draws n r1)) = next (snd (draws n r2)).
Proof.
  induction n as [|n IH]; intros r1 r2 H; cbn [draws]; [done|].
  destruct (tas_rand r1) as [x1 q1] eqn:E1, (tas_rand r2) as [x2 q2] eqn:E2.
  assert (x1 = x2 /\ next q1 = next q2) as [-> Hq].
  { unfold tas_rand in *. rewrite H in E1. by simplify_eq. }
  destruct (IH q1 q2 Hq) as [Hf Hn]. destruct (draws n q1), (draws n q2). cbn in *.
  by subst.
Qed.

(** Replaying from the seed a savestate records: whatever was drawn since the start
    of the frame, after [tas_srand (Get_RNG_Seed ())] the generator draws exactly the
    numbers it drew from the start of the frame, and its index counts from zero. *)
Theorem rng_replay unpaused r n m :
  rng_wf r ->
  let start := Frame_RNG_Seed unpaused r in
  let later := snd (draws m start) in
  let again := tas_srand (Get_RNG_Seed later) later in
  fst (draws n again) = fst (draws n start) /\ Get_RNG_Index again = 0.
Proof.
  intros Hw start later again. split; [|done]. apply draws_next.
  change (u32 (frame_seed later) = next start).
  assert (frame_seed later = next r) as ->.
  { unfold later. assert (frame_seed start = next r) as <- by (by destruct unpaused).
    generalize start. clear. induction m as [|m IH]; intros q; [done|]. cbn [draws].
    destruct (tas_rand q) as [x q'] eqn:E. specialize (IH q').
    destruct (draws m q'). cbn in *. rewrite IH. unfold tas_rand in E. by simplify_eq. }
  rewrite u32_id by done. by destruct unpaused.
Qed.

Lemma rng_replay_witness :
  let start := Frame_RNG_Seed true (Rng 42 0 0 0 0) in
  let later := snd (draws 3 start) in
  let again := tas_srand (Get_RNG_Seed later) later in
  fst (draws 2 again) = fst (draws 2 start) /\ Get_RNG_Index again = 0.
Proof. apply (rng_replay true (Rng 42 0 0 0 0) 2 3). unfold rng_wf. cbn. lia. Defined.

Lemma tas_rand_range r : 0 <= fst (tas_rand r) < 32768.
Proof. cbn. apply Z.mod_pos_bound. lia. Qed.

(** The multiplier's inverse modulo 2^32. *)
Definition rng_unstep (nx : Z) : Z := u32 ((nx - 12345) * 4005161829).

(** The generator loses no state: every [tas_rand] step can be undone, so distinct
    seeds never merge, and every number it returns is in [0, 32767], the range the
    comment promises for [RAND_MAX]. *)
Theorem tas_rand_injective r1 r2 :
  rng_wf r1 -> rng_wf r2 ->
  (next (snd (tas_rand r1)) = next (snd (tas_rand r2)) -> next r1 = next r2) /\
  0 <= fst (tas_rand r1) <= 32767.
Proof.
  intros H1 H2. split; [|pose proof (tas_rand_range r1); lia].
  assert (forall r, rng_wf r -> rng_unstep (next (snd (tas_rand r))) = next r) as Hinv.
  { intros r Hr. unfold rng_wf in Hr. cbn. unfold rng_unstep, u32.
    rewrite Z.mul_mod, Zminus_mod_idemp_l, <- Z.mul_mod by lia.
    replace ((next r * 1103515245 + 12345 - 12345) * 4005161829)
      with (next r + next r * 1029054899 * 4294967296) by lia.
    rewrite Z.mod_add by lia. by apply Z.mod_small. }
  intros He. by rewrite <- (Hinv r1 H1), <- (Hinv r2 H2), He.
Qed.

Lemma tas_rand_injective_witness :
  (next (snd (tas_rand (Rng 1 0 0 0 0))) = next (snd (tas_rand (Rng 1 5 0 0 0))) ->
    next (Rng 1 0 0 0 0) = next (Rng 1 5 0 0 0)) /\
  0 <= fst (tas_rand (Rng 1 0 0 0 0)) <= 32767.
Proof. apply tas_rand_injective; unfold rng_wf; cbn; lia. Defined.
