(* ===== verification/Zone.v ===== *)
(** The zone allocator (Source/zone.c, first part).

    Pointers are integer addresses, 0 the null pointer; block headers live in a map
    from addresses to [memblock] ([heap]), with the list sentinel [blocklist] embedded
    in the zone header at its C offset (32-bit layout: [sizeof (memblock_t)] is 24,
    [sizeof (memzone_t)] 32, [blocklist] at offset 4).  The bytes the allocator hands
    out, with the trash tester word it writes at the end of each block, are [zmem].
    Headers are only ever changed by the allocator in this model: a client that
    scribbles over them is outside it.

    The abstract view of a zone is the list of its blocks in address order.  The
    comment of the source states its invariant: no space between blocks, no two
    contiguous free blocks. *)

From S2P Require Import Prelude.

(** C: Source/zone.c:26-26 ZONEID *)
Definition ZONEID : Z := 0x1d4a11.
(** C: Source/zone.c:27-27 MINFRAGMENT *)
Definition MINFRAGMENT : Z := 64.
Definition sizeof_memblock : Z := 24.
Definition sizeof_memzone : Z := 32.

(** C: Source/zone.c:29-36 memblock_t *)
Record memblock : Type := MB {
  mb_size : Z;
  mb_tag : Z;
  mb_id : Z;
  mb_next : Z;
  mb_prev : Z
}.

Definition mb_set_size (v : Z) (b : memblock) := MB v (mb_tag b) (mb_id b) (mb_next b) (mb_prev b).
Definition mb_set_tag (v : Z) (b : memblock) := MB (mb_size b) v (mb_id b) (mb_next b) (mb_prev b).
Definition mb_set_id (v : Z) (b : memblock) := MB (mb_size b) (mb_tag b) v (mb_next b) (mb_prev b).
Definition mb_set_next (v : Z) (b : memblock) := MB (mb_size b) (mb_tag b) (mb_id b) v (mb_prev b).
Definition mb_set_prev (v : Z) (b : memblock) := MB (mb_size b) (mb_tag b) (mb_id b) (mb_next b) v.

(** [mainzone] points at [zaddr]; [zsize] is its first field, which nothing writes.
    C: Source/zone.c:38-43 memzone_t *)
Record zone : Type := Zone {
  zaddr : Z;
  zsize : Z;
  heap : gmap Z memblock;
  rover : Z;
  zmem : gmap Z Z
}.

Definition blocklist (z : zone) : Z := zaddr z + 4.

Definition set_heap (h : gmap Z memblock) (z : zone) : zone :=
  Zone (zaddr z) (zsize z) h (rover z) (zmem z).
Definition set_rover (r : Z) (z : zone) : zone :=
  Zone (zaddr z) (zsize z) (heap z) r (zmem z).
Definition set_zmem (m : gmap Z Z) (z : zone) : zone :=
  Zone (zaddr z) (zsize z) (heap z) (rover z) m.

(** Read a header; update one field of a header. *)
Definition hd_at (z : zone) (a : Z) : res memblock :=
  of_option (Undefined "no block header at this address") (heap z !! a).

Definition upd (a : Z) (f : memblock -> memblock) (z : zone) : res zone :=
  b ← hd_at z a; mret (set_heap (<[a := f b]> (heap z)) z).

(** Byte stores of the data area. *)
Definition put_int (a v : Z) (m : gmap Z Z) : gmap Z Z :=
  <[a := u8 v]> (<[a + 1 := u8 (v >> 8)]> (<[a + 2 := u8 (v >> 16)]> (<[a + 3 := u8 (v >> 24)]> m))).

Fixpoint memset0 (a : Z) (n : nat) (m : gmap Z Z) : gmap Z Z :=
  match n with
  | O => m
  | S n => <[a := 0]> (memset0 (a + 1) n m)
  end.

(** C: Source/zone.c:138-154 Z_ClearZone *)
Definition Z_ClearZone (z : zone) (size : Z) : zone :=
  let block := zaddr z + sizeof_memzone in
  Zone (zaddr z) (zsize z)
    (<[block := MB (s32 (size - sizeof_memzone)) 0 ZONEID (blocklist z) (blocklist z)]>
       (<[blocklist z := MB 0 1 0 block block]> (heap z)))
    block (zmem z).

(** What both merges of [Z_Free] do to a block [p] and the block [b] after it:
    [p] takes over [b]'s bytes and its place in the list.
    C: Source/zone.c:176-195 Z_Free *)
Definition absorb (p b : Z) (z : zone) : res zone :=
  pb ← hd_at z p;
  bb ← hd_at z b;
  z ← upd p (mb_set_size (mb_size pb + mb_size bb)) z;
  z ← upd p (mb_set_next (mb_next bb)) z;
  z ← upd (mb_next bb) (mb_set_prev p) z;
  mret (if b =? rover z then set_rover p z else z).

(** C: Source/zone.c:161-196 Z_Free *)
Definition Z_Free (z : zone) (ptr : Z) : res zone :=
  if ptr =? 0 then Fault (Sys_Error "Z_Free: NULL pointer") else
  let block := ptr - sizeof_memblock in
  b ← hd_at z block;
  if negb (mb_id b =? ZONEID) then
    Fault (Sys_Error "Z_Free: freed a pointer without ZONEID")
  else if mb_tag b =? 0 then Fault (Sys_Error "Z_Free: freed a freed pointer") else
  z ← upd block (mb_set_tag 0) z;
  let other := mb_prev b in
  o ← hd_at z other;
  '(z, block) ← (if mb_tag o =? 0
                 then z ← absorb other block z; mret (z, other)
                 else mret (z, block));
  b ← hd_at z block;
  let other := mb_next b in
  o ← hd_at z other;
  if mb_tag o =? 0 then absorb block other z else mret z.

(** The search loop; [None] is the [return NULL] of a completed round. *)
Fixpoint scan (fuel : nat) (z : zone) (start rov base size : Z) : res (option Z) :=
  match fuel with
  | O => Fault OutOfFuel
  | S fuel =>
      if rov =? start then mret None
      else
        r ← hd_at z rov;
        let base := if truth (mb_tag r) then mb_next r else base in
        let rov := mb_next r in
        b ← hd_at z base;
        if truth (mb_tag b) || (mb_size b <? size) then scan fuel z start rov base size
        else mret (Some base)
  end.

(** Headers of merged blocks stay behind in memory, so the map has at least as many
    entries as the list has blocks, and one round of the list is within the fuel. *)
Definition scan_fuel (z : zone) : nat := S (size (heap z)).

(** The block size for a request: header, trash tester, rounded to 8 bytes. *)
Definition zone_size (size : Z) : Z :=
  let size := s32 (size + sizeof_memblock) in
  let size := s32 (size + 4) in
  s32 ((size + 7) & Z.lnot 7).

(** C: Source/zone.c:214-265 Z_TagMalloc *)
Definition Z_TagMalloc (z : zone) (size tag : Z) : res (Z * zone) :=
  if tag =? 0 then Fault (Sys_Error "Z_TagMalloc: tried to use a 0 tag") else
  let size := zone_size size in
  let base := rover z in
  b ← hd_at z base;
  let start := mb_prev b in
  found ← scan (scan_fuel z) z start base base size;
  match found with
  | None => mret (0, z)
  | Some base =>
      b ← hd_at z base;
      let extra := mb_size b - size in
      z ← (if MINFRAGMENT <? extra then
             let new := base + size in
             let z := set_heap (<[new := MB extra 0 ZONEID (mb_next b) base]> (heap z)) z in
             z ← upd (mb_next b) (mb_set_prev new) z;
             z ← upd base (mb_set_next new) z;
             upd base (mb_set_size size) z
           else mret z);
      z ← upd base (mb_set_tag tag) z;
      b ← hd_at z base;
      let z := set_rover (mb_next b) z in
      z ← upd base (mb_set_id ZONEID) z;
      let z := set_zmem (put_int (base + mb_size b - 4) ZONEID (zmem z)) z in
      mret (base + sizeof_memblock, z)
  end.

(** C: Source/zone.c:203-212 Z_Malloc *)
Definition Z_Malloc (z : zone) (size : Z) : res (Z * zone) :=
  '(buf, z) ← Z_TagMalloc z size 1;
  if buf =? 0 then Fault (Sys_Error "Z_Malloc: failed on allocation of %i bytes")
  else mret (buf, set_zmem (memset0 buf (Z.to_nat size) (zmem z)) z).

(** The errors the block walk of [Z_Print] reports, in order.
    C: Source/zone.c:272-292 Z_Print *)
Fixpoint Z_Print_loop (fuel : nat) (z : zone) (block : Z) : res (list string) :=
  match fuel with
  | O => Fault OutOfFuel
  | S fuel =>
      b ← hd_at z block;
      if mb_next b =? blocklist z then mret []
      else
        n ← hd_at z (mb_next b);
        let e1 := if block + mb_size b =? mb_next b then []
                  else ["ERROR: block size does not touch the next block"%string] in
        let e2 := if mb_prev n =? block then []
                  else ["ERROR: next block doesn't have proper back link"%string] in
        let e3 := if (mb_tag b =? 0) && (mb_tag n =? 0)
                  then ["ERROR: two consecutive free blocks"%string] else [] in
        es ← Z_Print_loop fuel z (mb_next b);
        mret (e1 ++ e2 ++ e3 ++ es)
  end.

(** * The abstract block list *)

Record blk : Type := Blk { ba : Z; bsz : Z; btg : Z }.

Definition first (l : list blk) (q : Z) : Z := match l with [] => q | b :: _ => ba b end.
Fixpoint lasta (p : Z) (l : list blk) : Z := match l with [] => p | b :: l => lasta (ba b) l end.

(** The headers of a list segment, linked from [p] to [q]. *)
Fixpoint seg (h : gmap Z memblock) (p : Z) (l : list blk) (q : Z) : Prop :=
  match l with
  | [] => True
  | b :: l => h !! ba b = Some (MB (bsz b) (btg b) ZONEID (first l q) p) /\ seg h (ba b) l q
  end.

Definition ring (h : gmap Z memblock) (s : Z) (l : list blk) : Prop :=
  h !! s = Some (MB 0 1 0 (first l s) (lasta s l)) /\ seg h s l s.

(** The blocks tile [lo, hi): each starts where the one before ends. *)
Fixpoint tiles (lo : Z) (l : list blk) (hi : Z) : Prop :=
  match l with
  | [] => lo = hi
  | b :: l => ba b = lo /\ sizeof_memblock <= bsz b /\ tiles (lo + bsz b) l hi
  end.

Fixpoint no_adjacent_free (l : list blk) : Prop :=
  match l with
  | b :: ((c :: _) as l') => (btg b <> 0 \/ btg c <> 0) /\ no_adjacent_free l'
  | _ => True
  end.

(** The zone [z] occupies [zaddr z, hi) and its blocks are [l]. *)
Definition zone_list (z : zone) (l : list blk) (hi : Z) : Prop :=
  0 < zaddr z /\ ring (heap z) (blocklist z) l /\
  tiles (zaddr z + sizeof_memzone) l hi /\
  (rover z = blocklist z \/ rover z ∈ ba <$> l).

Definition zone_inv (z : zone) (l : list blk) (hi : Z) : Prop :=
  zone_list z l hi /\ no_adjacent_free l.

(** ** Segments *)

Lemma first_app l1 l2 q : first (l1 ++ l2) q = first l1 (first l2 q).
Proof. by destruct l1. Qed.

Lemma lasta_app p l1 l2 : lasta p (l1 ++ l2) = lasta (lasta p l1) l2.
Proof. revert p. induction l1 as [|b l1 IH]; intros p; cbn; [done|]. apply IH. Qed.

Lemma lasta_snoc p l b : lasta p (l ++ [b]) = ba b.
Proof. by rewrite lasta_app. Qed.

Lemma seg_app h p l1 l2 q :
  seg h p (l1 ++ l2) q <-> seg h p l1 (first l2 q) /\ seg h (lasta p l1) l2 q.
Proof.
  revert p. induction l1 as [|b l1 IH]; intros p; cbn [seg app]; [tauto|].
  rewrite IH, first_app. cbn [lasta]. tauto.
Qed.

Lemma seg_frame h h' p l q :
  (forall b, b ∈ l -> h' !! ba b = h !! ba b) -> seg h p l q -> seg h' p l q.
Proof.
  revert p. induction l as [|b l IH]; intros p Hf; cbn [seg]; [done|].
  intros [Hb Hl]. split; [rewrite Hf by left; done|]. apply IH; [|done].
  intros c Hc. apply Hf. by right.
Qed.

(** Re-pointing the ends of a segment. *)
Lemma seg_set_first h p p' b l q r :
  ba b ∉ ba <$> l -> h !! ba b = Some r -> seg h p (b :: l) q ->
  seg (<[ba b := mb_set_prev p' r]> h) p' (b :: l) q.
Proof.
  intros Hni Hr [Hb Hl]. rewrite Hb in Hr. simplify_eq. cbn. rewrite lookup_insert_eq.
  split; [done|]. eapply seg_frame; [|done]. intros c Hc. rewrite lookup_insert_ne; [done|].
  intros He. apply Hni. rewrite He. by apply list_elem_of_fmap_2.
Qed.

(** ** Tilings *)

Lemma tiles_app lo l1 l2 hi :
  tiles lo (l1 ++ l2) hi <-> exists mid, tiles lo l1 mid /\ tiles mid l2 hi.
Proof.
  revert lo. induction l1 as [|b l1 IH]; intros lo; cbn [tiles app].
  - split; [intros; by exists lo|]. intros (mid & -> & ?). done.
  - rewrite IH. naive_solver.
Qed.

Lemma tiles_le lo l hi : tiles lo l hi -> lo <= hi.
Proof.
  revert lo. induction l as [|b l IH]; intros lo; cbn; [lia|].
  intros (_ & Hs & Ht). apply IH in Ht. unfold sizeof_memblock in Hs. lia.
Qed.

Lemma tiles_in lo l hi b :
  tiles lo l hi -> b ∈ l -> lo <= ba b /\ ba b + bsz b <= hi /\ sizeof_memblock <= bsz b.
Proof.
  revert lo. induction l as [|c l IH]; intros lo Ht Hb; [by apply not_elem_of_nil in Hb|].
  cbn in Ht. destruct Ht as (Ha & Hs & Ht). pose proof (tiles_le _ _ _ Ht).
  apply elem_of_cons in Hb as [->|Hb]; [lia|].
  apply (IH _ Ht) in Hb. unfold sizeof_memblock in *. lia.
Qed.

Lemma tiles_addr_in lo l hi a :
  tiles lo l hi -> a ∈ ba <$> l -> lo <= a < hi.
Proof.
  intros Ht (b & -> & Hb)%list_elem_of_fmap. pose proof (tiles_in _ _ _ _ Ht Hb).
  unfold sizeof_memblock in *. lia.
Qed.

Lemma tiles_NoDup lo l hi : tiles lo l hi -> NoDup (ba <$> l).
Proof.
  revert lo. induction l as [|b l IH]; intros lo; cbn; [constructor|].
  intros (Ha & Hs & Ht). constructor; [|by eapply IH].
  intros Hin. apply (tiles_addr_in _ _ _ _ Ht) in Hin. unfold sizeof_memblock in Hs. lia.
Qed.

Lemma zone_list_sentinel z l hi : zone_list z l hi -> blocklist z ∉ ba <$> l.
Proof.
  intros (_ & _ & Ht & _) Hin. apply (tiles_addr_in _ _ _ _ Ht) in Hin.
  unfold blocklist, sizeof_memzone in *. lia.
Qed.

(** ** Running the operations *)

Lemma hd_at_ok z a r : heap z !! a = Some r -> hd_at z a = Ok r.
Proof. intros H. unfold hd_at. by rewrite H. Qed.

Lemma upd_ok z a f r :
  heap z !! a = Some r -> upd a f z = Ok (set_heap (<[a := f r]> (heap z)) z).
Proof. intros H. unfold upd. by rewrite (hd_at_ok _ _ _ H). Qed.

(** The header a segment has at one of its blocks. *)
Lemma zring_at h s l1 b l2 :
  ring h s (l1 ++ b :: l2) ->
  h !! ba b = Some (MB (bsz b) (btg b) ZONEID (first l2 s) (lasta s l1)).
Proof. intros [_ Hs]. apply seg_app in Hs as [_ [Hb _]]. done. Qed.

(** The header after a block: the next block's or the sentinel's. *)
Lemma ring_next h s l1 b l2 :
  ring h s (l1 ++ b :: l2) ->
  exists r, h !! first l2 s = Some r /\ mb_prev r = ba b /\
    mb_tag r = match l2 with [] => 1 | c :: _ => btg c end.
Proof.
  intros Hr. destruct l2 as [|c l2].
  - destruct Hr as [Hs _]. eexists. split; [done|]. cbn. by rewrite lasta_snoc.
  - replace (l1 ++ b :: c :: l2) with ((l1 ++ [b]) ++ c :: l2) in Hr by (by rewrite <- app_assoc).
    apply zring_at in Hr. eexists. split; [done|]. cbn. by rewrite lasta_snoc.
Qed.

Lemma zone_list_distinct z l1 p l2 hi :
  zone_list z (l1 ++ p :: l2) hi ->
  ba p ∉ ba <$> l1 /\ ba p ∉ ba <$> l2 /\ (forall a, a ∈ ba <$> l1 -> a ∉ ba <$> l2) /\
  blocklist z <> ba p /\ blocklist z ∉ ba <$> l1 /\ blocklist z ∉ ba <$> l2.
Proof.
  intros Hz. pose proof (zone_list_sentinel _ _ _ Hz) as Hs.
  destruct Hz as (_ & _ & Ht & _). apply tiles_NoDup in Ht.
  rewrite fmap_app in Ht, Hs. cbn [fmap list_fmap] in Ht, Hs.
  apply NoDup_app in Ht as (_ & Hd & Ht). apply NoDup_cons in Ht as [Hp _]. set_solver.
Qed.

(** Linking [p] directly to what follows [b] drops [b] from the ring. *)
Lemma ring_absorb h s l1 p b l2 r n :
  ring h s (l1 ++ p :: b :: l2) ->
  ba p ∉ ba <$> l1 -> ba p ∉ ba <$> (b :: l2) -> s <> ba p ->
  s ∉ ba <$> l1 -> s ∉ ba <$> l2 -> (forall a, a ∈ ba <$> l1 -> a ∉ ba <$> l2) ->
  NoDup (ba <$> l2) -> n = first l2 s -> h !! n = Some r ->
  ring (<[n := mb_set_prev (ba p) r]>
         (<[ba p := MB (bsz p + bsz b) (btg p) ZONEID n (lasta s l1)]> h)) s
    (l1 ++ Blk (ba p) (bsz p + bsz b) (btg p) :: l2).
Proof.
  intros Hr Hp1 Hp2 Hsp Hs1 Hs2 Hd Hnd Hn Hh. pose proof Hr as [Hs Hseg].
  apply seg_app in Hseg as [H1 [Hp [Hb H2]]]. cbn [first] in H1.
  assert (ba p ∉ ba <$> l2 /\ ba p <> n) as [Hp3 Hpn].
  { subst n. destruct l2; cbn in *; set_solver. }
  assert (forall a, a ∈ ba <$> l1 -> a <> n) as Hn1 by (subst n; destruct l2; cbn; set_solver).
  split.
  - rewrite first_app, lasta_app. destruct l2 as [|c l2]; subst n; cbn in *.
    + rewrite lookup_insert_eq. rewrite Hs in Hh. injection Hh as <-. cbn.
      by rewrite first_app.
    + rewrite !lookup_insert_ne by set_solver. rewrite Hs, first_app, lasta_app. done.
  - apply seg_app. split; [|split].
    + cbn. eapply seg_frame; [|exact H1]. intros x Hx.
      assert (ba x ∈ ba <$> l1) by (by apply list_elem_of_fmap_2).
      rewrite !lookup_insert_ne; [done|set_solver|]. intros He. by apply (Hn1 (ba x)).
    + cbn. rewrite lookup_insert_ne, lookup_insert_eq by done. by subst n.
    + cbn. destruct l2 as [|c l2]; [done|]. cbn in Hn. subst n.
      eapply seg_set_first; [by apply NoDup_cons in Hnd as [? _]| |].
      * rewrite lookup_insert_ne by set_solver. done.
      * eapply (seg_frame h _ _ _ _); [|exact H2].
        intros x Hx. rewrite lookup_insert_ne; [done|].
        intros He. apply Hp3. rewrite He. by apply list_elem_of_fmap_2.
Qed.

Definition merge_blk (p b : blk) : blk := Blk (ba p) (bsz p + bsz b) (btg p).

Lemma absorb_spec z l1 p b l2 hi :
  zone_list z (l1 ++ p :: b :: l2) hi ->
  exists z', absorb (ba p) (ba b) z = Ok z' /\
    zone_list z' (l1 ++ merge_blk p b :: l2) hi /\
    zaddr z' = zaddr z /\ zmem z' = zmem z /\
    rover z' = (if ba b =? rover z then ba p else rover z).
Proof.
  intros Hz. pose proof (zone_list_distinct _ _ _ _ _ Hz) as (Hp1 & Hp2 & Hd & Hsp & Hs1 & Hs2).
  pose proof Hz as (Hpos & Hr & Ht & Hrov). set (s := blocklist z) in *.
  pose proof (zring_at _ _ _ _ _ Hr) as Hhp. cbn [first] in Hhp.
  pose proof Hr as Hr'.
  replace (l1 ++ p :: b :: l2) with ((l1 ++ [p]) ++ b :: l2) in Hr' by (by rewrite <- app_assoc).
  pose proof (zring_at _ _ _ _ _ Hr') as Hhb. rewrite lasta_snoc in Hhb.
  destruct (ring_next _ _ _ _ _ Hr') as (r & Hhn & Hrp & _).
  assert (NoDup (ba <$> l2)) as Hnd.
  { apply tiles_NoDup in Ht. rewrite fmap_app in Ht. apply NoDup_app in Ht as (_ & _ & Ht).
    cbn in Ht. apply NoDup_cons in Ht as [_ Ht]. by apply NoDup_cons in Ht as [_ Ht]. }
  set (n := first l2 s) in *.
  assert (n <> ba p) as Hnp.
  { unfold n. destruct l2 as [|c l2]; cbn in *; [done|]. set_solver. }
  assert (ba p <> ba b) as Hpb by (cbn in Hp2; set_solver).
  unfold absorb. rewrite (hd_at_ok _ _ _ Hhp), bind_Ok, (hd_at_ok _ _ _ Hhb), bind_Ok.
  rewrite (upd_ok _ _ _ _ Hhp), bind_Ok.
  erewrite upd_ok by (cbn; apply lookup_insert_eq). rewrite bind_Ok.
  erewrite upd_ok by (cbn; rewrite !lookup_insert_ne by done; exact Hhn). rewrite bind_Ok.
  cbn [mb_set_size mb_set_next mb_set_prev mb_size mb_tag mb_id mb_next mb_prev set_heap heap rover].
  rewrite insert_insert_eq.
  assert (ring (<[n := mb_set_prev (ba p) r]>
            (<[ba p := MB (bsz p + bsz b) (btg p) ZONEID n (lasta s l1)]> (heap z))) s
            (l1 ++ merge_blk p b :: l2)) as Hring.
  { apply ring_absorb with (b := b); try done; [cbn in *; set_solver..|].
    cbn in Hd. intros a Ha. specialize (Hd a Ha). set_solver. }
  assert (tiles (zaddr z + sizeof_memzone) (l1 ++ merge_blk p b :: l2) hi) as Htiles.
  { apply tiles_app in Ht as (mid & Ht1 & Ha & Hsz & _ & Hszb & Ht2).
    apply tiles_app. exists mid. split; [done|]. cbn. unfold sizeof_memblock in *.
    split; [done|]. split; [lia|]. by rewrite Z.add_assoc. }
  eexists. split; [reflexivity|]. destruct (ba b =? rover z) eqn:Er; cbn.
  - split; [|done]. unfold zone_list. cbn. split_and!; try done. right.
    rewrite fmap_app. cbn. set_solver.
  - split; [|done]. unfold zone_list. cbn. split_and!; try done.
    destruct Hrov as [?|Hrov]; [by left|right]. bool_props.
    rewrite fmap_app in *. cbn in *. set_solver.
Qed.

(** ** No two contiguous free blocks *)

Fixpoint ltag (l : list blk) : Z := match l with [] => 1 | [b] => btg b | _ :: l => ltag l end.
Definition ftag (l : list blk) : Z := match l with [] => 1 | b :: _ => btg b end.

Lemma ltag_cons b c l : ltag (b :: c :: l) = ltag (c :: l).
Proof. done. Qed.

Lemma ltag_snoc l b : ltag (l ++ [b]) = btg b.
Proof.
  induction l as [|c l IH]; [done|]. destruct l as [|d l]; [done|].
  cbn [app] in *. by rewrite ltag_cons.
Qed.

Lemma naf_mid l1 b l2 :
  no_adjacent_free (l1 ++ b :: l2) <->
  no_adjacent_free l1 /\ no_adjacent_free l2 /\
  (btg b <> 0 \/ (ltag l1 <> 0 /\ ftag l2 <> 0)).
Proof.
  assert (1 <> 0) as H1 by lia. induction l1 as [|c l1 IH].
  - cbn [app]. destruct l2 as [|d l2]; cbn [no_adjacent_free ltag ftag]; tauto.
  - destruct l1 as [|d l1].
    + clear IH. cbn [app]. destruct l2 as [|e l2]; cbn [no_adjacent_free ltag ftag]; tauto.
    + cbn [app] in *. rewrite ltag_cons.
      change (no_adjacent_free (c :: d :: l1 ++ b :: l2)) with
        ((btg c <> 0 \/ btg d <> 0) /\ no_adjacent_free (d :: l1 ++ b :: l2)).
      rewrite IH.
      change (no_adjacent_free (c :: d :: l1)) with
        ((btg c <> 0 \/ btg d <> 0) /\ no_adjacent_free (d :: l1)). tauto.
Qed.

(** * Freeing *)

Lemma ring_set_tag h s l1 b l2 t :
  ring h s (l1 ++ b :: l2) ->
  ba b ∉ ba <$> l1 -> ba b ∉ ba <$> l2 -> s <> ba b ->
  ring (<[ba b := MB (bsz b) t ZONEID (first l2 s) (lasta s l1)]> h) s
    (l1 ++ Blk (ba b) (bsz b) t :: l2).
Proof.
  intros [Hs Hseg] H1 H2 Hsb. apply seg_app in Hseg as [Hl1 [Hb Hl2]]. split.
  - rewrite lookup_insert_ne by done. rewrite Hs, !first_app, !lasta_app. done.
  - apply seg_app. cbn. rewrite lookup_insert_eq. split_and!; [|done|].
    + eapply seg_frame; [|exact Hl1]. intros x Hx. rewrite lookup_insert_ne; [done|].
      intros He. apply H1. rewrite He. by apply list_elem_of_fmap_2.
    + eapply seg_frame; [|exact Hl2]. intros x Hx. rewrite lookup_insert_ne; [done|].
      intros He. apply H2. rewrite He. by apply list_elem_of_fmap_2.
Qed.

Lemma tiles_set_tag lo l1 b l2 hi t :
  tiles lo (l1 ++ b :: l2) hi -> tiles lo (l1 ++ Blk (ba b) (bsz b) t :: l2) hi.
Proof. rewrite !tiles_app. done. Qed.

Lemma zone_list_set_tag z l1 b l2 hi t :
  zone_list z (l1 ++ b :: l2) hi ->
  exists z', upd (ba b) (mb_set_tag t) z = Ok z' /\
    zone_list z' (l1 ++ Blk (ba b) (bsz b) t :: l2) hi /\
    zaddr z' = zaddr z /\ zmem z' = zmem z /\ rover z' = rover z.
Proof.
  intros Hz. pose proof (zone_list_distinct _ _ _ _ _ Hz) as (H1 & H2 & _ & Hs & _).
  destruct Hz as (Hpos & Hr & Ht & Hrov).
  rewrite (upd_ok _ _ _ _ (zring_at _ _ _ _ _ Hr)). eexists. split; [done|].
  split; [|done]. unfold zone_list. cbn. split_and!; [done| |by apply tiles_set_tag|].
  - by apply ring_set_tag.
  - rewrite fmap_app in *. done.
Qed.

Definition allocated (l : list blk) : list blk := filter (fun b => btg b <> 0) l.

Lemma allocated_app l1 l2 : allocated (l1 ++ l2) = allocated l1 ++ allocated l2.
Proof. apply filter_app. Qed.

Lemma allocated_free b l : btg b = 0 -> allocated (b :: l) = allocated l.
Proof. intros H. unfold allocated. rewrite filter_cons_False; [done|]. tauto. Qed.

Lemma allocated_used b l : btg b <> 0 -> allocated (b :: l) = b :: allocated l.
Proof. intros H. unfold allocated. by rewrite filter_cons_True. Qed.

(** The tag of the header before a block. *)
Lemma ring_prev h s l1 b l2 :
  ring h s (l1 ++ b :: l2) -> exists r, h !! lasta s l1 = Some r /\ mb_tag r = ltag l1.
Proof.
  intros Hr. destruct l1 as [|p l1 _] using rev_ind.
  - destruct Hr as [Hs _]. by eexists.
  - rewrite lasta_snoc, ltag_snoc. rewrite <- app_assoc in Hr. apply zring_at in Hr. by eexists.
Qed.

(** First half of [Z_Free]: merging with the block before. *)
Lemma free_prev z l1 b l2 hi :
  zone_list z (l1 ++ b :: l2) hi -> btg b = 0 ->
  no_adjacent_free l1 -> exists o, heap z !! lasta (blocklist z) l1 = Some o /\
  exists z' l1' b', (if mb_tag o =? 0
      then z1 ← absorb (lasta (blocklist z) l1) (ba b) z; mret (z1, lasta (blocklist z) l1)
      else mret (z, ba b)) = Ok (z', ba b') /\
    zone_list z' (l1' ++ b' :: l2) hi /\ btg b' = 0 /\ no_adjacent_free l1' /\ ltag l1' <> 0 /\
    allocated l1' = allocated l1 /\ zaddr z' = zaddr z /\ zmem z' = zmem z.
Proof.
  intros Hz Hb Hn. pose proof Hz as (_ & Hr & _).
  destruct (ring_prev _ _ _ _ _ Hr) as (o & Ho & Ht). exists o. split; [done|].
  rewrite Ht. case_if.
  - destruct l1 as [|p l1 _] using rev_ind; [done|]. rewrite lasta_snoc, ltag_snoc in *.
    rewrite <- app_assoc in Hz. cbn [app] in Hz.
    destruct (absorb_spec _ _ _ _ _ _ Hz) as (z' & -> & Hz' & Ha & Hm & _).
    apply naf_mid in Hn as (Hn & _ & [|[Hl _]]); [done|].
    exists z', l1, (merge_blk p b). rewrite bind_Ok. split_and!; try done.
    rewrite allocated_app, allocated_free by done. by rewrite app_nil_r.
  - exists z, l1, b. done.
Qed.

(** Second half: merging with the block after. *)
Lemma free_next z l1 b l2 hi :
  zone_list z (l1 ++ b :: l2) hi -> btg b = 0 -> no_adjacent_free l1 -> ltag l1 <> 0 ->
  no_adjacent_free l2 ->
  exists z' l', (x ← hd_at z (ba b); o ← hd_at z (mb_next x);
     if mb_tag o =? 0 then absorb (ba b) (mb_next x) z else mret z) = Ok z' /\
    zone_inv z' l' hi /\ allocated l' = allocated l1 ++ allocated l2 /\
    zaddr z' = zaddr z /\ zmem z' = zmem z.
Proof.
  intros Hz Hb Hn1 Hl1 Hn2. pose proof Hz as (_ & Hr & _).
  rewrite (hd_at_ok _ _ _ (zring_at _ _ _ _ _ Hr)), bind_Ok. cbn [mb_next].
  destruct (ring_next _ _ _ _ _ Hr) as (o & Ho & _ & Ht).
  rewrite (hd_at_ok _ _ _ Ho), bind_Ok. case_if.
  - destruct l2 as [|c l2]; [lia|]. cbn [first] in *.
    destruct (absorb_spec _ _ _ _ _ _ Hz) as (z' & -> & Hz' & Ha & Hm & _).
    exists z', (l1 ++ merge_blk b c :: l2). split; [done|]. split_and!; try done.
    + split; [done|]. apply (naf_mid [] c l2) in Hn2 as (_ & Hn2 & [|[_ Hf]]); [lia|].
      apply naf_mid. tauto.
    + rewrite allocated_app, !allocated_free by (done || lia). done.
  - exists z, (l1 ++ b :: l2). split; [done|]. split_and!; try done.
    + split; [done|]. apply naf_mid. split_and!; try done. right. split; [done|].
      destruct l2; cbn in *; congruence.
    + by rewrite allocated_app, allocated_free.
Qed.

(** Freeing an allocated block succeeds, takes exactly that block out of the allocated
    list, and restores the invariant. *)
Lemma Z_Free_ok z l1 b l2 hi :
  zone_inv z (l1 ++ b :: l2) hi -> btg b <> 0 ->
  exists z' l', Z_Free z (ba b + sizeof_memblock) = Ok z' /\ zone_inv z' l' hi /\
    allocated l' = allocated l1 ++ allocated l2 /\ zaddr z' = zaddr z /\ zmem z' = zmem z.
Proof.
  intros [Hz Hn] Hb. apply naf_mid in Hn as (Hn1 & Hn2 & _).
  assert (0 < ba b) as Hpos.
  { pose proof Hz as (Hp & _ & Ht & _).
    assert (ba b ∈ ba <$> (l1 ++ b :: l2)) as Hin by (rewrite fmap_app; set_solver).
    pose proof (tiles_addr_in _ _ _ _ Ht Hin). unfold sizeof_memzone in *. lia. }
  unfold Z_Free. case_if; [unfold sizeof_memblock in *; lia|].
  replace (ba b + sizeof_memblock - sizeof_memblock) with (ba b) by lia.
  pose proof Hz as (_ & Hr & _).
  rewrite (hd_at_ok _ _ _ (zring_at _ _ _ _ _ Hr)), bind_Ok. cbn [mb_id mb_tag mb_prev].
  rewrite Z.eqb_refl. cbn [negb]. case_if; [done|].
  destruct (zone_list_set_tag _ _ _ _ _ 0 Hz) as (z1 & -> & Hz1 & Ha1 & Hm1 & _).
  rewrite bind_Ok.
  destruct (free_prev z1 l1 (Blk (ba b) (bsz b) 0) l2 hi Hz1 eq_refl Hn1)
    as (o & Ho & z2 & l1' & b' & Hstep & Hz2 & Hb' & Hn1' & Hl1' & Hal & Ha2 & Hm2).
  assert (blocklist z1 = blocklist z) as Hbl by (unfold blocklist; by rewrite Ha1).
  rewrite Hbl in Ho, Hstep. rewrite (hd_at_ok _ _ _ Ho), bind_Ok.
  cbn [ba] in Hstep. rewrite Hstep, bind_Ok.
  destruct (free_next z2 l1' b' l2 hi Hz2 Hb' Hn1' Hl1' Hn2)
    as (z3 & l' & Hgo & Hinv & Hall & Ha3 & Hm3).
  exists z3, l'. rewrite Hgo. split_and!; try done; congruence.
Qed.

(** * The search *)

(** A run of the list as the search follows it: only [next], [tag] and [size]. *)
Fixpoint linked (h : gmap Z memblock) (l : list blk) (q : Z) : Prop :=
  match l with
  | [] => True
  | b :: l => (exists r, h !! ba b = Some r /\ mb_size r = bsz b /\ mb_tag r = btg b /\
                mb_next r = first l q) /\ linked h l q
  end.

Lemma linked_app h l1 l2 q :
  linked h (l1 ++ l2) q <-> linked h l1 (first l2 q) /\ linked h l2 q.
Proof.
  induction l1 as [|b l1 IH]; cbn [linked app]; [tauto|]. rewrite IH, first_app. tauto.
Qed.

Lemma seg_linked h p l q : seg h p l q -> linked h l q.
Proof.
  revert p. induction l as [|b l IH]; intros p; cbn [seg linked]; [done|].
  intros [Hb Hl]. split; [by eexists|]. by eapply IH.
Qed.

Definition fits (size : Z) (b : blk) : Prop := btg b = 0 /\ size <= bsz b.

#[global] Instance fits_dec size b : Decision (fits size b).
Proof. unfold fits. apply _. Defined.

(** The search on the list itself: [rest] runs from the rover to the block before it. *)
Fixpoint scan_abs (base : blk) (rest : list blk) (size : Z) : option blk :=
  match rest with
  | r :: ((r2 :: _) as rest') =>
      let base := if decide (btg r <> 0) then r2 else base in
      if decide (fits size base) then Some base else scan_abs base rest' size
  | _ => None
  end.

Lemma scan_abs_cons base r r2 rest size :
  scan_abs base (r :: r2 :: rest) size =
    let base := if decide (btg r <> 0) then r2 else base in
    if decide (fits size base) then Some base else scan_abs base (r2 :: rest) size.
Proof. done. Qed.

Lemma fits_test size b r :
  mb_size r = bsz b -> mb_tag r = btg b ->
  truth (mb_tag r) || (mb_size r <? size) = negb (bool_decide (fits size b)).
Proof.
  intros -> ->. unfold truth. destruct (bool_decide _) eqn:E; cbn.
  - apply bool_decide_eq_true in E as [-> ?]. cbn. apply Z.ltb_ge. lia.
  - apply bool_decide_eq_false in E. unfold fits in E.
    destruct (Z.eqb_spec (btg b) 0); cbn; [apply Z.ltb_lt; lia|done].
Qed.

Lemma lasta_in p b l : lasta p (b :: l) ∈ ba <$> (b :: l).
Proof.
  revert p b. induction l as [|c l IH]; intros p b; cbn; [by left|].
  right. apply (IH p c).
Qed.

Lemma scan_refines z rest q size : forall fuel base r rb,
  (length rest < fuel)%nat -> linked (heap z) (r :: rest) q ->
  NoDup (ba <$> (r :: rest)) ->
  heap z !! ba base = Some rb -> mb_size rb = bsz base -> mb_tag rb = btg base ->
  scan fuel z (lasta 0 (r :: rest)) (ba r) (ba base) size
    = Ok (ba <$> scan_abs base (r :: rest) size).
Proof.
  induction rest as [|r2 rest IH]; intros fuel base r rb Hf Hl Hnd Hb Hbs Hbt;
    (destruct fuel as [|fuel]; [lia|]); cbn [scan].
  - cbn. by rewrite Z.eqb_refl.
  - destruct Hl as [(rr & Hr & Hrs & Hrt & Hrn) Hl]. cbn [first] in Hrn.
    destruct (ba r =? lasta 0 (r :: r2 :: rest)) eqn:E.
    { exfalso. bool_props. cbn [fmap list_fmap] in Hnd. apply NoDup_cons in Hnd as [Hni _].
      apply Hni. rewrite E. cbn [lasta]. apply (lasta_in 0 r2 rest). }
    rewrite (hd_at_ok _ _ _ Hr), bind_Ok, Hrt, Hrn.
    pose proof Hl as [(r2h & Hr2 & Hr2s & Hr2t & _) _].
    set (base' := if decide (btg r <> 0) then r2 else base).
    assert (exists rb', heap z !! ba base' = Some rb' /\ mb_size rb' = bsz base' /\
              mb_tag rb' = btg base') as (rb' & Hb' & Hs' & Ht').
    { unfold base'. destruct (decide _); by eexists. }
    replace (if truth (btg r) then ba r2 else ba base) with (ba base').
    2:{ unfold base', truth. by destruct (decide _), (Z.eqb_spec (btg r) 0). }
    rewrite (hd_at_ok _ _ _ Hb'), bind_Ok.
    rewrite (fits_test size _ _ Hs' Ht').
    rewrite scan_abs_cons. fold base'. cbv zeta.
    destruct (decide (fits size base'));
      [by rewrite bool_decide_true|rewrite bool_decide_false by done]. cbn [negb].
    apply (IH fuel base' r2 rb'); try done; [cbn in Hf; lia|by apply NoDup_cons in Hnd as [_ ?]].
Qed.

(** Once the current base has been rejected, the rest of the round decides. *)
Lemma scan_abs_rejected rest size : forall base r,
  no_adjacent_free (r :: rest) -> ~ fits size base ->
  (base = r \/ btg r <> 0) ->
  match scan_abs base (r :: rest) size with
  | Some b => b ∈ rest /\ fits size b
  | None => forall b, b ∈ r :: rest -> ~ fits size b
  end.
Proof.
  induction rest as [|r2 rest IH]; intros base r Hn Hb Hr.
  - cbn. intros b ->%list_elem_of_singleton. destruct Hr as [<-|Hr]; [done|].
    intros [? _]. done.
  - rewrite scan_abs_cons. assert (~ fits size r) as Hrf.
    { destruct Hr as [<-|Hr]; [done|]. intros [? _]. done. }
    set (base' := if decide (btg r <> 0) then r2 else base). cbv zeta.
    destruct (decide (fits size base')) as [Hf|Hf].
    { unfold base' in *. destruct (decide _); [|done]. split; [by left|done]. }
    assert (base' = r2 \/ btg r2 <> 0) as Hr2.
    { unfold base'. destruct (decide (btg r <> 0)) as [|Hz]; [by left|right].
      destruct Hn as [[?|?] _]; [done|done]. }
    specialize (IH base' r2 (proj2 Hn) Hf Hr2).
    destruct (scan_abs base' (r2 :: rest) size) as [b|].
    + destruct IH as [? ?]. split; [by right|done].
    + intros b [->|Hin]%elem_of_cons; [done|]. by apply IH.
Qed.

Lemma scan_abs_spec rest size r :
  no_adjacent_free (r :: rest) -> rest <> [] ->
  match scan_abs r (r :: rest) size with
  | Some b => b ∈ r :: rest /\ fits size b
  | None => forall b, b ∈ r :: rest -> ~ fits size b
  end.
Proof.
  intros Hn Hne. destruct (decide (fits size r)) as [Hf|Hf].
  - destruct rest as [|r2 rest]; [done|]. rewrite scan_abs_cons. cbv zeta.
    destruct (decide (btg r <> 0)) as [Ht|_]; [by destruct Hf|].
    destruct (decide (fits size r)); [|done]. split; [by left|done].
  - pose proof (scan_abs_rejected rest size r r Hn Hf (or_introl eq_refl)) as H.
    destruct (scan_abs _ _ _); [|done]. destruct H. split; [by right|done].
Qed.

(** ** The ring seen from the rover *)

Definition nodes (z : zone) (l : list blk) : list blk := Blk (blocklist z) 0 1 :: l.

Lemma nodes_linked z l hi : zone_list z l hi -> linked (heap z) (nodes z l) (blocklist z).
Proof.
  intros (_ & [Hs Hl] & _ & _). cbn. split; [by eexists|]. by eapply seg_linked.
Qed.

Lemma nodes_NoDup z l hi : zone_list z l hi -> NoDup (ba <$> nodes z l).
Proof.
  intros Hz. cbn. constructor; [by eapply zone_list_sentinel|].
  destruct Hz as (_ & _ & Ht & _). by eapply tiles_NoDup.
Qed.

(** Splitting the ring at the rover gives the order the search visits. *)
Lemma nodes_rotate z l hi :
  zone_inv z l hi -> l <> [] ->
  exists r rest rb, ba r = rover z /\ rest <> [] /\
    (forall b, b ∈ r :: rest <-> b ∈ nodes z l) /\
    no_adjacent_free (r :: rest) /\ linked (heap z) (r :: rest) (ba r) /\
    NoDup (ba <$> (r :: rest)) /\ length (r :: rest) = length (nodes z l) /\
    heap z !! ba r = Some rb /\ mb_size rb = bsz r /\ mb_tag rb = btg r /\
    mb_prev rb = lasta 0 (r :: rest).
Proof.
  intros [Hz Hn] Hne. pose proof (nodes_linked _ _ _ Hz) as Hl.
  pose proof (nodes_NoDup _ _ _ Hz) as Hnd. pose proof Hz as (_ & Hr & _ & Hrov).
  destruct Hrov as [Hrov|Hrov].
  - exists (Blk (blocklist z) 0 1), l. pose proof Hr as [Hs _].
    eexists. split_and!; try done; cbn [nodes].
    destruct l; cbn [no_adjacent_free]; [done|]. split; [left; done|done].
  - apply list_elem_of_fmap in Hrov as (r & Hra & Hin).
    apply list_elem_of_split in Hin as (l1 & l2 & ->).
    exists r, (l2 ++ Blk (blocklist z) 0 1 :: l1).
    pose proof (zring_at _ _ _ _ _ Hr) as Hh. eexists. split_and!.
    + done.
    + by destruct l2.
    + intros b. unfold nodes. set_solver.
    + apply (naf_mid (r :: l2)). apply naf_mid in Hn as (H1 & H2 & Hr2).
      split_and!; [|done|left; done].
      apply (naf_mid [] r l2). split_and!; try done.
      destruct Hr2 as [?|[_ ?]]; [by left|by right].
    + unfold nodes in Hl. rewrite app_comm_cons in Hl. apply linked_app in Hl as [H1 H2].
      rewrite app_comm_cons. apply linked_app. split; [done|]. done.
    + unfold nodes in Hnd. rewrite app_comm_cons, fmap_app in Hnd.
      rewrite app_comm_cons, fmap_app. by rewrite (comm app) in Hnd.
    + unfold nodes. cbn. rewrite !length_app. cbn. lia.
    + done.
    + done.
    + done.
    + cbn [mb_prev]. rewrite app_comm_cons, lasta_app. done.
Qed.

(** * Allocation *)

(** Cutting a block in two: the inverse of [ring_absorb]. *)
Lemma ring_split h s l1 b l2 r n nx new :
  ring h s (l1 ++ b :: l2) ->
  ba b ∉ ba <$> l1 -> ba b ∉ ba <$> l2 -> s <> ba b ->
  s ∉ ba <$> l1 -> s ∉ ba <$> l2 -> (forall a, a ∈ ba <$> l1 -> a ∉ ba <$> l2) ->
  NoDup (ba <$> l2) -> nx = first l2 s -> h !! nx = Some r ->
  new <> s -> new <> ba b -> new ∉ ba <$> l1 -> new ∉ ba <$> l2 ->
  ring (<[ba b := MB n (btg b) ZONEID new (lasta s l1)]>
         (<[nx := mb_set_prev new r]>
           (<[new := MB (bsz b - n) 0 ZONEID nx (ba b)]> h))) s
    (l1 ++ Blk (ba b) n (btg b) :: Blk new (bsz b - n) 0 :: l2).
Proof.
  intros [Hs Hseg] Hb1 Hb2 Hsb Hs1 Hs2 Hd Hnd Hnx Hh Hns Hnb Hn1 Hn2.
  apply seg_app in Hseg as [H1 [Hb H2]]. cbn [first] in H1.
  assert (nx <> ba b /\ nx <> new) as [Hxb Hxn] by (subst nx; destruct l2; cbn in *; set_solver).
  assert (forall a, a ∈ ba <$> l1 -> a <> nx) as Hx1 by (subst nx; destruct l2; cbn; set_solver).
  split.
  - rewrite first_app, lasta_app. rewrite lookup_insert_ne by done.
    destruct l2 as [|c l2]; subst nx; cbn in *.
    + rewrite lookup_insert_eq. rewrite Hs in Hh. injection Hh as <-. cbn. by rewrite first_app.
    + rewrite !lookup_insert_ne by set_solver. by rewrite Hs, first_app, lasta_app.
  - apply seg_app. split; [|split; [|split]].
    + cbn. eapply seg_frame; [|exact H1]. intros x Hx.
      assert (ba x ∈ ba <$> l1) as Hin by (by apply list_elem_of_fmap_2).
      rewrite !lookup_insert_ne; [done|set_solver|by apply not_eq_sym, Hx1|set_solver].
    + cbn. by rewrite lookup_insert_eq.
    + cbn. rewrite !lookup_insert_ne, lookup_insert_eq by done. by subst nx.
    + cbn. destruct l2 as [|c l2]; [done|]. cbn in Hnx. subst nx.
      eapply seg_frame with (h := <[ba c := mb_set_prev new r]>
                                    (<[new := MB (bsz b - n) 0 ZONEID (ba c) (ba b)]> h)).
      { intros x Hx. rewrite lookup_insert_ne; [done|]. intros He. apply Hb2. rewrite He.
        by apply list_elem_of_fmap_2. }
      eapply seg_set_first; [by apply NoDup_cons in Hnd as [? _]| |].
      * rewrite lookup_insert_ne by set_solver. done.
      * eapply (seg_frame h); [|exact H2]. intros x Hx. rewrite lookup_insert_ne; [done|].
        intros He. apply Hn2. rewrite He. by apply list_elem_of_fmap_2.
Qed.

(** The fragment step of [Z_TagMalloc]. *)
Definition cut (z : zone) (base : Z) (b : memblock) (size : Z) : res zone :=
  let new := base + size in
  let z := set_heap (<[new := MB (mb_size b - size) 0 ZONEID (mb_next b) base]> (heap z)) z in
  z ← upd (mb_next b) (mb_set_prev new) z;
  z ← upd base (mb_set_next new) z;
  upd base (mb_set_size size) z.

Lemma cut_spec z l1 b l2 hi n hb :
  zone_list z (l1 ++ b :: l2) hi -> heap z !! ba b = Some hb ->
  sizeof_memblock <= n -> sizeof_memblock <= bsz b - n ->
  exists z', cut z (ba b) hb n = Ok z' /\
    zone_list z' (l1 ++ Blk (ba b) n (btg b) :: Blk (ba b + n) (bsz b - n) 0 :: l2) hi /\
    zaddr z' = zaddr z /\ zmem z' = zmem z /\ rover z' = rover z.
Proof.
  intros Hz Hb Hn1 Hn2.
  pose proof (zone_list_distinct _ _ _ _ _ Hz) as (Hb1 & Hb2 & Hd & Hsb & Hs1 & Hs2).
  pose proof Hz as (Hpos & Hr & Ht & Hrov). set (s := blocklist z) in *.
  pose proof (zring_at _ _ _ _ _ Hr) as Hhb. rewrite Hb in Hhb. injection Hhb as ->.
  destruct (ring_next _ _ _ _ _ Hr) as (r & Hhn & _ & _).
  assert (NoDup (ba <$> l2)) as Hnd.
  { apply tiles_NoDup in Ht. rewrite fmap_app in Ht. apply NoDup_app in Ht as (_ & _ & Ht).
    cbn in Ht. by apply NoDup_cons in Ht as [_ Ht]. }
  set (nx := first l2 s) in *. set (new := ba b + n).
  pose proof Ht as Ht'. apply tiles_app in Ht' as (mid & Ht1 & Ha & Hsz & Ht2).
  unfold sizeof_memblock in *.
  assert (new ∉ ba <$> l1) as Hni1.
  { intros Hin. apply (tiles_addr_in _ _ _ _ Ht1) in Hin. lia. }
  assert (new ∉ ba <$> l2) as Hni2.
  { intros Hin. apply (tiles_addr_in _ _ _ _ Ht2) in Hin. lia. }
  assert (new <> s) as Hns.
  { apply tiles_le in Ht1. unfold new, s, blocklist, sizeof_memzone in *. lia. }
  assert (nx <> ba b /\ nx <> new) as [Hxb Hxn].
  { unfold nx. destruct l2; cbn in *; set_solver. }
  unfold cut. cbn [mb_next mb_size]. fold nx new.
  erewrite upd_ok by (cbn; rewrite lookup_insert_ne by done; exact Hhn). rewrite bind_Ok.
  erewrite upd_ok by (cbn; rewrite !lookup_insert_ne by (done || lia); exact Hb).
  rewrite bind_Ok. erewrite upd_ok by (cbn; apply lookup_insert_eq).
  eexists. split; [done|]. cbn. split; [|done].
  unfold zone_list. cbn. rewrite insert_insert_eq. split_and!; [done| | |].
  - apply ring_split; try done. lia.
  - apply tiles_app. exists mid. split; [done|]. cbn. unfold sizeof_memblock. split_and!; try lia.
    by replace (mid + n + (bsz b - n)) with (mid + bsz b) by lia.
  - destruct Hrov as [?|Hrov]; [by left|right]. rewrite fmap_app in *. cbn in *. set_solver.
Qed.

(** Writing back what a header already holds. *)
Lemma upd_same z a f r :
  heap z !! a = Some r -> f r = r -> upd a f z = Ok z.
Proof.
  intros H Hf. rewrite (upd_ok _ _ _ _ H), Hf, insert_id by done. by destruct z.
Qed.

Lemma zone_size_spec size :
  0 <= size <= 2147483600 ->
  size + 28 <= zone_size size <= size + 35 /\ zone_size size `mod` 8 = 0.
Proof.
  intros Hs. unfold zone_size, sizeof_memblock.
  rewrite (s32_id (size + 24)), (s32_id (size + 24 + 4)) by lia.
  rewrite align8. pose proof (Z.mod_pos_bound (size + 24 + 4 + 7) 8 ltac:(lia)).
  rewrite s32_id by lia. split; [lia|]. Z.to_euclidean_division_equations; lia.
Qed.

Lemma zone_list_fuel z l hi : zone_list z l hi -> (length (nodes z l) <= size (heap z))%nat.
Proof.
  intros Hz. pose proof (nodes_NoDup _ _ _ Hz) as Hnd. pose proof (nodes_linked _ _ _ Hz) as Hl.
  rewrite <- (length_fmap ba), <- size_dom.
  rewrite <- (size_list_to_set (C := gset Z) (ba <$> nodes z l)) by done.
  apply subseteq_size. intros a Ha. rewrite elem_of_list_to_set in Ha.
  apply list_elem_of_fmap in Ha as (b & -> & Hb).
  revert Hl Hb. generalize (nodes z l), (blocklist z). clear.
  induction l as [|c l IH]; intros q; [by intros _ ?%not_elem_of_nil|].
  intros [(r & Hr & _) Hl] [->|Hb]%elem_of_cons; [by apply elem_of_dom|]. by eapply IH.
Qed.

(** The scan of [Z_TagMalloc]: it always completes, and finds a fitting block when
    there is one. *)
Lemma scan_spec z l hi sz :
  zone_inv z l hi -> l <> [] ->
  exists rb, heap z !! rover z = Some rb /\
  ((scan (scan_fuel z) z (mb_prev rb) (rover z) (rover z) sz = Ok None /\
    forall b, b ∈ l -> ~ fits sz b) \/
   (exists l1 b l2, l = l1 ++ b :: l2 /\ fits sz b /\
      scan (scan_fuel z) z (mb_prev rb) (rover z) (rover z) sz = Ok (Some (ba b)))).
Proof.
  intros Hz Hne. destruct (nodes_rotate z l hi Hz Hne)
    as (r & rest & rb & Hra & Hrest & Hin & Hn & Hl & Hnd & Hlen & Hh & Hsz & Htg & Hpv).
  rewrite <- Hra. exists rb. split; [done|]. rewrite Hpv.
  pose proof (zone_list_fuel z l hi (proj1 Hz)) as Hfuel.
  rewrite (scan_refines z rest (ba r) sz _ r r rb); try done.
  2:{ unfold scan_fuel. rewrite <- Hlen in Hfuel. cbn in Hfuel. lia. }
  pose proof (scan_abs_spec rest sz r Hn Hrest) as Hs.
  destruct (scan_abs r (r :: rest) sz) as [b|].
  - right. destruct Hs as [Hb Hf]. apply Hin in Hb.
    apply elem_of_cons in Hb as [->|Hb]; [destruct Hf; done|].
    apply list_elem_of_split in Hb as (l1 & l2 & ->). by exists l1, b, l2.
  - left. split; [done|]. intros b Hb. apply Hs, Hin. by right.
Qed.

(** The last part of [Z_TagMalloc], from [base->tag = tag] on. *)
Definition claim (z : zone) (base tag : Z) : res (Z * zone) :=
  z ← upd base (mb_set_tag tag) z;
  b ← hd_at z base;
  let z := set_rover (mb_next b) z in
  z ← upd base (mb_set_id ZONEID) z;
  let z := set_zmem (put_int (base + mb_size b - 4) ZONEID (zmem z)) z in
  mret (base + sizeof_memblock, z).

Lemma claim_spec z l1 b l2 hi tag :
  zone_list z (l1 ++ b :: l2) hi ->
  exists z', claim z (ba b) tag = Ok (ba b + sizeof_memblock, z') /\
    zone_list z' (l1 ++ Blk (ba b) (bsz b) tag :: l2) hi /\ zaddr z' = zaddr z /\
    zmem z' = put_int (ba b + bsz b - 4) ZONEID (zmem z).
Proof.
  intros Hz. destruct (zone_list_set_tag _ _ _ _ _ tag Hz) as (z1 & Hu & Hz1 & Ha & Hm & _).
  unfold claim. rewrite Hu, bind_Ok. pose proof Hz1 as (Hp & Hr & Ht & _).
  pose proof (zring_at _ _ _ _ _ Hr) as Hh. cbn [ba bsz btg] in Hh.
  rewrite (hd_at_ok _ _ _ Hh), bind_Ok. cbn [mb_next mb_size].
  rewrite (upd_same (set_rover (first l2 (blocklist z1)) z1) (ba b) _ _ Hh) by done.
  rewrite bind_Ok.
  eexists. split; [done|]. cbn. rewrite Hm. split_and!; try done.
  unfold zone_list. cbn. split_and!; try done. unfold blocklist. cbn.
  destruct l2 as [|c l2]; cbn; [by left|right]. rewrite fmap_app. cbn. set_solver.
Qed.

Lemma tiles_zaddr_pos z l hi b :
  zone_list z l hi -> b ∈ l -> 0 < ba b.
Proof.
  intros (Hp & _ & Ht & _) Hb. destruct (tiles_in _ _ _ _ Ht Hb). unfold sizeof_memzone in *. lia.
Qed.

Lemma Z_TagMalloc_ok z l hi size tag :
  zone_inv z l hi -> l <> [] -> 0 <= size <= 2147483600 -> tag <> 0 ->
  (Z_TagMalloc z size tag = Ok (0, z) /\ forall b, b ∈ l -> ~ fits (zone_size size) b) \/
  (exists l1 b l2 z' l' n, l = l1 ++ b :: l2 /\ fits (zone_size size) b /\
     Z_TagMalloc z size tag = Ok (ba b + sizeof_memblock, z') /\ zone_inv z' l' hi /\
     zone_size size <= n <= zone_size size + MINFRAGMENT /\ n <= bsz b /\
     allocated l' = allocated l1 ++ Blk (ba b) n tag :: allocated l2 /\
     zaddr z' = zaddr z /\ zmem z' = put_int (ba b + n - 4) ZONEID (zmem z)).
Proof.
  intros Hz Hne Hsz Htag. pose proof (zone_size_spec size Hsz) as [Hzs _].
  destruct (scan_spec z l hi (zone_size size) Hz Hne) as (rb & Hrb & Hscan).
  unfold Z_TagMalloc. rewrite (proj2 (Z.eqb_neq tag 0) Htag).
  rewrite (hd_at_ok _ _ _ Hrb), bind_Ok.
  destruct Hscan as [[-> Hno]|(l1 & b & l2 & -> & [Hb0 Hfit] & ->)]; rewrite bind_Ok;
    [by left|right].
  pose proof Hz as [Hzl Hn]. pose proof Hzl as (_ & Hr & _).
  pose proof (zring_at _ _ _ _ _ Hr) as Hhb. rewrite (hd_at_ok _ _ _ Hhb), bind_Ok.
  cbn [mb_size]. unfold MINFRAGMENT, sizeof_memblock in *.
  apply naf_mid in Hn as (Hn1 & Hn2 & [|[Hl Hf]]); [done|].
  case_if.
  - destruct (cut_spec _ _ _ _ _ (zone_size size) _ Hzl Hhb) as (z1 & Hcut & Hz1 & Ha1 & Hm1 & _);
      [unfold sizeof_memblock; lia..|].
    destruct (claim_spec _ _ _ _ _ tag Hz1) as (z2 & Hcl & Hz2 & Ha2 & Hm2). cbn [ba bsz] in *.
    eexists l1, b, l2, z2, _, (zone_size size).
    split_and!; try done; try lia.
    + etrans; [|exact Hcl]. change (claim z1 (ba b) tag) with (Ok z1 ≫= fun z1 => claim z1 (ba b) tag).
      by rewrite <- Hcut.
    + split; [exact Hz2|]. apply naf_mid. split_and!; [done| |by left].
      apply (naf_mid [] _ l2). split_and!; try done. right. done.
    + by rewrite allocated_app, allocated_used, allocated_free.
    + by rewrite Hm2, Hm1.
  - destruct (claim_spec _ _ _ _ _ tag Hzl) as (z2 & Hcl & Hz2 & Ha2 & Hm2).
    eexists l1, b, l2, z2, _, (bsz b). split_and!; try done; try lia.
    + split; [exact Hz2|]. apply naf_mid. split_and!; [done..|by left].
    + by rewrite allocated_app, allocated_used.
Qed.

(** * Data bytes *)

Lemma memset0_spec n : forall a m i,
  memset0 a n m !! i = if decide (a <= i < a + Z.of_nat n) then Some 0 else m !! i.
Proof.
  induction n as [|n IH]; intros a m i; cbn [memset0].
  - destruct (decide _); [lia|done].
  - rewrite lookup_insert, IH.
    repeat destruct (decide _); try done; lia.
Qed.

Lemma put_int_other a v m i :
  ~ (a <= i < a + 4) -> put_int a v m !! i = m !! i.
Proof. intros H. unfold put_int. rewrite !lookup_insert_ne by lia. done. Qed.

(** The word the trash tester reads back. *)
Definition get_int (a : Z) (m : gmap Z Z) : Z :=
  s32 (default 0 (m !! a) + default 0 (m !! (a + 1)) * 256
       + default 0 (m !! (a + 2)) * 65536 + default 0 (m !! (a + 3)) * 16777216).

Lemma get_put_int a v m :
  0 <= v < 2147483648 -> get_int a (put_int a v m) = v.
Proof.
  intros Hv. unfold get_int, put_int.
  rewrite lookup_insert_eq, (lookup_insert_ne _ a (a + 1)), lookup_insert_eq by lia.
  rewrite !(lookup_insert_ne _ _ (a + 2)), lookup_insert_eq by lia.
  rewrite !(lookup_insert_ne _ _ (a + 3)), lookup_insert_eq by lia.
  autorewrite with quake_rw. cbn. wrap_lia.
Qed.

(** * Theorems *)

(** [Z_ClearZone] establishes the zone invariant: the whole zone is one free
    block, whatever was in memory before. *)
Lemma Z_ClearZone_inv z size :
  0 < zaddr z -> sizeof_memzone + sizeof_memblock <= size <= INT_MAX ->
  zone_inv (Z_ClearZone z size)
    [Blk (zaddr z + sizeof_memzone) (size - sizeof_memzone) 0] (zaddr z + size).
Proof.
  unfold sizeof_memzone, sizeof_memblock, INT_MAX. intros Hp Hs. unfold zone_inv, zone_list, ring.
  unfold Z_ClearZone, blocklist, sizeof_memzone, sizeof_memblock. cbn -[Z.add].
  rewrite s32_id by lia. rewrite lookup_insert_eq, lookup_insert_ne, lookup_insert_eq by lia.
  split_and!; try done; try (unfold sizeof_memblock; lia). right. by left.
Qed.

Definition empty_zone : zone := Zone 64 0 ∅ 0 ∅.
Definition small_zone : zone := Z_ClearZone empty_zone 1024.

Lemma small_zone_inv : zone_inv small_zone [Blk 96 992 0] 1088.
Proof.
  apply (Z_ClearZone_inv empty_zone 1024);
    unfold sizeof_memzone, sizeof_memblock, INT_MAX; cbn; lia.
Qed.

(** C2: [Z_TagMalloc] is complete and keeps the invariant.  It returns the null pointer
    exactly when no free block is large enough, whatever the rover's position; otherwise
    it claims a free block of the list: the allocated blocks are the old ones, unchanged,
    and the new one, at most [MINFRAGMENT] bytes larger than asked for, and the trash
    tester word is written at its end. *)
Theorem Z_TagMalloc_spec z l hi size tag :
  zone_inv z l hi -> l <> [] -> 0 <= size <= 2147483600 -> tag <> 0 ->
  (Z_TagMalloc z size tag = Ok (0, z) /\ forall b, b ∈ l -> ~ fits (zone_size size) b) \/
  (exists z' l' b, Z_TagMalloc z size tag = Ok (ba b + sizeof_memblock, z') /\ 0 < ba b /\
     zone_inv z' l' hi /\ allocated l' ≡ₚ b :: allocated l /\ btg b = tag /\
     size + 28 <= bsz b <= size + 35 + MINFRAGMENT /\
     get_int (ba b + bsz b - 4) (zmem z') = ZONEID).
Proof.
  intros Hz Hne Hsz Htag. pose proof (zone_size_spec size Hsz) as [Hzs _].
  destruct (Z_TagMalloc_ok z l hi size tag Hz Hne Hsz Htag)
    as [?|(l1 & b & l2 & z' & l' & n & -> & [Hb0 Hf] & Hm & Hz' & Hn & _ & Hal & _ & Hmem)];
    [by left|right].
  exists z', l', (Blk (ba b) n tag). cbn [ba bsz btg]. split_and!; try done; try lia.
  - destruct Hz as [Hz _]. eapply tiles_zaddr_pos; [exact Hz|]. set_solver.
  - rewrite Hal, allocated_app, allocated_free by done. by rewrite Permutation_middle.
  - rewrite Hmem. apply get_put_int. unfold ZONEID. lia.
Qed.

Lemma Z_TagMalloc_spec_witness :
  exists z' l' b, Z_TagMalloc small_zone 100 1 = Ok (ba b + sizeof_memblock, z') /\ 0 < ba b /\
     zone_inv z' l' 1088 /\ allocated l' ≡ₚ [b] /\ btg b = 1 /\
     100 + 28 <= bsz b <= 100 + 35 + MINFRAGMENT /\
     get_int (ba b + bsz b - 4) (zmem z') = ZONEID.
Proof.
  destruct (Z_TagMalloc_spec small_zone [Blk 96 992 0] 1088 100 1) as [[H _]|H].
  - apply small_zone_inv.
  - discriminate.
  - lia.
  - lia.
  - exfalso. vm_compute in H. discriminate.
  - exact H.
Defined.

(** C3: [Z_Free] of an allocated block succeeds, removes exactly that block from the
    allocated ones (every other keeps its address, size and tag), changes no data byte,
    and restores the invariant: in particular neighbouring free blocks are merged. *)
Theorem Z_Free_spec z l hi b :
  zone_inv z l hi -> b ∈ l -> btg b <> 0 ->
  exists z' l', Z_Free z (ba b + sizeof_memblock) = Ok z' /\ zone_inv z' l' hi /\
    b :: allocated l' ≡ₚ allocated l /\ zmem z' = zmem z.
Proof.
  intros Hz (l1 & l2 & ->)%list_elem_of_split Hb.
  destruct (Z_Free_ok z l1 b l2 hi Hz Hb) as (z' & l' & HF & Hz' & Hal & _ & Hm).
  exists z', l'. split_and!; try done.
  rewrite Hal, allocated_app, (allocated_used b l2) by done. by rewrite Permutation_middle.
Qed.

(** One block of 128 bytes in use. *)
Definition one_used : zone := match Z_TagMalloc small_zone 100 1 with Ok (_, z) => z | _ => small_zone end.

Lemma one_used_inv : zone_inv one_used [Blk 96 128 1; Blk 224 864 0] 1088.
Proof.
  unfold zone_inv, zone_list, ring, one_used. split_and!; try (vm_compute; reflexivity).
  - vm_compute. split; [reflexivity|]. split; [reflexivity|done].
  - change (zaddr _) with 64. cbn. unfold sizeof_memzone, sizeof_memblock. lia.
  - right. vm_compute. right. left.
  - cbn. lia.
Qed.

Lemma Z_Free_spec_witness :
  exists z' l', Z_Free one_used (96 + sizeof_memblock) = Ok z' /\ zone_inv z' l' 1088 /\
    Blk 96 128 1 :: allocated l' ≡ₚ [Blk 96 128 1] /\ zmem z' = zmem one_used.
Proof.
  apply (Z_Free_spec one_used [Blk 96 128 1; Blk 224 864 0] 1088 (Blk 96 128 1));
    [apply one_used_inv|left|cbn; lia].
Defined.

(** The misuses [Z_Free] detects: a null pointer, a pointer to something that is not
    a zone block, and a second free of a block whose header still stands in memory. *)
Theorem Z_Free_errors z ptr b :
  heap z !! (ptr - sizeof_memblock) = Some b ->
  Z_Free z 0 = Fault (Sys_Error "Z_Free: NULL pointer") /\
  (ptr <> 0 -> mb_id b <> ZONEID ->
     Z_Free z ptr = Fault (Sys_Error "Z_Free: freed a pointer without ZONEID")) /\
  (ptr <> 0 -> mb_id b = ZONEID -> mb_tag b = 0 ->
     Z_Free z ptr = Fault (Sys_Error "Z_Free: freed a freed pointer")).
Proof.
  intros Hb. split; [done|]. unfold Z_Free. rewrite (hd_at_ok _ _ _ Hb), bind_Ok.
  split; intros Hp; rewrite (proj2 (Z.eqb_neq _ _) Hp); intros Hid.
  - by rewrite (proj2 (Z.eqb_neq _ _) Hid).
  - intros Ht. by rewrite Hid, Ht, Z.eqb_refl.
Qed.

Lemma Z_Free_errors_witness :
  Z_Free small_zone (96 + 24) = Fault (Sys_Error "Z_Free: freed a freed pointer").
Proof.
  apply (Z_Free_errors small_zone (96 + 24) (MB 992 0 ZONEID 68 68)); try reflexivity. lia.
Defined.

(** ** The block list is determined by the allocated blocks *)

Lemma tiles_head_used lo b l hi c rest :
  tiles lo (b :: l) hi -> btg b = 0 -> allocated (b :: l) = c :: rest -> lo < ba c.
Proof.
  intros (_ & Hs & Ht) Hb Hal. rewrite allocated_free in Hal by done.
  assert (c ∈ l) as Hc.
  { apply (list_elem_of_filter (fun b => btg b <> 0) l c).
    change (c ∈ allocated l). rewrite Hal. by left. }
  destruct (tiles_in _ _ _ _ Ht Hc). unfold sizeof_memblock in *. lia.
Qed.

(** After a free block comes a used one, the first allocated, or the end. *)
Lemma free_extent lo b l hi :
  tiles lo (b :: l) hi -> no_adjacent_free (b :: l) -> btg b = 0 ->
  lo + bsz b = match allocated l with [] => hi | c :: _ => ba c end /\ (l = [] \/ ftag l <> 0).
Proof.
  intros (_ & _ & Ht) Hn Hb. apply (naf_mid [] b l) in Hn as (_ & _ & [|[_ Hf]]); [done|].
  destruct l as [|c l]; cbn in *; [split; [done|by left]|].
  split; [|by right]. change (lo + bsz b = match allocated (c :: l) with [] => hi | c :: _ => ba c end).
  rewrite allocated_used by done. by destruct Ht.
Qed.

Lemma block_list_unique hi l : forall lo l',
  tiles lo l hi -> tiles lo l' hi -> no_adjacent_free l -> no_adjacent_free l' ->
  allocated l = allocated l' -> l = l'.
Proof.
  induction l as [|b l IH]; intros lo l' Ht Ht' Hn Hn' Hal.
  { destruct l' as [|c l']; [done|]. exfalso. cbn in Ht. subst hi.
    pose proof (tiles_in _ _ _ c Ht' ltac:(by left)). unfold sizeof_memblock in *. lia. }
  destruct l' as [|c l'].
  { exfalso. cbn in Ht'. subst hi. pose proof (tiles_in _ _ _ b Ht ltac:(by left)).
    unfold sizeof_memblock in *. lia. }
  assert (b = c) as ->.
  - pose proof Ht as (Hab & _ & _). pose proof Ht' as (Hac & _ & _).
    destruct (decide (btg b = 0)) as [Hb|Hb], (decide (btg c = 0)) as [Hc|Hc].
    + pose proof (free_extent _ _ _ _ Ht Hn Hb) as [E1 _].
      pose proof (free_extent _ _ _ _ Ht' Hn' Hc) as [E2 _].
      rewrite !allocated_free in Hal by done. rewrite Hal in E1.
      destruct b, c; cbn in *. f_equal; lia.
    + exfalso. rewrite (allocated_used c) in Hal by done.
      pose proof (tiles_head_used _ _ _ _ _ _ Ht Hb Hal). lia.
    + exfalso. rewrite (allocated_used b) in Hal by done. symmetry in Hal.
      pose proof (tiles_head_used _ _ _ _ _ _ Ht' Hc Hal). lia.
    + rewrite !allocated_used in Hal by done. congruence.
  - f_equal. destruct Ht as (_ & _ & Ht), Ht' as (_ & _ & Ht').
    apply (naf_mid [] c l) in Hn as (_ & Hn & _). apply (naf_mid [] c l') in Hn' as (_ & Hn' & _).
    eapply IH; [exact Ht|exact Ht'|done|done|].
    destruct (decide (btg c = 0)); [by rewrite !allocated_free in Hal|].
    rewrite !allocated_used in Hal by done. congruence.
Qed.

Lemma zone_inv_unique z z' l l' hi :
  zone_inv z l hi -> zone_inv z' l' hi -> zaddr z = zaddr z' ->
  allocated l = allocated l' -> l = l'.
Proof.
  intros [(_ & _ & Ht & _) Hn] [(_ & _ & Ht' & _) Hn'] Ha Hal. rewrite <- Ha in Ht'.
  by eapply block_list_unique.
Qed.

(** Freeing what was just allocated restores the zone's block list exactly: block
    for block the same addresses, sizes and tags as before the allocation. *)
Theorem Z_malloc_free z l hi size tag p z' :
  zone_inv z l hi -> l <> [] -> 0 <= size <= 2147483600 -> tag <> 0 ->
  Z_TagMalloc z size tag = Ok (p, z') -> p <> 0 ->
  exists z'', Z_Free z' p = Ok z'' /\ zone_inv z'' l hi.
Proof.
  intros Hz Hne Hsz Htag Hm Hp.
  destruct (Z_TagMalloc_ok z l hi size tag Hz Hne Hsz Htag)
    as [[? _]|(l1 & b & l2 & z1 & l' & n & -> & [Hb0 _] & Hm1 & Hz1 & _ & _ & Hal & Ha & _)];
    [congruence|].
  rewrite Hm in Hm1. simplify_eq.
  assert (exists k1 k2, l' = k1 ++ Blk (ba b) n tag :: k2 /\
            allocated k1 = allocated l1 /\ allocated k2 = allocated l2) as (k1 & k2 & -> & H1 & H2).
  { clear -Hal Htag. revert Hal. generalize (allocated l1) as a1. induction l' as [|c l' IH]; intros a1 Hal.
    - cbn in Hal. by destruct a1.
    - destruct (decide (btg c = 0)) as [Hc|Hc].
      + rewrite allocated_free in Hal by done. destruct (IH _ Hal) as (k1 & k2 & -> & H1 & H2).
        exists (c :: k1), k2. by rewrite allocated_free.
      + rewrite allocated_used in Hal by done. destruct a1 as [|x a1]; cbn in Hal; injection Hal as -> Hal.
        * by exists [], l'.
        * destruct (IH _ Hal) as (k1 & k2 & -> & H1 & H2).
          exists (x :: k1), k2. by rewrite allocated_used, H1. }
  destruct (Z_Free_ok z1 k1 (Blk (ba b) n tag) k2 hi Hz1 Htag) as (z'' & l'' & HF & Hz'' & Hal' & Ha' & _).
  exists z''. split; [done|].
  replace (l1 ++ b :: l2) with l''; [done|].
  apply (zone_inv_unique z'' z l'' (l1 ++ b :: l2) hi); [done|done|congruence|].
  rewrite Hal', allocated_app, allocated_free by done. congruence.
Qed.

Lemma Z_malloc_free_witness :
  exists z'', Z_Free one_used 120 = Ok z'' /\ zone_inv z'' [Blk 96 992 0] 1088.
Proof.
  apply (Z_malloc_free small_zone [Blk 96 992 0] 1088 100 1 120 one_used);
    [apply small_zone_inv|discriminate|lia|lia|vm_compute; reflexivity|lia].
Defined.

(** * What clients rely on *)

(** The contract of [Z_Malloc]: it fails only when no free block is large enough;
    otherwise the returned [size] bytes are zero, lie inside a newly allocated block clear
    of its header and of the trash tester, the blocks allocated before are still allocated,
    and no data byte outside the new block changes. *)
Theorem Z_Malloc_spec z l hi size :
  zone_inv z l hi -> l <> [] -> 0 <= size <= 2147483600 ->
  ((exists msg, Z_Malloc z size = Fault (Sys_Error msg)) /\
     forall b, b ∈ l -> ~ fits (zone_size size) b) \/
  (exists z' l' b, Z_Malloc z size = Ok (ba b + sizeof_memblock, z') /\ zone_inv z' l' hi /\
     allocated l' ≡ₚ b :: allocated l /\
     ba b + sizeof_memblock + size <= ba b + bsz b - 4 /\
     (forall i, ba b + sizeof_memblock <= i < ba b + sizeof_memblock + size ->
        zmem z' !! i = Some 0) /\
     get_int (ba b + bsz b - 4) (zmem z') = ZONEID /\
     (forall i, ~ (ba b <= i < ba b + bsz b) -> zmem z' !! i = zmem z !! i)).
Proof.
  intros Hz Hne Hsz. pose proof (zone_size_spec size Hsz) as [Hzs _]. unfold Z_Malloc.
  destruct (Z_TagMalloc_ok z l hi size 1 Hz Hne Hsz ltac:(lia))
    as [[-> Hno]|(l1 & b & l2 & z' & l' & n & -> & [Hb0 _] & -> & Hz' & Hn & _ & Hal & _ & Hmem)];
    rewrite bind_Ok; [left; split; [by eexists|done]|right].
  assert (0 < ba b) as Hpos by (destruct Hz as [Hz _]; eapply tiles_zaddr_pos; [exact Hz|set_solver]).
  unfold sizeof_memblock, MINFRAGMENT in *. case_if; [lia|].
  set (buf := ba b + 24) in *.
  exists (set_zmem (memset0 buf (Z.to_nat size) (zmem z')) z'), l', (Blk (ba b) n 1).
  cbn [ba bsz zmem set_zmem]. split_and!; try lia.
  - done.
  - done.
  - rewrite Hal, allocated_app, allocated_free by done. by rewrite Permutation_middle.
  - intros i Hi. rewrite memset0_spec. destruct (decide _); [done|lia].
  - unfold get_int. rewrite !memset0_spec.
    do 4 (destruct (decide _); [lia|]). rewrite Hmem.
    apply get_put_int. unfold ZONEID. lia.
  - intros i Hi. rewrite memset0_spec. destruct (decide _); [lia|].
    rewrite Hmem. apply put_int_other. lia.
Qed.

Lemma Z_Malloc_spec_witness :
  exists z' l' b, Z_Malloc small_zone 100 = Ok (ba b + sizeof_memblock, z') /\
     zone_inv z' l' 1088 /\ allocated l' ≡ₚ [b] /\
     ba b + sizeof_memblock + 100 <= ba b + bsz b - 4 /\
     (forall i, ba b + sizeof_memblock <= i < ba b + sizeof_memblock + 100 ->
        zmem z' !! i = Some 0) /\
     get_int (ba b + bsz b - 4) (zmem z') = ZONEID /\
     (forall i, ~ (ba b <= i < ba b + bsz b) -> zmem z' !! i = zmem small_zone !! i).
Proof.
  destruct (Z_Malloc_spec small_zone [Blk 96 992 0] 1088 100) as [[_ H]|H].
  - apply small_zone_inv.
  - discriminate.
  - lia.
  - exfalso. apply (H (Blk 96 992 0)); [left|]. by_decide.
  - exact H.
Defined.
