(* ===== verification/Ring.v ===== *)
(** Doubly linked rings through records in a map.

    The engine keeps several circular lists with a sentinel (the cache's two lists, the
    area links of the world).  [ring m h L] says that from the sentinel [h] the [nx] fields
    visit [L] in order and return to [h], and that the [pv] fields go back the same way.
    Insertion and removal are stated for any map [m'] whose fields changed at the two
    neighbours only, so that the lemmas serve the different orders in which the code writes
    the four pointers. *)

From S2P Require Import Prelude.

(** Read one field. *)
Definition fget {N} (g : N -> Z) (m : gmap Z N) (a : Z) : option Z := g <$> m !! a.

Lemma fget_alter {N} (g : N -> Z) f (m : gmap Z N) p a :
  fget g (alter f p m) a = if decide (a = p) then fget (fun n => g (f n)) m a else fget g m a.
Proof.
  unfold fget. destruct (decide (a = p)) as [->|].
  - rewrite lookup_alter_eq. by destruct (m !! p).
  - by rewrite lookup_alter_ne by done.
Qed.

Lemma fget_insert {N} (g : N -> Z) (m : gmap Z N) p n a :
  fget g (<[p := n]> m) a = if decide (a = p) then Some (g n) else fget g m a.
Proof.
  unfold fget. destruct (decide (a = p)) as [->|]; [by rewrite lookup_insert_eq|].
  by rewrite lookup_insert_ne by done.
Qed.

(** Writing fields the getter does not read. *)
Lemma fget_alter_same {N} (g : N -> Z) f (m : gmap Z N) p a :
  (forall n, g (f n) = g n) -> fget g (alter f p m) a = fget g m a.
Proof.
  intros Hf. rewrite fget_alter. destruct (decide _); [|done]. unfold fget.
  destruct (m !! a); cbn; [by rewrite Hf|done].
Qed.

(** A field of a record that is there. *)
Lemma fget_const {N} (g : N -> Z) (m : gmap Z N) a v :
  is_Some (m !! a) -> (forall n, g n = v) -> fget g m a = Some v.
Proof. intros [n Hn] Hg. unfold fget. rewrite Hn. cbn. by rewrite Hg. Qed.

Lemma fget_alter_ne {N} (g : N -> Z) f (m : gmap Z N) p a :
  a <> p -> fget g (alter f p m) a = fget g m a.
Proof. intros H. rewrite fget_alter. by destruct (decide _). Qed.

Section ring.
Context {N : Type} (nx pv : N -> Z).

Definition edge (m : gmap Z N) (a b : Z) : Prop := fget nx m a = Some b /\ fget pv m b = Some a.

Fixpoint path (m : gmap Z N) (p : Z) (L : list Z) : Prop :=
  match L with
  | [] => True
  | a :: L => edge m p a /\ path m a L
  end.

Definition ring (m : gmap Z N) (h : Z) (L : list Z) : Prop := path m h (L ++ [h]).

Fixpoint lastz (p : Z) (L : list Z) : Z := match L with [] => p | a :: L => lastz a L end.
Definition firstz (L : list Z) (q : Z) : Z := match L with [] => q | a :: _ => a end.

Lemma lastz_snoc p L a : lastz p (L ++ [a]) = a.
Proof. revert p. induction L as [|b L IH]; intros p; cbn; [done|]. apply IH. Qed.

Lemma lastz_in p L : lastz p L = p \/ lastz p L ∈ L.
Proof.
  revert p. induction L as [|b L IH]; intros p; cbn; [by left|right].
  destruct (IH b) as [->|]; [by left|by right].
Qed.

Lemma path_app m p L1 L2 : path m p (L1 ++ L2) <-> path m p L1 /\ path m (lastz p L1) L2.
Proof.
  revert p. induction L1 as [|a L1 IH]; intros p; cbn; [tauto|]. rewrite IH. tauto.
Qed.

(** A path only depends on the [nx] fields of all but its last node and the [pv] fields
    of all but its first. *)
Lemma path_frame m m' p L :
  path m p L ->
  (forall a, a ∈ removelast (p :: L) -> fget nx m' a = fget nx m a) ->
  (forall a, a ∈ L -> fget pv m' a = fget pv m a) -> path m' p L.
Proof.
  revert p. induction L as [|b L IH]; intros p Hp Hn Hv; [done|].
  destruct Hp as [[H1 H2] Hp]. split; [split|].
  - rewrite Hn; [done|]. cbn. by left.
  - rewrite Hv; [done|]. by left.
  - apply IH; [done| |].
    + intros a Ha. apply Hn. change (removelast (p :: b :: L)) with (p :: removelast (b :: L)). by right.
    + intros a Ha. apply Hv. by right.
Qed.

Lemma removelast_in (a p : Z) L : a ∈ removelast (p :: L) -> NoDup (p :: L) ->
  a ∈ p :: L /\ a <> lastz p L.
Proof.
  revert p. induction L as [|b L IH]; intros p Ha Hnd; [by apply not_elem_of_nil in Ha|].
  change (removelast (p :: b :: L)) with (p :: removelast (b :: L)) in Ha.
  apply NoDup_cons in Hnd as [Hp Hnd]. apply elem_of_cons in Ha as [->|Ha].
  - split; [by left|]. cbn. destruct (lastz_in b L) as [->|]; set_solver.
  - destruct (IH _ Ha Hnd) as [H1 H2]. split; [by right|done].
Qed.

Lemma ring_mid m h L1 L2 :
  ring m h (L1 ++ L2) <->
  path m h L1 /\ edge m (lastz h L1) (firstz L2 h) /\ path m (firstz L2 h) (tail (L2 ++ [h])).
Proof.
  unfold ring. rewrite <- app_assoc, path_app. destruct L2 as [|b L2]; cbn; tauto.
Qed.

Lemma ring_first m h L : ring m h L -> fget nx m h = Some (firstz L h).
Proof. intros H. apply (ring_mid m h [] L) in H as (_ & [H _] & _). done. Qed.

Lemma ring_last m h L : ring m h L -> fget pv m h = Some (lastz h L).
Proof.
  intros H. rewrite <- (app_nil_r L) in H. apply ring_mid in H as (_ & [_ H] & _). done.
Qed.

Lemma ring_at m h L1 a L2 : ring m h (L1 ++ a :: L2) ->
  fget nx m a = Some (firstz L2 h) /\ fget pv m a = Some (lastz h L1).
Proof.
  intros H. split.
  - replace (L1 ++ a :: L2) with ((L1 ++ [a]) ++ L2) in H by by rewrite <- app_assoc.
    apply ring_mid in H as (_ & [H _] & _). by rewrite lastz_snoc in H.
  - apply ring_mid in H as (_ & [_ H] & _). done.
Qed.

Lemma ring_in m h L a : ring m h L -> a ∈ h :: L -> is_Some (m !! a).
Proof.
  intros H [->|(L1 & L2 & ->)%list_elem_of_split]%elem_of_cons.
  - apply ring_first in H. unfold fget in H. destruct (m !! h); [by eexists|done].
  - apply ring_at in H as [H _]. unfold fget in H. destruct (m !! a); [by eexists|done].
Qed.

Section change.
Context (m m' : gmap Z N) (h : Z) (L1 L2 : list Z).
Let p := lastz h L1.
Let q := firstz L2 h.

(** The parts of a ring before [p] and after [q] when only [nx] of [p] and [pv] of [q]
    change. *)
Lemma path_before (new : Z) :
  path m h L1 -> NoDup (h :: L1 ++ L2) -> new ∉ h :: L1 ++ L2 ->
  (forall a, a <> p -> a <> new -> fget nx m' a = fget nx m a) ->
  (forall a, a <> q -> a <> new -> fget pv m' a = fget pv m a) -> path m' h L1.
Proof.
  intros Hp Hnd Hnew Hnx Hpv. eapply path_frame; [done| |].
  - intros a Ha. apply removelast_in in Ha as [Ha Hal].
    + apply Hnx; [done|]. set_solver.
    + apply NoDup_cons in Hnd as [H1 H2]. apply NoDup_app in H2 as (H2 & _).
      apply NoDup_cons. set_solver.
  - intros a Ha. apply Hpv; [|set_solver]. intros ->. apply NoDup_cons in Hnd as [H1 H2].
    apply NoDup_app in H2 as (_ & H2 & _). unfold q in Ha. destruct L2 as [|z L2']; cbn in Ha.
    + apply H1, elem_of_app. by left.
    + apply (H2 z Ha). by left.
Qed.

Lemma path_after (new : Z) :
  path m q (tail (L2 ++ [h])) -> NoDup (h :: L1 ++ L2) -> new ∉ h :: L1 ++ L2 ->
  (forall a, a <> p -> a <> new -> fget nx m' a = fget nx m a) ->
  (forall a, a <> q -> a <> new -> fget pv m' a = fget pv m a) -> path m' q (tail (L2 ++ [h])).
Proof.
  intros Hp Hnd Hnew Hnx Hpv. subst q. destruct L2 as [|b L2']; [done|]. cbn [firstz tail app] in *.
  apply NoDup_cons in Hnd as [H1 H2]. apply NoDup_app in H2 as (H2 & H3 & H4).
  eapply path_frame; [done| |].
  - intros a Ha.
    assert (a ∈ b :: L2') as Hin.
    { change (b :: L2' ++ [h]) with ((b :: L2') ++ [h]) in Ha. by rewrite removelast_last in Ha. }
    apply Hnx; [|clear -Hin Hnew; set_solver]. intros ->. unfold p in Hin.
    destruct (lastz_in h L1) as [E|E]; [rewrite E in Hin; clear -H1 Hin; set_solver|by apply (H3 _ E)].
  - intros a Ha. apply Hpv; [|clear -Ha Hnew; set_solver]. intros ->.
    apply NoDup_cons in H4 as [H4 _]. clear -Ha H1 H4. set_solver.
Qed.

Lemma ring_insert new :
  ring m h (L1 ++ L2) -> NoDup (h :: L1 ++ L2) -> new ∉ h :: L1 ++ L2 ->
  fget nx m' p = Some new -> fget nx m' new = Some q ->
  fget pv m' new = Some p -> fget pv m' q = Some new ->
  (forall a, a <> p -> a <> new -> fget nx m' a = fget nx m a) ->
  (forall a, a <> q -> a <> new -> fget pv m' a = fget pv m a) ->
  ring m' h (L1 ++ new :: L2).
Proof.
  intros (Hb & He & Ha)%ring_mid Hnd Hnew H1 H2 H3 H4 Hnx Hpv.
  apply ring_mid. split; [by eapply path_before|]. split; [done|]. cbn [firstz app tail].
  pose proof (path_after new Ha Hnd Hnew Hnx Hpv) as Hq.
  assert (path m' new (firstz L2 h :: tail (L2 ++ [h]))) as Hn by (split; [split; assumption|exact Hq]).
  clear -Hn. by destruct L2.
Qed.

Lemma ring_remove a :
  ring m h (L1 ++ a :: L2) -> NoDup (h :: L1 ++ a :: L2) ->
  fget nx m' p = Some q -> fget pv m' q = Some p ->
  (forall b, b <> p -> b <> a -> fget nx m' b = fget nx m b) ->
  (forall b, b <> q -> b <> a -> fget pv m' b = fget pv m b) ->
  ring m' h (L1 ++ L2).
Proof.
  intros Hr Hnd H1 H2 Hnx Hpv.
  assert (NoDup (h :: L1 ++ L2) /\ a ∉ h :: L1 ++ L2) as [Hnd' Ha].
  { rewrite <- Permutation_middle in Hnd. apply NoDup_cons in Hnd as [H3 H4].
    apply NoDup_cons in H4 as [H4 H5]. clear -H3 H4 H5. rewrite NoDup_cons. set_solver. }
  assert (path m h L1 /\ path m q (tail (L2 ++ [h]))) as [Hp1 Hp2].
  { apply ring_mid in Hr as (Hb & _ & Hr). cbn in Hr. split; [done|].
    unfold q. clear -Hr. destruct L2; cbn in *; by destruct Hr as [_ Hr]. }
  apply ring_mid. split; [by eapply path_before|]. split; [done|]. by eapply path_after.
Qed.

End change.

(** A ring read through other fields of the same records. *)
Lemma ring_same m m' h L :
  ring m h L -> (forall a, fget nx m' a = fget nx m a) -> (forall a, fget pv m' a = fget pv m a) ->
  ring m' h L.
Proof. intros Hr H1 H2. eapply path_frame; [exact Hr|auto..]. Qed.

(** A ring on nodes that are left alone. *)
Lemma ring_frame m m' h L :
  ring m h L -> (forall a, a ∈ h :: L -> m' !! a = m !! a) -> ring m' h L.
Proof.
  intros Hr Hf. assert (forall g a, a ∈ h :: L -> fget g m' a = fget g m a) as Hg.
  { intros g a Ha. unfold fget. by rewrite Hf. }
  eapply path_frame; [exact Hr| |].
  - intros a Ha. apply Hg. change (h :: L ++ [h]) with ((h :: L) ++ [h]) in Ha.
    by rewrite removelast_last in Ha.
  - intros a Ha. apply Hg. clear -Ha. set_solver.
Qed.

End ring.
