(* ===== verification/Cache.v ===== *)
(** The data cache between the two ends of the hunk (Source/zone.c, third part).

    [memst] holds the hunk's globals and the cache: the headers of cached blocks, with the
    list head [cache_head] among them, are records in a map from addresses; what the blocks
    contain is [mem]; [cusers] are the [data] fields of the [cache_user_t] records, 0 the
    null pointer.  [sizeof (cache_system_t)] is 40.

    Blocks are on two rings through [cache_head]: one in address order, one in order of
    use.  The abstract view is a pair of lists, the blocks by address and the addresses by
    recency. *)

From S2P Require Import Prelude Ring.

(** C: Source/zone.c:572-579 cache_system_t *)
Record cache_system : Type := CS {
  cs_size : Z;
  cs_user : Z;
  cs_name : bytes;
  cs_prev : Z;
  cs_next : Z;
  cs_lru_prev : Z;
  cs_lru_next : Z
}.

Definition set_cs_size (v : Z) (s : cache_system) : cache_system :=
    CS v (cs_user s) (cs_name s) (cs_prev s) (cs_next s) (cs_lru_prev s) (cs_lru_next s).
Definition set_cs_user (v : Z) (s : cache_system) : cache_system :=
    CS (cs_size s) v (cs_name s) (cs_prev s) (cs_next s) (cs_lru_prev s) (cs_lru_next s).
Definition set_cs_name (v : bytes) (s : cache_system) : cache_system :=
    CS (cs_size s) (cs_user s) v (cs_prev s) (cs_next s) (cs_lru_prev s) (cs_lru_next s).
Definition set_cs_prev (v : Z) (s : cache_system) : cache_system :=
    CS (cs_size s) (cs_user s) (cs_name s) v (cs_next s) (cs_lru_prev s) (cs_lru_next s).
Definition set_cs_next (v : Z) (s : cache_system) : cache_system :=
    CS (cs_size s) (cs_user s) (cs_name s) (cs_prev s) v (cs_lru_prev s) (cs_lru_next s).
Definition set_cs_lru_prev (v : Z) (s : cache_system) : cache_system :=
    CS (cs_size s) (cs_user s) (cs_name s) (cs_prev s) (cs_next s) v (cs_lru_next s).
Definition set_cs_lru_next (v : Z) (s : cache_system) : cache_system :=
    CS (cs_size s) (cs_user s) (cs_name s) (cs_prev s) (cs_next s) (cs_lru_prev s) v.

(** C: Source/zone.c:305-312 hunk_base *)
Record memst : Type := MemSt {
  cache_head : Z;
  hunk_base : Z;
  hunk_size : Z;
  hunk_low_used : Z;
  hunk_high_used : Z;
  hunk_tempactive : bool;
  hunk_tempmark : Z;
  mem : gmap Z Z;
  cblocks : gmap Z cache_system;
  cusers : gmap Z Z
}.

Definition set_cache_head (v : Z) (s : memst) : memst :=
    MemSt v (hunk_base s) (hunk_size s) (hunk_low_used s) (hunk_high_used s)
    (hunk_tempactive s) (hunk_tempmark s) (mem s) (cblocks s) (cusers s).
Definition set_hunk_base (v : Z) (s : memst) : memst :=
    MemSt (cache_head s) v (hunk_size s) (hunk_low_used s) (hunk_high_used s)
    (hunk_tempactive s) (hunk_tempmark s) (mem s) (cblocks s) (cusers s).
Definition set_hunk_size (v : Z) (s : memst) : memst :=
    MemSt (cache_head s) (hunk_base s) v (hunk_low_used s) (hunk_high_used s)
    (hunk_tempactive s) (hunk_tempmark s) (mem s) (cblocks s) (cusers s).
Definition set_hunk_low_used (v : Z) (s : memst) : memst :=
    MemSt (cache_head s) (hunk_base s) (hunk_size s) v (hunk_high_used s) (hunk_tempactive
    s) (hunk_tempmark s) (mem s) (cblocks s) (cusers s).
Definition set_hunk_high_used (v : Z) (s : memst) : memst :=
    MemSt (cache_head s) (hunk_base s) (hunk_size s) (hunk_low_used s) v (hunk_tempactive s)
    (hunk_tempmark s) (mem s) (cblocks s) (cusers s).
Definition set_hunk_tempactive (v : bool) (s : memst) : memst :=
    MemSt (cache_head s) (hunk_base s) (hunk_size s) (hunk_low_used s) (hunk_high_used s) v
    (hunk_tempmark s) (mem s) (cblocks s) (cusers s).
Definition set_hunk_tempmark (v : Z) (s : memst) : memst :=
    MemSt (cache_head s) (hunk_base s) (hunk_size s) (hunk_low_used s) (hunk_high_used s)
    (hunk_tempactive s) v (mem s) (cblocks s) (cusers s).
Definition set_mem (v : gmap Z Z) (s : memst) : memst :=
    MemSt (cache_head s) (hunk_base s) (hunk_size s) (hunk_low_used s) (hunk_high_used s)
    (hunk_tempactive s) (hunk_tempmark s) v (cblocks s) (cusers s).
Definition set_cblocks (v : gmap Z cache_system) (s : memst) : memst :=
    MemSt (cache_head s) (hunk_base s) (hunk_size s) (hunk_low_used s) (hunk_high_used s)
    (hunk_tempactive s) (hunk_tempmark s) (mem s) v (cusers s).
Definition set_cusers (v : gmap Z Z) (s : memst) : memst :=
    MemSt (cache_head s) (hunk_base s) (hunk_size s) (hunk_low_used s) (hunk_high_used s)
    (hunk_tempactive s) (hunk_tempmark s) (mem s) (cblocks s) v.

Definition sizeof_cache : Z := 40.

Definition cs_at (st : memst) (p : Z) : res cache_system :=
  of_option (Undefined "not a cache_system_t") (cblocks st !! p).

Definition upd_cs (p : Z) (f : cache_system -> cache_system) (st : memst) : res memst :=
  c ← cs_at st p; mret (set_cblocks (<[p := f c]> (cblocks st)) st).

(** The [data] field of a [cache_user_t]; the records start zeroed. *)
Definition user_data (st : memst) (u : Z) : Z := default 0 (cusers st !! u).
Definition set_user_data (u d : Z) (st : memst) : memst := set_cusers (<[u := d]> (cusers st)) st.

(** C: Source/zone.c:665-674 Cache_UnlinkLRU *)
Definition Cache_UnlinkLRU (cs : Z) (st : memst) : res memst :=
  c ← cs_at st cs;
  if (cs_lru_next c =? 0) || (cs_lru_prev c =? 0)
  then Fault (Sys_Error "Cache_UnlinkLRU: NULL link")
  else
    st ← upd_cs (cs_lru_next c) (set_cs_lru_prev (cs_lru_prev c)) st;
    c ← cs_at st cs;
    st ← upd_cs (cs_lru_prev c) (set_cs_lru_next (cs_lru_next c)) st;
    upd_cs cs (fun c => set_cs_lru_prev 0 (set_cs_lru_next 0 c)) st.

(** C: Source/zone.c:676-685 Cache_MakeLRU *)
Definition Cache_MakeLRU (cs : Z) (st : memst) : res memst :=
  c ← cs_at st cs;
  if truth (cs_lru_next c) || truth (cs_lru_prev c)
  then Fault (Sys_Error "Cache_MakeLRU: active link")
  else
    hd ← cs_at st (cache_head st);
    st ← upd_cs (cs_lru_next hd) (set_cs_lru_prev cs) st;
    hd ← cs_at st (cache_head st);
    st ← upd_cs cs (set_cs_lru_next (cs_lru_next hd)) st;
    st ← upd_cs cs (set_cs_lru_prev (cache_head st)) st;
    upd_cs (cache_head st) (set_cs_lru_next cs) st.

(** A header as [memset] and the assignment of the size leave it. *)
Definition new_header (size : Z) : cache_system := CS size 0 [] 0 0 0 0.

(** The insertion before [cs] that ends a successful search.
    C: Source/zone.c:725-735 Cache_TryAlloc *)
Definition insert_before (new size cs : Z) (st : memst) : res memst :=
  let st := set_cblocks (<[new := new_header size]> (cblocks st)) st in
  st ← upd_cs new (set_cs_next cs) st;
  c ← cs_at st cs;
  st ← upd_cs new (set_cs_prev (cs_prev c)) st;
  c ← cs_at st cs;
  st ← upd_cs (cs_prev c) (set_cs_next new) st;
  st ← upd_cs cs (set_cs_prev new) st;
  Cache_MakeLRU new st.

(** The search loop: the new block's address and the block it goes before; at the end of
    the list, [cache_head]. *)
Fixpoint try_loop (fuel : nat) (st : memst) (size : Z) (nobottom : bool) (first new cs : Z)
  : res (option (Z * Z)) :=
  match fuel with
  | O => Fault OutOfFuel
  | S fuel =>
      if (negb nobottom || negb (cs =? first)) && (size <=? cs - new) then mret (Some (new, cs))
      else
        c ← cs_at st cs;
        let new := cs + cs_size c in
        let cs := cs_next c in
        if cs =? cache_head st then
          mret (if size <=? hunk_base st + hunk_size st - hunk_high_used st - new
                then Some (new, cs) else None)
        else try_loop fuel st size nobottom first new cs
  end.

(** C: Source/zone.c:695-761 Cache_TryAlloc *)
Definition Cache_TryAlloc (size : Z) (nobottom : bool) (st : memst) : res (Z * memst) :=
  hd ← cs_at st (cache_head st);
  if negb nobottom && (cs_prev hd =? cache_head st) then
    if hunk_size st - hunk_high_used st - hunk_low_used st <? size
    then Fault (Sys_Error "Cache_TryAlloc: %i is greater then free hunk")
    else
      let new := hunk_base st + hunk_low_used st in
      let st := set_cblocks (<[new := new_header size]> (cblocks st)) st in
      st ← upd_cs (cache_head st) (fun h => set_cs_prev new (set_cs_next new h)) st;
      st ← upd_cs new (fun c => set_cs_prev (cache_head st) (set_cs_next (cache_head st) c)) st;
      st ← Cache_MakeLRU new st;
      mret (new, st)
  else
    r ← try_loop (S (base.size (cblocks st))) st size nobottom (cs_next hd)
          (hunk_base st + hunk_low_used st) (cs_next hd);
    match r with
    | Some (new, cs) => st ← insert_before new size cs st; mret (new, st)
    | None => mret (0, st)
    end.

(** C: Source/zone.c:828-844 Cache_Free *)
Definition Cache_Free (u : Z) (st : memst) : res memst :=
  if user_data st u =? 0 then Fault (Sys_Error "Cache_Free: not allocated")
  else
    let cs := user_data st u - sizeof_cache in
    c ← cs_at st cs;
    st ← upd_cs (cs_prev c) (set_cs_next (cs_next c)) st;
    c ← cs_at st cs;
    st ← upd_cs (cs_next c) (set_cs_prev (cs_prev c)) st;
    st ← upd_cs cs (fun c => set_cs_next 0 (set_cs_prev 0 c)) st;
    let st := set_user_data u 0 st in
    Cache_UnlinkLRU cs st.

(** [memcpy] between two places of the cache. *)
Fixpoint copy_bytes (dst src : Z) (n : nat) (m : gmap Z Z) : gmap Z Z :=
  match n with
  | O => m
  | S n => <[dst := default 0 (m !! src)]> (copy_bytes (dst + 1) (src + 1) n m)
  end.

(** C: Source/zone.c:590-612 Cache_Move *)
Definition Cache_Move (c : Z) (st : memst) : res memst :=
  cr ← cs_at st c;
  '(new, st) ← Cache_TryAlloc (cs_size cr) true st;
  if truth new then
    let st := set_mem (copy_bytes (new + sizeof_cache) (c + sizeof_cache)
                         (Z.to_nat (cs_size cr - sizeof_cache)) (mem st)) st in
    st ← upd_cs new (set_cs_user (cs_user cr)) st;
    st ← upd_cs new (set_cs_name (cs_name cr)) st;
    st ← Cache_Free (cs_user cr) st;
    nr ← cs_at st new;
    mret (set_user_data (cs_user nr) (new + sizeof_cache) st)
  else Cache_Free (cs_user cr) st.

(** C: Source/zone.c:621-634 Cache_FreeLow *)
Fixpoint Cache_FreeLow_loop (fuel : nat) (new_low_hunk : Z) (st : memst) : res memst :=
  match fuel with
  | O => Fault OutOfFuel
  | S fuel =>
      hd ← cs_at st (cache_head st);
      let c := cs_next hd in
      if c =? cache_head st then mret st
      else if hunk_base st + new_low_hunk <=? c then mret st
      else st ← Cache_Move c st; Cache_FreeLow_loop fuel new_low_hunk st
  end.

(** C: Source/zone.c:643-663 Cache_FreeHigh *)
Fixpoint Cache_FreeHigh_loop (fuel : nat) (new_high_hunk prev : Z) (st : memst) : res memst :=
  match fuel with
  | O => Fault OutOfFuel
  | S fuel =>
      hd ← cs_at st (cache_head st);
      let c := cs_prev hd in
      if c =? cache_head st then mret st
      else
        cr ← cs_at st c;
        if c + cs_size cr <=? hunk_base st + hunk_size st - new_high_hunk then mret st
        else if c =? prev then
          st ← Cache_Free (cs_user cr) st; Cache_FreeHigh_loop fuel new_high_hunk prev st
        else
          st ← Cache_Move c st; Cache_FreeHigh_loop fuel new_high_hunk c st
  end.

(** Every turn of these loops frees a block or moves one by at least a byte, always in the
    same direction, so there are at most as many turns as blocks times bytes. *)
Definition move_fuel (st : memst) : nat :=
  S (base.size (cblocks st) * Z.to_nat (hunk_size st + 1)).

Definition Cache_FreeLow (new_low_hunk : Z) (st : memst) : res memst :=
  Cache_FreeLow_loop (move_fuel st) new_low_hunk st.
Definition Cache_FreeHigh (new_high_hunk : Z) (st : memst) : res memst :=
  Cache_FreeHigh_loop (move_fuel st) new_high_hunk 0 st.

(** C: Source/zone.c:770-774 Cache_Flush *)
Fixpoint Cache_Flush_loop (fuel : nat) (st : memst) : res memst :=
  match fuel with
  | O => Fault OutOfFuel
  | S fuel =>
      hd ← cs_at st (cache_head st);
      if cs_next hd =? cache_head st then mret st
      else c ← cs_at st (cs_next hd);
           st ← Cache_Free (cs_user c) st; Cache_Flush_loop fuel st
  end.

Definition Cache_Flush (st : memst) : res memst :=
  Cache_Flush_loop (S (base.size (cblocks st))) st.

(** C: Source/zone.c:813-819 Cache_Init *)
Definition Cache_Init (st : memst) : memst :=
  let h := cache_head st in
  set_cblocks (<[h := CS 0 0 [] h h h h]> (cblocks st)) st.

(** C: Source/zone.c:851-865 Cache_Check *)
Definition Cache_Check (u : Z) (st : memst) : res (Z * memst) :=
  if user_data st u =? 0 then mret (0, st)
  else
    let cs := user_data st u - sizeof_cache in
    st ← Cache_UnlinkLRU cs st;
    st ← Cache_MakeLRU cs st;
    mret (user_data st u, st).

(** The loop of [Cache_Alloc]. *)
Fixpoint alloc_loop (fuel : nat) (u size : Z) (name : bytes) (st : memst) : res memst :=
  match fuel with
  | O => Fault OutOfFuel
  | S fuel =>
      '(cs, st) ← Cache_TryAlloc size false st;
      if truth cs then
        st ← upd_cs cs (set_cs_name (take 15 name)) st;
        let st := set_user_data u (cs + sizeof_cache) st in
        upd_cs cs (set_cs_user u) st
      else
        hd ← cs_at st (cache_head st);
        if cs_lru_prev hd =? cache_head st then Fault (Sys_Error "Cache_Alloc: out of memory")
        else
          c ← cs_at st (cs_lru_prev hd);
          st ← Cache_Free (cs_user c) st;
          alloc_loop fuel u size name st
  end.

(** The block size for a request: the header, rounded to 16 bytes. *)
Definition cache_size (size : Z) : Z := s32 (u32 ((size + sizeof_cache + 15) & Z.lnot 15)).

(** C: Source/zone.c:872-903 Cache_Alloc *)
Definition Cache_Alloc (u size : Z) (name : bytes) (st : memst) : res (Z * memst) :=
  if truth (user_data st u) then Fault (Sys_Error "Cache_Alloc: already allocated")
  else if size <=? 0 then Fault (Sys_Error "Cache_Alloc: size %i")
  else
    st ← alloc_loop (S (base.size (cblocks st))) u (cache_size size) name st;
    Cache_Check u st.

(** * The two rings *)

Definition ladder := ring cs_next cs_prev.
Definition recency := ring cs_lru_next cs_lru_prev.

(** A header without its recency links, and without its address links. *)
Definition strip_lru (c : cache_system) : cache_system := set_cs_lru_prev 0 (set_cs_lru_next 0 c).
Definition strip_addr (c : cache_system) : cache_system := set_cs_prev 0 (set_cs_next 0 c).

Lemma cs_at_ok st p c : cblocks st !! p = Some c -> cs_at st p = Ok c.
Proof. intros H. unfold cs_at. by rewrite H. Qed.

Lemma upd_cs_ok st p f :
  is_Some (cblocks st !! p) -> upd_cs p f st = Ok (set_cblocks (alter f p (cblocks st)) st).
Proof.
  intros [c Hc]. unfold upd_cs. rewrite (cs_at_ok _ _ _ Hc), bind_Ok. do 2 f_equal.
  apply map_eq. intros q. destruct (decide (p = q)) as [->|].
  - by rewrite lookup_insert_eq, lookup_alter_eq, Hc.
  - by rewrite lookup_insert_ne, lookup_alter_ne.
Qed.

Lemma alter_is_Some {A} (f : A -> A) p (m : gmap Z A) a : is_Some (m !! a) -> is_Some (alter f p m !! a).
Proof.
  intros [x Hx]. destruct (decide (p = a)) as [->|].
  - rewrite lookup_alter_eq, Hx. by eexists.
  - rewrite lookup_alter_ne by done. by eexists.
Qed.

Lemma strip_alter g f p (m : gmap Z cache_system) a :
  (forall c : cache_system, g (f c) = (g c : cache_system)) -> g <$> alter f p m !! a = g <$> m !! a.
Proof.
  intros Hg. destruct (decide (p = a)) as [->|]; [|by rewrite lookup_alter_ne].
  rewrite lookup_alter_eq. destruct (m !! a); cbn; [by rewrite Hg|done].
Qed.

(** Fields read off stripped headers. *)
Lemma fget_strip (g : cache_system -> Z) h (m m' : gmap Z cache_system) a :
  (forall c, g (h c) = g c) -> h <$> m' !! a = h <$> m !! a -> fget g m' a = fget g m a.
Proof.
  intros Hg He. unfold fget. apply (f_equal (fmap g)) in He. rewrite <- !option_fmap_compose in He.
  destruct (m' !! a), (m !! a); cbn in *; try done. by rewrite !Hg in He.
Qed.

(** Evaluate the fields of a map after a sequence of field updates. *)
Ltac fields :=
  repeat first
    [ rewrite fget_alter_same by (intros; reflexivity)
    | rewrite fget_alter_ne by done
    | rewrite fget_alter; rewrite decide_True by done ];
  try (apply fget_const; [repeat apply alter_is_Some; done|done]).

Lemma MakeLRU_ok st R new c :
  recency (cblocks st) (cache_head st) R -> NoDup (cache_head st :: R) -> new ∉ cache_head st :: R ->
  cblocks st !! new = Some c -> cs_lru_next c = 0 -> cs_lru_prev c = 0 ->
  exists m', Cache_MakeLRU new st = Ok (set_cblocks m' st) /\
    recency m' (cache_head st) (new :: R) /\
    forall a, strip_lru <$> m' !! a = strip_lru <$> cblocks st !! a.
Proof.
  intros Hr Hnd Hnew Hc Hn0 Hp0. set (h := cache_head st) in *. set (m := cblocks st) in *.
  set (x := firstz R h).
  assert (new <> h /\ new <> x) as [Hnh Hnx].
  { split; [intros ->; apply Hnew; by left|]. unfold x. destruct R; cbn; set_solver. }
  assert (is_Some (m !! new)) as Hs by by eexists.
  assert (is_Some (m !! h)) as Hsh by (eapply ring_in; [exact Hr|by left]).
  assert (is_Some (m !! x)) as Hsx by (eapply ring_in; [exact Hr|unfold x; destruct R; cbn; set_solver]).
  assert (fget cs_lru_next m h = Some x) as Hx by by apply ring_first in Hr.
  unfold Cache_MakeLRU. rewrite (cs_at_ok _ _ _ Hc), bind_Ok, Hn0, Hp0. cbn [truth negb orb Z.eqb].
  fold h. unfold fget in Hx. destruct Hsh as [hc Hh]. rewrite Hh in Hx. injection Hx as Hx.
  rewrite (cs_at_ok _ _ _ Hh), bind_Ok, Hx. rewrite upd_cs_ok, bind_Ok by done.
  cbn [cblocks set_cblocks cache_head]. fold m h.
  set (m1 := alter (set_cs_lru_prev new) x m).
  assert (exists hc1, m1 !! h = Some hc1 /\ cs_lru_next hc1 = x) as (hc1 & Hh1 & Hx1).
  { unfold m1. destruct (decide (x = h)) as [E|]; [|rewrite lookup_alter_ne by done; by eauto].
    rewrite E, lookup_alter_eq, Hh. eexists. split; [done|]. cbn. congruence. }
  erewrite cs_at_ok by (cbn [cblocks set_cblocks]; exact Hh1). rewrite bind_Ok, Hx1.
  rewrite upd_cs_ok, bind_Ok by (cbn; by apply alter_is_Some).
  cbn [cblocks set_cblocks cache_head]. fold h.
  rewrite upd_cs_ok, bind_Ok by (cbn; by repeat apply alter_is_Some).
  cbn [cblocks set_cblocks cache_head]. fold h.
  rewrite upd_cs_ok by (cbn; repeat apply alter_is_Some; by eexists).
  cbn [cblocks set_cblocks cache_head]. eexists. split; [done|]. split.
  - apply (ring_insert cs_lru_next cs_lru_prev m _ h [] R new); try done; cbn [lastz]; fold x; unfold m1.
    + fields.
    + fields.
    + fields.
    + fields.
    + intros a Ha Hb. fields. done.
    + intros a Ha Hb. fields. done.
  - intros a. unfold m1. by rewrite !strip_alter by done.
Qed.

(** The neighbours of a block on a ring of distinct non-null nodes. *)
Lemma neighbours h R1 a R2 :
  NoDup (h :: R1 ++ a :: R2) -> 0 ∉ h :: R1 ++ a :: R2 ->
  lastz h R1 <> a /\ firstz R2 h <> a /\ lastz h R1 <> 0 /\ firstz R2 h <> 0 /\
  lastz h R1 ∈ h :: R1 ++ a :: R2 /\ firstz R2 h ∈ h :: R1 ++ a :: R2.
Proof.
  intros Hnd H0. assert (lastz h R1 ∈ h :: R1) as H1.
  { destruct (lastz_in h R1) as [->|]; [by left|by right]. }
  assert (firstz R2 h ∈ h :: R2) as H2 by (destruct R2; set_solver).
  rewrite <- Permutation_middle in Hnd. apply NoDup_cons in Hnd as [Hh Hnd].
  apply NoDup_cons in Hnd as [Ha _]. revert H1 H2.
  generalize (lastz h R1) as p, (firstz R2 h) as q. intros p q H1 H2.
  assert (forall x, x ∈ h :: R1 ++ R2 -> x <> a /\ x <> 0 /\ x ∈ h :: R1 ++ a :: R2) as Hx.
  { intros x Hx. split; [|split; [|set_solver]]; intros ->; set_solver. }
  destruct (Hx p) as (? & ? & ?); [set_solver|]. destruct (Hx q) as (? & ? & ?); [set_solver|].
  done.
Qed.

Lemma UnlinkLRU_ok st R1 a R2 :
  recency (cblocks st) (cache_head st) (R1 ++ a :: R2) ->
  NoDup (cache_head st :: R1 ++ a :: R2) -> 0 ∉ cache_head st :: R1 ++ a :: R2 ->
  exists m', Cache_UnlinkLRU a st = Ok (set_cblocks m' st) /\
    recency m' (cache_head st) (R1 ++ R2) /\
    (forall b, strip_lru <$> m' !! b = strip_lru <$> cblocks st !! b) /\
    fget cs_lru_next m' a = Some 0 /\ fget cs_lru_prev m' a = Some 0.
Proof.
  intros Hr Hnd H0. set (h := cache_head st) in *. set (m := cblocks st) in *.
  destruct (neighbours _ _ _ _ Hnd H0) as (Hpa & Hqa & Hp0 & Hq0 & Hpi & Hqi).
  set (p := lastz h R1) in *. set (q := firstz R2 h) in *.
  destruct (ring_at _ _ _ _ _ _ _ Hr) as [Hnx Hpv]. fold p in Hpv. fold q in Hnx.
  assert (is_Some (m !! p)) as Hsp by by eapply ring_in.
  assert (is_Some (m !! q)) as Hsq by by eapply ring_in.
  unfold fget in Hnx, Hpv. destruct (m !! a) as [c|] eqn:Hc; [|done].
  injection Hnx as Hnx. injection Hpv as Hpv. assert (is_Some (m !! a)) as Hsa by by eexists.
  unfold Cache_UnlinkLRU. rewrite (cs_at_ok _ _ _ Hc), bind_Ok, Hnx, Hpv.
  apply Z.eqb_neq in Hp0, Hq0. rewrite Hp0, Hq0. cbn [orb].
  rewrite upd_cs_ok, bind_Ok by done. cbn [cblocks set_cblocks]. fold m.
  erewrite cs_at_ok by (cbn [cblocks set_cblocks]; rewrite lookup_alter_ne by done; exact Hc).
  rewrite bind_Ok, Hnx, Hpv. rewrite upd_cs_ok, bind_Ok by (cbn; by apply alter_is_Some).
  cbn [cblocks set_cblocks]. rewrite upd_cs_ok by (cbn; by repeat apply alter_is_Some).
  cbn [cblocks set_cblocks]. eexists. split; [done|]. split_and!.
  - apply (ring_remove cs_lru_next cs_lru_prev m _ h R1 R2 a); try done; fold p q.
    + rewrite fget_alter_ne by done. fields.
    + rewrite fget_alter_ne by done. fields.
    + intros b Hb Hba. fields. done.
    + intros b Hb Hba. rewrite fget_alter_ne by done. fields. done.
  - intros b. by rewrite !strip_alter by done.
  - fields.
  - fields.
Qed.

(** A header without any links: its size, user and name. *)
Definition strip (c : cache_system) : cache_system := strip_addr (strip_lru c).

Lemma strip_of_lru (m m' : gmap Z cache_system) a :
  strip_lru <$> m' !! a = strip_lru <$> m !! a ->
  strip <$> m' !! a = strip <$> m !! a.
Proof. intros H. apply (f_equal (fmap strip_addr)) in H. by rewrite <- !option_fmap_compose in H. Qed.

(** Linking a fresh header before [q]: the common end of the three ways [Cache_TryAlloc]
    finds room. *)
Lemma linked_new st m1 L1 L2 R new size :
  ladder m1 (cache_head st) (L1 ++ new :: L2) ->
  (forall a, strip_addr <$> m1 !! a =
     strip_addr <$> <[new := new_header size]> (cblocks st) !! a) ->
  recency (cblocks st) (cache_head st) R -> R ≡ₚ L1 ++ L2 ->
  NoDup (cache_head st :: L1 ++ L2) -> new ∉ cache_head st :: L1 ++ L2 ->
  exists m', Cache_MakeLRU new (set_cblocks m1 st) = Ok (set_cblocks m' st) /\
    ladder m' (cache_head st) (L1 ++ new :: L2) /\ recency m' (cache_head st) (new :: R) /\
    strip <$> m' !! new = Some (new_header size) /\
    forall a, a <> new -> strip <$> m' !! a = strip <$> cblocks st !! a.
Proof.
  intros Hlad Hm1 Hrec HR Hnd Hnew. set (h := cache_head st) in *.
  assert (recency m1 h R) as Hrec1.
  { eapply ring_same; [eapply (ring_frame _ _ (cblocks st) (<[new := new_header size]> (cblocks st)));
      [exact Hrec|]| |].
    - intros a Ha. rewrite HR in Ha. rewrite lookup_insert_ne; [done|]. intros ->. done.
    - intros a. by apply fget_strip with (h := strip_addr).
    - intros a. by apply fget_strip with (h := strip_addr). }
  pose proof (Hm1 new) as Hn. rewrite lookup_insert_eq in Hn. cbn in Hn.
  destruct (m1 !! new) as [c|] eqn:Hc; [|done]. cbn in Hn. injection Hn as H1 H2 H3 H4 H5.
  destruct (MakeLRU_ok (set_cblocks m1 st) R new c) as (m' & HM & Hr' & Hs');
    [exact Hrec1|rewrite HR; exact Hnd|rewrite HR; exact Hnew|exact Hc|done|done|].
  exists m'. split; [exact HM|]. cbn [cblocks set_cblocks] in Hs'.
  assert (forall a, strip <$> m' !! a = strip <$> <[new := new_header size]> (cblocks st) !! a) as Hst.
  { intros a. rewrite (strip_of_lru m1 m') by apply Hs'. specialize (Hm1 a).
    apply (f_equal (fmap strip_lru)) in Hm1. rewrite <- !option_fmap_compose in Hm1. exact Hm1. }
  split_and!.
  - eapply ring_same; [exact Hlad|intros a; by apply fget_strip with (h := strip_lru)..].
  - exact Hr'.
  - by rewrite Hst, lookup_insert_eq.
  - intros a Ha. by rewrite Hst, lookup_insert_ne.
Qed.

Lemma insert_before_ok st L1 L2 R new size :
  ladder (cblocks st) (cache_head st) (L1 ++ L2) ->
  recency (cblocks st) (cache_head st) R -> R ≡ₚ L1 ++ L2 ->
  NoDup (cache_head st :: L1 ++ L2) -> new ∉ cache_head st :: L1 ++ L2 ->
  exists m', insert_before new size (firstz L2 (cache_head st)) st = Ok (set_cblocks m' st) /\
    ladder m' (cache_head st) (L1 ++ new :: L2) /\ recency m' (cache_head st) (new :: R) /\
    strip <$> m' !! new = Some (new_header size) /\
    forall a, a <> new -> strip <$> m' !! a = strip <$> cblocks st !! a.
Proof.
  intros Hlad Hrec HR Hnd Hnew. set (h := cache_head st) in *.
  set (q := firstz L2 h). set (p := lastz h L1).
  assert (q ∈ h :: L1 ++ L2) as Hq by (unfold q; destruct L2; cbn; set_solver).
  assert (p ∈ h :: L1 ++ L2) as Hp by (unfold p; destruct (lastz_in h L1) as [->|]; set_solver).
  assert (new <> q /\ new <> p) as [Hnq Hnp] by (split; intros ->; done).
  set (m := <[new := new_header size]> (cblocks st)).
  assert (ladder m h (L1 ++ L2)) as Hlad1.
  { eapply ring_frame; [exact Hlad|]. intros a Ha. unfold m. rewrite lookup_insert_ne; [done|]. intros ->. done. }
  assert (fget cs_prev m q = Some p) as Hqp.
  { apply ring_mid in Hlad1 as (_ & [_ H] & _). exact H. }
  assert (is_Some (m !! new)) as Hsn by (unfold m; rewrite lookup_insert_eq; by eexists).
  assert (is_Some (m !! p)) as Hsp by by eapply ring_in.
  assert (is_Some (m !! q)) as Hsq by by eapply ring_in.
  unfold fget in Hqp. destruct (m !! q) as [cq|] eqn:Hcq; [|done]. injection Hqp as Hqp.
  assert (is_Some (m !! q)) as Hsq' by by eexists.
  unfold insert_before. cbn [cblocks set_cblocks]. fold m.
  rewrite upd_cs_ok, bind_Ok by done. cbn [cblocks set_cblocks].
  erewrite cs_at_ok by (cbn [cblocks set_cblocks]; rewrite lookup_alter_ne by done; exact Hcq).
  rewrite bind_Ok, Hqp. rewrite upd_cs_ok, bind_Ok by (cbn; by apply alter_is_Some). cbn [cblocks set_cblocks].
  erewrite cs_at_ok by (cbn [cblocks set_cblocks]; rewrite !lookup_alter_ne by done; exact Hcq).
  rewrite bind_Ok, Hqp. rewrite upd_cs_ok, bind_Ok by (cbn; by repeat apply alter_is_Some). cbn [cblocks set_cblocks].
  rewrite upd_cs_ok, bind_Ok by (cbn; by repeat apply alter_is_Some). cbn [cblocks set_cblocks].
  apply (linked_new st _ L1 L2 R new size); try done; fold h.
  - apply (ring_insert cs_next cs_prev m _ h L1 L2 new); try done; fold p q.
    + fields.
    + fields.
    + fields.
    + fields.
    + intros a Ha Hb. fields. done.
    + intros a Ha Hb. fields. done.
  - intros a. by rewrite !strip_alter by done.
Qed.

(** * Where the blocks are *)

(** The blocks [L] lie in [lo, hi) in this order, without overlap. *)
Fixpoint layout (m : gmap Z cache_system) (lo : Z) (L : list Z) (hi : Z) : Prop :=
  match L with
  | [] => lo <= hi
  | a :: L => lo <= a /\ exists s, fget cs_size m a = Some s /\ sizeof_cache <= s /\ layout m (a + s) L hi
  end.

(** The end of the last block of [L]. *)
Fixpoint endz (m : gmap Z cache_system) (lo : Z) (L : list Z) : Z :=
  match L with
  | [] => lo
  | a :: L => endz m (a + default 0 (fget cs_size m a)) L
  end.

Definition gap_end (L : list Z) (hi : Z) : Z := firstz L hi.

Lemma layout_app m La Lb hi : forall lo,
  layout m lo (La ++ Lb) hi <-> layout m lo La (endz m lo La) /\ layout m (endz m lo La) Lb hi.
Proof.
  induction La as [|a La IH]; intros lo; cbn [layout endz app].
  - split; [intros; split; [lia|done]|tauto].
  - split.
    + intros (H1 & s & Hs & H2 & H3). rewrite Hs. cbn. apply IH in H3 as [H3 H4]. eauto 10.
    + intros ((H1 & s & Hs & H2 & H3) & H4). rewrite Hs in *. cbn in *. split; [done|].
      exists s. split_and!; try done. by apply IH.
Qed.

Lemma endz_snoc m lo L a : endz m lo (L ++ [a]) = a + default 0 (fget cs_size m a).
Proof. revert lo. induction L as [|b L IH]; intros lo; cbn; [done|]. apply IH. Qed.

Lemma endz_start m lo lo' L : L <> [] -> endz m lo L = endz m lo' L.
Proof. by destruct L. Qed.

Lemma layout_bounds m L hi : forall lo, layout m lo L hi ->
  lo <= hi /\ forall a, a ∈ L -> lo <= a /\ a + sizeof_cache <= hi.
Proof.
  induction L as [|b L IH]; intros lo; cbn [layout]; [intros; split; [done|set_solver]|].
  intros (H1 & s & Hs & H2 & H3). apply IH in H3 as [H3 H4]. unfold sizeof_cache in *.
  split; [lia|]. intros a [->|Ha]%elem_of_cons; [lia|]. apply H4 in Ha. lia.
Qed.

Lemma layout_NoDup m L hi : forall lo, layout m lo L hi -> NoDup L.
Proof.
  induction L as [|b L IH]; intros lo; cbn [layout]; [constructor|].
  intros (H1 & s & Hs & H2 & H3). constructor; [|by eapply IH].
  intros Hb. apply layout_bounds in H3 as [_ H3]. apply H3 in Hb. unfold sizeof_cache in *. lia.
Qed.

Lemma layout_raise m L hi lo x : layout m lo L hi -> x <= gap_end L hi -> layout m x L hi.
Proof. destruct L as [|a L]; cbn; [done|]. intros (_ & H) Hx. done. Qed.

Lemma layout_frame m m' L hi : forall lo,
  (forall a, a ∈ L -> fget cs_size m' a = fget cs_size m a) -> layout m lo L hi -> layout m' lo L hi.
Proof.
  induction L as [|b L IH]; intros lo Hf; cbn [layout]; [done|].
  intros (H1 & s & Hs & H2 & H3). split; [done|]. exists s. rewrite Hf by left.
  split_and!; try done. apply IH; [|done]. intros a Ha. apply Hf. by right.
Qed.

Lemma layout_insert m m' lo La Lb hi size :
  layout m lo (La ++ Lb) hi -> sizeof_cache <= size -> endz m lo La + size <= gap_end Lb hi ->
  (forall a, a ∈ La ++ Lb -> fget cs_size m' a = fget cs_size m a) ->
  fget cs_size m' (endz m lo La) = Some size -> layout m' lo (La ++ endz m lo La :: Lb) hi.
Proof.
  intros [HA HB]%layout_app Hs Hfit Hf Hn.
  assert (endz m' lo La = endz m lo La) as He.
  { clear -Hf. revert lo. induction La as [|a La IH]; intros lo; cbn; [done|].
    rewrite Hf by by left. apply IH. intros b Hb. apply Hf. by right. }
  apply layout_app. rewrite He. split.
  - eapply layout_frame; [|exact HA]. intros a Ha. apply Hf. set_solver.
  - cbn [layout]. split; [lia|]. exists size. split_and!; try done.
    eapply layout_frame; [|by eapply layout_raise]. intros a Ha. apply Hf. set_solver.
Qed.

Lemma layout_remove m La a Lb hi : forall lo,
  layout m lo (La ++ a :: Lb) hi -> layout m lo (La ++ Lb) hi.
Proof.
  intros lo [HA (H1 & s & Hs & H2 & H3)]%layout_app. apply layout_app. split; [done|].
  eapply layout_raise; [exact H3|]. apply layout_bounds in H3 as [H3 H4]. unfold sizeof_cache in *.
  destruct Lb as [|b Lb]; cbn; [lia|]. destruct (H4 b); [by left|lia].
Qed.

(** * The cache as a whole *)

Definition core (st : memst) (L R : list Z) (lo hi : Z) : Prop :=
  0 < lo /\ cache_head st <> 0 /\ ~ (lo <= cache_head st < hi) /\
  ladder (cblocks st) (cache_head st) L /\ recency (cblocks st) (cache_head st) R /\ R ≡ₚ L /\
  layout (cblocks st) lo L hi.

Lemma core_nodup st L R lo hi :
  core st L R lo hi -> NoDup (cache_head st :: L) /\ 0 ∉ cache_head st :: L /\
    (length L < base.size (cblocks st))%nat.
Proof.
  intros (H0 & Hh & Ho & Hl & _ & _ & Hlay). pose proof (layout_NoDup _ _ _ _ Hlay) as Hnd.
  pose proof (layout_bounds _ _ _ _ Hlay) as [_ Hb]. unfold sizeof_cache in *.
  assert (NoDup (cache_head st :: L)) as Hnd'.
  { constructor; [|done]. intros Hin. apply Hb in Hin. lia. }
  split; [done|]. split.
  { intros [H|H]%elem_of_cons; [congruence|]. apply Hb in H. lia. }
  assert (length (cache_head st :: L) <= base.size (cblocks st))%nat as Hs; [|cbn in Hs; lia].
  rewrite <- (size_list_to_set (C := gset Z) (cache_head st :: L)) by done.
  rewrite <- (size_dom (D := gset Z) (cblocks st)). apply subseteq_size. intros a Ha.
  apply elem_of_dom. apply elem_of_list_to_set in Ha. by eapply ring_in.
Qed.

Definition hi_end (st : memst) : Z := hunk_base st + hunk_size st - hunk_high_used st.

(** What the search of [Cache_TryAlloc] returns. *)
Definition found_gap (st : memst) (L : list Z) (lo size : Z) (nobottom : bool) (r : option (Z * Z)) : Prop :=
  match r with
  | None => True
  | Some (n, c) => exists La Lb, L = La ++ Lb /\ c = firstz Lb (cache_head st) /\
      n = endz (cblocks st) lo La /\ n + size <= gap_end Lb (hi_end st) /\
      (nobottom = true -> La <> [])
  end.

Lemma try_loop_ok st size nobottom lo Lb : forall La cs fuel,
  ladder (cblocks st) (cache_head st) (La ++ cs :: Lb) -> NoDup (cache_head st :: La ++ cs :: Lb) ->
  (length Lb < fuel)%nat ->
  exists r, try_loop fuel st size nobottom (firstz (La ++ cs :: Lb) (cache_head st))
              (endz (cblocks st) lo La) cs = Ok r /\
    found_gap st (La ++ cs :: Lb) lo size nobottom r.
Proof.
  induction Lb as [|b Lb IH]; intros La cs fuel Hl Hnd Hf; (destruct fuel as [|fuel]; [lia|]);
    cbn [try_loop]; set (first := firstz _ _); set (m := cblocks st) in *; set (h := cache_head st) in *.
  all: destruct ((negb nobottom || negb (cs =? first)) && (size <=? cs - endz m lo La)) eqn:E.
  1,3: apply andb_prop in E as [E1 E2]; bool_props; eexists; (split; [done|]); exists La; eexists;
       (split; [done|]); (split; [done|]); (split; [done|]); split; [cbn; lia|];
       intros -> ->; unfold first in E1; cbn in E1; rewrite Z.eqb_refl in E1; discriminate E1.
  all: destruct (ring_at _ _ _ _ _ _ _ Hl) as [Hn _]; unfold fget in Hn;
       destruct (m !! cs) as [c|] eqn:Hc; [|discriminate Hn]; injection Hn as Hn.
  all: rewrite (cs_at_ok _ _ _ Hc), bind_Ok, Hn; cbn [firstz].
  all: assert (cs + cs_size c = endz m lo (La ++ [cs])) as -> by
         (rewrite endz_snoc; unfold fget; rewrite Hc; done).
  - rewrite Z.eqb_refl. eexists. split; [done|]. unfold found_gap. case_if; [|done].
    exists (La ++ [cs]), []. rewrite app_nil_r. unfold hi_end. cbn.
    split_and!; try done; [lia|]. intros _. by destruct La.
  - case_if.
    { exfalso. apply NoDup_cons in Hnd as [Hnd _]. apply Hnd. rewrite <- E0. set_solver. }
    assert (La ++ cs :: b :: Lb = (La ++ [cs]) ++ b :: Lb) as Happ by by rewrite <- app_assoc.
    rewrite Happ in Hl, Hnd. unfold first. rewrite Happ.
    destruct (IH (La ++ [cs]) b fuel Hl Hnd) as (r & HT & HG); [cbn in Hf; lia|]. by exists r.
Qed.

(** The state with a new block [new] of [size] bytes between [La] and [Lb]. *)
Definition added (st : memst) (m' : gmap Z cache_system) (La Lb R : list Z) (new lo hi size : Z) : Prop :=
  core (set_cblocks m' st) (La ++ new :: Lb) (new :: R) lo hi /\
  strip <$> m' !! new = Some (new_header size) /\
  forall a, a <> new -> strip <$> m' !! a = strip <$> cblocks st !! a.

(** A gap's start is not the address of a block. *)
Lemma gap_fresh st La Lb R lo hi size :
  core st (La ++ Lb) R lo hi -> hi_end st <= hi -> sizeof_cache <= size ->
  endz (cblocks st) lo La + size <= gap_end Lb (hi_end st) ->
  endz (cblocks st) lo La ∉ cache_head st :: La ++ Lb /\ 0 < endz (cblocks st) lo La /\
  endz (cblocks st) lo La + size <= gap_end Lb hi.
Proof.
  intros (H0 & Hh & Ho & _ & _ & _ & Hlay) Hhi Hs Hfit. apply layout_app in Hlay as [HA HB].
  pose proof (layout_bounds _ _ _ _ HA) as [HA1 HA2]. pose proof (layout_bounds _ _ _ _ HB) as [HB1 HB2].
  set (n := endz (cblocks st) lo La) in *. unfold sizeof_cache in *.
  assert (n + size <= gap_end Lb hi) as Hfit' by (destruct Lb; cbn in *; lia).
  assert (n + size <= hi) by (destruct Lb as [|b Lb]; cbn in *; [lia|]; destruct (HB2 b); [by left|lia]).
  split; [|split; [lia|done]].
  rewrite not_elem_of_cons, not_elem_of_app. split; [lia|]. split; [intros H'; apply HA2 in H'; lia|].
  intros H'. destruct Lb as [|b Lb]; [by apply not_elem_of_nil in H'|]. cbn in Hfit'.
  destruct HB as (_ & s & _ & Hs' & HB). apply layout_bounds in HB as [_ HB]. unfold sizeof_cache in *.
  apply elem_of_cons in H' as [?|H']; [lia|]. apply HB in H'. lia.
Qed.

Lemma added_intro st m' La Lb R lo hi size :
  core st (La ++ Lb) R lo hi -> sizeof_cache <= size ->
  let new := endz (cblocks st) lo La in
  new ∉ cache_head st :: La ++ Lb -> new + size <= gap_end Lb hi ->
  ladder m' (cache_head st) (La ++ new :: Lb) -> recency m' (cache_head st) (new :: R) ->
  strip <$> m' !! new = Some (new_header size) ->
  (forall a, a <> new -> strip <$> m' !! a = strip <$> cblocks st !! a) ->
  added st m' La Lb R new lo hi size.
Proof.
  intros (H0 & Hh & Ho & _ & _ & HR & Hlay) Hs new Hnew Hfit Hlad Hrec Hsn Hso.
  split; [|done]. unfold core. cbn [cblocks cache_head set_cblocks]. split_and!; try done.
  - rewrite HR. apply Permutation_middle.
  - apply (layout_insert (cblocks st) m' lo La Lb hi size); try done.
    + intros a Ha. apply fget_strip with (h := strip); [done|]. apply Hso. intros ->. set_solver.
    + fold new. destruct (m' !! new) as [c|] eqn:Hc; [|done]. unfold fget. rewrite Hc.
      cbn in Hsn |- *. injection Hsn as Hsz _ _. by rewrite Hsz.
Qed.

(** The empty cache: the block goes to the low end of the free hunk. *)
Lemma TryAlloc_empty st R lo hi size :
  core st [] R lo hi -> hi_end st <= hi -> sizeof_cache <= size ->
  lo = hunk_base st + hunk_low_used st ->
  (hi_end st - lo < size /\ exists msg, Cache_TryAlloc size false st = Fault (Sys_Error msg)) \/
  (exists m', Cache_TryAlloc size false st = Ok (lo, set_cblocks m' st) /\
     added st m' [] [] R lo lo hi size /\ lo + size <= hi_end st).
Proof.
  intros Hc Hhi Hs Hlo. pose proof Hc as (H0 & Hh & Ho & Hlad & Hrec & HR & Hlay).
  pose proof (ring_last _ _ _ _ _ Hlad) as Hlast. set (h := cache_head st) in *.
  unfold fget in Hlast. destruct (cblocks st !! h) as [hc|] eqn:Hhc; [|done]. injection Hlast as Hlast.
  unfold Cache_TryAlloc. fold h. rewrite (cs_at_ok _ _ _ Hhc), bind_Ok, Hlast. cbn [lastz].
  rewrite Z.eqb_refl. cbn [negb andb]. case_if; [left; split; [unfold hi_end; lia|by eexists]|right].
  assert (lo + size <= hi_end st) as Hfit by (unfold hi_end; lia).
  destruct (gap_fresh st [] [] R lo hi size Hc Hhi Hs Hfit) as (Hnew & Hpos & Hfit'). cbn [endz] in *.
  rewrite <- Hlo. set (m := <[lo := new_header size]> (cblocks st)). cbn [cblocks set_cblocks cache_head]. fold h m.
  assert (lo <> h) as Hlh by (intros ->; apply Hnew; by left).
  assert (is_Some (m !! h)) as Hsh by (unfold m; rewrite lookup_insert_ne by done; by eexists).
  assert (is_Some (m !! lo)) as Hsl by (unfold m; rewrite lookup_insert_eq; by eexists).
  cbv zeta. rewrite upd_cs_ok, bind_Ok by done. cbn [cblocks set_cblocks cache_head]. fold h.
  rewrite upd_cs_ok, bind_Ok by (cbn; by apply alter_is_Some). cbn [cblocks set_cblocks cache_head]. fold h.
  set (m1 := alter _ lo _).
  destruct (linked_new st m1 [] [] R lo size) as (m' & HM & Hl' & Hr' & Hn' & Ho'); try done.
  - fold h. unfold ladder, ring. cbn [app path]. unfold edge, m1. split; [|split; [|done]]; split; fields.
  - intros a. unfold m1. by rewrite !strip_alter by done.
  - fold h. by constructor; [apply not_elem_of_nil|constructor].
  - change (set_cblocks m1 (set_cblocks _ (set_cblocks m st))) with (set_cblocks m1 st).
    rewrite HM, bind_Ok. exists m'. split; [done|]. split; [|done].
    by apply (added_intro st m' [] [] R lo hi size).
Qed.

(** A cache with blocks in it. *)
Lemma TryAlloc_search st L R lo hi size nobottom :
  core st L R lo hi -> L <> [] -> hi_end st <= hi -> sizeof_cache <= size ->
  (nobottom = false -> lo = hunk_base st + hunk_low_used st) ->
  Cache_TryAlloc size nobottom st = Ok (0, st) \/
  exists La Lb m', L = La ++ Lb /\
    Cache_TryAlloc size nobottom st = Ok (endz (cblocks st) lo La, set_cblocks m' st) /\
    added st m' La Lb R (endz (cblocks st) lo La) lo hi size /\
    endz (cblocks st) lo La + size <= gap_end Lb (hi_end st) /\
    (nobottom = true -> La <> []).
Proof.
  intros Hc Hne Hhi Hs Hlo. pose proof Hc as (H0 & Hh & Ho & Hlad & Hrec & HR & Hlay).
  destruct (core_nodup _ _ _ _ _ Hc) as (Hnd & H00 & Hlen).
  pose proof (ring_last _ _ _ _ _ Hlad) as Hlast. pose proof (ring_first _ _ _ _ _ Hlad) as Hfirst.
  set (h := cache_head st) in *.
  unfold fget in Hlast, Hfirst. destruct (cblocks st !! h) as [hc|] eqn:Hhc; [|done].
  injection Hlast as Hlast. injection Hfirst as Hfirst.
  unfold Cache_TryAlloc. fold h. rewrite (cs_at_ok _ _ _ Hhc), bind_Ok, Hlast, Hfirst.
  assert (lastz h L =? h = false) as ->.
  { apply Z.eqb_neq. destruct L as [|a L]; [done|]. cbn. intros E. apply NoDup_cons in Hnd as [Hnd _].
    apply Hnd. rewrite <- E. destruct (lastz_in a L) as [->|]; [by left|by right]. }
  rewrite andb_false_r. destruct L as [|cs L]; [done|]. cbn [firstz].
  destruct (try_loop_ok st size nobottom (hunk_base st + hunk_low_used st) L [] cs
              (S (base.size (cblocks st)))) as (r & HT & HG); [done|done|cbn in Hlen; lia|].
  cbn [app firstz endz] in HT. fold h in HT. rewrite HT, bind_Ok. destruct r as [[n c]|]; [|by left].
  right. destruct HG as (La & Lb & HL & -> & -> & Hfit & Hnb). cbn [app] in HL.
  assert (endz (cblocks st) (hunk_base st + hunk_low_used st) La = endz (cblocks st) lo La) as He.
  { destruct (decide (La = [])) as [->|]; [|by apply endz_start].
    destruct nobottom; [by exfalso; apply Hnb|]. cbn. symmetry. by apply Hlo. }
  rewrite He in *. rewrite HL in Hc, Hlad, Hnd, HR.
  destruct (gap_fresh st La Lb R lo hi size Hc Hhi Hs Hfit) as (Hnew & Hpos & Hfit').
  destruct (insert_before_ok st La Lb R (endz (cblocks st) lo La) size) as (m' & HI & Hl' & Hr' & Hn' & Ho'); try done.
  rewrite HI, bind_Ok. exists La, Lb, m'. split; [done|]. split; [done|].
  split; [|done]. by apply added_intro.
Qed.

Lemma Cache_Free_ok st u L1 a L2 R1 R2 lo hi :
  core st (L1 ++ a :: L2) (R1 ++ a :: R2) lo hi -> user_data st u = a + sizeof_cache ->
  exists m', Cache_Free u st = Ok (set_cblocks m' (set_user_data u 0 st)) /\
    core (set_cblocks m' (set_user_data u 0 st)) (L1 ++ L2) (R1 ++ R2) lo hi /\
    forall b, strip <$> m' !! b = strip <$> cblocks st !! b.
Proof.
  intros Hc Hu. pose proof Hc as (H0 & Hh & Ho & Hlad & Hrec & HR & Hlay).
  destruct (core_nodup _ _ _ _ _ Hc) as (Hnd & H00 & Hlen).
  set (h := cache_head st) in *. set (m := cblocks st) in *.
  destruct (neighbours _ _ _ _ Hnd H00) as (Hpa & Hqa & _ & _ & Hpi & Hqi).
  set (p := lastz h L1) in *. set (q := firstz L2 h) in *.
  destruct (ring_at _ _ _ _ _ _ _ Hlad) as [Hnx Hpv]. fold p in Hpv. fold q in Hnx.
  assert (is_Some (m !! p)) as Hsp by exact (ring_in _ _ _ _ _ _ Hlad Hpi).
  assert (is_Some (m !! q)) as Hsq by exact (ring_in _ _ _ _ _ _ Hlad Hqi).
  unfold fget in Hnx, Hpv. destruct (m !! a) as [c|] eqn:Hca; [|done].
  injection Hnx as Hnx. injection Hpv as Hpv. assert (is_Some (m !! a)) as Hsa by by eexists.
  assert (0 < a) as Ha0.
  { pose proof (layout_bounds _ _ _ _ Hlay) as [_ Hb]. destruct (Hb a); [set_solver|lia]. }
  unfold Cache_Free. rewrite Hu. unfold sizeof_cache in *. case_if; [lia|].
  replace (a + 40 - 40) with a by lia. rewrite (cs_at_ok _ _ _ Hca), bind_Ok, Hnx, Hpv.
  rewrite upd_cs_ok, bind_Ok by done. cbn [cblocks set_cblocks]. fold m.
  erewrite cs_at_ok by (cbn [cblocks set_cblocks]; rewrite lookup_alter_ne by done; exact Hca).
  rewrite bind_Ok, Hnx, Hpv. rewrite upd_cs_ok, bind_Ok by (cbn; by apply alter_is_Some). cbn [cblocks set_cblocks].
  rewrite upd_cs_ok, bind_Ok by (cbn; by repeat apply alter_is_Some). cbn [cblocks set_cblocks].
  set (m1 := alter _ a _). set (st1 := set_user_data u 0 _).
  assert (ladder m1 h (L1 ++ L2)) as Hlad1.
  { apply (ring_remove cs_next cs_prev m m1 h L1 L2 a); try done; fold p q; unfold m1.
    - rewrite fget_alter_ne by done. fields.
    - rewrite fget_alter_ne by done. fields.
    - intros b Hb Hba. rewrite fget_alter_ne by done. fields. done.
    - intros b Hb Hba. rewrite fget_alter_ne by done. fields. done. }
  assert (forall b, strip_addr <$> m1 !! b = strip_addr <$> m !! b) as Hst.
  { intros b. unfold m1. by rewrite !strip_alter by done. }
  destruct (UnlinkLRU_ok st1 R1 a R2) as (m' & HU & Hrec' & Hs' & _).
  { eapply ring_same; [exact Hrec|intros b; by apply fget_strip with (h := strip_addr)..]. }
  { by rewrite HR. } { by rewrite HR. }
  exists m'. split; [rewrite HU; done|].
  assert (forall b, strip <$> m' !! b = strip <$> m !! b) as Hfin.
  { intros b. rewrite (strip_of_lru m1 m') by apply Hs'. specialize (Hst b).
    apply (f_equal (fmap strip_lru)) in Hst. rewrite <- !option_fmap_compose in Hst. exact Hst. }
  split; [|exact Hfin]. unfold core. cbn [cblocks cache_head set_cblocks set_user_data set_cusers]. split_and!; try done.
  - eapply ring_same; [exact Hlad1|intros b; by apply fget_strip with (h := strip_lru)..].
  - apply (Permutation_cons_inv (a := a)). by rewrite !Permutation_middle.
  - eapply layout_frame; [|by eapply layout_remove]. intros b _. by apply fget_strip with (h := strip).
Qed.

(** * Users of the cache *)

(** Each block belongs to the user that points at it, and each user that points anywhere
    points at a block of its own. *)
Definition users_ok (st : memst) (L : list Z) : Prop :=
  (forall a, a ∈ L -> exists u, fget cs_user (cblocks st) a = Some u /\ user_data st u = a + sizeof_cache) /\
  (forall u, user_data st u <> 0 -> exists a, a ∈ L /\ user_data st u = a + sizeof_cache /\
     fget cs_user (cblocks st) a = Some u).

(** Whoever still has data has the same data, wherever it is now. *)
Definition keeps (st st' : memst) : Prop :=
  forall u, user_data st' u <> 0 -> user_data st u <> 0 /\
    exists s, fget cs_size (cblocks st') (user_data st' u - sizeof_cache) = Some s /\
      fget cs_size (cblocks st) (user_data st u - sizeof_cache) = Some s /\
      forall i, 0 <= i < s - sizeof_cache ->
        default 0 (mem st' !! (user_data st' u + i)) = default 0 (mem st !! (user_data st u + i)).

Lemma keeps_trans st1 st2 st3 : keeps st1 st2 -> keeps st2 st3 -> keeps st1 st3.
Proof.
  intros H1 H2 u Hu. destruct (H2 u Hu) as (Hu2 & s & Hs3 & Hs2 & Hd2).
  destruct (H1 u Hu2) as (Hu1 & s' & Hs2' & Hs1 & Hd1). rewrite Hs2 in Hs2'. simplify_eq.
  split; [done|]. exists s'. split_and!; try done. intros i Hi. rewrite Hd2, Hd1 by done. done.
Qed.

Lemma copy_bytes_spec n : forall dst src m i,
  copy_bytes dst src n m !! i =
    if decide (dst <= i < dst + Z.of_nat n) then Some (default 0 (m !! (src + (i - dst)))) else m !! i.
Proof.
  induction n as [|n IH]; intros dst src m i; cbn [copy_bytes].
  - destruct (decide _); [lia|done].
  - rewrite lookup_insert, IH. repeat destruct (decide _); try lia; try done.
    + subst. do 3 f_equal. lia.
    + do 3 f_equal. lia.
Qed.

(** Memory changed inside [lo, hi) only. *)
Definition mem_frame (lo hi : Z) (st st' : memst) : Prop :=
  forall i, ~ (lo <= i < hi) -> mem st' !! i = mem st !! i.

Lemma mem_frame_refl lo hi st st' : mem st' = mem st -> mem_frame lo hi st st'.
Proof. by intros H i _; rewrite H. Qed.

Lemma mem_frame_trans lo hi st1 st2 st3 :
  mem_frame lo hi st1 st2 -> mem_frame lo hi st2 st3 -> mem_frame lo hi st1 st3.
Proof. intros H1 H2 i Hi. by rewrite H2, H1. Qed.

Lemma copy_bytes_frame n : forall dst src m i,
  ~ (dst <= i < dst + Z.of_nat n) -> copy_bytes dst src n m !! i = m !! i.
Proof.
  induction n as [|n IH]; intros dst src m i Hi; cbn; [done|].
  rewrite lookup_insert_ne by lia. apply IH. lia.
Qed.

(** A core with the same links and sizes. *)
Lemma core_same st st' L R lo hi :
  core st L R lo hi -> cache_head st' = cache_head st ->
  (forall g a, (g = cs_next \/ g = cs_prev \/ g = cs_lru_next \/ g = cs_lru_prev \/ g = cs_size) ->
     fget g (cblocks st') a = fget g (cblocks st) a) -> core st' L R lo hi.
Proof.
  intros (H0 & Hh & Ho & Hlad & Hrec & HR & Hlay) Heq Hf. unfold core. rewrite Heq. split_and!; try done.
  - eapply ring_same; [exact Hlad|intros a; apply Hf; tauto..].
  - eapply ring_same; [exact Hrec|intros a; apply Hf; tauto..].
  - eapply layout_frame; [|exact Hlay]. intros a _. apply Hf. tauto.
Qed.

Lemma users_owner st L a u :
  users_ok st L -> a ∈ L -> fget cs_user (cblocks st) a = Some u -> user_data st u = a + sizeof_cache.
Proof. intros [H _] Ha Hu. destruct (H a Ha) as (u' & Hu' & Hd). congruence. Qed.

Lemma user_data_set u d st v :
  user_data (set_user_data u d st) v = if decide (v = u) then d else user_data st v.
Proof.
  unfold user_data. cbn. destruct (decide (v = u)) as [->|]; [by rewrite lookup_insert_eq|].
  by rewrite lookup_insert_ne.
Qed.

(** The hunk's own globals. *)
Definition same_hunk (st st' : memst) : Prop :=
  cache_head st' = cache_head st /\ hunk_base st' = hunk_base st /\
  hunk_size st' = hunk_size st /\ hunk_low_used st' = hunk_low_used st /\
  hunk_high_used st' = hunk_high_used st /\ hunk_tempactive st' = hunk_tempactive st /\
  hunk_tempmark st' = hunk_tempmark st.

Lemma layout_size m L hi a : forall lo,
  layout m lo L hi -> a ∈ L -> exists s, fget cs_size m a = Some s /\ sizeof_cache <= s.
Proof.
  induction L as [|c L IH]; intros lo Hl Ha; [by apply not_elem_of_nil in Ha|].
  destruct Hl as (_ & s & Hs & Hge & Hl). apply elem_of_cons in Ha as [->|Ha]; eauto.
Qed.

(** Freeing a block. *)
Lemma Free_users st u L1 a L2 R lo hi :
  core st (L1 ++ a :: L2) R lo hi -> users_ok st (L1 ++ a :: L2) ->
  fget cs_user (cblocks st) a = Some u ->
  exists st' R', Cache_Free u st = Ok st' /\ core st' (L1 ++ L2) R' lo hi /\ users_ok st' (L1 ++ L2) /\
    keeps st st' /\ (exists R1 R2, R = R1 ++ a :: R2 /\ R' = R1 ++ R2) /\
    mem st' = mem st /\ same_hunk st st' /\
    (forall v, user_data st' v = if decide (v = u) then 0 else user_data st v) /\
    (forall b, strip <$> cblocks st' !! b = strip <$> cblocks st !! b).
Proof.
  intros Hc Hus Hu. pose proof (users_owner st (L1 ++ a :: L2) a u Hus ltac:(set_solver) Hu) as Hd.
  assert (a ∈ R) as Ha by (destruct Hc as (_ & _ & _ & _ & _ & HR & _); rewrite HR; set_solver).
  apply list_elem_of_split in Ha as (R1 & R2 & ->).
  destruct (core_nodup _ _ _ _ _ Hc) as (Hnd & _ & _).
  destruct (Cache_Free_ok st u L1 a L2 R1 R2 lo hi Hc Hd) as (m' & HF & Hc' & Hs).
  eexists _, (R1 ++ R2). split; [exact HF|]. split; [exact Hc'|].
  assert (forall v, user_data (set_cblocks m' (set_user_data u 0 st)) v =
            if decide (v = u) then 0 else user_data st v) as Hud.
  { intros v. apply (user_data_set u 0 st v). }
  assert (forall b, fget cs_user m' b = fget cs_user (cblocks st) b) as Hfu
    by (intros b; by apply fget_strip with (h := strip)).
  assert (forall b, b ∈ L1 ++ L2 -> b <> a /\ b ∈ L1 ++ a :: L2) as Hsub.
  { rewrite <- Permutation_middle in Hnd. apply NoDup_cons in Hnd as [_ Hnd].
    apply NoDup_cons in Hnd as [Hnd _]. intros b Hb. split; [intros ->; done|set_solver]. }
  split.
  { destruct Hus as [HU1 HU2]. split.
    - intros b Hb. destruct (Hsub b Hb) as [Hba Hbin]. destruct (HU1 b Hbin) as (v & Hv & Hdv).
      exists v. cbn [cblocks set_cblocks]. rewrite Hfu, Hud. split; [done|].
      destruct (decide (v = u)) as [->|]; [|done]. unfold sizeof_cache in *. lia.
    - intros v. rewrite Hud. destruct (decide (v = u)) as [|Hvu]; [done|]. intros Hv.
      destruct (HU2 v Hv) as (b & Hb & Hdb & Hbv). exists b. cbn [cblocks set_cblocks]. rewrite Hfu.
      split_and!; try done. apply elem_of_app in Hb as [Hb|[->|Hb]%elem_of_cons]; [set_solver| |set_solver].
      congruence. }
  split_and!; try done; [|by eauto].
  intros v. rewrite Hud. destruct (decide (v = u)) as [|Hvu]; [done|]. intros Hv. split; [done|].
  destruct (proj2 Hus v Hv) as (b & Hb & Hdb & _).
  destruct Hc as (_ & _ & _ & _ & _ & _ & Hlay).
  destruct (layout_size _ _ _ _ _ Hlay Hb) as (s & Hsz & _).
  exists s. rewrite Hdb. unfold sizeof_cache in *. replace (b + 40 - 40) with b by lia. cbn [cblocks set_cblocks mem].
  split_and!; try done. rewrite <- Hsz. by apply fget_strip with (h := strip).
Qed.

(** Distinct blocks do not overlap. *)
Lemma layout_disjoint m L hi a b s t : forall lo,
  layout m lo L hi -> a ∈ L -> b ∈ L -> a <> b ->
  fget cs_size m a = Some s -> fget cs_size m b = Some t -> a + s <= b \/ b + t <= a.
Proof.
  assert (forall L lo a b s, layout m lo (a :: L) hi -> b ∈ L -> fget cs_size m a = Some s -> a + s <= b) as Hlt.
  { clear. intros L lo a b s (_ & s' & Hs' & _ & Hl) Hb Hs. simplify_eq.
    apply layout_bounds in Hl as [_ Hl]. by apply Hl in Hb as [? _]. }
  induction L as [|c L IH]; intros lo Hl Ha Hb Hne Hs Ht; [by apply not_elem_of_nil in Ha|].
  apply elem_of_cons in Ha as [->|Ha], Hb as [->|Hb]; [done| | |].
  - left. by eapply Hlt.
  - right. by eapply Hlt.
  - destruct Hl as (_ & s' & _ & _ & Hl). by eapply IH.
Qed.

(** The new block's header after [Cache_Move] has filled it in. *)
Lemma moved_header st new u name size L La Lb R lo hi m' :
  added st m' La Lb R new lo hi size -> L = La ++ new :: Lb ->
  let m2 := alter (set_cs_name name) new (alter (set_cs_user u) new m') in
  (forall mm, core (set_cblocks m2 (set_mem mm (set_cblocks m' st))) L (new :: R) lo hi) /\
  fget cs_user m2 new = Some u /\ fget cs_size m2 new = Some size /\
  (forall a, a <> new -> fget cs_user m2 a = fget cs_user (cblocks st) a) /\
  (forall a, a <> new -> fget cs_size m2 a = fget cs_size (cblocks st) a).
Proof.
  intros (Hc & Hn & Ho) -> m2. assert (is_Some (m' !! new)) as Hsn.
  { destruct (m' !! new) as [c|]; [by eexists|done]. }
  split_and!.
  - intros mm. eapply core_same; [exact Hc|done|]. intros g a Hg. cbn [cblocks set_cblocks set_mem].
    unfold m2. destruct Hg as [-> | [-> | [-> | [-> | ->]]]]; by rewrite !fget_alter_same.
  - unfold m2. rewrite fget_alter_same by done. fields.
  - unfold m2. rewrite !fget_alter_same by done. unfold fget.
    destruct (m' !! new) as [c|]; [|done]. cbn in Hn |- *. injection Hn as -> _ _. done.
  - intros a Ha. unfold m2. rewrite !fget_alter_ne by done. apply fget_strip with (h := strip); [done|by apply Ho].
  - intros a Ha. unfold m2. rewrite !fget_alter_ne by done. apply fget_strip with (h := strip); [done|by apply Ho].
Qed.

Definition moved (st : memst) (c lo : Z) (L1 L2 L' : list Z) : Prop :=
  exists La Lb s, L1 ++ c :: L2 = La ++ Lb /\ La <> [] /\ fget cs_size (cblocks st) c = Some s /\
    endz (cblocks st) lo La + s <= gap_end Lb (hi_end st) /\
    L' ≡ₚ endz (cblocks st) lo La :: L1 ++ L2.

(** The users after a move: the block of [u] was [c] and is now [new]. *)
Lemma moved_users st st' c new u L1 L2 L' :
  users_ok st (L1 ++ c :: L2) -> NoDup (L1 ++ c :: L2) -> new ∉ L1 ++ c :: L2 ->
  fget cs_user (cblocks st) c = Some u -> L' ≡ₚ new :: L1 ++ L2 ->
  (forall v, user_data st' v = if decide (v = u) then new + sizeof_cache else user_data st v) ->
  fget cs_user (cblocks st') new = Some u ->
  (forall a, a <> new -> fget cs_user (cblocks st') a = fget cs_user (cblocks st) a) -> users_ok st' L'.
Proof.
  intros Hus Hnd Hnew Hu HL Hud Hun Huo. pose proof (users_owner st _ c u Hus ltac:(set_solver) Hu) as Hd.
  destruct Hus as [HU1 HU2]. rewrite <- Permutation_middle in Hnd. apply NoDup_cons in Hnd as [Hcn _].
  unfold sizeof_cache in *. split.
  - intros a Ha. rewrite HL in Ha. apply elem_of_cons in Ha as [->|Ha].
    + exists u. rewrite Hud. by destruct (decide _).
    + assert (a <> new /\ a ∈ L1 ++ c :: L2 /\ a <> c) as (Han & Hain & Hac).
      { split_and!; [intros ->; set_solver|set_solver|intros ->; done]. }
      destruct (HU1 a Hain) as (v & Hv & Hdv). exists v. rewrite Huo, Hud by done. split; [done|].
      destruct (decide (v = u)) as [->|]; [lia|done].
  - intros v. rewrite Hud. destruct (decide (v = u)) as [->|Hvu].
    + intros _. exists new. rewrite HL. split_and!; try done. by left.
    + intros Hv. destruct (HU2 v Hv) as (a & Ha & Hda & Hav). exists a. rewrite HL.
      assert (a <> c) as Hac by congruence.
      split; [set_solver|]. split; [done|]. rewrite Huo; [done|]. intros ->. done.
Qed.

Lemma moved_keeps st st' c new u s L1 L2 L' lo hi :
  0 < lo -> users_ok st (L1 ++ c :: L2) -> layout (cblocks st) lo (L1 ++ c :: L2) hi ->
  NoDup (L1 ++ c :: L2) -> new ∉ L1 ++ c :: L2 ->
  fget cs_user (cblocks st) c = Some u -> fget cs_size (cblocks st) c = Some s ->
  L' ≡ₚ new :: L1 ++ L2 -> layout (cblocks st') lo L' hi ->
  (forall v, user_data st' v = if decide (v = u) then new + sizeof_cache else user_data st v) ->
  fget cs_size (cblocks st') new = Some s ->
  (forall a, a <> new -> fget cs_size (cblocks st') a = fget cs_size (cblocks st) a) ->
  mem st' = copy_bytes (new + sizeof_cache) (c + sizeof_cache) (Z.to_nat (s - sizeof_cache)) (mem st) ->
  keeps st st'.
Proof.
  intros Hlo Hus Hlay Hnd Hnew Hu Hs HL Hlay' Hud Hsn Hso Hmem v.
  pose proof (users_owner st _ c u Hus ltac:(set_solver) Hu) as Hd.
  destruct (layout_size _ _ _ _ _ Hlay (ltac:(set_solver) : c ∈ L1 ++ c :: L2)) as (s' & Hs' & H40). simplify_eq.
  pose proof (layout_bounds _ _ _ _ Hlay) as [_ Hb]. unfold sizeof_cache in *.
  rewrite Hud. destruct (decide (v = u)) as [->|Hvu].
  - intros _. rewrite Hd. destruct (Hb c) as [? _]; [set_solver|]. split; [lia|].
    exists s. replace (new + 40 - 40) with new by lia. replace (c + 40 - 40) with c by lia.
    split_and!; try done. intros i Hi. rewrite Hmem, copy_bytes_spec.
    destruct (decide _); [|lia]. cbn. do 3 f_equal. lia.
  - intros Hv. split; [done|]. destruct (proj2 Hus v Hv) as (a & Ha & Hda & Hav). rewrite Hda.
    destruct (layout_size _ _ _ _ _ Hlay Ha) as (t & Ht & Ht40). unfold sizeof_cache in *.
    replace (a + 40 - 40) with a by lia.
    assert (a <> new) as Han by (intros ->; done).
    exists t. rewrite Hso by done. split_and!; try done. intros i Hi. rewrite Hmem, copy_bytes_spec.
    destruct (decide _) as [Hin|]; [exfalso|done].
    assert (a <> c) as Hac by congruence.
    destruct (layout_disjoint _ _ _ new a s t _ Hlay') as [?|?];
      [rewrite HL; by left|rewrite HL; set_solver|done|done|by rewrite Hso|lia|lia].
Qed.

(** The rest of [Cache_Move] when [Cache_TryAlloc] found room. *)
Lemma Move_new st c u s name L1 L2 R lo hi La Lb m' :
  core st (L1 ++ c :: L2) R lo hi -> users_ok st (L1 ++ c :: L2) ->
  fget cs_user (cblocks st) c = Some u -> fget cs_size (cblocks st) c = Some s ->
  L1 ++ c :: L2 = La ++ Lb -> let new := endz (cblocks st) lo La in
  new ∉ cache_head st :: La ++ Lb ->
  added st m' La Lb R new lo hi s ->
  exists st' L' R',
    (let st := set_mem (copy_bytes (new + sizeof_cache) (c + sizeof_cache)
                         (Z.to_nat (s - sizeof_cache)) (mem (set_cblocks m' st))) (set_cblocks m' st) in
     st ← upd_cs new (set_cs_user u) st;
     st ← upd_cs new (set_cs_name name) st;
     st ← Cache_Free u st;
     nr ← cs_at st new;
     mret (set_user_data (cs_user nr) (new + sizeof_cache) st)) = Ok st' /\
    core st' L' R' lo hi /\ users_ok st' L' /\ keeps st st' /\ same_hunk st st' /\
    L' ≡ₚ new :: L1 ++ L2 /\ mem_frame (new + sizeof_cache) (new + Z.max sizeof_cache s) st st'.
Proof.
  intros Hc Hus Hu Hs HL new Hnew Hadd. destruct (core_nodup _ _ _ _ _ Hc) as (Hnd & _ & _).
  pose proof Hc as (Hlo & _ & _ & _ & _ & HR & Hlay).
  destruct (moved_header st new u name s _ La Lb R lo hi m' Hadd eq_refl) as (Hcore2 & Hun & Hsn & Huo & Hso).
  set (m2 := alter _ new _) in *. cbn [mem set_cblocks].
  set (mm := copy_bytes _ _ _ _). cbv zeta.
  assert (is_Some (m' !! new)) as Hsm by (destruct Hadd as (_ & Hn & _); destruct (m' !! new); [by eexists|done]).
  rewrite upd_cs_ok, bind_Ok by done. cbn [cblocks set_cblocks set_mem].
  rewrite upd_cs_ok, bind_Ok by (cbn; by apply alter_is_Some). cbn [cblocks set_cblocks set_mem].
  set (st2 := set_cblocks m2 (set_mem mm (set_cblocks m' st))).
  change (set_cblocks (alter _ new _) _) with st2.
  assert (c ∈ La ++ new :: Lb) as Hcin.
  { assert (c ∈ La ++ Lb) as H by (rewrite <- HL; set_solver). set_solver. }
  apply list_elem_of_split in Hcin as (X1 & X2 & HX).
  assert (c ∈ new :: R) as HcR by (right; rewrite HR; set_solver).
  apply list_elem_of_split in HcR as (R1 & R2 & HRR).
  assert (user_data st2 u = c + sizeof_cache) as Hd2.
  { exact (users_owner st _ c u Hus ltac:(set_solver) Hu). }
  pose proof (Hcore2 mm) as Hc2. fold st2 in Hc2. rewrite HX, HRR in Hc2.
  destruct (Cache_Free_ok st2 u X1 c X2 R1 R2 lo hi Hc2 Hd2) as (m3 & -> & Hc3 & Hst3). rewrite bind_Ok.
  assert (fget cs_user m3 new = Some u) as Hun3.
  { rewrite <- Hun. by apply fget_strip with (h := strip). }
  unfold fget in Hun3. destruct (m3 !! new) as [nr|] eqn:Hnr; [|done]. injection Hun3 as Hun3.
  erewrite cs_at_ok by exact Hnr. rewrite bind_Ok, Hun3.
  assert (X1 ++ X2 ≡ₚ new :: L1 ++ L2) as HLp.
  { apply (Permutation_cons_inv (a := c)). rewrite Permutation_middle, <- HX.
    rewrite <- Permutation_middle, <- HL, <- Permutation_middle. constructor. }
  assert (NoDup (L1 ++ c :: L2)) as Hnd' by by apply NoDup_cons in Hnd as [_ ?].
  assert (new ∉ L1 ++ c :: L2) as Hnew' by (rewrite HL; set_solver).
  eexists _, (X1 ++ X2), (R1 ++ R2). split; [done|].
  assert (core (set_user_data u (new + sizeof_cache) (set_cblocks m3 (set_user_data u 0 st2)))
            (X1 ++ X2) (R1 ++ R2) lo hi) as Hfin by exact Hc3.
  assert (forall v, user_data (set_user_data u (new + sizeof_cache) (set_cblocks m3 (set_user_data u 0 st2))) v =
            if decide (v = u) then new + sizeof_cache else user_data st v) as Hud.
  { intros v. rewrite user_data_set. destruct (decide (v = u)) as [|Hvu]; [done|].
    change (user_data (set_cblocks m3 (set_user_data u 0 st2)) v) with (user_data (set_user_data u 0 st2) v).
    rewrite user_data_set. by destruct (decide _). }
  split; [exact Hfin|]. split; [|split; [|split; [done|split; [exact HLp|]]]].
  3: { intros i Hi. apply copy_bytes_frame. lia. }
  - eapply (moved_users st _ c new u L1 L2); try done; cbn [cblocks set_user_data set_cusers set_cblocks].
    + unfold fget. rewrite Hnr. cbn. by rewrite Hun3.
    + intros a Ha. rewrite <- Huo by done. by apply fget_strip with (h := strip).
  - eapply (moved_keeps st _ c new u s L1 L2); try done; cbn [cblocks mem set_user_data set_cusers set_cblocks].
    + by destruct Hfin as (_ & _ & _ & _ & _ & _ & ?).
    + rewrite <- Hsn. by apply fget_strip with (h := strip).
    + intros a Ha. rewrite <- Hso by done. by apply fget_strip with (h := strip).
Qed.

Lemma Move_ok st c L1 L2 R lo hi :
  core st (L1 ++ c :: L2) R lo hi -> users_ok st (L1 ++ c :: L2) -> hi_end st <= hi ->
  exists st' L' R', Cache_Move c st = Ok st' /\ core st' L' R' lo hi /\ users_ok st' L' /\
    keeps st st' /\ same_hunk st st' /\ mem_frame lo hi st st' /\
    (L' = L1 ++ L2 \/ moved st c lo L1 L2 L').
Proof.
  intros Hc Hus Hhi. pose proof Hc as (H0 & _ & _ & Hlad & _ & _ & Hlay).
  assert (c ∈ L1 ++ c :: L2) as Hcin by set_solver.
  destruct (layout_size _ _ _ _ _ Hlay Hcin) as (s & Hs & Hs40).
  destruct (proj1 Hus c Hcin) as (u & Hu & Hd).
  unfold fget in Hs, Hu. destruct (cblocks st !! c) as [cr|] eqn:Hcr; [|done].
  injection Hs as Hs. injection Hu as Hu.
  assert (fget cs_user (cblocks st) c = Some u) as Hfu by (unfold fget; rewrite Hcr; cbn; by rewrite Hu).
  assert (fget cs_size (cblocks st) c = Some s) as Hfs by (unfold fget; rewrite Hcr; cbn; by rewrite Hs).
  unfold Cache_Move. rewrite (cs_at_ok _ _ _ Hcr), bind_Ok, Hs, Hu.
  destruct (TryAlloc_search st (L1 ++ c :: L2) R lo hi s true) as [->|(La & Lb & m' & HL & -> & Hadd & Hfit & Hnb)];
    try done; [by destruct L1| |].
  - rewrite bind_Ok. cbn [truth Z.eqb negb].
    destruct (Free_users st u L1 c L2 R lo hi Hc Hus Hfu) as (st' & R' & -> & Hc' & Hus' & Hk & _ & Hm & Hsh & _).
    exists st', (L1 ++ L2), R'. split_and!; try done; [by apply Hsh..|by apply mem_frame_refl|by left].
  - rewrite bind_Ok. rewrite HL in Hc.
    destruct (gap_fresh st La Lb R lo hi s Hc Hhi Hs40 Hfit) as (Hnew & Hpos & Hfit').
    assert (lo <= endz (cblocks st) lo La /\ endz (cblocks st) lo La + s <= hi) as Hin.
    { destruct Hc as (_ & _ & _ & _ & _ & _ & Hl'). apply layout_app in Hl' as [HA HB].
      apply layout_bounds in HA as [HA _]. split; [done|]. destruct Lb as [|b Lb]; [done|]. cbn in Hfit'.
      apply layout_bounds in HB as [_ HB]. destruct (HB b); [by left|]. unfold sizeof_cache in *. lia. }
    rewrite <- HL in Hc.
    unfold truth. case_if; [|lia].
    destruct (Move_new st c u s (cs_name cr) L1 L2 R lo hi La Lb m') as (st' & L' & R' & HM & Hc' & Hus' & Hk & Hsh & HLp & Hfr);
      try done.
    exists st', L', R'. split; [exact HM|]. split; [done|]. split; [done|]. split; [done|]. split; [done|].
    split; [intros i Hi; apply Hfr; unfold sizeof_cache in *; lia|right].
    exists La, Lb, s. split_and!; try done. by apply Hnb.
Qed.

(** * Making room *)

Definition total (f : Z -> nat) (L : list Z) : nat := foldr (fun a n => (f a + n)%nat) 0%nat L.

#[global] Instance total_perm f : Proper ((≡ₚ) ==> eq) (total f).
Proof. unfold total. intros L L' H. induction H; cbn in *; lia. Qed.

Lemma total_le f L n : (forall a, a ∈ L -> (f a <= n)%nat) -> (total f L <= length L * n)%nat.
Proof.
  induction L as [|a L IH]; intros H; [cbn; lia|]. pose proof (H a ltac:(by left)).
  assert (total f L <= length L * n)%nat by (apply IH; intros b Hb; apply H; by right).
  unfold total in *. cbn. lia.
Qed.

Lemma endz_above m lo La Lb hi a :
  layout m lo (La ++ Lb) hi -> a ∈ La -> a + sizeof_cache <= endz m lo La.
Proof. intros [H _]%layout_app Ha. apply layout_bounds in H as [_ H]. by apply H. Qed.

Lemma same_hunk_trans st1 st2 st3 : same_hunk st1 st2 -> same_hunk st2 st3 -> same_hunk st1 st3.
Proof. unfold same_hunk. intros (?&?&?&?&?&?&?) (?&?&?&?&?&?&?). split_and!; congruence. Qed.

Lemma same_hunk_end st st' : same_hunk st st' -> hi_end st' = hi_end st.
Proof. unfold same_hunk, hi_end. intros (_ & -> & -> & _ & -> & _). done. Qed.

(** The header of the list head. *)
Lemma head_links st L R lo hi :
  core st L R lo hi -> exists hc, cblocks st !! cache_head st = Some hc /\
    cs_next hc = firstz L (cache_head st) /\ cs_prev hc = lastz (cache_head st) L /\
    cs_lru_next hc = firstz R (cache_head st) /\ cs_lru_prev hc = lastz (cache_head st) R.
Proof.
  intros (_ & _ & _ & Hlad & Hrec & _ & _).
  pose proof (ring_first _ _ _ _ _ Hlad) as H1. pose proof (ring_last _ _ _ _ _ Hlad) as H2.
  pose proof (ring_first _ _ _ _ _ Hrec) as H3. pose proof (ring_last _ _ _ _ _ Hrec) as H4.
  unfold fget in *. destruct (cblocks st !! cache_head st) as [hc|]; [|done]. exists hc.
  injection H1 as ?. injection H2 as ?. injection H3 as ?. injection H4 as ?. done.
Qed.

(** What making room guarantees: the invariant for the new bounds, and that no user has
    wrong data. *)
Definition room_made (st st' : memst) (L' R' : list Z) (lo hi : Z) : Prop :=
  core st' L' R' lo hi /\ users_ok st' L' /\ keeps st st' /\ same_hunk st st'.

Lemma keeps_refl st L lo hi : users_ok st L -> layout (cblocks st) lo L hi -> keeps st st.
Proof.
  intros [_ HU] Hl u Hu. split; [done|]. destruct (HU u Hu) as (a & Ha & Hd & _).
  destruct (layout_size _ _ _ _ _ Hl Ha) as (s & Hs & _). exists s. rewrite Hd. unfold sizeof_cache.
  replace (a + 40 - 40) with a by lia. done.
Qed.

Lemma core_raise st L R lo hi x :
  core st L R lo hi -> lo <= x -> x <= gap_end L hi -> core st L R x hi.
Proof.
  intros (H0 & Hh & Ho & Hlad & Hrec & HR & Hlay) Hx Hg. split_and!; try done; [lia|lia|].
  by eapply layout_raise.
Qed.

Lemma room_made_refl st L R lo hi :
  core st L R lo hi -> users_ok st L -> keeps st st -> room_made st st L R lo hi.
Proof. by split. Qed.

Lemma room_made_step st st1 st' L R lo hi :
  keeps st st1 -> same_hunk st st1 -> room_made st1 st' L R lo hi -> room_made st st' L R lo hi.
Proof.
  intros Hk Hsh (H1 & H2 & H3 & H4). split; [done|]. split; [done|].
  split; [by eapply keeps_trans|by eapply same_hunk_trans].
Qed.

Lemma FreeLow_ok new_low lo hi fuel : forall st L R,
  core st L R lo hi -> users_ok st L -> hi_end st <= hi ->
  lo <= hunk_base st + new_low <= hi -> (total (fun a => Z.to_nat (hi - a)) L < fuel)%nat ->
  exists st' L' R', Cache_FreeLow_loop fuel new_low st = Ok st' /\
    room_made st st' L' R' (hunk_base st + new_low) hi /\ mem_frame lo hi st st'.
Proof.
  induction fuel as [|fuel IH]; intros st L R Hc Hus Hhi Hlow Hf; [lia|]. cbn [Cache_FreeLow_loop].
  destruct (head_links _ _ _ _ _ Hc) as (hc & Hhc & Hnx & _). rewrite (cs_at_ok _ _ _ Hhc), bind_Ok, Hnx.
  pose proof Hc as (_ & _ & _ & _ & _ & _ & Hlay).
  destruct (core_nodup _ _ _ _ _ Hc) as (Hnd & _ & _).
  pose proof (keeps_refl _ _ _ _ Hus Hlay) as Hkr. destruct L as [|c L]; cbn [firstz].
  { rewrite Z.eqb_refl. exists st, [], R. split; [done|]. split; [apply room_made_refl; try done|by apply mem_frame_refl].
    eapply core_raise; [exact Hc|lia|cbn; lia]. }
  case_if. { exfalso. apply NoDup_cons in Hnd as [Hnd _]. apply Hnd. rewrite <- E. by left. }
  case_if. { exists st, (c :: L), R. split; [done|].
    split; [apply room_made_refl; try done|by apply mem_frame_refl]. eapply core_raise; [exact Hc|lia|done]. }
  pose proof (layout_bounds _ _ _ _ Hlay) as [_ Hb]. unfold sizeof_cache in *.
  destruct (Hb c) as [Hcl Hch]; [by left|].
  destruct (Move_ok st c [] L R lo hi Hc Hus Hhi) as (st1 & L1 & R1 & -> & Hc1 & Hus1 & Hk1 & Hsh & Hfr & HL1).
  rewrite bind_Ok.
  assert (total (fun a => Z.to_nat (hi - a)) L1 < fuel)%nat as Hf1.
  { destruct HL1 as [-> |(La & Lb & s & HLL & Hne & _ & _ & ->)]; cbn [app total foldr] in *; [lia|].
    destruct La as [|c' La]; [done|]. cbn in HLL. injection HLL as <- HLL.
    assert (c + 40 <= endz (cblocks st) lo (c :: La)) as Hend.
    { eapply (endz_above _ _ _ Lb); [|by left]. cbn [app]. rewrite <- HLL. exact Hlay. }
    unfold total in *. lia. }
  destruct Hsh as (Hsh1 & Hsh2 & Hsh3). assert (same_hunk st st1) as Hsh by done.
  destruct (IH st1 L1 R1) as (st' & L' & R' & HF & Hr & Hfr'); try done.
  - rewrite (same_hunk_end _ _ Hsh). done.
  - rewrite Hsh2. done.
  - rewrite Hsh2 in Hr. exists st', L', R'. split; [exact HF|].
    split; [by eapply room_made_step|by eapply mem_frame_trans].
Qed.

Lemma core_lower st L R lo hi x :
  core st L R lo hi -> endz (cblocks st) lo L <= x <= hi -> core st L R lo x.
Proof.
  intros (H0 & Hh & Ho & Hlad & Hrec & HR & Hlay) Hx. split_and!; try done; [lia|].
  rewrite <- (app_nil_r L). rewrite <- (app_nil_r L) in Hlay. apply layout_app in Hlay as [Hlay _].
  apply layout_app. split; [done|]. cbn. lia.
Qed.

Lemma layout_last m L1 a L2 lo hi : layout m lo (L1 ++ a :: L2) hi -> forall b, b ∈ L1 -> b <= a.
Proof.
  intros Hl b Hb. apply layout_app in Hl as [H1 (H2 & _)]. pose proof (layout_bounds _ _ _ _ H1) as [_ H].
  destruct (H b Hb) as [_ ?]. unfold sizeof_cache in *. lia.
Qed.

(** The last block, when it is in the way, moves down or goes away. *)
Lemma moved_down st c L1 L' R lo hi s :
  core st (L1 ++ [c]) R lo hi -> fget cs_size (cblocks st) c = Some s -> hi_end st < c + s ->
  moved st c lo L1 [] L' -> exists n, L' ≡ₚ n :: L1 /\ lo <= n < c.
Proof.
  intros (_ & _ & _ & _ & _ & _ & Hlay) Hs Hend (La & Lb & s' & HLL & Hne & Hs' & Hfit & HL').
  rewrite Hs' in Hs. injection Hs as ->. rewrite app_nil_r in HL'.
  exists (endz (cblocks st) lo La). split; [done|].
  assert (lo <= endz (cblocks st) lo La) as Hge.
  { rewrite HLL in Hlay. apply layout_app in Hlay as [Hlay _]. by apply layout_bounds in Hlay as [? _]. }
  split; [done|]. assert (c ∈ L1 ++ [c]) as Hc by set_solver.
  destruct (layout_size _ _ _ _ _ Hlay Hc) as (s' & Hs & Hs40). rewrite Hs' in Hs. injection Hs as <-.
  unfold sizeof_cache in *. destruct Lb as [|b Lb].
  - rewrite app_nil_r in HLL. rewrite <- HLL, endz_snoc, Hs' in Hfit. cbn in Hfit. lia.
  - cbn in Hfit. assert (b <= c); [|lia]. assert (b ∈ L1 ++ [c]) as Hb by (rewrite HLL; set_solver).
    apply elem_of_app in Hb as [Hb|Hb]; [by eapply layout_last|]. apply list_elem_of_singleton in Hb. lia.
Qed.

Lemma FreeHigh_ok lo hi fuel : forall st L R prev,
  core st L R lo hi -> users_ok st L -> lo <= hi_end st <= hi ->
  (total (fun a => S (Z.to_nat (a - lo))) L < fuel)%nat ->
  exists st' L' R', Cache_FreeHigh_loop fuel (hunk_high_used st) prev st = Ok st' /\
    room_made st st' L' R' lo (hi_end st) /\ mem_frame lo hi st st'.
Proof.
  induction fuel as [|fuel IH]; intros st L R prev Hc Hus Hhi Hf; [lia|]. cbn [Cache_FreeHigh_loop].
  destruct (head_links _ _ _ _ _ Hc) as (hc & Hhc & _ & Hpv & _). rewrite (cs_at_ok _ _ _ Hhc), bind_Ok, Hpv.
  pose proof Hc as (_ & _ & _ & _ & _ & _ & Hlay).
  destruct (core_nodup _ _ _ _ _ Hc) as (Hnd & _ & _).
  pose proof (keeps_refl _ _ _ _ Hus Hlay) as Hkr. destruct L as [|c L1 _] using rev_ind.
  { cbn [lastz]. rewrite Z.eqb_refl. exists st, [], R. split; [done|]. split; [apply room_made_refl; try done|by apply mem_frame_refl].
    eapply core_lower; [exact Hc|cbn; lia]. }
  rewrite lastz_snoc. case_if.
  { exfalso. apply NoDup_cons in Hnd as [Hnd _]. apply Hnd. set_solver. }
  assert (c ∈ L1 ++ [c]) as Hcin by set_solver.
  destruct (layout_size _ _ _ _ _ Hlay Hcin) as (s & Hs & Hs40).
  destruct (proj1 Hus c Hcin) as (u & Hu & Hd).
  pose proof Hs as Hs1. pose proof Hu as Hu1.
  unfold fget in Hs1, Hu1. destruct (cblocks st !! c) as [cr|] eqn:Hcr; [|done].
  injection Hs1 as Hs1. injection Hu1 as Hu1. rewrite (cs_at_ok _ _ _ Hcr), bind_Ok, Hs1, Hu1.
  case_if.
  { exists st, (L1 ++ [c]), R. split; [done|]. split; [apply room_made_refl; try done|by apply mem_frame_refl].
    eapply core_lower; [exact Hc|].
    rewrite endz_snoc, Hs. unfold hi_end in *. cbn. lia. }
  rewrite <- Permutation_cons_append in Hf. cbn [total foldr] in Hf.
  assert (forall st1 L' R' prev, core st1 L' R' lo hi -> users_ok st1 L' -> keeps st st1 -> same_hunk st st1 -> mem_frame lo hi st st1 ->
    (total (fun a => S (Z.to_nat (a - lo))) L' < S (Z.to_nat (c - lo)) + total (fun a => S (Z.to_nat (a - lo))) L1)%nat ->
    exists st' L' R', Cache_FreeHigh_loop fuel (hunk_high_used st) prev st1 = Ok st' /\
      room_made st st' L' R' lo (hi_end st) /\ mem_frame lo hi st st') as Hgo.
  { intros st1 L' R' prev' Hc1 Hus1 Hk1 Hsh Hfr Ht. pose proof (same_hunk_end _ _ Hsh) as Hend.
    assert (hunk_high_used st1 = hunk_high_used st) as Hhu by apply Hsh.
    destruct (IH st1 L' R' prev' Hc1 Hus1) as (st' & L2 & R2 & HF & Hr & Hfr');
      [lia|unfold total in *; lia|]. rewrite Hhu in HF. rewrite Hend in Hr.
    exists st', L2, R2. split; [exact HF|].
    split; [by eapply room_made_step|by eapply mem_frame_trans]. }
  case_if.
  - destruct (Free_users st u L1 c [] R lo hi Hc Hus Hu) as (st1 & R1 & -> & Hc1 & Hus1 & Hk & _ & Hm & Hsh & _).
    rewrite bind_Ok. rewrite app_nil_r in Hc1, Hus1. eapply Hgo; try done; [by apply mem_frame_refl|]. unfold total. lia.
  - destruct (Move_ok st c L1 [] R lo hi Hc Hus ltac:(lia)) as (st1 & L' & R1 & -> & Hc1 & Hus1 & Hk1 & Hsh & Hfr & HL1).
    rewrite bind_Ok. eapply Hgo; try done. destruct HL1 as [-> |Hmv].
    + rewrite app_nil_r. unfold total. lia.
    + destruct (moved_down st c L1 L' R lo hi s) as (n & -> & Hn); try done.
      unfold total. cbn. lia.
Qed.

(** * The invariant, and the operations on it *)

(** [L]: the blocks in the order of their addresses; [R]: in the order of their last use,
    the most recent first. *)
Definition cache_inv (st : memst) (L R : list Z) : Prop :=
  core st L R (hunk_base st + hunk_low_used st) (hi_end st) /\ users_ok st L.

(** A state whose recency links differ only. *)
Lemma users_same st st' L :
  users_ok st L -> (forall a, fget cs_user (cblocks st') a = fget cs_user (cblocks st) a) ->
  (forall v, user_data st' v = user_data st v) -> users_ok st' L.
Proof.
  intros [H1 H2] Hf Hd. split.
  - intros a Ha. rewrite Hf. destruct (H1 a Ha) as (u & Hu & E). exists u. by rewrite Hd.
  - intros u. rewrite Hd. intros Hu. destruct (H2 u Hu) as (a & Ha & E1 & E2). exists a. by rewrite Hf.
Qed.

Lemma UnlinkMake_ok st L R1 a R2 lo hi :
  core st L (R1 ++ a :: R2) lo hi ->
  exists m', (st' ← Cache_UnlinkLRU a st; Cache_MakeLRU a st') = Ok (set_cblocks m' st) /\
    core (set_cblocks m' st) L (a :: R1 ++ R2) lo hi /\
    forall b, strip <$> m' !! b = strip <$> cblocks st !! b.
Proof.
  intros Hc. pose proof Hc as (H0 & Hh & Ho & Hlad & Hrec & HR & Hlay).
  destruct (core_nodup _ _ _ _ _ Hc) as (Hnd & H00 & Hlen).
  assert (NoDup (cache_head st :: R1 ++ a :: R2)) as HndR by by rewrite HR.
  destruct (UnlinkLRU_ok st R1 a R2) as (m1 & -> & Hrec1 & Hs1 & Hn1 & Hp1); [done|done|by rewrite HR|].
  rewrite bind_Ok. unfold fget in Hn1, Hp1. destruct (m1 !! a) as [c|] eqn:Hca; [|done].
  injection Hn1 as Hn1. injection Hp1 as Hp1.
  rewrite <- Permutation_middle in HndR. apply NoDup_cons in HndR as [Hah HndR].
  apply NoDup_cons in HndR as [Ha HndR].
  destruct (MakeLRU_ok (set_cblocks m1 st) (R1 ++ R2) a c) as (m' & -> & Hrec' & Hs'); try done;
    cbn [cblocks cache_head set_cblocks].
  { constructor; [set_solver|done]. } { set_solver. }
  exists m'. split; [done|]. cbn [cblocks set_cblocks] in *.
  assert (forall b, strip_lru <$> m' !! b = strip_lru <$> cblocks st !! b) as Hs by (intros b; by rewrite Hs', Hs1).
  split; [|intros b; by apply strip_of_lru]. unfold core. cbn [cblocks cache_head set_cblocks]. split_and!; try done.
  - eapply ring_same; [exact Hlad|intros b; by apply fget_strip with (h := strip_lru)..].
  - rewrite <- HR. apply Permutation_middle.
  - eapply layout_frame; [|exact Hlay]. intros b _. by apply fget_strip with (h := strip_lru).
Qed.

(** A block that was just found, named and given to [u]. *)
Lemma alloc_new st u name size L La Lb R lo hi m' n :
  core st (La ++ Lb) R lo hi -> users_ok st (La ++ Lb) -> user_data st u = 0 -> L = La ++ n :: Lb ->
  added st m' La Lb R n lo hi size -> n ∉ La ++ Lb -> 0 < n ->
  exists st', (st ← upd_cs n (set_cs_name name) (set_cblocks m' st);
               upd_cs n (set_cs_user u) (set_user_data u (n + sizeof_cache) st)) = Ok st' /\
    core st' L (n :: R) lo hi /\ users_ok st' L /\ same_hunk st st' /\ mem st' = mem st /\
    fget cs_size (cblocks st') n = Some size /\
    (forall v, user_data st' v = if decide (v = u) then n + sizeof_cache else user_data st v) /\
    (forall a, a <> n -> fget cs_user (cblocks st') a = fget cs_user (cblocks st) a /\
       fget cs_size (cblocks st') a = fget cs_size (cblocks st) a).
Proof.
  intros Hc Hus Hu -> (Hca & Hn & Ho) Hnin Hn0. assert (is_Some (m' !! n)) as Hsn.
  { destruct (m' !! n) as [c|]; [by eexists|done]. }
  rewrite upd_cs_ok, bind_Ok by done. cbn [cblocks set_cblocks].
  rewrite upd_cs_ok by (cbn; by apply alter_is_Some). cbn [cblocks set_cblocks set_user_data set_cusers].
  set (m2 := alter (set_cs_user u) n _). eexists. split; [done|].
  assert (forall a, a <> n -> fget cs_user m2 a = fget cs_user (cblocks st) a) as Hun.
  { intros a Ha. unfold m2. rewrite !fget_alter_ne by done. apply fget_strip with (h := strip); [done|by apply Ho]. }
  assert (fget cs_user m2 n = Some u) as Hnu by (unfold m2; rewrite fget_alter; rewrite decide_True by done; by fields).
  set (st' := set_cblocks m2 _).
  assert (forall v, user_data st' v = if decide (v = u) then n + sizeof_cache else user_data st v) as Hud
    by (intros v; apply (user_data_set u (n + sizeof_cache) st v)).
  split; [|split; [split|split; [done|split; [done|split; [|split; [exact Hud|intros a Ha; split]]]]]].
  - eapply core_same; [exact Hca|done|]. intros g a Hg. unfold st'. cbn [cblocks set_cblocks]. unfold m2.
    destruct Hg as [-> | [-> | [-> | [-> | ->]]]]; by rewrite !fget_alter_same.
  - intros a Ha. rewrite <- Permutation_middle in Ha. apply elem_of_cons in Ha as [->|Ha].
    + exists u. split; [done|]. rewrite Hud. by rewrite decide_True.
    + destruct (proj1 Hus a Ha) as (v & Hv & Hd). exists v. rewrite Hud.
      assert (a <> n) by (intros ->; done). split; [unfold st'; cbn [cblocks set_cblocks]; by rewrite Hun|].
      destruct (layout_bounds _ _ _ _ (proj2 (proj2 (proj2 (proj2 (proj2 (proj2 Hc))))))) as [_ Hb].
      destruct (Hb a Ha). destruct Hc as (Hlo & _). rewrite decide_False; [done|]. intros ->.
      unfold sizeof_cache in *. lia.
  - intros v. rewrite Hud. destruct (decide (v = u)) as [->|Hvu]; intros Hv.
    + exists n. split; [set_solver|]. by split.
    + destruct (proj2 Hus v Hv) as (a & Ha & E1 & E2). exists a. assert (a <> n) by (intros ->; done).
      split; [set_solver|]. split; [done|]. unfold st'; cbn [cblocks set_cblocks]. by rewrite Hun.
  - unfold st'; cbn [cblocks set_cblocks]. unfold m2. rewrite !fget_alter_same by done. unfold fget.
    destruct (m' !! n) as [c|]; [|done]. cbn in Hn |- *. injection Hn as -> _ _. done.
  - unfold st'; cbn [cblocks set_cblocks]. by apply Hun.
  - unfold st'; cbn [cblocks set_cblocks]. unfold m2. rewrite !fget_alter_same by done.
    apply fget_strip with (h := strip); [done|by apply Ho].
Qed.

(** What an allocation leaves of the blocks: those of [E] are gone, those of [R0] are where
    they were, with the same user, and the new block [n] belongs to [u]. *)
Definition allocated (st st' : memst) (u n size : Z) (L' R0 E : list Z) : Prop :=
  cache_inv st' L' (n :: R0) /\ same_hunk st st' /\ mem st' = mem st /\
  user_data st' u = n + sizeof_cache /\ fget cs_size (cblocks st') n = Some size /\
  (forall a v, a ∈ R0 -> fget cs_user (cblocks st) a = Some v ->
     fget cs_user (cblocks st') a = Some v /\ user_data st' v = a + sizeof_cache /\
     fget cs_size (cblocks st') a = fget cs_size (cblocks st) a) /\
  (forall a v, a ∈ E -> fget cs_user (cblocks st) a = Some v -> user_data st' v = 0) /\
  (forall v, v <> u -> user_data st v = 0 -> user_data st' v = 0).

Lemma try_false st L R size :
  cache_inv st L R -> sizeof_cache <= size ->
  (L = [] /\ hi_end st - (hunk_base st + hunk_low_used st) < size /\
     exists msg, Cache_TryAlloc size false st = Fault (Sys_Error msg)) \/
  (L <> [] /\ Cache_TryAlloc size false st = Ok (0, st)) \/
  exists La Lb m', let lo := hunk_base st + hunk_low_used st in
    let n := endz (cblocks st) lo La in L = La ++ Lb /\
    Cache_TryAlloc size false st = Ok (n, set_cblocks m' st) /\
    added st m' La Lb R n lo (hi_end st) size /\ n ∉ cache_head st :: La ++ Lb /\ 0 < n /\
    size <= hi_end st - lo.
Proof.
  intros [Hc _] Hs. set (lo := hunk_base st + hunk_low_used st) in *.
  assert (forall La Lb, L = La ++ Lb -> endz (cblocks st) lo La + size <= gap_end Lb (hi_end st) ->
    endz (cblocks st) lo La ∉ cache_head st :: La ++ Lb /\ 0 < endz (cblocks st) lo La /\
    size <= hi_end st - lo) as Hfr.
  { intros La Lb -> Hfit.
    destruct (gap_fresh st La Lb R lo _ size Hc ltac:(lia) Hs Hfit) as (H1 & H2 & _).
    split; [done|]. split; [done|]. destruct Hc as (_ & _ & _ & _ & _ & _ & Hlay).
    apply layout_app in Hlay as [HA HB]. apply layout_bounds in HA as [HA _].
    destruct Lb as [|b Lb]; [cbn in Hfit; lia|]. cbn in Hfit.
    apply layout_bounds in HB as [_ HB]. destruct (HB b); [by left|]. unfold sizeof_cache in *. lia. }
  destruct L as [|l L].
  - destruct (TryAlloc_empty st R lo (hi_end st) size Hc ltac:(lia) Hs eq_refl) as [[H1 H2]|(m' & HT & Ha & Hf)];
      [by left|]. right. right. exists [], [], m'. split; [done|]. split; [done|]. split; [done|].
    by apply Hfr.
  - destruct (TryAlloc_search st (l :: L) R lo (hi_end st) size false) as [HT|(La & Lb & m' & HL & HT & Ha & Hf & _)];
      try done; [by right; left|]. right. right. exists La, Lb, m'. split; [done|].
    split; [done|]. split; [done|]. by apply Hfr.
Qed.

Lemma alloc_loop_ok u size name fuel : forall st L R,
  cache_inv st L R -> user_data st u = 0 -> sizeof_cache <= size -> (length R < fuel)%nat ->
  if size <=? hi_end st - (hunk_base st + hunk_low_used st)
  then exists st' n L' R0 E, alloc_loop fuel u size name st = Ok st' /\ R = R0 ++ E /\
         allocated st st' u n size L' R0 E
  else exists msg, alloc_loop fuel u size name st = Fault (Sys_Error msg).
Proof.
  induction fuel as [|fuel IH]; intros st L R Hinv Hu Hs Hf; [lia|]. cbn [alloc_loop].
  pose proof Hinv as [Hc Hus]. pose proof Hc as (_ & _ & _ & _ & _ & HR & _).
  destruct (try_false st L R size Hinv Hs) as [(-> & Hbig & msg & ->)|[(Hne & ->)|(La & Lb & m' & -> & -> & Hadd & Hn & Hn0 & Hfit)]].
  - case_if; [lia|]. by exists msg.
  - rewrite bind_Ok. cbn [truth Z.eqb negb].
    destruct (head_links _ _ _ _ _ Hc) as (hc & Hhc & _ & _ & _ & Hlp).
    rewrite (cs_at_ok _ _ _ Hhc), bind_Ok, Hlp.
    destruct (core_nodup _ _ _ _ _ Hc) as (Hnd & _ & _).
    destruct R as [|a R _] using rev_ind; [apply Permutation_nil in HR; done|]. rewrite lastz_snoc.
    assert (a ∈ L) as Ha by (rewrite <- HR; set_solver).
    assert (a =? cache_head st = false) as ->.
    { apply Z.eqb_neq. intros E. apply NoDup_cons in Hnd as [Hnd _]. apply Hnd. by rewrite <- E. }
    destruct (proj1 Hus a Ha) as (w & Hw & Hdw). pose proof Hw as Hw1.
    unfold fget in Hw1. destruct (cblocks st !! a) as [c|] eqn:Hca; [|done]. injection Hw1 as Hw1.
    rewrite (cs_at_ok _ _ _ Hca), bind_Ok, Hw1. apply list_elem_of_split in Ha as (L1 & L2 & ->).
    destruct (Free_users st w L1 a L2 _ _ _ Hc Hus Hw) as (st1 & R' & -> & Hc1 & Hus1 & _ & (R1 & R2 & HRR & ->) & Hm & Hsh & Hud & Hst).
    rewrite bind_Ok. assert (R1 ++ R2 = R) as HR0.
    { assert (NoDup (R ++ [a])) as HndR by (rewrite HR; by apply NoDup_cons in Hnd as [_ ?]).
      destruct R2 as [|x R2 _] using rev_ind; [apply app_inj_tail in HRR as [-> _]; by rewrite app_nil_r|].
      rewrite app_comm_cons, app_assoc in HRR. apply app_inj_tail in HRR as [-> <-]. exfalso.
      apply NoDup_app in HndR as (_ & HndR & _). apply (HndR a); set_solver. }
    rewrite HR0 in *. pose proof (same_hunk_end _ _ Hsh) as Hend.
    assert (hunk_base st1 + hunk_low_used st1 = hunk_base st + hunk_low_used st) as Hlo by (destruct Hsh as (_ & -> & _ & -> & _); done).
    assert (cache_inv st1 (L1 ++ L2) R) as Hinv1 by (split; [by rewrite Hlo, Hend|done]).
    assert (w <> u) as Hwu. { intros ->. destruct Hc as (Hlo0 & _ & _ & _ & _ & _ & Hlay).
      apply layout_bounds in Hlay as [_ Hb]. destruct (Hb a); [set_solver|]. unfold sizeof_cache in *. lia. }
    specialize (IH st1 (L1 ++ L2) R Hinv1). rewrite Hend, Hlo, Hud in IH.
    rewrite decide_False in IH by done. rewrite length_app in Hf. cbn in Hf.
    specialize (IH Hu Hs ltac:(lia)). case_if; [|exact IH].
    destruct IH as (st' & n & L' & R0 & E' & HA & -> & Hinv' & Hsh' & Hm' & Hdu & Hsz & Hkeep & Hgone & Hzero).
    exists st', n, L', R0, (E' ++ [a]). split; [exact HA|]. split; [by rewrite app_assoc|].
    assert (forall b, fget cs_user (cblocks st1) b = fget cs_user (cblocks st) b) as Hfu
      by (intros b; by apply fget_strip with (h := strip)).
    assert (forall b, fget cs_size (cblocks st1) b = fget cs_size (cblocks st) b) as Hfs
      by (intros b; by apply fget_strip with (h := strip)).
    split; [done|]. split; [by eapply same_hunk_trans|]. split; [congruence|]. split; [done|]. split; [done|]. split; [|split].
    + intros b v Hb Hv. rewrite <- Hfs. apply Hkeep; [done|by rewrite Hfu].
    + intros b v [Hb|Hb]%elem_of_app Hv; [apply (Hgone b); [done|by rewrite Hfu]|].
      apply list_elem_of_singleton in Hb as ->. rewrite Hw in Hv. injection Hv as <-.
      apply Hzero; [done|]. rewrite Hud. by rewrite decide_True.
    + intros v Hv Hv0. apply Hzero; [done|]. rewrite Hud. by destruct (decide _).
  - rewrite bind_Ok. unfold truth. case_if; [|lia]. case_if; [|lia].
    set (lo := hunk_base st + hunk_low_used st) in *. set (n := endz (cblocks st) lo La) in *.
    destruct (alloc_new st u (take 15 name) size _ La Lb R lo (hi_end st) m' n Hc Hus Hu eq_refl Hadd)
      as (st' & HA & Hc' & Hus' & Hsh & Hm & Hsz & Hud & Hfr); [set_solver|done|].
    exists st', n, (La ++ n :: Lb), R, []. split; [exact HA|]. split; [by rewrite app_nil_r|].
    split.
    { pose proof (same_hunk_end _ _ Hsh) as Hend. split; [|done]. rewrite Hend.
      destruct Hsh as (_ & -> & _ & -> & _). done. }
    split; [done|]. split; [done|]. split; [rewrite Hud; by rewrite decide_True|]. split; [done|]. split; [|split].
    + intros a v Ha Hv. assert (a <> n) as Han by (intros ->; rewrite HR in Ha; set_solver).
      destruct (Hfr a Han) as [-> ->]. rewrite HR in Ha.
      pose proof (users_owner _ _ _ _ Hus Ha Hv) as Hd. split; [done|]. split; [|done]. rewrite Hud.
      destruct (decide (v = u)) as [->|]; [|done]. destruct Hc as (Hlo0 & _ & _ & _ & _ & _ & Hlay).
      apply layout_bounds in Hlay as [_ Hb]. destruct (Hb a Ha). unfold sizeof_cache in *. lia.
    + intros a v Ha. by apply not_elem_of_nil in Ha.
    + intros v Hv Hv0. rewrite Hud. by rewrite decide_False.
Qed.

(** The hunk lies where the model puts it: above address 0, its two ends inside it, and the
    list head (a global of the program) outside. *)
Definition hunk_ok (st : memst) : Prop :=
  0 < hunk_base st /\ 0 <= hunk_low_used st /\ 0 <= hunk_high_used st /\
  hunk_low_used st + hunk_high_used st <= hunk_size st /\
  cache_head st <> 0 /\ ~ (hunk_base st <= cache_head st < hunk_base st + hunk_size st).

Lemma same_hunk_ok st st' : same_hunk st st' -> hunk_ok st -> hunk_ok st'.
Proof. unfold same_hunk, hunk_ok. intros (-> & -> & -> & -> & -> & _ & _). done. Qed.

Lemma Cache_Init_inv st :
  hunk_ok st -> (forall u, user_data st u = 0) -> cache_inv (Cache_Init st) [] [].
Proof.
  intros (H0 & Hl & Hh & Hsz & Hn & Ho) Hu. split.
  - set (h := cache_head st) in *.
    assert (cblocks (Cache_Init st) !! h = Some (CS 0 0 [] h h h h)) as Hc by apply lookup_insert_eq.
    unfold core. change (cache_head (Cache_Init st)) with h.
    change (hi_end (Cache_Init st)) with (hi_end st). change (hunk_base (Cache_Init st)) with (hunk_base st).
    change (hunk_low_used (Cache_Init st)) with (hunk_low_used st). unfold hi_end in *.
    assert (forall g : cache_system -> Z, fget g (cblocks (Cache_Init st)) h = Some (g (CS 0 0 [] h h h h))) as Hg
      by (intros g; unfold fget; by rewrite Hc).
    split; [lia|]. split; [done|]. split; [lia|]. split; [split; [split; apply Hg|done]|].
    split; [split; [split; apply Hg|done]|]. split; [done|]. cbn. lia.
  - split; [intros a Ha; by apply not_elem_of_nil in Ha|]. intros u Hu'. by rewrite (Hu u : user_data (Cache_Init st) u = 0) in Hu'.
Qed.

Lemma core_length st L R lo hi n :
  core st L R lo hi -> (length L * n <= base.size (cblocks st) * n)%nat.
Proof. intros Hc. destruct (core_nodup _ _ _ _ _ Hc) as (_ & _ & H). apply Nat.mul_le_mono_r. lia. Qed.

(** Raising the low mark: the blocks in the way move up or go away. *)
Lemma Cache_FreeLow_inv st L R low :
  cache_inv st L R -> hunk_ok st -> hunk_low_used st <= low ->
  low + hunk_high_used st <= hunk_size st ->
  exists st' L' R', Cache_FreeLow low (set_hunk_low_used low st) = Ok st' /\
    cache_inv st' L' R' /\ keeps st st' /\ same_hunk (set_hunk_low_used low st) st' /\
    mem_frame (hunk_base st + hunk_low_used st) (hi_end st) st st'.
Proof.
  intros [Hc Hus] (H0 & Hl & Hh & Hsz & _) Hlow Hfit. set (st1 := set_hunk_low_used low st).
  set (lo := hunk_base st + hunk_low_used st) in *.
  assert (hi_end st = hi_end st1) as Hend by done.
  destruct (FreeLow_ok low lo (hi_end st) (move_fuel st1) st1 L R) as (st' & L' & R' & HF & (Hc' & Hus' & Hk & Hsh) & Hfr).
  - eapply core_same; [exact Hc|done|done].
  - done.
  - lia.
  - unfold lo, hi_end in *. cbn. lia.
  - unfold move_fuel. apply Nat.lt_succ_r. etrans; [|by eapply (core_length st1); eapply core_same; [exact Hc|done|done]].
    apply total_le. intros a Ha. destruct Hc as (_ & _ & _ & _ & _ & _ & Hlay).
    apply layout_bounds in Hlay as [_ Hb]. destruct (Hb a Ha) as [Hb1 _].
    change (hunk_size st1) with (hunk_size st). unfold lo, hi_end in *. lia.
  - exists st', L', R'. split; [exact HF|]. split; [|done]. split; [|done].
    pose proof (same_hunk_end _ _ Hsh) as ->. destruct Hsh as (_ & -> & _ & -> & _). exact Hc'.
Qed.

Lemma Cache_FreeHigh_inv st L R high :
  cache_inv st L R -> hunk_ok st -> hunk_high_used st <= high ->
  hunk_low_used st + high <= hunk_size st ->
  exists st' L' R', Cache_FreeHigh high (set_hunk_high_used high st) = Ok st' /\
    cache_inv st' L' R' /\ keeps st st' /\ same_hunk (set_hunk_high_used high st) st' /\
    mem_frame (hunk_base st + hunk_low_used st) (hi_end st) st st'.
Proof.
  intros [Hc Hus] (H0 & Hl & Hh & Hsz & _) Hlow Hfit. set (st1 := set_hunk_high_used high st).
  set (lo := hunk_base st + hunk_low_used st) in *.
  assert (hi_end st1 = hunk_base st + hunk_size st - high) as Hend by done.
  assert (core st1 L R lo (hi_end st)) as Hc1 by (eapply core_same; [exact Hc|done|done]).
  destruct (FreeHigh_ok lo (hi_end st) (move_fuel st1) st1 L R 0) as (st' & L' & R' & HF & (Hc' & Hus' & Hk & Hsh) & Hfr);
    [done|done|unfold lo, hi_end in *; lia| |].
  - unfold move_fuel. apply Nat.lt_succ_r. etrans; [|by eapply (core_length st1)].
    apply total_le. intros a Ha. destruct Hc as (_ & _ & _ & _ & _ & _ & Hlay).
    apply layout_bounds in Hlay as [_ Hb]. destruct (Hb a Ha) as [Hb1 Hb2].
    change (hunk_size st1) with (hunk_size st). unfold lo, hi_end, sizeof_cache in *. lia.
  - exists st', L', R'. split; [exact HF|]. split; [|done]. split; [|done].
    pose proof (same_hunk_end _ _ Hsh) as ->. destruct Hsh as (_ & -> & _ & -> & _). exact Hc'.
Qed.

Lemma Flush_ok fuel : forall st L R,
  cache_inv st L R -> (length L < fuel)%nat ->
  exists st', Cache_Flush_loop fuel st = Ok st' /\ cache_inv st' [] [] /\ same_hunk st st'.
Proof.
  induction fuel as [|fuel IH]; intros st L R [Hc Hus] Hf; [lia|]. cbn [Cache_Flush_loop].
  destruct (head_links _ _ _ _ _ Hc) as (hc & Hhc & Hnx & _). rewrite (cs_at_ok _ _ _ Hhc), bind_Ok, Hnx.
  destruct (core_nodup _ _ _ _ _ Hc) as (Hnd & _ & _). destruct L as [|c L]; cbn [firstz].
  { rewrite Z.eqb_refl. exists st. split; [done|]. split; [|done].
    pose proof Hc as (_ & _ & _ & _ & _ & HR & _). symmetry in HR. apply Permutation_nil in HR as ->. done. }
  assert (c =? cache_head st = false) as ->.
  { apply Z.eqb_neq. intros ->. apply NoDup_cons in Hnd as [Hnd _]. apply Hnd. by left. }
  destruct (proj1 Hus c ltac:(by left)) as (u & Hu & _). pose proof Hu as Hu1.
  unfold fget in Hu1. destruct (cblocks st !! c) as [cr|] eqn:Hcr; [|done]. injection Hu1 as Hu1.
  rewrite (cs_at_ok _ _ _ Hcr), bind_Ok, Hu1.
  destruct (Free_users st u [] c L R _ _ Hc Hus Hu) as (st1 & R1 & -> & Hc1 & Hus1 & _ & _ & _ & Hsh & _).
  rewrite bind_Ok. destruct (IH st1 L R1) as (st' & HF & Hi & Hs); [|cbn in Hf; lia|].
  - split; [|done]. pose proof (same_hunk_end _ _ Hsh) as ->. destruct Hsh as (_ & -> & _ & -> & _). done.
  - exists st'. split; [exact HF|]. split; [done|by eapply same_hunk_trans].
Qed.

Lemma cache_size_bounds size :
  0 < size -> size + 55 < 2147483648 ->
  size + sizeof_cache <= cache_size size < size + sizeof_cache + 16 /\ cache_size size `mod` 16 = 0.
Proof.
  intros H1 H2. unfold cache_size, sizeof_cache. rewrite align16.
  pose proof (Z.mod_pos_bound (size + 40 + 15) 16 ltac:(lia)).
  rewrite u32_id, s32_id by lia. split; [lia|].
  replace (size + 40 + 15 - (size + 40 + 15) `mod` 16) with ((size + 40 + 15) / 16 * 16)
    by (pose proof (Z.div_mod (size + 40 + 15) 16 ltac:(lia)); lia).
  apply Z_mod_mult.
Qed.

(** Using a block again. *)
Lemma Cache_Check_inv st L R1 a R2 u :
  cache_inv st L (R1 ++ a :: R2) -> user_data st u = a + sizeof_cache ->
  exists m', Cache_Check u st = Ok (a + sizeof_cache, set_cblocks m' st) /\
    cache_inv (set_cblocks m' st) L (a :: R1 ++ R2) /\
    forall b, strip <$> m' !! b = strip <$> cblocks st !! b.
Proof.
  intros [Hc Hus] Hu. destruct (UnlinkMake_ok st L R1 a R2 _ _ Hc) as (m' & HM & Hc' & Hs).
  exists m'. assert (0 < a) as Ha.
  { destruct Hc as (Hlo & _ & _ & _ & _ & HR & Hlay). apply layout_bounds in Hlay as [_ Hb].
    destruct (Hb a); [rewrite <- HR; set_solver|lia]. }
  split; [|split; [split; [exact Hc'|]|done]].
  - unfold Cache_Check. rewrite Hu. unfold sizeof_cache in *. case_if; [lia|].
    replace (a + 40 - 40) with a by lia.
    destruct (Cache_UnlinkLRU a st) as [st1|f]; [|discriminate HM]. rewrite bind_Ok. change (Cache_MakeLRU a st1 = Ok (set_cblocks m' st)) in HM. rewrite HM, bind_Ok.
    by change (user_data (set_cblocks m' st) u) with (user_data st u); rewrite Hu.
  - eapply users_same; [exact Hus| |done]. intros b. by apply fget_strip with (h := strip).
Qed.

(** A full check of a cache of three blocks: the least recently used ones go first. *)
Definition demo_mem : memst := Cache_Init (MemSt 64 4096 1024 64 0 false 0 ∅ ∅ ∅).

Definition demo_cache : res memst :=
  '(_, st) ← Cache_Alloc 1 200 (cs "progs/a.mdl") demo_mem;
  '(_, st) ← Cache_Alloc 2 200 (cs "progs/b.mdl") st;
  '(_, st) ← Cache_Alloc 3 200 (cs "progs/c.mdl") st;
  '(_, st) ← Cache_Check 1 st;
  '(_, st) ← Cache_Alloc 4 300 (cs "progs/d.mdl") st;
  mret st.

Example demo_cache_evicts :
  demo_cache ≫= (fun st => mret (user_data st 1, user_data st 2, user_data st 3, user_data st 4)) =
  Ok (4200, 0, 0, 4440).
Proof. by_vm. Qed.

(** C13: [Cache_Alloc] for a user that has no data and a positive size that does not overflow:
    when the header and the data, rounded to 16 bytes, fit between the two ends of the hunk,
    the call returns the data address of a new block of exactly that size, most recently
    used; the blocks that had to go are a suffix of the recency order (least recently used
    first), their users point nowhere, and every other block stays in place with its user.
    When they do not fit, the call ends in [Sys_Error]; it never runs forever. *)
Theorem Cache_Alloc_spec st L R u size name :
  cache_inv st L R -> user_data st u = 0 -> 0 < size -> size + 55 < 2147483648 ->
  size + sizeof_cache <= cache_size size < size + sizeof_cache + 16 /\
  if cache_size size <=? hi_end st - (hunk_base st + hunk_low_used st)
  then exists st' n L' R0 E, Cache_Alloc u size name st = Ok (n + sizeof_cache, st') /\ R = R0 ++ E /\
         allocated st st' u n (cache_size size) L' R0 E
  else exists msg, Cache_Alloc u size name st = Fault (Sys_Error msg).
Proof.
  intros Hinv Hu Hpos Hbig. destruct (cache_size_bounds size Hpos Hbig) as [Hb _]. split; [exact Hb|].
  pose proof (proj1 Hinv) as Hc. pose proof Hc as (_ & _ & _ & _ & _ & HR & _).
  destruct (core_nodup _ _ _ _ _ Hc) as (_ & _ & Hlen).
  pose proof (alloc_loop_ok u (cache_size size) name (S (base.size (cblocks st))) st L R Hinv Hu) as HA.
  unfold Cache_Alloc. rewrite Hu. change (truth 0) with false. cbv iota.
  assert (size <=? 0 = false) as -> by (apply Z.leb_gt; lia).
  rewrite HR in HA. specialize (HA ltac:(lia) ltac:(lia)). case_if.
  - destruct HA as (st' & n & L' & R0 & E' & -> & HRE & Hinv' & Hsh & Hm & Hdu & Hsz & Hk & Hg & Hz).
    rewrite bind_Ok. destruct (Cache_Check_inv st' L' [] n R0 u Hinv' Hdu) as (m' & -> & Hinv2 & Hs).
    assert (forall b, fget cs_user m' b = fget cs_user (cblocks st') b) as Hfu
      by (intros b; by apply fget_strip with (h := strip)).
    assert (forall b, fget cs_size m' b = fget cs_size (cblocks st') b) as Hfs
      by (intros b; by apply fget_strip with (h := strip)).
    exists (set_cblocks m' st'), n, L', R0, E'. split; [done|]. split; [done|]. split; [done|].
    split; [done|]. split; [done|]. split; [done|]. cbn [cblocks set_cblocks].
    rewrite Hfs. split; [done|]. split; [|done]. intros a v Ha Hv. rewrite Hfu, Hfs. by apply Hk.
  - destruct HA as [msg ->]. by exists msg.
Qed.

Lemma Cache_Alloc_spec_witness :
  exists st' n L' R0 E, Cache_Alloc 1 200 (cs "progs/a.mdl") demo_mem = Ok (n + sizeof_cache, st') /\
    [] = R0 ++ E /\ allocated demo_mem st' 1 n 240 L' R0 E.
Proof.
  assert (cache_inv demo_mem [] []) as Hinv.
  { apply Cache_Init_inv; [unfold hunk_ok; cbn; lia|]. done. }
  exact (proj2 (Cache_Alloc_spec demo_mem [] [] 1 200 (cs "progs/a.mdl") Hinv ltac:(by_vm) ltac:(lia) ltac:(lia))).
Defined.

(** [Cache_Check] tells whether a user's data is still cached and marks it as the most
    recently used: null for a user without data, with nothing changed; otherwise the data's
    address, with the block moved to the front of the recency order and every block, user
    and byte left as it was. *)
Theorem Cache_Check_spec st L R u :
  cache_inv st L R ->
  if user_data st u =? 0 then Cache_Check u st = Ok (0, st)
  else exists st' R1 a R2, R = R1 ++ a :: R2 /\ user_data st u = a + sizeof_cache /\
    Cache_Check u st = Ok (user_data st u, st') /\ cache_inv st' L (a :: R1 ++ R2) /\
    same_hunk st st' /\ mem st' = mem st /\ cusers st' = cusers st.
Proof.
  intros Hinv. unfold Cache_Check at 1. case_if; [done|].
  destruct (proj2 (proj2 Hinv) u) as (a & Ha & Hd & _); [done|].
  assert (a ∈ R) as HaR by (destruct Hinv as [(_ & _ & _ & _ & _ & HR & _) _]; by rewrite HR).
  apply list_elem_of_split in HaR as (R1 & R2 & ->).
  destruct (Cache_Check_inv st L R1 a R2 u Hinv Hd) as (m' & HC & Hinv' & _).
  exists (set_cblocks m' st), R1, a, R2. rewrite Hd. split; [done|]. split; [done|]. by rewrite HC.
Qed.

Lemma Cache_Check_spec_witness : Cache_Check 7 demo_mem = Ok (0, demo_mem).
Proof.
  assert (cache_inv demo_mem [] []) as Hinv.
  { apply Cache_Init_inv; [unfold hunk_ok; cbn; lia|]. done. }
  exact (Cache_Check_spec demo_mem [] [] 7 Hinv).
Defined.

(** [Cache_Flush] returns, with every block gone and no user left with data. *)
Theorem Cache_Flush_spec st L R :
  cache_inv st L R ->
  exists st', Cache_Flush st = Ok st' /\ cache_inv st' [] [] /\ same_hunk st st' /\
    forall u, user_data st' u = 0.
Proof.
  intros Hinv. destruct (core_nodup _ _ _ _ _ (proj1 Hinv)) as (_ & _ & Hlen).
  destruct (Flush_ok (S (base.size (cblocks st))) st L R Hinv) as (st' & HF & Hi & Hs); [lia|].
  exists st'. split; [done|]. split; [done|]. split; [done|]. intros u.
  destruct (decide (user_data st' u = 0)) as [|Hu]; [done|].
  destruct (proj2 (proj2 Hi) u Hu) as (a & Ha & _). by apply not_elem_of_nil in Ha.
Qed.

Lemma Cache_Flush_spec_witness : exists st', Cache_Flush demo_mem = Ok st' /\ cache_inv st' [] [].
Proof.
  assert (cache_inv demo_mem [] []) as Hinv.
  { apply Cache_Init_inv; [unfold hunk_ok; cbn; lia|]. done. }
  destruct (Cache_Flush_spec demo_mem [] [] Hinv) as (st' & H1 & H2 & _). by exists st'.
Defined.
