(* ===== verification/Hunk.v ===== *)
(** The hunk: a stack growing up from the low end and one growing down from the high end of
    the program's memory, with the cache between them (Source/zone.c, second part), and
    [Memory_Init], which sets all three allocators up.

    The state is [memst] of Cache.v.  Block headers are bytes of [mem], written and read as
    little-endian words, so [Hunk_Check] really reads what the allocator wrote.  The
    abstract view of each stack is the list of its block sizes. *)

From S2P Require Import Prelude ComString ComMisc Zone.
From S2P Require Import Ring Cache.

Definition HUNK_SENTINAL : Z := 0x1df001ed.
Definition sizeof_hunk : Z := 16.
Definition ZONE_DEFAULT_SIZE : Z := 0x100000.

(** C: Source/zone.c:323-337 Hunk_Check *)
Fixpoint Hunk_Check_loop (fuel : nat) (h : Z) (st : memst) : res unit :=
  match fuel with
  | O => Fault OutOfFuel
  | S fuel =>
      if h =? hunk_base st + hunk_low_used st then mret tt
      else if negb (get_int h (mem st) =? HUNK_SENTINAL)
      then Fault (Sys_Error "Hunk_Check: trashed sentinal")
      else
        let size := get_int (h + 4) (mem st) in
        if (size <? 16) || (hunk_size st <? size + h - hunk_base st)
        then Fault (Sys_Error "Hunk_Check: bad size")
        else Hunk_Check_loop fuel (h + size) st
  end.

(** A turn advances by at least 16 bytes and stays inside the hunk. *)
Definition Hunk_Check (st : memst) : res unit :=
  Hunk_Check_loop (S (S (Z.to_nat (hunk_size st / 16)))) (hunk_base st) st.

(** [size = sizeof(hunk_t) + ((size + 15) & ~15)]; the inner sum is a signed one. *)
Definition hunk_bytes (size : Z) : res Z :=
  if INT_MAX <? size + 15 then Fault (Undefined "signed overflow")
  else mret (s32 (u32 (sizeof_hunk + ((size + 15) & Z.lnot 15)))).

(** [strncpy (h->name, name, 8)]: cut or padded with zeros. *)
Definition name8 (name : bytes) : bytes := take 8 (name ++ repeat 0 8).

Fixpoint put_bytes (a : Z) (bs : bytes) (m : gmap Z Z) : gmap Z Z :=
  match bs with
  | [] => m
  | b :: bs => <[a := b]> (put_bytes (a + 1) bs m)
  end.

(** The clearing of a new block and its header.
    C: Source/zone.c:440-444 Hunk_AllocName *)
Definition new_block (h size : Z) (name : bytes) (m : gmap Z Z) : gmap Z Z :=
  put_bytes (h + 8) (name8 name)
    (put_int h HUNK_SENTINAL (put_int (h + 4) size (memset0 h (Z.to_nat size) m))).

(** C: Source/zone.c:419-447 Hunk_AllocName *)
Definition Hunk_AllocName (size : Z) (name : bytes) (st : memst) : res (Z * memst) :=
  if size <? 0 then Fault (Sys_Error "Hunk_Alloc: bad size: %i")
  else
    size ← hunk_bytes size;
    if hunk_size st - hunk_low_used st - hunk_high_used st <? size
    then Fault (Sys_Error "Not enough RAM allocated.")
    else
      let h := hunk_base st + hunk_low_used st in
      let st := set_hunk_low_used (hunk_low_used st + size) st in
      st ← Cache_FreeLow (hunk_low_used st) st;
      mret (h + sizeof_hunk, set_mem (new_block h size name (mem st)) st).

(** C: Source/zone.c:454-457 Hunk_Alloc *)
Definition Hunk_Alloc (size : Z) (st : memst) : res (Z * memst) :=
  Hunk_AllocName size (cs "unknown") st.

(** C: Source/zone.c:459-462 Hunk_LowMark *)
Definition Hunk_LowMark (st : memst) : Z := hunk_low_used st.

(** C: Source/zone.c:464-470 Hunk_FreeToLowMark *)
Definition Hunk_FreeToLowMark (mark : Z) (st : memst) : res memst :=
  if (mark <? 0) || (hunk_low_used st <? mark)
  then Fault (Sys_Error "Hunk_FreeToLowMark: bad mark %i")
  else
    let st := set_mem (memset0 (hunk_base st + mark) (Z.to_nat (hunk_low_used st - mark)) (mem st)) st in
    mret (set_hunk_low_used mark st).

(** The end of [Hunk_FreeToHighMark], which is all of it when no temporary block is active.
    C: Source/zone.c:490-493 Hunk_FreeToHighMark *)
Definition free_to_high (mark : Z) (st : memst) : res memst :=
  if (mark <? 0) || (hunk_high_used st <? mark)
  then Fault (Sys_Error "Hunk_FreeToHighMark: bad mark %i")
  else
    let st := set_mem (memset0 (hunk_base st + hunk_size st - hunk_high_used st)
                         (Z.to_nat (hunk_high_used st - mark)) (mem st)) st in
    mret (set_hunk_high_used mark st).

(** The flag is cleared before the recursive call, so that call is [free_to_high].
    C: Source/zone.c:483-494 Hunk_FreeToHighMark *)
Definition Hunk_FreeToHighMark (mark : Z) (st : memst) : res memst :=
  st ← (if hunk_tempactive st
        then free_to_high (hunk_tempmark st) (set_hunk_tempactive false st)
        else mret st);
  free_to_high mark st.

(** C: Source/zone.c:472-481 Hunk_HighMark *)
Definition Hunk_HighMark (st : memst) : res (Z * memst) :=
  st ← (if hunk_tempactive st
        then let st := set_hunk_tempactive false st in Hunk_FreeToHighMark (hunk_tempmark st) st
        else mret st);
  mret (hunk_high_used st, st).

(** C: Source/zone.c:501-534 Hunk_HighAllocName *)
Definition Hunk_HighAllocName (size : Z) (name : bytes) (st : memst) : res (Z * memst) :=
  if size <? 0 then Fault (Sys_Error "Hunk_HighAllocName: bad size: %i")
  else
    st ← (if hunk_tempactive st
          then st ← Hunk_FreeToHighMark (hunk_tempmark st) st; mret (set_hunk_tempactive false st)
          else mret st);
    size ← hunk_bytes size;
    if hunk_size st - hunk_low_used st - hunk_high_used st <? size
    then Fault (Sys_Error "Not enough RAM allocated.")
    else
      let st := set_hunk_high_used (hunk_high_used st + size) st in
      st ← Cache_FreeHigh (hunk_high_used st) st;
      let h := hunk_base st + hunk_size st - hunk_high_used st in
      mret (h + sizeof_hunk, set_mem (new_block h size name (mem st)) st).

(** C: Source/zone.c:543-562 Hunk_TempAlloc *)
Definition Hunk_TempAlloc (size : Z) (st : memst) : res (Z * memst) :=
  if INT_MAX <? size + 15 then Fault (Undefined "signed overflow")
  else
    let size := (size + 15) & Z.lnot 15 in
    st ← (if hunk_tempactive st
          then st ← Hunk_FreeToHighMark (hunk_tempmark st) st; mret (set_hunk_tempactive false st)
          else mret st);
    '(mark, st) ← Hunk_HighMark st;
    let st := set_hunk_tempmark mark st in
    '(buf, st) ← Hunk_HighAllocName size (cs "temp") st;
    mret (buf, set_hunk_tempactive true st).

(** C: Source/zone.c:912-927 Memory_Init *)
Definition Memory_Init (args : argstate) (buf size : Z) (st : memst) : res (zone * memst) :=
  let st := set_hunk_high_used 0 (set_hunk_low_used 0 (set_hunk_size size (set_hunk_base buf st))) in
  let st := Cache_Init st in
  let p := COM_CheckParm args (cs "-zone") in
  zonesize ← (if truth p && (p + 1 <? com_argc args)
              then arg ← of_option (Undefined "null argument") (COM_Argv args (p + 1));
                   mret (s32 (Q_atoi arg * 1024))
              else mret ZONE_DEFAULT_SIZE);
  '(mainzone, st) ← Hunk_AllocName zonesize (cs "zone") st;
  mret (Z_ClearZone (Zone mainzone 0 ∅ 0 (mem st)) zonesize, st).

(** * The two stacks *)

(** A run of blocks of the sizes [ns] from [a] to [e], their headers intact. *)
Fixpoint blocks (m : gmap Z Z) (a : Z) (ns : list Z) (e : Z) : Prop :=
  match ns with
  | [] => a = e
  | n :: ns => get_int a m = HUNK_SENTINAL /\ get_int (a + 4) m = n /\ 16 <= n /\ blocks m (a + n) ns e
  end.

Definition sum (ns : list Z) : Z := foldr Z.add 0 ns.

Lemma blocks_sum m ns : forall a e, blocks m a ns e -> e = a + sum ns /\ 0 <= sum ns.
Proof.
  unfold sum. induction ns as [|n ns IH]; intros a e H; cbn in *; [lia|].
  destruct H as (_ & _ & Hn & H). apply IH in H. lia.
Qed.

Lemma blocks_app m ns1 ns2 : forall a e,
  blocks m a (ns1 ++ ns2) e <-> blocks m a ns1 (a + sum ns1) /\ blocks m (a + sum ns1) ns2 e.
Proof.
  unfold sum. induction ns1 as [|n ns1 IH]; intros a e; cbn.
  - rewrite Z.add_0_r. split; [intros; by split|by intros [_ ?]].
  - rewrite IH. rewrite Z.add_assoc. tauto.
Qed.

Lemma get_int_frame a m m' :
  (forall i, a <= i < a + 4 -> m' !! i = m !! i) -> get_int a m' = get_int a m.
Proof. intros H. unfold get_int. by rewrite !H by lia. Qed.

Lemma blocks_frame m m' ns : forall a e,
  (forall i, a <= i < e -> m' !! i = m !! i) -> blocks m a ns e -> blocks m' a ns e.
Proof.
  induction ns as [|n ns IH]; intros a e Hf H; cbn in *; [done|]. destruct H as (H1 & H2 & H3 & H4).
  pose proof (blocks_sum _ _ _ _ H4) as [He Hs].
  rewrite !(get_int_frame _ m m') by (intros i Hi; apply Hf; lia). split_and!; try done.
  apply IH; [|done]. intros i Hi. apply Hf. lia.
Qed.

Lemma put_bytes_other bs : forall a m i,
  ~ (a <= i < a + zlen bs) -> put_bytes a bs m !! i = m !! i.
Proof.
  induction bs as [|b bs IH]; intros a m i Hi; cbn [put_bytes length] in *; [done|].
  rewrite lookup_insert_ne by lia. apply IH. lia.
Qed.

Lemma name8_length name : zlen (name8 name) = 8.
Proof. unfold name8. rewrite length_take, length_app, repeat_length. lia. Qed.

Lemma new_block_other h n name m i :
  16 <= n -> ~ (h <= i < h + n) -> new_block h n name m !! i = m !! i.
Proof.
  intros Hn Hi. unfold new_block. rewrite put_bytes_other by (rewrite name8_length; lia).
  rewrite !put_int_other by lia. rewrite memset0_spec. destruct (decide _); [lia|done].
Qed.

Lemma new_block_zero h n name m i :
  h + sizeof_hunk <= i < h + n -> new_block h n name m !! i = Some 0.
Proof.
  unfold sizeof_hunk. intros Hi. unfold new_block. rewrite put_bytes_other by (rewrite name8_length; lia).
  rewrite !put_int_other by lia. rewrite memset0_spec. destruct (decide _); [done|lia].
Qed.

Lemma new_block_header h n name m :
  16 <= n < 2147483648 -> blocks (new_block h n name m) h [n] (h + n).
Proof.
  intros Hn. cbn [blocks]. unfold new_block. set (m1 := put_int (h + 4) n _). set (m2 := put_int h _ m1).
  assert (forall a, a + 4 <= h + 8 -> get_int a (put_bytes (h + 8) (name8 name) m2) = get_int a m2) as Hb
    by (intros a Ha; apply get_int_frame; intros i Hi; apply put_bytes_other; rewrite name8_length; lia).
  rewrite !Hb by lia.
  split; [apply get_put_int; unfold HUNK_SENTINAL; lia|]. split; [|by split; [lia|done]].
  rewrite (get_int_frame (h + 4) m1) by (intros i Hi; apply put_int_other; lia).
  apply get_put_int. lia.
Qed.

(** * The invariant *)

(** [Lo]: the sizes of the blocks of the low stack, from the bottom; [Hi]: those of the high
    stack, from the last one allocated.  A temporary block is the top of the high stack. *)
Definition hunk_inv (st : memst) (Lo Hi L R : list Z) : Prop :=
  hunk_ok st /\ hunk_size st < 2147483648 /\ cache_inv st L R /\
  blocks (mem st) (hunk_base st) Lo (hunk_base st + hunk_low_used st) /\
  blocks (mem st) (hi_end st) Hi (hunk_base st + hunk_size st) /\
  (hunk_tempactive st = true -> exists H1 H2, Hi = H1 ++ H2 /\ sum H2 = hunk_tempmark st).

Lemma core_widen st L R lo hi lo' hi' :
  core st L R lo hi -> 0 < lo' -> lo' <= lo -> hi <= hi' -> ~ (lo' <= cache_head st < hi') ->
  core st L R lo' hi'.
Proof.
  intros (H0 & Hh & Ho & Hlad & Hrec & HR & Hlay) H1 H2 H3 H4. split_and!; try done.
  clear -Hlay H2 H3. revert lo lo' Hlay H2.
  induction L as [|a L IH]; intros lo lo' Hlay H2; cbn in *; [lia|].
  destruct Hlay as (Ha & s & Hs & Hs40 & Hlay). split; [lia|]. exists s. split_and!; try done.
  eapply IH; [exact Hlay|lia].
Qed.

(** A cached block's data is inside the cache. *)
Lemma data_in_range m L lo hi a s i :
  layout m lo L hi -> a ∈ L -> fget cs_size m a = Some s -> 0 <= i < s - sizeof_cache ->
  lo <= a + sizeof_cache + i < hi.
Proof.
  intros Hlay Ha Hs Hi. revert lo Hlay. induction L as [|b L IH]; intros lo Hlay; [by apply not_elem_of_nil in Ha|].
  destruct Hlay as (Hb & t & Ht & Ht40 & Hlay). unfold sizeof_cache in *. apply elem_of_cons in Ha as [->|Ha].
  - rewrite Ht in Hs. injection Hs as ->. apply layout_bounds in Hlay as [Hlay _]. lia.
  - specialize (IH Ha _ Hlay). lia.
Qed.

Lemma user_in_range st L R lo hi u s i :
  core st L R lo hi -> users_ok st L -> user_data st u <> 0 ->
  fget cs_size (cblocks st) (user_data st u - sizeof_cache) = Some s -> 0 <= i < s - sizeof_cache ->
  lo <= user_data st u + i < hi.
Proof.
  intros (_ & _ & _ & _ & _ & _ & Hlay) Hus Hu Hs Hi. destruct (proj2 Hus u Hu) as (a & Ha & E & _).
  rewrite E in *. eapply data_in_range; [done|done| |done]. rewrite <- Hs. f_equal. unfold sizeof_cache. lia.
Qed.

(** Other memory outside the cached blocks, after and before. *)
Lemma keeps_write st st1 L R lo hi mm :
  core st1 L R lo hi -> users_ok st1 L -> keeps st st1 ->
  (forall i, lo <= i < hi -> mm !! i = mem st1 !! i) -> keeps st (set_mem mm st1).
Proof.
  intros Hc Hus Hk Hm u Hu. destruct (Hk u Hu) as (Hu0 & s & Hs1 & Hs2 & Hd). split; [done|].
  exists s. split; [done|]. split; [done|]. intros i Hi. rewrite <- Hd by done. cbn [mem set_mem].
  change (user_data (set_mem mm st1) u) with (user_data st1 u) in *. f_equal. apply Hm.
  by eapply user_in_range.
Qed.

Lemma keeps_before st st1 st' L R lo hi :
  core st L R lo hi -> users_ok st L -> cblocks st1 = cblocks st -> cusers st1 = cusers st ->
  (forall i, lo <= i < hi -> mem st1 !! i = mem st !! i) -> keeps st1 st' -> keeps st st'.
Proof.
  intros Hc Hus Hcb Hcu Hm Hk u Hu. destruct (Hk u Hu) as (Hu0 & s & Hs1 & Hs2 & Hd).
  assert (user_data st1 u = user_data st u) as E by (unfold user_data; by rewrite Hcu).
  rewrite E, Hcb in *. split; [done|]. exists s. split; [done|]. split; [done|].
  intros i Hi. rewrite Hd by done. f_equal. apply Hm. by eapply user_in_range.
Qed.

Lemma hunk_bytes_ok size :
  0 <= size <= 2147483600 -> exists n, hunk_bytes size = Ok n /\ n = size + 31 - (size + 15) `mod` 16 /\
    size + 16 <= n <= size + 31.
Proof.
  intros H. unfold hunk_bytes, INT_MAX, sizeof_hunk. rewrite align16.
  pose proof (Z.mod_pos_bound (size + 15) 16 ltac:(lia)).
  case_if; [lia|]. rewrite u32_id, s32_id by lia. eexists. split; [done|]. lia.
Qed.

(** What an allocation of [n] bytes at [h] leaves of the rest: the block's bytes after the
    header are zero, nothing outside the free hunk changed, and cached data that is still
    there is the same. *)
Definition fresh_block (st st' : memst) (h n : Z) : Prop :=
  (forall i, h + sizeof_hunk <= i < h + n -> mem st' !! i = Some 0) /\
  mem_frame (hunk_base st + hunk_low_used st) (hi_end st) st st' /\ keeps st st'.

Lemma AllocName_ok st Lo Hs L R size name n :
  hunk_inv st Lo Hs L R -> 0 <= size -> hunk_bytes size = Ok n -> 16 <= n ->
  n <= hunk_size st - hunk_low_used st - hunk_high_used st ->
  exists st' L' R', Hunk_AllocName size name st = Ok (hunk_base st + hunk_low_used st + sizeof_hunk, st') /\
    hunk_inv st' (Lo ++ [n]) Hs L' R' /\
    same_hunk (set_hunk_low_used (hunk_low_used st + n) st) st' /\
    fresh_block st st' (hunk_base st + hunk_low_used st) n.
Proof.
  intros (Hok & Hsz & Hci & Hlo & Hhi & Htmp) H0 Hn H16 Hfit.
  unfold Hunk_AllocName. assert (size <? 0 = false) as -> by (apply Z.ltb_ge; lia). rewrite Hn, bind_Ok.
  assert (_ <? n = false) as -> by (apply Z.ltb_ge; exact Hfit). cbv zeta.
  pose proof Hok as (Hb & Hl & Hh & Hss & Hn0 & Ho).
  destruct (Cache_FreeLow_inv st L R (hunk_low_used st + n) Hci Hok) as (st1 & L' & R' & HF & Hci1 & Hk & Hsh & Hfr);
    [lia|lia|].
  change (hunk_low_used (set_hunk_low_used (hunk_low_used st + n) st)) with (hunk_low_used st + n).
  rewrite HF, bind_Ok. set (h := hunk_base st + hunk_low_used st) in *.
  eexists _, L', R'. split; [done|]. set (st' := set_mem _ st1).
  assert (hi_end st' = hi_end st) as Hend by exact (same_hunk_end _ _ Hsh).
  assert (hunk_base st' = hunk_base st /\ hunk_size st' = hunk_size st /\ hunk_low_used st' = hunk_low_used st + n /\
          hunk_high_used st' = hunk_high_used st /\ hunk_tempactive st' = hunk_tempactive st /\
          hunk_tempmark st' = hunk_tempmark st) as (Eb & Es & El & Eh & Et & Em)
    by (destruct Hsh as (_ & ? & ? & ? & ? & ? & ?); done).
  assert (forall i, ~ (h <= i < h + n) -> mem st' !! i = mem st1 !! i) as Hm
    by (intros i Hx; by apply new_block_other).
  assert (mem_frame h (hi_end st) st st') as Hfr'.
  { intros i Hx. rewrite Hm; [by apply Hfr|]. unfold h, hi_end in *. lia. }
  split; [|split; [exact Hsh|split; [|split; [exact Hfr'|]]]].
  - split; [|split; [lia|split; [exact Hci1|split; [|split]]]].
    + eapply (same_hunk_ok _ st1); [exact Hsh|]. unfold hunk_ok. cbn. lia.
    + rewrite Eb, El. apply blocks_app. pose proof (blocks_sum _ _ _ _ Hlo) as [Hsum _].
      replace (hunk_base st + sum Lo) with h by (unfold h; lia). replace (hunk_base st + (hunk_low_used st + n)) with (h + n) by (unfold h; lia). split.
      * eapply blocks_frame; [|exact Hlo]. intros i Hx. apply Hfr'. unfold h. lia.
      * apply new_block_header. lia.
    + rewrite Hend, Eb, Es. eapply blocks_frame; [|exact Hhi]. intros i Hx. apply Hfr'. unfold h, hi_end in *. lia.
    + rewrite Et, Em. exact Htmp.
  - intros i Hx. by apply new_block_zero.
  - destruct Hci1 as [Hc1 Hu1]. eapply keeps_write; [exact Hc1|exact Hu1|exact Hk|].
    intros i Hx. apply Hm. destruct Hsh as (_ & E1 & _ & E2 & _). rewrite E1, E2 in Hx. cbn in Hx. unfold h. lia.
Qed.

(** Giving the top of the high stack back, down to a mark at a block boundary. *)
Lemma free_to_high_ok st Lo H1 H2 L R :
  hunk_inv st Lo (H1 ++ H2) L R -> hunk_tempactive st = false ->
  exists st', free_to_high (sum H2) st = Ok st' /\ hunk_inv st' Lo H2 L R /\
    same_hunk (set_hunk_high_used (sum H2) st) st' /\
    (forall i, ~ (hi_end st <= i < hi_end st') -> mem st' !! i = mem st !! i) /\
    cblocks st' = cblocks st /\ cusers st' = cusers st.
Proof.
  intros (Hok & Hsz & [Hc Hus] & Hlo & Hhi & Htmp) Ht. pose proof Hok as (Hb & Hl & Hh & Hs & Hn0 & Ho).
  apply blocks_app in Hhi as [HB1 HB2]. pose proof (blocks_sum _ _ _ _ HB1) as [_ Hs1].
  pose proof (blocks_sum _ _ _ _ HB2) as [E2 Hs2].
  assert (hunk_high_used st = sum H1 + sum H2) as Hhu by (unfold hi_end in *; lia).
  unfold free_to_high. assert ((sum H2 <? 0) || (hunk_high_used st <? sum H2) = false) as -> by lia.
  eexists. split; [done|]. set (st' := set_hunk_high_used _ _).
  assert (hi_end st' = hi_end st + sum H1) as Hend by (unfold hi_end, st'; cbn; lia).
  assert (forall i, ~ (hi_end st <= i < hi_end st') -> mem st' !! i = mem st !! i) as Hm.
  { intros i Hi. unfold st'. cbn [mem set_hunk_high_used set_mem]. rewrite memset0_spec.
    destruct (decide _) as [Hd|]; [|done]. exfalso. apply Hi. rewrite Hend. unfold hi_end. lia. }
  split; [|done]. split; [unfold hunk_ok, st'; cbn; lia|]. split; [done|]. split; [|split; [|split]].
  - split; [|done]. eapply core_widen; [eapply core_same; [exact Hc|done|done]| | | |]; cbn; unfold hi_end in *; cbn; lia.
  - eapply blocks_frame; [|exact Hlo]. intros i Hi. apply Hm. unfold hi_end in *. cbn in *. lia.
  - eapply blocks_frame; [|rewrite Hend; exact HB2]. intros i Hi. apply Hm. lia.
  - cbn. rewrite Ht. done.
Qed.

(** The high stack without its temporary block. *)
Definition settled (st : memst) (Hs Hs0 : list Z) : Prop :=
  if hunk_tempactive st then exists H1, Hs = H1 ++ Hs0 /\ sum Hs0 = hunk_tempmark st else Hs0 = Hs.

(** Nothing but the temporary block is affected by dropping it. *)
Definition dropped (st st1 : memst) (Hs0 : list Z) : Prop :=
  same_hunk (set_hunk_tempactive false (set_hunk_high_used (sum Hs0) st)) st1 /\
  (forall i, ~ (hi_end st <= i < hi_end st1) -> mem st1 !! i = mem st !! i) /\
  cblocks st1 = cblocks st /\ cusers st1 = cusers st.

Lemma high_sum st Lo Hs L R : hunk_inv st Lo Hs L R -> hunk_high_used st = sum Hs.
Proof. intros (_ & _ & _ & _ & Hhi & _). apply blocks_sum in Hhi as [Hhi _]. unfold hi_end in Hhi. lia. Qed.

Lemma set_tempactive_id st : hunk_tempactive st = false -> set_hunk_tempactive false st = st.
Proof. destruct st. cbn. by intros ->. Qed.

Lemma drop_temp st Lo Hs L R :
  hunk_inv st Lo Hs L R -> exists st1 Hs0, settled st Hs Hs0 /\
    (if hunk_tempactive st then free_to_high (hunk_tempmark st) (set_hunk_tempactive false st)
     else mret st) = Ok st1 /\
    hunk_inv st1 Lo Hs0 L R /\ dropped st st1 Hs0.
Proof.
  intros Hinv. unfold settled. destruct (hunk_tempactive st) eqn:Ht.
  - pose proof Hinv as (H1 & H2 & H3 & H4 & H5 & H6). destruct (H6 Ht) as (T1 & T2 & -> & Hsum).
    destruct (free_to_high_ok (set_hunk_tempactive false st) Lo T1 T2 L R) as (st1 & HF & Hi1 & Hsh & Hm & Hcb & Hcu); [|done|].
    { split; [done|]. split; [done|]. split; [done|]. split; [done|]. split; [done|]. done. }
    rewrite <- Hsum. exists st1, T2. split; [by eauto|]. split; [done|]. split; [done|].
    split; [exact Hsh|]. by split.
  - exists st, Hs. split; [done|]. split; [done|]. split; [done|]. split; [|done].
    rewrite <- (high_sum _ _ _ _ _ Hinv). destruct st. cbn in *. subst. done.
Qed.

Lemma free_to_high_same st Lo Hs L R :
  hunk_inv st Lo Hs L R -> free_to_high (hunk_high_used st) st = Ok st.
Proof.
  intros ((_ & _ & Hh & _) & _). unfold free_to_high.
  assert ((hunk_high_used st <? 0) || (hunk_high_used st <? hunk_high_used st) = false) as -> by lia.
  replace (hunk_high_used st - hunk_high_used st) with 0 by lia. by destruct st.
Qed.

(** The same as the guards of [Hunk_HighAllocName] and [Hunk_TempAlloc] write it. *)
Lemma drop_temp_alloc st Lo Hs L R :
  hunk_inv st Lo Hs L R -> exists st1 Hs0, settled st Hs Hs0 /\
    (if hunk_tempactive st
     then st ← Hunk_FreeToHighMark (hunk_tempmark st) st; mret (set_hunk_tempactive false st)
     else mret st) = Ok st1 /\
    hunk_inv st1 Lo Hs0 L R /\ dropped st st1 Hs0 /\ hunk_tempactive st1 = false.
Proof.
  intros Hinv. destruct (drop_temp st Lo Hs L R Hinv) as (st1 & Hs0 & Hset & HF & Hi1 & Hd).
  exists st1, Hs0. split; [done|]. assert (hunk_tempactive st1 = false) as Ht1.
  { destruct Hd as ((_ & _ & _ & _ & _ & E & _) & _). exact E. }
  split; [|done]. unfold Hunk_FreeToHighMark. destruct (hunk_tempactive st) eqn:Ht; [|exact HF].
  rewrite HF, bind_Ok. assert (hunk_tempmark st = hunk_high_used st1) as ->.
  { unfold settled in Hset. rewrite Ht in Hset. destruct Hset as (_ & _ & <-). symmetry. by eapply high_sum. }
  rewrite (free_to_high_same _ _ _ _ _ Hi1), bind_Ok. by rewrite set_tempactive_id.
Qed.

Lemma HighAlloc_ok st Lo Hs L R n name :
  hunk_inv st Lo Hs L R -> hunk_tempactive st = false -> 16 <= n ->
  n <= hunk_size st - hunk_low_used st - hunk_high_used st ->
  exists st' L' R',
    (let st := set_hunk_high_used (hunk_high_used st + n) st in
     st ← Cache_FreeHigh (hunk_high_used st) st;
     let h := hunk_base st + hunk_size st - hunk_high_used st in
     mret (h + sizeof_hunk, set_mem (new_block h n name (mem st)) st)) =
      Ok (hi_end st - n + sizeof_hunk, st') /\
    hunk_inv st' Lo (n :: Hs) L' R' /\
    same_hunk (set_hunk_high_used (hunk_high_used st + n) st) st' /\
    fresh_block st st' (hi_end st - n) n.
Proof.
  intros (Hok & Hsz & Hci & Hlo & Hhi & Htmp) Ht H16 Hfit. cbv zeta.
  pose proof Hok as (Hb & Hl & Hh & Hss & Hn0 & Ho).
  destruct (Cache_FreeHigh_inv st L R (hunk_high_used st + n) Hci Hok) as (st1 & L' & R' & HF & Hci1 & Hk & Hsh & Hfr);
    [lia|lia|].
  change (hunk_high_used (set_hunk_high_used (hunk_high_used st + n) st)) with (hunk_high_used st + n).
  rewrite HF, bind_Ok. fold (hi_end st1). set (h := hi_end st - n) in *.
  assert (hi_end st1 = h) as Hend.
  { rewrite (same_hunk_end _ _ Hsh). unfold h, hi_end. cbn. lia. }
  rewrite Hend. eexists _, L', R'. split; [done|]. set (st' := set_mem _ st1).
  assert (hunk_base st' = hunk_base st /\ hunk_size st' = hunk_size st /\ hunk_low_used st' = hunk_low_used st /\
          hunk_tempactive st' = hunk_tempactive st) as (Eb & Es & El & Et)
    by (destruct Hsh as (_ & ? & ? & ? & ? & ? & ?); done).
  assert (forall i, ~ (h <= i < h + n) -> mem st' !! i = mem st1 !! i) as Hm
    by (intros i Hx; by apply new_block_other).
  assert (mem_frame (hunk_base st + hunk_low_used st) (hi_end st) st st') as Hfr'.
  { intros i Hx. rewrite Hm; [by apply Hfr|]. unfold h, hi_end in *. lia. }
  split; [|split; [exact Hsh|split; [|split; [exact Hfr'|]]]].
  - split; [|split; [lia|split; [exact Hci1|split; [|split]]]].
    + eapply (same_hunk_ok _ st1); [exact Hsh|]. unfold hunk_ok. cbn. lia.
    + rewrite Eb, El. eapply blocks_frame; [|exact Hlo]. intros i Hx. apply Hfr'. lia.
    + change (hi_end st') with (hi_end st1). rewrite Hend, Eb, Es.
      change (n :: Hs) with ([n] ++ Hs). apply blocks_app. unfold sum at 1 2. cbn [foldr]. rewrite Z.add_0_r.
      split; [apply new_block_header; lia|]. replace (h + n) with (hi_end st) by (unfold h; lia).
      eapply blocks_frame; [|exact Hhi]. intros i Hx. apply Hfr'. unfold h, hi_end in *. lia.
    + rewrite Et, Ht. done.
  - intros i Hx. by apply new_block_zero.
  - destruct Hci1 as [Hc1 Hu1]. eapply keeps_write; [exact Hc1|exact Hu1|exact Hk|].
    intros i Hx. apply Hm. rewrite Hend in Hx. lia.
Qed.

Lemma FreeToLowMark_ok st Lo1 Lo2 Hs L R :
  hunk_inv st (Lo1 ++ Lo2) Hs L R ->
  exists st', Hunk_FreeToLowMark (sum Lo1) st = Ok st' /\ hunk_inv st' Lo1 Hs L R /\
    same_hunk (set_hunk_low_used (sum Lo1) st) st' /\
    (forall i, mem st' !! i = if decide (hunk_base st + sum Lo1 <= i < hunk_base st + hunk_low_used st)
                              then Some 0 else mem st !! i) /\
    cblocks st' = cblocks st /\ cusers st' = cusers st.
Proof.
  intros (Hok & Hsz & [Hc Hus] & Hlo & Hhi & Htmp). pose proof Hok as (Hb & Hl & Hh & Hss & Hn0 & Ho).
  apply blocks_app in Hlo as [HB1 HB2]. pose proof (blocks_sum _ _ _ _ HB1) as [_ Hs1].
  pose proof (blocks_sum _ _ _ _ HB2) as [E2 Hs2].
  unfold Hunk_FreeToLowMark. assert ((sum Lo1 <? 0) || (hunk_low_used st <? sum Lo1) = false) as -> by lia.
  eexists. split; [done|]. set (st' := set_hunk_low_used _ _).
  assert (forall i, mem st' !! i = if decide (hunk_base st + sum Lo1 <= i < hunk_base st + hunk_low_used st)
                              then Some 0 else mem st !! i) as Hm.
  { intros i. unfold st'. cbn [mem set_hunk_low_used set_mem]. rewrite memset0_spec.
    destruct (decide _), (decide _); try done; lia. }
  split; [|done]. split; [unfold hunk_ok, st'; cbn; lia|]. split; [done|]. split; [|split; [|split]].
  - split; [|done]. eapply core_widen; [eapply core_same; [exact Hc|done|done]| | | |]; cbn; unfold hi_end in *; cbn; lia.
  - eapply blocks_frame; [|exact HB1]. intros i Hx. change (hunk_base st <= i < hunk_base st + sum Lo1) in Hx. rewrite Hm. destruct (decide _); [lia|done].
  - eapply blocks_frame; [|exact Hhi]. intros i Hx. change (hi_end st <= i < hunk_base st + hunk_size st) in Hx. rewrite Hm. unfold hi_end in *. destruct (decide _); [lia|done].
  - exact Htmp.
Qed.

(** A run of allocations from the low end. *)
Fixpoint alloc_all (reqs : list (Z * bytes)) (st : memst) : res memst :=
  match reqs with
  | [] => mret st
  | (size, name) :: reqs => '(_, st) ← Hunk_AllocName size name st; alloc_all reqs st
  end.

Lemma AllocName_inv st Lo Hs L R size name p st' :
  hunk_inv st Lo Hs L R -> size <= 2147483600 -> Hunk_AllocName size name st = Ok (p, st') ->
  exists n L' R', hunk_inv st' (Lo ++ [n]) Hs L' R' /\
    same_hunk (set_hunk_low_used (hunk_low_used st + n) st) st' /\
    fresh_block st st' (hunk_base st + hunk_low_used st) n /\ p = hunk_base st + hunk_low_used st + sizeof_hunk /\
    16 <= n /\ n <= hunk_size st - hunk_low_used st - hunk_high_used st.
Proof.
  intros Hinv Hsize HA. assert (0 <= size) as H0.
  { unfold Hunk_AllocName in HA. destruct (Z.ltb_spec size 0); [discriminate HA|lia]. }
  destruct (hunk_bytes_ok size) as (n & Hn & _ & Hb); [lia|].
  assert (n <= hunk_size st - hunk_low_used st - hunk_high_used st) as Hfit.
  { unfold Hunk_AllocName in HA. destruct (Z.ltb_spec size 0); [discriminate HA|]. rewrite Hn, bind_Ok in HA.
    destruct (Z.ltb_spec (hunk_size st - hunk_low_used st - hunk_high_used st) n); [discriminate HA|lia]. }
  destruct (AllocName_ok st Lo Hs L R size name n Hinv H0 Hn ltac:(lia) Hfit) as (st2 & L' & R' & HA' & H1 & H2 & H3).
  rewrite HA' in HA. injection HA as <- <-. exists n, L', R'. split_and!; try done; try lia; apply H2 || apply H3.
Qed.

Lemma mem_frame_widen lo hi lo' hi' st st' :
  mem_frame lo hi st st' -> lo' <= lo -> hi <= hi' -> mem_frame lo' hi' st st'.
Proof. intros H H1 H2 i Hi. apply H. lia. Qed.

Lemma alloc_all_inv reqs : forall st Lo Hs L R st',
  hunk_inv st Lo Hs L R -> Forall (fun r => r.1 <= 2147483600) reqs -> alloc_all reqs st = Ok st' ->
  exists ns L' R', length ns = length reqs /\ hunk_inv st' (Lo ++ ns) Hs L' R' /\
    hunk_base st' = hunk_base st /\ hi_end st' = hi_end st /\
    mem_frame (hunk_base st + hunk_low_used st) (hi_end st) st st' /\ keeps st st'.
Proof.
  induction reqs as [|[size name] reqs IH]; intros st Lo Hs L R st' Hinv Hr HA; cbn in HA.
  { injection HA as <-. exists [], L, R. rewrite app_nil_r. split; [done|]. do 3 (split; [done|]).
    split; [by apply mem_frame_refl|]. destruct Hinv as (_ & _ & [Hc Hu] & _).
    eapply keeps_refl; [exact Hu|apply Hc]. }
  apply Forall_cons in Hr as [H1 Hr]. destruct (Hunk_AllocName size name st) as [[p st1]|f] eqn:E; [|discriminate HA].
  destruct (AllocName_inv _ _ _ _ _ _ _ _ _ Hinv H1 E) as (n & L1 & R1 & Hi1 & Hsh & (_ & Hfr & Hk) & _ & Hn & _).
  destruct (IH st1 _ _ _ _ st' Hi1 Hr HA) as (ns & L2 & R2 & Hl & Hi2 & Eb & Ee & Hfr2 & Hk2).
  pose proof (same_hunk_end _ _ Hsh) as Ee1. change (hi_end _) with (hi_end st) in Ee1 at 2.
  destruct Hsh as (_ & Eb1 & _ & El1 & _). cbn in Eb1, El1.
  exists (n :: ns), L2, R2. rewrite <- app_assoc in Hi2. split; [cbn; lia|]. split; [done|].
  split; [congruence|]. split; [congruence|]. split; [|by eapply keeps_trans].
  eapply mem_frame_trans; [exact Hfr|]. eapply mem_frame_widen; [exact Hfr2|lia|lia].
Qed.

(** * Theorems *)

(** C9: [Hunk_AllocName] in a well-formed hunk of less than 2 GB, for requests of 0 to
    2,147,483,600 bytes.  The size is rounded up to 16 bytes and a header of 16 is added.  If that
    is no more than what is left between the two stacks, the call returns the old top of the low
    stack plus the header: the block is the new top of the low stack with an intact header, its
    data all zero; both stacks keep their blocks and headers, no byte outside the part
    between the stacks changes, and data that is still cached is undamaged.  Otherwise
    the call ends in [Sys_Error]. *)
Theorem Hunk_AllocName_spec st Lo Hs L R size name :
  hunk_inv st Lo Hs L R -> 0 <= size <= 2147483600 ->
  exists n, n = size + 31 - (size + 15) `mod` 16 /\
  if n <=? hunk_size st - hunk_low_used st - hunk_high_used st
  then exists st' L' R',
    Hunk_AllocName size name st = Ok (hunk_base st + hunk_low_used st + sizeof_hunk, st') /\
    hunk_inv st' (Lo ++ [n]) Hs L' R' /\
    same_hunk (set_hunk_low_used (hunk_low_used st + n) st) st' /\
    fresh_block st st' (hunk_base st + hunk_low_used st) n
  else exists msg, Hunk_AllocName size name st = Fault (Sys_Error msg).
Proof.
  intros Hinv Hsize. destruct (hunk_bytes_ok size Hsize) as (n & Hn & En & Hb). exists n. split; [done|].
  case_if; [apply (AllocName_ok st Lo Hs L R size name n Hinv); [lia|done|lia|done]|].
  unfold Hunk_AllocName. assert (size <? 0 = false) as -> by lia. rewrite Hn, bind_Ok. case_if; [by eexists|lia].
Qed.

(** An empty hunk of 1024 bytes at 4096. *)
Definition demo_hunk : memst := Cache_Init (MemSt 64 4096 1024 0 0 false 0 ∅ ∅ ∅).

Lemma demo_hunk_inv : hunk_inv demo_hunk [] [] [] [].
Proof.
  split; [unfold hunk_ok; cbn; lia|]. split; [cbn; lia|]. split; [|done].
  apply Cache_Init_inv; [unfold hunk_ok; cbn; lia|]. done.
Qed.

Lemma Hunk_AllocName_spec_witness :
  exists st' L' R', Hunk_AllocName 100 (cs "player") demo_hunk = Ok (4112, st') /\
    hunk_inv st' [128] [] L' R'.
Proof.
  destruct (Hunk_AllocName_spec demo_hunk [] [] [] [] 100 (cs "player") demo_hunk_inv ltac:(lia)) as (n & -> & H).
  destruct H as (st' & L' & R' & H1 & H2 & _). exists st', L', R'. by split.
Defined.

(** C18: Releasing the low stack.  A mark taken by [Hunk_LowMark], then any run of allocations
    that succeeds, then [Hunk_FreeToLowMark] with the mark: the call succeeds, the low stack
    and the high stack are what they were at the mark, the memory below the mark and in the
    high stack is untouched, the released bytes are zero, and data still cached is intact. *)
Theorem Hunk_mark_release st Lo Hs L R reqs st1 :
  hunk_inv st Lo Hs L R -> Forall (fun r => r.1 <= 2147483600) reqs -> alloc_all reqs st = Ok st1 ->
  exists st2 L' R', Hunk_FreeToLowMark (Hunk_LowMark st) st1 = Ok st2 /\ hunk_inv st2 Lo Hs L' R' /\
    hunk_low_used st2 = hunk_low_used st /\
    mem_frame (hunk_base st + hunk_low_used st) (hi_end st) st st2 /\
    (forall i, hunk_base st + hunk_low_used st <= i < hunk_base st + hunk_low_used st1 -> mem st2 !! i = Some 0) /\
    keeps st st2.
Proof.
  intros Hinv Hr HA. destruct (alloc_all_inv _ _ _ _ _ _ _ Hinv Hr HA) as (ns & L' & R' & _ & Hi1 & Eb & Ee & Hfr & Hk).
  assert (Hunk_LowMark st = sum Lo) as ->.
  { destruct Hinv as (_ & _ & _ & Hlo & _). apply blocks_sum in Hlo as [Hlo _]. unfold Hunk_LowMark. lia. }
  assert (hunk_low_used st = sum Lo) as Hls.
  { destruct Hinv as (_ & _ & _ & Hlo & _). apply blocks_sum in Hlo as [Hlo _]. lia. }
  destruct (FreeToLowMark_ok _ _ _ _ _ _ Hi1) as (st2 & HF & Hi2 & Hsh & Hm & Hcb & Hcu).
  rewrite Eb, <- Hls in Hm. exists st2, L', R'. split; [done|]. split; [done|].
  destruct Hsh as (_ & _ & _ & El & _). split; [rewrite El; done|]. pose proof Hi1 as (Hok1 & _ & [Hc1 Hu1] & _).
  assert (hunk_base st + hunk_low_used st1 <= hi_end st1) as Hle by (unfold hunk_ok, hi_end in *; lia).
  split; [|split].
  - intros i Hi. rewrite Hm. destruct (decide _); [lia|]. by apply Hfr.
  - intros i Hi. rewrite Hm. by destruct (decide _).
  - intros u Hu. assert (user_data st2 u = user_data st1 u) as Eu by (unfold user_data; by rewrite Hcu).
    rewrite Eu in *. destruct (Hk u Hu) as (Hu0 & s & Hs1 & Hs2 & Hd). split; [done|]. exists s. rewrite Hcb.
    split; [done|]. split; [done|]. intros i Hi. rewrite <- Hd by done. f_equal. rewrite Hm.
    pose proof (user_in_range _ _ _ _ _ _ _ _ Hc1 Hu1 Hu Hs1 Hi). rewrite Eb in *. by rewrite decide_False by lia.
Qed.

Lemma Hunk_mark_release_witness :
  exists st2 L' R', (st1 ← alloc_all [(100, cs "a"); (50, cs "b")] demo_hunk;
                     Hunk_FreeToLowMark (Hunk_LowMark demo_hunk) st1) = Ok st2 /\ hunk_inv st2 [] [] L' R'.
Proof.
  destruct (alloc_all [(100, cs "a"); (50, cs "b")] demo_hunk) as [st1|f] eqn:E; [|vm_compute in E; discriminate E].
  destruct (Hunk_mark_release demo_hunk [] [] [] [] [(100, cs "a"); (50, cs "b")] st1 demo_hunk_inv)
    as (st2 & L' & R' & H1 & H2 & _); [repeat constructor; cbn; lia|exact E|].
  exists st2, L', R'. by split.
Defined.

Lemma Check_loop_ok st Lo : forall h fuel,
  blocks (mem st) h Lo (hunk_base st + hunk_low_used st) -> (length Lo < fuel)%nat ->
  hunk_low_used st <= hunk_size st ->
  Hunk_Check_loop fuel h st = Ok tt.
Proof.
  induction Lo as [|n Lo IH]; intros h fuel Hb Hf Hs; (destruct fuel as [|fuel]; [lia|]); cbn [Hunk_Check_loop].
  { cbn in Hb. subst h. by rewrite Z.eqb_refl. }
  destruct Hb as (H1 & H2 & H3 & H4). pose proof (blocks_sum _ _ _ _ H4) as [He Hn].
  assert (h =? hunk_base st + hunk_low_used st = false) as -> by lia.
  rewrite H1, H2, Z.eqb_refl. cbn [negb].
  assert ((n <? 16) || (hunk_size st <? n + h - hunk_base st) = false) as -> by lia.
  apply IH; [done|cbn in Hf; lia|done].
Qed.

Lemma Check_loop_trashed st Lo : forall h fuel,
  blocks (mem st) h Lo (h + sum Lo) -> (length Lo < fuel)%nat ->
  h + sum Lo < hunk_base st + hunk_low_used st -> hunk_low_used st <= hunk_size st ->
  get_int (h + sum Lo) (mem st) <> HUNK_SENTINAL ->
  Hunk_Check_loop fuel h st = Fault (Sys_Error "Hunk_Check: trashed sentinal").
Proof.
  unfold sum. induction Lo as [|n Lo IH]; intros h fuel Hb Hf Hlt Hs Ht;
    (destruct fuel as [|fuel]; [lia|]); cbn [Hunk_Check_loop foldr] in *.
  { rewrite Z.add_0_r in *. assert (h =? hunk_base st + hunk_low_used st = false) as -> by lia.
    apply Z.eqb_neq in Ht. by rewrite Ht. }
  destruct Hb as (H1 & H2 & H3 & H4). pose proof (blocks_sum _ _ _ _ H4) as [He Hn]. unfold sum in *.
  assert (h =? hunk_base st + hunk_low_used st = false) as -> by lia.
  rewrite H1, H2, Z.eqb_refl. cbn [negb].
  assert ((n <? 16) || (hunk_size st <? n + h - hunk_base st) = false) as -> by lia.
  rewrite Z.add_assoc in H4, Hlt, Ht. apply IH; try done. cbn in Hf. lia.
Qed.

Lemma blocks_count m ns : forall a e, blocks m a ns e -> 16 * zlen ns <= e - a.
Proof.
  induction ns as [|n ns IH]; intros a e H; cbn [blocks length] in *; [lia|].
  destruct H as (_ & _ & Hn & H). apply IH in H. lia.
Qed.

(** [Hunk_Check] is a sound and terminating test of the low stack: it passes whenever the
    headers are as the allocator left them, and as soon as some block's sentinel word has
    been overwritten (the headers below it being intact) it reports that. *)
Theorem Hunk_Check_spec st Lo Hs L R :
  hunk_inv st Lo Hs L R -> Hunk_Check st = Ok tt /\
  forall Lo1 n Lo2 mm, Lo = Lo1 ++ n :: Lo2 ->
    (forall i, i < hunk_base st + sum Lo1 -> mm !! i = mem st !! i) ->
    get_int (hunk_base st + sum Lo1) mm <> HUNK_SENTINAL ->
    Hunk_Check (set_mem mm st) = Fault (Sys_Error "Hunk_Check: trashed sentinal").
Proof.
  intros ((Hb & Hl & Hh & Hss & _) & _ & _ & Hlo & _). pose proof (blocks_count _ _ _ _ Hlo) as Hcnt.
  assert (length Lo < S (S (Z.to_nat (hunk_size st / 16))))%nat as Hf.
  { pose proof (Z.div_le_mono (16 * zlen Lo) (hunk_size st) 16 ltac:(lia) ltac:(lia)) as Hd.
    rewrite Z.mul_comm, Z.div_mul in Hd by lia. lia. }
  split; [by apply (Check_loop_ok st Lo); [|done|lia]|].
  intros Lo1 n Lo2 mm -> Hm Ht. pose proof Hlo as Hlo'. apply blocks_app in Hlo as [HB1 HB2].
  destruct HB2 as (_ & _ & Hn & HB2). apply blocks_sum in HB2 as [E2 Hs2]. rewrite length_app in Hf.
  apply (Check_loop_trashed (set_mem mm st) Lo1); [|cbn; lia|cbn; lia|cbn; lia|exact Ht].
  eapply blocks_frame; [|exact HB1]. intros i Hi.
  change (hunk_base st <= i < hunk_base st + sum Lo1) in Hi. apply Hm. lia.
Qed.

Lemma Hunk_Check_spec_witness : Hunk_Check demo_hunk = Ok tt.
Proof. exact (proj1 (Hunk_Check_spec demo_hunk [] [] [] [] demo_hunk_inv)). Defined.

(** [Hunk_TempAlloc] gives at most one temporary block: the previous one, if still active,
    is dropped first, so the high stack is the permanent blocks with the new block on top,
    and the mark remembers exactly the permanent part.  The block is zeroed, permanent
    blocks, the low stack and cached data survive; when it does not fit the call ends in
    [Sys_Error]. *)
Theorem Hunk_TempAlloc_spec st Lo Hs L R size :
  hunk_inv st Lo Hs L R -> 0 <= size <= 2147483500 ->
  exists n Hs0, n = size + 31 - (size + 15) `mod` 16 /\ settled st Hs Hs0 /\
  if n <=? hunk_size st - hunk_low_used st - sum Hs0
  then exists st' L' R', let h := hunk_base st + hunk_size st - sum Hs0 - n in
    Hunk_TempAlloc size st = Ok (h + sizeof_hunk, st') /\ hunk_inv st' Lo (n :: Hs0) L' R' /\
    hunk_tempactive st' = true /\ hunk_tempmark st' = sum Hs0 /\ hunk_low_used st' = hunk_low_used st /\
    (forall i, h + sizeof_hunk <= i < h + n -> mem st' !! i = Some 0) /\
    (forall i, ~ (hunk_base st + hunk_low_used st <= i < h + n) -> mem st' !! i = mem st !! i) /\ keeps st st'
  else exists msg, Hunk_TempAlloc size st = Fault (Sys_Error msg).
Proof.
  intros Hinv Hsize. pose proof (Z.mod_pos_bound (size + 15) 16 ltac:(lia)) as Hmod.
  set (size' := size + 15 - (size + 15) `mod` 16).
  assert (size' `mod` 16 = 0) as Hm16.
  { unfold size'. replace (size + 15 - (size + 15) `mod` 16) with ((size + 15) / 16 * 16)
      by (pose proof (Z.div_mod (size + 15) 16 ltac:(lia)); lia). apply Z_mod_mult. }
  destruct (hunk_bytes_ok size') as (n & Hn & En & Hb); [unfold size'; lia|].
  assert (n = size' + 16) as En'.
  { assert ((size' + 15) `mod` 16 = 15) as E15 by (rewrite Z.add_mod, Hm16 by lia; reflexivity). lia. }
  destruct (drop_temp_alloc st Lo Hs L R Hinv) as (st1 & Hs0 & Hset & HD & Hi1 & Hdr & Ht1).
  exists n, Hs0. split; [unfold size' in *; lia|]. split; [done|].
  unfold Hunk_TempAlloc. assert (INT_MAX <? size + 15 = false) as -> by (unfold INT_MAX; lia).
  rewrite align16. fold size'. cbv zeta. rewrite HD, bind_Ok. unfold Hunk_HighMark. rewrite Ht1, !bind_Ok.
  pose proof (high_sum _ _ _ _ _ Hi1) as Hh1. rewrite Hh1.
  set (st2 := set_hunk_tempmark (sum Hs0) st1).
  assert (hunk_inv st2 Lo Hs0 L R) as Hi2.
  { destruct Hi1 as (A & B & C & D & E & F). split; [done|]. do 4 (split; [done|]). intros Hx.
    change (hunk_tempactive st1 = true) in Hx. congruence. }
  unfold Hunk_HighAllocName. assert (size' <? 0 = false) as -> by (unfold size' in *; lia).
  change (hunk_tempactive st2) with (hunk_tempactive st1). rewrite Ht1, bind_Ok, Hn, bind_Ok.
  destruct Hdr as ((_ & Eb & Es & El & Eh & _) & Hm & Hcb & Hcu). cbn in Eb, Es, El, Eh.
  change (hunk_size st2 - hunk_low_used st2 - hunk_high_used st2) with (hunk_size st1 - hunk_low_used st1 - hunk_high_used st1).
  rewrite Es, El, Hh1. rewrite Z.ltb_antisym.
  destruct (n <=? hunk_size st - hunk_low_used st - sum Hs0) eqn:Efit; cbn [negb]; [|by eexists].
  destruct (HighAlloc_ok st2 Lo Hs0 L R n (cs "temp") Hi2 Ht1) as (st3 & L' & R' & HA & Hi3 & Hsh & (Hz & Hfr & Hk));
    [lia|cbn; lia|].
  cbv zeta in HA. rewrite HA, bind_Ok.
  assert (hi_end st2 - n = hunk_base st + hunk_size st - sum Hs0 - n) as Hh by (unfold hi_end, st2; cbn; lia).
  rewrite Hh in *. destruct Hsh as (_ & Eb3 & Es3 & El3 & Eh3 & Et3 & Em3). cbn in Eb3, Es3, El3, Eh3, Et3, Em3.
  exists (set_hunk_tempactive true st3), L', R'. split; [done|].
  split. { destruct Hi3 as (A & B & C & D & E & F). split; [done|]. do 4 (split; [done|]). intros _.
    exists [n], Hs0. split; [done|]. cbn. congruence. }
  split; [done|]. split; [cbn; congruence|]. split; [cbn; congruence|]. split; [exact Hz|].
  destruct Hinv as (Hok & _ & [Hc Hus] & _ & Hhi & _). pose proof Hok as (_ & _ & _ & Hss & _).
  pose proof (blocks_sum _ _ _ _ Hhi) as [_ Hsp].
  assert (hi_end st1 = hunk_base st + hunk_size st - sum Hs0) as He1 by (unfold hi_end; lia).
  assert (forall i, i < hi_end st -> mem st1 !! i = mem st !! i) as Hlow by (intros i Hi; apply Hm; lia).
  destruct Hi1 as ((_ & Hl1 & Hh1' & Hs1' & _) & _). split.
  - intros i Hi. change (mem (set_hunk_tempactive true st3) !! i) with (mem st3 !! i).
    rewrite Hfr; [apply Hm|]; unfold hi_end, st2 in *; cbn in *; lia.
  - eapply (keeps_before st st2); [exact Hc|exact Hus|done|done| |exact Hk]. intros i Hi. apply Hlow. lia.
Qed.

Lemma Hunk_TempAlloc_spec_witness :
  exists st' L' R', Hunk_TempAlloc 100 demo_hunk = Ok (5008, st') /\ hunk_inv st' [] [128] L' R' /\
    hunk_tempmark st' = 0.
Proof.
  destruct (Hunk_TempAlloc_spec demo_hunk [] [] [] [] 100 demo_hunk_inv ltac:(lia)) as (n & Hs0 & -> & E & H).
  cbn in E. subst Hs0. destruct H as (st' & L' & R' & H1 & H2 & _ & H4 & _). exists st', L', R'. by split.
Defined.

(** Without users there are no blocks. *)
Lemma no_users_empty st st' Lo Hs L R :
  hunk_inv st' Lo Hs L R -> keeps st st' -> (forall u, user_data st u = 0) -> L = [] /\ R = [].
Proof.
  intros (_ & _ & [Hc Hus] & _) Hk Hu. pose proof Hc as (H0 & _ & _ & _ & _ & HR & Hlay). destruct L as [|a L].
  - split; [done|]. symmetry in HR. by apply Permutation_nil in HR.
  - exfalso. destruct (proj1 Hus a ltac:(by left)) as (u & _ & Hd). destruct Hlay as (Ha & _).
    destruct (Hk u) as [Hk' _]; [unfold sizeof_cache in *; lia|]. by apply Hk'.
Qed.

(** [Memory_Init] sets up the three allocators in a fresh hunk: with the zone of the
    default or the requested size in it as the only block, the low stack holds exactly that
    block, the high stack and the cache are empty, and the zone is one free block inside
    it. *)
Theorem Memory_Init_spec args buf size st n :
  0 < buf -> size < 2147483648 -> cache_head st <> 0 -> ~ (buf <= cache_head st < buf + size) ->
  (forall u, user_data st u = 0) -> hunk_tempactive st = false ->
  truth (COM_CheckParm args (cs "-zone")) = false -> hunk_bytes ZONE_DEFAULT_SIZE = Ok n -> n <= size ->
  exists z st', Memory_Init args buf size st = Ok (z, st') /\ hunk_inv st' [n] [] [] [] /\
    zone_inv z [Blk (zaddr z + sizeof_memzone) (ZONE_DEFAULT_SIZE - sizeof_memzone) 0]
               (zaddr z + ZONE_DEFAULT_SIZE) /\
    zaddr z = buf + sizeof_hunk /\ zaddr z + ZONE_DEFAULT_SIZE <= hunk_base st' + hunk_low_used st'.
Proof.
  intros Hb Hs Hc Ho Hu Ht Hz Hn Hfit. unfold Memory_Init.
  set (st0 := set_hunk_high_used 0 (set_hunk_low_used 0 (set_hunk_size size (set_hunk_base buf st)))).
  assert (n = 1048592) as -> by (vm_compute in Hn; congruence).
  assert (hunk_ok (Cache_Init st0)) as Hok by (unfold hunk_ok; cbn; lia).
  assert (hunk_inv (Cache_Init st0) [] [] [] []) as Hinv.
  { split; [done|]. split; [done|]. split; [by apply Cache_Init_inv|]. split; [cbn; lia|].
    split; [unfold hi_end; cbn; lia|]. intros H. change (hunk_tempactive st = true) in H. congruence. }
  cbv zeta. rewrite Hz. cbn [andb]. rewrite bind_Ok.
  destruct (AllocName_ok (Cache_Init st0) [] [] [] [] ZONE_DEFAULT_SIZE (cs "zone") _ Hinv ltac:(done) Hn)
    as (st' & L' & R' & HA & Hi' & Hsh & _ & _ & Hk); [lia|cbn; lia|].
  rewrite HA, bind_Ok. eexists _, st'. split; [done|].
  assert (L' = [] /\ R' = []) as [-> ->] by by eapply no_users_empty.
  split; [done|]. split; [|split].
  - apply (Z_ClearZone_inv (Zone (buf + 0 + sizeof_hunk) 0 ∅ 0 (mem st'))); unfold sizeof_memzone, sizeof_memblock, ZONE_DEFAULT_SIZE, INT_MAX, sizeof_hunk; cbn; lia.
  - cbn. lia.
  - destruct Hsh as (_ & Eb & _ & El & _). rewrite Eb, El. cbn. unfold ZONE_DEFAULT_SIZE, sizeof_hunk. lia.
Qed.

Lemma Memory_Init_spec_witness :
  exists z st', Memory_Init (ArgState [] 1 [Some (cs "quake")] 0 0 0 0) 4096 2097152
                  (MemSt 64 0 0 0 0 false 0 ∅ ∅ ∅) = Ok (z, st') /\
    hunk_inv st' [1048592] [] [] [].
Proof.
  destruct (Memory_Init_spec (ArgState [] 1 [Some (cs "quake")] 0 0 0 0) 4096 2097152
              (MemSt 64 0 0 0 0 false 0 ∅ ∅ ∅) 1048592 ltac:(lia) ltac:(lia) ltac:(by_vm) ltac:(cbn; lia)
              ltac:(by_vm) ltac:(by_vm) ltac:(by_vm) ltac:(by_vm) ltac:(lia)) as (z & st' & H1 & H2 & _).
  exists z, st'. by split.
Defined.
