(* ===== verification/Net.v ===== *)
(** What the network layer's files share (Source/net.h): constants, addresses and the
    connection record [qsocket_t].

    The record has all of the struct's fields; [mod], whose name is taken, is [mod_id],
    and [next] is [sock_next].  Pointers between sockets ([sock_next], [driverdata]) are
    addresses, 0 the null pointer; times are doubles. *)

From S2P Require Import Prelude CFloat SizeBuf.

(** C: Source/quakedef.h:73-73 MAX_DATAGRAM *)
Definition MAX_DATAGRAM : Z := 1024.
(** C: Source/net.h:31-31 NET_MAXMESSAGE *)
Definition NET_MAXMESSAGE : Z := 8192.
(** C: Source/net.h:32-32 NET_HEADERSIZE *)
Definition NET_HEADERSIZE : Z := 8.
(** C: Source/net.h:33-33 NET_DATAGRAMSIZE *)
Definition NET_DATAGRAMSIZE : Z := MAX_DATAGRAM + NET_HEADERSIZE.

(** C: Source/net.h:36-36 NETFLAG_LENGTH_MASK *)
Definition NETFLAG_LENGTH_MASK : Z := 0x0000ffff.
(** C: Source/net.h:37-37 NETFLAG_DATA *)
Definition NETFLAG_DATA : Z := 0x00010000.
(** C: Source/net.h:38-38 NETFLAG_ACK *)
Definition NETFLAG_ACK : Z := 0x00020000.
(** C: Source/net.h:40-40 NETFLAG_EOM *)
Definition NETFLAG_EOM : Z := 0x00080000.
(** C: Source/net.h:41-41 NETFLAG_UNRELIABLE *)
Definition NETFLAG_UNRELIABLE : Z := 0x00100000.
(** C: Source/net.h:42-42 NETFLAG_CTL *)
Definition NETFLAG_CTL : Z := 0x80000000.

(** A socket address as an IP address family sees it: [sin_port] and [sin_addr] are the
    first six bytes of [sa_data].
    C: Source/net.h:22-26 qsockaddr *)
Record qsockaddr : Type := QSockAddr {
  sa_family : Z;
  sin_port : Z;
  sin_addr : Z
}.

#[global] Instance qsockaddr_eq_dec : EqDecision qsockaddr.
Proof. solve_decision. Defined.

(** C: Source/net_udp.c:400-412 UDP_AddrCompare *)
Definition UDP_AddrCompare (addr1 addr2 : qsockaddr) : Z :=
  if negb (sa_family addr1 =? sa_family addr2) then -1
  else if negb (sin_addr addr1 =? sin_addr addr2) then -1
  else if negb (sin_port addr1 =? sin_port addr2) then 1
  else 0.

Lemma UDP_AddrCompare_eq a b : UDP_AddrCompare a b = 0 <-> a = b.
Proof.
  destruct a as [f p i], b as [f' p' i']. unfold UDP_AddrCompare. cbn.
  repeat (case_if; [split; [lia|intros; simplify_eq]|]). split; [by intros; subst|done].
Qed.

(** C: Source/net.h:132-169 qsocket_t *)
Record qsocket : Type := QSocket {
  sock_next : Z;
  connecttime : f64;
  lastMessageTime : f64;
  lastSendTime : f64;
  disconnected : bool;
  canSend : bool;
  sendNext : bool;
  driver : Z;
  landriver : Z;
  socket : Z;
  driverdata : Z;
  ackSequence : Z;
  sendSequence : Z;
  unreliableSendSequence : Z;
  sendMessageLength : Z;
  sendMessage : bytes;
  receiveSequence : Z;
  unreliableReceiveSequence : Z;
  receiveMessageLength : Z;
  receiveMessage : bytes;
  addr : qsockaddr;
  address : bytes;
  mod_id : Z;
  mod_version : Z;
  mod_flags : Z;
  client_port : Z;
  net_wait : bool;
  encrypt : Z
}.

Definition set_sock_next (v : Z) (s : qsocket) : qsocket :=
    QSocket v (connecttime s) (lastMessageTime s) (lastSendTime s) (disconnected s) (canSend
    s) (sendNext s) (driver s) (landriver s) (socket s) (driverdata s) (ackSequence s)
    (sendSequence s) (unreliableSendSequence s) (sendMessageLength s) (sendMessage s)
    (receiveSequence s) (unreliableReceiveSequence s) (receiveMessageLength s)
    (receiveMessage s) (addr s) (address s) (mod_id s) (mod_version s) (mod_flags s)
    (client_port s) (net_wait s) (encrypt s).
Definition set_connecttime (v : f64) (s : qsocket) : qsocket :=
    QSocket (sock_next s) v (lastMessageTime s) (lastSendTime s) (disconnected s) (canSend
    s) (sendNext s) (driver s) (landriver s) (socket s) (driverdata s) (ackSequence s)
    (sendSequence s) (unreliableSendSequence s) (sendMessageLength s) (sendMessage s)
    (receiveSequence s) (unreliableReceiveSequence s) (receiveMessageLength s)
    (receiveMessage s) (addr s) (address s) (mod_id s) (mod_version s) (mod_flags s)
    (client_port s) (net_wait s) (encrypt s).
Definition set_lastMessageTime (v : f64) (s : qsocket) : qsocket :=
    QSocket (sock_next s) (connecttime s) v (lastSendTime s) (disconnected s) (canSend s)
    (sendNext s) (driver s) (landriver s) (socket s) (driverdata s) (ackSequence s)
    (sendSequence s) (unreliableSendSequence s) (sendMessageLength s) (sendMessage s)
    (receiveSequence s) (unreliableReceiveSequence s) (receiveMessageLength s)
    (receiveMessage s) (addr s) (address s) (mod_id s) (mod_version s) (mod_flags s)
    (client_port s) (net_wait s) (encrypt s).
Definition set_lastSendTime (v : f64) (s : qsocket) : qsocket :=
    QSocket (sock_next s) (connecttime s) (lastMessageTime s) v (disconnected s) (canSend s)
    (sendNext s) (driver s) (landriver s) (socket s) (driverdata s) (ackSequence s)
    (sendSequence s) (unreliableSendSequence s) (sendMessageLength s) (sendMessage s)
    (receiveSequence s) (unreliableReceiveSequence s) (receiveMessageLength s)
    (receiveMessage s) (addr s) (address s) (mod_id s) (mod_version s) (mod_flags s)
    (client_port s) (net_wait s) (encrypt s).
Definition set_disconnected (v : bool) (s : qsocket) : qsocket :=
    QSocket (sock_next s) (connecttime s) (lastMessageTime s) (lastSendTime s) v (canSend s)
    (sendNext s) (driver s) (landriver s) (socket s) (driverdata s) (ackSequence s)
    (sendSequence s) (unreliableSendSequence s) (sendMessageLength s) (sendMessage s)
    (receiveSequence s) (unreliableReceiveSequence s) (receiveMessageLength s)
    (receiveMessage s) (addr s) (address s) (mod_id s) (mod_version s) (mod_flags s)
    (client_port s) (net_wait s) (encrypt s).
Definition set_canSend (v : bool) (s : qsocket) : qsocket :=
    QSocket (sock_next s) (connecttime s) (lastMessageTime s) (lastSendTime s) (disconnected
    s) v (sendNext s) (driver s) (landriver s) (socket s) (driverdata s) (ackSequence s)
    (sendSequence s) (unreliableSendSequence s) (sendMessageLength s) (sendMessage s)
    (receiveSequence s) (unreliableReceiveSequence s) (receiveMessageLength s)
    (receiveMessage s) (addr s) (address s) (mod_id s) (mod_version s) (mod_flags s)
    (client_port s) (net_wait s) (encrypt s).
Definition set_sendNext (v : bool) (s : qsocket) : qsocket :=
    QSocket (sock_next s) (connecttime s) (lastMessageTime s) (lastSendTime s) (disconnected
    s) (canSend s) v (driver s) (landriver s) (socket s) (driverdata s) (ackSequence s)
    (sendSequence s) (unreliableSendSequence s) (sendMessageLength s) (sendMessage s)
    (receiveSequence s) (unreliableReceiveSequence s) (receiveMessageLength s)
    (receiveMessage s) (addr s) (address s) (mod_id s) (mod_version s) (mod_flags s)
    (client_port s) (net_wait s) (encrypt s).
Definition set_driver (v : Z) (s : qsocket) : qsocket :=
    QSocket (sock_next s) (connecttime s) (lastMessageTime s) (lastSendTime s) (disconnected
    s) (canSend s) (sendNext s) v (landriver s) (socket s) (driverdata s) (ackSequence s)
    (sendSequence s) (unreliableSendSequence s) (sendMessageLength s) (sendMessage s)
    (receiveSequence s) (unreliableReceiveSequence s) (receiveMessageLength s)
    (receiveMessage s) (addr s) (address s) (mod_id s) (mod_version s) (mod_flags s)
    (client_port s) (net_wait s) (encrypt s).
Definition set_landriver (v : Z) (s : qsocket) : qsocket :=
    QSocket (sock_next s) (connecttime s) (lastMessageTime s) (lastSendTime s) (disconnected
    s) (canSend s) (sendNext s) (driver s) v (socket s) (driverdata s) (ackSequence s)
    (sendSequence s) (unreliableSendSequence s) (sendMessageLength s) (sendMessage s)
    (receiveSequence s) (unreliableReceiveSequence s) (receiveMessageLength s)
    (receiveMessage s) (addr s) (address s) (mod_id s) (mod_version s) (mod_flags s)
    (client_port s) (net_wait s) (encrypt s).
Definition set_socket (v : Z) (s : qsocket) : qsocket :=
    QSocket (sock_next s) (connecttime s) (lastMessageTime s) (lastSendTime s) (disconnected
    s) (canSend s) (sendNext s) (driver s) (landriver s) v (driverdata s) (ackSequence s)
    (sendSequence s) (unreliableSendSequence s) (sendMessageLength s) (sendMessage s)
    (receiveSequence s) (unreliableReceiveSequence s) (receiveMessageLength s)
    (receiveMessage s) (addr s) (address s) (mod_id s) (mod_version s) (mod_flags s)
    (client_port s) (net_wait s) (encrypt s).
Definition set_driverdata (v : Z) (s : qsocket) : qsocket :=
    QSocket (sock_next s) (connecttime s) (lastMessageTime s) (lastSendTime s) (disconnected
    s) (canSend s) (sendNext s) (driver s) (landriver s) (socket s) v (ackSequence s)
    (sendSequence s) (unreliableSendSequence s) (sendMessageLength s) (sendMessage s)
    (receiveSequence s) (unreliableReceiveSequence s) (receiveMessageLength s)
    (receiveMessage s) (addr s) (address s) (mod_id s) (mod_version s) (mod_flags s)
    (client_port s) (net_wait s) (encrypt s).
Definition set_ackSequence (v : Z) (s : qsocket) : qsocket :=
    QSocket (sock_next s) (connecttime s) (lastMessageTime s) (lastSendTime s) (disconnected
    s) (canSend s) (sendNext s) (driver s) (landriver s) (socket s) (driverdata s) v
    (sendSequence s) (unreliableSendSequence s) (sendMessageLength s) (sendMessage s)
    (receiveSequence s) (unreliableReceiveSequence s) (receiveMessageLength s)
    (receiveMessage s) (addr s) (address s) (mod_id s) (mod_version s) (mod_flags s)
    (client_port s) (net_wait s) (encrypt s).
Definition set_sendSequence (v : Z) (s : qsocket) : qsocket :=
    QSocket (sock_next s) (connecttime s) (lastMessageTime s) (lastSendTime s) (disconnected
    s) (canSend s) (sendNext s) (driver s) (landriver s) (socket s) (driverdata s)
    (ackSequence s) v (unreliableSendSequence s) (sendMessageLength s) (sendMessage s)
    (receiveSequence s) (unreliableReceiveSequence s) (receiveMessageLength s)
    (receiveMessage s) (addr s) (address s) (mod_id s) (mod_version s) (mod_flags s)
    (client_port s) (net_wait s) (encrypt s).
Definition set_unreliableSendSequence (v : Z) (s : qsocket) : qsocket :=
    QSocket (sock_next s) (connecttime s) (lastMessageTime s) (lastSendTime s) (disconnected
    s) (canSend s) (sendNext s) (driver s) (landriver s) (socket s) (driverdata s)
    (ackSequence s) (sendSequence s) v (sendMessageLength s) (sendMessage s)
    (receiveSequence s) (unreliableReceiveSequence s) (receiveMessageLength s)
    (receiveMessage s) (addr s) (address s) (mod_id s) (mod_version s) (mod_flags s)
    (client_port s) (net_wait s) (encrypt s).
Definition set_sendMessageLength (v : Z) (s : qsocket) : qsocket :=
    QSocket (sock_next s) (connecttime s) (lastMessageTime s) (lastSendTime s) (disconnected
    s) (canSend s) (sendNext s) (driver s) (landriver s) (socket s) (driverdata s)
    (ackSequence s) (sendSequence s) (unreliableSendSequence s) v (sendMessage s)
    (receiveSequence s) (unreliableReceiveSequence s) (receiveMessageLength s)
    (receiveMessage s) (addr s) (address s) (mod_id s) (mod_version s) (mod_flags s)
    (client_port s) (net_wait s) (encrypt s).
Definition set_sendMessage (v : bytes) (s : qsocket) : qsocket :=
    QSocket (sock_next s) (connecttime s) (lastMessageTime s) (lastSendTime s) (disconnected
    s) (canSend s) (sendNext s) (driver s) (landriver s) (socket s) (driverdata s)
    (ackSequence s) (sendSequence s) (unreliableSendSequence s) (sendMessageLength s) v
    (receiveSequence s) (unreliableReceiveSequence s) (receiveMessageLength s)
    (receiveMessage s) (addr s) (address s) (mod_id s) (mod_version s) (mod_flags s)
    (client_port s) (net_wait s) (encrypt s).
Definition set_receiveSequence (v : Z) (s : qsocket) : qsocket :=
    QSocket (sock_next s) (connecttime s) (lastMessageTime s) (lastSendTime s) (disconnected
    s) (canSend s) (sendNext s) (driver s) (landriver s) (socket s) (driverdata s)
    (ackSequence s) (sendSequence s) (unreliableSendSequence s) (sendMessageLength s)
    (sendMessage s) v (unreliableReceiveSequence s) (receiveMessageLength s) (receiveMessage
    s) (addr s) (address s) (mod_id s) (mod_version s) (mod_flags s) (client_port s)
    (net_wait s) (encrypt s).
Definition set_unreliableReceiveSequence (v : Z) (s : qsocket) : qsocket :=
    QSocket (sock_next s) (connecttime s) (lastMessageTime s) (lastSendTime s) (disconnected
    s) (canSend s) (sendNext s) (driver s) (landriver s) (socket s) (driverdata s)
    (ackSequence s) (sendSequence s) (unreliableSendSequence s) (sendMessageLength s)
    (sendMessage s) (receiveSequence s) v (receiveMessageLength s) (receiveMessage s) (addr
    s) (address s) (mod_id s) (mod_version s) (mod_flags s) (client_port s) (net_wait s)
    (encrypt s).
Definition set_receiveMessageLength (v : Z) (s : qsocket) : qsocket :=
    QSocket (sock_next s) (connecttime s) (lastMessageTime s) (lastSendTime s) (disconnected
    s) (canSend s) (sendNext s) (driver s) (landriver s) (socket s) (driverdata s)
    (ackSequence s) (sendSequence s) (unreliableSendSequence s) (sendMessageLength s)
    (sendMessage s) (receiveSequence s) (unreliableReceiveSequence s) v (receiveMessage s)
    (addr s) (address s) (mod_id s) (mod_version s) (mod_flags s) (client_port s) (net_wait
    s) (encrypt s).
Definition set_receiveMessage (v : bytes) (s : qsocket) : qsocket :=
    QSocket (sock_next s) (connecttime s) (lastMessageTime s) (lastSendTime s) (disconnected
    s) (canSend s) (sendNext s) (driver s) (landriver s) (socket s) (driverdata s)
    (ackSequence s) (sendSequence s) (unreliableSendSequence s) (sendMessageLength s)
    (sendMessage s) (receiveSequence s) (unreliableReceiveSequence s) (receiveMessageLength
    s) v (addr s) (address s) (mod_id s) (mod_version s) (mod_flags s) (client_port s)
    (net_wait s) (encrypt s).
Definition set_addr (v : qsockaddr) (s : qsocket) : qsocket :=
    QSocket (sock_next s) (connecttime s) (lastMessageTime s) (lastSendTime s) (disconnected
    s) (canSend s) (sendNext s) (driver s) (landriver s) (socket s) (driverdata s)
    (ackSequence s) (sendSequence s) (unreliableSendSequence s) (sendMessageLength s)
    (sendMessage s) (receiveSequence s) (unreliableReceiveSequence s) (receiveMessageLength
    s) (receiveMessage s) v (address s) (mod_id s) (mod_version s) (mod_flags s)
    (client_port s) (net_wait s) (encrypt s).
Definition set_address (v : bytes) (s : qsocket) : qsocket :=
    QSocket (sock_next s) (connecttime s) (lastMessageTime s) (lastSendTime s) (disconnected
    s) (canSend s) (sendNext s) (driver s) (landriver s) (socket s) (driverdata s)
    (ackSequence s) (sendSequence s) (unreliableSendSequence s) (sendMessageLength s)
    (sendMessage s) (receiveSequence s) (unreliableReceiveSequence s) (receiveMessageLength
    s) (receiveMessage s) (addr s) v (mod_id s) (mod_version s) (mod_flags s) (client_port
    s) (net_wait s) (encrypt s).
Definition set_mod_id (v : Z) (s : qsocket) : qsocket :=
    QSocket (sock_next s) (connecttime s) (lastMessageTime s) (lastSendTime s) (disconnected
    s) (canSend s) (sendNext s) (driver s) (landriver s) (socket s) (driverdata s)
    (ackSequence s) (sendSequence s) (unreliableSendSequence s) (sendMessageLength s)
    (sendMessage s) (receiveSequence s) (unreliableReceiveSequence s) (receiveMessageLength
    s) (receiveMessage s) (addr s) (address s) v (mod_version s) (mod_flags s) (client_port
    s) (net_wait s) (encrypt s).
Definition set_mod_version (v : Z) (s : qsocket) : qsocket :=
    QSocket (sock_next s) (connecttime s) (lastMessageTime s) (lastSendTime s) (disconnected
    s) (canSend s) (sendNext s) (driver s) (landriver s) (socket s) (driverdata s)
    (ackSequence s) (sendSequence s) (unreliableSendSequence s) (sendMessageLength s)
    (sendMessage s) (receiveSequence s) (unreliableReceiveSequence s) (receiveMessageLength
    s) (receiveMessage s) (addr s) (address s) (mod_id s) v (mod_flags s) (client_port s)
    (net_wait s) (encrypt s).
Definition set_mod_flags (v : Z) (s : qsocket) : qsocket :=
    QSocket (sock_next s) (connecttime s) (lastMessageTime s) (lastSendTime s) (disconnected
    s) (canSend s) (sendNext s) (driver s) (landriver s) (socket s) (driverdata s)
    (ackSequence s) (sendSequence s) (unreliableSendSequence s) (sendMessageLength s)
    (sendMessage s) (receiveSequence s) (unreliableReceiveSequence s) (receiveMessageLength
    s) (receiveMessage s) (addr s) (address s) (mod_id s) (mod_version s) v (client_port s)
    (net_wait s) (encrypt s).
Definition set_client_port (v : Z) (s : qsocket) : qsocket :=
    QSocket (sock_next s) (connecttime s) (lastMessageTime s) (lastSendTime s) (disconnected
    s) (canSend s) (sendNext s) (driver s) (landriver s) (socket s) (driverdata s)
    (ackSequence s) (sendSequence s) (unreliableSendSequence s) (sendMessageLength s)
    (sendMessage s) (receiveSequence s) (unreliableReceiveSequence s) (receiveMessageLength
    s) (receiveMessage s) (addr s) (address s) (mod_id s) (mod_version s) (mod_flags s) v
    (net_wait s) (encrypt s).
Definition set_net_wait (v : bool) (s : qsocket) : qsocket :=
    QSocket (sock_next s) (connecttime s) (lastMessageTime s) (lastSendTime s) (disconnected
    s) (canSend s) (sendNext s) (driver s) (landriver s) (socket s) (driverdata s)
    (ackSequence s) (sendSequence s) (unreliableSendSequence s) (sendMessageLength s)
    (sendMessage s) (receiveSequence s) (unreliableReceiveSequence s) (receiveMessageLength
    s) (receiveMessage s) (addr s) (address s) (mod_id s) (mod_version s) (mod_flags s)
    (client_port s) v (encrypt s).
Definition set_encrypt (v : Z) (s : qsocket) : qsocket :=
    QSocket (sock_next s) (connecttime s) (lastMessageTime s) (lastSendTime s) (disconnected
    s) (canSend s) (sendNext s) (driver s) (landriver s) (socket s) (driverdata s)
    (ackSequence s) (sendSequence s) (unreliableSendSequence s) (sendMessageLength s)
    (sendMessage s) (receiveSequence s) (unreliableReceiveSequence s) (receiveMessageLength
    s) (receiveMessage s) (addr s) (address s) (mod_id s) (mod_version s) (mod_flags s)
    (client_port s) (net_wait s) v.

(** A terminated string as the start of a [char] array. *)
Definition Q_strcpy_to (a : bytes) (str : bytes) : res bytes := store a 0 (str ++ [0]).
