(* ===== verification/NetDgrm.v ===== *)
(** The reliable datagram driver (Source/net_dgrm.c): message fragmentation,
    acknowledgement and retransmission, and the unreliable channel.

    [dgenv] is what the driver uses besides the socket: the static [packetBuffer] that
    every packet goes through (stale bytes included), its statistics counters,
    [net_message], [net_time], and the LAN driver.  The LAN driver's [Write] appends to
    [outq] when it succeeds; [wfail] says which of the next calls return -1.  A call of
    [Read] takes the next element of a list of arrivals: a datagram of any bytes from any
    address, or a read error; the end of the list is a return of 0.  The host's byte
    order [h] is a parameter. *)

From S2P Require Import Prelude CFloat SizeBuf Net.

(** C: Source/net_dgrm.c:67-78 packetBuffer *)
Record dgenv : Type := DgEnv {
  packetBuffer : bytes;
  packetsSent : Z;
  packetsReSent : Z;
  packetsReceived : Z;
  receivedDuplicateCount : Z;
  shortPacketCount : Z;
  droppedDatagrams : Z;
  netmsg : sizebuf;
  net_time : f64;
  outq : list (bytes * qsockaddr);
  wfail : list bool
}.

Definition set_packetBuffer (v : bytes) (s : dgenv) : dgenv :=
    DgEnv v (packetsSent s) (packetsReSent s) (packetsReceived s) (receivedDuplicateCount s)
    (shortPacketCount s) (droppedDatagrams s) (netmsg s) (net_time s) (outq s) (wfail s).
Definition set_packetsSent (v : Z) (s : dgenv) : dgenv :=
    DgEnv (packetBuffer s) v (packetsReSent s) (packetsReceived s) (receivedDuplicateCount
    s) (shortPacketCount s) (droppedDatagrams s) (netmsg s) (net_time s) (outq s) (wfail s).
Definition set_packetsReSent (v : Z) (s : dgenv) : dgenv :=
    DgEnv (packetBuffer s) (packetsSent s) v (packetsReceived s) (receivedDuplicateCount s)
    (shortPacketCount s) (droppedDatagrams s) (netmsg s) (net_time s) (outq s) (wfail s).
Definition set_packetsReceived (v : Z) (s : dgenv) : dgenv :=
    DgEnv (packetBuffer s) (packetsSent s) (packetsReSent s) v (receivedDuplicateCount s)
    (shortPacketCount s) (droppedDatagrams s) (netmsg s) (net_time s) (outq s) (wfail s).
Definition set_receivedDuplicateCount (v : Z) (s : dgenv) : dgenv :=
    DgEnv (packetBuffer s) (packetsSent s) (packetsReSent s) (packetsReceived s) v
    (shortPacketCount s) (droppedDatagrams s) (netmsg s) (net_time s) (outq s) (wfail s).
Definition set_shortPacketCount (v : Z) (s : dgenv) : dgenv :=
    DgEnv (packetBuffer s) (packetsSent s) (packetsReSent s) (packetsReceived s)
    (receivedDuplicateCount s) v (droppedDatagrams s) (netmsg s) (net_time s) (outq s)
    (wfail s).
Definition set_droppedDatagrams (v : Z) (s : dgenv) : dgenv :=
    DgEnv (packetBuffer s) (packetsSent s) (packetsReSent s) (packetsReceived s)
    (receivedDuplicateCount s) (shortPacketCount s) v (netmsg s) (net_time s) (outq s)
    (wfail s).
Definition set_netmsg (v : sizebuf) (s : dgenv) : dgenv :=
    DgEnv (packetBuffer s) (packetsSent s) (packetsReSent s) (packetsReceived s)
    (receivedDuplicateCount s) (shortPacketCount s) (droppedDatagrams s) v (net_time s)
    (outq s) (wfail s).
Definition set_net_time (v : f64) (s : dgenv) : dgenv :=
    DgEnv (packetBuffer s) (packetsSent s) (packetsReSent s) (packetsReceived s)
    (receivedDuplicateCount s) (shortPacketCount s) (droppedDatagrams s) (netmsg s) v (outq
    s) (wfail s).
Definition set_outq (v : list (bytes * qsockaddr)) (s : dgenv) : dgenv :=
    DgEnv (packetBuffer s) (packetsSent s) (packetsReSent s) (packetsReceived s)
    (receivedDuplicateCount s) (shortPacketCount s) (droppedDatagrams s) (netmsg s)
    (net_time s) v (wfail s).
Definition set_wfail (v : list bool) (s : dgenv) : dgenv :=
    DgEnv (packetBuffer s) (packetsSent s) (packetsReSent s) (packetsReceived s)
    (receivedDuplicateCount s) (shortPacketCount s) (droppedDatagrams s) (netmsg s)
    (net_time s) (outq s) v.

(** What [sfunc.Read] can give. *)
Inductive arrival : Type :=
| Datagram (d : bytes) (from : qsockaddr)
| ReadError.

(** [sfunc.Write]: false is the return value -1. *)
Definition Write (e : dgenv) (len : Z) (dest : qsockaddr) : res (bool * dgenv) :=
  d ← load (packetBuffer e) 0 len;
  match wfail e with
  | true :: w => mret (false, set_wfail w e)
  | _ => mret (true, set_wfail (tail (wfail e)) (set_outq (outq e ++ [(d, dest)]) e))
  end.

Section driver.

Variable h : endian.

Definition big (v : Z) : Z := BigLong (COM_Init_byteorder h) v.

(** [packetBuffer.length = BigLong (l); packetBuffer.sequence = BigLong (s)] *)
Definition put_header (l seq : Z) (e : dgenv) : res dgenv :=
  b ← store (packetBuffer e) 0 (bytes_of_int h (big (s32 l)));
  b ← store b 4 (bytes_of_int h (big (s32 seq)));
  mret (set_packetBuffer b e).

Definition put_data (d : bytes) (e : dgenv) : res dgenv :=
  b ← store (packetBuffer e) NET_HEADERSIZE d; mret (set_packetBuffer b e).

(** The length and the end-of-message flag of the next packet of [sendMessage]. *)
Definition next_fragment (len : Z) : Z * Z :=
  if len <=? MAX_DATAGRAM then (len, NETFLAG_EOM) else (MAX_DATAGRAM, 0).

(** C: Source/net_dgrm.c:160-203 Datagram_SendMessage *)
Definition Datagram_SendMessage (e : dgenv) (sock : qsocket) (d : sizebuf)
  : res (Z * qsocket * dgenv) :=
  msg ← load (data d) 0 (cursize d);
  m ← store (sendMessage sock) 0 msg;
  let sock := set_sendMessageLength (cursize d) (set_sendMessage m sock) in
  let '(dataLen, eom) := next_fragment (cursize d) in
  let packetLen := NET_HEADERSIZE + dataLen in
  e ← put_header (packetLen .| (NETFLAG_DATA .| eom)) (sendSequence sock) e;
  let sock := set_sendSequence (u32 (sendSequence sock + 1)) sock in
  frag ← load (sendMessage sock) 0 dataLen;
  e ← put_data frag e;
  let sock := set_canSend false sock in
  '(ok, e) ← Write e packetLen (addr sock);
  if negb ok then mret (-1, sock, e) else
  let sock := set_lastSendTime (net_time e) sock in
  mret (1, sock, set_packetsSent (s32 (packetsSent e + 1)) e).

(** C: Source/net_dgrm.c:205-234 SendMessageNext *)
Definition SendMessageNext (e : dgenv) (sock : qsocket) : res (Z * qsocket * dgenv) :=
  let '(dataLen, eom) := next_fragment (sendMessageLength sock) in
  let packetLen := NET_HEADERSIZE + dataLen in
  e ← put_header (packetLen .| (NETFLAG_DATA .| eom)) (sendSequence sock) e;
  let sock := set_sendSequence (u32 (sendSequence sock + 1)) sock in
  frag ← load (sendMessage sock) 0 dataLen;
  e ← put_data frag e;
  let sock := set_sendNext false sock in
  '(ok, e) ← Write e packetLen (addr sock);
  if negb ok then mret (-1, sock, e) else
  let sock := set_lastSendTime (net_time e) sock in
  mret (1, sock, set_packetsSent (s32 (packetsSent e + 1)) e).

(** C: Source/net_dgrm.c:236-265 ReSendMessage *)
Definition ReSendMessage (e : dgenv) (sock : qsocket) : res (Z * qsocket * dgenv) :=
  let '(dataLen, eom) := next_fragment (sendMessageLength sock) in
  let packetLen := NET_HEADERSIZE + dataLen in
  e ← put_header (packetLen .| (NETFLAG_DATA .| eom)) (u32 (sendSequence sock - 1)) e;
  frag ← load (sendMessage sock) 0 dataLen;
  e ← put_data frag e;
  let sock := set_sendNext false sock in
  '(ok, e) ← Write e packetLen (addr sock);
  if negb ok then mret (-1, sock, e) else
  let sock := set_lastSendTime (net_time e) sock in
  mret (1, sock, set_packetsReSent (s32 (packetsReSent e + 1)) e).

(** C: Source/net_dgrm.c:267-273 Datagram_CanSendMessage *)
Definition Datagram_CanSendMessage (e : dgenv) (sock : qsocket) : res (bool * qsocket * dgenv) :=
  '(sock, e) ← (if sendNext sock
                then '(_, sock, e) ← SendMessageNext e sock; mret (sock, e)
                else mret (sock, e));
  mret (canSend sock, sock, e).

(** C: Source/net_dgrm.c:275-278 Datagram_CanSendUnreliableMessage *)
Definition Datagram_CanSendUnreliableMessage (sock : qsocket) : bool := true.

(** C: Source/net_dgrm.c:280-303 Datagram_SendUnreliableMessage *)
Definition Datagram_SendUnreliableMessage (e : dgenv) (sock : qsocket) (d : sizebuf)
  : res (Z * qsocket * dgenv) :=
  let packetLen := NET_HEADERSIZE + cursize d in
  e ← put_header (packetLen .| NETFLAG_UNRELIABLE) (unreliableSendSequence sock) e;
  let sock := set_unreliableSendSequence (u32 (unreliableSendSequence sock + 1)) sock in
  msg ← load (data d) 0 (cursize d);
  e ← put_data msg e;
  '(ok, e) ← Write e packetLen (addr sock);
  if negb ok then mret (-1, sock, e) else
  mret (1, sock, set_packetsSent (s32 (packetsSent e + 1)) e).

(** How an iteration of the receive loop ends. *)
Inductive ctl : Type := Continue | Break (ret : Z) | Return (ret : Z).

(** [AddrCompare] and [AddrToString] of the LAN driver. *)
Variable AddrCompare : qsockaddr -> qsockaddr -> Z.
Variable AddrToString : qsockaddr -> bytes.

(** The branch of an unreliable packet.
    C: Source/net_dgrm.c:374-397 Datagram_GetMessage *)
Definition get_unreliable (e : dgenv) (sock : qsocket) (length sequence : Z)
  : res (ctl * qsocket * dgenv) :=
  if sequence <? unreliableReceiveSequence sock then mret (Break 0, sock, e)
  else
    let e := if negb (sequence =? unreliableReceiveSequence sock)
             then let count := u32 (sequence - unreliableReceiveSequence sock) in
                  set_droppedDatagrams (s32 (droppedDatagrams e + count)) e
             else e in
    let sock := set_unreliableReceiveSequence (u32 (sequence + 1)) sock in
    let length := u32 (length - NET_HEADERSIZE) in
    d ← load (packetBuffer e) NET_HEADERSIZE (s32 length);
    m ← SZ_Write (SZ_Clear (netmsg e)) d;
    mret (Break 2, sock, set_netmsg m e).

(** The branch of an acknowledgement.
    C: Source/net_dgrm.c:399-429 Datagram_GetMessage *)
Definition get_ack (e : dgenv) (sock : qsocket) (sequence : Z) : res (ctl * qsocket * dgenv) :=
  if negb (sequence =? u32 (sendSequence sock - 1)) then mret (Continue, sock, e)
  else if negb (sequence =? ackSequence sock) then mret (Continue, sock, e)
  else
    let sock := set_ackSequence (u32 (ackSequence sock + 1)) sock in
    let sock := set_sendMessageLength (s32 (sendMessageLength sock - MAX_DATAGRAM)) sock in
    if 0 <? sendMessageLength sock then
      rest ← load (sendMessage sock) MAX_DATAGRAM (sendMessageLength sock);
      m ← store (sendMessage sock) 0 rest;
      mret (Continue, set_sendNext true (set_sendMessage m sock), e)
    else mret (Continue, set_canSend true (set_sendMessageLength 0 sock), e).

(** The branch of a reliable data packet.
    C: Source/net_dgrm.c:431-460 Datagram_GetMessage *)
Definition get_data (e : dgenv) (sock : qsocket) (flags length sequence : Z)
  (readaddr : qsockaddr) : res (ctl * qsocket * dgenv) :=
  e ← put_header (NET_HEADERSIZE .| NETFLAG_ACK) sequence e;
  '(_, e) ← Write e NET_HEADERSIZE readaddr;
  if negb (sequence =? receiveSequence sock) then
    mret (Continue, sock, set_receivedDuplicateCount (s32 (receivedDuplicateCount e + 1)) e)
  else
    let sock := set_receiveSequence (u32 (receiveSequence sock + 1)) sock in
    let length := u32 (length - NET_HEADERSIZE) in
    d ← load (packetBuffer e) NET_HEADERSIZE (s32 length);
    if truth (flags & NETFLAG_EOM) then
      part ← load (receiveMessage sock) 0 (receiveMessageLength sock);
      m ← SZ_Write (SZ_Clear (netmsg e)) part;
      m ← SZ_Write m d;
      mret (Break 1, set_receiveMessageLength 0 sock, set_netmsg m e)
    else
      m ← store (receiveMessage sock) (receiveMessageLength sock) d;
      mret (Continue,
            set_receiveMessageLength (s32 (receiveMessageLength sock + length))
              (set_receiveMessage m sock), e).

(** One turn of the loop, for a datagram [Read] has put into [packetBuffer].
    C: Source/net_dgrm.c:316-461 Datagram_GetMessage *)
Definition get_packet (e : dgenv) (sock : qsocket) (d : bytes) (readaddr : qsockaddr)
  : res (ctl * qsocket * dgenv) :=
  let d := take (Z.to_nat NET_DATAGRAMSIZE) d in
  b ← store (packetBuffer e) 0 d;
  let e := set_packetBuffer b e in
  let length := Z.of_nat (length d) in
  if length =? 0 then mret (Break 0, sock, e)
  else if negb (net_wait sock) && negb (AddrCompare readaddr (addr sock) =? 0)
  then mret (Continue, sock, e)
  else if length <? NET_HEADERSIZE
  then mret (Continue, sock, set_shortPacketCount (s32 (shortPacketCount e + 1)) e)
  else
    w ← load (packetBuffer e) 0 4;
    let length := u32 (big (int_of_bytes h w)) in
    let flags := length & (u32 (Z.lnot NETFLAG_LENGTH_MASK)) in
    let length := length & NETFLAG_LENGTH_MASK in
    if NET_DATAGRAMSIZE <? length then mret (Return (-1), sock, e)
    else if truth (flags & NETFLAG_CTL) then mret (Continue, sock, e)
    else
      w ← load (packetBuffer e) 4 4;
      let sequence := u32 (big (int_of_bytes h w)) in
      let e := set_packetsReceived (s32 (packetsReceived e + 1)) e in
      sock ← (if net_wait sock then
                a ← Q_strcpy_to (address sock) (AddrToString readaddr);
                mret (set_net_wait false (set_address a (set_addr readaddr sock)))
              else mret sock);
      if truth (flags & NETFLAG_UNRELIABLE) then get_unreliable e sock length sequence
      else if truth (flags & NETFLAG_ACK) then get_ack e sock sequence
      else if truth (flags & NETFLAG_DATA) then get_data e sock flags length sequence readaddr
      else mret (Continue, sock, e).

(** The loop; what is left of the arrivals is read by a later call. *)
Fixpoint get_loop (e : dgenv) (sock : qsocket) (arrivals : list arrival)
  : res (ctl * list arrival * qsocket * dgenv) :=
  match arrivals with
  | [] => mret (Break 0, [], sock, e)
  | ReadError :: rest => mret (Return (-1), rest, sock, e)
  | Datagram d from :: rest =>
      '(c, sock, e) ← get_packet e sock d from;
      match c with
      | Continue => get_loop e sock rest
      | _ => mret (c, rest, sock, e)
      end
  end.

Definition f64_one : f64 := f64_of_Z 1.

(** C: Source/net_dgrm.c:305-467 Datagram_GetMessage *)
Definition Datagram_GetMessage (e : dgenv) (sock : qsocket) (arrivals : list arrival)
  : res (Z * list arrival * qsocket * dgenv) :=
  '(sock, e) ← (if negb (canSend sock) &&
                   f_ltb f64_one (f64_sub (net_time e) (lastSendTime sock))
                then '(_, sock, e) ← ReSendMessage e sock; mret (sock, e)
                else mret (sock, e));
  '(c, rest, sock, e) ← get_loop e sock arrivals;
  match c with
  | Return ret => mret (ret, rest, sock, e)
  | Break ret =>
      '(sock, e) ← (if sendNext sock
                    then '(_, sock, e) ← SendMessageNext e sock; mret (sock, e)
                    else mret (sock, e));
      mret (ret, rest, sock, e)
  | Continue => mret (0, rest, sock, e)
  end.

End driver.

(** * Packets on the wire *)

Definition be32 (v : Z) : bytes := [u8 (v >> 24); u8 (v >> 16); u8 (v >> 8); u8 v].

Definition mkpkt (l seq : Z) (d : bytes) : bytes := be32 l ++ be32 seq ++ d.

Lemma big_host h :
  big h = match h with LittleEndian => LongSwap | BigEndian => LongNoSwap end.
Proof. by destruct h. Qed.

Lemma be32_digits a b c d :
  is_byte a -> is_byte b -> is_byte c -> is_byte d -> be32 (of_digits a b c d) = [d; c; b; a].
Proof.
  intros Ha Hb Hc Hd. destruct (s32_digits a b c d) as (H1 & H2 & H3 & H4); auto.
  unfold be32, of_digits. autorewrite with quake_rw. by rewrite H1, H2, H3, H4.
Qed.

Lemma be32_s32 v : be32 (s32 v) = be32 v.
Proof.
  unfold be32. autorewrite with quake_rw.
  assert (exists k, s32 v = v + 4294967296 * k) as [k ->].
  { exists (- ((v + 2147483648) / 4294967296)). wrap_lia. }
  assert (forall q m, 0 < q -> m * q = 4294967296 -> m `mod` 256 = 0 ->
            u8 ((v + 4294967296 * k) / q) = u8 (v / q)) as Hu.
  { intros q m Hq <- Hm. replace (v + m * q * k) with (v + (m * k) * q) by ring.
    rewrite Z.div_add by lia. unfold u8.
    rewrite <- Z.add_mod_idemp_r, <- Z.mul_mod_idemp_l, Hm, Z.mul_0_l by lia.
    f_equal. by rewrite Z.mod_0_l, Z.add_0_r. }
  rewrite (Hu 16777216 256), (Hu 65536 65536), (Hu 256 16777216) by done.
  do 4 f_equal. specialize (Hu 1 4294967296). rewrite !Z.div_1_r in Hu. by rewrite Hu.
Qed.

Lemma big_put h v : bytes_of_int h (big h (s32 v)) = be32 v.
Proof.
  rewrite <- be32_s32. pose proof (s32_range v) as Hr.
  apply int_digits in Hr as (a & b & c & d & Ha & Hb & Hc & Hd & ->).
  rewrite big_host, be32_digits by done. destruct h.
  - rewrite LongSwap_digits, bytes_of_int_digits by done. done.
  - unfold LongNoSwap. by rewrite bytes_of_int_digits.
Qed.

Lemma big_get h v : 0 <= v < 4294967296 -> u32 (big h (int_of_bytes h (be32 v))) = v.
Proof.
  intros Hv. replace v with (u32 (s32 v)) at 2 by wrap_lia. rewrite <- be32_s32.
  pose proof (s32_range v) as Hr.
  apply int_digits in Hr as (a & b & c & d & Ha & Hb & Hc & Hd & ->).
  rewrite big_host, be32_digits by done. f_equal. destruct h; [|done].
  cbn. apply (LongSwap_digits d c b a); done.
Qed.

(** ** The packet buffer *)

Definition pbuf_ok (e : dgenv) : Prop := length (packetBuffer e) = 1032%nat.

Lemma put_header_ok h e l seq :
  pbuf_ok e ->
  put_header h l seq e =
    Ok (set_packetBuffer (be32 l ++ be32 seq ++ drop 8 (packetBuffer e)) e).
Proof.
  intros Hp. unfold put_header, pbuf_ok in *. rewrite !big_put.
  rewrite store_ok by (cbn; lia). rewrite bind_Ok, store_ok; [|lia|].
  2: { rewrite length_splice by (cbn; lia). cbn. lia. }
  rewrite bind_Ok. do 2 f_equal. destruct (packetBuffer e) as [|? [|? [|? [|? [|? [|? [|? [|? b]]]]]]]];
    cbn in Hp; try lia. done.
Qed.

Lemma put_data_ok e hd rest d :
  packetBuffer e = hd ++ rest -> length hd = 8%nat -> (length d <= length rest)%nat ->
  put_data d e = Ok (set_packetBuffer (hd ++ d ++ drop (length d) rest) e).
Proof.
  intros Hp Hh Hl. unfold put_data, NET_HEADERSIZE. rewrite Hp.
  rewrite store_ok by (rewrite ?length_app; lia). rewrite bind_Ok. do 2 f_equal.
  unfold splice. change (Z.to_nat 8) with 8%nat.
  rewrite take_app_length' by done. rewrite drop_app_ge by lia. repeat f_equal. lia.
Qed.

Lemma Write_ok e p rest len dst :
  packetBuffer e = p ++ rest -> len = Z.of_nat (length p) ->
  exists ok w, Write e len dst =
    Ok (ok, set_wfail w (set_outq (outq e ++ if ok : bool then [(p, dst)] else []) e)).
Proof.
  intros Hp ->. unfold Write. rewrite Hp, (load_mid [] p rest 0 _ eq_refl eq_refl : load (p ++ rest) _ _ = _).
  rewrite bind_Ok.
  destruct (wfail e) as [|[] w]; [exists true, []|exists false, w|exists true, w]; try done.
  rewrite app_nil_r. do 2 f_equal.
Qed.

(** ** Header arithmetic *)

Definition FLAGS : list Z :=
  [NETFLAG_DATA .| NETFLAG_EOM; NETFLAG_DATA .| 0; NETFLAG_ACK; NETFLAG_UNRELIABLE].

Lemma low_high n fl :
  0 <= n < 65536 -> fl `mod` 65536 = 0 -> 0 <= fl -> n .| fl = n + fl.
Proof.
  intros Hn Hf H0.
  assert (Z.land n fl = 0) as Hl; [|by rewrite Z.add_nocarry_lxor, Z.lxor_lor].
  apply Z.bits_inj'. intros i Hi. rewrite Z.land_spec, Z.bits_0.
  destruct (decide (i < 16)).
  - replace fl with (fl / 65536 * 2 ^ 16) by (Z.to_euclidean_division_equations; lia).
    rewrite (Z.mul_pow2_bits_low _ 16) by lia. apply andb_false_r.
  - rewrite (Z.bits_above_log2 n); [done|lia|].
    destruct (decide (n = 0)) as [->|]; [cbn; lia|]. apply Z.log2_lt_pow2; [lia|].
    pose proof (Z.pow_le_mono_r 2 16 i). lia.
Qed.

Lemma header_split n fl :
  0 <= n < 65536 -> fl ∈ FLAGS ->
  0 <= n .| fl < 4294967296 /\
  (n .| fl) & NETFLAG_LENGTH_MASK = n /\
  (n .| fl) & u32 (Z.lnot NETFLAG_LENGTH_MASK) = fl.
Proof.
  intros Hn Hf.
  assert (fl `mod` 65536 = 0 /\ 0 <= fl < 2147483648 /\
          fl & u32 (Z.lnot NETFLAG_LENGTH_MASK) = fl) as (H1 & H2 & H3).
  { unfold FLAGS in Hf. repeat (apply elem_of_cons in Hf as [->|Hf]; [by vm_compute|]).
    by apply not_elem_of_nil in Hf. }
  pose proof (low_high n fl Hn H1 ltac:(lia)) as Hs. split; [lia|]. split.
  - rewrite Hs. unfold NETFLAG_LENGTH_MASK. rewrite land_65535.
    Z.to_euclidean_division_equations; lia.
  - rewrite Z.land_lor_distr_l, H3.
    replace n with (Z.land n 65535) by (rewrite land_65535; by rewrite Z.mod_small).
    rewrite <- Z.land_assoc. change (65535 & u32 (Z.lnot NETFLAG_LENGTH_MASK)) with 0.
    by rewrite Z.land_0_r.
Qed.

(** ** Abstract packets *)

Definition frag : Type := bytes * bool.

Inductive pkt : Type :=
| PData (i : Z) (f : frag)
| PAck (i : Z)
| PUnreliable (i : Z) (d : bytes).

Definition frag_flags (eom : bool) : Z := NETFLAG_DATA .| (if eom then NETFLAG_EOM else 0).

Definition blen (d : bytes) : Z := Z.of_nat (length d).

Definition encode (p : pkt) : bytes :=
  match p with
  | PData i (d, eom) => mkpkt (NET_HEADERSIZE + blen d .| frag_flags eom) i d
  | PAck i => mkpkt (NET_HEADERSIZE + blen [] .| NETFLAG_ACK) i []
  | PUnreliable i d => mkpkt (NET_HEADERSIZE + blen d .| NETFLAG_UNRELIABLE) i d
  end.

(** The parts of the environment that matter between packets. *)
Definition env_same (e e' : dgenv) : Prop :=
  pbuf_ok e' /\ netmsg e' = netmsg e /\ net_time e' = net_time e.

Section receive.
Context (h : endian) (AddrToString : qsockaddr -> bytes).

Abbreviation GetPacket := (get_packet h UDP_AddrCompare AddrToString).

(** A packet from the peer is decoded to its length, flags and sequence number. *)
Lemma get_packet_dispatch e sock n fl i d :
  pbuf_ok e -> net_wait sock = false -> fl ∈ FLAGS ->
  blen d <= MAX_DATAGRAM -> 0 <= n <= NET_DATAGRAMSIZE -> 0 <= i < 4294967296 ->
  exists e1 rest,
    packetBuffer e1 = mkpkt (n .| fl) i d ++ rest /\
    outq e1 = outq e /\ env_same e e1 /\
    GetPacket e sock (mkpkt (n .| fl) i d) (addr sock) =
      if truth (fl & NETFLAG_UNRELIABLE)
      then get_unreliable e1 sock n i
      else if truth (fl & NETFLAG_ACK) then get_ack e1 sock i
      else if truth (fl & NETFLAG_DATA)
      then get_data h e1 sock fl n i (addr sock)
      else mret (Continue, sock, e1).
Proof.
  intros Hp Hw Hf Hd Hn Hi.
  unfold pbuf_ok, blen, NET_DATAGRAMSIZE, MAX_DATAGRAM, NET_HEADERSIZE in *.
  destruct (header_split n fl ltac:(lia) Hf) as (Hl1 & Hl2 & Hl3).
  set (l := _ .| fl) in *. set (p := mkpkt l i d).
  assert (length p = 8 + length d)%nat as Hlen by done.
  exists (set_packetsReceived (s32 (packetsReceived e + 1))
           (set_packetBuffer (p ++ drop (length p) (packetBuffer e)) e)),
    (drop (length p) (packetBuffer e)).
  cbn [packetBuffer outq set_packetsReceived set_packetBuffer].
  split; [done|]. split; [done|]. split.
  { unfold env_same, pbuf_ok. cbn. rewrite length_app, length_drop. split_and!; lia || done. }
  unfold get_packet. rewrite take_ge by (unfold NET_DATAGRAMSIZE, MAX_DATAGRAM, NET_HEADERSIZE; lia).
  rewrite store_ok by lia. rewrite bind_Ok.
  change (splice (packetBuffer e) (Z.to_nat 0) p) with (p ++ drop (length p) (packetBuffer e)).
  cbv zeta. case_if; [lia|]. rewrite Hw.
  assert (UDP_AddrCompare (addr sock) (addr sock) = 0) as -> by by apply UDP_AddrCompare_eq.
  cbn [negb andb Z.eqb]. case_if; [unfold NET_HEADERSIZE in *; lia|].
  cbn [packetBuffer set_packetBuffer].
  assert (forall r, p ++ r = be32 l ++ be32 i ++ d ++ r) as -> by done.
  rewrite (load_mid [] (be32 l) _ 0 4 eq_refl eq_refl
            : load (be32 l ++ _) 0 4 = _), bind_Ok.
  rewrite big_get, Hl2, Hl3 by done.
  case_if; [unfold NET_DATAGRAMSIZE, MAX_DATAGRAM, NET_HEADERSIZE in *; lia|].
  assert (truth (fl & NETFLAG_CTL) = false) as ->.
  { unfold FLAGS in Hf. repeat (apply elem_of_cons in Hf as [->|Hf]; [by vm_compute|]).
    by apply not_elem_of_nil in Hf. }
  rewrite (load_mid (be32 l) (be32 i) _ 4 4 eq_refl eq_refl), bind_Ok.
  rewrite big_get by done. by rewrite bind_Ok.
Qed.

End receive.

(** * Fragmentation *)

(** The packets of a message, by the rule all three sending functions use. *)
Fixpoint fragments (fuel : nat) (m : bytes) : list frag :=
  match fuel with
  | O => []
  | S fuel =>
      if blen m <=? MAX_DATAGRAM then [(m, true)]
      else (take 1024 m, false) :: fragments fuel (drop 1024 m)
  end.

Definition fragment (m : bytes) : list frag := fragments (S (length m)) m.

Definition frags (ms : list bytes) : list frag := ms ≫= fragment.

(** What the receiver makes of them. *)
Fixpoint asm (acc : bytes) (F : list frag) : bytes * list bytes :=
  match F with
  | [] => (acc, [])
  | (d, true) :: F => let '(a, g) := asm [] F in (a, (acc ++ d) :: g)
  | (d, false) :: F => asm (acc ++ d) F
  end.

Lemma fragments_fuel n : forall m k,
  (length m < n)%nat -> (length m < k)%nat -> fragments n m = fragments k m.
Proof.
  induction n as [|n IH]; intros m [|k] Hn Hk; try lia. cbn [fragments]. case_if; [done|].
  unfold blen, MAX_DATAGRAM in *.
  f_equal. apply IH; rewrite length_drop; lia.
Qed.

Lemma fragment_unfold m :
  fragment m = if blen m <=? MAX_DATAGRAM then [(m, true)]
               else (take 1024 m, false) :: fragment (drop 1024 m).
Proof.
  unfold fragment at 1. cbn [fragments]. case_if; [done|]. unfold blen, MAX_DATAGRAM in *.
  f_equal. apply fragments_fuel; rewrite length_drop; lia.
Qed.

Lemma bytes_chunk_ind (P : bytes -> Prop) :
  (forall m, blen m <= MAX_DATAGRAM -> P m) ->
  (forall m, MAX_DATAGRAM < blen m -> P (drop 1024 m) -> P m) -> forall m, P m.
Proof.
  intros H1 H2 m. remember (length m) as n eqn:Hn. revert m Hn.
  induction (Nat.lt_wf_0 n) as [n _ IH]. intros m ->. unfold blen, MAX_DATAGRAM in *.
  destruct (decide (Z.of_nat (length m) <= 1024)); [by apply H1|].
  apply H2; [lia|]. eapply IH; [|done]. rewrite length_drop. lia.
Qed.

Lemma fragment_nonempty m : fragment m <> [].
Proof. rewrite fragment_unfold. by case_if. Qed.

Lemma fragment_size m f : f ∈ fragment m -> blen f.1 <= MAX_DATAGRAM.
Proof.
  revert f. induction m as [m Hm|m Hm IH] using bytes_chunk_ind; intros f;
    rewrite fragment_unfold; (case_if; [|try lia]).
  - intros ->%list_elem_of_singleton. done.
  - lia.
  - intros [->|Hf]%elem_of_cons; [|by apply IH]. unfold blen, MAX_DATAGRAM. cbn.
    rewrite length_take. lia.
Qed.

Lemma frags_size ms f : f ∈ frags ms -> blen f.1 <= MAX_DATAGRAM.
Proof. intros (m & Hf & _)%list_elem_of_bind. by eapply fragment_size. Qed.

Lemma asm_fragment m : forall acc F,
  asm acc (fragment m ++ F) = let '(a, g) := asm [] F in (a, (acc ++ m) :: g).
Proof.
  induction m as [m Hm|m Hm IH] using bytes_chunk_ind; intros acc F; rewrite fragment_unfold;
    case_if; try lia; [done|].
  cbn [app asm]. rewrite IH. destruct (asm [] F). by rewrite <- app_assoc, take_drop.
Qed.

Lemma asm_frags ms : asm [] (frags ms) = ([], ms).
Proof.
  induction ms as [|m ms IH]; [done|].
  change (frags (m :: ms)) with (fragment m ++ frags ms). by rewrite asm_fragment, IH.
Qed.

(** A prefix of the packets of a message is a prefix of the message. *)
Lemma asm_fragment_take m : forall acc k, (k < length (fragment m))%nat ->
  exists p, asm acc (take k (fragment m)) = (acc ++ p, []) /\ p `prefix_of` m.
Proof.
  induction m as [m Hm|m Hm IH] using bytes_chunk_ind; intros acc k; rewrite fragment_unfold;
    case_if; try lia; cbn [length].
  - intros Hk. replace k with O by lia. exists []. rewrite app_nil_r. split; [done|apply prefix_nil].
  - destruct k as [|k]; intros Hk.
    + exists []. rewrite app_nil_r. split; [done|apply prefix_nil].
    + cbn [take asm]. destruct (IH (acc ++ take 1024 m) k ltac:(lia)) as (p & Hp & q & Hq).
      exists (take 1024 m ++ p). rewrite Hp, app_assoc. split; [done|]. exists q.
      by rewrite <- app_assoc, <- Hq, take_drop.
Qed.

(** What the receiver holds is always a prefix of what was sent: whole messages, then
    a part of the next one. *)
Lemma asm_prefix ms : forall k, exists j acc,
  asm [] (take k (frags ms)) = (acc, take j ms) /\
  (acc = [] \/ exists m, ms !! j = Some m /\ acc `prefix_of` m).
Proof.
  induction ms as [|m ms IH]; intros k.
  - exists O, []. change (frags []) with (@nil frag). rewrite !take_nil. split; [done|by left].
  - change (frags (m :: ms)) with (fragment m ++ frags ms).
    destruct (decide (k < length (fragment m))%nat) as [Hk|Hk].
    + destruct (asm_fragment_take m [] k Hk) as (p & Hp & Hpre).
      exists O, p. rewrite take_app_le by lia. split; [done|]. right. by exists m.
    + rewrite take_app_ge by lia. rewrite asm_fragment.
      destruct (IH (k - length (fragment m))%nat) as (j & acc & -> & Hacc).
      exists (S j), acc. by rewrite app_nil_l.
Qed.

Lemma asm_snoc F d eom : forall acc0 acc g,
  asm acc0 F = (acc, g) ->
  asm acc0 (F ++ [(d, eom)]) = if eom : bool then ([], g ++ [acc ++ d]) else (acc ++ d, g).
Proof.
  induction F as [|[d' [|]] F IH]; intros acc0 acc g; cbn [asm app].
  - intros [= <- <-]. by destruct eom.
  - destruct (asm [] F) as [a g'] eqn:E. intros [= <- <-]. rewrite (IH _ _ _ E). by destruct eom.
  - intros H. by apply IH.
Qed.

(** The bounds the receiver's buffers need. *)
Lemma asm_bounds ms k acc g :
  Forall (fun m => blen m <= NET_MAXMESSAGE) ms -> asm [] (take k (frags ms)) = (acc, g) ->
  blen acc <= NET_MAXMESSAGE /\ Forall (fun m => blen m <= NET_MAXMESSAGE) g /\ g `prefix_of` ms.
Proof.
  intros Hms Ha. destruct (asm_prefix ms k) as (j & acc' & Ha' & Hacc).
  rewrite Ha in Ha'. simplify_eq. split_and!.
  - destruct Hacc as [->|(m & Hm & q & ->)]; [done|].
    eapply Forall_lookup_1 in Hm; [|exact Hms]. unfold blen in *. rewrite length_app in Hm. lia.
  - by apply Forall_take.
  - apply prefix_take.
Qed.

(** * A connection between two endpoints *)

(** An endpoint with its history: the messages handed to the driver ([sent], [usent]) and
    the messages it returned ([got], [ugot]), reliable and unreliable. *)
Record endpoint : Type := EP {
  host : endian;
  sk : qsocket;
  env : dgenv;
  sent : list bytes;
  got : list bytes;
  usent : list bytes;
  ugot : list bytes
}.

(** The state after a receive that ended with [c]. *)
Definition deliver (c : ctl) (s : qsocket) (e : dgenv) (y : endpoint) : endpoint :=
  EP (host y) s e (sent y)
     (match c with Break 1 => got y ++ [contents (netmsg e)] | _ => got y end)
     (usent y)
     (match c with Break 2 => ugot y ++ [contents (netmsg e)] | _ => ugot y end).

Definition update (s : qsocket) (e : dgenv) (y : endpoint) : endpoint :=
  EP (host y) s e (sent y) (got y) (usent y) (ugot y).

Definition env_wf (e : dgenv) : Prop :=
  pbuf_ok e /\ sb_wf (netmsg e) /\ NET_MAXMESSAGE <= maxsize (netmsg e).

Definition ep_wf (x : endpoint) : Prop :=
  blen (sendMessage (sk x)) = NET_MAXMESSAGE /\ blen (receiveMessage (sk x)) = NET_MAXMESSAGE /\
  net_wait (sk x) = false /\ env_wf (env x) /\
  Forall (fun m => blen m <= NET_MAXMESSAGE) (sent x) /\
  Forall (fun m => blen m <= MAX_DATAGRAM) (usent x).

Definition pending (s : qsocket) : bytes := take (Z.to_nat (sendMessageLength s)) (sendMessage s).

Definition flen (x : endpoint) : Z := Z.of_nat (length (frags (sent x))).

(** The sender: everything acknowledged, or the unacknowledged rest of the last message
    pending in [sendMessage], with its first packet in flight unless [sendNext]. *)
Definition tx (x : endpoint) : Prop :=
  let s := sk x in
  0 <= ackSequence s /\ 0 <= sendMessageLength s <= NET_MAXMESSAGE /\
  if canSend s then
    sendNext s = false /\ sendSequence s = ackSequence s /\ ackSequence s = flen x
  else
    drop (Z.to_nat (ackSequence s)) (frags (sent x)) = fragment (pending s) /\
    sendSequence s = ackSequence s + (if sendNext s then 0 else 1).

(** The receiver [y] of [x]'s messages. *)
Definition rx (x y : endpoint) : Prop :=
  let r := receiveSequence (sk y) in
  ackSequence (sk x) <= r <= sendSequence (sk x) /\
  0 <= receiveMessageLength (sk y) <= NET_MAXMESSAGE /\
  asm [] (take (Z.to_nat r) (frags (sent x))) =
    (take (Z.to_nat (receiveMessageLength (sk y))) (receiveMessage (sk y)), got y).

Definition pkt_ok (x : endpoint) (q : pkt) : Prop :=
  match q with
  | PData i f => 0 <= i < sendSequence (sk x) /\ frags (sent x) !! Z.to_nat i = Some f
  | PAck i => 0 <= i < receiveSequence (sk x)
  | PUnreliable i d => 0 <= i /\ usent x !! Z.to_nat i = Some d
  end.

(** Every packet the endpoint has ever written. *)
Definition soup (x : endpoint) : Prop :=
  Forall (fun p => exists q, p.1 = encode q /\ pkt_ok x q) (outq (env x)).

Definition unreliable (x y : endpoint) : Prop :=
  unreliableSendSequence (sk x) = Z.of_nat (length (usent x)) /\
  0 <= unreliableReceiveSequence (sk y) /\
  ugot y `sublist_of` take (Z.to_nat (unreliableReceiveSequence (sk y))) (usent x).

Definition link (x y : endpoint) : Prop :=
  ep_wf x /\ tx x /\ soup x /\ rx x y /\ unreliable x y.

Definition connected (x y : endpoint) : Prop := link x y /\ link y x.

(** The 32-bit sequence numbers have not wrapped around. *)
Definition bounded (x : endpoint) : Prop :=
  flen x < 4294967296 /\ Z.of_nat (length (usent x)) < 4294967296.

(** ** The sender's state *)

Lemma tx_sequence x : tx x -> 0 <= ackSequence (sk x) <= sendSequence (sk x) /\
  sendSequence (sk x) <= ackSequence (sk x) + 1 /\ sendSequence (sk x) <= flen x.
Proof.
  unfold tx, flen. intros (Ha & _ & H). destruct (canSend (sk x)).
  - destruct H as (_ & Hs & Hf). lia.
  - destruct H as (Hd & Hs).
    assert (length (drop (Z.to_nat (ackSequence (sk x))) (frags (sent x))) <> 0)%nat as Hn.
    { rewrite Hd. intros ?%nil_length_inv. by eapply fragment_nonempty. }
    rewrite length_drop in Hn. destruct (sendNext (sk x)); lia.
Qed.

Lemma soup_mono x y : 
  soup x -> outq (env y) = outq (env x) ->
  sendSequence (sk x) <= sendSequence (sk y) -> receiveSequence (sk x) <= receiveSequence (sk y) ->
  sent x `prefix_of` sent y -> usent x `prefix_of` usent y -> soup y.
Proof.
  unfold soup. intros Hs -> H1 H2 [l Hl] [l' Hl']. eapply Forall_impl; [exact Hs|].
  intros p (q & Hq & Hok). exists q. split; [done|]. destruct q; cbn in *; [|lia|].
  - destruct Hok as [? Hk]. split; [lia|]. rewrite Hl. unfold frags. rewrite bind_app.
    by apply lookup_app_l_Some.
  - destruct Hok as [? Hk]. split; [lia|]. rewrite Hl'. by apply lookup_app_l_Some.
Qed.

Lemma frag_at x i f : frags (sent x) !! i = Some f -> blen f.1 <= MAX_DATAGRAM.
Proof. intros H. eapply frags_size, list_elem_of_lookup_2, H. Qed.

Lemma unreliable_size x i d : ep_wf x -> usent x !! i = Some d -> blen d <= MAX_DATAGRAM.
Proof. intros (_ & _ & _ & _ & _ & H) Hi. exact (Forall_lookup_1 _ _ _ _ H Hi). Qed.

(** ** Receiving *)

Lemma contents_clear_write b d :
  sb_wf b -> blen d <= maxsize b ->
  exists b', SZ_Write (SZ_Clear b) d = Ok b' /\ sb_wf b' /\ contents b' = d /\
    maxsize b' = maxsize b /\ cursize b' = blen d.
Proof.
  intros Hw Hd. destruct (SZ_Write_fits (SZ_Clear b) d) as (b' & -> & Hw' & Hc & Hcur & _ & Hm & _).
  - by apply sb_wf_clear.
  - cbn. unfold blen in Hd. lia.
  - exists b'. split_and!; try done.
Qed.

(** The effect of the acknowledgement the data branch writes first. *)
Lemma ack_written h e i fl d rest dst :
  packetBuffer e = mkpkt (NET_HEADERSIZE + blen d .| fl) i d ++ rest -> pbuf_ok e ->
  exists e', (e ← put_header h (NET_HEADERSIZE .| NETFLAG_ACK) i e;
              Write e NET_HEADERSIZE dst) ≫= (fun '(_, e) => mret e) = Ok e' /\
    packetBuffer e' = encode (PAck i) ++ d ++ rest /\ env_same e e' /\
    (outq e' = outq e \/ outq e' = outq e ++ [(encode (PAck i), dst)]).
Proof.
  intros Hb Hp. rewrite put_header_ok, bind_Ok by done. rewrite Hb.
  assert (forall l, drop 8 (mkpkt l i d ++ rest) = d ++ rest) as -> by done.
  set (e1 := set_packetBuffer _ e).
  destruct (Write_ok e1 (encode (PAck i)) (d ++ rest) NET_HEADERSIZE dst) as (ok & w & ->); [done|done|].
  rewrite bind_Ok. eexists. split; [done|]. cbn. split_and!; [done| |].
  - unfold env_same, pbuf_ok in *. cbn. split_and!; try done. by rewrite Hb in Hp.
  - destruct ok; [by right|left]. by rewrite app_nil_r.
Qed.

(** What the data branch does with the packet it expects. *)
Definition accept (e : dgenv) (sock : qsocket) (d : bytes) (eom : bool)
  : res (ctl * qsocket * dgenv) :=
  let sock := set_receiveSequence (u32 (receiveSequence sock + 1)) sock in
  if eom then
    part ← load (receiveMessage sock) 0 (receiveMessageLength sock);
    m ← SZ_Write (SZ_Clear (netmsg e)) part;
    m ← SZ_Write m d;
    mret (Break 1, set_receiveMessageLength 0 sock, set_netmsg m e)
  else
    m ← store (receiveMessage sock) (receiveMessageLength sock) d;
    mret (Continue,
          set_receiveMessageLength (s32 (receiveMessageLength sock + blen d))
            (set_receiveMessage m sock), e).

(** [get_data] is: acknowledge, then ignore, store or deliver. *)
Lemma get_data_unfold h e e1 sock i fl d rest eom :
  (e ← put_header h (NET_HEADERSIZE .| NETFLAG_ACK) i e;
   Write e NET_HEADERSIZE (addr sock)) ≫= (fun '(_, e) => mret e) = Ok e1 ->
  packetBuffer e1 = encode (PAck i) ++ d ++ rest -> blen d <= MAX_DATAGRAM ->
  truth (fl & NETFLAG_EOM) = eom ->
  get_data h e sock fl (NET_HEADERSIZE + blen d) i (addr sock) =
    if negb (i =? receiveSequence sock) then
      mret (Continue, sock, set_receivedDuplicateCount (s32 (receivedDuplicateCount e1 + 1)) e1)
    else
      accept e1 sock d eom.
Proof.
  intros He Hb Hd Hf. unfold get_data.
  apply bind_Ok_inv in He as ([ok e2] & He & [= ->]).
  apply bind_Ok_inv in He as (e0 & -> & HW). rewrite bind_Ok, HW, bind_Ok.
  case_if; [done|]. cbv zeta.
  unfold NET_HEADERSIZE, MAX_DATAGRAM, blen in *.
  replace (u32 (8 + Z.of_nat (length d) - 8)) with (Z.of_nat (length d)) by wrap_lia.
  rewrite (s32_id (Z.of_nat (length d))) by lia. rewrite Hb, (load_mid (encode (PAck i)) d rest) by done.
  rewrite bind_Ok, Hf. by destruct eom.
Qed.

Lemma packet_len d : blen d <= MAX_DATAGRAM -> 0 <= NET_HEADERSIZE + blen d <= NET_DATAGRAMSIZE.
Proof. unfold NET_DATAGRAMSIZE, NET_HEADERSIZE, blen. lia. Qed.

Section link_receive.
Context (AddrToString : qsockaddr -> bytes).
Context (x y : endpoint) (Hxy : connected x y) (Hbx : bounded x) (Hby : bounded y).

Abbreviation GetPacket := (get_packet (host y) UDP_AddrCompare AddrToString (env y) (sk y)).

Definition receives (d : bytes) (from : qsockaddr) : Prop :=
  exists c s e, GetPacket d from = Ok (c, s, e) /\ addr s = addr (sk y) /\
    (forall r, c <> Return r) /\ (forall r, c = Break r -> 0 <= r <= 2) /\
    connected x (deliver c s e y).

(** The rest of the invariant when only the receiving half of [y] changes. *)
Lemma connected_rx s e y' :
  y' = EP (host y) s e (sent y) (got y') (usent y) (ugot y') ->
  sendMessage s = sendMessage (sk y) -> blen (receiveMessage s) = NET_MAXMESSAGE ->
  net_wait s = false -> env_wf e ->
  canSend s = canSend (sk y) -> sendNext s = sendNext (sk y) ->
  ackSequence s = ackSequence (sk y) -> sendSequence s = sendSequence (sk y) ->
  sendMessageLength s = sendMessageLength (sk y) ->
  unreliableSendSequence s = unreliableSendSequence (sk y) ->
  soup y' -> rx x y' -> unreliable x y' -> connected x y'.
Proof.
  intros Hy' H1 H2 H3 H4 H5 H6 H7 H8 H9 H10 Hso Hrx Hun.
  destruct Hxy as [(Hw & Ht & Hs & _ & _) ((Hy1 & Hy2 & Hy3 & Hy4 & Hy5 & Hy6) & Ht' & _ & Hr & Hu)].
  rewrite Hy' in *. split; [done|]. split_and!; try done.
  - unfold ep_wf. cbn [sk env sent usent]. rewrite H1. done.
  - unfold tx, flen, pending in *. cbn [sk sent]. by rewrite H1, H5, H6, H7, H8, H9.
  - unfold rx in *. cbn [sk sent got]. by rewrite H7, H8.
  - unfold unreliable in *. cbn [sk usent ugot]. by rewrite H10.
Qed.

(** The packets of [y] stay accounted for when it has acknowledged packet [i]. *)
Lemma soup_ack i s e g ug :
  0 <= i < receiveSequence s -> receiveSequence (sk y) <= receiveSequence s ->
  sendSequence s = sendSequence (sk y) ->
  outq e = outq (env y) \/ outq e = outq (env y) ++ [(encode (PAck i), addr (sk y))] ->
  soup (EP (host y) s e (sent y) g (usent y) ug).
Proof.
  intros Hi Hge Hss Ho. destruct Hxy as [_ (_ & _ & Hso & _)].
  assert (soup (EP (host y) s (env y) (sent y) g (usent y) ug)) as Hold
    by (eapply soup_mono; [exact Hso|done|cbn; lia|cbn; lia|done|done]).
  unfold soup in *. cbn [env] in *. destruct Ho as [-> | ->]; [exact Hold|].
  apply Forall_app. split; [exact Hold|]. constructor; [|constructor]. by exists (PAck i).
Qed.

(** The receiver's buffer after the expected packet. *)
Lemma rx_next d (eom : bool) :
  frags (sent x) !! Z.to_nat (receiveSequence (sk y)) = Some (d, eom) ->
  let acc := take (Z.to_nat (receiveMessageLength (sk y))) (receiveMessage (sk y)) in
  asm [] (take (Z.to_nat (receiveSequence (sk y) + 1)) (frags (sent x))) =
    (if eom then ([], got y ++ [acc ++ d]) else (acc ++ d, got y)) /\
  blen acc = receiveMessageLength (sk y) /\
  receiveMessageLength (sk y) + blen d <= NET_MAXMESSAGE.
Proof.
  intros Hf acc.
  destruct Hxy as [(Hw & Ht & _ & (Hrr & Hrl & Ha) & _) ((_ & Hy2 & _) & _)].
  pose proof (tx_sequence _ Ht) as Hseq. fold acc in Ha.
  assert (blen acc = receiveMessageLength (sk y)) as Hal.
  { unfold acc, blen in *. rewrite length_take. lia. }
  assert (asm [] (take (Z.to_nat (receiveSequence (sk y) + 1)) (frags (sent x))) =
            if eom then ([], got y ++ [acc ++ d]) else (acc ++ d, got y)) as Hsn.
  { rewrite <- (asm_snoc _ d eom _ _ _ Ha). f_equal.
    rewrite Z2Nat.inj_add, Nat.add_1_r by lia. by apply take_S_r. }
  split; [done|]. split; [done|].
  assert (blen (acc ++ d) <= NET_MAXMESSAGE) as Hb.
  { destruct eom; destruct (asm_bounds (sent x) _ _ _ ltac:(apply Hw) Hsn) as (H1 & H2 & _); [|done].
    apply Forall_app in H2 as [_ H2]. by apply Forall_cons in H2 as [? _]. }
  unfold blen in *. rewrite length_app in Hb. lia.
Qed.

Lemma accept_ok e d eom :
  frags (sent x) !! Z.to_nat (receiveSequence (sk y)) = Some (d, eom) ->
  receiveSequence (sk y) < sendSequence (sk x) -> env_wf e ->
  outq e = outq (env y) \/
    outq e = outq (env y) ++ [(encode (PAck (receiveSequence (sk y))), addr (sk y))] ->
  exists c s e', accept e (sk y) d eom = Ok (c, s, e') /\ addr s = addr (sk y) /\
    (forall r, c <> Return r) /\ (forall r, c = Break r -> 0 <= r <= 2) /\
    connected x (deliver c s e' y).
Proof.
  intros Hf Hlt (Hpb & Hnm & Hmx) Ho. pose proof (rx_next d eom Hf) as (Hsn & Hal & Hle).
  destruct Hxy as [(Hw & Ht & _ & (Hrr & Hrl & _) & Hu) ((Hy1 & Hy2 & Hy3 & _) & _)].
  pose proof (tx_sequence _ Ht) as Hseq. destruct Hbx as [Hbf _].
  unfold accept. rewrite u32_id by lia.
  set (acc := take _ (receiveMessage _)) in *. set (s1 := set_receiveSequence _ (sk y)).
  assert (0 <= blen d) by (unfold blen; lia).
  destruct eom.
  - change (receiveMessage s1) with (receiveMessage (sk y)).
    change (receiveMessageLength s1) with (receiveMessageLength (sk y)).
    rewrite load_ok by (unfold blen in *; lia). change (slice _ 0 _) with acc. rewrite bind_Ok.
    destruct (contents_clear_write (netmsg e) acc) as (m1 & -> & Hm1 & Hc1 & Hx1 & Hcu); [done|lia|].
    rewrite bind_Ok.
    destruct (SZ_Write_fits m1 d) as (m2 & -> & Hm2 & Hc2 & _ & _ & Hx2 & _); [done|unfold blen in *; lia|].
    rewrite bind_Ok. eexists _, _, _. split; [done|]. split; [done|]. split; [done|].
    split; [intros r [= <-]; lia|].
    apply (connected_rx (set_receiveMessageLength 0 s1) (set_netmsg m2 e)); try done.
    + unfold env_wf. cbn. split_and!; [done|done|lia].
    + apply (soup_ack (receiveSequence (sk y))); try done; cbn; lia.
    + unfold rx. cbn -[asm Z.to_nat]. rewrite Hsn, Hc2, Hc1. split_and!; try lia. done.
  - change (receiveMessage s1) with (receiveMessage (sk y)).
    change (receiveMessageLength s1) with (receiveMessageLength (sk y)).
    rewrite store_ok by (unfold blen in *; lia). rewrite bind_Ok.
    rewrite s32_id by (unfold NET_MAXMESSAGE in *; lia).
    eexists _, _, _. split; [done|]. split; [done|]. split; [done|]. split; [done|].
    eapply (connected_rx _ e); [reflexivity|..]; try done.
    + cbn. unfold blen in *. rewrite length_splice by lia. done.
    + apply (soup_ack (receiveSequence (sk y))); try done; cbn; lia.
    + unfold rx. cbn -[asm Z.to_nat]. rewrite Hsn. split_and!; try lia. f_equal.
      unfold blen in *. rewrite Z2Nat.inj_add, Nat2Z.id, take_splice_through by lia. done.
Qed.

(** A data packet already received: only its acknowledgement is repeated.  The next one
    expected: stored, or delivered when it ends a message. *)
Lemma receive_data i f : pkt_ok x (PData i f) -> receives (encode (PData i f)) (addr (sk y)).
Proof.
  intros [Hi Hf]. destruct f as [d eom]. pose proof (frag_at _ _ _ Hf) as Hd. cbn [fst] in Hd.
  destruct Hxy as [(Hw & Ht & _ & (Hrr & Hrl & Ha) & Hu) ((Hy1 & Hy2 & Hy3 & (Hpb & Hnm & Hmx) & _) & _)].
  pose proof (tx_sequence _ Ht) as Hseq. destruct Hbx as [Hbf _].
  destruct (get_packet_dispatch (host y) AddrToString (env y) (sk y) (NET_HEADERSIZE + blen d) (frag_flags eom) i d)
    as (e1 & rest & Hb1 & Ho1 & (Hp1 & Hn1 & Ht1) & HG);
    [done|done|by destruct eom; set_solver|done|by apply packet_len|lia|].
  unfold receives. cbn [encode]. rewrite HG. clear HG.
  replace (truth (frag_flags eom & NETFLAG_UNRELIABLE)) with false by by destruct eom.
  replace (truth (frag_flags eom & NETFLAG_ACK)) with false by by destruct eom.
  replace (truth (frag_flags eom & NETFLAG_DATA)) with true by by destruct eom.
  destruct (ack_written (host y) e1 i _ d rest (addr (sk y)) Hb1 Hp1)
    as (e2 & HA & Hb2 & (Hp2 & Hn2 & Ht2) & Ho2).
  rewrite (get_data_unfold _ _ _ _ _ _ _ _ eom HA Hb2 Hd) by by destruct eom.
  rewrite Ho1 in Ho2.
  assert (env_wf e2) as Hwf by (unfold env_wf; by rewrite Hn2, Hn1).
  case_if; [|subst i; apply accept_ok; [done|lia|done|done]].
  eexists _, _, _. split; [done|]. split; [done|]. split; [done|]. split; [done|].
  apply (connected_rx (sk y) (set_receivedDuplicateCount (s32 (receivedDuplicateCount e2 + 1)) e2));
    try done. apply (soup_ack i); try done; lia.
Qed.

(** The rest of the invariant when only the sending half of [y] changes. *)
Lemma connected_tx s e :
  blen (sendMessage s) = NET_MAXMESSAGE -> receiveMessage s = receiveMessage (sk y) ->
  net_wait s = false -> env_wf e -> outq e = outq (env y) ->
  receiveSequence s = receiveSequence (sk y) ->
  unreliableReceiveSequence s = unreliableReceiveSequence (sk y) ->
  receiveMessageLength s = receiveMessageLength (sk y) ->
  sendSequence s = sendSequence (sk y) ->
  unreliableSendSequence s = unreliableSendSequence (sk y) ->
  ackSequence s <= receiveSequence (sk x) ->
  tx (update s e y) -> connected x (update s e y).
Proof.
  intros H1 H2 H3 H4 Ho H5 H6 H7 H8 H9 Hle Htx.
  destruct Hxy as [(Hw & Ht & Hs & Hr' & Hu') ((Hy1 & Hy2 & Hy3 & Hy4 & Hy5 & Hy6) & _ & Hso & Hr & Hu)].
  split; split_and!; try done.
  - unfold rx in *. cbn [update sk sent got]. by rewrite H2, H5, H7.
  - unfold unreliable in *. cbn [update sk usent ugot]. by rewrite H6.
  - unfold ep_wf. cbn [update sk env sent usent]. by rewrite H2.
  - eapply soup_mono; [exact Hso|done|cbn; lia|cbn; lia|done|done].
  - unfold rx in *. cbn [update sk sent got]. rewrite H8. destruct Hr as ([? ?] & ? & ?). done.
  - unfold unreliable in *. cbn [update sk usent ugot]. by rewrite H9.
Qed.

(** The acknowledgement of the packet in flight advances the sender; any other is ignored. *)
Lemma receive_ack i : pkt_ok x (PAck i) -> receives (encode (PAck i)) (addr (sk y)).
Proof.
  intros Hi. cbn in Hi. unfold receives.
  destruct Hxy as [_ ((Hy1 & Hy2 & Hy3 & (Hpb & Hnm & Hmx) & Hy5 & Hy6) & Ht & _ & (Hrr & _) & _)].
  pose proof (tx_sequence _ Ht) as Hseq. destruct Hby as [Hbf _].
  destruct (get_packet_dispatch (host y) AddrToString (env y) (sk y) (NET_HEADERSIZE + blen []) NETFLAG_ACK i [])
    as (e1 & rest & Hb1 & Ho1 & (Hp1 & Hn1 & Ht1) & HG); [done|done|set_solver|done|by apply packet_len|lia|].
  cbn [encode]. rewrite HG. clear HG.
  change (truth (NETFLAG_ACK & NETFLAG_UNRELIABLE)) with false.
  change (truth (NETFLAG_ACK & NETFLAG_ACK)) with true. cbn iota.
  assert (env_wf e1) as Hwf by (unfold env_wf; by rewrite Hn1).
  assert (connected x (deliver Continue (sk y) e1 y)) as Hsame.
  { apply connected_tx; try done. lia. }
  unfold get_ack. rewrite u32_id by lia.
  case_if; [by eexists _, _, _|]. case_if; [by eexists _, _, _|]. subst i. rewrite E0 in *.
  destruct Ht as (Ha0 & Hlen & Hmode).
  destruct (canSend (sk y)) eqn:Hcan; [lia|]. destruct Hmode as [Hd Hs].
  destruct (sendNext (sk y)) eqn:Hsn; [lia|]. rewrite u32_id by lia.
  set (s1 := set_ackSequence _ _). unfold NET_MAXMESSAGE, MAX_DATAGRAM in *.
  change (sendMessageLength s1) with (sendMessageLength (sk y)). rewrite s32_id by lia.
  set (n := sendMessageLength (sk y) - 1024) in *. set (s2 := set_sendMessageLength n s1).
  change (sendMessageLength s2) with n. change (sendMessage s2) with (sendMessage (sk y)).
  assert (drop (Z.to_nat (ackSequence (sk y) + 1)) (frags (sent y)) = tail (fragment (pending (sk y)))) as Htl.
  { rewrite <- Hd, Z2Nat.inj_add, <- drop_drop by lia. by destruct (drop _ (frags _)). }
  assert (blen (pending (sk y)) = sendMessageLength (sk y)) as Hpl.
  { unfold pending, blen in *. rewrite length_take. lia. }
  rewrite fragment_unfold, Hpl in Htl. unfold MAX_DATAGRAM in Htl.
  case_if.
  - rewrite load_ok by (unfold blen in *; lia). rewrite bind_Ok.
    assert (Z.of_nat (length (slice (sendMessage (sk y)) 1024 n)) = n) as Hsl
      by (apply slice_length; unfold blen in *; lia).
    rewrite store_ok by (unfold blen in *; lia). rewrite bind_Ok.
    eexists _, _, _. split; [done|]. split; [done|]. split; [done|]. split; [done|].
    apply connected_tx; try done.
    + cbn. unfold blen in *. rewrite length_splice by lia. done.
    + cbn. lia.
    + unfold tx, pending, NET_MAXMESSAGE. cbn -[Z.to_nat fragment frags]. rewrite Hcan. split_and!; try lia.
      rewrite Htl. case_if; [lia|]. cbn [tail]. f_equal.
      set (d := slice _ 1024 n) in *. replace (Z.to_nat n) with (0 + length d)%nat by lia.
      etrans; [|symmetry; apply (take_splice_through (sendMessage (sk y)) 0); unfold blen in *; lia].
      unfold d, pending, slice. rewrite take_0, app_nil_l, take_drop_commute.
      change (Z.to_nat 1024) with 1024%nat. do 2 f_equal. lia.
  - eexists _, _, _. split; [done|]. split; [done|]. split; [done|]. split; [done|].
    apply connected_tx; try done; [cbn; lia|].
    unfold tx, flen. cbn. split_and!; try lia; try done.
    destruct (sendMessageLength (sk y) <=? 1024) eqn:E2; bool_props; [|lia].
    apply (f_equal length) in Htl. rewrite length_drop in Htl. cbn in Htl.
    fold (frags (sent y)). unfold flen in *. lia.
Qed.

(** An unreliable packet is delivered unless a later one has been. *)
Lemma receive_unreliable i d :
  pkt_ok x (PUnreliable i d) -> receives (encode (PUnreliable i d)) (addr (sk y)).
Proof.
  intros [Hi Hd]. unfold receives.
  destruct Hxy as [(Hw & Ht & Hs & Hr & (Hus & Hur & Hsub)) ((Hy1 & Hy2 & Hy3 & (Hpb & Hnm & Hmx) & Hy5 & Hy6) & _ & Hso & _)].
  pose proof (unreliable_size _ _ _ Hw Hd) as Hdl. destruct Hbx as [_ Hbu].
  pose proof (lookup_lt_Some _ _ _ Hd) as Hlt.
  destruct (get_packet_dispatch (host y) AddrToString (env y) (sk y) (NET_HEADERSIZE + blen d) NETFLAG_UNRELIABLE i d)
    as (e1 & rest & Hb1 & Ho1 & (Hp1 & Hn1 & Ht1) & HG); [done|done|set_solver|done|by apply packet_len|lia|].
  cbn [encode]. rewrite HG. clear HG.
  change (truth (NETFLAG_UNRELIABLE & NETFLAG_UNRELIABLE)) with true. cbn iota.
  assert (forall s e g ug, receiveSequence s = receiveSequence (sk y) ->
    sendSequence s = sendSequence (sk y) -> outq e = outq (env y) ->
    soup (EP (host y) s e (sent y) g (usent y) ug)) as Hsoup.
  { intros s e g ug H1 H2 H3. eapply soup_mono; [exact Hso|done|cbn; lia|cbn; lia|done|done]. }
  unfold get_unreliable. case_if.
  - eexists _, _, _. split; [done|]. split; [done|]. split; [done|].
    split; [intros r [= <-]; lia|].
    apply (connected_rx (sk y) e1); try done; [unfold env_wf; by rewrite Hn1|by apply Hsoup].
  - set (e2 := if negb _ then _ else _).
    assert (packetBuffer e2 = packetBuffer e1 /\ outq e2 = outq e1 /\ netmsg e2 = netmsg e1)
      as (Hb2 & Ho2 & Hn2) by (unfold e2; by destruct (negb _)).
    unfold NET_HEADERSIZE, MAX_DATAGRAM in *. rewrite u32_id by lia.
    assert (0 <= blen d) by (unfold blen; lia).
    replace (u32 (8 + blen d - 8)) with (blen d) by wrap_lia. rewrite s32_id by lia.
    rewrite Hb2, Hb1. unfold mkpkt. rewrite (app_assoc (be32 _)), <- (app_assoc _ d).
    rewrite load_mid by done. rewrite bind_Ok.
    destruct (contents_clear_write (netmsg e2) d) as (m & -> & Hm & Hc & Hx & _).
    { by rewrite Hn2, Hn1. } { rewrite Hn2, Hn1. unfold NET_MAXMESSAGE in *. lia. }
    rewrite bind_Ok. eexists _, _, _. split; [done|]. split; [done|]. split; [done|].
    split; [intros r [= <-]; lia|].
    apply (connected_rx (set_unreliableReceiveSequence (i + 1) (sk y)) (set_netmsg m e2)); try done.
    + unfold env_wf, pbuf_ok in *. cbn. rewrite Hb2, Hx, Hn2, Hn1. done.
    + apply Hsoup; [done|done|]. cbn. congruence.
    + unfold unreliable. cbn -[Z.to_nat]. split_and!; [done|lia|].
      rewrite Hc, Z2Nat.inj_add, Nat.add_1_r, (take_S_r _ _ d) by (lia || done).
      apply sublist_app; [|done]. etrans; [exact Hsub|].
      replace (Z.to_nat (unreliableReceiveSequence (sk y))) with
        (Z.to_nat (unreliableReceiveSequence (sk y)) `min` Z.to_nat i)%nat by lia.
      rewrite <- take_take. apply sublist_take.
Qed.

(** Anything from another address is dropped. *)
Lemma receive_forged d from :
  UDP_AddrCompare from (addr (sk y)) <> 0 -> receives d from.
Proof.
  intros Hf. unfold receives, get_packet.
  destruct Hxy as [_ ((Hy1 & Hy2 & Hy3 & (Hpb & Hnm & Hmx) & Hy5 & Hy6) & Ht & _ & (Hrr & _) & _)].
  set (d' := take _ d).
  assert (length d' <= 1032)%nat as Hd'
    by (unfold d', NET_DATAGRAMSIZE, MAX_DATAGRAM, NET_HEADERSIZE; rewrite length_take; lia).
  unfold pbuf_ok in Hpb.
  rewrite store_ok by lia. rewrite bind_Ok. cbv zeta. set (e1 := set_packetBuffer _ _).
  assert (connected x (deliver Continue (sk y) e1 y)) as Hok.
  { apply connected_tx; try done; [|lia]. unfold env_wf, pbuf_ok. cbn.
    rewrite length_splice by (cbn; lia). done. }
  case_if.
  - eexists _, _, _. split; [done|]. split; [done|]. split; [done|].
    split; [intros r [= <-]; lia|]. exact Hok.
  - rewrite Hy3. apply Z.eqb_neq in Hf. rewrite Hf. cbn [negb andb].
    by eexists _, _, _.
Qed.

End link_receive.

(** * Calls *)

(** What may arrive at [y]: packets its peer [x] wrote, at any time, any number of
    times, in any order; and anything at all from other addresses. *)
Definition allowed (x y : endpoint) (a : arrival) : Prop :=
  match a with
  | Datagram d from =>
      (from = addr (sk y) /\ d ∈ (outq (env x)).*1) \/ UDP_AddrCompare from (addr (sk y)) <> 0
  | ReadError => False
  end.

Section calls.
Context (AddrToString : qsockaddr -> bytes).

Lemma receive_allowed x y d from :
  connected x y -> bounded x -> bounded y -> allowed x y (Datagram d from) ->
  receives AddrToString x y d from.
Proof.
  intros Hc Hbx Hby [[-> Hd]|Hf]; [|by apply receive_forged].
  apply list_elem_of_fmap in Hd as (p & -> & Hp).
  pose proof Hc as [(_ & _ & Hs & _) _].
  unfold soup in Hs. rewrite Forall_forall in Hs. apply Hs in Hp as (q & -> & Hq).
  destruct q; [by apply receive_data|by apply receive_ack|by apply receive_unreliable].
Qed.

Lemma get_loop_ok x arrivals : forall y,
  connected x y -> bounded x -> bounded y -> Forall (allowed x y) arrivals ->
  exists r rest s e,
    get_loop (host y) UDP_AddrCompare AddrToString (env y) (sk y) arrivals =
      Ok (Break r, rest, s, e) /\ 0 <= r <= 2 /\
    addr s = addr (sk y) /\ connected x (deliver (Break r) s e y).
Proof.
  induction arrivals as [|a arrivals IH]; intros y Hc Hbx Hby Hall; cbn [get_loop].
  { exists 0, [], (sk y), (env y). split_and!; try done. }
  apply Forall_cons in Hall as [Ha Hall]. destruct a as [d from|]; [|done].
  destruct (receive_allowed _ _ _ _ Hc Hbx Hby Ha) as (c & s & e & -> & Had & HR & HB & Hc').
  rewrite bind_Ok. destruct c as [|r|r]; [|by eauto 10|by edestruct HR].
  destruct (IH (deliver Continue s e y)) as (r & rest & s' & e' & HG & Hr & Had' & Hc'').
  - done. - done. - done.
  - eapply Forall_impl; [exact Hall|]. intros [d' f'|]; cbn; [|done]. by rewrite Had.
  - cbn [deliver host env sk] in HG. rewrite HG. exists r, rest, s', e'.
    split; [done|]. split; [done|]. split; [cbn in Had'; congruence|exact Hc''].
Qed.

(** ** Sending *)

(** The rest of the invariant when [y] sends: its history and its packets grow. *)
Lemma connected_send x y y' :
  connected x y -> host y' = host y -> got y' = got y -> ugot y' = ugot y ->
  ep_wf y' -> receiveMessage (sk y') = receiveMessage (sk y) ->
  receiveSequence (sk y') = receiveSequence (sk y) ->
  unreliableReceiveSequence (sk y') = unreliableReceiveSequence (sk y) ->
  receiveMessageLength (sk y') = receiveMessageLength (sk y) ->
  ackSequence (sk y') = ackSequence (sk y) -> sendSequence (sk y) <= sendSequence (sk y') ->
  unreliableSendSequence (sk y') = Z.of_nat (length (usent y')) ->
  sent y `prefix_of` sent y' -> usent y `prefix_of` usent y' ->
  tx y' -> soup y' -> connected x y'.
Proof.
  intros [(Hw & Ht & Hs & Hr & Hu) (_ & Hty & _ & (Hr1 & Hr2 & Hr3) & (Hu1 & Hu2 & Hu3))].
  intros Hh Hg Hug Hwf H1 H2 H3 H4 H5 H6 H7 [l Hl] [l' Hl'] Htx Hso.
  pose proof (tx_sequence _ Hty) as Hseq. split; split_and!; try done.
  - unfold rx in *. by rewrite Hg, H1, H2, H4.
  - unfold unreliable in *. by rewrite Hug, H3.
  - unfold rx. rewrite H5. split_and!; try lia; try done. rewrite <- Hr3. f_equal.
    rewrite Hl. unfold frags. rewrite bind_app, take_app_le; [done|].
    unfold flen, frags in *. lia.
  - unfold unreliable. split_and!; [done|done|]. rewrite Hl', take_app.
    by apply sublist_inserts_r.
Qed.

(** Filling the packet buffer and writing it out, before whatever comes next. *)
Lemma transmit {A} (Q : res A -> Prop) h e l seq msg n dst (k : bool * dgenv -> res A) :
  pbuf_ok e -> 0 <= n <= MAX_DATAGRAM -> n <= blen msg ->
  (forall ok e', env_same e e' ->
     outq e' = outq e ++ (if ok : bool then [(mkpkt l seq (slice msg 0 n), dst)] else []) ->
     Q (k (ok, e'))) ->
  Q (e ← put_header h l seq e; f ← load msg 0 n; e ← put_data f e;
     Write e (NET_HEADERSIZE + n) dst ≫= k).
Proof.
  intros Hp Hn Hm HQ. rewrite put_header_ok, bind_Ok by done.
  unfold blen, MAX_DATAGRAM, NET_HEADERSIZE, env_same, pbuf_ok in *.
  rewrite load_ok by lia. rewrite bind_Ok.
  pose proof (slice_length msg 0 n) as Hsl.
  erewrite (put_data_ok _ (be32 l ++ be32 seq)); [| |done|]; cycle 1.
  { cbn [packetBuffer set_packetBuffer]. by rewrite <- app_assoc. }
  { rewrite length_drop. lia. }
  rewrite bind_Ok. cbn [packetBuffer set_packetBuffer].
  set (e1 := set_packetBuffer _ _).
  destruct (Write_ok e1 (mkpkt l seq (slice msg 0 n))
              (drop (length (slice msg 0 n)) (drop 8 (packetBuffer e))) (8 + n) dst)
    as (ok & w & HW).
  { unfold e1, mkpkt. cbn [packetBuffer set_packetBuffer]. by rewrite <- !app_assoc. }
  { unfold mkpkt. rewrite !length_app. cbn. lia. }
  rewrite HW, bind_Ok. apply HQ; [|done]. unfold e1. cbn [packetBuffer netmsg net_time set_packetBuffer set_wfail set_outq].
  split_and!; try done. rewrite !length_app, !length_drop. cbn [length be32]. lia.
Qed.

(** The packet [next_fragment] selects is the first of the pending message's. *)
Lemma next_fragment_first s :
  0 <= sendMessageLength s <= NET_MAXMESSAGE -> blen (sendMessage s) = NET_MAXMESSAGE ->
  exists d eom, next_fragment (sendMessageLength s) =
      (blen d, if eom : bool then NETFLAG_EOM else 0) /\
    head (fragment (pending s)) = Some (d, eom) /\ slice (sendMessage s) 0 (blen d) = d /\
    blen d <= MAX_DATAGRAM.
Proof.
  intros Hl Hs. assert (blen (pending s) = sendMessageLength s) as Hp.
  { unfold pending, blen in *. rewrite length_take. lia. }
  rewrite fragment_unfold, Hp. unfold next_fragment. case_if.
  - exists (pending s), true. rewrite Hp. split_and!; try done.
  - exists (take 1024 (pending s)), false. unfold blen, MAX_DATAGRAM in *.
    assert (length (take 1024 (pending s)) = 1024%nat) as Ht by (rewrite length_take; lia).
    rewrite Ht. split_and!; try done.
    unfold slice, pending. rewrite take_take. f_equal. lia.
Qed.

(** A packet of the pending message joins the ones already written. *)
Lemma soup_data y y' i d eom dst (ok : bool) :
  soup y -> sent y `prefix_of` sent y' -> usent y' = usent y ->
  sendSequence (sk y) <= sendSequence (sk y') -> 0 <= i < sendSequence (sk y') ->
  receiveSequence (sk y') = receiveSequence (sk y) ->
  head (drop (Z.to_nat i) (frags (sent y'))) = Some (d, eom) ->
  outq (env y') =
    outq (env y) ++ (if ok then [(encode (PData i (d, eom)), dst)] else []) ->
  soup y'.
Proof.
  intros Hs Hp Hu Hle Hi Hr Hd Ho.
  assert (soup (EP (host y') (sk y') (env y) (sent y') (got y') (usent y') (ugot y'))) as Hold.
  { eapply soup_mono; [exact Hs|done|done|cbn; lia|done|cbn; by rewrite Hu]. }
  unfold soup in *. cbn [env] in *. rewrite Ho. apply Forall_app. split; [exact Hold|].
  destruct ok; constructor; [|constructor]. exists (PData i (d, eom)).
  split; [done|]. split; [done|]. cbn [sent].
  by rewrite head_lookup, lookup_drop, Nat.add_0_r in Hd.
Qed.

Lemma env_same_wf e e' : env_same e e' -> env_wf e -> env_wf e'.
Proof. intros (Hp & Hn & _) (_ & H1 & H2). unfold env_wf. by rewrite Hn. Qed.

(** The outcome of the sending functions: the packet is written or lost, and the socket is
    [s] but for the time of the last send. *)
Definition transmitted (e : dgenv) (p : bytes) (s : qsocket) (r : res (Z * qsocket * dgenv)) : Prop :=
  exists ret t e' (ok : bool), r = Ok (ret, set_lastSendTime t s, e') /\ env_same e e' /\
    outq e' = outq e ++ if ok then [(p, addr s)] else [].

Lemma same_lastSendTime s : set_lastSendTime (lastSendTime s) s = s.
Proof. by destruct s. Qed.

(** The common end of the sending functions. *)
Lemma transmitted_end e p s e' (ok : bool) t (count : dgenv -> dgenv) :
  env_same e e' -> outq e' = outq e ++ (if ok then [(p, addr s)] else []) ->
  env_same e' (count e') -> outq (count e') = outq e' ->
  transmitted e p s
    (if negb ok then Ok (-1, s, e') else Ok (1, set_lastSendTime t s, count e')).
Proof.
  intros He Ho (Hp & Hn & Ht) Hq. destruct ok; cbn [negb].
  - exists 1, t, (count e'), true. split; [done|]. rewrite Hq. split; [|done].
    destruct He as (? & ? & ?). split_and!; congruence || done.
  - exists (-1), (lastSendTime s), e', false. by rewrite same_lastSendTime.
Qed.

Lemma SendMessageNext_spec h e s d eom :
  pbuf_ok e -> next_fragment (sendMessageLength s) = (blen d, if eom : bool then NETFLAG_EOM else 0) ->
  slice (sendMessage s) 0 (blen d) = d -> blen d <= MAX_DATAGRAM -> blen d <= blen (sendMessage s) ->
  transmitted e (encode (PData (sendSequence s) (d, eom)))
    (set_sendNext false (set_sendSequence (u32 (sendSequence s + 1)) s)) (SendMessageNext h e s).
Proof.
  intros Hp Hn Hs Hd Hl. unfold SendMessageNext. rewrite Hn. cbn zeta.
  apply transmit; [done|unfold blen in *; lia|done|]. intros ok e' He Ho. cbn in Ho.
  rewrite Hs in Ho.
  apply (transmitted_end _ _ _ e' ok _ (fun e' => set_packetsSent (s32 (packetsSent e' + 1)) e'));
    [done|done| |done].
  destruct He as (? & _). done.
Qed.

Lemma ReSendMessage_spec h e s d eom :
  pbuf_ok e -> next_fragment (sendMessageLength s) = (blen d, if eom : bool then NETFLAG_EOM else 0) ->
  slice (sendMessage s) 0 (blen d) = d -> blen d <= MAX_DATAGRAM -> blen d <= blen (sendMessage s) ->
  transmitted e (encode (PData (u32 (sendSequence s - 1)) (d, eom))) (set_sendNext false s)
    (ReSendMessage h e s).
Proof.
  intros Hp Hn Hs Hd Hl. unfold ReSendMessage. rewrite Hn. cbn zeta.
  apply transmit; [done|unfold blen in *; lia|done|]. intros ok e' He Ho. cbn in Ho.
  rewrite Hs in Ho.
  apply (transmitted_end _ _ _ e' ok _ (fun e' => set_packetsReSent (s32 (packetsReSent e' + 1)) e'));
    [done|done| |done].
  destruct He as (? & _). done.
Qed.

Lemma Datagram_SendUnreliableMessage_spec h e s m :
  pbuf_ok e -> sb_wf m -> cursize m <= MAX_DATAGRAM ->
  transmitted e (encode (PUnreliable (unreliableSendSequence s) (contents m)))
    (set_unreliableSendSequence (u32 (unreliableSendSequence s + 1)) s)
    (Datagram_SendUnreliableMessage h e s m).
Proof.
  intros Hp Hm Hd. unfold Datagram_SendUnreliableMessage. cbn zeta.
  pose proof (length_contents m Hm) as Hlen. destruct Hm as [Hc Hx].
  apply transmit; [done|lia|unfold blen; lia|]. intros ok e' He Ho. cbn in Ho.
  cbn [encode]. unfold blen. rewrite Hlen.
  change (slice (data m) 0 (cursize m)) with (contents m) in Ho.
  rewrite <- (same_lastSendTime (set_unreliableSendSequence _ s)) at 3.
  apply (transmitted_end _ _ _ e' ok _ (fun e' => set_packetsSent (s32 (packetsSent e' + 1)) e'));
    [done|done| |done].
  destruct He as (? & _). done.
Qed.

(** The socket [Datagram_SendMessage] writes from. *)
Definition loaded (s : qsocket) (m : sizebuf) : qsocket :=
  set_sendMessageLength (cursize m) (set_sendMessage (splice (sendMessage s) 0 (contents m)) s).

Lemma Datagram_SendMessage_spec h e s m d eom :
  pbuf_ok e -> sb_wf m -> cursize m <= blen (sendMessage s) ->
  next_fragment (cursize m) = (blen d, if eom : bool then NETFLAG_EOM else 0) ->
  slice (sendMessage (loaded s m)) 0 (blen d) = d -> blen d <= MAX_DATAGRAM ->
  blen d <= blen (sendMessage (loaded s m)) ->
  transmitted e (encode (PData (sendSequence s) (d, eom)))
    (set_canSend false (set_sendSequence (u32 (sendSequence s + 1)) (loaded s m)))
    (Datagram_SendMessage h e s m).
Proof.
  intros Hp Hm Hcur Hn Hs Hd Hl. unfold Datagram_SendMessage.
  pose proof (length_contents m Hm) as Hlen. destruct Hm as [Hc Hx].
  rewrite load_ok by lia. rewrite bind_Ok. change (slice (data m) 0 _) with (contents m).
  rewrite store_ok by (unfold blen in *; lia). rewrite bind_Ok. rewrite Hn. cbn zeta.
  apply transmit; [done|unfold blen in *; lia|done|]. intros ok e' He Ho. cbn in Ho.
  change (slice (splice _ _ _) 0 (blen d)) with (slice (sendMessage (loaded s m)) 0 (blen d)) in Ho.
  rewrite Hs in Ho.
  apply (transmitted_end _ _ _ e' ok _ (fun e' => set_packetsSent (s32 (packetsSent e' + 1)) e'));
    [done|done| |done].
  destruct He as (? & _). done.
Qed.

(** ** The invariant under sending *)

Lemma head_pending y :
  tx y -> canSend (sk y) = false ->
  head (drop (Z.to_nat (ackSequence (sk y))) (frags (sent y))) = head (fragment (pending (sk y))) /\
  ackSequence (sk y) < flen y.
Proof.
  intros (Ha & _ & H) Hc. rewrite Hc in H. destruct H as [Hd _]. rewrite Hd. split; [done|].
  apply (f_equal length) in Hd. rewrite length_drop in Hd.
  destruct (fragment (pending (sk y))) eqn:E; [by apply fragment_nonempty in E|].
  cbn in Hd. unfold flen. lia.
Qed.

Lemma SendMessageNext_connected x y :
  connected x y -> bounded y -> sendNext (sk y) = true ->
  exists ret s e, SendMessageNext (host y) (env y) (sk y) = Ok (ret, s, e) /\
    addr s = addr (sk y) /\ sendNext s = false /\ netmsg e = netmsg (env y) /\
    connected x (update s e y).
Proof.
  intros Hc [Hb _] Hn. pose proof Hc as [_ (Hw & Ht & Hs & _ & Hu & _)].
  pose proof Hw as (Hy1 & Hy2 & Hy3 & Hy4 & Hy5 & Hy6).
  pose proof (tx_sequence _ Ht) as Hseq. pose proof Ht as (Ha & Hl & Hmode). rewrite Hn in Hmode.
  destruct (canSend (sk y)) eqn:Hcan; [naive_solver|]. destruct Hmode as [Hd Hss].
  destruct (head_pending y Ht Hcan) as [Hh Hlt].
  destruct (next_fragment_first (sk y) Hl Hy1) as (d & eom & Hnf & Hh' & Hsl & Hdl).
  destruct (SendMessageNext_spec (host y) (env y) (sk y) d eom) as (ret & t & e' & ok & -> & He & Ho);
    [apply Hy4|done|done|done|unfold NET_MAXMESSAGE, MAX_DATAGRAM in *; lia|].
  rewrite u32_id by lia. eexists _, _, _. split; [done|]. split; [done|]. split; [done|].
  split; [apply He|]. eapply (connected_send x y); try done.
  - split_and!; try done; by eapply env_same_wf.
  - cbn. lia.
  - unfold tx. cbn -[frags fragment Z.to_nat]. rewrite Hcan. split_and!; try done; lia.
  - eapply (soup_data y _ (sendSequence (sk y)) d eom (addr (sk y)) ok);
      [done|done|done|cbn; lia|cbn; lia|done| |exact Ho].
    cbn [update sent]. by rewrite Hss, Z.add_0_r, Hh.
Qed.

Lemma ReSendMessage_connected x y :
  connected x y -> bounded y -> sendNext (sk y) = false -> canSend (sk y) = false ->
  exists ret s e, ReSendMessage (host y) (env y) (sk y) = Ok (ret, s, e) /\
    addr s = addr (sk y) /\ connected x (update s e y).
Proof.
  intros Hc [Hb _] Hn Hcan. pose proof Hc as [_ (Hw & Ht & Hs & _ & Hu & _)].
  pose proof Hw as (Hy1 & Hy2 & Hy3 & Hy4 & Hy5 & Hy6).
  pose proof (tx_sequence _ Ht) as Hseq. pose proof Ht as (Ha & Hl & Hmode). rewrite Hn, Hcan in Hmode.
  destruct Hmode as [Hd Hss]. destruct (head_pending y Ht Hcan) as [Hh Hlt].
  destruct (next_fragment_first (sk y) Hl Hy1) as (d & eom & Hnf & Hh' & Hsl & Hdl).
  destruct (ReSendMessage_spec (host y) (env y) (sk y) d eom) as (ret & t & e' & ok & -> & He & Ho);
    [apply Hy4|done|done|done|unfold NET_MAXMESSAGE, MAX_DATAGRAM in *; lia|].
  eexists _, _, _. split; [done|]. split; [done|].
  eapply (connected_send x y); try done.
  - split_and!; try done; by eapply env_same_wf.
  - unfold tx. cbn -[frags fragment Z.to_nat]. rewrite Hcan. split_and!; try done; lia.
  - rewrite u32_id in Ho by lia.
    eapply (soup_data y _ (sendSequence (sk y) - 1) d eom (addr (sk y)) ok);
      [done|done|done|done|cbn; lia|done| |exact Ho].
    cbn [update sent]. replace (sendSequence (sk y) - 1) with (ackSequence (sk y)) by lia.
    by rewrite Hh.
Qed.

Lemma pending_loaded s m :
  sb_wf m -> cursize m <= blen (sendMessage s) -> pending (loaded s m) = contents m.
Proof.
  intros Hm Hc. pose proof (length_contents m Hm). unfold pending, loaded.
  cbn [sendMessageLength sendMessage set_sendMessageLength set_sendMessage].
  replace (Z.to_nat (cursize m)) with (0 + length (contents m))%nat by lia.
  apply (take_splice_through _ 0). unfold blen in *. lia.
Qed.

Definition with_sent (m : bytes) (s : qsocket) (e : dgenv) (y : endpoint) : endpoint :=
  EP (host y) s e (sent y ++ [m]) (got y) (usent y) (ugot y).
Definition with_usent (m : bytes) (s : qsocket) (e : dgenv) (y : endpoint) : endpoint :=
  EP (host y) s e (sent y) (got y) (usent y ++ [m]) (ugot y).

Lemma SendMessage_connected x y m :
  connected x y -> sb_wf m -> cursize m <= NET_MAXMESSAGE -> canSend (sk y) = true ->
  bounded (with_sent (contents m) (sk y) (env y) y) ->
  exists ret s e, Datagram_SendMessage (host y) (env y) (sk y) m = Ok (ret, s, e) /\
    addr s = addr (sk y) /\ sendNext s = false /\ connected x (with_sent (contents m) s e y).
Proof.
  intros Hc Hm Hmax Hcan [Hb _]. pose proof Hc as [_ (Hw & Ht & Hs & _ & Hu & _)].
  pose proof Hw as (Hy1 & Hy2 & Hy3 & Hy4 & Hy5 & Hy6). pose proof (length_contents m Hm) as Hlen.
  pose proof (tx_sequence _ Ht) as Hseq. pose proof Ht as (Ha & Hl & Hmode). rewrite Hcan in Hmode.
  destruct Hmode as (Hn & Hss & Hfl). set (s0 := loaded (sk y) m).
  assert (blen (sendMessage s0) = NET_MAXMESSAGE) as Hs0.
  { unfold s0, loaded, blen in *. cbn. rewrite length_splice; [done|]. lia. }
  assert (frags (sent y ++ [contents m]) = frags (sent y) ++ fragment (contents m)) as Hfr.
  { unfold frags. rewrite bind_app. cbn. by rewrite app_nil_r. }
  assert (flen y < flen (with_sent (contents m) (sk y) (env y) y)) as Hgrow.
  { unfold flen. cbn [with_sent sent]. rewrite Hfr, length_app.
    destruct (fragment (contents m)) eqn:E; [by apply fragment_nonempty in E|]. cbn. lia. }
  pose proof Hm as [Hcur Hx].
  destruct (next_fragment_first s0) as (d & eom & Hnf & Hh' & Hsl & Hdl);
    [change (0 <= cursize m <= NET_MAXMESSAGE); lia|done|].
  unfold s0 in Hh'. rewrite pending_loaded in Hh' by (done || lia).
  destruct (Datagram_SendMessage_spec (host y) (env y) (sk y) m d eom)
    as (ret & t & e' & ok & -> & He & Ho);
    [apply Hy4|done|lia|done|done|done|fold s0; unfold NET_MAXMESSAGE, MAX_DATAGRAM in *; lia|].
  rewrite u32_id by lia. eexists _, _, _. split; [done|]. split; [done|]. split; [done|].
  assert (drop (Z.to_nat (ackSequence (sk y))) (frags (sent y ++ [contents m])) = fragment (contents m)) as Hdr.
  { rewrite Hfr. apply drop_app_length'. unfold flen in *. lia. }
  eapply (connected_send x y); try done.
  - split_and!; try done; [by eapply env_same_wf|]. cbn [with_sent sent]. apply Forall_app.
    split; [done|]. constructor; [unfold blen; lia|done].
  - cbn. lia.
  - apply prefix_app_r. done.
  - unfold tx. cbn -[frags fragment Z.to_nat pending]. rewrite Hn.
    split_and!; try done; try lia. rewrite Hdr. f_equal. symmetry. by apply pending_loaded; [|lia].
  - eapply (soup_data y _ (sendSequence (sk y)) d eom (addr (sk y)) ok);
      [done| |done|cbn; lia|cbn; lia|done| |exact Ho].
    + by apply prefix_app_r.
    + cbn [with_sent sent]. by rewrite Hss, Hdr.
Qed.

Lemma SendUnreliable_connected x y m :
  connected x y -> sb_wf m -> cursize m <= MAX_DATAGRAM ->
  bounded (with_usent (contents m) (sk y) (env y) y) ->
  exists ret s e, Datagram_SendUnreliableMessage (host y) (env y) (sk y) m = Ok (ret, s, e) /\
    addr s = addr (sk y) /\ sendNext s = sendNext (sk y) /\
    connected x (with_usent (contents m) s e y).
Proof.
  intros Hc Hm Hmax [_ Hb]. pose proof Hc as [_ (Hw & Ht & Hs & _ & Hu & _)].
  pose proof Hw as (Hy1 & Hy2 & Hy3 & Hy4 & Hy5 & Hy6). pose proof (length_contents m Hm) as Hlen.
  destruct (Datagram_SendUnreliableMessage_spec (host y) (env y) (sk y) m)
    as (ret & t & e' & ok & -> & He & Ho); [apply Hy4|done|done|].
  cbn [with_usent usent] in Hb. rewrite length_app in Hb. cbn [length] in Hb.
  rewrite u32_id by lia. eexists _, _, _. split; [done|]. split; [done|]. split; [done|].
  eapply (connected_send x y); try done.
  - split_and!; try done; [by eapply env_same_wf|]. cbn [with_usent usent]. apply Forall_app.
    split; [done|]. constructor; [unfold blen; lia|done].
  - cbn. rewrite length_app, Hu. cbn. lia.
  - by apply prefix_app_r.
  - assert (soup (EP (host y) (set_lastSendTime t (set_unreliableSendSequence (unreliableSendSequence (sk y) + 1) (sk y)))
        (env y) (sent y) (got y) (usent y ++ [contents m]) (ugot y))) as Hold.
    { eapply soup_mono; [exact Hs|done|done|done|done|by apply prefix_app_r]. }
    unfold soup in *. cbn [with_usent env] in *. rewrite Ho. apply Forall_app. split; [exact Hold|].
    destruct ok; constructor; [|constructor].
    exists (PUnreliable (unreliableSendSequence (sk y)) (contents m)). split; [done|]. split; [lia|].
    cbn [with_usent usent]. rewrite Hu, Nat2Z.id. by apply list_lookup_middle.
Qed.

(** A whole call of [Datagram_GetMessage]. *)
Lemma GetMessage_connected x y arrivals :
  connected x y -> bounded x -> bounded y -> sendNext (sk y) = false ->
  Forall (allowed x y) arrivals ->
  exists r rest s e,
    Datagram_GetMessage (host y) UDP_AddrCompare AddrToString (env y) (sk y) arrivals =
      Ok (r, rest, s, e) /\ 0 <= r <= 2 /\
    addr s = addr (sk y) /\ sendNext s = false /\ connected x (deliver (Break r) s e y).
Proof.
  intros Hc Hbx Hby Hn Hall. unfold Datagram_GetMessage.
  assert (exists s e, (if negb (canSend (sk y)) &&
                   f_ltb f64_one (f64_sub (net_time (env y)) (lastSendTime (sk y)))
                then '(_, sock, e) ← ReSendMessage (host y) (env y) (sk y); mret (sock, e)
                else mret (sk y, env y)) = Ok (s, e) /\ addr s = addr (sk y) /\
                connected x (update s e y)) as (s1 & e1 & -> & Ha1 & Hc1).
  { destruct (canSend (sk y)) eqn:Hcan; cbn [negb andb];
      [|destruct (f_ltb _ _)]; try (exists (sk y), (env y); by destruct y).
    destruct (ReSendMessage_connected x y) as (ret & s & e & -> & Ha & Hc'); try done.
    by exists s, e. }
  rewrite bind_Ok.
  destruct (get_loop_ok x arrivals (update s1 e1 y) Hc1 Hbx Hby)
    as (r & rest & s2 & e2 & HG & Hr & Ha2 & Hc2).
  { eapply Forall_impl; [exact Hall|]. intros [d' f'|]; cbn; [|done]. by rewrite Ha1. }
  cbn [update host env sk] in HG. rewrite HG, bind_Ok. cbn in Ha2.
  destruct (sendNext s2) eqn:Hn2.
  - destruct (SendMessageNext_connected x (deliver (Break r) s2 e2 (update s1 e1 y)))
      as (ret & s3 & e3 & HS & Ha3 & Hn3 & Hm3 & Hc3); [done|done|done|].
    cbn [deliver update host env sk] in HS. rewrite HS, !bind_Ok.
    exists r, rest, s3, e3. split; [done|]. split; [done|]. cbn in Ha3.
    split; [congruence|]. split; [done|]. cbn in Hm3.
    unfold deliver, update in *. cbn in Hc3. by rewrite Hm3.
  - rewrite bind_Ok. exists r, rest, s2, e2. split; [done|]. split; [done|]. split; [congruence|].
    split; [done|]. exact Hc2.
Qed.

(** ** The connection as a transition system *)

(** What the endpoint [y] can do while its peer is [x].  Between its calls the rest of the
    program may change the environment: the clock, the contents of the shared packet
    buffer and of [net_message], the counters, and which writes will fail. *)
Inductive call (x y : endpoint) : endpoint -> Prop :=
| CallSend m ret s e :
    sb_wf m -> cursize m <= NET_MAXMESSAGE -> canSend (sk y) = true ->
    Datagram_SendMessage (host y) (env y) (sk y) m = Ok (ret, s, e) ->
    call x y (with_sent (contents m) s e y)
| CallSendUnreliable m ret s e :
    sb_wf m -> cursize m <= MAX_DATAGRAM ->
    Datagram_SendUnreliableMessage (host y) (env y) (sk y) m = Ok (ret, s, e) ->
    call x y (with_usent (contents m) s e y)
| CallCanSend b s e :
    Datagram_CanSendMessage (host y) (env y) (sk y) = Ok (b, s, e) ->
    call x y (update s e y)
| CallGet arrivals r rest s e :
    Forall (allowed x y) arrivals ->
    Datagram_GetMessage (host y) UDP_AddrCompare AddrToString (env y) (sk y) arrivals =
      Ok (r, rest, s, e) ->
    call x y (deliver (Break r) s e y)
| CallOther e :
    env_wf e -> outq e = outq (env y) -> call x y (update (sk y) e y).

Inductive step : endpoint * endpoint -> endpoint * endpoint -> Prop :=
| StepLeft x y x' : call y x x' -> step (x, y) (x', y)
| StepRight x y y' : call x y y' -> step (x, y) (x, y').

(** A socket as [NET_NewQSocket] leaves it, on a machine that has written nothing yet. *)
Definition fresh (x : endpoint) : Prop :=
  ep_wf x /\ canSend (sk x) = true /\ sendNext (sk x) = false /\
  ackSequence (sk x) = 0 /\ sendSequence (sk x) = 0 /\ unreliableSendSequence (sk x) = 0 /\
  receiveSequence (sk x) = 0 /\ unreliableReceiveSequence (sk x) = 0 /\
  sendMessageLength (sk x) = 0 /\ receiveMessageLength (sk x) = 0 /\
  outq (env x) = [] /\ sent x = [] /\ got x = [] /\ usent x = [] /\ ugot x = [].

Definition reachable (x y : endpoint) : Prop :=
  exists x0 y0, fresh x0 /\ fresh y0 /\ rtc step (x0, y0) (x, y).

Definition established (x y : endpoint) : Prop :=
  connected x y /\ sendNext (sk x) = false /\ sendNext (sk y) = false.

Lemma connected_sym x y : connected x y -> connected y x.
Proof. intros [? ?]. by split. Qed.

Lemma fresh_link x y : fresh x -> fresh y -> link x y.
Proof.
  intros (Hw & H1 & H2 & H3 & H4 & H5 & H6 & H7 & H8 & H9 & H10 & H11 & H12 & H13 & H14)
    (Kw & K1 & K2 & K3 & K4 & K5 & K6 & K7 & K8 & K9 & K10 & K11 & K12 & K13 & K14).
  unfold link, tx, soup, rx, unreliable, flen.
  rewrite H1, H2, H3, H4, H5, H8, H10, H11, H13, K6, K7, K9, K12, K14.
  split_and!; try done; lia.
Qed.

(** Histories only grow. *)
Lemma call_bounded x y y' : call x y y' -> bounded y' -> bounded y.
Proof.
  intros Hc [H1 H2]. unfold bounded, flen in *. destruct Hc; cbn -[frags] in *; try done.
  - unfold frags in *. rewrite bind_app, length_app in H1. lia.
  - rewrite length_app in H2. lia.
Qed.

Lemma call_established x y y' :
  call x y y' -> bounded x -> bounded y' -> established x y -> established x y'.
Proof.
  intros Hcall Hbx Hby' (Hc & Hn & Hn'). pose proof (call_bounded _ _ _ Hcall Hby') as Hby.
  destruct Hcall as [m ret s e Hm Hl Hcan HS|m ret s e Hm Hl HS|b s e HS|arr r rest s e Harr HS|e He Ho].
  - destruct (SendMessage_connected x y m) as (ret' & s' & e' & HS' & _ & Hs & Hc'); try done.
    rewrite HS in HS'. by simplify_eq.
  - destruct (SendUnreliable_connected x y m) as (ret' & s' & e' & HS' & _ & Hs & Hc'); try done.
    rewrite HS in HS'. simplify_eq. by rewrite Hn' in Hs.
  - unfold Datagram_CanSendMessage in HS. rewrite Hn', bind_Ok in HS. injection HS as <- <- <-.
    by destruct y.
  - destruct (GetMessage_connected x y arr) as (r' & rest' & s' & e' & HS' & _ & _ & Hs & Hc'); try done.
    rewrite HS in HS'. by simplify_eq.
  - split; [|done]. pose proof Hc as [_ (Hw & Ht & Hs & Hr & Hu & _)].
    eapply (connected_send x y); try done.
    + destruct Hw as (? & ? & ? & ? & ? & ?). split_and!; done.
    + eapply soup_mono; [exact Hs|done..].
Qed.

Lemma step_bounded p q : step p q -> bounded q.1 /\ bounded q.2 -> bounded p.1 /\ bounded p.2.
Proof. intros [x y x' Hc|x y y' Hc] [H1 H2]; split; (done || by eapply call_bounded). Qed.

Lemma step_established p q :
  step p q -> bounded q.1 /\ bounded q.2 -> established p.1 p.2 -> established q.1 q.2.
Proof.
  intros [x y x' Hc|x y y' Hc]; cbn; intros [H1 H2] (He & Hx & Hy).
  - destruct (call_established _ _ _ Hc H2 H1) as (He' & Hy' & Hx');
      [split; [by apply connected_sym|done]|]. split; [by apply connected_sym|done].
  - by eapply call_established.
Qed.

Lemma steps_established p q :
  rtc step p q -> established p.1 p.2 -> bounded q.1 /\ bounded q.2 -> established q.1 q.2.
Proof.
  intros Hs Hp. revert q Hs. refine (rtc_ind_r _ p _ _); [done|].
  intros q r Hs Hqr IH Hb. eapply step_established; [done|done|]. apply IH.
  by eapply step_bounded.
Qed.

Lemma reachable_established x y :
  reachable x y -> bounded x -> bounded y -> established x y.
Proof.
  intros (x0 & y0 & Hx0 & Hy0 & Hsteps) Hbx Hby.
  apply (steps_established _ _ Hsteps); [|done].
  split; [split; by apply fresh_link|]. destruct Hx0 as (_ & _ & ? & _), Hy0 as (_ & _ & ? & _). done.
Qed.

(** What the invariant says about the histories, in one direction. *)
Lemma link_delivery x y :
  link x y -> got y `prefix_of` sent x /\ (canSend (sk x) = true -> got y = sent x).
Proof.
  intros (Hw & Ht & _ & (Hr & _ & Ha) & _). split.
  - eapply asm_bounds; [apply Hw|exact Ha].
  - intros Hcan. destruct Ht as (_ & _ & H). rewrite Hcan in H. destruct H as (_ & Hs & Hf).
    rewrite take_ge in Ha by (unfold flen in Hf; lia). rewrite asm_frags in Ha. by simplify_eq.
Qed.

End calls.

(** * Properties *)

(** C1: Reliable delivery over an unreliable network: whatever packets are lost, repeated,
    reordered or forged from other addresses, and whichever writes fail, each endpoint has
    returned to its program exactly the messages its peer sent, whole and in order, up to
    some point; and when the sender may send again, all of them.  (As long as no 32-bit
    sequence number has wrapped around.) *)
Theorem reliable_delivery AddrToString x y :
  reachable AddrToString x y -> bounded x -> bounded y ->
  (got y `prefix_of` sent x /\ (canSend (sk x) = true -> got y = sent x)) /\
  (got x `prefix_of` sent y /\ (canSend (sk y) = true -> got x = sent y)).
Proof.
  intros Hr Hbx Hby. destruct (reachable_established _ _ _ Hr Hbx Hby) as ((H1 & H2) & _).
  split; by apply link_delivery.
Qed.

(** Unreliable messages may get lost, but the ones returned are some of those the peer
    sent, each at most once and in the order they were sent. *)
Theorem unreliable_order AddrToString x y :
  reachable AddrToString x y -> bounded x -> bounded y ->
  ugot y `sublist_of` usent x /\ ugot x `sublist_of` usent y.
Proof.
  intros Hr Hbx Hby.
  destruct (reachable_established _ _ _ Hr Hbx Hby) as (((_ & _ & _ & _ & _ & _ & H1) & (_ & _ & _ & _ & _ & _ & H2)) & _).
  split; etrans; try done; apply sublist_take.
Qed.

(** In every reachable state of a connection the driver's calls return: receiving any
    packets of the peer or of strangers ends with 0, 1 or 2, never with an error or an
    access outside a buffer, and a message of at most [NET_MAXMESSAGE] bytes
    ([MAX_DATAGRAM] for an unreliable one) can be sent. *)
Theorem datagram_calls_return AddrToString x y :
  reachable AddrToString x y -> bounded x -> bounded y ->
  (forall arrivals, Forall (allowed x y) arrivals -> exists r rest s e,
     Datagram_GetMessage (host y) UDP_AddrCompare AddrToString (env y) (sk y) arrivals =
       Ok (r, rest, s, e) /\ 0 <= r <= 2) /\
  (forall m, sb_wf m -> cursize m <= NET_MAXMESSAGE -> canSend (sk y) = true ->
     bounded (with_sent (contents m) (sk y) (env y) y) ->
     is_ok (Datagram_SendMessage (host y) (env y) (sk y) m) = true) /\
  (forall m, sb_wf m -> cursize m <= MAX_DATAGRAM ->
     bounded (with_usent (contents m) (sk y) (env y) y) ->
     is_ok (Datagram_SendUnreliableMessage (host y) (env y) (sk y) m) = true).
Proof.
  intros Hr Hbx Hby. destruct (reachable_established _ _ _ Hr Hbx Hby) as (Hc & _ & Hn).
  split_and!.
  - intros arr Harr.
    destruct (GetMessage_connected AddrToString x y arr) as (r & rest & s & e & -> & Hr' & _); try done.
    by exists r, rest, s, e.
  - intros m Hm Hl Hcan Hb.
    by destruct (SendMessage_connected x y m) as (r & s & e & -> & _).
  - intros m Hm Hl Hb.
    by destruct (SendUnreliable_connected x y m) as (r & s & e & -> & _).
Qed.

(** The length in a packet's header is only checked against the maximum: one that is
    smaller than the header itself underflows, and the copy into [net_message] reads
    outside the packet buffer. *)
Theorem datagram_length_underflow h AddrToString e sock n i d :
  pbuf_ok e -> net_wait sock = false -> 0 <= n < NET_HEADERSIZE -> blen d <= MAX_DATAGRAM ->
  unreliableReceiveSequence sock <= i -> 0 <= i < 4294967296 ->
  get_packet h UDP_AddrCompare AddrToString e sock (mkpkt (n .| NETFLAG_UNRELIABLE) i d) (addr sock) =
    Fault (Undefined "load outside the object").
Proof.
  intros Hp Hw Hn Hd Hu Hi. unfold NET_HEADERSIZE in *.
  destruct (get_packet_dispatch h AddrToString e sock n NETFLAG_UNRELIABLE i d)
    as (e1 & rest & _ & _ & _ & ->); [done|done|set_solver|done|unfold NET_DATAGRAMSIZE, MAX_DATAGRAM, NET_HEADERSIZE; lia|done|].
  change (truth (NETFLAG_UNRELIABLE & NETFLAG_UNRELIABLE)) with true. cbn iota.
  unfold get_unreliable. case_if; [lia|].
  replace (s32 (u32 (n - NET_HEADERSIZE))) with (n - 8) by (unfold NET_HEADERSIZE; wrap_lia).
  assert (forall a, load a NET_HEADERSIZE (n - 8) = Fault (Undefined "load outside the object")) as ->.
  { intros a. unfold load, NET_HEADERSIZE. case_if; [lia|done]. }
  done.
Qed.

(** ** A sample run *)

Definition addr_a : qsockaddr := QSockAddr 2 26000 16777343.
Definition addr_b : qsockaddr := QSockAddr 2 26001 16777343.

Definition new_sock (peer : qsockaddr) : qsocket :=
  QSocket 0 f64_one f64_one f64_one false true false 0 0 0 0 0 0 0 0 (replicate 8192 0)
    0 0 0 (replicate 8192 0) peer (replicate 64 0) 0 0 0 0 false 0.

Definition new_env : dgenv :=
  DgEnv (replicate 1032 0) 0 0 0 0 0 0 (SizeBuf false false (replicate 8192 0) 8192 0)
    f64_one [] [].

Definition new_ep (h : endian) (peer : qsockaddr) : endpoint :=
  EP h (new_sock peer) new_env [] [] [] [].

Definition to_string (a : qsockaddr) : bytes := cs "127.0.0.1:26000".

Definition run_send (m : sizebuf) (y : endpoint) : endpoint :=
  match Datagram_SendMessage (host y) (env y) (sk y) m with
  | Ok (_, s, e) => with_sent (contents m) s e y
  | Fault _ => y
  end.

Definition run_usend (m : sizebuf) (y : endpoint) : endpoint :=
  match Datagram_SendUnreliableMessage (host y) (env y) (sk y) m with
  | Ok (_, s, e) => with_usent (contents m) s e y
  | Fault _ => y
  end.

Definition run_get (arr : list arrival) (y : endpoint) : endpoint :=
  match Datagram_GetMessage (host y) UDP_AddrCompare to_string (env y) (sk y) arr with
  | Ok (r, _, s, e) => deliver (Break r) s e y
  | Fault _ => y
  end.

Definition sample_msg : sizebuf := SizeBuf false false (replicate 1500 7) 1500 1500.
Definition sample_umsg : sizebuf := SizeBuf false false (cs "clc_move") 8 8.

(** The packets the peer has written from the [n]th on, twice, a forged one in between. *)
Definition batch (n : nat) (x y : endpoint) : list arrival :=
  let all := (fun p => Datagram p.1 (addr (sk y))) <$> drop n (outq (env x)) in
  all ++ [Datagram (cs "forged packet") (QSockAddr 2 666 666)] ++ all.

(** A little-endian client sends 1500 bytes, in two packets, and an unreliable message to a
    big-endian server, with every packet duplicated. *)
Definition a0 : endpoint := new_ep LittleEndian addr_b.
Definition b0 : endpoint := new_ep BigEndian addr_a.
Definition a1 : endpoint := run_send sample_msg a0.
Definition b1 : endpoint := run_get (batch 0 a1 b0) b0.
Definition a2 : endpoint := run_get (batch 0 b1 a1) a1.
Definition b2 : endpoint := run_get (batch 0 a2 b1) b1.
Definition a3 : endpoint := run_get (batch 1 b2 a2) a2.
Definition a4 : endpoint := run_usend sample_umsg a3.
Definition b3 : endpoint := run_get (batch 2 a4 b2) b2.

Lemma run_send_call x y m :
  sb_wf m -> cursize m <= NET_MAXMESSAGE -> canSend (sk y) = true ->
  is_ok (Datagram_SendMessage (host y) (env y) (sk y) m) = true ->
  call to_string x y (run_send m y).
Proof.
  intros Hm Hc Hs Hok. unfold run_send.
  destruct (Datagram_SendMessage _ _ _ _) as [[[r s] e]|] eqn:E; [|done]. by econstructor.
Qed.

Lemma run_usend_call x y m :
  sb_wf m -> cursize m <= MAX_DATAGRAM ->
  is_ok (Datagram_SendUnreliableMessage (host y) (env y) (sk y) m) = true ->
  call to_string x y (run_usend m y).
Proof.
  intros Hm Hc Hok. unfold run_usend.
  destruct (Datagram_SendUnreliableMessage _ _ _ _) as [[[r s] e]|] eqn:E; [|done].
  by eapply CallSendUnreliable.
Qed.

Lemma run_get_call x y n :
  UDP_AddrCompare (QSockAddr 2 666 666) (addr (sk y)) <> 0 ->
  is_ok (Datagram_GetMessage (host y) UDP_AddrCompare to_string (env y) (sk y) (batch n x y)) = true ->
  call to_string x y (run_get (batch n x y) y).
Proof.
  intros Hf Hok. unfold run_get.
  destruct (Datagram_GetMessage _ _ _ _ _ _) as [[[[r rest] s] e]|] eqn:E; [|done].
  eapply CallGet; [|exact E]. unfold batch.
  assert (Forall (allowed x y) ((fun p => Datagram p.1 (addr (sk y))) <$> drop n (outq (env x)))) as H.
  { apply Forall_fmap, Forall_forall. intros p Hp. left. split; [done|].
    apply list_elem_of_fmap_2. rewrite <- (take_drop n (outq (env x))). set_solver. }
  apply Forall_app. split; [done|]. constructor; [by right|done].
Qed.

Lemma new_ep_fresh h p : fresh (new_ep h p).
Proof.
  unfold fresh, ep_wf, env_wf, pbuf_ok, sb_wf. cbn [sent usent got ugot new_ep].
  split_and!; constructor || by_vm.
Qed.

Lemma sample_run : reachable to_string a4 b3.
Proof.
  exists a0, b0. split; [apply new_ep_fresh|]. split; [apply new_ep_fresh|].
  assert (sb_wf sample_msg /\ sb_wf sample_umsg) as [? ?] by (unfold sb_wf; split_and!; by_vm).
  apply (rtc_l _ _ (a1, b0)).
  { apply StepLeft. unfold a1. apply run_send_call; by_vm || done. }
  apply (rtc_l _ _ (a1, b1)). { apply StepRight. unfold b1. apply run_get_call; by_vm. }
  apply (rtc_l _ _ (a2, b1)). { apply StepLeft. unfold a2. apply run_get_call; by_vm. }
  apply (rtc_l _ _ (a2, b2)). { apply StepRight. unfold b2. apply run_get_call; by_vm. }
  apply (rtc_l _ _ (a3, b2)). { apply StepLeft. unfold a3. apply run_get_call; by_vm. }
  apply (rtc_l _ _ (a4, b2)).
  { apply StepLeft. unfold a4. apply run_usend_call; by_vm || done. }
  apply (rtc_l _ _ (a4, b3)). { apply StepRight. unfold b3. apply run_get_call; by_vm. }
  apply rtc_refl.
Qed.

Lemma sample_bounded : bounded a4 /\ bounded b3.
Proof. unfold bounded. split_and!; by_vm. Qed.

Lemma reliable_delivery_witness :
  got b3 = [replicate 1500 7] /\ got b3 = sent a4 /\ got a4 `prefix_of` sent b3.
Proof.
  pose proof (reliable_delivery to_string a4 b3 sample_run (proj1 sample_bounded)
                (proj2 sample_bounded)) as [[_ H1] [H2 _]].
  split; [by_vm|]. split; [apply H1; by_vm|exact H2].
Defined.

Lemma unreliable_order_witness :
  ugot b3 = [cs "clc_move"] /\ ugot b3 `sublist_of` usent a4 /\ ugot a4 `sublist_of` usent b3.
Proof.
  split; [by_vm|].
  exact (unreliable_order to_string a4 b3 sample_run (proj1 sample_bounded) (proj2 sample_bounded)).
Defined.

Lemma datagram_calls_return_witness :
  exists r rest s e,
    Datagram_GetMessage (host b3) UDP_AddrCompare to_string (env b3) (sk b3) [] =
      Ok (r, rest, s, e) /\ 0 <= r <= 2.
Proof.
  apply (datagram_calls_return to_string a4 b3 sample_run (proj1 sample_bounded)
           (proj2 sample_bounded)). constructor.
Defined.

Lemma datagram_length_underflow_witness :
  get_packet LittleEndian UDP_AddrCompare to_string new_env (new_sock addr_b)
    (mkpkt (7 .| NETFLAG_UNRELIABLE) 5 []) addr_b =
    Fault (Undefined "load outside the object").
Proof.
  apply (datagram_length_underflow LittleEndian to_string new_env (new_sock addr_b) 7 5 []);
    by_vm || (unfold NET_HEADERSIZE; cbn; lia).
Defined.
