(* ===== verification/NetMain.v ===== *)
(** The driver-independent network layer (Source/net_main.c): the pool of sockets, the
    calls the client and the server use, and the poll procedures.

    [netst] holds the globals; the sockets are in a map from addresses ([socks]), the two
    lists [net_activeSockets] and [net_freeSockets] are threaded through their [sock_next]
    fields.  The driver table [net_drivers] is an argument: [net_driver] has the operations
    of [net_driver_t] this file calls, and the class [DriverLaws] what it relies on them
    for.  The clock ([Sys_DoubleTime]) is an argument of the functions that read it, and
    [Security_Encode]/[Security_Decode], which are loaded from a shared library, are
    arguments as well.  Recording to a vcr file only writes a file and is left out. *)

From S2P Require Import Prelude CFloat SizeBuf Net.

(** [loop_client] and the two fields by it are the globals of net_loop.c.
    C: Source/net_main.c:25-65 net_activeSockets *)
Record netst : Type := NetSt {
  net_activeSockets : Z;
  net_freeSockets : Z;
  socks : gmap Z qsocket;
  net_driverlevel : Z;
  now : f64;
  maxclients : Z;
  net_activeconnections : Z;
  nmsg : sizebuf;
  messagesSent : Z;
  messagesReceived : Z;
  unreliableMessagesSent : Z;
  unreliableMessagesReceived : Z;
  localconnectpending : bool;
  loop_client : Z;
  loop_server : Z
}.

Definition set_net_activeSockets (v : Z) (s : netst) : netst :=
    NetSt v (net_freeSockets s) (socks s) (net_driverlevel s) (now s) (maxclients s)
    (net_activeconnections s) (nmsg s) (messagesSent s) (messagesReceived s)
    (unreliableMessagesSent s) (unreliableMessagesReceived s) (localconnectpending s)
    (loop_client s) (loop_server s).
Definition set_net_freeSockets (v : Z) (s : netst) : netst :=
    NetSt (net_activeSockets s) v (socks s) (net_driverlevel s) (now s) (maxclients s)
    (net_activeconnections s) (nmsg s) (messagesSent s) (messagesReceived s)
    (unreliableMessagesSent s) (unreliableMessagesReceived s) (localconnectpending s)
    (loop_client s) (loop_server s).
Definition set_socks (v : gmap Z qsocket) (s : netst) : netst :=
    NetSt (net_activeSockets s) (net_freeSockets s) v (net_driverlevel s) (now s)
    (maxclients s) (net_activeconnections s) (nmsg s) (messagesSent s) (messagesReceived s)
    (unreliableMessagesSent s) (unreliableMessagesReceived s) (localconnectpending s)
    (loop_client s) (loop_server s).
Definition set_net_driverlevel (v : Z) (s : netst) : netst :=
    NetSt (net_activeSockets s) (net_freeSockets s) (socks s) v (now s) (maxclients s)
    (net_activeconnections s) (nmsg s) (messagesSent s) (messagesReceived s)
    (unreliableMessagesSent s) (unreliableMessagesReceived s) (localconnectpending s)
    (loop_client s) (loop_server s).
Definition set_now (v : f64) (s : netst) : netst :=
    NetSt (net_activeSockets s) (net_freeSockets s) (socks s) (net_driverlevel s) v
    (maxclients s) (net_activeconnections s) (nmsg s) (messagesSent s) (messagesReceived s)
    (unreliableMessagesSent s) (unreliableMessagesReceived s) (localconnectpending s)
    (loop_client s) (loop_server s).
Definition set_maxclients (v : Z) (s : netst) : netst :=
    NetSt (net_activeSockets s) (net_freeSockets s) (socks s) (net_driverlevel s) (now s) v
    (net_activeconnections s) (nmsg s) (messagesSent s) (messagesReceived s)
    (unreliableMessagesSent s) (unreliableMessagesReceived s) (localconnectpending s)
    (loop_client s) (loop_server s).
Definition set_net_activeconnections (v : Z) (s : netst) : netst :=
    NetSt (net_activeSockets s) (net_freeSockets s) (socks s) (net_driverlevel s) (now s)
    (maxclients s) v (nmsg s) (messagesSent s) (messagesReceived s) (unreliableMessagesSent
    s) (unreliableMessagesReceived s) (localconnectpending s) (loop_client s) (loop_server
    s).
Definition set_nmsg (v : sizebuf) (s : netst) : netst :=
    NetSt (net_activeSockets s) (net_freeSockets s) (socks s) (net_driverlevel s) (now s)
    (maxclients s) (net_activeconnections s) v (messagesSent s) (messagesReceived s)
    (unreliableMessagesSent s) (unreliableMessagesReceived s) (localconnectpending s)
    (loop_client s) (loop_server s).
Definition set_messagesSent (v : Z) (s : netst) : netst :=
    NetSt (net_activeSockets s) (net_freeSockets s) (socks s) (net_driverlevel s) (now s)
    (maxclients s) (net_activeconnections s) (nmsg s) v (messagesReceived s)
    (unreliableMessagesSent s) (unreliableMessagesReceived s) (localconnectpending s)
    (loop_client s) (loop_server s).
Definition set_messagesReceived (v : Z) (s : netst) : netst :=
    NetSt (net_activeSockets s) (net_freeSockets s) (socks s) (net_driverlevel s) (now s)
    (maxclients s) (net_activeconnections s) (nmsg s) (messagesSent s) v
    (unreliableMessagesSent s) (unreliableMessagesReceived s) (localconnectpending s)
    (loop_client s) (loop_server s).
Definition set_unreliableMessagesSent (v : Z) (s : netst) : netst :=
    NetSt (net_activeSockets s) (net_freeSockets s) (socks s) (net_driverlevel s) (now s)
    (maxclients s) (net_activeconnections s) (nmsg s) (messagesSent s) (messagesReceived s)
    v (unreliableMessagesReceived s) (localconnectpending s) (loop_client s) (loop_server
    s).
Definition set_unreliableMessagesReceived (v : Z) (s : netst) : netst :=
    NetSt (net_activeSockets s) (net_freeSockets s) (socks s) (net_driverlevel s) (now s)
    (maxclients s) (net_activeconnections s) (nmsg s) (messagesSent s) (messagesReceived s)
    (unreliableMessagesSent s) v (localconnectpending s) (loop_client s) (loop_server s).
Definition set_localconnectpending (v : bool) (s : netst) : netst :=
    NetSt (net_activeSockets s) (net_freeSockets s) (socks s) (net_driverlevel s) (now s)
    (maxclients s) (net_activeconnections s) (nmsg s) (messagesSent s) (messagesReceived s)
    (unreliableMessagesSent s) (unreliableMessagesReceived s) v (loop_client s) (loop_server
    s).
Definition set_loop_client (v : Z) (s : netst) : netst :=
    NetSt (net_activeSockets s) (net_freeSockets s) (socks s) (net_driverlevel s) (now s)
    (maxclients s) (net_activeconnections s) (nmsg s) (messagesSent s) (messagesReceived s)
    (unreliableMessagesSent s) (unreliableMessagesReceived s) (localconnectpending s) v
    (loop_server s).
Definition set_loop_server (v : Z) (s : netst) : netst :=
    NetSt (net_activeSockets s) (net_freeSockets s) (socks s) (net_driverlevel s) (now s)
    (maxclients s) (net_activeconnections s) (nmsg s) (messagesSent s) (messagesReceived s)
    (unreliableMessagesSent s) (unreliableMessagesReceived s) (localconnectpending s)
    (loop_client s) v.

(** Read a socket; change one field. *)
Definition sock_at (st : netst) (p : Z) : res qsocket :=
  of_option (Undefined "not a qsocket") (socks st !! p).

Definition upd_sock (p : Z) (f : qsocket -> qsocket) (st : netst) : res netst :=
  s ← sock_at st p; mret (set_socks (<[p := f s]> (socks st)) st).

(** C: Source/net_main.c:106-110 SetNetTime *)
Definition SetNetTime (t : f64) (st : netst) : netst := set_now t st.

(** C: Source/net_main.c:114-118 _lrotl *)
Definition lrotl (x s : Z) : Z :=
  let s := s & 31 in u32 (x << s) .| (x >> (32 - s)).
(** C: Source/net_main.c:119-123 _lrotr *)
Definition lrotr (x s : Z) : Z :=
  let s := s & 31 in (x >> s) .| u32 (x << (32 - s)).

(** The fields [NET_NewQSocket] sets, the links apart. *)
Definition init_sock (st : netst) (s : qsocket) : res qsocket :=
  let s := set_disconnected false s in
  let s := set_connecttime (now st) s in
  a ← Q_strcpy_to (address s) (cs "UNSET ADDRESS");
  let s := set_address a s in
  let s := set_driver (net_driverlevel st) s in
  let s := set_socket 0 s in
  let s := set_driverdata 0 s in
  let s := set_canSend true s in
  let s := set_sendNext false s in
  let s := set_lastMessageTime (now st) s in
  let s := set_ackSequence 0 s in
  let s := set_sendSequence 0 s in
  let s := set_unreliableSendSequence 0 s in
  let s := set_sendMessageLength 0 s in
  let s := set_receiveSequence 0 s in
  let s := set_unreliableReceiveSequence 0 s in
  mret (set_receiveMessageLength 0 s).

(** C: Source/net_main.c:134-170 NET_NewQSocket *)
Definition NET_NewQSocket (st : netst) : res (Z * netst) :=
  if net_freeSockets st =? 0 then mret (0, st)
  else if maxclients st <=? net_activeconnections st then mret (0, st)
  else
    let sock := net_freeSockets st in
    s ← sock_at st sock;
    let st := set_net_freeSockets (sock_next s) st in
    let s := set_sock_next (net_activeSockets st) s in
    let st := set_net_activeSockets sock st in
    s ← init_sock st s;
    mret (sock, set_socks (<[sock := s]> (socks st)) st).

(** The search for the predecessor; [None] is the loop running off the list. *)
Fixpoint find_pred (fuel : nat) (st : netst) (s sock : Z) : res (option Z) :=
  match fuel with
  | O => Fault OutOfFuel
  | S fuel =>
      if s =? 0 then mret None
      else
        q ← sock_at st s;
        if sock_next q =? sock then mret (Some s) else find_pred fuel st (sock_next q) sock
  end.

(** C: Source/net_main.c:172-197 NET_FreeQSocket *)
Definition NET_FreeQSocket (st : netst) (sock : Z) : res netst :=
  st ← (if sock =? net_activeSockets st then
          a ← sock_at st (net_activeSockets st);
          mret (set_net_activeSockets (sock_next a) st)
        else
          found ← find_pred (S (size (socks st))) st (net_activeSockets st) sock;
          match found with
          | None => Fault (Sys_Error "NET_FreeQSocket: not active")
          | Some s => q ← sock_at st sock; upd_sock s (set_sock_next (sock_next q)) st
          end);
  st ← upd_sock sock (set_sock_next (net_freeSockets st)) st;
  let st := set_net_freeSockets sock st in
  upd_sock sock (set_disconnected true) st.

(** The operations of a driver.
    C: Source/net.h:203-221 net_driver_t *)
Record net_driver : Type := NetDriver {
  QGetMessage : netst -> Z -> res (Z * netst);
  QSendMessage : netst -> Z -> sizebuf -> res (Z * netst);
  SendUnreliableMessage : netst -> Z -> sizebuf -> res (Z * netst);
  CanSendMessage : netst -> Z -> res (bool * netst);
  CloseSock : netst -> Z -> res netst
}.

Section calls.

Variable net_drivers : Z -> net_driver.

(** [sfunc]: the driver of a socket. *)
Definition sfunc (s : qsocket) : net_driver := net_drivers (driver s).

(** C: Source/net_main.c:513-527 NET_Close *)
Definition NET_Close (t : f64) (st : netst) (sock : Z) : res netst :=
  if sock =? 0 then mret st else
  s ← sock_at st sock;
  if disconnected s then mret st else
  let st := SetNetTime t st in
  st ← CloseSock (sfunc s) st sock;
  NET_FreeQSocket st sock.

(** The globals [NET_GetMessage] consults besides the sockets. *)
Record getenv : Type := GetEnv {
  net_messagetimeout : f32;
  net_connecttimeout : f32;
  sv_active : bool;
  host_client : option (Z * bytes);
  cl_cheatfree : bool;
  Security_Decode : bytes -> Z -> bytes;
  Security_Encode : bytes -> Z -> bytes
}.

Definition MOD_QSMACK : Z := 2.

Definition elapsed (st : netst) (s : qsocket) (limit : f32) : bool :=
  f_ltb (f64_of_f32 limit) (f64_sub (now st) (lastMessageTime s)).

(** Replace the contents of a buffer by as many bytes. *)
Definition recode (f : bytes -> Z -> bytes) (port : Z) (b : sizebuf) : res sizebuf :=
  d ← load (data b) 0 (cursize b); poke b 0 (f d port).

(** C: Source/net_main.c:551-625 NET_GetMessage *)
Definition NET_GetMessage (t : f64) (g : getenv) (st : netst) (sock : Z) : res (Z * netst) :=
  if sock =? 0 then mret (-1, st) else
  s ← sock_at st sock;
  if disconnected s then mret (-1, st) else
  let st := SetNetTime t st in
  '(ret, st) ← QGetMessage (sfunc s) st sock;
  s ← sock_at st sock;
  if (ret =? 0) && truth (driver s) && elapsed st s (net_messagetimeout g) then
    st ← NET_Close t st sock; mret (-1, st)
  else if (ret =? 0) && truth (driver s) && elapsed st s (net_connecttimeout g) && sv_active g &&
          match host_client g with
          | Some (c, name) => (sock =? c) && bool_decide (name = cs "unconnected")
          | None => false
          end then
    st ← NET_Close t st sock; mret (-1, st)
  else if 0 <? ret then
    st ← (if cl_cheatfree g && negb (mod_id s =? MOD_QSMACK) &&
             ((mod_version s <? 35) || truth (encrypt s))
          then m ← recode (Security_Decode g) (client_port s) (nmsg st); mret (set_nmsg m st)
          else mret st);
    st ← (if truth (driver s) then
            st ← upd_sock sock (set_lastMessageTime (now st)) st;
            mret (if ret =? 1 then set_messagesReceived (s32 (messagesReceived st + 1)) st
                  else if ret =? 2
                  then set_unreliableMessagesReceived (s32 (unreliableMessagesReceived st + 1)) st
                  else st)
          else mret st);
    mret (ret, st)
  else mret (ret, st).

(** The encryption step the two sending calls begin with. *)
Definition encode_step (g : getenv) (s : qsocket) (d : sizebuf) : res (sizebuf * qsocket) :=
  if cl_cheatfree g && negb (mod_id s =? MOD_QSMACK) then
    d ← (if (mod_version s <? 35) || (encrypt s =? 1) || (encrypt s =? 2)
         then recode (Security_Encode g) (client_port s) d else mret d);
    mret (d, if encrypt s =? 1 then set_encrypt 0 s
             else if encrypt s =? 3 then set_encrypt 2 s else s)
  else mret (d, s).

(** C: Source/net_main.c:650-694 NET_SendMessage *)
Definition NET_SendMessage (t : f64) (g : getenv) (st : netst) (sock : Z) (d : sizebuf)
  : res (Z * netst) :=
  if sock =? 0 then mret (-1, st) else
  s ← sock_at st sock;
  if disconnected s then mret (-1, st) else
  '(d, s') ← encode_step g s d;
  st ← upd_sock sock (fun _ => s') st;
  let st := SetNetTime t st in
  '(r, st) ← QSendMessage (sfunc s) st sock d;
  mret (r, if (r =? 1) && truth (driver s)
           then set_messagesSent (s32 (messagesSent st + 1)) st else st).

(** C: Source/net_main.c:696-740 NET_SendUnreliableMessage *)
Definition NET_SendUnreliableMessage (t : f64) (g : getenv) (st : netst) (sock : Z) (d : sizebuf)
  : res (Z * netst) :=
  if sock =? 0 then mret (-1, st) else
  s ← sock_at st sock;
  if disconnected s then mret (-1, st) else
  '(d, s') ← encode_step g s d;
  st ← upd_sock sock (fun _ => s') st;
  let st := SetNetTime t st in
  '(r, st) ← SendUnreliableMessage (sfunc s) st sock d;
  mret (r, if (r =? 1) && truth (driver s)
           then set_unreliableMessagesSent (s32 (unreliableMessagesSent st + 1)) st else st).

(** C: Source/net_main.c:750-774 NET_CanSendMessage *)
Definition NET_CanSendMessage (t : f64) (st : netst) (sock : Z) : res (bool * netst) :=
  if sock =? 0 then mret (false, st) else
  s ← sock_at st sock;
  if disconnected s then mret (false, st) else
  CanSendMessage (sfunc s) (SetNetTime t st) sock.

(** The loop over the active sockets of [NET_Shutdown], which reads [sock->next] after
    [NET_Close (sock)].
    C: Source/net_main.c:951-958 NET_Shutdown *)
Fixpoint shutdown_loop (fuel : nat) (t : f64) (st : netst) (sock : Z) : res netst :=
  match fuel with
  | O => Fault OutOfFuel
  | S fuel =>
      if sock =? 0 then mret st
      else
        st ← NET_Close t st sock;
        s ← sock_at st sock;
        shutdown_loop fuel t st (sock_next s)
  end.

Definition NET_Shutdown_sockets (t : f64) (st : netst) : res netst :=
  let st := SetNetTime t st in
  shutdown_loop (S (S (size (socks st)))) t st (net_activeSockets st).

End calls.

(** C: Source/net_main.c:876-886 NET_Init *)
Fixpoint NET_Init_sockets (sockaddrs : list Z) (s0 : qsocket) (st : netst) : netst :=
  match sockaddrs with
  | [] => st
  | p :: ps =>
      let s := set_disconnected true (set_sock_next (net_freeSockets st) s0) in
      NET_Init_sockets ps s0
        (set_net_freeSockets p (set_socks (<[p := s]> (socks st)) st))
  end.

(** * The pool of sockets *)

(** The sockets linked from [p]. *)
Fixpoint chain (m : gmap Z qsocket) (p : Z) (l : list Z) : Prop :=
  match l with
  | [] => p = 0
  | a :: l => p = a /\ a <> 0 /\ exists s, m !! a = Some s /\ chain m (sock_next s) l
  end.

(** The active sockets are [A], the free ones [F]. *)
Definition pool (st : netst) (A F : list Z) : Prop :=
  chain (socks st) (net_activeSockets st) A /\ chain (socks st) (net_freeSockets st) F /\
  NoDup (A ++ F) /\
  (forall a s, a ∈ A -> socks st !! a = Some s -> disconnected s = false) /\
  (forall a s, a ∈ F -> socks st !! a = Some s -> disconnected s = true) /\
  (forall a s, socks st !! a = Some s -> (64 <= length (address s))%nat) /\
  (forall a s, socks st !! a = Some s ->
     driverdata s = 0 \/ is_Some (socks st !! driverdata s)).

Lemma chain_in m p l a : chain m p l -> a ∈ l -> a <> 0 /\ is_Some (m !! a).
Proof.
  revert p. induction l as [|b l IH]; intros p Hc Ha; [by apply not_elem_of_nil in Ha|].
  destruct Hc as (_ & Hb & s & Hs & Hc). apply elem_of_cons in Ha as [->|Ha]; eauto.
Qed.

Lemma chain_frame m m' p l :
  chain m p l ->
  (forall a s, a ∈ l -> m !! a = Some s ->
     exists s', m' !! a = Some s' /\ sock_next s' = sock_next s) -> chain m' p l.
Proof.
  revert p. induction l as [|b l IH]; intros p Hc Hf; [done|].
  destruct Hc as (-> & Hb & s & Hs & Hc). split; [done|]. split; [done|].
  destruct (Hf b s ltac:(by left) Hs) as (s' & Hs' & Hn). exists s'. split; [done|]. rewrite Hn.
  apply IH; [done|]. intros a s0 Ha. apply Hf. by right.
Qed.

Lemma chain_insert m p l a s :
  chain m p l -> a ∉ l -> chain (<[a := s]> m) p l.
Proof.
  intros Hc Ha. eapply chain_frame; [done|]. intros b s0 Hb Hs. exists s0.
  rewrite lookup_insert_ne; [done|]. intros ->. done.
Qed.

(** A change of other fields than the link. *)
Lemma chain_update m p l a s s' :
  chain m p l -> m !! a = Some s -> sock_next s' = sock_next s -> chain (<[a := s']> m) p l.
Proof.
  intros Hc Ha Hn. eapply chain_frame; [done|]. intros b s0 Hb Hs.
  destruct (decide (a = b)) as [->|]; [|rewrite lookup_insert_ne by done; eauto].
  rewrite lookup_insert_eq. simplify_eq. eauto.
Qed.

Lemma chain_at m p l1 a l2 :
  chain m p (l1 ++ a :: l2) -> exists s, m !! a = Some s /\ chain m (sock_next s) l2.
Proof.
  revert p. induction l1 as [|b l1 IH]; intros p; cbn [app chain].
  - intros (_ & _ & s & Hs & Hc). eauto.
  - intros (_ & _ & s & _ & Hc). eauto.
Qed.

(** The predecessor search finds the socket before [a], and relinking it drops [a]. *)
Lemma find_pred_unlink st a l2 l1 : forall p fuel,
  chain (socks st) p (l1 ++ a :: l2) -> NoDup (l1 ++ a :: l2) -> l1 <> [] ->
  (length l1 <= fuel)%nat ->
  exists b sb sa, find_pred fuel st p a = Ok (Some b) /\ b ∈ l1 /\
    socks st !! b = Some sb /\ socks st !! a = Some sa /\
    chain (<[b := set_sock_next (sock_next sa) sb]> (socks st)) p (l1 ++ l2).
Proof.
  induction l1 as [|b l1 IH]; intros p fuel Hc Hnd Hne Hf; [done|]. clear Hne.
  destruct fuel as [|fuel]; [cbn in Hf; lia|]. cbn [find_pred app] in *.
  destruct Hc as (-> & Hb0 & sb & Hsb & Hc). apply NoDup_cons in Hnd as [Hnb Hnd].
  case_if; [done|]. unfold sock_at. rewrite Hsb. cbn [of_option]. rewrite bind_Ok.
  destruct l1 as [|c l1].
  - cbn [app] in *. destruct Hc as (Hn & Ha0 & sa & Hsa & Hc). rewrite Hn, Z.eqb_refl.
    exists b, sb, sa. split_and!; try done; [set_solver|]. cbn. split; [done|]. split; [done|].
    eexists. rewrite lookup_insert_eq. split; [done|]. apply chain_insert; [done|]. set_solver.
  - assert (sock_next sb = c) as Hn by by destruct Hc. rewrite Hn.
    case_if. { exfalso. subst a. cbn in Hnd. apply NoDup_cons in Hnd as [Hnd _]. set_solver. }
    destruct (IH c fuel) as (b' & sb' & sa & HF & Hin & Hb' & Ha & Hc'); try done.
    { by rewrite Hn in Hc. } { cbn in Hf |- *. lia. }
    exists b', sb', sa. split_and!; try done; [set_solver|]. cbn [chain app].
    split; [done|]. split; [done|]. exists sb. rewrite lookup_insert_ne by set_solver.
    by rewrite Hn.
Qed.

Lemma find_pred_none st a l : forall p fuel,
  chain (socks st) p l -> a ∉ l -> a <> 0 -> (length l < fuel)%nat ->
  find_pred fuel st p a = Ok None.
Proof.
  induction l as [|b l IH]; intros p fuel Hc Ha H0 Hf; (destruct fuel as [|fuel]; [cbn in Hf; lia|]);
    cbn [find_pred].
  - cbn in Hc. subst. done.
  - destruct Hc as (-> & Hb0 & sb & Hsb & Hc). case_if; [done|].
    unfold sock_at. rewrite Hsb. cbn [of_option]. rewrite bind_Ok. case_if.
    + destruct l as [|c l]; cbn in Hc; [congruence|]. destruct Hc as [Hc _]. set_solver.
    + apply IH; [done|set_solver|done|cbn in Hf; lia].
Qed.

Lemma chain_size m p l : chain m p l -> NoDup l -> (length l <= size m)%nat.
Proof.
  intros Hc Hnd. rewrite <- (size_list_to_set (C := gset Z)) by done.
  rewrite <- (size_dom (D := gset Z) m). apply subseteq_size.
  intros a Ha. apply elem_of_dom. apply elem_of_list_to_set in Ha. by eapply chain_in.
Qed.

(** ** The operations on the pool *)

Lemma sock_at_ok st p s : socks st !! p = Some s -> sock_at st p = Ok s.
Proof. intros H. unfold sock_at. by rewrite H. Qed.

Lemma upd_sock_ok st p f s :
  socks st !! p = Some s -> upd_sock p f st = Ok (set_socks (<[p := f s]> (socks st)) st).
Proof. intros H. unfold upd_sock. by rewrite (sock_at_ok _ _ _ H). Qed.

Lemma init_sock_ok st s :
  (64 <= length (address s))%nat ->
  exists s', init_sock st s = Ok s' /\ sock_next s' = sock_next s /\ disconnected s' = false /\
    length (address s') = length (address s) /\ driver s' = net_driverlevel st /\
    canSend s' = true /\ sendNext s' = false /\ ackSequence s' = 0 /\ sendSequence s' = 0 /\
    unreliableSendSequence s' = 0 /\ receiveSequence s' = 0 /\ unreliableReceiveSequence s' = 0 /\
    sendMessageLength s' = 0 /\ receiveMessageLength s' = 0 /\ driverdata s' = 0.
Proof.
  intros Hl. unfold init_sock. cbn zeta. cbn [address set_disconnected set_connecttime].
  unfold Q_strcpy_to. rewrite store_ok by (cbn; lia). rewrite bind_Ok. eexists. split; [done|].
  cbn -[splice]. rewrite length_splice by (cbn; lia). done.
Qed.

(** Replacing a socket's record: what keeps the rest of the pool. *)
Lemma pool_new st a A F s s' :
  pool st A (a :: F) -> socks st !! a = Some s ->
  sock_next s' = net_activeSockets st -> disconnected s' = false ->
  length (address s') = length (address s) -> driverdata s' = 0 ->
  pool (set_socks (<[a := s']> (socks st))
         (set_net_activeSockets a (set_net_freeSockets (sock_next s) st))) (a :: A) F.
Proof.
  intros (Hca & Hcf & Hnd & Hda & Hdf & Hl & Hdd) Hs Hn Hd Hlen Hdr.
  destruct Hcf as (_ & Ha0 & s0 & Hs0 & Hcf). simplify_eq.
  assert (a ∉ A /\ a ∉ F /\ NoDup (A ++ F)) as (HA & HF & Hnd').
  { apply NoDup_app in Hnd as (H1 & H2 & H3). apply NoDup_cons in H3 as [H3 H4].
    split; [set_solver|]. split; [done|]. apply NoDup_app. set_solver. }
  unfold pool. cbn [socks net_activeSockets net_freeSockets set_socks set_net_activeSockets set_net_freeSockets].
  split_and!.
  - split; [done|]. split; [done|]. exists s'. rewrite lookup_insert_eq, Hn. split; [done|].
    by apply chain_insert.
  - by apply chain_insert.
  - cbn. constructor; [set_solver|done].
  - intros b sb [->|Hb]%elem_of_cons; [rewrite lookup_insert_eq; congruence|].
    rewrite lookup_insert_ne by set_solver. by apply Hda.
  - intros b sb Hb. rewrite lookup_insert_ne by set_solver. apply Hdf. by right.
  - intros b sb. destruct (decide (a = b)) as [->|]; [rewrite lookup_insert_eq; intros; simplify_eq|].
    + rewrite Hlen. by eapply Hl.
    + rewrite lookup_insert_ne by done. apply Hl.
  - intros b sb. destruct (decide (a = b)) as [->|]; [rewrite lookup_insert_eq; intros; simplify_eq; by left|].
    rewrite (lookup_insert_ne _ a b) by done. intros Hb. destruct (Hdd b sb Hb) as [|Hp]; [by left|right].
    apply lookup_insert_is_Some'. by right.
Qed.

(** The first half of [NET_FreeQSocket]: the socket leaves the active list, and only the
    link of its predecessor changes. *)
Definition unlink_active (st : netst) (sock : Z) : res netst :=
  if sock =? net_activeSockets st then
    a ← sock_at st (net_activeSockets st);
    mret (set_net_activeSockets (sock_next a) st)
  else
    found ← find_pred (S (size (socks st))) st (net_activeSockets st) sock;
    match found with
    | None => Fault (Sys_Error "NET_FreeQSocket: not active")
    | Some s => q ← sock_at st sock; upd_sock s (set_sock_next (sock_next q)) st
    end.

Lemma unlink_active_ok st A1 a A2 :
  chain (socks st) (net_activeSockets st) (A1 ++ a :: A2) -> NoDup (A1 ++ a :: A2) ->
  exists st1, unlink_active st a = Ok st1 /\
    chain (socks st1) (net_activeSockets st1) (A1 ++ A2) /\
    net_freeSockets st1 = net_freeSockets st /\ size (socks st1) = size (socks st) /\
    (forall b s, socks st1 !! b = Some s -> exists s0, socks st !! b = Some s0 /\
       disconnected s = disconnected s0 /\ address s = address s0 /\ driverdata s = driverdata s0) /\
    (forall b, b ∉ A1 -> socks st1 !! b = socks st !! b) /\
    (forall b, is_Some (socks st !! b) -> is_Some (socks st1 !! b)).
Proof.
  intros Hca HndA. unfold unlink_active.
  destruct (chain_at _ _ _ _ _ Hca) as (sa & Hsa & Hc2). case_if.
  - rewrite <- E, (sock_at_ok _ _ _ Hsa), bind_Ok. eexists. split; [done|]. cbn.
    assert (A1 = []) as ->.
    { destruct A1 as [|b A1]; [done|]. destruct Hca as [Hca _]. exfalso.
      cbn in HndA. apply NoDup_cons in HndA as [HndA _]. set_solver. }
    split_and!; try done. eauto.
  - assert (A1 <> []) as Hne. { intros ->. by destruct Hca as [? _]. }
    destruct (find_pred_unlink st a A2 A1 (net_activeSockets st) (S (size (socks st))))
      as (b & sb & sa' & -> & Hb & Hsb & Hsa' & Hc'); try done.
    { pose proof (chain_size _ _ _ Hca HndA) as Hsz. rewrite length_app in Hsz. lia. }
    rewrite bind_Ok, (sock_at_ok _ _ _ Hsa), bind_Ok, (upd_sock_ok _ _ _ _ Hsb).
    eexists. split; [done|]. cbn. simplify_eq. split_and!; try done.
    + by rewrite map_size_insert_Some by eauto.
    + intros c s. destruct (decide (b = c)) as [->|].
      * rewrite lookup_insert_eq. intros [= <-]. by exists sb.
      * rewrite lookup_insert_ne by done. eauto.
    + intros c Hc. rewrite lookup_insert_ne by set_solver. done.
    + intros c Hc. apply lookup_insert_is_Some'. by right.
Qed.

(** The second half: the socket joins the free list. *)
Lemma pool_free st st1 A1 a A2 F s s' :
  pool st (A1 ++ a :: A2) F ->
  chain (socks st1) (net_activeSockets st1) (A1 ++ A2) ->
  net_freeSockets st1 = net_freeSockets st ->
  (forall b s, socks st1 !! b = Some s -> exists s0, socks st !! b = Some s0 /\
     disconnected s = disconnected s0 /\ address s = address s0 /\ driverdata s = driverdata s0) ->
  (forall b, b ∉ A1 -> socks st1 !! b = socks st !! b) ->
  (forall b, is_Some (socks st !! b) -> is_Some (socks st1 !! b)) ->
  socks st1 !! a = Some s -> sock_next s' = net_freeSockets st -> disconnected s' = true ->
  address s' = address s -> driverdata s' = driverdata s ->
  pool (set_socks (<[a := s']> (socks st1)) (set_net_freeSockets a st1)) (A1 ++ A2) (a :: F).
Proof.
  intros (Hca & Hcf & Hnd & Hda & Hdf & Hl & Hdd) Hc1 Hf1 Hs1 Hs1' Hdom Hs Hn Hd Hadr Hdrv.
  apply NoDup_app in Hnd as (HndA & Hdis & HndF).
  destruct (chain_in _ _ _ a Hca ltac:(set_solver)) as [Ha0 _].
  apply NoDup_app in HndA as (H1 & H2 & H3). apply NoDup_cons in H3 as [H4 H3].
  assert (a ∉ A1 /\ a ∉ F) as (Ha1 & HaF).
  { split; [|apply Hdis; set_solver]. intros H. apply (H2 _ H). by left. }
  unfold pool. cbn -[chain]. split_and!.
  - apply chain_insert; [done|set_solver].
  - split; [done|]. split; [done|]. eexists. rewrite lookup_insert_eq. split; [done|]. rewrite Hn.
    apply chain_insert; [|done]. eapply chain_frame; [exact Hcf|]. intros b sb Hb Hsb.
    exists sb. rewrite Hs1'; [done|]. intros Hb1. apply (Hdis b); set_solver.
  - rewrite <- Permutation_middle. apply NoDup_cons. split; [set_solver|].
    apply NoDup_app. split_and!; [|set_solver|done]. apply NoDup_app. set_solver.
  - intros b sb Hb. rewrite lookup_insert_ne by set_solver. intros Hsb.
    destruct (Hs1 _ _ Hsb) as (s0 & Hs0 & -> & _). apply (Hda b); [set_solver|done].
  - intros b sb Hb. destruct (decide (a = b)) as [->|Hab]; [rewrite lookup_insert_eq; by intros [= <-]|].
    rewrite lookup_insert_ne by done. intros Hsb. destruct (Hs1 _ _ Hsb) as (s0 & Hs0 & -> & _).
    apply (Hdf b); [set_solver|done].
  - intros b sb. destruct (decide (a = b)) as [->|Hab].
    + rewrite lookup_insert_eq. intros [= <-]. destruct (Hs1 _ _ Hs) as (s0 & Hs0 & _ & He & _).
      rewrite Hadr, He. by eapply Hl.
    + rewrite lookup_insert_ne by done. intros Hsb. destruct (Hs1 _ _ Hsb) as (s0 & Hs0 & _ & -> & _).
      by eapply Hl.
  - assert (forall b s0, socks st1 !! b = Some s0 -> driverdata s0 = 0 \/
              is_Some (<[a := s']> (socks st1) !! driverdata s0)) as Hkeep.
    { intros b sb Hsb. destruct (Hs1 _ _ Hsb) as (s0 & Hs0 & _ & _ & Hdd0). rewrite Hdd0.
      destruct (Hdd _ _ Hs0) as [|Hp]; [by left|right].
      apply lookup_insert_is_Some'. right. by apply Hdom. }
    intros b sb. destruct (decide (a = b)) as [->|Hab].
    + rewrite lookup_insert_eq. intros [= <-]. rewrite Hdrv. by eapply Hkeep.
    + rewrite (lookup_insert_ne _ a b) by done. apply Hkeep.
Qed.

(** [NET_FreeQSocket] moves an active socket to the front of the free list. *)
Lemma NET_FreeQSocket_ok st A1 a A2 F :
  pool st (A1 ++ a :: A2) F ->
  exists st' s', NET_FreeQSocket st a = Ok st' /\ pool st' (A1 ++ A2) (a :: F) /\
    socks st' !! a = Some s' /\ sock_next s' = net_freeSockets st /\ disconnected s' = true /\
    size (socks st') = size (socks st).
Proof.
  intros Hp. pose proof Hp as (Hca & Hcf & Hnd & _).
  apply NoDup_app in Hnd as (HndA & Hdis & HndF).
  destruct (unlink_active_ok st A1 a A2 Hca HndA) as (st1 & HU & Hc1 & Hf1 & Hsz & Hs1 & Hs1' & Hdom).
  destruct (chain_at _ _ _ _ _ Hca) as (sa & Hsa & _).
  assert (a ∉ A1) as Ha1. { apply NoDup_app in HndA as (_ & H2 & _). intros H. apply (H2 _ H). by left. }
  assert (socks st1 !! a = Some sa) as Hsa1 by by rewrite Hs1'.
  unfold NET_FreeQSocket. fold (unlink_active st a). rewrite HU, bind_Ok.
  rewrite (upd_sock_ok _ _ _ _ Hsa1), bind_Ok. erewrite upd_sock_ok; [|cbn; apply lookup_insert_eq].
  eexists _, _. split; [done|]. cbn [socks set_socks set_net_freeSockets]. rewrite insert_insert_eq.
  split; [|rewrite lookup_insert_eq; split_and!; try done].
  - by eapply (pool_free st st1).
  - by rewrite map_size_insert_Some by eauto.
Qed.

(** ** What this layer needs of a driver *)

(** A driver may change a socket's buffers and counters, but not which list it is on. *)
Definition same_pool (st st' : netst) : Prop :=
  net_activeSockets st' = net_activeSockets st /\ net_freeSockets st' = net_freeSockets st /\
  size (socks st') = size (socks st) /\
  forall p, match socks st !! p, socks st' !! p with
            | Some s, Some s' =>
                sock_next s' = sock_next s /\ disconnected s' = disconnected s /\
                driver s' = driver s /\ length (address s') = length (address s) /\
                (driverdata s' = driverdata s \/ driverdata s' = 0)
            | None, None => True
            | _, _ => False
            end.

Class DriverLaws (d : net_driver) : Prop := {
  get_same st s r st' : QGetMessage d st s = Ok (r, st') -> same_pool st st';
  send_same st s b r st' : QSendMessage d st s b = Ok (r, st') -> same_pool st st';
  usend_same st s b r st' : SendUnreliableMessage d st s b = Ok (r, st') -> same_pool st st';
  can_same st s r st' : CanSendMessage d st s = Ok (r, st') -> same_pool st st';
  close_same st s st' : CloseSock d st s = Ok st' -> same_pool st st';
  close_total st A F s : pool st A F -> s ∈ A -> is_ok (CloseSock d st s) = true
}.

#[global] Instance same_pool_refl : Reflexive same_pool.
Proof.
  intros st. split_and!; try done. intros p. destruct (socks st !! p); [|done].
  split_and!; try done. by left.
Qed.

#[global] Instance same_pool_trans : Transitive same_pool.
Proof.
  intros st1 st2 st3 (H1 & H2 & H3 & H4) (K1 & K2 & K3 & K4). split_and!; try congruence.
  intros p. specialize (H4 p). specialize (K4 p).
  destruct (socks st1 !! p), (socks st2 !! p), (socks st3 !! p); try done.
  destruct H4 as (? & ? & ? & ? & [?|?]), K4 as (? & ? & ? & ? & [?|?]); split_and!; try congruence;
    (left; congruence) || (right; congruence).
Qed.

Lemma same_pool_pool st st' A F : same_pool st st' -> pool st A F -> pool st' A F.
Proof.
  intros (H1 & H2 & _ & H3) (Hca & Hcf & Hnd & Hda & Hdf & Hl & Hdd).
  assert (forall p s, socks st !! p = Some s ->
            exists s', socks st' !! p = Some s' /\ sock_next s' = sock_next s) as Hfwd.
  { intros p s Hs. specialize (H3 p). rewrite Hs in H3. destruct (socks st' !! p); naive_solver. }
  assert (forall p s', socks st' !! p = Some s' -> exists s, socks st !! p = Some s /\
            disconnected s' = disconnected s /\ length (address s') = length (address s) /\
            (driverdata s' = driverdata s \/ driverdata s' = 0)) as Hbwd.
  { intros p s' Hs. specialize (H3 p). rewrite Hs in H3. destruct (socks st !! p); naive_solver. }
  unfold pool. rewrite H1, H2. split_and!; try done.
  - eapply chain_frame; [done|]. intros p s _. apply Hfwd.
  - eapply chain_frame; [done|]. intros p s _. apply Hfwd.
  - intros p s' Hp (s & Hs & -> & _)%Hbwd. by eapply Hda.
  - intros p s' Hp (s & Hs & -> & _)%Hbwd. by eapply Hdf.
  - intros p s' (s & Hs & _ & -> & _)%Hbwd. by eapply Hl.
  - intros p s' (s & Hs & _ & _ & [->|?])%Hbwd; [|by left].
    destruct (Hdd _ _ Hs) as [|[s0 Hs0]]; [by left|right]. apply Hfwd in Hs0 as (s1 & ? & _). by eexists.
Qed.

Lemma upd_sock_same st p f st' :
  (forall s, sock_next (f s) = sock_next s /\ disconnected (f s) = disconnected s /\
             driver (f s) = driver s /\ length (address (f s)) = length (address s) /\
             (driverdata (f s) = driverdata s \/ driverdata (f s) = 0)) ->
  upd_sock p f st = Ok st' -> same_pool st st'.
Proof.
  intros Hf HU. unfold upd_sock, sock_at in HU. destruct (socks st !! p) as [s|] eqn:Hs; [|done].
  injection HU as <-. split_and!; try done; [cbn; by rewrite map_size_insert_Some|].
  intros q. cbn. destruct (decide (p = q)) as [->|]; [rewrite lookup_insert_eq, Hs; apply Hf|].
  rewrite lookup_insert_ne by done. apply same_pool_refl.
Qed.

Lemma same_pool_other st f :
  net_activeSockets (f st) = net_activeSockets st -> net_freeSockets (f st) = net_freeSockets st ->
  socks (f st) = socks st -> same_pool st (f st).
Proof. intros H1 H2 H3. split_and!; try done; rewrite H3; [done|]. apply same_pool_refl. Qed.

(** A socket as [NET_NewQSocket] hands it out. *)
Definition new_qsocket (s : qsocket) : Prop :=
  canSend s = true /\ sendNext s = false /\ ackSequence s = 0 /\ sendSequence s = 0 /\
  unreliableSendSequence s = 0 /\ receiveSequence s = 0 /\ unreliableReceiveSequence s = 0 /\
  sendMessageLength s = 0 /\ receiveMessageLength s = 0 /\ driverdata s = 0.

Lemma NET_NewQSocket_free st A a F :
  pool st A (a :: F) -> net_activeconnections st < maxclients st ->
  exists st' s, NET_NewQSocket st = Ok (a, st') /\ pool st' (a :: A) F /\
    socks st' !! a = Some s /\ new_qsocket s /\ forall b, b <> a -> socks st' !! b = socks st !! b.
Proof.
  intros Hp Hmax. pose proof Hp as (_ & (Hfa & Ha0 & s & Hs & Hcf) & _ & _ & _ & Hl & _).
  unfold NET_NewQSocket. case_if; [congruence|]. case_if; [lia|].
  rewrite Hfa, (sock_at_ok _ _ _ Hs), bind_Ok.
  destruct (init_sock_ok (set_net_activeSockets a (set_net_freeSockets (sock_next s) st))
    (set_sock_next (net_activeSockets st) s)) as (s' & Hi & Hn & Hd & Ha & _ & Hrest); [exact (Hl _ _ Hs)|].
  cbv zeta. change (net_activeSockets (set_net_freeSockets _ st)) with (net_activeSockets st).
  rewrite Hi, bind_Ok. eexists _, s'. split; [done|].
  split; [refine (pool_new st a A F s s' Hp Hs Hn Hd Ha _); apply Hrest|].
  cbn [socks set_socks set_net_activeSockets set_net_freeSockets].
  rewrite lookup_insert_eq. split; [done|]. split; [exact Hrest|].
  intros b Hb. by rewrite lookup_insert_ne.
Qed.

(** * Properties *)

(** [NET_NewQSocket]: without a free socket or with the server full it returns NULL and
    changes nothing; otherwise it moves the first free socket to the active list, resets its
    sequence numbers and buffers, and leaves every other socket where it was. *)
Theorem NET_NewQSocket_spec st A F :
  pool st A F ->
  (NET_NewQSocket st = Ok (0, st) /\ (F = [] \/ maxclients st <= net_activeconnections st)) \/
  (exists a F' st' s, F = a :: F' /\ net_activeconnections st < maxclients st /\
     NET_NewQSocket st = Ok (a, st') /\ pool st' (a :: A) F' /\ socks st' !! a = Some s /\
     new_qsocket s /\ forall b, b <> a -> socks st' !! b = socks st !! b).
Proof.
  intros Hp. destruct F as [|a F].
  - left. split; [|by left]. destruct Hp as (_ & Hcf & _). cbn in Hcf.
    unfold NET_NewQSocket. by rewrite Hcf.
  - destruct (decide (net_activeconnections st < maxclients st)) as [Hm|Hm].
    + right. destruct (NET_NewQSocket_free st A a F Hp Hm) as (st' & s & ?). by exists a, F, st', s.
    + left. split; [|right; lia]. unfold NET_NewQSocket. case_if; [done|]. case_if; [done|lia].
Qed.

(** [NET_FreeQSocket]: an active socket moves to the free list, marked disconnected, and
    no socket is lost; a socket that is not active is an error. *)
Theorem NET_FreeQSocket_spec st A F a :
  pool st A F -> a <> 0 ->
  (exists A1 A2 st', A = A1 ++ a :: A2 /\ NET_FreeQSocket st a = Ok st' /\
     pool st' (A1 ++ A2) (a :: F)) \/
  (a ∉ A /\ exists msg, NET_FreeQSocket st a = Fault (Sys_Error msg)).
Proof.
  intros Hp Ha. destruct (decide (a ∈ A)) as [Hin|Hin]; [left|right].
  - apply list_elem_of_split in Hin as (A1 & A2 & ->).
    destruct (NET_FreeQSocket_ok st A1 a A2 F Hp) as (st' & _ & HF & Hp' & _).
    by exists A1, A2, st'.
  - split; [done|]. destruct Hp as (Hca & _ & Hnd & _). unfold NET_FreeQSocket. case_if.
    { exfalso. destruct A as [|b A]; cbn in Hca; [congruence|]. destruct Hca as [Hca _]. set_solver. }
    erewrite find_pred_none; [by eexists|exact Hca|done|done|].
    apply NoDup_app in Hnd as (Hnd & _). pose proof (chain_size _ _ _ Hca Hnd). lia.
Qed.

Section interface.
Context (net_drivers : Z -> net_driver) `{forall i, DriverLaws (net_drivers i)}.

Lemma NET_Close_active st A1 a A2 F t :
  pool st (A1 ++ a :: A2) F ->
  exists st' s', NET_Close net_drivers t st a = Ok st' /\ pool st' (A1 ++ A2) (a :: F) /\
    socks st' !! a = Some s' /\ sock_next s' = net_freeSockets st /\
    size (socks st') = size (socks st).
Proof.
  intros Hp. pose proof Hp as (Hca & _ & _ & Hda & _).
  destruct (chain_in _ _ _ a Hca ltac:(set_solver)) as [Ha0 [s Hs]].
  unfold NET_Close. case_if; [done|]. rewrite (sock_at_ok _ _ _ Hs), bind_Ok.
  rewrite (Hda a s) by (set_solver || done).
  assert (pool (SetNetTime t st) (A1 ++ a :: A2) F) as Hp1 by exact Hp.
  assert (is_ok (CloseSock (sfunc net_drivers s) (SetNetTime t st) a) = true) as Hok
    by (eapply close_total; [exact Hp1|set_solver]).
  destruct (CloseSock _ _ _) as [st1|] eqn:HC; [|done]. apply close_same in HC. rewrite bind_Ok.
  pose proof (same_pool_pool _ _ _ _ HC Hp1) as Hp2. destruct HC as (_ & Hf & Hsz & _).
  destruct (NET_FreeQSocket_ok st1 A1 a A2 F Hp2) as (st' & s' & -> & Hp' & Hs' & Hn & _ & Hsz').
  exists st', s'. split_and!; try done; cbn in *; congruence.
Qed.

Lemma NET_Close_free st A F a t :
  pool st A F -> a ∈ F -> NET_Close net_drivers t st a = Ok st.
Proof.
  intros (_ & Hcf & _ & _ & Hdf & _) Ha. destruct (chain_in _ _ _ a Hcf Ha) as [Ha0 [s Hs]].
  unfold NET_Close. case_if; [done|]. by rewrite (sock_at_ok _ _ _ Hs), bind_Ok, (Hdf a s).
Qed.

(** The pool after a call on socket [a]: unchanged, or [a] closed by a timeout. *)
Definition kept_or_closed (st' : netst) (A F : list Z) (a r : Z) : Prop :=
  pool st' A F \/
  (r = -1 /\ exists A1 A2, A = A1 ++ a :: A2 /\ pool st' (A1 ++ A2) (a :: F)).

Lemma close_kept st A F a t st' :
  pool st A F -> a ∈ A -> NET_Close net_drivers t st a = Ok st' -> kept_or_closed st' A F a (-1).
Proof.
  intros Hp (A1 & A2 & ->)%list_elem_of_split HC. right. split; [done|].
  destruct (NET_Close_active st A1 a A2 F t Hp) as (st1 & s' & HC' & Hp' & _).
  rewrite HC in HC'. simplify_eq. eauto.
Qed.

(** The bookkeeping of a received message. *)
Lemma received_same g st s sock ret st' :
  (st ← (if cl_cheatfree g && negb (mod_id s =? MOD_QSMACK) &&
             ((mod_version s <? 35) || truth (encrypt s))
          then m ← recode (Security_Decode g) (client_port s) (nmsg st); mret (set_nmsg m st)
          else mret st);
    (if truth (driver s) then
            st ← upd_sock sock (set_lastMessageTime (now st)) st;
            mret (if ret =? 1 then set_messagesReceived (s32 (messagesReceived st + 1)) st
                  else if ret =? 2
                  then set_unreliableMessagesReceived (s32 (unreliableMessagesReceived st + 1)) st
                  else st)
          else mret st)) = Ok st' -> same_pool st st'.
Proof.
  intros HR. apply bind_Ok_inv in HR as (st1 & H1 & H2).
  assert (same_pool st st1) as Hs1.
  { case_if_in H1; inv_ok; [|done]. by apply same_pool_other with (f := set_nmsg _). }
  etrans; [exact Hs1|]. case_if_in H2; inv_ok; [|done].
  match goal with HU : upd_sock _ _ _ = Ok _ |- _ => apply upd_sock_same in HU; [|by intros; split_and!; try done; left] end.
  etrans; [done|]. clear. repeat case_if; try done.
  - by apply same_pool_other with (f := set_messagesReceived _).
  - by apply same_pool_other with (f := set_unreliableMessagesReceived _).
Qed.

Lemma NET_GetMessage_pool t g st A F a r st' :
  pool st A F -> a ∈ A -> NET_GetMessage net_drivers t g st a = Ok (r, st') ->
  kept_or_closed st' A F a r.
Proof.
  intros Hp Ha HG. unfold NET_GetMessage in HG. case_if_in HG; [inv_ok; by left|].
  apply bind_Ok_inv in HG as (s & Hs & HG). case_if_in HG; [inv_ok; by left|].
  apply bind_Ok_inv in HG as ([ret st1] & HQ & HG). apply get_same in HQ.
  assert (pool st1 A F) as Hp1 by (eapply same_pool_pool; [exact HQ|exact Hp]).
  apply bind_Ok_inv in HG as (s1 & Hs1 & HG).
  case_if_in HG; [inv_ok; by eapply close_kept|].
  case_if_in HG; [inv_ok; by eapply close_kept|].
  case_if_in HG; [|inv_ok; by left]. left.
  apply bind_Ok_inv in HG as (st2 & H2 & HG). apply bind_Ok_inv in HG as (st3 & H3 & HG).
  inv_ok. eapply same_pool_pool; [|exact Hp1]. eapply received_same. rewrite H2. exact H3.
Qed.

Lemma encode_step_same g s d d' s' :
  encode_step g s d = Ok (d', s') ->
  sock_next s' = sock_next s /\ disconnected s' = disconnected s /\ driver s' = driver s /\
  length (address s') = length (address s) /\
  (driverdata s' = driverdata s \/ driverdata s' = 0).
Proof.
  unfold encode_step. intros HE. case_if_in HE; inv_ok; [|by split_and!; try done; left].
  repeat case_if; split_and!; try done; by left.
Qed.

Lemma NET_Send_pool t g st A F a d r st' :
  pool st A F ->
  NET_SendMessage net_drivers t g st a d = Ok (r, st') \/
  NET_SendUnreliableMessage net_drivers t g st a d = Ok (r, st') -> pool st' A F.
Proof.
  intros Hp [HG|HG]; eapply same_pool_pool; try exact Hp;
    [unfold NET_SendMessage in HG|unfold NET_SendUnreliableMessage in HG];
    (case_if_in HG; [by inv_ok|]); apply bind_Ok_inv in HG as (s & Hs & HG);
    (case_if_in HG; [by inv_ok|]); apply bind_Ok_inv in HG as ([d' s'] & HE & HG);
    apply bind_Ok_inv in HG as (st1 & HU & HG); apply bind_Ok_inv in HG as ([r' st2] & HQ & HG);
    [apply send_same in HQ|apply usend_same in HQ]; inv_ok;
    (etrans; [|etrans; [exact HQ|]]; [|by case_if; try apply same_pool_other with (f := set_messagesSent _); try apply same_pool_other with (f := set_unreliableMessagesSent _)]).
  all: apply encode_step_same in HE; unfold upd_sock in HU; rewrite Hs in HU; injection HU as <-.
  all: unfold sock_at in Hs; destruct (socks st !! a) as [s0|] eqn:Hs0; [|done]; injection Hs as ->.
  all: split_and!; try done; [cbn; by rewrite map_size_insert_Some|].
  all: intros q; cbn; destruct (decide (a = q)) as [->|]; [by rewrite lookup_insert_eq, Hs0|].
  all: rewrite lookup_insert_ne by done; apply same_pool_refl.
Qed.

(** The walk of [NET_Shutdown] over sockets that are already free. *)
Lemma shutdown_loop_free t A F F2 st : forall p fuel,
  pool st A F -> chain (socks st) p F2 -> (forall a, a ∈ F2 -> a ∈ F) -> (length F2 < fuel)%nat ->
  shutdown_loop net_drivers fuel t st p = Ok st.
Proof.
  induction F2 as [|a F2 IH]; intros p fuel Hp Hc Hin Hf;
    (destruct fuel as [|fuel]; [cbn in Hf; lia|]); cbn [shutdown_loop].
  - cbn in Hc. by subst p.
  - destruct Hc as (-> & Ha0 & s & Hs & Hc). case_if; [done|].
    rewrite (NET_Close_free st A F a t Hp (Hin a ltac:(by left))), bind_Ok.
    rewrite (sock_at_ok _ _ _ Hs), bind_Ok.
    apply IH; [done|done| |cbn in Hf; lia]. intros b Hb. apply Hin. by right.
Qed.

End interface.

(** C15: Against drivers that keep their contract, the calls of the network layer keep the
    pool: no socket is lost or listed twice, the active ones are exactly those not marked
    disconnected; [NET_GetMessage] may close the socket it is called on when it times out
    (returning -1), and sending never changes the lists. *)
Theorem NET_calls_pool net_drivers `{forall i, DriverLaws (net_drivers i)} t g st A F a r st' :
  pool st A F -> a ∈ A ->
  (NET_GetMessage net_drivers t g st a = Ok (r, st') -> kept_or_closed st' A F a r) /\
  (forall d, NET_SendMessage net_drivers t g st a d = Ok (r, st') -> pool st' A F) /\
  (forall d, NET_SendUnreliableMessage net_drivers t g st a d = Ok (r, st') -> pool st' A F).
Proof.
  intros Hp Ha. split_and!.
  - by apply NET_GetMessage_pool.
  - intros d HS. eapply NET_Send_pool; [done|exact Hp|]. by left.
  - intros d HS. eapply NET_Send_pool; [done|exact Hp|]. by right.
Qed.

(** [NET_Close] of an active socket succeeds and moves it to the free list; closing it
    again does nothing. *)
Theorem NET_Close_spec net_drivers `{forall i, DriverLaws (net_drivers i)} t t2 st A1 a A2 F :
  pool st (A1 ++ a :: A2) F ->
  exists st', NET_Close net_drivers t st a = Ok st' /\ pool st' (A1 ++ A2) (a :: F) /\
    NET_Close net_drivers t2 st' a = Ok st'.
Proof.
  intros Hp. destruct (NET_Close_active net_drivers st A1 a A2 F t Hp) as (st' & s' & HC & Hp' & _).
  exists st'. split; [done|]. split; [done|].
  by apply (NET_Close_free net_drivers st' (A1 ++ A2) (a :: F)); [|left].
Qed.

(** [NET_Shutdown] closes only the first active socket: closing it relinks its [next]
    field into the free list, and the loop goes on there. *)
Theorem NET_Shutdown_first net_drivers `{forall i, DriverLaws (net_drivers i)} t st a A F :
  pool st (a :: A) F ->
  exists st', NET_Shutdown_sockets net_drivers t st = Ok st' /\ pool st' A (a :: F).
Proof.
  intros Hp. unfold NET_Shutdown_sockets. cbn [SetNetTime set_now socks net_activeSockets].
  assert (pool (SetNetTime t st) ([] ++ a :: A) F) as Hp1 by exact Hp.
  destruct (NET_Close_active net_drivers _ _ _ _ _ t Hp1) as (st1 & s1 & HC & Hp' & Hs1 & Hn & Hsz).
  exists st1. split; [|exact Hp'].
  assert (net_activeSockets st = a /\ a <> 0) as [Ha Ha0] by (by destruct Hp as ((? & ? & _) & _)).
  change (shutdown_loop net_drivers (S (S (size (socks st)))) t (SetNetTime t st) (net_activeSockets st) = Ok st1).
  rewrite Ha. cbn [shutdown_loop]. case_if; [done|].
  rewrite HC, bind_Ok, (sock_at_ok _ _ _ Hs1), bind_Ok.
  pose proof Hp' as (_ & Hcf & Hnd & _). apply NoDup_app in Hnd as (_ & _ & HndF).
  pose proof (chain_size _ _ _ Hcf HndF) as Hlen. destruct Hcf as (_ & _ & s2 & Hs2 & Hcf). simplify_eq.
  apply (shutdown_loop_free net_drivers t A (net_activeSockets st :: F) F st1 (sock_next s1)
           (S (size (socks st)))); [exact Hp'|exact Hcf| |].
  - intros b Hb. by right.
  - cbn in Hlen, Hsz. lia.
Qed.

(** ** A driver for the samples, and sample states *)

(** A driver that accepts and delivers nothing. *)
Definition null_driver : net_driver := {|
  QGetMessage := fun st _ => Ok (0, st);
  QSendMessage := fun st _ _ => Ok (1, st);
  SendUnreliableMessage := fun st _ _ => Ok (1, st);
  CanSendMessage := fun st _ => Ok (true, st);
  CloseSock := fun st _ => Ok st
|}.

#[global] Instance null_driver_laws : DriverLaws null_driver.
Proof. split; cbn; intros; by inv_ok. Qed.

Definition blank_sock : qsocket :=
  QSocket 0 (f64_of_Z 0) (f64_of_Z 0) (f64_of_Z 0) true false false 1 0 0 0 0 0 0 0 []
    0 0 0 [] (QSockAddr 0 0 0) (replicate 64 0) 0 0 0 0 false 0.

Definition net0 : netst :=
  NetSt 0 0 ∅ 1 (f64_of_Z 5) 8 0 (SizeBuf false false (replicate 64 0) 64 0) 0 0 0 0 false 0 0.

(** Three sockets allocated, two of them taken. *)
Definition net1 : netst := NET_Init_sockets [100; 200; 300] blank_sock net0.
Definition net2 : netst := match NET_NewQSocket net1 with Ok (_, st) => st | _ => net1 end.
Definition net3 : netst := match NET_NewQSocket net2 with Ok (_, st) => st | _ => net2 end.

Lemma net0_pool : pool net0 [] [].
Proof. unfold pool, net0. cbn. split_and!; try done; [constructor|set_solver..]. Qed.

(** The allocation loop of [NET_Init] builds the free list. *)
Lemma NET_Init_sockets_pool ps s0 : forall st F,
  (64 <= length (address s0))%nat -> driverdata s0 = 0 -> NoDup (ps ++ F) -> Forall (fun p => p <> 0) ps ->
  pool st [] F -> pool (NET_Init_sockets ps s0 st) [] (rev ps ++ F).
Proof.
  induction ps as [|p ps IH]; intros st F Hl Hdr Hnd Hps Hp; [done|]. cbn [NET_Init_sockets rev].
  rewrite <- app_assoc. cbn [app]. cbn in Hnd. apply NoDup_cons in Hnd as [Hpn Hnd].
  apply Forall_cons in Hps as [Hp0 Hps].
  apply IH; [done|done| |done|].
  - rewrite <- Permutation_middle. apply NoDup_cons. done.
  - destruct Hp as (Hca & Hcf & HndF & Hda & Hdf & Hlen & Hdd). unfold pool.
    cbn [net_activeSockets net_freeSockets socks set_net_freeSockets set_socks app].
    cbn in Hca. split_and!.
    + done.
    + split; [done|]. split; [done|]. eexists. rewrite lookup_insert_eq. split; [done|].
      apply chain_insert; [done|set_solver].
    + apply NoDup_cons. set_solver.
    + set_solver.
    + intros a s Ha. destruct (decide (p = a)) as [->|]; [rewrite lookup_insert_eq; by intros [= <-]|].
      rewrite lookup_insert_ne by done. apply Hdf. set_solver.
    + intros a s. destruct (decide (p = a)) as [->|]; [rewrite lookup_insert_eq; by intros [= <-]|].
      rewrite lookup_insert_ne by done. apply Hlen.
    + intros a s. destruct (decide (p = a)) as [->|].
      * rewrite lookup_insert_eq. intros [= <-]. by left.
      * rewrite (lookup_insert_ne _ p a) by done. intros Hs.
        destruct (Hdd _ _ Hs); [by left|right]. apply lookup_insert_is_Some'. by right.
Qed.

Lemma net1_pool : pool net1 [] [300; 200; 100].
Proof.
  apply (NET_Init_sockets_pool [100; 200; 300] blank_sock net0 []).
  - cbn. lia.
  - done.
  - by_decide.
  - by_decide.
  - apply net0_pool.
Qed.

Lemma net2_pool : pool net2 [300] [200; 100].
Proof.
  destruct (NET_NewQSocket_free net1 [] 300 [200; 100] net1_pool) as (st & s & HN & Hp & _); [by_vm|].
  unfold net2. by rewrite HN.
Qed.

Lemma net3_pool : pool net3 [200; 300] [100].
Proof.
  destruct (NET_NewQSocket_free net2 [300] 200 [100] net2_pool) as (st & s & HN & Hp & _); [by_vm|].
  unfold net3. by rewrite HN.
Qed.

Lemma NET_NewQSocket_spec_witness :
  exists st' s, NET_NewQSocket net2 = Ok (200, st') /\ pool st' [200; 300] [100] /\
    socks st' !! 200 = Some s /\ canSend s = true.
Proof.
  destruct (NET_NewQSocket_spec net2 [300] [200; 100] net2_pool)
    as [[_ [H|H]]|(a & F & st & s & E & _ & HN & Hp & Hs & Hnew & _)].
  - discriminate H.
  - exfalso. exact (H eq_refl).
  - injection E as -> ->. exists st, s. destruct Hnew as [Hc _]. split_and!; assumption.
Defined.

Lemma NET_FreeQSocket_spec_witness :
  (exists st', NET_FreeQSocket net3 300 = Ok st') /\
  exists msg, NET_FreeQSocket net3 100 = Fault (Sys_Error msg).
Proof.
  split.
  - destruct (NET_FreeQSocket_spec net3 [200; 300] [100] 300 net3_pool ltac:(lia))
      as [(A1 & A2 & st' & _ & H & _)|[H _]]; [by exists st'|]. exfalso. apply H. set_solver.
  - destruct (NET_FreeQSocket_spec net3 [200; 300] [100] 100 net3_pool ltac:(lia))
      as [(A1 & A2 & st' & H & _)|[_ H]]; [|exact H]. exfalso.
    assert (100 ∈ [200; 300]) as Hin by (rewrite H; set_solver).
    set_solver.
Defined.

Definition sample_getenv : getenv :=
  GetEnv (f32_of_Z 300) (f32_of_Z 10) false None false (fun d _ => d) (fun d _ => d).

Lemma NET_calls_pool_witness :
  exists st', NET_GetMessage (fun _ => null_driver) (f64_of_Z 400) sample_getenv net3 300 = Ok (-1, st') /\
    kept_or_closed st' [200; 300] [100] 300 (-1).
Proof.
  eexists. split; [vm_compute; reflexivity|].
  apply (NET_calls_pool (fun _ => null_driver) (f64_of_Z 400) sample_getenv net3 [200; 300] [100] 300 (-1));
    [apply net3_pool|set_solver|vm_compute; reflexivity].
Defined.

Lemma NET_Close_spec_witness :
  exists st', NET_Close (fun _ => null_driver) (f64_of_Z 6) net3 300 = Ok st' /\
    pool st' [200] [300; 100].
Proof.
  destruct (NET_Close_spec (fun _ => null_driver) (f64_of_Z 6) (f64_of_Z 6) net3 [200] 300 [] [100] net3_pool)
    as (st' & HC & Hp & _).
  exists st'. split; assumption.
Defined.

Lemma NET_Shutdown_first_witness :
  exists st', NET_Shutdown_sockets (fun _ => null_driver) (f64_of_Z 6) net3 = Ok st' /\
    pool st' [300] [200; 100].
Proof. exact (NET_Shutdown_first (fun _ => null_driver) (f64_of_Z 6) net3 200 [300] [100] net3_pool). Defined.

(** * Poll procedures *)

(** C: Source/net.h:332-338 PollProcedure *)
Record pollproc : Type := PollProc { pp_next : Z; pp_nextTime : f64 }.

(** [pollProcedureList] and the records it links. *)
Record pollst : Type := PollSt { pollProcedureList : Z; procs : gmap Z pollproc }.

Definition proc_at (ps : pollst) (p : Z) : res pollproc :=
  of_option (Undefined "not a PollProcedure") (procs ps !! p).

(** The search: the first procedure not earlier than [t], and the one before it. *)
Fixpoint sched_find (fuel : nat) (ps : pollst) (t : f64) (pp prev : Z) : res (Z * Z) :=
  match fuel with
  | O => Fault OutOfFuel
  | S fuel =>
      if pp =? 0 then mret (pp, prev)
      else
        q ← proc_at ps pp;
        if f_leb t (pp_nextTime q) then mret (pp, prev)
        else sched_find fuel ps t (pp_next q) pp
  end.

(** C: Source/net_main.c:1009-1030 SchedulePollProcedure *)
Definition SchedulePollProcedure (clock : f64) (ps : pollst) (proc : Z) (timeOffset : f64) : res pollst :=
  p ← proc_at ps proc;
  let t := f64_add clock timeOffset in
  let ps := PollSt (pollProcedureList ps) (<[proc := PollProc (pp_next p) t]> (procs ps)) in
  '(pp, prev) ← sched_find (S (size (procs ps))) ps t (pollProcedureList ps) 0;
  if prev =? 0 then
    mret (PollSt proc (<[proc := PollProc (pollProcedureList ps) t]> (procs ps)))
  else
    let ps := PollSt (pollProcedureList ps) (<[proc := PollProc pp t]> (procs ps)) in
    q ← proc_at ps prev;
    mret (PollSt (pollProcedureList ps) (<[prev := PollProc proc (pp_nextTime q)]> (procs ps))).

(** The dispatch loop, with what the procedures do given as [run].
    C: Source/net_main.c:1000-1006 NET_Poll *)
Fixpoint poll_loop (fuel : nat) (run : Z -> pollst -> res pollst) (net_time : f64)
  (ps : pollst) (pp : Z) : res pollst :=
  match fuel with
  | O => Fault OutOfFuel
  | S fuel =>
      if pp =? 0 then mret ps
      else
        q ← proc_at ps pp;
        if f_ltb net_time (pp_nextTime q) then mret ps
        else
          ps ← run pp (PollSt (pp_next q) (procs ps));
          q ← proc_at ps pp;
          poll_loop fuel run net_time ps (pp_next q)
  end.

(** The scheduled procedures, linked from [p]. *)
Fixpoint pchain (m : gmap Z pollproc) (p : Z) (l : list (Z * f64)) : Prop :=
  match l with
  | [] => p = 0
  | (a, t) :: l => p = a /\ a <> 0 /\ exists n, m !! a = Some (PollProc n t) /\ pchain m n l
  end.

(** Each no later than the next. *)
Fixpoint by_time (l : list (Z * f64)) : Prop :=
  match l with
  | (_, t) :: (((_, t') :: _) as l') => f_leb t t' = true /\ by_time l'
  | _ => True
  end.

Definition scheduled (ps : pollst) (l : list (Z * f64)) : Prop :=
  pchain (procs ps) (pollProcedureList ps) l /\ NoDup l.*1 /\ by_time l /\
  Forall (fun e => f_eqb e.2 e.2 = true) l.

Lemma pchain_insert m p l a q :
  pchain m p l -> a ∉ l.*1 -> pchain (<[a := q]> m) p l.
Proof.
  revert p. induction l as [|[b t] l IH]; intros p Hc Ha; [done|].
  destruct Hc as (-> & Hb & n & Hs & Hc). cbn in Ha. split; [done|]. split; [done|]. exists n.
  rewrite lookup_insert_ne by set_solver. split; [done|]. apply IH; [done|set_solver].
Qed.

Lemma pchain_size m p l : pchain m p l -> NoDup l.*1 -> (length l <= size m)%nat.
Proof.
  intros Hc Hnd. rewrite <- (length_fmap fst l), <- (size_list_to_set (C := gset Z)) by done.
  rewrite <- (size_dom (D := gset Z) m). apply subseteq_size.
  intros a Ha. apply elem_of_dom. apply elem_of_list_to_set in Ha. clear Hnd.
  revert p Hc. induction l as [|[b t] l IH]; intros p Hc; [by apply not_elem_of_nil in Ha|].
  destruct Hc as (_ & _ & n & Hs & Hc). cbn in Ha. apply elem_of_cons in Ha as [->|Ha]; [by eexists|].
  by eapply IH.
Qed.

(** The list [SchedulePollProcedure] makes: the procedure goes before the first one that is
    not earlier. *)
Fixpoint sched_insert (a : Z) (t : f64) (l : list (Z * f64)) : list (Z * f64) :=
  match l with
  | [] => [(a, t)]
  | (b, u) :: l' => if f_leb t u then (a, t) :: l else (b, u) :: sched_insert a t l'
  end.

Lemma leb_total t u : f_eqb t t = true -> f_eqb u u = true -> f_leb t u = false -> f_leb u t = true.
Proof.
  unfold f_eqb, f_leb, SpecFloat.SFeqb, SpecFloat.SFleb, SpecFloat.SFcompare.
  destruct t as [[]|[]| |[] mt et], u as [[]|[]| |[] mu eu]; try done.
  all: pose proof (Pos.compare_cont_antisym mt mu Eq) as Hm; cbn in Hm; rewrite <- Hm.
  all: rewrite (Z.compare_antisym et eu); destruct (et ?= eu); try done; cbn;
    by destruct (Pos.compare_cont Eq mt mu).
Qed.

Definition head_addr (l : list (Z * f64)) : Z := match l with [] => 0 | (a, _) :: _ => a end.
Fixpoint last_addr (prev : Z) (l : list (Z * f64)) : Z :=
  match l with [] => prev | (a, _) :: l => last_addr a l end.

Lemma pchain_head m p l : pchain m p l -> p = head_addr l.
Proof. destruct l as [|[a t] l]; [done|]. by intros [-> _]. Qed.

Lemma sched_find_ok ps a t l : forall p prev fuel,
  pchain (procs ps) p l -> (length l < fuel)%nat ->
  exists l1 l2, l = l1 ++ l2 /\ sched_insert a t l = l1 ++ (a, t) :: l2 /\
    sched_find fuel ps t p prev = Ok (head_addr l2, last_addr prev l1).
Proof.
  induction l as [|[b u] l IH]; intros p prev fuel Hc Hf;
    (destruct fuel as [|fuel]; [cbn in Hf; lia|]); cbn [sched_find].
  - cbn in Hc. subst. by exists [], [].
  - destruct Hc as (-> & Hb & n & Hs & Hc). apply Z.eqb_neq in Hb. rewrite Hb. unfold proc_at. rewrite Hs.
    cbn [of_option]. rewrite bind_Ok. cbn [pp_nextTime pp_next sched_insert]. destruct (f_leb t u).
    + by exists [], ((b, u) :: l).
    + destruct (IH n b fuel Hc) as (l1 & l2 & -> & -> & ->); [cbn in Hf; lia|].
      by exists ((b, u) :: l1), l2.
Qed.

(** Linking [a] in after the last of [l1]. *)
Lemma pchain_link m a t l2 l1 : forall p b u,
  a <> 0 -> pchain m p (l1 ++ (b, u) :: l2) -> NoDup (l1 ++ (b, u) :: l2).*1 ->
  a ∉ (l1 ++ (b, u) :: l2).*1 ->
  pchain (<[b := PollProc a u]> (<[a := PollProc (head_addr l2) t]> m)) p
    (l1 ++ (b, u) :: (a, t) :: l2).
Proof.
  induction l1 as [|[c v] l1 IH]; intros p b u Ha0 Hc Hnd Ha; cbn [app pchain] in *.
  - destruct Hc as (-> & Hb0 & n & Hn & Hc). cbn in Hnd, Ha. apply NoDup_cons in Hnd as [Hb Hnd].
    split; [done|]. split; [done|]. exists a. rewrite lookup_insert_eq. split; [done|].
    split; [done|]. split; [done|]. exists (head_addr l2).
    rewrite lookup_insert_ne, lookup_insert_eq by set_solver. split; [done|].
    apply pchain_head in Hc as Hn'. rewrite <- Hn'. apply pchain_insert; [apply pchain_insert|]; set_solver.
  - destruct Hc as (-> & Hc0 & n & Hn & Hc). cbn in Hnd, Ha. apply NoDup_cons in Hnd as [Hcn Hnd].
    rewrite fmap_app in Hcn, Ha. cbn in Hcn, Ha.
    split; [done|]. split; [done|]. exists n. rewrite !lookup_insert_ne by set_solver.
    split; [done|]. apply IH; try done. rewrite fmap_app. cbn. set_solver.
Qed.

Lemma by_time_insert a t l :
  f_eqb t t = true -> Forall (fun e => f_eqb e.2 e.2 = true) l -> by_time l ->
  by_time (sched_insert a t l).
Proof.
  intros Ht. induction l as [|[b u] l IH]; intros Hv Hl; [done|]. cbn [sched_insert].
  apply Forall_cons in Hv as [Hu Hv]. cbn in Hu.
  destruct (f_leb t u) eqn:E; [by split|]. specialize (IH Hv).
  destruct l as [|[c v] l]; cbn [sched_insert] in *.
  - split; [by apply leb_total|done].
  - destruct Hl as [Huv Hl]. specialize (IH Hl). destruct (f_leb t v); split; try done.
    by apply leb_total.
Qed.

Lemma sched_insert_perm a t l : sched_insert a t l ≡ₚ (a, t) :: l.
Proof.
  induction l as [|[b u] l IH]; [done|]. cbn. destruct (f_leb t u); [done|]. rewrite IH. constructor.
Qed.

Lemma scheduled_insert ps l a t :
  scheduled ps l -> a ∉ l.*1 -> f_eqb t t = true ->
  forall ps', pchain (procs ps') (pollProcedureList ps') (sched_insert a t l) ->
    scheduled ps' (sched_insert a t l).
Proof.
  intros (_ & Hnd & Hs & Hv) Hnot Ht ps' Hc'. split; [done|]. split; [|split].
  - rewrite (sched_insert_perm a t l). cbn. by apply NoDup_cons.
  - by apply by_time_insert.
  - rewrite (sched_insert_perm a t l). by constructor.
Qed.

(** What a scheduled list says of the last procedure before a point. *)
Lemma pchain_last m l0 b u l2 : forall p,
  pchain m p (l0 ++ (b, u) :: l2) -> m !! b = Some (PollProc (head_addr l2) u) /\ b <> 0.
Proof.
  induction l0 as [|[c v] l0 IH]; intros p; cbn.
  - intros (_ & Hb0 & n & Hn & Hc). apply pchain_head in Hc. by subst n.
  - intros (_ & _ & n & _ & Hc). by eapply IH.
Qed.

Lemma last_addr_snoc q l0 b u : last_addr q (l0 ++ [(b, u)]) = b.
Proof. revert q. induction l0 as [|[c v] l0 IH]; intros q; cbn; [done|]. apply IH. Qed.

(** [SchedulePollProcedure] keeps the list of procedures in order of time: a procedure
    that is not on it is inserted before the first one that is not earlier, and all others
    stay (times are not NaNs). *)
Theorem SchedulePollProcedure_spec clock ps l proc p off :
  scheduled ps l -> proc ∉ l.*1 -> proc <> 0 -> procs ps !! proc = Some p ->
  f_eqb (f64_add clock off) (f64_add clock off) = true ->
  exists ps', SchedulePollProcedure clock ps proc off = Ok ps' /\
    scheduled ps' (sched_insert proc (f64_add clock off) l) /\
    sched_insert proc (f64_add clock off) l ≡ₚ (proc, f64_add clock off) :: l.
Proof.
  intros (Hc & Hnd & Hs & Hv) Hnot H0 Hp Ht. set (t := f64_add clock off) in *.
  unfold SchedulePollProcedure, proc_at. rewrite Hp. cbn [of_option]. rewrite bind_Ok. fold t. cbv zeta.
  set (ps1 := PollSt _ (<[proc := PollProc (pp_next p) t]> (procs ps))).
  assert (pchain (procs ps1) (pollProcedureList ps) l) as Hc1 by (by apply pchain_insert).
  destruct (sched_find_ok ps1 proc t l (pollProcedureList ps) 0 (S (size (procs ps1))) Hc1)
    as (l1 & l2 & Hl & Hins & HF).
  { pose proof (pchain_size _ _ _ Hc1 Hnd). lia. }
  change (pollProcedureList ps1) with (pollProcedureList ps). rewrite HF, bind_Ok.
  pose proof (scheduled_insert ps l proc t (conj Hc (conj Hnd (conj Hs Hv))) Hnot Ht) as Hsch.
  destruct (decide (l1 = [])) as [->|Hne].
  - cbn [last_addr Z.eqb]. eexists. split; [done|]. split; [|apply sched_insert_perm]. apply Hsch.
    rewrite Hins. cbn in *. subst l2. split; [done|]. split; [done|]. exists (pollProcedureList ps).
    rewrite lookup_insert_eq. split; [done|]. by apply pchain_insert.
  - destruct (exists_last Hne) as (l0 & [b u] & ->).
    rewrite last_addr_snoc. rewrite <- app_assoc in Hl. cbn [app] in Hl. subst l.
    destruct (pchain_last _ _ _ _ _ _ Hc1) as [Hb Hb0].
    case_if; [done|]. cbn [procs]. rewrite lookup_insert_ne, Hb.
    2: { intros ->. apply Hnot. rewrite fmap_app. set_solver. }
    cbn [of_option]. rewrite bind_Ok. eexists. split; [done|]. split; [|apply sched_insert_perm].
    apply Hsch. rewrite Hins. rewrite <- app_assoc. cbn [app procs pollProcedureList pp_nextTime].
    by apply pchain_link.
Qed.

Definition polls : pollst :=
  PollSt 10 (<[10 := PollProc 20 (f64_of_Z 1)]> (<[20 := PollProc 0 (f64_of_Z 3)]>
               (<[30 := PollProc 0 (f64_of_Z 0)]> ∅))).

Lemma SchedulePollProcedure_spec_witness :
  exists ps', SchedulePollProcedure (f64_of_Z 1) polls 30 (f64_of_Z 1) = Ok ps' /\
    scheduled ps' [(10, f64_of_Z 1); (30, f64_of_Z 2); (20, f64_of_Z 3)].
Proof.
  destruct (SchedulePollProcedure_spec (f64_of_Z 1) polls [(10, f64_of_Z 1); (20, f64_of_Z 3)]
              30 (PollProc 0 (f64_of_Z 0)) (f64_of_Z 1)) as (ps' & HS & Hl & _).
  - split; [|split; [by_decide|split; [done|repeat constructor]]].
    split; [done|]. split; [done|]. exists 20. split; [reflexivity|].
    split; [done|]. split; [done|]. by exists 0.
  - by_decide.
  - lia.
  - reflexivity.
  - reflexivity.
  - exists ps'. split; [exact HS|exact Hl].
Defined.
