(* ===== verification/NetLoop.v ===== *)
(** The loopback driver (Source/net_loop.c), which connects a client to a server in the
    same process.

    A message to the peer is appended to the peer's [receiveMessage] as a type byte, a
    two-byte length, a byte of padding and the data, rounded up to a multiple of four.  The
    abstract view of that buffer is a queue of typed messages ([loop_queue]).  The driver is
    an instance of the interface of NetMain.v. *)

From S2P Require Import Prelude CFloat SizeBuf Net NetMain.

(** C: Source/net.h:122-122 MOD_TASQUAKE *)
Definition MOD_TASQUAKE : Z := 1.

(** The reset both connection functions do to a socket. *)
Definition loop_reset (s : qsocket) : qsocket :=
  set_canSend true (set_sendMessageLength 0 (set_receiveMessageLength 0 s)).

(** The socket of one side of the connection, allocated when there is none yet. *)
Definition loop_sock (st : netst) (have : Z) (name : bytes) : res (Z * netst) :=
  if truth have then mret (have, st)
  else
    '(p, st) ← NET_NewQSocket st;
    if p =? 0 then mret (0, st)
    else
      s ← sock_at st p;
      a ← Q_strcpy_to (address s) name;
      st ← upd_sock p (set_address a) st;
      mret (p, st).

(** C: Source/net_loop.c:65-106 Loop_Connect *)
Definition Loop_Connect (st : netst) (host : bytes) : res (Z * netst) :=
  if negb (bool_decide (host = cs "local")) then mret (0, st)
  else
    let st := set_localconnectpending true st in
    '(c, st) ← loop_sock st (loop_client st) (cs "localhost");
    let st := set_loop_client c st in
    if c =? 0 then mret (0, st)
    else
      let init s := set_client_port 0 (set_mod_id MOD_TASQUAKE (loop_reset s)) in
      st ← upd_sock c init st;
      '(v, st) ← loop_sock st (loop_server st) (cs "LOCAL");
      let st := set_loop_server v st in
      if v =? 0 then mret (0, st)
      else
        st ← upd_sock v init st;
        st ← upd_sock c (set_driverdata v) st;
        st ← upd_sock v (set_driverdata c) st;
        mret (c, st).

(** C: Source/net_loop.c:109-123 Loop_CheckNewConnections *)
Definition Loop_CheckNewConnections (st : netst) : res (Z * netst) :=
  if negb (localconnectpending st) then mret (0, st)
  else
    let st := set_localconnectpending false st in
    st ← upd_sock (loop_server st) loop_reset st;
    st ← upd_sock (loop_client st) loop_reset st;
    mret (loop_server st, st).

(** C: Source/net_loop.c:126-129 IntAlign *)
Definition IntAlign (value : Z) : Z := s32 (u32 ((value + 3) & Z.lnot 3)).

(** C: Source/net_loop.c:132-156 Loop_GetMessage *)
Definition Loop_GetMessage (st : netst) (sock : Z) : res (Z * netst) :=
  s ← sock_at st sock;
  if receiveMessageLength s =? 0 then mret (0, st)
  else
    ret ← load1 (receiveMessage s) 0;
    lo ← load1 (receiveMessage s) 1;
    hi ← load1 (receiveMessage s) 2;
    let length := lo + (hi << 8) in
    d ← load (receiveMessage s) 4 length;
    m ← SZ_Write (SZ_Clear (nmsg st)) d;
    let st := set_nmsg m st in
    let length := IntAlign (length + 4) in
    let s := set_receiveMessageLength (receiveMessageLength s - length) s in
    s ← (if truth (receiveMessageLength s) then
           rest ← load (receiveMessage s) length (receiveMessageLength s);
           b ← store (receiveMessage s) 0 rest;
           mret (set_receiveMessage b s)
         else mret s);
    st ← upd_sock sock (fun _ => s) st;
    st ← (if truth (driverdata s) && (ret =? 1)
          then upd_sock (driverdata s) (set_canSend true) st else mret st);
    mret (ret, st).

(** The bytes both sending functions put into the peer's buffer: the fourth byte of the
    header is skipped, not written. *)
Definition loop_put (ty : Z) (d : sizebuf) (p : qsocket) : res qsocket :=
  msg ← load (data d) 0 (cursize d);
  let off := receiveMessageLength p in
  b ← store (receiveMessage p) off [ty; u8 (cursize d & 255); u8 (cursize d >> 8)];
  b ← store b (off + 4) msg;
  mret (set_receiveMessageLength (IntAlign (off + cursize d + 4)) (set_receiveMessage b p)).

(** C: Source/net_loop.c:159-190 Loop_SendMessage *)
Definition Loop_SendMessage (st : netst) (sock : Z) (d : sizebuf) : res (Z * netst) :=
  s ← sock_at st sock;
  if driverdata s =? 0 then mret (-1, st)
  else
    p ← sock_at st (driverdata s);
    if NET_MAXMESSAGE <? receiveMessageLength p + cursize d + 4
    then Fault (Sys_Error "Loop_SendMessage: overflow")
    else
      p ← loop_put 1 d p;
      st ← upd_sock (driverdata s) (fun _ => p) st;
      st ← upd_sock sock (set_canSend false) st;
      mret (1, st).

(** C: Source/net_loop.c:193-222 Loop_SendUnreliableMessage *)
Definition Loop_SendUnreliableMessage (st : netst) (sock : Z) (d : sizebuf) : res (Z * netst) :=
  s ← sock_at st sock;
  if driverdata s =? 0 then mret (-1, st)
  else
    p ← sock_at st (driverdata s);
    if NET_MAXMESSAGE <? receiveMessageLength p + cursize d + 1 + 2 then mret (0, st)
    else
      p ← loop_put 2 d p;
      st ← upd_sock (driverdata s) (fun _ => p) st;
      mret (1, st).

(** C: Source/net_loop.c:225-230 Loop_CanSendMessage *)
Definition Loop_CanSendMessage (st : netst) (sock : Z) : res (bool * netst) :=
  s ← sock_at st sock;
  if driverdata s =? 0 then mret (false, st) else mret (canSend s, st).

(** C: Source/net_loop.c:233-236 Loop_CanSendUnreliableMessage *)
Definition Loop_CanSendUnreliableMessage (sock : Z) : bool := true.

(** C: Source/net_loop.c:239-250 Loop_Close *)
Definition Loop_Close (st : netst) (sock : Z) : res netst :=
  s ← sock_at st sock;
  st ← (if truth (driverdata s) then upd_sock (driverdata s) (set_driverdata 0) st else mret st);
  st ← upd_sock sock (set_receiveMessageLength 0) st;
  st ← upd_sock sock (set_sendMessageLength 0) st;
  st ← upd_sock sock (set_canSend true) st;
  mret (if sock =? loop_client st then set_loop_client 0 st else set_loop_server 0 st).

(** The entry of the driver table.
    C: Source/net_bsd.c:27-43 Loopback *)
Definition loop_driver : net_driver := {|
  QGetMessage := Loop_GetMessage;
  QSendMessage := Loop_SendMessage;
  SendUnreliableMessage := Loop_SendUnreliableMessage;
  CanSendMessage := Loop_CanSendMessage;
  CloseSock := Loop_Close
|}.

(** * The driver keeps its contract *)

(** The fields the pool depends on. *)
Definition same_sock (s s' : qsocket) : Prop :=
  sock_next s' = sock_next s /\ disconnected s' = disconnected s /\ driver s' = driver s /\
  length (address s') = length (address s) /\ (driverdata s' = driverdata s \/ driverdata s' = 0).

Lemma upd_sock_const st p s s' st' :
  sock_at st p = Ok s -> same_sock s s' -> upd_sock p (fun _ => s') st = Ok st' -> same_pool st st'.
Proof.
  intros Hs Hsame HU. unfold upd_sock, sock_at in *.
  destruct (socks st !! p) as [s0|] eqn:E; [|done]. injection Hs as ->. injection HU as <-.
  split_and!; try done; [cbn; by rewrite map_size_insert_Some|]. intros q. cbn.
  destruct (decide (p = q)) as [->|]; [by rewrite lookup_insert_eq, E|].
  rewrite lookup_insert_ne by done. apply same_pool_refl.
Qed.

Ltac same_fields := intros; split_and!; try done; (by left) || by right.

Lemma loop_put_same ty d p p' : loop_put ty d p = Ok p' -> same_sock p p'.
Proof. unfold loop_put. intros H. inv_ok. same_fields. Qed.

Lemma Loop_GetMessage_same st sock r st' :
  Loop_GetMessage st sock = Ok (r, st') -> same_pool st st'.
Proof.
  unfold Loop_GetMessage. intros HG. apply bind_Ok_inv in HG as (s & Hs & HG).
  case_if_in HG; [by inv_ok|]. do 4 (apply bind_Ok_inv in HG as (? & ? & HG)).
  apply bind_Ok_inv in HG as (m & _ & HG).
  apply bind_Ok_inv in HG as (s' & Hs' & HG). apply bind_Ok_inv in HG as (st1 & HU & HG).
  apply bind_Ok_inv in HG as (st2 & HU2 & HG). inv_ok.
  assert (same_sock s s') as Hss.
  { case_if_in Hs'; inv_ok; same_fields. }
  etrans; [|etrans].
  - by apply same_pool_other with (f := set_nmsg m).
  - eapply upd_sock_const; [|exact Hss|exact HU]. exact Hs.
  - case_if_in HU2; [|by inv_ok]. eapply upd_sock_same; [|exact HU2]. same_fields.
Qed.

Lemma Loop_Close_total st A F s : pool st A F -> s ∈ A -> is_ok (Loop_Close st s) = true.
Proof.
  intros Hp Hin. pose proof Hp as (Hca & _ & _ & _ & _ & _ & Hdd).
  destruct (chain_in _ _ _ _ Hca Hin) as [_ [q Hq]]. unfold Loop_Close.
  rewrite (sock_at_ok _ _ _ Hq), bind_Ok.
  assert (exists st1, (if truth (driverdata q) then upd_sock (driverdata q) (set_driverdata 0) st
                       else mret st) = Ok st1 /\ is_Some (socks st1 !! s)) as (st1 & -> & [q1 Hq1]).
  { destruct (truth (driverdata q)) eqn:E; [|exists st; split; [done|by eexists]].
    destruct (Hdd _ _ Hq) as [H|[p Hp']]; [by rewrite H in E|].
    rewrite (upd_sock_ok _ _ _ _ Hp'). eexists. split; [done|]. cbn.
    apply lookup_insert_is_Some'. right. by eexists. }
  rewrite bind_Ok, (upd_sock_ok _ _ _ _ Hq1), bind_Ok.
  do 2 (erewrite upd_sock_ok, bind_Ok; [|cbn; apply lookup_insert_eq]). done.
Qed.

#[global] Instance loop_driver_laws : DriverLaws loop_driver.
Proof.
  split; cbn.
  - apply Loop_GetMessage_same.
  - intros st s b r st' HG. unfold Loop_SendMessage in HG. apply bind_Ok_inv in HG as (q & Hq & HG).
    case_if_in HG; [by inv_ok|]. apply bind_Ok_inv in HG as (p & Hp & HG). case_if_in HG; [done|].
    apply bind_Ok_inv in HG as (p' & Hp' & HG). apply bind_Ok_inv in HG as (st1 & HU & HG).
    apply bind_Ok_inv in HG as (st2 & HU2 & HG). inv_ok.
    etrans; [eapply upd_sock_const; [exact Hp| |exact HU]; by eapply loop_put_same|].
    eapply upd_sock_same; [|exact HU2]. same_fields.
  - intros st s b r st' HG. unfold Loop_SendUnreliableMessage in HG.
    apply bind_Ok_inv in HG as (q & Hq & HG).
    case_if_in HG; [by inv_ok|]. apply bind_Ok_inv in HG as (p & Hp & HG). case_if_in HG; [by inv_ok|].
    apply bind_Ok_inv in HG as (p' & Hp' & HG). apply bind_Ok_inv in HG as (st1 & HU & HG). inv_ok.
    eapply upd_sock_const; [exact Hp| |exact HU]; by eapply loop_put_same.
  - intros st s r st' HG. unfold Loop_CanSendMessage in HG. apply bind_Ok_inv in HG as (q & Hq & HG).
    case_if_in HG; by inv_ok.
  - intros st s st' HG. unfold Loop_Close in HG. apply bind_Ok_inv in HG as (q & Hq & HG).
    apply bind_Ok_inv in HG as (st1 & H1 & HG). apply bind_Ok_inv in HG as (st2 & H2 & HG).
    apply bind_Ok_inv in HG as (st3 & H3 & HG). apply bind_Ok_inv in HG as (st4 & H4 & HG). inv_ok.
    etrans; [|etrans; [|etrans; [|etrans]]].
    + case_if_in H1; [eapply upd_sock_same; [|exact H1]; same_fields|by inv_ok].
    + eapply upd_sock_same; [|exact H2]. same_fields.
    + eapply upd_sock_same; [|exact H3]. same_fields.
    + eapply upd_sock_same; [|exact H4]. same_fields.
    + case_if; [by apply same_pool_other with (f := set_loop_client _)|
                by apply same_pool_other with (f := set_loop_server _)].
  - apply Loop_Close_total.
Qed.

(** * The buffer as a queue *)

Definition msgs : Type := list (Z * bytes).

(** [b] is the encoding of the queue [q]; the padding bytes can be anything. *)
Fixpoint holds (b : bytes) (q : msgs) : Prop :=
  match q with
  | [] => b = []
  | (ty, m) :: q => exists x pad b',
      b = ([ty; u8 (zlen m & 255); u8 (zlen m >> 8); x] ++ m ++ pad) ++ b' /\
      Z.of_nat (4 + length m + length pad) = IntAlign (zlen m + 4) /\
      zlen m <= NET_MAXMESSAGE /\ holds b' q
  end.

Definition loop_queue (s : qsocket) (q : msgs) : Prop :=
  zlen (receiveMessage s) = NET_MAXMESSAGE /\
  0 <= receiveMessageLength s <= NET_MAXMESSAGE /\ receiveMessageLength s `mod` 4 = 0 /\
  holds (take (Z.to_nat (receiveMessageLength s)) (receiveMessage s)) q.

Lemma IntAlign_spec n :
  0 <= n <= 16000 -> IntAlign n = n + 3 - (n + 3) `mod` 4 /\ n <= IntAlign n < n + 4 /\
    IntAlign n `mod` 4 = 0.
Proof.
  intros Hn. unfold IntAlign. rewrite align4. rewrite u32_id, s32_id;
    Z.to_euclidean_division_equations; lia.
Qed.

Lemma holds_snoc b ty m x pad : forall q,
  holds b q -> Z.of_nat (4 + length m + length pad) = IntAlign (zlen m + 4) ->
  zlen m <= NET_MAXMESSAGE ->
  holds (b ++ [ty; u8 (zlen m & 255); u8 (zlen m >> 8); x] ++ m ++ pad) (q ++ [(ty, m)]).
Proof.
  intros q. revert b. induction q as [|[ty' m'] q IH]; intros b Hb Hl Hm; cbn [holds app].
  - cbn in Hb. subst b. exists x, pad, []. by rewrite app_nil_r.
  - destruct Hb as (x' & pad' & b' & -> & Hl' & Hm' & Hb). exists x', pad'. eexists.
    rewrite <- (app_assoc _ b'). split; [done|]. split; [done|]. split; [done|]. by apply IH.
Qed.

(** The peer's buffer around the end of the queue. *)
Lemma buffer_split p :
  zlen (receiveMessage p) = NET_MAXMESSAGE -> 0 <= receiveMessageLength p ->
  receiveMessageLength p + 4 <= NET_MAXMESSAGE ->
  exists b c0 c1 c2 x r, receiveMessage p = b ++ [c0; c1; c2; x] ++ r /\
    take (Z.to_nat (receiveMessageLength p)) (receiveMessage p) = b /\
    zlen b = receiveMessageLength p.
Proof.
  intros Hl H0 Hr. set (n := Z.to_nat (receiveMessageLength p)).
  pose proof (take_drop n (receiveMessage p)) as Ht.
  assert (length (drop n (receiveMessage p)) >= 4)%nat as Hd by (rewrite length_drop; lia).
  destruct (drop n (receiveMessage p)) as [|c0 [|c1 [|c2 [|x r]]]] eqn:E; try (cbn in Hd; lia).
  exists (take n (receiveMessage p)), c0, c1, c2, x, r. split_and!; try done.
  rewrite length_take. lia.
Qed.

(** Appending a message. *)
Lemma loop_put_ok ty d p q :
  loop_queue p q -> sb_wf d -> receiveMessageLength p + cursize d + 4 <= NET_MAXMESSAGE ->
  exists p', loop_put ty d p = Ok p' /\ loop_queue p' (q ++ [(ty, contents d)]) /\
    driverdata p' = driverdata p /\ canSend p' = canSend p.
Proof.
  intros (Hlen & Hr & Hm4 & Hh) Hd Hfit. pose proof (length_contents d Hd) as Hcd.
  destruct Hd as [Hc Hx]. unfold loop_put. rewrite load_ok, bind_Ok by lia.
  change (slice (data d) 0 (cursize d)) with (contents d).
  destruct (buffer_split p) as (b & c0 & c1 & c2 & x & r & Hb & Htk & Hbl); [done|lia|lia|].
  rewrite Htk in Hh. set (n := receiveMessageLength p) in *.
  assert (length (receiveMessage p) = length b + 4 + length r)%nat as Hlr.
  { rewrite Hb, length_app. cbn. lia. }
  unfold NET_MAXMESSAGE in *. rewrite store_ok, bind_Ok by (cbn [length]; lia).
  rewrite Hb. replace (Z.to_nat n) with (length b) by lia. rewrite splice_app. cbn [length drop app].
  set (h := [ty; u8 (cursize d & 255); u8 (cursize d >> 8); x]).
  change (b ++ ty :: _) with (b ++ h ++ r). rewrite (app_assoc b h r).
  assert (length (b ++ h) = length b + 4)%nat as Hbh by (rewrite length_app; done).
  rewrite store_ok, bind_Ok by (rewrite ?(length_app (b ++ h)), ?Hbh; lia).
  replace (Z.to_nat (n + 4)) with (length (b ++ h)) by lia. rewrite splice_app.
  eexists. split; [done|]. split; [|done].
  destruct (IntAlign_spec (n + cursize d + 4)) as (Ha1 & Ha2 & Ha3); [lia|].
  destruct (IntAlign_spec (cursize d + 4)) as (Hb1 & Hb2 & Hb3); [lia|].
  assert (IntAlign (n + cursize d + 4) = n + IntAlign (cursize d + 4)) as Hal
    by (clear -Ha1 Hb1 Hm4; Z.to_euclidean_division_equations; lia).
  set (L := IntAlign (n + cursize d + 4)) in *.
  assert (L <= 8192) by (clear -Ha2 Ha3 Hfit; Z.to_euclidean_division_equations; lia).
  unfold loop_queue. cbn [receiveMessage receiveMessageLength set_receiveMessage set_receiveMessageLength].
  split; [|split; [unfold NET_MAXMESSAGE; lia|split; [done|]]].
  - rewrite (length_app (b ++ h)), Hbh, length_app, length_drop. unfold NET_MAXMESSAGE. lia.
  - rewrite app_assoc, take_app_ge by (rewrite (length_app (b ++ h)), Hbh; lia).
    rewrite <- !app_assoc. unfold h. rewrite <- Hcd. apply holds_snoc; [done| |unfold NET_MAXMESSAGE; lia].
    rewrite length_take, !length_app, length_drop, Hcd. cbn [length]. lia.
Qed.

(** Taking the first message. *)
Lemma length_bytes n :
  0 <= n < 65536 -> u8 (n & 255) + (u8 (n >> 8) << 8) = n.
Proof. intros. autorewrite with quake_rw. wrap_lia. Qed.

Lemma front_of_queue s ty m q :
  loop_queue s ((ty, m) :: q) ->
  exists x pad b' r, let L := IntAlign (zlen m + 4) in
    receiveMessage s = ([ty; u8 (zlen m & 255); u8 (zlen m >> 8); x] ++ m ++ pad) ++ b' ++ r /\
    Z.of_nat (4 + length m + length pad) = L /\ receiveMessageLength s = L + zlen b' /\
    zlen m <= NET_MAXMESSAGE /\ L `mod` 4 = 0 /\ holds b' q.
Proof.
  intros (Hlen & Hr & Hm4 & x & pad & b' & Ht & HL & Hm & Hq).
  exists x, pad, b', (drop (Z.to_nat (receiveMessageLength s)) (receiveMessage s)). cbv zeta.
  rewrite (app_assoc _ b'), <- Ht, take_drop. split; [done|]. split; [done|].
  destruct (IntAlign_spec (zlen m + 4)) as (_ & _ & H4); [unfold NET_MAXMESSAGE in *; lia|].
  split_and!; try done. apply (f_equal length) in Ht.
  rewrite length_take, !length_app in Ht. cbn [length] in Ht. lia.
Qed.

Lemma receive_front s ty m q :
  loop_queue s ((ty, m) :: q) ->
  let L := IntAlign (zlen m + 4) in
  let s1 := set_receiveMessageLength (receiveMessageLength s - L) s in
  load1 (receiveMessage s) 0 = Ok ty /\ load1 (receiveMessage s) 1 = Ok (u8 (zlen m & 255)) /\
  load1 (receiveMessage s) 2 = Ok (u8 (zlen m >> 8)) /\ load (receiveMessage s) 4 (zlen m) = Ok m /\
  exists s', (if truth (receiveMessageLength s1) then
           rest ← load (receiveMessage s1) L (receiveMessageLength s1);
           b ← store (receiveMessage s1) 0 rest;
           mret (set_receiveMessage b s1)
         else mret s1) = Ok s' /\ loop_queue s' q /\ driverdata s' = driverdata s /\
         canSend s' = canSend s.
Proof.
  intros Hq L s1. destruct (front_of_queue _ _ _ _ Hq) as (x & pad & b' & r & HM & HL & Hn & Hm & H4 & Hh).
  fold L in HL, Hn, H4. destruct Hq as (Hlen & Hr & Hm4 & _). unfold s1. clear s1.
  cbn [receiveMessageLength receiveMessage set_receiveMessageLength].
  split; [by rewrite HM|]. split; [by rewrite HM|]. split; [by rewrite HM|]. split.
  { rewrite HM, <- app_assoc, <- (app_assoc m). by apply load_mid. }
  replace (receiveMessageLength s - L) with (zlen b') by lia.
  assert ((zlen b') `mod` 4 = 0) as Hb4
    by (clear -Hn Hm4 H4; Z.to_euclidean_division_equations; lia).
  unfold NET_MAXMESSAGE in *. unfold truth. destruct (zlen b' =? 0) eqn:E; bool_props; cbn [negb].
  - eexists. split; [done|]. split; [|done]. unfold loop_queue, NET_MAXMESSAGE. cbn [receiveMessageLength receiveMessage set_receiveMessageLength].
    split; [done|]. split; [lia|]. split; [done|].
    assert (b' = []) as -> by (destruct b'; [done|cbn in E; lia]). done.
  - rewrite HM. rewrite (load_mid (_ ++ m ++ pad) b' r); [|rewrite !length_app; cbn [length]; lia|done].
    rewrite bind_Ok, <- HM, store_ok, bind_Ok by lia. eexists. split; [done|]. split; [|done].
    unfold loop_queue, NET_MAXMESSAGE. cbn [receiveMessageLength receiveMessage set_receiveMessageLength set_receiveMessage].
    rewrite length_splice by (cbn; lia). split; [done|]. split; [lia|]. split; [done|].
    rewrite Nat2Z.id.
    assert (take (length b') (splice (receiveMessage s) (Z.to_nat 0) b') = b') as ->; [|done].
    etrans; [apply (take_splice_through _ 0); lia|done].
Qed.

(** [Loop_SendMessage] refines the enqueueing of a reliable message at the peer: it
    blocks further sending, leaves earlier messages in place, and is an error when the
    peer's buffer is full. *)
Theorem Loop_SendMessage_spec st sock s p q d :
  socks st !! sock = Some s -> driverdata s <> 0 -> driverdata s <> sock ->
  socks st !! driverdata s = Some p -> loop_queue p q -> sb_wf d ->
  (receiveMessageLength p + cursize d + 4 <= NET_MAXMESSAGE /\
   exists st' p', Loop_SendMessage st sock d = Ok (1, st') /\
     socks st' !! sock = Some (set_canSend false s) /\ socks st' !! driverdata s = Some p' /\
     loop_queue p' (q ++ [(1, contents d)])) \/
  (NET_MAXMESSAGE < receiveMessageLength p + cursize d + 4 /\
   exists msg, Loop_SendMessage st sock d = Fault (Sys_Error msg)).
Proof.
  intros Hs Hd0 Hds Hp Hq Hd. unfold Loop_SendMessage.
  rewrite (sock_at_ok _ _ _ Hs), bind_Ok. apply Z.eqb_neq in Hd0. rewrite Hd0.
  rewrite (sock_at_ok _ _ _ Hp), bind_Ok. case_if; [right; split; [done|by eexists]|left].
  split; [done|]. destruct (loop_put_ok 1 d p q Hq Hd) as (p' & -> & Hq' & _); [done|].
  rewrite bind_Ok, (upd_sock_ok _ _ _ _ Hp), bind_Ok.
  erewrite upd_sock_ok by (cbn; rewrite lookup_insert_ne by done; exact Hs). rewrite bind_Ok.
  eexists _, p'. split; [done|]. cbn. rewrite lookup_insert_eq.
  rewrite lookup_insert_ne, lookup_insert_eq by done. done.
Qed.

(** C29: [Loop_GetMessage] refines dequeueing: it returns 0 on an empty queue; otherwise the
    oldest message is in [net_message], its type is the result, the rest of the queue
    stays, and taking a reliable message lets the peer send again. *)
Theorem Loop_GetMessage_spec st sock s q :
  socks st !! sock = Some s -> loop_queue s q -> sb_wf (nmsg st) ->
  NET_MAXMESSAGE <= maxsize (nmsg st) -> driverdata s <> sock ->
  (driverdata s = 0 \/ is_Some (socks st !! driverdata s)) ->
  match q with
  | [] => Loop_GetMessage st sock = Ok (0, st)
  | (ty, m) :: q' => exists st' s',
      Loop_GetMessage st sock = Ok (ty, st') /\ contents (nmsg st') = m /\
      socks st' !! sock = Some s' /\ loop_queue s' q' /\
      (ty = 1 -> driverdata s <> 0 ->
         exists p, socks st' !! driverdata s = Some p /\ canSend p = true)
  end.
Proof.
  intros Hs Hq Hnm Hmx Hds Hdd. unfold Loop_GetMessage. rewrite (sock_at_ok _ _ _ Hs), bind_Ok.
  destruct q as [|[ty m] q].
  { destruct Hq as (Hl & Hr & _ & Hh). cbn in Hh. apply (f_equal length) in Hh.
    rewrite length_take in Hh. cbn in Hh. unfold NET_MAXMESSAGE in *. case_if; [done|lia]. }
  destruct (receive_front _ _ _ _ Hq) as (-> & -> & -> & Hm & s' & Hs' & Hq' & Hd' & _).
  destruct (front_of_queue _ _ _ _ Hq) as (x0 & pad0 & b' & r0 & _ & HL & Hn & Hmax & _).
  rewrite !bind_Ok, length_bytes by (unfold NET_MAXMESSAGE in *; lia). rewrite Hm, bind_Ok.
  case_if; [lia|]. 
  destruct (SZ_Write_fits (SZ_Clear (nmsg st)) m) as (b & -> & _ & Hc & _);
    [by apply sb_wf_clear|cbn; lia|].
  rewrite bind_Ok, Hs', bind_Ok. erewrite upd_sock_ok by exact Hs. rewrite bind_Ok, Hd'.
  change (contents (SZ_Clear (nmsg st))) with (@nil Z) in Hc. cbn [app] in Hc.
  destruct (truth (driverdata s) && (ty =? 1)) eqn:E1.
  - apply andb_prop in E1 as [E1 E2]. destruct Hdd as [H|[p Hp]]; [by rewrite H in E1|].
    erewrite upd_sock_ok by (cbn; rewrite lookup_insert_ne by done; exact Hp).
    rewrite bind_Ok. eexists _, s'. split; [done|]. cbn. split; [done|].
    rewrite lookup_insert_ne, lookup_insert_eq by done. split; [done|]. split; [done|].
    intros _ _. eexists. by rewrite lookup_insert_eq.
  - rewrite bind_Ok. eexists _, s'. split; [done|]. cbn. rewrite lookup_insert_eq.
    split; [done|]. split; [done|]. split; [done|]. intros -> Hne. exfalso.
    rewrite andb_true_r in E1. unfold truth in E1. bool_props. done.
Qed.

(** [Loop_SendUnreliableMessage] tests for three header bytes where four are used: with
    one byte too few in the peer's buffer it writes past its end, instead of returning 0. *)
Theorem Loop_SendUnreliableMessage_overrun st sock s p q d :
  socks st !! sock = Some s -> driverdata s <> 0 -> socks st !! driverdata s = Some p ->
  loop_queue p q -> sb_wf d -> 0 < cursize d ->
  receiveMessageLength p + cursize d + 3 = NET_MAXMESSAGE ->
  exists what, Loop_SendUnreliableMessage st sock d = Fault (Undefined what).
Proof.
  intros Hs Hd0 Hp (Hlen & Hr & _) [Hc Hx] Hpos Hfit. unfold Loop_SendUnreliableMessage.
  rewrite (sock_at_ok _ _ _ Hs), bind_Ok. apply Z.eqb_neq in Hd0. rewrite Hd0.
  rewrite (sock_at_ok _ _ _ Hp), bind_Ok. unfold NET_MAXMESSAGE in *. case_if; [lia|].
  unfold loop_put. rewrite load_ok, bind_Ok by lia.
  rewrite store_ok, bind_Ok by (cbn [length]; lia).
  unfold store at 1. rewrite length_splice, slice_length by (cbn [length]; lia).
  case_if; [lia|]. by eexists.
Qed.

(** ** A sample connection *)

Definition loop_blank : qsocket := set_receiveMessage (repeat 0 (Z.to_nat 8192)) blank_sock.

Definition loop_net : netst :=
  set_nmsg (SizeBuf false false (repeat 0 (Z.to_nat 8192)) 8192 0)
    (NET_Init_sockets [100; 200] loop_blank net0).

Definition run_net (r : res (Z * netst)) : netst := match r with Ok (_, st) => st | Fault _ => net0 end.

(** Socket 200 is the client, 100 the server. *)
Definition loop_up : netst := run_net (Loop_Connect loop_net (cs "local")).
Definition hello : sizebuf := SizeBuf false false (cs "connect") 7 7.
Definition loop_sent : netst := run_net (Loop_SendMessage loop_up 200 hello).
Definition big_msg : sizebuf := SizeBuf false false (repeat 1 (Z.to_nat 8189)) 8189 8189.

Definition the_sock (st : netst) (p : Z) : qsocket := default blank_sock (socks st !! p).

Lemma queue_up : loop_queue (the_sock loop_up 100) [].
Proof. split; [by_vm|]. split; [split; by_vm|]. split; by_vm. Qed.

Lemma sb_wf_samples : sb_wf hello /\ sb_wf big_msg.
Proof. split; (split; [split; by_vm|by_vm]). Qed.

Lemma queue_sent : loop_queue (the_sock loop_sent 100) [(1, cs "connect")].
Proof.
  split; [by_vm|]. split; [split; by_vm|]. split; [by_vm|].
  exists 0, [0], []. split; [by_vm|]. split; [by_vm|]. split; by_vm.
Qed.

Lemma Loop_SendMessage_spec_witness :
  exists st' p', Loop_SendMessage loop_up 200 hello = Ok (1, st') /\
    socks st' !! driverdata (the_sock loop_up 200) = Some p' /\ loop_queue p' [(1, cs "connect")].
Proof.
  pose proof (Loop_SendMessage_spec loop_up 200 (the_sock loop_up 200) (the_sock loop_up 100) [] hello
    ltac:(by_vm) ltac:(by_vm) ltac:(by_vm) ltac:(by_vm) queue_up (proj1 sb_wf_samples)) as H.
  destruct H as [(_ & st' & p' & H1 & _ & H2 & H3)|[H _]].
  - exists st', p'. split_and!; assumption.
  - exfalso. revert H. vm_compute. discriminate.
Defined.

Lemma Loop_GetMessage_spec_witness :
  exists st' s', Loop_GetMessage loop_sent 100 = Ok (1, st') /\ contents (nmsg st') = cs "connect" /\
    socks st' !! 100 = Some s' /\ loop_queue s' [].
Proof.
  pose proof (Loop_GetMessage_spec loop_sent 100 (the_sock loop_sent 100) [(1, cs "connect")]
    ltac:(by_vm) queue_sent ltac:(split; [split; by_vm|by_vm]) ltac:(by_vm) ltac:(by_vm)
    ltac:(right; eexists; by_vm)) as (st' & s' & H1 & H2 & H3 & H4 & _).
  exists st', s'. split_and!; assumption.
Defined.

Lemma Loop_SendUnreliableMessage_overrun_witness :
  exists what, Loop_SendUnreliableMessage loop_up 200 big_msg = Fault (Undefined what).
Proof.
  exact (Loop_SendUnreliableMessage_overrun loop_up 200 (the_sock loop_up 200) (the_sock loop_up 100) []
    big_msg ltac:(by_vm) ltac:(by_vm) ltac:(by_vm) queue_up (proj2 sb_wf_samples) ltac:(by_vm) ltac:(by_vm)).
Defined.
