(* ===== verification/Cvar.v ===== *)
(** Console variables (Source/cvar.c).

    A variable is a record at an address; the list through [cv_next] and the small lookup
    cache of [Cvar_FindVar] hold addresses, 0 the null pointer.  Deleting a variable takes
    its record away: reading through a pointer to it is undefined.  Change callbacks and the
    command table belong to other parts of the program and are parameters. *)

From Stdlib Require Import SpecFloat.
From S2P Require Import Prelude CFloat SizeBuf ComString.

(** C: Source/cvar.h:67-76 cvar_t *)
Record cvar : Type := Cvar {
  cv_name : bytes;
  cv_string : bytes;
  cv_flags : Z;
  cv_OnChange : Z;
  cv_value : f32;
  cv_default : bytes;
  cv_next : Z
}.

Definition set_cv_name (v : bytes) (s : cvar) : cvar :=
    Cvar v (cv_string s) (cv_flags s) (cv_OnChange s) (cv_value s) (cv_default s) (cv_next
    s).
Definition set_cv_string (v : bytes) (s : cvar) : cvar :=
    Cvar (cv_name s) v (cv_flags s) (cv_OnChange s) (cv_value s) (cv_default s) (cv_next s).
Definition set_cv_flags (v : Z) (s : cvar) : cvar :=
    Cvar (cv_name s) (cv_string s) v (cv_OnChange s) (cv_value s) (cv_default s) (cv_next
    s).
Definition set_cv_OnChange (v : Z) (s : cvar) : cvar :=
    Cvar (cv_name s) (cv_string s) (cv_flags s) v (cv_value s) (cv_default s) (cv_next s).
Definition set_cv_value (v : f32) (s : cvar) : cvar :=
    Cvar (cv_name s) (cv_string s) (cv_flags s) (cv_OnChange s) v (cv_default s) (cv_next
    s).
Definition set_cv_default (v : bytes) (s : cvar) : cvar :=
    Cvar (cv_name s) (cv_string s) (cv_flags s) (cv_OnChange s) (cv_value s) v (cv_next s).
Definition set_cv_next (v : Z) (s : cvar) : cvar :=
    Cvar (cv_name s) (cv_string s) (cv_flags s) (cv_OnChange s) (cv_value s) (cv_default s)
    v.

Definition CVAR_ARCHIVE : Z := 1.
Definition CVAR_SERVER : Z := 2.
Definition CVAR_ROM : Z := 4.
Definition CVAR_INIT : Z := 8.
Definition CVAR_USER_CREATED : Z := 16.
Definition CACHE_SIZE : nat := 16.

(** What is printed, with the arguments of the format. *)
Inductive print : Type :=
  | Con_Printf (fmt : string) (args : list bytes)
  | SV_BroadcastPrintf (fmt : string) (args : list bytes).

(** The variables and what the operations on them consult; [p_cl_warncmd], [p_developer] and
    [p_cvar_savevars] are the addresses of variables of the program, [brk] is the next
    address [Z_Malloc] gives out.
    C: Source/cvar.c:24-27 cvar_vars *)
Record cvst : Type := CvSt {
  cvars : gmap Z cvar;
  cvar_vars : Z;
  cached_vars : list Z;
  next_cache_index : nat;
  changing : bool;
  host_initialized : bool;
  con_initialized : bool;
  sv_active : bool;
  p_cl_warncmd : Z;
  p_developer : Z;
  p_cvar_savevars : Z;
  rcon_active : bool;
  rcon_message : sizebuf;
  out : list print;
  brk : Z
}.

Definition set_cvars (v : gmap Z cvar) (s : cvst) : cvst :=
    CvSt v (cvar_vars s) (cached_vars s) (next_cache_index s) (changing s) (host_initialized
    s) (con_initialized s) (sv_active s) (p_cl_warncmd s) (p_developer s) (p_cvar_savevars
    s) (rcon_active s) (rcon_message s) (out s) (brk s).
Definition set_cvar_vars (v : Z) (s : cvst) : cvst :=
    CvSt (cvars s) v (cached_vars s) (next_cache_index s) (changing s) (host_initialized s)
    (con_initialized s) (sv_active s) (p_cl_warncmd s) (p_developer s) (p_cvar_savevars s)
    (rcon_active s) (rcon_message s) (out s) (brk s).
Definition set_cached_vars (v : list Z) (s : cvst) : cvst :=
    CvSt (cvars s) (cvar_vars s) v (next_cache_index s) (changing s) (host_initialized s)
    (con_initialized s) (sv_active s) (p_cl_warncmd s) (p_developer s) (p_cvar_savevars s)
    (rcon_active s) (rcon_message s) (out s) (brk s).
Definition set_next_cache_index (v : nat) (s : cvst) : cvst :=
    CvSt (cvars s) (cvar_vars s) (cached_vars s) v (changing s) (host_initialized s)
    (con_initialized s) (sv_active s) (p_cl_warncmd s) (p_developer s) (p_cvar_savevars s)
    (rcon_active s) (rcon_message s) (out s) (brk s).
Definition set_changing (v : bool) (s : cvst) : cvst :=
    CvSt (cvars s) (cvar_vars s) (cached_vars s) (next_cache_index s) v (host_initialized s)
    (con_initialized s) (sv_active s) (p_cl_warncmd s) (p_developer s) (p_cvar_savevars s)
    (rcon_active s) (rcon_message s) (out s) (brk s).
Definition set_host_initialized (v : bool) (s : cvst) : cvst :=
    CvSt (cvars s) (cvar_vars s) (cached_vars s) (next_cache_index s) (changing s) v
    (con_initialized s) (sv_active s) (p_cl_warncmd s) (p_developer s) (p_cvar_savevars s)
    (rcon_active s) (rcon_message s) (out s) (brk s).
Definition set_con_initialized (v : bool) (s : cvst) : cvst :=
    CvSt (cvars s) (cvar_vars s) (cached_vars s) (next_cache_index s) (changing s)
    (host_initialized s) v (sv_active s) (p_cl_warncmd s) (p_developer s) (p_cvar_savevars
    s) (rcon_active s) (rcon_message s) (out s) (brk s).
Definition set_sv_active (v : bool) (s : cvst) : cvst :=
    CvSt (cvars s) (cvar_vars s) (cached_vars s) (next_cache_index s) (changing s)
    (host_initialized s) (con_initialized s) v (p_cl_warncmd s) (p_developer s)
    (p_cvar_savevars s) (rcon_active s) (rcon_message s) (out s) (brk s).
Definition set_p_cl_warncmd (v : Z) (s : cvst) : cvst :=
    CvSt (cvars s) (cvar_vars s) (cached_vars s) (next_cache_index s) (changing s)
    (host_initialized s) (con_initialized s) (sv_active s) v (p_developer s)
    (p_cvar_savevars s) (rcon_active s) (rcon_message s) (out s) (brk s).
Definition set_p_developer (v : Z) (s : cvst) : cvst :=
    CvSt (cvars s) (cvar_vars s) (cached_vars s) (next_cache_index s) (changing s)
    (host_initialized s) (con_initialized s) (sv_active s) (p_cl_warncmd s) v
    (p_cvar_savevars s) (rcon_active s) (rcon_message s) (out s) (brk s).
Definition set_p_cvar_savevars (v : Z) (s : cvst) : cvst :=
    CvSt (cvars s) (cvar_vars s) (cached_vars s) (next_cache_index s) (changing s)
    (host_initialized s) (con_initialized s) (sv_active s) (p_cl_warncmd s) (p_developer s)
    v (rcon_active s) (rcon_message s) (out s) (brk s).
Definition set_rcon_active (v : bool) (s : cvst) : cvst :=
    CvSt (cvars s) (cvar_vars s) (cached_vars s) (next_cache_index s) (changing s)
    (host_initialized s) (con_initialized s) (sv_active s) (p_cl_warncmd s) (p_developer s)
    (p_cvar_savevars s) v (rcon_message s) (out s) (brk s).
Definition set_rcon_message (v : sizebuf) (s : cvst) : cvst :=
    CvSt (cvars s) (cvar_vars s) (cached_vars s) (next_cache_index s) (changing s)
    (host_initialized s) (con_initialized s) (sv_active s) (p_cl_warncmd s) (p_developer s)
    (p_cvar_savevars s) (rcon_active s) v (out s) (brk s).
Definition set_out (v : list print) (s : cvst) : cvst :=
    CvSt (cvars s) (cvar_vars s) (cached_vars s) (next_cache_index s) (changing s)
    (host_initialized s) (con_initialized s) (sv_active s) (p_cl_warncmd s) (p_developer s)
    (p_cvar_savevars s) (rcon_active s) (rcon_message s) v (brk s).
Definition set_brk (v : Z) (s : cvst) : cvst :=
    CvSt (cvars s) (cvar_vars s) (cached_vars s) (next_cache_index s) (changing s)
    (host_initialized s) (con_initialized s) (sv_active s) (p_cl_warncmd s) (p_developer s)
    (p_cvar_savevars s) (rcon_active s) (rcon_message s) (out s) v.

Definition printf (p : print) (st : cvst) : cvst := set_out (out st ++ [p]) st.

Definition cv_at (st : cvst) (p : Z) : res cvar :=
  of_option (Undefined "no variable at this address") (cvars st !! p).

Definition upd_cv (p : Z) (f : cvar -> cvar) (st : cvst) : res cvst :=
  v ← cv_at st p; mret (set_cvars (<[p := f v]> (cvars st)) st).

(** [var.value] of a variable of the program. *)
Definition value_at (p : Z) (st : cvst) : f32 :=
  match cvars st !! p with Some v => cv_value v | None => f32_of_Z 0 end.

(** [cl_warncmd.value || developer.value] *)
Definition warn (st : cvst) : bool :=
  f_truth (value_at (p_cl_warncmd st) st) || f_truth (value_at (p_developer st) st).

(** [strcasecmp], as far as it is used: equality up to case. *)
Definition tolower (c : Z) : Z := if (65 <=? c) && (c <=? 90) then c + 32 else c.
Definition strcaseeq (a b : bytes) : bool := bool_decide (tolower <$> a = tolower <$> b).
(** [strncasecmp (partial, name, strlen (partial))]. *)
Definition strcaseprefix (a b : bytes) : bool := strcaseeq a (take (length a) b).

(** * Lookup *)

(** The loop over the lookup cache.
    C: Source/cvar.c:44-49 Cvar_FindVar *)
Fixpoint cache_scan (st : cvst) (name : bytes) (cache : list Z) : res Z :=
  match cache with
  | [] => mret 0
  | p :: cache =>
      if truth p then
        v ← cv_at st p;
        if strcaseeq name (cv_name v) then mret p else cache_scan st name cache
      else cache_scan st name cache
  end.

(** The loop over the list.
    C: Source/cvar.c:51-57 Cvar_FindVar *)
Fixpoint list_scan (fuel : nat) (st : cvst) (name : bytes) (var : Z) : res Z :=
  match fuel with
  | O => Fault OutOfFuel
  | S fuel =>
      if var =? 0 then mret 0
      else v ← cv_at st var;
           if strcaseeq name (cv_name v) then mret var else list_scan fuel st name (cv_next v)
  end.

(** Enough for a list without repetitions. *)
Definition cvar_fuel (st : cvst) : nat := S (size (cvars st)).

(** C: Source/cvar.c:36-68 Cvar_FindVar *)
Definition Cvar_FindVar (name : bytes) (st : cvst) : res (Z * cvst) :=
  var ← cache_scan st name (cached_vars st);
  var ← (if var =? 0 then list_scan (cvar_fuel st) st name (cvar_vars st) else mret var);
  if truth var then
    let st := set_cached_vars (<[next_cache_index st := var]> (cached_vars st)) st in
    let i := S (next_cache_index st) in
    mret (var, set_next_cache_index (if (i =? CACHE_SIZE)%nat then 0%nat else i) st)
  else mret (var, st).

(** C: Source/cvar.c:133-141 Cvar_VariableValue *)
Definition Cvar_VariableValue (name : bytes) (st : cvst) : res (f32 * cvst) :=
  '(var, st) ← Cvar_FindVar name st;
  if var =? 0 then mret (f32_of_Z 0, st)
  else v ← cv_at st var; mret (Q_atof (cv_string v), st).

(** C: Source/cvar.c:148-156 Cvar_VariableString *)
Definition Cvar_VariableString (name : bytes) (st : cvst) : res (bytes * cvst) :=
  '(var, st) ← Cvar_FindVar name st;
  if var =? 0 then mret ([], st)
  else v ← cv_at st var; mret (cv_string v, st).

(** The addresses on the list, in its order. *)
Fixpoint walk (fuel : nat) (st : cvst) (var : Z) : res (list Z) :=
  match fuel with
  | O => Fault OutOfFuel
  | S fuel => if var =? 0 then mret []
              else v ← cv_at st var; l ← walk fuel st (cv_next v); mret (var :: l)
  end.

Definition names (st : cvst) (l : list Z) : list bytes :=
  (fun p => default [] (cv_name <$> cvars st !! p)) <$> l.

(** C: Source/cvar.c:163-177 Cvar_CompleteVariable *)
Definition Cvar_CompleteVariable (partial : bytes) (st : cvst) : res (option bytes) :=
  if bool_decide (partial = []) then mret None
  else l ← walk (cvar_fuel st) st (cvar_vars st);
       mret (list_find (strcaseprefix partial) (names st l) ≫= fun x => Some x.2).

(** C: Source/cvar.c:184-198 Cvar_CompleteCountPossible *)
Definition Cvar_CompleteCountPossible (partial : bytes) (st : cvst) : res Z :=
  if bool_decide (partial = []) then mret 0
  else l ← walk (cvar_fuel st) st (cvar_vars st);
       mret (zlen (filter (strcaseprefix partial) (names st l))).

(** * Changing a variable *)

Section callbacks.

(** What the function a variable names as its change callback does; it returns whether the
    change is refused. *)
Variable call_OnChange : Z -> Z -> bytes -> cvst -> res (bool * cvst).

(** The end of [Cvar_Set]: the new value, and who is told.
    C: Source/cvar.c:237-254 Cvar_Set *)
Definition assign (var : Z) (value : bytes) (changed : bool) (st : cvst) : res cvst :=
  st ← upd_cv var (fun v => set_cv_value (Q_atof value) (set_cv_string value v)) st;
  v ← cv_at st var;
  let st := if truth (cv_flags v & CVAR_SERVER) && changed && sv_active st
            then printf (SV_BroadcastPrintf "%s changed to %s" [cv_name v; cv_string v]) st
            else st in
  if rcon_active st &&
     (u32 (cursize (rcon_message st)) <?
      u32 (maxsize (rcon_message st) - zlen (cv_name v) - zlen (cv_string v) - 64))
  then
    let m := set_cursize (cursize (rcon_message st) - 1) (rcon_message st) in
    m ← MSG_WriteString m (Some ([34] ++ cv_name v ++ [34] ++ cs " set to " ++ [34] ++ cv_string v ++ [34; 10]));
    mret (set_rcon_message m st)
  else mret st.

(** C: Source/cvar.c:205-255 Cvar_Set *)
Definition Cvar_Set (var : Z) (value : bytes) (st : cvst) : res cvst :=
  if var =? 0 then mret st
  else
    v ← cv_at st var;
    '(f, st) ← Cvar_FindVar (cv_name v) st;
    if f =? 0 then mret st
    else if truth (cv_flags v & CVAR_ROM) then
      mret (if con_initialized st then printf (Con_Printf "%s is write protected" [cv_name v]) st else st)
    else if truth (cv_flags v & CVAR_INIT) && host_initialized st then
      mret (if warn st
            then printf (Con_Printf "%s can only be changed with +set %s %s on the command line."
                           [cv_name v; cv_name v; value]) st
            else st)
    else
      let changed := negb (bool_decide (cv_string v = value)) in
      if truth (cv_OnChange v) && negb (changing st) then
        '(refused, st) ← call_OnChange (cv_OnChange v) var value (set_changing true st);
        let st := set_changing false st in
        if (refused : bool) then mret st else assign var value changed st
      else assign var value changed st.

(** C: Source/cvar.c:75-79 Cvar_ResetVar *)
Definition Cvar_ResetVar (var : Z) (st : cvst) : res cvst :=
  if var =? 0 then mret st
  else v ← cv_at st var;
       if bool_decide (cv_string v = cv_default v) then mret st
       else Cvar_Set var (cv_default v) st.

(** C: Source/cvar.c:262-273 Cvar_ForceSet *)
Definition Cvar_ForceSet (var : Z) (value : bytes) (st : cvst) : res cvst :=
  if var =? 0 then mret st
  else
    v ← cv_at st var;
    let saved_flags := cv_flags v in
    st ← upd_cv var (set_cv_flags (saved_flags & Z.lnot CVAR_ROM)) st;
    st ← Cvar_Set var value st;
    upd_cv var (set_cv_flags saved_flags) st.

(** ** Numbers as text *)

Fixpoint digits (fuel : nat) (n : Z) (acc : bytes) : bytes :=
  match fuel with
  | O => acc
  | S fuel => let acc := (48 + n `mod` 10) :: acc in
              if n <? 10 then acc else digits fuel (n / 10) acc
  end.

(** The quotient of two positive numbers, rounded to the nearest, ties to even. *)
Definition round_div (a b : Z) : Z :=
  let q := a / b in
  let r := 2 * (a `mod` b) in
  if (b <? r) || ((r =? b) && Z.odd q) then q + 1 else q.

(** [printf (%f)] of a float: the exact value rounded to six decimals.  60 digits are enough
    for any single precision value. *)
Definition print_f (x : f32) : bytes :=
  match x with
  | S754_zero s => (if s then [45] else []) ++ cs "0.000000"
  | S754_infinity s => (if s then [45] else []) ++ cs "inf"
  | S754_nan => cs "nan"
  | S754_finite s m e =>
      let n := if 0 <=? e then Zpos m * 2 ^ e * 1000000 else round_div (Zpos m * 1000000) (2 ^ (- e)) in
      let frac := digits 60 (n `mod` 1000000) [] in
      (if s then [45] else []) ++ digits 60 (n / 1000000) [] ++ [46] ++
        repeat 48 (6 - length frac) ++ frac
  end.

(** The loop that drops trailing zeros, on the reversed text; the first character stays. *)
Fixpoint drop_zeros (r : bytes) : bytes :=
  match r with
  | c :: (_ :: _) as rest => if c =? 48 then drop_zeros rest else r
  | _ => r
  end.

(** C: Source/cvar.c:285-290 Cvar_SetValue *)
Definition number_text (value : f32) : bytes :=
  let r := drop_zeros (rev (print_f value)) in
  rev (match r with c :: rest => if c =? 46 then rest else r | [] => [] end).

(** C: Source/cvar.c:280-293 Cvar_SetValue *)
Definition Cvar_SetValue (var : Z) (value : f32) (st : cvst) : res cvst :=
  Cvar_Set var (number_text value) st.

(** C: Source/cvar.c:111-126 Cvar_SetDefault *)
Definition Cvar_SetDefault (var : Z) (value : f32) (st : cvst) : res cvst :=
  st ← upd_cv var (set_cv_default (number_text value)) st;
  Cvar_Set var (number_text value) st.

(** ** Commands on variables; [args] are the words of the command line *)

Definition argv (args : list bytes) (i : nat) : bytes := default [] (args !! i).

(** C: Source/cvar.c:86-104 Cvar_Reset_f *)
Definition Cvar_Reset_f (args : list bytes) (st : cvst) : res cvst :=
  if negb (length args =? 2)%nat then mret (printf (Con_Printf "Usage: %s <variable>" [argv args 0]) st)
  else
    '(var, st) ← Cvar_FindVar (argv args 1) st;
    if truth var then Cvar_ResetVar var st
    else mret (printf (Con_Printf "%s : No variable with name %s" [argv args 0; argv args 1]) st).

(** C: Source/cvar.c:351-366 Cvar_Command *)
Definition Cvar_Command (args : list bytes) (st : cvst) : res (bool * cvst) :=
  '(var, st) ← Cvar_FindVar (argv args 0) st;
  if var =? 0 then mret (false, st)
  else if (length args =? 1)%nat then
    v ← cv_at st var;
    mret (true, printf (Con_Printf "%s is:%s default:%s" [cv_name v; cv_string v; cv_default v]) st)
  else st ← Cvar_Set var (argv args 1) st; mret (true, st).

(** C: Source/cvar.c:418-437 Cvar_Create *)
Definition Cvar_Create (name string : bytes) (cvarflags : Z) (st : cvst) : res (Z * cvst) :=
  '(v, st) ← Cvar_FindVar name st;
  if truth v then mret (v, st)
  else
    let v := brk st in
    let st := set_brk (brk st + 1) st in
    let st := set_cvars (<[v := Cvar name string cvarflags 0 (Q_atof string) string (cvar_vars st)]> (cvars st)) st in
    mret (v, set_cvar_vars v st).

(** The search and unlinking loop of [Cvar_Delete].
    C: Source/cvar.c:453-472 Cvar_Delete *)
Fixpoint delete_loop (fuel : nat) (name : bytes) (prev var : Z) (st : cvst) : res (bool * cvst) :=
  match fuel with
  | O => Fault OutOfFuel
  | S fuel =>
      if var =? 0 then mret (false, st)
      else
        v ← cv_at st var;
        if strcaseeq (cv_name v) name then
          st ← (if truth prev then upd_cv prev (set_cv_next (cv_next v)) st
                else mret (set_cvar_vars (cv_next v) st));
          mret (true, set_cvars (delete var (cvars st)) st)
        else delete_loop fuel name var (cv_next v) st
  end.

(** C: Source/cvar.c:446-475 Cvar_Delete *)
Definition Cvar_Delete (name : bytes) (st : cvst) : res (bool * cvst) :=
  '(var, st) ← Cvar_FindVar name st;
  if var =? 0 then mret (false, st)
  else delete_loop (cvar_fuel st) name 0 (cvar_vars st) st.

(** [Cmd_FindCommand]: whether a word names a command. *)
Variable is_command : bytes -> bool.

(** C: Source/cvar.c:302-342 Cvar_Register *)
Definition Cvar_Register (var : Z) (st : cvst) : res cvst :=
  v ← cv_at st var;
  '(old, st) ← Cvar_FindVar (cv_name v) st;
  ov ← (if truth old then o ← cv_at st old; mret (Some o) else mret None);
  match ov with
  | Some o =>
      if negb (truth (cv_flags o & CVAR_USER_CREATED))
      then mret (printf (Con_Printf "Can't register variable %s, already defined" [cv_name v]) st)
      else if is_command (cv_name v)
      then mret (printf (Con_Printf "Cvar_Register: %s is a command" [cv_name v]) st)
      else
        st ← upd_cv var (set_cv_default (cv_string v)) st;
        let flags := cv_flags v .| (cv_flags o & Z.lnot CVAR_USER_CREATED) in
        st ← upd_cv var (set_cv_flags flags) st;
        '(_, st) ← Cvar_Delete (cv_name o) st;
        let string := if negb (truth (flags & CVAR_ROM)) then take 511 (cv_string o) else cv_string v in
        st ← upd_cv var (fun v => set_cv_value (Q_atof string) (set_cv_string string v)) st;
        st ← upd_cv var (set_cv_next (cvar_vars st)) st;
        mret (set_cvar_vars var st)
  | None =>
      if is_command (cv_name v)
      then mret (printf (Con_Printf "Cvar_Register: %s is a command" [cv_name v]) st)
      else
        st ← upd_cv var (set_cv_default (cv_string v)) st;
        st ← upd_cv var (set_cv_value (Q_atof (cv_string v))) st;
        st ← upd_cv var (set_cv_next (cvar_vars st)) st;
        mret (set_cvar_vars var st)
  end.

(** C: Source/cvar.c:477-502 Cvar_Set_f *)
Definition Cvar_Set_f (args : list bytes) (st : cvst) : res cvst :=
  if negb (length args =? 3)%nat then mret (printf (Con_Printf "Usage: %s <cvar> <value>" [argv args 0]) st)
  else
    '(var, st) ← Cvar_FindVar (argv args 1) st;
    if truth var then Cvar_Set var (argv args 2) st
    else if is_command (argv args 1)
    then mret (printf (Con_Printf "%s is a command" [argv args 1]) st)
    else '(_, st) ← Cvar_Create (argv args 1) (argv args 2) CVAR_USER_CREATED st; mret st.

(** Whether a variable is written to the configuration file.
    C: Source/cvar.c:382-388 CVAR_ARCHIVE *)
Definition archived (st : cvst) (v : cvar) : bool :=
  let savevars := value_at (p_cvar_savevars st) st in
  if truth (cv_flags v & CVAR_ARCHIVE) then true
  else if truth (cv_flags v & CVAR_ROM) || truth (cv_flags v & CVAR_INIT) ||
          bool_decide (cv_name v = cs "cl_warncmd") then false
  else (f_eqb savevars (f32_of_Z 1) && negb (bool_decide (cv_string v = cv_default v)))
       || f_eqb savevars (f32_of_Z 2).

Definition config_line (v : cvar) : bytes := cv_name v ++ [32; 34] ++ cv_string v ++ [34; 10].

(** The text that is written for all variables.
    C: Source/cvar.c:376-390 Cvar_WriteVariables *)
Definition Cvar_WriteVariables (st : cvst) : res bytes :=
  l ← walk (cvar_fuel st) st (cvar_vars st);
  vs ← mapM (cv_at st) l;
  mret (concat (config_line <$> filter (fun v => archived st v = true) vs)).

(** C: Source/cvar.c:399-411 Cvar_CvarList_f *)
Definition Cvar_CvarList_f (src_command : bool) (st : cvst) : res cvst :=
  if negb src_command then mret st
  else
    l ← walk (cvar_fuel st) st (cvar_vars st);
    let st := foldl (fun st n => printf (Con_Printf "%s" [n]) st) st (names st l) in
    mret (printf (Con_Printf "%d variables" [digits 60 (zlen l) []]) st).

End callbacks.

Example number_texts :
  (number_text <$> [Q_atof (cs "0.25"); Q_atof (cs "-3"); Q_atof (cs "800"); Q_atof (cs "0")]) =
  [cs "0.25"; cs "-3"; cs "800"; cs "0"].
Proof. by_vm. Qed.

(** * The variables as a table *)

(** The list through the next pointers. *)
Fixpoint cvchain (m : gmap Z cvar) (p : Z) (l : list Z) : Prop :=
  match l with
  | [] => p = 0
  | a :: l => p = a /\ a <> 0 /\ exists v, m !! a = Some v /\ cvchain m (cv_next v) l
  end.

(** A variable's name without case. *)
Definition lname (m : gmap Z cvar) (p : Z) : bytes := tolower <$> default [] (cv_name <$> m !! p).

(** The variable of a name: the abstract lookup. *)
Fixpoint find_in (m : gmap Z cvar) (name : bytes) (l : list Z) : Z :=
  match l with
  | [] => 0
  | a :: l => if decide (tolower <$> name = lname m a) then a else find_in m name l
  end.

(** The list is well linked, no two names are equal up to case, the lookup cache holds
    variables of the list only. *)
Definition cvars_ok (st : cvst) (l : list Z) : Prop :=
  cvchain (cvars st) (cvar_vars st) l /\ NoDup (lname (cvars st) <$> l) /\
  length (cached_vars st) = CACHE_SIZE /\ (next_cache_index st < CACHE_SIZE)%nat /\
  Forall (fun p => p = 0 \/ p ∈ l) (cached_vars st) /\
  0 < brk st /\ (forall p, is_Some (cvars st !! p) -> p < brk st).

(** States that differ in the lookup cache only. *)
Definition recached (st st' : cvst) : Prop :=
  exists c i, st' = set_next_cache_index i (set_cached_vars c st).

Lemma cv_at_ok st p v : cvars st !! p = Some v -> cv_at st p = Ok v.
Proof. intros H. unfold cv_at. by rewrite H. Qed.

Lemma upd_cv_ok st p f v :
  cvars st !! p = Some v -> upd_cv p f st = Ok (set_cvars (<[p := f v]> (cvars st)) st).
Proof. intros H. unfold upd_cv. by rewrite (cv_at_ok _ _ _ H). Qed.

Lemma cvchain_in m l : forall p a, cvchain m p l -> a ∈ l -> a <> 0 /\ is_Some (m !! a).
Proof.
  induction l as [|b l IH]; intros p a H Ha; [by apply not_elem_of_nil in Ha|].
  destruct H as (_ & H0 & v & Hv & H). apply elem_of_cons in Ha as [->|Ha]; [|by eapply IH].
  split; [done|by eexists].
Qed.

Lemma lname_some m p v : m !! p = Some v -> lname m p = tolower <$> cv_name v.
Proof. intros H. unfold lname. by rewrite H. Qed.

Lemma find_in_spec m name l :
  (find_in m name l = 0 \/ find_in m name l ∈ l /\ lname m (find_in m name l) = tolower <$> name).
Proof.
  induction l as [|a l IH]; cbn; [by left|]. case_decide; [right; split; [by left|done]|].
  destruct IH as [->|[H1 H2]]; [by left|right]. split; [by right|done].
Qed.

Lemma find_in_none m name p l :
  cvchain m p l -> find_in m name l = 0 -> forall a, a ∈ l -> lname m a <> tolower <$> name.
Proof.
  revert p. induction l as [|b l IH]; intros p Hc Hf a Ha; [by apply not_elem_of_nil in Ha|].
  destruct Hc as (_ & H0 & v & Hv & Hc). cbn in Hf. case_decide; [done|].
  apply elem_of_cons in Ha as [->|Ha]; [congruence|by eapply IH].
Qed.

Lemma find_in_unique m name l a :
  NoDup (lname m <$> l) -> a ∈ l -> lname m a = tolower <$> name -> find_in m name l = a.
Proof.
  induction l as [|b l IH]; cbn; intros Hnd Ha Hn; [by apply not_elem_of_nil in Ha|].
  apply NoDup_cons in Hnd as [Hb Hnd]. apply elem_of_cons in Ha as [->|Ha].
  - by rewrite decide_True.
  - case_decide as E; [|by apply IH]. exfalso. apply Hb. rewrite <- E, <- Hn. by apply list_elem_of_fmap_2.
Qed.

Lemma NoDup_addr m l : NoDup (lname m <$> l) -> NoDup l.
Proof. apply NoDup_fmap_1. Qed.

Lemma cvchain_size st l p : cvchain (cvars st) p l -> NoDup l -> (length l <= size (cvars st))%nat.
Proof.
  intros Hc Hnd. rewrite <- (size_list_to_set (C := gset Z) l) by done.
  rewrite <- (size_dom (D := gset Z) (cvars st)). apply subseteq_size. intros a Ha.
  apply elem_of_dom. apply elem_of_list_to_set in Ha. by eapply cvchain_in.
Qed.

Lemma list_scan_ok st name l : forall p fuel,
  cvchain (cvars st) p l -> (length l < fuel)%nat ->
  list_scan fuel st name p = Ok (find_in (cvars st) name l).
Proof.
  induction l as [|a l IH]; intros p fuel Hc Hf; (destruct fuel as [|fuel]; [lia|]); cbn.
  - cbn in Hc. subst p. done.
  - destruct Hc as (-> & H0 & v & Hv & Hc). assert (a =? 0 = false) as -> by lia.
    rewrite (cv_at_ok _ _ _ Hv), bind_Ok, (lname_some _ _ _ Hv). unfold strcaseeq.
    case_bool_decide; case_decide; try done. apply IH; [done|cbn in Hf; lia].
Qed.

Lemma cache_scan_ok st name l cache : 
  cvchain (cvars st) (cvar_vars st) l -> NoDup (lname (cvars st) <$> l) ->
  Forall (fun p => p = 0 \/ p ∈ l) cache ->
  exists r, cache_scan st name cache = Ok r /\ (r = 0 \/ r = find_in (cvars st) name l).
Proof.
  intros Hc Hnd. induction 1 as [|p cache Hp _ IH]; cbn; [by exists 0; split; [|left]|].
  unfold truth. destruct (Z.eqb_spec p 0) as [|Hp0]; cbn [negb]; [done|]. destruct Hp as [?|Hp]; [done|].
  destruct (cvchain_in _ _ _ _ Hc Hp) as [_ [v Hv]]. rewrite (cv_at_ok _ _ _ Hv), bind_Ok.
  unfold strcaseeq. case_bool_decide as E; [|done]. exists p. split; [done|]. right. symmetry.
  apply find_in_unique; [done|done|]. by rewrite (lname_some _ _ _ Hv).
Qed.

(** Lookup: the cache is only a short cut. *)
Lemma FindVar_ok st l name :
  cvars_ok st l -> exists st', Cvar_FindVar name st = Ok (find_in (cvars st) name l, st') /\
    cvars_ok st' l /\ recached st st'.
Proof.
  intros (Hc & Hnd & Hl & Hi & Hca & Hb & Hbr). unfold Cvar_FindVar.
  destruct (cache_scan_ok st name l (cached_vars st) Hc Hnd Hca) as (r & -> & Hr). rewrite bind_Ok.
  assert ((if r =? 0 then list_scan (cvar_fuel st) st name (cvar_vars st) else mret r) =
          Ok (find_in (cvars st) name l)) as ->.
  { destruct (Z.eqb_spec r 0) as [->|]; [|destruct Hr as [? | -> ]; done].
    apply list_scan_ok; [done|]. unfold cvar_fuel. pose proof (cvchain_size st l _ Hc (NoDup_addr _ _ Hnd)). lia. }
  rewrite bind_Ok. set (f := find_in (cvars st) name l). unfold truth.
  destruct (Z.eqb_spec f 0) as [E|E]; cbn [negb].
  - exists st. rewrite E. split; [done|]. split; [done|].
    exists (cached_vars st), (next_cache_index st). by destruct st.
  - eexists. split; [done|]. split; [|by eexists _, _].
    destruct (find_in_spec (cvars st) name l) as [?|[Hf _]]; [done|]. fold f in Hf.
    assert (Forall (fun p => p = 0 \/ p ∈ l) (<[next_cache_index st := f]> (cached_vars st))) as Hfa
      by (apply Forall_insert; [done|by right]).
    split; [done|]. split; [done|]. cbn. rewrite length_insert. split; [done|].
    split; [|by split].
    unfold CACHE_SIZE in *. destruct (Nat.eqb_spec (next_cache_index st) 15); lia.
Qed.

Lemma walk_ok st l : forall p fuel, cvchain (cvars st) p l -> (length l < fuel)%nat -> walk fuel st p = Ok l.
Proof.
  induction l as [|a l IH]; intros p fuel Hc Hf; (destruct fuel as [|fuel]; [lia|]); cbn.
  - cbn in Hc. by subst p.
  - destruct Hc as (-> & H0 & v & Hv & Hc). assert (a =? 0 = false) as -> by lia.
    rewrite (cv_at_ok _ _ _ Hv), bind_Ok, IH by (done || (cbn in Hf; lia)). done.
Qed.

(** The variables of a list of addresses. *)
Definition vars_of (m : gmap Z cvar) (l : list Z) : list cvar := omap (fun p => m !! p) l.

Lemma vars_ok st l : forall p, cvchain (cvars st) p l -> mapM (cv_at st) l = Ok (vars_of (cvars st) l).
Proof.
  unfold vars_of. induction l as [|a l IH]; intros p Hc; [done|]. destruct Hc as (-> & H0 & v & Hv & Hc).
  cbn [mapM omap list_omap]. rewrite (cv_at_ok _ _ _ Hv), bind_Ok, (IH _ Hc), bind_Ok, Hv. done.
Qed.

(** What is written to the configuration file. *)
Lemma WriteVariables_ok st l : cvars_ok st l ->
  Cvar_WriteVariables st = Ok (concat (config_line <$> filter (fun v => archived st v = true) (vars_of (cvars st) l))).
Proof.
  intros (Hc & Hnd & _). unfold Cvar_WriteVariables. rewrite (walk_ok st l), bind_Ok, (vars_ok _ _ _ Hc), bind_Ok; [done|done|].
  unfold cvar_fuel. pose proof (cvchain_size st l _ Hc (NoDup_addr _ _ Hnd)). lia.
Qed.

(** * What the operations do to the table *)

(** Changing the value of a variable keeps the table. *)
Lemma cvars_ok_value st l p v v' :
  cvars_ok st l -> cvars st !! p = Some v -> cv_name v' = cv_name v -> cv_next v' = cv_next v ->
  cvars_ok (set_cvars (<[p := v']> (cvars st)) st) l.
Proof.
  intros (Hc & Hnd & Hl & Hi & Hca & Hb & Hbr) Hv Hn Hx.
  assert (forall a, lname (<[p := v']> (cvars st)) a = lname (cvars st) a) as Hln.
  { intros a. unfold lname. destruct (decide (a = p)) as [->|]; [|by rewrite lookup_insert_ne].
    rewrite lookup_insert_eq, Hv. cbn. by rewrite Hn. }
  split; [|split; [|split; [done|split; [done|split; [done|split; [done|]]]]]]; cbn.
  - clear -Hc Hv Hx. revert Hc. generalize (cvar_vars st). induction l as [|a l IH]; intros q Hc; cbn in *; [done|].
    destruct Hc as (-> & H0 & w & Hw & Hc). split; [done|]. split; [done|].
    destruct (decide (a = p)) as [->|]; [|exists w; rewrite lookup_insert_ne by done; split; [done|by apply IH]].
    exists v'. rewrite lookup_insert_eq. split; [done|]. rewrite Hx. rewrite Hv in Hw. injection Hw as <-. by apply IH.
  - erewrite list_fmap_ext; [exact Hnd|]. intros i a _. apply Hln.
  - intros a [w Hw]. destruct (decide (a = p)) as [->|]; [|rewrite lookup_insert_ne in Hw by done]; apply Hbr; by eexists.
Qed.

Lemma cvars_ok_out st l o : cvars_ok st l -> cvars_ok (set_out o st) l.
Proof. done. Qed.

Lemma lname_insert_ne m p q v : p <> q -> lname (<[p := v]> m) q = lname m q.
Proof. intros H. unfold lname. by rewrite lookup_insert_ne. Qed.

Lemma chain_insert_new m l p v : forall q, p ∉ l -> cvchain m q l -> cvchain (<[p := v]> m) q l.
Proof.
  induction l as [|a l IH]; intros q Hp Hc; cbn in *; [done|]. apply not_elem_of_cons in Hp as [Hpa Hp].
  destruct Hc as (-> & H0 & w & Hw & Hc). split; [done|]. split; [done|]. exists w.
  rewrite lookup_insert_ne by done. split; [done|by apply IH].
Qed.

(** A new variable at the head of the list. *)
Lemma cvars_ok_push st l p v b :
  cvars_ok st l -> p ∉ l -> p <> 0 -> p < b -> brk st <= b -> cv_next v = cvar_vars st ->
  (forall a, a ∈ l -> lname (cvars st) a <> tolower <$> cv_name v) ->
  cvars_ok (set_cvar_vars p (set_cvars (<[p := v]> (cvars st)) (set_brk b st))) (p :: l).
Proof.
  intros (Hc & Hnd & Hl & Hi & Hca & Hb & Hbr) Hp Hp0 Hpb Hbb Hx Hn.
  split; [|split; [|split; [done|split; [done|split; [|split]]]]]; cbn.
  - split; [done|]. split; [done|]. exists v. rewrite lookup_insert_eq, Hx. split; [done|]. by apply chain_insert_new.
  - constructor.
    + intros H. apply list_elem_of_fmap_1 in H as (a & E & Ha). rewrite (lname_insert_ne _ p a) in E by (intros ?; subst; done).
      apply (Hn a Ha). rewrite <- E. unfold lname. by rewrite lookup_insert_eq.
    + erewrite list_fmap_ext; [exact Hnd|]. intros i a Ha. apply lname_insert_ne. intros ->.
      apply Hp. by eapply list_elem_of_lookup_2.
  - eapply Forall_impl; [exact Hca|]. intros a [?|?]; [by left|right; by right].
  - lia.
  - intros a [w Hw]. destruct (decide (a = p)) as [->|]; [done|]. rewrite lookup_insert_ne in Hw by done.
    assert (a < brk st) by (apply Hbr; by eexists). lia.
Qed.

(** C36: The lookup cache of [Cvar_FindVar] is only a short cut.  In a well-formed table the
    call returns, with nothing but the cache changed and the table still well formed; what it
    returns is the one variable of that name, up to case, or null when there is none. *)
Theorem Cvar_FindVar_spec st l name :
  cvars_ok st l -> exists p st', Cvar_FindVar name st = Ok (p, st') /\ cvars_ok st' l /\ recached st st' /\
    (p = 0 /\ (forall a, a ∈ l -> lname (cvars st) a <> tolower <$> name) \/
     p ∈ l /\ lname (cvars st) p = tolower <$> name).
Proof.
  intros Hok. destruct (FindVar_ok st l name Hok) as (st' & HF & Hok' & Hr).
  exists (find_in (cvars st) name l), st'. split; [done|]. split; [done|]. split; [done|].
  destruct (find_in_spec (cvars st) name l) as [E|?]; [left|by right]. split; [done|].
  destruct Hok as (Hc & _). by eapply find_in_none.
Qed.

Definition demo_cvars : cvst :=
  CvSt (<[100 := Cvar (cs "Skill") (cs "1") 0 0 (Q_atof (cs "1")) (cs "1") 200]>
         (<[200 := Cvar (cs "sv_gravity") (cs "800") CVAR_SERVER 0 (Q_atof (cs "800")) (cs "800") 0]>
           (<[300 := Cvar (cs "skill2") (cs "0") 0 0 (f32_of_Z 0) [] 0]> ∅)))
    100 (repeat 0 16) 0 false true true true 900 901 902 false (SizeBuf false false [] 0 0) [] 1000.

Lemma demo_cvars_ok : cvars_ok demo_cvars [100; 200].
Proof.
  split; [cbn; eauto 10|]. split; [vm_compute; repeat constructor; set_solver|].
  split; [done|]. split; [cbn; unfold CACHE_SIZE; lia|]. split; [cbn; repeat constructor; by left|]. split; [done|].
  intros p [v Hv]. cbn in *. rewrite !lookup_insert in Hv. repeat case_decide; try (subst; lia). done.
Qed.

Lemma Cvar_FindVar_spec_witness : exists st', Cvar_FindVar (cs "SV_Gravity") demo_cvars = Ok (200, st').
Proof.
  destruct (Cvar_FindVar_spec demo_cvars [100; 200] (cs "SV_Gravity") demo_cvars_ok) as (p & st' & H & _).
  exists st'. rewrite H. vm_compute in H. injection H as <- _. done.
Defined.

Lemma recached_ok st st' : recached st st' ->
  cvars st' = cvars st /\ cvar_vars st' = cvar_vars st /\ changing st' = changing st /\
  host_initialized st' = host_initialized st /\ con_initialized st' = con_initialized st /\
  sv_active st' = sv_active st /\ rcon_active st' = rcon_active st /\ out st' = out st /\ brk st' = brk st /\
  warn st' = warn st.
Proof. intros (c & i & ->). done. Qed.

(** The variables may not be changed: read only, or only before the program is up. *)
Definition protected (st : cvst) (v : cvar) : bool :=
  truth (cv_flags v & CVAR_ROM) || (truth (cv_flags v & CVAR_INIT) && host_initialized st).

Section set_spec.

Variable call_OnChange : Z -> Z -> bytes -> cvst -> res (bool * cvst).

Lemma Cvar_Set_ok st l var v value :
  cvars_ok st l -> var ∈ l -> cvars st !! var = Some v ->
  cv_OnChange v = 0 \/ changing st = true -> rcon_active st = false ->
  exists st', Cvar_Set call_OnChange var value st = Ok st' /\ cvars_ok st' l /\
    if protected st v then cvars st' = cvars st
    else cvars st' = <[var := set_cv_value (Q_atof value) (set_cv_string value v)]> (cvars st) /\
         out st' = out st ++
           (if truth (cv_flags v & CVAR_SERVER) && negb (bool_decide (cv_string v = value)) && sv_active st
            then [SV_BroadcastPrintf "%s changed to %s" [cv_name v; value]] else []).
Proof.
  intros Hok Hin Hv Hcb Hrc. pose proof Hok as (Hc & Hnd & _).
  destruct (cvchain_in _ _ _ _ Hc Hin) as [H0 _]. unfold Cvar_Set.
  assert (var =? 0 = false) as -> by lia. rewrite (cv_at_ok _ _ _ Hv), bind_Ok.
  destruct (FindVar_ok st l (cv_name v) Hok) as (st1 & -> & Hok1 & Hr). rewrite bind_Ok.
  rewrite (find_in_unique _ _ _ var) by (try done; by apply lname_some).
  assert (var =? 0 = false) as -> by lia.
  destruct (recached_ok _ _ Hr) as (Ec & _ & Ech & Eh & _ & Es & Er & Eo & _). unfold protected.
  rewrite Eh. destruct (truth (cv_flags v & CVAR_ROM)); cbn [orb].
  { eexists. split; [done|]. destruct (con_initialized st1); cbn; [split; [by apply cvars_ok_out|done]|done]. }
  destruct (truth (cv_flags v & CVAR_INIT) && host_initialized st); cbn [orb].
  { eexists. split; [done|]. destruct (warn st1); cbn; [split; [by apply cvars_ok_out|done]|done]. }
  assert (truth (cv_OnChange v) && negb (changing st1) = false) as ->.
  { destruct Hcb as [-> | Hcb]; [done|]. rewrite Ech, Hcb. by destruct (truth _). }
  set (v' := set_cv_value (Q_atof value) (set_cv_string value v)).
  unfold assign. rewrite (upd_cv_ok _ _ _ v) by (by rewrite Ec). rewrite bind_Ok. fold v'.
  erewrite cv_at_ok by (cbn; apply lookup_insert_eq). rewrite bind_Ok.
  assert (cvars_ok (set_cvars (<[var := v']> (cvars st1)) st1) l) as Hok2
    by (apply (cvars_ok_value st1 l var v v'); [done|by rewrite Ec|done|done]).
  change (cv_flags v') with (cv_flags v). change (cv_name v') with (cv_name v). change (cv_string v') with value.
  cbn [sv_active set_cvars]. rewrite Es.
  destruct (truth (cv_flags v & CVAR_SERVER) && negb (bool_decide (cv_string v = value)) && sv_active st);
    cbn [rcon_active printf set_out set_cvars]; rewrite Er, Hrc; cbn [andb]; eexists; (split; [done|]);
    cbn; rewrite Ec, Eo, ?app_nil_r; (split; [|done]).
  - by rewrite <- Ec.
  - by rewrite <- Ec.
Qed.

(** Without a callback the call leaves the switches of the host alone. *)
Lemma Cvar_Set_switches st l var v value st' : cvars_ok st l -> cvars st !! var = Some v -> cv_OnChange v = 0 ->
  Cvar_Set call_OnChange var value st = Ok st' -> host_initialized st' = host_initialized st /\ rcon_active st' = rcon_active st.
Proof.
  intros Hok Hv Hcb E. unfold Cvar_Set in E. case_if_in E; [by injection E as <-|]. rewrite (cv_at_ok _ _ _ Hv), bind_Ok in E.
  destruct (FindVar_ok st l (cv_name v) Hok) as (st1 & E1 & _ & Hr). rewrite E1, bind_Ok in E.
  destruct (recached_ok _ _ Hr) as (_ & _ & _ & Eh & _ & _ & Er & _). rewrite <- Eh, <- Er.
  case_if_in E; [by injection E as <-|]. case_if_in E; [injection E as <-; by case_if|]. case_if_in E; [injection E as <-; by case_if|].
  rewrite Hcb in E. cbn [truth Z.eqb negb andb] in E. unfold assign, upd_cv in E.
  apply bind_Ok_inv in E as (s2 & Eu & E). apply bind_Ok_inv in Eu as (w & _ & Eu). injection Eu as <-.
  apply bind_Ok_inv in E as (w2 & _ & E). case_if_in E; [|injection E as <-; by case_if].
  apply bind_Ok_inv in E as (m & _ & E). injection E as <-. by case_if.
Qed.

(** [Cvar_Set] on a variable of the table without a callback to ask: a read-only variable,
    or an initial one once the host runs, keeps its value; otherwise the variable holds
    exactly the given text and the number it reads as, every other variable is untouched,
    and clients are told of a server variable exactly when its text changed and the server
    runs.  The table stays well formed. *)
Theorem Cvar_Set_spec st l var v value :
  cvars_ok st l -> var ∈ l -> cvars st !! var = Some v ->
  cv_OnChange v = 0 \/ changing st = true -> rcon_active st = false ->
  exists st', Cvar_Set call_OnChange var value st = Ok st' /\ cvars_ok st' l /\
    if protected st v then cvars st' = cvars st
    else cvars st' = <[var := set_cv_value (Q_atof value) (set_cv_string value v)]> (cvars st) /\
         out st' = out st ++
           (if truth (cv_flags v & CVAR_SERVER) && negb (bool_decide (cv_string v = value)) && sv_active st
            then [SV_BroadcastPrintf "%s changed to %s" [cv_name v; value]] else []).
Proof. apply Cvar_Set_ok. Qed.

(** [Cvar_Register] of a variable whose name is neither taken nor a command links it in:
    the table is well formed with the variable first, the text it was declared with is its
    value and its default, lookups find it, and no other variable changes. *)
Theorem Cvar_Register_spec is_command st l var v :
  cvars_ok st l -> var ∉ l -> var <> 0 -> cvars st !! var = Some v ->
  (forall a, a ∈ l -> lname (cvars st) a <> tolower <$> cv_name v) -> is_command (cv_name v) = false ->
  exists st' v', Cvar_Register is_command var st = Ok st' /\ cvars_ok st' (var :: l) /\
    cvars st' = <[var := v']> (cvars st) /\ cv_name v' = cv_name v /\ cv_string v' = cv_string v /\
    cv_default v' = cv_string v /\ cv_value v' = Q_atof (cv_string v) /\ cv_flags v' = cv_flags v /\
    exists st'', Cvar_FindVar (cv_name v) st' = Ok (var, st'').
Proof.
  intros Hok Hnin H0 Hv Hname Hcmd. unfold Cvar_Register. rewrite (cv_at_ok _ _ _ Hv), bind_Ok.
  destruct (FindVar_ok st l (cv_name v) Hok) as (st1 & -> & Hok1 & Hr). rewrite bind_Ok.
  destruct (find_in_spec (cvars st) (cv_name v) l) as [->|[Hf1 Hf2]]; [|exfalso; by apply (Hname _ Hf1)].
  cbn [truth Z.eqb negb]. rewrite bind_Ok, Hcmd.
  destruct (recached_ok _ _ Hr) as (Ec & Ev & _ & _ & _ & _ & _ & _ & Eb & _).
  rewrite (upd_cv_ok _ _ _ v) by (by rewrite Ec). rewrite bind_Ok.
  erewrite upd_cv_ok by (cbn; apply lookup_insert_eq). rewrite bind_Ok.
  erewrite upd_cv_ok by (cbn; apply lookup_insert_eq). rewrite bind_Ok. cbn [cvars set_cvars cvar_vars].
  rewrite !insert_insert_eq. set (v' := set_cv_next _ _). eexists _, v'. split; [done|].
  set (st' := set_cvar_vars var _). assert (cvars_ok st' (var :: l)) as Hok'.
  { pose proof Hok as (_ & _ & _ & _ & _ & Hb & Hbr).
    assert (var < brk st) by (apply Hbr; by eexists).
    assert (st' = set_cvar_vars var (set_cvars (<[var := v']> (cvars st1)) (set_brk (brk st1) st1))) as ->
      by (by destruct st1).
    apply cvars_ok_push; try done; try lia; rewrite Ec; done. }
  split; [done|]. split; [cbn; by rewrite Ec|]. do 5 (split; [done|]).
  destruct (FindVar_ok st' (var :: l) (cv_name v) Hok') as (st2 & HF & _). exists st2. rewrite HF.
  do 2 f_equal. cbn [find_in]. rewrite decide_True; [done|]. symmetry. exact (lname_some _ var v' (lookup_insert_eq _ _ _)).
Qed.

End set_spec.

Lemma Cvar_Set_spec_witness :
  exists st', Cvar_Set (fun _ _ _ st => Ok (false, st)) 200 (cs "400") demo_cvars = Ok st' /\
    out st' = [SV_BroadcastPrintf "%s changed to %s" [cs "sv_gravity"; cs "400"]].
Proof.
  destruct (Cvar_Set_spec (fun _ _ _ st => Ok (false, st)) demo_cvars [100; 200] 200
              (Cvar (cs "sv_gravity") (cs "800") CVAR_SERVER 0 (Q_atof (cs "800")) (cs "800") 0) (cs "400")
              demo_cvars_ok ltac:(set_solver) ltac:(reflexivity) ltac:(by left) ltac:(reflexivity))
    as (st' & H1 & _ & _ & H2).
  exists st'. by split.
Defined.

Lemma Cvar_Register_spec_witness :
  exists st', Cvar_Register (fun _ => false) 300 demo_cvars = Ok st' /\ cvars_ok st' [300; 100; 200].
Proof.
  destruct (Cvar_Register_spec (fun _ => false) demo_cvars [100; 200] 300
              (Cvar (cs "skill2") (cs "0") 0 0 (f32_of_Z 0) [] 0) demo_cvars_ok ltac:(set_solver) ltac:(done)
              ltac:(reflexivity)) as (st' & v' & H1 & H2 & _).
  - intros a Ha. rewrite !elem_of_cons in Ha. destruct Ha as [->|[->|Ha]]; [by_vm|by_vm|by apply not_elem_of_nil in Ha].
  - reflexivity.
  - exists st'. by split.
Defined.

(** * Deleting a variable *)

Lemma delete_loop_ok st name a l2 l1 : forall p prev fuel,
  cvchain (cvars st) p (l1 ++ a :: l2) -> (forall b, b ∈ l1 -> lname (cvars st) b <> tolower <$> name) ->
  lname (cvars st) a = tolower <$> name -> (length l1 < fuel)%nat ->
  (prev = 0 \/ is_Some (cvars st !! prev) /\ prev <> a) ->
  exists st', delete_loop fuel name prev p st = Ok (true, st') /\ cvars st' !! a = None /\
    (forall q, q <> a -> cv_name <$> cvars st' !! q = cv_name <$> cvars st !! q) /\
    cached_vars st' = cached_vars st.
Proof.
  induction l1 as [|b l1 IH]; intros p prev fuel Hc Hn Ha Hf Hp; (destruct fuel as [|fuel]; [lia|]);
    cbn [delete_loop app] in *; destruct Hc as (-> & H0 & v & Hv & Hc);
    assert (forall z, z <> 0 -> z =? 0 = false) as Hz by (intros z Hz; lia); rewrite (Hz _ H0), (cv_at_ok _ _ _ Hv), bind_Ok.
  - assert (strcaseeq (cv_name v) name = true) as ->.
    { unfold strcaseeq. case_bool_decide as E; [done|]. rewrite (lname_some _ _ _ Hv) in Ha. done. }
    unfold truth. destruct (Z.eqb_spec prev 0) as [->|Hp0]; cbn [negb].
    + rewrite bind_Ok. eexists. split; [done|]. cbn. split; [apply lookup_delete_eq|]. split; [|done].
      intros q Hq. by rewrite lookup_delete_ne.
    + destruct Hp as [?|[[w Hw] Hpa]]; [done|]. rewrite (upd_cv_ok _ _ _ w Hw), bind_Ok. eexists. split; [done|].
      cbn. split; [apply lookup_delete_eq|]. split; [|done]. intros q Hq. rewrite lookup_delete_ne by done.
      destruct (decide (q = prev)) as [->|]; [by rewrite lookup_insert_eq, Hw|by rewrite lookup_insert_ne].
  - assert (lname (cvars st) b <> tolower <$> name) as Hb by (apply Hn; by left).
    assert (strcaseeq (cv_name v) name = false) as ->.
    { unfold strcaseeq. case_bool_decide as E; [|done]. rewrite (lname_some _ _ _ Hv) in Hb. done. }
    apply IH; [done| |done|cbn in Hf; lia|].
    + intros x Hx. apply Hn. by right.
    + right. split; [by eexists|]. intros ->. done.
Qed.

(** A lookup that reaches a cache entry of a variable that is no more. *)
Lemma cache_scan_dangling st name old cache :
  old ∈ cache -> old <> 0 -> cvars st !! old = None ->
  Forall (fun p => p = 0 \/ p = old \/ exists v, cvars st !! p = Some v /\ strcaseeq name (cv_name v) = false) cache ->
  cache_scan st name cache = Fault (Undefined "no variable at this address").
Proof.
  intros Hin H0 Hno Hca. induction Hca as [|p cache Hp _ IH]; [by apply not_elem_of_nil in Hin|]. cbn.
  unfold truth. destruct (Z.eqb_spec p 0) as [E|Hp0]; cbn [negb].
  - apply IH. apply elem_of_cons in Hin as [?|?]; [congruence|done].
  - destruct (decide (p = old)) as [->|Hpo]; [unfold cv_at; by rewrite Hno|].
    destruct Hp as [?|[?|(v & Hv & Hne)]]; [done|done|]. rewrite (cv_at_ok _ _ _ Hv), bind_Ok, Hne.
    apply IH. apply elem_of_cons in Hin as [?|?]; [congruence|done].
Qed.

(** After a lookup that found something the cache holds it. *)
Lemma FindVar_cached st l name st' p :
  cvars_ok st l -> Cvar_FindVar name st = Ok (p, st') -> p <> 0 -> p ∈ cached_vars st'.
Proof.
  intros Hok HF Hp. pose proof Hok as (_ & _ & Hl & Hi & _). unfold Cvar_FindVar in HF.
  destruct (cache_scan st name (cached_vars st)) as [r|]; [|discriminate HF]. rewrite bind_Ok in HF.
  destruct (if r =? 0 then _ else _) as [q|]; [|discriminate HF]. rewrite bind_Ok in HF.
  unfold truth in HF. destruct (Z.eqb_spec q 0) as [E|E]; cbn [negb] in HF; injection HF as <- <-; [done|].
  cbn. apply (list_elem_of_lookup_2 _ (next_cache_index st)). apply list_lookup_insert_eq. lia.
Qed.

(** [Cvar_Register] over a variable the user created leaves the lookup cache with a
    pointer to the deleted variable: the call itself succeeds, and the next lookup of any
    name that is not a variable reads through that pointer, which is undefined behaviour. *)
Theorem Cvar_Register_dangling is_command st l var v old ov :
  cvars_ok st l -> old ∈ l -> var ∉ l -> cvars st !! var = Some v -> cvars st !! old = Some ov ->
  strcaseeq (cv_name v) (cv_name ov) = true -> truth (cv_flags ov & CVAR_USER_CREATED) = true ->
  is_command (cv_name v) = false ->
  exists st', Cvar_Register is_command var st = Ok st' /\
    forall name, (forall a, a ∈ l -> lname (cvars st) a <> tolower <$> name) ->
      Cvar_FindVar name st' = Fault (Undefined "no variable at this address").
Proof.
  intros Hok Hin Hnin Hv Hov Hname Hus Hcmd. pose proof Hok as (Hc & Hnd & _).
  destruct (cvchain_in _ _ _ _ Hc Hin) as [H0 _]. assert (var <> old) as Hvo by (intros ->; done).
  assert (tolower <$> cv_name v = tolower <$> cv_name ov) as Hn
    by (unfold strcaseeq in Hname; by apply bool_decide_eq_true in Hname).
  unfold Cvar_Register. rewrite (cv_at_ok _ _ _ Hv), bind_Ok.
  destruct (FindVar_ok st l (cv_name v) Hok) as (st1 & -> & Hok1 & Hr). rewrite bind_Ok.
  rewrite (find_in_unique _ _ _ old) by (try done; by rewrite (lname_some _ _ _ Hov), Hn).
  destruct (recached_ok _ _ Hr) as (Ec & Ev & _).
  assert (truth old = true) as -> by (unfold truth; lia).
  rewrite (cv_at_ok st1 old ov) by (by rewrite Ec). rewrite !bind_Ok, Hus, Hcmd. cbn [negb].
  rewrite (upd_cv_ok _ _ _ v) by (by rewrite Ec). rewrite bind_Ok.
  erewrite upd_cv_ok by (cbn; apply lookup_insert_eq). rewrite bind_Ok. cbn [cvars set_cvars].
  rewrite insert_insert_eq, Ec. set (w := set_cv_flags _ _). set (st2 := set_cvars _ _).
  assert (cvars_ok st2 l) as Hok2.
  { apply (cvars_ok_value st1 l var v w) in Hok1; try done; [|by rewrite Ec]. rewrite Ec in Hok1. exact Hok1. }
  assert (cvars st2 !! old = Some ov) as Hov2 by (cbn; by rewrite lookup_insert_ne).
  unfold Cvar_Delete. destruct (FindVar_ok st2 l (cv_name ov) Hok2) as (st3 & HF3 & Hok3 & Hr3).
  rewrite (find_in_unique _ _ _ old (proj1 (proj2 Hok2)) Hin) in HF3 by exact (lname_some _ _ _ Hov2).
  pose proof (FindVar_cached _ _ _ _ _ Hok2 HF3 H0) as Hcache. rewrite HF3, bind_Ok.
  assert (old =? 0 = false) as -> by lia. destruct (recached_ok _ _ Hr3) as (Ec3 & Ev3 & _).
  pose proof Hok3 as (Hc3 & Hnd3 & _ & _ & Hca3 & _). pose proof (NoDup_addr _ _ Hnd3) as Hndl.
  pose proof (cvchain_size _ _ _ Hc3 Hndl) as Hsz. pose proof Hin as Hsplit.
  apply list_elem_of_split in Hsplit as (l1 & l2 & ->).
  assert (lname (cvars st3) old = tolower <$> cv_name ov) as Hlo by (rewrite Ec3; by apply lname_some).
  destruct (delete_loop_ok st3 (cv_name ov) old l2 l1 (cvar_vars st3) 0 (cvar_fuel st3)) as (st4 & -> & Hd & Hq & Hcc);
    [done| |done| |by left|].
  { intros b Hb Hbn. rewrite fmap_app, fmap_cons in Hnd3. apply NoDup_app in Hnd3 as (_ & Hnd3 & _).
    apply (Hnd3 (lname (cvars st3) b)); [by apply list_elem_of_fmap_2|]. rewrite Hlo, Hbn. by left. }
  { unfold cvar_fuel. rewrite length_app in Hsz. cbn in Hsz. lia. }
  rewrite bind_Ok. assert (is_Some (cvars st4 !! var)) as [w4 Hw4].
  { specialize (Hq var Hvo). rewrite Ec3 in Hq. cbn in Hq. rewrite lookup_insert_eq in Hq.
    destruct (cvars st4 !! var); [by eexists|done]. }
  rewrite (upd_cv_ok _ _ _ _ Hw4), bind_Ok. erewrite upd_cv_ok by (cbn; apply lookup_insert_eq). rewrite bind_Ok.
  eexists. split; [done|]. intros name Hnone. unfold Cvar_FindVar. cbn [cvars set_cvars set_cvar_vars cached_vars].
  rewrite (cache_scan_dangling _ name old); [done|by rewrite Hcc|done|cbn; by rewrite !lookup_insert_ne by done|].
  cbn [cvars set_cvars set_cvar_vars cached_vars]. rewrite Hcc. eapply Forall_impl; [exact Hca3|].
  intros p [Hp|Hp]; [by left|right]. destruct (decide (p = old)) as [|Hpo]; [by left|right].
  assert (p <> var) as Hpv by (intros ->; done). rewrite !lookup_insert_ne by done.
  destruct (cvchain_in _ _ _ _ Hc3 Hp) as [_ [x Hx]]. specialize (Hq p Hpo). rewrite Hx in Hq.
  destruct (cvars st4 !! p) as [y|]; [|done]. cbn in Hq. injection Hq as Hq. exists y. split; [done|]. rewrite Hq.
  unfold strcaseeq. apply bool_decide_eq_false. intros E. apply (Hnone p Hp). rewrite E.
  rewrite Ec3 in Hx. cbn in Hx. rewrite lookup_insert_ne in Hx by done. by apply lname_some.
Qed.

(** The user types [set skill2 1] before the program registers its own [Skill2]. *)
Definition demo_user : cvst :=
  match Cvar_Set_f (fun _ _ _ st => Ok (false, st)) (fun _ => false) [cs "set"; cs "Skill2"; cs "1"] demo_cvars with
  | Ok st => st | Fault _ => demo_cvars end.

Lemma Cvar_Register_dangling_witness :
  exists st', Cvar_Register (fun _ => false) 300 demo_user = Ok st' /\
    Cvar_FindVar (cs "map") st' = Fault (Undefined "no variable at this address").
Proof.
  assert (cvars_ok demo_user [1000; 100; 200]) as Hok.
  { split; [vm_compute; do 3 (split; [reflexivity|]; split; [discriminate|]; eexists; split; [reflexivity|]); reflexivity|].
    split; [vm_compute; repeat constructor; set_solver|].
    split; [done|]. split; [vm_compute; lia|]. split; [vm_compute; repeat constructor; by left|].
    split; [done|]. intros p [v Hv]. change (cvars demo_user) with (<[1000 := Cvar (cs "Skill2") (cs "1") 16 0 (Q_atof (cs "1")) (cs "1") 100]> (cvars demo_cvars)) in Hv.
    change (brk demo_user) with 1001. rewrite lookup_insert in Hv. case_decide; [lia|].
    pose proof demo_cvars_ok as (_ & _ & _ & _ & _ & _ & Hb). specialize (Hb p ltac:(by eexists)). cbn in Hb. lia. }
  destruct (Cvar_Register_dangling (fun _ => false) demo_user [1000; 100; 200] 300
              (Cvar (cs "skill2") (cs "0") 0 0 (f32_of_Z 0) [] 0) 1000
              (Cvar (cs "Skill2") (cs "1") 16 0 (Q_atof (cs "1")) (cs "1") 100) Hok ltac:(set_solver)
              ltac:(set_solver) ltac:(by_vm) ltac:(by_vm) ltac:(by_vm) ltac:(by_vm) ltac:(by_vm)) as (st' & H1 & H2).
  exists st'. split; [done|]. apply H2. intros a Ha. rewrite !elem_of_cons in Ha.
  destruct Ha as [->|[->|[->|Ha]]]; [by_vm..|by apply not_elem_of_nil in Ha].
Defined.
