(* ===== verification/Cmd.v ===== *)
(** The command buffer and command execution (Source/cmd.c).

    Text goes into a byte buffer; [Cbuf_Execute] cuts it into lines, and each line is
    tokenized and dispatched: to a command function, an alias, a console variable or a
    legacy command.  The linked lists of the program are lists, head first.  Command
    functions of other files, the hook of the TAS module, change callbacks and the file
    system are parameters.  Writing past one of the fixed arrays is [Undefined]. *)

From S2P Require Import Prelude CFloat SizeBuf ComString ComMisc Cvar.

(** The functions commands are registered with: those of this file and of cvar.c by name,
    any other by number. *)
Inductive xcommand : Type :=
  | F_StuffCmds | F_Exec | F_Echo | F_Alias | F_ForwardToServer | F_Wait | F_CmdList
  | F_CvarList | F_CvarReset | F_CvarSet | F_other (n : Z).

Definition MAX_ALIAS_NAME : nat := 32.
Definition MAX_ARGS : nat := 80.
Definition ARGV_BUF : nat := 1024.
Definition LINE_SIZE : nat := 1024.
Definition clc_stringcmd : Z := 4.

(** [src_command] tells which of the two values [cmd_source] has; [cargs] are the program's
    own arguments.
    C: Source/cmd.c:476-485 cmd_functions *)
Record cmdst : Type := CmdSt {
  cmd_text : sizebuf;
  cmd_wait : bool;
  cmd_alias : list (bytes * bytes);
  legacycmds : list (bytes * bytes);
  cmd_functions : list (bytes * xcommand);
  cmd_argv : list bytes;
  cmd_args : option bytes;
  src_command : bool;
  cls_connected : bool;
  cls_demoplayback : bool;
  cls_message : sizebuf;
  cargs : argstate;
  cv : cvst
}.

Definition set_cmd_text (v : sizebuf) (s : cmdst) : cmdst :=
    CmdSt v (cmd_wait s) (cmd_alias s) (legacycmds s) (cmd_functions s) (cmd_argv s)
    (cmd_args s) (src_command s) (cls_connected s) (cls_demoplayback s) (cls_message s)
    (cargs s) (cv s).
Definition set_cmd_wait (v : bool) (s : cmdst) : cmdst :=
    CmdSt (cmd_text s) v (cmd_alias s) (legacycmds s) (cmd_functions s) (cmd_argv s)
    (cmd_args s) (src_command s) (cls_connected s) (cls_demoplayback s) (cls_message s)
    (cargs s) (cv s).
Definition set_cmd_alias (v : list (bytes * bytes)) (s : cmdst) : cmdst :=
    CmdSt (cmd_text s) (cmd_wait s) v (legacycmds s) (cmd_functions s) (cmd_argv s)
    (cmd_args s) (src_command s) (cls_connected s) (cls_demoplayback s) (cls_message s)
    (cargs s) (cv s).
Definition set_legacycmds (v : list (bytes * bytes)) (s : cmdst) : cmdst :=
    CmdSt (cmd_text s) (cmd_wait s) (cmd_alias s) v (cmd_functions s) (cmd_argv s) (cmd_args
    s) (src_command s) (cls_connected s) (cls_demoplayback s) (cls_message s) (cargs s) (cv
    s).
Definition set_cmd_functions (v : list (bytes * xcommand)) (s : cmdst) : cmdst :=
    CmdSt (cmd_text s) (cmd_wait s) (cmd_alias s) (legacycmds s) v (cmd_argv s) (cmd_args s)
    (src_command s) (cls_connected s) (cls_demoplayback s) (cls_message s) (cargs s) (cv s).
Definition set_cmd_argv (v : list bytes) (s : cmdst) : cmdst :=
    CmdSt (cmd_text s) (cmd_wait s) (cmd_alias s) (legacycmds s) (cmd_functions s) v
    (cmd_args s) (src_command s) (cls_connected s) (cls_demoplayback s) (cls_message s)
    (cargs s) (cv s).
Definition set_cmd_args (v : option bytes) (s : cmdst) : cmdst :=
    CmdSt (cmd_text s) (cmd_wait s) (cmd_alias s) (legacycmds s) (cmd_functions s) (cmd_argv
    s) v (src_command s) (cls_connected s) (cls_demoplayback s) (cls_message s) (cargs s)
    (cv s).
Definition set_src_command (v : bool) (s : cmdst) : cmdst :=
    CmdSt (cmd_text s) (cmd_wait s) (cmd_alias s) (legacycmds s) (cmd_functions s) (cmd_argv
    s) (cmd_args s) v (cls_connected s) (cls_demoplayback s) (cls_message s) (cargs s) (cv
    s).
Definition set_cls_connected (v : bool) (s : cmdst) : cmdst :=
    CmdSt (cmd_text s) (cmd_wait s) (cmd_alias s) (legacycmds s) (cmd_functions s) (cmd_argv
    s) (cmd_args s) (src_command s) v (cls_demoplayback s) (cls_message s) (cargs s) (cv s).
Definition set_cls_demoplayback (v : bool) (s : cmdst) : cmdst :=
    CmdSt (cmd_text s) (cmd_wait s) (cmd_alias s) (legacycmds s) (cmd_functions s) (cmd_argv
    s) (cmd_args s) (src_command s) (cls_connected s) v (cls_message s) (cargs s) (cv s).
Definition set_cls_message (v : sizebuf) (s : cmdst) : cmdst :=
    CmdSt (cmd_text s) (cmd_wait s) (cmd_alias s) (legacycmds s) (cmd_functions s) (cmd_argv
    s) (cmd_args s) (src_command s) (cls_connected s) (cls_demoplayback s) v (cargs s) (cv
    s).
Definition set_cargs (v : argstate) (s : cmdst) : cmdst :=
    CmdSt (cmd_text s) (cmd_wait s) (cmd_alias s) (legacycmds s) (cmd_functions s) (cmd_argv
    s) (cmd_args s) (src_command s) (cls_connected s) (cls_demoplayback s) (cls_message s) v
    (cv s).
Definition set_cv (v : cvst) (s : cmdst) : cmdst :=
    CmdSt (cmd_text s) (cmd_wait s) (cmd_alias s) (legacycmds s) (cmd_functions s) (cmd_argv
    s) (cmd_args s) (src_command s) (cls_connected s) (cls_demoplayback s) (cls_message s)
    (cargs s) v.

Definition say (fmt : string) (args : list bytes) (st : cmdst) : cmdst :=
  set_cv (printf (Con_Printf fmt args) (cv st)) st.

(** C: Source/cmd.c:49-52 Cmd_Wait_f *)
Definition Cmd_Wait_f (st : cmdst) : cmdst := set_cmd_wait true st.

(** * The buffer *)

(** [SZ_Alloc (&cmd_text, 8192)]: the new memory is all zero.
    C: Source/cmd.c:69-72 Cbuf_Init *)
Definition Cbuf_Init (st : cmdst) : cmdst :=
  set_cmd_text (SizeBuf (allowoverflow (cmd_text st)) (overflowed (cmd_text st)) (repeat 0 (Z.to_nat 8192)) 8192 0) st.

(** C: Source/cmd.c:81-94 Cbuf_AddText *)
Definition Cbuf_AddText (text : bytes) (st : cmdst) : res cmdst :=
  let l := zlen text in
  if maxsize (cmd_text st) <=? cursize (cmd_text st) + l
  then mret (say "Cbuf_AddText: overflow" [] st)
  else b ← SZ_Write (cmd_text st) text; mret (set_cmd_text b st).

(** C: Source/cmd.c:105-127 Cbuf_InsertText *)
Definition Cbuf_InsertText (text : bytes) (st : cmdst) : res cmdst :=
  let templen := cursize (cmd_text st) in
  if truth templen then
    temp ← load (data (cmd_text st)) 0 templen;
    let st := set_cmd_text (SZ_Clear (cmd_text st)) st in
    st ← Cbuf_AddText text st;
    b ← SZ_Write (cmd_text st) temp;
    mret (set_cmd_text b st)
  else Cbuf_AddText text st.

(** The search for the end of a command: a newline, or a semicolon outside quotes.
    C: Source/cmd.c:144-153 Cbuf_Execute *)
Fixpoint cmd_length (quotes : Z) (text : bytes) : nat :=
  match text with
  | [] => 0
  | c :: text =>
      let quotes := if c =? 34 then quotes + 1 else quotes in
      if negb (truth (quotes & 1)) && (c =? 59) then 0
      else if c =? 10 then 0
      else S (cmd_length quotes text)
  end.

(** Taking the first command out of the buffer: the line, and the buffer without it.
    C: Source/cmd.c:141-170 Cbuf_Execute *)
Definition take_line (st : cmdst) : res (bytes * cmdst) :=
  text ← load (data (cmd_text st)) 0 (cursize (cmd_text st));
  let i := cmd_length 0 text in
  if (LINE_SIZE <=? i)%nat then Fault (Undefined "line[1024] overrun")
  else
    let line := until0 (take i text) in
    if (i =? length text)%nat then mret (line, set_cmd_text (set_cursize 0 (cmd_text st)) st)
    else
      let rest := drop (S i) text in
      b ← poke (set_cursize (zlen rest) (cmd_text st)) 0 rest;
      mret (line, set_cmd_text b st).

(** The loop of [Cbuf_Execute]; [exec] stands for [Cmd_ExecuteString].
    C: Source/cmd.c:134-181 Cbuf_Execute *)
Fixpoint Cbuf_loop (exec : bytes -> cmdst -> res cmdst) (fuel : nat) (st : cmdst) : res cmdst :=
  match fuel with
  | O => Fault OutOfFuel
  | S fuel =>
      if cursize (cmd_text st) =? 0 then mret st
      else
        '(line, st) ← take_line st;
        st ← exec line st;
        if cmd_wait st then mret (set_cmd_wait false st)
        else Cbuf_loop exec fuel st
  end.

(** [va ("set %s %s\n", ...)] *)
Definition set_line (a b : bytes) : bytes := cs "set " ++ a ++ [32] ++ b ++ [10].

(** C: Source/cmd.c:199-210 Cbuf_AddEarlyCommands *)
Fixpoint early_loop (fuel : nat) (i : Z) (st : cmdst) : res cmdst :=
  match fuel with
  | O => mret st
  | S fuel =>
      let arg k := default [] (COM_Argv (cargs st) k) in
      if negb (i <? COM_Argc (cargs st) - 2) then mret st
      else if negb (strcaseeq (arg i) (cs "+set")) then early_loop fuel (i + 1) st
      else st ← Cbuf_AddText (set_line (arg (i + 1)) (arg (i + 2))) st;
           early_loop fuel (i + 3) st
  end.

Definition Cbuf_AddEarlyCommands (st : cmdst) : res cmdst :=
  early_loop (Z.to_nat (COM_Argc (cargs st))) 0 st.

(** * Script commands *)

(** The combined command line: every argument but the first, with a blank after each but the
    last, null ones left out.
    C: Source/cmd.c:239-247 Cmd_StuffCmds_f *)
Fixpoint stuff_text (i argc : Z) (argv : list (option bytes)) : bytes :=
  match argv with
  | [] => []
  | a :: argv =>
      if i <? argc then
        match a with
        | None => stuff_text (i + 1) argc argv
        | Some s => s ++ (if i =? argc - 1 then [] else [32]) ++ stuff_text (i + 1) argc argv
        end
      else []
  end.

Fixpoint stuff_size (i argc : Z) (argv : list (option bytes)) : Z :=
  match argv with
  | [] => 0
  | a :: argv =>
      if i <? argc then
        match a with
        | None => stuff_size (i + 1) argc argv
        | Some s => zlen s + 1 + stuff_size (i + 1) argc argv
        end
      else 0
  end.

(** The characters up to a '+', a '-' or the end. *)
Fixpoint span_cmd (text : bytes) : bytes * bytes :=
  match text with
  | [] => ([], [])
  | c :: rest =>
      if (c =? 43) || (c =? 45) then ([], text)
      else let '(a, b) := span_cmd rest in (c :: a, b)
  end.

(** Pulling out the commands; [n] characters are left to look at, [room] bytes are left in
    [build].
    C: Source/cmd.c:254-270 Cmd_StuffCmds_f *)
Fixpoint stuff_loop (fuel : nat) (n room : Z) (text build : bytes) : res bytes :=
  match fuel with
  | O => Fault OutOfFuel
  | S fuel =>
      if n <=? 0 then mret build
      else
        match text with
        | [] => stuff_loop fuel (n - 1) room [] build
        | c :: rest =>
            if c =? 43 then
              let '(cmd, rest') := span_cmd rest in
              let build := build ++ cmd ++ [10] in
              if room <? zlen build then Fault (Undefined "build overrun")
              else stuff_loop fuel (n - 1 - zlen cmd) room rest' build
            else stuff_loop fuel (n - 1) room rest build
        end
  end.

(** C: Source/cmd.c:222-277 Cmd_StuffCmds_f *)
Definition Cmd_StuffCmds_f (st : cmdst) : res cmdst :=
  let argc := com_argc (cargs st) in
  let argv := drop 1 (com_argv (cargs st)) in
  let s := stuff_size 1 argc argv in
  if s =? 0 then mret st
  else
    let text := stuff_text 1 argc argv in
    build ← stuff_loop (S (Z.to_nat s)) (s - 1) s text [];
    if bool_decide (build = []) then mret st else Cbuf_InsertText build st.

(** ** The words of the command being executed *)

(** C: Source/cmd.c:492-495 Cmd_Argc *)
Definition Cmd_Argc (st : cmdst) : Z := zlen (cmd_argv st).

(** C: Source/cmd.c:502-507 Cmd_Argv *)
Definition Cmd_Argv (arg : Z) (st : cmdst) : bytes :=
  if Cmd_Argc st <=? u32 arg then [] else default [] (cmd_argv st !! Z.to_nat arg).

(** C: Source/cmd.c:514-519 Cmd_Args *)
Definition Cmd_Args (st : cmdst) : bytes := default [] (cmd_args st).

(** C: Source/cmd.c:541-542 Cmd_TokenizeString *)
Fixpoint skip_space (text : bytes) : bytes :=
  match text with
  | c :: rest => if (c =? 32) || (c =? 9) || (c =? 13) then skip_space rest else text
  | [] => []
  end.

(** The loop of [Cmd_TokenizeString]: the words, and where the second one starts.  [idx] is
    how much of [argv_buf] is used. *)
Fixpoint tokenize (fuel : nat) (text : bytes) (idx : nat) (argv : list bytes) (args : option bytes)
  : res (list bytes * option bytes) :=
  match fuel with
  | O => Fault OutOfFuel
  | S fuel =>
      match skip_space text with
      | [] => mret (argv, args)
      | (c :: _) as text =>
          if c =? 10 then mret (argv, args)
          else
            let args := if (length argv =? 1)%nat then Some text else args in
            '(token, p) ← COM_Parse (At text);
            match p with
            | Null => mret (argv, args)
            | PastEnd => Fault (Undefined "Cmd_TokenizeString: reads past the terminator")
            | At text =>
                if (length argv <? MAX_ARGS)%nat then
                  let idx' := (idx + length token + 1)%nat in
                  if (ARGV_BUF <? idx')%nat then Fault (Undefined "argv_buf overrun")
                  else tokenize fuel text idx' (argv ++ [token]) args
                else tokenize fuel text idx argv args
            end
      end
  end.

(** C: Source/cmd.c:528-567 Cmd_TokenizeString *)
Definition Cmd_TokenizeString (text : bytes) (st : cmdst) : res cmdst :=
  '(argv, args) ← tokenize (S (length text)) text 0 [] None;
  mret (set_cmd_args args (set_cmd_argv argv st)).

(** C: Source/cmd.c:328-335 Cmd_Echo_f *)
Definition Cmd_Echo_f (st : cmdst) : cmdst :=
  say "" [] (foldl (fun st a => say "%s " [a] st) st (drop 1 (cmd_argv st))).

(** The entry an alias command writes to: the one of exactly that name, or a new one in front.
    C: Source/cmd.c:366-381 Cmd_Alias_f *)
Fixpoint alias_put (name value : bytes) (l : list (bytes * bytes)) : option (list (bytes * bytes)) :=
  match l with
  | [] => None
  | (n, v) :: l =>
      if bool_decide (name = n) then Some ((name, value) :: l)
      else cons (n, v) <$> alias_put name value l
  end.

(** [strcat] of the words from the third on into [cmd], each with a blank after it. *)
Fixpoint alias_text (cmd : bytes) (argv : list bytes) : res bytes :=
  match argv with
  | [] => mret cmd
  | a :: argv =>
      let cmd := cmd ++ a ++ [32] in
      if (LINE_SIZE <=? length cmd)%nat then Fault (Undefined "cmd[1024] overrun") else alias_text cmd argv
  end.

(** C: Source/cmd.c:344-395 Cmd_Alias_f *)
Definition Cmd_Alias_f (st : cmdst) : res cmdst :=
  if Cmd_Argc st =? 1 then
    mret (foldl (fun st a => say "%s : %s" [a.1; a.2] st) (say "Current alias commands:" [] st) (cmd_alias st))
  else
    let s := Cmd_Argv 1 st in
    if (MAX_ALIAS_NAME <=? length s)%nat then mret (say "Alias name is too long" [] st)
    else
      cmd ← alias_text [] (drop 2 (cmd_argv st));
      let cmd := cmd ++ [10] in
      if (LINE_SIZE <=? length cmd)%nat then Fault (Undefined "cmd[1024] overrun")
      else mret (set_cmd_alias (match alias_put s cmd (cmd_alias st) with
                                | Some l => l
                                | None => (s, cmd) :: cmd_alias st
                                end) st).

(** The first entry of a table whose name is the word, up to case. *)
Fixpoint assoc_case {A} (name : bytes) (l : list (bytes * A)) : option (bytes * A) :=
  match l with
  | [] => None
  | e :: l => if strcaseeq name e.1 then Some e else assoc_case name l
  end.

(** C: Source/cmd.c:402-411 Cmd_FindAlias *)
Definition Cmd_FindAlias (name : bytes) (st : cmdst) : option (bytes * bytes) := assoc_case name (cmd_alias st).

(** C: Source/cmd.c:416-426 Cmd_AddLegacyCommand *)
Definition Cmd_AddLegacyCommand (oldname newname : bytes) (st : cmdst) : cmdst :=
  set_legacycmds ((oldname, newname) :: legacycmds st) st.

(** C: Source/cmd.c:428-437 Cmd_FindLegacyCommand *)
Definition Cmd_FindLegacyCommand (oldname : bytes) (st : cmdst) : option (bytes * bytes) :=
  assoc_case oldname (legacycmds st).

(** C: Source/cmd.c:607-616 Cmd_FindCommand *)
Definition Cmd_FindCommand (cmd_name : bytes) (st : cmdst) : option (bytes * xcommand) :=
  assoc_case cmd_name (cmd_functions st).

(** C: Source/cmd.c:574-600 Cmd_AddCommand *)
Definition Cmd_AddCommand (cmd_name : bytes) (function : xcommand) (st : cmdst) : res cmdst :=
  if host_initialized (cv st) then Fault (Sys_Error "Cmd_AddCommand after host_initialized")
  else
    '(s, c) ← Cvar_VariableString cmd_name (cv st);
    let st := set_cv c st in
    if negb (bool_decide (s = [])) then
      mret (say "Cmd_AddCommand: %s already defined as a var" [cmd_name] st)
    else
      match Cmd_FindCommand cmd_name st with
      | Some _ => mret (say "Cmd_AddCommand: %s already defined" [cmd_name] st)
      | None => mret (set_cmd_functions ((cmd_name, function) :: cmd_functions st) st)
      end.

(** C: Source/cmd.c:623-642 Cmd_CompleteCommand *)
Definition Cmd_CompleteCommand (partial : bytes) (st : cmdst) : option bytes :=
  if bool_decide (partial = []) then None
  else match list_find (fun e => strcaseprefix partial e.1 = true) (cmd_functions st) with
       | Some (_, e) => Some e.1
       | None => match list_find (fun e => strcaseprefix partial e.1 = true) (legacycmds st) with
                 | Some (_, e) => Some e.1
                 | None => None
                 end
       end.

(** C: Source/cmd.c:649-667 Cmd_CompleteCountPossible *)
Definition Cmd_CompleteCountPossible (partial : bytes) (st : cmdst) : Z :=
  if bool_decide (partial = []) then 0
  else zlen (filter (fun e => strcaseprefix partial e.1 = true) (cmd_functions st)) +
       zlen (filter (fun e => strcaseprefix partial e.1 = true) (legacycmds st)).

(** C: Source/cmd.c:894-915 Cmd_ForwardToServer *)
Definition Cmd_ForwardToServer (st : cmdst) : res cmdst :=
  if negb (cls_connected st) then mret (say "Not connected to server" [] st)
  else if cls_demoplayback st then mret st
  else
    m ← MSG_WriteByte (cls_message st) clc_stringcmd;
    m ← (if negb (strcaseeq (Cmd_Argv 0 st) (cs "cmd"))
         then m ← SZ_Print m (Cmd_Argv 0 st); SZ_Print m [32]
         else mret m);
    m ← (if 1 <? Cmd_Argc st then SZ_Print m (Cmd_Args st) else SZ_Print m [10]);
    mret (set_cls_message m st).

(** C: Source/cmd.c:925-937 Cmd_CheckParm *)
Definition Cmd_CheckParm (parm : bytes) (st : cmdst) : Z :=
  match list_find (fun a => strcaseeq parm a = true) (drop 1 (cmd_argv st)) with
  | Some (i, _) => Z.of_nat i + 1
  | None => 0
  end.

(** C: Source/cmd.c:946-958 Cmd_CmdList_f *)
Definition Cmd_CmdList_f (st : cmdst) : cmdst :=
  if negb (src_command st) then st
  else
    let n := zlen (cmd_functions st) in
    say "------------ %d commands" [digits 60 n []]
      (foldl (fun st e => say "%s" [e.1] st) st (cmd_functions st)).

(** * Dispatch *)

Section dispatch.

Variable call_OnChange : Z -> Z -> bytes -> cvst -> res (bool * cvst).
(** Command functions of other files. *)
Variable call_other : Z -> cmdst -> res cmdst.
(** [Cmd_ExecuteString_Hook]: whether the TAS module takes the line. *)
Variable hook : bytes -> cmdst -> res (bool * cmdst).
(** [COM_LoadHunkFile]: the text of a file, if there is one. *)
Variable load_file : bytes -> option bytes.

(** The name the script is loaded by, and its text.
    C: Source/cmd.c:297-313 COM_LoadHunkFile *)
Definition exec_file (name : bytes) : res (bytes * option bytes) :=
  match load_file name with
  | Some f => mret (name, Some f)
  | None =>
      if bool_decide (46 ∈ COM_SkipPath name) then mret (name, None)
      else if (MAX_OSPATH <=? length name + 4)%nat then Fault (Undefined "name overrun")
      else mret (name ++ cs ".cfg", load_file (name ++ cs ".cfg"))
  end.

(** The hunk is back at its mark when the text has been copied into the buffer.
    C: Source/cmd.c:284-319 Cmd_Exec_f *)
Definition Cmd_Exec_f (st : cmdst) : res cmdst :=
  if negb (Cmd_Argc st =? 2) then mret (say "exec <filename> : execute a script file" [] st)
  else
    '(name, f) ← exec_file (take (MAX_OSPATH - 1) (Cmd_Argv 1 st));
    match f with
    | None => mret (say "couldn't exec %s" [name] st)
    | Some f =>
        let st := if warn (cv st) then say "execing %s" [name] st else st in
        Cbuf_InsertText f st
    end.

Definition lift_cv (f : cvst -> res cvst) (st : cmdst) : res cmdst :=
  c ← f (cv st); mret (set_cv c st).

Definition is_cmd (st : cmdst) (name : bytes) : bool := bool_decide (is_Some (Cmd_FindCommand name st)).

(** [cmd->function ()] *)
Definition call_function (f : xcommand) (st : cmdst) : res cmdst :=
  match f with
  | F_StuffCmds => Cmd_StuffCmds_f st
  | F_Exec => Cmd_Exec_f st
  | F_Echo => mret (Cmd_Echo_f st)
  | F_Alias => Cmd_Alias_f st
  | F_ForwardToServer => Cmd_ForwardToServer st
  | F_Wait => mret (Cmd_Wait_f st)
  | F_CmdList => mret (Cmd_CmdList_f st)
  | F_CvarList => lift_cv (Cvar_CvarList_f (src_command st)) st
  | F_CvarReset => lift_cv (Cvar_Reset_f call_OnChange (cmd_argv st)) st
  | F_CvarSet => lift_cv (Cvar_Set_f call_OnChange (is_cmd st) (cmd_argv st)) st
  | F_other n => call_other n st
  end.

(** The line a legacy command stands for.
    C: Source/cmd.c:456-458 newname *)
Definition legacy_line (newname args : bytes) : bytes :=
  let text := take 1022 newname ++ [32] in
  text ++ take (1024 - length text - 1) args.

(** Whether the first word was a legacy command; [exec] executes the line it stands for.  The
    flag that is to catch recursion is an automatic variable, so it is always clear.
    C: Source/cmd.c:439-466 Cmd_LegacyCommand *)
Definition Cmd_LegacyCommand (exec : bytes -> cmdst -> res cmdst) (st : cmdst) : res (bool * cmdst) :=
  match Cmd_FindLegacyCommand (Cmd_Argv 0 st) st with
  | None => mret (false, st)
  | Some (_, newname) =>
      if bool_decide (newname = []) then mret (true, st)
      else st ← exec (legacy_line newname (Cmd_Args st)) st; mret (true, st)
  end.

(** A line is tokenized and tried as a command, an alias, a variable and a legacy command, in
    this order; a legacy command is executed in turn, so there is fuel for the nesting.
    C: Source/cmd.c:840-885 Cmd_ExecuteString *)
Fixpoint Cmd_ExecuteString (fuel : nat) (text : bytes) (src : bool) (st : cmdst) : res cmdst :=
  match fuel with
  | O => Fault OutOfFuel
  | S fuel =>
      st ← Cmd_TokenizeString text (set_src_command src st);
      if Cmd_Argc st =? 0 then mret st
      else
        '(eaten, st) ← hook text st;
        if (eaten : bool) then mret st
        else
          match Cmd_FindCommand (Cmd_Argv 0 st) st with
          | Some (_, f) => call_function f st
          | None =>
              match Cmd_FindAlias (Cmd_Argv 0 st) st with
              | Some (_, value) => Cbuf_InsertText value st
              | None =>
                  '(handled, c) ← Cvar_Command call_OnChange (cmd_argv st) (cv st);
                  let st := set_cv c st in
                  if (handled : bool) then mret st
                  else
                    '(legacy, st) ← Cmd_LegacyCommand (fun line => Cmd_ExecuteString fuel line true) st;
                    if (legacy : bool) then mret st
                    else mret (if warn (cv st) then say "Unknown command %s" [Cmd_Argv 0 st] st else st)
              end
          end
  end.

(** C: Source/cmd.c:134-181 Cbuf_Execute *)
Definition Cbuf_Execute (nest fuel : nat) (st : cmdst) : res cmdst :=
  Cbuf_loop (fun line => Cmd_ExecuteString nest line true) fuel st.

End dispatch.

(** C: Source/cmd.c:1629-1643 Cmd_Init *)
Definition Cmd_Init (st : cmdst) : res cmdst :=
  foldl (fun st e => st ← st; Cmd_AddCommand e.1 e.2 st) (mret st)
    [(cs "stuffcmds", F_StuffCmds); (cs "exec", F_Exec); (cs "echo", F_Echo); (cs "alias", F_Alias);
     (cs "cmd", F_ForwardToServer); (cs "wait", F_Wait); (cs "cmdlist", F_CmdList);
     (cs "dir", F_other 1); (cs "demdir", F_other 2); (cs "printtxt", F_other 3)].

(** * The buffer as text *)

Definition cbuf (st : cmdst) : bytes := contents (cmd_text st).
Definition cbuf_ok (st : cmdst) : Prop := sb_wf (cmd_text st) /\ allowoverflow (cmd_text st) = false.

Lemma cbuf_size st : cbuf_ok st -> cursize (cmd_text st) = zlen (cbuf st).
Proof. intros [H _]. unfold cbuf. by rewrite length_contents. Qed.

Lemma load_contents b : sb_wf b -> load (data b) 0 (cursize b) = Ok (contents b).
Proof. intros [H1 H2]. rewrite load_ok by lia. unfold slice. by rewrite drop_0. Qed.

Lemma until0_all s : is_cstr s -> until0 s = s.
Proof. induction 1 as [|c s Hc _ IH]; cbn; [done|]. case_if; [lia|]. by rewrite IH. Qed.

(** Appending what fits. *)
Lemma buf_write st d :
  cbuf_ok st -> zlen (cbuf st) + zlen d <= maxsize (cmd_text st) ->
  exists b, SZ_Write (cmd_text st) d = Ok b /\ cbuf_ok (set_cmd_text b st) /\
    contents b = cbuf st ++ d /\ maxsize b = maxsize (cmd_text st).
Proof.
  intros Hok Hfit. pose proof Hok as [Hwf Ha]. rewrite <- (cbuf_size st Hok) in Hfit.
  destruct (SZ_Write_fits _ _ Hwf Hfit) as (b & HW & Hb & Hc & _ & _ & Hm & Hal & _).
  exists b. split; [done|]. split; [split; cbn; [done|congruence]|done].
Qed.

Lemma AddText_ok st text :
  cbuf_ok st -> zlen (cbuf st) + zlen text < maxsize (cmd_text st) ->
  exists b, Cbuf_AddText text st = Ok (set_cmd_text b st) /\ cbuf_ok (set_cmd_text b st) /\
    contents b = cbuf st ++ text /\ maxsize b = maxsize (cmd_text st).
Proof.
  intros Hok Hfit. unfold Cbuf_AddText. rewrite (cbuf_size st Hok). case_if; [lia|].
  destruct (buf_write st text Hok ltac:(lia)) as (b & -> & Hb). exists b. by rewrite bind_Ok.
Qed.

Lemma AddText_full st text :
  cbuf_ok st -> maxsize (cmd_text st) <= zlen (cbuf st) + zlen text ->
  Cbuf_AddText text st = Ok (say "Cbuf_AddText: overflow" [] st).
Proof. intros Hok Hfit. unfold Cbuf_AddText. rewrite (cbuf_size st Hok). by case_if; [|lia]. Qed.

Lemma cleared st :
  cbuf_ok st -> cbuf_ok (set_cmd_text (SZ_Clear (cmd_text st)) st) /\
    cbuf (set_cmd_text (SZ_Clear (cmd_text st)) st) = [].
Proof. intros [H1 H2]. split; [split; [by apply sb_wf_clear|done]|done]. Qed.

(** A run of [Cbuf_InsertText] that fits. *)
Lemma InsertText_ok st text :
  cbuf_ok st -> zlen text < maxsize (cmd_text st) -> zlen text + zlen (cbuf st) <= maxsize (cmd_text st) ->
  exists b, Cbuf_InsertText text st = Ok (set_cmd_text b st) /\ cbuf_ok (set_cmd_text b st) /\
    contents b = text ++ cbuf st /\ maxsize b = maxsize (cmd_text st).
Proof.
  intros Hok Hl Hfit. pose proof Hok as [Hwf Ha]. unfold Cbuf_InsertText. rewrite (cbuf_size st Hok).
  unfold truth. destruct (Z.eqb_spec (zlen (cbuf st)) 0) as [E|E]; cbn [negb].
  - destruct (AddText_ok st text Hok ltac:(lia)) as (b & HA & Hb & Hc & Hm). exists b. split; [done|]. split; [done|].
    split; [|done]. assert (cbuf st = []) as Hnil by (destruct (cbuf st); cbn in E; [done|lia]).
    by rewrite Hc, Hnil, app_nil_r.
  - rewrite <- (cbuf_size st Hok), load_contents, bind_Ok by done. fold (cbuf st).
    set (st1 := set_cmd_text (SZ_Clear (cmd_text st)) st).
    destruct (cleared st Hok) as [Hok1 Hnil]. fold st1 in Hok1, Hnil.
    destruct (AddText_ok st1 text Hok1) as (b1 & -> & Hb1 & Hc1 & Hm1); [rewrite Hnil; cbn; lia|]. rewrite bind_Ok. rewrite Hnil in Hc1.
    destruct (buf_write (set_cmd_text b1 st1) (cbuf st) Hb1) as (b & HW & Hb & Hc & Hm).
    { unfold cbuf at 1. cbn [cmd_text set_cmd_text]. rewrite Hc1, Hm1. cbn. lia. }
    cbn [cmd_text set_cmd_text] in *. rewrite HW, bind_Ok. exists b. split; [done|]. split; [done|].
    split; [|rewrite Hm, Hm1; done]. rewrite Hc. unfold cbuf at 1. cbn. by rewrite Hc1.
Qed.

(** [Cbuf_InsertText] puts text in front of what is still to be executed.  When text and
    buffer fit together, the buffer holds exactly the text followed by what was there (no
    newline between them); a text as large as the whole buffer is refused with a message and
    what was there stays; and a text that fits alone but not together with it ends the
    program in [Sys_Error]. *)
Theorem Cbuf_InsertText_spec st text :
  cbuf_ok st ->
  if zlen text <? maxsize (cmd_text st) then
    if zlen text + zlen (cbuf st) <=? maxsize (cmd_text st)
    then exists b, Cbuf_InsertText text st = Ok (set_cmd_text b st) /\ cbuf_ok (set_cmd_text b st) /\
           contents b = text ++ cbuf st
    else exists msg, Cbuf_InsertText text st = Fault (Sys_Error msg)
  else exists st', Cbuf_InsertText text st = Ok st' /\ cbuf_ok st' /\ cbuf st' = cbuf st /\
         cv st' = printf (Con_Printf "Cbuf_AddText: overflow" []) (cv st).
Proof.
  intros Hok. pose proof Hok as [Hwf Ha]. case_if; [case_if|].
  - destruct (InsertText_ok st text Hok ltac:(lia) ltac:(lia)) as (b & H1 & H2 & H3 & _). by exists b.
  - unfold Cbuf_InsertText. rewrite (cbuf_size st Hok). unfold truth. case_if; [|lia].
    rewrite <- (cbuf_size st Hok), load_contents, bind_Ok by done. fold (cbuf st).
    set (st1 := set_cmd_text (SZ_Clear (cmd_text st)) st).
    destruct (cleared st Hok) as [Hok1 Hnil]. fold st1 in Hok1, Hnil.
    destruct (AddText_ok st1 text Hok1) as (b1 & -> & Hb1 & Hc1 & Hm1); [rewrite Hnil; cbn; lia|]. rewrite bind_Ok. rewrite Hnil in Hc1.
    cbn [cmd_text set_cmd_text]. destruct Hb1 as [Hw1 Ha1]. cbn [cmd_text set_cmd_text] in *.
    pose proof (length_contents _ Hw1) as Hl1. rewrite Hc1 in Hl1. cbn in Hl1.
    unfold SZ_Write, SZ_GetSpace. rewrite <- Hl1, Hm1, Ha1. cbn [negb cmd_text set_cmd_text].
    change (maxsize (cmd_text st1)) with (maxsize (cmd_text st)). case_if; [by eexists|lia].
  - unfold Cbuf_InsertText. rewrite (cbuf_size st Hok). unfold truth. case_if; cbn [negb].
    + rewrite <- (cbuf_size st Hok), load_contents, bind_Ok by done. fold (cbuf st).
      set (st1 := set_cmd_text (SZ_Clear (cmd_text st)) st).
      destruct (cleared st Hok) as [Hok1 Hnil]. fold st1 in Hok1, Hnil.
      rewrite (AddText_full st1 text Hok1) by (rewrite Hnil; cbn; lia). rewrite bind_Ok. destruct Hwf as [Hw1 Hw2].
      destruct (buf_write st1 (cbuf st) Hok1) as (b & HW & Hb & Hc & Hm).
      { rewrite Hnil, <- (cbuf_size st Hok). cbn. lia. }
      change (cmd_text (say _ _ st1)) with (cmd_text st1). rewrite HW, bind_Ok. eexists. split; [done|].
      split; [done|]. split; [by rewrite Hnil in Hc|done].
    + rewrite (AddText_full st text Hok) by lia. eexists. split; [done|]. done.
Qed.

Definition demo_cmd : cmdst :=
  CmdSt (SizeBuf false false (cs "map e1m1" ++ [10] ++ repeat 0 91) 100 9) false [] []
    [(cs "wait", F_Wait); (cs "echo", F_Echo)] [] None true false false (SizeBuf false false [] 0 0)
    (ArgState [] 1 [Some (cs "quake")] 0 0 0 0) demo_cvars.

Lemma Cbuf_InsertText_spec_witness :
  exists b, Cbuf_InsertText (cs "echo hi") demo_cmd = Ok (set_cmd_text b demo_cmd) /\
    contents b = cs "echo himap e1m1" ++ [10].
Proof.
  destruct (Cbuf_InsertText_spec demo_cmd (cs "echo hi")) as (b & H1 & _ & H2); [by split; vm_compute|].
  exists b. split; [exact H1|rewrite H2; by_vm].
Defined.

(** * Cutting the text into commands *)

(** No newline, and no semicolon outside quotes; the quotes are closed. *)
Fixpoint plain_from (quotes : Z) (c : bytes) : bool :=
  match c with
  | [] => negb (truth (quotes & 1))
  | x :: c =>
      let quotes := if x =? 34 then quotes + 1 else quotes in
      negb (negb (truth (quotes & 1)) && (x =? 59)) && negb (x =? 10) && plain_from quotes c
  end.
Definition plain_cmd (c : bytes) : Prop := plain_from 0 c = true /\ is_cstr c /\ (length c < LINE_SIZE)%nat.
Definition is_separator (x : Z) : Prop := x = 10 \/ x = 59.

Lemma cmd_length_plain sep rest c : forall q,
  plain_from q c = true -> is_separator sep -> cmd_length q (c ++ sep :: rest) = length c.
Proof.
  induction c as [|x c IH]; intros q Hp Hs; cbn [plain_from cmd_length app length] in *.
  - destruct Hs as [-> | ->]; cbn [Z.eqb Pos.eqb]; [|by rewrite Hp].
    by rewrite andb_false_r.
  - apply andb_prop in Hp as [Hp1 Hp2]. apply andb_prop in Hp1 as [Hp0 Hp1].
    apply negb_true_iff in Hp0, Hp1. rewrite Hp0, Hp1. by rewrite IH.
Qed.

Lemma take_line_ok st c sep rest :
  cbuf_ok st -> plain_cmd c -> is_separator sep -> cbuf st = c ++ sep :: rest ->
  exists b, take_line st = Ok (c, set_cmd_text b st) /\ cbuf_ok (set_cmd_text b st) /\ contents b = rest /\
    maxsize b = maxsize (cmd_text st).
Proof.
  intros Hok (Hp & Hcs & Hl) Hs Hc. pose proof Hok as [[Hw1 Hw2] Ha]. unfold take_line.
  rewrite load_contents, bind_Ok by apply Hok. fold (cbuf st). rewrite Hc, cmd_length_plain by done.
  assert ((LINE_SIZE <=? length c)%nat = false) as -> by (apply Nat.leb_gt; done).
  rewrite length_app. assert ((length c =? length c + length (sep :: rest))%nat = false) as -> by (cbn; apply Nat.eqb_neq; lia).
  rewrite take_app_length, (until0_all c) by done.
  replace (S (length c)) with (length (c ++ [sep])) by (rewrite length_app; cbn; lia).
  replace (c ++ sep :: rest) with ((c ++ [sep]) ++ rest) by (by rewrite <- app_assoc). rewrite drop_app_length.
  assert (zlen c + 1 + zlen rest <= zlen (data (cmd_text st))) as Hfit.
  { pose proof (cbuf_size st Hok) as E. rewrite Hc, length_app in E. cbn in E. lia. }
  unfold poke. rewrite store_ok, bind_Ok by (cbn; lia). eexists. split; [done|]. cbn.
  pose proof (cbuf_size st Hok) as E. rewrite Hc, length_app in E. cbn in E.
  assert (length (splice (data (cmd_text st)) 0 rest) = length (data (cmd_text st))) as Hls
    by (apply length_splice; lia).
  split; [|split; [|done]].
  - change (Z.to_nat 0) with 0%nat. split; [|done].
    split; cbn [cmd_text set_cmd_text set_data set_cursize maxsize cursize data]; [lia|]. by rewrite Hls.
  - unfold contents. cbn [set_data set_cursize cursize data]. rewrite Nat2Z.id. change (Z.to_nat 0) with 0%nat.
    unfold splice. rewrite take_0, app_nil_l. apply take_app_length.
Qed.

(** One turn of the loop, seen from the text: the first command runs with the rest in the
    buffer. *)
Lemma Cbuf_turn exec fuel st c sep rest :
  cbuf_ok st -> plain_cmd c -> is_separator sep -> cbuf st = c ++ sep :: rest ->
  exists b, cbuf_ok (set_cmd_text b st) /\ contents b = rest /\ maxsize b = maxsize (cmd_text st) /\
    Cbuf_loop exec (S fuel) st =
      (st ← exec c (set_cmd_text b st);
       if cmd_wait st then mret (set_cmd_wait false st) else Cbuf_loop exec fuel st).
Proof.
  intros Hok Hp Hs Hc. destruct (take_line_ok st c sep rest Hok Hp Hs Hc) as (b & HT & Hb & Hr & Hm).
  exists b. split; [done|]. split; [done|]. split; [done|]. cbn [Cbuf_loop].
  rewrite (cbuf_size st Hok), Hc, length_app. case_if; [cbn in *; lia|]. by rewrite HT, bind_Ok.
Qed.

Lemma Cbuf_loop_empty exec fuel st :
  cbuf_ok st -> cbuf st = [] -> Cbuf_loop exec (S fuel) st = Ok st.
Proof. intros Hok Hc. cbn [Cbuf_loop]. by rewrite (cbuf_size st Hok), Hc. Qed.

(** The text of a list of commands, each with its separator. *)
Definition script (cmds : list (bytes * Z)) : bytes := concat ((fun e => e.1 ++ [e.2]) <$> cmds).

(** Executing commands one after the other. *)
Fixpoint run_cmds (exec : bytes -> cmdst -> res cmdst) (cmds : list (bytes * Z)) (st : cmdst) : res cmdst :=
  match cmds with
  | [] => mret st
  | e :: cmds => st ← exec e.1 st; run_cmds exec cmds st
  end.

(** In the states of [P] the command neither looks at the buffer nor waits, and leads to another
    state of [P] if it does not fail. *)
Record quiet (P : cmdst -> Prop) (exec : bytes -> cmdst -> res cmdst) (c : bytes) : Prop := {
  quiet_buf : forall b st, P st -> exec c (set_cmd_text b st) = (st' ← exec c st; mret (set_cmd_text b st'));
  quiet_wait : forall st st', P st -> exec c st = Ok st' -> P st' /\ cmd_wait st' = false
}.

Lemma set_cmd_text_twice b b' st : set_cmd_text b (set_cmd_text b' st) = set_cmd_text b st.
Proof. done. Qed.

Lemma run_quiet P exec b l : Forall (fun e : bytes * Z => quiet P exec e.1) l -> forall s, P s ->
  run_cmds exec l (set_cmd_text b s) = (s' ← run_cmds exec l s; mret (set_cmd_text b s')).
Proof.
  induction 1 as [|e l Hq _ IHl]; intros s Hs; [done|]. cbn [run_cmds]. rewrite (quiet_buf _ _ _ Hq) by done.
  destruct (exec e.1 s) as [s1|f] eqn:E; [|done]. rewrite !bind_Ok. apply IHl. by eapply quiet_wait.
Qed.

Lemma Cbuf_loop_all P exec cmds : (forall b st, P st -> P (set_cmd_text b st)) -> forall st, P st ->
  cbuf_ok st -> Forall (fun e => (plain_cmd e.1 /\ is_separator e.2) /\ quiet P exec e.1) cmds -> cbuf st = script cmds ->
  exists b, contents b = [] /\
    Cbuf_loop exec (S (length cmds)) st = (st' ← run_cmds exec cmds st; mret (set_cmd_text b st')).
Proof.
  intros HP. induction cmds as [|[c sep] cmds IH]; intros st Hst Hok Hf Hc.
  - exists (cmd_text st). split; [done|]. rewrite Cbuf_loop_empty by done. by destruct st.
  - apply Forall_cons in Hf as [[[Hp Hs] Hq] Hf]. unfold script in Hc. cbn [fmap list_fmap concat fst snd] in *.
    rewrite <- app_assoc in Hc. cbn [app] in Hc.
    destruct (Cbuf_turn exec (S (length cmds)) st c sep (script cmds) Hok Hp Hs Hc) as (b & Hb & Hr & _ & HE).
    cbn [length run_cmds fst]. rewrite HE, (quiet_buf _ _ _ Hq) by done. destruct (exec c st) as [st1|f] eqn:E;
      [|exists (SizeBuf false false [] 0 0); done]. rewrite !bind_Ok.
    destruct (quiet_wait _ _ _ Hq _ _ Hst E) as [Hst1 Hw]. change (cmd_wait (set_cmd_text b st1)) with (cmd_wait st1). rewrite Hw.
    destruct (IH (set_cmd_text b st1)) as (b' & Hb' & HL); [by apply HP|exact Hb|exact Hf|exact Hr|].
    exists b'. split; [done|]. rewrite HL, (run_quiet P) by (done || (eapply Forall_impl; [exact Hf|by intros e []])).
    by destruct (run_cmds exec cmds st1).
Qed.

(** C17: [Cbuf_Execute] executes the commands of its buffer in order.  The text is made of any number
    of commands ended by newlines or semicolons (semicolons inside quotes do not count), each shorter
    than the line buffer; these commands neither look at the buffer (as an alias, [exec] and
    [stuffcmds] do) nor wait, in the states they are executed in ([P], which is about anything but
    the buffer).  Then the call returns exactly the outcome of executing those commands one after the
    other, stopping at the first error, and then the buffer is empty. *)
Theorem Cbuf_Execute_all P exec cmds st :
  (forall b st, P st -> P (set_cmd_text b st)) -> P st -> cbuf_ok st ->
  Forall (fun e => (plain_cmd e.1 /\ is_separator e.2) /\ quiet P exec e.1) cmds -> cbuf st = script cmds ->
  exists b, contents b = [] /\
    Cbuf_loop exec (S (length cmds)) st = (st' ← run_cmds exec cmds st; mret (set_cmd_text b st')).
Proof. intros HP Hst Hok Hf Hc. by apply (Cbuf_loop_all P). Qed.

(** A way of executing that only prints the command. *)
Definition print_cmd (c : bytes) (st : cmdst) : res cmdst := mret (set_cmd_wait false (say "%s" [c] st)).

(** The line buffer of [Cbuf_Execute] is not guarded: when the first command of the buffer
    has 1024 characters or more, copying it into [line] overruns the array. *)
Theorem Cbuf_Execute_overrun exec fuel st :
  cbuf_ok st -> (LINE_SIZE <= cmd_length 0 (cbuf st))%nat ->
  Cbuf_loop exec (S fuel) st = Fault (Undefined "line[1024] overrun").
Proof.
  intros Hok Hl. cbn [Cbuf_loop]. rewrite (cbuf_size st Hok). case_if.
  { destruct (cbuf st); cbn in *; [unfold LINE_SIZE in Hl; lia|lia]. }
  unfold take_line. rewrite load_contents, bind_Ok by apply Hok. fold (cbuf st).
  apply Nat.leb_le in Hl. by rewrite Hl.
Qed.

Lemma Cbuf_Execute_overrun_witness :
  Cbuf_loop print_cmd 1 (set_cmd_text (SizeBuf false false (repeat 97 1100) 1100 1050) demo_cmd) =
  Fault (Undefined "line[1024] overrun").
Proof.
  apply (Cbuf_Execute_overrun print_cmd 0 (set_cmd_text (SizeBuf false false (repeat 97 1100) 1100 1050) demo_cmd)).
  - split; [vm_compute; split; [split|]; discriminate|reflexivity].
  - apply Nat.leb_le. by_vm.
Defined.

(** * Words *)

(** A word as names of commands and variables are: printable, without quotes, slashes and the
    characters that are tokens of their own. *)
Definition is_word (w : bytes) : Prop :=
  w <> [] /\ Forall (fun c => 32 < c < 127 /\ c <> 34 /\ c <> 47 /\ is_single c = false) w.

#[global] Instance is_word_dec w : Decision (is_word w).
Proof. unfold is_word. apply _. Defined.

Definition ends_word (rest : bytes) : Prop :=
  match rest with [] => True | c :: _ => 0 < c <= 32 end.

Lemma s8_small c : 0 <= c < 128 -> s8 c = c.
Proof. intros H. unfold s8. rewrite Z.mod_small by lia. lia. Qed.

Lemma single_break c : is_single c = false -> is_break c = false.
Proof. unfold is_single, is_break. intros H. by apply orb_false_iff in H as [H _]. Qed.

Lemma parse_word_ok w rest : forall tok c,
  Forall (fun c => 32 < c < 127 /\ c <> 34 /\ c <> 47 /\ is_single c = false) w -> ends_word rest ->
  (length tok + length w + 1 < 1024)%nat ->
  parse_word tok c (w ++ rest) = Ok (tok ++ c :: w, At rest).
Proof.
  induction w as [|x w IH]; intros tok c Hw Hr Hl; cbn [app length] in *.
  - destruct rest as [|y rest]; cbn [parse_word]; rewrite token_put_ok, bind_Ok by lia;
      [|cbn in Hr; rewrite s8_small by lia; assert (y <=? 32 = true) as -> by lia; rewrite orb_true_r];
      by rewrite token_end_ok by (rewrite length_app; cbn; lia).
  - apply Forall_cons in Hw as [(Hx & _ & _ & Hs) Hw]. cbn [parse_word]. rewrite token_put_ok, bind_Ok by lia.
    rewrite s8_small, (single_break _ Hs) by lia. assert (x <=? 32 = false) as -> by lia. cbn [orb].
    rewrite IH by (try done; rewrite length_app; cbn; lia). by rewrite <- app_assoc.
Qed.

Lemma COM_Parse_word w rest :
  is_word w -> (length w < 1024)%nat -> ends_word rest -> COM_Parse (At (w ++ rest)) = Ok (w, At rest).
Proof.
  intros [Hne Hw] Hl Hr. destruct w as [|c w]; [done|]. apply Forall_cons in Hw as [(Hc & H34 & H47 & Hs) Hw].
  cbn [app length] in *. unfold COM_Parse. rewrite Nat.add_1_r. cbn [skip_white skip_blank].
  rewrite s8_small by lia. assert (c <=? 32 = false) as -> by lia.
  assert (c =? 47 = false) as E47 by lia. change (at0 (c :: w ++ rest) 0) with c. rewrite E47. cbn [andb]. rewrite bind_Ok.
  rewrite s8_small by lia. assert (c =? 34 = false) as -> by lia. rewrite Hs.
  rewrite parse_word_ok; [done|done|done|cbn; lia].
Qed.

Lemma word_start w rest : is_word w -> skip_space (w ++ rest) = w ++ rest /\ exists c t, w ++ rest = c :: t /\ c <> 10.
Proof.
  intros [Hne Hw]. destruct w as [|c w]; [done|]. apply Forall_cons in Hw as [(Hc & _) _]. cbn.
  assert ((c =? 32) || (c =? 9) || (c =? 13) = false) as -> by lia. split; [done|]. exists c, (w ++ rest). split; [done|lia].
Qed.

(** One word taken by the tokenizer. *)
Lemma tokenize_word fuel w rest idx argv args :
  is_word w -> (length w < 1024)%nat -> ends_word rest -> (length argv < MAX_ARGS)%nat -> (idx + length w + 1 <= ARGV_BUF)%nat ->
  tokenize (S fuel) (w ++ rest) idx argv args =
  tokenize fuel rest (idx + length w + 1) (argv ++ [w])
    (if (length argv =? 1)%nat then Some (w ++ rest) else args).
Proof.
  intros Hw Hl Hr Ha Hi. cbn [tokenize]. destruct (word_start w rest Hw) as (-> & c & t & E & Hc).
  rewrite E. assert (c =? 10 = false) as -> by lia. rewrite <- E, COM_Parse_word, bind_Ok by done.
  apply Nat.ltb_lt in Ha. rewrite Ha. assert ((ARGV_BUF <? idx + length w + 1)%nat = false) as -> by (apply Nat.ltb_ge; lia).
  done.
Qed.

Lemma tokenize_quoted fuel t rest idx argv args :
  quotable t -> (length argv < MAX_ARGS)%nat -> (idx + length t + 1 <= ARGV_BUF)%nat ->
  tokenize (S fuel) (34 :: t ++ 34 :: rest) idx argv args =
  tokenize fuel rest (idx + length t + 1) (argv ++ [t])
    (if (length argv =? 1)%nat then Some (34 :: t ++ 34 :: rest) else args).
Proof.
  intros Ht Ha Hi. cbn [tokenize skip_space Z.eqb Pos.eqb orb].
  pose proof (COM_Parse_quoted t rest [] Ht ltac:(by left)) as HP. cbn [app] in HP. rewrite HP, bind_Ok.
  apply Nat.ltb_lt in Ha. rewrite Ha. assert ((ARGV_BUF <? idx + length t + 1)%nat = false) as -> by (apply Nat.ltb_ge; lia).
  done.
Qed.

Lemma tokenize_space fuel text idx argv args :
  tokenize (S fuel) (32 :: text) idx argv args = tokenize (S fuel) text idx argv args.
Proof. done. Qed.

Lemma tokenize_end fuel idx argv args : tokenize (S fuel) [] idx argv args = Ok (argv, args).
Proof. done. Qed.

(** Quoting protects any text: a line of up to 80 words, each between quotes, is split
    into exactly those words, blanks, semicolons and all, as long as they fit in the
    1024-byte word buffer together. *)
Theorem Cmd_Tokenize_roundtrip ts st :
  Forall quotable ts -> (length ts <= MAX_ARGS)%nat -> (sum_list ((fun t => S (length t)) <$> ts) <= ARGV_BUF)%nat ->
  exists args, Cmd_TokenizeString (print_tokens ts) st = Ok (set_cmd_args args (set_cmd_argv ts st)).
Proof.
  intros Hq Hn Hs. unfold Cmd_TokenizeString.
  assert (forall ts fuel pre idx argv args, (length (print_tokens ts) < fuel)%nat -> (pre = [] \/ pre = [32]) ->
    Forall quotable ts ->
    (length argv + length ts <= MAX_ARGS)%nat -> (idx + sum_list ((fun t => S (length t)) <$> ts) <= ARGV_BUF)%nat ->
    exists args', tokenize fuel (pre ++ print_tokens ts) idx argv args = Ok (argv ++ ts, args')) as H.
  { clear. induction ts as [|t ts IH]; intros fuel pre idx argv args Hf Hpre Hq Hn Hs;
      (destruct fuel as [|fuel]; [lia|]); cbn [fmap list_fmap sum_list] in *.
    - exists args. destruct Hpre as [-> | ->]; cbn; by rewrite app_nil_r.
    - apply Forall_cons in Hq as [Ht Hq].
      assert (print_tokens (t :: ts) = 34 :: t ++ 34 :: [32] ++ print_tokens ts) as E.
      { unfold print_tokens. cbn. by rewrite <- app_assoc. }
      assert (tokenize (S fuel) (pre ++ print_tokens (t :: ts)) idx argv args =
              tokenize (S fuel) (print_tokens (t :: ts)) idx argv args) as -> by (by destruct Hpre as [-> | ->]).
      rewrite E. cbn in Hn, Hs. rewrite tokenize_quoted by (try done; lia). rewrite E in Hf. cbn in Hf.
      rewrite length_app in Hf. cbn in Hf.
      destruct (IH fuel [32] (idx + length t + 1)%nat (argv ++ [t])
                  (if (length argv =? 1)%nat then Some (34 :: t ++ 34 :: [32] ++ print_tokens ts) else args))
        as (args' & HT); [lia|by right|done|rewrite length_app; cbn; lia|lia|].
      exists args'. rewrite HT. by rewrite <- app_assoc. }
  destruct (H ts (S (length (print_tokens ts))) [] 0%nat [] None) as (args & HT);
    [lia|by left|done|cbn; lia|lia|]. cbn [app] in HT. rewrite HT, bind_Ok. by exists args.
Qed.

Lemma Cmd_Tokenize_roundtrip_witness :
  exists args, Cmd_TokenizeString (print_tokens [cs "bind"; cs "x"; cs "impulse 1; wait"]) demo_cmd =
    Ok (set_cmd_args args (set_cmd_argv [cs "bind"; cs "x"; cs "impulse 1; wait"] demo_cmd)).
Proof.
  apply (Cmd_Tokenize_roundtrip [cs "bind"; cs "x"; cs "impulse 1; wait"] demo_cmd); [by_decide| |];
    apply Nat.leb_le; by_vm.
Defined.

(** Two lines that make the tokenizer leave its arrays.  A line that ends inside a quoted
    word is read past its terminator; and a line of 1023 characters, which [Cbuf_Execute]
    accepts, can need more than the 1024 bytes of [argv_buf], because every word takes one
    byte more there than in the line. *)
Theorem Cmd_Tokenize_overrun w t st :
  is_word w -> quotable t -> (length w + 1 < 1024)%nat ->
  Cmd_TokenizeString (w ++ 32 :: 34 :: t) st =
    Fault (Undefined "Cmd_TokenizeString: reads past the terminator") /\
  Cmd_TokenizeString (repeat 123 79 ++ repeat 97 944) st = Fault (Undefined "argv_buf overrun").
Proof.
  intros Hw Ht Hl. split; [|by_vm]. unfold Cmd_TokenizeString.
  rewrite tokenize_word by (try done; unfold MAX_ARGS, ARGV_BUF; cbn; lia).
  rewrite length_app. cbn [length]. rewrite Nat.add_comm. cbn [plus].
  rewrite tokenize_space. cbn [tokenize skip_space Z.eqb Pos.eqb orb length app].
  by rewrite COM_Parse_open.
Qed.

Lemma Cmd_Tokenize_overrun_witness :
  Cmd_TokenizeString (cs "say" ++ 32 :: 34 :: cs "hello") demo_cmd =
    Fault (Undefined "Cmd_TokenizeString: reads past the terminator").
Proof.
  apply (Cmd_Tokenize_overrun (cs "say") (cs "hello") demo_cmd); [by_decide|by_decide|cbn; lia].
Defined.

(** * Execution *)

Section execution.

Variable call_OnChange : Z -> Z -> bytes -> cvst -> res (bool * cvst).
Variable call_other : Z -> cmdst -> res cmdst.
Variable hook : bytes -> cmdst -> res (bool * cmdst).
Variable load_file : bytes -> option bytes.

(** The TAS module leaves lines alone. *)
Hypothesis hook_passes : forall text st, hook text st = Ok (false, st).

Abbreviation execute := (Cmd_ExecuteString call_OnChange call_other hook load_file).

(** A line whose first word is neither a command nor an alias goes to the variables. *)
Lemma execute_to_cvar fuel text src st w argv args :
  Cmd_TokenizeString text (set_src_command src st) =
    Ok (set_cmd_args args (set_cmd_argv (w :: argv) (set_src_command src st))) ->
  Cmd_FindCommand w st = None -> Cmd_FindAlias w st = None ->
  let st1 := set_cmd_args args (set_cmd_argv (w :: argv) (set_src_command src st)) in
  execute (S fuel) text src st =
    ('(handled, c) ← Cvar_Command call_OnChange (w :: argv) (cv st);
     let st := set_cv c st1 in
     if (handled : bool) then mret st
     else
       '(legacy, st) ← Cmd_LegacyCommand (fun line => execute fuel line true) st;
       if (legacy : bool) then mret st
       else mret (if warn (cv st) then say "Unknown command %s" [Cmd_Argv 0 st] st else st)).
Proof.
  intros HT Hc Ha st1. cbn [Cmd_ExecuteString]. rewrite HT, bind_Ok. fold st1.
  assert (Cmd_Argc st1 =? 0 = false) as -> by reflexivity.
  rewrite hook_passes, bind_Ok.
  assert (Cmd_Argv 0 st1 = w) as ->.
  { unfold Cmd_Argv, Cmd_Argc, st1. cbn [cmd_argv set_cmd_argv set_cmd_args length].
    rewrite u32_id by lia. by case_if; [lia|]. }
  change (Cmd_FindCommand w st1) with (Cmd_FindCommand w st). rewrite Hc.
  change (Cmd_FindAlias w st1) with (Cmd_FindAlias w st). by rewrite Ha.
Qed.

(** A line of the configuration file, without the newline. *)
Definition config_text (name s : bytes) : bytes := name ++ 32 :: 34 :: s ++ [34].

Lemma config_line_text v : config_line v = config_text (cv_name v) (cv_string v) ++ [10].
Proof. unfold config_line, config_text. rewrite <- app_assoc. cbn. by rewrite <- app_assoc. Qed.

Lemma tokenize_config name s st :
  is_word name -> quotable s -> (length name + length s + 2 <= 1024)%nat ->
  Cmd_TokenizeString (config_text name s) st =
    Ok (set_cmd_args (Some (34 :: s ++ [34])) (set_cmd_argv [name; s] st)).
Proof.
  intros Hn Hs Hl. unfold Cmd_TokenizeString, config_text.
  assert (length name <> 0)%nat by (destruct Hn as [Hn _]; by destruct name).
  rewrite tokenize_word by (try done; unfold MAX_ARGS, ARGV_BUF; cbn; lia).
  rewrite !length_app. cbn [length]. rewrite !length_app. cbn [length].
  replace (length name + S (S (length s + 1)))%nat with (S (S (S (length name + length s)))) by lia.
  rewrite tokenize_space. change (34 :: s ++ [34]) with (34 :: s ++ 34 :: []).
  rewrite tokenize_quoted by (try done; unfold MAX_ARGS, ARGV_BUF; cbn; lia).
  by rewrite tokenize_end, bind_Ok.
Qed.

(** The variable at [var] can be given the text [s] by a line with the name [name]: it has this name,
    up to case, that is a word and no command or alias; it may be changed and has no callback; the
    text has no quotes and no newlines, and the line fits. *)
Record takes (l : list Z) (st : cmdst) (x : Z * (bytes * bytes)) : Prop := {
  tk_in : x.1 ∈ l;
  tk_word : is_word x.2.1 /\ 59 ∉ x.2.1;
  tk_text : quotable x.2.2 /\ 10 ∉ x.2.2;
  tk_fits : (length x.2.1 + length x.2.2 + 3 < LINE_SIZE)%nat;
  tk_var : exists v, cvars (cv st) !! x.1 = Some v /\ strcaseeq (cv_name v) x.2.1 = true /\
    protected (cv st) v = false /\ cv_OnChange v = 0;
  tk_cmd : Cmd_FindCommand x.2.1 st = None /\ Cmd_FindAlias x.2.1 st = None
}.

Definition with_text (s : bytes) (v : cvar) : cvar := set_cv_value (Q_atof s) (set_cv_string s v).
(** The words of the line. *)
Definition set_words (x : Z * (bytes * bytes)) (st : cmdst) : cmdst :=
  set_cmd_args (Some (34 :: x.2.2 ++ [34])) (set_cmd_argv [x.2.1; x.2.2] (set_src_command true st)).
Definition setting_cmd (x : Z * (bytes * bytes)) : bytes * Z := (config_text x.2.1 x.2.2, 10).

(** A line gives the variable its text, and depends on the variables only. *)
Lemma setting_runs fuel st l x : cvars_ok (cv st) l -> rcon_active (cv st) = false -> takes l st x -> exists c,
  (forall b, execute (S fuel) (setting_cmd x).1 true (set_cmd_text b st) = Ok (set_cv c (set_words x (set_cmd_text b st)))) /\
  cvars_ok c l /\ cvars c = alter (with_text x.2.2) x.1 (cvars (cv st)) /\
  host_initialized c = host_initialized (cv st) /\ rcon_active c = false.
Proof.
  destruct x as [var [name s]]. intros Hok Hr [Hin [Hw _] [Hs _] Hl (v & Hv & Hname & Hp & Ho) [Hc Ha]]. cbn [fst snd] in *.
  assert (lname (cvars (cv st)) var = tolower <$> name) as Hln.
  { unfold strcaseeq in Hname. apply bool_decide_eq_true in Hname. by rewrite (lname_some _ _ _ Hv). }
  destruct (FindVar_ok (cv st) l name Hok) as (c1 & E1 & Hok1 & Hre). rewrite (find_in_unique _ _ _ var (proj1 (proj2 Hok)) Hin Hln) in E1.
  destruct (cvchain_in _ _ _ _ (proj1 Hok) Hin) as [H0 _]. destruct (recached_ok _ _ Hre) as (Ec & _ & _ & Eh & _ & _ & Er & _).
  destruct (Cvar_Set_ok call_OnChange c1 l var v s Hok1 Hin) as (c2 & E2 & Hok2 & Hif); [by rewrite Ec|by left|congruence|].
  assert (protected c1 v = false) as Hp1 by (unfold protected in *; by rewrite Eh). rewrite Hp1 in Hif.
  destruct (Cvar_Set_switches call_OnChange c1 l var v s c2 Hok1 ltac:(by rewrite Ec) Ho E2) as [Eh2 Er2].
  exists c2. split; [|split; [done|split; [|split; congruence]]].
  - intros b. rewrite (execute_to_cvar fuel _ true _ name [s] (Some (34 :: s ++ [34]))) by (try done; apply tokenize_config; try done; unfold LINE_SIZE in Hl; lia).
    unfold Cvar_Command. change (argv [name; s] 0) with name. change (argv [name; s] 1) with s. cbn [cv set_cmd_text].
    rewrite E1, bind_Ok. assert (var =? 0 = false) as -> by lia. change (length [name; s] =? 1)%nat with false. cbv iota.
    by rewrite E2, !bind_Ok.
  - destruct Hif as [-> _]. rewrite Ec. apply map_eq. intros k. destruct (decide (var = k)) as [<-|Hk].
    + by rewrite lookup_insert_eq, lookup_alter_eq, Hv.
    + by rewrite lookup_insert_ne, lookup_alter_ne.
Qed.

(** The other variables take their texts as before. *)
Lemma takes_later l st x y c : takes l st y -> cvars c = alter (with_text x.2.2) x.1 (cvars (cv st)) ->
  host_initialized c = host_initialized (cv st) -> takes l (set_cv c (set_words x st)) y.
Proof.
  intros [H1 H2 H3 H4 (v & Hv & Hn & Hp & Ho) H6] Hc Hh. split; try done. cbn [cv set_cv]. rewrite Hc. unfold protected in *. rewrite Hh.
  destruct (decide (x.1 = y.1)) as [->|]; [|exists v; by rewrite lookup_alter_ne].
  exists (with_text x.2.2 v). by rewrite lookup_alter_eq, Hv.
Qed.

(** The states in which the settings can be made. *)
Definition settings_ok (l : list Z) (sets : list (Z * (bytes * bytes))) (st : cmdst) : Prop :=
  cvars_ok (cv st) l /\ rcon_active (cv st) = false /\ cmd_wait st = false /\ Forall (takes l st) sets.

Lemma settings_buffer l sets b st : settings_ok l sets st -> settings_ok l sets (set_cmd_text b st).
Proof.
  clear hook_passes hook load_file call_other call_OnChange. intros (? & ? & ? & Hs). split; [done|]. split; [done|]. split; [done|]. eapply Forall_impl; [exact Hs|]. by intros x []. Qed.

Lemma settings_step fuel l sets st x : settings_ok l sets st -> x ∈ sets -> exists st',
  (forall b, execute (S fuel) (setting_cmd x).1 true (set_cmd_text b st) = Ok (set_cmd_text b st')) /\ settings_ok l sets st' /\
  cvars (cv st') = alter (with_text x.2.2) x.1 (cvars (cv st)) /\ cmd_text st' = cmd_text st.
Proof.
  intros (Hok & Hr & Hwt & Hall) Hin. destruct (setting_runs fuel st l x Hok Hr (proj1 (Forall_forall _ _) Hall x Hin)) as (c & E & Hok2 & Hc & Hh & Hr2).
  exists (set_cv c (set_words x st)). split; [exact E|]. split; [|split; [exact Hc|done]]. split; [done|]. split; [done|]. split; [done|].
  eapply Forall_impl; [exact Hall|]. intros y Hy. by apply takes_later.
Qed.

Lemma settings_quiet fuel l sets x : x ∈ sets -> quiet (settings_ok l sets) (fun line => execute (S fuel) line true) (setting_cmd x).1.
Proof.
  intros Hin. split.
  - intros b st Hst. destruct (settings_step fuel l sets st x Hst Hin) as (st' & E & _). rewrite E.
    specialize (E (cmd_text st)). replace (set_cmd_text (cmd_text st) st) with st in E by (by destruct st). by rewrite E.
  - intros st st1 Hst E. destruct (settings_step fuel l sets st x Hst Hin) as (st' & E' & Hst' & _ & Ht).
    specialize (E' (cmd_text st)). replace (set_cmd_text (cmd_text st) st) with st in E' by (by destruct st).
    replace (set_cmd_text (cmd_text st) st') with st' in E' by (rewrite <- Ht; by destruct st').
    rewrite E in E'. injection E' as ->. split; [done|apply Hst'].
Qed.

Lemma plain_app q a b : 34 ∉ a -> 10 ∉ a -> (59 ∉ a \/ truth (q & 1) = true) -> plain_from q (a ++ b) = plain_from q b.
Proof.
  clear hook_passes hook load_file call_other call_OnChange.
  revert q. induction a as [|x a IH]; intros q H1 H2 H3; [done|]. cbn [app plain_from]. apply not_elem_of_cons in H1 as [Hx1 H1], H2 as [Hx2 H2].
  assert (x =? 34 = false) as -> by lia. assert (x =? 10 = false) as -> by lia. rewrite IH by (try done; (destruct H3 as [H3|]; [left; set_solver|by right])).
  destruct H3 as [H3|H3]; [|by rewrite H3]. apply not_elem_of_cons in H3 as [Hx3 _]. assert (x =? 59 = false) as -> by lia.
  by rewrite andb_false_r.
Qed.

Lemma setting_plain l st x : takes l st x -> plain_cmd (setting_cmd x).1.
Proof.
  clear hook_passes hook load_file call_other call_OnChange.
  destruct x as [var [name s]]. intros [_ [[_ Hw] Hw2] [[Hq _] Hn] Hf _ _]. cbn [fst snd setting_cmd] in *. unfold config_text.
  rewrite Forall_forall in Hw, Hq. assert (forall c, c ∈ name -> 32 < c < 127 /\ c <> 34) as Hname by (intros c Hc; destruct (Hw c Hc) as (? & ? & _); done).
  split; [|split].
  - rewrite plain_app; [|intros Hc; destruct (Hname _ Hc); lia|intros Hc; destruct (Hname _ Hc); lia|by left].
    cbn [plain_from Z.eqb Pos.eqb negb andb]. rewrite andb_false_r. cbn [negb andb]. change (0 + 1) with 1.
    rewrite plain_app; [done|intros Hc; destruct (Hq _ Hc); lia|done|by right].
  - apply Forall_app. split; [apply Forall_forall; intros c Hc; destruct (Hname _ Hc); lia|]. repeat constructor; try lia.
    apply Forall_app. split; [apply Forall_forall; intros c Hc; destruct (Hq _ Hc); lia|]. repeat constructor; lia.
  - rewrite length_app. cbn [length]. rewrite length_app. cbn [length]. lia.
Qed.

Lemma run_settings fuel l all : forall sets st, (forall x, x ∈ sets -> x ∈ all) -> settings_ok l all st -> exists st',
  run_cmds (fun line => execute (S fuel) line true) (setting_cmd <$> sets) st = Ok st' /\ settings_ok l all st' /\
  cvars (cv st') = foldl (fun m x => alter (with_text x.2.2) x.1 m) (cvars (cv st)) sets.
Proof.
  induction sets as [|x sets IH]; intros st Hsub Hst; [by exists st|].
  destruct (settings_step fuel l all st x Hst ltac:(apply Hsub; by left)) as (st1 & E & Hst1 & Hc & Ht).
  specialize (E (cmd_text st)). replace (set_cmd_text (cmd_text st) st) with st in E by (by destruct st).
  destruct (IH st1 ltac:(intros y Hy; apply Hsub; by right) Hst1) as (st2 & E2 & Hst2 & Hc2).
  exists st2. cbn [fmap list_fmap run_cmds]. rewrite E, bind_Ok.
  replace (set_cmd_text (cmd_text st) st1) with st1 by (rewrite <- Ht; by destruct st1). split; [done|]. split; [done|].
  cbn [foldl]. by rewrite <- Hc.
Qed.

(** The variables of [l] that [Cvar_WriteVariables] writes, with their names and texts. *)
Definition archived_at (c : cvst) (p : Z) : option (Z * (bytes * bytes)) :=
  match cvars c !! p with Some v => if archived c v then Some (p, (cv_name v, cv_string v)) else None | None => None end.
Definition saved_settings (c : cvst) (l : list Z) : list (Z * (bytes * bytes)) := omap (archived_at c) l.

Lemma saved_text c l : concat (config_line <$> filter (fun v => archived c v = true) (vars_of (cvars c) l)) = script (setting_cmd <$> saved_settings c l).
Proof.
  unfold saved_settings, archived_at, vars_of, script. induction l as [|p l IH]; [done|]. cbn [omap list_omap].
  destruct (cvars c !! p) as [v|]; [|done]. rewrite filter_cons. destruct (archived c v) eqn:Ea; case_decide; try congruence.
  cbn [fmap list_fmap concat]. rewrite IH. f_equal. apply config_line_text.
Qed.

Lemma saved_in c l x : x ∈ saved_settings c l <-> x.1 ∈ l /\ exists v, cvars c !! x.1 = Some v /\ archived c v = true /\ x.2 = (cv_name v, cv_string v).
Proof.
  unfold saved_settings, archived_at. rewrite list_elem_of_omap. split.
  - intros (p & Hp & Hx). destruct (cvars c !! p) as [v|] eqn:Ev; [|done]. destruct (archived c v) eqn:Ea; [|done]. injection Hx as <-. eauto.
  - intros (Hp & v & Ev & Ea & Hx). exists x.1. split; [done|]. rewrite Ev, Ea. destruct x. cbn in *. by subst.
Qed.

Lemma saved_nodup c l : NoDup l -> NoDup (saved_settings c l).*1.
Proof.
  induction 1 as [|p l Hp _ IH]; [constructor|]. unfold saved_settings in *. cbn [omap list_omap].
  destruct (archived_at c p) as [x|] eqn:Ex; [|done]. cbn [fmap list_fmap]. constructor; [|done].
  assert (x.1 = p) as -> by (unfold archived_at in Ex; destruct (cvars c !! p) as [v|]; [destruct (archived c v); by simplify_eq/=|done]).
  intros (y & -> & Hy)%list_elem_of_fmap. apply (saved_in c l y) in Hy as [Hy _]. done.
Qed.

Lemma restored_at sets : NoDup sets.*1 -> forall m p,
  foldl (fun (m : gmap Z cvar) (x : Z * (bytes * bytes)) => alter (with_text x.2.2) x.1 m) m sets !! p =
  match list_find (fun x => x.1 = p) sets with Some (_, x) => with_text x.2.2 <$> m !! p | None => m !! p end.
Proof.
  induction sets as [|x sets IH]; intros Hnd m p; [done|]. apply NoDup_cons in Hnd as [Hx Hnd]. cbn [foldl list_find fmap list_fmap] in *.
  rewrite IH by done. case_decide as Hp.
  - subst p. rewrite (proj2 (list_find_None _ _)); [by rewrite lookup_alter_eq|]. apply Forall_forall. intros y Hy E. apply Hx.
    rewrite <- E. by apply list_elem_of_fmap_2.
  - rewrite lookup_alter_ne by done. destruct (list_find _ sets) as [[i y]|]; done.
Qed.

(** C37: The configuration that [Cvar_WriteVariables] writes is restored by [Cbuf_Execute].  When the
    text written for the variables [saved] is in the command buffer, the call executes it all, leaves
    the buffer empty, and every variable that was written has the saved text and its number, whatever
    it was set to before, while every other variable keeps its value.  This is for a table of the same
    variables in which each one written has a word for its name that is no command or alias and has no
    semicolon, may be changed and has no callback; the texts have no quotes or newlines and the lines
    fit in 1024 bytes ([takes]); no answer to a remote console is being collected, no [wait] is
    pending, and the hook of the TAS module passes every line on, which it does not when a script is
    being edited ([hook_passes]). *)
Theorem config_restores nest st saved l text :
  cvars_ok saved l -> Cvar_WriteVariables saved = Ok text ->
  cbuf_ok st -> cbuf st = text -> settings_ok l (saved_settings saved l) st -> exists st',
  Cbuf_Execute call_OnChange call_other hook load_file (S nest) (S (length (saved_settings saved l))) st = Ok st' /\
  cbuf st' = [] /\ cvars_ok (cv st') l /\
  (forall p v, p ∈ l -> cvars saved !! p = Some v -> archived saved v = true ->
     exists v1, cvars (cv st) !! p = Some v1 /\ cvars (cv st') !! p = Some (set_cv_value (Q_atof (cv_string v)) (set_cv_string (cv_string v) v1))) /\
  (forall p, p ∉ (saved_settings saved l).*1 -> cvars (cv st') !! p = cvars (cv st) !! p).
Proof.
  intros Hsv Hw Hok Hc Hst. rewrite (WriteVariables_ok saved l Hsv), saved_text in Hw. injection Hw as Hw. rewrite <- Hw in Hc. clear text Hw.
  set (sets := saved_settings saved l) in *.
  destruct (Cbuf_loop_all (settings_ok l sets) (fun line => execute (S nest) line true) (setting_cmd <$> sets)
    (settings_buffer l sets) st Hst Hok) as (b & Hb & E); [|done|].
  { destruct Hst as (_ & _ & _ & Ht). apply Forall_fmap, Forall_forall. intros x Hx. split; [split; [|by left]|by apply settings_quiet].
    by eapply setting_plain, (proj1 (Forall_forall _ _) Ht). }
  destruct (run_settings nest l sets sets st ltac:(done) Hst) as (st' & Er & (Hok' & _) & Hm). rewrite Er, bind_Ok, length_fmap in E.
  exists (set_cmd_text b st'). split; [exact E|]. split; [exact Hb|]. split; [exact Hok'|]. cbn [cv set_cmd_text]. rewrite Hm.
  assert (NoDup sets.*1) as Hnd by (apply saved_nodup; by eapply NoDup_addr, Hsv). split.
  - intros p v Hp Hv Ha. assert ((p, (cv_name v, cv_string v)) ∈ sets) as Hx by (apply saved_in; split; [done|by exists v]).
    destruct Hst as (_ & _ & _ & Ht). destruct (tk_var _ _ _ (proj1 (Forall_forall _ _) Ht _ Hx)) as (v1 & Hv1 & _). cbn in Hv1.
    exists v1. split; [done|]. rewrite restored_at by done. destruct (list_find (fun x => x.1 = p) sets) as [[i y]|] eqn:Ef.
    + apply list_find_Some in Ef as (Hy & <- & _). apply list_elem_of_lookup_2, saved_in in Hy as (_ & v' & Hv' & _ & Hy).
      assert (v' = v) as -> by congruence. by rewrite Hy, Hv1.
    + apply list_find_None in Ef. by destruct (proj1 (Forall_forall _ _) Ef _ Hx).
  - intros p Hp. rewrite restored_at by done. destruct (list_find _ sets) as [[i y]|] eqn:Ef; [|done]. exfalso. apply Hp.
    apply list_find_Some in Ef as (Hy & <- & _). by eapply list_elem_of_fmap_2, list_elem_of_lookup_2.
Qed.

(** A legacy command that stands for itself is never finished: the flag meant to catch
    recursion does not survive the call, so the dispatcher calls itself again for as long as
    there is stack.  No amount of fuel suffices. *)
Theorem Cmd_Legacy_diverges w fuel st l :
  is_word w -> (length w < 1000)%nat -> cvars_ok (cv st) l ->
  (forall a, a ∈ l -> lname (cvars (cv st)) a <> tolower <$> w) ->
  Cmd_FindCommand w st = None -> Cmd_FindAlias w st = None -> Cmd_FindLegacyCommand w st = Some (w, w) ->
  execute fuel w true st = Fault OutOfFuel.
Proof.
  intros Hw Hlen Hok Hnone Hc Ha Hl.
  assert (forall fuel st tail, (tail = [] \/ tail = [32]) -> cvars_ok (cv st) l ->
    (forall a, a ∈ l -> lname (cvars (cv st)) a <> tolower <$> w) ->
    Cmd_FindCommand w st = None -> Cmd_FindAlias w st = None -> Cmd_FindLegacyCommand w st = Some (w, w) ->
    execute fuel (w ++ tail) true st = Fault OutOfFuel) as Hgo.
  { clear st Hok Hnone Hc Ha Hl. induction fuel0 as [|n IH]; intros st tail Ht Hok Hnone Hc Ha Hl; [done|].
    assert (forall s, Cmd_TokenizeString (w ++ tail) s = Ok (set_cmd_args None (set_cmd_argv [w] s))) as HT.
    { intros s. unfold Cmd_TokenizeString. assert (length w <> 0)%nat by (destruct Hw as [Hn _]; by destruct w).
      rewrite tokenize_word by (try done; destruct Ht as [-> | ->]; unfold MAX_ARGS, ARGV_BUF; cbn; lia).
      rewrite length_app. destruct (length w) as [|k] eqn:Ek; [done|]. by destruct Ht as [-> | ->]. }
    rewrite (execute_to_cvar n _ true st w [] None) by (try done; apply HT). unfold Cvar_Command.
    change (argv [w] 0) with w.
    destruct (FindVar_ok (cv st) l w Hok) as (c1 & -> & Hok1 & Hre). rewrite bind_Ok.
    destruct (find_in_spec (cvars (cv st)) w l) as [->|[Hf1 Hf2]]; [|exfalso; by apply (Hnone _ Hf1)].
    cbn [Z.eqb]. rewrite bind_Ok. destruct (recached_ok _ _ Hre) as (Ec & _).
    unfold Cmd_LegacyCommand. set (st1 := set_cv c1 _).
    assert (Cmd_Argv 0 st1 = w) as ->.
    { unfold Cmd_Argv, Cmd_Argc. cbn. by rewrite u32_id by lia. }
    change (Cmd_FindLegacyCommand w st1) with (Cmd_FindLegacyCommand w st). rewrite Hl.
    rewrite bool_decide_eq_false_2 by apply Hw. change (Cmd_Args st1) with (@nil Z).
    assert (legacy_line w [] = w ++ [32]) as ->.
    { unfold legacy_line. rewrite take_nil, app_nil_r, take_ge by lia. done. }
    rewrite IH; [done|by right|done| |done|done|done]. intros a Hin. cbn [cv st1 set_cv]. rewrite Ec. by apply Hnone. }
  rewrite <- (app_nil_r w) at 1. apply Hgo; try done. by left.
Qed.

(** [wait] puts the rest off to the next frame: when the first command of the buffer is
    the registered [wait], [Cbuf_Execute] returns at once with exactly the rest of the text
    in the buffer, and the flag is clear again. *)
Theorem Cbuf_wait_defers nest fuel st sep rest n :
  cbuf_ok st -> is_separator sep -> cbuf st = cs "wait" ++ sep :: rest ->
  Cmd_FindCommand (cs "wait") st = Some (n, F_Wait) ->
  exists st', Cbuf_Execute call_OnChange call_other hook load_file (S nest) (S fuel) st = Ok st' /\
    cbuf st' = rest /\ cmd_wait st' = false /\ cbuf_ok st' /\ cv st' = cv st /\
    cmd_functions st' = cmd_functions st /\ cmd_alias st' = cmd_alias st.
Proof.
  intros Hok Hs Hc Hf. unfold Cbuf_Execute.
  destruct (Cbuf_turn (fun line => execute (S nest) line true) fuel st (cs "wait") sep rest Hok) as (b & Hb & Hr & _ & ->);
    [split; [by_vm|split; [by_decide|apply Nat.ltb_lt; by_vm]]|done|done|].
  cbn [Cmd_ExecuteString].
  assert (forall s, Cmd_TokenizeString (cs "wait") s = Ok (set_cmd_args None (set_cmd_argv [cs "wait"] s))) as HT by done.
  rewrite HT, bind_Ok, hook_passes. set (st1 := set_cmd_args _ _).
  change (Cmd_Argc st1 =? 0) with false. rewrite bind_Ok. change (Cmd_Argv 0 st1) with (cs "wait").
  change (Cmd_FindCommand (cs "wait") st1) with (Cmd_FindCommand (cs "wait") st). rewrite Hf.
  cbn [call_function]. rewrite bind_Ok. eexists. split; [done|]. split; [exact Hr|]. done.
Qed.

End execution.

Definition no_callback : Z -> Z -> bytes -> cvst -> res (bool * cvst) := fun _ _ _ st => Ok (false, st).
Definition no_other : Z -> cmdst -> res cmdst := fun _ st => Ok st.
Definition no_hook : bytes -> cmdst -> res (bool * cmdst) := fun _ st => Ok (false, st).
Definition no_file : bytes -> option bytes := fun _ => None.

(** Two saved variables; the text of the second has a semicolon. *)
Definition saved_skill : cvar := Cvar (cs "Skill") (cs "3") CVAR_ARCHIVE 0 (Q_atof (cs "3")) (cs "1") 200.
Definition saved_gravity : cvar := Cvar (cs "sv_gravity") (cs "90;1") (CVAR_SERVER + CVAR_ARCHIVE) 0 (Q_atof (cs "90;1")) (cs "800") 0.
Definition saved_skills : cvst := set_cvars (<[100 := saved_skill]> (cvars demo_cvars)) demo_cvars.
Definition demo_saved : cvst := set_cvars (<[200 := saved_gravity]> (cvars saved_skills)) saved_skills.
Definition demo_settings : list (Z * (bytes * bytes)) := [(100, (cs "Skill", cs "3")); (200, (cs "sv_gravity", cs "90;1"))].
Definition config_line1 : bytes := cs "Skill " ++ [34] ++ cs "3" ++ [34].
Definition config_line2 : bytes := cs "sv_gravity " ++ [34] ++ cs "90;1" ++ [34].
(** The command buffer with the two lines, the first ended by [sep]. *)
Definition config_cmd (sep : Z) : cmdst :=
  set_cmd_text (SizeBuf false false (config_line1 ++ [sep] ++ config_line2 ++ [10] ++ repeat 0 20) 48 28) demo_cmd.

Lemma demo_saved_ok : cvars_ok demo_saved [100; 200].
Proof.
  apply (cvars_ok_value saved_skills [100; 200] 200 (Cvar (cs "sv_gravity") (cs "800") CVAR_SERVER 0 (Q_atof (cs "800")) (cs "800") 0)); try done.
  apply (cvars_ok_value demo_cvars [100; 200] 100 (Cvar (cs "Skill") (cs "1") 0 0 (Q_atof (cs "1")) (cs "1") 200)); try done. exact demo_cvars_ok.
Qed.

Lemma config_cmd_takes sep : settings_ok [100; 200] demo_settings (config_cmd sep).
Proof.
  split; [exact demo_cvars_ok|]. split; [done|]. split; [done|]. repeat constructor; cbn [fst snd].
  all: try set_solver.
  all: try (by_decide).
  all: try (unfold LINE_SIZE; cbn; lia).
  all: eexists; (split; [reflexivity|]); by_vm.
Qed.

Lemma config_cmd_ok : cbuf_ok (config_cmd 10) /\ cbuf_ok (config_cmd 59).
Proof. split; (split; [vm_compute; split; [split|]; discriminate|reflexivity]). Qed.

Lemma Cbuf_Execute_all_witness :
  exists b, contents b = [] /\
    Cbuf_Execute no_callback no_other no_hook no_file 1 3 (config_cmd 59) =
      (st' ← run_cmds (fun line => Cmd_ExecuteString no_callback no_other no_hook no_file 1 line true) [(config_line1, 59); (config_line2, 10)] (config_cmd 59);
       mret (set_cmd_text b st')).
Proof.
  apply (Cbuf_Execute_all (settings_ok [100; 200] demo_settings) (fun line => Cmd_ExecuteString no_callback no_other no_hook no_file 1 line true)
    [(config_line1, 59); (config_line2, 10)] (config_cmd 59) (settings_buffer _ _) (config_cmd_takes _) (proj2 config_cmd_ok)).
  - pose proof (config_cmd_takes 59) as (_ & _ & _ & Ht). apply Forall_cons in Ht as [Ht1 Ht]. apply Forall_cons in Ht as [Ht2 _].
    constructor; [|constructor; [|constructor]].
    + split; [split; [exact (setting_plain _ _ _ Ht1)|by right]|]. apply (settings_quiet no_callback no_other no_hook no_file (fun _ _ => eq_refl) 0 _ _ (100, (cs "Skill", cs "3"))). by left.
    + split; [split; [exact (setting_plain _ _ _ Ht2)|by left]|]. apply (settings_quiet no_callback no_other no_hook no_file (fun _ _ => eq_refl) 0 _ _ (200, (cs "sv_gravity", cs "90;1"))). right. by left.
  - by_vm.
Defined.

Lemma demo_saved_settings : saved_settings demo_saved [100; 200] = demo_settings.
Proof. by_vm. Qed.
Lemma demo_saved_text : Cvar_WriteVariables demo_saved = Ok (config_line1 ++ [10] ++ config_line2 ++ [10]).
Proof. by_vm. Qed.

Lemma config_restores_witness :
  exists st', Cbuf_Execute no_callback no_other no_hook no_file 1 3 (config_cmd 10) = Ok st' /\ cbuf st' = [] /\
    cv_string <$> cvars (cv st') !! 200 = Some (cs "90;1").
Proof.
  assert (settings_ok [100; 200] (saved_settings demo_saved [100; 200]) (config_cmd 10)) as Hs by (rewrite demo_saved_settings; apply config_cmd_takes).
  destruct (config_restores no_callback no_other no_hook no_file (fun _ _ => eq_refl) 0 (config_cmd 10) demo_saved [100; 200]
    (config_line1 ++ [10] ++ config_line2 ++ [10]) demo_saved_ok demo_saved_text (proj1 config_cmd_ok) ltac:(by_vm) Hs) as (st' & E & Hb & _ & Hv & _).
  rewrite demo_saved_settings in E. exists st'. split; [exact E|]. split; [exact Hb|].
  clear E Hs Hb. destruct (Hv 200 saved_gravity) as (v1 & _ & H); [right; left|reflexivity|reflexivity|]. rewrite H. reflexivity.
Defined.

Definition demo_legacy : cmdst := Cmd_AddLegacyCommand (cs "foo") (cs "foo") demo_cmd.

Lemma Cmd_Legacy_diverges_witness :
  Cmd_ExecuteString no_callback no_other no_hook no_file 50 (cs "foo") true demo_legacy = Fault OutOfFuel.
Proof.
  apply (Cmd_Legacy_diverges no_callback no_other no_hook no_file (fun _ _ => eq_refl) (cs "foo") 50 demo_legacy [100; 200]).
  - by_decide.
  - cbn. lia.
  - exact demo_cvars_ok.
  - intros a Ha. rewrite !elem_of_cons in Ha. destruct Ha as [->|[->|Ha]]; [by_vm|by_vm|by apply not_elem_of_nil in Ha].
  - reflexivity.
  - reflexivity.
  - reflexivity.
Defined.

Definition demo_wait : cmdst :=
  set_cmd_text (SizeBuf false false (cs "wait;echo" ++ [10] ++ repeat 0 20) 30 10) demo_cmd.

Lemma Cbuf_wait_defers_witness :
  exists st', Cbuf_Execute no_callback no_other no_hook no_file 1 5 demo_wait = Ok st' /\ cbuf st' = cs "echo" ++ [10].
Proof.
  destruct (Cbuf_wait_defers no_callback no_other no_hook no_file (fun _ _ => eq_refl) 0 4 demo_wait 59
              (cs "echo" ++ [10]) (cs "wait")) as (st' & H1 & H2 & _).
  - split; [vm_compute; split; [split|]; discriminate|reflexivity].
  - by right.
  - reflexivity.
  - reflexivity.
  - exists st'. by split.
Defined.

(** * Registering commands *)

(** [Cmd_AddCommand] before the host runs: a name that is a variable with a text, or
    already a command up to case, changes nothing but the console; otherwise the command is
    in front of the table and found under its name.  A variable whose text is empty is not
    seen by the test, so a command can take its name. *)
Theorem Cmd_AddCommand_spec name f st l :
  cvars_ok (cv st) l -> host_initialized (cv st) = false ->
  let var := find_in (cvars (cv st)) name l in
  let text := match cvars (cv st) !! var with Some v => cv_string v | None => [] end in
  exists st', Cmd_AddCommand name f st = Ok st' /\ cvars_ok (cv st') l /\ cvars (cv st') = cvars (cv st) /\
    if decide (var <> 0 /\ text <> []) then cmd_functions st' = cmd_functions st
    else match Cmd_FindCommand name st with
         | Some _ => cmd_functions st' = cmd_functions st
         | None => cmd_functions st' = (name, f) :: cmd_functions st /\ Cmd_FindCommand name st' = Some (name, f)
         end.
Proof.
  intros Hok Hh var text. unfold Cmd_AddCommand. rewrite Hh. unfold Cvar_VariableString.
  destruct (FindVar_ok (cv st) l name Hok) as (c1 & -> & Hok1 & Hre). fold var. rewrite bind_Ok.
  destruct (recached_ok _ _ Hre) as (Ec & _).
  assert (exists s, (if var =? 0 then mret ([], c1) else v ← cv_at c1 var; mret (cv_string v, c1)) = Ok (s, c1) /\
            (s = [] <-> ~ (var <> 0 /\ text <> []))) as (s & -> & Hs).
  { destruct (find_in_spec (cvars (cv st)) name l) as [E|[E _]]; fold var in E.
    - rewrite E. exists []. split; [done|]. split; [intros _ [? _]; done|done].
    - destruct (cvchain_in _ _ _ _ (proj1 Hok) E) as [H0 [v Hv]]. assert (var =? 0 = false) as -> by lia.
      rewrite (cv_at_ok c1 var v) by (by rewrite Ec). rewrite bind_Ok. exists (cv_string v). split; [done|].
      unfold text. rewrite Hv. split; [intros -> [_ ?]; done|]. intros H. destruct (cv_string v); [done|].
      exfalso. apply H. split; [done|]. discriminate. }
  rewrite bind_Ok. destruct (decide (var <> 0 /\ text <> [])) as [Hd|Hd].
  - rewrite bool_decide_eq_false_2 by (intros ->; by apply (proj1 Hs)). cbn [negb]. eexists. split; [done|].
    split; [exact Hok1|]. by split.
  - rewrite bool_decide_eq_true_2 by (by apply Hs). cbn [negb].
    change (Cmd_FindCommand name (set_cv c1 st)) with (Cmd_FindCommand name st).
    destruct (Cmd_FindCommand name st); (eexists; split; [done|]; split; [exact Hok1|]; split; [done|]); [done|].
    split; [done|]. unfold Cmd_FindCommand. cbn. unfold strcaseeq. by rewrite bool_decide_eq_true_2.
Qed.

Definition demo_boot : cmdst := set_cv (set_host_initialized false demo_cvars) demo_cmd.

Lemma Cmd_AddCommand_spec_witness :
  exists st', Cmd_AddCommand (cs "map") (F_other 7) demo_boot = Ok st' /\
    Cmd_FindCommand (cs "MAP") st' = Some (cs "map", F_other 7).
Proof.
  destruct (Cmd_AddCommand_spec (cs "map") (F_other 7) demo_boot [100; 200] demo_cvars_ok ltac:(reflexivity))
    as (st' & H1 & _ & _ & H2).
  exists st'. split; [exact H1|]. unfold Cmd_FindCommand.
  assert (cmd_functions st' = (cs "map", F_other 7) :: cmd_functions demo_boot) as ->.
  { vm_compute in H1. injection H1 as <-. reflexivity. }
  by_vm.
Defined.
