(* ===== verification/PrExec.v ===== *)
(** The QuakeC virtual machine (Source/pr_exec.c).

    Globals and entity fields are 32-bit words, read as integers or as floats the way the
    [eval_t] union does.  A step of the machine is a function on the machine's state that
    returns, or throws with the state it throws in: a program error unwinds the call stack
    and is a [Host_Error].  The progs file is a record; the built-in functions (pr_cmds.c)
    are a parameter.  An access outside the globals, the entities, the statements or one of
    the stacks is [Undefined].  Printing (traces, [PR_PrintStatement], [ED_Print]) has no
    effect on the machine and is left out. *)

From Stdlib Require Import SpecFloat.
From S2P Require Import Prelude CFloat.

(** C: Source/pr_comp.h:43-119 OP_DONE *)
Inductive opcode : Type :=
  | OP_DONE | OP_MUL_F | OP_MUL_V | OP_MUL_FV | OP_MUL_VF | OP_DIV_F | OP_ADD_F | OP_ADD_V
  | OP_SUB_F | OP_SUB_V | OP_EQ_F | OP_EQ_V | OP_EQ_S | OP_EQ_E | OP_EQ_FNC | OP_NE_F |
  OP_NE_V | OP_NE_S | OP_NE_E | OP_NE_FNC | OP_LE | OP_GE | OP_LT | OP_GT | OP_LOAD_F |
  OP_LOAD_V | OP_LOAD_S | OP_LOAD_ENT | OP_LOAD_FLD | OP_LOAD_FNC | OP_ADDRESS |
  OP_STORE_F | OP_STORE_V | OP_STORE_S | OP_STORE_ENT | OP_STORE_FLD | OP_STORE_FNC |
  OP_STOREP_F | OP_STOREP_V | OP_STOREP_S | OP_STOREP_ENT | OP_STOREP_FLD | OP_STOREP_FNC
  | OP_RETURN | OP_NOT_F | OP_NOT_V | OP_NOT_S | OP_NOT_ENT | OP_NOT_FNC | OP_IF |
  OP_IFNOT | OP_CALL0 | OP_CALL1 | OP_CALL2 | OP_CALL3 | OP_CALL4 | OP_CALL5 | OP_CALL6 |
  OP_CALL7 | OP_CALL8 | OP_STATE | OP_GOTO | OP_AND | OP_OR | OP_BITAND | OP_BITOR.

Definition opcodes : list opcode :=
  [OP_DONE; OP_MUL_F; OP_MUL_V; OP_MUL_FV; OP_MUL_VF; OP_DIV_F; OP_ADD_F; OP_ADD_V;
  OP_SUB_F; OP_SUB_V; OP_EQ_F; OP_EQ_V; OP_EQ_S; OP_EQ_E; OP_EQ_FNC; OP_NE_F; OP_NE_V;
  OP_NE_S; OP_NE_E; OP_NE_FNC; OP_LE; OP_GE; OP_LT; OP_GT; OP_LOAD_F; OP_LOAD_V;
  OP_LOAD_S; OP_LOAD_ENT; OP_LOAD_FLD; OP_LOAD_FNC; OP_ADDRESS; OP_STORE_F; OP_STORE_V;
  OP_STORE_S; OP_STORE_ENT; OP_STORE_FLD; OP_STORE_FNC; OP_STOREP_F; OP_STOREP_V;
  OP_STOREP_S; OP_STOREP_ENT; OP_STOREP_FLD; OP_STOREP_FNC; OP_RETURN; OP_NOT_F; OP_NOT_V;
  OP_NOT_S; OP_NOT_ENT; OP_NOT_FNC; OP_IF; OP_IFNOT; OP_CALL0; OP_CALL1; OP_CALL2;
  OP_CALL3; OP_CALL4; OP_CALL5; OP_CALL6; OP_CALL7; OP_CALL8; OP_STATE; OP_GOTO; OP_AND;
  OP_OR; OP_BITAND; OP_BITOR].

Definition opcode_of (op : Z) : option opcode := opcodes !! Z.to_nat op.

(** C: Source/pr_comp.h:122-126 dstatement_t *)
Record dstatement : Type := Stmt { st_op : Z; st_a : Z; st_b : Z; st_c : Z }.

(** The profile counter is part of the machine's state.
    C: Source/pr_comp.h:137-151 dfunction_t *)
Record dfunction : Type := Fun {
  first_statement : Z;
  parm_start : Z;
  locals : Z;
  numparms : Z;
  parm_size : list Z
}.

(** What [PR_LoadProgs] sets up: [pr_statements], [pr_functions]. *)
Record program : Type := Program {
  statements : list dstatement;
  functions : list dfunction
}.

Definition MAX_STACK_DEPTH : Z := 32.
Definition LOCALSTACK_SIZE : Z := 2048.
Definition OFS_RETURN : Z := 1.
Definition OFS_PARM0 : Z := 4.
(** [pr_global_struct->self] and [->time]; fields of [entvars_t]; and the place of [v] in
    [edict_t]; all in words. *)
Definition ofs_self : Z := 28.
Definition ofs_time : Z := 31.
Definition v_frame : Z := 30.
Definition v_think : Z := 44.
Definition v_nextthink : Z := 46.
Definition edict_v : Z := 24.

(** The call stack holds statement and function numbers, -1 for no function; [edicts] is the
    memory at [sv.edicts] in words; [pr_strings] is the string block of the progs file and
    [heap_strings] are strings elsewhere, by their offset from it.
    C: Source/pr_exec.c:24-44 pr_stack *)
Record vm : Type := VM {
  pr_globals : list Z;
  pr_stack : list (Z * Z);
  pr_depth : Z;
  localstack : list Z;
  localstack_used : Z;
  pr_xfunction : Z;
  pr_xstatement : Z;
  pr_argc : Z;
  profile : list Z;
  edicts : list Z;
  pr_strings : bytes;
  heap_strings : gmap Z bytes;
  sv_active : bool
}.

Definition set_pr_globals (v : list Z) (s : vm) : vm :=
    VM v (pr_stack s) (pr_depth s) (localstack s) (localstack_used s) (pr_xfunction s)
    (pr_xstatement s) (pr_argc s) (profile s) (edicts s) (pr_strings s) (heap_strings s)
    (sv_active s).
Definition set_pr_stack (v : list (Z * Z)) (s : vm) : vm :=
    VM (pr_globals s) v (pr_depth s) (localstack s) (localstack_used s) (pr_xfunction s)
    (pr_xstatement s) (pr_argc s) (profile s) (edicts s) (pr_strings s) (heap_strings s)
    (sv_active s).
Definition set_pr_depth (v : Z) (s : vm) : vm :=
    VM (pr_globals s) (pr_stack s) v (localstack s) (localstack_used s) (pr_xfunction s)
    (pr_xstatement s) (pr_argc s) (profile s) (edicts s) (pr_strings s) (heap_strings s)
    (sv_active s).
Definition set_localstack (v : list Z) (s : vm) : vm :=
    VM (pr_globals s) (pr_stack s) (pr_depth s) v (localstack_used s) (pr_xfunction s)
    (pr_xstatement s) (pr_argc s) (profile s) (edicts s) (pr_strings s) (heap_strings s)
    (sv_active s).
Definition set_localstack_used (v : Z) (s : vm) : vm :=
    VM (pr_globals s) (pr_stack s) (pr_depth s) (localstack s) v (pr_xfunction s)
    (pr_xstatement s) (pr_argc s) (profile s) (edicts s) (pr_strings s) (heap_strings s)
    (sv_active s).
Definition set_pr_xfunction (v : Z) (s : vm) : vm :=
    VM (pr_globals s) (pr_stack s) (pr_depth s) (localstack s) (localstack_used s) v
    (pr_xstatement s) (pr_argc s) (profile s) (edicts s) (pr_strings s) (heap_strings s)
    (sv_active s).
Definition set_pr_xstatement (v : Z) (s : vm) : vm :=
    VM (pr_globals s) (pr_stack s) (pr_depth s) (localstack s) (localstack_used s)
    (pr_xfunction s) v (pr_argc s) (profile s) (edicts s) (pr_strings s) (heap_strings s)
    (sv_active s).
Definition set_pr_argc (v : Z) (s : vm) : vm :=
    VM (pr_globals s) (pr_stack s) (pr_depth s) (localstack s) (localstack_used s)
    (pr_xfunction s) (pr_xstatement s) v (profile s) (edicts s) (pr_strings s) (heap_strings
    s) (sv_active s).
Definition set_profile (v : list Z) (s : vm) : vm :=
    VM (pr_globals s) (pr_stack s) (pr_depth s) (localstack s) (localstack_used s)
    (pr_xfunction s) (pr_xstatement s) (pr_argc s) v (edicts s) (pr_strings s) (heap_strings
    s) (sv_active s).
Definition set_edicts (v : list Z) (s : vm) : vm :=
    VM (pr_globals s) (pr_stack s) (pr_depth s) (localstack s) (localstack_used s)
    (pr_xfunction s) (pr_xstatement s) (pr_argc s) (profile s) v (pr_strings s)
    (heap_strings s) (sv_active s).
Definition set_pr_strings (v : bytes) (s : vm) : vm :=
    VM (pr_globals s) (pr_stack s) (pr_depth s) (localstack s) (localstack_used s)
    (pr_xfunction s) (pr_xstatement s) (pr_argc s) (profile s) (edicts s) v (heap_strings s)
    (sv_active s).
Definition set_heap_strings (v : gmap Z bytes) (s : vm) : vm :=
    VM (pr_globals s) (pr_stack s) (pr_depth s) (localstack s) (localstack_used s)
    (pr_xfunction s) (pr_xstatement s) (pr_argc s) (profile s) (edicts s) (pr_strings s) v
    (sv_active s).
Definition set_sv_active (v : bool) (s : vm) : vm :=
    VM (pr_globals s) (pr_stack s) (pr_depth s) (localstack s) (localstack_used s)
    (pr_xfunction s) (pr_xstatement s) (pr_argc s) (profile s) (edicts s) (pr_strings s)
    (heap_strings s) v.

(** * The machine's steps *)

Inductive outcome (A : Type) : Type := Ret (a : A) (st : vm) | Throw (f : fault) (st : vm).
Arguments Ret {A} a st.
Arguments Throw {A} f st.

Definition M (A : Type) : Type := vm -> outcome A.
#[global] Instance M_ret : MRet M := fun A a st => Ret a st.
#[global] Instance M_bind : MBind M := fun A B k m st =>
  match m st with Ret a st' => k a st' | Throw f st' => Throw f st' end.

Definition get {A} (f : vm -> A) : M A := fun st => Ret (f st) st.
Definition modify (f : vm -> vm) : M unit := fun st => Ret tt (f st).
Definition throw {A} (f : fault) : M A := fun st => Throw f st.
Definition lift {A} (r : res A) : M A := fun st =>
  match r with Ok a => Ret a st | Fault f => Throw f st end.

Definition at_index {A} (l : list A) (i : Z) : option A := if i <? 0 then None else l !! Z.to_nat i.

(** ** Words of the globals *)

Definition g_get (i : Z) : M Z :=
  fun st => match at_index (pr_globals st) i with
            | Some w => Ret w st
            | None => Throw (Undefined "outside the globals") st
            end.
Definition g_set (i w : Z) : M unit :=
  fun st => match at_index (pr_globals st) i with
            | Some _ => Ret tt (set_pr_globals (<[Z.to_nat i := w]> (pr_globals st)) st)
            | None => Throw (Undefined "outside the globals") st
            end.
Definition g_int (i : Z) : M Z := w ← g_get i; mret (s32 w).
Definition g_float (i : Z) : M f32 := w ← g_get i; mret (f32_of_bits w).
Definition g_set_float (i : Z) (x : f32) : M unit := g_set i (bits_of_f32 x).
Definition f_bool (b : bool) : f32 := f32_of_Z (if b then 1 else 0).

(** ** Words of the entities, by byte offset from [sv.edicts] *)

Definition e_get (ofs : Z) : M Z :=
  fun st => if negb (ofs `mod` 4 =? 0) then Throw (Undefined "unaligned pointer") st
            else match at_index (edicts st) (ofs / 4) with
                 | Some w => Ret w st
                 | None => Throw (Undefined "outside the entities") st
                 end.
Definition e_set (ofs w : Z) : M unit :=
  fun st => if negb (ofs `mod` 4 =? 0) then Throw (Undefined "unaligned pointer") st
            else match at_index (edicts st) (ofs / 4) with
                 | Some _ => Ret tt (set_edicts (<[Z.to_nat (ofs / 4) := w]> (edicts st)) st)
                 | None => Throw (Undefined "outside the entities") st
                 end.
(** Field [fld] of the entity at [ed]: [(int * )&ed->v + fld]. *)
Definition field_ofs (ed fld : Z) : Z := ed + 4 * (edict_v + fld).

(** The string at an offset from [pr_strings]. *)
Definition string_at (ofs : Z) : M bytes :=
  fun st => match heap_strings st !! ofs with
            | Some s => Ret s st
            | None => if (0 <=? ofs) && (ofs <? zlen (pr_strings st))
                      then Ret (until0 (drop (Z.to_nat ofs) (pr_strings st))) st
                      else Throw (Undefined "no string here") st
            end.

(** [strcmp]: the difference of the first bytes that differ. *)
Fixpoint strcmp (a b : bytes) : Z :=
  match a, b with
  | [], [] => 0
  | x :: _, [] => x
  | [], y :: _ => - y
  | x :: a, y :: b => if x =? y then strcmp a b else x - y
  end.

(** ** Errors *)

(** The place of the running function on the stack is written before the stack is printed.
    C: Source/pr_exec.c:188-209 PR_StackTrace *)
Definition PR_StackTrace : M unit := fun st =>
  if pr_depth st =? 0 then Ret tt st
  else match at_index (pr_stack st) (pr_depth st) with
       | Some (s, _) => Ret tt (set_pr_stack (<[Z.to_nat (pr_depth st) := (s, pr_xfunction st)]> (pr_stack st)) st)
       | None => Throw (Undefined "pr_stack overrun") st
       end.

(** C: Source/pr_exec.c:254-270 PR_RunError *)
Definition PR_RunError {A} (msg : string) : M A :=
  PR_StackTrace;;
  modify (set_pr_depth 0);;
  throw (Host_Error msg).

Section machine.

Variable progs : program.
(** [pr_builtins[i] ()] *)
Variable builtin : Z -> M unit.
Variable pr_numbuiltins : Z.

Definition function_at (f : Z) : M dfunction :=
  match at_index (functions progs) f with
  | Some d => mret d
  | None => throw (Undefined "outside the functions")
  end.

(** ** Calls *)

(** [n] words, one after the other. *)
Fixpoint copy_words (n : nat) (dst src : Z) : M unit :=
  match n with
  | O => mret tt
  | S n => w ← g_get src; g_set dst w;; copy_words n (dst + 1) (src + 1)
  end.

(** C: Source/pr_exec.c:307-315 parm_start *)
Fixpoint copy_parms (n : nat) (i o : Z) (sizes : list Z) : M unit :=
  match n with
  | O => mret tt
  | S n =>
      match sizes with
      | [] => throw (Undefined "outside parm_size")
      | size :: sizes =>
          copy_words (Z.to_nat size) o (OFS_PARM0 + i * 3);;
          copy_parms n (i + 1) (o + Z.max size 0) sizes
      end
  end.

(** Saving and restoring the words a function uses for its parameters and locals. *)
Definition save_locals (d : dfunction) : M unit :=
  st ← get (fun st => st);
  let c := Z.max (locals d) 0 in
  ws ← lift (load (pr_globals st) (if c =? 0 then 0 else parm_start d) c);
  ls ← lift (store (localstack st) (if c =? 0 then 0 else localstack_used st) ws);
  modify (set_localstack ls).

Definition restore_locals (d : dfunction) : M unit :=
  st ← get (fun st => st);
  let c := Z.max (locals d) 0 in
  ws ← lift (load (localstack st) (if c =? 0 then 0 else localstack_used st) c);
  gs ← lift (store (pr_globals st) (if c =? 0 then 0 else parm_start d) ws);
  modify (set_pr_globals gs).

(** C: Source/pr_exec.c:287-319 PR_EnterFunction *)
Definition PR_EnterFunction (f : Z) : M Z :=
  d ← function_at f;
  st ← get (fun st => st);
  stack ← match at_index (pr_stack st) (pr_depth st) with
          | Some _ => mret (<[Z.to_nat (pr_depth st) := (pr_xstatement st, pr_xfunction st)]> (pr_stack st))
          | None => throw (Undefined "pr_stack overrun")
          end;
  modify (fun st => set_pr_depth (pr_depth st + 1) (set_pr_stack stack st));;
  depth ← get pr_depth;
  (if MAX_STACK_DEPTH <=? depth then PR_RunError "stack overflow" else mret tt);;
  used ← get localstack_used;
  (if LOCALSTACK_SIZE <? used + locals d then PR_RunError "PR_ExecuteProgram: locals stack overflow" else mret tt);;
  save_locals d;;
  modify (fun st => set_localstack_used (localstack_used st + locals d) st);;
  copy_parms (Z.to_nat (numparms d)) 0 (parm_start d) (parm_size d);;
  modify (set_pr_xfunction f);;
  mret (first_statement d - 1).

(** C: Source/pr_exec.c:326-346 PR_LeaveFunction *)
Definition PR_LeaveFunction : M Z :=
  depth ← get pr_depth;
  if depth <=? 0 then throw (Sys_Error "prog stack underflow")
  else
    f ← get pr_xfunction;
    d ← function_at f;
    modify (fun st => set_localstack_used (localstack_used st - locals d) st);;
    used ← get localstack_used;
    (if used <? 0 then PR_RunError "PR_ExecuteProgram: locals stack underflow" else mret tt);;
    restore_locals d;;
    modify (set_pr_depth (depth - 1));;
    st ← get (fun st => st);
    match at_index (pr_stack st) (depth - 1) with
    | Some (s, f) => modify (set_pr_xfunction f);; mret s
    | None => throw (Undefined "outside pr_stack")
    end.

(** ** Statements; [a], [b], [c] are the indices of the operands *)

Definition vec2 (f : f32 -> f32 -> f32) (a b c : Z) : M unit :=
  x ← g_float a; y ← g_float b; g_set_float c (f x y);;
  x ← g_float (a + 1); y ← g_float (b + 1); g_set_float (c + 1) (f x y);;
  x ← g_float (a + 2); y ← g_float (b + 2); g_set_float (c + 2) (f x y).

(** A float times a vector; the float is read again for each component. *)
Definition scale (s v c : Z) : M unit :=
  x ← g_float s; y ← g_float v; g_set_float c (f32_mul x y);;
  x ← g_float s; y ← g_float (v + 1); g_set_float (c + 1) (f32_mul x y);;
  x ← g_float s; y ← g_float (v + 2); g_set_float (c + 2) (f32_mul x y).

Definition flt2 (f : f32 -> f32 -> f32) (a b c : Z) : M unit :=
  x ← g_float a; y ← g_float b; g_set_float c (f x y).

(** [(int)a->_float & (int)b->_float] *)
Definition int2 (f : Z -> Z -> Z) (x y : f32) : f32 := f32_of_Z (s32 (f (f_to_int x) (f_to_int y))).

(** C: Source/pr_exec.c:398-445 OP_ADD_F *)
Definition op_arith (o : opcode) (a b c : Z) : option (M unit) :=
  match o with
  | OP_ADD_F => Some (flt2 f32_add a b c)
  | OP_ADD_V => Some (vec2 f32_add a b c)
  | OP_SUB_F => Some (flt2 f32_sub a b c)
  | OP_SUB_V => Some (vec2 f32_sub a b c)
  | OP_MUL_F => Some (flt2 f32_mul a b c)
  | OP_MUL_V => Some
      (x0 ← g_float a; y0 ← g_float b;
       x1 ← g_float (a + 1); y1 ← g_float (b + 1);
       x2 ← g_float (a + 2); y2 ← g_float (b + 2);
       g_set_float c (f32_add (f32_add (f32_mul x0 y0) (f32_mul x1 y1)) (f32_mul x2 y2)))
  | OP_MUL_FV => Some (scale a b c)
  | OP_MUL_VF => Some (scale b a c)
  | OP_DIV_F => Some (flt2 f32_div a b c)
  | OP_BITAND => Some (flt2 (int2 Z.land) a b c)
  | OP_BITOR => Some (flt2 (int2 Z.lor) a b c)
  | _ => None
  end.

Definition cmp2 (f : f32 -> f32 -> bool) : Z -> Z -> Z -> M unit := flt2 (fun x y => f_bool (f x y)).

(** [&&], which looks at its second operand only when the first is true. *)
Definition and_then (p q : M bool) : M bool := x ← p; if (x : bool) then q else mret false.
Definition neg (p : M bool) : M bool := x ← p; mret (negb x).

Definition is_true (a : Z) : M bool := x ← g_float a; mret (f_truth x).
Definition same_f (a b : Z) : M bool := x ← g_float a; y ← g_float b; mret (f_eqb x y).
Definition eq_v (a b : Z) : M bool :=
  and_then (and_then (same_f a b) (same_f (a + 1) (b + 1))) (same_f (a + 2) (b + 2)).
Definition set_bool (c : Z) (p : M bool) : M unit := x ← p; g_set_float c (f_bool x).

Definition cmp_s (a b : Z) : M Z :=
  x ← g_int a; y ← g_int b; s ← string_at x; t ← string_at y; mret (strcmp s t).

Definition cmp_i (a b : Z) : M bool := x ← g_int a; y ← g_int b; mret (x =? y).

(** C: Source/pr_exec.c:448-518 OP_GE *)
Definition op_compare (o : opcode) (a b c : Z) : option (M unit) :=
  match o with
  | OP_GE => Some (cmp2 (fun x y => f_leb y x) a b c)
  | OP_LE => Some (cmp2 f_leb a b c)
  | OP_GT => Some (cmp2 (fun x y => f_ltb y x) a b c)
  | OP_LT => Some (cmp2 f_ltb a b c)
  | OP_AND => Some (set_bool c (and_then (is_true a) (is_true b)))
  | OP_OR => Some (set_bool c (neg (and_then (neg (is_true a)) (neg (is_true b)))))
  | OP_NOT_F => Some (set_bool c (neg (is_true a)))
  | OP_NOT_V => Some
      (set_bool c (and_then (and_then (neg (is_true a)) (neg (is_true (a + 1)))) (neg (is_true (a + 2)))))
  | OP_NOT_S => Some
      (x ← g_int a;
       b ← (if x =? 0 then mret true else s ← string_at x; mret (bool_decide (s = [])));
       g_set_float c (f_bool b))
  | OP_NOT_FNC => Some (set_bool c (x ← g_int a; mret (x =? 0)))
  | OP_NOT_ENT => Some (set_bool c (x ← g_int a; mret (x =? 0)))
  | OP_EQ_F => Some (cmp2 f_eqb a b c)
  | OP_EQ_V => Some (set_bool c (eq_v a b))
  | OP_EQ_S => Some (set_bool c (r ← cmp_s a b; mret (r =? 0)))
  | OP_EQ_E => Some (set_bool c (cmp_i a b))
  | OP_EQ_FNC => Some (set_bool c (cmp_i a b))
  | OP_NE_F => Some (cmp2 (fun x y => negb (f_eqb x y)) a b c)
  | OP_NE_V => Some (set_bool c (neg (eq_v a b)))
  | OP_NE_S => Some (r ← cmp_s a b; g_set_float c (f32_of_Z r))
  | OP_NE_E => Some (set_bool c (neg (cmp_i a b)))
  | OP_NE_FNC => Some (set_bool c (neg (cmp_i a b)))
  | _ => None
  end.

(** The three words of a vector, copied one after the other. *)
Definition copy_v (rd : Z -> M Z) (wr : Z -> Z -> M unit) (step_r step_w src dst : Z) : M unit :=
  w ← rd src; wr dst w;;
  w ← rd (src + step_r); wr (dst + step_w) w;;
  w ← rd (src + 2 * step_r); wr (dst + 2 * step_w) w.

(** C: Source/pr_exec.c:521-547 OP_STORE_F *)
Definition op_store (o : opcode) (a b c : Z) : option (M unit) :=
  match o with
  | OP_STORE_F | OP_STORE_ENT | OP_STORE_FLD | OP_STORE_S | OP_STORE_FNC => Some (w ← g_get a; g_set b w)
  | OP_STORE_V => Some (copy_v g_get g_set 1 1 a b)
  | OP_STOREP_F | OP_STOREP_ENT | OP_STOREP_FLD | OP_STOREP_S | OP_STOREP_FNC => Some
      (ptr ← g_int b; w ← g_get a; e_set ptr w)
  | OP_STOREP_V => Some (ptr ← g_int b; copy_v g_get e_set 1 4 a ptr)
  | _ => None
  end.

(** C: Source/pr_exec.c:549-581 OP_ADDRESS *)
Definition op_field (o : opcode) (a b c : Z) : option (M unit) :=
  match o with
  | OP_ADDRESS => Some
      (ed ← g_int a;
       active ← get sv_active;
       (if (ed =? 0) && active then PR_RunError "assignment to world entity" else mret tt);;
       fld ← g_int b;
       g_set c (u32 (field_ofs ed fld)))
  | OP_LOAD_F | OP_LOAD_FLD | OP_LOAD_ENT | OP_LOAD_S | OP_LOAD_FNC => Some
      (ed ← g_int a; fld ← g_int b; w ← e_get (field_ofs ed fld); g_set c w)
  | OP_LOAD_V => Some
      (ed ← g_int a; fld ← g_int b; copy_v e_get g_set 4 1 (field_ofs ed fld) c)
  | _ => None
  end.

(** C: Source/pr_exec.c:637-649 OP_STATE *)
Definition op_state (a b : Z) : M unit :=
  ed ← g_int ofs_self;
  t ← g_float ofs_time;
  e_set (field_ofs ed v_nextthink)
    (bits_of_f32 (f32_of_f64 (f64_add (f64_of_f32 t) (f64_div (f64_of_Z 1) (f64_of_Z 10)))));;
  x ← g_float a;
  w ← e_get (field_ofs ed v_frame);
  (if negb (f_eqb x (f32_of_bits w)) then w ← g_get a; e_set (field_ofs ed v_frame) w else mret tt);;
  w ← g_get b;
  e_set (field_ofs ed v_think) w.

Definition call_args (o : opcode) : option Z :=
  match o with
  | OP_CALL0 => Some 0 | OP_CALL1 => Some 1 | OP_CALL2 => Some 2 | OP_CALL3 => Some 3 | OP_CALL4 => Some 4
  | OP_CALL5 => Some 5 | OP_CALL6 => Some 6 | OP_CALL7 => Some 7 | OP_CALL8 => Some 8
  | _ => None
  end.

(** A call: the statement to go on after.
    C: Source/pr_exec.c:608-624 pr_argc *)
Definition op_call (argc a s : Z) : M Z :=
  modify (set_pr_argc argc);;
  f ← g_int a;
  if f =? 0 then PR_RunError "NULL function"
  else
    d ← function_at f;
    if first_statement d <? 0 then
      let i := - first_statement d in
      if pr_numbuiltins <=? i then PR_RunError "Bad builtin call number"
      else builtin i;; mret s
    else PR_EnterFunction f.

(** C: Source/pr_exec.c:628-632 OFS_RETURN *)
Definition op_return (a : Z) : M Z :=
  copy_v g_get g_set 1 1 a OFS_RETURN;;
  PR_LeaveFunction.

(** A statement: the statement to go on after, or [None] when the program has returned to
    where it was called.
    C: Source/pr_exec.c:396-653 OP_IFNOT *)
Definition exec_statement (exitdepth s : Z) (t : dstatement) : M (option Z) :=
  let a := st_a t in
  let b := st_b t in
  let c := st_c t in
  let next (m : option (M unit)) (k : M (option Z)) : M (option Z) :=
    match m with Some m => m;; mret (Some s) | None => k end in
  match opcode_of (st_op t) with
  | None => PR_RunError "Bad opcode %i"
  | Some o =>
      next (op_arith o a b c)
        (next (op_compare o a b c)
           (next (op_store o a b c)
              (next (op_field o a b c)
                 match call_args o with
                 | Some argc => s ← op_call argc a s; mret (Some s)
                 | None =>
                     match o with
                     | OP_IFNOT => x ← g_int a; mret (Some (if x =? 0 then s + b - 1 else s))
                     | OP_IF => x ← g_int a; mret (Some (if x =? 0 then s else s + b - 1))
                     | OP_GOTO => mret (Some (s + a - 1))
                     | OP_STATE => op_state a b;; mret (Some s)
                     | _ =>
                         s ← op_return a;
                         depth ← get pr_depth;
                         mret (if depth =? exitdepth then None else Some s)
                     end
                 end)))
  end.

(** The interpretation loop: [runaway] is the counter of the code, so there is nothing else
    to bound it.
    C: Source/pr_exec.c:378-394 runaway *)
Fixpoint exec_loop (runaway : nat) (exitdepth s : Z) : M unit :=
  match runaway with
  | O => throw OutOfFuel
  | S runaway =>
      let s := s + 1 in
      match at_index (statements progs) s with
      | None => throw (Undefined "outside the statements")
      | Some t =>
          match runaway with
          | O => PR_RunError "runaway loop error"
          | S _ =>
              f ← get pr_xfunction;
              n ← get profile;
              (match at_index n f with
               | Some p => modify (set_profile (<[Z.to_nat f := s32 (p + 1)]> n))
               | None => throw (Undefined "no running function")
               end);;
              modify (set_pr_xstatement s);;
              r ← exec_statement exitdepth s t;
              match r with
              | None => mret tt
              | Some s => exec_loop runaway exitdepth s
              end
          end
      end
  end.

Definition RUNAWAY : Z := 100000.

(** C: Source/pr_exec.c:353-376 PR_ExecuteProgram *)
Definition PR_ExecuteProgram (fnum : Z) : M unit :=
  if (fnum =? 0) || (zlen (functions progs) <=? fnum)
  then throw (Host_Error "PR_ExecuteProgram: NULL function")
  else
    exitdepth ← get pr_depth;
    s ← PR_EnterFunction fnum;
    exec_loop (Z.to_nat RUNAWAY) exitdepth s.

End machine.

(** * Steps that leave the stacks alone *)

(** The state of the two stacks. *)
Definition same_frames (st st' : vm) : Prop :=
  pr_stack st' = pr_stack st /\ pr_depth st' = pr_depth st /\ localstack st' = localstack st /\
  localstack_used st' = localstack_used st /\ pr_xfunction st' = pr_xfunction st.

Lemma same_frames_trans st1 st2 st3 : same_frames st1 st2 -> same_frames st2 st3 -> same_frames st1 st3.
Proof. unfold same_frames. intros (?&?&?&?&?) (?&?&?&?&?). split_and!; congruence. Qed.

Definition frameless {A} (m : M A) : Prop := forall st a st', m st = Ret a st' -> same_frames st st'.

Create HintDb vm.

Lemma frameless_ret {A} (a : A) : frameless (mret a).
Proof. intros st b st' H. injection H as _ <-. done. Qed.
Lemma frameless_bind {A B} (m : M A) (k : A -> M B) :
  frameless m -> (forall a, frameless (k a)) -> frameless (m ≫= k).
Proof.
  intros Hm Hk st b st'. unfold mbind, M_bind. destruct (m st) as [a st1|] eqn:E; [|done]. intros H.
  eapply same_frames_trans; [by eapply Hm|by eapply Hk].
Qed.
Lemma frameless_if {A} (b : bool) (m k : M A) : frameless m -> frameless k -> frameless (if b then m else k).
Proof. by destruct b. Qed.
Lemma frameless_throw {A} f : frameless (throw f : M A).
Proof. intros st a st' H. discriminate H. Qed.
Lemma frameless_get {A} (f : vm -> A) : frameless (get f).
Proof. intros st a st' H. injection H as _ <-. done. Qed.
Lemma frameless_g_get i : frameless (g_get i).
Proof. intros st a st'. unfold g_get. destruct (at_index _ _); [|done]. intros H; inversion H; subst; done. Qed.
Lemma frameless_g_set i w : frameless (g_set i w).
Proof. intros st a st'. unfold g_set. destruct (at_index _ _); [|done]. intros H; inversion H; subst; done. Qed.
Lemma frameless_e_get i : frameless (e_get i).
Proof. intros st a st'. unfold e_get. case_if; [done|]. destruct (at_index _ _); [|done]. intros H; inversion H; subst; done. Qed.
Lemma frameless_e_set i w : frameless (e_set i w).
Proof. intros st a st'. unfold e_set. case_if; [done|]. destruct (at_index _ _); [|done]. intros H; inversion H; subst; done. Qed.
Lemma frameless_string i : frameless (string_at i).
Proof. intros st a st'. unfold string_at. repeat case_match; try done; intros Hr; inversion Hr; subst; done. Qed.
Lemma frameless_error {A} msg : frameless (PR_RunError msg : M A).
Proof.
  intros st a st'. unfold PR_RunError, mbind, M_bind, modify, throw. destruct (PR_StackTrace st); done.
Qed.
#[export] Hint Resolve frameless_ret frameless_throw frameless_get frameless_g_get
  frameless_g_set frameless_e_get frameless_e_set frameless_string frameless_error : vm.

(** A value statement does not touch the stacks. *)
Ltac frameless := intros; repeat first
  [ solve [auto 1 with vm] | apply frameless_if | apply frameless_bind; intros | case_match ].

Lemma op_arith_frameless o a b c m : op_arith o a b c = Some m -> frameless m.
Proof.
  destruct o; try discriminate 1; cbn [op_arith]; injection 1 as <-;
    unfold flt2, vec2, scale, g_set_float, g_float; frameless.
Qed.
Lemma op_compare_frameless o a b c m : op_compare o a b c = Some m -> frameless m.
Proof.
  destruct o; try discriminate 1; cbn [op_compare]; injection 1 as <-;
    unfold cmp2, flt2, set_bool, eq_v, cmp_s, cmp_i, and_then, neg, is_true, same_f, g_set_float, g_float, g_int; frameless.
Qed.
Lemma op_store_frameless o a b c m : op_store o a b c = Some m -> frameless m.
Proof.
  destruct o; try discriminate 1; cbn [op_store]; injection 1 as <-; unfold copy_v, g_int; frameless.
Qed.
Lemma op_field_frameless o a b c m : op_field o a b c = Some m -> frameless m.
Proof.
  destruct o; try discriminate 1; cbn [op_field]; injection 1 as <-; unfold copy_v, g_int; frameless.
Qed.
Lemma op_state_frameless a b : frameless (op_state a b).
Proof. unfold op_state, g_int, g_float. frameless. Qed.
Lemma copy_words_frameless n : forall dst src, frameless (copy_words n dst src).
Proof. induction n; intros; cbn; frameless. Qed.
Lemma copy_parms_frameless n : forall i o sizes, frameless (copy_parms n i o sizes).
Proof.
  induction n as [|n IH]; intros i o sizes; cbn; [frameless|]. destruct sizes; [frameless|].
  apply frameless_bind; [apply copy_words_frameless|]. intros _. apply IH.
Qed.
Lemma copy_v_frameless src dst : frameless (copy_v g_get g_set 1 1 src dst).
Proof. unfold copy_v. frameless. Qed.

(** * Calls and returns *)

Lemma bind_Ret_inv {A B} (m : M A) (k : A -> M B) st b st' :
  (m ≫= k) st = Ret b st' -> exists a st1, m st = Ret a st1 /\ k a st1 = Ret b st'.
Proof. unfold mbind, M_bind. destruct (m st) as [a st1|]; [|done]. intros H. by exists a, st1. Qed.

(** Take a run of binds that returned apart. *)
Ltac returned H :=
  let a := fresh "r" in let st := fresh "st" in let Hm := fresh "Hm" in
  apply bind_Ret_inv in H as (a & st & Hm & H).

Lemma at_index_some {A} (l : list A) i x :
  at_index l i = Some x -> 0 <= i /\ l !! Z.to_nat i = Some x /\ i < zlen l.
Proof.
  unfold at_index. case_if; [done|]. intros H. split; [lia|]. split; [done|]. apply lookup_lt_Some in H. lia.
Qed.

Definition vm_ok (st : vm) : Prop :=
  zlen (pr_stack st) = MAX_STACK_DEPTH /\ zlen (localstack st) = LOCALSTACK_SIZE /\
  0 <= pr_depth st < MAX_STACK_DEPTH /\ 0 <= localstack_used st <= LOCALSTACK_SIZE.

(** The functions being executed, the outermost first, the running one last. *)
Definition chain (st : vm) : list Z := (snd <$> take (Z.to_nat (pr_depth st)) (pr_stack st)) ++ [pr_xfunction st].

Lemma same_frames_chain st st' : same_frames st st' -> chain st' = chain st.
Proof. unfold same_frames, chain. intros (-> & -> & _ & _ & ->). done. Qed.

Lemma same_frames_ok st st' : same_frames st st' -> vm_ok st -> vm_ok st'.
Proof. unfold same_frames, vm_ok. intros (-> & -> & -> & -> & _). done. Qed.

Lemma chain_length st : vm_ok st -> zlen (chain st) = pr_depth st + 1.
Proof.
  intros (H1 & _ & H3 & _). unfold chain. rewrite length_app, length_fmap, length_take. cbn. unfold MAX_STACK_DEPTH in *. lia.
Qed.

Lemma error_not_ret {A} (b : bool) msg st (a : A) (k : M A) st' :
  (if b then PR_RunError msg else k) st = Ret a st' -> b = false /\ k st = Ret a st'.
Proof.
  destruct b; [|done]. unfold PR_RunError, mbind, M_bind, modify, throw. by destruct (PR_StackTrace st).
Qed.

Lemma lift_ret {A} (r : res A) st a st' : lift r st = Ret a st' -> r = Ok a /\ st' = st.
Proof. destruct r; cbn; [|done]. intros H. injection H as -> ->. done. Qed.

Section balance.

Variable progs : program.
Variable builtin : Z -> M unit.
Variable pr_numbuiltins : Z.

Definition loc (f : Z) : Z := match at_index (functions progs) f with Some d => locals d | None => 0 end.
Definition sum_loc (fs : list Z) : Z := foldr (fun f n => loc f + n) 0 fs.

Lemma sum_loc_app fs gs : sum_loc (fs ++ gs) = sum_loc fs + sum_loc gs.
Proof. unfold sum_loc. induction fs as [|f fs IH]; cbn; [done|]. lia. Qed.

Lemma function_at_ret f st d st' :
  function_at progs f st = Ret d st' -> st' = st /\ at_index (functions progs) f = Some d.
Proof. unfold function_at. destruct (at_index _ _); [|done]. intros H. injection H as -> ->. done. Qed.

(** The words of the globals a function keeps its parameters and locals in. *)
Definition region (f : Z) (gs : list Z) : list Z :=
  match at_index (functions progs) f with
  | Some d => slice gs (parm_start d) (locals d)
  | None => []
  end.

Lemma save_locals_ret d st a st' :
  0 <= locals d -> 0 <= localstack_used st -> save_locals d st = Ret a st' ->
  exists ls, st' = set_localstack ls st /\ length ls = length (localstack st) /\
    take (Z.to_nat (localstack_used st + locals d)) ls =
      take (Z.to_nat (localstack_used st)) (localstack st) ++ slice (pr_globals st) (parm_start d) (locals d).
Proof.
  intros Hl Hu H. unfold save_locals in H. returned H. injection Hm as <- <-. returned H.
  apply lift_ret in Hm as [Hw ->]. returned H. apply lift_ret in Hm as [Hs ->]. inversion H; subst; clear H.
  eexists. split; [done|]. split; [by apply store_length in Hs|]. rewrite Z.max_l in * by lia.
  destruct (Z.eqb_spec (locals d) 0) as [Hz|Hz]; unfold load in Hw; case_if_in Hw; try done; injection Hw as <-.
  - rewrite Hz in *. unfold slice in *. cbn in *. unfold store, splice in Hs. cbn in Hs. case_if_in Hs; [|done]. injection Hs as <-.
    by rewrite drop_0, Z.add_0_r, app_nil_r.
  - unfold store in Hs. case_if_in Hs; [|done]. injection Hs as <-.
    replace (Z.to_nat (localstack_used st + locals d)) with
      (Z.to_nat (localstack_used st) + length (slice (pr_globals st) (parm_start d) (locals d)))%nat
      by (pose proof (slice_length (pr_globals st) (parm_start d) (locals d)); lia).
    apply take_splice_through. lia.
Qed.

Lemma restore_locals_ret d st a st' :
  0 <= locals d -> 0 <= localstack_used st -> restore_locals d st = Ret a st' ->
  same_frames st st' /\
  slice (pr_globals st') (parm_start d) (locals d) = slice (localstack st) (localstack_used st) (locals d).
Proof.
  intros Hl Hu H. unfold restore_locals in H. returned H. injection Hm as <- <-. returned H.
  apply lift_ret in Hm as [Hw ->]. returned H. apply lift_ret in Hm as [Hs ->]. inversion H; subst; clear H.
  split; [done|]. rewrite Z.max_l in * by lia. cbn.
  destruct (Z.eqb_spec (locals d) 0) as [Hz|Hz]; unfold load in Hw; case_if_in Hw; try done; injection Hw as <-.
  - replace (locals d) with 0 in * by lia. done.
  - unfold store in Hs. case_if_in Hs; [|done]. injection Hs as <-.
    pose proof (slice_length (localstack st) (localstack_used st) (locals d)) as Hn.
    rewrite <- (slice_splice_same (pr_globals st) (Z.to_nat (parm_start d)) (slice (localstack st) (localstack_used st) (locals d))) at 2 by lia.
    rewrite Hn by lia. by rewrite Z2Nat.id by lia.
Qed.

Lemma Enter_ok f st s st' :
  vm_ok st -> 0 <= loc f -> PR_EnterFunction progs f st = Ret s st' ->
  vm_ok st' /\ chain st' = chain st ++ [f] /\ localstack_used st' = localstack_used st + loc f /\
  take (Z.to_nat (localstack_used st')) (localstack st') =
    take (Z.to_nat (localstack_used st)) (localstack st) ++ region f (pr_globals st).
Proof.
  intros (H1 & H2 & H3 & H4) Hloc H. unfold PR_EnterFunction in H.
  returned H. apply function_at_ret in Hm as [-> Hd]. rename r into d.
  assert (loc f = locals d) as Hl by (unfold loc; by rewrite Hd). rewrite Hl in *.
  returned H. injection Hm as <- <-. returned H.
  destruct (at_index (pr_stack st) (pr_depth st)) eqn:Hi; [|done]. injection Hm as <- <-.
  returned H. injection Hm as _ <-. returned H. injection Hm as <- <-.
  returned H. apply error_not_ret in Hm as [Hdepth Hm]. injection Hm as _ <-. cbn in Hdepth.
  returned H. injection Hm as <- <-. returned H. apply error_not_ret in Hm as [Hused Hm]. injection Hm as _ <-. cbn in Hused.
  returned H. apply save_locals_ret in Hm as (ls & -> & Hls & Htk); [|done|cbn; lia]. cbn in Hls, Htk.
  returned H. injection Hm as _ <-. returned H. apply copy_parms_frameless in Hm as (E1 & E2 & E3 & E4 & E5). cbn in E1, E2, E3, E4, E5.
  returned H. injection Hm as _ <-. injection H as <- <-. cbn.
  split; [|split; [|split; [by rewrite E4|]]].
  - unfold vm_ok. cbn. rewrite E1, E2, E3, E4, length_insert. unfold MAX_STACK_DEPTH, LOCALSTACK_SIZE in *. lia.
  - unfold chain. cbn. rewrite E1, E2. f_equal. apply at_index_some in Hi as (_ & Hi & Hlt).
    replace (Z.to_nat (pr_depth st + 1)) with (S (Z.to_nat (pr_depth st))) by lia.
    rewrite (take_S_r _ _ (pr_xstatement st, pr_xfunction st)) by (apply list_lookup_insert_eq; lia).
    rewrite take_insert_ge by lia. by rewrite fmap_app.
  - rewrite E3, E4, Htk. unfold region. by rewrite Hd.
Qed.

Lemma Leave_ok st s st' :
  vm_ok st -> PR_LeaveFunction progs st = Ret s st' -> 0 <= loc (pr_xfunction st) ->
  vm_ok st' /\ chain st = chain st' ++ [pr_xfunction st] /\
  localstack_used st' = localstack_used st - loc (pr_xfunction st) /\ localstack st' = localstack st /\
  region (pr_xfunction st) (pr_globals st') =
    slice (localstack st) (localstack_used st') (loc (pr_xfunction st)).
Proof.
  intros (H1 & H2 & H3 & H4) H Hloc. unfold PR_LeaveFunction in H.
  returned H. injection Hm as <- <-. destruct (Z.leb_spec (pr_depth st) 0) as [|Hpos]; [done|].
  returned H. injection Hm as <- <-. returned H. apply function_at_ret in Hm as [-> Hd]. rename r into d.
  assert (loc (pr_xfunction st) = locals d) as Hl by (unfold loc; by rewrite Hd). rewrite Hl in *.
  returned H. injection Hm as _ <-. returned H. injection Hm as <- <-.
  returned H. apply error_not_ret in Hm as [Hused Hm]. injection Hm as _ <-. cbn in Hused.
  returned H. apply restore_locals_ret in Hm as ((E1 & E2 & E3 & E4 & E5) & Hr); [|done|cbn; lia].
  cbn in E1, E2, E3, E4, E5, Hr.
  returned H. injection Hm as _ <-. returned H. injection Hm as <- <-. cbn in H.
  rewrite E1 in H.
  destruct (at_index (pr_stack st) (pr_depth st - 1)) as [[s' f']|] eqn:Hi; [|done]. returned H. injection Hm as _ <-. injection H as <- <-.
  cbn. split; [|split; [|split; [by rewrite E4|split; [done|]]]].
  - unfold vm_ok. cbn. rewrite E1, E3, E4. unfold MAX_STACK_DEPTH, LOCALSTACK_SIZE in *. lia.
  - unfold chain. cbn. rewrite E1. f_equal. apply at_index_some in Hi as (_ & Hi & Hlt).
    replace (Z.to_nat (pr_depth st)) with (S (Z.to_nat (pr_depth st - 1))) by lia.
    rewrite (take_S_r _ _ _ Hi). by rewrite fmap_app.
  - unfold region. rewrite Hd, E4. exact Hr.
Qed.

(** What is asked of the built-in functions: one that returns leaves the call chain and the
    words that are saved on the locals stack as it found them (they may execute programs in
    turn). *)
Definition balanced (m : M unit) : Prop := forall st st', vm_ok st -> m st = Ret tt st' ->
  vm_ok st' /\ chain st' = chain st /\ localstack_used st' = localstack_used st /\
  take (Z.to_nat (localstack_used st)) (localstack st') = take (Z.to_nat (localstack_used st)) (localstack st).

Hypothesis locals_nonneg : Forall (fun d => 0 <= locals d) (functions progs).
Hypothesis builtin_balanced : forall i, balanced (builtin i).

Lemma loc_nonneg f : 0 <= loc f.
Proof.
  unfold loc. destruct (at_index _ _) as [d|] eqn:E; [|lia]. apply at_index_some in E as (_ & E & _).
  by eapply (Forall_lookup_1 _ _ _ _ locals_nonneg E).
Qed.

Lemma sum_loc_nonneg fs : 0 <= sum_loc fs.
Proof. induction fs as [|f fs IH]; cbn; [done|]. pose proof (loc_nonneg f). unfold sum_loc in IH. lia. Qed.

(** Where execution stands relative to the call of [f0] in [st0]: the functions entered since
    [f0] was, and the words saved up to that call, which are still on the locals stack. *)
Definition entered (st0 : vm) (f0 : Z) (saved : list Z) (st : vm) (fs : list Z) : Prop :=
  vm_ok st /\ chain st = chain st0 ++ f0 :: fs /\
  localstack_used st = localstack_used st0 + loc f0 + sum_loc fs /\
  zlen saved = localstack_used st0 + loc f0 /\ take (length saved) (localstack st) = saved.

Lemma entered_same st0 f0 sv st st' fs : entered st0 f0 sv st fs -> same_frames st st' -> entered st0 f0 sv st' fs.
Proof.
  intros (H1 & H2 & H3 & H4 & H5) Hs. split; [by eapply same_frames_ok|]. rewrite (same_frames_chain _ _ Hs). split; [done|].
  destruct Hs as (_ & _ & -> & -> & _). done.
Qed.

Lemma entered_depth st0 f0 sv st fs :
  vm_ok st0 -> entered st0 f0 sv st fs -> pr_depth st = pr_depth st0 + 1 + zlen fs.
Proof.
  intros H0 (H1 & H2 & _). apply (f_equal (fun l => zlen l)) in H2. rewrite length_app in H2. cbn in H2.
  pose proof (chain_length _ H0). pose proof (chain_length _ H1). lia.
Qed.

(** Words saved later lie above the ones saved by the call. *)
Lemma saved_kept st0 f0 sv st fs ls tl :
  entered st0 f0 sv st fs ->
  take (Z.to_nat (localstack_used st + zlen tl)) ls = take (Z.to_nat (localstack_used st)) (localstack st) ++ tl ->
  take (length sv) ls = sv.
Proof.
  intros (Hv & _ & H3 & H4 & H5) H. pose proof (sum_loc_nonneg fs). destruct Hv as (_ & Hl & _ & Hr).
  rewrite <- H5 at 2. transitivity (take (length sv) (take (Z.to_nat (localstack_used st + zlen tl)) ls)).
  { rewrite take_take. f_equal. lia. }
  rewrite H, take_app_le, take_take by (rewrite length_take; lia). f_equal. lia.
Qed.

Lemma region_length f st : vm_ok st -> forall st' s, PR_EnterFunction progs f st = Ret s st' ->
  zlen (region f (pr_globals st)) = loc f.
Proof.
  intros Hv st' s H. destruct (Enter_ok _ _ _ _ Hv (loc_nonneg _) H) as ((_ & Hl' & _ & Hr') & _ & Hu & Ht).
  apply (f_equal (fun l => zlen l)) in Ht. rewrite length_app, !length_take in Ht.
  pose proof Hv as (_ & Hl & _ & Hr). pose proof (loc_nonneg f). lia.
Qed.

Lemma enter_entered st0 f0 sv st fs f s st' :
  entered st0 f0 sv st fs -> PR_EnterFunction progs f st = Ret s st' -> entered st0 f0 sv st' (fs ++ [f]).
Proof.
  intros He H. pose proof He as (Hv & Hc & Hu & Hs & Ht).
  destruct (Enter_ok _ _ _ _ Hv (loc_nonneg _) H) as (Hv' & Hc' & Hu' & Ht').
  split; [done|]. rewrite Hc', Hc, <- app_assoc. split; [done|]. rewrite sum_loc_app. cbn.
  split; [lia|]. split; [done|]. eapply saved_kept; [exact He|]. rewrite (region_length _ _ Hv _ _ H), <- Hu'. exact Ht'.
Qed.

Lemma enter_first f st s st' : vm_ok st -> PR_EnterFunction progs f st = Ret s st' ->
  entered st f (take (Z.to_nat (localstack_used st)) (localstack st) ++ region f (pr_globals st)) st' [].
Proof.
  intros Hv H. destruct (Enter_ok _ _ _ _ Hv (loc_nonneg _) H) as (Hv' & Hc' & Hu' & Ht').
  pose proof (region_length _ _ Hv _ _ H) as Hn. pose proof Hv as (_ & Hl & _ & Hr).
  assert (zlen (take (Z.to_nat (localstack_used st)) (localstack st) ++ region f (pr_globals st)) =
    localstack_used st + loc f) as Hlen by (rewrite length_app, length_take; lia).
  split; [done|]. split; [done|]. split; [cbn; lia|]. split; [done|]. rewrite <- Ht' at 2. f_equal. lia.
Qed.

Lemma call_entered st0 f0 sv st fs argc a s s' st' :
  entered st0 f0 sv st fs -> op_call progs builtin pr_numbuiltins argc a s st = Ret s' st' ->
  exists fs', entered st0 f0 sv st' fs'.
Proof.
  intros He H. unfold op_call in H. returned H. injection Hm as _ <-.
  apply bind_Ret_inv in H as (f & st2 & Hm & H).
  assert (frameless (g_int a)) as Hg by (unfold g_int; frameless). apply Hg in Hm.
  assert (entered st0 f0 sv st2 fs) as He2 by (eapply entered_same; [|exact Hm]; exact He). clear Hm Hg.
  apply error_not_ret in H as [_ H]. returned H. apply function_at_ret in Hm as [-> Hd].
  destruct (first_statement _ <? 0).
  - apply error_not_ret in H as [_ H]. returned H. match goal with x : unit |- _ => destruct x end. injection H as _ <-.
    pose proof He2 as (Hv & Hc & Hu & Hs & Ht). destruct (builtin_balanced _ _ _ Hv Hm) as (Hv' & Hc' & Hu' & Ht').
    exists fs. split; [done|]. split; [congruence|]. split; [congruence|]. split; [done|].
    eapply (saved_kept _ _ _ _ _ _ [] He2). by rewrite Z.add_0_r, app_nil_r.
  - eexists. by eapply enter_entered.
Qed.

(** The call ended: the function [f0] was left. *)
Definition left_call (st0 : vm) (f0 : Z) (saved : list Z) (st' : vm) : Prop :=
  exists st s, entered st0 f0 saved st [] /\ PR_LeaveFunction progs st = Ret s st'.

(** A statement either goes on inside the call or has just left it. *)
Definition goes_on (st0 : vm) (f0 : Z) (saved : list Z) (r : option Z) (st' : vm) : Prop :=
  match r with
  | None => left_call st0 f0 saved st'
  | Some _ => exists fs, entered st0 f0 saved st' fs
  end.

Lemma return_entered st0 f0 sv st fs a (r : option Z) st' :
  vm_ok st0 -> entered st0 f0 sv st fs ->
  (s ← op_return progs a; depth ← get pr_depth;
   mret (if depth =? pr_depth st0 then None else Some s) : M (option Z)) st = Ret r st' ->
  goes_on st0 f0 sv r st'.
Proof.
  intros H0 He Hx. apply bind_Ret_inv in Hx as (s2 & st2 & Hm & Hx). apply bind_Ret_inv in Hx as (dep & st3 & Hg & Hx).
  injection Hg as <- <-. unfold op_return in Hm. apply bind_Ret_inv in Hm as (x1 & st1 & Hm0 & Hm).
  apply copy_v_frameless in Hm0. pose proof (entered_same _ _ _ _ _ _ He Hm0) as He1.
  pose proof He1 as (Hv & Hc & Hu & Hs & Ht). destruct (Leave_ok _ _ _ Hv Hm (loc_nonneg _)) as (Hv' & Hc' & Hu' & Hl' & _).
  pose proof (entered_depth _ _ _ _ _ H0 He1) as Hdep.
  pose proof (chain_length _ Hv) as Hcl. pose proof (chain_length _ Hv') as Hcl'.
  apply (f_equal (fun l => zlen l)) in Hc' as Hn. rewrite length_app in Hn. cbn in Hn.
  injection Hx as <- <-. destruct (Z.eqb_spec (pr_depth st2) (pr_depth st0)) as [Heq|Hne]; cbn.
  - destruct fs as [|]; [|cbn in Hdep; lia]. by exists st1, s2.
  - destruct fs as [|f fs _] using rev_ind; [cbn in Hdep; lia|].
    rewrite Hc', app_comm_cons, app_assoc in Hc. apply app_inj_tail in Hc as [Hc Hf].
    rewrite sum_loc_app in Hu. cbn in Hu. exists fs. split; [done|]. split; [done|]. rewrite Hf in Hu'. split; [lia|].
    rewrite Hl'. done.
Qed.

Lemma statement_entered st0 f0 sv st fs s t r st' :
  vm_ok st0 -> entered st0 f0 sv st fs ->
  exec_statement progs builtin pr_numbuiltins (pr_depth st0) s t st = Ret r st' ->
  goes_on st0 f0 sv r st'.
Proof.
  intros H0 He H. unfold exec_statement in H.
  assert (forall m : M unit, frameless m -> (m;; mret (Some s)) st = Ret r st' -> goes_on st0 f0 sv r st') as Hq.
  { intros m Hm Hx. returned Hx. injection Hx as <- <-. exists fs. eapply entered_same; [exact He|]. by eapply Hm. }
  assert (forall k, (x ← g_int (st_a t); mret (Some (k x)) : M (option Z)) st = Ret r st' -> goes_on st0 f0 sv r st') as Hb.
  { intros k Hx. assert (frameless (g_int (st_a t))) as Hg by (unfold g_int; frameless).
    returned Hx. injection Hx as <- <-. exists fs. eapply entered_same; [exact He|by eapply Hg]. }
  destruct (opcode_of (st_op t)) as [o|].
  2: { by apply (error_not_ret true "Bad opcode %i" st r (mret None) st') in H as [? _]. }
  destruct (op_arith o _ _ _) eqn:E1; [eapply Hq; [by eapply op_arith_frameless|exact H]|].
  destruct (op_compare o _ _ _) eqn:E2; [eapply Hq; [by eapply op_compare_frameless|exact H]|].
  destruct (op_store o _ _ _) eqn:E3; [eapply Hq; [by eapply op_store_frameless|exact H]|].
  destruct (op_field o _ _ _) eqn:E4; [eapply Hq; [by eapply op_field_frameless|exact H]|].
  destruct (call_args o) as [argc|] eqn:E5.
  { returned H. injection H as <- <-. by eapply call_entered. }
  destruct o; try discriminate E1; try discriminate E2; try discriminate E3; try discriminate E4; try discriminate E5.
  all: try by eapply return_entered.
  - by eapply (Hb (fun x => if x =? 0 then s else s + st_b t - 1)).
  - by eapply (Hb (fun x => if x =? 0 then s + st_b t - 1 else s)).
  - apply (Hq (op_state (st_a t) (st_b t))); [apply op_state_frameless|exact H].
  - injection H as <- <-. by exists fs.
Qed.

Lemma loop_entered st0 f0 sv n : forall st fs s st',
  vm_ok st0 -> entered st0 f0 sv st fs ->
  exec_loop progs builtin pr_numbuiltins n (pr_depth st0) s st = Ret tt st' -> left_call st0 f0 sv st'.
Proof.
  induction n as [|n IH]; intros st fs s st' H0 He H; [done|]. cbn [exec_loop] in H.
  destruct (at_index (statements progs) (s + 1)) as [t|]; [|done].
  destruct n as [|n].
  { by apply (error_not_ret true "runaway loop error" st tt (mret tt) st') in H as [? _]. }
  returned H. injection Hm as <- <-. returned H. injection Hm as <- <-. returned H.
  destruct (at_index (profile st) (pr_xfunction st)); [|done]. injection Hm as _ <-. returned H. injection Hm as _ <-.
  apply bind_Ret_inv in H as (r3 & st2 & Hm & H).
  eapply statement_entered in Hm; [|done|eapply entered_same; [exact He|done]].
  destruct r3 as [s'|]; [|injection H as <-; exact Hm].
  destruct Hm as (fs' & He'). by eapply (IH st2 fs' s').
Qed.

Lemma Execute_left fnum st st' :
  vm_ok st -> PR_ExecuteProgram progs builtin pr_numbuiltins fnum st = Ret tt st' ->
  left_call st fnum (take (Z.to_nat (localstack_used st)) (localstack st) ++ region fnum (pr_globals st)) st'.
Proof.
  intros H0 H. unfold PR_ExecuteProgram in H. destruct (_ || _); [done|]. returned H. injection Hm as <- <-.
  apply bind_Ret_inv in H as (s & st1 & Hm & H). eapply loop_entered; [done|by eapply enter_first|exact H].
Qed.

Lemma Execute_ok fnum st st' :
  vm_ok st -> PR_ExecuteProgram progs builtin pr_numbuiltins fnum st = Ret tt st' ->
  (vm_ok st' /\ chain st' = chain st /\ localstack_used st' = localstack_used st /\
   take (Z.to_nat (localstack_used st)) (localstack st') = take (Z.to_nat (localstack_used st)) (localstack st)) /\
  region fnum (pr_globals st') = region fnum (pr_globals st).
Proof.
  intros H0 H. destruct (Execute_left _ _ _ H0 H) as (st2 & s & (Hv & Hc & Hu & Hs & Ht) & HL).
  destruct (Leave_ok _ _ _ Hv HL (loc_nonneg _)) as (Hv' & Hc' & Hu' & Hl' & Hr').
  rewrite Hc in Hc'. apply app_inj_tail in Hc' as [Hc' Hf]. rewrite <- Hf in *. cbn in Hu.
  assert (localstack_used st' = localstack_used st) as Hus by lia. rewrite Hus in *.
  destruct H0 as (_ & Hll & _ & Hrr). rewrite length_app, length_take in Hs. pose proof (loc_nonneg fnum).
  split; [split; [done|]; split; [done|]; split; [done|]|].
  - rewrite Hl'. apply (f_equal (take (Z.to_nat (localstack_used st)))) in Ht.
    rewrite take_take, length_app, length_take in Ht.
    rewrite take_app_le, take_take in Ht by (rewrite length_take; lia).
    etransitivity; [|etransitivity; [exact Ht|]]; f_equal; lia.
  - rewrite Hr'. apply (f_equal (drop (Z.to_nat (localstack_used st)))) in Ht.
    rewrite drop_app_ge in Ht by (rewrite length_take; lia). rewrite length_take in Ht.
    replace (_ - _)%nat with 0%nat in Ht by lia. rewrite drop_0 in Ht. rewrite <- Ht at 1.
    unfold slice. rewrite take_drop_commute. f_equal. f_equal. rewrite length_app, length_take. lia.
Qed.

End balance.

(** * Termination *)

(** Steps that always come to an end: what they throw is never a lack of fuel. *)
Definition ends {A} (m : M A) : Prop := forall st f st', m st = Throw f st' -> f <> OutOfFuel.

Lemma ends_bind {A B} (m : M A) (k : A -> M B) : ends m -> (forall a, ends (k a)) -> ends (m ≫= k).
Proof.
  intros Hm Hk st f st'. unfold mbind, M_bind. destruct (m st) as [a st1|g st1] eqn:E.
  - apply Hk.
  - intros H. injection H as <- <-. by eapply Hm.
Qed.
Lemma ends_ret {A} (a : A) : ends (mret a).
Proof. intros st f st' H. discriminate H. Qed.
Lemma ends_if {A} (b : bool) (m k : M A) : ends m -> ends k -> ends (if b then m else k).
Proof. by destruct b. Qed.
Lemma ends_get {A} (f : vm -> A) : ends (get f).
Proof. intros st g st' H. discriminate H. Qed.
Lemma ends_modify f : ends (modify f).
Proof. intros st g st' H. discriminate H. Qed.
Lemma ends_throw {A} f : f <> OutOfFuel -> ends (throw f : M A).
Proof. intros Hf st g st' H. injection H as <- <-. done. Qed.
Lemma ends_g_get i : ends (g_get i).
Proof. intros st g st'. unfold g_get. case_match; [done|]. by intros [= <- <-]. Qed.
Lemma ends_g_set i w : ends (g_set i w).
Proof. intros st g st'. unfold g_set. case_match; [done|]. by intros [= <- <-]. Qed.
Lemma ends_e_get i : ends (e_get i).
Proof. intros st g st'. unfold e_get. case_match; [by intros [= <- <-]|]. case_match; [done|]. by intros [= <- <-]. Qed.
Lemma ends_e_set i w : ends (e_set i w).
Proof. intros st g st'. unfold e_set. case_match; [by intros [= <- <-]|]. case_match; [done|]. by intros [= <- <-]. Qed.
Lemma ends_string i : ends (string_at i).
Proof. intros st g st'. unfold string_at. repeat case_match; try done; by intros [= <- <-]. Qed.
Lemma ends_trace : ends PR_StackTrace.
Proof. intros st g st'. unfold PR_StackTrace. repeat case_match; try done; by intros [= <- <-]. Qed.
Lemma ends_error {A} msg : ends (PR_RunError msg : M A).
Proof.
  unfold PR_RunError. apply ends_bind; [apply ends_trace|]. intros _. apply ends_bind; [apply ends_modify|].
  intros _. by apply ends_throw.
Qed.
Lemma ends_load l o n : ends (lift (load l o n)).
Proof. intros st g st'. unfold lift, load. case_match eqn:E; [done|]. intros [= <- <-]. case_match; by simplify_eq. Qed.
Lemma ends_store l o d : ends (lift (store l o d)).
Proof. intros st g st'. unfold lift, store. case_match eqn:E; [done|]. intros [= <- <-]. case_match; by simplify_eq. Qed.
#[export] Hint Resolve ends_ret ends_get ends_modify ends_g_get ends_g_set ends_e_get ends_e_set ends_string
  ends_error ends_load ends_store : vm.

Ltac ends := intros; repeat first
  [ solve [auto 1 with vm] | solve [apply ends_throw; discriminate] | apply ends_if | apply ends_bind; intros | case_match ].

Lemma ends_arith o a b c m : op_arith o a b c = Some m -> ends m.
Proof.
  destruct o; try discriminate 1; cbn [op_arith]; injection 1 as <-;
    unfold flt2, vec2, scale, g_set_float, g_float; ends.
Qed.
Lemma ends_compare o a b c m : op_compare o a b c = Some m -> ends m.
Proof.
  destruct o; try discriminate 1; cbn [op_compare]; injection 1 as <-;
    unfold cmp2, flt2, set_bool, eq_v, cmp_s, cmp_i, and_then, neg, is_true, same_f, g_set_float, g_float, g_int; ends.
Qed.
Lemma ends_op_store o a b c m : op_store o a b c = Some m -> ends m.
Proof. destruct o; try discriminate 1; cbn [op_store]; injection 1 as <-; unfold copy_v, g_int; ends. Qed.
Lemma ends_field o a b c m : op_field o a b c = Some m -> ends m.
Proof. destruct o; try discriminate 1; cbn [op_field]; injection 1 as <-; unfold copy_v, g_int; ends. Qed.
Lemma ends_copy_words n : forall dst src, ends (copy_words n dst src).
Proof. induction n; intros; cbn; ends. Qed.
Lemma ends_copy_parms n : forall i o sizes, ends (copy_parms n i o sizes).
Proof.
  induction n as [|n IH]; intros i o sizes; cbn; [ends|]. destruct sizes; [ends|].
  apply ends_bind; [apply ends_copy_words|]. intros _. apply IH.
Qed.
Lemma ends_function_at progs f : ends (function_at progs f).
Proof. unfold function_at. ends. Qed.
#[export] Hint Resolve ends_copy_parms ends_function_at : vm.

Lemma ends_enter progs f : ends (PR_EnterFunction progs f).
Proof. unfold PR_EnterFunction, save_locals. ends. Qed.
Lemma ends_leave progs : ends (PR_LeaveFunction progs).
Proof. unfold PR_LeaveFunction, restore_locals. ends. Qed.
#[export] Hint Resolve ends_enter ends_leave : vm.

Lemma ends_statement progs builtin nb d s t :
  (forall i, ends (builtin i)) -> ends (exec_statement progs builtin nb d s t).
Proof.
  intros Hb. unfold exec_statement. destruct (opcode_of (st_op t)) as [o|]; [|ends].
  destruct (op_arith o _ _ _) eqn:E1; [apply ends_arith in E1; ends|].
  destruct (op_compare o _ _ _) eqn:E2; [apply ends_compare in E2; ends|].
  destruct (op_store o _ _ _) eqn:E3; [apply ends_op_store in E3; ends|].
  destruct (op_field o _ _ _) eqn:E4; [apply ends_field in E4; ends|].
  destruct (call_args o) as [argc|]; [unfold op_call, g_int; ends|].
  destruct o; unfold op_return, op_state, copy_v, g_int, g_float; ends.
Qed.

Lemma ends_loop progs builtin nb n : forall d s,
  (forall i, ends (builtin i)) -> (0 < n)%nat -> ends (exec_loop progs builtin nb n d s).
Proof.
  induction n as [|n IH]; intros d s Hb Hn; [lia|]. cbn [exec_loop].
  destruct (at_index (statements progs) (s + 1)) as [t|]; [|ends]. destruct n as [|n]; [ends|].
  ends; try (by apply ends_statement). apply IH; [done|lia].
Qed.

(** * Errors and the locals stack *)

(** Steps that give nothing of the locals stack back, whether they return or end in an
    error. *)
Definition grows {A} (m : M A) : Prop := forall st,
  match m st with
  | Ret _ st' | Throw (Host_Error _) st' => localstack_used st <= localstack_used st'
  | Throw _ _ => True
  end.

Lemma grows_bind {A B} (m : M A) (k : A -> M B) : grows m -> (forall a, grows (k a)) -> grows (m ≫= k).
Proof.
  intros Hm Hk st. specialize (Hm st). unfold mbind, M_bind. destruct (m st) as [a st1|[]]; try done.
  specialize (Hk a st1). destruct (k a st1) as [|[]]; try done; lia.
Qed.
Lemma grows_ret {A} (a : A) : grows (mret a).
Proof. intros st. unfold mret, M_ret. lia. Qed.
Lemma grows_if {A} (b : bool) (m k : M A) : grows m -> grows k -> grows (if b then m else k).
Proof. by destruct b. Qed.
Lemma grows_throw {A} f : grows (throw f : M A).
Proof. intros st. unfold throw. destruct f; try done; lia. Qed.
Lemma grows_get {A} (f : vm -> A) : grows (get f).
Proof. intros st. unfold get. lia. Qed.
Lemma grows_modify f : (forall st, localstack_used st <= localstack_used (f st)) -> grows (modify f).
Proof. intros H st. apply H. Qed.
Lemma grows_g_get i : grows (g_get i).
Proof. intros st. unfold g_get. repeat case_match; simplify_eq; try done; lia. Qed.
Lemma grows_g_set i w : grows (g_set i w).
Proof. intros st. unfold g_set. repeat case_match; simplify_eq; cbn; try done; lia. Qed.
Lemma grows_e_get i : grows (e_get i).
Proof. intros st. unfold e_get. repeat case_match; simplify_eq; try done; lia. Qed.
Lemma grows_e_set i w : grows (e_set i w).
Proof. intros st. unfold e_set. repeat case_match; simplify_eq; cbn; try done; lia. Qed.
Lemma grows_string i : grows (string_at i).
Proof. intros st. unfold string_at. repeat case_match; simplify_eq; try done; lia. Qed.
Lemma grows_trace : grows PR_StackTrace.
Proof. intros st. unfold PR_StackTrace. repeat case_match; simplify_eq; cbn; try done; lia. Qed.
Lemma grows_error {A} msg : grows (PR_RunError msg : M A).
Proof.
  apply grows_bind; [apply grows_trace|]. intros _. apply grows_bind; [apply grows_modify; intros; cbn; lia|].
  intros _. apply grows_throw.
Qed.
Lemma grows_load l o n : grows (lift (load l o n)).
Proof. intros st. unfold lift, load. repeat case_match; simplify_eq; try done; lia. Qed.
Lemma grows_store l o d : grows (lift (store l o d)).
Proof. intros st. unfold lift, store. repeat case_match; simplify_eq; try done; lia. Qed.
#[export] Hint Resolve grows_ret grows_throw grows_get grows_g_get grows_g_set grows_e_get grows_e_set grows_string
  grows_error grows_load grows_store : vm.

Ltac grows := intros; repeat first
  [ solve [auto 1 with vm] | solve [apply grows_modify; intros; cbn; lia] | apply grows_if | apply grows_bind; intros
  | case_match ].

Lemma grows_arith o a b c m : op_arith o a b c = Some m -> grows m.
Proof.
  destruct o; try discriminate 1; cbn [op_arith]; injection 1 as <-;
    unfold flt2, vec2, scale, g_set_float, g_float; grows.
Qed.
Lemma grows_compare o a b c m : op_compare o a b c = Some m -> grows m.
Proof.
  destruct o; try discriminate 1; cbn [op_compare]; injection 1 as <-;
    unfold cmp2, flt2, set_bool, eq_v, cmp_s, cmp_i, and_then, neg, is_true, same_f, g_set_float, g_float, g_int; grows.
Qed.
Lemma grows_op_store o a b c m : op_store o a b c = Some m -> grows m.
Proof. destruct o; try discriminate 1; cbn [op_store]; injection 1 as <-; unfold copy_v, g_int; grows. Qed.
Lemma grows_field o a b c m : op_field o a b c = Some m -> grows m.
Proof. destruct o; try discriminate 1; cbn [op_field]; injection 1 as <-; unfold copy_v, g_int; grows. Qed.
Lemma grows_copy_words n : forall dst src, grows (copy_words n dst src).
Proof. induction n; intros; cbn; grows. Qed.
Lemma grows_copy_parms n : forall i o sizes, grows (copy_parms n i o sizes).
Proof.
  induction n as [|n IH]; intros i o sizes; cbn; [grows|]. destruct sizes; [grows|].
  apply grows_bind; [apply grows_copy_words|]. intros _. apply IH.
Qed.
#[export] Hint Resolve grows_copy_parms : vm.

(** What is asked of the built-in functions: one that ends in an error leaves what was in use
    of the locals stack in use. *)
Definition uses_up (m : M unit) : Prop := forall st e st', vm_ok st -> m st = Throw (Host_Error e) st' ->
  localstack_used st <= localstack_used st'.

Lemma grows_uses_up (m : M unit) : grows m -> uses_up m.
Proof. intros H st e st' _ E. specialize (H st). by rewrite E in H. Qed.

Lemma grows_error_inv {A} (m : M A) st e st' : grows m -> m st = Throw (Host_Error e) st' ->
  localstack_used st <= localstack_used st'.
Proof. intros H E. specialize (H st). by rewrite E in H. Qed.

Lemma bind_Throw_inv {A B} (m : M A) (k : A -> M B) st f st' : (m ≫= k) st = Throw f st' ->
  m st = Throw f st' \/ exists a st1, m st = Ret a st1 /\ k a st1 = Throw f st'.
Proof.
  unfold mbind, M_bind. destruct (m st) as [a st1|g st1]; intros H; [right; by exists a, st1|].
  injection H as <- <-. by left.
Qed.

Section errors_keep.

Variable progs : program.
Variable builtin : Z -> M unit.
Variable pr_numbuiltins : Z.
Hypothesis locals_nonneg : Forall (fun d => 0 <= locals d) (functions progs).
Hypothesis builtin_balanced : forall i, balanced (builtin i).
Hypothesis builtin_uses_up : forall i, uses_up (builtin i).

Lemma grows_function_at f : grows (function_at progs f).
Proof. unfold function_at. grows. Qed.

Lemma enter_grows f : grows (PR_EnterFunction progs f).
Proof.
  unfold PR_EnterFunction. intros st. unfold mbind at 1, M_bind at 1, function_at.
  destruct (at_index (functions progs) f) as [d|] eqn:E; [|done]. 
  apply at_index_some in E as (_ & E & _). pose proof (Forall_lookup_1 _ _ _ _ locals_nonneg E) as Hd. cbn in Hd.
  revert st. change (grows (st ← get (fun st => st);
    stack ← match at_index (pr_stack st) (pr_depth st) with
            | Some _ => mret (<[Z.to_nat (pr_depth st) := (pr_xstatement st, pr_xfunction st)]> (pr_stack st))
            | None => throw (Undefined "pr_stack overrun")
            end;
    modify (fun st => set_pr_depth (pr_depth st + 1) (set_pr_stack stack st));;
    depth ← get pr_depth;
    (if MAX_STACK_DEPTH <=? depth then PR_RunError "stack overflow" else mret tt);;
    used ← get localstack_used;
    (if LOCALSTACK_SIZE <? used + locals d then PR_RunError "PR_ExecuteProgram: locals stack overflow" else mret tt);;
    save_locals d;;
    modify (fun st => set_localstack_used (localstack_used st + locals d) st);;
    copy_parms (Z.to_nat (numparms d)) 0 (parm_start d) (parm_size d);;
    modify (set_pr_xfunction f);;
    mret (first_statement d - 1))). unfold save_locals. grows.
Qed.

(** Leaving a function that was entered in this call does not underflow the locals stack. *)
Lemma leave_error st0 f0 sv st fs e st' : entered progs st0 f0 sv st fs -> vm_ok st0 ->
  PR_LeaveFunction progs st = Throw (Host_Error e) st' -> False.
Proof.
  intros (Hv & Hc & Hu & _) H0 H. unfold PR_LeaveFunction in H.
  assert (loc progs (pr_xfunction st) <= localstack_used st) as Hle.
  { destruct H0 as (_ & _ & _ & H0). unfold chain in Hc.
    destruct fs as [|f fs _] using rev_ind.
    - apply app_inj_tail in Hc as [_ ->]. cbn in Hu. lia.
    - rewrite app_comm_cons, app_assoc in Hc. apply app_inj_tail in Hc as [_ ->]. rewrite sum_loc_app in Hu. cbn in Hu.
      pose proof (loc_nonneg progs locals_nonneg f0). pose proof (sum_loc_nonneg progs locals_nonneg fs). lia. }
  apply bind_Throw_inv in H as [H|(dep & st1 & H1 & H)]; [done|]. injection H1 as <- <-. destruct (Z.leb_spec (pr_depth st) 0) as [|_]; [done|].
  apply bind_Throw_inv in H as [H|(f & st1 & H1 & H)]; [done|]. injection H1 as <- <-.
  apply bind_Throw_inv in H as [H|(d & st1 & H1 & H)]; [unfold function_at in H; case_match; done|].
  apply function_at_ret in H1 as [-> Hd]. unfold loc in Hle. rewrite Hd in Hle.
  apply bind_Throw_inv in H as [H|([] & st1 & H1 & H)]; [done|]. injection H1 as <-.
  apply bind_Throw_inv in H as [H|(u & st1 & H1 & H)]; [done|]. injection H1 as <- <-. cbn in H.
  destruct (Z.ltb_spec (localstack_used st - locals d) 0) as [|_]; [lia|].
  apply bind_Throw_inv in H as [H|([] & st1 & H1 & H)]; [done|].
  apply bind_Throw_inv in H as [H|([] & st2 & H2 & H)].
  - unfold restore_locals, mbind, M_bind, get, lift, load, store, modify in H. repeat case_match; simplify_eq.
  - apply bind_Throw_inv in H as [H|([] & st3 & H3 & H)]; [done|]. 
    apply bind_Throw_inv in H as [H|(s & st4 & H4 & H)]; [done|]. case_match; [|done]. case_match. done.
Qed.

Lemma call_error st argc a s e st' : vm_ok st ->
  op_call progs builtin pr_numbuiltins argc a s st = Throw (Host_Error e) st' -> localstack_used st <= localstack_used st'.
Proof.
  intros Hv H. unfold op_call in H. apply bind_Throw_inv in H as [H|([] & st1 & H1 & H)]; [done|]. injection H1 as <-.
  assert (grows (g_int a)) as Hg by (unfold g_int; grows).
  assert (frameless (g_int a)) as Hf by (unfold g_int; frameless).
  apply bind_Throw_inv in H as [H|(f & st2 & H1 & H)]; [by apply (grows_error_inv _ _ _ _ Hg H)|].
  apply Hf in H1. assert (vm_ok st2) as Hv2 by (by eapply same_frames_ok).
  destruct H1 as (_ & _ & _ & Hu & _). cbn in Hu. rewrite <- Hu. clear Hu Hg Hf Hv.
  case_if_in H; [by eapply grows_error_inv, H; apply grows_error|].
  apply bind_Throw_inv in H as [H|(d & st3 & H1 & H)]; [by eapply grows_error_inv, H; apply grows_function_at|].
  apply function_at_ret in H1 as [-> _].
  case_if_in H; [|by eapply grows_error_inv, H; apply enter_grows].
  case_if_in H; [by eapply grows_error_inv, H; apply grows_error|].
  apply bind_Throw_inv in H as [H|(x & st3 & H1 & H)]; [|done]. by eapply builtin_uses_up.
Qed.

Lemma entered_used st0 f0 sv st fs : entered progs st0 f0 sv st fs -> localstack_used st0 + loc progs f0 <= localstack_used st.
Proof. intros (_ & _ & -> & _). pose proof (sum_loc_nonneg progs locals_nonneg fs). lia. Qed.

Lemma statement_error st0 f0 sv st fs d s t e st' : vm_ok st0 -> entered progs st0 f0 sv st fs ->
  exec_statement progs builtin pr_numbuiltins d s t st = Throw (Host_Error e) st' ->
  localstack_used st <= localstack_used st'.
Proof.
  intros H0 He H. unfold exec_statement in H.
  assert (forall m : M (option Z), grows m -> m st = Throw (Host_Error e) st' -> localstack_used st <= localstack_used st') as Hq
    by (intros m Hm; by apply grows_error_inv).
  destruct (opcode_of (st_op t)) as [o|]; [|by eapply Hq, H; apply grows_error].
  destruct (op_arith o _ _ _) eqn:E1; [apply grows_arith in E1; eapply Hq, H; grows|].
  destruct (op_compare o _ _ _) eqn:E2; [apply grows_compare in E2; eapply Hq, H; grows|].
  destruct (op_store o _ _ _) eqn:E3; [apply grows_op_store in E3; eapply Hq, H; grows|].
  destruct (op_field o _ _ _) eqn:E4; [apply grows_field in E4; eapply Hq, H; grows|].
  destruct (call_args o) as [argc|] eqn:E5.
  { apply bind_Throw_inv in H as [H|(x & st3 & _ & H)]; [|done]. eapply call_error; [apply He|exact H]. }
  assert ((s ← op_return progs (st_a t); depth ← get pr_depth; mret (if depth =? d then None else Some s) : M (option Z)) st =
    Throw (Host_Error e) st' -> localstack_used st <= localstack_used st') as Hr.
  { clear H. intros H. apply bind_Throw_inv in H as [H|(x & st3 & _ & H)]; [|by apply bind_Throw_inv in H as [H|(?&?&_&H)]].
    unfold op_return in H. apply bind_Throw_inv in H as [H|(x & st1 & H1 & H)].
    - eapply grows_error_inv, H. unfold copy_v. grows.
    - apply copy_v_frameless in H1. exfalso. eapply leave_error, H; [by eapply entered_same|done]. }
  destruct o; try discriminate E1; try discriminate E2; try discriminate E3; try discriminate E4; try discriminate E5.
  all: try exact (Hr H). all: eapply Hq, H; unfold op_state, g_int, g_float; grows.
Qed.

Lemma loop_error st0 f0 sv n : forall st fs s e st', vm_ok st0 -> entered progs st0 f0 sv st fs ->
  exec_loop progs builtin pr_numbuiltins n (pr_depth st0) s st = Throw (Host_Error e) st' ->
  localstack_used st0 + loc progs f0 <= localstack_used st'.
Proof.
  induction n as [|n IH]; intros st fs s e st' H0 He H; [done|]. cbn [exec_loop] in H.
  pose proof (entered_used _ _ _ _ _ He) as Hu.
  destruct (at_index (statements progs) (s + 1)) as [t|]; [|done].
  destruct n as [|n]; [apply grows_error_inv in H; [lia|apply grows_error]|].
  apply bind_Throw_inv in H as [H|(f & st1 & H1 & H)]; [done|]. injection H1 as <- <-.
  apply bind_Throw_inv in H as [H|(pf & st1 & H1 & H)]; [done|]. injection H1 as <- <-.
  apply bind_Throw_inv in H as [H|(x & st1 & H1 & H)]; [case_match; done|].
  destruct (at_index (profile st) (pr_xfunction st)); [|done]. injection H1 as _ <-.
  apply bind_Throw_inv in H as [H|(x2 & st1 & H1 & H)]; [done|]. injection H1 as _ <-.
  match type of H with _ ?s2 = _ => assert (entered progs st0 f0 sv s2 fs) as He2 by (by eapply entered_same) end.
  apply bind_Throw_inv in H as [H|(r & st2 & H1 & H)].
  - eapply statement_error in H; [|done..]. cbn in H. lia.
  - eapply statement_entered in H1; [|done..]. destruct r as [s'|]; [|done].
    destruct H1 as (fs' & He'). by eapply IH.
Qed.

Lemma execute_error fnum st e st' : vm_ok st ->
  PR_ExecuteProgram progs builtin pr_numbuiltins fnum st = Throw (Host_Error e) st' ->
  localstack_used st <= localstack_used st' /\
  (forall s st1, fnum <> 0 -> PR_EnterFunction progs fnum st = Ret s st1 ->
     localstack_used st + loc progs fnum <= localstack_used st').
Proof.
  intros H0 H. pose proof (loc_nonneg progs locals_nonneg fnum) as Hl. unfold PR_ExecuteProgram in H.
  destruct ((fnum =? 0) || _) eqn:Ef.
  { injection H as _ <-. split; [lia|]. intros s st1 Hf HE. unfold PR_EnterFunction in HE.
    apply bind_Ret_inv in HE as (d & st2 & HE & _). apply function_at_ret in HE as [_ HE].
    apply at_index_some in HE. bool_props; lia. }
  apply bind_Throw_inv in H as [H|(dp & st1 & H1 & H)]; [done|]. injection H1 as <- <-.
  apply bind_Throw_inv in H as [H|(s & st1 & H1 & H)].
  - split; [by eapply grows_error_inv, H; apply enter_grows|]. intros s st1 _ HE. by rewrite HE in H.
  - eapply loop_error in H; [|done|by eapply enter_first]. split; [lia|]. done.
Qed.

End errors_keep.

(** * Theorems *)

(** A program that returns leaves the machine as it found it: the stacks are within their
    bounds, the chain of functions being executed is the same one, as much of the locals
    stack is in use and the words saved there are the same.  The built-in functions it calls
    are only asked to do as much, and a built-in function that executes programs does. *)
Theorem PR_ExecuteProgram_balanced progs builtin pr_numbuiltins fnum :
  Forall (fun d => 0 <= locals d) (functions progs) -> (forall i, balanced (builtin i)) ->
  balanced (PR_ExecuteProgram progs builtin pr_numbuiltins fnum).
Proof. intros Hl Hb st st' H0 H. by eapply Execute_ok. Qed.

(** C4: A program that returns has restored the words of the globals its function keeps its
    parameters and locals in, whatever it called, itself included. *)
Theorem PR_ExecuteProgram_locals progs builtin pr_numbuiltins fnum st st' :
  Forall (fun d => 0 <= locals d) (functions progs) -> (forall i, balanced (builtin i)) -> vm_ok st ->
  PR_ExecuteProgram progs builtin pr_numbuiltins fnum st = Ret tt st' ->
  region progs fnum (pr_globals st') = region progs fnum (pr_globals st).
Proof. intros Hl Hb H0 H. by eapply Execute_ok. Qed.

(** C39: Every program comes to an end when the built-in functions do: the runaway counter
    bounds the loop, whatever the statements are. *)
Theorem PR_ExecuteProgram_ends progs builtin pr_numbuiltins fnum st :
  (forall i, ends (builtin i)) ->
  match PR_ExecuteProgram progs builtin pr_numbuiltins fnum st with
  | Ret _ _ => True
  | Throw f _ => f <> OutOfFuel
  end.
Proof.
  intros Hb. assert (ends (PR_ExecuteProgram progs builtin pr_numbuiltins fnum)) as H.
  { unfold PR_ExecuteProgram. ends. apply ends_loop; [done|]. unfold RUNAWAY. lia. }
  destruct (PR_ExecuteProgram _ _ _ _ st) eqn:E; [done|]. by eapply H.
Qed.

(** ** Programs that end in an error *)

Section errors.

Variable progs : program.
Variable builtin : Z -> M unit.
Variable pr_numbuiltins : Z.
Variable f : Z.
Variable d : dfunction.
Hypothesis f_at : at_index (functions progs) f = Some d.
Hypothesis f_pos : 0 < f.

(** A function without parameters can be entered here. *)
Definition can_enter (st : vm) : Prop :=
  vm_ok st /\ pr_depth st + 1 < MAX_STACK_DEPTH /\ localstack_used st + locals d <= LOCALSTACK_SIZE /\
  0 <= locals d /\ 0 <= parm_start d /\ parm_start d + locals d <= zlen (pr_globals st) /\ numparms d = 0 /\
  f < zlen (profile st).

Lemma enter_plain st : can_enter st -> exists st',
  PR_EnterFunction progs f st = Ret (first_statement d - 1) st' /\
  zlen (pr_stack st') = MAX_STACK_DEPTH /\ pr_depth st' = pr_depth st + 1 /\
  localstack_used st' = localstack_used st + locals d /\ pr_xfunction st' = f /\ profile st' = profile st /\
  pr_globals st' = pr_globals st.
Proof.
  intros ((H1 & H2 & H3 & H4) & H5 & H6 & H7 & H8 & H9 & H10 & H11). unfold MAX_STACK_DEPTH, LOCALSTACK_SIZE in *.
  unfold PR_EnterFunction, function_at. rewrite f_at. unfold mbind, M_bind, get, mret, M_ret.
  destruct (lookup_lt_is_Some_2 (pr_stack st) (Z.to_nat (pr_depth st))) as [fr Hfr]; [lia|].
  unfold at_index at 1. destruct (Z.ltb_spec (pr_depth st) 0); [lia|]. rewrite Hfr.
  cbn -[load store slice]. unfold MAX_STACK_DEPTH, LOCALSTACK_SIZE.
  destruct (Z.leb_spec 32 (pr_depth st + 1)); [lia|].
  unfold save_locals, mbind, M_bind, get. cbn -[load store slice].
  destruct (Z.ltb_spec 2048 (localstack_used st + locals d)); [lia|]. cbn -[load store slice]. rewrite Z.max_l by lia.
  rewrite load_ok by (destruct (Z.eqb_spec (locals d) 0); lia). cbn -[load store slice].
  rewrite store_ok by (rewrite ?slice_length; destruct (Z.eqb_spec (locals d) 0); lia). cbn -[slice splice]. rewrite H10. cbn -[slice splice].
  eexists. split; [done|]. cbn. rewrite length_insert. split_and!; done.
Qed.

Lemma run_error st {A} msg : zlen (pr_stack st) = MAX_STACK_DEPTH -> 0 < pr_depth st < MAX_STACK_DEPTH ->
  exists st', (PR_RunError msg : M A) st = Throw (Host_Error msg) st' /\ pr_depth st' = 0 /\
    localstack_used st' = localstack_used st /\ profile st' = profile st.
Proof.
  intros H1 H2. unfold PR_RunError, PR_StackTrace, mbind, M_bind, modify, throw. destruct (Z.eqb_spec (pr_depth st) 0); [lia|].
  destruct (lookup_lt_is_Some_2 (pr_stack st) (Z.to_nat (pr_depth st))) as [[s g] Hfr]; [lia|].
  unfold at_index. destruct (Z.ltb_spec (pr_depth st) 0); [lia|]. rewrite Hfr. eexists. split; [done|]. done.
Qed.

Lemma execute_entered st : can_enter st -> exists st',
  PR_ExecuteProgram progs builtin pr_numbuiltins f st =
    exec_loop progs builtin pr_numbuiltins (Z.to_nat RUNAWAY) (pr_depth st) (first_statement d - 1) st' /\
  zlen (pr_stack st') = MAX_STACK_DEPTH /\ pr_depth st' = pr_depth st + 1 /\
  localstack_used st' = localstack_used st + locals d /\ pr_xfunction st' = f /\ profile st' = profile st.
Proof.
  intros H. destruct (enter_plain _ H) as (st' & E & E1 & E2 & E3 & E4 & E5 & E6). exists st'. split; [|done].
  unfold PR_ExecuteProgram. destruct (Z.eqb_spec f 0); [lia|]. apply at_index_some in f_at as (_ & _ & Hlt).
  destruct (Z.leb_spec (zlen (functions progs)) f); [lia|]. cbn. unfold mbind, M_bind, get. by rewrite E.
Qed.

End errors.

Lemma at_index_lt {A} (l : list A) i : 0 <= i < zlen l -> exists x, at_index l i = Some x.
Proof.
  intros H. destruct (lookup_lt_is_Some_2 l (Z.to_nat i)) as [x Hx]; [lia|]. exists x. unfold at_index.
  by destruct (Z.ltb_spec i 0); [lia|].
Qed.

(** A jump to itself uses up the whole counter. *)
Lemma goto_self progs builtin nb n : forall exitdepth s st p b c,
  at_index (statements progs) (s + 1) = Some (Stmt 61 0 b c) -> zlen (pr_stack st) = MAX_STACK_DEPTH ->
  0 < pr_depth st < MAX_STACK_DEPTH -> at_index (profile st) (pr_xfunction st) = Some p -> is_int p ->
  exists st', exec_loop progs builtin nb (S n) exitdepth s st = Throw (Host_Error "runaway loop error") st' /\
    pr_depth st' = 0 /\ localstack_used st' = localstack_used st /\
    at_index (profile st') (pr_xfunction st) = Some (s32 (p + Z.of_nat n)).
Proof.
  induction n as [|n IH]; intros exitdepth s st p b c Hs H1 H2 Hp Hi.
  - cbn [exec_loop]. rewrite Hs. destruct (run_error st (A:=unit) "runaway loop error" H1 H2) as (st' & E & E1 & E2 & E3).
    exists st'. split; [done|]. split; [done|]. split; [done|]. rewrite E3, Hp. f_equal. unfold is_int, INT_MAX, INT_MIN in Hi.
    rewrite s32_id; lia.
  - remember (S n) as m. cbn [exec_loop]. rewrite Hs. subst m. unfold mbind at 1, M_bind at 1, get at 1.
    unfold mbind at 1, M_bind at 1, get at 1. rewrite Hp.
    pose proof (at_index_some _ _ _ Hp) as (Hx & Hl & Hlt).
    set (st1 := set_pr_xstatement (s + 1) (set_profile (<[Z.to_nat (pr_xfunction st) := s32 (p + 1)]> (profile st)) st)).
    edestruct (IH exitdepth s st1 (s32 (p + 1)) b c) as (st' & E & E1 & E2 & E3); [done..| | |].
    + cbn. unfold at_index. destruct (Z.ltb_spec (pr_xfunction st) 0); [lia|]. apply list_lookup_insert_eq. lia.
    + pose proof (s32_range (p + 1)). unfold is_int, INT_MAX, INT_MIN. lia.
    + exists st'. split.
      { change (exec_loop progs builtin nb (S n) exitdepth (s + 1 + 0 - 1) st1 = Throw (Host_Error "runaway loop error") st').
        by replace (s + 1 + 0 - 1) with s by lia. } split; [done|]. split; [done|]. cbn in E3. rewrite E3. f_equal.
      wrap_lia.
Qed.

(** A function that jumps to itself is stopped: after 99,999 statements, which the
    function's profile counter shows, the program ends in an error with the call stack
    empty. *)
Theorem runaway_stopped progs builtin pr_numbuiltins f d st p b c :
  at_index (functions progs) f = Some d -> 0 < f -> can_enter f d st ->
  at_index (statements progs) (first_statement d) = Some (Stmt 61 0 b c) ->
  at_index (profile st) f = Some p -> is_int p ->
  exists st', PR_ExecuteProgram progs builtin pr_numbuiltins f st = Throw (Host_Error "runaway loop error") st' /\
    pr_depth st' = 0 /\ at_index (profile st') f = Some (s32 (p + 99999)).
Proof.
  intros Hf Hpos Hc Hs Hp Hi. destruct (execute_entered progs builtin pr_numbuiltins f d Hf Hpos st Hc) as (st1 & E & E1 & E2 & E3 & E4 & E5).
  destruct Hc as (Hv & Hd & _). destruct Hv as (_ & _ & Hr & _). rewrite <- E5 in Hp. rewrite <- E4 in Hp.
  replace (first_statement d) with (first_statement d - 1 + 1) in Hs by lia.
  destruct (goto_self progs builtin pr_numbuiltins (Z.to_nat 99999) (pr_depth st) _ st1 p b c Hs E1 ltac:(lia) Hp Hi) as (st' & F1 & F2 & F3 & F4).
  exists st'. rewrite E. split; [|split; [done|]].
  - replace (Z.to_nat RUNAWAY) with (S (Z.to_nat 99999)) by (unfold RUNAWAY; lia). exact F1.
  - rewrite <- E4, F4. f_equal.
Qed.

(** A program that ends in an error is as little able to give locals back to its caller: a
    built-in function that executes programs is one that uses the locals stack up. *)
Theorem PR_ExecuteProgram_uses_up progs builtin pr_numbuiltins fnum :
  Forall (fun d => 0 <= locals d) (functions progs) -> (forall i, balanced (builtin i)) ->
  (forall i, uses_up (builtin i)) -> uses_up (PR_ExecuteProgram progs builtin pr_numbuiltins fnum).
Proof. intros Hl Hb Hu st e st' H0 H. by eapply execute_error. Qed.

(** C40: A program that ends in an error, at whatever statement and however deep in its
    calls, does not give back its part of the locals stack: what was in use before it is
    still in use, and if its function was entered, the function's words on top of that. *)
Theorem error_keeps_localstack progs builtin pr_numbuiltins fnum st e st' :
  Forall (fun d => 0 <= locals d) (functions progs) -> (forall i, balanced (builtin i)) ->
  (forall i, uses_up (builtin i)) -> vm_ok st ->
  PR_ExecuteProgram progs builtin pr_numbuiltins fnum st = Throw (Host_Error e) st' ->
  localstack_used st <= localstack_used st' /\
  (forall s st1, fnum <> 0 -> PR_EnterFunction progs fnum st = Ret s st1 ->
     localstack_used st + loc progs fnum <= localstack_used st').
Proof. intros Hl Hb Hu H0 H. by eapply execute_error. Qed.

Lemma run_error_overrun {A} st msg : 0 < pr_depth st -> pr_depth st = zlen (pr_stack st) ->
  (PR_RunError msg : M A) st = Throw (Undefined "pr_stack overrun") st.
Proof.
  intros H0 H. unfold PR_RunError, PR_StackTrace, mbind, M_bind. destruct (Z.eqb_spec (pr_depth st) 0); [lia|].
  unfold at_index. destruct (Z.ltb_spec (pr_depth st) 0); [lia|]. by rewrite lookup_ge_None_2 by lia.
Qed.

(** The call that makes the call stack overflow is not reported as an error: the depth has
    been raised to the size of the stack by then, and the stack trace of the report writes to
    the entry past its end. *)
Theorem stack_overflow_overrun progs f d st :
  at_index (functions progs) f = Some d -> vm_ok st -> pr_depth st = MAX_STACK_DEPTH - 1 ->
  exists st', PR_EnterFunction progs f st = Throw (Undefined "pr_stack overrun") st'.
Proof.
  intros Hf (H1 & _) Hd. unfold MAX_STACK_DEPTH in *. unfold PR_EnterFunction, function_at. rewrite Hf.
  destruct (at_index_lt (pr_stack st) (pr_depth st)) as [fr Hfr]; [lia|].
  unfold mbind, M_bind, get, mret, M_ret. rewrite Hfr. cbn -[PR_RunError]. rewrite Hd. cbn -[PR_RunError].
  change (MAX_STACK_DEPTH <=? 32 - 1 + 1) with true. cbv iota.
  rewrite run_error_overrun; [by eexists|done|]. cbn. rewrite length_insert. lia.
Qed.

(** ** Entity fields *)

Definition store_ops : list opcode := [OP_STOREP_F; OP_STOREP_ENT; OP_STOREP_FLD; OP_STOREP_S; OP_STOREP_FNC].
Definition load_ops : list opcode := [OP_LOAD_F; OP_LOAD_FLD; OP_LOAD_ENT; OP_LOAD_S; OP_LOAD_FNC].

Lemma g_int_at st i w : at_index (pr_globals st) i = Some w -> g_int i st = Ret (s32 w) st.
Proof. intros H. unfold g_int, g_get, mbind, M_bind. by rewrite H. Qed.

Lemma g_set_at st i w v : at_index (pr_globals st) i = Some v ->
  g_set i w st = Ret tt (set_pr_globals (<[Z.to_nat i := w]> (pr_globals st)) st).
Proof. intros H. unfold g_set. by rewrite H. Qed.

Lemma at_index_insert {A} (l : list A) i j (x y : A) :
  0 <= i < zlen l -> at_index l j = Some y -> at_index (<[Z.to_nat i := x]> l) j = Some (if j =? i then x else y).
Proof.
  intros Hi Hj. apply at_index_some in Hj as (H0 & H1 & H2). unfold at_index. destruct (Z.ltb_spec j 0); [lia|].
  destruct (Z.eqb_spec j i) as [->|Hne]; [by apply list_lookup_insert_eq; lia|].
  rewrite list_lookup_insert_ne by lia. done.
Qed.

Lemma address_step progs builtin nb e s st a b c ed fld x :
  at_index (pr_globals st) a = Some ed -> at_index (pr_globals st) b = Some fld -> at_index (pr_globals st) c = Some x ->
  (s32 ed = 0 -> sv_active st = false) ->
  exec_statement progs builtin nb e s (Stmt 30 a b c) st =
    Ret (Some s) (set_pr_globals (<[Z.to_nat c := u32 (field_ofs (s32 ed) (s32 fld))]> (pr_globals st)) st).
Proof.
  intros Ha Hb Hc Hw. unfold exec_statement. cbn [st_op st_a st_b st_c]. change (opcode_of 30) with (Some OP_ADDRESS).
  cbv iota. unfold op_arith, op_compare, op_store, op_field, mbind, M_bind, get. rewrite (g_int_at _ _ _ Ha).
  destruct ((s32 ed =? 0) && sv_active st) eqn:E.
  { bool_props. rewrite Hw in *; done. }
  cbn -[g_int g_set]. rewrite (g_int_at _ _ _ Hb). by rewrite (g_set_at _ _ _ _ Hc).
Qed.

Lemma storep_step progs builtin nb e s so si st v c w ptr z :
  opcode_of si = Some so -> so ∈ store_ops ->
  at_index (pr_globals st) v = Some w -> at_index (pr_globals st) c = Some ptr -> s32 ptr `mod` 4 = 0 ->
  at_index (edicts st) (s32 ptr / 4) = Some z ->
  exec_statement progs builtin nb e s (Stmt si v c 0) st =
    Ret (Some s) (set_edicts (<[Z.to_nat (s32 ptr / 4) := w]> (edicts st)) st).
Proof.
  intros Hsi Hso Hv Hc Hal Hz. unfold exec_statement. cbn [st_op st_a st_b st_c]. rewrite Hsi.
  assert ((ptr ← g_int c; w ← g_get v; e_set ptr w : M unit) st =
    Ret tt (set_edicts (<[Z.to_nat (s32 ptr / 4) := w]> (edicts st)) st)) as Hm.
  { unfold mbind, M_bind. rewrite (g_int_at _ _ _ Hc). unfold g_get. rewrite Hv.
    unfold e_set. rewrite Hal. cbn -[at_index]. by rewrite Hz. }
  unfold store_ops in Hso. rewrite !elem_of_cons in Hso.
  destruct Hso as [->|[->|[->|[->|[->|Hnil]]]]]; [..|by apply elem_of_nil in Hnil]; unfold op_arith, op_compare, op_store, mbind at 1, M_bind at 1; by rewrite Hm.
Qed.

Lemma load_step progs builtin nb e s lo li st a b d ed fld w y :
  opcode_of li = Some lo -> lo ∈ load_ops ->
  at_index (pr_globals st) a = Some ed -> at_index (pr_globals st) b = Some fld -> at_index (pr_globals st) d = Some y ->
  field_ofs (s32 ed) (s32 fld) `mod` 4 = 0 -> at_index (edicts st) (field_ofs (s32 ed) (s32 fld) / 4) = Some w ->
  exec_statement progs builtin nb e s (Stmt li a b d) st = Ret (Some s) (set_pr_globals (<[Z.to_nat d := w]> (pr_globals st)) st).
Proof.
  intros Hli Hlo Ha Hb Hd Hal Hz. unfold exec_statement. cbn [st_op st_a st_b st_c]. rewrite Hli.
  assert ((ed ← g_int a; fld ← g_int b; w ← e_get (field_ofs ed fld); g_set d w : M unit) st =
    Ret tt (set_pr_globals (<[Z.to_nat d := w]> (pr_globals st)) st)) as Hm.
  { unfold mbind, M_bind. rewrite (g_int_at _ _ _ Ha), (g_int_at _ _ _ Hb). unfold e_get. rewrite Hal. cbn -[at_index g_set].
    rewrite Hz. by rewrite (g_set_at _ _ _ _ Hd). }
  unfold load_ops in Hlo. rewrite !elem_of_cons in Hlo.
  destruct Hlo as [->|[->|[->|[->|[->|Hnil]]]]]; [..|by apply elem_of_nil in Hnil]; unfold op_arith, op_compare, op_store, op_field, mbind at 1, M_bind at 1; by rewrite Hm.
Qed.

(** Assigning to a field of an entity and reading the field back gives the value assigned,
    and no other word of the entities changes: the address of the field ([ADDRESS]), the store
    through it and the load by entity and field agree, for each type of one word. *)
Theorem entity_field_roundtrip progs builtin nb e s so si lo li st a b c v d ed fld w x y z :
  opcode_of si = Some so -> so ∈ store_ops -> opcode_of li = Some lo -> lo ∈ load_ops ->
  at_index (pr_globals st) a = Some ed -> at_index (pr_globals st) b = Some fld ->
  at_index (pr_globals st) v = Some w -> at_index (pr_globals st) c = Some x -> at_index (pr_globals st) d = Some y ->
  c <> a -> c <> b -> c <> v ->
  (s32 ed = 0 -> sv_active st = false) ->
  is_int (field_ofs (s32 ed) (s32 fld)) -> field_ofs (s32 ed) (s32 fld) `mod` 4 = 0 ->
  at_index (edicts st) (field_ofs (s32 ed) (s32 fld) / 4) = Some z ->
  exists st', (exec_statement progs builtin nb e s (Stmt 30 a b c);;
               exec_statement progs builtin nb e s (Stmt si v c 0);;
               exec_statement progs builtin nb e s (Stmt li a b d)) st = Ret (Some s) st' /\
    at_index (pr_globals st') d = Some w /\
    edicts st' = <[Z.to_nat (field_ofs (s32 ed) (s32 fld) / 4) := w]> (edicts st).
Proof.
  intros Hsi Hso Hli Hlo Ha Hb Hv Hc Hd Hca Hcb Hcv Hw Hi Hal Hz. set (ofs := field_ofs (s32 ed) (s32 fld)) in *.
  pose proof (at_index_some _ _ _ Hc) as (Hc0 & _ & Hc1). pose proof (at_index_some _ _ _ Hz) as (Hz0 & _ & Hz1).
  set (g1 := <[Z.to_nat c := u32 ofs]> (pr_globals st)).
  assert (forall j q, j <> c -> at_index (pr_globals st) j = Some q -> at_index g1 j = Some q) as Hg.
  { intros j q Hj Hq. unfold g1. rewrite (at_index_insert _ _ _ _ q) by (done || lia). by destruct (Z.eqb_spec j c). }
  assert (at_index g1 c = Some (u32 ofs)) as Hgc.
  { unfold g1. rewrite (at_index_insert _ _ _ _ x) by (done || lia). by rewrite Z.eqb_refl. }
  assert (s32 (u32 ofs) = ofs) as Hofs by (unfold is_int, INT_MAX, INT_MIN in Hi; wrap_lia).
  assert (exists y', at_index g1 d = Some y') as [y' Hy'].
  { destruct (decide (d = c)) as [->|]; [by eexists|]. eexists. by apply Hg. }
  pose proof (at_index_some _ _ _ Hy') as (Hd0 & _ & Hd1).
  unfold mbind at 1, M_bind at 1. rewrite (address_step _ _ _ _ _ _ _ _ _ _ _ _ Ha Hb Hc Hw). fold ofs g1.
  unfold mbind at 1, M_bind at 1. rewrite (storep_step _ _ _ _ _ so si (set_pr_globals g1 st) v c w (u32 ofs) z)
    by (try done; rewrite ?Hofs; auto).
  rewrite Hofs. eexists. split; [eapply (load_step _ _ _ _ _ _ _ _ a b d ed fld w y'); try done; try (by apply Hg; auto)|].
  - fold ofs. cbn. rewrite (at_index_insert _ _ _ _ z) by (done || lia). by rewrite Z.eqb_refl.
  - split; [|done]. cbn. rewrite (at_index_insert _ _ _ _ y') by (done || lia). by rewrite Z.eqb_refl.
Qed.

(** * A small program *)

Lemma frameless_balanced (m : M unit) : frameless m -> balanced m.
Proof.
  intros Hm st st' H0 H. apply Hm in H. split; [by eapply same_frames_ok|]. split; [by apply same_frames_chain|].
  by destruct H as (_ & _ & -> & -> & _).
Qed.

(** Function 1 calls function 2 with 5.0, which adds 1.0 to its parameter and then calls the
    built-in function 5, which writes to a local of function 1; 3 jumps to itself, 4 is not a program, 6 calls 4. *)
Definition demo_progs : program := Program
  [Stmt 0 0 0 0; Stmt 31 34 4 0; Stmt 52 36 0 0; Stmt 0 1 0 0; Stmt 6 42 35 43; Stmt 51 37 0 0; Stmt 43 43 0 0;
   Stmt 61 0 0 0; Stmt 999 0 0 0; Stmt 51 45 0 0]
  [Fun 0 0 0 0 []; Fun 1 40 2 0 []; Fun 4 42 2 1 [1]; Fun 7 40 2 0 []; Fun 8 40 2 0 []; Fun (-1) 0 0 0 []; Fun 9 40 2 0 []].
Definition demo_builtin (_ : Z) : M unit := g_set 40 77.
Definition demo_globals : list Z :=
  replicate 34 0 ++ [bits_of_f32 (f32_of_Z 5); bits_of_f32 (f32_of_Z 1); 2; 5; 0; 8; 11; 12; 13; 14; 0; 4] ++ replicate 18 0.
Definition demo_vm : vm :=
  VM demo_globals (replicate 32 (0, -1)) 0 (replicate 2048 0) 0 (-1) 0 0 (replicate 7 0) (replicate 400 0) [0] ∅ true.

Definition returns {A} (o : outcome A) : bool := match o with Ret _ _ => true | Throw _ _ => false end.

Lemma demo_ok : vm_ok demo_vm.
Proof. unfold vm_ok. split_and!; by_vm. Qed.

Lemma demo_locals : Forall (fun d => 0 <= locals d) (functions demo_progs).
Proof. by_decide. Qed.

Lemma demo_builtin_balanced i : balanced (demo_builtin i).
Proof. apply frameless_balanced, frameless_g_set. Qed.

Lemma demo_returns : exists st', PR_ExecuteProgram demo_progs demo_builtin 2 1 demo_vm = Ret tt st'.
Proof.
  destruct (PR_ExecuteProgram demo_progs demo_builtin 2 1 demo_vm) as [[] st'|f st'] eqn:E; [by exists st'|].
  exfalso. assert (returns (PR_ExecuteProgram demo_progs demo_builtin 2 1 demo_vm) = true) as H by by_vm.
  rewrite E in H. discriminate H.
Qed.

(** The returned value is 6.0. *)
Example demo_value :
  match PR_ExecuteProgram demo_progs demo_builtin 2 1 demo_vm with
  | Ret _ st => at_index (pr_globals st) OFS_RETURN = Some (bits_of_f32 (f32_of_Z 6)) /\ at_index (profile st) 2 = Some 3
  | Throw _ _ => False
  end.
Proof. vm_compute. split; reflexivity. Qed.

Lemma PR_ExecuteProgram_balanced_witness :
  exists st', PR_ExecuteProgram demo_progs demo_builtin 2 1 demo_vm = Ret tt st' /\
    chain st' = chain demo_vm /\ localstack_used st' = 0.
Proof.
  destruct demo_returns as [st' H]. exists st'. split; [exact H|].
  destruct (PR_ExecuteProgram_balanced demo_progs demo_builtin 2 1 demo_locals demo_builtin_balanced demo_vm st' demo_ok H)
    as (_ & H1 & H2 & _). split; [exact H1|exact H2].
Defined.

Lemma PR_ExecuteProgram_locals_witness :
  exists st', PR_ExecuteProgram demo_progs demo_builtin 2 1 demo_vm = Ret tt st' /\
    region demo_progs 1 (pr_globals st') = [11; 12].
Proof.
  destruct demo_returns as [st' H]. exists st'. split; [exact H|].
  rewrite (PR_ExecuteProgram_locals demo_progs demo_builtin 2 1 demo_vm st' demo_locals demo_builtin_balanced demo_ok H).
  by_vm.
Defined.

Lemma PR_ExecuteProgram_ends_witness :
  match PR_ExecuteProgram demo_progs demo_builtin 2 3 demo_vm with Ret _ _ => True | Throw f _ => f <> OutOfFuel end.
Proof. apply (PR_ExecuteProgram_ends demo_progs demo_builtin 2 3 demo_vm). intros i. apply ends_g_set. Defined.

Lemma demo_can_enter f d : at_index (functions demo_progs) f = Some d ->
  locals d = 2 -> parm_start d = 40 -> numparms d = 0 -> can_enter f d demo_vm.
Proof.
  intros H H1 H2 H3. apply at_index_some in H as (_ & _ & Hlt). unfold can_enter. rewrite H1, H2, H3.
  split; [exact demo_ok|]. split_and!; try by_vm. exact Hlt.
Qed.

Lemma runaway_stopped_witness :
  exists st', PR_ExecuteProgram demo_progs demo_builtin 2 3 demo_vm = Throw (Host_Error "runaway loop error") st' /\
    pr_depth st' = 0 /\ at_index (profile st') 3 = Some (s32 (0 + 99999)).
Proof.
  apply (runaway_stopped demo_progs demo_builtin 2 3 (Fun 7 40 2 0 []) demo_vm 0 0 0); try by_vm.
  - by apply demo_can_enter.
  - split; by_vm.
Defined.

(** Function 6 calls function 4, which is not a program: its own two words and those of
    function 4 stay in use. *)
Lemma error_keeps_localstack_witness :
  exists st', PR_ExecuteProgram demo_progs demo_builtin 2 6 demo_vm = Throw (Host_Error "Bad opcode %i") st' /\
    localstack_used st' = 4 /\ 0 + 2 <= localstack_used st'.
Proof.
  assert (exists st', PR_ExecuteProgram demo_progs demo_builtin 2 6 demo_vm = Throw (Host_Error "Bad opcode %i") st' /\
    localstack_used st' = 4) as (st' & H & Hu) by (eexists; split; [vm_compute; reflexivity|reflexivity]).
  assert (exists s st1, PR_EnterFunction demo_progs 6 demo_vm = Ret s st1) as (s & st1 & HE)
    by (eexists _, _; vm_compute; reflexivity).
  exists st'. split; [exact H|]. split; [exact Hu|].
  apply (error_keeps_localstack demo_progs demo_builtin 2 6 demo_vm "Bad opcode %i" st' demo_locals demo_builtin_balanced) with (s := s) (st1 := st1).
  - intros i. apply grows_uses_up, grows_g_set.
  - exact demo_ok.
  - exact H.
  - discriminate.
  - exact HE.
Defined.

Lemma stack_overflow_overrun_witness :
  exists st', PR_EnterFunction demo_progs 2 (set_pr_depth 31 demo_vm) = Throw (Undefined "pr_stack overrun") st'.
Proof.
  apply (stack_overflow_overrun demo_progs 2 (Fun 4 42 2 1 [1])); try by_vm.
  unfold vm_ok. split_and!; by_vm.
Defined.

(** Entity 1 is at 400 bytes; its field 3 gets the word of global 35. *)
Definition entity_vm : vm := set_pr_globals (<[20%nat := 400]> (<[21%nat := 3]> demo_globals)) demo_vm.

Lemma entity_field_roundtrip_witness :
  exists st', (exec_statement demo_progs demo_builtin 2 0 7 (Stmt 30 20 21 22);;
               exec_statement demo_progs demo_builtin 2 0 7 (Stmt 37 35 22 0);;
               exec_statement demo_progs demo_builtin 2 0 7 (Stmt 24 20 21 23)) entity_vm = Ret (Some 7) st' /\
    at_index (pr_globals st') 23 = Some (bits_of_f32 (f32_of_Z 1)) /\
    edicts st' = <[Z.to_nat (field_ofs (s32 400) (s32 3) / 4) := bits_of_f32 (f32_of_Z 1)]> (edicts entity_vm).
Proof.
  apply (entity_field_roundtrip demo_progs demo_builtin 2 0 7 OP_STOREP_F 37 OP_LOAD_F 24 entity_vm 20 21 22 35 23 400 3
    (bits_of_f32 (f32_of_Z 1)) 0 0 0); try by_vm; try by_decide; by left.
Defined.
