(* ===== verification/SvMessage.v ===== *)
(** What the server writes about entities (Source/sv_main.c).

    The baseline of every entity, the per-frame updates that are relative to it, the data of
    the client's own player, and the set of leafs an update is restricted to.  A vector is a
    record of three floats; the fields of [entvars_t] that these functions read are a record.
    The text of a string is given by [str], for [pr_strings + ofs]. *)

From Stdlib Require Import SpecFloat.
From S2P Require Import Prelude CFloat SizeBuf.

Record vec3 : Type := Vec { vx : f32; vy : f32; vz : f32 }.
Definition vec_map (f : f32 -> f32) (v : vec3) : vec3 := Vec (f (vx v)) (f (vy v)) (f (vz v)).

Definition vec0 : vec3 := Vec (S754_zero false) (S754_zero false) (S754_zero false).

(** * Flags *)

(** [bits |= b] under a condition, and [bits & b] as a condition. *)
Definition or_if (c : bool) (b bits : Z) : Z := if c then bits .| b else bits.
Definition has (bits b : Z) : bool := truth (bits & b).

Definition U_MOREBITS : Z := 1.
Definition U_ORIGIN1 : Z := 2.
Definition U_ORIGIN2 : Z := 4.
Definition U_ORIGIN3 : Z := 8.
Definition U_ANGLE2 : Z := 16.
Definition U_NOLERP : Z := 32.
Definition U_FRAME : Z := 64.
Definition U_SIGNAL : Z := 128.
Definition U_ANGLE1 : Z := 256.
Definition U_ANGLE3 : Z := 512.
Definition U_MODEL : Z := 1024.
Definition U_COLORMAP : Z := 2048.
Definition U_SKIN : Z := 4096.
Definition U_EFFECTS : Z := 8192.
Definition U_LONGENTITY : Z := 16384.
Definition U_TRANS : Z := 32768.

Definition SU_VIEWHEIGHT : Z := 1.
Definition SU_IDEALPITCH : Z := 2.
Definition SU_PUNCH1 : Z := 4.
Definition SU_PUNCH2 : Z := 8.
Definition SU_PUNCH3 : Z := 16.
Definition SU_VELOCITY1 : Z := 32.
Definition SU_VELOCITY2 : Z := 64.
Definition SU_VELOCITY3 : Z := 128.
Definition SU_ITEMS : Z := 512.
Definition SU_ONGROUND : Z := 1024.
Definition SU_INWATER : Z := 2048.
Definition SU_WEAPONFRAME : Z := 4096.
Definition SU_ARMOR : Z := 8192.
Definition SU_WEAPON : Z := 16384.

Definition svc_time : Z := 7.
Definition svc_setangle : Z := 10.
Definition svc_clientdata : Z := 15.
Definition svc_damage : Z := 19.
Definition svc_spawnbaseline : Z := 22.

Definition MAX_EDICTS : Z := 2048.
Definition MAX_MODELS : Z := 256.
Definition MOVETYPE_STEP : Z := 4.
Definition FL_ONGROUND : Z := 512.
Definition EF_MUZZLEFLASH : Z := 2.
Definition DEFAULT_VIEWHEIGHT : Z := 22.
Definition CONTENTS_SOLID : Z := -2.
Definition MAX_MAP_LEAFS : Z := 32767.

(** * Entities *)

(** C: Source/quakedef.h:182-191 entity_state_t *)
Record entity_state : Type := ES {
  es_origin : vec3;
  es_angles : vec3;
  es_modelindex : Z;
  es_frame : Z;
  es_colormap : Z;
  es_skin : Z;
  es_effects : Z
}.

(** The fields of [entvars_t] that are sent. *)
Record entvars : Type := EV {
  ev_modelindex : f32;
  ev_origin : vec3;
  ev_angles : vec3;
  ev_velocity : vec3;
  ev_punchangle : vec3;
  ev_view_ofs : vec3;
  ev_mins : vec3;
  ev_maxs : vec3;
  ev_movetype : f32;
  ev_frame : f32;
  ev_skin : f32;
  ev_effects : f32;
  ev_colormap : f32;
  ev_model : Z;
  ev_weaponmodel : Z;
  ev_dmg_inflictor : Z;
  ev_dmg_take : f32;
  ev_dmg_save : f32;
  ev_fixangle : f32;
  ev_idealpitch : f32;
  ev_items : f32;
  ev_flags : f32;
  ev_waterlevel : f32;
  ev_weaponframe : f32;
  ev_armorvalue : f32;
  ev_health : f32;
  ev_currentammo : f32;
  ev_ammo_shells : f32;
  ev_ammo_nails : f32;
  ev_ammo_rockets : f32;
  ev_ammo_cells : f32;
  ev_weapon : f32
}.

(** The extension fields are what [GETEDICTFIELDVALUE] finds, if the progs have them.
    C: Source/progs.h:35-48 edict_t *)
Record edict : Type := Edict {
  ed_free : bool;
  num_leafs : Z;
  leafnums : list Z;
  ed_baseline : entity_state;
  ed_v : entvars;
  ed_alpha : option f32;
  ed_fullbright : option f32;
  ed_items2 : option f32
}.
Definition set_ed_baseline (b : entity_state) (e : edict) : edict :=
  Edict (ed_free e) (num_leafs e) (leafnums e) b (ed_v e) (ed_alpha e) (ed_fullbright e) (ed_items2 e).
Definition set_ed_v (v : entvars) (e : edict) : edict :=
  Edict (ed_free e) (num_leafs e) (leafnums e) (ed_baseline e) v (ed_alpha e) (ed_fullbright e) (ed_items2 e).

Definition set_ev_effects (x : f32) (v : entvars) : entvars :=
  EV (ev_modelindex v) (ev_origin v) (ev_angles v) (ev_velocity v) (ev_punchangle v)
    (ev_view_ofs v) (ev_mins v) (ev_maxs v) (ev_movetype v) (ev_frame v) (ev_skin v) x
    (ev_colormap v) (ev_model v) (ev_weaponmodel v) (ev_dmg_inflictor v) (ev_dmg_take v)
    (ev_dmg_save v) (ev_fixangle v) (ev_idealpitch v) (ev_items v) (ev_flags v)
    (ev_waterlevel v) (ev_weaponframe v) (ev_armorvalue v) (ev_health v) (ev_currentammo v)
    (ev_ammo_shells v) (ev_ammo_nails v) (ev_ammo_rockets v) (ev_ammo_cells v) (ev_weapon
    v).
Definition set_ev_dmg_take (x : f32) (v : entvars) : entvars :=
  EV (ev_modelindex v) (ev_origin v) (ev_angles v) (ev_velocity v) (ev_punchangle v)
    (ev_view_ofs v) (ev_mins v) (ev_maxs v) (ev_movetype v) (ev_frame v) (ev_skin v)
    (ev_effects v) (ev_colormap v) (ev_model v) (ev_weaponmodel v) (ev_dmg_inflictor v) x
    (ev_dmg_save v) (ev_fixangle v) (ev_idealpitch v) (ev_items v) (ev_flags v)
    (ev_waterlevel v) (ev_weaponframe v) (ev_armorvalue v) (ev_health v) (ev_currentammo v)
    (ev_ammo_shells v) (ev_ammo_nails v) (ev_ammo_rockets v) (ev_ammo_cells v) (ev_weapon
    v).
Definition set_ev_dmg_save (x : f32) (v : entvars) : entvars :=
  EV (ev_modelindex v) (ev_origin v) (ev_angles v) (ev_velocity v) (ev_punchangle v)
    (ev_view_ofs v) (ev_mins v) (ev_maxs v) (ev_movetype v) (ev_frame v) (ev_skin v)
    (ev_effects v) (ev_colormap v) (ev_model v) (ev_weaponmodel v) (ev_dmg_inflictor v)
    (ev_dmg_take v) x (ev_fixangle v) (ev_idealpitch v) (ev_items v) (ev_flags v)
    (ev_waterlevel v) (ev_weaponframe v) (ev_armorvalue v) (ev_health v) (ev_currentammo v)
    (ev_ammo_shells v) (ev_ammo_nails v) (ev_ammo_rockets v) (ev_ammo_cells v) (ev_weapon
    v).
Definition set_ev_fixangle (x : f32) (v : entvars) : entvars :=
  EV (ev_modelindex v) (ev_origin v) (ev_angles v) (ev_velocity v) (ev_punchangle v)
    (ev_view_ofs v) (ev_mins v) (ev_maxs v) (ev_movetype v) (ev_frame v) (ev_skin v)
    (ev_effects v) (ev_colormap v) (ev_model v) (ev_weaponmodel v) (ev_dmg_inflictor v)
    (ev_dmg_take v) (ev_dmg_save v) x (ev_idealpitch v) (ev_items v) (ev_flags v)
    (ev_waterlevel v) (ev_weaponframe v) (ev_armorvalue v) (ev_health v) (ev_currentammo v)
    (ev_ammo_shells v) (ev_ammo_nails v) (ev_ammo_rockets v) (ev_ammo_cells v) (ev_weapon
    v).

(** An integer and a float compared with [!=]: the integer is converted. *)
Definition differs (i : Z) (x : f32) : bool := negb (f_eqb (f32_of_Z i) x).

(** [miss < -0.1 || miss > 0.1], in double precision. *)
Definition missed (v b : f32) : bool :=
  let miss := f64_of_f32 (f32_sub v b) in
  f_ltb miss (f64_div (f64_of_Z (-1)) (f64_of_Z 10)) || f_ltb (f64_div (f64_of_Z 1) (f64_of_Z 10)) miss.

Definition alpha_of (ent : edict) : f32 := default (f32_of_Z 1) (ed_alpha ent).
Definition fullbright_of (ent : edict) : f32 := default (f32_of_Z 0) (ed_fullbright ent).

(** The flags of an update, before [U_MOREBITS].
    C: Source/sv_main.c:451-505 bits *)
Definition update_bits (e : Z) (ent : edict) : Z :=
  let v := ed_v ent in
  let b := ed_baseline ent in
  let bits := 0 in
  let bits := or_if (missed (vx (ev_origin v)) (vx (es_origin b))) U_ORIGIN1 bits in
  let bits := or_if (missed (vy (ev_origin v)) (vy (es_origin b))) U_ORIGIN2 bits in
  let bits := or_if (missed (vz (ev_origin v)) (vz (es_origin b))) U_ORIGIN3 bits in
  let bits := or_if (negb (f_eqb (vx (ev_angles v)) (vx (es_angles b)))) U_ANGLE1 bits in
  let bits := or_if (negb (f_eqb (vy (ev_angles v)) (vy (es_angles b)))) U_ANGLE2 bits in
  let bits := or_if (negb (f_eqb (vz (ev_angles v)) (vz (es_angles b)))) U_ANGLE3 bits in
  let bits := or_if (f_eqb (ev_movetype v) (f32_of_Z MOVETYPE_STEP)) U_NOLERP bits in
  let bits := or_if (differs (es_colormap b) (ev_colormap v)) U_COLORMAP bits in
  let bits := or_if (differs (es_skin b) (ev_skin v)) U_SKIN bits in
  let bits := or_if (differs (es_frame b) (ev_frame v)) U_FRAME bits in
  let bits := or_if (differs (es_effects b) (ev_effects v)) U_EFFECTS bits in
  let bits := or_if (differs (es_modelindex b) (ev_modelindex v)) U_MODEL bits in
  let alpha := alpha_of ent in
  let bits := or_if ((f_ltb alpha (f32_of_Z 1) && f_ltb (f32_of_Z 0) alpha) || f_truth (fullbright_of ent)) U_TRANS bits in
  or_if (256 <=? e) U_LONGENTITY bits.

Definition write_if (c : bool) (w : sizebuf -> res sizebuf) (msg : sizebuf) : res sizebuf :=
  if c then w msg else mret msg.

Section writing.

Variable h : endian.
Variable str : Z -> bytes.

(** The update of one entity.
    C: Source/sv_main.c:507-548 MSG_WriteByte *)
Definition write_update (e : Z) (ent : edict) (msg : sizebuf) : res sizebuf :=
  let v := ed_v ent in
  let bits := update_bits e ent in
  let bits := or_if (256 <=? bits) U_MOREBITS bits in
  msg ← MSG_WriteByte msg (bits .| U_SIGNAL);
  msg ← write_if (has bits U_MOREBITS) (fun msg => MSG_WriteByte msg (bits >> 8)) msg;
  msg ← (if has bits U_LONGENTITY then MSG_WriteShort msg e else MSG_WriteByte msg e);
  msg ← write_if (has bits U_MODEL) (fun msg => MSG_WriteByte msg (f_to_int (ev_modelindex v))) msg;
  msg ← write_if (has bits U_FRAME) (fun msg => MSG_WriteByte msg (f_to_int (ev_frame v))) msg;
  msg ← write_if (has bits U_COLORMAP) (fun msg => MSG_WriteByte msg (f_to_int (ev_colormap v))) msg;
  msg ← write_if (has bits U_SKIN) (fun msg => MSG_WriteByte msg (f_to_int (ev_skin v))) msg;
  msg ← write_if (has bits U_EFFECTS) (fun msg => MSG_WriteByte msg (f_to_int (ev_effects v))) msg;
  msg ← write_if (has bits U_ORIGIN1) (fun msg => MSG_WriteCoord msg (vx (ev_origin v))) msg;
  msg ← write_if (has bits U_ANGLE1) (fun msg => MSG_WriteAngle msg (vx (ev_angles v))) msg;
  msg ← write_if (has bits U_ORIGIN2) (fun msg => MSG_WriteCoord msg (vy (ev_origin v))) msg;
  msg ← write_if (has bits U_ANGLE2) (fun msg => MSG_WriteAngle msg (vy (ev_angles v))) msg;
  msg ← write_if (has bits U_ORIGIN3) (fun msg => MSG_WriteCoord msg (vz (ev_origin v))) msg;
  msg ← write_if (has bits U_ANGLE3) (fun msg => MSG_WriteAngle msg (vz (ev_angles v))) msg;
  write_if (has bits U_TRANS) (fun msg =>
    msg ← MSG_WriteFloat h msg (f32_of_Z 2);
    msg ← MSG_WriteFloat h msg (alpha_of ent);
    MSG_WriteFloat h msg (fullbright_of ent)) msg.

(** [pvs[leafnum>>3] & (1 << (leafnum & 7))] for one of the entity's leafs. *)
Fixpoint touches (pvs : bytes) (n : nat) (leafs : list Z) : res bool :=
  match n with
  | O => mret false
  | S n =>
      match leafs with
      | [] => Fault (Undefined "outside leafnums")
      | l :: leafs =>
          w ← load1 pvs (l >> 3);
          if truth (w & (1 << (l & 7))) then mret true else touches pvs n leafs
      end
  end.

(** Entities from number [e] on.
    C: Source/sv_main.c:424-549 nomap *)
Fixpoint entities_loop (pvs : bytes) (clent : Z) (nomap : bool) (e : Z) (ents : list edict) (msg : sizebuf) : res sizebuf :=
  match ents with
  | [] => mret msg
  | ent :: ents =>
      send ← (if e =? clent then mret true
              else if negb (f_truth (ev_modelindex (ed_v ent))) || bool_decide (str (ev_model (ed_v ent)) = [])
              then mret false
              else seen ← touches pvs (Z.to_nat (num_leafs ent)) (leafnums ent);
                   mret (seen && negb nomap));
      if (send : bool) then
        if maxsize msg - cursize msg <? 16 then mret msg
        else msg ← write_update e ent msg; entities_loop pvs clent nomap (e + 1) ents msg
      else entities_loop pvs clent nomap (e + 1) ents msg
  end.

(** * The set of leafs that may be visible *)

Record plane : Type := Plane { p_type : Z; p_normal : vec3; p_dist : f32 }.
Definition dot (a b : vec3) : f32 :=
  f32_add (f32_add (f32_mul (vx a) (vx b)) (f32_mul (vy a) (vy b))) (f32_mul (vz a) (vz b)).
(** C: Source/mathlib.h:133-135 PlaneDiff *)
Definition PlaneDiff (p : vec3) (pl : plane) : f32 :=
  f32_sub (if p_type pl =? 0 then vx p else if p_type pl =? 1 then vy p else if p_type pl =? 2 then vz p
           else dot p (p_normal pl)) (p_dist pl).

(** The nodes of the world model: a leaf has negative contents. *)
Inductive mnode : Type :=
| MLeaf (contents : Z) (leaf : Z)
| MNode (pl : plane) (child0 child1 : mnode).

Variable Mod_LeafPVS : Z -> bytes.

(** [fatpvs[i] |= pvs[i]] for the first [fatbytes] bytes. *)
Fixpoint or_bytes (fat pvs : bytes) : res bytes :=
  match fat, pvs with
  | [], _ => mret []
  | f :: fat, p :: pvs => r ← or_bytes fat pvs; mret ((f .| p) :: r)
  | _, [] => Fault (Undefined "outside the leaf's visibility")
  end.

(** [fat] is the part of [fatpvs] in use, its first [fatbytes] bytes.
    C: Source/sv_main.c:342-381 SV_AddToFatPVS *)
Fixpoint SV_AddToFatPVS (r_nopvs : bool) (org : vec3) (node : mnode) (fat : bytes) : res bytes :=
  match node with
  | MLeaf contents leaf =>
      if negb (contents =? CONTENTS_SOLID) then or_bytes fat (Mod_LeafPVS leaf) else mret fat
  | MNode pl child0 child1 =>
      let d := PlaneDiff org pl in
      let both := fat ← SV_AddToFatPVS r_nopvs org child0 fat; SV_AddToFatPVS r_nopvs org child1 fat in
      if r_nopvs then both
      else if f_ltb (f32_of_Z 8) d then SV_AddToFatPVS r_nopvs org child0 fat
      else if f_ltb d (f32_of_Z (-8)) then SV_AddToFatPVS r_nopvs org child1 fat
      else both
  end.

(** C: Source/sv_main.c:391-397 SV_FatPVS *)
Definition SV_FatPVS (r_nopvs : bool) (org : vec3) (numleafs : Z) (nodes : mnode) : res bytes :=
  let fatbytes := (numleafs + 31) >> 3 in
  if MAX_MAP_LEAFS / 8 <? fatbytes then Fault (Undefined "fatpvs overrun")
  else SV_AddToFatPVS r_nopvs org nodes (replicate (Z.to_nat fatbytes) 0).

(** The leaf a point is in.
    C: Source/gl_model.c:120-140 Mod_PointInLeaf *)
Fixpoint Mod_PointInLeaf (p : vec3) (node : mnode) : Z * Z :=
  match node with
  | MLeaf contents leaf => (contents, leaf)
  | MNode pl child0 child1 =>
      if f_ltb (f32_of_Z 0) (PlaneDiff p pl) then Mod_PointInLeaf p child0 else Mod_PointInLeaf p child1
  end.

Definition vec_add (a b : vec3) : vec3 := Vec (f32_add (vx a) (vx b)) (f32_add (vy a) (vy b)) (f32_add (vz a) (vz b)).

(** [ents] are all entities from number 0 on, [clent] is the number of the client's entity.
    C: Source/sv_main.c:406-550 SV_WriteEntitiesToClient *)
Definition SV_WriteEntitiesToClient (r_nopvs : bool) (numleafs : Z) (nodes : mnode) (clent : Z) (nomap : bool)
  (ents : list edict) (msg : sizebuf) : res sizebuf :=
  match ents !! Z.to_nat clent with
  | None => Fault (Undefined "no such entity")
  | Some c =>
      pvs ← SV_FatPVS r_nopvs (vec_add (ev_origin (ed_v c)) (ev_view_ofs (ed_v c))) numleafs nodes;
      entities_loop pvs clent nomap 1 (drop 1 ents) msg
  end.

(** C: Source/sv_main.c:557-565 SV_CleanupEnts *)
Definition SV_CleanupEnts (ents : list edict) : list edict :=
  take 1 ents ++
  ((fun ent => set_ed_v (set_ev_effects
      (f32_of_Z (Z.land (f_to_int (ev_effects (ed_v ent))) (Z.lnot EF_MUZZLEFLASH))) (ed_v ent)) ent) <$> drop 1 ents).

(** * Baselines *)

(** [sv.model_precache], the entries before the first null one.
    C: Source/sv_main.c:900-915 SV_ModelIndex *)
Definition SV_ModelIndex (precache : list bytes) (name : bytes) : res Z :=
  match name with
  | [] => mret 0
  | _ => match list_find (fun m => m = name) precache with
         | Some (i, _) => mret (Z.of_nat i)
         | None => Fault (Host_Error "SV_ModelIndex: model %s not precached")
         end
  end.

(** C: Source/sv_main.c:936-948 baseline *)
Definition make_baseline (precache : list bytes) (maxclients entnum : Z) (ent : edict) : res entity_state :=
  let v := ed_v ent in
  let player := (0 <? entnum) && (entnum <=? maxclients) in
  model ← SV_ModelIndex precache (if player then cs "progs/player.mdl" else str (ev_model v));
  mret (ES (ev_origin v) (ev_angles v) model (f_to_int (ev_frame v)) (if player then entnum else 0)
           (f_to_int (ev_skin v)) (es_effects (ed_baseline ent))).

(** C: Source/sv_main.c:950-964 MSG_WriteByte *)
Definition write_baseline (entnum : Z) (b : entity_state) (signon : sizebuf) : res sizebuf :=
  signon ← MSG_WriteByte signon svc_spawnbaseline;
  signon ← MSG_WriteShort signon entnum;
  signon ← MSG_WriteByte signon (es_modelindex b);
  signon ← MSG_WriteByte signon (es_frame b);
  signon ← MSG_WriteByte signon (es_colormap b);
  signon ← MSG_WriteByte signon (es_skin b);
  signon ← MSG_WriteCoord signon (vx (es_origin b));
  signon ← MSG_WriteAngle signon (vx (es_angles b));
  signon ← MSG_WriteCoord signon (vy (es_origin b));
  signon ← MSG_WriteAngle signon (vy (es_angles b));
  signon ← MSG_WriteCoord signon (vz (es_origin b));
  MSG_WriteAngle signon (vz (es_angles b)).

(** C: Source/sv_main.c:922-966 SV_CreateBaseline *)
Fixpoint SV_CreateBaseline (precache : list bytes) (maxclients entnum : Z) (ents : list edict) (signon : sizebuf)
  : res (list edict * sizebuf) :=
  match ents with
  | [] => mret ([], signon)
  | ent :: ents =>
      '(ent, signon) ← (if ed_free ent then mret (ent, signon)
                        else if (maxclients <? entnum) && negb (f_truth (ev_modelindex (ed_v ent)))
                        then mret (ent, signon)
                        else b ← make_baseline precache maxclients entnum ent;
                             signon ← write_baseline entnum b signon;
                             mret (set_ed_baseline b ent, signon));
      '(ents, signon) ← SV_CreateBaseline precache maxclients (entnum + 1) ents signon;
      mret (ent :: ents, signon)
  end.

(** * The client's own data *)

(** C: Source/sv_main.c:602-641 bits *)
Definition clientdata_bits (v : entvars) : Z :=
  let bits := 0 in
  let bits := or_if (negb (f_eqb (vz (ev_view_ofs v)) (f32_of_Z DEFAULT_VIEWHEIGHT))) SU_VIEWHEIGHT bits in
  let bits := or_if (f_truth (ev_idealpitch v)) SU_IDEALPITCH bits in
  let bits := bits .| SU_ITEMS in
  let bits := or_if (truth (f_to_int (ev_flags v) & FL_ONGROUND)) SU_ONGROUND bits in
  let bits := or_if (f_leb (f32_of_Z 2) (ev_waterlevel v)) SU_INWATER bits in
  let bits := or_if (f_truth (vx (ev_punchangle v))) SU_PUNCH1 bits in
  let bits := or_if (f_truth (vx (ev_velocity v))) SU_VELOCITY1 bits in
  let bits := or_if (f_truth (vy (ev_punchangle v))) SU_PUNCH2 bits in
  let bits := or_if (f_truth (vy (ev_velocity v))) SU_VELOCITY2 bits in
  let bits := or_if (f_truth (vz (ev_punchangle v))) SU_PUNCH3 bits in
  let bits := or_if (f_truth (vz (ev_velocity v))) SU_VELOCITY3 bits in
  let bits := or_if (f_truth (ev_weaponframe v)) SU_WEAPONFRAME bits in
  let bits := or_if (f_truth (ev_armorvalue v)) SU_ARMOR bits in
  bits .| SU_WEAPON.

(** C: Source/sv_main.c:610-614 items *)
Definition clientdata_items (serverflags : f32) (ent : edict) : Z :=
  match ed_items2 ent with
  | Some x => s32 (f_to_int (ev_items (ed_v ent)) .| (f_to_int x << 23))
  | None => s32 (f_to_int (ev_items (ed_v ent)) .| (f_to_int serverflags << 28))
  end.

(** The loop that sends the number of the lowest bit of [weapon]. *)
Fixpoint weapon_bit (n : nat) (i weapon : Z) : option Z :=
  match n with
  | O => None
  | S n => if truth (weapon & (1 << i)) then Some i else weapon_bit n (i + 1) weapon
  end.

(** C: Source/sv_main.c:643-692 svc_clientdata *)
Definition write_clientdata (precache : list bytes) (mission_pack : bool) (serverflags : f32) (ent : edict) (msg : sizebuf)
  : res sizebuf :=
  let v := ed_v ent in
  let bits := clientdata_bits v in
  msg ← MSG_WriteByte msg svc_clientdata;
  msg ← MSG_WriteShort msg bits;
  msg ← write_if (has bits SU_VIEWHEIGHT) (fun msg => MSG_WriteChar msg (f_to_int (vz (ev_view_ofs v)))) msg;
  msg ← write_if (has bits SU_IDEALPITCH) (fun msg => MSG_WriteChar msg (f_to_int (ev_idealpitch v))) msg;
  let punch x msg := MSG_WriteChar msg (f_to_int x) in
  let velocity x msg := MSG_WriteChar msg (f_to_int (f32_div x (f32_of_Z 16))) in
  msg ← write_if (has bits SU_PUNCH1) (punch (vx (ev_punchangle v))) msg;
  msg ← write_if (has bits SU_VELOCITY1) (velocity (vx (ev_velocity v))) msg;
  msg ← write_if (has bits SU_PUNCH2) (punch (vy (ev_punchangle v))) msg;
  msg ← write_if (has bits SU_VELOCITY2) (velocity (vy (ev_velocity v))) msg;
  msg ← write_if (has bits SU_PUNCH3) (punch (vz (ev_punchangle v))) msg;
  msg ← write_if (has bits SU_VELOCITY3) (velocity (vz (ev_velocity v))) msg;
  msg ← MSG_WriteLong msg (clientdata_items serverflags ent);
  msg ← write_if (has bits SU_WEAPONFRAME) (fun msg => MSG_WriteByte msg (f_to_int (ev_weaponframe v))) msg;
  msg ← write_if (has bits SU_ARMOR) (fun msg => MSG_WriteByte msg (f_to_int (ev_armorvalue v))) msg;
  msg ← (if has bits SU_WEAPON then
           i ← SV_ModelIndex precache (str (ev_weaponmodel v)); MSG_WriteByte msg i
         else mret msg);
  msg ← MSG_WriteShort msg (f_to_int (ev_health v));
  msg ← MSG_WriteByte msg (f_to_int (ev_currentammo v));
  msg ← MSG_WriteByte msg (f_to_int (ev_ammo_shells v));
  msg ← MSG_WriteByte msg (f_to_int (ev_ammo_nails v));
  msg ← MSG_WriteByte msg (f_to_int (ev_ammo_rockets v));
  msg ← MSG_WriteByte msg (f_to_int (ev_ammo_cells v));
  if mission_pack then
    match weapon_bit 32 0 (f_to_int (ev_weapon v)) with
    | Some i => MSG_WriteByte msg i
    | None => mret msg
    end
  else MSG_WriteByte msg (f_to_int (ev_weapon v)).

(** [other->v.origin[i] + 0.5 * (other->v.mins[i] + other->v.maxs[i])] *)
Definition centre (o mins maxs : f32) : f32 :=
  f32_of_f64 (f64_add (f64_of_f32 o) (f64_mul f64_half (f64_of_f32 (f32_add mins maxs)))).

(** [entity_at] is [PROG_TO_EDICT]; [SV_SetIdealPitch] (sv_user.c) sets [idealpitch] of the
    player.
    C: Source/sv_main.c:572-693 SV_WriteClientdataToMessage *)
Definition SV_WriteClientdataToMessage (entity_at : Z -> option edict) (SV_SetIdealPitch : edict -> edict)
  (precache : list bytes) (mission_pack : bool) (serverflags : f32) (ent : edict) (msg : sizebuf) : res (edict * sizebuf) :=
  let v := ed_v ent in
  '(ent, msg) ← (if f_truth (ev_dmg_take v) || f_truth (ev_dmg_save v) then
      match entity_at (ev_dmg_inflictor v) with
      | None => Fault (Undefined "no such entity")
      | Some other =>
          let o := ed_v other in
          msg ← MSG_WriteByte msg svc_damage;
          msg ← MSG_WriteByte msg (f_to_int (ev_dmg_save v));
          msg ← MSG_WriteByte msg (f_to_int (ev_dmg_take v));
          msg ← MSG_WriteCoord msg (centre (vx (ev_origin o)) (vx (ev_mins o)) (vx (ev_maxs o)));
          msg ← MSG_WriteCoord msg (centre (vy (ev_origin o)) (vy (ev_mins o)) (vy (ev_maxs o)));
          msg ← MSG_WriteCoord msg (centre (vz (ev_origin o)) (vz (ev_mins o)) (vz (ev_maxs o)));
          mret (set_ed_v (set_ev_dmg_save (f32_of_Z 0) (set_ev_dmg_take (f32_of_Z 0) v)) ent, msg)
      end
    else mret (ent, msg));
  let ent := SV_SetIdealPitch ent in
  let v := ed_v ent in
  '(ent, msg) ← (if f_truth (ev_fixangle v) then
      msg ← MSG_WriteByte msg svc_setangle;
      msg ← MSG_WriteAngle msg (vx (ev_angles v));
      msg ← MSG_WriteAngle msg (vy (ev_angles v));
      msg ← MSG_WriteAngle msg (vz (ev_angles v));
      mret (set_ed_v (set_ev_fixangle (f32_of_Z 0) v) ent, msg)
    else mret (ent, msg));
  msg ← write_clientdata precache mission_pack serverflags ent msg;
  mret (ent, msg).

End writing.

(** * The visible leafs *)

Lemma far_in_front d : f_ltb (f32_of_Z 8) d = true -> f_ltb (f32_of_Z 0) d = true.
Proof. destruct d as [s|s| |s m e]; try done; by destruct s. Qed.

Lemma far_behind d : f_ltb d (f32_of_Z (-8)) = true -> f_ltb (f32_of_Z 0) d = false.
Proof. destruct d as [s|s| |s m e]; try done; by destruct s. Qed.

(** Byte for byte, the bits of [a] are among those of [b]. *)
Definition bits_in (a b : bytes) : Prop := forall i x y, a !! i = Some x -> b !! i = Some y -> x & y = x.

Lemma land_lor_absorb x y : x & (x .| y) = x.
Proof.
  apply Z.bits_inj'. intros n _. rewrite Z.land_spec, Z.lor_spec. by destruct (Z.testbit x n), (Z.testbit y n).
Qed.

Lemma or_bytes_spec fat : forall pvs, (length fat <= length pvs)%nat ->
  exists r, or_bytes fat pvs = Ok r /\ length r = length fat /\ bits_in fat r /\ bits_in pvs r.
Proof.
  induction fat as [|f fat IH]; intros pvs Hl; cbn [or_bytes].
  - exists []. split; [done|]. split; [done|]. split; intros i x y Hx Hy; by rewrite lookup_nil in Hy.
  - destruct pvs as [|p pvs]; [cbn in Hl; lia|]. destruct (IH pvs) as (r & -> & Hlen & H1 & H2); [cbn in Hl; lia|]. cbn.
    exists ((f .| p) :: r). split; [done|]. split; [cbn; lia|]. split; intros [|i] x y; cbn.
    + intros [= <-] [= <-]. apply land_lor_absorb.
    + apply H1.
    + intros [= <-] [= <-]. rewrite Z.lor_comm. apply land_lor_absorb.
    + apply H2.
Qed.

Lemma bits_in_trans a b c : length c = length b -> bits_in a b -> bits_in b c -> bits_in a c.
Proof.
  intros Hl H1 H2 i x z Hx Hz. destruct (lookup_lt_is_Some_2 b i) as [y Hy]; [rewrite <- Hl; by eapply lookup_lt_Some|].
  rewrite <- (H1 i x y Hx Hy) at 1. rewrite <- Z.land_assoc, (H2 i y z Hy Hz). by apply (H1 i).
Qed.

Section leafs.

Variable Mod_LeafPVS : Z -> bytes.

(** Every leaf has enough bytes of visibility. *)
Fixpoint leafs_ok (n : nat) (node : mnode) : Prop :=
  match node with
  | MLeaf _ leaf => (n <= length (Mod_LeafPVS leaf))%nat
  | MNode _ a b => leafs_ok n a /\ leafs_ok n b
  end.

Lemma AddToFatPVS_spec r_nopvs org node : forall fat, leafs_ok (length fat) node ->
  exists r, SV_AddToFatPVS Mod_LeafPVS r_nopvs org node fat = Ok r /\ length r = length fat /\ bits_in fat r /\
    ((Mod_PointInLeaf org node).1 <> CONTENTS_SOLID -> bits_in (Mod_LeafPVS (Mod_PointInLeaf org node).2) r).
Proof.
  induction node as [contents leaf|pl a IHa b IHb]; intros fat Hok; cbn [SV_AddToFatPVS Mod_PointInLeaf].
  - destruct (Z.eqb_spec contents CONTENTS_SOLID) as [->|Hc]; cbn [negb].
    + exists fat. split; [done|]. split; [done|]. split; [intros i x y Hx Hy; simplify_eq; apply Z.land_diag|done].
    + destruct (or_bytes_spec fat (Mod_LeafPVS leaf) Hok) as (r & -> & Hl & H1 & H2). by exists r.
  - destruct Hok as [Hoka Hokb]. set (d := PlaneDiff org pl).
    assert (exists r, (fat ← SV_AddToFatPVS Mod_LeafPVS r_nopvs org a fat; SV_AddToFatPVS Mod_LeafPVS r_nopvs org b fat) = Ok r /\
      length r = length fat /\ bits_in fat r /\
      ((Mod_PointInLeaf org a).1 <> CONTENTS_SOLID -> bits_in (Mod_LeafPVS (Mod_PointInLeaf org a).2) r) /\
      ((Mod_PointInLeaf org b).1 <> CONTENTS_SOLID -> bits_in (Mod_LeafPVS (Mod_PointInLeaf org b).2) r)) as Hboth.
    { destruct (IHa fat Hoka) as (ra & -> & Hla & Hfa & Hpa). cbn. rewrite <- Hla in Hokb.
      destruct (IHb ra Hokb) as (rb & -> & Hlb & Hfb & Hpb). exists rb. split; [done|]. split; [congruence|].
      split; [by eapply bits_in_trans|]. split; [|done]. intros Hs. eapply bits_in_trans; [exact Hlb|by apply Hpa|done]. }
    destruct Hboth as (rb & Eb & Hlb & Hfb & Hpa & Hpb).
    assert (exists r, Ok rb = Ok r /\ length r = length fat /\ bits_in fat r /\
      ((if f_ltb (f32_of_Z 0) d then Mod_PointInLeaf org a else Mod_PointInLeaf org b).1 <> CONTENTS_SOLID ->
       bits_in (Mod_LeafPVS (if f_ltb (f32_of_Z 0) d then Mod_PointInLeaf org a else Mod_PointInLeaf org b).2) r)) as Hrb.
    { exists rb. split; [done|]. split; [done|]. split; [done|]. by destruct (f_ltb (f32_of_Z 0) d). }
    rewrite Eb. destruct r_nopvs; [exact Hrb|]. destruct (f_ltb (f32_of_Z 8) d) eqn:E8.
    { rewrite (far_in_front d E8). by apply IHa. }
    destruct (f_ltb d (f32_of_Z (-8))) eqn:Em8; [|exact Hrb].
    rewrite (far_behind d Em8). by apply IHb.
Qed.

End leafs.

(** A leaf is visible in a set. *)
Definition sees (pvs : bytes) (l : Z) : Prop :=
  0 <= l /\ exists w, pvs !! Z.to_nat (l >> 3) = Some w /\ truth (w & (1 << (l & 7))) = true.

Lemma sees_mono a b l : bits_in a b -> l >> 3 < zlen b -> sees a l -> sees b l.
Proof.
  intros Hin Hlt (H0 & w & Hw & Hb). split; [done|]. assert (0 <= l >> 3) by (by apply Z.shiftr_nonneg).
  destruct (lookup_lt_is_Some_2 b (Z.to_nat (l >> 3))) as [y Hy]; [lia|]. exists y. split; [done|].
  unfold truth in *. rewrite <- (Hin _ _ _ Hw Hy) in Hb. destruct (Z.eqb_spec (y & (1 << (l & 7))) 0) as [E|]; [|done].
  rewrite <- Z.land_assoc, E, Z.land_0_r in Hb. done.
Qed.

Lemma touches_seen pvs n : forall leafs l, l ∈ take n leafs -> sees pvs l -> (n <= length leafs)%nat ->
  Forall (fun l => 0 <= l >> 3 < zlen pvs) (take n leafs) -> touches pvs n leafs = Ok true.
Proof.
  induction n as [|n IH]; intros leafs l Hin Hs Hn Hall; cbn in Hin; [by apply elem_of_nil in Hin|].
  destruct leafs as [|l0 leafs]; [cbn in Hn; lia|]. cbn in Hin, Hall, Hn |- *. apply Forall_cons in Hall as [H0 Hall].
  destruct (lookup_lt_is_Some_2 pvs (Z.to_nat (l0 >> 3))) as [w Hw]; [lia|]. rewrite (load1_lookup _ _ _ (proj1 H0) Hw). cbn.
  destruct (truth (w & (1 << (l0 & 7)))) eqn:E; [done|]. apply elem_of_cons in Hin as [->|Hin].
  - destruct Hs as (_ & w' & Hw' & Hb). simplify_eq. congruence.
  - apply (IH leafs l); [done|done|lia|done].
Qed.

(** No visible entity is left out.  The set of leafs [SV_FatPVS] computes contains everything
    that is visible from the leaf the client's eye is in; an entity with a model and with one
    of its leafs visible from there is written to the message, unless fewer than 16 bytes are
    left in it, in which case nothing more is written. *)
Theorem visible_entities_sent h str Mod_LeafPVS r_nopvs numleafs nodes org clent e ent ents msg l :
  0 <= numleafs -> (numleafs + 31) >> 3 <= MAX_MAP_LEAFS / 8 ->
  leafs_ok Mod_LeafPVS (Z.to_nat ((numleafs + 31) >> 3)) nodes -> (Mod_PointInLeaf org nodes).1 <> CONTENTS_SOLID ->
  f_truth (ev_modelindex (ed_v ent)) = true -> str (ev_model (ed_v ent)) <> [] ->
  l ∈ take (Z.to_nat (num_leafs ent)) (leafnums ent) -> sees (Mod_LeafPVS (Mod_PointInLeaf org nodes).2) l ->
  (Z.to_nat (num_leafs ent) <= length (leafnums ent))%nat ->
  Forall (fun l => 0 <= l < numleafs) (take (Z.to_nat (num_leafs ent)) (leafnums ent)) ->
  exists pvs, SV_FatPVS Mod_LeafPVS r_nopvs org numleafs nodes = Ok pvs /\
    entities_loop h str pvs clent false e (ent :: ents) msg =
      if maxsize msg - cursize msg <? 16 then Ok msg
      else msg' ← write_update h e ent msg; entities_loop h str pvs clent false (e + 1) ents msg'.
Proof.
  intros Hn Hmax Hok Hsol Hm Hs Hin Hsee Hlen Hall. unfold SV_FatPVS.
  destruct (Z.ltb_spec (MAX_MAP_LEAFS / 8) ((numleafs + 31) >> 3)); [lia|].
  set (n := Z.to_nat ((numleafs + 31) >> 3)) in *.
  destruct (AddToFatPVS_spec Mod_LeafPVS r_nopvs org nodes (replicate n 0)) as (pvs & -> & Hl & _ & Hp); [by rewrite length_replicate|].
  rewrite length_replicate in Hl. exists pvs. split; [done|].
  assert (forall k, 0 <= k < numleafs -> 0 <= k >> 3 < zlen pvs) as Hin8.
  { intros k Hk. rewrite Hl. unfold n. rewrite !(Z.shiftr_div_pow2 _ 3) by lia. change (2 ^ 3) with 8. Z.to_euclidean_division_equations. lia. }
  assert (Forall (fun l => 0 <= l >> 3 < zlen pvs) (take (Z.to_nat (num_leafs ent)) (leafnums ent))) as Hall8.
  { eapply Forall_impl; [exact Hall|]. intros k Hk. by apply Hin8. }
  assert (touches pvs (Z.to_nat (num_leafs ent)) (leafnums ent) = Ok true) as Ht.
  { eapply touches_seen; [exact Hin| |done|exact Hall8]. eapply sees_mono; [by apply Hp| |exact Hsee].
    rewrite Forall_forall in Hall8. by apply Hall8. }
  cbn [entities_loop]. rewrite Hm, bool_decide_false by done. cbn [negb orb]. rewrite Ht. cbn [mbind res_bind andb negb mret res_ret].
  destruct (e =? clent); cbn [mbind res_bind mret res_ret]; done.
Qed.

(** A small world: a plane at x = 0, leaf 1 in front of it and leaf 2 behind. *)
Definition demo_nodes : mnode :=
  MNode (Plane 0 (Vec (f32_of_Z 1) (f32_of_Z 0) (f32_of_Z 0)) (f32_of_Z 0)) (MLeaf (-1) 1) (MLeaf (-1) 2).
Definition demo_pvs (leaf : Z) : bytes := if leaf =? 1 then [2; 0; 0; 0; 0] else [4; 0; 0; 0; 0].
Definition demo_vars (x : Z) : entvars :=
  EV (f32_of_Z 7) (Vec (f32_of_Z x) (f32_of_Z 0) (f32_of_Z 0)) vec0 vec0 vec0 (Vec (f32_of_Z 0) (f32_of_Z 0) (f32_of_Z 22)) vec0 vec0
     (f32_of_Z 4) (f32_of_Z 3) (f32_of_Z 0) (f32_of_Z 0) (f32_of_Z 0) 1 0 0 (f32_of_Z 0) (f32_of_Z 0) (f32_of_Z 0) (f32_of_Z 0)
     (f32_of_Z 1) (f32_of_Z 512) (f32_of_Z 0) (f32_of_Z 0) (f32_of_Z 50) (f32_of_Z 100) (f32_of_Z 25) (f32_of_Z 25) (f32_of_Z 0)
     (f32_of_Z 0) (f32_of_Z 0) (f32_of_Z 1).
Definition demo_baseline : entity_state := ES vec0 vec0 7 0 0 0 0.
Definition demo_edict (x : Z) (leafs : list Z) : edict := Edict false (zlen leafs) leafs demo_baseline (demo_vars x) None None None.
Definition demo_msg : sizebuf := SizeBuf false false (replicate 64 0) 64 0.
Definition demo_str (_ : Z) : bytes := cs "progs/ogre.mdl".

Lemma visible_entities_sent_witness :
  exists pvs, SV_FatPVS demo_pvs false (Vec (f32_of_Z 100) (f32_of_Z 0) (f32_of_Z 0)) 3 demo_nodes = Ok pvs /\
    entities_loop LittleEndian demo_str pvs 1 false 2 [demo_edict 50 [2; 1]] demo_msg =
      if maxsize demo_msg - cursize demo_msg <? 16 then Ok demo_msg
      else msg' ← write_update LittleEndian 2 (demo_edict 50 [2; 1]) demo_msg;
           entities_loop LittleEndian demo_str pvs 1 false (2 + 1) [] msg'.
Proof.
  apply (visible_entities_sent LittleEndian demo_str demo_pvs false 3 demo_nodes
    (Vec (f32_of_Z 100) (f32_of_Z 0) (f32_of_Z 0)) 1 2 (demo_edict 50 [2; 1]) [] demo_msg 1); try by_vm.
  - split; vm_compute; repeat constructor.
  - right. left.
  - split; [by_vm|]. exists 2. split; by_vm.
  - repeat constructor; by_vm.
Defined.
