(* ===== verification/ClParse.v ===== *)
(** How the client reads what the server writes about entities and the player
    (Source/cl_parse.c, and damage in view.c).

    The client's entities are an array of [MAX_EDICTS]; a model is a pointer into [models],
    null when 0; the translations of player colours are pointers, of which only the identity
    matters.  The reader of the message is [msgstate] of SizeBuf.v.  [CL_SignonReply]
    (cl_main.c) is a parameter; the calls of [R_TranslatePlayerSkin] and [Sbar_Changed] are
    recorded.  The theorems put the server's functions of SvMessage.v and these together. *)

From Stdlib Require Import SpecFloat.
From S2P Require Import Prelude CFloat SizeBuf ComMisc SvMessage.

(** * The client's state *)

Definition SIGNONS : Z := 4.
Definition ST_RAND : Z := 1.
Definition MOD_PLAYER : Z := 1.
Definition mod_md3 : Z := 3.
Definition EF_Q3TRANS : Z := 256.

Record model : Type := Model { synctype : Z; modhint : Z; mtype : Z; mflags : Z }.

(** [vid.colormap], or the translations of a score. *)
Inductive colormap_ptr : Type := VidColormap | Translations (score : Z).

(** The fields of [entity_t] that updates change.
    C: Source/render.h:36-90 entity_s *)
Record entity : Type := Entity {
  ce_forcelink : bool;
  ce_baseline : entity_state;
  msgtime : f64;
  msg_origins0 : vec3;
  msg_origins1 : vec3;
  ce_origin : vec3;
  msg_angles0 : vec3;
  msg_angles1 : vec3;
  ce_angles : vec3;
  ce_model : Z;
  ce_frame : Z;
  syncbase : f32;
  ce_colormap : colormap_ptr;
  ce_effects : Z;
  skinnum : Z;
  ce_modelindex : Z;
  istransparent : bool;
  transparency : f32
}.

Definition set_ce_forcelink (v : bool) (s : entity) : entity :=
    Entity v (ce_baseline s) (msgtime s) (msg_origins0 s) (msg_origins1 s) (ce_origin s)
    (msg_angles0 s) (msg_angles1 s) (ce_angles s) (ce_model s) (ce_frame s) (syncbase s)
    (ce_colormap s) (ce_effects s) (skinnum s) (ce_modelindex s) (istransparent s)
    (transparency s).
Definition set_ce_baseline (v : entity_state) (s : entity) : entity :=
    Entity (ce_forcelink s) v (msgtime s) (msg_origins0 s) (msg_origins1 s) (ce_origin s)
    (msg_angles0 s) (msg_angles1 s) (ce_angles s) (ce_model s) (ce_frame s) (syncbase s)
    (ce_colormap s) (ce_effects s) (skinnum s) (ce_modelindex s) (istransparent s)
    (transparency s).
Definition set_msgtime (v : f64) (s : entity) : entity :=
    Entity (ce_forcelink s) (ce_baseline s) v (msg_origins0 s) (msg_origins1 s) (ce_origin
    s) (msg_angles0 s) (msg_angles1 s) (ce_angles s) (ce_model s) (ce_frame s) (syncbase s)
    (ce_colormap s) (ce_effects s) (skinnum s) (ce_modelindex s) (istransparent s)
    (transparency s).
Definition set_msg_origins0 (v : vec3) (s : entity) : entity :=
    Entity (ce_forcelink s) (ce_baseline s) (msgtime s) v (msg_origins1 s) (ce_origin s)
    (msg_angles0 s) (msg_angles1 s) (ce_angles s) (ce_model s) (ce_frame s) (syncbase s)
    (ce_colormap s) (ce_effects s) (skinnum s) (ce_modelindex s) (istransparent s)
    (transparency s).
Definition set_msg_origins1 (v : vec3) (s : entity) : entity :=
    Entity (ce_forcelink s) (ce_baseline s) (msgtime s) (msg_origins0 s) v (ce_origin s)
    (msg_angles0 s) (msg_angles1 s) (ce_angles s) (ce_model s) (ce_frame s) (syncbase s)
    (ce_colormap s) (ce_effects s) (skinnum s) (ce_modelindex s) (istransparent s)
    (transparency s).
Definition set_ce_origin (v : vec3) (s : entity) : entity :=
    Entity (ce_forcelink s) (ce_baseline s) (msgtime s) (msg_origins0 s) (msg_origins1 s) v
    (msg_angles0 s) (msg_angles1 s) (ce_angles s) (ce_model s) (ce_frame s) (syncbase s)
    (ce_colormap s) (ce_effects s) (skinnum s) (ce_modelindex s) (istransparent s)
    (transparency s).
Definition set_msg_angles0 (v : vec3) (s : entity) : entity :=
    Entity (ce_forcelink s) (ce_baseline s) (msgtime s) (msg_origins0 s) (msg_origins1 s)
    (ce_origin s) v (msg_angles1 s) (ce_angles s) (ce_model s) (ce_frame s) (syncbase s)
    (ce_colormap s) (ce_effects s) (skinnum s) (ce_modelindex s) (istransparent s)
    (transparency s).
Definition set_msg_angles1 (v : vec3) (s : entity) : entity :=
    Entity (ce_forcelink s) (ce_baseline s) (msgtime s) (msg_origins0 s) (msg_origins1 s)
    (ce_origin s) (msg_angles0 s) v (ce_angles s) (ce_model s) (ce_frame s) (syncbase s)
    (ce_colormap s) (ce_effects s) (skinnum s) (ce_modelindex s) (istransparent s)
    (transparency s).
Definition set_ce_angles (v : vec3) (s : entity) : entity :=
    Entity (ce_forcelink s) (ce_baseline s) (msgtime s) (msg_origins0 s) (msg_origins1 s)
    (ce_origin s) (msg_angles0 s) (msg_angles1 s) v (ce_model s) (ce_frame s) (syncbase s)
    (ce_colormap s) (ce_effects s) (skinnum s) (ce_modelindex s) (istransparent s)
    (transparency s).
Definition set_ce_model (v : Z) (s : entity) : entity :=
    Entity (ce_forcelink s) (ce_baseline s) (msgtime s) (msg_origins0 s) (msg_origins1 s)
    (ce_origin s) (msg_angles0 s) (msg_angles1 s) (ce_angles s) v (ce_frame s) (syncbase s)
    (ce_colormap s) (ce_effects s) (skinnum s) (ce_modelindex s) (istransparent s)
    (transparency s).
Definition set_ce_frame (v : Z) (s : entity) : entity :=
    Entity (ce_forcelink s) (ce_baseline s) (msgtime s) (msg_origins0 s) (msg_origins1 s)
    (ce_origin s) (msg_angles0 s) (msg_angles1 s) (ce_angles s) (ce_model s) v (syncbase s)
    (ce_colormap s) (ce_effects s) (skinnum s) (ce_modelindex s) (istransparent s)
    (transparency s).
Definition set_syncbase (v : f32) (s : entity) : entity :=
    Entity (ce_forcelink s) (ce_baseline s) (msgtime s) (msg_origins0 s) (msg_origins1 s)
    (ce_origin s) (msg_angles0 s) (msg_angles1 s) (ce_angles s) (ce_model s) (ce_frame s) v
    (ce_colormap s) (ce_effects s) (skinnum s) (ce_modelindex s) (istransparent s)
    (transparency s).
Definition set_ce_colormap (v : colormap_ptr) (s : entity) : entity :=
    Entity (ce_forcelink s) (ce_baseline s) (msgtime s) (msg_origins0 s) (msg_origins1 s)
    (ce_origin s) (msg_angles0 s) (msg_angles1 s) (ce_angles s) (ce_model s) (ce_frame s)
    (syncbase s) v (ce_effects s) (skinnum s) (ce_modelindex s) (istransparent s)
    (transparency s).
Definition set_ce_effects (v : Z) (s : entity) : entity :=
    Entity (ce_forcelink s) (ce_baseline s) (msgtime s) (msg_origins0 s) (msg_origins1 s)
    (ce_origin s) (msg_angles0 s) (msg_angles1 s) (ce_angles s) (ce_model s) (ce_frame s)
    (syncbase s) (ce_colormap s) v (skinnum s) (ce_modelindex s) (istransparent s)
    (transparency s).
Definition set_skinnum (v : Z) (s : entity) : entity :=
    Entity (ce_forcelink s) (ce_baseline s) (msgtime s) (msg_origins0 s) (msg_origins1 s)
    (ce_origin s) (msg_angles0 s) (msg_angles1 s) (ce_angles s) (ce_model s) (ce_frame s)
    (syncbase s) (ce_colormap s) (ce_effects s) v (ce_modelindex s) (istransparent s)
    (transparency s).
Definition set_ce_modelindex (v : Z) (s : entity) : entity :=
    Entity (ce_forcelink s) (ce_baseline s) (msgtime s) (msg_origins0 s) (msg_origins1 s)
    (ce_origin s) (msg_angles0 s) (msg_angles1 s) (ce_angles s) (ce_model s) (ce_frame s)
    (syncbase s) (ce_colormap s) (ce_effects s) (skinnum s) v (istransparent s)
    (transparency s).
Definition set_istransparent (v : bool) (s : entity) : entity :=
    Entity (ce_forcelink s) (ce_baseline s) (msgtime s) (msg_origins0 s) (msg_origins1 s)
    (ce_origin s) (msg_angles0 s) (msg_angles1 s) (ce_angles s) (ce_model s) (ce_frame s)
    (syncbase s) (ce_colormap s) (ce_effects s) (skinnum s) (ce_modelindex s) v
    (transparency s).
Definition set_transparency (v : f32) (s : entity) : entity :=
    Entity (ce_forcelink s) (ce_baseline s) (msgtime s) (msg_origins0 s) (msg_origins1 s)
    (ce_origin s) (msg_angles0 s) (msg_angles1 s) (ce_angles s) (ce_model s) (ce_frame s)
    (syncbase s) (ce_colormap s) (ce_effects s) (skinnum s) (ce_modelindex s) (istransparent
    s) v.

(** C: Source/client.h:157-242 client_state_t *)
Record clst : Type := Cl {
  signon : Z;
  cl_entities : list entity;
  num_entities : Z;
  bitcounts : list Z;
  mtime0 : f64;
  mtime1 : f64;
  model_precache : list Z;
  models : gmap Z model;
  cl_maxclients : Z;
  cl_rng : rng;
  skins_translated : list Z;
  viewheight : f32;
  cl_idealpitch : f32;
  mvelocity0 : vec3;
  mvelocity1 : vec3;
  punchangle : vec3;
  ideal_punchangle : f32;
  items : Z;
  item_gettime : list f32;
  cl_time : f64;
  onground : bool;
  inwater : bool;
  stats : list Z;
  sbar_changed : bool
}.

Definition set_signon (v : Z) (s : clst) : clst :=
    Cl v (cl_entities s) (num_entities s) (bitcounts s) (mtime0 s) (mtime1 s)
    (model_precache s) (models s) (cl_maxclients s) (cl_rng s) (skins_translated s)
    (viewheight s) (cl_idealpitch s) (mvelocity0 s) (mvelocity1 s) (punchangle s)
    (ideal_punchangle s) (items s) (item_gettime s) (cl_time s) (onground s) (inwater s)
    (stats s) (sbar_changed s).
Definition set_cl_entities (v : list entity) (s : clst) : clst :=
    Cl (signon s) v (num_entities s) (bitcounts s) (mtime0 s) (mtime1 s) (model_precache s)
    (models s) (cl_maxclients s) (cl_rng s) (skins_translated s) (viewheight s)
    (cl_idealpitch s) (mvelocity0 s) (mvelocity1 s) (punchangle s) (ideal_punchangle s)
    (items s) (item_gettime s) (cl_time s) (onground s) (inwater s) (stats s) (sbar_changed
    s).
Definition set_num_entities (v : Z) (s : clst) : clst :=
    Cl (signon s) (cl_entities s) v (bitcounts s) (mtime0 s) (mtime1 s) (model_precache s)
    (models s) (cl_maxclients s) (cl_rng s) (skins_translated s) (viewheight s)
    (cl_idealpitch s) (mvelocity0 s) (mvelocity1 s) (punchangle s) (ideal_punchangle s)
    (items s) (item_gettime s) (cl_time s) (onground s) (inwater s) (stats s) (sbar_changed
    s).
Definition set_bitcounts (v : list Z) (s : clst) : clst :=
    Cl (signon s) (cl_entities s) (num_entities s) v (mtime0 s) (mtime1 s) (model_precache
    s) (models s) (cl_maxclients s) (cl_rng s) (skins_translated s) (viewheight s)
    (cl_idealpitch s) (mvelocity0 s) (mvelocity1 s) (punchangle s) (ideal_punchangle s)
    (items s) (item_gettime s) (cl_time s) (onground s) (inwater s) (stats s) (sbar_changed
    s).
Definition set_mtime0 (v : f64) (s : clst) : clst :=
    Cl (signon s) (cl_entities s) (num_entities s) (bitcounts s) v (mtime1 s)
    (model_precache s) (models s) (cl_maxclients s) (cl_rng s) (skins_translated s)
    (viewheight s) (cl_idealpitch s) (mvelocity0 s) (mvelocity1 s) (punchangle s)
    (ideal_punchangle s) (items s) (item_gettime s) (cl_time s) (onground s) (inwater s)
    (stats s) (sbar_changed s).
Definition set_mtime1 (v : f64) (s : clst) : clst :=
    Cl (signon s) (cl_entities s) (num_entities s) (bitcounts s) (mtime0 s) v
    (model_precache s) (models s) (cl_maxclients s) (cl_rng s) (skins_translated s)
    (viewheight s) (cl_idealpitch s) (mvelocity0 s) (mvelocity1 s) (punchangle s)
    (ideal_punchangle s) (items s) (item_gettime s) (cl_time s) (onground s) (inwater s)
    (stats s) (sbar_changed s).
Definition set_model_precache (v : list Z) (s : clst) : clst :=
    Cl (signon s) (cl_entities s) (num_entities s) (bitcounts s) (mtime0 s) (mtime1 s) v
    (models s) (cl_maxclients s) (cl_rng s) (skins_translated s) (viewheight s)
    (cl_idealpitch s) (mvelocity0 s) (mvelocity1 s) (punchangle s) (ideal_punchangle s)
    (items s) (item_gettime s) (cl_time s) (onground s) (inwater s) (stats s) (sbar_changed
    s).
Definition set_models (v : gmap Z model) (s : clst) : clst :=
    Cl (signon s) (cl_entities s) (num_entities s) (bitcounts s) (mtime0 s) (mtime1 s)
    (model_precache s) v (cl_maxclients s) (cl_rng s) (skins_translated s) (viewheight s)
    (cl_idealpitch s) (mvelocity0 s) (mvelocity1 s) (punchangle s) (ideal_punchangle s)
    (items s) (item_gettime s) (cl_time s) (onground s) (inwater s) (stats s) (sbar_changed
    s).
Definition set_cl_maxclients (v : Z) (s : clst) : clst :=
    Cl (signon s) (cl_entities s) (num_entities s) (bitcounts s) (mtime0 s) (mtime1 s)
    (model_precache s) (models s) v (cl_rng s) (skins_translated s) (viewheight s)
    (cl_idealpitch s) (mvelocity0 s) (mvelocity1 s) (punchangle s) (ideal_punchangle s)
    (items s) (item_gettime s) (cl_time s) (onground s) (inwater s) (stats s) (sbar_changed
    s).
Definition set_cl_rng (v : rng) (s : clst) : clst :=
    Cl (signon s) (cl_entities s) (num_entities s) (bitcounts s) (mtime0 s) (mtime1 s)
    (model_precache s) (models s) (cl_maxclients s) v (skins_translated s) (viewheight s)
    (cl_idealpitch s) (mvelocity0 s) (mvelocity1 s) (punchangle s) (ideal_punchangle s)
    (items s) (item_gettime s) (cl_time s) (onground s) (inwater s) (stats s) (sbar_changed
    s).
Definition set_skins_translated (v : list Z) (s : clst) : clst :=
    Cl (signon s) (cl_entities s) (num_entities s) (bitcounts s) (mtime0 s) (mtime1 s)
    (model_precache s) (models s) (cl_maxclients s) (cl_rng s) v (viewheight s)
    (cl_idealpitch s) (mvelocity0 s) (mvelocity1 s) (punchangle s) (ideal_punchangle s)
    (items s) (item_gettime s) (cl_time s) (onground s) (inwater s) (stats s) (sbar_changed
    s).
Definition set_viewheight (v : f32) (s : clst) : clst :=
    Cl (signon s) (cl_entities s) (num_entities s) (bitcounts s) (mtime0 s) (mtime1 s)
    (model_precache s) (models s) (cl_maxclients s) (cl_rng s) (skins_translated s) v
    (cl_idealpitch s) (mvelocity0 s) (mvelocity1 s) (punchangle s) (ideal_punchangle s)
    (items s) (item_gettime s) (cl_time s) (onground s) (inwater s) (stats s) (sbar_changed
    s).
Definition set_cl_idealpitch (v : f32) (s : clst) : clst :=
    Cl (signon s) (cl_entities s) (num_entities s) (bitcounts s) (mtime0 s) (mtime1 s)
    (model_precache s) (models s) (cl_maxclients s) (cl_rng s) (skins_translated s)
    (viewheight s) v (mvelocity0 s) (mvelocity1 s) (punchangle s) (ideal_punchangle s)
    (items s) (item_gettime s) (cl_time s) (onground s) (inwater s) (stats s) (sbar_changed
    s).
Definition set_mvelocity0 (v : vec3) (s : clst) : clst :=
    Cl (signon s) (cl_entities s) (num_entities s) (bitcounts s) (mtime0 s) (mtime1 s)
    (model_precache s) (models s) (cl_maxclients s) (cl_rng s) (skins_translated s)
    (viewheight s) (cl_idealpitch s) v (mvelocity1 s) (punchangle s) (ideal_punchangle s)
    (items s) (item_gettime s) (cl_time s) (onground s) (inwater s) (stats s) (sbar_changed
    s).
Definition set_mvelocity1 (v : vec3) (s : clst) : clst :=
    Cl (signon s) (cl_entities s) (num_entities s) (bitcounts s) (mtime0 s) (mtime1 s)
    (model_precache s) (models s) (cl_maxclients s) (cl_rng s) (skins_translated s)
    (viewheight s) (cl_idealpitch s) (mvelocity0 s) v (punchangle s) (ideal_punchangle s)
    (items s) (item_gettime s) (cl_time s) (onground s) (inwater s) (stats s) (sbar_changed
    s).
Definition set_punchangle (v : vec3) (s : clst) : clst :=
    Cl (signon s) (cl_entities s) (num_entities s) (bitcounts s) (mtime0 s) (mtime1 s)
    (model_precache s) (models s) (cl_maxclients s) (cl_rng s) (skins_translated s)
    (viewheight s) (cl_idealpitch s) (mvelocity0 s) (mvelocity1 s) v (ideal_punchangle s)
    (items s) (item_gettime s) (cl_time s) (onground s) (inwater s) (stats s) (sbar_changed
    s).
Definition set_ideal_punchangle (v : f32) (s : clst) : clst :=
    Cl (signon s) (cl_entities s) (num_entities s) (bitcounts s) (mtime0 s) (mtime1 s)
    (model_precache s) (models s) (cl_maxclients s) (cl_rng s) (skins_translated s)
    (viewheight s) (cl_idealpitch s) (mvelocity0 s) (mvelocity1 s) (punchangle s) v (items
    s) (item_gettime s) (cl_time s) (onground s) (inwater s) (stats s) (sbar_changed s).
Definition set_items (v : Z) (s : clst) : clst :=
    Cl (signon s) (cl_entities s) (num_entities s) (bitcounts s) (mtime0 s) (mtime1 s)
    (model_precache s) (models s) (cl_maxclients s) (cl_rng s) (skins_translated s)
    (viewheight s) (cl_idealpitch s) (mvelocity0 s) (mvelocity1 s) (punchangle s)
    (ideal_punchangle s) v (item_gettime s) (cl_time s) (onground s) (inwater s) (stats s)
    (sbar_changed s).
Definition set_item_gettime (v : list f32) (s : clst) : clst :=
    Cl (signon s) (cl_entities s) (num_entities s) (bitcounts s) (mtime0 s) (mtime1 s)
    (model_precache s) (models s) (cl_maxclients s) (cl_rng s) (skins_translated s)
    (viewheight s) (cl_idealpitch s) (mvelocity0 s) (mvelocity1 s) (punchangle s)
    (ideal_punchangle s) (items s) v (cl_time s) (onground s) (inwater s) (stats s)
    (sbar_changed s).
Definition set_cl_time (v : f64) (s : clst) : clst :=
    Cl (signon s) (cl_entities s) (num_entities s) (bitcounts s) (mtime0 s) (mtime1 s)
    (model_precache s) (models s) (cl_maxclients s) (cl_rng s) (skins_translated s)
    (viewheight s) (cl_idealpitch s) (mvelocity0 s) (mvelocity1 s) (punchangle s)
    (ideal_punchangle s) (items s) (item_gettime s) v (onground s) (inwater s) (stats s)
    (sbar_changed s).
Definition set_onground (v : bool) (s : clst) : clst :=
    Cl (signon s) (cl_entities s) (num_entities s) (bitcounts s) (mtime0 s) (mtime1 s)
    (model_precache s) (models s) (cl_maxclients s) (cl_rng s) (skins_translated s)
    (viewheight s) (cl_idealpitch s) (mvelocity0 s) (mvelocity1 s) (punchangle s)
    (ideal_punchangle s) (items s) (item_gettime s) (cl_time s) v (inwater s) (stats s)
    (sbar_changed s).
Definition set_inwater (v : bool) (s : clst) : clst :=
    Cl (signon s) (cl_entities s) (num_entities s) (bitcounts s) (mtime0 s) (mtime1 s)
    (model_precache s) (models s) (cl_maxclients s) (cl_rng s) (skins_translated s)
    (viewheight s) (cl_idealpitch s) (mvelocity0 s) (mvelocity1 s) (punchangle s)
    (ideal_punchangle s) (items s) (item_gettime s) (cl_time s) (onground s) v (stats s)
    (sbar_changed s).
Definition set_stats (v : list Z) (s : clst) : clst :=
    Cl (signon s) (cl_entities s) (num_entities s) (bitcounts s) (mtime0 s) (mtime1 s)
    (model_precache s) (models s) (cl_maxclients s) (cl_rng s) (skins_translated s)
    (viewheight s) (cl_idealpitch s) (mvelocity0 s) (mvelocity1 s) (punchangle s)
    (ideal_punchangle s) (items s) (item_gettime s) (cl_time s) (onground s) (inwater s) v
    (sbar_changed s).
Definition set_sbar_changed (v : bool) (s : clst) : clst :=
    Cl (signon s) (cl_entities s) (num_entities s) (bitcounts s) (mtime0 s) (mtime1 s)
    (model_precache s) (models s) (cl_maxclients s) (cl_rng s) (skins_translated s)
    (viewheight s) (cl_idealpitch s) (mvelocity0 s) (mvelocity1 s) (punchangle s)
    (ideal_punchangle s) (items s) (item_gettime s) (cl_time s) (onground s) (inwater s)
    (stats s) v.

(** An entity is changed in place. *)
Definition upd_entity (num : Z) (f : entity -> entity) (st : clst) : res clst :=
  if num <? 0 then Fault (Undefined "outside cl_entities")
  else match cl_entities st !! Z.to_nat num with
       | Some e => mret (set_cl_entities (<[Z.to_nat num := f e]> (cl_entities st)) st)
       | None => Fault (Undefined "outside cl_entities")
       end.

Definition get_entity (num : Z) (st : clst) : res entity :=
  if num <? 0 then Fault (Undefined "outside cl_entities")
  else of_option (Undefined "outside cl_entities") (cl_entities st !! Z.to_nat num).

(** Entities that come into use get the default colormap. *)
Fixpoint use_entities (n : nat) (st : clst) : res clst :=
  match n with
  | O => mret st
  | S n =>
      st ← upd_entity (num_entities st) (set_ce_colormap VidColormap) st;
      use_entities n (set_num_entities (num_entities st + 1) st)
  end.

(** There is no test for a negative number.
    C: Source/cl_parse.c:148-163 CL_EntityNum *)
Definition CL_EntityNum (num : Z) (st : clst) : res clst :=
  if num_entities st <=? num then
    if MAX_EDICTS <=? num then Fault (Host_Error "CL_EntityNum: %i is an invalid number")
    else use_entities (Z.to_nat (num + 1 - num_entities st)) st
  else mret st.

(** * Reading *)

Definition read_if {A} (c : bool) (rd : msgstate -> res (A * msgstate)) (d : A) (m : msgstate) : res (A * msgstate) :=
  if c then rd m else mret (d, m).

(** C: Source/cl_parse.c:576-589 CL_ParseBaseline *)
Definition CL_ParseBaseline (num : Z) (st : clst) (m : msgstate) : res (clst * msgstate) :=
  '(model, m) ← MSG_ReadByte m;
  '(frame, m) ← MSG_ReadByte m;
  '(colormap, m) ← MSG_ReadByte m;
  '(skin, m) ← MSG_ReadByte m;
  '(o0, m) ← MSG_ReadCoord m;
  '(a0, m) ← MSG_ReadAngle m;
  '(o1, m) ← MSG_ReadCoord m;
  '(a1, m) ← MSG_ReadAngle m;
  '(o2, m) ← MSG_ReadCoord m;
  '(a2, m) ← MSG_ReadAngle m;
  st ← upd_entity num (fun e => set_ce_baseline
    (ES (Vec o0 o1 o2) (Vec a0 a1 a2) model frame colormap skin (es_effects (ce_baseline e))) e) st;
  mret (st, m).

(** The command [svc_spawnbaseline].
    C: Source/cl_parse.c:1063-1067 svc_spawnbaseline *)
Definition parse_spawnbaseline (st : clst) (m : msgstate) : res (clst * msgstate) :=
  '(i, m) ← MSG_ReadShort m;
  st ← CL_EntityNum i st;
  CL_ParseBaseline i st m.

Definition count_bits (bits : Z) (counts : list Z) : list Z :=
  imap (fun i c => if truth (bits & (1 << Z.of_nat i)) then s32 (c + 1) else c) counts.

(** [R_TranslatePlayerSkin (num - 1)] for players. *)
Definition translate (num : Z) (st : clst) : clst :=
  if (0 <? num) && (num <=? cl_maxclients st) then set_skins_translated (skins_translated st ++ [num - 1]) st else st.

Section parsing.

Variable h : endian.
Variable CL_SignonReply : clst -> res clst.

Definition model_at (st : clst) (p : Z) : res (option model) :=
  if p =? 0 then mret None
  else match models st !! p with
       | Some m => mret (Some m)
       | None => Fault (Undefined "no model here")
       end.

(** The new model of an entity: its animation starts anew, and a null model forces a link.
    C: Source/cl_parse.c:490-503 model *)
Definition change_model (num : Z) (forcelink : bool) (st : clst) : res (bool * clst) :=
  ent ← get_entity num st;
  let i := ce_modelindex ent in
  p ← (if i <? 0 then Fault (Undefined "outside model_precache")
       else of_option (Undefined "outside model_precache") (model_precache st !! Z.to_nat i));
  if p =? ce_model ent then mret (forcelink, st)
  else
    md ← model_at st p;
    '(forcelink, st) ← match md with
      | Some md =>
          if synctype md =? ST_RAND then
            let '(r, g) := tas_rand (cl_rng st) in
            let x := f32_div (f32_of_Z (r & 0x7fff)) (f32_of_Z 0x7fff) in
            st ← upd_entity num (fun e => set_syncbase x (set_ce_model p e)) (set_cl_rng g st);
            mret (forcelink, st)
          else st ← upd_entity num (fun e => set_syncbase (f32_of_Z 0) (set_ce_model p e)) st; mret (forcelink, st)
      | None => st ← upd_entity num (set_ce_model p) st; mret (true, st)
      end;
    mret (forcelink, translate num st).

(** The rest of an update, once the model is known.
    C: Source/cl_parse.c:505-568 frame *)
Definition update_attributes (bits num : Z) (base : entity_state) (forcelink : bool) (st : clst) (m : msgstate)
  : res (clst * msgstate) :=
  '(frame, m) ← read_if (has bits U_FRAME) MSG_ReadByte (es_frame base) m;
  '(i, m) ← read_if (has bits U_COLORMAP) MSG_ReadByte (es_colormap base) m;
  ent ← get_entity num st;
  md ← model_at st (ce_model ent);
  let player := match md with Some md => modhint md =? MOD_PLAYER | None => false end in
  let colormap := if truth i && (i <=? cl_maxclients st) && player then Translations (i - 1) else VidColormap in
  '(skin, m) ← read_if (has bits U_SKIN) MSG_ReadByte (es_skin base) m;
  let st := if skin =? skinnum ent then st else translate num st in
  '(effects, m) ← read_if (has bits U_EFFECTS) MSG_ReadByte (es_effects base) m;
  '(o0, m) ← read_if (has bits U_ORIGIN1) MSG_ReadCoord (vx (es_origin base)) m;
  '(a0, m) ← read_if (has bits U_ANGLE1) MSG_ReadAngle (vx (es_angles base)) m;
  '(o1, m) ← read_if (has bits U_ORIGIN2) MSG_ReadCoord (vy (es_origin base)) m;
  '(a1, m) ← read_if (has bits U_ANGLE2) MSG_ReadAngle (vy (es_angles base)) m;
  '(o2, m) ← read_if (has bits U_ORIGIN3) MSG_ReadCoord (vz (es_origin base)) m;
  '(a2, m) ← read_if (has bits U_ANGLE3) MSG_ReadAngle (vz (es_angles base)) m;
  '(trans, m) ← (if has bits U_TRANS then
      '(temp, m) ← MSG_ReadFloat h m;
      '(alpha, m) ← MSG_ReadFloat h m;
      '(_, m) ← read_if (f_to_int temp =? 2) (MSG_ReadFloat h) (f32_of_Z 0) m;
      mret ((true, alpha), m)
    else
      let q3 := match md with Some md => (mtype md =? mod_md3) && truth (mflags md & EF_Q3TRANS) | None => false end in
      mret ((q3, f32_of_Z 1), m));
  let o := Vec o0 o1 o2 in
  let a := Vec a0 a1 a2 in
  let shift e := set_msg_origins0 o (set_msg_angles0 a
                   (set_msg_origins1 (msg_origins0 e) (set_msg_angles1 (msg_angles0 e) e))) in
  let attributes e := set_istransparent trans.1 (set_transparency trans.2
                        (set_ce_effects effects (set_skinnum skin (set_ce_colormap colormap (set_ce_frame frame e))))) in
  let nolerp e := if has bits U_NOLERP then set_ce_forcelink true e else e in
  let relink (e : entity) : entity :=
    if (forcelink : bool) then
      set_ce_forcelink true (set_ce_angles a (set_msg_angles1 a (set_ce_origin o (set_msg_origins1 o e))))
    else e in
  st ← upd_entity num (fun e => relink (nolerp (shift (attributes e)))) st;
  mret (st, m).

(** C: Source/cl_parse.c:448-569 CL_ParseUpdate *)
Definition CL_ParseUpdate (bits : Z) (st : clst) (m : msgstate) : res (clst * msgstate) :=
  st ← (if signon st =? SIGNONS - 1 then CL_SignonReply (set_signon SIGNONS st) else mret st);
  '(bits, m) ← (if has bits U_MOREBITS then '(b, m) ← MSG_ReadByte m; mret (bits .| (b << 8), m) else mret (bits, m));
  '(num, m) ← (if has bits U_LONGENTITY then MSG_ReadShort m else MSG_ReadByte m);
  st ← CL_EntityNum num st;
  let st := set_bitcounts (count_bits bits (bitcounts st)) st in
  ent ← get_entity num st;
  let forcelink := negb (f_eqb (msgtime ent) (mtime1 st)) in
  let base := ce_baseline ent in
  '(i, m) ← read_if (has bits U_MODEL) MSG_ReadByte (es_modelindex base) m;
  st ← (if has bits U_MODEL && (MAX_MODELS <=? i) then Fault (Host_Error "CL_ParseUpdate: bad modelindex")
        else upd_entity num (fun e => set_ce_modelindex i (set_msgtime (mtime0 st) e)) st);
  '(forcelink, st) ← change_model num forcelink st;
  update_attributes bits num base forcelink st m.

(** The head of [CL_ParseServerMessage] for a command with the high bit set: a fast update.
    C: Source/cl_parse.c:931-946 CL_ParseUpdate *)
Definition parse_fast_update (st : clst) (m : msgstate) : res (option (clst * msgstate)) :=
  if msg_badread m then Fault (Host_Error "CL_ParseServerMessage: Bad server message")
  else
    '(cmd, m) ← MSG_ReadByte m;
    if cmd =? -1 then mret None
    else if truth (cmd & 128) then '(st, m) ← CL_ParseUpdate (cmd & 127) st m; mret (Some (st, m))
    else mret None.

End parsing.

Definition stat (i : Z) (st : clst) : Z := default 0 (stats st !! Z.to_nat i).
Definition set_stat (i v : Z) (st : clst) : clst := set_stats (<[Z.to_nat i := v]> (stats st)) st.
(** A statistic of the status bar. *)
Definition change_stat (i v : Z) (st : clst) : clst :=
  if stat i st =? v then st else set_sbar_changed true (set_stat i v st).

Definition STAT_HEALTH : Z := 0.
Definition STAT_WEAPON : Z := 2.
Definition STAT_AMMO : Z := 3.
Definition STAT_ARMOR : Z := 4.
Definition STAT_WEAPONFRAME : Z := 5.
Definition STAT_SHELLS : Z := 6.
Definition STAT_NAILS : Z := 7.
Definition STAT_ROCKETS : Z := 8.
Definition STAT_CELLS : Z := 9.
Definition STAT_ACTIVEWEAPON : Z := 10.

(** [cl.item_gettime[j] = cl.time] for the items that are new.
    C: Source/cl_parse.c:624-631 items *)
Definition change_items (i : Z) (st : clst) : clst :=
  if items st =? i then st
  else
    let t := f32_of_f64 (cl_time st) in
    let got j old := if truth (i & (1 << Z.of_nat j)) && negb (truth (items st & (1 << Z.of_nat j))) then t else old in
    set_items i (set_item_gettime (imap got (item_gettime st)) (set_sbar_changed true st)).

Definition read_f (rd : msgstate -> res (Z * msgstate)) (k : Z) (m : msgstate) : res (f32 * msgstate) :=
  '(c, m) ← rd m; mret (f32_of_Z (c * k), m).

(** Where the player looks and how it moves.
    C: Source/cl_parse.c:604-621 viewheight *)
Definition clientdata_motion (bits : Z) (st : clst) (m : msgstate) : res (clst * msgstate) :=
  '(vh, m) ← read_if (has bits SU_VIEWHEIGHT) (read_f MSG_ReadChar 1) (f32_of_Z DEFAULT_VIEWHEIGHT) m;
  '(ip, m) ← read_if (has bits SU_IDEALPITCH) (read_f MSG_ReadChar 1) (f32_of_Z 0) m;
  '(p0, m) ← read_if (has bits SU_PUNCH1) (read_f MSG_ReadChar 1) (f32_of_Z 0) m;
  '(v0, m) ← read_if (has bits SU_VELOCITY1) (read_f MSG_ReadChar 16) (f32_of_Z 0) m;
  '(p1, m) ← read_if (has bits SU_PUNCH2) (read_f MSG_ReadChar 1) (f32_of_Z 0) m;
  '(v1, m) ← read_if (has bits SU_VELOCITY2) (read_f MSG_ReadChar 16) (f32_of_Z 0) m;
  '(p2, m) ← read_if (has bits SU_PUNCH3) (read_f MSG_ReadChar 1) (f32_of_Z 0) m;
  '(v2, m) ← read_if (has bits SU_VELOCITY3) (read_f MSG_ReadChar 16) (f32_of_Z 0) m;
  let st := set_viewheight vh (set_cl_idealpitch ip (set_mvelocity1 (mvelocity0 st)
              (set_punchangle (Vec p0 p1 p2) (set_mvelocity0 (Vec v0 v1 v2) st)))) in
  let st := if f_ltb p0 (f32_of_Z 0) then
              if f_leb (f32_of_Z (-2)) p0 then set_ideal_punchangle (f32_of_Z (-2)) st
              else if f_leb (f32_of_Z (-4)) p0 then set_ideal_punchangle (f32_of_Z (-4)) st
              else st
            else st in
  mret (st, m).

(** The numbers of the status bar.
    C: Source/cl_parse.c:636-693 stats *)
Definition clientdata_stats (mission_pack : bool) (bits : Z) (st : clst) (m : msgstate) : res (clst * msgstate) :=
  '(i, m) ← read_if (has bits SU_WEAPONFRAME) MSG_ReadByte 0 m;
  let st := set_stat STAT_WEAPONFRAME i st in
  '(i, m) ← read_if (has bits SU_ARMOR) MSG_ReadByte 0 m;
  let st := change_stat STAT_ARMOR i st in
  '(i, m) ← read_if (has bits SU_WEAPON) MSG_ReadByte 0 m;
  let st := change_stat STAT_WEAPON i st in
  '(i, m) ← MSG_ReadShort m;
  let st := change_stat STAT_HEALTH i st in
  '(i, m) ← MSG_ReadByte m;
  let st := change_stat STAT_AMMO i st in
  '(i, m) ← MSG_ReadByte m;
  let st := change_stat STAT_SHELLS i st in
  '(i, m) ← MSG_ReadByte m;
  let st := change_stat STAT_NAILS i st in
  '(i, m) ← MSG_ReadByte m;
  let st := change_stat STAT_ROCKETS i st in
  '(i, m) ← MSG_ReadByte m;
  let st := change_stat STAT_CELLS i st in
  '(i, m) ← MSG_ReadByte m;
  mret (change_stat STAT_ACTIVEWEAPON (if mission_pack then s32 (1 << i) else i) st, m).

(** C: Source/cl_parse.c:600-694 CL_ParseClientdata *)
Definition CL_ParseClientdata (mission_pack : bool) (bits : Z) (st : clst) (m : msgstate) : res (clst * msgstate) :=
  '(st, m) ← clientdata_motion bits st m;
  '(i, m) ← MSG_ReadLong m;
  let st := change_items i st in
  let st := set_onground (has bits SU_ONGROUND) (set_inwater (has bits SU_INWATER) st) in
  clientdata_stats mission_pack bits st m.

(** Three numbers of a message. *)
Definition read_vec (rd : msgstate -> res (f32 * msgstate)) (m : msgstate) : res (vec3 * msgstate) :=
  '(x, m) ← rd m; '(y, m) ← rd m; '(z, m) ← rd m; mret (Vec x y z, m).

(** What the client reads of damage: armor, blood and where it came from.
    C: Source/view.c:351-354 V_ParseDamage *)
Definition read_damage (m : msgstate) : res (Z * Z * vec3 * msgstate) :=
  '(armor, m) ← MSG_ReadByte m; '(blood, m) ← MSG_ReadByte m; '(from, m) ← read_vec MSG_ReadCoord m;
  mret (armor, blood, from, m).

(** The view angles that the server sets.
    C: Source/cl_parse.c:1008-1011 viewangles *)
Definition read_setangle (m : msgstate) : res (vec3 * msgstate) := read_vec MSG_ReadAngle m.

(** * Lemmas *)

(** ** Flags *)

Lemma has_or_if c b bits u : has (or_if c b bits) u = c && has b u || has bits u.
Proof.
  unfold has, or_if, truth. destruct c; [|done]. rewrite Z.land_lor_distr_l. cbn [andb].
  destruct (Z.eqb_spec (Z.lor (bits & u) (b & u)) 0) as [E|E].
  - apply Z.lor_eq_0_iff in E as [-> ->]. done.
  - destruct (Z.eqb_spec (b & u) 0) as [E1|]; [|done]. destruct (Z.eqb_spec (bits & u) 0) as [E2|]; [|done].
    by rewrite E1, E2 in E.
Qed.

Lemma has_lor b bits u : has (bits .| b) u = has b u || has bits u.
Proof. apply (has_or_if true). Qed.

(** Flags outside a mask. *)
Definition within (mask bits : Z) : Prop := bits & mask = bits.

Lemma within_or_if mask c b bits : within mask b -> within mask bits -> within mask (or_if c b bits).
Proof. unfold within, or_if. destruct c; [|done]. rewrite Z.land_lor_distr_l. by intros -> ->. Qed.

Lemma within_range mask bits : 0 <= mask -> within mask bits -> 0 <= bits <= mask.
Proof.
  intros Hm H. unfold within in H. assert (0 <= bits) by (rewrite <- H; apply Z.land_nonneg; auto). split; [done|].
  rewrite <- H. apply Z.ldiff_le; [done|]. rewrite Z.ldiff_land, <- Z.land_assoc, Z.land_lnot_diag. apply Z.land_0_r.
Qed.

Lemma within_land mask u bits : within mask bits -> bits & u = bits & (mask & u).
Proof. unfold within. intros H. rewrite <- H at 1. by rewrite Z.land_assoc. Qed.

Lemma update_bits_within e ent : within 65406 (update_bits e ent).
Proof. unfold update_bits. repeat apply within_or_if; by_vm. Qed.

(** The conditions the flags stand for. *)
Ltac flag :=
  intros; unfold update_bits, clientdata_bits; rewrite ?has_or_if, ?has_lor, ?has_or_if, ?has_lor, ?has_or_if;
  repeat match goal with |- context [has ?a ?b] => let v := eval vm_compute in (has a b) in
    match v with true => idtac | false => idtac end; change (has a b) with v end;
  rewrite ?andb_false_r, ?andb_true_r, ?orb_true_l, ?orb_false_l, ?orb_false_r; reflexivity.

Section update_flags.
Context (e : Z) (ent : edict).
Let v := ed_v ent.
Let b := ed_baseline ent.

Lemma flag_model : has (update_bits e ent) U_MODEL = differs (es_modelindex b) (ev_modelindex v).
Proof. flag. Qed.
Lemma flag_frame : has (update_bits e ent) U_FRAME = differs (es_frame b) (ev_frame v).
Proof. flag. Qed.
Lemma flag_colormap : has (update_bits e ent) U_COLORMAP = differs (es_colormap b) (ev_colormap v).
Proof. flag. Qed.
Lemma flag_skin : has (update_bits e ent) U_SKIN = differs (es_skin b) (ev_skin v).
Proof. flag. Qed.
Lemma flag_effects : has (update_bits e ent) U_EFFECTS = differs (es_effects b) (ev_effects v).
Proof. flag. Qed.
Lemma flag_origin1 : has (update_bits e ent) U_ORIGIN1 = missed (vx (ev_origin v)) (vx (es_origin b)).
Proof. flag. Qed.
Lemma flag_origin2 : has (update_bits e ent) U_ORIGIN2 = missed (vy (ev_origin v)) (vy (es_origin b)).
Proof. flag. Qed.
Lemma flag_origin3 : has (update_bits e ent) U_ORIGIN3 = missed (vz (ev_origin v)) (vz (es_origin b)).
Proof. flag. Qed.
Lemma flag_angle1 : has (update_bits e ent) U_ANGLE1 = negb (f_eqb (vx (ev_angles v)) (vx (es_angles b))).
Proof. flag. Qed.
Lemma flag_angle2 : has (update_bits e ent) U_ANGLE2 = negb (f_eqb (vy (ev_angles v)) (vy (es_angles b))).
Proof. flag. Qed.
Lemma flag_angle3 : has (update_bits e ent) U_ANGLE3 = negb (f_eqb (vz (ev_angles v)) (vz (es_angles b))).
Proof. flag. Qed.
Lemma flag_long : has (update_bits e ent) U_LONGENTITY = (256 <=? e).
Proof. flag. Qed.
Lemma flag_trans : has (update_bits e ent) U_TRANS =
  ((f_ltb (alpha_of ent) (f32_of_Z 1) && f_ltb (f32_of_Z 0) (alpha_of ent)) || f_truth (fullbright_of ent)).
Proof. flag. Qed.
Lemma flag_nolerp : has (update_bits e ent) U_NOLERP = f_eqb (ev_movetype v) (f32_of_Z MOVETYPE_STEP).
Proof. flag. Qed.
End update_flags.

(** The flags as they are sent, with [U_MOREBITS]. *)
Definition sent_bits (e : Z) (ent : edict) : Z :=
  or_if (256 <=? update_bits e ent) U_MOREBITS (update_bits e ent).

Lemma sent_bits_has e ent u : has U_MOREBITS u = false -> has (sent_bits e ent) u = has (update_bits e ent) u.
Proof. intros H. unfold sent_bits. rewrite has_or_if, H. by rewrite andb_false_r. Qed.

Lemma sent_bits_more e ent : has (sent_bits e ent) U_MOREBITS = (256 <=? update_bits e ent).
Proof.
  unfold sent_bits. rewrite has_or_if. change (has U_MOREBITS U_MOREBITS) with true. rewrite andb_true_r.
  replace (has (update_bits e ent) U_MOREBITS) with false; [by rewrite orb_false_r|].
  symmetry. unfold has. rewrite (within_land _ _ _ (update_bits_within e ent)).
  change (65406 & U_MOREBITS) with 0. by rewrite Z.land_0_r.
Qed.

Lemma sent_bits_within e ent : within 65407 (sent_bits e ent).
Proof.
  unfold sent_bits. apply within_or_if; [by_vm|]. unfold within.
  rewrite (within_land _ _ _ (update_bits_within e ent)). apply update_bits_within.
Qed.

(** The command byte: the signal bit, and seven flags. *)
Lemma cmd_low bits : u8 (bits .| U_SIGNAL) & 127 = bits & 127.
Proof.
  unfold u8. rewrite <- land_255, <- Z.land_assoc. change (255 & 127) with 127. rewrite Z.land_lor_distr_l.
  change (U_SIGNAL & 127) with 0. apply Z.lor_0_r.
Qed.
Lemma cmd_signal bits : truth (u8 (bits .| U_SIGNAL) & 128) = true.
Proof.
  unfold u8, truth. rewrite <- land_255, <- Z.land_assoc. change (255 & 128) with 128. rewrite Z.land_lor_distr_l.
  change (U_SIGNAL & 128) with 128. apply negb_true_iff, Z.eqb_neq. intros E. by apply Z.lor_eq_0_iff in E as [_ E].
Qed.

(** The client has the flags together again. *)
Lemma flags_rejoined e ent :
  (if has (sent_bits e ent & 127) U_MOREBITS
   then (sent_bits e ent & 127) .| (u8 (sent_bits e ent >> 8) << 8) else sent_bits e ent & 127) = sent_bits e ent.
Proof.
  assert (has (sent_bits e ent & 127) U_MOREBITS = has (sent_bits e ent) U_MOREBITS) as ->.
  { unfold has. by rewrite <- Z.land_assoc. }
  pose proof (sent_bits_within e ent) as Hw. pose proof (within_range 65407 _ ltac:(done) Hw) as Hr.
  destruct (has (sent_bits e ent) U_MOREBITS) eqn:E.
  - rewrite u8_id by (rewrite shiftr_8; Z.to_euclidean_division_equations; lia).
    rewrite <- Z.ldiff_ones_r, Z.ldiff_land, <- Z.land_lor_distr_r by lia.
    rewrite (within_land _ _ _ Hw). exact Hw.
  - rewrite sent_bits_more in E. bool_props. unfold sent_bits in *. rewrite (proj2 (Z.leb_gt _ _)) in * by lia. cbn [or_if] in *.
    pose proof (update_bits_within e ent) as Hw2. unfold within in Hw2.
    pose proof (within_range 65406 _ ltac:(done) Hw2).
    assert (update_bits e ent & 255 = update_bits e ent) as H255 by (rewrite land_255; apply Z.mod_small; lia).
    transitivity (update_bits e ent & 255 & 127); [by rewrite H255|].
    rewrite <- Z.land_assoc, (within_land _ _ _ Hw2). change (65406 & (255 & 127)) with (65406 & 255).
    by rewrite <- (within_land _ _ _ Hw2).
Qed.

(** ** Messages as lists of fields *)

Definition opt (c : bool) (f : field) : list field := if c then [f] else [].

Lemma write_fields_app h fs gs : forall sb,
  write_fields h sb (fs ++ gs) = (sb ← write_fields h sb fs; write_fields h sb gs).
Proof. induction fs as [|f fs IH]; intros sb; cbn; [done|]. destruct (write_field h sb f); cbn; [apply IH|done]. Qed.

Lemma write_if_opt h c f w sb : (forall sb, w sb = write_field h sb f) -> write_if c w sb = write_fields h sb (opt c f).
Proof. intros H. unfold write_if, opt. destruct c; [|done]. cbn. rewrite H. by destruct (write_field h sb f). Qed.

(** The value on the wire. *)
Lemma byte_field h c sb : MSG_WriteByte sb c = write_field h sb (FByte (u8 c)).
Proof. cbn. unfold MSG_WriteByte. replace (u8 (u8 c)) with (u8 c) by wrap_lia. done. Qed.
Lemma char_field h c sb : MSG_WriteChar sb c = write_field h sb (FChar (s8 c)).
Proof. cbn. unfold MSG_WriteChar. replace (u8 (s8 c)) with (u8 c) by wrap_lia. done. Qed.
Lemma short_field h c sb : MSG_WriteShort sb c = write_field h sb (FShort (s16 c)).
Proof.
  cbn. unfold MSG_WriteShort. rewrite !land_255, !shiftr_8.
  replace (u8 (s16 c `mod` 256)) with (u8 (c `mod` 256)) by wrap_lia.
  replace (u8 (s16 c / 256)) with (u8 (c / 256)) by wrap_lia. done.
Qed.
Lemma long_field h c sb : MSG_WriteLong sb c = write_field h sb (FLong c).
Proof. done. Qed.

Definition coord_int (x : f32) : Z := s16 (f_to_int (f32_mul x (f32_of_Z 8))).
Definition angle_int (x : f32) : Z :=
  s8 (Q_rint (f64_div (f64_mul (f64_of_f32 x) (f64_of_Z 256)) (f64_of_Z 360)) & 255).

Lemma coord_field h x sb : MSG_WriteCoord sb x = write_field h sb (FShort (coord_int x)).
Proof. apply short_field. Qed.
Lemma angle_field h x sb : MSG_WriteAngle sb x = write_field h sb (FChar (angle_int x)).
Proof. apply (char_field h). Qed.

(** What a coordinate or angle arrives as. *)
Definition sent_coord (x : f32) : f32 :=
  f32_of_f64 (f64_mul (f64_of_Z (coord_int x)) (f64_div (f64_of_Z 1) (f64_of_Z 8))).
Definition sent_angle (x : f32) : f32 :=
  f32_of_f64 (f64_mul (f64_of_Z (angle_int x)) (f64_div (f64_of_Z 360) (f64_of_Z 256))).

(** The reader after a part of the message: it stands before [rest], and nothing else about
    it has changed. *)
Definition goes_to (m m' : msgstate) (rest : bytes) : Prop :=
  reading m' rest /\ msg_badread m' = msg_badread m /\ net_message m' = net_message m.

Lemma goes_to_trans m m1 m2 r1 r2 : goes_to m m1 r1 -> goes_to m1 m2 r2 -> goes_to m m2 r2.
Proof. unfold goes_to. intros (_ & ? & ?) (? & ? & ?). split; [done|]. split; congruence. Qed.

(** A reader [rd] takes the field [f] off as [x]. *)
Definition takes {A} (rd : msgstate -> res (A * msgstate)) (f : field) (x : A) : Prop :=
  forall m rest, reading m (field_bytes f ++ rest) -> exists m', rd m = Ok (x, m') /\ goes_to m m' rest.

Lemma wire_takes {A} (wr : sizebuf -> A -> res sizebuf) rd vals wire `{!Wire wr rd vals wire} f x :
  vals x -> field_bytes f = wire x -> takes rd f x.
Proof.
  intros Hv Hf m rest Hr. rewrite Hf in Hr. rewrite (wire_read m x rest Hv Hr). eexists. split; [done|].
  split; [by apply reading_advance|]. done.
Qed.

Lemma takes_byte c : takes MSG_ReadByte (FByte (u8 c)) (u8 c).
Proof. apply (wire_takes MSG_WriteByte _ (fun c => 0 <= c < 256) _); [apply u8_range|done]. Qed.
Lemma takes_char c : takes MSG_ReadChar (FChar (s8 c)) (s8 c).
Proof. apply (wire_takes MSG_WriteChar _ (fun c => -128 <= c < 128) _); [apply s8_range|done]. Qed.
Lemma takes_short c : takes MSG_ReadShort (FShort (s16 c)) (s16 c).
Proof. apply (wire_takes MSG_WriteShort _ (fun c => -32768 <= c < 32768) _); [apply s16_range|done]. Qed.
Lemma takes_long c : is_int c -> takes MSG_ReadLong (FLong c) c.
Proof.
  intros H. apply (wire_takes MSG_WriteLong _ (fun c => -2147483648 <= c < 2147483648) _); [|done].
  unfold is_int, INT_MIN, INT_MAX in H. lia.
Qed.
Lemma takes_float h x : f32_valid x -> takes (MSG_ReadFloat h) (FFloat x) x.
Proof. intros H. by apply (wire_takes (MSG_WriteFloat h) _ f32_valid _). Qed.

Lemma takes_map {A B} (rd : msgstate -> res (A * msgstate)) (g : A -> B) f x :
  takes rd f x -> takes (fun m => '(c, m) ← rd m; mret (g c, m)) f (g x).
Proof. intros H m rest Hr. destruct (H m rest Hr) as (m' & E & Hg). rewrite E. by exists m'. Qed.

Lemma takes_coord x : takes MSG_ReadCoord (FShort (coord_int x)) (sent_coord x).
Proof. apply (takes_map MSG_ReadShort (fun c => f32_of_f64 (f64_mul (f64_of_Z c) (f64_div (f64_of_Z 1) (f64_of_Z 8))))), takes_short. Qed.
Lemma takes_angle x : takes MSG_ReadAngle (FChar (angle_int x)) (sent_angle x).
Proof. apply (takes_map MSG_ReadChar (fun c => f32_of_f64 (f64_mul (f64_of_Z c) (f64_div (f64_of_Z 360) (f64_of_Z 256))))), takes_char. Qed.

(** An optional field: what is read is the value sent, or the default. *)
Lemma read_if_opt {A} c (rd : msgstate -> res (A * msgstate)) f x d m rest :
  takes rd f x -> reading m (fields_bytes (opt c f) ++ rest) ->
  exists m', read_if c rd d m = Ok (if c then x else d, m') /\ goes_to m m' rest.
Proof.
  intros H Hr. unfold read_if, opt in *. destruct c.
  - unfold fields_bytes in Hr. cbn in Hr. rewrite app_nil_r in Hr. by apply H.
  - exists m. split; [done|]. split; done.
Qed.

Lemma fields_bytes_app fs gs : fields_bytes (fs ++ gs) = fields_bytes fs ++ fields_bytes gs.
Proof. unfold fields_bytes. by rewrite fmap_app, concat_app. Qed.

Lemma takes_fields {A} (rd : msgstate -> res (A * msgstate)) f x m rest :
  takes rd f x -> reading m (fields_bytes [f] ++ rest) -> exists m', rd m = Ok (x, m') /\ goes_to m m' rest.
Proof. intros H Hr. unfold fields_bytes in Hr. cbn in Hr. rewrite app_nil_r in Hr. by apply H. Qed.

(** ** Comparisons of floats that decide whether a field is sent *)

Lemma f_eqb_cases x y : f_eqb x y = true -> x = y \/ exists s t, x = S754_zero s /\ y = S754_zero t.
Proof.
  unfold f_eqb, SFeqb, SFcompare. destruct x as [s|s| |s m e], y as [t|t| |t n i]; try done; destruct s, t; try done; try (by left).
  all: try (intros _; right; by eexists _, _).
  all: destruct (Z.compare_spec e i) as [->| |]; try done; destruct (Pos.compare_cont Eq m n) eqn:E; try done;
    apply Pos.compare_eq in E as ->; by left.
Qed.

Lemma small_ints : forallb (fun n => f_to_int (f32_of_Z (Z.of_nat n)) =? Z.of_nat n) (seq 0 256) = true.
Proof. by_vm. Qed.

Lemma f_to_int_byte b : is_byte b -> f_to_int (f32_of_Z b) = b.
Proof.
  intros Hb. pose proof small_ints as H. rewrite forallb_forall in H. specialize (H (Z.to_nat b)).
  unfold is_byte in Hb. rewrite Z2Nat.id in H by lia. apply Z.eqb_eq, H. apply in_seq. lia.
Qed.

(** A number that does not differ from a byte is that byte. *)
Lemma same_byte b x : is_byte b -> differs b x = false -> f_to_int x = b.
Proof.
  intros Hb H. unfold differs in H. apply negb_false_iff in H. apply f_eqb_cases in H as [<-|(s & t & E & ->)].
  - by apply f_to_int_byte.
  - rewrite <- (f_to_int_byte b Hb), E. done.
Qed.

(** Sent or not, the client ends up with the server's number. *)
Lemma byte_shown b x : is_byte b -> (if differs b x then u8 (f_to_int x) else b) = u8 (f_to_int x).
Proof. intros Hb. destruct (differs b x) eqn:E; [done|]. by rewrite (same_byte b x Hb E), u8_id. Qed.

Lemma angle_shown a b : (if negb (f_eqb a b) then sent_angle a else sent_angle b) = sent_angle a.
Proof.
  destruct (f_eqb a b) eqn:E; [|done]. cbn [negb]. apply f_eqb_cases in E as [->|(s & t & -> & ->)]; [done|].
  destruct s, t; by_vm.
Qed.

(** ** The fields of an update and of a baseline *)

Lemma write_step h (r : res sizebuf) (k : sizebuf -> res sizebuf) fs gs sb :
  r = write_fields h sb fs -> (forall sb, k sb = write_fields h sb gs) -> r ≫= k = write_fields h sb (fs ++ gs).
Proof. intros -> Hk. rewrite write_fields_app. destruct (write_fields h sb fs); cbn; [apply Hk|done]. Qed.

Lemma write_one h (r : res sizebuf) f sb : r = write_field h sb f -> r = write_fields h sb [f].
Proof. intros ->. cbn. by destruct (write_field h sb f). Qed.

Definition entity_field (long : bool) (e : Z) : field := if long then FShort (s16 e) else FByte (u8 e).

Definition attribute_fields (e : Z) (ent : edict) : list field :=
  let v := ed_v ent in
  let bits := sent_bits e ent in
  opt (has bits U_FRAME) (FByte (u8 (f_to_int (ev_frame v)))) ++
  opt (has bits U_COLORMAP) (FByte (u8 (f_to_int (ev_colormap v)))) ++
  opt (has bits U_SKIN) (FByte (u8 (f_to_int (ev_skin v)))) ++
  opt (has bits U_EFFECTS) (FByte (u8 (f_to_int (ev_effects v)))) ++
  opt (has bits U_ORIGIN1) (FShort (coord_int (vx (ev_origin v)))) ++
  opt (has bits U_ANGLE1) (FChar (angle_int (vx (ev_angles v)))) ++
  opt (has bits U_ORIGIN2) (FShort (coord_int (vy (ev_origin v)))) ++
  opt (has bits U_ANGLE2) (FChar (angle_int (vy (ev_angles v)))) ++
  opt (has bits U_ORIGIN3) (FShort (coord_int (vz (ev_origin v)))) ++
  opt (has bits U_ANGLE3) (FChar (angle_int (vz (ev_angles v)))) ++
  (if has bits U_TRANS then [FFloat (f32_of_Z 2); FFloat (alpha_of ent); FFloat (fullbright_of ent)] else []).

Definition update_fields (e : Z) (ent : edict) : list field :=
  let v := ed_v ent in
  let bits := sent_bits e ent in
  [FByte (u8 (bits .| U_SIGNAL))] ++
  opt (has bits U_MOREBITS) (FByte (u8 (bits >> 8))) ++
  [entity_field (has bits U_LONGENTITY) e] ++
  opt (has bits U_MODEL) (FByte (u8 (f_to_int (ev_modelindex v)))) ++
  attribute_fields e ent.

Lemma write_update_fields h e ent msg : write_update h e ent msg = write_fields h msg (update_fields e ent).
Proof.
  unfold write_update, update_fields, attribute_fields. fold (sent_bits e ent). set (bits := sent_bits e ent).
  apply write_step; [apply write_one, byte_field|]. clear msg. intros sb.
  apply write_step; [apply write_if_opt, byte_field|]. clear sb. intros sb.
  apply write_step.
  { unfold entity_field. destruct (has bits U_LONGENTITY); apply write_one; [apply short_field|apply byte_field]. }
  clear sb. intros sb.
  do 5 (apply write_step; [apply write_if_opt, byte_field|]; clear sb; intros sb).
  do 3 (apply write_step; [apply write_if_opt, coord_field|]; clear sb; intros sb;
        apply write_step; [apply write_if_opt, angle_field|]; clear sb; intros sb).
  unfold write_if. destruct (has bits U_TRANS); [|done]. cbn.
  destruct (MSG_WriteFloat h sb _) as [b1|]; cbn; [|done]. destruct (MSG_WriteFloat h b1 _) as [b2|]; cbn; [|done].
  by destruct (MSG_WriteFloat h b2 _).
Qed.

Definition baseline_fields (entnum : Z) (b : entity_state) : list field :=
  [FByte (u8 svc_spawnbaseline)] ++ [FShort (s16 entnum)] ++
  [FByte (u8 (es_modelindex b))] ++ [FByte (u8 (es_frame b))] ++ [FByte (u8 (es_colormap b))] ++ [FByte (u8 (es_skin b))] ++
  [FShort (coord_int (vx (es_origin b)))] ++ [FChar (angle_int (vx (es_angles b)))] ++
  [FShort (coord_int (vy (es_origin b)))] ++ [FChar (angle_int (vy (es_angles b)))] ++
  [FShort (coord_int (vz (es_origin b)))] ++ [FChar (angle_int (vz (es_angles b)))].

Lemma write_baseline_fields h entnum b sb : write_baseline entnum b sb = write_fields h sb (baseline_fields entnum b).
Proof.
  unfold write_baseline, baseline_fields.
  repeat (apply write_step; [apply write_one; first [apply byte_field|apply short_field|apply coord_field|apply angle_field]|]; clear sb; intros sb).
  apply write_one, angle_field.
Qed.

(** ** The client's entities *)

Definition model_ok (st : clst) (p : Z) : Prop := p = 0 \/ is_Some (models st !! p).

Definition cl_ok (st : clst) : Prop :=
  zlen (cl_entities st) = MAX_EDICTS /\ 0 <= num_entities st <= MAX_EDICTS /\
  zlen (model_precache st) = MAX_MODELS /\ Forall (model_ok st) (model_precache st) /\
  Forall (fun e => model_ok st (ce_model e)) (cl_entities st).

Lemma upd_entity_ok num f st e : 0 <= num -> cl_entities st !! Z.to_nat num = Some e ->
  upd_entity num f st = Ok (set_cl_entities (<[Z.to_nat num := f e]> (cl_entities st)) st).
Proof. intros H He. unfold upd_entity. destruct (Z.ltb_spec num 0); [lia|]. by rewrite He. Qed.

Lemma get_entity_ok num st e : 0 <= num -> cl_entities st !! Z.to_nat num = Some e -> get_entity num st = Ok e.
Proof. intros H He. unfold get_entity. destruct (Z.ltb_spec num 0); [lia|]. by rewrite He. Qed.

(** Entities change by their colormap at most. *)
Definition recoloured (es es' : list entity) : Prop := Forall2 (fun e e' => exists c, e' = set_ce_colormap c e) es es'.

Lemma recoloured_refl es : recoloured es es.
Proof. apply Forall_Forall2_diag, Forall_true. intros e. exists (ce_colormap e). by destruct e. Qed.

Lemma recoloured_insert es es' i e c : recoloured es es' -> es' !! i = Some e ->
  recoloured es (<[i := set_ce_colormap c e]> es').
Proof.
  intros H He. destruct (Forall2_lookup_r _ _ _ _ _ H He) as (e0 & He0 & c0 & ->).
  rewrite <- (list_insert_id es i e0 He0). apply Forall2_insert; [done|]. by exists c.
Qed.

Lemma use_entities_ok n : forall st es0, recoloured es0 (cl_entities st) -> 0 <= num_entities st ->
  num_entities st + Z.of_nat n <= zlen (cl_entities st) ->
  exists es, use_entities n st = Ok (set_num_entities (num_entities st + Z.of_nat n) (set_cl_entities es st)) /\
    recoloured es0 es /\ forall i, (i < Z.to_nat (num_entities st))%nat -> es !! i = cl_entities st !! i.
Proof.
  induction n as [|n IH]; intros st es0 Hr H0 Hn; cbn [use_entities].
  - exists (cl_entities st). split; [|done]. rewrite Z.add_0_r. by destruct st.
  - destruct (lookup_lt_is_Some_2 (cl_entities st) (Z.to_nat (num_entities st))) as [e He]; [lia|].
    rewrite (upd_entity_ok _ _ _ _ H0 He), bind_Ok. cbn [num_entities set_cl_entities].
    destruct (IH (set_num_entities (num_entities st + 1) (set_cl_entities (<[Z.to_nat (num_entities st) :=
      set_ce_colormap VidColormap e]> (cl_entities st)) st)) es0) as (es & E & Hes & Hi).
    + by apply recoloured_insert.
    + cbn. lia.
    + cbn. rewrite length_insert. lia.
    + exists es. split; [|split; [done|]].
      * rewrite E. cbn. f_equal. unfold set_num_entities, set_cl_entities. cbn. f_equal. lia.
      * intros i Hlt. rewrite Hi by (cbn; lia). cbn. apply list_lookup_insert_ne. lia.
Qed.

Lemma CL_EntityNum_ok num st : cl_ok st -> 0 <= num < MAX_EDICTS ->
  exists es n, CL_EntityNum num st = Ok (set_num_entities n (set_cl_entities es st)) /\
    cl_ok (set_num_entities n (set_cl_entities es st)) /\ recoloured (cl_entities st) es /\
    forall i, (i < Z.to_nat (num_entities st))%nat -> es !! i = cl_entities st !! i.
Proof.
  intros (H1 & H2 & H3 & H4 & H5) Hn.
  assert (forall es n, recoloured (cl_entities st) es -> 0 <= n <= MAX_EDICTS -> cl_ok (set_num_entities n (set_cl_entities es st))) as Hok.
  { intros es n Hr Hr2. split; [cbn; by rewrite <- (Forall2_length _ _ _ Hr)|]. split; [done|]. split; [done|]. split; [exact H4|].
    cbn. apply Forall_lookup_2. intros i e He. destruct (Forall2_lookup_r _ _ _ _ _ Hr He) as (e0 & He0 & c & ->).
    exact (Forall_lookup_1 _ _ _ _ H5 He0). }
  unfold CL_EntityNum. destruct (Z.leb_spec (num_entities st) num).
  - destruct (Z.leb_spec MAX_EDICTS num); [lia|].
    destruct (use_entities_ok (Z.to_nat (num + 1 - num_entities st)) st (cl_entities st)) as (es & E & Hr & Hi);
      [apply recoloured_refl|lia|lia|]. eexists es, _. split; [exact E|]. split; [|done]. apply Hok; [done|lia].
  - exists (cl_entities st), (num_entities st). split; [by destruct st|]. split; [apply Hok; [apply recoloured_refl|done]|].
    split; [apply recoloured_refl|done].
Qed.

(** The parts of the client's state that an update only reads. *)
Definition same_cl (st st' : clst) : Prop :=
  models st' = models st /\ model_precache st' = model_precache st /\ cl_maxclients st' = cl_maxclients st /\
  mtime0 st' = mtime0 st /\ num_entities st' = num_entities st.

Lemma same_cl_ok st st' num e : cl_ok st -> same_cl st st' ->
  cl_entities st' = <[num := e]> (cl_entities st) -> model_ok st (ce_model e) -> cl_ok st'.
Proof.
  unfold cl_ok, same_cl, model_ok. intros (H1 & H2 & H3 & H4 & H5) (-> & -> & _ & _ & ->) -> He. rewrite length_insert.
  split; [done|]. split; [done|]. split; [done|]. split; [done|]. by apply Forall_insert.
Qed.

Lemma translate_same num st : same_cl st (translate num st) /\ cl_entities (translate num st) = cl_entities st.
Proof. unfold translate. by destruct (_ && _). Qed.

Lemma change_model_ok num fl st e p : cl_ok st -> 0 <= num -> cl_entities st !! Z.to_nat num = Some e ->
  is_byte (ce_modelindex e) -> model_precache st !! Z.to_nat (ce_modelindex e) = Some p ->
  exists fl' st' s, change_model num fl st = Ok (fl', st') /\ same_cl st st' /\
    cl_entities st' = <[Z.to_nat num := set_syncbase s (set_ce_model p e)]> (cl_entities st).
Proof.
  intros Hok H0 He Hb Hp. unfold change_model. rewrite (get_entity_ok _ _ _ H0 He), bind_Ok.
  unfold is_byte in Hb. destruct (Z.ltb_spec (ce_modelindex e) 0); [lia|]. rewrite Hp. cbn [of_option]. rewrite bind_Ok.
  destruct (Z.eqb_spec p (ce_model e)) as [->|Hne].
  { exists fl, st, (syncbase e). split; [done|]. split; [done|]. symmetry. apply list_insert_id. by destruct e. }
  assert (model_ok st p) as Hm by (destruct Hok as (_ & _ & _ & H4 & _); exact (Forall_lookup_1 _ _ _ _ H4 Hp)).
  unfold model_at. destruct (Z.eqb_spec p 0) as [->|Hp0].
  - rewrite bind_Ok, (upd_entity_ok _ _ _ _ H0 He), !bind_Ok. eexists true, _, (syncbase e). split; [done|].
    destruct (translate_same num (set_cl_entities (<[Z.to_nat num := set_ce_model 0 e]> (cl_entities st)) st)) as [Hs ->].
    split; [exact Hs|]. by destruct e.
  - destruct Hm as [?|[md Hmd]]; [done|]. rewrite Hmd, bind_Ok. destruct (synctype md =? ST_RAND).
    + destruct (tas_rand (cl_rng st)) as [r g]. rewrite (upd_entity_ok _ _ (set_cl_rng g st) _ H0 He), !bind_Ok.
      eexists fl, _, _. split; [done|]. match goal with |- same_cl _ (translate _ ?s) /\ _ => destruct (translate_same num s) as [Hs ->] end.
      split; [exact Hs|done].
    + rewrite (upd_entity_ok _ _ st _ H0 He), !bind_Ok.
      eexists fl, _, _. split; [done|]. match goal with |- same_cl _ (translate _ ?s) /\ _ => destruct (translate_same num s) as [Hs ->] end.
      split; [exact Hs|done].
Qed.

(** ** What the client shows after an update *)

Definition shown_coord (x b : f32) : f32 := sent_coord (if missed x b then x else b).
Definition shown_origin (o b : vec3) : vec3 :=
  Vec (shown_coord (vx o) (vx b)) (shown_coord (vy o) (vy b)) (shown_coord (vz o) (vz b)).

(** The colours of a player's model; [i] is the number of the score, from 1. *)
Definition colour_of (st : clst) (p i : Z) : colormap_ptr :=
  if p =? 0 then VidColormap
  else match models st !! p with
       | Some md => if truth i && (i <=? cl_maxclients st) && (modhint md =? MOD_PLAYER) then Translations (i - 1) else VidColormap
       | None => VidColormap
       end.

(** The client shows the entity as the server has it. *)
Definition shown (st : clst) (ent : edict) (ce : entity) : Prop :=
  let v := ed_v ent in
  ce_modelindex ce = u8 (f_to_int (ev_modelindex v)) /\
  model_precache st !! Z.to_nat (ce_modelindex ce) = Some (ce_model ce) /\
  ce_frame ce = u8 (f_to_int (ev_frame v)) /\
  ce_colormap ce = colour_of st (ce_model ce) (u8 (f_to_int (ev_colormap v))) /\
  skinnum ce = u8 (f_to_int (ev_skin v)) /\
  ce_effects ce = u8 (f_to_int (ev_effects v)) /\
  msg_origins0 ce = shown_origin (ev_origin v) (es_origin (ed_baseline ent)) /\
  msg_angles0 ce = vec_map sent_angle (ev_angles v).

(** The client's baseline is what the server's came out as. *)
Definition baseline_sent (b cb : entity_state) : Prop :=
  is_byte (es_modelindex b) /\ is_byte (es_frame b) /\ is_byte (es_colormap b) /\ is_byte (es_skin b) /\ is_byte (es_effects b) /\
  cb = ES (vec_map sent_coord (es_origin b)) (vec_map sent_angle (es_angles b)) (es_modelindex b) (es_frame b)
          (es_colormap b) (es_skin b) (es_effects b).

Lemma coord_shown x b : (if missed x b then sent_coord x else sent_coord b) = shown_coord x b.
Proof. unfold shown_coord. by destruct (missed x b). Qed.

Lemma read_more e ent m rest :
  reading m (fields_bytes (opt (has (sent_bits e ent) U_MOREBITS) (FByte (u8 (sent_bits e ent >> 8)))) ++ rest) ->
  exists m', (if has (sent_bits e ent & 127) U_MOREBITS
              then '(b, m) ← MSG_ReadByte m; mret ((sent_bits e ent & 127) .| (b << 8), m)
              else mret (sent_bits e ent & 127, m)) = Ok (sent_bits e ent, m') /\ goes_to m m' rest.
Proof.
  intros Hr. pose proof (flags_rejoined e ent) as Hf.
  assert (has (sent_bits e ent & 127) U_MOREBITS = has (sent_bits e ent) U_MOREBITS) as E by (unfold has; by rewrite <- Z.land_assoc).
  rewrite E in *. destruct (has (sent_bits e ent) U_MOREBITS).
  - destruct (takes_fields _ _ _ m rest (takes_byte (sent_bits e ent >> 8)) Hr) as (m' & -> & Hg).
    cbn -[u8]. rewrite Hf. by exists m'.
  - rewrite Hf. by exists m.
Qed.

Lemma takes_entity e : 0 <= e < MAX_EDICTS ->
  takes (if 256 <=? e then MSG_ReadShort else MSG_ReadByte) (entity_field (256 <=? e) e) e.
Proof.
  unfold MAX_EDICTS, entity_field. intros He. destruct (Z.leb_spec 256 e).
  - pose proof (takes_short e) as H1. replace (s16 e) with e in * by wrap_lia. exact H1.
  - pose proof (takes_byte e) as H1. rewrite u8_id in * by lia. exact H1.
Qed.

Lemma model_at_ok st p : model_ok st p -> exists md, model_at st p = Ok md /\ forall i,
  (if truth i && (i <=? cl_maxclients st) && match md with Some md => modhint md =? MOD_PLAYER | None => false end
   then Translations (i - 1) else VidColormap) = colour_of st p i.
Proof.
  intros [-> |[md Hmd]]; unfold model_at, colour_of.
  - exists None. split; [done|]. intros i. by rewrite andb_false_r.
  - destruct (Z.eqb_spec p 0); [exists None; split; [done|]; intros i; by rewrite andb_false_r|].
    rewrite Hmd. by exists (Some md).
Qed.

(** The part of [U_TRANS]. *)
Definition trans_fields (c : bool) (alpha fullbright : f32) : list field :=
  if c then [FFloat (f32_of_Z 2); FFloat alpha; FFloat fullbright] else [].

Lemma read_trans h c alpha fb d m rest : f32_valid alpha -> f32_valid fb ->
  reading m (fields_bytes (trans_fields c alpha fb) ++ rest) ->
  exists m', (if c then
      '(temp, m) ← MSG_ReadFloat h m;
      '(alpha, m) ← MSG_ReadFloat h m;
      '(_, m) ← read_if (f_to_int temp =? 2) (MSG_ReadFloat h) (f32_of_Z 0) m;
      mret ((true, alpha), m)
    else mret (d, m)) = Ok (if c then (true, alpha) else d, m') /\ goes_to m m' rest.
Proof.
  intros Ha Hf Hr. destruct c; [|by exists m].
  assert (f32_valid (f32_of_Z 2)) as H2 by by_vm. change (trans_fields true alpha fb) with ([FFloat (f32_of_Z 2)] ++ [FFloat alpha] ++ [FFloat fb]) in Hr.
  rewrite !fields_bytes_app, <- !app_assoc in Hr.
  destruct (takes_fields _ _ _ m _ (takes_float h _ H2) Hr) as (m1 & -> & G1). rewrite bind_Ok.
  destruct (takes_fields _ _ _ m1 _ (takes_float h _ Ha) (proj1 G1)) as (m2 & -> & G2). rewrite bind_Ok.
  change (f_to_int (f32_of_Z 2) =? 2) with true. cbn [read_if].
  destruct (takes_fields _ _ _ m2 _ (takes_float h _ Hf) (proj1 G2)) as (m3 & -> & G3). rewrite bind_Ok.
  exists m3. split; [done|]. eapply goes_to_trans; [exact G1|]. by eapply goes_to_trans.
Qed.

Definition update_bytes (e : Z) (ent : edict) : bytes := fields_bytes (update_fields e ent).

(** What a flag of the message stands for. *)
Ltac known U lem :=
  match goal with |- context [has (sent_bits ?e ?ent) U] =>
    rewrite (sent_bits_has e ent U) in * by reflexivity; rewrite (lem e ent) in * end.

(** The reader on its way through the message. *)
Ltac via G := eapply goes_to_trans; [exact G|].

(** Read the next optional field. *)
Ltac read_next T G m G' :=
  match goal with |- context [read_if ?c _ ?d ?m0] =>
    destruct (read_if_opt c _ _ _ d m0 _ T (proj1 G)) as (m & -> & G'); rewrite bind_Ok end.

Section roundtrip.

Variable h : endian.
Variable reply : clst -> res clst.
Variable e : Z.
Variable ent : edict.
Hypothesis e_range : 0 <= e < MAX_EDICTS.
Hypothesis alpha_valid : f32_valid (alpha_of ent).
Hypothesis fullbright_valid : f32_valid (fullbright_of ent).

(** The attributes, read after the model [p] has been set. *)
Lemma attributes_ok st p ce forcelink m rest :
  cl_ok st -> model_ok st p -> cl_entities st !! Z.to_nat e = Some ce -> ce_model ce = p ->
  model_precache st !! Z.to_nat (ce_modelindex ce) = Some p ->
  ce_modelindex ce = u8 (f_to_int (ev_modelindex (ed_v ent))) -> baseline_sent (ed_baseline ent) (ce_baseline ce) ->
  reading m (fields_bytes (attribute_fields e ent) ++ rest) ->
  exists st' m' ce', update_attributes h (sent_bits e ent) e (ce_baseline ce) forcelink st m = Ok (st', m') /\
    goes_to m m' rest /\ cl_ok st' /\ cl_entities st' = <[Z.to_nat e := ce']> (cl_entities st) /\
    ce_baseline ce' = ce_baseline ce /\ shown st' ent ce'.
Proof.
  intros Hok Hmp Hce Hcp Hp Hmi (B1 & B2 & B3 & B4 & B5 & Hcb) Hr. unfold attribute_fields in Hr.
  fold (trans_fields (has (sent_bits e ent) U_TRANS) (alpha_of ent) (fullbright_of ent)) in Hr.
  rewrite !fields_bytes_app, <- !app_assoc in Hr. unfold update_attributes. rewrite Hcb.
  cbn [es_modelindex es_frame es_colormap es_skin es_effects es_origin es_angles vx vy vz vec_map].
  known U_FRAME flag_frame. known U_COLORMAP flag_colormap. known U_SKIN flag_skin. known U_EFFECTS flag_effects.
  known U_ORIGIN1 flag_origin1. known U_ORIGIN2 flag_origin2. known U_ORIGIN3 flag_origin3.
  known U_ANGLE1 flag_angle1. known U_ANGLE2 flag_angle2. known U_ANGLE3 flag_angle3.
  assert (goes_to m m _) as G3 by (split; [exact Hr|done]).
  read_next (takes_byte (f_to_int (ev_frame (ed_v ent)))) G3 m4 G4. rewrite (byte_shown _ _ B2).
  read_next (takes_byte (f_to_int (ev_colormap (ed_v ent)))) G4 m5 G5. rewrite (byte_shown _ _ B3).
  rewrite (get_entity_ok _ _ _ (proj1 e_range) Hce), bind_Ok, Hcp.
  destruct (model_at_ok st p Hmp) as (md & -> & Hcol). rewrite bind_Ok, Hcol.
  read_next (takes_byte (f_to_int (ev_skin (ed_v ent)))) G5 m6 G6. rewrite (byte_shown _ _ B4).
  read_next (takes_byte (f_to_int (ev_effects (ed_v ent)))) G6 m7 G7. rewrite (byte_shown _ _ B5).
  read_next (takes_coord (vx (ev_origin (ed_v ent)))) G7 m8 G8. rewrite coord_shown.
  read_next (takes_angle (vx (ev_angles (ed_v ent)))) G8 m9 G9. rewrite angle_shown.
  read_next (takes_coord (vy (ev_origin (ed_v ent)))) G9 m10 G10. rewrite coord_shown.
  read_next (takes_angle (vy (ev_angles (ed_v ent)))) G10 m11 G11. rewrite angle_shown.
  read_next (takes_coord (vz (ev_origin (ed_v ent)))) G11 m12 G12. rewrite coord_shown.
  read_next (takes_angle (vz (ev_angles (ed_v ent)))) G12 m13 G13. rewrite angle_shown.
  match goal with |- context [mret (?q, f32_of_Z 1, m13)] =>
    destruct (read_trans h (has (sent_bits e ent) U_TRANS) _ _ (q, f32_of_Z 1) m13 _ alpha_valid fullbright_valid (proj1 G13)) as (m14 & -> & G14) end.
  rewrite bind_Ok. set (st4 := if _ =? skinnum ce then st else translate e st).
  assert (same_cl st st4 /\ cl_entities st4 = cl_entities st) as [Hsame4 Hes4].
  { unfold st4. destruct (_ =? _); [done|apply translate_same]. }
  rewrite (upd_entity_ok _ _ st4 ce (proj1 e_range)) by (by rewrite Hes4).
  rewrite !bind_Ok. set (st5 := set_cl_entities _ st4). set (ce5 := if forcelink then _ else _) in st5.
  exists st5, m14, ce5. split; [done|]. split.
  { by via G4; via G5; via G6; via G7; via G8; via G9; via G10; via G11; via G12; via G13. }
  assert (cl_entities st5 = <[Z.to_nat e := ce5]> (cl_entities st)) as Hes5 by (unfold st5; cbn; by rewrite Hes4).
  assert (ce_model ce5 = p /\ ce_modelindex ce5 = ce_modelindex ce) as [Hp5 Hmi5].
  { rewrite <- Hcp. unfold ce5. destruct forcelink, (has (sent_bits e ent) U_NOLERP); done. }
  split; [eapply (same_cl_ok st st5 _ ce5); [done|exact Hsame4|exact Hes5|by rewrite Hp5]|].
  split; [done|]. split; [rewrite <- Hcb; unfold ce5; destruct forcelink, (has (sent_bits e ent) U_NOLERP); done|].
  destruct Hsame4 as (K1 & K2 & K3 & _). unfold shown, colour_of. rewrite Hp5, Hmi5.
  change (models st5) with (models st4). change (model_precache st5) with (model_precache st4).
  change (cl_maxclients st5) with (cl_maxclients st4). rewrite K1, K2, K3.
  split; [done|]. split; [done|]. unfold ce5. destruct forcelink, (has (sent_bits e ent) U_NOLERP); done.
Qed.

Lemma parse_update st ce m rest :
  cl_ok st -> signon st <> SIGNONS - 1 -> cl_entities st !! Z.to_nat e = Some ce ->
  baseline_sent (ed_baseline ent) (ce_baseline ce) ->
  reading m (update_bytes e ent ++ rest) -> msg_badread m = false ->
  exists st' m' ce', parse_fast_update h reply st m = Ok (Some (st', m')) /\ goes_to m m' rest /\ cl_ok st' /\
    cl_entities st' !! Z.to_nat e = Some ce' /\ ce_baseline ce' = ce_baseline ce /\ shown st' ent ce' /\
    forall i, (i < Z.to_nat (num_entities st))%nat -> i <> Z.to_nat e -> cl_entities st' !! i = cl_entities st !! i.
Proof.
  intros Hok Hsig Hce Hbase Hr Hbad. unfold update_bytes, update_fields in Hr.
  rewrite !fields_bytes_app, <- !app_assoc in Hr.
  unfold parse_fast_update. rewrite Hbad.
  destruct (takes_fields _ _ _ m _ (takes_byte _) Hr) as (m0 & -> & G0). rewrite bind_Ok.
  pose proof (u8_range (sent_bits e ent .| U_SIGNAL)). destruct (Z.eqb_spec (u8 (sent_bits e ent .| U_SIGNAL)) (-1)); [lia|].
  rewrite cmd_signal, cmd_low. unfold CL_ParseUpdate. destruct (Z.eqb_spec (signon st) (SIGNONS - 1)); [done|]. rewrite bind_Ok.
  destruct (read_more e ent m0 _ (proj1 G0)) as (m1 & -> & G1). rewrite bind_Ok. clear Hr.
  known U_LONGENTITY flag_long.
  destruct (takes_fields _ _ _ m1 _ (takes_entity e e_range) (proj1 G1)) as (m2 & E2 & G2).
  replace (if 256 <=? e then MSG_ReadShort m1 else MSG_ReadByte m1) with (Ok (e, m2)) by (rewrite <- E2; by destruct (256 <=? e)).
  rewrite bind_Ok.
  destruct (CL_EntityNum_ok e st Hok e_range) as (es & ne & -> & Hok1 & Hrec & Hold). rewrite bind_Ok.
  destruct (Forall2_lookup_l _ _ _ _ _ Hrec Hce) as (ce1 & Hce1 & c1 & ->).
  set (st1 := set_bitcounts _ _). assert (cl_entities st1 !! Z.to_nat e = Some (set_ce_colormap c1 ce)) as Hst1 by exact Hce1.
  rewrite (get_entity_ok _ _ _ (proj1 e_range) Hst1), bind_Ok. cbn [ce_baseline set_ce_colormap msgtime].
  pose proof Hbase as (B1 & _ & _ & _ & _ & Hcb). replace (es_modelindex (ce_baseline ce)) with (es_modelindex (ed_baseline ent)) by (by rewrite Hcb).
  known U_MODEL flag_model.
  read_next (takes_byte (f_to_int (ev_modelindex (ed_v ent)))) G2 m3 G3. rewrite (byte_shown _ _ B1).
  set (mi := u8 (f_to_int (ev_modelindex (ed_v ent)))). assert (is_byte mi) as Hmi by apply u8_range.
  destruct (Z.leb_spec MAX_MODELS mi) as [Hbig|_]; [unfold MAX_MODELS, is_byte in *; lia|]. rewrite andb_false_r.
  rewrite (upd_entity_ok _ _ _ _ (proj1 e_range) Hst1), bind_Ok.
  set (ce2 := set_ce_modelindex mi _). set (st2 := set_cl_entities _ st1).
  assert (Z.to_nat e < length (cl_entities st1))%nat as Hlt by (by eapply lookup_lt_Some).
  assert (cl_entities st2 !! Z.to_nat e = Some ce2) as Hst2 by (by apply list_lookup_insert_eq).
  destruct (lookup_lt_is_Some_2 (model_precache st2) (Z.to_nat mi)) as [p Hp].
  { pose proof Hok1 as (_ & _ & Hmp & _). cbn in Hmp |- *. unfold MAX_MODELS, is_byte in *. lia. }
  assert (cl_ok st2) as Hok2.
  { eapply (same_cl_ok st1 st2 _ ce2); [exact Hok1|done|done|]. destruct Hok1 as (_ & _ & _ & _ & H5).
    exact (Forall_lookup_1 _ _ _ _ H5 Hce1). }
  match goal with |- context [change_model _ ?fl _] =>
    destruct (change_model_ok e fl st2 ce2 p Hok2 (proj1 e_range) Hst2 Hmi Hp) as (fl' & st3 & sb & -> & Hsame & Hes3) end.
  rewrite bind_Ok. set (ce3 := set_syncbase sb (set_ce_model p ce2)) in *.
  assert (cl_entities st3 !! Z.to_nat e = Some ce3) as Hst3.
  { rewrite Hes3. apply list_lookup_insert_eq. by eapply lookup_lt_Some. }
  assert (model_ok st2 p) as Hmp by (destruct Hok2 as (_ & _ & _ & H4 & _); exact (Forall_lookup_1 _ _ _ _ H4 Hp)).
  assert (cl_ok st3) as Hok3 by (by eapply (same_cl_ok st2 st3 _ ce3)).
  pose proof Hsame as (F1 & F2 & _).
  destruct (attributes_ok st3 p ce3 fl' m3 rest) as (st' & m' & ce' & E & Hg & Hok' & Hes' & Hb' & Hsh);
    [done|by unfold model_ok; rewrite F1|done|done|by rewrite F2|done|done|exact (proj1 G3)|].
  change (ce_baseline ce) with (ce_baseline ce3). rewrite E, bind_Ok. exists st', m', ce'. split; [done|].
  split; [by via G0; via G1; via G2; via G3|]. split; [done|].
  split; [rewrite Hes'; apply list_lookup_insert_eq; by eapply lookup_lt_Some|]. split; [done|]. split; [done|].
  intros i Hi Hne. rewrite Hes', list_lookup_insert_ne, Hes3, list_lookup_insert_ne by done. cbn.
  rewrite list_lookup_insert_ne by done. by apply Hold.
Qed.
End roundtrip.

(** ** Room *)

Lemma opt_length c f : zlen (fields_bytes (opt c f)) <= zlen (field_bytes f).
Proof. unfold fields_bytes, opt. destruct c; cbn; rewrite ?app_nil_r; lia. Qed.

Lemma update_bytes_length e ent : zlen (update_bytes e ent) <= 30.
Proof.
  unfold update_bytes, update_fields, attribute_fields. rewrite !fields_bytes_app, !length_app.
  repeat match goal with |- context [fields_bytes (opt ?c ?f)] =>
    let H := fresh in pose proof (opt_length c f) as H; cbn [field_bytes length short_bytes] in H;
    generalize dependent (fields_bytes (opt c f)); intros end.
  assert (zlen (fields_bytes [entity_field (has (sent_bits e ent) U_LONGENTITY) e]) <= 2).
  { unfold entity_field. destruct (has _ _); cbn; lia. }
  assert (zlen (fields_bytes (if has (sent_bits e ent) U_TRANS
    then [FFloat (f32_of_Z 2); FFloat (alpha_of ent); FFloat (fullbright_of ent)] else [])) <= 12).
  { destruct (has _ U_TRANS); cbn; lia. }
  change (length (fields_bytes [FByte (u8 (sent_bits e ent .| U_SIGNAL))])) with 1%nat. lia.
Qed.

Lemma write_fields_error h fs : forall sb, sb_wf sb -> allowoverflow sb = false ->
  maxsize sb < cursize sb + zlen (fields_bytes fs) -> exists msg, write_fields h sb fs = Fault (Sys_Error msg).
Proof.
  induction fs as [|f fs IH]; intros sb Hw Ha Hl; unfold fields_bytes in Hl; cbn in Hl |- *.
  { destruct Hw as [? _]. lia. }
  fold (fields_bytes fs) in Hl. rewrite length_app in Hl. rewrite write_field_bytes.
  destruct (decide (cursize sb + zlen (field_bytes f) <= maxsize sb)) as [Hf|Hf].
  - destruct (SZ_Write_fits sb _ Hw Hf) as (b & -> & Hw' & _ & Hn & _ & Hm & Ha' & _). cbn.
    apply IH; [done|congruence|lia].
  - destruct (SZ_Write_error sb (field_bytes f)) as [msg ->]; [lia|by left|]. by exists msg.
Qed.

(** * Theorems about entities *)

Lemma parse_baseline (h : endian) e b sb st ce : 0 <= e < MAX_EDICTS -> sb_wf sb -> cursize sb + 16 <= maxsize sb ->
  cl_ok st -> cl_entities st !! Z.to_nat e = Some ce -> es_effects (ce_baseline ce) = es_effects b ->
  is_byte (es_modelindex b) -> is_byte (es_frame b) -> is_byte (es_colormap b) -> is_byte (es_skin b) -> is_byte (es_effects b) ->
  exists sb' bytes, write_baseline e b sb = Ok sb' /\ contents sb' = contents sb ++ bytes /\
    forall m rest, reading m (bytes ++ rest) -> exists m0 m1 st' ce',
      MSG_ReadByte m = Ok (svc_spawnbaseline, m0) /\ parse_spawnbaseline st m0 = Ok (st', m1) /\ goes_to m m1 rest /\
      cl_ok st' /\ cl_entities st' !! Z.to_nat e = Some ce' /\ baseline_sent b (ce_baseline ce') /\ signon st' = signon st.
Proof.
  intros He Hw Hroom Hok Hce Heff B1 B2 B3 B4 B5. rewrite (write_baseline_fields h).
  destruct (write_fields_spec h (baseline_fields e b) sb Hw) as (sb' & E & _ & Hc); [exact Hroom|].
  exists sb', (fields_bytes (baseline_fields e b)). split; [done|]. split; [done|]. intros m rest Hr.
  unfold baseline_fields in Hr. rewrite !fields_bytes_app, <- !app_assoc in Hr.
  destruct (takes_fields _ _ _ m _ (takes_byte svc_spawnbaseline) Hr) as (m0 & E0 & G0).
  change (u8 svc_spawnbaseline) with svc_spawnbaseline in E0. unfold parse_spawnbaseline, CL_ParseBaseline.
  destruct (takes_fields _ _ _ m0 _ (takes_short e) (proj1 G0)) as (m1 & E1 & G1).
  replace (s16 e) with e in E1 by (unfold MAX_EDICTS in He; wrap_lia).
  destruct (CL_EntityNum_ok e st Hok He) as (es & ne & En & Hok1 & Hrec & _).
  destruct (Forall2_lookup_l _ _ _ _ _ Hrec Hce) as (ce1 & Hce1 & c1 & ->).
  destruct (takes_fields _ _ _ m1 _ (takes_byte _) (proj1 G1)) as (m2 & E2 & G2). rewrite u8_id in E2 by done.
  destruct (takes_fields _ _ _ m2 _ (takes_byte _) (proj1 G2)) as (m3 & E3 & G3). rewrite u8_id in E3 by done.
  destruct (takes_fields _ _ _ m3 _ (takes_byte _) (proj1 G3)) as (m4 & E4 & G4). rewrite u8_id in E4 by done.
  destruct (takes_fields _ _ _ m4 _ (takes_byte _) (proj1 G4)) as (m5 & E5 & G5). rewrite u8_id in E5 by done.
  destruct (takes_fields _ _ _ m5 _ (takes_coord _) (proj1 G5)) as (m6 & E6 & G6).
  destruct (takes_fields _ _ _ m6 _ (takes_angle _) (proj1 G6)) as (m7 & E7 & G7).
  destruct (takes_fields _ _ _ m7 _ (takes_coord _) (proj1 G7)) as (m8 & E8 & G8).
  destruct (takes_fields _ _ _ m8 _ (takes_angle _) (proj1 G8)) as (m9 & E9 & G9).
  destruct (takes_fields _ _ _ m9 _ (takes_coord _) (proj1 G9)) as (m10 & E10 & G10).
  destruct (takes_fields _ _ _ m10 _ (takes_angle _) (proj1 G10)) as (m11 & E11 & G11).
  set (st1 := set_num_entities ne (set_cl_entities es st)) in *.
  eexists m0, m11, _, _. split; [done|]. split.
  { rewrite E1, bind_Ok, En, bind_Ok, E2, bind_Ok, E3, bind_Ok, E4, bind_Ok, E5, bind_Ok, E6, bind_Ok, E7, bind_Ok,
      E8, bind_Ok, E9, bind_Ok, E10, bind_Ok, E11, bind_Ok.
    rewrite (upd_entity_ok e _ st1 _ (proj1 He) Hce1), bind_Ok. done. }
  split; [by via G0; via G1; via G2; via G3; via G4; via G5; via G6; via G7; via G8; via G9; via G10|].
  split; [|split; [cbn; apply list_lookup_insert_eq; by eapply lookup_lt_Some|split; [|done]]].
  - eapply (same_cl_ok st1); [done|done|done|]. destruct Hok1 as (_ & _ & _ & _ & H5). exact (Forall_lookup_1 _ _ _ _ H5 Hce1).
  - split_and!; try done. cbn. by rewrite Heff.
Qed.

(** C11: The server and the client agree about entities.  Once the client has read the baseline of
    an entity, reading an update the server wrote for it, whatever the entity has become in the
    meantime, takes exactly the bytes of the update off the message and leaves the client's
    entity as the server's: model, frame, colours, skin and effects are the server's numbers,
    the angles are the server's to the precision of the message, and the origin is, or it is
    the baseline's where the two are within 0.1 of each other.  No other entity in use
    changes.  (The messages have room, the client is not at the last step of its sign-on, the
    frame, colours, skin, model and effects of the baseline are bytes, and the effects, which
    the message of a baseline does not carry, are those of the client's baseline.) *)
Theorem entity_protocol h reply e ent signon_buf msg st ce :
  0 <= e < MAX_EDICTS -> f32_valid (alpha_of ent) -> f32_valid (fullbright_of ent) ->
  sb_wf signon_buf -> cursize signon_buf + 16 <= maxsize signon_buf -> sb_wf msg -> cursize msg + 30 <= maxsize msg ->
  cl_ok st -> signon st <> SIGNONS - 1 -> cl_entities st !! Z.to_nat e = Some ce ->
  (let b := ed_baseline ent in
   is_byte (es_modelindex b) /\ is_byte (es_frame b) /\ is_byte (es_colormap b) /\ is_byte (es_skin b) /\
   is_byte (es_effects b) /\ es_effects (ce_baseline ce) = es_effects b) ->
  exists signon_buf' msg' bb ub,
    write_baseline e (ed_baseline ent) signon_buf = Ok signon_buf' /\ contents signon_buf' = contents signon_buf ++ bb /\
    write_update h e ent msg = Ok msg' /\ contents msg' = contents msg ++ ub /\
    forall m rest, reading m (bb ++ rest) -> exists m0 m1 st1,
      MSG_ReadByte m = Ok (svc_spawnbaseline, m0) /\ parse_spawnbaseline st m0 = Ok (st1, m1) /\ goes_to m m1 rest /\
      forall m rest, reading m (ub ++ rest) -> msg_badread m = false -> exists st2 m2 ce2,
        parse_fast_update h reply st1 m = Ok (Some (st2, m2)) /\ goes_to m m2 rest /\
        cl_entities st2 !! Z.to_nat e = Some ce2 /\ shown st2 ent ce2 /\
        forall i, (i < Z.to_nat (num_entities st1))%nat -> i <> Z.to_nat e -> cl_entities st2 !! i = cl_entities st1 !! i.
Proof.
  intros He Ha Hf Hw1 Hr1 Hw2 Hr2 Hok Hsig Hce (B1 & B2 & B3 & B4 & B5 & Heff).
  destruct (parse_baseline h e (ed_baseline ent) signon_buf st ce) as (sb' & bb & E1 & C1 & Hp1); [done..|].
  destruct (write_fields_spec h (update_fields e ent) msg Hw2) as (msg' & E2 & _ & C2).
  { pose proof (update_bytes_length e ent). unfold update_bytes in *. lia. }
  exists sb', msg', bb, (update_bytes e ent). split; [done|]. split; [done|]. rewrite write_update_fields. split; [done|]. split; [done|].
  intros m rest Hr. destruct (Hp1 m rest Hr) as (m0 & m1 & st1 & ce1 & R1 & R2 & G & Hok1 & Hce1 & Hb1 & Hs1).
  exists m0, m1, st1. split; [done|]. split; [done|]. split; [done|]. intros m' rest' Hr' Hbad.
  destruct (parse_update h reply e ent He Ha Hf st1 ce1 m' rest') as (st2 & m2 & ce2 & P1 & P2 & _ & P4 & _ & P6 & P7);
    [done|congruence|done..|]. by exists st2, m2, ce2.
Qed.

(** The room test of [SV_WriteEntitiesToClient] asks for 16 bytes, and an update can take up to
    30: with at least 16 bytes left and an update that is longer than the room, the server ends
    in [Sys_Error] instead of leaving the entity out (the buffer does not allow overflow). *)
Theorem SV_WriteEntities_overflow h str pvs nomap e ent ents msg :
  sb_wf msg -> allowoverflow msg = false -> 16 <= maxsize msg - cursize msg < zlen (update_bytes e ent) ->
  exists err, entities_loop h str pvs e nomap e (ent :: ents) msg = Fault (Sys_Error err).
Proof.
  intros Hw Ha Hr. cbn [entities_loop]. rewrite Z.eqb_refl, bind_Ok. destruct (Z.ltb_spec (maxsize msg - cursize msg) 16); [lia|].
  rewrite write_update_fields. unfold update_bytes in Hr.
  destruct (write_fields_error h (update_fields e ent) msg Hw Ha) as [err ->]; [lia|]. by exists err.
Qed.

(** * The client's own data *)

Section clientdata_flags.
Context (v : entvars).

Lemma flag_viewheight : has (clientdata_bits v) SU_VIEWHEIGHT = negb (f_eqb (vz (ev_view_ofs v)) (f32_of_Z DEFAULT_VIEWHEIGHT)).
Proof. flag. Qed.
Lemma flag_idealpitch : has (clientdata_bits v) SU_IDEALPITCH = f_truth (ev_idealpitch v).
Proof. flag. Qed.
Lemma flag_punch1 : has (clientdata_bits v) SU_PUNCH1 = f_truth (vx (ev_punchangle v)).
Proof. flag. Qed.
Lemma flag_punch2 : has (clientdata_bits v) SU_PUNCH2 = f_truth (vy (ev_punchangle v)).
Proof. flag. Qed.
Lemma flag_punch3 : has (clientdata_bits v) SU_PUNCH3 = f_truth (vz (ev_punchangle v)).
Proof. flag. Qed.
Lemma flag_velocity1 : has (clientdata_bits v) SU_VELOCITY1 = f_truth (vx (ev_velocity v)).
Proof. flag. Qed.
Lemma flag_velocity2 : has (clientdata_bits v) SU_VELOCITY2 = f_truth (vy (ev_velocity v)).
Proof. flag. Qed.
Lemma flag_velocity3 : has (clientdata_bits v) SU_VELOCITY3 = f_truth (vz (ev_velocity v)).
Proof. flag. Qed.
Lemma flag_onground : has (clientdata_bits v) SU_ONGROUND = truth (f_to_int (ev_flags v) & FL_ONGROUND).
Proof. flag. Qed.
Lemma flag_inwater : has (clientdata_bits v) SU_INWATER = f_leb (f32_of_Z 2) (ev_waterlevel v).
Proof. flag. Qed.
Lemma flag_weaponframe : has (clientdata_bits v) SU_WEAPONFRAME = f_truth (ev_weaponframe v).
Proof. flag. Qed.
Lemma flag_armor : has (clientdata_bits v) SU_ARMOR = f_truth (ev_armorvalue v).
Proof. flag. Qed.
Lemma flag_weapon : has (clientdata_bits v) SU_WEAPON = true.
Proof. flag. Qed.
End clientdata_flags.

Lemma clientdata_bits_short v : s16 (clientdata_bits v) = clientdata_bits v.
Proof.
  assert (within 32767 (clientdata_bits v)) as H.
  { unfold clientdata_bits.
    repeat first [apply within_or_if | apply (within_or_if 32767 true)]; by_vm. }
  apply within_range in H; [|done]. wrap_lia.
Qed.

(** What arrives of numbers sent as a signed byte, and of velocities. *)
Definition sent_char (x : f32) : f32 := f32_of_Z (s8 (f_to_int x) * 1).
Definition sent_velocity (x : f32) : f32 := f32_of_Z (s8 (f_to_int (f32_div x (f32_of_Z 16))) * 16).

Lemma f_truth_false x : f_truth x = false -> exists s, x = S754_zero s.
Proof.
  unfold f_truth. intros H. apply negb_false_iff, f_eqb_cases in H as [->|(s & t & -> & _)]; by eexists.
Qed.

Lemma char_shown x : (if f_truth x then sent_char x else f32_of_Z 0) = sent_char x.
Proof. destruct (f_truth x) eqn:E; [done|]. by apply f_truth_false in E as [s ->]. Qed.
Lemma velocity_shown x : (if f_truth x then sent_velocity x else f32_of_Z 0) = sent_velocity x.
Proof. destruct (f_truth x) eqn:E; [done|]. apply f_truth_false in E as [s ->]. by destruct s. Qed.
Lemma viewheight_shown x :
  (if negb (f_eqb x (f32_of_Z DEFAULT_VIEWHEIGHT)) then sent_char x else f32_of_Z DEFAULT_VIEWHEIGHT) = sent_char x.
Proof.
  destruct (f_eqb x _) eqn:E; [|done]. apply f_eqb_cases in E as [->|(s & t & _ & E)]; [by_vm|discriminate E].
Qed.
Lemma number_shown x : (if f_truth x then u8 (f_to_int x) else 0) = u8 (f_to_int x).
Proof. destruct (f_truth x) eqn:E; [done|]. by apply f_truth_false in E as [s ->]. Qed.

Lemma takes_read_f c k : takes (read_f MSG_ReadChar k) (FChar (s8 c)) (f32_of_Z (s8 c * k)).
Proof. apply (takes_map MSG_ReadChar (fun c => f32_of_Z (c * k))), takes_char. Qed.

(** The number of the weapon, as the client reads it. *)
Definition weapon_field (mission_pack : bool) (weapon : Z) : list field :=
  if mission_pack then match weapon_bit 32 0 weapon with Some i => [FByte (u8 i)] | None => [] end
  else [FByte (u8 weapon)].

Definition motion_fields (v : entvars) : list field :=
  let bits := clientdata_bits v in
  opt (has bits SU_VIEWHEIGHT) (FChar (s8 (f_to_int (vz (ev_view_ofs v))))) ++
  opt (has bits SU_IDEALPITCH) (FChar (s8 (f_to_int (ev_idealpitch v)))) ++
  opt (has bits SU_PUNCH1) (FChar (s8 (f_to_int (vx (ev_punchangle v))))) ++
  opt (has bits SU_VELOCITY1) (FChar (s8 (f_to_int (f32_div (vx (ev_velocity v)) (f32_of_Z 16))))) ++
  opt (has bits SU_PUNCH2) (FChar (s8 (f_to_int (vy (ev_punchangle v))))) ++
  opt (has bits SU_VELOCITY2) (FChar (s8 (f_to_int (f32_div (vy (ev_velocity v)) (f32_of_Z 16))))) ++
  opt (has bits SU_PUNCH3) (FChar (s8 (f_to_int (vz (ev_punchangle v))))) ++
  opt (has bits SU_VELOCITY3) (FChar (s8 (f_to_int (f32_div (vz (ev_velocity v)) (f32_of_Z 16))))).

Definition stat_fields (mission_pack : bool) (wi : Z) (v : entvars) : list field :=
  let bits := clientdata_bits v in
  opt (has bits SU_WEAPONFRAME) (FByte (u8 (f_to_int (ev_weaponframe v)))) ++
  opt (has bits SU_ARMOR) (FByte (u8 (f_to_int (ev_armorvalue v)))) ++
  opt (has bits SU_WEAPON) (FByte (u8 wi)) ++
  [FShort (s16 (f_to_int (ev_health v)))] ++ [FByte (u8 (f_to_int (ev_currentammo v)))] ++
  [FByte (u8 (f_to_int (ev_ammo_shells v)))] ++ [FByte (u8 (f_to_int (ev_ammo_nails v)))] ++
  [FByte (u8 (f_to_int (ev_ammo_rockets v)))] ++ [FByte (u8 (f_to_int (ev_ammo_cells v)))] ++
  weapon_field mission_pack (f_to_int (ev_weapon v)).

Definition clientdata_fields (mission_pack : bool) (serverflags : f32) (wi : Z) (ent : edict) : list field :=
  [FByte (u8 svc_clientdata)] ++ [FShort (s16 (clientdata_bits (ed_v ent)))] ++ motion_fields (ed_v ent) ++
  [FLong (clientdata_items serverflags ent)] ++ stat_fields mission_pack wi (ed_v ent).

Lemma write_clientdata_fields h str precache mission_pack serverflags ent wi sb :
  SV_ModelIndex precache (str (ev_weaponmodel (ed_v ent))) = Ok wi ->
  write_clientdata str precache mission_pack serverflags ent sb =
    write_fields h sb (clientdata_fields mission_pack serverflags wi ent).
Proof.
  intros Hwi. unfold write_clientdata, clientdata_fields, motion_fields, stat_fields. rewrite <- !app_assoc. set (bits := clientdata_bits (ed_v ent)).
  apply write_step; [apply write_one, byte_field|]. clear sb. intros sb.
  apply write_step; [apply write_one, short_field|]. clear sb. intros sb.
  do 8 (apply write_step; [apply write_if_opt; intros; apply char_field|]; clear sb; intros sb).
  apply write_step; [apply write_one, long_field|]. clear sb. intros sb.
  do 2 (apply write_step; [apply write_if_opt, byte_field|]; clear sb; intros sb).
  apply write_step; [rewrite Hwi, bind_Ok; apply (write_if_opt h (has bits SU_WEAPON) _ (fun sb => MSG_WriteByte sb wi)), byte_field|].
  clear sb. intros sb.
  apply write_step; [apply write_one, short_field|]. clear sb. intros sb.
  do 5 (apply write_step; [apply write_one, byte_field|]; clear sb; intros sb).
  unfold weapon_field. destruct mission_pack; [|apply write_one, byte_field].
  destruct (weapon_bit 32 0 _); [apply write_one, byte_field|done].
Qed.

(** ** Statistics *)

Lemma change_stat_eq i v st : 0 <= i < zlen (stats st) ->
  change_stat i v st = set_stats (<[Z.to_nat i := v]> (stats st)) (set_sbar_changed (sbar_changed st || negb (stat i st =? v)) st).
Proof.
  intros Hi. unfold change_stat. destruct (Z.eqb_spec (stat i st) v) as [E|E]; cbn [negb].
  - rewrite orb_false_r. unfold stat in E. destruct (lookup_lt_is_Some_2 (stats st) (Z.to_nat i)) as [w Hw]; [lia|].
    rewrite Hw in E. cbn in E. subst w. rewrite list_insert_id by done. by destruct st.
  - rewrite orb_true_r. done.
Qed.

Lemma stat_insert i j v st b l : l = stats st -> 0 <= i < zlen l -> 0 <= j ->
  stat j (set_stats (<[Z.to_nat i := v]> l) b) = if j =? i then v else stat j st.
Proof.
  intros -> Hi Hj. unfold stat. cbn. destruct (Z.eqb_spec j i) as [->|Hne].
  - by rewrite list_lookup_insert_eq by lia.
  - by rewrite list_lookup_insert_ne by lia.
Qed.

Lemma stat_change i j v st : 0 <= i < zlen (stats st) -> 0 <= j ->
  stat j (change_stat i v st) = if j =? i then v else stat j st.
Proof. intros Hi Hj. rewrite change_stat_eq by done. by apply stat_insert. Qed.

Lemma change_stat_length i v st : zlen (stats (change_stat i v st)) = zlen (stats st).
Proof. unfold change_stat, set_stat. destruct (_ =? _); [done|]. cbn. by rewrite length_insert. Qed.

(** Everything but the statistics. *)
Definition same_but_stats (st st' : clst) : Prop :=
  viewheight st' = viewheight st /\ cl_idealpitch st' = cl_idealpitch st /\ punchangle st' = punchangle st /\
  mvelocity0 st' = mvelocity0 st /\ mvelocity1 st' = mvelocity1 st /\ items st' = items st /\ onground st' = onground st /\
  inwater st' = inwater st /\ cl_entities st' = cl_entities st.

Lemma change_stat_same i v st : same_but_stats st (change_stat i v st).
Proof. unfold change_stat. by destruct (_ =? _). Qed.

Lemma same_but_stats_trans st1 st2 st3 : same_but_stats st1 st2 -> same_but_stats st2 st3 -> same_but_stats st1 st3.
Proof. unfold same_but_stats. intros (?&?&?&?&?&?&?&?&?) (?&?&?&?&?&?&?&?&?). split_and!; congruence. Qed.

(** Setting a list of statistics, the first one first. *)
Fixpoint change_stats (l : list (Z * Z)) (st : clst) : clst :=
  match l with
  | [] => st
  | (i, v) :: l => change_stats l (change_stat i v st)
  end.

Lemma change_stats_same l : forall st, same_but_stats st (change_stats l st).
Proof. induction l as [|[i v] l IH]; intros st; cbn; [done|]. eapply same_but_stats_trans; [apply change_stat_same|apply IH]. Qed.

Lemma change_stats_length l : forall st, zlen (stats (change_stats l st)) = zlen (stats st).
Proof. induction l as [|[i v] l IH]; intros st; cbn; [done|]. by rewrite IH, change_stat_length. Qed.

Lemma change_stats_get l : forall st j, Forall (fun iv => 0 <= iv.1 < zlen (stats st)) l -> 0 <= j ->
  stat j (change_stats l st) = foldl (fun d iv => if j =? iv.1 then iv.2 else d) (stat j st) l.
Proof.
  induction l as [|[i v] l IH]; intros st j Hl Hj; cbn [change_stats foldl fst snd]; [done|]. apply Forall_cons in Hl as [Hi Hl].
  rewrite IH; [|by rewrite change_stat_length|done]. by rewrite stat_change.
Qed.

Lemma change_items_items i st : items (change_items i st) = i /\ stats (change_items i st) = stats st /\
  viewheight (change_items i st) = viewheight st /\ cl_idealpitch (change_items i st) = cl_idealpitch st /\
  punchangle (change_items i st) = punchangle st /\ mvelocity0 (change_items i st) = mvelocity0 st /\
  mvelocity1 (change_items i st) = mvelocity1 st /\ cl_entities (change_items i st) = cl_entities st.
Proof. unfold change_items. destruct (Z.eqb_spec (items st) i) as [->|]; done. Qed.

(** The weapon in use, as the status bar has it. *)
Definition active_weapon (mission_pack : bool) (weapon : Z) : Z :=
  if mission_pack then s32 (1 << default 0 (weapon_bit 32 0 weapon)) else u8 weapon.

(** The client has the server's numbers. *)
Definition stats_shown (mission_pack : bool) (wi : Z) (v : entvars) (st : clst) : Prop :=
  stat STAT_WEAPONFRAME st = u8 (f_to_int (ev_weaponframe v)) /\ stat STAT_ARMOR st = u8 (f_to_int (ev_armorvalue v)) /\
  stat STAT_WEAPON st = u8 wi /\ stat STAT_HEALTH st = s16 (f_to_int (ev_health v)) /\
  stat STAT_AMMO st = u8 (f_to_int (ev_currentammo v)) /\ stat STAT_SHELLS st = u8 (f_to_int (ev_ammo_shells v)) /\
  stat STAT_NAILS st = u8 (f_to_int (ev_ammo_nails v)) /\ stat STAT_ROCKETS st = u8 (f_to_int (ev_ammo_rockets v)) /\
  stat STAT_CELLS st = u8 (f_to_int (ev_ammo_cells v)) /\
  stat STAT_ACTIVEWEAPON st = active_weapon mission_pack (f_to_int (ev_weapon v)).

(** The client has the server's data. *)
Definition clientdata_shown (mission_pack : bool) (serverflags : f32) (wi : Z) (ent : edict) (st : clst) : Prop :=
  let v := ed_v ent in
  viewheight st = sent_char (vz (ev_view_ofs v)) /\ cl_idealpitch st = sent_char (ev_idealpitch v) /\
  punchangle st = vec_map sent_char (ev_punchangle v) /\ mvelocity0 st = vec_map sent_velocity (ev_velocity v) /\
  items st = clientdata_items serverflags ent /\
  onground st = truth (f_to_int (ev_flags v) & FL_ONGROUND) /\ inwater st = f_leb (f32_of_Z 2) (ev_waterlevel v) /\
  stats_shown mission_pack wi v st.

Lemma weapon_bit_range n : forall i w k, weapon_bit n i w = Some k -> i <= k < i + Z.of_nat n.
Proof.
  induction n as [|n IH]; intros i w k; cbn [weapon_bit]; [done|]. destruct (truth _); [intros [= <-]; lia|].
  intros H. apply IH in H. lia.
Qed.

Lemma takes_weapon mission_pack w rest m : (mission_pack = true -> weapon_bit 32 0 w <> None) ->
  reading m (fields_bytes (weapon_field mission_pack w) ++ rest) ->
  exists i m', MSG_ReadByte m = Ok (i, m') /\ goes_to m m' rest /\
    (if mission_pack then s32 (1 << i) else i) = active_weapon mission_pack w.
Proof.
  intros Hw Hr. unfold weapon_field, active_weapon in *. destruct mission_pack.
  - destruct (weapon_bit 32 0 w) as [k|] eqn:E; [|by destruct Hw]. apply weapon_bit_range in E.
    destruct (takes_fields _ _ _ m _ (takes_byte k) Hr) as (m' & E' & G). rewrite u8_id in E' by lia.
    by exists k, m'.
  - destruct (takes_fields _ _ _ m _ (takes_byte w) Hr) as (m' & E' & G). by exists (u8 w), m'.
Qed.

Lemma punch_hack_same p st :
  let st' := if f_ltb p (f32_of_Z 0) then
               if f_leb (f32_of_Z (-2)) p then set_ideal_punchangle (f32_of_Z (-2)) st
               else if f_leb (f32_of_Z (-4)) p then set_ideal_punchangle (f32_of_Z (-4)) st else st
             else st in
  same_but_stats st st' /\ stats st' = stats st.
Proof. cbn. repeat case_match; done. Qed.

(** Read a field that is always there. *)
Ltac read_field T G m G' :=
  destruct (takes_fields _ _ _ _ _ T (proj1 G)) as (m & -> & G'); rewrite bind_Ok.

Section clientdata.

Variable mission_pack : bool.
Variable serverflags : f32.
Variable wi : Z.
Variable ent : edict.
Let v := ed_v ent.
Let bits := clientdata_bits v.

Lemma motion_read st m rest :
  reading m (fields_bytes (motion_fields v) ++ rest) ->
  exists st' m', clientdata_motion bits st m = Ok (st', m') /\ goes_to m m' rest /\
    viewheight st' = sent_char (vz (ev_view_ofs v)) /\ cl_idealpitch st' = sent_char (ev_idealpitch v) /\
    punchangle st' = vec_map sent_char (ev_punchangle v) /\ mvelocity0 st' = vec_map sent_velocity (ev_velocity v) /\
    mvelocity1 st' = mvelocity0 st /\ stats st' = stats st /\ cl_entities st' = cl_entities st.
Proof.
  intros Hr. unfold motion_fields in Hr. rewrite !fields_bytes_app, <- !app_assoc in Hr. unfold clientdata_motion, bits.
  rewrite (flag_viewheight v), (flag_idealpitch v), (flag_punch1 v), (flag_punch2 v), (flag_punch3 v), (flag_velocity1 v),
    (flag_velocity2 v), (flag_velocity3 v) in *.
  assert (goes_to m m _) as H0 by (split; [exact Hr|done]).
  read_next (takes_read_f (f_to_int (vz (ev_view_ofs v))) 1) H0 n1 H1. fold (sent_char (vz (ev_view_ofs v))). rewrite viewheight_shown.
  read_next (takes_read_f (f_to_int (ev_idealpitch v)) 1) H1 n2 H2. fold (sent_char (ev_idealpitch v)). rewrite char_shown.
  read_next (takes_read_f (f_to_int (vx (ev_punchangle v))) 1) H2 n3 H3. fold (sent_char (vx (ev_punchangle v))). rewrite char_shown.
  read_next (takes_read_f (f_to_int (f32_div (vx (ev_velocity v)) (f32_of_Z 16))) 16) H3 n4 H4.
  fold (sent_velocity (vx (ev_velocity v))). rewrite velocity_shown.
  read_next (takes_read_f (f_to_int (vy (ev_punchangle v))) 1) H4 n5 H5. fold (sent_char (vy (ev_punchangle v))). rewrite char_shown.
  read_next (takes_read_f (f_to_int (f32_div (vy (ev_velocity v)) (f32_of_Z 16))) 16) H5 n6 H6.
  fold (sent_velocity (vy (ev_velocity v))). rewrite velocity_shown.
  read_next (takes_read_f (f_to_int (vz (ev_punchangle v))) 1) H6 n7 H7. fold (sent_char (vz (ev_punchangle v))). rewrite char_shown.
  read_next (takes_read_f (f_to_int (f32_div (vz (ev_velocity v)) (f32_of_Z 16))) 16) H7 n8 H8.
  fold (sent_velocity (vz (ev_velocity v))). rewrite velocity_shown.
  eexists _, n8. split; [done|]. split; [by via H1; via H2; via H3; via H4; via H5; via H6; via H7|].
  match goal with |- context [set_viewheight ?a ?b] => destruct (punch_hack_same (sent_char (vx (ev_punchangle v))) (set_viewheight a b))
    as [(-> & -> & -> & -> & -> & _ & _ & _ & ->) ->] end. done.
Qed.

(** The numbers but the last one, the weapon in use. *)
Definition stat_list : list (Z * Z) :=
  [(STAT_ARMOR, u8 (f_to_int (ev_armorvalue v))); (STAT_WEAPON, u8 wi); (STAT_HEALTH, s16 (f_to_int (ev_health v)));
   (STAT_AMMO, u8 (f_to_int (ev_currentammo v))); (STAT_SHELLS, u8 (f_to_int (ev_ammo_shells v)));
   (STAT_NAILS, u8 (f_to_int (ev_ammo_nails v))); (STAT_ROCKETS, u8 (f_to_int (ev_ammo_rockets v)));
   (STAT_CELLS, u8 (f_to_int (ev_ammo_cells v)))].
Definition stats_before (st : clst) : clst :=
  change_stats stat_list (set_stat STAT_WEAPONFRAME (u8 (f_to_int (ev_weaponframe v))) st).

Lemma stats_prefix st m rest :
  reading m (fields_bytes (stat_fields mission_pack wi v) ++ rest) ->
  exists m1, goes_to m m1 (fields_bytes (weapon_field mission_pack (f_to_int (ev_weapon v))) ++ rest) /\
    clientdata_stats mission_pack bits st m =
      ('(i, m2) ← MSG_ReadByte m1;
       mret (change_stat STAT_ACTIVEWEAPON (if mission_pack then s32 (1 << i) else i) (stats_before st), m2)).
Proof.
  intros Hr. unfold stat_fields in Hr. rewrite !fields_bytes_app, <- !app_assoc in Hr. unfold clientdata_stats, bits.
  rewrite (flag_weaponframe v), (flag_armor v), (flag_weapon v) in *.
  assert (goes_to m m _) as H9 by (split; [exact Hr|done]).
  read_next (takes_byte (f_to_int (ev_weaponframe v))) H9 n10 H10. rewrite number_shown.
  read_next (takes_byte (f_to_int (ev_armorvalue v))) H10 n11 H11. rewrite number_shown.
  read_next (takes_byte wi) H11 n12 H12. cbv iota.
  read_field (takes_short (f_to_int (ev_health v))) H12 n13 H13.
  read_field (takes_byte (f_to_int (ev_currentammo v))) H13 n14 H14.
  read_field (takes_byte (f_to_int (ev_ammo_shells v))) H14 n15 H15.
  read_field (takes_byte (f_to_int (ev_ammo_nails v))) H15 n16 H16.
  read_field (takes_byte (f_to_int (ev_ammo_rockets v))) H16 n17 H17.
  read_field (takes_byte (f_to_int (ev_ammo_cells v))) H17 n18 H18.
  exists n18. split; [by via H10; via H11; via H12; via H13; via H14; via H15; via H16; via H17|done].
Qed.

Lemma stats_before_shown st a : zlen (stats st) = 32 ->
  same_but_stats st (change_stat STAT_ACTIVEWEAPON a (stats_before st)) /\
  (a = active_weapon mission_pack (f_to_int (ev_weapon v)) ->
   stats_shown mission_pack wi v (change_stat STAT_ACTIVEWEAPON a (stats_before st))).
Proof.
  intros Hst. set (st5 := set_stat STAT_WEAPONFRAME (u8 (f_to_int (ev_weaponframe v))) st).
  change (change_stat STAT_ACTIVEWEAPON a (stats_before st)) with (change_stats (stat_list ++ [(STAT_ACTIVEWEAPON, a)]) st5).
  split; [eapply same_but_stats_trans; [|apply change_stats_same]; done|]. intros Ha.
  assert (zlen (stats st5) = 32) as H5 by (cbn; by rewrite length_insert).
  assert (Forall (fun iv => 0 <= iv.1 < zlen (stats st5)) (stat_list ++ [(STAT_ACTIVEWEAPON, a)])) as Hl
    by (rewrite H5; repeat constructor; by_vm).
  unfold stats_shown. rewrite !change_stats_get by (done || by_vm). cbn [stat_list app foldl fst snd]. split_and!; try reflexivity; [|exact Ha].
  unfold st5, set_stat. by rewrite (stat_insert _ _ _ st) by (done || (rewrite Hst; done)).
Qed.

Lemma stats_read st m rest : zlen (stats st) = 32 ->
  (mission_pack = true -> weapon_bit 32 0 (f_to_int (ev_weapon v)) <> None) ->
  reading m (fields_bytes (stat_fields mission_pack wi v) ++ rest) ->
  exists st' m', clientdata_stats mission_pack bits st m = Ok (st', m') /\ goes_to m m' rest /\ same_but_stats st st' /\
    stats_shown mission_pack wi v st'.
Proof.
  intros Hst Hw Hr. destruct (stats_prefix st m rest Hr) as (m1 & G & ->).
  destruct (takes_weapon _ _ _ _ Hw (proj1 G)) as (i & n19 & -> & H19 & Hact). rewrite bind_Ok, Hact.
  destruct (stats_before_shown st (active_weapon mission_pack (f_to_int (ev_weapon v))) Hst) as [H1 H2].
  eexists _, n19. split; [done|]. split; [by via G|]. split; [exact H1|by apply H2].
Qed.

(** Everything before the numbers. *)
Lemma clientdata_head st m rest : zlen (stats st) = 32 ->
  reading m (fields_bytes (clientdata_fields mission_pack serverflags wi ent) ++ rest) ->
  exists m0 m1 m2 st2, MSG_ReadByte m = Ok (svc_clientdata, m0) /\ MSG_ReadShort m0 = Ok (bits, m1) /\
    CL_ParseClientdata mission_pack bits st m1 = clientdata_stats mission_pack bits st2 m2 /\
    goes_to m m2 (fields_bytes (stat_fields mission_pack wi v) ++ rest) /\ zlen (stats st2) = 32 /\
    viewheight st2 = sent_char (vz (ev_view_ofs v)) /\ cl_idealpitch st2 = sent_char (ev_idealpitch v) /\
    punchangle st2 = vec_map sent_char (ev_punchangle v) /\ mvelocity0 st2 = vec_map sent_velocity (ev_velocity v) /\
    items st2 = clientdata_items serverflags ent /\
    onground st2 = truth (f_to_int (ev_flags v) & FL_ONGROUND) /\ inwater st2 = f_leb (f32_of_Z 2) (ev_waterlevel v) /\
    mvelocity1 st2 = mvelocity0 st /\ cl_entities st2 = cl_entities st.
Proof.
  intros Hst Hr. unfold clientdata_fields in Hr. rewrite !fields_bytes_app, <- !app_assoc in Hr.
  destruct (takes_fields _ _ _ m _ (takes_byte svc_clientdata) Hr) as (m0 & E0 & G0).
  destruct (takes_fields _ _ _ m0 _ (takes_short (clientdata_bits v)) (proj1 G0)) as (m1 & E1 & G1).
  rewrite clientdata_bits_short in E1. exists m0, m1. unfold CL_ParseClientdata.
  destruct (motion_read st m1 _ (proj1 G1)) as (st1 & m2 & -> & G2 & K1 & K2 & K3 & K4 & K5 & K6 & K7). rewrite bind_Ok.
  assert (is_int (clientdata_items serverflags ent)) as Hit.
  { unfold clientdata_items, is_int, INT_MAX, INT_MIN. destruct (ed_items2 ent);
      match goal with |- context [s32 ?x] => pose proof (s32_range x) end; lia. }
  read_field (takes_long _ Hit) G2 m3 G3. eexists m3, _. split; [done|]. split; [done|]. split; [done|].
  split; [by via G0; via G1; via G2|]. unfold bits. rewrite (flag_onground v), (flag_inwater v). cbn.
  destruct (change_items_items (clientdata_items serverflags ent) st1) as (-> & -> & -> & -> & -> & -> & -> & ->).
  rewrite K6. done.
Qed.

End clientdata.

Lemma clientdata_length mission_pack serverflags wi ent : zlen (fields_bytes (clientdata_fields mission_pack serverflags wi ent)) <= 30.
Proof.
  unfold clientdata_fields, motion_fields, stat_fields. rewrite !fields_bytes_app, !length_app.
  repeat match goal with |- context [fields_bytes (opt ?c ?f)] =>
    let H := fresh in pose proof (opt_length c f) as H; cbn [field_bytes length] in H;
    generalize dependent (fields_bytes (opt c f)); intros end.
  assert (zlen (fields_bytes (weapon_field mission_pack (f_to_int (ev_weapon (ed_v ent))))) <= 1).
  { unfold weapon_field. destruct mission_pack; [destruct (weapon_bit _ _ _)|]; cbn; lia. }
  cbn [length fields_bytes fmap list_fmap concat app field_bytes short_bytes long_bytes]. lia.
Qed.

(** ** The whole of the player's data *)

Definition damaged (v : entvars) : bool := f_truth (ev_dmg_take v) || f_truth (ev_dmg_save v).
Definition undamaged (ent : edict) : edict := set_ed_v (set_ev_dmg_save (f32_of_Z 0) (set_ev_dmg_take (f32_of_Z 0) (ed_v ent))) ent.
(** The player when the angles are looked at, and when its data is written; [pitch] is what
    [SV_SetIdealPitch] makes of it. *)
Definition pitched (pitch : edict -> edict) (ent : edict) : edict := pitch (if damaged (ed_v ent) then undamaged ent else ent).
Definition sent_player (pitch : edict -> edict) (ent : edict) : edict :=
  let e := pitched pitch ent in
  if f_truth (ev_fixangle (ed_v e)) then set_ed_v (set_ev_fixangle (f32_of_Z 0) (ed_v e)) e else e.
(** The middle of the entity that did the damage. *)
Definition middle (other : edict) : vec3 :=
  let o := ed_v other in
  Vec (centre (vx (ev_origin o)) (vx (ev_mins o)) (vx (ev_maxs o))) (centre (vy (ev_origin o)) (vy (ev_mins o)) (vy (ev_maxs o)))
    (centre (vz (ev_origin o)) (vz (ev_mins o)) (vz (ev_maxs o))).

Definition coord_fields (v : vec3) : list field := [FShort (coord_int (vx v))] ++ [FShort (coord_int (vy v))] ++ [FShort (coord_int (vz v))].
Definition angle_fields (v : vec3) : list field := [FChar (angle_int (vx v))] ++ [FChar (angle_int (vy v))] ++ [FChar (angle_int (vz v))].
Definition damage_fields (other : edict) (v : entvars) : list field :=
  [FByte (u8 svc_damage)] ++ [FByte (u8 (f_to_int (ev_dmg_save v)))] ++ [FByte (u8 (f_to_int (ev_dmg_take v)))] ++ coord_fields (middle other).
Definition setangle_fields (v : entvars) : list field := [FByte (u8 svc_setangle)] ++ angle_fields (ev_angles v).
Definition player_fields (other : edict) (pitch : edict -> edict) (mission_pack : bool) (serverflags : f32) (wi : Z) (ent : edict) : list field :=
  (if damaged (ed_v ent) then damage_fields other (ed_v ent) else []) ++
  (let v := ed_v (pitched pitch ent) in if f_truth (ev_fixangle v) then setangle_fields v else []) ++
  clientdata_fields mission_pack serverflags wi (sent_player pitch ent).

Lemma damage_write h other v sb :
  (msg ← MSG_WriteByte sb svc_damage; msg ← MSG_WriteByte msg (f_to_int (ev_dmg_save v)); msg ← MSG_WriteByte msg (f_to_int (ev_dmg_take v));
   msg ← MSG_WriteCoord msg (vx (middle other)); msg ← MSG_WriteCoord msg (vy (middle other)); MSG_WriteCoord msg (vz (middle other))) =
  write_fields h sb (damage_fields other v).
Proof.
  unfold damage_fields, coord_fields.
  repeat (apply write_step; [apply write_one; first [apply byte_field|apply coord_field]|]; clear sb; intros sb). apply write_one, coord_field.
Qed.
Lemma setangle_write h v sb :
  (msg ← MSG_WriteByte sb svc_setangle; msg ← MSG_WriteAngle msg (vx (ev_angles v)); msg ← MSG_WriteAngle msg (vy (ev_angles v)); MSG_WriteAngle msg (vz (ev_angles v))) =
  write_fields h sb (setangle_fields v).
Proof.
  unfold setangle_fields, angle_fields.
  repeat (apply write_step; [apply write_one; first [apply byte_field|apply angle_field]|]; clear sb; intros sb). apply write_one, angle_field.
Qed.

(** Both sides write the same next byte, number or angle. *)
Ltac same_write :=
  match goal with
  | |- context [MSG_WriteByte ?m ?x] => destruct (MSG_WriteByte m x); [rewrite ?bind_Ok|done]
  | |- context [MSG_WriteCoord ?m ?x] => destruct (MSG_WriteCoord m x); [rewrite ?bind_Ok|done]
  | |- context [MSG_WriteAngle ?m ?x] => destruct (MSG_WriteAngle m x); [rewrite ?bind_Ok|done]
  end.

Lemma write_player str entity_at pitch precache mission_pack serverflags ent other wi sb :
  (damaged (ed_v ent) = true -> entity_at (ev_dmg_inflictor (ed_v ent)) = Some other) ->
  SV_ModelIndex precache (str (ev_weaponmodel (ed_v (sent_player pitch ent)))) = Ok wi ->
  SV_WriteClientdataToMessage str entity_at pitch precache mission_pack serverflags ent sb =
  (msg ← write_fields LittleEndian sb (player_fields other pitch mission_pack serverflags wi ent); mret (sent_player pitch ent, msg)).
Proof.
  intros Ho Hwi. unfold SV_WriteClientdataToMessage, player_fields. fold (damaged (ed_v ent)). rewrite write_fields_app.
  assert (forall sb, (let e := pitched pitch ent in let v := ed_v e in
    '(ent, msg) ← (if f_truth (ev_fixangle v) then
       msg ← MSG_WriteByte sb svc_setangle; msg ← MSG_WriteAngle msg (vx (ev_angles v)); msg ← MSG_WriteAngle msg (vy (ev_angles v));
       msg ← MSG_WriteAngle msg (vz (ev_angles v)); mret (set_ed_v (set_ev_fixangle (f32_of_Z 0) v) e, msg)
     else mret (e, sb)); msg ← write_clientdata str precache mission_pack serverflags ent msg; mret (ent, msg)) =
    (msg ← write_fields LittleEndian sb ((let v := ed_v (pitched pitch ent) in if f_truth (ev_fixangle v) then setangle_fields v else []) ++
       clientdata_fields mission_pack serverflags wi (sent_player pitch ent)); mret (sent_player pitch ent, msg))) as Hrest.
  { clear sb. intros sb. cbv zeta. rewrite write_fields_app. revert Hwi. unfold sent_player. destruct (f_truth _); intros Hwi.
    - rewrite <- setangle_write. do 4 same_write. by rewrite (write_clientdata_fields LittleEndian _ _ _ _ _ wi).
    - cbn [write_fields]. rewrite !bind_Ok. by rewrite (write_clientdata_fields LittleEndian _ _ _ _ _ wi). }
  unfold pitched in Hrest at 1. destruct (damaged (ed_v ent)).
  - rewrite Ho by done. rewrite <- (damage_write LittleEndian). unfold middle. cbn [vx vy vz]. do 6 same_write. apply Hrest.
  - cbn [write_fields]. rewrite !bind_Ok. apply Hrest.
Qed.

Lemma player_length other pitch mission_pack serverflags wi ent : zlen (fields_bytes (player_fields other pitch mission_pack serverflags wi ent)) <= 43.
Proof.
  unfold player_fields. rewrite !fields_bytes_app, !length_app. pose proof (clientdata_length mission_pack serverflags wi (sent_player pitch ent)).
  assert (length (fields_bytes (if damaged (ed_v ent) then damage_fields other (ed_v ent) else [])) <= 9)%nat by (case_if; cbn; lia).
  assert (length (fields_bytes (let v := ed_v (pitched pitch ent) in if f_truth (ev_fixangle v) then setangle_fields v else [])) <= 4)%nat by (cbv zeta; case_if; cbn; lia).
  cbv zeta in *. lia.
Qed.

Lemma read_vec_ok rd (f : f32 -> field) (g : f32 -> f32) v m rest : (forall x, takes rd (f x) (g x)) ->
  reading m (fields_bytes ([f (vx v)] ++ [f (vy v)] ++ [f (vz v)]) ++ rest) -> exists m', read_vec rd m = Ok (vec_map g v, m') /\ goes_to m m' rest.
Proof.
  intros T Hr. rewrite !fields_bytes_app, <- !app_assoc in Hr. unfold read_vec.
  destruct (takes_fields _ _ _ m _ (T (vx v)) Hr) as (m1 & -> & G1). rewrite bind_Ok.
  destruct (takes_fields _ _ _ m1 _ (T (vy v)) (proj1 G1)) as (m2 & -> & G2). rewrite bind_Ok.
  destruct (takes_fields _ _ _ m2 _ (T (vz v)) (proj1 G2)) as (m3 & -> & G3). rewrite bind_Ok.
  exists m3. split; [done|]. by via G1; via G2.
Qed.

(** What is read of damage and of the angles, if they were sent. *)
Definition reads_damage (other : edict) (v : entvars) (m m' : msgstate) : Prop :=
  if damaged v then exists m0, MSG_ReadByte m = Ok (svc_damage, m0) /\
    read_damage m0 = Ok (u8 (f_to_int (ev_dmg_save v)), u8 (f_to_int (ev_dmg_take v)), vec_map sent_coord (middle other), m')
  else m' = m.
Definition reads_setangle (v : entvars) (m m' : msgstate) : Prop :=
  if f_truth (ev_fixangle v) then exists m0, MSG_ReadByte m = Ok (svc_setangle, m0) /\
    read_setangle m0 = Ok (vec_map sent_angle (ev_angles v), m')
  else m' = m.

Lemma damage_read other v m rest : reading m (fields_bytes (if damaged v then damage_fields other v else []) ++ rest) -> exists m',
  reads_damage other v m m' /\ goes_to m m' rest.
Proof.
  unfold reads_damage. destruct (damaged v); intros Hr; [|by exists m]. unfold damage_fields in Hr. rewrite !(fields_bytes_app [_]), <- !app_assoc in Hr.
  destruct (takes_fields _ _ _ m _ (takes_byte svc_damage) Hr) as (m0 & E0 & G0).
  destruct (takes_fields _ _ _ m0 _ (takes_byte _) (proj1 G0)) as (m1 & E1 & G1).
  destruct (takes_fields _ _ _ m1 _ (takes_byte _) (proj1 G1)) as (m2 & E2 & G2).
  destruct (read_vec_ok MSG_ReadCoord (fun x => FShort (coord_int x)) sent_coord (middle other) m2 rest takes_coord (proj1 G2)) as (m3 & E3 & G3).
  exists m3. split; [|by via G0; via G1; via G2]. exists m0. split; [exact E0|]. unfold read_damage. by rewrite E1, bind_Ok, E2, bind_Ok, E3, bind_Ok.
Qed.

Lemma setangle_read v m rest : reading m (fields_bytes (if f_truth (ev_fixangle v) then setangle_fields v else []) ++ rest) -> exists m',
  reads_setangle v m m' /\ goes_to m m' rest.
Proof.
  unfold reads_setangle. destruct (f_truth _); intros Hr; [|by exists m]. unfold setangle_fields in Hr. rewrite (fields_bytes_app [_]), <- app_assoc in Hr.
  destruct (takes_fields _ _ _ m _ (takes_byte svc_setangle) Hr) as (m0 & E0 & G0).
  destruct (read_vec_ok MSG_ReadAngle (fun x => FChar (angle_int x)) sent_angle (ev_angles v) m0 rest takes_angle (proj1 G0)) as (m1 & E1 & G1).
  exists m1. split; [|by via G0]. exists m0. by split.
Qed.

(** C25: The server and the client agree about the player's data.  [SV_WriteClientdataToMessage]
    writes a message about damage, if any is pending, one that sets the view angles, if the game
    program asks for it, and the player's data, and clears what was pending.  Of exactly these bytes,
    the client reads the damage taken and saved as bytes and the middle of the entity that did it;
    the angles; and then with [CL_ParseClientdata] view height, pitch, punch angles and velocities
    to the precision of a byte, items, ammunition, health and the other numbers of the status bar,
    whether a number was sent or left out because it is the default.  The message has 43 bytes of
    room, the entity that did the damage and the player's weapon model are known, and with a mission
    pack the player has a weapon; [pitch] is what [SV_SetIdealPitch] makes of the player. *)
Theorem clientdata_roundtrip str entity_at pitch precache mission_pack serverflags ent other wi msg st :
  (damaged (ed_v ent) = true -> entity_at (ev_dmg_inflictor (ed_v ent)) = Some other) ->
  let player := sent_player pitch ent in
  SV_ModelIndex precache (str (ev_weaponmodel (ed_v player))) = Ok wi ->
  (mission_pack = true -> weapon_bit 32 0 (f_to_int (ev_weapon (ed_v player))) <> None) ->
  sb_wf msg -> cursize msg + 43 <= maxsize msg -> zlen (stats st) = 32 ->
  exists msg' bytes, SV_WriteClientdataToMessage str entity_at pitch precache mission_pack serverflags ent msg = Ok (player, msg') /\
    contents msg' = contents msg ++ bytes /\
    forall m rest, reading m (bytes ++ rest) -> exists md ma m0 m1 m2 st',
      reads_damage other (ed_v ent) m md /\ reads_setangle (ed_v (pitched pitch ent)) md ma /\
      MSG_ReadByte ma = Ok (svc_clientdata, m0) /\ MSG_ReadShort m0 = Ok (clientdata_bits (ed_v player), m1) /\
      CL_ParseClientdata mission_pack (clientdata_bits (ed_v player)) st m1 = Ok (st', m2) /\ goes_to m m2 rest /\
      clientdata_shown mission_pack serverflags wi player st' /\ mvelocity1 st' = mvelocity0 st /\ cl_entities st' = cl_entities st.
Proof.
  intros Ho player Hwi Hw Hsb Hroom Hst. rewrite (write_player str entity_at pitch precache mission_pack serverflags ent other wi msg Ho Hwi). fold player.
  destruct (write_fields_spec LittleEndian (player_fields other pitch mission_pack serverflags wi ent) msg Hsb) as (msg' & -> & _ & Hc).
  { pose proof (player_length other pitch mission_pack serverflags wi ent). lia. }
  exists msg', (fields_bytes (player_fields other pitch mission_pack serverflags wi ent)). split; [done|]. split; [done|]. intros m rest Hr.
  unfold player_fields in Hr. rewrite !fields_bytes_app, <- !app_assoc in Hr.
  destruct (damage_read _ _ _ _ Hr) as (md & Hd & Gd). destruct (setangle_read _ _ _ (proj1 Gd)) as (ma & Hma & Ga). fold player in Ga.
  destruct (clientdata_head mission_pack serverflags wi player st ma rest Hst (proj1 Ga))
    as (m0 & m1 & m2 & st2 & E0 & E1 & E2 & G & Hst2 & K1 & K2 & K3 & K4 & K5 & K6 & K7 & K8 & K9).
  destruct (stats_read mission_pack wi player st2 m2 rest Hst2 Hw (proj1 G)) as (st3 & m3 & E3 & G3 & (F1 & F2 & F3 & F4 & F5 & F6 & F7 & F8 & F9) & Hs).
  exists md, ma, m0, m1, m3, st3. do 4 (split; [done|]). split; [by rewrite E2|]. split; [by via Gd; via Ga; via G|].
  split; [|split; congruence]. unfold clientdata_shown. rewrite F1, F2, F3, F4, F6, F7, F8. done.
Qed.

(** With a mission pack and no weapon in hand the two disagree: the loop that looks for the
    weapon's bit writes nothing, and the client reads a byte all the same.  At the end of a
    message it runs out of bytes and flags the message as bad; otherwise it takes the first
    byte of whatever comes next. *)
Theorem clientdata_no_weapon serverflags wi ent st m rest :
  weapon_bit 32 0 (f_to_int (ev_weapon (ed_v ent))) = None -> zlen (stats st) = 32 ->
  reading m (fields_bytes (clientdata_fields true serverflags wi ent) ++ rest) ->
  exists m0 m1, MSG_ReadByte m = Ok (svc_clientdata, m0) /\ MSG_ReadShort m0 = Ok (clientdata_bits (ed_v ent), m1) /\
    match rest with
    | [] => exists st' m2, CL_ParseClientdata true (clientdata_bits (ed_v ent)) st m1 = Ok (st', m2) /\ msg_badread m2 = true
    | b :: rest' => is_byte b -> exists st' m2, CL_ParseClientdata true (clientdata_bits (ed_v ent)) st m1 = Ok (st', m2) /\
                      goes_to m m2 rest'
    end.
Proof.
  intros Hw Hst Hr.
  destruct (clientdata_head true serverflags wi ent st m rest Hst Hr) as (m0 & m1 & m2 & st2 & E0 & E1 & E2 & G & _).
  exists m0, m1. split; [done|]. split; [done|]. destruct (stats_prefix true wi ent st2 m2 rest (proj1 G)) as (m3 & G3 & E3).
  unfold weapon_field in G3. rewrite Hw in G3. cbn [fields_bytes fmap list_fmap concat app] in G3. destruct rest as [|b rest].
  - assert (MSG_ReadByte m3 = Ok (-1, badread m3)) as E4.
    { unfold MSG_ReadByte. destruct (Z.leb_spec (cursize (net_message m3)) (msg_readcount m3)) as [|Hlt]; [done|].
      destruct G3 as ((Hwf & Hrc & Hd) & _). pose proof (length_contents _ Hwf). apply (f_equal length) in Hd.
      rewrite length_drop in Hd. cbn in Hd. lia. }
    rewrite E2, E3, E4. eexists _, _. split; [done|]. done.
  - intros Hb. destruct (takes_byte b m3 rest) as (m4 & E4 & G4); [rewrite u8_id by done; cbn; rewrite u8_id by done; exact (proj1 G3)|].
    rewrite E2, E3, E4. eexists _, m4. split; [done|]. by via G; via G3.
Qed.

(** * A small game *)

Definition demo_entity : entity :=
  Entity false (ES vec0 vec0 0 0 0 0 0) (f64_of_Z 0) vec0 vec0 vec0 vec0 vec0 vec0 0 0 (f32_of_Z 0) VidColormap 0 0 0 false (f32_of_Z 1).
Definition demo_client : clst :=
  Cl SIGNONS (replicate 2048 demo_entity) 1 (replicate 16 0) (f64_of_Z 2) (f64_of_Z 1) (0 :: replicate 255 5) {[5 := Model 0 0 2 0]} 1
     (Rng 1 0 0 0 0) [] (f32_of_Z 22) (f32_of_Z 0) vec0 vec0 vec0 (f32_of_Z 0) 0 (replicate 32 (f32_of_Z 0)) (f64_of_Z 2) false false
     (replicate 32 0) false.
(** An entity that has moved, turned and been made half transparent since its baseline. *)
Definition demo_changed : edict :=
  Edict false 1 [1] demo_baseline (demo_vars 50) (Some (f32_div (f32_of_Z 1) (f32_of_Z 2))) None None.

Lemma demo_client_ok : cl_ok demo_client.
Proof.
  unfold cl_ok. split; [by_vm|]. split; [split; by_vm|]. split; [by_vm|]. split.
  - apply Forall_cons. split; [by left|]. apply Forall_replicate. right. by eexists.
  - apply Forall_replicate. by left.
Qed.

Lemma demo_msg_wf : sb_wf demo_msg.
Proof. split; [split|]; by_vm. Qed.

Lemma entity_protocol_witness :
  exists signon_buf' msg' bb ub,
    write_baseline 300 (ed_baseline demo_changed) demo_msg = Ok signon_buf' /\ contents signon_buf' = contents demo_msg ++ bb /\
    write_update LittleEndian 300 demo_changed demo_msg = Ok msg' /\ contents msg' = contents demo_msg ++ ub /\
    forall m rest, reading m (bb ++ rest) -> exists m0 m1 st1,
      MSG_ReadByte m = Ok (svc_spawnbaseline, m0) /\ parse_spawnbaseline demo_client m0 = Ok (st1, m1) /\ goes_to m m1 rest /\
      forall m rest, reading m (ub ++ rest) -> msg_badread m = false -> exists st2 m2 ce2,
        parse_fast_update LittleEndian mret st1 m = Ok (Some (st2, m2)) /\ goes_to m m2 rest /\
        cl_entities st2 !! Z.to_nat 300 = Some ce2 /\ shown st2 demo_changed ce2 /\
        forall i, (i < Z.to_nat (num_entities st1))%nat -> i <> Z.to_nat 300 -> cl_entities st2 !! i = cl_entities st1 !! i.
Proof.
  apply (entity_protocol LittleEndian mret 300 demo_changed demo_msg demo_msg demo_client demo_entity).
  - split; by_vm.
  - by_vm.
  - by_vm.
  - exact demo_msg_wf.
  - by_vm.
  - exact demo_msg_wf.
  - by_vm.
  - exact demo_client_ok.
  - by_vm.
  - by_vm.
  - cbv zeta. split_and!; try (split; by_vm); by_vm.
Defined.

(** An update of 18 bytes, and a buffer with 16 bytes of room. *)
Definition long_edict : edict :=
  Edict false 1 [1] (ES vec0 vec0 0 0 0 0 0)
    (EV (f32_of_Z 7) (Vec (f32_of_Z 50) (f32_of_Z 50) (f32_of_Z 50)) (Vec (f32_of_Z 50) (f32_of_Z 50) (f32_of_Z 50)) vec0 vec0 vec0 vec0 vec0
     (f32_of_Z 4) (f32_of_Z 3) (f32_of_Z 1) (f32_of_Z 8) (f32_of_Z 1) 1 0 0 (f32_of_Z 0) (f32_of_Z 0) (f32_of_Z 0) (f32_of_Z 0)
     (f32_of_Z 1) (f32_of_Z 512) (f32_of_Z 0) (f32_of_Z 0) (f32_of_Z 50) (f32_of_Z 100) (f32_of_Z 25) (f32_of_Z 25) (f32_of_Z 0)
     (f32_of_Z 0) (f32_of_Z 0) (f32_of_Z 0)) None None None.
Definition full_msg : sizebuf := SizeBuf false false (replicate 64 0) 64 48.

Lemma SV_WriteEntities_overflow_witness :
  exists err, entities_loop LittleEndian demo_str [] 300 false 300 [long_edict] full_msg = Fault (Sys_Error err).
Proof.
  apply (SV_WriteEntities_overflow LittleEndian demo_str [] false 300 long_edict [] full_msg); [split; [split|]; by_vm|by_vm|split; by_vm].
Defined.

(** A player that was hurt by itself and is to be turned around. *)
Definition hurt_player : edict :=
  let v := ed_v demo_changed in
  set_ed_v (set_ev_dmg_take (f32_of_Z 12) (set_ev_dmg_save (f32_of_Z 3) (set_ev_fixangle (f32_of_Z 1) v))) demo_changed.
Definition roomy_msg : sizebuf := SizeBuf false false (replicate 100 0) 100 3.

Lemma clientdata_roundtrip_witness :
  exists msg' bytes, SV_WriteClientdataToMessage (fun _ => []) (fun _ => Some hurt_player) id [] true (f32_of_Z 0) hurt_player roomy_msg =
      Ok (sent_player id hurt_player, msg') /\ contents msg' = contents roomy_msg ++ bytes /\
    forall m rest, reading m (bytes ++ rest) -> exists md m0, MSG_ReadByte m = Ok (svc_damage, m0) /\
      read_damage m0 = Ok (3, 12, vec_map sent_coord (middle hurt_player), md).
Proof.
  destruct (clientdata_roundtrip (fun _ => []) (fun _ => Some hurt_player) id [] true (f32_of_Z 0) hurt_player hurt_player 0 roomy_msg demo_client)
    as (msg' & bytes & E & Hc & H).
  - intros _. reflexivity.
  - by_vm.
  - intros _. by_vm.
  - split; [split|]; by_vm.
  - by_vm.
  - by_vm.
  - exists msg', bytes. split; [exact E|]. split; [exact Hc|]. intros m rest Hr. destruct (H m rest Hr) as (md & ma & m0 & m1 & m2 & st' & Hd & _).
    unfold reads_damage in Hd. assert (damaged (ed_v hurt_player) = true) as Ht by by_vm. rewrite Ht in Hd.
    destruct Hd as (n0 & E0 & E1). exists md, n0. split; [exact E0|]. rewrite E1. do 2 f_equal; by_vm.
Defined.

(** A reader in front of the data of a player without a weapon, and nothing else. *)
Definition no_weapon_bytes : bytes := fields_bytes (clientdata_fields true (f32_of_Z 0) 0 long_edict).
Definition no_weapon_msg : msgstate := MsgState (SizeBuf false false no_weapon_bytes (zlen no_weapon_bytes) (zlen no_weapon_bytes)) 0 false.

Lemma clientdata_no_weapon_witness :
  exists m0 m1, MSG_ReadByte no_weapon_msg = Ok (svc_clientdata, m0) /\
    MSG_ReadShort m0 = Ok (clientdata_bits (ed_v long_edict), m1) /\
    exists st' m2, CL_ParseClientdata true (clientdata_bits (ed_v long_edict)) demo_client m1 = Ok (st', m2) /\ msg_badread m2 = true.
Proof.
  apply (clientdata_no_weapon (f32_of_Z 0) 0 long_edict demo_client no_weapon_msg []).
  - by_vm.
  - by_vm.
  - split; [split; [split|]; by_vm|]. split; [split; by_vm|]. by_vm.
Defined.
