(* ===== verification/IpLog.v ===== *)
(** The log of player names by address (Source/iplog.c).

    A binary search tree on addresses in an array that is used as a ring: when it is full, the
    oldest entry is taken out of the tree to make room.  A pointer to entry [i] of the array is
    [slot i], null is 0.  Several entries of one address lie on one path of the tree.  The
    random choices of [IPLog_Merge] are draws of the game's generator (ComMisc.v).  A file is
    the list of its bytes; of the sixteen bytes of a name in a file those after the terminator
    are written as zeros (they are never looked at). *)

From stdpp Require Import sorting.
From S2P Require Import Prelude SizeBuf ComString ComMisc.

(** C: Source/iplog.h:22-28 iplog_t *)
Record iplog : Type := IPL {
  ip_addr : Z;
  ip_name : bytes;
  ip_parent : Z;
  child0 : Z;
  child1 : Z
}.

Definition set_ip_addr (v : Z) (s : iplog) : iplog :=
    IPL v (ip_name s) (ip_parent s) (child0 s) (child1 s).
Definition set_ip_name (v : bytes) (s : iplog) : iplog :=
    IPL (ip_addr s) v (ip_parent s) (child0 s) (child1 s).
Definition set_ip_parent (v : Z) (s : iplog) : iplog :=
    IPL (ip_addr s) (ip_name s) v (child0 s) (child1 s).
Definition set_child0 (v : Z) (s : iplog) : iplog :=
    IPL (ip_addr s) (ip_name s) (ip_parent s) v (child1 s).
Definition set_child1 (v : Z) (s : iplog) : iplog :=
    IPL (ip_addr s) (ip_name s) (ip_parent s) (child0 s) v.

(** C: Source/iplog.c:24-25 iplogs *)
Record logst : Type := Log {
  iplogs : gmap Z iplog;
  iplog_size : Z;
  iplog_next : Z;
  iplog_full : bool;
  iplog_head : Z;
  log_rng : rng
}.

Definition set_iplogs (v : gmap Z iplog) (s : logst) : logst :=
    Log v (iplog_size s) (iplog_next s) (iplog_full s) (iplog_head s) (log_rng s).
Definition set_iplog_size (v : Z) (s : logst) : logst :=
    Log (iplogs s) v (iplog_next s) (iplog_full s) (iplog_head s) (log_rng s).
Definition set_iplog_next (v : Z) (s : logst) : logst :=
    Log (iplogs s) (iplog_size s) v (iplog_full s) (iplog_head s) (log_rng s).
Definition set_iplog_full (v : bool) (s : logst) : logst :=
    Log (iplogs s) (iplog_size s) (iplog_next s) v (iplog_head s) (log_rng s).
Definition set_iplog_head (v : Z) (s : logst) : logst :=
    Log (iplogs s) (iplog_size s) (iplog_next s) (iplog_full s) v (log_rng s).
Definition set_log_rng (v : rng) (s : logst) : logst :=
    Log (iplogs s) (iplog_size s) (iplog_next s) (iplog_full s) (iplog_head s) v.

Definition slot (i : Z) : Z := i + 1.

Definition ip_at (st : logst) (p : Z) : res iplog :=
  of_option (Undefined "no entry here") (iplogs st !! p).
Definition upd_ip (p : Z) (f : iplog -> iplog) (st : logst) : res logst :=
  n ← ip_at st p; mret (set_iplogs (<[p := f n]> (iplogs st)) st).

Definition child (side : bool) (n : iplog) : Z := if side then child1 n else child0 n.
Definition set_child (side : bool) (c : Z) (n : iplog) : iplog := if side then set_child1 c n else set_child0 c n.

(** * Operations *)

Definition MAX_REPITITION : nat := 64.

(** Without leading blanks. *)
Fixpoint strip (l : bytes) : bytes :=
  match l with
  | [] => []
  | c :: l' => if c =? 32 then strip l' else l
  end.

(** The name without trailing blanks, of at most 15 characters.
    C: Source/iplog.c:161-166 name2 *)
Definition trim (name : bytes) : bytes := reverse (strip (reverse (take 15 name))).

(** Where the search for an entry ends: it is known, its address has all its entries, or there
    is a free place below [parent] (0: at the head). *)
Inductive place : Type := Known | Full (matches : list Z) | Free (parent : Z) (side : bool).

(** C: Source/iplog.c:175-195 ppnew *)
Fixpoint find_place (fuel : nat) (st : logst) (addr : Z) (name : bytes) (parent : Z) (side : bool) (matches : list Z) : res place :=
  match fuel with
  | O => Fault OutOfFuel
  | S fuel =>
      cur ← (if parent =? 0 then mret (iplog_head st) else n ← ip_at st parent; mret (child side n));
      if cur =? 0 then mret (Free parent side)
      else
        n ← ip_at st cur;
        if ip_addr n =? addr then
          if bool_decide (name = ip_name n) then mret Known
          else
            let matches := matches ++ [cur] in
            if (length matches =? MAX_REPITITION)%nat then mret (Full matches)
            else find_place fuel st addr name cur (ip_addr n <? addr) matches
        else find_place fuel st addr name cur (ip_addr n <? addr) matches
  end.

(** The names move up by one, and the new one comes last.
    C: Source/iplog.c:186-189 match *)
Fixpoint shift_names (matches : list Z) (name : bytes) (st : logst) : res logst :=
  match matches with
  | [] => mret st
  | [p] => upd_ip p (set_ip_name name) st
  | p :: ((q :: _) as rest) =>
      n ← ip_at st q;
      st ← upd_ip p (set_ip_name (ip_name n)) st;
      shift_names rest name st
  end.

(** [left] and [right] are subtrees; the result is the root of the tree of both.
    C: Source/iplog.c:234-251 IPLog_Merge *)
Fixpoint IPLog_Merge (fuel : nat) (left right : Z) (st : logst) : res (Z * logst) :=
  match fuel with
  | O => Fault OutOfFuel
  | S fuel =>
      if left =? 0 then mret (right, st)
      else if right =? 0 then mret (left, st)
      else
        let '(r, g) := tas_rand (log_rng st) in
        let st := set_log_rng g st in
        if truth (r & 1) then
          n ← ip_at st left;
          '(c, st) ← IPLog_Merge fuel (child1 n) right st;
          st ← upd_ip left (set_child1 c) st;
          st ← upd_ip c (set_ip_parent left) st;
          mret (left, st)
        else
          n ← ip_at st right;
          '(c, st) ← IPLog_Merge fuel left (child0 n) st;
          st ← upd_ip right (set_child0 c) st;
          st ← upd_ip c (set_ip_parent right) st;
          mret (right, st)
  end.

Definition log_fuel (st : logst) : nat := S (size (iplogs st)).

(** C: Source/iplog.c:217-227 IPLog_Delete *)
Definition IPLog_Delete (node : Z) (st : logst) : res logst :=
  n ← ip_at st node;
  '(newlog, st) ← IPLog_Merge (log_fuel st) (child0 n) (child1 n) st;
  st ← (if truth newlog then n ← ip_at st node; upd_ip newlog (set_ip_parent (ip_parent n)) st else mret st);
  n ← ip_at st node;
  if truth (ip_parent n) then
    p ← ip_at st (ip_parent n);
    upd_ip (ip_parent n) (set_child (ip_addr p <? ip_addr n) newlog) st
  else mret (set_iplog_head newlog st).

(** The next slot becomes current.
    C: Source/iplog.c:202-206 iplog_next *)
Definition next_slot (st : logst) : logst :=
  let st := set_iplog_next (iplog_next st + 1) st in
  if iplog_next st =? iplog_size st then set_iplog_full true (set_iplog_next 0 st) else st.

(** A new entry at a free place of the tree.
    C: Source/iplog.c:196-210 iplog_new *)
Definition insert_entry (addr : Z) (name : bytes) (parent : Z) (side : bool) (st : logst) : res logst :=
  let new := slot (iplog_next st) in
  st ← (if parent =? 0 then mret (set_iplog_head new st) else upd_ip parent (set_child side new) st);
  st ← upd_ip new (fun _ => IPL addr name parent 0 0) st;
  let st := next_slot st in
  if iplog_full st then IPLog_Delete (slot (iplog_next st)) st else mret st.

(** C: Source/iplog.c:152-210 IPLog_Add *)
Definition IPLog_Add (addr : Z) (name : bytes) (st : logst) : res logst :=
  if iplog_size st =? 0 then mret st
  else
    let name2 := trim name in
    if bool_decide (name2 = []) then mret st
    else
      where_ ← find_place (log_fuel st) st addr name2 0 false [];
      match where_ with
      | Known => mret st
      | Full matches => shift_names matches name2 st
      | Free parent side => insert_entry addr name2 parent side st
      end.

(** C: Source/iplog.c:264-272 node *)
Fixpoint identify_loop (fuel : nat) (st : logst) (addr node : Z) : res (list bytes) :=
  match fuel with
  | O => Fault OutOfFuel
  | S fuel =>
      if node =? 0 then mret []
      else
        n ← ip_at st node;
        rest ← identify_loop fuel st addr (child (ip_addr n <? addr) n);
        mret (if ip_addr n =? addr then ip_name n :: rest else rest)
  end.

(** The names that are printed; their number is printed after them.
    C: Source/iplog.c:258-274 IPLog_Identify *)
Definition IPLog_Identify (addr : Z) (st : logst) : res (list bytes) :=
  identify_loop (log_fuel st) st addr (iplog_head st).

(** The entries in the order they are printed.
    C: Source/iplog.c:387-401 IPLog_DumpTree *)
Fixpoint IPLog_DumpTree (fuel : nat) (st : logst) (root : Z) : res (list (Z * bytes)) :=
  match fuel with
  | O => Fault OutOfFuel
  | S fuel =>
      if root =? 0 then mret []
      else
        n ← ip_at st root;
        l ← IPLog_DumpTree fuel st (child0 n);
        r ← IPLog_DumpTree fuel st (child1 n);
        mret (l ++ (ip_addr n, ip_name n) :: r)
  end.

(** C: Source/iplog.c:408-421 IPLog_Dump *)
Definition IPLog_Dump (st : logst) : res (list (Z * bytes)) := IPLog_DumpTree (log_fuel st) st (iplog_head st).

(** * Files *)

(** A record of 20 bytes: the address, and sixteen bytes of name. *)
Definition record_bytes (addr : Z) (name : bytes) : bytes :=
  long_bytes addr ++ name ++ replicate (16 - length name) 0.

(** [fwrite] of the entries of the slots from [i] on. *)
Fixpoint write_slots (n : nat) (i : Z) (st : logst) : res bytes :=
  match n with
  | O => mret []
  | S n => e ← ip_at st (slot i); rest ← write_slots n (i + 1) st; mret (record_bytes (ip_addr e) (ip_name e) ++ rest)
  end.

(** What is written to iplog.dat, the oldest entry first.
    C: Source/iplog.c:127-133 fwrite *)
Definition log_file (st : logst) : res bytes :=
  older ← (if iplog_full st then write_slots (Z.to_nat (iplog_size st - (iplog_next st + 1))) (iplog_next st + 1) st else mret []);
  newer ← write_slots (Z.to_nat (iplog_next st)) 0 st;
  mret (older ++ newer).

(** Adding the records of a file, as long as there are whole ones.
    C: Source/iplog.c:60-61 fread *)
Fixpoint add_records (fuel : nat) (file : bytes) (st : logst) : res logst :=
  match fuel with
  | O => mret st
  | S fuel =>
      match file with
      | b0 :: b1 :: b2 :: b3 :: rest =>
          if (16 <=? length rest)%nat then
            st ← IPLog_Add (s32 (b0 + (b1 << 8) + (b2 << 16) + (b3 << 24))) (until0 (take 16 rest)) st;
            add_records fuel (drop 16 rest) st
          else mret st
      | _ => mret st
      end
  end.
Definition read_file (file : bytes) (st : logst) : res logst := add_records (S (length file)) file st.

(** The log is merged with the file, if there is one, and the file is written anew.
    C: Source/iplog.c:105-143 IPLog_WriteLog *)
Definition IPLog_WriteLog (file : option bytes) (st : logst) : res (option bytes * logst) :=
  if iplog_size st =? 0 then mret (file, st)
  else
    st ← match file with Some f => read_file f st | None => mret st end;
    f ← log_file st;
    mret (Some f, st).

(** C: Source/iplog.c:76-98 IPLog_Import *)
Definition IPLog_Import (argc : Z) (file : option bytes) (st : logst) : res logst :=
  if argc <? 2 then mret st
  else match file with Some f => read_file f st | None => mret st end.

Definition DEFAULT_IPLOGSIZE : Z := 65536.
Definition sizeof_iplog : Z := 32.
Definition zero_entry : iplog := IPL 0 [] 0 0 0.
Definition empty_slots (n : nat) : gmap Z iplog := list_to_map ((fun i => (slot (Z.of_nat i), zero_entry)) <$> seq 0 n).

(** A log with all its slots free. *)
Definition fresh_log (size : Z) (g : rng) : logst := Log (empty_slots (Z.to_nat size)) size 0 false 0 g.

(** C: Source/iplog.c:34-69 IPLog_Init *)
Definition IPLog_Init (args : argstate) (file : option bytes) (st : logst) : res logst :=
  let p := COM_CheckParm args (cs "-iplog") in
  if p =? 0 then mret (set_iplog_size 0 st)
  else
    let size := if p <? com_argc args - 1
                then match COM_Argv args (p + 1) with Some s => u32 (Q_atoi s * 1024) / sizeof_iplog | None => 0 end
                else 0 in
    let size := if size =? 0 then DEFAULT_IPLOGSIZE else size in
    let st := fresh_log size (log_rng st) in
    match file with Some f => read_file f st | None => mret st end.

(** * Looking a player up by a part of the name *)

(** Characters without their decoration.
    C: Source/iplog.c:277-281 unfun *)
Definition unfun : bytes :=
  cs "................[]olzeasbt89...." ++ cs "........[]......olzeasbt89..[.]." ++
  cs "aabcdefghijklmnopqrstuvwxyz[.].." ++ cs ".abcdefghijklmnopqrstuvwxyz[.]..".

Definition plain (c : Z) : res Z := load1 unfun (c & 127).

(** The inner loop: does [s1] match the bytes of the array [s2] from [off] on?
    C: Source/iplog.c:290-294 unfun *)
Fixpoint unfun_at (s1 : bytes) (s2 : bytes) (off : Z) : res bool :=
  match s1 with
  | [] => mret true
  | c1 :: s1' =>
      p1 ← plain c1;
      c2 ← load1 s2 off; p2 ← plain c2;
      if p1 =? p2 then unfun_at s1' s2 (off + 1) else mret false
  end.

(** C: Source/iplog.c:288-299 s2 *)
Fixpoint unfun_from (fuel : nat) (s1 s2 : bytes) (off : Z) : res bool :=
  match fuel with
  | O => Fault OutOfFuel
  | S fuel =>
      c ← load1 s2 off;
      if c =? 0 then mret false
      else
        found ← unfun_at s1 s2 off;
        if found : bool then mret true else unfun_from fuel s1 s2 (off + 1)
  end.

(** [s2] is the array that holds the terminated name.
    C: Source/iplog.c:284-300 unfun_match *)
Definition unfun_match (s1 s2 : bytes) : res bool := unfun_from (S (length s2)) s1 s2 0.

(** * The tree in the heap

    [tree] is the shape the pointers describe: a node has its pointer, its address, its name
    and two subtrees.  A [frame] is a node with one subtree missing, and a list of frames, the
    outermost first, is a tree with a hole: the place a search has come to. *)

Abbreviation entry := (Z * bytes)%type.

Inductive tree : Type := Leaf | Node (p : Z) (e : entry) (l r : tree).

Definition root (t : tree) : Z := match t with Leaf => 0 | Node p _ _ _ => p end.

Fixpoint heap_tree (h : gmap Z iplog) (par : Z) (t : tree) : Prop :=
  match t with
  | Leaf => True
  | Node p e l r =>
      p <> 0 /\ h !! p = Some (IPL (fst e) (snd e) par (root l) (root r)) /\
      heap_tree h p l /\ heap_tree h p r
  end.

(** The slots of a tree in order, with what they hold. *)
Fixpoint elems (t : tree) : list (Z * entry) :=
  match t with Leaf => [] | Node p e l r => elems l ++ (p, e) :: elems r end.

Abbreviation nodes t := ((elems t).*1).

(** Entries to the left have at most the address of the node, those to the right a greater one. *)
Fixpoint bst (t : tree) : Prop :=
  match t with
  | Leaf => True
  | Node p e l r =>
      bst l /\ bst r /\ Forall (fun x => fst (snd x) <= fst e) (elems l) /\
      Forall (fun x => fst e < fst (snd x)) (elems r)
  end.

(** The entries of address [a] that a search for [a] meets, in its order. *)
Fixpoint path (a : Z) (t : tree) : list (Z * entry) :=
  match t with
  | Leaf => []
  | Node p e l r =>
      (if fst e =? a then [(p, e)] else []) ++ path a (if fst e <? a then r else l)
  end.

Record frame : Type := Fr { f_side : bool; f_ptr : Z; f_entry : entry; f_other : tree }.

Definition fill (f : frame) (t : tree) : tree :=
  if f_side f then Node (f_ptr f) (f_entry f) (f_other f) t else Node (f_ptr f) (f_entry f) t (f_other f).
Definition plug (ctx : list frame) (t : tree) : tree := foldr fill t ctx.

Definition frame_elems (f : frame) : list (Z * entry) := (f_ptr f, f_entry f) :: elems (f_other f).
Definition ctx_elems (ctx : list frame) : list (Z * entry) := concat (frame_elems <$> ctx).

(** The pointer and the side the hole hangs on; [par] and left at the top. *)
Definition hole_parent (par : Z) (ctx : list frame) : Z := foldl (fun _ f => f_ptr f) par ctx.
Definition hole_side (ctx : list frame) : bool := foldl (fun _ f => f_side f) false ctx.

Lemma elems_fill f t : elems (fill f t) ≡ₚ frame_elems f ++ elems t.
Proof.
  unfold fill, frame_elems. destruct (f_side f); simpl;
    rewrite <- Permutation_middle; [|rewrite (Permutation_app_comm (elems t))]; done.
Qed.

Lemma elems_plug ctx t : elems (plug ctx t) ≡ₚ ctx_elems ctx ++ elems t.
Proof.
  induction ctx as [|f ctx IH]; [done|]. unfold ctx_elems in *. simpl.
  rewrite elems_fill, IH, app_assoc. done.
Qed.

Lemma plug_snoc ctx f t : plug (ctx ++ [f]) t = plug ctx (fill f t).
Proof. unfold plug. by rewrite foldr_app. Qed.

Lemma hole_parent_snoc par ctx f : hole_parent par (ctx ++ [f]) = f_ptr f.
Proof. unfold hole_parent. by rewrite foldl_app. Qed.

Lemma hole_side_snoc ctx f : hole_side (ctx ++ [f]) = f_side f.
Proof. unfold hole_side. by rewrite foldl_app. Qed.

Lemma ctx_elems_snoc ctx f : ctx_elems (ctx ++ [f]) = ctx_elems ctx ++ frame_elems f.
Proof. unfold ctx_elems. rewrite fmap_app, concat_app. simpl. by rewrite app_nil_r. Qed.

Lemma ctx_nodes_cons f ctx : (ctx_elems (f :: ctx)).*1 = f_ptr f :: nodes (f_other f) ++ (ctx_elems ctx).*1.
Proof. unfold ctx_elems. rewrite fmap_cons. cbn [concat]. rewrite fmap_app. done. Qed.

Lemma root_fill f t t' : root (fill f t) = root (fill f t').
Proof. unfold fill. by destruct (f_side f). Qed.

Lemma root_plug ctx t t' : root t' = root t -> root (plug ctx t') = root (plug ctx t).
Proof. destruct ctx as [|f ctx]; simpl; [done|]. intros _. apply root_fill. Qed.

(** A tree is somewhere at each of its nodes. *)
Lemma plug_at t p : p ∈ nodes t -> exists ctx e l r, t = plug ctx (Node p e l r).
Proof.
  induction t as [|q e l IHl r IHr]; simpl; intros H; [by apply elem_of_nil in H|].
  rewrite fmap_app, elem_of_app, fmap_cons, elem_of_cons in H.
  destruct H as [H|[->|H]].
  - destruct (IHl H) as (ctx & e' & l' & r' & ->).
    by exists (Fr false q e r :: ctx), e', l', r'.
  - by exists [], e, l, r.
  - destruct (IHr H) as (ctx & e' & l' & r' & ->).
    by exists (Fr true q e l :: ctx), e', l', r'.
Qed.

(** ** The heap *)

Lemma heap_frame h h' t : forall par, heap_tree h par t -> (forall q, q ∈ nodes t -> h' !! q = h !! q) -> heap_tree h' par t.
Proof.
  induction t as [|p e l IHl r IHr]; simpl; [done|]. intros par (Hp & Hn & Hl & Hr) Hf.
  rewrite fmap_app, fmap_cons in Hf. split_and!; [done| | |].
  - rewrite Hf; [done|]. apply elem_of_app. right. left.
  - apply IHl; [done|]. intros q Hq. apply Hf, elem_of_app. by left.
  - apply IHr; [done|]. intros q Hq. apply Hf, elem_of_app. right. by right.
Qed.

Lemma heap_nonnull h par t p : heap_tree h par t -> p ∈ nodes t -> p <> 0 /\ is_Some (h !! p).
Proof.
  revert par. induction t as [|q e l IHl r IHr]; simpl; intros par H Hp; [by apply elem_of_nil in Hp|].
  destruct H as (Hq & Hn & Hl & Hr). rewrite fmap_app, elem_of_app, fmap_cons, elem_of_cons in Hp.
  destruct Hp as [Hp|[->|Hp]]; eauto.
Qed.

Lemma heap_elem h par t x : heap_tree h par t -> x ∈ elems t ->
  exists par' c0 c1, h !! fst x = Some (IPL (fst (snd x)) (snd (snd x)) par' c0 c1).
Proof.
  revert par. induction t as [|q e l IHl r IHr]; simpl; intros par H Hx; [by apply elem_of_nil in Hx|].
  destruct H as (Hq & Hn & Hl & Hr). rewrite elem_of_app, elem_of_cons in Hx. destruct Hx as [Hx|[->|Hx]]; eauto.
Qed.

Lemma heap_hole h ctx t : forall par, heap_tree h par (plug ctx t) -> heap_tree h (hole_parent par ctx) t.
Proof.
  unfold hole_parent. induction ctx as [|f ctx IH]; simpl; [done|]. intros par H. apply IH.
  unfold fill in H. destruct (f_side f); simpl in H; tauto.
Qed.

(** Another tree with the same root in the hole. *)
Lemma heap_replace h h' ctx t t' : forall par,
  heap_tree h par (plug ctx t) -> root t' = root t -> heap_tree h' (hole_parent par ctx) t' ->
  (forall q, q ∈ (ctx_elems ctx).*1 -> h' !! q = h !! q) -> heap_tree h' par (plug ctx t').
Proof.
  unfold hole_parent. induction ctx as [|f ctx IH]; [done|].
  intros par H Hroot Ht' Hf. simpl in H, Ht'. simpl plug. pose proof (root_plug ctx t t' Hroot) as Hr.
  rewrite ctx_nodes_cons in Hf.
  assert (Hptr : h' !! f_ptr f = h !! f_ptr f) by (apply Hf; left).
  assert (Ho : forall q, q ∈ nodes (f_other f) -> h' !! q = h !! q).
  { intros q Hq. apply Hf. right. apply elem_of_app. by left. }
  assert (Hc : forall q, q ∈ (ctx_elems ctx).*1 -> h' !! q = h !! q).
  { intros q Hq. apply Hf. right. apply elem_of_app. by right. }
  assert (Hi : heap_tree h (f_ptr f) (plug ctx t) -> heap_tree h' (f_ptr f) (plug ctx t')) by (intros; by apply IH).
  unfold fill in *. destruct (f_side f); simpl in *; destruct H as (H1 & H2 & H3 & H4);
    (split_and!; [done|rewrite Hptr, H2, Hr; done| |]); auto; eapply heap_frame; eauto.
Qed.

Ltac nodup_norm H := repeat (rewrite ?fmap_app, ?fmap_cons, ?NoDup_app, ?NoDup_cons, ?elem_of_app, ?not_elem_of_app, ?elem_of_cons in H; simpl in H).

Lemma heap_reparent h par par' t n :
  heap_tree h par t -> NoDup (nodes t) -> t <> Leaf -> h !! root t = Some n ->
  heap_tree (<[root t := set_ip_parent par' n]> h) par' t.
Proof.
  destruct t as [|p e l r]; [done|]. simpl. intros (Hp & Hn & Hl & Hr) Hnd _ Hlook.
  rewrite Hn in Hlook. simplify_eq/=. rewrite fmap_app, fmap_cons in Hnd. simpl in Hnd.
  apply NoDup_app in Hnd as (_ & Hd & Hnd). apply NoDup_cons in Hnd as [Hpr _].
  split_and!; [done|by rewrite lookup_insert_eq| |];
    (eapply heap_frame; [done|]; intros q Hq; rewrite lookup_insert_ne; [done|]).
  - intros ->. eapply Hd; [done|left].
  - intros ->. done.
Qed.

(** ** Order and search *)

Lemma path_elem a t x : x ∈ path a t -> x ∈ elems t /\ fst (snd x) = a.
Proof.
  induction t as [|p e l IHl r IHr]; simpl; [by intros H%elem_of_nil|].
  rewrite !elem_of_app, elem_of_cons. intros [H|H].
  - case_if_in H; [|by apply elem_of_nil in H]. apply list_elem_of_singleton in H as ->. auto.
  - destruct (fst e <? a); [apply IHr in H|apply IHl in H]; tauto.
Qed.

Lemma path_none a t : (forall x, x ∈ elems t -> fst (snd x) <> a) -> path a t = [].
Proof.
  intros H. destruct (path a t) as [|x l] eqn:E; [done|].
  destruct (path_elem a t x) as [Hx Ha]; [rewrite E; left|]. by destruct (H x Hx).
Qed.

Lemma path_complete a t x : bst t -> x ∈ elems t -> fst (snd x) = a -> x ∈ path a t.
Proof.
  induction t as [|p e l IHl r IHr]; simpl; [by intros _ H%elem_of_nil|].
  intros (Hl & Hr & Hle & Hgt) Hx Ha. rewrite Forall_forall in Hle, Hgt.
  rewrite elem_of_app in Hx |- *. destruct Hx as [Hx|Hx].
  - right. rewrite (proj2 (Z.ltb_ge _ _)); [eauto|]. rewrite <- Ha. by apply Hle.
  - apply elem_of_cons in Hx as [->|Hx].
    + left. simpl in Ha. rewrite (proj2 (Z.eqb_eq _ _) Ha). left.
    + right. rewrite (proj2 (Z.ltb_lt _ _)); [eauto|]. rewrite <- Ha. by apply Hgt.
Qed.

(** Two trees, all addresses of the one before those of the other. *)
Definition before (l r : tree) : Prop := forall x y, x ∈ elems l -> y ∈ elems r -> fst (snd x) < fst (snd y).

(** [t] is a search tree of the entries of both. *)
Definition merged (l r t : tree) : Prop :=
  bst t /\ elems t = elems l ++ elems r /\ forall a, path a t = path a l ++ path a r.

Lemma merged_left p e ll lr r t :
  bst (Node p e ll lr) -> before (Node p e ll lr) r -> merged lr r t -> merged (Node p e ll lr) r (Node p e ll t).
Proof.
  intros (Hll & Hlr & Hle & Hgt) Hb (Ht & Het & Hpt). unfold before in Hb. simpl in Hb.
  assert (Hpr : forall y, y ∈ elems r -> fst e < fst (snd y)).
  { intros y Hy. apply (Hb (p, e) y); [|done]. apply elem_of_app. right. left. }
  split; [|split].
  - simpl. split_and!; [done..|]. rewrite Het. apply Forall_app. split; [done|]. by apply Forall_forall.
  - simpl. rewrite Het, <- app_assoc. done.
  - intros a. simpl. rewrite <- app_assoc. f_equal. destruct (fst e <? a) eqn:E; [apply Hpt|].
    bool_props. rewrite (path_none a r), app_nil_r; [done|]. intros y Hy. specialize (Hpr y Hy). lia.
Qed.

Lemma merged_right l p e rl rr t :
  bst (Node p e rl rr) -> before l (Node p e rl rr) -> merged l rl t -> merged l (Node p e rl rr) (Node p e t rr).
Proof.
  intros (Hrl & Hrr & Hle & Hgt) Hb (Ht & Het & Hpt). unfold before in Hb. simpl in Hb.
  assert (Hpl : forall x, x ∈ elems l -> fst (snd x) < fst e).
  { intros x Hx. apply (Hb x (p, e)); [done|]. apply elem_of_app. right. left. }
  split; [|split].
  - simpl. split_and!; [done..| |done]. rewrite Het. apply Forall_app. split; [|done].
    apply Forall_forall. intros x Hx. specialize (Hpl x Hx). lia.
  - simpl. rewrite Het, <- app_assoc. done.
  - intros a. simpl. destruct (Z.le_gt_cases (fst e) a) as [Hle'|Hgt'].
    + rewrite (path_none a l); [|intros x Hx; specialize (Hpl x Hx); lia].
      simpl. f_equal. destruct (fst e <? a) eqn:E; [done|]. rewrite Hpt, (path_none a l); [done|].
      intros x Hx. specialize (Hpl x Hx). lia.
    + rewrite (proj2 (Z.eqb_neq _ _)), (proj2 (Z.ltb_ge _ _)) by lia. apply Hpt.
Qed.

Lemma before_sub l r l' r' : before l r -> (forall x, x ∈ elems l' -> x ∈ elems l) -> (forall y, y ∈ elems r' -> y ∈ elems r) -> before l' r'.
Proof. unfold before. eauto. Qed.

(** ** Merging *)

(** Of the log only slots [ps] (and the generator) change. *)
Definition touches (ps : list Z) (st st' : logst) : Prop :=
  (iplog_size st' = iplog_size st /\ iplog_next st' = iplog_next st /\
   iplog_full st' = iplog_full st /\ iplog_head st' = iplog_head st) /\
  dom (iplogs st') = dom (iplogs st) /\
  forall q, q ∉ ps -> iplogs st' !! q = iplogs st !! q.

Lemma touches_trans ps st st1 st2 : touches ps st st1 -> touches ps st1 st2 -> touches ps st st2.
Proof.
  intros ((? & ? & ? & ?) & ? & Ha) ((? & ? & ? & ?) & ? & Hb). split_and!; try congruence.
  intros q Hq. by rewrite Hb, Ha.
Qed.

Lemma touches_weaken ps ps' st st' : touches ps st st' -> ps ⊆ ps' -> touches ps' st st'.
Proof. intros (H1 & H2 & H3) Hs. split_and!; try apply H1; [done|]. intros q Hq. apply H3. set_solver. Qed.

Lemma touches_rng g st : touches [] st (set_log_rng g st).
Proof. done. Qed.

Lemma touches_dom ps st st' p : touches ps st st' -> is_Some (iplogs st !! p) -> is_Some (iplogs st' !! p).
Proof. intros (_ & H & _). rewrite <- !elem_of_dom, H. done. Qed.

Lemma upd_ip_ok p f st n : iplogs st !! p = Some n ->
  upd_ip p f st = Ok (set_iplogs (<[p := f n]> (iplogs st)) st) /\
  touches [p] st (set_iplogs (<[p := f n]> (iplogs st)) st).
Proof.
  intros H. unfold upd_ip, ip_at. rewrite H. split; [done|]. split_and!; try done; simpl.
  - apply set_eq. intros q. rewrite dom_insert_lookup; [done|eauto].
  - intros q Hq. rewrite lookup_insert_ne; [done|]. intros ->. apply Hq. left.
Qed.

(** The result of a recursive call becomes a child of [p]. *)
Lemma adopt p side c n par st :
  iplogs st !! p = Some n -> heap_tree (iplogs st) par c -> NoDup (nodes c) -> c <> Leaf -> p ∉ nodes c ->
  exists st', (st ← upd_ip p (set_child side (root c)) st; st ← upd_ip (root c) (set_ip_parent p) st; mret (p, st)) = Ok (p, st') /\
    iplogs st' !! p = Some (set_child side (root c) n) /\ heap_tree (iplogs st') p c /\ touches (p :: nodes c) st st'.
Proof.
  intros Hp Hc Hnd Hne Hpc.
  assert (Hrc : root c ∈ nodes c) by (destruct c; [done|]; simpl; rewrite fmap_app, fmap_cons; apply elem_of_app; right; left).
  destruct (heap_nonnull _ _ _ _ Hc Hrc) as [_ [m Hm]].
  assert (Hpr : p <> root c) by (intros ->; done).
  destruct (upd_ip_ok p (set_child side (root c)) st n Hp) as [E1 T1]. rewrite E1. clear E1. simpl.
  set (st1 := set_iplogs _ st) in *.
  assert (Hm1 : iplogs st1 !! root c = Some m) by (unfold st1; simpl; by rewrite lookup_insert_ne).
  destruct (upd_ip_ok (root c) (set_ip_parent p) st1 m Hm1) as [E2 T2]. rewrite E2. clear E2.
  eexists. split; [reflexivity|]. split; [|split].
  - simpl. rewrite lookup_insert_ne by done. apply lookup_insert_eq.
  - apply (heap_reparent _ par); [|done..]. eapply heap_frame; [done|]. intros q Hq. simpl.
    rewrite lookup_insert_ne; [done|]. intros ->. done.
  - eapply touches_trans; eapply touches_weaken; [exact T1| |exact T2|]; set_solver.
Qed.

(** One step of [IPLog_Merge]: [p] keeps its subtree [o] and gets [t], the result for its other
    subtree [old]. *)
Lemma merge_step side p e par old o t par' st st1 :
  p <> 0 ->
  iplogs st !! p = Some (set_child (negb side) (root o) (set_child side (root old) (IPL (fst e) (snd e) par 0 0))) ->
  heap_tree (iplogs st) p o -> heap_tree (iplogs st1) par' t -> touches (nodes t) st st1 ->
  NoDup (nodes t) -> t <> Leaf -> p ∉ nodes t -> (forall y, y ∈ nodes o -> y ∉ p :: nodes t) ->
  exists st', (st ← upd_ip p (set_child side (root t)) st1; st ← upd_ip (root t) (set_ip_parent p) st; mret (p, st)) = Ok (p, st') /\
    heap_tree (iplogs st') par (fill (Fr side p e o) t) /\ touches (p :: nodes t) st st'.
Proof.
  intros Hp Hpn Ho Ht HT Hnd Hne Hpt Hd.
  assert (Hp1 := Hpn). rewrite <- (proj2 (proj2 HT) p Hpt) in Hp1.
  edestruct (adopt p side t) as (st2 & E2 & Hp2 & Ht2 & HT2); eauto.
  assert (HT' : touches (p :: nodes t) st st2).
  { eapply touches_trans; [|exact HT2]. eapply touches_weaken; [exact HT|]. set_solver. }
  exists st2. split; [done|]. split; [|done].
  assert (heap_tree (iplogs st2) p o).
  { eapply heap_frame; [exact Ho|]. intros y Hy. apply HT'. by apply Hd. }
  unfold fill. simpl. destruct side; simpl in *; split_and!; auto.
Qed.

Lemma NoDup_merge_left (A B C : list Z) x : NoDup ((A ++ x :: B) ++ C) ->
  NoDup (B ++ C) /\ x ∉ B ++ C /\ forall y, y ∈ A -> y ∉ x :: B ++ C.
Proof.
  rewrite <- app_assoc. simpl. intros (_ & Hd & Hnd)%NoDup_app. apply NoDup_cons in Hnd as [Hx Hnd]. auto.
Qed.

Lemma NoDup_merge_right (A B C : list Z) x : NoDup (C ++ A ++ x :: B) ->
  NoDup (C ++ A) /\ x ∉ C ++ A /\ forall y, y ∈ B -> y ∉ x :: C ++ A.
Proof.
  rewrite app_assoc. intros (HA & Hd & Hnd)%NoDup_app. apply NoDup_cons in Hnd as [Hx Hnd].
  split; [done|]. split; [intros H; apply (Hd _ H); left|]. intros y Hy H. apply elem_of_cons in H as [->|H]; [done|].
  apply (Hd _ H). by right.
Qed.

Lemma sub_merge_left (A B C : list Z) x : x :: B ++ C ⊆ (A ++ x :: B) ++ C.
Proof. set_solver. Qed.
Lemma sub_merge_right (A B C : list Z) x : x :: C ++ A ⊆ C ++ A ++ x :: B.
Proof. set_solver. Qed.

Lemma nodes_node p e l r : nodes (Node p e l r) = nodes l ++ p :: nodes r.
Proof. simpl. by rewrite fmap_app. Qed.

Lemma merged_nodes l r t : merged l r t -> nodes t = nodes l ++ nodes r.
Proof. intros (_ & E & _). by rewrite E, fmap_app. Qed.

Lemma merged_not_leaf l r t : merged l r t -> l <> Leaf \/ r <> Leaf -> t <> Leaf.
Proof.
  intros (_ & E & _) H ->. simpl in E. symmetry in E. apply app_eq_nil in E as [El Er].
  destruct H as [H|H]; [destruct l as [|p e l1 l2]|destruct r as [|p e l1 l2]]; try done; simpl in *;
    (destruct (elems l1); discriminate).
Qed.

Lemma merge_ok fuel : forall l r pl pr st,
  (length (elems l) + length (elems r) < fuel)%nat ->
  heap_tree (iplogs st) pl l -> heap_tree (iplogs st) pr r -> bst l -> bst r -> before l r ->
  NoDup (nodes l ++ nodes r) ->
  exists t par st', IPLog_Merge fuel (root l) (root r) st = Ok (root t, st') /\
    heap_tree (iplogs st') par t /\ merged l r t /\ touches (nodes l ++ nodes r) st st'.
Proof.
  induction fuel as [|fuel IH]; [lia|]. intros l r pl pr st Hf Hl Hr Bl Br Hb Hnd.
  destruct l as [|p e ll lr].
  { exists r, pr, st. simpl. split; [done|]. split; [done|]. split; [|done]. split_and!; auto. }
  destruct r as [|q e' rl rr].
  { exists (Node p e ll lr), pl, st. simpl. assert (p <> 0) as Hp by apply Hl.
    rewrite (proj2 (Z.eqb_neq _ _) Hp). split; [done|]. split; [done|]. split; [|done].
    split; [done|]. split; [by rewrite app_nil_r|]. intros a. by rewrite app_nil_r. }
  set (L := Node p e ll lr) in *. set (R := Node q e' rl rr) in *.
  pose proof Hl as (Hp & Hpn & Hll & Hlr). pose proof Hr as (Hq & Hqn & Hrl & Hrr).
  cbn [root IPLog_Merge L R]. rewrite (proj2 (Z.eqb_neq _ _) Hp), (proj2 (Z.eqb_neq _ _) Hq).
  destruct (tas_rand (log_rng st)) as [rn g]. set (st0 := set_log_rng g st).
  assert (HT0 : forall ps, touches ps st st0) by done.
  assert (length (elems L) = S (length (elems ll) + length (elems lr))) by (simpl; rewrite length_app; simpl; lia).
  assert (length (elems R) = S (length (elems rl) + length (elems rr))) by (simpl; rewrite length_app; simpl; lia).
  destruct (truth (rn & 1)).
  - unfold ip_at. change (iplogs st0) with (iplogs st). rewrite Hpn. cbn [of_option mbind res_bind child1].
    unfold L in Hnd at 1. rewrite nodes_node in Hnd. apply NoDup_merge_left in Hnd as (Hnd & Hx & Hd).
    destruct (IH lr R p pr st0) as (t & par & st1 & E & Ht & Hm & HT); auto; [lia|apply Bl| |].
    { eapply before_sub; [exact Hb| |done]. simpl. set_solver. }
    simpl root in E. rewrite E. cbn [mbind res_bind]. pose proof (merged_nodes _ _ _ Hm) as Hn.
    destruct (merge_step true p e pl lr ll t par st0 st1) as (st2 & E2 & Ht2 & HT2); auto.
    { by rewrite Hn. }
    { by rewrite Hn. }
    { eapply merged_not_leaf; [done|by right]. }
    { by rewrite Hn. }
    { by rewrite Hn. }
    exists (Node p e ll t), pl, st2. split; [exact E2|]. split; [done|]. split; [by apply merged_left|].
    eapply touches_trans; [apply HT0|]. eapply touches_weaken; [done|]. rewrite Hn. unfold L. rewrite nodes_node. apply sub_merge_left.
  - unfold ip_at. change (iplogs st0) with (iplogs st). rewrite Hqn. cbn [of_option mbind res_bind child0].
    unfold R in Hnd at 1. rewrite nodes_node in Hnd. apply NoDup_merge_right in Hnd as (Hnd & Hx & Hd).
    destruct (IH L rl pl q st0) as (t & par & st1 & E & Ht & Hm & HT); auto; [lia|apply Br| |].
    { eapply before_sub; [exact Hb|done|]. simpl. set_solver. }
    simpl root in E. rewrite E. cbn [mbind res_bind]. pose proof (merged_nodes _ _ _ Hm) as Hn.
    destruct (merge_step false q e' pr rl rr t par st0 st1) as (st2 & E2 & Ht2 & HT2); auto.
    { by rewrite Hn. }
    { by rewrite Hn. }
    { eapply merged_not_leaf; [done|by left]. }
    { by rewrite Hn. }
    { by rewrite Hn. }
    exists (Node q e' t rr), pr, st2. split; [exact E2|]. split; [done|]. split; [by apply merged_right|].
    eapply touches_trans; [apply HT0|]. eapply touches_weaken; [done|]. rewrite Hn. unfold R. rewrite nodes_node. apply sub_merge_right.
Qed.

(** ** Changing what is in the hole *)

Lemma fill_inv h par f t : heap_tree h par (fill f t) ->
  f_ptr f <> 0 /\ heap_tree h (f_ptr f) t /\ heap_tree h (f_ptr f) (f_other f) /\
  exists n, h !! f_ptr f = Some n /\ ip_addr n = fst (f_entry f) /\ ip_name n = snd (f_entry f) /\ ip_parent n = par /\
    child (f_side f) n = root t /\ child (negb (f_side f)) n = root (f_other f).
Proof.
  unfold fill. destruct (f_side f); simpl; intros (Hp & Hn & H1 & H2); (split_and!; [done..|]);
    eexists; (split; [exact Hn|]); done.
Qed.

Lemma fill_intro h par f t n : f_ptr f <> 0 -> heap_tree h (f_ptr f) t -> heap_tree h (f_ptr f) (f_other f) ->
  h !! f_ptr f = Some n -> ip_addr n = fst (f_entry f) -> ip_name n = snd (f_entry f) -> ip_parent n = par ->
  child (f_side f) n = root t -> child (negb (f_side f)) n = root (f_other f) -> heap_tree h par (fill f t).
Proof.
  unfold fill. destruct n, (f_side f); simpl; intros; subst; auto.
Qed.

Lemma set_hole h h1 ctx f t t' :
  heap_tree h 0 (plug (ctx ++ [f]) t) -> NoDup (nodes (plug (ctx ++ [f]) t)) ->
  (forall q, q ∈ (ctx_elems (ctx ++ [f])).*1 -> h1 !! q = h !! q) ->
  heap_tree h1 (f_ptr f) t' -> f_ptr f ∉ nodes t' ->
  exists n, h1 !! f_ptr f = Some n /\ ip_addr n = fst (f_entry f) /\
    heap_tree (<[f_ptr f := set_child (f_side f) (root t') n]> h1) 0 (plug (ctx ++ [f]) t').
Proof.
  intros Ht Hnd Hctx Ht' Hdis. rewrite elems_plug, ctx_elems_snoc, !fmap_app in Hnd.
  rewrite ctx_elems_snoc, fmap_app in Hctx. apply NoDup_app in Hnd as (Hnd & _ & _).
  apply NoDup_app in Hnd as (_ & Hd & Hnf). unfold frame_elems in Hd, Hnf. rewrite fmap_cons in Hd, Hnf.
  cbn [fst] in Hd, Hnf. apply NoDup_cons in Hnf as [Hno _]. unfold frame_elems in Hctx. rewrite fmap_cons in Hctx.
  rewrite !plug_snoc in *. pose proof (heap_hole _ _ _ _ Ht) as Hh.
  apply fill_inv in Hh as (Hp & _ & Ho & n & Hn & Ha & Hnm & Hpar & Hc & Hc').
  exists n. assert (Hn1 : h1 !! f_ptr f = Some n) by (rewrite Hctx; [done|]; apply elem_of_app; right; left).
  split; [done|]. split; [done|].
  apply (heap_replace h _ ctx (fill f t) (fill f t') 0 Ht); [apply root_fill| |].
  - apply (fill_intro _ _ f t' (set_child (f_side f) (root t') n)); [done| | |by rewrite lookup_insert_eq| | | | |].
    + eapply heap_frame; [done|]. intros q Hq. rewrite lookup_insert_ne; [done|]. intros <-. done.
    + eapply heap_frame; [done|]. intros q Hq. rewrite lookup_insert_ne; [|intros <-; done].
      apply Hctx. apply elem_of_app. right. by right.
    + by destruct (f_side f).
    + by destruct (f_side f).
    + by destruct (f_side f).
    + by destruct (f_side f).
    + by destruct (f_side f).
  - intros q Hq. rewrite lookup_insert_ne; [apply Hctx; apply elem_of_app; by left|].
    intros <-. apply (Hd _ Hq). left.
Qed.

(** A search for [a] comes to the hole. *)
Definition fits (a : Z) (ctx : list frame) : Prop := Forall (fun f => f_side f = (fst (f_entry f) <? a)) ctx.

Lemma Forall_ltb (P : Z * entry -> Prop) (b : bool) a l :
  (forall x, P x <-> (b = true <-> a < fst (snd x))) ->
  Forall P l <-> Forall (fun x => b = (a <? fst (snd x))) l.
Proof.
  intros H. apply Forall_iff. intros x. rewrite H. destruct b, (a <? fst (snd x)) eqn:E; bool_props; intuition lia.
Qed.

Lemma bst_fill f t : bst (fill f t) <->
  bst t /\ bst (f_other f) /\ Forall (fun x => f_side f = (fst (f_entry f) <? fst (snd x))) (elems t) /\
  Forall (fun x => negb (f_side f) = (fst (f_entry f) <? fst (snd x))) (elems (f_other f)).
Proof.
  unfold fill. destruct (f_side f); simpl.
  - rewrite <- (Forall_ltb (fun x => fst (f_entry f) < fst (snd x)) true) by (intros; intuition lia).
    rewrite <- (Forall_ltb (fun x => fst (snd x) <= fst (f_entry f)) false) by (intros; intuition (discriminate || lia)). tauto.
  - rewrite <- (Forall_ltb (fun x => fst (f_entry f) < fst (snd x)) true) by (intros; intuition lia).
    rewrite <- (Forall_ltb (fun x => fst (snd x) <= fst (f_entry f)) false) by (intros; intuition (discriminate || lia)). tauto.
Qed.

Lemma bst_hole ctx t : bst (plug ctx t) -> bst t.
Proof. induction ctx as [|f ctx IH]; simpl; [done|]. rewrite bst_fill. tauto. Qed.

Lemma hole_fits ctx t x : bst (plug ctx t) -> x ∈ elems t -> fits (fst (snd x)) ctx.
Proof.
  unfold fits. induction ctx as [|f ctx IH]; [by constructor|]. intros H Hx. cbn [plug foldr] in H. apply bst_fill in H as (Hi & _ & Ha & _).
  constructor; [|by apply IH]. rewrite Forall_forall in Ha. apply (Ha x).
  change (foldr fill t ctx) with (plug ctx t). rewrite elems_plug. apply elem_of_app. by right.
Qed.

Lemma bst_replace ctx t t' : bst (plug ctx t) -> bst t' -> (forall x, x ∈ elems t' -> fits (fst (snd x)) ctx) -> bst (plug ctx t').
Proof.
  unfold fits. induction ctx as [|f ctx IH]; [done|]. cbn [plug foldr]. rewrite !bst_fill. intros (Hi & Ho & Ha & Hb) Ht' Hf.
  change (foldr fill t ctx) with (plug ctx t) in *. change (foldr fill t' ctx) with (plug ctx t') in *.
  split_and!; [| done| |done].
  - apply IH; auto. intros x Hx. specialize (Hf x Hx). by apply Forall_cons in Hf as [_ ?].
  - rewrite Forall_forall in Ha |- *. intros x Hx. rewrite elems_plug in Hx. apply elem_of_app in Hx as [Hx|Hx].
    + apply (Ha x). rewrite elems_plug. apply elem_of_app. by left.
    + specialize (Hf x Hx). by apply Forall_cons in Hf as [? _].
Qed.

Lemma filter_all {A} (P : A -> Prop) `{!forall x, Decision (P x)} (l : list A) : Forall P l -> filter P l = l.
Proof. induction 1 as [|x l Hx _ IH]; [done|]. by rewrite filter_cons_True, IH. Qed.

Lemma path_fill a f t : path a (fill f t) =
  (if fst (f_entry f) =? a then [(f_ptr f, f_entry f)] else []) ++
  path a (if bool_decide (f_side f = (fst (f_entry f) <? a)) then t else f_other f).
Proof. unfold fill. destruct (f_side f); simpl; destruct (fst (f_entry f) <? a); done. Qed.

(** A node without subtrees is put where its address belongs. *)
Lemma path_insert a ctx p e : fits (fst e) ctx ->
  path a (plug ctx (Node p e Leaf Leaf)) = path a (plug ctx Leaf) ++ (if fst e =? a then [(p, e)] else []).
Proof.
  unfold fits. induction ctx as [|f ctx IH]; intros Hf.
  - simpl. destruct (fst e <? a); by rewrite app_nil_r.
  - apply Forall_cons in Hf as [Hf Hfs]. cbn [plug foldr]. rewrite !path_fill, <- app_assoc. f_equal.
    case_bool_decide as Hs; [by apply IH|].
    rewrite (proj2 (Z.eqb_neq _ _)), app_nil_r; [done|]. intros <-. done.
Qed.

(** A node is taken out of the tree. *)
Lemma path_delete a ctx p t t' : (p ∉ (ctx_elems ctx).*1) ->
  (forall a, path a t' = filter (fun x => fst x <> p) (path a t)) ->
  path a (plug ctx t') = filter (fun x => fst x <> p) (path a (plug ctx t)).
Proof.
  intros Hp Ht. induction ctx as [|f ctx IH]; [apply Ht|]. rewrite ctx_nodes_cons in Hp.
  apply not_elem_of_cons in Hp as [Hpf Hp]. apply not_elem_of_app in Hp as [Hpo Hp].
  cbn [plug foldr]. rewrite !path_fill, filter_app. f_equal.
  - case_if; [|done]. by rewrite filter_cons_True.
  - case_bool_decide; [by apply IH|]. symmetry. apply filter_all. apply Forall_forall.
    intros x Hx. apply path_elem in Hx as [Hx _]. intros Hxp. apply Hpo. apply list_elem_of_fmap. eauto.
Qed.

(** ** Taking a node out *)

Lemma merged_path p e l r t a : bst (Node p e l r) -> NoDup (nodes (Node p e l r)) -> merged l r t ->
  path a t = filter (fun x => fst x <> p) (path a (Node p e l r)).
Proof.
  intros (_ & _ & Hle & Hgt) Hnd (_ & _ & Hm). rewrite Hm. rewrite Forall_forall in Hle, Hgt.
  rewrite nodes_node in Hnd. apply NoDup_app in Hnd as (_ & Hdl & Hnd). apply NoDup_cons in Hnd as [Hdr _].
  assert (Hf : forall t, p ∉ nodes t -> filter (fun x => fst x <> p) (path a t) = path a t).
  { intros t' Ht'. apply filter_all, Forall_forall. intros x Hx Hxp. apply Ht', list_elem_of_fmap.
    exists x. split; [done|]. by apply path_elem in Hx as [Hx _]. }
  cbn [path]. rewrite filter_app. destruct (fst e <? a) eqn:E; bool_props.
  - rewrite (proj2 (Z.eqb_neq _ _)) by lia. rewrite Hf by done. rewrite (path_none a l); [done|].
    intros x Hx. specialize (Hle x Hx). lia.
  - rewrite (path_none a r), app_nil_r by (intros x Hx; specialize (Hgt x Hx); lia).
    rewrite Hf by (intros Hp; apply (Hdl p Hp); left). case_if; [|done]. rewrite filter_cons_False; [done|]. simpl. tauto.
Qed.

(** The tree of the log. *)
Definition log_tree (st : logst) (t : tree) : Prop :=
  heap_tree (iplogs st) 0 t /\ root t = iplog_head st /\ bst t /\ NoDup (nodes t).

Lemma nodes_in_dom h par t : heap_tree h par t -> NoDup (nodes t) -> (length (elems t) <= size h)%nat.
Proof.
  intros Ht Hnd. rewrite <- (length_fmap fst), <- (size_list_to_set (C := gset Z)) by done.
  rewrite <- size_dom. apply subseteq_size. intros p Hp. apply elem_of_list_to_set in Hp.
  apply elem_of_dom. by eapply heap_nonnull.
Qed.

(** What [IPLog_Delete] does before it looks at the parent. *)
Lemma delete_merge st ctx p e l r :
  log_tree st (plug ctx (Node p e l r)) ->
  let n := IPL (fst e) (snd e) (hole_parent 0 ctx) (root l) (root r) in
  exists t st1, iplogs st !! p = Some n /\ merged l r t /\ iplogs st1 !! p = Some n /\
    ('(newlog, st) ← IPLog_Merge (log_fuel st) (root l) (root r) st;
     st ← (if truth newlog then n ← ip_at st p; upd_ip newlog (set_ip_parent (ip_parent n)) st else mret st);
     mret (newlog, st)) = Ok (root t, st1) /\
    heap_tree (iplogs st1) (hole_parent 0 ctx) t /\ touches (nodes l ++ nodes r) st st1.
Proof.
  intros (Ht & _ & Hb & Hnd) n. pose proof (nodes_in_dom _ _ _ Ht Hnd) as Hsz.
  apply heap_hole in Ht as (Hp & Hpn & Hl & Hr). apply bst_hole in Hb as (Bl & Br & Hle & Hgt).
  rewrite Forall_forall in Hle, Hgt. rewrite elems_plug, length_app in Hsz. cbn [elems] in Hsz. rewrite length_app in Hsz. simpl in Hsz.
  rewrite elems_plug, fmap_app in Hnd. apply NoDup_app in Hnd as (_ & _ & Hnd). rewrite nodes_node in Hnd.
  apply NoDup_app in Hnd as (Hnl & Hd & Hnd). apply NoDup_cons in Hnd as [Hpr Hnr].
  assert (Hpl : p ∉ nodes l ++ nodes r).
  { apply not_elem_of_app. split; [|done]. intros Hin. apply (Hd p Hin). left. }
  assert (Hnd : NoDup (nodes l ++ nodes r)).
  { apply NoDup_app. split_and!; [done| |done]. intros x Hx Hx'. apply (Hd x Hx). by right. }
  destruct (merge_ok (log_fuel st) l r p p st) as (t & par & st1 & E & Ht & Hm & HT); auto.
  { unfold log_fuel. lia. }
  { intros x y Hx Hy. specialize (Hle x Hx). specialize (Hgt y Hy). lia. }
  assert (Hpn1 : iplogs st1 !! p = Some n) by (rewrite (proj2 (proj2 HT)); done).
  rewrite E. cbn [mbind res_bind]. destruct t as [|q e' tl tr].
  { exists Leaf, st1. cbn. auto 10. }
  set (t := Node q e' tl tr) in *. pose proof (merged_nodes _ _ _ Hm) as Hn.
  assert (Hq : q ∈ nodes t) by (unfold t; rewrite nodes_node; apply elem_of_app; right; left).
  destruct (heap_nonnull _ _ _ _ Ht Hq) as [Hq0 [m Hmq]].
  destruct (upd_ip_ok q (set_ip_parent (hole_parent 0 ctx)) st1 m Hmq) as [E2 HT2].
  exists t, (set_iplogs (<[q := set_ip_parent (hole_parent 0 ctx) m]> (iplogs st1)) st1).
  split; [done|]. split; [done|]. cbn [root t]. unfold truth.
  rewrite (proj2 (Z.eqb_neq _ _) Hq0). cbn [negb]. unfold ip_at at 1. rewrite Hpn1. cbn [of_option mbind res_bind ip_parent n].
  rewrite E2. cbn [mbind res_bind]. split; [|split; [done|split]].
  - simpl. rewrite lookup_insert_ne; [done|]. intros ->. apply Hpl. by rewrite <- Hn.
  - cbn [iplogs set_iplogs]. apply (heap_reparent _ par _ t); try done. by rewrite Hn.
  - eapply touches_trans; [exact HT|]. eapply touches_weaken; [exact HT2|]. rewrite <- Hn. set_solver.
Qed.

Lemma ip_at_ok st p n : iplogs st !! p = Some n -> ip_at st p = Ok n.
Proof. unfold ip_at. by intros ->. Qed.

Lemma delete_unfold st p n nl st1 :
  iplogs st !! p = Some n ->
  ('(newlog, st) ← IPLog_Merge (log_fuel st) (child0 n) (child1 n) st;
   st ← (if truth newlog then n ← ip_at st p; upd_ip newlog (set_ip_parent (ip_parent n)) st else mret st);
   mret (newlog, st)) = Ok (nl, st1) ->
  iplogs st1 !! p = Some n ->
  IPLog_Delete p st = if truth (ip_parent n)
    then q ← ip_at st1 (ip_parent n); upd_ip (ip_parent n) (set_child (ip_addr q <? ip_addr n) nl) st1
    else Ok (set_iplog_head nl st1).
Proof.
  intros Hp E Hp1. unfold IPLog_Delete. rewrite (ip_at_ok _ _ _ Hp). cbn [mbind res_bind].
  destruct (IPLog_Merge _ _ _ _) as [[c st']|]; [|done]. cbn [mbind res_bind] in *.
  apply bind_Ok_inv in E as (st2 & E & Hr). injection Hr as -> ->. rewrite E. cbn [mbind res_bind].
  by rewrite (ip_at_ok _ _ _ Hp1).
Qed.

(** The slot numbers and the size of the log are untouched. *)
Definition same_slots (st st' : logst) : Prop :=
  iplog_size st' = iplog_size st /\ iplog_next st' = iplog_next st /\ iplog_full st' = iplog_full st /\
  dom (iplogs st') = dom (iplogs st).

Lemma delete_ok st t p : log_tree st t -> p ∈ nodes t ->
  exists t' st' e, IPLog_Delete p st = Ok st' /\ log_tree st' t' /\ same_slots st st' /\
    elems t ≡ₚ (p, e) :: elems t' /\ forall a, path a t' = filter (fun x => fst x <> p) (path a t).
Proof.
  intros Hlog Hin. destruct (plug_at t p Hin) as (ctx & e & l & r & ->).
  destruct (delete_merge st ctx p e l r Hlog) as (t & st1 & Hpn & Hm & Hpn1 & E & Ht & HT).
  rewrite (delete_unfold _ _ _ _ _ Hpn E Hpn1). cbn [ip_parent ip_addr].
  destruct Hlog as (Hh & Hroot & Hb & Hnd). pose proof Hm as (Bt & Et & _).
  assert (Hperm : elems (plug ctx (Node p e l r)) ≡ₚ (p, e) :: elems (plug ctx t)).
  { rewrite !elems_plug, Et. simpl. rewrite <- !Permutation_middle. done. }
  assert (Hnd' : NoDup (p :: nodes (plug ctx t))) by (rewrite Hperm in Hnd; done).
  apply NoDup_cons in Hnd' as [_ Hnd']. pose proof Hnd as Hnd0.
  rewrite elems_plug, fmap_app in Hnd0. apply NoDup_app in Hnd0 as (_ & Hdis & Hndn).
  rewrite nodes_node in Hdis.
  assert (Hpc : p ∉ (ctx_elems ctx).*1) by (intros H; apply (Hdis p H); apply elem_of_app; right; left).
  assert (Hpath : forall a, path a (plug ctx t) = filter (fun x => fst x <> p) (path a (plug ctx (Node p e l r)))).
  { intros a. apply path_delete; [done|]. intros b. apply merged_path; [by eapply bst_hole|done|done]. }
  assert (Hbst : bst (plug ctx t)).
  { eapply bst_replace; [exact Hb|done|]. intros x Hx. eapply hole_fits; [exact Hb|].
    rewrite Et in Hx. simpl. rewrite elem_of_app in Hx |- *. rewrite elem_of_cons. tauto. }
  assert (Hctx : forall q, q ∈ (ctx_elems ctx).*1 -> iplogs st1 !! q = iplogs st !! q).
  { intros q Hq. apply HT. intros H. apply (Hdis q Hq). rewrite elem_of_app in H |- *. rewrite elem_of_cons. tauto. }
  destruct ctx as [|f ctx _] using rev_ind.
  - exists t, (set_iplog_head (root t) st1), e. destruct HT as ((? & ? & ? & ?) & ? & _).
    split; [done|]. split; [by split_and!|]. split; [by split_and!|]. done.
  - rewrite hole_parent_snoc in *. destruct (set_hole _ _ _ _ _ t Hh Hnd Hctx Ht) as (n & Hn & Ha & Hh').
    { intros H. apply (Hdis (f_ptr f)).
      - rewrite ctx_elems_snoc. unfold frame_elems. rewrite fmap_app, fmap_cons. apply elem_of_app. right. left.
      - rewrite (merged_nodes _ _ _ Hm), elem_of_app in H. rewrite elem_of_app, elem_of_cons. tauto. }
    assert (Hf : f_ptr f <> 0) by (rewrite plug_snoc in Hh; apply heap_hole, fill_inv in Hh; tauto).
    unfold truth. rewrite (proj2 (Z.eqb_neq _ _) Hf). cbn [negb]. unfold ip_at. rewrite Hn. cbn [of_option mbind res_bind].
    rewrite Ha. assert (Hs : f_side f = (fst (f_entry f) <? fst e)).
    { assert (H : fits (fst e) (ctx ++ [f])).
      { apply (hole_fits _ _ (p, e) Hb). simpl. apply elem_of_app. right. left. }
      apply Forall_app in H as [_ H]. by apply Forall_cons in H as [H _]. }
    rewrite <- Hs. destruct (upd_ip_ok (f_ptr f) (set_child (f_side f) (root t)) st1 n Hn) as [E2 HT2].
    rewrite E2. eexists _, _, e. split; [reflexivity|].
    destruct HT as ((? & ? & ? & Hhd) & ? & _), HT2 as (_ & ? & _).
    split; [|split; [split_and!; simpl in *; congruence|done]].
    split_and!; [exact Hh'| |done|done]. simpl. rewrite Hhd, <- Hroot, !plug_snoc. apply root_plug, root_fill.
Qed.

(** * What the log promises

    To its users the log is a queue of entries, the oldest first, that has room for
    [iplog_size - 1] of them. *)

Definition names (a : Z) (q : list entry) : list bytes := (filter (fun e => fst e = a) q).*2.

(** The names of address [a] become [ns]. *)
Fixpoint rename (a : Z) (ns : list bytes) (q : list entry) : list entry :=
  match q with
  | [] => []
  | e :: q =>
      if fst e =? a then match ns with n :: ns => (fst e, n) :: rename a ns q | [] => e :: rename a [] q end
      else e :: rename a ns q
  end.

(** Adding a name: nothing happens to one that is known; an address that has all its names loses
    its oldest one; otherwise the entry joins the queue and, if that is now too long, the oldest
    entry of all leaves. *)
Definition add_entry (size a : Z) (nm : bytes) (q : list entry) : list entry :=
  if bool_decide (nm ∈ names a q) then q
  else if (length (names a q) =? MAX_REPITITION)%nat then rename a (tail (names a q) ++ [nm]) q
  else
    let q' := q ++ [(a, nm)] in
    if zlen q' =? size then tail q' else q'.

Definition good_name (nm : bytes) : Prop := nm <> [] /\ is_cstr nm /\ trim nm = nm.

Definition queue_ok (q : list entry) : Prop :=
  (forall a, NoDup (names a q) /\ (length (names a q) <= MAX_REPITITION)%nat /\ Forall good_name (names a q)) /\
  Forall is_int q.*1.

(** The slots in use, the oldest first. *)
Definition used_slots (st : logst) : list Z :=
  slot <$> (if iplog_full st then seqZ (iplog_next st + 1) (iplog_size st - iplog_next st - 1) ++ seqZ 0 (iplog_next st)
            else seqZ 0 (iplog_next st)).

Definition all_slots (size : Z) : list Z := slot <$> seqZ 0 size.

Definition entries_of (st : logst) (t : tree) (es : list (Z * entry)) : Prop :=
  log_tree st t /\ es.*1 = used_slots st /\ forall a, path a t = filter (fun x => fst (snd x) = a) es.

(** The tree holds the queue [q]. *)
Definition represents (st : logst) (q : list entry) : Prop :=
  0 <= iplog_next st < iplog_size st /\ dom (iplogs st) = list_to_set (C := gset Z) (all_slots (iplog_size st)) /\ queue_ok q /\
  exists t es, entries_of st t es /\ es.*2 = q.

(** ** Lists of slots and names *)

Lemma names_path a es : names a es.*2 = (filter (fun x : Z * entry => fst (snd x) = a) es).*2.*2.
Proof.
  unfold names. induction es as [|[p e] es IH]; [done|]. rewrite fmap_cons, !filter_cons. cbn [fst snd].
  case_decide; [|apply IH]. rewrite !fmap_cons. cbn [fst snd]. f_equal. apply IH.
Qed.

Lemma names_app a q1 q2 : names a (q1 ++ q2) = names a q1 ++ names a q2.
Proof. unfold names. by rewrite filter_app, fmap_app. Qed.

Lemma names_cons a e q : names a (e :: q) = (if fst e =? a then [snd e] else []) ++ names a q.
Proof. unfold names. rewrite filter_cons. destruct (Z.eqb_spec (fst e) a); case_decide; done. Qed.

Lemma names_rename a ns b q : length ns = length (names a q) ->
  names b (rename a ns q) = if b =? a then ns else names b q.
Proof.
  revert ns. induction q as [|e q IH]; intros ns; [by destruct ns, (b =? a)|].
  rewrite !names_cons. cbn [rename]. destruct (Z.eqb_spec (fst e) a) as [Ha|Ha]; simpl; intros Hl.
  - destruct ns as [|n ns]; [done|]. injection Hl as Hl. rewrite names_cons, IH by done. simpl. rewrite Ha.
    destruct (Z.eqb_spec b a) as [->|Hne]; [by rewrite Z.eqb_refl|]. rewrite (proj2 (Z.eqb_neq a b)) by done. done.
  - rewrite names_cons, IH by done. destruct (Z.eqb_spec b a) as [->|]; [|done].
    by rewrite (proj2 (Z.eqb_neq _ _) Ha).
Qed.

Lemma rename_addrs a ns q : (rename a ns q).*1 = q.*1.
Proof.
  revert ns. induction q as [|e q IH]; intros ns; [done|]. cbn [rename].
  destruct (fst e =? a); [destruct ns|]; simpl; by rewrite IH.
Qed.

Lemma slot_inj : Inj (=) (=) slot.
Proof. intros x y. unfold slot. lia. Qed.
#[local] Existing Instance slot_inj.

Lemma all_slots_elem size p : p ∈ all_slots size <-> 1 <= p <= size.
Proof.
  unfold all_slots. rewrite list_elem_of_fmap. unfold slot. split.
  - intros (i & -> & Hi). apply elem_of_seqZ in Hi. lia.
  - intros H. exists (p - 1). split; [lia|]. apply elem_of_seqZ. lia.
Qed.

Section Slots.
Context (st : logst) (Hnext : 0 <= iplog_next st < iplog_size st).

Lemma used_slots_elem p : p ∈ used_slots st <->
  1 <= p <= iplog_size st /\ p <> slot (iplog_next st) /\ (iplog_full st = false -> p <= iplog_next st).
Proof.
  unfold used_slots, slot. rewrite list_elem_of_fmap. destruct (iplog_full st); split.
  - intros (i & -> & Hi). rewrite elem_of_app, !elem_of_seqZ in Hi. split_and!; try done; lia.
  - intros (H1 & H2 & _). exists (p - 1). split; [lia|]. rewrite elem_of_app, !elem_of_seqZ. lia.
  - intros (i & -> & Hi). rewrite elem_of_seqZ in Hi. split_and!; lia.
  - intros (H1 & H2 & H3). exists (p - 1). split; [lia|]. rewrite elem_of_seqZ. specialize (H3 eq_refl). lia.
Qed.

Lemma used_slots_NoDup : NoDup (used_slots st).
Proof.
  unfold used_slots. apply NoDup_fmap_2; [apply _|]. destruct (iplog_full st); [|apply NoDup_seqZ].
  apply NoDup_app. split_and!; [apply NoDup_seqZ| |apply NoDup_seqZ].
  intros x. rewrite !elem_of_seqZ. lia.
Qed.

Lemma used_slots_length : zlen (used_slots st) = if iplog_full st then iplog_size st - 1 else iplog_next st.
Proof.
  unfold used_slots. rewrite length_fmap. destruct (iplog_full st); rewrite ?length_app, !length_seqZ; lia.
Qed.
End Slots.

Lemma used_slots_next st : 0 <= iplog_next st < iplog_size st ->
  let st' := next_slot st in
  0 <= iplog_next st' < iplog_size st' /\
  if iplog_full st' then used_slots st ++ [slot (iplog_next st)] = slot (iplog_next st') :: used_slots st'
  else used_slots st ++ [slot (iplog_next st)] = used_slots st'.
Proof.
  intros H. unfold next_slot. cbn [iplog_next set_iplog_next iplog_size].
  assert (Hs : forall i, 0 <= i -> seqZ 0 i ++ [i] = seqZ 0 (i + 1)).
  { intros i Hi. rewrite seqZ_app by lia. done. }
  destruct (iplog_next st + 1 =? iplog_size st) eqn:E; bool_props; cbn [iplog_next iplog_full iplog_size set_iplog_full set_iplog_next].
  - split; [lia|]. unfold used_slots. cbn [iplog_next iplog_full iplog_size set_iplog_full set_iplog_next].
    assert (Hu : (if iplog_full st then seqZ (iplog_next st + 1) (iplog_size st - iplog_next st - 1) ++ seqZ 0 (iplog_next st)
                  else seqZ 0 (iplog_next st)) = seqZ 0 (iplog_next st)).
    { destruct (iplog_full st); [|done]. rewrite seqZ_nil by lia. done. }
    rewrite Hu. change [slot (iplog_next st)] with (slot <$> [iplog_next st]). rewrite <- fmap_app, Hs by lia.
    rewrite seqZ_cons by lia. simpl. rewrite app_nil_r. do 3 f_equal; lia.
  - split; [lia|]. unfold used_slots. cbn [iplog_next iplog_full iplog_size set_iplog_full set_iplog_next].
    change [slot (iplog_next st)] with (slot <$> [iplog_next st]). rewrite <- fmap_app.
    destruct (iplog_full st); [|by rewrite Hs by lia].
    rewrite <- app_assoc, Hs by lia. rewrite (seqZ_cons (iplog_next st + 1)) by lia. simpl. do 4 f_equal; lia.
Qed.

(** ** Searching *)

Lemma hole_child st ctx t : heap_tree (iplogs st) 0 (plug ctx t) -> root (plug ctx t) = iplog_head st ->
  (if hole_parent 0 ctx =? 0 then mret (iplog_head st)
   else n ← ip_at st (hole_parent 0 ctx); mret (child (hole_side ctx) n)) = Ok (root t).
Proof.
  intros Ht Hr. destruct ctx as [|f ctx _] using rev_ind; [simpl in *; by rewrite Hr|].
  rewrite hole_parent_snoc, hole_side_snoc. rewrite plug_snoc in Ht. apply heap_hole, fill_inv in Ht as (Hp & _ & _ & n & Hn & _ & _ & _ & Hc & _).
  rewrite (proj2 (Z.eqb_neq _ _) Hp), (ip_at_ok _ _ _ Hn). simpl. by rewrite Hc.
Qed.

(** What the search finds, in terms of the path of the address in the rest of the tree. *)
Definition found (a : Z) (nm : bytes) (whole : tree) (ms : list Z) (p : list (Z * entry)) (w : place) : Prop :=
  match w with
  | Known => nm ∈ p.*2.*2
  | Full l => nm ∉ p.*2.*2 /\ l = ms ++ p.*1 /\ length l = MAX_REPITITION
  | Free par side => nm ∉ p.*2.*2 /\ (length ms + length p < MAX_REPITITION)%nat /\
      exists ctx, whole = plug ctx Leaf /\ fits a ctx /\ par = hole_parent 0 ctx /\ side = hole_side ctx
  end.

Lemma found_step a nm whole ms x p w : snd (snd x) <> nm -> found a nm whole (ms ++ [fst x]) p w -> found a nm whole ms (x :: p) w.
Proof.
  intros Hx. destruct w as [|l|par side]; simpl.
  - intros H. by right.
  - intros (H & -> & Hl). rewrite <- app_assoc in Hl |- *. split; [|done]. apply not_elem_of_cons. auto.
  - rewrite length_app. simpl. intros (H & Hl & Hc). split; [|split; [lia|done]]. apply not_elem_of_cons. auto.
Qed.

Lemma find_ok st a nm whole : heap_tree (iplogs st) 0 whole -> root whole = iplog_head st ->
  forall fuel t ctx ms, whole = plug ctx t -> fits a ctx -> (length (elems t) < fuel)%nat ->
  (length ms < MAX_REPITITION)%nat -> (length ms + length (path a t) <= MAX_REPITITION)%nat ->
  exists w, find_place fuel st a nm (hole_parent 0 ctx) (hole_side ctx) ms = Ok w /\ found a nm whole ms (path a t) w.
Proof.
  intros Hh Hr. induction fuel as [|fuel IH]; intros t ctx ms Hw Hfit Hf Hm Hp; [lia|].
  subst whole. cbn [find_place]. rewrite (hole_child _ _ _ Hh Hr). cbn [mbind res_bind].
  destruct t as [|p e l r].
  { exists (Free (hole_parent 0 ctx) (hole_side ctx)). split; [done|]. split; [apply not_elem_of_nil|].
    split; [simpl in *; lia|]. by exists ctx. }
  pose proof (heap_hole _ _ _ _ Hh) as (Hp0 & Hn & _). cbn [root]. rewrite (proj2 (Z.eqb_neq _ _) Hp0).
  rewrite (ip_at_ok _ _ _ Hn). cbn [mbind res_bind ip_addr ip_name]. cbn [elems] in Hf. rewrite length_app in Hf. simpl in Hf.
  cbn [path] in Hp |- *.
  set (t' := if fst e <? a then r else l) in *.
  set (f := Fr (fst e <? a) p e (if fst e <? a then l else r)).
  assert (Hw' : plug ctx (Node p e l r) = plug (ctx ++ [f]) t').
  { rewrite plug_snoc. unfold fill, f, t'. simpl. by destruct (fst e <? a). }
  assert (Hlen : (length (elems t') < fuel)%nat) by (unfold t'; destruct (fst e <? a); lia).
  assert (Hfit' : fits a (ctx ++ [f])) by (apply Forall_app; split; [done|]; by constructor).
  assert (Hgo : forall ms', (length ms' < MAX_REPITITION)%nat -> (length ms' + length (path a t') <= MAX_REPITITION)%nat ->
    exists w, find_place fuel st a nm p (fst e <? a) ms' = Ok w /\ found a nm (plug ctx (Node p e l r)) ms' (path a t') w).
  { intros ms' Hm' Hp'. destruct (IH t' (ctx ++ [f]) ms') as (w & E & Hw); auto. rewrite hole_parent_snoc, hole_side_snoc in E. eauto. }
  destruct (fst e =? a) eqn:Ea; [|by apply Hgo].
  case_bool_decide as Hnm.
  { exists Known. split; [done|]. simpl. rewrite Hnm. left. }
  rewrite length_app in Hp. simpl in Hp. cbn zeta.
  destruct (length (ms ++ [p]) =? MAX_REPITITION)%nat eqn:El.
  - apply Nat.eqb_eq in El. exists (Full (ms ++ [p])). split; [done|]. rewrite length_app in El. simpl in El.
    assert (path a t' = []) as -> by (apply nil_length_inv; lia). simpl.
    split; [|split; [done|rewrite length_app; simpl; lia]]. apply not_elem_of_cons. split; [done|apply not_elem_of_nil].
  - apply Nat.eqb_neq in El. rewrite length_app in El. simpl in El.
    destruct (Hgo (ms ++ [p])) as (w & E & Hw'').
    + rewrite length_app. simpl. lia.
    + rewrite length_app. simpl. lia.
    + exists w. split; [exact E|]. apply (found_step a nm _ ms (p, e)); [simpl; congruence|done].
Qed.

(** ** Renaming *)

(** The tree with the names replaced by [g]. *)
Fixpoint tmap (g : Z -> bytes -> bytes) (t : tree) : tree :=
  match t with Leaf => Leaf | Node p e l r => Node p (fst e, g p (snd e)) (tmap g l) (tmap g r) end.

Definition relabel (g : Z -> bytes -> bytes) (x : Z * entry) : Z * entry := (fst x, (fst (snd x), g (fst x) (snd (snd x)))).

Lemma root_tmap g t : root (tmap g t) = root t.
Proof. by destruct t. Qed.

Lemma elems_tmap g t : elems (tmap g t) = relabel g <$> elems t.
Proof. induction t as [|p e l IHl r IHr]; [done|]. simpl. rewrite fmap_app, IHl, IHr. done. Qed.

Lemma nodes_tmap g t : nodes (tmap g t) = nodes t.
Proof. rewrite elems_tmap, <- list_fmap_compose. done. Qed.

Lemma path_tmap g a t : path a (tmap g t) = relabel g <$> path a t.
Proof.
  induction t as [|p e l IHl r IHr]; [done|]. simpl. rewrite fmap_app. f_equal; [by destruct (fst e =? a)|].
  by destruct (fst e <? a).
Qed.

Lemma bst_tmap g t : bst t -> bst (tmap g t).
Proof.
  induction t as [|p e l IHl r IHr]; simpl; [done|]. intros (Hl & Hr & Ha & Hb).
  rewrite !elems_tmap, !Forall_fmap. split_and!; auto.
Qed.

Lemma heap_tmap g h h' t : forall par, heap_tree h par t ->
  (forall p n, p ∈ nodes t -> h !! p = Some n -> h' !! p = Some (set_ip_name (g p (ip_name n)) n)) ->
  heap_tree h' par (tmap g t).
Proof.
  induction t as [|p e l IHl r IHr]; simpl; [done|]. intros par (Hp & Hn & Hl & Hr) Hh.
  rewrite !root_tmap. rewrite fmap_app, fmap_cons in Hh. split_and!; [done| | |].
  - rewrite (Hh p _ ltac:(apply elem_of_app; right; left) Hn). done.
  - apply IHl; [done|]. intros q n Hq. apply Hh, elem_of_app. by left.
  - apply IHr; [done|]. intros q n Hq. apply Hh, elem_of_app. right. by right.
Qed.

(** Slot [p] gets the name that stands beside it in two lists. *)
Fixpoint assign_names (ps : list Z) (ns : list bytes) (p : Z) (nm : bytes) : bytes :=
  match ps, ns with
  | q :: ps, n :: ns => if q =? p then n else assign_names ps ns p nm
  | _, _ => nm
  end.

Lemma assign_names_out ps ns p nm : p ∉ ps -> assign_names ps ns p nm = nm.
Proof.
  revert ns. induction ps as [|q ps IH]; intros ns H; [done|]. destruct ns as [|n ns]; [done|]. simpl.
  apply not_elem_of_cons in H as [Hq H]. rewrite (proj2 (Z.eqb_neq _ _)) by done. auto.
Qed.

Lemma shift_ok nm : forall ps ns st, ps <> [] -> NoDup ps ->
  Forall2 (fun p n => exists x, iplogs st !! p = Some x /\ ip_name x = n) ps ns ->
  exists st', shift_names ps nm st = Ok st' /\ touches ps st st' /\
    forall p x, iplogs st !! p = Some x -> iplogs st' !! p = Some (set_ip_name (assign_names ps (tail ns ++ [nm]) p (ip_name x)) x).
Proof.
  induction ps as [|p ps IH]; [done|]. intros ns st _ Hnd HF.
  apply Forall2_cons_inv_l in HF as (n & ns' & (x & Hx & Hxn) & HF & ->).
  destruct ps as [|q ps].
  - apply Forall2_nil_inv_l in HF as ->. destruct (upd_ip_ok p (set_ip_name nm) st x Hx) as [E HT].
    exists (set_iplogs (<[p := set_ip_name nm x]> (iplogs st)) st). split; [exact E|]. split; [done|].
    intros q y Hy. simpl. destruct (Z.eqb_spec p q) as [<-|Hne].
    + rewrite lookup_insert_eq. rewrite Hx in Hy. by simplify_eq.
    + rewrite lookup_insert_ne by done. rewrite Hy. by destruct y.
  - apply Forall2_cons_inv_l in HF as (n2 & ns2 & (y & Hy & Hyn) & HF & ->).
    apply NoDup_cons in Hnd as [Hp Hnd]. cbn [shift_names]. rewrite (ip_at_ok _ _ _ Hy). cbn [mbind res_bind].
    destruct (upd_ip_ok p (set_ip_name (ip_name y)) st x Hx) as [E HT]. rewrite E. cbn [mbind res_bind].
    set (st1 := set_iplogs _ st) in *.
    assert (Hkeep : forall z, z ∈ q :: ps -> iplogs st1 !! z = iplogs st !! z).
    { intros z Hz. apply HT. intros Hzp. apply list_elem_of_singleton in Hzp as ->. done. }
    destruct (IH (n2 :: ns2) st1) as (st2 & E2 & HT2 & Hn2); [done|done| |].
    { constructor.
      - exists y. rewrite Hkeep; [done|left].
      - apply Forall2_same_length_lookup in HF as [Hlen HF]. apply Forall2_same_length_lookup. split; [done|].
        intros i z m Hz Hm. destruct (HF i z m Hz Hm) as (w & Hw & Hwm). exists w.
        rewrite Hkeep; [done|right]. by eapply list_elem_of_lookup_2. }
    exists st2. split; [exact E2|]. split.
    { eapply touches_trans; eapply touches_weaken; [exact HT| |exact HT2|]; set_solver. }
    intros z w Hw. simpl tail. cbn [app assign_names]. destruct (Z.eqb_spec p z) as [<-|Hne].
    + rewrite Hx in Hw. injection Hw as <-.
      rewrite (Hn2 p (set_ip_name (ip_name y) x)) by (unfold st1; simpl; by rewrite lookup_insert_eq).
      rewrite assign_names_out by done. simpl. by rewrite Hyn.
    + apply Hn2. unfold st1. simpl. by rewrite lookup_insert_ne.
Qed.

(** Renaming the slots of one address renames them in the queue. *)
Lemma relabel_rename a es : NoDup es.*1 -> forall ns, length ns = length (filter (fun x : Z * entry => fst (snd x) = a) es) ->
  (relabel (assign_names (filter (fun x : Z * entry => fst (snd x) = a) es).*1 ns) <$> es).*2 = rename a ns es.*2.
Proof.
  intros Hnd. induction es as [|[p e] es IH]; intros ns Hl; [done|].
  rewrite fmap_cons in Hnd. apply NoDup_cons in Hnd as [Hp Hnd]. specialize (IH Hnd). cbn [fst] in Hp.
  assert (Hpf : p ∉ (filter (fun x : Z * entry => fst (snd x) = a) es).*1).
  { intros H. apply Hp. apply list_elem_of_fmap in H as (x & -> & Hx). apply list_elem_of_filter in Hx as [_ Hx].
    apply list_elem_of_fmap. eauto. }
  rewrite filter_cons in Hl |- *. cbn [fst snd] in Hl |- *.
  rewrite !fmap_cons. cbn [rename fst snd].
  destruct (Z.eqb_spec (fst e) a) as [Ha|Ha]; case_decide; try done.
  - destruct ns as [|n ns]; [done|]. injection Hl as Hl. rewrite fmap_cons. cbn [relabel fst snd assign_names].
    rewrite Z.eqb_refl. f_equal. rewrite <- (IH ns Hl). apply list_eq_Forall2.
    rewrite !Forall2_fmap. apply Forall_Forall2_diag, Forall_forall. intros x Hx. unfold relabel. cbn [fst snd].
    rewrite (proj2 (Z.eqb_neq _ _)); [done|]. intros ->. apply Hp, list_elem_of_fmap. eauto.
  - unfold relabel at 1. cbn [fst snd]. rewrite assign_names_out by done. destruct e. f_equal. by apply IH.
Qed.

Lemma filter_relabel g a (es : list (Z * entry)) :
  filter (fun x : Z * entry => fst (snd x) = a) (relabel g <$> es) = relabel g <$> filter (fun x : Z * entry => fst (snd x) = a) es.
Proof.
  induction es as [|x es IH]; [done|]. rewrite fmap_cons, !filter_cons. cbn [relabel fst snd].
  case_decide; [rewrite fmap_cons; f_equal|]; apply IH.
Qed.

(** ** A new node *)

Lemma place_ok st ctx e new : log_tree st (plug ctx Leaf) -> fits (fst e) ctx -> new <> 0 ->
  is_Some (iplogs st !! new) -> new ∉ nodes (plug ctx Leaf) ->
  exists st', (st ← (if hole_parent 0 ctx =? 0 then mret (set_iplog_head new st) else upd_ip (hole_parent 0 ctx) (set_child (hole_side ctx) new) st);
               upd_ip new (fun _ => IPL (fst e) (snd e) (hole_parent 0 ctx) 0 0) st) = Ok st' /\
    log_tree st' (plug ctx (Node new e Leaf Leaf)) /\ same_slots st st'.
Proof.
  intros (Hh & Hr & Hb & Hnd) Hfit Hnew [x Hx] Hnn. set (leaf := Node new e Leaf Leaf).
  assert (Hbst : bst (plug ctx leaf)).
  { eapply bst_replace; [exact Hb|by split_and!; try constructor|]. intros y Hy. simpl in Hy.
    apply list_elem_of_singleton in Hy as ->. done. }
  assert (Hnd' : NoDup (nodes (plug ctx leaf))).
  { rewrite elems_plug, app_nil_r in Hnd, Hnn. rewrite elems_plug, fmap_app. simpl. rewrite Permutation_app_comm. by constructor. }
  set (n := IPL (fst e) (snd e) (hole_parent 0 ctx) 0 0).
  destruct ctx as [|f ctx _] using rev_ind.
  - destruct (upd_ip_ok new (fun _ => n) (set_iplog_head new st) x Hx) as [E (_ & HT & _)].
    eexists. split; [exact E|]. split; [|split_and!; done]. split_and!; try done. simpl. split_and!; try done. by rewrite lookup_insert_eq.
  - rewrite hole_parent_snoc, hole_side_snoc in *.
    destruct (set_hole (iplogs st) (<[new := n]> (iplogs st)) ctx f Leaf leaf) as (m & Hm & _ & Hh'); try done.
    { intros q Hq. rewrite lookup_insert_ne; [done|]. intros ->. apply Hnn. rewrite elems_plug, app_nil_r. done. }
    { simpl. split_and!; try done. rewrite lookup_insert_eq. unfold n. by rewrite hole_parent_snoc. }
    { simpl. rewrite list_elem_of_singleton. intros Heq. apply Hnn. rewrite elems_plug, app_nil_r, ctx_elems_snoc, fmap_app.
      apply elem_of_app. right. rewrite <- Heq. left. }
    assert (Hne : new <> f_ptr f).
    { intros Heq. apply Hnn. rewrite elems_plug, app_nil_r, ctx_elems_snoc, fmap_app. apply elem_of_app. right. rewrite Heq. left. }
    rewrite lookup_insert_ne in Hm by done.
    assert (Hf : f_ptr f <> 0) by (rewrite plug_snoc in Hh; apply heap_hole, fill_inv in Hh; tauto).
    rewrite (proj2 (Z.eqb_neq _ _) Hf). destruct (upd_ip_ok (f_ptr f) (set_child (f_side f) new) st m Hm) as [E (_ & HT & _)].
    rewrite E. cbn [mbind res_bind]. set (st1 := set_iplogs _ st) in *.
    assert (Hx1 : iplogs st1 !! new = Some x) by (unfold st1; simpl; by rewrite lookup_insert_ne).
    destruct (upd_ip_ok new (fun _ => n) st1 x Hx1) as [E2 (_ & HT2 & _)]. eexists. split; [exact E2|].
    split; [|split_and!; simpl in *; congruence]. split_and!; [|simpl; rewrite <- Hr, !plug_snoc; apply root_plug, root_fill|done..].
    unfold st1. simpl. rewrite insert_insert_ne by done. exact Hh'.
Qed.

(** ** The queue *)

Lemma queue_ok_rename a nm q : queue_ok q -> nm ∉ names a q -> length (names a q) = MAX_REPITITION -> good_name nm ->
  queue_ok (rename a (tail (names a q) ++ [nm]) q).
Proof.
  intros [H Hi] Hnm Hl Hg. assert (Hlen : length (tail (names a q) ++ [nm]) = length (names a q)).
  { rewrite length_app. destruct (names a q); [done|]. simpl. lia. }
  split; [|by rewrite rename_addrs]. intros b. rewrite names_rename by done. destruct (b =? a); [|done].
  destruct (H a) as (Hnd & _ & Hf). split_and!; [| lia |].
  - destruct (names a q) as [|n ns]; [done|]. simpl. apply NoDup_cons in Hnd as [_ Hnd]. apply NoDup_app. split_and!; [done| |].
    + intros x Hx Hx'. apply list_elem_of_singleton in Hx' as ->. apply Hnm. by right.
    + apply NoDup_singleton.
  - apply Forall_app. split; [|by apply Forall_singleton]. destruct Hf; [constructor|done].
Qed.

Lemma queue_ok_push a nm q : queue_ok q -> nm ∉ names a q -> (length (names a q) < MAX_REPITITION)%nat -> good_name nm -> is_int a ->
  queue_ok (q ++ [(a, nm)]).
Proof.
  intros [H Hi] Hnm Hl Hg Ha. split; [|rewrite fmap_app; apply Forall_app; split; [done|by apply Forall_singleton]].
  intros b. rewrite names_app, names_cons. simpl. destruct (H b) as (Hnd & Hlb & Hf).
  destruct (Z.eqb_spec a b) as [->|Hne]; [|by rewrite app_nil_r]. simpl. split_and!.
  - apply NoDup_app. split_and!; [done| |apply NoDup_singleton]. intros x Hx Hx'. apply list_elem_of_singleton in Hx' as ->. done.
  - rewrite length_app. simpl. lia.
  - apply Forall_app. split; [done|by apply Forall_singleton].
Qed.

Lemma queue_ok_tail q : queue_ok q -> queue_ok (tail q).
Proof.
  destruct q as [|e q]; [done|]. intros [H Hi]. simpl. rewrite fmap_cons in Hi. apply Forall_cons in Hi as [_ Hi].
  split; [|done]. intros b. specialize (H b). rewrite names_cons in H. destruct (fst e =? b); [|done].
  destruct H as (Hnd & Hl & Hf). simpl in *. apply NoDup_cons in Hnd as [_ Hnd]. apply Forall_cons in Hf as [_ Hf].
  split_and!; [done|lia|done].
Qed.

Lemma elems_entries st t es : 0 <= iplog_next st < iplog_size st -> entries_of st t es -> elems t ≡ₚ es.
Proof.
  intros Hn ((_ & _ & Hb & Hnd) & Hs & Hp). apply NoDup_Permutation.
  - by eapply NoDup_fmap_1.
  - apply (NoDup_fmap_1 fst). rewrite Hs. by apply used_slots_NoDup.
  - intros x. transitivity (x ∈ path (fst (snd x)) t).
    + split; [by intros; apply path_complete|]. by intros [? _]%path_elem.
    + rewrite Hp, list_elem_of_filter. tauto.
Qed.

(** ** Adding an entry *)

Lemma log_tree_next st t : log_tree st t -> log_tree (next_slot st) t.
Proof. unfold next_slot. by destruct (_ =? _). Qed.

Lemma next_slot_heap st : iplogs (next_slot st) = iplogs st /\ iplog_size (next_slot st) = iplog_size st.
Proof. unfold next_slot. by destruct (_ =? _). Qed.

Lemma filter_not_head p (e : entry) es : p ∉ es.*1 -> filter (fun x : Z * entry => fst x <> p) ((p, e) :: es) = es.
Proof.
  intros H. rewrite filter_cons_False by (simpl; tauto). apply filter_all, Forall_forall. intros x Hx <-.
  apply H, list_elem_of_fmap. eauto.
Qed.

Lemma filter_comm {A} (P Q : A -> Prop) `{!forall x, Decision (P x), !forall x, Decision (Q x)} (l : list A) :
  filter P (filter Q l) = filter Q (filter P l).
Proof.
  induction l as [|x l IH]; [done|]. rewrite !filter_cons. destruct (decide (P x)), (decide (Q x)); rewrite ?filter_cons;
    repeat case_decide; try done; by rewrite ?IH.
Qed.

(** The oldest entry of a log that has run full leaves. *)
Lemma evict_ok st t p e es : 0 <= iplog_next st < iplog_size st -> log_tree st t ->
  p :: es.*1 = p :: used_slots st -> p = slot (iplog_next st) -> elems t ≡ₚ (p, e) :: es ->
  (forall a, path a t = filter (fun x => fst (snd x) = a) ((p, e) :: es)) ->
  exists t' st', IPLog_Delete p st = Ok st' /\ same_slots st st' /\ entries_of st' t' es.
Proof.
  intros Hn Ht Hs -> Hperm Hp. injection Hs as Hs.
  destruct (delete_ok st t (slot (iplog_next st)) Ht) as (t' & st' & e' & E & Ht' & Hsame & Hperm' & Hp').
  { rewrite Hperm. left. }
  exists t', st'. split; [done|]. split; [done|]. pose proof Hsame as (H1 & H2 & H3 & _). split; [done|]. split.
  - rewrite Hs. unfold used_slots. by rewrite H1, H2, H3.
  - intros a. rewrite Hp', Hp, filter_comm, filter_not_head; [done|]. rewrite Hs. intros H%used_slots_elem; [|done]. tauto.
Qed.

Lemma insert_ok st ctx es a nm : represents st es.*2 -> entries_of st (plug ctx Leaf) es -> fits a ctx ->
  queue_ok (es.*2 ++ [(a, nm)]) ->
  let q' := es.*2 ++ [(a, nm)] in
  exists st', insert_entry a nm (hole_parent 0 ctx) (hole_side ctx) st = Ok st' /\ iplog_size st' = iplog_size st /\
    represents st' (if zlen q' =? iplog_size st then tail q' else q').
Proof.
  intros (Hn & Hdom & _ & _) Hent Hfit Hq q'. pose proof Hent as (Hlog & Hs & Hp). set (new := slot (iplog_next st)).
  pose proof (elems_entries _ _ _ Hn Hent) as Hperm.
  assert (Hnew : new <> 0 /\ is_Some (iplogs st !! new)).
  { split; [unfold new, slot; lia|]. apply elem_of_dom. rewrite Hdom. apply elem_of_list_to_set, all_slots_elem. unfold new, slot. lia. }
  assert (Hnn : new ∉ nodes (plug ctx Leaf)).
  { rewrite Hperm, Hs. intros H%used_slots_elem; [|done]. tauto. }
  destruct (place_ok st ctx (a, nm) new Hlog Hfit) as (st1 & E & Hlog1 & Hsame1); [tauto|tauto|done|].
  pose proof Hsame1 as (S1 & S2 & S3 & S4).
  assert (Hu1 : used_slots st1 = used_slots st) by (unfold used_slots; by rewrite S1, S2, S3).
  unfold insert_entry. fold new. cbn [fst snd] in E.
  destruct (if hole_parent 0 ctx =? 0 then _ else _) as [sta|]; [|done]. cbn [mbind res_bind] in E |- *. rewrite E. cbn [mbind res_bind].
  set (leaf := Node new (a, nm) Leaf Leaf) in *.
  assert (Hperm1 : elems (plug ctx leaf) ≡ₚ es ++ [(new, (a, nm))]).
  { rewrite elems_plug in Hperm |- *. simpl in *. by rewrite app_nil_r in Hperm; rewrite Hperm. }
  assert (Hp1 : forall b, path b (plug ctx leaf) = filter (fun x => fst (snd x) = b) (es ++ [(new, (a, nm))])).
  { intros b. unfold leaf. rewrite path_insert by done. rewrite Hp, filter_app. f_equal. rewrite filter_cons. simpl.
    destruct (Z.eqb_spec a b); case_decide; done. }
  destruct (next_slot_heap st1) as [Hheap Hsz]. set (st2 := next_slot st1) in *.
  destruct (used_slots_next st1 ltac:(lia)) as [Hn2 Hnext]. fold st2 in Hn2, Hnext. rewrite Hu1, S2 in Hnext.
  assert (Hlen : zlen q' = zlen (used_slots st) + 1) by (unfold q'; rewrite <- Hs, length_app, !length_fmap; simpl; lia).
  assert (Hlen2 : if iplog_full st2 then zlen q' = iplog_size st else zlen q' <> iplog_size st).
  { pose proof (used_slots_length st2 Hn2) as Hl2.
    destruct (iplog_full st2); apply (f_equal length) in Hnext; rewrite length_app in Hnext; simpl in Hnext; lia. }
  assert (Hlog2 : log_tree st2 (plug ctx leaf)) by by apply log_tree_next.
  assert (Hdom2 : dom (iplogs st2) = list_to_set (all_slots (iplog_size st2))) by (rewrite Hheap, Hsz, S4, S1; done).
  assert (Hes2 : (es ++ [(new, (a, nm))]).*1 = used_slots st ++ [new]) by (rewrite fmap_app, Hs; done).
  assert (Hq2 : (es ++ [(new, (a, nm))]).*2 = q') by (unfold q'; by rewrite fmap_app).
  destruct (iplog_full st2) eqn:Efull.
  - rewrite Hlen2, Z.eqb_refl.
    destruct (es ++ [(new, (a, nm))]) as [|[p e] es2] eqn:Ees; [by destruct es|].
    fold new in Hnext. rewrite Hnext, fmap_cons in Hes2. cbn [fst] in Hes2. injection Hes2 as Hp0 Hes2.
    destruct (evict_ok st2 (plug ctx leaf) p e es2) as (t' & st' & E2 & (T1 & T2 & T3 & T4) & Hent'); auto; [by rewrite Hes2|].
    rewrite <- Hp0, E2. exists st'. split; [done|]. split; [congruence|]. rewrite <- Hq2. simpl.
    split; [lia|]. split; [by rewrite T4, T1|]. split; [|by exists t', es2].
    apply queue_ok_tail in Hq. change (es.*2 ++ [(a, nm)]) with q' in Hq. by rewrite <- Hq2 in Hq.
  - rewrite (proj2 (Z.eqb_neq _ _)) by done. exists st2. split; [done|]. split; [congruence|].
    split; [done|]. split; [done|]. split; [done|]. exists (plug ctx leaf), (es ++ [(new, (a, nm))]).
    split; [|done]. split; [done|]. split; [|done]. by rewrite Hes2, <- Hnext.
Qed.

Lemma strip_strip l : strip (strip l) = strip l.
Proof. induction l as [|c l IH]; [done|]. simpl. destruct (c =? 32) eqn:E; [done|]. simpl. by rewrite E. Qed.

Lemma strip_suffix l : exists k, l = k ++ strip l.
Proof.
  induction l as [|c l [k IH]]; [by exists []|]. simpl. destruct (c =? 32); [|by exists []]. exists (c :: k). simpl. congruence.
Qed.

Lemma trim_good name : is_cstr name -> trim name <> [] -> good_name (trim name).
Proof.
  intros Hc Hne. assert (Hsub : exists k, trim name ++ k = take 15 name).
  { destruct (strip_suffix (reverse (take 15 name))) as [k Hk]. exists (reverse k). unfold trim.
    rewrite <- reverse_app, <- Hk. apply reverse_involutive. }
  destruct Hsub as [k Hk]. split; [done|]. split.
  - unfold is_cstr in *. apply (Forall_take _ 15) in Hc. rewrite <- Hk in Hc. by apply Forall_app in Hc as [? _].
  - assert (Hlen : (length (trim name) <= 15)%nat).
    { apply (f_equal length) in Hk. rewrite length_app, length_take in Hk. lia. }
    unfold trim at 1. rewrite take_ge by done. unfold trim. by rewrite reverse_involutive, strip_strip.
Qed.

Lemma tmap_entries st st' g t es : entries_of st t es -> touches (nodes t) st st' ->
  (forall p x, iplogs st !! p = Some x -> iplogs st' !! p = Some (set_ip_name (g p (ip_name x)) x)) ->
  entries_of st' (tmap g t) (relabel g <$> es).
Proof.
  intros ((Hh & Hr & Hb & Hnd) & Hs & Hp) ((S1 & S2 & S3 & S4) & _ & _) Hn. split; [split_and!|split].
  - apply (heap_tmap g (iplogs st)); [done|]. intros p n _. apply Hn.
  - by rewrite root_tmap, S4.
  - by apply bst_tmap.
  - by rewrite nodes_tmap.
  - unfold used_slots. rewrite S1, S2, S3. rewrite <- list_fmap_compose. exact Hs.
  - intros a. by rewrite path_tmap, Hp, filter_relabel.
Qed.

Lemma NoDup_filter_fst (P : Z * entry -> Prop) `{!forall x, Decision (P x)} (es : list (Z * entry)) :
  NoDup es.*1 -> NoDup (filter P es).*1.
Proof.
  induction es as [|x es IH]; [done|]. rewrite fmap_cons, filter_cons. intros [Hx Hnd]%NoDup_cons.
  case_decide; [|auto]. rewrite fmap_cons. constructor; [|auto]. intros Hin. apply Hx.
  apply list_elem_of_fmap in Hin as (y & -> & Hy). apply list_elem_of_filter in Hy as [_ Hy]. apply list_elem_of_fmap. eauto.
Qed.

Lemma shift_full st t es a nm : represents st es.*2 -> entries_of st t es -> nm ∉ names a es.*2 -> good_name nm ->
  length (path a t) = MAX_REPITITION ->
  exists st', shift_names (path a t).*1 nm st = Ok st' /\ iplog_size st' = iplog_size st /\
    represents st' (rename a (tail (names a es.*2) ++ [nm]) es.*2).
Proof.
  intros (Hn & Hdom & Hq & _) Hent Hnm Hg Hl. pose proof Hent as ((Hh & _ & _ & Hnd) & Hs & Hp).
  assert (Hnames : names a es.*2 = (path a t).*2.*2) by (by rewrite Hp, names_path).
  assert (Hnl : length (names a es.*2) = MAX_REPITITION) by (by rewrite Hnames, !length_fmap).
  assert (Hsub : forall x, x ∈ path a t -> x ∈ es) by (intros x; rewrite Hp, list_elem_of_filter; tauto).
  assert (Hnde : NoDup es.*1) by (rewrite Hs; by apply used_slots_NoDup).
  destruct (shift_ok nm (path a t).*1 (path a t).*2.*2 st) as (st' & E & HT & Hst').
  { intros H. apply (f_equal length) in H. rewrite length_fmap, Hl in H. done. }
  { rewrite Hp. by apply NoDup_filter_fst. }
  { rewrite Forall2_fmap_l, <- list_fmap_compose, Forall2_fmap_r. apply Forall_Forall2_diag, Forall_forall.
    intros x Hx. destruct (path_elem _ _ _ Hx) as [Hx' _]. 
    destruct (heap_elem _ _ _ _ Hh Hx') as (par & c0 & c1 & Hx''). eexists. by split; [exact Hx''|]. }
  exists st'. split; [done|]. pose proof HT as ((S1 & S2 & S3 & S4) & S5 & _). split; [done|].
  split; [lia|]. split; [by rewrite S5, S1|]. split; [by apply queue_ok_rename|].
  eexists _, _. split.
  - eapply tmap_entries; [exact Hent| |exact Hst']. eapply touches_weaken; [exact HT|].
    intros p. rewrite !list_elem_of_fmap. intros (x & -> & Hx). apply path_elem in Hx as [Hx _]. eauto.
  - rewrite <- Hnames, Hp. apply relabel_rename; [done|]. rewrite <- Hp, Hl, length_app.
    destruct (names a es.*2); [done|]. simpl in *. lia.
Qed.

Lemma IPLog_Add_ok st q a name : represents st q -> is_cstr name -> is_int a ->
  exists st', IPLog_Add a name st = Ok st' /\ iplog_size st' = iplog_size st /\
    represents st' (if bool_decide (trim name = []) then q else add_entry (iplog_size st) a (trim name) q).
Proof.
  intros Hrep Hc Ha. pose proof Hrep as (Hn & Hdom & Hq & t & es & Hent & <-). unfold IPLog_Add.
  rewrite (proj2 (Z.eqb_neq _ _)) by lia. case_bool_decide as Hne; [eauto|].
  pose proof (trim_good name Hc Hne) as Hg. set (nm := trim name) in *.
  pose proof Hent as ((Hh & Hr & _ & Hnd) & Hs & Hp). pose proof (nodes_in_dom _ _ _ Hh Hnd) as Hsz.
  assert (Hnames : names a es.*2 = (path a t).*2.*2) by (by rewrite Hp, names_path).
  assert (Hlen : length (names a es.*2) = length (path a t)) by (by rewrite Hnames, !length_fmap).
  assert (Hmax : (length (path a t) <= MAX_REPITITION)%nat) by (rewrite <- Hlen; apply Hq).
  destruct (find_ok st a nm t Hh Hr (log_fuel st) t [] []) as (w & E & Hw); try done; [constructor|unfold log_fuel; lia|simpl; unfold MAX_REPITITION; lia|].
  cbn [hole_parent hole_side foldl] in E. rewrite E. cbn [mbind res_bind]. unfold add_entry. rewrite Hlen, Hnames.
  destruct w as [|l|par side]; cbn [found] in Hw.
  - rewrite bool_decide_true by done. eauto.
  - destruct Hw as (Hnm & -> & Hl). rewrite length_app, length_fmap in Hl. simpl in Hl.
    rewrite bool_decide_false by done. rewrite Hl, Nat.eqb_refl. rewrite <- Hnames. apply shift_full; try done. by rewrite Hnames.
  - destruct Hw as (Hnm & Hl & ctx & -> & Hfit & -> & ->). simpl in Hl. rewrite bool_decide_false by done.
    rewrite (proj2 (Nat.eqb_neq _ _)) by lia. apply insert_ok; try done.
    apply queue_ok_push; try done; [by rewrite Hnames|lia].
Qed.

(** ** Reading the log *)

Lemma identify_ok st a : forall fuel t par, heap_tree (iplogs st) par t -> (length (elems t) < fuel)%nat ->
  identify_loop fuel st a (root t) = Ok (path a t).*2.*2.
Proof.
  induction fuel as [|fuel IH]; intros t par Ht Hf; [lia|]. destruct t as [|p e l r]; [done|].
  destruct Ht as (Hp & Hn & Hl & Hr). cbn [elems] in Hf. rewrite length_app in Hf. simpl in Hf.
  cbn [root identify_loop]. rewrite (proj2 (Z.eqb_neq _ _) Hp), (ip_at_ok _ _ _ Hn). cbn [mbind res_bind ip_addr ip_name path].
  assert (Hc : identify_loop fuel st a (child (fst e <? a) (IPL (fst e) (snd e) par (root l) (root r)))
             = Ok (path a (if fst e <? a then r else l)).*2.*2).
  { destruct (fst e <? a); simpl; (eapply IH; [done|lia]). }
  rewrite Hc. simpl. destruct (fst e =? a); done.
Qed.

Lemma dump_ok st : forall fuel t par, heap_tree (iplogs st) par t -> (length (elems t) < fuel)%nat ->
  IPLog_DumpTree fuel st (root t) = Ok (elems t).*2.
Proof.
  induction fuel as [|fuel IH]; intros t par Ht Hf; [lia|]. destruct t as [|p e l r]; [done|].
  destruct Ht as (Hp & Hn & Hl & Hr). cbn [elems] in Hf. rewrite length_app in Hf. simpl in Hf.
  cbn [root IPLog_DumpTree]. rewrite (proj2 (Z.eqb_neq _ _) Hp), (ip_at_ok _ _ _ Hn). cbn [mbind res_bind child0 child1].
  rewrite (IH l p Hl) by lia. rewrite (IH r p Hr) by lia. simpl. rewrite fmap_app. by destruct e.
Qed.

(** Entries in the order of their addresses. *)
Definition by_address (l : list entry) : Prop := StronglySorted (fun x y => fst x <= fst y) l.

Lemma bst_sorted t : bst t -> by_address (elems t).*2.
Proof.
  unfold by_address. induction t as [|p e l IHl r IHr]; [constructor|]. simpl. intros (Hl & Hr & Ha & Hb).
  rewrite fmap_app, fmap_cons. cbn [snd]. apply StronglySorted_app_2.
  - intros x y Hx Hy. apply list_elem_of_fmap in Hx as (x' & -> & Hx). rewrite Forall_forall in Ha, Hb. specialize (Ha _ Hx).
    apply elem_of_cons in Hy as [->|Hy]; [done|]. apply list_elem_of_fmap in Hy as (y' & -> & Hy). specialize (Hb _ Hy). lia.
  - auto.
  - constructor; [auto|]. apply Forall_fmap. eapply Forall_impl; [exact Hb|]. simpl. lia.
Qed.

(** ** Files *)

Definition records (q : list entry) : bytes := concat ((fun e => record_bytes (fst e) (snd e)) <$> q).

Lemma records_cons e q : records (e :: q) = record_bytes (fst e) (snd e) ++ records q.
Proof. done. Qed.

Lemma records_app q1 q2 : records (q1 ++ q2) = records q1 ++ records q2.
Proof. unfold records. by rewrite fmap_app, concat_app. Qed.

Lemma write_ok st t par : heap_tree (iplogs st) par t -> forall es i, (forall x, x ∈ es -> x ∈ elems t) ->
  es.*1 = slot <$> seqZ i (zlen es) -> write_slots (length es) i st = Ok (records es.*2).
Proof.
  intros Hh. induction es as [|x es IH]; intros i Hin Hs; [done|]. rewrite fmap_cons in Hs. cbn [length] in Hs |- *.
  rewrite seqZ_cons in Hs by lia. rewrite fmap_cons in Hs. injection Hs as Hx Hs.
  destruct (heap_elem _ _ _ _ Hh (Hin x ltac:(left))) as (p' & c0 & c1 & Hn). rewrite Hx in Hn.
  cbn [write_slots]. rewrite (ip_at_ok _ _ _ Hn). cbn [mbind res_bind ip_addr ip_name].
  rewrite IH; [done| |].
  - intros y Hy. apply Hin. by right.
  - rewrite Hs. do 2 f_equal; lia.
Qed.

Lemma log_file_ok st q : represents st q -> log_file st = Ok (records q).
Proof.
  intros (Hn & _ & _ & t & es & Hent & <-). pose proof (elems_entries _ _ _ Hn Hent) as Hperm.
  destruct Hent as ((Hh & _) & Hs & _). unfold used_slots in Hs. unfold log_file.
  assert (Hin : forall x, x ∈ es -> x ∈ elems t) by (intros x; by rewrite Hperm).
  destruct (iplog_full st).
  - rewrite fmap_app in Hs. set (A := seqZ _ _) in Hs. set (B := seqZ 0 _) in Hs.
    assert (HA : (take (length A) es).*1 = slot <$> A) by (rewrite fmap_take, Hs, take_app_length'; [done|by rewrite length_fmap]).
    assert (HB : (drop (length A) es).*1 = slot <$> B) by (rewrite fmap_drop, Hs, drop_app_length'; [done|by rewrite length_fmap]).
    assert (LA : zlen (take (length A) es) = iplog_size st - iplog_next st - 1).
    { apply (f_equal length) in HA. rewrite !length_fmap in HA. rewrite HA. unfold A. rewrite length_seqZ. lia. }
    assert (LB : zlen (drop (length A) es) = iplog_next st).
    { apply (f_equal length) in HB. rewrite !length_fmap in HB. rewrite HB. unfold B. rewrite length_seqZ. lia. }
    replace (Z.to_nat (iplog_size st - (iplog_next st + 1))) with (length (take (length A) es)) by lia.
    rewrite (write_ok st t 0 Hh); [| |by rewrite HA, LA].
    + cbn [mbind res_bind]. replace (Z.to_nat (iplog_next st)) with (length (drop (length A) es)) by lia.
      rewrite (write_ok st t 0 Hh); [| |by rewrite HB, LB].
      * cbn. by rewrite <- records_app, <- fmap_app, take_drop.
      * intros x Hx. apply Hin. rewrite <- (take_drop (length A) es). apply elem_of_app. by right.
    + intros x Hx. apply Hin. rewrite <- (take_drop (length A) es). apply elem_of_app. by left.
  - assert (L : zlen es = iplog_next st).
    { apply (f_equal length) in Hs. rewrite !length_fmap, length_seqZ in Hs. lia. }
    cbn [mbind res_bind mret]. replace (Z.to_nat (iplog_next st)) with (length es) by lia.
    unfold mret, res_ret. cbn [mbind res_bind]. rewrite (write_ok st t 0 Hh es 0); [done|done|]. by rewrite Hs, L.
Qed.

(** Adding records one after the other. *)
Definition add_all (size : Z) (q rs : list entry) : list entry :=
  foldl (fun q e => if bool_decide (trim (snd e) = []) then q else add_entry size (fst e) (trim (snd e)) q) q rs.

Definition record_ok (e : entry) : Prop := is_int (fst e) /\ is_cstr (snd e) /\ (length (snd e) <= 15)%nat.

Lemma until0_pad nm n : is_cstr nm -> until0 (nm ++ replicate (S n) 0) = nm.
Proof.
  induction 1 as [|c nm Hc _ IH]; [done|]. cbn [app until0]. rewrite (proj2 (Z.eqb_neq _ _)) by lia. by rewrite IH.
Qed.

Lemma read_ok rs : forall fuel st q rest, represents st q -> Forall record_ok rs -> (length rest < 20)%nat ->
  (length rs < fuel)%nat ->
  exists st', add_records fuel (records rs ++ rest) st = Ok st' /\ iplog_size st' = iplog_size st /\
    represents st' (add_all (iplog_size st) q rs).
Proof.
  induction rs as [|e rs IH]; intros fuel st q rest Hrep Hrs Hrest Hf; (destruct fuel as [|fuel]; [simpl in Hf; lia|]).
  - exists st. split; [|done]. cbn [records fmap list_fmap concat app add_records].
    destruct rest as [|b0 [|b1 [|b2 [|b3 rest]]]]; try done. simpl in Hrest.
    rewrite (proj2 (Nat.leb_gt _ _)) by lia. done.
  - apply Forall_cons in Hrs as [(Hi & Hc & Hl) Hrs]. rewrite records_cons, <- app_assoc.
    unfold record_bytes. rewrite <- !app_assoc. unfold long_bytes at 1. cbn [app add_records].
    assert (Htake : forall r, take 16 (snd e ++ replicate (16 - length (snd e)) 0 ++ r) = snd e ++ replicate (16 - length (snd e)) 0).
    { intros r. rewrite app_assoc. apply take_app_length'. rewrite length_app, length_replicate. lia. }
    assert (Hdrop : forall r, drop 16 (snd e ++ replicate (16 - length (snd e)) 0 ++ r) = r).
    { intros r. rewrite app_assoc. apply drop_app_length'. rewrite length_app, length_replicate. lia. }
    rewrite (proj2 (Nat.leb_le _ _)) by (rewrite !length_app, length_replicate; lia).
    rewrite Htake, Hdrop. replace (16 - length (snd e))%nat with (S (15 - length (snd e))) by lia. rewrite until0_pad by done.
    rewrite long_bytes_id by (unfold is_int, INT_MIN, INT_MAX in Hi; lia).
    destruct (IPLog_Add_ok st q (fst e) (snd e) Hrep Hc Hi) as (st1 & E & Hsz & Hrep1). rewrite E. cbn [mbind res_bind].
    destruct (IH fuel st1 _ rest Hrep1 Hrs Hrest) as (st2 & E2 & Hsz2 & Hrep2); [simpl in Hf; lia|].
    exists st2. split; [done|]. split; [congruence|]. rewrite Hsz in Hrep2. exact Hrep2.
Qed.

Lemma fresh_represents size g : 0 < size -> represents (fresh_log size g) [].
Proof.
  intros H. split; [simpl; lia|]. split; [|split].
  - cbn [iplogs fresh_log iplog_size]. unfold empty_slots. rewrite dom_list_to_map_L.
    apply set_eq. intros p. rewrite !elem_of_list_to_set, all_slots_elem, <- list_fmap_compose, list_elem_of_fmap. split.
    + intros (i & -> & Hi). apply elem_of_seq in Hi. simpl. unfold slot. lia.
    + intros Hp. exists (Z.to_nat (p - 1)). rewrite elem_of_seq. simpl. unfold slot. lia.
  - split; [|constructor]. intros a. unfold names. cbn. split_and!; [constructor|lia|constructor].
  - exists Leaf, []. split; [|done]. split; [|by split]. split; [done|]. split; [done|]. split; [done|constructor].
Qed.

Fixpoint add_list (es : list entry) (st : logst) : res logst :=
  match es with [] => mret st | e :: es => st ← IPLog_Add (fst e) (snd e) st; add_list es st end.

Lemma add_list_ok es : forall st q, represents st q -> Forall (fun e => is_int (fst e) /\ is_cstr (snd e)) es ->
  exists st', add_list es st = Ok st' /\ represents st' (add_all (iplog_size st) q es).
Proof.
  induction es as [|e es IH]; intros st q Hrep Hes; [by exists st|]. apply Forall_cons in Hes as [[Hi Hc] Hes].
  destruct (IPLog_Add_ok st q (fst e) (snd e) Hrep Hc Hi) as (st1 & E & Hsz & Hrep1). cbn [add_list]. rewrite E. cbn [mbind res_bind].
  destruct (IH st1 _ Hrep1 Hes) as (st2 & E2 & Hrep2). exists st2. split; [done|]. rewrite Hsz in Hrep2. exact Hrep2.
Qed.

Lemma Identify_ok st q a : represents st q -> IPLog_Identify a st = Ok (names a q).
Proof.
  intros (_ & _ & _ & t & es & ((Hh & Hr & _ & Hnd) & _ & Hp) & <-). unfold IPLog_Identify. rewrite <- Hr.
  rewrite (identify_ok _ _ _ _ _ Hh); [by rewrite names_path, Hp|]. pose proof (nodes_in_dom _ _ _ Hh Hnd). unfold log_fuel. lia.
Qed.

Lemma Dump_ok st q : represents st q -> exists l, IPLog_Dump st = Ok l /\ l ≡ₚ q /\ by_address l.
Proof.
  intros (Hn & _ & _ & t & es & Hent & <-). pose proof (elems_entries _ _ _ Hn Hent) as Hperm.
  destruct Hent as ((Hh & Hr & Hb & Hnd) & _ & _). exists (elems t).*2. split; [|split; [by rewrite Hperm|by apply bst_sorted]].
  unfold IPLog_Dump. rewrite <- Hr. eapply dump_ok; [done|]. pose proof (nodes_in_dom _ _ _ Hh Hnd). unfold log_fuel. lia.
Qed.

(** Entries that are added to an empty log in the order of a queue make that queue. *)
Lemma add_all_queue size q : forall pre, queue_ok (pre ++ q) -> zlen (pre ++ q) < size -> add_all size pre q = pre ++ q.
Proof.
  induction q as [|[a nm] q IH]; intros pre [Hq Hi] Hl; [by rewrite app_nil_r|]. cbn [add_all foldl fst snd].
  destruct (Hq a) as (Hnd & Hlen & Hg). rewrite names_app, names_cons in Hnd, Hlen, Hg. cbn [fst snd] in Hnd, Hlen, Hg.
  rewrite Z.eqb_refl in Hnd, Hlen, Hg. cbn [app] in Hnd, Hlen, Hg.
  apply Forall_app in Hg as [_ Hg]. apply Forall_cons in Hg as [(Hne & _ & Ht) _]. rewrite Ht, bool_decide_false by done.
  assert (Hstep : add_entry size a nm pre = pre ++ [(a, nm)]).
  { unfold add_entry. rewrite bool_decide_false.
    - rewrite length_app in Hlen. simpl in Hlen. rewrite (proj2 (Nat.eqb_neq _ _)) by lia. cbn zeta.
      rewrite length_app in Hl. simpl in Hl. rewrite length_app. simpl. rewrite (proj2 (Z.eqb_neq _ _)) by lia. done.
    - intros Hin. apply NoDup_app in Hnd as (_ & Hd & _). apply (Hd nm Hin). left. }
  rewrite Hstep. change (foldl _ ?x q) with (add_all size x q). rewrite (cons_middle _ pre q), app_assoc in Hl |- *.
  apply IH; [|done]. rewrite cons_middle, app_assoc in Hi. split; [|done]. intros b. specialize (Hq b). by rewrite cons_middle, app_assoc in Hq.
Qed.

Lemma queue_records q : queue_ok q -> Forall record_ok q.
Proof.
  intros [Hq Hi]. apply Forall_forall. intros e He. split; [|].
  - rewrite Forall_forall in Hi. apply Hi, list_elem_of_fmap. eauto.
  - destruct (Hq (fst e)) as (_ & _ & Hg). rewrite Forall_forall in Hg.
    destruct (Hg (snd e)) as (_ & Hc & Ht).
    { apply list_elem_of_fmap. exists e. split; [done|]. by apply list_elem_of_filter. }
    split; [done|]. rewrite <- Ht. unfold trim. rewrite length_reverse.
    destruct (strip_suffix (reverse (take 15 (snd e)))) as [k Hk]. apply (f_equal length) in Hk.
    rewrite length_app, length_reverse, length_take in Hk. lia.
Qed.

Lemma records_length q : Forall record_ok q -> length (records q) = (20 * length q)%nat.
Proof.
  induction 1 as [|e q (_ & _ & Hl) _ IH]; [done|]. rewrite records_cons, length_app, IH.
  unfold record_bytes. rewrite !length_app, length_replicate. unfold long_bytes. cbn [length]. lia.
Qed.

Lemma read_file_ok st q rs : represents st q -> Forall record_ok rs ->
  exists st', read_file (records rs) st = Ok st' /\ iplog_size st' = iplog_size st /\
    represents st' (add_all (iplog_size st) q rs).
Proof.
  intros Hrep Hrs. unfold read_file. rewrite records_length by done.
  rewrite <- (app_nil_r (records rs)). apply read_ok; [done|done|simpl; lia|lia].
Qed.

Lemma plain_spec c : plain c = of_option (Undefined "load outside the object") (unfun !! Z.to_nat (c & 127)).
Proof.
  unfold plain, load1. rewrite (proj2 (Z.leb_le _ _)); [done|]. apply Z.land_nonneg. right. lia.
Qed.

Lemma plain_total c : exists x, plain c = Ok x.
Proof.
  rewrite plain_spec. destruct (lookup_lt_is_Some_2 unfun (Z.to_nat (c & 127))) as [x Hx]; [|rewrite Hx; eauto].
  change 127 with (Z.ones 7). rewrite Z.land_ones by lia. change (length unfun) with 128%nat. pose proof (Z.mod_pos_bound c (2 ^ 7) ltac:(lia)). lia.
Qed.

Lemma unfun_at_total s1 s2 : forall k, (k + length s1 <= length s2)%nat -> exists b, unfun_at s1 s2 (Z.of_nat k) = Ok b.
Proof.
  induction s1 as [|c s1 IH]; intros k Hk; [by exists true|]. cbn [unfun_at length] in Hk |- *.
  destruct (plain_total c) as [x ->]. cbn [mbind res_bind]. unfold load1 at 1. rewrite (proj2 (Z.leb_le _ _)), Nat2Z.id by lia.
  destruct (lookup_lt_is_Some_2 s2 k) as [d Hd]; [lia|]. rewrite Hd. cbn [of_option mbind res_bind].
  destruct (plain_total d) as [y ->]. cbn [mbind res_bind]. destruct (x =? y); [|by exists false].
  replace (Z.of_nat k + 1) with (Z.of_nat (S k)) by lia. apply IH. lia.
Qed.

Lemma unfun_at_match s1 : forall v s2 k rest, ((fun c => c & 127) <$> v) = ((fun c => c & 127) <$> s1) ->
  drop k s2 = v ++ rest -> unfun_at s1 s2 (Z.of_nat k) = Ok true.
Proof.
  induction s1 as [|c s1 IH]; intros v s2 k rest Hv Hd; [done|].
  destruct v as [|d v]; [done|]. rewrite !fmap_cons in Hv. injection Hv as Hcd Hv. cbn [unfun_at].
  assert (Hk : s2 !! k = Some d) by (rewrite <- (Nat.add_0_r k), <- lookup_drop, Hd; done).
  unfold load1. rewrite (proj2 (Z.leb_le _ _)), Nat2Z.id, Hk by lia. cbn [of_option mbind res_bind].
  assert (Hp : plain d = plain c) by (by rewrite !plain_spec, Hcd). rewrite Hp.
  destruct (plain_total c) as [x ->]. cbn [mbind res_bind]. rewrite Z.eqb_refl.
  replace (Z.of_nat k + 1) with (Z.of_nat (S k)) by lia. apply (IH v s2 (S k) rest Hv).
  rewrite <- Nat.add_1_r, <- drop_drop, Hd. done.
Qed.

(** * Properties *)

(** C19: The tree of addresses implements a bounded queue.  After any sequence of additions to a new
    log the search for an address prints exactly the names the queue has for it, the oldest
    first: each name once, at most 64 of them, without those that have been displaced by later
    entries; and the dump prints all entries of the queue in the order of their addresses.  No
    addition fails, whatever the random numbers of the merges are. *)
Theorem iplog_is_queue size g es a :
  0 < size -> Forall (fun e => is_int (fst e) /\ is_cstr (snd e)) es ->
  let q := add_all size [] es in
  queue_ok q /\
  exists st l, add_list es (fresh_log size g) = Ok st /\
    IPLog_Identify a st = Ok (names a q) /\ IPLog_Dump st = Ok l /\ l ≡ₚ q /\ by_address l.
Proof.
  intros Hs Hes q. destruct (add_list_ok es _ _ (fresh_represents size g Hs) Hes) as (st & E & Hrep).
  cbn [iplog_size fresh_log] in Hrep. fold q in Hrep. split; [apply Hrep|].
  destruct (Dump_ok st q Hrep) as (l & Hl). exists st, l. split; [done|]. split; [by apply Identify_ok|done].
Qed.

(** Writing the log merges the entries of the file that is there into it and leaves a file that
    a new log of at least the same size reads back to the same queue, so the same names are found
    for every address. *)
Theorem IPLog_file_roundtrip st q rs size g a :
  represents st q -> Forall record_ok rs -> iplog_size st <= size ->
  exists file st' st2, let q' := add_all (iplog_size st) q rs in
    IPLog_WriteLog (Some (records rs)) st = Ok (Some file, st') /\ represents st' q' /\
    read_file file (fresh_log size g) = Ok st2 /\ represents st2 q' /\ IPLog_Identify a st2 = Ok (names a q').
Proof.
  intros Hrep Hrs Hsize. destruct (read_file_ok st q rs Hrep Hrs) as (st' & E & Hsz & Hrep').
  pose proof Hrep' as (Hn & _ & Hq & t & es & Hent & Hes). set (q' := add_all (iplog_size st) q rs) in *.
  assert (Hlen : zlen q' < size).
  { destruct Hent as (_ & Hs & _). rewrite <- Hes, length_fmap, <- (length_fmap fst), Hs, used_slots_length by done.
    destruct (iplog_full st'); lia. }
  destruct (read_file_ok (fresh_log size g) [] q' (fresh_represents size g ltac:(lia)) (queue_records _ Hq)) as (st2 & E2 & _ & Hrep2).
  cbn [iplog_size fresh_log] in Hrep2. rewrite add_all_queue in Hrep2 by done.
  exists (records q'), st', st2. split; [|split; [done|split; [done|split; [done|by apply Identify_ok]]]].
  unfold IPLog_WriteLog. rewrite (proj2 (Z.eqb_neq _ _)) by lia. rewrite E. cbn [mbind res_bind].
  by rewrite (log_file_ok _ _ Hrep').
Qed.

(** A search for a part of a name never looks at a byte outside the array that holds the name,
    provided the text searched for is not longer than what of the array lies behind the last
    character, and it finds every part of the name, however its characters are coloured. *)
Theorem unfun_match_finds u v w pad s1 :
  is_cstr (u ++ v ++ w) -> s1 <> [] ->
  ((fun c => c & 127) <$> v) = ((fun c => c & 127) <$> s1) -> (length s1 <= S (length pad))%nat ->
  unfun_match s1 ((u ++ v ++ w) ++ 0 :: pad) = Ok true.
Proof.
  intros Hname Hne Hv Hroom. set (s2 := (u ++ v ++ w) ++ 0 :: pad).
  assert (Hlv : length v = length s1) by (apply (f_equal length) in Hv; by rewrite !length_fmap in Hv).
  assert (Hlen : length s2 = (length u + (length v + length w) + S (length pad))%nat) by (unfold s2; rewrite !length_app; done).
  assert (Hpos : (0 < length s1)%nat) by (destruct s1; [done|simpl; lia]).
  assert (Hfrom : forall fuel k, (length u < k + fuel)%nat -> (k <= length u)%nat -> unfun_from fuel s1 s2 (Z.of_nat k) = Ok true).
  { induction fuel as [|fuel IH]; intros k Hf Hk; [lia|]. cbn [unfun_from].
    destruct (lookup_lt_is_Some_2 (u ++ v ++ w) k) as [c Hc]; [rewrite !length_app; lia|].
    assert (Hck : s2 !! k = Some c) by (unfold s2; rewrite lookup_app_l by (by eapply lookup_lt_Some); done).
    unfold load1 at 1. rewrite (proj2 (Z.leb_le _ _)), Nat2Z.id, Hck by lia. cbn [of_option mbind res_bind].
    assert (c <> 0) by (unfold is_cstr in Hname; rewrite Forall_lookup in Hname; specialize (Hname _ _ Hc); lia).
    rewrite (proj2 (Z.eqb_neq _ _)) by done.
    destruct (decide (k = length u)) as [->|Hku].
    - rewrite (unfun_at_match s1 v s2 _ ((w ++ 0 :: pad))); [done|done|]. unfold s2.
      rewrite <- !app_assoc. by rewrite drop_app_length.
    - destruct (unfun_at_total s1 s2 k) as [[] E]; [lia|by rewrite E|]. rewrite E. cbn [mbind res_bind].
      replace (Z.of_nat k + 1) with (Z.of_nat (S k)) by lia. apply IH; lia. }
  apply (Hfrom _ 0%nat); lia.
Qed.

(** * Witnesses *)

Definition demo_rng : rng := Rng 42 0 0 0 0.
Definition demo_adds : list entry :=
  [(3, cs "ann"); (1, cs "bob "); (3, cs "ann"); (5, cs "cy"); (3, cs "  "); (3, cs "dan"); (1, cs "eve")].

Lemma iplog_is_queue_witness :
  exists st l, add_list demo_adds (fresh_log 5 demo_rng) = Ok st /\
    IPLog_Identify 1 st = Ok [cs "bob"; cs "eve"] /\ IPLog_Identify 3 st = Ok [cs "dan"] /\ IPLog_Dump st = Ok l /\ length l = 4%nat.
Proof.
  assert (Hes : Forall (fun e => is_int (fst e) /\ is_cstr (snd e)) demo_adds) by by_decide.
  destruct (iplog_is_queue 5 demo_rng demo_adds 1 eq_refl Hes) as (_ & st & l & E & H1 & Hd & Hp & _).
  destruct (iplog_is_queue 5 demo_rng demo_adds 3 eq_refl Hes) as (_ & st3 & l3 & E3 & H3 & _).
  rewrite E in E3. injection E3 as <-. exists st, l. split; [done|]. split; [exact H1|]. split; [exact H3|]. split; [done|].
  rewrite Hp. by_vm.
Defined.

Lemma IPLog_file_roundtrip_witness :
  exists file st' st2, IPLog_WriteLog (Some (records [(7, cs "old"); (9, cs "new")])) (fresh_log 4 demo_rng) = Ok (Some file, st') /\
    read_file file (fresh_log 8 demo_rng) = Ok st2 /\ IPLog_Identify 9 st2 = Ok [cs "new"].
Proof.
  destruct (IPLog_file_roundtrip (fresh_log 4 demo_rng) [] [(7, cs "old"); (9, cs "new")] 8 demo_rng 9) as (file & st' & st2 & E & _ & E2 & _ & Hi).
  - by apply fresh_represents.
  - by_decide.
  - by_vm.
  - exists file, st', st2. split; [exact E|]. split; [exact E2|exact Hi].
Defined.

Lemma unfun_match_finds_witness : unfun_match (cs "ob") ((cs "J" ++ [239; 226] ++ cs "!") ++ [0; 0; 0]) = Ok true.
Proof.
  apply (unfun_match_finds (cs "J") [239; 226] (cs "!") [0; 0] (cs "ob")); [by_decide|discriminate|by_vm|cbn; lia].
Defined.
