(* ===== verification/TasScript.v ===== *)
(** TAS scripts: blocks of settings at frames, and the operations that edit and play them
    (libtasquake/src/script_parse.cpp, script_playback.cpp, insertion_order_map.hpp).

    A script is a list of blocks in the order of their frames; a block sets console variables,
    presses or releases toggles, and runs commands.  A [std::vector] is a list, an index outside
    it is undefined, and so is an [int] that overflows.  Texts are in TasText.v. *)

From Stdlib Require Import SpecFloat.
From stdpp Require Import sorting.
From S2P Require Import Prelude CFloat CharConv.

(** * Maps in insertion order *)

(** C: libtasquake/include/libtasquake/insertion_order_map.hpp:10-11 values *)
Definition ordered_map (T : Type) : Type := list (bytes * T).

Section Maps.
Context {T : Type}.

(** C: libtasquake/include/libtasquake/insertion_order_map.hpp:65-74 find *)
Fixpoint om_find (k : bytes) (m : ordered_map T) : option T :=
  match m with
  | [] => None
  | (k', v) :: m => if bool_decide (k' = k) then Some v else om_find k m
  end.

(** Assigning through the reference that the subscript returns.
    C: libtasquake/include/libtasquake/insertion_order_map.hpp:13-23 values *)
Fixpoint om_set (k : bytes) (v : T) (m : ordered_map T) : ordered_map T :=
  match m with
  | [] => [(k, v)]
  | (k', v') :: m => if bool_decide (k' = k) then (k', v) :: m else (k', v') :: om_set k v m
  end.

(** C: libtasquake/include/libtasquake/insertion_order_map.hpp:84-90 erase *)
Fixpoint om_erase (k : bytes) (m : ordered_map T) : ordered_map T :=
  match m with
  | [] => []
  | x :: m => if bool_decide (fst x = k) then om_erase k m else x :: om_erase k m
  end.
End Maps.

(** * Blocks *)

(** C: libtasquake/include/libtasquake/script_parse.hpp:28-35 FrameBlock *)
Record frameblock : Type := FB {
  fb_parsed : bool;
  fb_frame : Z;
  convars : ordered_map f32;
  toggles : ordered_map bool;
  commands : list bytes
}.

Definition set_frame (f : Z) (b : frameblock) : frameblock := FB (fb_parsed b) f (convars b) (toggles b) (commands b).
Definition set_convars (c : ordered_map f32) (b : frameblock) : frameblock := FB (fb_parsed b) (fb_frame b) c (toggles b) (commands b).
Definition set_toggles (t : ordered_map bool) (b : frameblock) : frameblock := FB (fb_parsed b) (fb_frame b) (convars b) t (commands b).
Definition set_commands (c : list bytes) (b : frameblock) : frameblock := FB (fb_parsed b) (fb_frame b) (convars b) (toggles b) c.
Definition set_parsed (p : bool) (b : frameblock) : frameblock := FB p (fb_frame b) (convars b) (toggles b) (commands b).

(** C: libtasquake/src/script_parse.cpp:85-88 FrameBlock *)
Definition empty_block : frameblock := FB false 0 [] [] [].

(** C: libtasquake/src/script_parse.cpp:90-93 StackableCvar *)
Definition StackableCvar (name : bytes) : bool := negb (bool_decide (name = cs "skill")).

(** C: libtasquake/src/script_parse.cpp:95-104 Stack *)
Definition Stack (new old : frameblock) : frameblock :=
  let old := set_toggles (foldl (fun m x => om_set (fst x) (snd x) m) (toggles old) (toggles new)) old in
  set_convars (foldl (fun m x => if StackableCvar (fst x) then om_set (fst x) (snd x) m else m) (convars old) (convars new)) old.

(** C: libtasquake/src/script_parse.cpp:106-126 GetCommand *)
Definition GetCommand (b : frameblock) : bytes :=
  concat ((fun x => fst x ++ [32] ++ stream_text (snd x) ++ [59]) <$> convars b) ++
  concat ((fun x => (if snd x : bool then 43 else 45) :: fst x ++ [59]) <$> toggles b) ++
  concat ((fun c => c ++ [59]) <$> commands b).

(** C: libtasquake/src/script_parse.cpp:128-131 Add_Command *)
Definition Add_Command (line : bytes) (b : frameblock) : frameblock := set_commands (commands b ++ [line]) b.

(** C: libtasquake/src/script_parse.cpp:191-197 Reset *)
Definition Reset (b : frameblock) : frameblock := FB false (fb_frame b) [] [] [].

(** C: libtasquake/src/script_parse.cpp:215-218 HasToggle *)
Definition HasToggle (cmd : bytes) (b : frameblock) : bool := bool_decide (is_Some (om_find cmd (toggles b))).

(** C: libtasquake/src/script_parse.cpp:220-223 HasConvar *)
Definition HasConvar (name : bytes) (b : frameblock) : bool := bool_decide (is_Some (om_find name (convars b))).

(** C: libtasquake/src/script_parse.cpp:199-205 HasToggleValue *)
Definition HasToggleValue (cmd : bytes) (value : bool) (b : frameblock) : bool :=
  match om_find cmd (toggles b) with Some v => eqb v value | None => false end.

(** C: libtasquake/src/script_parse.cpp:207-213 HasCvarValue *)
Definition HasCvarValue (name : bytes) (value : f32) (b : frameblock) : bool :=
  match om_find name (convars b) with Some v => f_eqb v value | None => false end.

Definition no_settings (b : frameblock) : bool :=
  bool_decide (convars b = []) && bool_decide (commands b = []) && bool_decide (toggles b = []).

(** * Scripts *)

Abbreviation script := (list frameblock).

(** [int] arithmetic. *)
Definition int_of (z : Z) : res Z :=
  if (INT_MIN <=? z) && (z <=? INT_MAX) then Ok z else Fault (Undefined "int overflow").

Definition block_at (s : script) (i : Z) : res frameblock :=
  if 0 <=? i then of_option (Undefined "no such block") (s !! Z.to_nat i) else Fault (Undefined "no such block").
Definition upd_block (i : Z) (f : frameblock -> frameblock) (s : script) : res script :=
  b ← block_at s i; mret (<[Z.to_nat i := f b]> s).

(** C: libtasquake/src/script_parse.cpp:470-477 Prune *)
Definition Prune (min_frame max_frame : Z) (s : script) : script :=
  filter (fun b => (no_settings b && (min_frame <=? fb_frame b) && (fb_frame b <=? max_frame)) = false) s.

(** C: libtasquake/src/script_parse.cpp:479-486 Prune *)
Definition PruneFrom (min_frame : Z) (s : script) : script :=
  filter (fun b => (no_settings b && (min_frame <=? fb_frame b)) = false) s.

(** C: libtasquake/src/script_parse.cpp:489-494 RemoveBlocksAfterFrame *)
Definition RemoveBlocksAfterFrame (frame : Z) (s : script) : script := filter (fun b => fb_frame b <= frame) s.

Definition in_range (lo hi f : Z) : bool := (lo <=? f) && (f <=? hi).

(** C: libtasquake/src/script_parse.cpp:496-504 RemoveCvarsFromRange *)
Definition RemoveCvarsFromRange (name : bytes) (lo hi : Z) (s : script) : script :=
  (fun b => if in_range lo hi (fb_frame b) then set_convars (om_erase name (convars b)) b else b) <$> s.

(** C: libtasquake/src/script_parse.cpp:506-514 RemoveTogglesFromRange *)
Definition RemoveTogglesFromRange (name : bytes) (lo hi : Z) (s : script) : script :=
  (fun b => if in_range lo hi (fb_frame b) then set_toggles (om_erase name (toggles b)) b else b) <$> s.

(** The blocks before [frame], up to the first that is not.
    C: libtasquake/src/script_parse.cpp:521-530 keep *)
Fixpoint keep_before (frame : Z) (s : script) : script :=
  match s with
  | [] => []
  | b :: s => if fb_frame b <? frame then b :: keep_before frame s else []
  end.

(** C: libtasquake/src/script_parse.cpp:532-540 block *)
Fixpoint shifted (frame : Z) (s : script) : res script :=
  match s with
  | [] => mret []
  | b :: s =>
      f ← int_of (fb_frame b + frame);
      rest ← shifted frame s;
      mret (if negb (no_settings b) then set_frame f b :: rest else rest)
  end.

(** C: libtasquake/src/script_parse.cpp:516-541 AddScript *)
Definition AddScript (new : script) (frame : Z) (s : script) : res script :=
  tail_ ← shifted frame new; mret (keep_before frame s ++ tail_).

(** C: libtasquake/src/script_parse.cpp:543-560 GetBlockIndex *)
Fixpoint GetBlockIndex (frame : Z) (s : script) : Z :=
  match s with
  | [] => 0
  | b :: s => if frame <=? fb_frame b then 0 else 1 + GetBlockIndex frame s
  end.

(** C: libtasquake/src/script_parse.cpp:609-622 GetBlockForInsertion *)
Definition GetBlockForInsertion (frame : Z) (s : script) : res (Z * script) :=
  let i := GetBlockIndex frame s in
  let new := set_frame frame empty_block in
  if i =? zlen s then mret (i, s ++ [new])
  else
    b ← block_at s i;
    if frame <? fb_frame b then mret (i, take (Z.to_nat i) s ++ new :: drop (Z.to_nat i) s)
    else mret (i, s).

(** C: libtasquake/src/script_parse.cpp:624-628 AddCvar *)
Definition AddCvar (name : bytes) (value : f32) (frame : Z) (s : script) : res script :=
  '(i, s) ← GetBlockForInsertion frame s; upd_block i (fun b => set_convars (om_set name value (convars b)) b) s.

(** C: libtasquake/src/script_parse.cpp:630-634 AddToggle *)
Definition AddToggle (cmd : bytes) (state : bool) (frame : Z) (s : script) : res script :=
  '(i, s) ← GetBlockForInsertion frame s; upd_block i (fun b => set_toggles (om_set cmd state (toggles b)) b) s.

(** C: libtasquake/src/script_parse.cpp:636-640 AddCommand *)
Definition AddCommand (cmd : bytes) (frame : Z) (s : script) : res script :=
  '(i, s) ← GetBlockForInsertion frame s; upd_block i (Add_Command cmd) s.

(** C: libtasquake/src/script_parse.cpp:706-718 Get_Frameblock *)
Definition Get_Frameblock (frame : Z) (s : script) : option frameblock := s !! Z.to_nat (GetBlockIndex frame s).

Definition yaw_name : bytes := cs "tas_view_yaw".
Definition pitch_name : bytes := cs "tas_view_pitch".
Definition attack_name : bytes := cs "attack".

(** C: libtasquake/src/script_parse.cpp:653-669 changeDetected *)
Definition shot_present (pitch yaw : f32) (turn shoot off : Z) (s : script) : bool :=
  let test f k := match Get_Frameblock f s with Some b => k b | None => false end in
  test turn (fun b => HasCvarValue pitch_name pitch b && HasCvarValue yaw_name yaw b) &&
  test shoot (HasToggleValue attack_name true) &&
  test off (HasToggleValue attack_name false).

(** C: libtasquake/src/script_parse.cpp:642-691 AddShot *)
Definition AddShot (pitch yaw : f32) (frame turn_frames : Z) (s : script) : res (bool * script) :=
  let CLEAR_RANGE := 2 in
  let shootOff := Z.max 8 frame in
  f1 ← int_of (frame - 1);
  let shoot := Z.max 8 f1 in
  f2 ← int_of (frame - turn_frames);
  let turn := Z.max 8 f2 in
  if shot_present pitch yaw turn shoot shootOff s then mret (false, s)
  else
    hi ← int_of (turn + CLEAR_RANGE);
    let s := RemoveCvarsFromRange yaw_name (turn - CLEAR_RANGE) hi s in
    let s := RemoveCvarsFromRange pitch_name (turn - CLEAR_RANGE) hi s in
    hi' ← int_of (shootOff + CLEAR_RANGE);
    let s := RemoveTogglesFromRange attack_name (shoot - CLEAR_RANGE) hi' s in
    '(turnIndex, s) ← GetBlockForInsertion turn s;
    '(shootIndex, s) ← GetBlockForInsertion shoot s;
    '(shootOffIndex, s) ← GetBlockForInsertion shootOff s;
    s ← upd_block turnIndex (fun b => set_convars (om_set yaw_name yaw (convars b)) b) s;
    s ← upd_block turnIndex (fun b => set_convars (om_set pitch_name pitch (convars b)) b) s;
    s ← upd_block shootIndex (fun b => set_toggles (om_set attack_name true (toggles b)) b) s;
    s ← upd_block shootOffIndex (fun b => set_toggles (om_set attack_name false (toggles b)) b) s;
    mret (true, Prune (turn - CLEAR_RANGE) hi' s).

(** C: libtasquake/src/script_parse.cpp:693-703 RemoveShot *)
Definition RemoveShot (frame turn_frames : Z) (s : script) : res script :=
  let shootOff := Z.max 8 frame in
  f1 ← int_of (frame - 1);
  let shoot := Z.max 8 f1 in
  f2 ← int_of (frame - turn_frames);
  let turn := Z.max 8 f2 in
  let s := RemoveCvarsFromRange yaw_name turn turn s in
  let s := RemoveCvarsFromRange pitch_name turn turn s in
  let s := RemoveTogglesFromRange attack_name shoot shootOff s in
  mret (Prune turn shootOff s).

(** C: libtasquake/src/script_parse.cpp:721-747 ShiftSingleBlock *)
Definition ShiftSingleBlock (i delta : Z) (s : script) : res script :=
  b ← block_at s i;
  delta ← (if delta <? 0 then
             minValue ← (if i =? 0 then mret 0 else p ← block_at s (i - 1); mret (fb_frame p));
             minDelta ← int_of (minValue - fb_frame b);
             mret (Z.max delta minDelta)
           else
             maxValue ← (if i =? zlen s - 1 then mret INT_MAX
                         else n ← block_at s (i + 1); int_of (fb_frame n - fb_frame b));
             mret (Z.min maxValue delta));
  f ← int_of (fb_frame b + delta);
  upd_block i (set_frame f) s.

(** C: libtasquake/src/script_parse.cpp:768-770 blocks *)
Fixpoint shift_all (delta : Z) (s : script) : res script :=
  match s with
  | [] => mret []
  | b :: s => f ← int_of (fb_frame b + delta); rest ← shift_all delta s; mret (set_frame f b :: rest)
  end.

(** C: libtasquake/src/script_parse.cpp:749-773 ShiftBlocks *)
Definition ShiftBlocks (i delta : Z) (s : script) : res (bool * script) :=
  b ← block_at s i;
  delta ← (if delta <? 0 then
             minValue ← (if i =? 0 then mret 0 else p ← block_at s (i - 1); mret (fb_frame p));
             minDelta ← int_of (minValue - fb_frame b);
             mret (if delta <? minDelta then minDelta else delta)
           else mret delta);
  if delta =? 0 then mret (false, s)
  else
    rest ← shift_all delta (drop (Z.to_nat i) s);
    mret (true, take (Z.to_nat i) s ++ rest).

(** The number of blocks that stay, and the first frame that changes.
    C: libtasquake/src/script_parse.cpp:240-253 blocksToKeep *)
Fixpoint first_change (old new : script) (default : Z) : nat * Z :=
  match old, new with
  | b :: old, b' :: new =>
      if negb (fb_frame b =? fb_frame b') || negb (bool_decide (GetCommand b = GetCommand b'))
      then (0%nat, Z.min (fb_frame b) (fb_frame b'))
      else let '(n, f) := first_change old new default in (S n, f)
  | _, _ => (0%nat, default)
  end.

(** C: libtasquake/src/script_parse.cpp:233-259 ApplyChanges *)
Definition ApplyChanges (new old : script) : Z * script :=
  let default := match last old with Some b => fb_frame b | None => 0 end in
  let '(keep, first) := first_change old new default in
  (first, take keep old ++ drop keep new).

(** * Playback *)

(** C: libtasquake/include/libtasquake/script_playback.hpp:5-15 PlaybackInfo *)
Record playback : Type := Playback {
  pause_frame : Z;
  current_frame : Z;
  script_running : bool;
  should_unpause : bool;
  last_edited : f64;
  stacked : frameblock;
  file_name : bytes;
  current_script : script
}.

Definition set_stacked (b : frameblock) (p : playback) : playback :=
  Playback (pause_frame p) (current_frame p) (script_running p) (should_unpause p) (last_edited p) b (file_name p) (current_script p).

(** C: libtasquake/src/script_playback.cpp:4-10 PlaybackInfo *)
Definition new_playback : playback := Playback 0 0 false false (f64_of_Z 0) empty_block [] [].

(** C: libtasquake/src/script_playback.cpp:27-33 GetBlockNumber *)
Definition GetBlockNumber (frame : Z) (p : playback) : Z :=
  let frame := if frame =? -1 then current_frame p else frame in
  GetBlockIndex frame (current_script p).

(** C: libtasquake/src/script_playback.cpp:12-20 Get_Current_Block *)
Definition Get_Current_Block (frame : Z) (p : playback) : option frameblock :=
  current_script p !! Z.to_nat (GetBlockNumber frame p).

(** C: libtasquake/src/script_playback.cpp:40-48 Get_Last_Frame *)
Definition Get_Last_Frame (p : playback) : Z :=
  match last (current_script p) with Some b => fb_frame b | None => 0 end.

(** C: libtasquake/src/script_playback.cpp:50-53 In_Edit_Mode *)
Definition In_Edit_Mode (game_paused : bool) (p : playback) : bool :=
  negb (script_running p) && game_paused && negb (bool_decide (current_script p = [])).

(** Stacking blocks up to the first that is not before [frame].
    C: libtasquake/src/script_playback.cpp:59-65 stacked *)
Fixpoint stack_before (frame : Z) (s : script) (acc : frameblock) : frameblock :=
  match s with
  | [] => acc
  | b :: s => if frame <=? fb_frame b then acc else stack_before frame s (Stack b acc)
  end.

(** C: libtasquake/src/script_playback.cpp:55-66 CalculateStack *)
Definition CalculateStack (p : playback) : playback :=
  set_stacked (stack_before (current_frame p) (current_script p) (Reset (stacked p))) p.

(** The blocks of the shifted script: [acc] is the block of everything up to the start.
    C: libtasquake/src/script_playback.cpp:81-103 stacked *)
Fixpoint time_shift (start : Z) (s : script) (acc : frameblock) (added : bool) : res script :=
  match s with
  | [] => mret (if added then [] else [acc])
  | b :: s =>
      if fb_frame b <=? start then
        let acc := Stack b acc in
        let acc := if fb_frame b =? start then set_commands (commands b) acc else acc in
        time_shift start s acc added
      else
        f ← int_of (fb_frame b - start);
        rest ← time_shift start s acc true;
        mret ((if added then [] else [acc]) ++ set_frame f b :: rest)
  end.

(** C: libtasquake/src/script_playback.cpp:68-106 GetTimeShiftedVersion *)
Definition GetTimeShiftedVersion (info : playback) (start_frame : Z) : res playback :=
  let start := if start_frame =? -1 then current_frame info else start_frame in
  blocks ← time_shift start (current_script info) (set_parsed true (set_frame 0 empty_block)) false;
  mret (Playback 0 0 false false (f64_of_Z 0) empty_block (file_name info) blocks).

(** * The script by frames *)

(** Blocks in the order of their frames, no two at one frame. *)
Definition by_frame (s : script) : Prop := StronglySorted (fun a b => fb_frame a < fb_frame b) s.

(** The block at frame [f]. *)
Fixpoint blk (s : script) (f : Z) : option frameblock :=
  match s with
  | [] => None
  | b :: s => if fb_frame b =? f then Some b else blk s f
  end.

Lemma blk_frame s f b : blk s f = Some b -> fb_frame b = f /\ b ∈ s.
Proof.
  induction s as [|b' s IH]; [done|]. cbn [blk]. case_if; [|intros H; destruct (IH H); split; [done|by right]].
  intros [= ->]. split; [done|left].
Qed.

Lemma blk_none s f : (forall b, b ∈ s -> fb_frame b <> f) -> blk s f = None.
Proof.
  intros H. destruct (blk s f) as [b|] eqn:E; [|done]. apply blk_frame in E as [E Hb]. by destruct (H b Hb).
Qed.

Lemma blk_app s1 s2 f : blk (s1 ++ s2) f = match blk s1 f with Some b => Some b | None => blk s2 f end.
Proof. induction s1 as [|b s1 IH]; [done|]. cbn [blk app]. by case_if. Qed.

(** Where a frame stands in a script: what is before it, and what is not. *)
Lemma index_split f s : exists l r, s = l ++ r /\ GetBlockIndex f s = zlen l /\
  Forall (fun b => fb_frame b < f) l /\ match r with b :: _ => f <= fb_frame b | [] => True end.
Proof.
  induction s as [|b s (l & r & -> & Hi & Hl & Hr)]; [by exists [], []|]. cbn [GetBlockIndex].
  destruct (f <=? fb_frame b) eqn:E; bool_props; [by exists [], (b :: l ++ r)|].
  exists (b :: l), r. split; [done|]. split; [cbn [length]; lia|]. split; [by constructor|done].
Qed.

Lemma by_frame_app l r : by_frame (l ++ r) <-> by_frame l /\ by_frame r /\ forall a b, a ∈ l -> b ∈ r -> fb_frame a < fb_frame b.
Proof. unfold by_frame. rewrite StronglySorted_app. tauto. Qed.

Lemma by_frame_cons b r : by_frame (b :: r) <-> by_frame r /\ forall a, a ∈ r -> fb_frame b < fb_frame a.
Proof.
  unfold by_frame. split.
  - intros H. inversion H as [|? ? Hs Hf]; subst. rewrite Forall_forall in Hf. done.
  - intros [Hs Hf]. constructor; [done|]. by apply Forall_forall.
Qed.

(** A sorted script splits at a frame into the blocks before, the block there, and those after. *)
Lemma frame_split f s : by_frame s -> exists l o r,
  s = l ++ option_list o ++ r /\ GetBlockIndex f s = zlen l /\
  Forall (fun b => fb_frame b < f) l /\ Forall (fun b => f < fb_frame b) r /\
  match o with Some b => fb_frame b = f | None => True end /\ blk s f = o.
Proof.
  intros Hs. destruct (index_split f s) as (l & r & -> & Hi & Hl & Hr).
  apply by_frame_app in Hs as (_ & Hs & _).
  assert (Hnl : blk l f = None).
  { apply blk_none. intros b Hb. rewrite Forall_forall in Hl. specialize (Hl b Hb). lia. }
  destruct r as [|b r].
  - exists l, None, []. split; [done|]. split_and!; try done. by rewrite blk_app, Hnl.
  - apply by_frame_cons in Hs as [Hs Hlt]. destruct (decide (fb_frame b = f)) as [E|Hne].
    + exists l, (Some b), r. split_and!; try done.
      * apply Forall_forall. intros a Ha. specialize (Hlt a Ha). lia.
      * rewrite blk_app, Hnl. cbn [blk]. by rewrite E, Z.eqb_refl.
    + exists l, None, (b :: r). split_and!; try done.
      * constructor; [lia|]. apply Forall_forall. intros a Ha. specialize (Hlt a Ha). lia.
      * rewrite blk_app, Hnl. apply blk_none. intros a Ha. apply elem_of_cons in Ha as [->|Ha]; [done|].
        specialize (Hlt a Ha). lia.
Qed.

Lemma by_frame_frames s s' : fb_frame <$> s' = fb_frame <$> s -> by_frame s -> by_frame s'.
Proof.
  unfold by_frame. revert s'. induction s as [|b s IH]; intros [|b' s'] E Hs; try done. rewrite !fmap_cons in E. injection E as Eb Es.
  inversion Hs as [|? ? Hs' Hf]; subst. constructor; [by apply IH|]. apply Forall_forall. intros a Ha.
  assert (Hin : fb_frame a ∈ fb_frame <$> s) by (rewrite <- Es; apply list_elem_of_fmap; eauto).
  apply list_elem_of_fmap in Hin as (a' & Ea & Ha'). rewrite Forall_forall in Hf. specialize (Hf a' Ha'). lia.
Qed.

Lemma index_frames f s s' : fb_frame <$> s' = fb_frame <$> s -> GetBlockIndex f s' = GetBlockIndex f s.
Proof.
  revert s'. induction s as [|b s IH]; intros [|b' s'] E; try done. rewrite !fmap_cons in E. injection E as Eb Es.
  cbn [GetBlockIndex]. by rewrite Eb, (IH s').
Qed.

(** What comes after a frame does not matter for its index. *)
Lemma index_prefix f l r : match r with b :: _ => f <= fb_frame b | [] => True end -> GetBlockIndex f (l ++ r) = GetBlockIndex f l.
Proof.
  intros Hr. induction l as [|b l IH]; [|cbn [app GetBlockIndex]; by rewrite IH].
  destruct r as [|b r]; [done|]. cbn [app GetBlockIndex]. by rewrite (proj2 (Z.leb_le _ _) Hr).
Qed.

(** Blocks around one frame. *)
Lemma blk_around l b r f' : Forall (fun x => fb_frame x < fb_frame b) l -> Forall (fun x => fb_frame b < fb_frame x) r ->
  blk (l ++ b :: r) f' = if f' =? fb_frame b then Some b else blk (l ++ r) f'.
Proof.
  intros Hl Hr. rewrite !blk_app. cbn [blk]. rewrite (Z.eqb_sym (fb_frame b)). destruct (Z.eqb_spec f' (fb_frame b)) as [->|]; [|done].
  rewrite blk_none; [done|]. intros x Hx. rewrite Forall_forall in Hl. specialize (Hl x Hx). lia.
Qed.

Lemma by_frame_around l b r : by_frame (l ++ r) -> Forall (fun x => fb_frame x < fb_frame b) l ->
  Forall (fun x => fb_frame b < fb_frame x) r -> by_frame (l ++ b :: r).
Proof.
  rewrite !by_frame_app, by_frame_cons, !Forall_forall. intros (Hl & Hr & Hlr) Hlb Hrb. split_and!; try done.
  intros a c Ha Hc. apply elem_of_cons in Hc as [->|Hc]; [by apply Hlb|by apply Hlr].
Qed.

Lemma insert_spec f s : by_frame s -> exists s', GetBlockForInsertion f s = Ok (GetBlockIndex f s, s') /\ by_frame s' /\
  (forall f', f' <= f -> GetBlockIndex f' s' = GetBlockIndex f' s) /\
  forall f', blk s' f' = if f' =? f then Some (default (set_frame f empty_block) (blk s f)) else blk s f'.
Proof.
  intros Hs. destruct (frame_split f s Hs) as (l & o & r & E & Hi & Hl & Hr & Ho & Hb). unfold GetBlockForInsertion.
  rewrite Hi, Hb. destruct o as [b|].
  - change (option_list (Some b) ++ r) with (b :: r) in E. subst s. exists (l ++ b :: r). split; [|split; [done|split; [done|]]].
    + rewrite (proj2 (Z.eqb_neq _ _)) by (rewrite length_app; cbn [length]; lia). unfold block_at.
      rewrite (proj2 (Z.leb_le _ _)), Nat2Z.id, list_lookup_middle by lia. cbn [of_option mbind res_bind].
      rewrite (proj2 (Z.ltb_ge _ _)) by lia. done.
    + intros f'. destruct (Z.eqb_spec f' f) as [->|]; done.
  - change (option_list None ++ r) with r in E. subst s. set (new := set_frame f empty_block). exists (l ++ new :: r). split_and!.
    + destruct r as [|b r]; [rewrite app_nil_r, Z.eqb_refl; done|].
      rewrite (proj2 (Z.eqb_neq _ _)) by (rewrite length_app; cbn [length]; lia). unfold block_at.
      rewrite (proj2 (Z.leb_le _ _)), Nat2Z.id, list_lookup_middle by lia. cbn [of_option mbind res_bind].
      apply Forall_cons in Hr as [Hb' _]. rewrite (proj2 (Z.ltb_lt _ _)) by done.
      rewrite take_app_length, drop_app_length. done.
    + by apply by_frame_around.
    + intros f' Hf. rewrite (index_prefix f' l (new :: r)) by (cbn; lia).
      rewrite (index_prefix f' l r); [done|]. destruct Hr; [done|]. lia.
    + intros f'. by rewrite blk_around.
Qed.

Lemma update_spec f g s b : by_frame s -> blk s f = Some b -> fb_frame (g b) = fb_frame b ->
  exists s', upd_block (GetBlockIndex f s) g s = Ok s' /\ by_frame s' /\ (forall f', GetBlockIndex f' s' = GetBlockIndex f' s) /\
    forall f', blk s' f' = if f' =? f then Some (g b) else blk s f'.
Proof.
  intros Hs Hb Hg. destruct (frame_split f s Hs) as (l & o & r & E & Hi & Hl & Hr & Ho & Hb'). rewrite Hb in Hb'. subst o.
  change (option_list (Some b) ++ r) with (b :: r) in E. subst s. rewrite Hi. unfold upd_block, block_at.
  rewrite (proj2 (Z.leb_le _ _)), Nat2Z.id, list_lookup_middle by lia. cbn [of_option mbind res_bind].
  rewrite insert_app_r_alt, Nat.sub_diag by lia. cbn [list_insert insert list_alter].
  assert (Hfr : fb_frame <$> (l ++ g b :: r) = fb_frame <$> (l ++ b :: r)) by (rewrite !fmap_app, !fmap_cons, Hg; done).
  exists (l ++ g b :: r). split_and!; [done| | |].
  - by apply (by_frame_frames _ _ Hfr).
  - intros f'. by apply index_frames.
  - intros f'. rewrite !blk_around; try (by rewrite ?Hg, ?Ho). rewrite Hg, Ho. by destruct (f' =? f).
Qed.

(** Setting something in the block of a frame, which is made when there is none. *)
Lemma edit_spec f g s : by_frame s -> (forall b, fb_frame (g b) = fb_frame b) ->
  exists s', ('(i, s) ← GetBlockForInsertion f s; upd_block i g s) = Ok s' /\ by_frame s' /\
    forall f', blk s' f' = if f' =? f then Some (g (default (set_frame f empty_block) (blk s f))) else blk s f'.
Proof.
  intros Hs Hg. destruct (insert_spec f s Hs) as (s1 & E1 & Hs1 & Hi1 & Hb1). rewrite E1. cbn [mbind res_bind].
  rewrite <- (Hi1 f) by lia. edestruct (update_spec f g s1) as (s2 & E2 & Hs2 & _ & Hb2); [done|rewrite Hb1, Z.eqb_refl; done|apply Hg|].
  exists s2. split; [done|]. split; [done|]. intros f'. rewrite Hb2, Hb1. by destruct (f' =? f).
Qed.

(** ** The maps of a block *)

Lemma om_find_set {T} k v k' (m : ordered_map T) : om_find k' (om_set k v m) = if bool_decide (k = k') then Some v else om_find k' m.
Proof.
  induction m as [|[k0 v0] m IH]; cbn; [by case_bool_decide|]. destruct (bool_decide_reflect (k0 = k)) as [->|Hne]; cbn.
  - by case_bool_decide.
  - rewrite IH. repeat case_bool_decide; try done. congruence.
Qed.

Lemma om_find_erase {T} k k' (m : ordered_map T) : om_find k' (om_erase k m) = if bool_decide (k = k') then None else om_find k' m.
Proof.
  induction m as [|[k0 v0] m IH]; [by case_bool_decide|]. cbn [om_erase fst om_find].
  destruct (bool_decide_reflect (k0 = k)) as [->|Hne]; cbn [om_find]; rewrite IH; repeat case_bool_decide; try done; congruence.
Qed.

(** The value a frame sets a variable to. *)
Definition cvar_at (s : script) (f : Z) (name : bytes) : option f32 := blk s f ≫= fun b => om_find name (convars b).
Definition toggle_at (s : script) (f : Z) (name : bytes) : option bool := blk s f ≫= fun b => om_find name (toggles b).
Definition commands_at (s : script) (f : Z) : list bytes := match blk s f with Some b => commands b | None => [] end.

(** Two scripts that set the same things at the same frames. *)
Definition same_settings (s s' : script) : Prop :=
  (forall f n, cvar_at s' f n = cvar_at s f n) /\ (forall f n, toggle_at s' f n = toggle_at s f n) /\
  (forall f, commands_at s' f = commands_at s f).

Lemma blk_fmap h s f : (forall b, fb_frame (h b) = fb_frame b) -> blk (h <$> s) f = h <$> blk s f.
Proof.
  intros Hh. induction s as [|b s IH]; [done|]. rewrite fmap_cons. cbn [blk]. rewrite Hh. by destruct (fb_frame b =? f).
Qed.

Lemma by_frame_fmap h s : (forall b, fb_frame (h b) = fb_frame b) -> by_frame s -> by_frame (h <$> s).
Proof.
  intros Hh. apply by_frame_frames. rewrite <- list_fmap_compose. apply list_fmap_ext. intros i b _. apply Hh.
Qed.

Lemma by_frame_filter (P : frameblock -> Prop) `{!forall b, Decision (P b)} s : by_frame s -> by_frame (filter P s).
Proof.
  induction s as [|b s IH]; [done|]. rewrite by_frame_cons, filter_cons. intros [Hs Hb]. case_decide; [|auto].
  apply by_frame_cons. split; [auto|]. intros a Ha. apply list_elem_of_filter in Ha as [_ Ha]. auto.
Qed.

Lemma blk_filter (P : frameblock -> Prop) `{!forall b, Decision (P b)} s f : by_frame s ->
  blk (filter P s) f = blk s f ≫= fun b => if decide (P b) then Some b else None.
Proof.
  induction s as [|b s IH]; [done|]. intros [Hs Hb]%by_frame_cons. rewrite filter_cons. cbn [blk].
  destruct (Z.eqb_spec (fb_frame b) f) as [<-|Hne].
  - cbn [option_bind mbind]. unfold mbind, option_bind. case_decide; cbn [blk]; [by rewrite Z.eqb_refl|].
    apply blk_none. intros a Ha. apply list_elem_of_filter in Ha as [_ Ha]. specialize (Hb a Ha). lia.
  - case_decide; cbn [blk]; [rewrite (proj2 (Z.eqb_neq _ _) Hne)|]; by apply IH.
Qed.

(** Taking out blocks without settings. *)
Lemma prune_settings (P : frameblock -> Prop) `{!forall b, Decision (P b)} s :
  by_frame s -> (forall b, ~ P b -> no_settings b = true) -> same_settings s (filter P s).
Proof.
  intros Hs Hp. unfold same_settings, cvar_at, toggle_at, commands_at.
  assert (Hcase : forall f, blk (filter P s) f = blk s f \/ blk (filter P s) f = None /\ exists b, blk s f = Some b /\ no_settings b = true).
  { intros f. rewrite (blk_filter P s f Hs). destruct (blk s f) as [b|]; [|by left]. cbn. case_decide; [by left|]. right. eauto. }
  assert (He : forall b, no_settings b = true -> convars b = [] /\ toggles b = [] /\ commands b = []).
  { intros b. unfold no_settings. rewrite !andb_true_iff, !bool_decide_eq_true. tauto. }
  split_and!; intros f; try intros n; (destruct (Hcase f) as [->|(-> & b & -> & Hb)]; [done|]);
    destruct (He b Hb) as (Hc & Ht & Hm); cbn; by rewrite ?Hc, ?Ht, ?Hm.
Qed.

Lemma Prune_settings lo hi s : by_frame s -> by_frame (Prune lo hi s) /\ same_settings s (Prune lo hi s).
Proof.
  intros Hs. split; [by apply by_frame_filter|]. apply prune_settings; [done|]. intros b Hb.
  destruct (no_settings b); [done|]. by destruct Hb.
Qed.

(** Effects of the operations on what is set where. *)
Definition sets_cvar (f : Z) (name : bytes) (v : f32) (s s' : script) : Prop :=
  (forall f' n, cvar_at s' f' n = if (f' =? f) && bool_decide (name = n) then Some v else cvar_at s f' n) /\
  (forall f' n, toggle_at s' f' n = toggle_at s f' n) /\ forall f', commands_at s' f' = commands_at s f'.

Definition sets_toggle (f : Z) (name : bytes) (v : bool) (s s' : script) : Prop :=
  (forall f' n, cvar_at s' f' n = cvar_at s f' n) /\
  (forall f' n, toggle_at s' f' n = if (f' =? f) && bool_decide (name = n) then Some v else toggle_at s f' n) /\
  forall f', commands_at s' f' = commands_at s f'.

Lemma set_cvar_effect f name v s s' :
  (forall f', blk s' f' = if f' =? f then Some (set_convars (om_set name v (convars (default (set_frame f empty_block) (blk s f)))) (default (set_frame f empty_block) (blk s f))) else blk s f') ->
  sets_cvar f name v s s'.
Proof.
  intros H. unfold sets_cvar, cvar_at, toggle_at, commands_at. split_and!; intros f'; try intros n; rewrite H;
    (destruct (Z.eqb_spec f' f) as [->|]; [|done]); cbn.
  - rewrite om_find_set. case_bool_decide; [done|]. by destruct (blk s f).
  - by destruct (blk s f).
  - by destruct (blk s f).
Qed.

Lemma set_toggle_effect f name v s s' :
  (forall f', blk s' f' = if f' =? f then Some (set_toggles (om_set name v (toggles (default (set_frame f empty_block) (blk s f)))) (default (set_frame f empty_block) (blk s f))) else blk s f') ->
  sets_toggle f name v s s'.
Proof.
  intros H. unfold sets_toggle, cvar_at, toggle_at, commands_at. split_and!; intros f'; try intros n; rewrite H;
    (destruct (Z.eqb_spec f' f) as [->|]; [|done]); cbn.
  - by destruct (blk s f).
  - rewrite om_find_set. case_bool_decide; [done|]. by destruct (blk s f).
  - by destruct (blk s f).
Qed.

Lemma insert_settings f s s' :
  (forall f', blk s' f' = if f' =? f then Some (default (set_frame f empty_block) (blk s f)) else blk s f') -> same_settings s s'.
Proof.
  intros H. unfold same_settings, cvar_at, toggle_at, commands_at. split_and!; intros f'; try intros n; rewrite H;
    (destruct (Z.eqb_spec f' f) as [->|]; [|done]); cbn; by destruct (blk s f).
Qed.

(** [s'] has the blocks of [s], at the same indices. *)
Definition same_blocks (s s' : script) : Prop :=
  by_frame s' /\ (forall f, GetBlockIndex f s' = GetBlockIndex f s) /\ forall f, is_Some (blk s f) -> is_Some (blk s' f).

Lemma upd_cvar f name v s : by_frame s -> is_Some (blk s f) ->
  exists s', upd_block (GetBlockIndex f s) (fun b => set_convars (om_set name v (convars b)) b) s = Ok s' /\
    same_blocks s s' /\ sets_cvar f name v s s'.
Proof.
  intros Hs [b Hb]. destruct (update_spec f (fun b => set_convars (om_set name v (convars b)) b) s b Hs Hb eq_refl) as (s' & E & Hs' & Hi & H).
  exists s'. split; [done|]. split; [split_and!; try done|].
  - intros f' Hf'. rewrite H. by destruct (f' =? f).
  - apply set_cvar_effect. intros f'. by rewrite H, Hb.
Qed.

Lemma upd_toggle f name v s : by_frame s -> is_Some (blk s f) ->
  exists s', upd_block (GetBlockIndex f s) (fun b => set_toggles (om_set name v (toggles b)) b) s = Ok s' /\
    same_blocks s s' /\ sets_toggle f name v s s'.
Proof.
  intros Hs [b Hb]. destruct (update_spec f (fun b => set_toggles (om_set name v (toggles b)) b) s b Hs Hb eq_refl) as (s' & E & Hs' & Hi & H).
  exists s'. split; [done|]. split; [split_and!; try done|].
  - intros f' Hf'. rewrite H. by destruct (f' =? f).
  - apply set_toggle_effect. intros f'. by rewrite H, Hb.
Qed.

Lemma insert_settings_spec f s : by_frame s -> exists s', GetBlockForInsertion f s = Ok (GetBlockIndex f s, s') /\ by_frame s' /\
  (forall f', f' <= f -> GetBlockIndex f' s' = GetBlockIndex f' s) /\ is_Some (blk s' f) /\
  (forall f', is_Some (blk s f') -> is_Some (blk s' f')) /\ same_settings s s'.
Proof.
  intros Hs. destruct (insert_spec f s Hs) as (s' & E & Hs' & Hi & H). exists s'. split_and!; try done.
  - rewrite H, Z.eqb_refl. eauto.
  - intros f' Hf'. rewrite H. destruct (f' =? f); eauto.
  - apply (insert_settings f). exact H.
Qed.

Lemma RemoveCvars_effect name lo hi s : by_frame s ->
  let s' := RemoveCvarsFromRange name lo hi s in
  by_frame s' /\ (forall f n, cvar_at s' f n = if in_range lo hi f && bool_decide (name = n) then None else cvar_at s f n) /\
  (forall f n, toggle_at s' f n = toggle_at s f n) /\ forall f, commands_at s' f = commands_at s f.
Proof.
  intros Hs s'. set (h := fun b => if in_range lo hi (fb_frame b) then set_convars (om_erase name (convars b)) b else b).
  assert (Hh : forall b, fb_frame (h b) = fb_frame b) by (intros b; unfold h; by destruct (in_range _ _ _)).
  assert (Hb : forall f, blk s' f = h <$> blk s f) by (intros f; by apply blk_fmap).
  split; [by apply by_frame_fmap|]. unfold cvar_at, toggle_at, commands_at.
  split_and!; intros f; try intros n; rewrite Hb; destruct (blk s f) as [b|] eqn:E; cbn;
    try (by destruct (in_range lo hi f && bool_decide (name = n))); try done; apply blk_frame in E as [<- _];
    unfold h; destruct (in_range lo hi (fb_frame b)); cbn; try done. by rewrite om_find_erase.
Qed.

Lemma RemoveToggles_effect name lo hi s : by_frame s ->
  let s' := RemoveTogglesFromRange name lo hi s in
  by_frame s' /\ (forall f n, cvar_at s' f n = cvar_at s f n) /\
  (forall f n, toggle_at s' f n = if in_range lo hi f && bool_decide (name = n) then None else toggle_at s f n) /\
  forall f, commands_at s' f = commands_at s f.
Proof.
  intros Hs s'. set (h := fun b => if in_range lo hi (fb_frame b) then set_toggles (om_erase name (toggles b)) b else b).
  assert (Hh : forall b, fb_frame (h b) = fb_frame b) by (intros b; unfold h; by destruct (in_range _ _ _)).
  assert (Hb : forall f, blk s' f = h <$> blk s f) by (intros f; by apply blk_fmap).
  split; [by apply by_frame_fmap|]. unfold cvar_at, toggle_at, commands_at.
  split_and!; intros f; try intros n; rewrite Hb; destruct (blk s f) as [b|] eqn:E; cbn;
    try (by destruct (in_range lo hi f && bool_decide (name = n))); try done; apply blk_frame in E as [<- _];
    unfold h; destruct (in_range lo hi (fb_frame b)); cbn; try done. by rewrite om_find_erase.
Qed.

Lemma Get_Frameblock_blk f s : by_frame s -> is_Some (blk s f) -> Get_Frameblock f s = blk s f.
Proof.
  intros Hs [b Hb]. destruct (frame_split f s Hs) as (l & o & r & E & Hi & _ & _ & _ & Ho). rewrite Hb in Ho. subst o.
  change (option_list (Some b) ++ r) with (b :: r) in E. subst s. unfold Get_Frameblock. rewrite Hi, Nat2Z.id, Hb. apply list_lookup_middle. done.
Qed.

(** What a shot sets: the view at the turning frame, the trigger at the two frames after it, and
    nothing else of the kind near them. *)
Definition shot_cvars (pitch yaw : f32) (turn : Z) (s : script) (f : Z) (n : bytes) : option f32 :=
  if (f =? turn) && bool_decide (n = yaw_name) then Some yaw
  else if (f =? turn) && bool_decide (n = pitch_name) then Some pitch
  else if in_range (turn - 2) (turn + 2) f && (bool_decide (n = yaw_name) || bool_decide (n = pitch_name)) then None
  else cvar_at s f n.
Definition shot_toggles (shoot off : Z) (s : script) (f : Z) (n : bytes) : option bool :=
  if bool_decide (n = attack_name) then
    if f =? off then Some false else if f =? shoot then Some true
    else if in_range (shoot - 2) (off + 2) f then None else toggle_at s f n
  else toggle_at s f n.

(** The editing part of [AddShot]. *)
Definition place_shot (pitch yaw : f32) (turn shoot off : Z) (s : script) : res script :=
  '(turnIndex, s) ← GetBlockForInsertion turn s;
  '(shootIndex, s) ← GetBlockForInsertion shoot s;
  '(shootOffIndex, s) ← GetBlockForInsertion off s;
  s ← upd_block turnIndex (fun b => set_convars (om_set yaw_name yaw (convars b)) b) s;
  s ← upd_block turnIndex (fun b => set_convars (om_set pitch_name pitch (convars b)) b) s;
  s ← upd_block shootIndex (fun b => set_toggles (om_set attack_name true (toggles b)) b) s;
  upd_block shootOffIndex (fun b => set_toggles (om_set attack_name false (toggles b)) b) s.

Lemma place_shot_ok pitch yaw turn shoot off s : by_frame s -> turn <= shoot <= off ->
  exists s', place_shot pitch yaw turn shoot off s = Ok s' /\ by_frame s' /\
    (forall f n, cvar_at s' f n = if (f =? turn) && bool_decide (pitch_name = n) then Some pitch
                                  else if (f =? turn) && bool_decide (yaw_name = n) then Some yaw else cvar_at s f n) /\
    (forall f n, toggle_at s' f n = if (f =? off) && bool_decide (attack_name = n) then Some false
                                    else if (f =? shoot) && bool_decide (attack_name = n) then Some true else toggle_at s f n) /\
    forall f, commands_at s' f = commands_at s f.
Proof.
  intros Hs Hord. unfold place_shot.
  destruct (insert_settings_spec turn s Hs) as (s1 & -> & Hs1 & Hi1 & Hb1 & Hk1 & (C1 & T1 & M1)). cbn [mbind res_bind].
  destruct (insert_settings_spec shoot s1 Hs1) as (s2 & -> & Hs2 & Hi2 & Hb2 & Hk2 & (C2 & T2 & M2)). cbn [mbind res_bind].
  destruct (insert_settings_spec off s2 Hs2) as (s3 & -> & Hs3 & Hi3 & Hb3 & Hk3 & (C3 & T3 & M3)). cbn [mbind res_bind].
  assert (Et : GetBlockIndex turn s = GetBlockIndex turn s3) by (rewrite Hi3, Hi2, Hi1 by lia; done).
  assert (Es : GetBlockIndex shoot s1 = GetBlockIndex shoot s3) by (rewrite Hi3, Hi2 by lia; done).
  assert (Eo : GetBlockIndex off s2 = GetBlockIndex off s3) by (rewrite Hi3 by lia; done). rewrite Et, Es, Eo.
  destruct (upd_cvar turn yaw_name yaw s3 Hs3) as (s4 & -> & (Hs4 & Hi4 & Hk4) & (C4 & T4 & M4)); [auto|]. cbn [mbind res_bind].
  rewrite <- (Hi4 turn), <- (Hi4 shoot), <- (Hi4 off).
  destruct (upd_cvar turn pitch_name pitch s4 Hs4) as (s5 & -> & (Hs5 & Hi5 & Hk5) & (C5 & T5 & M5)); [auto|]. cbn [mbind res_bind].
  rewrite <- (Hi5 shoot), <- (Hi5 off).
  destruct (upd_toggle shoot attack_name true s5 Hs5) as (s6 & -> & (Hs6 & Hi6 & Hk6) & (C6 & T6 & M6)); [auto|]. cbn [mbind res_bind].
  rewrite <- (Hi6 off).
  destruct (upd_toggle off attack_name false s6 Hs6) as (s7 & -> & (Hs7 & Hi7 & Hk7) & (C7 & T7 & M7)); [auto 10|].
  exists s7. split; [done|]. split; [done|]. split_and!.
  - intros f n. rewrite C7, C6, C5, C4, C3, C2, C1. done.
  - intros f n. rewrite T7, T6, T5, T4, T3, T2, T1. done.
  - intros f. rewrite M7, M6, M5, M4, M3, M2, M1. done.
Qed.

Lemma f_eqb_refl f : f <> S754_nan -> f_eqb f f = true.
Proof.
  unfold f_eqb, SFeqb, SFcompare. destruct f as [s|s| |s m e]; try done; [by destruct s|].
  intros _. rewrite Z.compare_refl, Pos.compare_refl. by destruct s.
Qed.

Lemma shot_present_ok pitch yaw turn shoot off s : by_frame s -> pitch <> S754_nan -> yaw <> S754_nan ->
  cvar_at s turn pitch_name = Some pitch -> cvar_at s turn yaw_name = Some yaw ->
  toggle_at s shoot attack_name = Some true -> toggle_at s off attack_name = Some false ->
  shot_present pitch yaw turn shoot off s = true.
Proof.
  unfold cvar_at, toggle_at, shot_present. intros Hs Hp Hy Hcp Hcy Hts Hto.
  destruct (blk s turn) as [bt|] eqn:Et; [|done]. destruct (blk s shoot) as [bs|] eqn:Es; [|done]. destruct (blk s off) as [bo|] eqn:Eo; [|done].
  rewrite !Get_Frameblock_blk, Et, Es, Eo by (done || (rewrite ?Et, ?Es, ?Eo; eauto)). unfold mbind, option_bind in Hcp, Hcy, Hts, Hto.
  unfold HasCvarValue, HasToggleValue. rewrite Hcp, Hcy, Hts, Hto, !f_eqb_refl by done. done.
Qed.

Lemma AddShot_unfold pitch yaw frame turn_frames s : 9 <= frame <= INT_MAX - 2 -> 1 <= turn_frames <= INT_MAX ->
  let turn := Z.max 8 (frame - turn_frames) in
  AddShot pitch yaw frame turn_frames s =
    if shot_present pitch yaw turn (frame - 1) frame s then Ok (false, s)
    else
      s ← place_shot pitch yaw turn (frame - 1) frame
            (RemoveTogglesFromRange attack_name (frame - 1 - 2) (frame + 2)
               (RemoveCvarsFromRange pitch_name (turn - 2) (turn + 2) (RemoveCvarsFromRange yaw_name (turn - 2) (turn + 2) s)));
      Ok (true, Prune (turn - 2) (frame + 2) s).
Proof.
  intros Hf Ht turn. unfold AddShot, int_of. unfold INT_MAX, INT_MIN in *.
  assert (Hint : forall z, -2147483648 <= z <= 2147483647 -> (-2147483648 <=? z) && (z <=? 2147483647) = true)
    by (intros z Hz; apply andb_true_iff; split; apply Z.leb_le; lia).
  rewrite (Hint (frame - 1)) by lia. cbn [mbind res_bind]. rewrite (Hint (frame - turn_frames)) by lia. cbn [mbind res_bind].
  replace (Z.max 8 frame) with frame by lia. replace (Z.max 8 (frame - 1)) with (frame - 1) by lia. fold turn.
  destruct (shot_present pitch yaw turn (frame - 1) frame s); [done|].
  rewrite (Hint (turn + 2)) by (unfold turn; lia). cbn [mbind res_bind]. rewrite (Hint (frame + 2)) by lia. cbn [mbind res_bind].
  unfold place_shot. set (s3 := RemoveTogglesFromRange _ _ _ _).
  repeat match goal with
  | |- ?x ≫= _ = ((?x ≫= _) ≫= _) => destruct x as [?|?]; [|done]; cbn [mbind res_bind]
  | |- context [match ?p with (_, _) => _ end] => destruct p; cbn [mbind res_bind]
  end; done.
Qed.

(** The first block at or after a frame, and a setting of it. *)
Definition block_from (s : script) (f : Z) : option frameblock := List.find (fun b => f <=? fb_frame b) s.
Definition cvar_from (s : script) (f : Z) (n : bytes) : option f32 := block_from s f ≫= fun b => om_find n (convars b).
Definition toggle_from (s : script) (f : Z) (n : bytes) : option bool := block_from s f ≫= fun b => om_find n (toggles b).

(** The shot is taken to be in the script already: the view and the trigger are set as asked for,
    each by the first block at or after its frame. *)
Definition shot_there (pitch yaw : f32) (turn shoot off : Z) (s : script) : Prop :=
  (exists p, cvar_from s turn pitch_name = Some p /\ f_eqb p pitch = true) /\
  (exists y, cvar_from s turn yaw_name = Some y /\ f_eqb y yaw = true) /\
  toggle_from s shoot attack_name = Some true /\ toggle_from s off attack_name = Some false.

Lemma Get_Frameblock_from f s : Get_Frameblock f s = block_from s f.
Proof.
  unfold Get_Frameblock, block_from. induction s as [|b s IH]; [done|]. cbn [GetBlockIndex List.find]. destruct (f <=? fb_frame b); [done|].
  rewrite <- IH. assert (0 <= GetBlockIndex f s) by (clear; induction s as [|b s IH]; cbn; [done|]; case_if; lia).
  replace (Z.to_nat (1 + GetBlockIndex f s)) with (S (Z.to_nat (GetBlockIndex f s))) by lia. done.
Qed.

Lemma shot_present_iff pitch yaw turn shoot off s : shot_present pitch yaw turn shoot off s = true <-> shot_there pitch yaw turn shoot off s.
Proof.
  unfold shot_present, shot_there, cvar_from, toggle_from. rewrite !Get_Frameblock_from. unfold HasCvarValue, HasToggleValue.
  generalize pitch_name yaw_name attack_name. intros pitch_name yaw_name attack_name.
  destruct (block_from s turn) as [bt|]; cbn; [|split; [done|intros ((? & ? & _) & _); done]].
  destruct (om_find pitch_name (convars bt)) as [p|]; cbn; [|split; [done|intros ((? & ? & _) & _); done]].
  destruct (om_find yaw_name (convars bt)) as [y|]; cbn; [|rewrite andb_false_r; split; [done|intros (_ & (? & ? & _) & _); done]].
  rewrite !andb_true_iff. destruct (block_from s shoot) as [bs|]; cbn; [|split; [intros [[_ H] _]; done|intros (_ & _ & ? & _); done]].
  destruct (block_from s off) as [bo|]; cbn; [|split; [intros [_ H]; done|intros (_ & _ & _ & ?); done]].
  destruct (om_find attack_name (toggles bs)) as [[]|], (om_find attack_name (toggles bo)) as [[]|]; cbn;
    (split; [intros [[[H1 H2] H3] H4]; first [discriminate|split; [by exists p|]; split; [by exists y|done]]
            |intros ((p' & Ep & H1) & (y' & Ey & H2) & H3 & H4); injection Ep as <-; injection Ey as <-; first [discriminate|by rewrite H1, H2]]).
Qed.

(** C33: Placing a shot at a frame from 9 on in a script in order, with at least one frame for the
    turn.  [AddShot] reports no change, and makes none, exactly when the shot is taken to be there:
    the first block at or after the turning frame sets the view to this pitch and yaw, and the first
    ones at or after the two frames of the shot press and release the trigger.  Otherwise it reports
    a change, the script stays in order, the view is turned at the turning frame and the trigger
    pressed and released at the two frames of the shot; settings of the view near the turn and of the
    trigger near the shot are taken away, and every other setting of every frame stays.  Placing the
    same shot again then changes nothing, and says so. *)
Theorem AddShot_spec pitch yaw frame turn_frames s :
  by_frame s -> 9 <= frame <= INT_MAX - 2 -> 1 <= turn_frames <= INT_MAX -> pitch <> S754_nan -> yaw <> S754_nan ->
  let turn := Z.max 8 (frame - turn_frames) in
  exists changed s', AddShot pitch yaw frame turn_frames s = Ok (changed, s') /\ by_frame s' /\
    (changed = false <-> shot_there pitch yaw turn (frame - 1) frame s) /\
    (if changed then
       (forall f n, cvar_at s' f n = shot_cvars pitch yaw turn s f n) /\
       (forall f n, toggle_at s' f n = shot_toggles (frame - 1) frame s f n) /\
       (forall f, commands_at s' f = commands_at s f) /\
       AddShot pitch yaw frame turn_frames s' = Ok (false, s')
     else s' = s).
Proof.
  intros Hs Hf Ht Hp Hy turn. rewrite (AddShot_unfold _ _ _ _ s Hf Ht). fold turn.
  pose proof (shot_present_iff pitch yaw turn (frame - 1) frame s) as Hiff.
  destruct (shot_present pitch yaw turn (frame - 1) frame s); [exists false, s; rewrite <- Hiff; done|].
  destruct (RemoveCvars_effect yaw_name (turn - 2) (turn + 2) s Hs) as (Hs1 & C1 & T1 & M1). set (s1 := RemoveCvarsFromRange yaw_name _ _ s) in *.
  destruct (RemoveCvars_effect pitch_name (turn - 2) (turn + 2) s1 Hs1) as (Hs2 & C2 & T2 & M2). set (s2 := RemoveCvarsFromRange pitch_name _ _ s1) in *.
  destruct (RemoveToggles_effect attack_name (frame - 1 - 2) (frame + 2) s2 Hs2) as (Hs3 & C3 & T3 & M3). set (s3 := RemoveTogglesFromRange _ _ _ s2) in *.
  destruct (place_shot_ok pitch yaw turn (frame - 1) frame s3 Hs3) as (s4 & E4 & Hs4 & C4 & T4 & M4); [unfold turn; lia|].
  rewrite E4. cbn [mbind res_bind]. destruct (Prune_settings (turn - 2) (frame + 2) s4 Hs4) as (Hs5 & C5 & T5 & M5).
  exists true, (Prune (turn - 2) (frame + 2) s4). split; [done|]. split; [done|]. split; [rewrite <- Hiff; done|]. set (s5 := Prune _ _ s4) in *.
  assert (HC : forall f n, cvar_at s5 f n = shot_cvars pitch yaw turn s f n).
  { intros f n. rewrite C5, C4, C3, C2, C1. unfold shot_cvars.
    destruct (f =? turn) eqn:E; cbn [andb]; repeat case_bool_decide; subst; try done; try congruence;
      rewrite ?andb_true_r, ?andb_false_r; cbn [orb]; try done; by destruct (in_range (turn - 2) (turn + 2) f). }
  assert (HT : forall f n, toggle_at s5 f n = shot_toggles (frame - 1) frame s f n).
  { intros f n. rewrite T5, T4, T3, T2, T1. unfold shot_toggles.
    repeat case_bool_decide; subst; try congruence; rewrite ?andb_true_r, ?andb_false_r; try done. }
  split; [done|]. split; [done|]. split; [intros f; by rewrite M5, M4, M3, M2, M1|].
  rewrite (AddShot_unfold _ _ _ _ s5 Hf Ht). fold turn. rewrite shot_present_ok; try done.
  - rewrite HC. unfold shot_cvars. rewrite Z.eqb_refl. done.
  - rewrite HC. unfold shot_cvars. rewrite Z.eqb_refl. done.
  - rewrite HT. unfold shot_toggles. rewrite bool_decide_true, Z.eqb_refl by done. by rewrite (proj2 (Z.eqb_neq _ _)) by lia.
  - rewrite HT. unfold shot_toggles. by rewrite bool_decide_true, Z.eqb_refl by done.
Qed.

(** A shot in an empty script is a change, and not when it is made again; and a shot that turns one
    frame earlier is taken for the one that is there, so the view is not turned at its frame. *)
Definition shot20 : script := match AddShot (f32_of_bits 0x3f800000) (f32_of_bits 0x40000000) 20 10 [] with Ok (_, s) => s | Fault _ => [] end.
Lemma AddShot_other_turn : AddShot (f32_of_bits 0x3f800000) (f32_of_bits 0x40000000) 20 11 shot20 = Ok (false, shot20) /\
  cvar_at shot20 9 yaw_name = None /\ cvar_at shot20 10 yaw_name = Some (f32_of_bits 0x40000000).
Proof. split; [|split]; by_vm. Qed.

Lemma AddShot_spec_witness : by_frame [] /\
  exists s', AddShot (f32_of_bits 0x3f800000) (f32_of_bits 0x40000000) 20 10 [] = Ok (true, s') /\
    cvar_at s' 10 yaw_name = Some (f32_of_bits 0x40000000) /\ AddShot (f32_of_bits 0x3f800000) (f32_of_bits 0x40000000) 20 10 s' = Ok (false, s').
Proof.
  split; [constructor|]. destruct (AddShot_spec (f32_of_bits 0x3f800000) (f32_of_bits 0x40000000) 20 10 []) as (c & s' & E & Hs & Hc & H);
    [constructor|split; by_vm|split; by_vm|by_vm|by_vm|].
  destruct c.
  - destruct H as (H1 & _ & _ & H4). exists s'. split; [exact E|]. split; [|exact H4]. rewrite H1. by_vm.
  - destruct (proj1 Hc eq_refl) as ((p & Hp & _) & _). discriminate Hp.
Defined.

(** Adding a variable, a toggle or a command at a frame keeps the script in order and changes
    exactly that setting, in the block of the frame, which is made when there is none. *)
Theorem script_edits s f name v t cmd : by_frame s ->
  (exists s', AddCvar name v f s = Ok s' /\ by_frame s' /\ sets_cvar f name v s s') /\
  (exists s', AddToggle name t f s = Ok s' /\ by_frame s' /\ sets_toggle f name t s s') /\
  (exists s', AddCommand cmd f s = Ok s' /\ by_frame s' /\
     (forall f', commands_at s' f' = if f' =? f then commands_at s f ++ [cmd] else commands_at s f') /\
     (forall f' n, cvar_at s' f' n = cvar_at s f' n) /\ forall f' n, toggle_at s' f' n = toggle_at s f' n).
Proof.
  intros Hs. split_and!.
  - destruct (edit_spec f (fun b => set_convars (om_set name v (convars b)) b) s Hs (fun _ => eq_refl)) as (s' & E & Hs' & H).
    exists s'. split; [exact E|]. split; [done|]. by apply set_cvar_effect.
  - destruct (edit_spec f (fun b => set_toggles (om_set name t (toggles b)) b) s Hs (fun _ => eq_refl)) as (s' & E & Hs' & H).
    exists s'. split; [exact E|]. split; [done|]. by apply set_toggle_effect.
  - destruct (edit_spec f (Add_Command cmd) s Hs (fun _ => eq_refl)) as (s' & E & Hs' & H).
    exists s'. split; [exact E|]. split; [done|]. unfold commands_at, cvar_at, toggle_at.
    split_and!; intros f'; try intros n; rewrite H; (destruct (Z.eqb_spec f' f) as [->|]; [|done]); by destruct (blk s f).
Qed.

Lemma script_edits_witness : exists s', AddCommand (cs "jump") 5 [set_frame 7 empty_block] = Ok s' /\ by_frame s'.
Proof.
  destruct (script_edits [set_frame 7 empty_block] 5 yaw_name (f32_of_bits 0) true (cs "jump")) as (_ & _ & s' & E & Hs & _);
    [repeat constructor|by exists s'].
Defined.

(** ** Taking over the changes of another script *)

(** What playing a script does, block by block. *)
Definition play (s : script) : list (Z * bytes) := (fun b => (fb_frame b, GetCommand b)) <$> s.

Lemma first_change_spec old : forall new d n first, first_change old new d = (n, first) ->
  play (take n old) = play (take n new) /\ (n <= length old)%nat /\ (n <= length new)%nat /\
  match drop n old, drop n new with
  | b :: _, b' :: _ => first = Z.min (fb_frame b) (fb_frame b')
  | _, _ => first = d
  end.
Proof.
  induction old as [|b old IH]; intros new d n first E; [injection E as <- <-; cbn; split_and!; try done; lia|].
  destruct new as [|b' new]; [injection E as <- <-; cbn; split_and!; try done; lia|]. cbn [first_change] in E.
  destruct (negb (fb_frame b =? fb_frame b') || negb (bool_decide (GetCommand b = GetCommand b'))) eqn:Ed.
  - injection E as <- <-. cbn. split_and!; try done; lia.
  - destruct (first_change old new d) as [n' f'] eqn:E'. injection E as <- <-.
    destruct (IH new d n' f' E') as (H1 & H2 & H3 & H4). apply orb_false_iff in Ed as [Ef Ec].
    apply negb_false_iff, Z.eqb_eq in Ef. apply negb_false_iff, bool_decide_eq_true in Ec.
    cbn [take drop length]. unfold play in *. rewrite !fmap_cons, Ef, Ec, H1. split_and!; try done; lia.
Qed.

Lemma blk_play l l' f : play l = play l' -> GetCommand <$> blk l f = GetCommand <$> blk l' f.
Proof.
  unfold play. revert l'. induction l as [|b l IH]; intros [|b' l'] E; try done. rewrite !fmap_cons in E. injection E as Ef Ec E.
  cbn [blk]. rewrite Ef. destruct (fb_frame b' =? f); [cbn; by rewrite Ec|by apply IH].
Qed.

(** Below the frame of the first block there is none. *)
Lemma blk_below s f : by_frame s -> match s with b :: _ => f < fb_frame b | [] => True end -> blk s f = None.
Proof.
  destruct s as [|b s]; [done|]. intros [Hs Hb]%by_frame_cons Hf. apply blk_none. intros a Ha.
  apply elem_of_cons in Ha as [->|Ha]; [lia|]. specialize (Hb a Ha). lia.
Qed.

(** The frame that ends a script is below those of what follows it. *)
Lemma last_frame_below l r f : by_frame (l ++ r) -> last (fb_frame <$> l) = Some f -> forall b, b ∈ r -> f < fb_frame b.
Proof.
  intros (_ & _ & Hlr)%by_frame_app El b Hb. rewrite fmap_last in El. destruct (last l) as [c|] eqn:Ec; [|done].
  injection El as <-. apply Hlr; [|done]. by apply last_Some_elem_of.
Qed.

(** After the changes of another script are taken over, playing the script does what playing
    the other one does, block by block.  When the other script is at least as long, everything
    before the frame that is reported as the first changed one is as it was. *)
Theorem ApplyChanges_spec old new first s' :
  by_frame old -> by_frame new -> Forall (fun b => 0 <= fb_frame b) new -> ApplyChanges new old = (first, s') ->
  play s' = play new /\
  ((length old <= length new)%nat -> forall f, f < first -> GetCommand <$> blk old f = GetCommand <$> blk s' f).
Proof.
  intros Ho Hn Hpos E. unfold ApplyChanges in E. set (d := match last old with Some b => fb_frame b | None => 0 end) in E.
  destruct (first_change old new d) as [n f0] eqn:Ef. injection E as -> <-.
  destruct (first_change_spec old new d n first Ef) as (Hp & Hlo & Hln & Hf).
  split; [unfold play in *; by rewrite fmap_app, Hp, <- fmap_app, take_drop|].
  intros Hlen f Hlt. rewrite blk_app. rewrite <- (take_drop n old) at 1. rewrite blk_app.
  rewrite <- (take_drop n old) in Ho. apply by_frame_app in Ho as (_ & Hod & _).
  assert (Hnd : by_frame (drop n new)) by (rewrite <- (take_drop n new) in Hn; by apply by_frame_app in Hn as (_ & ? & _)).
  destruct (blk (take n old) f); [done|]. destruct (drop n old) as [|b r] eqn:Eo.
  - assert (n = length old) as -> by (apply (f_equal length) in Eo; rewrite length_drop in Eo; simpl in Eo; lia).
    rewrite (blk_none (drop _ new)); [done|]. intros b Hb.
    rewrite take_ge in Hp by lia. unfold d in Hf. destruct (last old) as [c|] eqn:El.
    + rewrite <- (take_drop (length old) new) in Hn. apply (f_equal (fmap fst)) in Hp. unfold play in Hp. rewrite <- !list_fmap_compose in Hp.
      assert (c_last : last (fb_frame <$> take (length old) new) = Some (fb_frame c)).
      { change (fb_frame <$> take (length old) new) with ((fst ∘ (fun b => (fb_frame b, GetCommand b))) <$> take (length old) new).
        rewrite <- Hp, fmap_last, El. done. }
      pose proof (last_frame_below _ _ _ Hn c_last b Hb). subst first. lia.
    + apply last_None in El. subst old. rewrite Forall_forall in Hpos. specialize (Hpos b Hb). subst first. lia.
  - destruct (drop n new) as [|b' r'] eqn:En.
    + apply (f_equal length) in Eo, En. rewrite length_drop in Eo, En. simpl in Eo, En. lia.
    + rewrite !blk_below; try done; subst first; lia.
Qed.

Lemma ApplyChanges_spec_witness :
  play (snd (ApplyChanges [Add_Command (cs "jump") empty_block] [empty_block])) = play [Add_Command (cs "jump") empty_block].
Proof.
  refine (proj1 (ApplyChanges_spec [empty_block] [Add_Command (cs "jump") empty_block] 0 _ _ _ _ eq_refl)); repeat constructor; by_vm.
Defined.

(** Two ways in which taking over changes goes wrong.  When the other script is shorter, the
    frame reported is that of the last block of the old one, although earlier blocks are gone.
    And since blocks are compared by their commands, which have six digits, a change of a value in
    a later digit is not taken over. *)
Theorem ApplyChanges_misses b1 b2 b3 p f n v v' :
  fb_frame b2 < fb_frame b3 -> stream_text v = stream_text v' -> v <> v' ->
  (exists first, ApplyChanges [b1] [b1; b2; b3] = (first, [b1]) /\ fb_frame b2 < first) /\
  (exists first, ApplyChanges [FB p f [(n, v')] [] []] [FB p f [(n, v)] [] []] = (first, [FB p f [(n, v)] [] []]) /\
     FB p f [(n, v)] [] [] <> FB p f [(n, v')] [] []).
Proof.
  intros Hf Hv Hne. split.
  - exists (fb_frame b3). split; [|done]. unfold ApplyChanges. cbn. rewrite Z.eqb_refl, bool_decide_true by done. done.
  - exists f. split; [|congruence]. unfold ApplyChanges. cbn [last first_change fb_frame].
    rewrite Z.eqb_refl, bool_decide_true; [done|]. unfold GetCommand. cbn [convars fmap list_fmap fst snd]. by rewrite Hv.
Qed.

Lemma ApplyChanges_misses_witness : let v := f32_of_bits 0x42f6e9d5 in let v' := f32_of_bits 0x42f6e9d6 in
  exists first, ApplyChanges [FB true 3 [(yaw_name, v')] [] []] [FB true 3 [(yaw_name, v)] [] []] = (first, [FB true 3 [(yaw_name, v)] [] []]).
Proof.
  intros v v'. destruct (ApplyChanges_misses empty_block (set_frame 1 empty_block) (set_frame 2 empty_block) true 3 yaw_name v v') as [_ (f & E & _)];
    [by_vm|by_vm|by_vm|by exists f].
Defined.

(** ** Moving blocks *)

(** Blocks in the order of their frames, several at one frame allowed, from frame 0 on. *)
Definition in_order (s : script) : Prop := StronglySorted (fun a b => fb_frame a <= fb_frame b) s /\ Forall (fun b => 0 <= fb_frame b) s.

Lemma in_order_app l r : in_order (l ++ r) <-> in_order l /\ in_order r /\ forall a b, a ∈ l -> b ∈ r -> fb_frame a <= fb_frame b.
Proof. unfold in_order. rewrite StronglySorted_app, Forall_app. tauto. Qed.

Lemma in_order_cons b r : in_order (b :: r) <-> 0 <= fb_frame b /\ in_order r /\ forall a, a ∈ r -> fb_frame b <= fb_frame a.
Proof.
  unfold in_order. rewrite Forall_cons. split.
  - intros [H [Hb Hr]]. inversion H as [|? ? Hs Hf]; subst. rewrite Forall_forall in Hf. tauto.
  - intros (Hb & [Hs Hr] & Hf). split; [|done]. constructor; [done|]. by apply Forall_forall.
Qed.

Lemma shift_all_ok d s s' : shift_all d s = Ok s' -> s' = (fun b => set_frame (fb_frame b + d) b) <$> s.
Proof.
  revert s'. induction s as [|b s IH]; intros s' E; cbn [shift_all] in E; [by inv_ok|].
  unfold int_of in E. case_if_in E; [|done]. cbn [mbind res_bind] in E.
  destruct (shift_all d s) as [rest|]; [|done]. cbn [mbind res_bind] in E. inv_ok. by rewrite fmap_cons, (IH rest).
Qed.

Lemma in_order_shift d s : in_order s -> match s with b :: _ => 0 <= fb_frame b + d | [] => True end ->
  in_order ((fun b => set_frame (fb_frame b + d) b) <$> s).
Proof.
  induction s as [|b s IH]; [done|]. rewrite in_order_cons, fmap_cons. intros (Hb & Hs & Hle) Hd. apply in_order_cons.
  split; [done|]. split.
  - apply IH; [done|]. destruct s as [|c s]; [done|]. specialize (Hle c ltac:(left)). lia.
  - intros a Ha. apply list_elem_of_fmap in Ha as (a' & -> & Ha'). specialize (Hle a' Ha'). cbn. lia.
Qed.

(** The frame a block cannot be moved below. *)
Lemma left_limit s l b r mv : in_order s -> s = l ++ b :: r ->
  (if zlen l =? 0 then mret 0 else p ← block_at s (zlen l - 1); mret (fb_frame p)) = Ok mv ->
  mv = match last l with Some p => fb_frame p | None => 0 end /\ 0 <= mv <= fb_frame b /\ forall a, a ∈ l -> fb_frame a <= mv.
Proof.
  intros Hs -> E. apply in_order_app in Hs as (Hl & [Hb _]%in_order_cons & Hlr).
  destruct (zlen l =? 0) eqn:E0; bool_props.
  - injection E as <-. assert (l = []) as -> by (apply nil_length_inv; lia). split_and!; try done. intros a Ha. by apply elem_of_nil in Ha.
  - destruct l as [|p l _] using rev_ind; [done|]. unfold block_at in E. rewrite length_app in E. cbn [length] in E.
    rewrite (proj2 (Z.leb_le _ _)) in E by lia. replace (Z.to_nat (Z.of_nat (length l + 1) - 1)) with (length l) in E by lia.
    rewrite <- app_assoc in E. cbn [app] in E. rewrite list_lookup_middle in E by done. injection E as <-. rewrite last_snoc.
    apply in_order_app in Hl as (_ & [Hp _]%in_order_cons & Hl). split; [done|]. split; [split; [done|]|].
    + apply Hlr; [apply elem_of_app; right; left|left].
    + intros a Ha. apply elem_of_app in Ha as [Ha|Ha]; [apply Hl; [done|left]|]. apply list_elem_of_singleton in Ha as ->. lia.
Qed.

(** Moving a block together with all blocks after it keeps the script in order: a move to the
    left stops at the frame of the block before, or at 0.  The blocks before stay, those from the
    index on move by the same distance, and the result says whether anything moved. *)
Theorem ShiftBlocks_spec i delta s moved s' :
  in_order s -> ShiftBlocks i delta s = Ok (moved, s') ->
  exists l b r d, s = l ++ b :: r /\ zlen l = i /\ s' = l ++ ((fun x => set_frame (fb_frame x + d) x) <$> b :: r) /\
    in_order s' /\ (moved = false <-> d = 0) /\ (0 <= delta -> d = delta) /\ (delta < 0 -> delta <= d <= 0) /\
    (d <> delta -> fb_frame b + d = match last l with Some p => fb_frame p | None => 0 end).
Proof.
  intros Hs E. unfold ShiftBlocks in E. apply bind_Ok_inv in E as (b & Eb & E). unfold block_at in Eb at 1. case_if_in Eb; [|done].
  destruct (s !! Z.to_nat i) as [b'|] eqn:Ei; [|done]. injection Eb as ->.
  pose proof (take_drop_middle s _ _ Ei) as Hsplit. set (l := take (Z.to_nat i) s) in *. set (r := drop (S (Z.to_nat i)) s) in *.
  assert (Hlen : zlen l = i) by (unfold l; rewrite length_take_le; [lia|]; apply lookup_lt_Some in Ei; lia).
  assert (Hdrop : drop (Z.to_nat i) s = b :: r) by (by apply drop_S).
  pose proof Hs as Hs0. rewrite <- Hsplit in Hs0. apply in_order_app in Hs0 as (Hl & Hbr & Hlr). pose proof Hbr as (Hb & _ & Hbl)%in_order_cons.
  apply bind_Ok_inv in E as (d & Ed & E).
  assert (Hd : (0 <= delta -> d = delta) /\ (delta < 0 -> delta <= d <= 0) /\
    (d <> delta -> fb_frame b + d = match last l with Some p => fb_frame p | None => 0 end) /\
    0 <= fb_frame b + d /\ (forall a, a ∈ l -> fb_frame a <= fb_frame b + d)).
  { destruct (delta <? 0) eqn:Eneg; bool_props.
    - apply bind_Ok_inv in Ed as (mv & Emv & Ed). apply bind_Ok_inv in Ed as (md & Emd & Ed). unfold int_of in Emd. case_if_in Emd; [|done].
      injection Emd as <-. injection Ed as <-. rewrite <- Hlen in Emv. destruct (left_limit s l b r mv Hs (eq_sym Hsplit) Emv) as (-> & [Hmv Hmv2] & Ha).
      destruct (delta <? _) eqn:Ec; bool_props; (split_and!; [lia..|]); intros a Hin; specialize (Ha a Hin); lia.
    - injection Ed as <-. split_and!; try lia. intros a Ha. specialize (Hlr a b Ha ltac:(left)). lia. }
  destruct Hd as (Hd1 & Hd2 & Hd3 & Hd4 & Hd5). exists l, b, r, d. split; [done|]. split; [done|].
  assert (Hs' : s' = l ++ ((fun x => set_frame (fb_frame x + d) x) <$> b :: r) /\ (moved = false <-> d = 0)).
  { destruct (d =? 0) eqn:Ed0; bool_props.
    - injection E as <- <-. split; [|done]. rewrite <- Hsplit at 1. f_equal. symmetry.
      rewrite <- (list_fmap_id (b :: r)) at 2. apply list_fmap_ext. intros k [] _. unfold set_frame. cbn. by rewrite Ed0, Z.add_0_r.
    - apply bind_Ok_inv in E as (rest & Er & E). injection E as <- <-. rewrite Hdrop in Er. apply shift_all_ok in Er as ->. split; [done|]. done. }
  destruct Hs' as [-> Hm]. split; [done|]. split; [|done].
  apply in_order_app. split; [done|]. split; [by apply in_order_shift|].
  intros a c Ha Hc. apply list_elem_of_fmap in Hc as (c' & -> & Hc'). specialize (Hd5 a Ha). cbn.
  apply elem_of_cons in Hc' as [->|Hc']; [lia|]. specialize (Hbl c' Hc'). lia.
Qed.

Lemma ShiftBlocks_spec_witness : let s := [set_frame 3 empty_block; set_frame 7 empty_block] in
  ShiftBlocks 1 (-9) s = Ok (true, [set_frame 3 empty_block; set_frame 3 empty_block]) /\ in_order [set_frame 3 empty_block; set_frame 3 empty_block].
Proof.
  intros s. split; [by_vm|]. assert (Hs : in_order s) by (split; repeat constructor; by_vm).
  destruct (ShiftBlocks_spec 1 (-9) s true [set_frame 3 empty_block; set_frame 3 empty_block] Hs eq_refl) as (? & ? & ? & ? & _ & _ & _ & H & _).
  exact H.
Defined.

(** ** Stacked settings *)

Definition wf_block (b : frameblock) : Prop := NoDup (convars b).*1 /\ NoDup (toggles b).*1.

(** Blocks that leave the game with the same settings. *)
Definition same_stack (b b' : frameblock) : Prop :=
  (forall n, om_find n (convars b) = om_find n (convars b')) /\ forall n, om_find n (toggles b) = om_find n (toggles b').

Lemma om_find_none {T} n (m : ordered_map T) : n ∉ m.*1 -> om_find n m = None.
Proof.
  induction m as [|[k v] m IH]; [done|]. cbn. intros [Hk Hm]%not_elem_of_cons. rewrite bool_decide_false by done. auto.
Qed.

Lemma foldl_set {T} (P : bytes -> bool) n (l m : ordered_map T) : NoDup l.*1 ->
  om_find n (foldl (fun m x => if P (fst x) then om_set (fst x) (snd x) m else m) m l) =
  if P n then match om_find n l with Some v => Some v | None => om_find n m end else om_find n m.
Proof.
  revert m. induction l as [|[k v] l IH]; intros m Hnd; [by destruct (P n)|]. cbn [foldl fst snd].
  rewrite fmap_cons in Hnd. apply NoDup_cons in Hnd as [Hk Hnd]. rewrite (IH _ Hnd). cbn [om_find fst].
  destruct (bool_decide_reflect (k = n)) as [->|Hne].
  - rewrite (om_find_none n l Hk). destruct (P n); [|done]. rewrite om_find_set, bool_decide_true by done. done.
  - destruct (P k); [|done]. rewrite om_find_set, bool_decide_false by done. done.
Qed.

Lemma om_set_keys {T} k v (m : ordered_map T) : NoDup m.*1 -> NoDup (om_set k v m).*1 /\ forall n, n ∈ (om_set k v m).*1 <-> n = k \/ n ∈ m.*1.
Proof.
  induction m as [|[k' v'] m IH]; cbn [om_set].
  - intros _. split; [apply NoDup_singleton|]. intros n. cbn. rewrite list_elem_of_singleton. set_solver.
  - rewrite fmap_cons. intros [Hk Hnd]%NoDup_cons. destruct (bool_decide_reflect (k' = k)) as [->|Hne].
    + split; [rewrite fmap_cons; by constructor|]. intros n. rewrite fmap_cons. cbn. rewrite elem_of_cons. tauto.
    + destruct (IH Hnd) as [IH1 IH2]. rewrite fmap_cons. split.
      * constructor; [|done]. cbn. rewrite IH2. intros [->|H]; done.
      * intros n. cbn. rewrite !elem_of_cons, IH2. tauto.
Qed.

Lemma foldl_set_keys {T} (P : bytes -> bool) (l m : ordered_map T) : NoDup m.*1 ->
  NoDup (foldl (fun m x => if P (fst x) then om_set (fst x) (snd x) m else m) m l).*1.
Proof.
  revert m. induction l as [|[k v] l IH]; intros m Hm; [done|]. cbn [foldl fst snd]. apply IH.
  destruct (P k); [by apply om_set_keys|done].
Qed.

Lemma Stack_convars n b acc : wf_block b -> om_find n (convars (Stack b acc)) =
  if StackableCvar n then match om_find n (convars b) with Some v => Some v | None => om_find n (convars acc) end else om_find n (convars acc).
Proof. intros [Hc _]. exact (foldl_set StackableCvar n (convars b) (convars acc) Hc). Qed.

Lemma Stack_toggles n b acc : wf_block b -> om_find n (toggles (Stack b acc)) =
  match om_find n (toggles b) with Some v => Some v | None => om_find n (toggles acc) end.
Proof. intros [_ Ht]. exact (foldl_set (fun _ => true) n (toggles b) (toggles acc) Ht). Qed.

Lemma Stack_wf b acc : wf_block acc -> wf_block (Stack b acc).
Proof.
  intros [Hc Ht]. split; [exact (foldl_set_keys StackableCvar (convars b) (convars acc) Hc)|
    exact (foldl_set_keys (fun _ => true) (toggles b) (toggles acc) Ht)].
Qed.

Lemma Stack_same b b' acc acc' : wf_block b -> convars b' = convars b -> toggles b' = toggles b -> same_stack acc acc' ->
  same_stack (Stack b' acc) (Stack b acc').
Proof.
  intros Hb Ec Et [Hc Ht]. assert (Hb' : wf_block b') by (destruct Hb; split; by rewrite ?Ec, ?Et).
  split; intros n; [rewrite !Stack_convars, Ec, Hc by done|rewrite !Stack_toggles, Et, Ht by done]; done.
Qed.

(** One of the blocks a shifted script starts with. *)
Definition shift_step (start : Z) (acc b : frameblock) : frameblock :=
  let acc := Stack b acc in if fb_frame b =? start then set_commands (commands b) acc else acc.

Lemma time_shift_after start r : Forall (fun b => start < fb_frame b <= INT_MAX) r -> 0 <= start ->
  forall acc added, time_shift start r acc added = Ok ((if added then [] else [acc]) ++ ((fun b => set_frame (fb_frame b - start) b) <$> r)).
Proof.
  intros Hr Hs. induction Hr as [|b r Hb _ IH]; intros acc added; [by destruct added|]. cbn [time_shift].
  rewrite (proj2 (Z.leb_gt _ _)) by lia. unfold int_of. rewrite (proj2 (andb_true_iff _ _)) by (unfold INT_MIN, INT_MAX in *; split; apply Z.leb_le; lia).
  cbn [mbind res_bind]. rewrite IH. done.
Qed.

Lemma time_shift_before start l r : Forall (fun b => fb_frame b <= start) l -> forall acc,
  time_shift start (l ++ r) acc false = time_shift start r (foldl (shift_step start) acc l) false.
Proof.
  intros Hl. induction Hl as [|b l Hb _ IH]; intros acc; [done|]. cbn [app time_shift foldl].
  rewrite (proj2 (Z.leb_le _ _) Hb). apply IH.
Qed.

Lemma shift_step_fold start l acc acc' : convars acc' = convars acc -> toggles acc' = toggles acc ->
  convars (foldl (shift_step start) acc' l) = convars (foldl (fun a b => Stack b a) acc l) /\
  toggles (foldl (shift_step start) acc' l) = toggles (foldl (fun a b => Stack b a) acc l) /\ fb_frame (foldl (shift_step start) acc' l) = fb_frame acc'.
Proof.
  revert acc acc'. induction l as [|b l IH]; intros acc acc' Hc Ht; [done|]. cbn [foldl].
  assert (Hs : convars (shift_step start acc' b) = convars (Stack b acc) /\ toggles (shift_step start acc' b) = toggles (Stack b acc) /\
    fb_frame (shift_step start acc' b) = fb_frame acc').
  { unfold shift_step, Stack. destruct (fb_frame b =? start); cbn; by rewrite Hc, Ht. }
  destruct Hs as (Hs1 & Hs2 & Hs3). rewrite <- Hs3. by apply IH.
Qed.

(** The settings in force at a frame: everything set before it. *)
Abbreviation in_force f s := (stack_before f s empty_block).

Lemma stack_before_all f l r acc : Forall (fun b => fb_frame b < f) l -> stack_before f (l ++ r) acc = stack_before f r (foldl (fun a b => Stack b a) acc l).
Proof.
  intros Hl. revert acc. induction Hl as [|b l Hb _ IH]; intros acc; [done|]. cbn [app stack_before foldl].
  rewrite (proj2 (Z.leb_gt _ _)) by done. apply IH.
Qed.

Lemma stack_before_shift start f r acc acc' : Forall wf_block r -> same_stack acc acc' ->
  same_stack (stack_before f ((fun b => set_frame (fb_frame b - start) b) <$> r) acc) (stack_before (f + start) r acc').
Proof.
  intros Hr. revert acc acc'. induction Hr as [|b r Hb _ IH]; intros acc acc' Hs; [done|]. rewrite fmap_cons. cbn [stack_before set_frame fb_frame].
  replace (f <=? fb_frame b - start) with (f + start <=? fb_frame b) by (destruct (f + start <=? fb_frame b) eqn:E1, (f <=? fb_frame b - start) eqn:E2; bool_props; lia).
  case_if; [done|]. apply IH. by apply Stack_same.
Qed.

Lemma stacked_stackable l acc n : Forall wf_block l -> StackableCvar n = false -> om_find n (convars acc) = None ->
  om_find n (convars (foldl (fun a b => Stack b a) acc l)) = None.
Proof.
  intros Hl Hn. revert acc. induction Hl as [|b l Hb _ IH]; intros acc Hacc; [done|]. cbn [foldl]. apply IH.
  by rewrite Stack_convars, Hn.
Qed.

Lemma stacked_wf l acc : wf_block acc -> wf_block (foldl (fun a b => Stack b a) acc l).
Proof. revert acc. induction l as [|b l IH]; intros acc H; [done|]. cbn [foldl]. by apply IH, Stack_wf. Qed.

Lemma blk_shift start r f : blk ((fun b => set_frame (fb_frame b - start) b) <$> r) f = set_frame f <$> blk r (f + start).
Proof.
  induction r as [|b r IH]; [done|]. rewrite fmap_cons. cbn [blk set_frame fb_frame].
  destruct (Z.eqb_spec (fb_frame b - start) f), (Z.eqb_spec (fb_frame b) (f + start)); try lia; [|done].
  cbn. unfold set_frame. by rewrite e.
Qed.

(** The block that stands for everything up to the start. *)
Lemma shift_start start l : by_frame l -> Forall wf_block l -> Forall (fun b => fb_frame b <= start) l ->
  let acc := foldl (shift_step start) (set_parsed true (set_frame 0 empty_block)) l in
  same_stack (Stack acc empty_block) (foldl (fun a b => Stack b a) empty_block l) /\ fb_frame acc = 0 /\ commands acc = commands_at l start.
Proof.
  intros Hl Hw Hle acc. destruct (shift_step_fold start l empty_block (set_parsed true (set_frame 0 empty_block)) eq_refl eq_refl) as (Ec & Et & Ef).
  fold acc in Ec, Et, Ef. split; [split|split; [done|]].
  - intros n. rewrite Stack_convars, Ec.
    + destruct (StackableCvar n) eqn:En; [by destruct (om_find n _)|]. by rewrite stacked_stackable.
    + unfold wf_block. rewrite Ec, Et. apply stacked_wf. split; constructor.
  - intros n. rewrite Stack_toggles, Et; [by destruct (om_find n _)|]. unfold wf_block. rewrite Ec, Et. apply stacked_wf. split; constructor.
  - subst acc. clear Ec Et Ef Hw. induction l as [|b l IH] using rev_ind; [done|]. apply by_frame_app in Hl as (Hl & _ & Hlb).
    apply Forall_app in Hle as [Hle [Hb _]%Forall_cons]. rewrite foldl_snoc. unfold commands_at. rewrite blk_app. cbn [blk].
    unfold shift_step at 1. destruct (Z.eqb_spec (fb_frame b) start) as [Eb|Eb].
    + rewrite blk_none; [done|]. intros x Hx. specialize (Hlb x b Hx ltac:(left)). lia.
    + cbn [Stack set_convars set_toggles commands]. rewrite (IH Hl Hle). unfold commands_at. by destruct (blk l start).
Qed.

Lemma start_split start s : by_frame s -> exists l r, s = l ++ r /\ Forall (fun b => fb_frame b <= start) l /\ Forall (fun b => start < fb_frame b) r.
Proof.
  intros Hs. destruct (frame_split (start + 1) s Hs) as (l & o & r & -> & _ & Hl & Hr & Ho & _).
  exists l, (option_list o ++ r). split; [done|]. split; [eapply Forall_impl; [exact Hl|]; cbn; lia|].
  apply Forall_app. split; [|eapply Forall_impl; [exact Hr|]; cbn; lia]. destruct o as [b|]; [|constructor]. repeat constructor. cbn in Ho. lia.
Qed.

(** C34: Playing the time-shifted version of a script is playing the script from the start frame
    on: at every later frame it runs the same block with the same settings in force, and its first
    block runs the commands of the start frame. *)
Theorem GetTimeShiftedVersion_spec info start :
  by_frame (current_script info) -> Forall wf_block (current_script info) -> 0 <= start ->
  Forall (fun b => fb_frame b <= INT_MAX) (current_script info) ->
  exists out, GetTimeShiftedVersion info start = Ok out /\ by_frame (current_script out) /\
    commands_at (current_script out) 0 = commands_at (current_script info) start /\
    forall f, 0 < f ->
      blk (current_script out) f = set_frame f <$> blk (current_script info) (f + start) /\
      same_stack (in_force f (current_script out)) (in_force (f + start) (current_script info)).
Proof.
  intros Hs Hw H0 Hmax. destruct (start_split start _ Hs) as (l & r & E & Hl & Hr). rewrite E in *.
  apply by_frame_app in Hs as (Hbl & Hbr & _). apply Forall_app in Hw as [Hwl Hwr]. apply Forall_app in Hmax as [_ Hmax].
  destruct (shift_start start l Hbl Hwl Hl) as (Hst & Hf0 & Hcmd). set (acc := foldl _ _ l) in *.
  unfold GetTimeShiftedVersion. rewrite (proj2 (Z.eqb_neq start (-1))) by lia. rewrite E, time_shift_before by done. fold acc.
  rewrite time_shift_after; [|by apply Forall_and|done]. cbn [mbind res_bind app]. eexists. split; [done|]. cbn [current_script].
  assert (Hlate : forall f, start < f -> blk l f = None).
  { intros f Hf. apply blk_none. intros b Hb. rewrite Forall_forall in Hl. specialize (Hl b Hb). cbn in Hl. lia. }
  split_and!.
  - apply by_frame_cons. split.
    + clear -Hbr. induction Hbr as [|b r _ IH Hb]; [constructor|]. rewrite fmap_cons. apply by_frame_cons. split; [done|].
      intros a Ha. apply list_elem_of_fmap in Ha as (a' & -> & Ha). rewrite Forall_forall in Hb. specialize (Hb a' Ha). cbn. lia.
    + intros a Ha. apply list_elem_of_fmap in Ha as (a' & -> & Ha). rewrite Forall_forall in Hr. specialize (Hr a' Ha). cbn. lia.
  - unfold commands_at. cbn [blk]. rewrite Hf0. cbn [Z.eqb]. rewrite Hcmd, blk_app. unfold commands_at. destruct (blk l start); [done|].
    rewrite blk_none; [done|]. intros b Hb. rewrite Forall_forall in Hr. specialize (Hr b Hb). cbn in Hr. lia.
  - intros f Hf. split.
    + cbn [blk]. rewrite Hf0, (proj2 (Z.eqb_neq 0 f)), blk_app, Hlate by lia. apply blk_shift.
    + cbn [stack_before]. rewrite Hf0, (proj2 (Z.leb_gt f 0)) by done. rewrite stack_before_all; [by apply stack_before_shift|].
      eapply Forall_impl; [exact Hl|]. cbn. lia.
Qed.

Lemma GetTimeShiftedVersion_spec_witness :
  let info := Playback 0 0 false false (f64_of_Z 0) empty_block [] [Add_Command (cs "jump") (set_frame 3 empty_block); FB true 9 [] [(attack_name, true)] []] in
  exists out, GetTimeShiftedVersion info 3 = Ok out /\ commands_at (current_script out) 0 = [cs "jump"].
Proof.
  intros info. destruct (GetTimeShiftedVersion_spec info 3) as (out & E & _ & Hc & _);
    [repeat constructor; by_vm|repeat constructor; by apply not_elem_of_nil|by_vm|repeat constructor; by_vm|].
  exists out. split; [exact E|exact Hc].
Defined.
