(* ===== verification/TasIo.v ===== *)
(** Readers and writers of lines: memory buffers and files (libtasquake/src/io.cpp and io.hpp).

    The code's two abstract classes are the type classes [ReadInterface] and [WriteInterface], with
    the laws their clients rely on: a reader yields the lines of a text one by one and comes to an
    end, a writer appends text.  Memory and file readers and writers are their instances.

    [realloc] is taken to succeed, and the bytes it adds are unspecified ([junk], by position).  No
    object has 2^32-1 bytes, so the offset of a reader does not wrap around.  The arguments of a
    formatted write are used twice; where the code runs (32-bit x86) the list of arguments is
    passed by value, so the second use sees them again. *)

From S2P Require Import Prelude.

(** * Interfaces *)

(** C: libtasquake/include/libtasquake/io.hpp:44-51 ReadInterface *)
Class ReadInterface (R : Type) : Type := {
  CanRead : R -> bool;
  GetLine : bytes -> R -> res (bool * bytes * R);
  (** More than the number of lines left. *)
  remaining : R -> nat
}.

(** C: libtasquake/include/libtasquake/io.hpp:89-96 WriteInterface *)
Class WriteInterface (W : Type) : Type := {
  Write : bytes -> W -> res W;
  Finalize : W -> W
}.

(** What a reader promises: in a state that satisfies [readable] it yields, one by one, the lines
    of [lines_left], with empty lines in between that say nothing. *)
Class ReadLaws (R : Type) `{ReadInterface R} : Type := {
  readable : R -> Prop;
  lines_left : R -> list bytes;
  read_end r : readable r -> CanRead r = false -> lines_left r = [];
  read_step str r : readable r -> CanRead r = true -> exists b l r',
    GetLine str r = Ok (b, l, r') /\ readable r' /\ (remaining r' < remaining r)%nat /\
    lines_left r = (if bool_decide (l = []) then [] else [l]) ++ lines_left r'
}.

(** * Reading memory *)

(** C: libtasquake/include/libtasquake/io.hpp:63-71 BufferReadInterface *)
Record bufread : Type := BR { rbuf : bytes; rsize : Z; roff : Z }.

(** C: libtasquake/src/io.cpp:68-73 Init *)
Definition buf_reader (buffer : bytes) (size : Z) : bufread := BR buffer size 0.

(** C: libtasquake/src/io.cpp:75-77 CanRead *)
Definition buf_can_read (r : bufread) : bool := roff r <? rsize r.

(** How many of [n] bytes at [off] come before the end of a line.
    C: libtasquake/src/io.cpp:90-95 endOffset *)
Fixpoint line_end (buf : bytes) (off : Z) (n : nat) : res Z :=
  match n with
  | O => mret 0
  | S n =>
      c ← load1 buf off;
      if (c =? 0) || (c =? 10) then mret 0 else e ← line_end buf (off + 1) n; mret (1 + e)
  end.

(** C: libtasquake/src/io.cpp:85-102 str *)
Fixpoint get_line_loop (fuel : nat) (r : bufread) : res (bytes * bufread) :=
  match fuel with
  | O => Fault OutOfFuel
  | S fuel =>
      if roff r <? rsize r then
        endOffset ← line_end (rbuf r) (roff r) (Z.to_nat (rsize r - roff r));
        let r' := BR (rbuf r) (rsize r) (roff r + endOffset + 1) in
        if endOffset =? 0 then get_line_loop fuel r'
        else str ← load (rbuf r) (roff r) endOffset; mret (str, r')
      else mret ([], r)
  end.

(** C: libtasquake/src/io.cpp:79-105 GetLine *)
Definition buf_get_line (str : bytes) (r : bufread) : res (bool * bytes * bufread) :=
  if negb (buf_can_read r) then mret (false, [], r)
  else
    '(str, r) ← get_line_loop (S (Z.to_nat (rsize r - roff r))) r;
    mret (negb (bool_decide (str = [])), str, r).

(** C: libtasquake/src/io.cpp:107-113 Read *)
Definition buf_read (buf_size : Z) (r : bufread) : res (bytes * bufread) :=
  let bytesLeft := u32 (rsize r - roff r) in
  let n := Z.min bytesLeft buf_size in
  d ← load (rbuf r) (roff r) n;
  mret (d, BR (rbuf r) (rsize r) (roff r + n)).

#[export] Instance buf_ReadInterface : ReadInterface bufread := {
  CanRead := buf_can_read;
  GetLine := buf_get_line;
  remaining r := Z.to_nat (rsize r - roff r)
}.

(** * Reading a file *)

(** The stream: the text not read yet, and whether it is good.
    C: libtasquake/include/libtasquake/io.hpp:53-61 FileReadInterface *)
Record fileread : Type := FR { ftext : bytes; fgood : bool }.

(** Opening a file; [None] when there is none.
    C: libtasquake/src/io.cpp:44-48 Init *)
Definition file_reader (content : option bytes) : fileread :=
  match content with Some t => FR t true | None => FR [] false end.

(** C: libtasquake/src/io.cpp:50-52 CanRead *)
Definition file_can_read (r : fileread) : bool := fgood r.

(** The text before a newline, and the text after it when there is one. *)
Fixpoint until_nl (t : bytes) : bytes * option bytes :=
  match t with
  | [] => ([], None)
  | c :: t => if c =? 10 then ([], Some t) else let '(l, r) := until_nl t in (c :: l, r)
  end.

(** [std::getline] leaves the string alone when the stream is not good, and marks the stream when
    the text ends before a newline.
    C: libtasquake/src/io.cpp:54-57 GetLine *)
Definition file_get_line (str : bytes) (r : fileread) : res (bool * bytes * fileread) :=
  let '(str, r) :=
    if fgood r then match until_nl (ftext r) with (l, Some t) => (l, FR t true) | (l, None) => (l, FR [] false) end
    else (str, r) in
  mret (negb (bool_decide (str = [])) || file_can_read r, str, r).

#[export] Instance file_ReadInterface : ReadInterface fileread := {
  CanRead := file_can_read;
  GetLine := file_get_line;
  remaining r := if fgood r then S (length (ftext r)) else 0%nat
}.

(** * Writing a file *)

(** A formatted write goes through a buffer of 1024 bytes, terminator included.
    C: libtasquake/src/io.cpp:130-139 Write *)
Definition file_write (text : bytes) (w : bytes) : res bytes :=
  let BUFFER := take 1023 text ++ [0] in
  mret (w ++ take (Z.to_nat (Z.min 1024 (zlen text))) BUFFER).

#[export] Instance file_WriteInterface : WriteInterface bytes := { Write := file_write; Finalize w := w }.

(** * Writing memory *)

(** C: libtasquake/include/libtasquake/io.hpp:109-120 BufferWriteInterface *)
Record bufwrite : Type := BW { mem : bytes; bsize : Z; boff : Z }.

Section Memory.
Context (junk : nat -> Z).

(** C: libtasquake/src/io.cpp:13-23 Realloc *)
Definition Realloc (newsize : Z) (w : bufwrite) : bufwrite :=
  let n := Z.to_nat newsize in
  BW (take n (mem w) ++ (junk <$> seq (length (mem w)) (n - length (mem w)))) newsize (boff w).

(** C: libtasquake/src/io.cpp:145-149 Init *)
Definition buf_writer : bufwrite := Realloc 128 (BW [] 0 0).

(** The loop does not end when the target is beyond 2^31.
    C: libtasquake/src/io.cpp:187-189 newSize *)
Fixpoint grow (fuel : nat) (newSize targetSize : Z) : res Z :=
  match fuel with
  | O => Fault OutOfFuel
  | S fuel => if newSize <? targetSize then grow fuel (u32 (newSize << 1)) targetSize else mret newSize
  end.

(** C: libtasquake/src/io.cpp:183-194 AllocateSpaceForWrite *)
Definition AllocateSpaceForWrite (n : Z) (w : bufwrite) : res bufwrite :=
  newSize ← grow 33 (Z.max 1 (bsize w)) (u32 (boff w + n));
  mret (if newSize =? bsize w then w else Realloc newSize w).

(** What [vsnprintf] stores in [room] bytes. *)
Definition printed (room : Z) (text : bytes) : bytes :=
  if room =? 0 then [] else take (Z.to_nat (room - 1)) text ++ [0].

(** C: libtasquake/src/io.cpp:160-176 Write *)
Definition buf_write (text : bytes) (w : bufwrite) : res bufwrite :=
  let bytesLeft := u32 (bsize w - boff w) in
  m ← store (mem w) (boff w) (printed bytesLeft text);
  let w := BW m (bsize w) (boff w) in
  let n := zlen text in
  w ← (if n =? bytesLeft then mret w
       else
         w ← AllocateSpaceForWrite n w;
         let bytesLeft := u32 (bsize w - boff w) in
         m ← store (mem w) (boff w) (printed bytesLeft text);
         mret (BW m (bsize w) (boff w)));
  mret (BW (mem w) (bsize w) (u32 (boff w + n))).

(** C: libtasquake/src/io.cpp:155-158 WriteLine *)
Definition buf_write_line (str : bytes) (w : bufwrite) : res (bool * bufwrite) :=
  w ← buf_write (until0 str ++ [10]) w; mret (true, w).

(** C: libtasquake/src/io.cpp:178-180 Finalize *)
Definition buf_finalize (w : bufwrite) : bufwrite := BW (mem w) (boff w) (boff w).

(** C: libtasquake/src/io.cpp:196-200 WriteBytes *)
Definition WriteBytes (src : bytes) (w : bufwrite) : res bufwrite :=
  w ← AllocateSpaceForWrite (zlen src) w;
  m ← store (mem w) (boff w) src;
  mret (BW m (bsize w) (u32 (boff w + zlen src))).

Definition buf_WriteInterface : WriteInterface bufwrite := {| Write := buf_write; Finalize := buf_finalize |}.

(** The bytes of a 32-bit number in memory. *)
Definition le4 (n : Z) : bytes := [u8 n; u8 (n >> 8); u8 (n >> 16); u8 (n >> 24)].

(** The elements of a vector are given by their bytes.
    C: libtasquake/include/libtasquake/io.hpp:122-130 WritePODVec *)
Definition WritePODVec (elems : list bytes) (w : bufwrite) : res bufwrite :=
  let size := u32 (zlen (concat elems)) in
  w ← AllocateSpaceForWrite (u32 (size + 4)) w;
  m ← store (mem w) (boff w) (le4 size);
  let off := u32 (boff w + 4) in
  m ← store m off (concat elems);
  mret (BW m (bsize w) (u32 (off + size))).
End Memory.

(** C: libtasquake/src/io.cpp:125-128 WriteLine *)
Definition file_write_line (str : bytes) (w : bytes) : bool * bytes := (true, w ++ str ++ [10]).

Definition un_le4 (d : bytes) : Z :=
  match d with [a; b; c; d] => a + 256 * b + 65536 * c + 16777216 * d | _ => 0 end.

Fixpoint chunks (n : nat) (sz : nat) (d : bytes) : list bytes :=
  match n with O => [] | S n => take sz d :: chunks n sz (drop sz d) end.

(** Elements of [sz] bytes; copying more than the vector has room for is undefined.
    C: libtasquake/include/libtasquake/io.hpp:73-81 ReadPODVec *)
Definition ReadPODVec (sz : Z) (r : bufread) : res (list bytes * bufread) :=
  h ← load (rbuf r) (roff r) 4;
  let size := un_le4 h in
  let off := u32 (roff r + 4) in
  d ← load (rbuf r) off size;
  if size mod sz =? 0 then mret (chunks (Z.to_nat (size / sz)) (Z.to_nat sz) d, BR (rbuf r) (rsize r) (u32 (off + size)))
  else Fault (Undefined "copy past the end of the vector").

(** * Lines of a text *)

Definition some_line (l : bytes) : list bytes := if bool_decide (l = []) then [] else [l].

(** The lines of a text that are not empty; [sep] says which bytes end a line. *)
Fixpoint lines_from (sep : Z -> bool) (cur t : bytes) : list bytes :=
  match t with
  | [] => some_line cur
  | c :: t => if sep c then some_line cur ++ lines_from sep [] t else lines_from sep (cur ++ [c]) t
  end.
Abbreviation lines_of sep t := (lines_from sep [] t).

Definition ends_line (c : Z) : bool := (c =? 0) || (c =? 10).
Definition newline (c : Z) : bool := c =? 10.

Lemma some_line_cons c l : some_line (c :: l) = [c :: l].
Proof. done. Qed.

Lemma lines_from_app sep cur l t : Forall (fun c => sep c = false) l -> lines_from sep cur (l ++ t) = lines_from sep (cur ++ l) t.
Proof.
  intros Hl. revert cur. induction Hl as [|c l Hc _ IH]; intros cur; [by rewrite app_nil_r|].
  cbn [app lines_from]. by rewrite Hc, IH, <- app_assoc.
Qed.

Lemma lines_of_line sep l c t : Forall (fun c => sep c = false) l -> sep c = true -> lines_of sep (l ++ c :: t) = some_line l ++ lines_of sep t.
Proof. intros Hl Hc. rewrite lines_from_app by done. cbn. by rewrite Hc. Qed.

Lemma lines_of_last sep l : Forall (fun c => sep c = false) l -> lines_of sep l = some_line l.
Proof. intros Hl. rewrite <- (app_nil_r l) at 1. by rewrite lines_from_app. Qed.

(** A text starts with a line. *)
Lemma line_split (sep : Z -> bool) t : exists l rest, t = l ++ rest /\ Forall (fun c => sep c = false) l /\
  match rest with [] => True | c :: _ => sep c = true end.
Proof.
  induction t as [|c t (l & rest & -> & Hl & Hr)]; [by exists [], []|]. destruct (sep c) eqn:E.
  - by exists [], (c :: l ++ rest).
  - exists (c :: l), rest. split_and!; [done|by constructor|done].
Qed.

Lemma load1_drop buf off c d : 0 <= off -> drop (Z.to_nat off) buf = c :: d -> load1 buf off = Ok c /\ drop (Z.to_nat (off + 1)) buf = d.
Proof.
  intros H0 E. split.
  - apply load1_lookup; [done|]. rewrite <- (Nat.add_0_r (Z.to_nat off)), <- lookup_drop. by rewrite E.
  - replace (Z.to_nat (off + 1)) with (Z.to_nat off + 1)%nat by lia. by rewrite <- drop_drop, E.
Qed.

Lemma line_end_spec buf l rest q : Forall (fun c => ends_line c = false) l -> match rest with [] => True | c :: _ => ends_line c = true end ->
  forall off, 0 <= off -> drop (Z.to_nat off) buf = (l ++ rest) ++ q -> line_end buf off (length (l ++ rest)) = Ok (zlen l).
Proof.
  intros Hl Hr. induction Hl as [|c l Hc _ IH]; intros off H0 E.
  - destruct rest as [|c rest]; [done|]. cbn [app length line_end]. destruct (load1_drop buf off c (rest ++ q) H0 E) as [-> _].
    cbn [mbind res_bind]. fold (ends_line c). by rewrite Hr.
  - cbn [app length line_end]. destruct (load1_drop buf off c ((l ++ rest) ++ q) H0 E) as [-> Ed]. cbn [mbind res_bind].
    fold (ends_line c). rewrite Hc, IH by (done || lia). cbn [mbind res_bind mret res_ret length]. f_equal. lia.
Qed.

(** The reader stands before the text [t]. *)
Definition before (r : bufread) (t : bytes) : Prop :=
  0 <= roff r /\ rsize r - roff r = zlen t /\ exists q, drop (Z.to_nat (roff r)) (rbuf r) = t ++ q.

Lemma before_text r t : before r t -> slice (rbuf r) (roff r) (rsize r - roff r) = t.
Proof. intros (H0 & Hs & q & E). unfold slice. by rewrite Hs, Nat2Z.id, E, take_app_length. Qed.

Definition buf_text (r : bufread) : bytes := slice (rbuf r) (roff r) (rsize r - roff r).
Definition buf_readable (r : bufread) : Prop := 0 <= roff r <= rsize r + 1 /\ 0 <= rsize r <= zlen (rbuf r).

Lemma readable_before r : buf_readable r -> roff r <= rsize r -> before r (buf_text r).
Proof.
  intros [H1 H2] Hle. unfold before, buf_text, slice. split; [lia|]. split; [rewrite length_take, length_drop; lia|].
  eexists. by rewrite take_drop.
Qed.

Lemma before_step r x c t : before r (x ++ c :: t) -> before (BR (rbuf r) (rsize r) (roff r + zlen x + 1)) t.
Proof.
  intros (H0 & Hs & q & E). rewrite length_app in Hs. cbn [length] in Hs. split; [cbn; lia|]. split; [cbn; lia|]. exists q. cbn [rbuf roff].
  replace (Z.to_nat (roff r + zlen x + 1)) with (Z.to_nat (roff r) + (length x + 1))%nat by lia.
  rewrite <- drop_drop, E, <- drop_drop, <- app_assoc, drop_app_length. done.
Qed.

(** Where [get_line_loop] comes to: after a line, or at the end when
    there is none; not beyond the end when the last line has its end. *)
Lemma get_line_loop_spec fuel : forall r t, before r t -> (length t < fuel)%nat -> exists l r', get_line_loop fuel r = Ok (l, r') /\
  rbuf r' = rbuf r /\ rsize r' = rsize r /\ roff r <= roff r' <= rsize r + 1 /\ (t <> [] -> roff r < roff r') /\
  lines_of ends_line t = some_line l ++ lines_of ends_line (buf_text r') /\
  (match last t with Some c => ends_line c = true | None => True end -> roff r' <= rsize r).
Proof.
  induction fuel as [|fuel IH]; intros r t Hb Hlt; [lia|]. pose proof Hb as (H0 & Hs & q & E). cbn [get_line_loop].
  destruct (roff r <? rsize r) eqn:Ec; bool_props.
  2:{ assert (t = []) as -> by (apply nil_length_inv; lia). exists [], r. split_and!; try done; try lia.
      unfold buf_text. by rewrite (before_text r [] Hb). }
  destruct (line_split ends_line t) as (l & rest & -> & Hl & Hr). rewrite Hs, Nat2Z.id, (line_end_spec _ l rest q) by done. cbn [mbind res_bind].
  assert (Hld : load (rbuf r) (roff r) (zlen l) = Ok l).
  { rewrite <- (take_drop (Z.to_nat (roff r)) (rbuf r)), E, <- app_assoc. apply load_mid; [|done]. rewrite length_take.
    apply (f_equal length) in E. rewrite length_drop, !length_app in E. rewrite !length_app in Hs. lia. }
  destruct rest as [|c rest].
  - rewrite app_nil_r in *. assert (Hdone : buf_text (BR (rbuf r) (rsize r) (roff r + zlen l + 1)) = []).
    { unfold buf_text, slice. cbn [rbuf rsize roff]. by replace (Z.to_nat (rsize r - (roff r + zlen l + 1))) with 0%nat by lia. }
    destruct (zlen l =? 0) eqn:El; bool_props; [lia|]. rewrite Hld. cbn [mbind res_bind]. eexists l, _. split; [done|].
    rewrite Hdone. cbn [rbuf rsize roff]. split_and!; try done; try lia; [by rewrite lines_of_last, app_nil_r|].
    intros Hlast. destruct (last l) as [c|] eqn:Ell; [|apply last_None in Ell as ->; done].
    apply last_Some_elem_of in Ell. rewrite Forall_forall in Hl. specialize (Hl c Ell). cbn in Hl. congruence.
  - pose proof (before_step r l c rest Hb) as Hb'. rewrite length_app in Hlt, Hs. cbn [length] in Hlt, Hs.
    rewrite (lines_of_line _ l c rest Hl Hr). destruct (zlen l =? 0) eqn:El; bool_props.
    + destruct (IH _ rest Hb') as (l' & r' & E' & Eb & Es & Ho & _ & Hlines & Hd); [lia|]. rewrite El in *. rewrite E'. exists l', r'.
      cbn [rbuf rsize roff] in *. split_and!; try done; try lia; [by assert (l = []) as -> by (apply nil_length_inv; lia)|].
      rewrite last_app_cons, last_cons. intros Hlast. apply Hd. by destruct (last rest).
    + rewrite Hld. cbn [mbind res_bind]. eexists l, _. split; [done|]. cbn [rbuf rsize roff]. split_and!; try done; try lia.
      f_equal. f_equal. unfold buf_text. symmetry. exact (before_text _ _ Hb').
Qed.

#[export] Instance buf_ReadLaws : ReadLaws bufread.
Proof.
  refine {| readable := buf_readable; lines_left := fun r => lines_of ends_line (buf_text r) |}.
  - intros r Hr Hc. unfold CanRead, buf_ReadInterface, buf_can_read in Hc. bool_props. unfold buf_text, slice.
    by replace (Z.to_nat (rsize r - roff r)) with 0%nat by lia.
  - intros str r Hr Hc. unfold CanRead, buf_ReadInterface, buf_can_read in Hc. bool_props.
    pose proof (readable_before r Hr ltac:(lia)) as Hb. pose proof Hb as (_ & Hlen & _).
    destruct (get_line_loop_spec (S (Z.to_nat (rsize r - roff r))) r _ Hb) as (l & r' & E & Eb & Es & Ho & Hlt & Hl & _); [lia|].
    assert (Hne : buf_text r <> []) by (intros E0; rewrite E0 in Hlen; cbn in Hlen; lia). specialize (Hlt Hne).
    eexists _, l, r'. split; [|split; [|split; [|exact Hl]]].
    + unfold GetLine, buf_ReadInterface, buf_get_line, buf_can_read. rewrite (proj2 (Z.ltb_lt _ _)) by lia. cbn [negb]. by rewrite E.
    + destruct Hr. unfold buf_readable. rewrite Eb, Es. lia.
    + unfold remaining, buf_ReadInterface. rewrite Es. lia.
Defined.

(** The memory read ends with the end of a line, and the reader is not beyond it. *)
Definition tidy (r : bufread) : Prop := 0 <= roff r <= rsize r /\ rsize r <= zlen (rbuf r) /\
  match last (take (Z.to_nat (rsize r)) (rbuf r)) with Some c => ends_line c = true | None => True end.

Lemma tidy_step str r b l r' : tidy r -> CanRead r = true -> GetLine str r = Ok (b, l, r') -> tidy r' /\ rbuf r' = rbuf r /\ rsize r' = rsize r.
Proof.
  intros (Hr & Hs & Hl) Hc E. unfold CanRead, buf_ReadInterface, buf_can_read in Hc. bool_props.
  assert (Hb : before r (buf_text r)) by (apply readable_before; unfold buf_readable; lia). pose proof Hb as (_ & Hlen & _).
  destruct (get_line_loop_spec (S (Z.to_nat (rsize r - roff r))) r _ Hb) as (l' & r1 & E1 & Eb & Es & Ho & _ & _ & Hle); [lia|].
  unfold GetLine, buf_ReadInterface, buf_get_line, buf_can_read in E. rewrite (proj2 (Z.ltb_lt _ _)) in E by lia. cbn [negb] in E. rewrite E1 in E.
  injection E as <- <- <-. split; [|done]. unfold tidy. rewrite Eb, Es. split; [split; [lia|]|done]. apply Hle.
  unfold buf_text, slice. rewrite take_drop_commute. replace (Z.to_nat (roff r) + Z.to_nat (rsize r - roff r))%nat with (Z.to_nat (rsize r)) by lia.
  set (t := take _ (rbuf r)) in *. rewrite <- (take_drop (Z.to_nat (roff r)) t) in Hl.
  destruct (drop (Z.to_nat (roff r)) t) as [|c d]; [done|]. by rewrite last_app_cons in Hl.
Qed.

Lemma until_nl_spec l t : Forall (fun c => newline c = false) l ->
  until_nl l = (l, None) /\ until_nl (l ++ 10 :: t) = (l, Some t).
Proof.
  induction 1 as [|c l Hc _ [IH1 IH2]]; [done|]. unfold newline in Hc. cbn [until_nl app]. by rewrite Hc, IH1, IH2.
Qed.

#[export] Instance file_ReadLaws : ReadLaws fileread.
Proof.
  refine {| readable := fun r => fgood r = false -> ftext r = []; lines_left := fun r => lines_of newline (ftext r) |}.
  - intros r Hr Hc. by rewrite (Hr Hc).
  - intros str [t g] Hr Hc. cbn in Hc. subst g. unfold GetLine, file_ReadInterface, file_get_line. cbn [fgood ftext].
    destruct (line_split newline t) as (l & rest & -> & Hl & Hrest). destruct rest as [|c rest].
    + rewrite app_nil_r, (proj1 (until_nl_spec l [] Hl)). eexists _, l, _. split; [done|]. split; [done|]. cbn. split; [lia|].
      by rewrite lines_of_last, app_nil_r.
    + unfold newline in Hrest. bool_props. subst c. rewrite (proj2 (until_nl_spec l rest Hl)). eexists _, l, _. split; [done|].
      split; [done|]. cbn [remaining fgood ftext]. split; [rewrite length_app; cbn; lia|]. by apply lines_of_line.
Defined.

(** * Writers *)

(** A text that reads as another: some newlines are zeros. *)
Definition reads_as (a b : bytes) : Prop := Forall2 (fun c c' => c = c' \/ (c = 0 /\ c' = 10)) a b.

#[export] Instance reads_as_refl : Reflexive reads_as.
Proof. intros a. induction a; constructor; auto. Qed.

#[export] Instance reads_as_app : Proper (reads_as ==> reads_as ==> reads_as) app.
Proof. intros a a' H b b' H'. by apply Forall2_app. Qed.

Lemma reads_as_lines a b : reads_as a b -> forall cur, lines_from ends_line cur a = lines_from ends_line cur b.
Proof.
  induction 1 as [|c c' a b Hc _ IH]; intros cur; [done|]. cbn [lines_from]. destruct Hc as [->|[-> ->]]; [|by rewrite IH].
  by rewrite !IH.
Qed.

Section MemoryLemmas.
Context (junk : nat -> Z).

Lemma grow_ok fuel : forall n t, 1 <= n -> t <= 2147483648 -> t <= n * 2 ^ (Z.of_nat fuel) -> exists n', grow (S fuel) n t = Ok n' /\ Z.max n t <= n' /\ (n' < 2 * t \/ n' = n).
Proof.
  induction fuel as [|fuel IH]; intros n t Hn Ht Hlt; cbn [grow]; (destruct (n <? t) eqn:E; bool_props; [|exists n; split; [done|lia]]).
  - cbn in Hlt. lia.
  - rewrite Z.shiftl_mul_pow2, u32_id by lia. rewrite Nat2Z.inj_succ, Z.pow_succ_r in Hlt by lia.
    destruct (IH (n * 2 ^ 1) t) as (n' & E' & H1 & H2); [lia..|]. exists n'. split; [exact E'|]. lia.
Qed.

Definition writable (w : bufwrite) : Prop := 0 <= boff w <= bsize w /\ bsize w <= zlen (mem w) /\ bsize w < 4294967296.
Definition written (w : bufwrite) : bytes := take (Z.to_nat (boff w)) (mem w).

Lemma Allocate_ok n w : writable w -> 0 <= n -> boff w + n <= 2147483648 -> exists w', AllocateSpaceForWrite junk n w = Ok w' /\
  writable w' /\ boff w' = boff w /\ written w' = written w /\ boff w + n <= bsize w'.
Proof.
  intros (H1 & H2 & H3) Hn Hmax. unfold AllocateSpaceForWrite. rewrite u32_id by lia.
  destruct (grow_ok 32 (Z.max 1 (bsize w)) (boff w + n)) as (n' & E & Hge & Hlt); [lia..|]. rewrite E. cbn [mbind res_bind].
  destruct (n' =? bsize w) eqn:Es; bool_props; [exists w; split_and!; try done; lia|].
  eexists. split; [done|]. unfold Realloc, writable, written. cbn [mem bsize boff]. split; [|split_and!; [done| |lia]].
  - rewrite length_app, length_take, length_fmap, length_seq. lia.
  - rewrite take_app_le by (rewrite length_take; lia). by rewrite take_take, Nat.min_l by lia.
Qed.

Lemma length_printed room text : 0 <= room -> zlen (printed room text) <= room.
Proof. intros H. unfold printed. case_if; [cbn; lia|]. rewrite length_app, length_take. cbn [length]. lia. Qed.

(** A formatted write into enough room. *)
Lemma print_ok text w : writable w -> exists m, store (mem w) (boff w) (printed (bsize w - boff w) text) = Ok m /\ length m = length (mem w) /\
  take (Z.to_nat (boff w)) m = written w /\
  (zlen text < bsize w - boff w -> take (Z.to_nat (boff w + zlen text)) m = written w ++ text) /\
  (zlen text = bsize w - boff w -> text <> [] -> take (Z.to_nat (boff w + zlen text)) m = written w ++ removelast text ++ [0]).
Proof.
  intros (H1 & H2 & H3). pose proof (length_printed (bsize w - boff w) text ltac:(lia)) as Hp.
  rewrite store_ok by lia. eexists. split; [done|]. split; [apply length_splice; lia|]. split; [apply take_splice_before; lia|]. split.
  - intros Hlt. unfold printed. rewrite (proj2 (Z.eqb_neq _ _)) by lia. rewrite (take_ge text) by lia.
    replace (Z.to_nat (boff w + zlen text)) with (Z.to_nat (boff w) + length text)%nat by lia.
    unfold splice. rewrite take_app_ge by (rewrite length_take; lia). rewrite length_take, Nat.min_l by lia.
    replace (Z.to_nat (boff w) + length text - Z.to_nat (boff w))%nat with (length text) by lia.
    rewrite <- app_assoc, take_app_le by lia. by rewrite (take_ge text).
  - intros Heq Hne. unfold printed in *. destruct (bsize w - boff w =? 0) eqn:E0; bool_props.
    + destruct text; [done|]. cbn [length] in Heq. lia.
    + assert (Hr : take (Z.to_nat (bsize w - boff w - 1)) text = removelast text).
      { rewrite removelast_firstn_len. f_equal. lia. }
      assert (Hlr : length (removelast text ++ [0]) = length text).
      { rewrite <- Hr, length_app, length_take. cbn [length]. lia. }
      rewrite Hr. replace (Z.to_nat (boff w + zlen text)) with (Z.to_nat (boff w) + length (removelast text ++ [0%Z]))%nat by lia.
      apply take_splice_through. lia.
Qed.

(** What one write appends: the text, whose last byte is lost when it fills the buffer. *)
Lemma buf_write_ok text w : writable w -> text <> [] -> boff w + zlen text <= 2147483648 -> exists w', buf_write junk text w = Ok w' /\
  writable w' /\ boff w' = boff w + zlen text /\
  written w' = written w ++ (if boff w' =? bsize w' then removelast text ++ [0] else text).
Proof.
  intros Hw Hne Hmax. pose proof Hw as (H1 & H2 & H3). unfold buf_write. rewrite u32_id by lia.
  destruct (print_ok text w Hw) as (m & Em & Hlen & Hpre & Hlt & Heq). rewrite Em. cbn [mbind res_bind mem bsize boff].
  destruct (zlen text =? bsize w - boff w) eqn:E; bool_props.
  - eexists. split; [done|]. cbn [mem bsize boff]. rewrite u32_id by lia. split; [unfold writable; cbn; lia|]. split; [done|].
    rewrite (proj2 (Z.eqb_eq _ _)) by lia. unfold written. cbn [mem boff]. auto.
  - assert (Hw1 : writable (BW m (bsize w) (boff w))) by (unfold writable; cbn; lia).
    destruct (Allocate_ok (zlen text) _ Hw1) as (w2 & -> & Hw2 & Ho2 & Hp2 & Hs2); [lia|done|]. cbn [mbind res_bind].
    pose proof Hw2 as (? & ? & ?). rewrite u32_id by lia.
    destruct (print_ok text w2 Hw2) as (m2 & Em2 & Hlen2 & Hpre2 & Hlt2 & Heq2). rewrite Em2. cbn [mbind res_bind mem bsize boff] in *.
    eexists. split; [reflexivity|]. cbn [mem bsize boff]. rewrite u32_id by lia. split; [unfold writable; cbn; lia|]. cbn [boff bsize]. split; [lia|].
    unfold written at 1 2 in Hp2. cbn [mem boff] in Hp2. rewrite Hpre in Hp2. fold (written w2) in Hp2. unfold written at 1. cbn [mem boff].
    destruct (boff w2 + zlen text =? bsize w2) eqn:Ef; bool_props.
    + rewrite Heq2, Hp2; [done|lia|done].
    + rewrite Hlt2, Hp2; [done|lia].
Qed.

(** Lines written to memory read as themselves. *)
Lemma buf_write_line_ok text w : writable w -> boff w + zlen text + 1 <= 2147483648 -> exists w', buf_write junk (text ++ [10]) w = Ok w' /\
  writable w' /\ boff w' = boff w + zlen text + 1 /\ exists t, written w' = written w ++ t /\ reads_as t (text ++ [10]).
Proof.
  intros Hw Hmax. destruct (buf_write_ok (text ++ [10]) w Hw) as (w' & E & Hw' & Ho & Ht); [by destruct text|rewrite length_app; cbn; lia|].
  exists w'. split; [done|]. split; [done|]. split; [rewrite Ho, length_app; cbn; lia|].
  eexists. split; [exact Ht|]. case_if; [|done]. rewrite removelast_last. apply reads_as_app; [done|]. constructor; [by right|constructor].
Qed.
End MemoryLemmas.

Lemma un_le4_le4 n : 0 <= n < 4294967296 -> un_le4 (le4 n) = n.
Proof. intros H. unfold un_le4, le4. autorewrite with quake_rw. unfold u8. wrap_lia. Qed.

Lemma chunks_concat sz l : Forall (fun e => length e = sz) l -> chunks (length l) sz (concat l) = l.
Proof.
  induction 1 as [|e l He _ IH]; [done|]. cbn [length chunks concat]. by rewrite <- He, take_app_length, drop_app_length, He, IH.
Qed.

Lemma length_concat_same sz (l : list bytes) : Forall (fun e => length e = sz) l -> length (concat l) = (length l * sz)%nat.
Proof. induction 1 as [|e l He _ IH]; [done|]. cbn [concat length]. rewrite length_app, IH, He. lia. Qed.

(** Storing two runs one after the other. *)
Lemma store_two m off a b : 0 <= off -> off + zlen a + zlen b <= zlen m -> exists q,
  (m ← store m off a; store m (off + zlen a) b) = Ok (take (Z.to_nat off) m ++ a ++ b ++ q).
Proof.
  intros H0 Hle. rewrite store_ok by lia. cbn [mbind res_bind]. pose proof (length_splice m (Z.to_nat off) a ltac:(lia)) as Hl.
  rewrite store_ok by lia. eexists. f_equal. replace (Z.to_nat (off + zlen a)) with (Z.to_nat off + length a)%nat by lia.
  unfold splice at 1. rewrite take_splice_through, <- app_assoc by lia. reflexivity.
Qed.

(** A vector written to memory is read back: elements of a fixed size, after whatever was
    written before, and the reader ends where the writer does. *)
Theorem POD_roundtrip junk sz elems w n :
  writable w -> 0 < sz -> Forall (fun e => length e = Z.to_nat sz) elems -> boff w + 4 + zlen elems * sz <= 2147483648 ->
  exists w', WritePODVec junk elems w = Ok w' /\ writable w' /\ written w `prefix_of` written w' /\
    ReadPODVec sz (BR (mem w') n (boff w)) = Ok (elems, BR (mem w') n (boff w')).
Proof.
  intros Hw Hsz He Hmax. pose proof Hw as (? & ? & ?). pose proof (length_concat_same _ _ He) as Hlen.
  assert (Htot : zlen (concat elems) = zlen elems * sz) by (rewrite Hlen, Nat2Z.inj_mul, Z2Nat.id; lia). unfold WritePODVec.
  rewrite (u32_id (zlen (concat elems))) by lia. rewrite (u32_id (zlen (concat elems) + 4)) by lia. destruct (Allocate_ok junk (zlen (concat elems) + 4) w Hw) as (w1 & E1 & Hw1 & Ho1 & Hp1 & Hs1); [lia..|].
  rewrite E1. cbn [mbind res_bind]. rewrite Ho1, (u32_id (boff w + 4)) by lia. rewrite (u32_id (boff w + 4 + zlen (concat elems))) by lia. pose proof Hw1 as (? & ? & ?).
  destruct (store_two (mem w1) (boff w) (le4 (zlen (concat elems))) (concat elems)) as (q & Eq); [lia|cbn; lia|].
  destruct (store (mem w1) (boff w) _) as [m1|] eqn:Em1; [|done]. cbn [mbind res_bind] in Eq |- *.
  change (zlen (le4 (zlen (concat elems)))) with 4 in Eq. rewrite Eq. cbn [mbind res_bind].
  apply store_length in Em1. pose proof (store_length _ _ _ _ Eq) as Hl2. unfold written in Hp1. rewrite Ho1 in Hp1. rewrite Hp1 in Eq, Hl2 |- *.
  set (pre := take (Z.to_nat (boff w)) (mem w)) in *. assert (Hpre : zlen pre = boff w) by (unfold pre; rewrite length_take; lia).
  eexists. split; [done|]. split; [unfold writable; cbn [mem bsize boff]; lia|]. split.
  - unfold written at 2. cbn [mem boff]. fold pre. rewrite take_app_ge by lia. apply prefix_app_r. done.
  - unfold ReadPODVec. cbn [rbuf roff rsize mem boff]. rewrite load_mid by (cbn; lia). cbn [mbind res_bind]. rewrite un_le4_le4, (u32_id (boff w + 4)) by lia.
    rewrite (app_assoc pre), load_mid by (rewrite ?length_app; cbn; lia). cbn [mbind res_bind].
    rewrite Htot, Z.mod_mul, Z.div_mul, Nat2Z.id, chunks_concat by (done || lia). cbn [Z.eqb]. rewrite u32_id by lia. done.
Qed.

Lemma POD_roundtrip_witness : let junk := fun _ => 205 in exists w', WritePODVec junk [[1; 2]; [3; 4]] (buf_writer junk) = Ok w' /\
  ReadPODVec 2 (BR (mem w') 0 0) = Ok ([[1; 2]; [3; 4]], BR (mem w') 0 (boff w')).
Proof.
  intros junk. destruct (POD_roundtrip junk 2 [[1; 2]; [3; 4]] (buf_writer junk) 0) as (w' & E & _ & _ & H);
    [split; [split|]; [by_vm..|split; by_vm]|by_vm|by repeat constructor|by_vm|]. by exists w'.
Defined.
