(* ===== verification/TasText.v ===== *)
(** The text of TAS scripts: reading, writing, and the saves kept beside a script
    (libtasquake/src/script_parse.cpp, utils.cpp).

    A script is read line by line through [ReadInterface] and written through [WriteInterface]
    (TasIo.v).  Which names are console variables is asked from the game; the parameter
    [IsConvar] stands for its answer.  Bytes above 127 are neither spaces nor word characters. *)

From Stdlib Require Import SpecFloat.
From stdpp Require Import gmap.
From S2P Require Import Prelude CFloat CharConv TasScript TasIo.

(** * Strings *)

Definition is_space (c : Z) : bool := (c =? 32) || ((9 <=? c) && (c <=? 13)).
Definition is_word (c : Z) : bool :=
  is_digit c || ((97 <=? c) && (c <=? 122)) || ((65 <=? c) && (c <=? 90)) || (c =? 95).

(** C: libtasquake/src/utils.cpp:242-246 ltrim *)
Fixpoint ltrim (s : bytes) : bytes :=
  match s with
  | [] => []
  | c :: t => if is_space c then ltrim t else s
  end.

(** C: libtasquake/src/utils.cpp:248-252 rtrim *)
Definition rtrim (s : bytes) : bytes := rev (ltrim (rev s)).

(** C: libtasquake/src/utils.cpp:254-257 trim *)
Definition trim (s : bytes) : bytes := ltrim (rtrim s).

(** The text before the first comment. *)
Fixpoint uncomment (s : bytes) : bytes :=
  match s with
  | [] => []
  | c :: t => match t with
              | c' :: _ => if (c =? 47) && (c' =? 47) then [] else c :: uncomment t
              | [] => [c]
              end
  end.

(** What is left of a line.
    C: libtasquake/src/script_parse.cpp:19-28 Parse_Newline *)
Definition Parse_Newline (str : bytes) : bytes := trim (uncomment str).

(** The sign and the digits of a frame number.
    C: libtasquake/src/script_parse.cpp:13-13 FRAME_NO_REGEX *)
Definition match_frame_no (line : bytes) : option (bool * bytes) :=
  let '(plus, rest) := accept 43 line in
  let '(ds, rest) := take_digits rest in
  if negb (bool_decide (ds = [])) && bool_decide (rest = [58]) then Some (plus, ds) else None.

(** The sign and the name of a toggle.
    C: libtasquake/src/script_parse.cpp:14-14 TOGGLE_REGEX *)
Definition match_toggle (line : bytes) : option (bool * bytes) :=
  match line with
  | c :: name => if ((c =? 43) || (c =? 45)) && negb (bool_decide (name = [])) && forallb is_word name then Some (c =? 43, name) else None
  | [] => None
  end.

(** C: libtasquake/src/script_parse.cpp:42-45 Is_Frame_Number *)
Definition Is_Frame_Number (line : bytes) : bool := bool_decide (is_Some (match_frame_no line)).

(** C: libtasquake/src/script_parse.cpp:75-78 Is_Toggle *)
Definition Is_Toggle (line : bytes) : bool := bool_decide (is_Some (match_toggle line)).

(** C: libtasquake/src/script_parse.cpp:80-83 Is_Whitespace *)
Definition Is_Whitespace (s : bytes) : bool := forallb is_space s.

(** Where the first space is and where a number starts after it; [i] counts the bytes seen.
    C: libtasquake/src/script_parse.cpp:49-62 startIndex *)
Fixpoint find_number (space : option Z) (i : Z) (line : bytes) : option (Z * Z) :=
  match line with
  | [] => None
  | c :: t =>
      match space with
      | Some sp => if is_digit c || (c =? 46) || (c =? 45) then Some (sp, i) else find_number space (i + 1) t
      | None => find_number (if is_space c then Some i else None) (i + 1) t
      end
  end.

(** C: libtasquake/src/utils.cpp:15-18 FloatString *)
Definition FloatString (value : f32) : bytes := to_chars value.

(** A text that is not a number leaves the result uninitialised.
    C: libtasquake/src/utils.cpp:20-25 FloatFromString *)
Definition FloatFromString (buffer : bytes) : res f32 :=
  of_option (Undefined "uninitialised value") (from_chars (until0 buffer)).

(** * Reading *)

(** Files by their names. *)
Abbreviation files := (gmap bytes bytes).

Section Text.
Context (IsConvar : bytes -> bool).

(** The indices of the space and of the number, when the line sets a console variable.
    C: libtasquake/src/script_parse.cpp:47-73 Is_Convar *)
Definition Is_Convar (line : bytes) : option (Z * Z) :=
  match find_number None 0 line with
  | Some (sp, st) => if IsConvar (until0 (trim (take (Z.to_nat sp) line))) then Some (sp, st) else None
  | None => None
  end.

(** [None] is the exception of a number that is too large.
    C: libtasquake/src/script_parse.cpp:133-144 Parse_Frame_No *)
Definition Parse_Frame_No (line : bytes) (running_frame : Z) (fb : frameblock) : res (option (frameblock * Z)) :=
  match match_frame_no line with
  | Some (plus, ds) =>
      let running_frame := if plus : bool then running_frame else 0 in
      if undec ds <=? INT_MAX then
        frame ← int_of (undec ds + running_frame);
        mret (Some (set_parsed true (set_frame frame fb), frame))
      else mret None
  | None => mret None
  end.

(** C: libtasquake/src/script_parse.cpp:146-153 Parse_Convar *)
Definition Parse_Convar (line : bytes) (spaceIndex startIndex : Z) (fb : frameblock) : res frameblock :=
  let cmd := take (Z.to_nat spaceIndex) line in
  val ← FloatFromString (drop (Z.to_nat startIndex) line);
  mret (set_convars (om_set cmd val (convars fb)) fb).

(** C: libtasquake/src/script_parse.cpp:155-169 Parse_Toggle *)
Definition Parse_Toggle (line : bytes) (fb : frameblock) : frameblock :=
  match match_toggle line with
  | Some (on, cmd) => set_toggles (om_set cmd on (toggles fb)) fb
  | None => fb
  end.

(** C: libtasquake/src/script_parse.cpp:176-189 Parse_Line *)
Definition Parse_Line (line : bytes) (running_frame : Z) (fb : frameblock) : res (option (frameblock * Z)) :=
  if Is_Whitespace line then mret (Some (fb, running_frame))
  else if Is_Frame_Number line then Parse_Frame_No line running_frame fb
  else match Is_Convar line with
       | Some (sp, st) => fb ← Parse_Convar line sp st fb; mret (Some (fb, running_frame))
       | None =>
           mret (Some ((if Is_Toggle line then Parse_Toggle line fb else Add_Command line fb), running_frame))
       end.

(** What the loop over the lines keeps: the blocks read, the block being read, and its frame. *)
Record reading : Type := RD { rd_blocks : script; rd_fb : frameblock; rd_running : Z }.

(** One line; [inl] is the state the exception leaves.
    C: libtasquake/src/script_parse.cpp:318-325 current_line *)
Definition load_line (line : bytes) (st : reading) : res (script + reading) :=
  let current_line := Parse_Newline line in
  let '(blocks, fb) :=
    if Is_Frame_Number current_line && fb_parsed (rd_fb st) then (rd_blocks st ++ [rd_fb st], Reset (rd_fb st))
    else (rd_blocks st, rd_fb st) in
  o ← Parse_Line current_line (rd_running st) fb;
  mret (match o with Some (fb, running) => inr (RD blocks fb running) | None => inl blocks end).

(** C: libtasquake/src/script_parse.cpp:327-328 blocks *)
Definition load_end (st : reading) : script :=
  if fb_parsed (rd_fb st) then rd_blocks st ++ [rd_fb st] else rd_blocks st.

Section Read.
Context {R : Type} `{ReadInterface R}.

(** C: libtasquake/src/script_parse.cpp:316-326 readInterface *)
Fixpoint load_loop (fuel : nat) (str : bytes) (r : R) (st : reading) : res (bool * script * R) :=
  if CanRead r then
    match fuel with
    | O => Fault OutOfFuel
    | S fuel =>
        '(_, str, r) ← GetLine str r;
        o ← load_line str st;
        match o with
        | inr st => load_loop fuel (Parse_Newline str) r st
        | inl blocks => mret (false, blocks, r)
        end
    end
  else mret (true, load_end st, r).

(** Appends the blocks read to [blocks], and says whether there was no exception.
    C: libtasquake/src/script_parse.cpp:307-338 _Load_From_File *)
Definition _Load_From_File (r : R) (blocks : script) : res (bool * script * R) :=
  load_loop (remaining r) [] r (RD blocks empty_block 0).
End Read.

(** C: libtasquake/src/script_parse.cpp:261-274 Load_From_Memory *)
Definition Load_From_Memory (iface : bufread) (blocks : script) : res (bool * script * bufread) :=
  '(h, iface) ← buf_read 4 iface;
  n ← (if zlen h =? 4 then mret (un_le4 h) else Fault (Undefined "uninitialised value"));
  '(rval, blocks, temp) ← _Load_From_File (BR (rbuf iface) (u32 (n + roff iface)) (roff iface)) blocks;
  mret (rval, blocks, BR (rbuf iface) (rsize iface) (roff temp)).

(** C: libtasquake/src/script_parse.cpp:301-304 Load_From_String *)
Definition Load_From_String (input : bytes) (blocks : script) : res (bool * script) :=
  '(rval, blocks, _) ← _Load_From_File (buf_reader (input ++ [0]) (zlen input)) blocks;
  mret (rval, blocks).

(** C: libtasquake/src/script_parse.cpp:287-298 Load_From_File *)
Definition Load_From_File (fs : files) (file_name : bytes) (blocks : script) : res (bool * script) :=
  let iface := file_reader (fs !! file_name) in
  if negb (CanRead iface) then mret (false, blocks)
  else '(rval, blocks, _) ← _Load_From_File iface blocks; mret (rval, blocks).
End Text.

(** * Writing *)

Definition int_text (n : Z) : bytes := if n <? 0 then 45 :: dec (- n) else dec n.

Section Write.
Context {W : Type} `{WriteInterface W}.

Fixpoint write_all (texts : list bytes) (w : W) : res W :=
  match texts with
  | [] => mret w
  | t :: texts => w ← Write t w; write_all texts w
  end.

(** C: libtasquake/src/script_parse.cpp:350-354 cvar *)
Definition cvar_line (x : bytes * f32) : bytes := [9] ++ until0 (fst x) ++ [32] ++ FloatString (snd x) ++ [10].
(** C: libtasquake/src/script_parse.cpp:356-363 toggle *)
Definition toggle_line (x : bytes * bool) : bytes := [9; if snd x then 43 else 45] ++ until0 (fst x) ++ [10].
(** C: libtasquake/src/script_parse.cpp:365-368 cmd *)
Definition command_line (cmd : bytes) : bytes := [9] ++ until0 cmd ++ [10].

(** C: libtasquake/src/script_parse.cpp:346-347 diff *)
Definition frame_line (diff : Z) : bytes := [43] ++ int_text diff ++ [58; 10].

(** C: libtasquake/src/script_parse.cpp:344-369 block *)
Fixpoint write_blocks (current_frame : Z) (blocks : script) (w : W) : res W :=
  match blocks with
  | [] => mret w
  | b :: blocks =>
      diff ← int_of (fb_frame b - current_frame);
      w ← Write (frame_line diff) w;
      w ← write_all (cvar_line <$> convars b) w;
      w ← write_all (toggle_line <$> toggles b) w;
      w ← write_all (command_line <$> commands b) w;
      write_blocks (fb_frame b) blocks w
  end.

(** C: libtasquake/src/script_parse.cpp:340-372 _Write_To_File *)
Definition _Write_To_File (blocks : script) (w : W) : res W :=
  w ← write_blocks 0 blocks w; mret (Finalize w).
End Write.

(** C: libtasquake/src/script_parse.cpp:276-285 Write_To_Memory *)
Definition Write_To_Memory (junk : nat -> Z) (blocks : script) (iface : bufwrite) : res bufwrite :=
  let offset := boff iface in
  iface ← buf_write junk (cs "0000") iface;
  iface ← _Write_To_File (H := buf_WriteInterface junk) blocks iface;
  let length := u32 (boff iface - offset - 4) in
  m ← store (mem iface) offset (le4 length);
  mret (BW m (bsize iface) (boff iface)).

(** C: libtasquake/src/script_parse.cpp:461-468 ToString *)
Definition ToString (junk : nat -> Z) (blocks : script) : res bytes :=
  writer ← Write_To_Memory junk blocks (buf_writer junk);
  load (mem writer) 4 (boff writer - 4).

(** * Saves *)

(** The name without its extension. *)
Fixpoint before_dot (name : bytes) : option bytes :=
  match name with
  | [] => None
  | c :: t =>
      match before_dot t with
      | Some b => Some (c :: b)
      | None => if c =? 46 then Some [] else None
      end
  end.

(** [sprintf] into a buffer of 256 bytes. *)
Definition sprintf256 (text : bytes) : res bytes :=
  if zlen text <? 256 then mret text else Fault (Undefined "buffer overflow").

(** C: libtasquake/src/script_parse.cpp:374-397 Get_Backup_Save *)
Definition Get_Backup_Save (file_name : bytes) (backup : Z) : res (option bytes) :=
  if backup =? 0 then b ← sprintf256 file_name; mret (Some b)
  else match before_dot file_name with
       | None => mret None
       | Some base => b ← sprintf256 (take 255 base ++ [45] ++ int_text backup ++ cs ".qtas"); mret (Some b)
       end.

Definition rename (old new : bytes) (fs : files) : files :=
  match fs !! old with Some d => <[new := d]> (delete old fs) | None => fs end.

(** The saves [n - 1], ..., 0.  The message of the failure prints a number it is not given.
    C: libtasquake/src/script_parse.cpp:418-429 old_filename *)
Fixpoint move_loop (file_name : bytes) (n : nat) (new_filename : bytes) (fs : files) : res (bool * files) :=
  match n with
  | O => mret (true, fs)
  | S n =>
      o ← Get_Backup_Save file_name (Z.of_nat n);
      match o with
      | None => Fault (Undefined "missing argument of a format")
      | Some old_filename => move_loop file_name n old_filename (rename old_filename new_filename fs)
      end
  end.

(** C: libtasquake/src/script_parse.cpp:399-432 Move_Saves *)
Definition Move_Saves (backups : Z) (file_name : bytes) (fs : files) : res (bool * files) :=
  if backups <=? 0 then mret (true, fs)
  else
    o ← Get_Backup_Save file_name (backups - 1);
    match o with
    | None => mret (false, fs)
    | Some new_filename => move_loop file_name (Z.to_nat (backups - 1)) new_filename (delete new_filename fs)
    end.

(** [can_open] says whether the file can be opened for writing.
    C: libtasquake/src/script_parse.cpp:434-458 Write_To_File *)
Definition Write_To_File (backups : Z) (can_open : bytes -> bool) (file_name : bytes) (blocks : script) (fs : files) : res files :=
  match blocks with
  | [] => mret fs
  | _ =>
      '(result, fs) ← Move_Saves backups file_name fs;
      if negb result then mret fs
      else if negb (can_open file_name) then mret fs
      else text ← _Write_To_File blocks ([] : bytes); mret (<[file_name := text]> fs)
  end.

(** * Reading through the interface *)

Section Lines.
Context (IsConvar : bytes -> bool).

(** What a script is, line by line. *)
Fixpoint load_lines (ls : list bytes) (st : reading) : res (bool * script) :=
  match ls with
  | [] => mret (true, load_end st)
  | l :: ls =>
      o ← load_line IsConvar l st;
      match o with inr st => load_lines ls st | inl blocks => mret (false, blocks) end
  end.

Lemma load_line_empty st : load_line IsConvar [] st = Ok (inr st).
Proof. by destruct st. Qed.

(** Loading reads the lines the reader promises, and nothing else of it matters. *)
Lemma load_loop_lines {R} `{ReadLaws R} fuel : forall str (r : R) st, readable r -> (remaining r <= fuel)%nat ->
  match load_lines (lines_left r) st with
  | Ok (b, s) => exists r', load_loop IsConvar fuel str r st = Ok (b, s, r') /\ (b = true -> CanRead r' = false) /\
      forall P : R -> Prop, P r -> (forall str r b l r', P r -> CanRead r = true -> GetLine str r = Ok (b, l, r') -> P r') -> P r'
  | Fault f => load_loop IsConvar fuel str r st = Fault f
  end.
Proof.
  induction fuel as [|fuel IH]; intros str r st Hr Hf; cbn [load_loop]; destruct (CanRead r) eqn:Ec.
  - destruct (read_step str r Hr Ec) as (? & ? & r' & _ & _ & Hlt & _). lia.
  - rewrite (read_end r Hr Ec). cbn. exists r. split_and!; auto.
  - destruct (read_step str r Hr Ec) as (b & l & r' & E & Hr' & Hlt & ->). rewrite E. cbn [mbind res_bind].
    assert (Hstep : load_lines ((if bool_decide (l = []) then [] else [l]) ++ lines_left r') st =
      (o ← load_line IsConvar l st; match o with inr st => load_lines (lines_left r') st | inl blocks => mret (false, blocks) end)).
    { case_bool_decide; [subst l; by rewrite load_line_empty|done]. }
    rewrite Hstep. destruct (load_line IsConvar l st) as [[bl|st']|f]; cbn [mbind res_bind]; [| |done].
    2:{ specialize (IH (Parse_Newline l) r' st' Hr' ltac:(lia)). destruct (load_lines (lines_left r') st') as [[b' s]|f]; [|done].
        destruct IH as (r2 & E2 & Hend & HP). exists r2. split; [done|]. split; [done|]. intros P HPr HPs. apply HP; [|done]. by eapply HPs. }
    cbn. exists r'. split; [done|]. split; [done|]. intros P HPr HPs. by eapply HPs.
  - rewrite (read_end r Hr Ec). cbn. exists r. split_and!; auto.
Qed.

End Lines.

(** * Lines as they are written *)

Lemma ltrim_head c l : is_space c = false -> ltrim (c :: l) = c :: l.
Proof. intros H. cbn. by rewrite H. Qed.

(** Not empty, and no space at either end. *)
Definition trimmed (l : bytes) : Prop := exists a z m, is_space a = false /\ is_space z = false /\ (l = a :: m ++ [z] \/ l = [a]).

Lemma trim_tab l : trimmed l -> trim (9 :: l) = l.
Proof.
  intros (a & z & m & Ha & Hz & [->| ->]); unfold trim, rtrim.
  - rewrite app_comm_cons, app_comm_cons, rev_app_distr. cbn [rev app]. rewrite ltrim_head by done. cbn [rev].
    rewrite !rev_app_distr, rev_involutive. cbn [rev app]. cbn [ltrim is_space]. by rewrite Ha.
  - cbn [rev app]. rewrite ltrim_head by done. cbn. by rewrite Ha.
Qed.

Lemma trimmed_solid l : Forall (fun c => is_space c = false) l -> l <> [] -> trimmed l.
Proof.
  intros Hl Hne. destruct Hl as [|a l Ha Hl]; [done|]. destruct l as [|z l _] using rev_ind; [exists a, a, []; auto|].
  apply Forall_app in Hl as [_ [Hz _]%Forall_cons]. exists a, z, l. auto.
Qed.

Lemma uncomment_id l : Forall (fun c => c <> 47) l -> uncomment l = l.
Proof.
  induction 1 as [|c l Hc Hl IH]; [done|]. cbn [uncomment]. destruct l as [|c' l]; [done|].
  rewrite (proj2 (Z.eqb_neq c 47)) by done. cbn [andb]. by rewrite IH.
Qed.

Definition word (l : bytes) : Prop := l <> [] /\ Forall (fun c => is_word c = true) l.

#[global] Instance word_dec l : Decision (word l).
Proof. unfold word. apply _. Defined.

(** What word characters and characters of numbers are not. *)
Lemma word_char c : is_word c = true -> is_space c = false /\ c <> 47 /\ ends_line c = false /\ c <> 58.
Proof. unfold is_word, is_digit, is_space, ends_line. intros H. rewrite !orb_true_iff, !andb_true_iff, !Z.leb_le, !Z.eqb_eq in H.
  rewrite !orb_false_iff, andb_false_iff, !Z.leb_gt, !Z.eqb_neq. lia. Qed.

Lemma numeric_char c : numeric c = true -> is_space c = false /\ c <> 47 /\ ends_line c = false /\ c <> 58.
Proof. unfold numeric, is_digit, is_space, ends_line. intros H. rewrite !orb_true_iff, !andb_true_iff, !Z.leb_le, !Z.eqb_eq in H.
  rewrite !orb_false_iff, andb_false_iff, !Z.leb_gt, !Z.eqb_neq. lia. Qed.

Lemma take_digits_split l ds r : take_digits l = (ds, r) -> l = ds ++ r /\ all_digits ds.
Proof.
  revert ds r. induction l as [|c l IH]; intros ds r E; cbn [take_digits] in E; [injection E as <- <-; split; [done|constructor]|].
  destruct (is_digit c) eqn:Ec; [|injection E as <- <-; split; [done|constructor]].
  destruct (take_digits l) as [ds' r']. injection E as <- <-. destruct (IH _ _ eq_refl) as [-> Hd]. split; [done|]. by constructor.
Qed.

(** A frame number ends with a colon and has no space. *)
Lemma frame_no_shape l : Is_Frame_Number l = true -> last l = Some 58 /\ Forall (fun c => is_space c = false) l.
Proof.
  unfold Is_Frame_Number, match_frame_no. rewrite bool_decide_eq_true. destruct (accept 43 l) as [plus rest] eqn:Ea.
  destruct (take_digits rest) as [ds r] eqn:Ed. destruct (negb (bool_decide (ds = [])) && bool_decide (r = [58])) eqn:E; [|by intros []]. apply andb_true_iff in E as [_ E]. apply bool_decide_eq_true in E. subst r.
  intros _. apply take_digits_split in Ed as [-> Hds].
  assert (Hl : l = (if plus then [43] else []) ++ ds ++ [58]).
  { unfold accept in Ea. destruct l as [|c l]; [injection Ea as <- E; by destruct ds|]. destruct (c =? 43) eqn:Ec; injection Ea as <- <-; [|done].
    bool_props. by subst c. }
  subst l. split; [by rewrite app_assoc, last_snoc|]. apply Forall_app. split; [destruct plus; by repeat constructor|].
  apply Forall_app. split; [|by repeat constructor]. eapply Forall_impl; [exact Hds|]. intros c Hc. apply numeric_char. unfold numeric. cbn in Hc. by rewrite Hc.
Qed.

Lemma not_whitespace l : trimmed l -> Is_Whitespace l = false.
Proof. intros (a & z & m & Ha & _ & [->| ->]); cbn; by rewrite Ha. Qed.

Lemma cstr_until0 l : Forall (fun c => ends_line c = false) l -> until0 l = l.
Proof.
  induction 1 as [|c l Hc _ IH]; [done|]. unfold ends_line in Hc. bool_props. cbn [until0]. rewrite (proj2 (Z.eqb_neq c 0)) by done. by rewrite IH.
Qed.

(** The text of a script, as a list of lines without their ends. *)
Definition cvar_text (x : bytes * f32) : bytes := [9] ++ fst x ++ [32] ++ FloatString (snd x).
Definition toggle_text (x : bytes * bool) : bytes := [9; if snd x then 43 else 45] ++ fst x.
Definition command_text (cmd : bytes) : bytes := [9] ++ cmd.
Definition frame_text (diff : Z) : bytes := [43] ++ int_text diff ++ [58].

Definition block_text (prev : Z) (b : frameblock) : list bytes :=
  frame_text (fb_frame b - prev) :: (cvar_text <$> convars b) ++ (toggle_text <$> toggles b) ++ (command_text <$> commands b).

Fixpoint script_text (prev : Z) (s : script) : list bytes :=
  match s with [] => [] | b :: s => block_text prev b ++ script_text (fb_frame b) s end.

Section RoundTrip.
Context (IsConvar : bytes -> bool).

(** Variables, toggles and commands that a text can hold. *)
Definition wf_cvar (x : bytes * f32) : Prop := word (fst x) /\ IsConvar (fst x) = true /\ f32_valid (snd x) /\ is_finite (snd x) = true.
Definition wf_command (c : bytes) : Prop :=
  trimmed c /\ uncomment c = c /\ Forall (fun c => ends_line c = false) c /\
  Is_Frame_Number c = false /\ Is_Convar IsConvar c = None /\ Is_Toggle c = false.
Definition wf_text (b : frameblock) : Prop :=
  wf_block b /\ Forall wf_cvar (convars b) /\ Forall (fun x => word (fst x)) (toggles b) /\ Forall wf_command (commands b).

Lemma find_number_name name v : Forall (fun c => is_space c = false) name -> starts_number v -> forall i,
  find_number None i (name ++ 32 :: v) = Some (i + zlen name, i + zlen name + 1).
Proof.
  intros Hn Hv. induction Hn as [|c name Hc _ IH]; intros i.
  - cbn [app find_number]. change (is_space 32) with true. cbn iota. destruct v as [|c v]; [done|]. cbn [find_number]. cbn in Hv. rewrite Hv.
    cbn [length]. do 2 f_equal; lia.
  - cbn [app find_number length]. rewrite Hc, IH. do 2 f_equal; lia.
Qed.

Lemma word_solid l : word l -> Forall (fun c => is_space c = false) l.
Proof. intros [_ H]. eapply Forall_impl; [exact H|]. intros c Hc. by apply word_char. Qed.

Lemma trim_solid l : Forall (fun c => is_space c = false) l -> trim l = l.
Proof.
  intros Hl. assert (H : forall l, Forall (fun c => is_space c = false) l -> ltrim l = l) by (intros k [|c k' Hc _]; [done|by apply ltrim_head]).
  unfold trim, rtrim. rewrite (H (rev l)), rev_involutive; [by apply H|]. by apply Forall_rev.
Qed.

Lemma cvar_line_read x st : wf_cvar x -> load_line IsConvar (cvar_text x) st =
  Ok (inr (RD (rd_blocks st) (set_convars (om_set (fst x) (snd x) (convars (rd_fb st))) (rd_fb st)) (rd_running st))).
Proof.
  destruct x as [n v]. intros (Hw & Hc & Hv & Hfin). cbn [fst snd] in *. destruct (to_chars_number v Hfin) as [Hnum Hst].
  pose proof (word_solid n Hw) as Hns. pose proof Hw as [Hne Hwc].
  assert (Hnum' : Forall (fun c => is_space c = false /\ c <> 47 /\ ends_line c = false /\ c <> 58) (to_chars v)).
  { eapply Forall_impl; [exact Hnum|]. apply numeric_char. }
  assert (Hl : Parse_Newline (cvar_text (n, v)) = n ++ 32 :: to_chars v).
  { unfold Parse_Newline, cvar_text, FloatString. cbn [fst snd app]. rewrite uncomment_id.
    - apply trim_tab. destruct n as [|a n]; [done|]. destruct (to_chars v) as [|z t _] using rev_ind; [done|].
      exists a, z, (n ++ 32 :: t). apply Forall_cons in Hns as [Ha _]. apply Forall_app in Hnum' as [_ [[Hz _] _]%Forall_cons].
      split_and!; [done|done|]. left. cbn. by rewrite <- app_assoc.
    - constructor; [done|]. apply Forall_app. split; [eapply Forall_impl; [exact Hwc|]; intros c H; by apply word_char|].
      constructor; [done|]. eapply Forall_impl; [exact Hnum'|]. cbn. tauto. }
  unfold load_line. rewrite Hl. assert (Hf : Is_Frame_Number (n ++ 32 :: to_chars v) = false).
  { apply not_true_is_false. intros [_ H]%frame_no_shape. apply Forall_app in H as [_ [H _]%Forall_cons]. done. }
  rewrite Hf. cbn [andb]. unfold Parse_Line. assert (Hsp : Is_Whitespace (n ++ 32 :: to_chars v) = false).
  { destruct n as [|a n]; [done|]. apply Forall_cons in Hns as [Ha _]. cbn. by rewrite Ha. }
  rewrite Hsp, Hf. unfold Is_Convar. rewrite (find_number_name n _ Hns Hst 0), Z.add_0_l, Nat2Z.id, take_app_length, trim_solid by done.
  assert (Hn0 : until0 n = n) by (apply cstr_until0; eapply Forall_impl; [exact Hwc|]; intros c H; by apply word_char).
  rewrite Hn0, Hc. unfold Parse_Convar. rewrite Nat2Z.id, take_app_length.
  replace (Z.to_nat (zlen n + 1)) with (length n + 1)%nat by lia. rewrite <- drop_drop, drop_app_length. change (drop 1 (32 :: to_chars v)) with (to_chars v).
  unfold FloatFromString. rewrite cstr_until0 by (eapply Forall_impl; [exact Hnum'|]; cbn; tauto). rewrite to_chars_read by done. done.
Qed.

Lemma toggle_line_read x st : word (fst x) -> load_line IsConvar (toggle_text x) st =
  Ok (inr (RD (rd_blocks st) (set_toggles (om_set (fst x) (snd x) (toggles (rd_fb st))) (rd_fb st)) (rd_running st))).
Proof.
  destruct x as [n on]. cbn [fst snd]. intros Hw. pose proof (word_solid n Hw) as Hns. pose proof Hw as [Hne Hwc]. set (c := if on then 43 else 45).
  assert (Hc : is_space c = false /\ c <> 47 /\ c <> 58 /\ ((c =? 43) || (c =? 45) = true) /\ (c =? 43) = on) by (by destruct on).
  destruct Hc as (Hcs & Hc47 & Hc58 & Hcc & Hon).
  assert (Hsol : Forall (fun c => is_space c = false) (c :: n)) by (by constructor).
  assert (Hl : Parse_Newline (toggle_text (n, on)) = c :: n).
  { unfold Parse_Newline, toggle_text. cbn [fst snd app]. fold c. rewrite uncomment_id; [apply trim_tab, trimmed_solid; done|].
    constructor; [done|]. constructor; [done|]. eapply Forall_impl; [exact Hwc|]. intros k H. by apply word_char. }
  unfold load_line. rewrite Hl. assert (Hf : Is_Frame_Number (c :: n) = false).
  { apply not_true_is_false. intros [H _]%frame_no_shape. destruct n as [|z n _] using rev_ind; [done|].
    rewrite app_comm_cons, last_snoc in H. injection H as ->. apply Forall_app in Hwc as [_ [Hz _]%Forall_cons]. done. }
  rewrite Hf. cbn [andb]. unfold Parse_Line. rewrite Hf. cbn [Is_Whitespace forallb]. rewrite Hcs. cbn [andb].
  assert (Hnum : forall i l, Forall (fun c => is_space c = false) l -> find_number None i l = None).
  { intros i l H. revert i. induction H as [|k l Hk _ IH]; intros i; [done|]. cbn [find_number]. by rewrite Hk. }
  unfold Is_Convar. rewrite Hnum by done. cbn [mbind res_bind]. assert (Hm : match_toggle (c :: n) = Some (on, n)).
  { cbn [match_toggle]. rewrite Hcc, bool_decide_false, Hon by done. cbn [negb andb]. rewrite (proj2 (forallb_forall is_word n)); [done|].
    intros k Hk. rewrite Forall_forall in Hwc. apply Hwc. by apply list_elem_of_In. }
  unfold Is_Toggle, Parse_Toggle. rewrite Hm, bool_decide_true by (by eexists). done.
Qed.

Lemma command_line_read c st : wf_command c -> load_line IsConvar (command_text c) st =
  Ok (inr (RD (rd_blocks st) (set_commands (commands (rd_fb st) ++ [c]) (rd_fb st)) (rd_running st))).
Proof.
  intros (Ht & Hu & _ & Hf & Hc & Hg). assert (Hl : Parse_Newline (command_text c) = c).
  { unfold Parse_Newline, command_text. cbn [app uncomment]. destruct c as [|a c]; [by destruct Ht as (? & ? & ? & _ & _ & [?|?])|].
    cbn [Z.eqb andb]. rewrite Hu. by apply trim_tab. }
  unfold load_line. rewrite Hl, Hf. cbn [andb]. unfold Parse_Line. by rewrite (not_whitespace _ Ht), Hf, Hc, Hg.
Qed.
Lemma frame_line_read diff st : 0 <= diff -> rd_running st + diff <= INT_MAX -> 0 <= rd_running st -> 
  load_line IsConvar (frame_text diff) st =
  Ok (inr (RD (if fb_parsed (rd_fb st) then rd_blocks st ++ [rd_fb st] else rd_blocks st)
    (set_parsed true (set_frame (diff + rd_running st) (if fb_parsed (rd_fb st) then Reset (rd_fb st) else rd_fb st))) (diff + rd_running st))).
Proof.
  intros Hd Hmax Hrun. destruct (dec_spec diff Hd) as (Hds & Hval & Hne).
  assert (Hsol : Forall (fun c => is_space c = false /\ c <> 47 /\ ends_line c = false) (dec diff)).
  { eapply Forall_impl; [exact Hds|]. intros c Hc. cbn in Hc. destruct (numeric_char c) as (? & ? & ? & _); [unfold numeric; by rewrite Hc|done]. }
  assert (Hl : Parse_Newline (frame_text diff) = 43 :: dec diff ++ [58]).
  { unfold Parse_Newline, frame_text, int_text. rewrite (proj2 (Z.ltb_ge diff 0)) by lia. cbn [app]. rewrite uncomment_id.
    - apply trim_solid. constructor; [done|]. apply Forall_app. split; [|by repeat constructor]. eapply Forall_impl; [exact Hsol|]. cbn. tauto.
    - constructor; [done|]. apply Forall_app. split; [|by repeat constructor]. eapply Forall_impl; [exact Hsol|]. cbn. tauto. }
  assert (Hm : match_frame_no (43 :: dec diff ++ [58]) = Some (true, dec diff)).
  { unfold match_frame_no. cbn [accept Z.eqb Pos.eqb]. rewrite take_digits_app by done. by rewrite bool_decide_false by done. }
  assert (Hf : Is_Frame_Number (43 :: dec diff ++ [58]) = true) by (unfold Is_Frame_Number; rewrite Hm; by apply bool_decide_true).
  unfold load_line. rewrite Hl, Hf. cbn [andb]. unfold Parse_Line. rewrite Hf. assert (Hs : Is_Whitespace (43 :: dec diff ++ [58]) = false) by done. rewrite Hs.
  unfold Parse_Frame_No. rewrite Hm, Hval, (proj2 (Z.leb_le diff INT_MAX)) by lia. unfold int_of.
  rewrite (proj2 (Z.leb_le INT_MIN _)), (proj2 (Z.leb_le _ INT_MAX)) by (unfold INT_MIN in *; lia). by destruct (fb_parsed (rd_fb st)).
Qed.

Lemma om_set_fresh {T} k v (m : ordered_map T) : k ∉ m.*1 -> om_set k v m = m ++ [(k, v)].
Proof.
  induction m as [|[k' v'] m IH]; [done|]. cbn. intros [Hk Hm]%not_elem_of_cons. rewrite bool_decide_false by done. by rewrite IH.
Qed.

Lemma cvars_read l ls : Forall wf_cvar l -> forall st, NoDup ((convars (rd_fb st)).*1 ++ l.*1) ->
  load_lines IsConvar ((cvar_text <$> l) ++ ls) st = load_lines IsConvar ls (RD (rd_blocks st) (set_convars (convars (rd_fb st) ++ l) (rd_fb st)) (rd_running st)).
Proof.
  induction 1 as [|[n v] l Hx _ IH]; intros st Hnd; [destruct st as [? [] ?]; cbn; by rewrite app_nil_r|].
  rewrite fmap_cons. cbn [app load_lines]. rewrite cvar_line_read by done. cbn [mbind res_bind fst snd].
  rewrite fmap_cons in Hnd. cbn [fst] in Hnd. rewrite om_set_fresh.
  - rewrite IH; cbn [rd_blocks rd_fb rd_running set_convars convars fb_parsed fb_frame toggles commands].
    + by rewrite <- app_assoc.
    + by rewrite fmap_app, <- app_assoc.
  - apply NoDup_app in Hnd as (_ & Hd & _). intros Hin. apply (Hd n Hin). left.
Qed.

Lemma toggles_read l ls : Forall (fun x => word (fst x)) l -> forall st, NoDup ((toggles (rd_fb st)).*1 ++ l.*1) ->
  load_lines IsConvar ((toggle_text <$> l) ++ ls) st = load_lines IsConvar ls (RD (rd_blocks st) (set_toggles (toggles (rd_fb st) ++ l) (rd_fb st)) (rd_running st)).
Proof.
  induction 1 as [|[n v] l Hx _ IH]; intros st Hnd; [destruct st as [? [] ?]; cbn; by rewrite app_nil_r|].
  rewrite fmap_cons. cbn [app load_lines]. rewrite toggle_line_read by done. cbn [mbind res_bind fst snd].
  rewrite fmap_cons in Hnd. cbn [fst] in Hnd. rewrite om_set_fresh.
  - rewrite IH; cbn [rd_blocks rd_fb rd_running set_toggles toggles fb_parsed fb_frame convars commands].
    + by rewrite <- app_assoc.
    + by rewrite fmap_app, <- app_assoc.
  - apply NoDup_app in Hnd as (_ & Hd & _). intros Hin. apply (Hd n Hin). left.
Qed.

Lemma commands_read l ls : Forall wf_command l -> forall st,
  load_lines IsConvar ((command_text <$> l) ++ ls) st = load_lines IsConvar ls (RD (rd_blocks st) (set_commands (commands (rd_fb st) ++ l) (rd_fb st)) (rd_running st)).
Proof.
  induction 1 as [|c l Hx _ IH]; intros st; [destruct st as [? [] ?]; cbn; by rewrite app_nil_r|].
  rewrite fmap_cons. cbn [app load_lines]. rewrite command_line_read by done. cbn [mbind res_bind].
  rewrite IH. cbn [rd_blocks rd_fb rd_running set_commands commands fb_parsed fb_frame convars toggles]. by rewrite <- app_assoc.
Qed.

(** The block being read holds nothing, or is complete. *)
Definition between (st : reading) : Prop := fb_parsed (rd_fb st) = true \/ rd_fb st = set_frame (fb_frame (rd_fb st)) empty_block.

Lemma block_read b ls st : wf_text b -> between st -> 0 <= rd_running st <= fb_frame b -> fb_frame b <= INT_MAX ->
  load_lines IsConvar (block_text (rd_running st) b ++ ls) st = load_lines IsConvar ls (RD (load_end st) (set_parsed true b) (fb_frame b)).
Proof.
  intros ((Hnc & Hnt) & Hc & Ht & Hm) Hb Hr Hmax. unfold block_text. cbn [app load_lines]. rewrite frame_line_read by lia. cbn [mbind res_bind].
  replace (fb_frame b - rd_running st + rd_running st) with (fb_frame b) by lia.
  assert (Hfb : set_parsed true (set_frame (fb_frame b) (if fb_parsed (rd_fb st) then Reset (rd_fb st) else rd_fb st)) = FB true (fb_frame b) [] [] []).
  { destruct Hb as [-> | ->]; [done|]. by destruct (fb_parsed _). }
  rewrite Hfb. rewrite <- !app_assoc, cvars_read by done. cbn [rd_blocks rd_fb rd_running set_convars convars fb_parsed fb_frame toggles commands app].
  rewrite toggles_read by done. cbn [rd_blocks rd_fb rd_running set_toggles convars fb_parsed fb_frame toggles commands app].
  rewrite commands_read by done. by destruct b.
Qed.

(** A script a text can hold. *)
Definition wf_script (s : script) : Prop := in_order s /\ Forall wf_text s /\ Forall (fun b => fb_frame b <= INT_MAX) s.

Lemma script_read s : forall st, wf_script s -> between st -> 0 <= rd_running st -> Forall (fun b => rd_running st <= fb_frame b) s ->
  load_lines IsConvar (script_text (rd_running st) s) st = Ok (true, load_end st ++ (set_parsed true <$> s)).
Proof.
  induction s as [|b s IH]; intros st (Ho & Hw & Hx) Hb Hr Hge; [cbn; by rewrite app_nil_r|].
  apply in_order_cons in Ho as (_ & Ho & Hle). apply Forall_cons in Hw as [Hwb Hw]. apply Forall_cons in Hx as [Hxb Hx]. apply Forall_cons in Hge as [Hgb _].
  cbn [script_text]. rewrite block_read by done. specialize (IH (RD (load_end st) (set_parsed true b) (fb_frame b))). cbn [rd_running] in IH. rewrite IH.
  - unfold load_end at 1. cbn [rd_fb set_parsed fb_parsed rd_blocks]. by rewrite fmap_cons, <- app_assoc.
  - done.
  - by left.
  - lia.
  - apply Forall_forall. exact Hle.
Qed.

End RoundTrip.

(** * Texts and lines *)

Definition with_end (l : bytes) : bytes := l ++ [10].
Definition text_of (ls : list bytes) : bytes := concat (with_end <$> ls).
Definition proper_line (l : bytes) : Prop := l <> [] /\ Forall (fun c => ends_line c = false) l.

Lemma ends_newline c : ends_line c = false -> newline c = false.
Proof. unfold ends_line, newline. by intros [_ H]%orb_false_iff. Qed.

Lemma lines_of_text (sep : Z -> bool) ls : sep 10 = true -> (forall c, ends_line c = false -> sep c = false) -> Forall proper_line ls ->
  lines_of sep (text_of ls) = ls.
Proof.
  intros H10 Hsep. induction 1 as [|l ls [Hne Hl] _ IH]; [done|]. unfold text_of in *. rewrite fmap_cons. cbn [concat]. unfold with_end at 1.
  rewrite <- app_assoc. cbn [app]. rewrite lines_of_line; [|by eapply Forall_impl; [exact Hl|]|done]. rewrite IH. by destruct l.
Qed.

Section Writing.
Context (IsConvar : bytes -> bool).

Lemma script_text_proper s : forall prev, Forall (wf_text IsConvar) s -> Forall proper_line (script_text prev s).
Proof.
  induction s as [|b s IH]; intros prev Hw; [constructor|]. apply Forall_cons in Hw as [(_ & Hc & Ht & Hm) Hw].
  assert (Hword : forall l, word l -> Forall (fun c => ends_line c = false) l) by (intros l [_ H]; eapply Forall_impl; [exact H|]; intros c Hx; by apply word_char).
  assert (Hdig : forall n, Forall (fun c => ends_line c = false) (dec n)).
  { intros n. eapply Forall_impl; [apply digits_numeric, dec_digits|]. intros c Hx. by apply numeric_char. }
  cbn [script_text]. unfold block_text. cbn [app]. constructor; [split; [done|]|].
  - unfold frame_text, int_text. constructor; [done|]. apply Forall_app. split; [case_if; [constructor; [done|]|]; apply Hdig|by repeat constructor].
  - repeat (apply Forall_app; split); try apply Forall_fmap; try (eapply Forall_impl; [eassumption|]; cbn).
    + intros [n v] (Hn & _ & _ & Hf). split; [done|]. unfold cvar_text. constructor; [done|]. apply Forall_app. split; [by apply Hword|].
      constructor; [done|]. eapply Forall_impl; [apply (to_chars_number v Hf)|]. intros c Hx. by apply numeric_char.
    + intros [n v] Hn. split; [done|]. constructor; [done|]. constructor; [by destruct v|]. by apply Hword.
    + intros c (_ & _ & H & _). split; [done|]. by constructor.
    + by apply IH.
Qed.
Lemma write_all_app {W} `{WriteInterface W} a b (w : W) : write_all (a ++ b) w = (w ← write_all a w; write_all b w).
Proof.
  revert w. induction a as [|t a IH]; intros w; [done|]. cbn [app write_all]. destruct (Write t w) as [w'|]; [|done]. cbn [mbind res_bind]. apply IH.
Qed.

(** Writing a script is writing its lines. *)
Lemma write_blocks_lines {W} `{WriteInterface W} s : forall prev (w : W), Forall (wf_text IsConvar) s -> in_order s ->
  Forall (fun b => fb_frame b <= INT_MAX) s -> 0 <= prev -> Forall (fun b => prev <= fb_frame b) s ->
  write_blocks prev s w = write_all (with_end <$> script_text prev s) w.
Proof.
  induction s as [|b s IH]; intros prev w Hw Ho Hx Hp Hge; [done|]. apply in_order_cons in Ho as (Hb0 & Ho & Hle).
  apply Forall_cons in Hw as [(_ & Hc & Ht & Hm) Hw]. apply Forall_cons in Hx as [Hxb Hx]. apply Forall_cons in Hge as [Hgb _].
  cbn [write_blocks script_text]. unfold int_of. rewrite (proj2 (Z.leb_le INT_MIN _)), (proj2 (Z.leb_le _ INT_MAX)) by (unfold INT_MIN in *; lia).
  cbn [andb mbind res_bind]. unfold block_text. cbn [app]. rewrite fmap_cons. cbn [write_all].
  assert (E0 : with_end (frame_text (fb_frame b - prev)) = frame_line (fb_frame b - prev)).
  { unfold with_end, frame_text, frame_line. by rewrite <- !app_assoc. }
  assert (Hword : forall l, word l -> until0 l = l).
  { intros l [_ H1]. apply cstr_until0. eapply Forall_impl; [exact H1|]. intros c Hc'. by apply word_char. }
  assert (E1 : with_end <$> (cvar_text <$> convars b) = cvar_line <$> convars b).
  { rewrite <- list_fmap_compose. apply Forall_fmap_ext_1. eapply Forall_impl; [exact Hc|]. intros [n v] (Hn & _). cbn in *.
    unfold cvar_text, cvar_line, with_end. cbn [fst snd app]. rewrite (Hword n Hn), <- app_assoc. done. }
  assert (E2 : with_end <$> (toggle_text <$> toggles b) = toggle_line <$> toggles b).
  { rewrite <- list_fmap_compose. apply Forall_fmap_ext_1. eapply Forall_impl; [exact Ht|]. intros [n v] Hn. cbn in *.
    unfold toggle_text, toggle_line, with_end. cbn [fst snd app]. by rewrite (Hword n Hn). }
  assert (E3 : with_end <$> (command_text <$> commands b) = command_line <$> commands b).
  { rewrite <- list_fmap_compose. apply Forall_fmap_ext_1. eapply Forall_impl; [exact Hm|]. intros c (_ & _ & Hcs & _). cbn in *.
    unfold command_text, command_line, with_end. cbn [app]. by rewrite (cstr_until0 c Hcs). }
  rewrite E0, !fmap_app, E1, E2, E3. destruct (Write _ w) as [w1|]; [|done]. cbn [mbind res_bind].
  rewrite <- !app_assoc, write_all_app. destruct (write_all (cvar_line <$> _) w1) as [w2|]; [|done]. cbn [mbind res_bind].
  rewrite write_all_app. destruct (write_all (toggle_line <$> _) w2) as [w3|]; [|done]. cbn [mbind res_bind].
  rewrite write_all_app. destruct (write_all (command_line <$> _) w3) as [w4|]; [|done]. cbn [mbind res_bind].
  apply IH; try done. by apply Forall_forall.
Qed.

(** Lines written to memory. *)
Lemma buf_write_all junk ls : forall w, writable w -> boff w + zlen (text_of ls) <= 2147483648 -> exists w',
  write_all (H := buf_WriteInterface junk) (with_end <$> ls) w = Ok w' /\ writable w' /\ boff w' = boff w + zlen (text_of ls) /\
  exists t, written w' = written w ++ t /\ reads_as t (text_of ls).
Proof.
  induction ls as [|l ls IH]; intros w Hw Hmax.
  - exists w. cbn. rewrite Z.add_0_r. split_and!; try done. exists []. by rewrite app_nil_r.
  - unfold text_of in *. rewrite fmap_cons in *. cbn [concat] in *. rewrite length_app in Hmax. unfold with_end at 1 in Hmax. rewrite length_app in Hmax. cbn [length] in Hmax.
    destruct (buf_write_line_ok junk l w Hw) as (w1 & E1 & Hw1 & Ho1 & t1 & Et1 & Hr1); [lia|].
    destruct (IH w1 Hw1) as (w2 & E2 & Hw2 & Ho2 & t2 & Et2 & Hr2); [lia|].
    exists w2. cbn [write_all]. change (Write (with_end l) w) with (buf_write junk (l ++ [10]) w). rewrite E1. cbn [mbind res_bind].
    split; [done|]. split; [done|]. split; [rewrite Ho2, Ho1, length_app; unfold with_end; rewrite length_app; cbn; lia|].
    exists (t1 ++ t2). split; [by rewrite Et2, Et1, app_assoc|]. by apply reads_as_app.
Qed.
End Writing.

Lemma reads_as_length a b : reads_as a b -> length a = length b.
Proof. apply Forall2_length. Qed.

(** What a script in memory is: its length, and its lines. *)
Lemma Write_To_Memory_ok IsConvar junk s w : wf_script IsConvar s -> writable w -> let text := text_of (script_text 0 s) in
  boff w + 4 + zlen text <= 2147483648 -> exists w' t, Write_To_Memory junk s w = Ok w' /\ writable w' /\ boff w' = boff w + 4 + zlen text /\
    written w' = written w ++ le4 (zlen text) ++ t /\ reads_as t text.
Proof.
  intros (Ho & Hw & Hx) Hwr text Hmax. pose proof Hwr as (? & ? & ?). unfold Write_To_Memory.
  destruct (buf_write_ok junk (cs "0000") w Hwr) as (w1 & E1 & Hw1 & Ho1 & Et1); [done|cbn; lia|]. rewrite E1. cbn [mbind res_bind].
  change (zlen (cs "0000")) with 4 in Ho1. unfold _Write_To_File. rewrite (write_blocks_lines IsConvar); try done; [|apply Ho].
  destruct (buf_write_all junk (script_text 0 s) w1 Hw1) as (w2 & E2 & Hw2 & Ho2 & t & Et2 & Hr); [fold text; lia|]. fold text in Ho2, Hr.
  rewrite E2. unfold Finalize, buf_WriteInterface, buf_finalize. cbn [mbind res_bind mret res_ret boff mem bsize].
  replace (boff w2 - boff w - 4) with (zlen text) by lia. rewrite u32_id by lia. pose proof Hw2 as (? & ? & ?).
  rewrite store_ok by (cbn; lia). cbn [mbind res_bind]. eexists _, t. split; [done|].
  pose proof (length_splice (mem w2) (Z.to_nat (boff w)) (le4 (zlen text)) ltac:(cbn; lia)) as Hls.
  split; [unfold writable; cbn [mem bsize boff]; lia|]. cbn [boff]. split; [lia|]. split; [|done].
  assert (Hpre : exists h, written w2 = written w ++ h ++ t /\ length h = 4%nat).
  { rewrite Et2, Et1. exists (if boff w1 =? bsize w1 then removelast (cs "0000") ++ [0] else cs "0000"). rewrite <- app_assoc. by case_if. }
  destruct Hpre as (h & Eh & Hh). unfold written at 1. cbn [mem boff]. unfold written at 1 in Eh.
  assert (Hlw : length (written w) = Z.to_nat (boff w)) by (unfold written; rewrite length_take; lia).
  rewrite <- (take_drop (Z.to_nat (boff w2)) (mem w2)), Eh, <- app_assoc, <- Hlw, splice_app. change (length (le4 _)) with 4%nat.
  rewrite <- app_assoc, <- Hh, drop_app_length, (app_assoc (le4 _)), (app_assoc (written w)). apply take_app_length'.
  rewrite !length_app, Hlw, (reads_as_length t text Hr). change (length (le4 _)) with 4%nat. lia.
Qed.

Lemma reads_as_last t ls : reads_as t (text_of ls) -> match last t with Some c => ends_line c = true | None => True end.
Proof.
  intros H. destruct ls as [|l ls _] using rev_ind; [by inversion H|]. unfold text_of in H. rewrite fmap_app, concat_app in H. cbn in H.
  rewrite app_nil_r in H. unfold with_end in H. rewrite app_assoc in H. apply Forall2_app_inv_r in H as (a & b & _ & Hb & ->).
  inversion Hb as [|c c' ? ? Hc Hn]; subst. inversion Hn; subst. rewrite last_snoc. by destruct Hc as [->|[-> _]].
Qed.

(** Loading a text that reads as the lines of a script, from a buffer. *)
Lemma load_text IsConvar s r t : wf_script IsConvar s -> before r t -> reads_as t (text_of (script_text 0 s)) -> rsize r <= zlen (rbuf r) ->
  exists r', _Load_From_File IsConvar r [] = Ok (true, set_parsed true <$> s, r') /\ roff r' = rsize r.
Proof.
  intros Hwf Hb Ht Hs. pose proof Hb as (H0 & Hlen & q & Eq). pose proof Hwf as (Ho & Hw & Hx).
  assert (Hread : readable r) by (split; lia).
  assert (Hlines : lines_left r = script_text 0 s).
  { change (lines_left r) with (lines_of ends_line (buf_text r)). unfold buf_text. rewrite (before_text r t Hb), (reads_as_lines t _ Ht).
    apply lines_of_text; [done|done|]. by apply (script_text_proper IsConvar). }
  pose proof (load_loop_lines IsConvar (remaining r) [] r (RD [] empty_block 0) Hread ltac:(lia)) as HL.
  pose proof (script_read IsConvar s (RD [] empty_block 0) Hwf (or_intror eq_refl) ltac:(done) (proj2 Ho)) as HS. cbn [rd_running] in HS.
  rewrite Hlines, HS in HL. destruct HL as (r' & E & Hend & HP). exists r'. split; [exact E|]. specialize (Hend eq_refl).
  destruct (HP (fun x => (roff x = rsize x \/ tidy x) /\ rsize x = rsize r)) as [Hr' Es].
  - split; [|done]. destruct t as [|c t]; [left; cbn in Hlen; lia|right]. split; [lia|]. split; [done|].
    rewrite <- (take_drop (Z.to_nat (roff r)) (take (Z.to_nat (rsize r)) (rbuf r))).
    replace (Z.to_nat (rsize r)) with (Z.to_nat (roff r) + length (c :: t))%nat by lia.
    rewrite <- take_drop_commute, Eq, take_app_length, last_app_cons. by apply (reads_as_last _ (script_text 0 s)).
  - intros str x b l x' [[Hx1|Hx1] Hx2] Hc Eg; [unfold CanRead, buf_ReadInterface, buf_can_read in Hc; bool_props; lia|].
    destruct (tidy_step _ _ _ _ _ Hx1 Hc Eg) as (? & _ & ->). auto.
  - unfold CanRead, buf_ReadInterface, buf_can_read in Hend. bool_props. destruct Hr' as [Hr'|[Hr' _]]; lia.
Qed.

(** A float written in a script reads back to the same float, bit for bit. *)
Theorem FloatString_roundtrip f : f32_valid f -> FloatFromString (FloatString f) = Ok f.
Proof.
  intros Hf. unfold FloatFromString, FloatString. destruct (is_finite f) eqn:E.
  - rewrite cstr_until0, to_chars_read; [done|done|]. eapply Forall_impl; [apply (to_chars_number f E)|]. intros c Hc. by apply numeric_char.
  - by destruct f as [|[]| |].
Qed.

Lemma FloatString_roundtrip_witness : let f := f32_of_bits 0x42f6e9d5 in FloatString f = cs "123.4567" /\ FloatFromString (FloatString f) = Ok f.
Proof. split; [by_vm|]. apply (FloatString_roundtrip (f32_of_bits 0x42f6e9d5)). by_vm. Defined.

(** C32: A script written to memory, after whatever was written before, is read back as it was from
    where it was put, out of any memory that has what was written at its start, whatever follows
    there; and the reader ends where the writer did.  So scripts can follow one another: each length
    prefix says where its script ends.  This is for scripts ([wf_script]) whose blocks are in order
    at frames from 0 to [INT_MAX], their variables and toggles with words as names, none twice in a
    block, the variables ones that [IsConvar] knows and their values finite, and their commands lines
    without newlines, comments and blanks around them that do not look like a frame number, a
    variable or a toggle; the memory written is at most 2^31 bytes. *)
Theorem script_memory_roundtrip IsConvar junk s w :
  wf_script IsConvar s -> writable w -> boff w + 4 + zlen (text_of (script_text 0 s)) <= 2147483648 ->
  exists w', Write_To_Memory junk s w = Ok w' /\ writable w' /\ written w `prefix_of` written w' /\
    forall data size, written w' `prefix_of` data -> boff w' <= size <= zlen data -> size < 4294967296 ->
    Load_From_Memory IsConvar (BR data size (boff w)) [] = Ok (true, set_parsed true <$> s, BR data size (boff w')).
Proof.
  intros Hwf Hw Hmax. destruct (Write_To_Memory_ok IsConvar junk s w Hwf Hw Hmax) as (w' & t & E & Hw' & Ho & Et & Hr).
  exists w'. split; [done|]. split; [done|]. split; [rewrite Et; by apply prefix_app_r|]. intros data size [q Hq] Hs1 Hs2.
  pose proof Hw as (? & ? & ?). pose proof Hw' as (? & ? & ?).
  set (n := zlen (text_of (script_text 0 s))) in *. assert (Hlt : zlen t = n) by (unfold n; by rewrite (reads_as_length t _ Hr)).
  assert (Hlw : zlen (written w) = boff w) by (unfold written; rewrite length_take; lia).
  assert (Hmem : data = written w ++ le4 n ++ t ++ q) by (rewrite Hq, Et, <- !app_assoc; done).
  unfold Load_From_Memory, buf_read. cbn [rbuf rsize roff]. rewrite u32_id, Z.min_r by lia.
  assert (Hld : load data (boff w) 4 = Ok (le4 n)) by (rewrite Hmem; by apply load_mid).
  rewrite Hld. cbn [mbind res_bind mret res_ret]. change (zlen (le4 n) =? 4) with true. cbn [mbind res_bind mret res_ret rbuf roff rsize].
  rewrite un_le4_le4, u32_id by lia.
  destruct (load_text IsConvar s (BR data (n + (boff w + 4)) (boff w + 4)) t Hwf) as (r' & -> & Hoff); [|done|cbn; lia|].
  - split; [cbn; lia|]. split; [cbn; lia|]. exists q. cbn [roff rbuf]. rewrite Hmem at 1.
    rewrite app_assoc. apply drop_app_length'. rewrite length_app. change (length (le4 n)) with 4%nat. lia.
  - cbn [mbind res_bind mret res_ret roff] in *. cbn in Hoff. rewrite Hoff. do 3 f_equal. lia.
Qed.

(** Reading a script from a file and from a string with the same text gives the same blocks and
    the same result, errors included, when the text has no zero byte. *)
Theorem script_sources_agree IsConvar name text blocks : Forall (fun c => c <> 0) text ->
  Load_From_File IsConvar {[name := text]} name blocks = Load_From_String IsConvar text blocks.
Proof.
  intros Ht. unfold Load_From_File, Load_From_String. rewrite lookup_singleton_eq. cbn [file_reader CanRead file_ReadInterface file_can_read fgood negb].
  set (st := RD blocks empty_block 0). unfold _Load_From_File. fold st.
  assert (Hfr : readable (FR text true)) by (intros H; discriminate H).
  pose proof (load_loop_lines IsConvar (remaining (FR text true)) [] (FR text true) st Hfr ltac:(lia)) as HF.
  set (r := buf_reader (text ++ [0]) (zlen text)).
  assert (Hr : readable r) by (split; cbn; rewrite ?length_app; lia).
  pose proof (load_loop_lines IsConvar (remaining r) [] r st Hr ltac:(lia)) as HB.
  assert (Hsame : lines_left (FR text true) = lines_left r).
  { change (lines_of newline text = lines_of ends_line (buf_text r)). unfold buf_text, r, slice, buf_reader. cbn [rbuf roff rsize drop].
    rewrite Z.sub_0_r, Nat2Z.id. rewrite Z2Nat.inj_0, drop_0, take_app_length.
    clear -Ht. generalize (nil : bytes). induction Ht as [|c t Hc _ IH]; intros cur; [done|]. cbn [lines_from]. unfold ends_line, newline.
    rewrite (proj2 (Z.eqb_neq c 0)) by done. cbn [orb]. case_if; by rewrite IH. }
  rewrite <- Hsame in HB. destruct (load_lines IsConvar (lines_left (FR text true)) st) as [[b s]|f].
  - destruct HF as (? & -> & _), HB as (? & -> & _). done.
  - by rewrite HF, HB.
Qed.

Lemma script_sources_agree_witness : Load_From_File (fun _ => true) {[cs "a.qtas" := cs "5:"]} (cs "a.qtas") [] = Ok (true, [FB true 5 [] [] []]).
Proof. rewrite (script_sources_agree (fun _ => true) (cs "a.qtas") (cs "5:") []); [by_vm|by repeat constructor]. Defined.

(** * Saves: what is kept *)

(** The name of save [i] of a script. *)
Definition save_name (file_name base : bytes) (i : Z) : bytes :=
  if i =? 0 then file_name else base ++ [45] ++ int_text i ++ cs ".qtas".

(** A name with an extension, such that the names of the first [n] saves fit their buffers. *)
Definition has_saves (file_name base : bytes) (n : Z) : Prop :=
  before_dot file_name = Some base /\ forall i, 0 <= i < n -> zlen (save_name file_name base i) < 256.

Lemma before_dot_split name base : before_dot name = Some base -> exists ext, name = base ++ 46 :: ext.
Proof.
  revert base. induction name as [|c t IH]; intros base E; [done|]. cbn [before_dot] in E.
  destruct (before_dot t) as [b|].
  - injection E as <-. destruct (IH b eq_refl) as (ext & ->). by exists ext.
  - destruct (Z.eqb_spec c 46) as [->|]; [|done]. injection E as <-. by exists t.
Qed.

Lemma int_text_inj i j : 0 <= i -> 0 <= j -> int_text i = int_text j -> i = j.
Proof.
  intros Hi Hj. unfold int_text. rewrite (proj2 (Z.ltb_ge i 0)), (proj2 (Z.ltb_ge j 0)) by lia. intros E.
  destruct (dec_spec i Hi) as (_ & <- & _), (dec_spec j Hj) as (_ & <- & _). by rewrite E.
Qed.

Lemma save_name_inj file_name base i j : before_dot file_name = Some base -> 0 <= i -> 0 <= j ->
  save_name file_name base i = save_name file_name base j -> i = j.
Proof.
  intros Hb Hi Hj. destruct (before_dot_split _ _ Hb) as (ext & ->). unfold save_name.
  destruct (Z.eqb_spec i 0) as [->|], (Z.eqb_spec j 0) as [->|]; try done; intros E; apply app_inv_head in E; try done.
  cbn [app] in E. injection E as E. apply app_inv_tail in E. by apply int_text_inj.
Qed.

Lemma Get_Backup_ok file_name base n i : has_saves file_name base n -> 0 <= i < n ->
  Get_Backup_Save file_name i = Ok (Some (save_name file_name base i)).
Proof.
  intros [Hb Hlen] Hi. specialize (Hlen i Hi). unfold Get_Backup_Save, save_name in *. unfold sprintf256.
  destruct (i =? 0); [by rewrite (proj2 (Z.ltb_lt _ _)) by done|]. rewrite Hb, take_ge by (rewrite !length_app in Hlen; lia).
  by rewrite (proj2 (Z.ltb_lt _ _)) by done.
Qed.

(** Every save becomes the next one. *)
Definition moved_up (file_name base : bytes) (n : Z) (fs fs' : files) : Prop :=
  fs' !! file_name = None /\
  (forall i, 0 <= i < n -> fs' !! save_name file_name base (i + 1) = fs !! save_name file_name base i) /\
  forall name, (forall i, 0 <= i <= n -> name <> save_name file_name base i) -> fs' !! name = fs !! name.

Lemma move_loop_ok file_name base k n : has_saves file_name base k -> forall fs, Z.of_nat n < k ->
  fs !! save_name file_name base (Z.of_nat n) = None ->
  exists fs', move_loop file_name n (save_name file_name base (Z.of_nat n)) fs = Ok (true, fs') /\ moved_up file_name base (Z.of_nat n) fs fs'.
Proof.
  intros Hs. pose proof Hs as [Hb _]. induction n as [|n IH]; intros fs Hk Hnone.
  - exists fs. split; [done|]. split; [done|]. split; [lia|done].
  - cbn [move_loop]. rewrite (Get_Backup_ok _ _ k) by (done || lia). cbn [mbind res_bind].
    set (old := save_name file_name base (Z.of_nat n)) in *. set (new := save_name file_name base (Z.of_nat (S n))) in *.
    assert (Hne : old <> new) by (intros E; apply save_name_inj in E; [lia|done|lia|lia]).
    assert (Hold : rename old new fs !! old = None).
    { unfold rename. destruct (fs !! old) eqn:E; [|done]. rewrite lookup_insert_ne by done. apply lookup_delete_eq. }
    assert (Hnew : rename old new fs !! new = fs !! old).
    { unfold rename. destruct (fs !! old) eqn:E; [by rewrite lookup_insert_eq|done]. }
    assert (Hoth : forall x, x <> old -> x <> new -> rename old new fs !! x = fs !! x).
    { intros x H1 H2. unfold rename. destruct (fs !! old); [|done]. by rewrite lookup_insert_ne, lookup_delete_ne. }
    destruct (IH (rename old new fs)) as (fs' & E & H1 & H2 & H3); [lia|done|]. exists fs'. split; [done|]. split; [done|].
    assert (Hdist : forall i, 0 <= i <= Z.of_nat n -> new <> save_name file_name base i).
    { intros i Hi E'. apply save_name_inj in E'; [lia|done|lia|lia]. }
    split.
    + intros i Hi. destruct (decide (i = Z.of_nat n)) as [->|Hin].
      * replace (Z.of_nat n + 1) with (Z.of_nat (S n)) by lia. fold new. by rewrite H3, Hnew.
      * rewrite H2 by lia. apply Hoth; intros E'; apply save_name_inj in E'; (done || lia).
    + intros name Hname. rewrite H3 by (intros i Hi; apply Hname; lia). apply Hoth; apply Hname; lia.
Qed.

Lemma Move_Saves_ok backups file_name base fs : 1 <= backups -> has_saves file_name base backups ->
  exists fs', Move_Saves backups file_name fs = Ok (true, fs') /\ moved_up file_name base (backups - 1) fs fs'.
Proof.
  intros Hn Hs. pose proof Hs as [Hb _]. unfold Move_Saves. rewrite (proj2 (Z.leb_gt backups 0)) by lia.
  rewrite (Get_Backup_ok _ base backups) by (done || lia). cbn [mbind res_bind]. set (oldest := save_name file_name base (backups - 1)).
  destruct (move_loop_ok file_name base backups (Z.to_nat (backups - 1)) Hs (delete oldest fs)) as (fs' & E & H1 & H2 & H3);
    rewrite ?Z2Nat.id in * by lia; [lia|apply lookup_delete_eq|]. exists fs'. split; [done|]. split; [done|].
  assert (Hd : forall i, 0 <= i < backups - 1 -> delete oldest fs !! save_name file_name base i = fs !! save_name file_name base i).
  { intros i Hi. apply lookup_delete_ne. intros E'. apply save_name_inj in E'; [lia|done|lia|lia]. }
  split; [intros i Hi; by rewrite H2, Hd|]. intros name Hname. rewrite H3 by done. apply lookup_delete_ne. intros E'. apply (Hname (backups - 1)); [lia|done].
Qed.

(** Before a script is saved, each of its saves becomes the next older one, the oldest is
    dropped, and the name of the script becomes free; no other file changes. *)
Theorem Move_Saves_spec backups file_name base fs : 1 <= backups -> has_saves file_name base backups ->
  exists fs', Move_Saves backups file_name fs = Ok (true, fs') /\ moved_up file_name base (backups - 1) fs fs'.
Proof. apply Move_Saves_ok. Qed.

Lemma Move_Saves_spec_witness : let fs := {[cs "a.qtas" := cs "1:"; cs "a-1.qtas" := cs "2:"]} : files in
  exists fs', Move_Saves 3 (cs "a.qtas") fs = Ok (true, fs') /\ moved_up (cs "a.qtas") (cs "a") 2 fs fs'.
Proof.
  intros fs. apply (Move_Saves_spec 3 (cs "a.qtas") (cs "a") fs); [lia|]. split; [done|]. intros i Hi.
  assert (i = 0 \/ i = 1 \/ i = 2) as [-> | [-> | ->]] by lia; by_vm.
Defined.

(** Lines that a file keeps whole. *)
Lemma file_write_all ls : Forall (fun l => zlen l < 1023) ls -> forall w : bytes, write_all (with_end <$> ls) w = Ok (w ++ text_of ls).
Proof.
  induction 1 as [|l ls Hl _ IH]; intros w; [cbn; by rewrite app_nil_r|]. rewrite fmap_cons. cbn [write_all].
  assert (Hw : Write (with_end l) w = Ok (w ++ with_end l)).
  { unfold Write, file_WriteInterface, file_write. assert (Hle : zlen (with_end l) < 1024) by (unfold with_end; rewrite length_app; cbn; lia).
    rewrite Z.min_r, Nat2Z.id, (take_ge (with_end l)), take_app_length by lia. done. }
  rewrite Hw. cbn [mbind res_bind]. rewrite IH. unfold text_of. rewrite fmap_cons. cbn [concat]. by rewrite <- app_assoc.
Qed.

(** A script saved to a file is loaded back as it was, when its lines fit the buffer they are
    printed through; with at least two saves kept, the file it replaces becomes save 1. *)
Theorem script_file_roundtrip IsConvar backups can_open file_name base s fs :
  wf_script IsConvar s -> s <> [] -> Forall (fun l => zlen l < 1023) (script_text 0 s) ->
  can_open file_name = true -> has_saves file_name base backups ->
  exists fs', Write_To_File backups can_open file_name s fs = Ok fs' /\
    Load_From_File IsConvar fs' file_name [] = Ok (true, set_parsed true <$> s) /\
    (2 <= backups -> fs' !! save_name file_name base 1 = fs !! file_name).
Proof.
  intros Hwf Hne Hlen Ho Hs. pose proof Hwf as (Hord & Hw & Hx). pose proof Hs as [Hb _].
  assert (HM : exists fs1, Move_Saves backups file_name fs = Ok (true, fs1) /\ (2 <= backups -> fs1 !! save_name file_name base 1 = fs !! file_name)).
  { destruct (decide (1 <= backups)) as [Hn|Hn].
    - destruct (Move_Saves_ok backups file_name base fs Hn Hs) as (fs' & E & _ & H2 & _). exists fs'. split; [done|].
      intros Hn2. apply (H2 0). lia.
    - exists fs. unfold Move_Saves. rewrite (proj2 (Z.leb_le backups 0)) by lia. split; [done|lia]. }
  destruct HM as (fs1 & EM & Hsave). unfold Write_To_File. destruct s as [|b s]; [done|]. rewrite EM. cbn [mbind res_bind negb]. rewrite Ho. cbn [negb].
  unfold _Write_To_File. rewrite (write_blocks_lines IsConvar) by (done || apply Hord). rewrite (file_write_all _ Hlen). cbn [mbind res_bind mret res_ret app].
  eexists. split; [done|]. split.
  - unfold Load_From_File. rewrite lookup_insert_eq. cbn [file_reader CanRead file_ReadInterface file_can_read fgood negb].
    set (text := text_of _). change (Finalize text) with text. assert (Hfr : readable (FR text true)) by (intros H; discriminate H). unfold _Load_From_File.
    pose proof (load_loop_lines IsConvar (remaining (FR text true)) [] (FR text true) (RD [] empty_block 0) Hfr ltac:(lia)) as HL.
    pose proof (script_read IsConvar (b :: s) (RD [] empty_block 0) Hwf (or_intror eq_refl) ltac:(done) (proj2 Hord)) as HS. cbn [rd_running] in HS.
    assert (Hl : lines_left (FR text true) = script_text 0 (b :: s)).
    { apply (lines_of_text newline); [done|apply ends_newline|]. by apply (script_text_proper IsConvar). }
    rewrite Hl, HS in HL. destruct HL as (r' & E & _). cbn [app load_end rd_fb fb_parsed empty_block rd_blocks] in E. by rewrite E.
  - intros Hn. rewrite lookup_insert_ne; [by apply Hsave|]. intros E.
    change file_name with (save_name file_name base 0) in E at 1. apply save_name_inj in E; [done|done|lia|lia].
Qed.

(** A script with a variable, a toggle and a command. *)
Definition sample : script :=
  [FB true 5 [(yaw_name, f32_of_bits 0x42f6e9d5)] [(attack_name, true)] []; FB true 9 [] [(attack_name, false)] [cs "echo done"]].

Definition only_yaw (n : bytes) : bool := bool_decide (n = yaw_name).

Lemma sample_wf : wf_script only_yaw sample.
Proof.
  split; [split; repeat constructor; by_vm|]. split; [|repeat constructor; by_vm].
  assert (Hc : wf_command only_yaw (cs "echo done")).
  { split; [exists 101, 101, (cs "cho don"); by auto|]. repeat split; try by_vm. repeat constructor. }
  constructor; [|constructor; [|constructor]]; (split; [split; by_decide|]).
  - split; [constructor; [split; [by_decide|split; [by_vm|split; by_vm]]|constructor]|]. split; [by_decide|constructor].
  - split; [constructor|]. split; [by_decide|]. constructor; [exact Hc|constructor].
Qed.

(** A second script after the first, and bytes that were never written. *)
Definition sample2 : script := [FB true 7 [(yaw_name, f32_of_bits 0)] [] []].
Lemma sample2_wf : wf_script only_yaw sample2.
Proof.
  split; [split; repeat constructor; by_vm|]. split; [|repeat constructor; by_vm].
  constructor; [|constructor]. split; [split; by_decide|]. split; [constructor; [split; [by_decide|split; [by_vm|split; by_vm]]|constructor]|]. split; constructor.
Qed.

Lemma script_memory_roundtrip_witness : let junk := fun _ => 205 in exists w1 w2,
  Write_To_Memory junk sample (buf_writer junk) = Ok w1 /\ Write_To_Memory junk sample2 w1 = Ok w2 /\
  Load_From_Memory only_yaw (BR (written w2 ++ [205; 205]) (boff w2) 0) [] =
    Ok (true, set_parsed true <$> sample, BR (written w2 ++ [205; 205]) (boff w2) (boff w1)) /\
  Load_From_Memory only_yaw (BR (written w2 ++ [205; 205]) (boff w2) (boff w1)) [] =
    Ok (true, set_parsed true <$> sample2, BR (written w2 ++ [205; 205]) (boff w2) (boff w2)).
Proof.
  intros junk. assert (Hw : writable (buf_writer junk)) by (split; [split|]; [by_vm..|split; by_vm]).
  destruct (script_memory_roundtrip only_yaw junk sample (buf_writer junk) sample_wf Hw) as (w1 & E1 & Hw1 & _ & H1); [by_vm|].
  assert (boff w1 = 64) as Ho by (vm_compute in E1; injection E1 as <-; reflexivity).
  destruct (script_memory_roundtrip only_yaw junk sample2 w1 sample2_wf Hw1) as (w2 & E2 & Hw2 & Hp & H2); [rewrite Ho; by_vm|].
  exists w1, w2. split; [exact E1|]. split; [exact E2|]. pose proof Hw2 as (? & ? & ?). pose proof (prefix_length _ _ Hp) as Hlen.
  pose proof Hw1 as (? & ? & ?). assert (length (written w2) = Z.to_nat (boff w2)) as Hl2 by (unfold written; rewrite length_take; lia).
  assert (length (written w1) = Z.to_nat (boff w1)) as Hl1 by (unfold written; rewrite length_take; lia).
  split; [apply H1|apply H2]; try (rewrite length_app; cbn [length]; lia); try lia.
  - etransitivity; [exact Hp|apply prefix_app_r; reflexivity].
  - apply prefix_app_r. reflexivity.
Defined.

Lemma script_file_roundtrip_witness : let name := cs "run.qtas" in exists fs', Write_To_File 2 (fun _ => true) name sample {[name := cs "1:"]} = Ok fs' /\
  Load_From_File only_yaw fs' name [] = Ok (true, set_parsed true <$> sample) /\ fs' !! cs "run-1.qtas" = Some (cs "1:").
Proof.
  intros name. destruct (script_file_roundtrip only_yaw 2 (fun _ => true) name (cs "run") sample {[name := cs "1:"]} sample_wf) as (fs' & E & H1 & H2);
    [done|by_decide|done|split; [done|]; intros i Hi; assert (i = 0 \/ i = 1) as [-> | ->] by lia; by_vm|].
  exists fs'. split; [exact E|]. split; [exact H1|]. exact (H2 ltac:(by_vm)).
Defined.

(** The text [ToString] gives reads as the lines of the script, but not always with their ends:
    when a line fills the buffer it is written to, a zero stands in place of its newline. *)
Theorem ToString_spec IsConvar junk s : wf_script IsConvar s -> 4 + zlen (text_of (script_text 0 s)) <= 2147483648 ->
  (exists t, ToString junk s = Ok t /\ reads_as t (text_of (script_text 0 s))) /\
  let long := [FB true 0 [] [] [replicate 118 97]] in ToString junk long = Ok (cs "+0:" ++ [10; 9] ++ replicate 118 97 ++ [0]).
Proof.
  intros Hwf Hmax. split; [|by_vm].
  assert (Hw : writable (buf_writer junk)) by (split; [split|]; [by_vm..|split; by_vm]).
  destruct (Write_To_Memory_ok IsConvar junk s _ Hwf Hw) as (w' & t & E & Hw' & Ho & Et & Hr); [cbn; lia|].
  exists t. split; [|done]. unfold ToString. rewrite E. cbn [mbind res_bind]. pose proof Hw' as (? & ? & ?).
  rewrite <- (take_drop (Z.to_nat (boff w')) (mem w')). fold (written w'). rewrite Et. change (written (buf_writer junk)) with (nil : bytes). cbn [app].
  rewrite <- app_assoc. apply load_mid; [done|]. rewrite Ho, (reads_as_length t _ Hr). cbn [buf_writer Realloc boff]. lia.
Qed.

Lemma ToString_spec_witness : exists t, ToString (fun _ => 205) sample = Ok t /\ reads_as t (text_of (script_text 0 sample)).
Proof. refine (proj1 (ToString_spec only_yaw (fun _ => 205) sample sample_wf _)). by_vm. Defined.

(** A line of 1024 bytes or more loses its end when it is written to a file, and takes the next
    line with it. *)
Theorem long_line_swallows text next w : 1024 <= zlen text -> Forall (fun c => newline c = false) (take 1023 text) -> Forall (fun c => newline c = false) next ->
  zlen next < 1023 ->
  write_all [text; with_end next] [] = Ok w -> lines_of newline w = [take 1023 text ++ [0] ++ next].
Proof.
  intros Hlen Ht Hn Hnl E. cbn [write_all] in E. unfold Write, file_WriteInterface, file_write in E. cbn [mbind res_bind mret res_ret app] in E.
  assert (Hwe : zlen (with_end next) < 1024) by (unfold with_end; rewrite length_app; cbn; lia).
  rewrite (Z.min_l 1024 (zlen text)), (Z.min_r 1024 (zlen (with_end next))), Nat2Z.id, (take_ge (with_end next)), take_app_length in E by lia.
  injection E as <-. rewrite (take_ge (take 1023 text ++ [0])) by (rewrite length_app, length_take; cbn [length]; lia). unfold with_end. rewrite !(app_assoc _ next), lines_of_line; [|by repeat (apply Forall_app; split); [|by repeat constructor|]|done].
  cbn [lines_from]. unfold some_line. rewrite bool_decide_false by (rewrite <- app_assoc; by destruct (take 1023 text)). by rewrite <- app_assoc.
Qed.

Lemma long_line_swallows_witness : exists w, write_all [replicate 1024 97; with_end (cs "jump")] [] = Ok w /\
  lines_of newline w = [take 1023 (replicate 1024 97) ++ [0] ++ cs "jump"].
Proof.
  eexists. split; [reflexivity|]. apply (long_line_swallows (replicate 1024 97) (cs "jump")); [by_vm|by_decide|by_decide|by_vm|reflexivity].
Defined.

(** A line that looks like the setting of a variable and has no number makes the loader use an
    uninitialised float. *)
Lemma bad_number_undefined IsConvar n : word n -> IsConvar n = true ->
  Load_From_String IsConvar (n ++ cs " -") [] = Fault (Undefined "uninitialised value").
Proof.
  intros Hw Hc. pose proof (word_solid n Hw) as Hns. pose proof Hw as [Hne Hwc]. unfold Load_From_String, _Load_From_File.
  set (text := n ++ cs " -"). set (r := buf_reader (text ++ [0]) (zlen text)). set (st := RD [] empty_block 0).
  assert (Hr : readable r) by (split; cbn; rewrite ?length_app; lia).
  assert (Hl : Parse_Newline text = text).
  { unfold Parse_Newline, text. rewrite uncomment_id.
    - destruct n as [|a n]; [done|]. apply Forall_cons in Hns as [Ha _]. unfold trim, rtrim. rewrite rev_app_distr. cbn [cs rev app].
      change (rev [32; 45]) with [45; 32]. cbn [app]. rewrite ltrim_head by done. cbn [rev]. rewrite rev_app_distr, rev_involutive. cbn [rev app].
      rewrite <- app_assoc. by apply ltrim_head.
    - apply Forall_app. split; [|by repeat constructor]. eapply Forall_impl; [exact Hwc|]. intros c Hx. by apply word_char. }
  assert (Hlines : lines_left r = [text]).
  { change (lines_of ends_line (buf_text r) = [text]). unfold buf_text, slice, r, buf_reader. cbn [rbuf roff rsize].
    rewrite Z.sub_0_r, Nat2Z.id, Z2Nat.inj_0, drop_0, take_app_length, lines_of_last.
    - unfold some_line. rewrite bool_decide_false; [done|]. unfold text. by destruct n.
    - apply Forall_app. split; [|by repeat constructor]. eapply Forall_impl; [exact Hwc|]. intros c Hx. by apply word_char. }
  pose proof (load_loop_lines IsConvar (remaining r) [] r st Hr ltac:(lia)) as HL. rewrite Hlines in HL. cbn [load_lines] in HL.
  assert (Hf : Is_Frame_Number text = false).
  { apply not_true_is_false. intros [_ H]%frame_no_shape. apply Forall_app in H as [_ [H _]%Forall_cons]. done. }
  assert (Hline : load_line IsConvar text st = Fault (Undefined "uninitialised value")).
  { unfold load_line. rewrite Hl, Hf. cbn [andb]. unfold Parse_Line. rewrite Hf.
    assert (Hsp : Is_Whitespace text = false) by (unfold text; destruct n as [|a n]; [done|]; apply Forall_cons in Hns as [Ha _]; cbn; by rewrite Ha).
    rewrite Hsp. unfold Is_Convar. change text with (n ++ 32 :: [45]). rewrite (find_number_name n [45] Hns eq_refl 0), Z.add_0_l, Nat2Z.id, take_app_length, trim_solid by done.
    rewrite cstr_until0, Hc by (eapply Forall_impl; [exact Hwc|]; intros c Hx; by apply word_char). unfold Parse_Convar.
    replace (Z.to_nat (zlen n + 1)) with (length n + 1)%nat by lia. by rewrite <- drop_drop, drop_app_length. }
  rewrite Hline in HL. cbn [mbind res_bind] in HL. by rewrite HL.
Qed.
