(* ===== verification/Console.v ===== *)
(** The console: a ring of text lines (Source/console.c).

    [con_text] is a fixed array that is cut into lines of the current width; [con_current] counts
    the lines ever begun and the line it names is found modulo the number of lines.  The state
    keeps the variables of the code, and the [static] flag of [Con_Print] that a carriage return
    was printed.  The abstract specification is a list of rows, newest first.

    Drawing, the log file and sounds are not modelled.  [char] is signed, so bytes from 128 on end
    a word like a space does. *)

From S2P Require Import Prelude CFloat.

(** C: Source/console.c:38-38 CON_TEXTSIZE *)
Definition CON_TEXTSIZE : Z := 32768.
(** C: Source/console.c:52-52 NUM_CON_TIMES *)
Definition NUM_CON_TIMES : Z := 16.

(** C: Source/console.c:34-53 con_linewidth *)
Record console : Type := Console {
  con_linewidth : Z;
  con_totallines : Z;
  con_numlines : Z;
  con_backscroll : Z;
  con_current : Z;
  con_x : Z;
  con_text : bytes;
  con_times : list f32;
  con_cr : bool
}.

Definition set_x (v : Z) (s : console) : console :=
  Console (con_linewidth s) (con_totallines s) (con_numlines s) (con_backscroll s) (con_current s) v (con_text s) (con_times s) (con_cr s).
Definition set_current (v : Z) (s : console) : console :=
  Console (con_linewidth s) (con_totallines s) (con_numlines s) (con_backscroll s) v (con_x s) (con_text s) (con_times s) (con_cr s).
Definition set_numlines (v : Z) (s : console) : console :=
  Console (con_linewidth s) (con_totallines s) v (con_backscroll s) (con_current s) (con_x s) (con_text s) (con_times s) (con_cr s).
Definition set_backscroll (v : Z) (s : console) : console :=
  Console (con_linewidth s) (con_totallines s) (con_numlines s) v (con_current s) (con_x s) (con_text s) (con_times s) (con_cr s).
Definition set_text (v : bytes) (s : console) : console :=
  Console (con_linewidth s) (con_totallines s) (con_numlines s) (con_backscroll s) (con_current s) (con_x s) v (con_times s) (con_cr s).
Definition set_times (v : list f32) (s : console) : console :=
  Console (con_linewidth s) (con_totallines s) (con_numlines s) (con_backscroll s) (con_current s) (con_x s) (con_text s) v (con_cr s).
Definition set_cr (v : bool) (s : console) : console :=
  Console (con_linewidth s) (con_totallines s) (con_numlines s) (con_backscroll s) (con_current s) (con_x s) (con_text s) (con_times s) v.
Definition set_size (w t : Z) (s : console) : console :=
  Console w t (con_numlines s) (con_backscroll s) (con_current s) (con_x s) (con_text s) (con_times s) (con_cr s).

(** The remainder of C; by zero it is undefined. *)
Definition c_rem (a b : Z) : res Z :=
  if b =? 0 then Fault (Undefined "division by zero") else mret (Z.rem a b).

(** [memset] with a count that is not negative. *)
Definition fill (a : bytes) (off v n : Z) : res bytes :=
  if n <? 0 then Fault (Undefined "store outside the object") else store a off (replicate (Z.to_nat n) v).

(** C: Source/console.c:98-102 Con_Clear_f *)
Definition Con_Clear_f (s : console) : res console :=
  t ← fill (con_text s) 0 32 CON_TEXTSIZE; mret (set_text t s).

(** C: Source/console.c:109-115 Con_ClearNotify *)
Definition Con_ClearNotify (s : console) : console := set_times (replicate (Z.to_nat NUM_CON_TIMES) (f32_of_bits 0)) s.

(** C: Source/console.c:186-190 numchars *)
Fixpoint copy_chars (tbuf : bytes) (src dst : Z) (n : nat) (t : bytes) : res bytes :=
  match n with
  | O => mret t
  | S n => c ← load1 tbuf src; t ← store t dst [c]; copy_chars tbuf (src + 1) (dst + 1) n t
  end.

(** Lines [i], [i + 1], ..., [n] of them, counted from the newest.
    C: Source/console.c:184-191 numlines *)
Fixpoint copy_lines (tbuf : bytes) (current oldtotal oldwidth total width numchars i : Z) (n : nat) (t : bytes) : res bytes :=
  match n with
  | O => mret t
  | S n =>
      t ← (if 0 <? numchars then
             y ← c_rem (current - i + oldtotal) oldtotal;
             copy_chars tbuf (y * oldwidth) ((total - 1 - i) * width) (Z.to_nat numchars) t
           else mret t);
      copy_lines tbuf current oldtotal oldwidth total width numchars (i + 1) n t
  end.

(** C: Source/console.c:148-198 Con_CheckResize *)
Definition Con_CheckResize (vid_width : Z) (s : console) : res console :=
  let width := (vid_width >> 3) - 2 in
  if width =? con_linewidth s then mret s
  else
    s ← (if width <? 1 then
           let s := set_size 38 (CON_TEXTSIZE / 38) s in
           t ← fill (con_text s) 0 32 CON_TEXTSIZE; mret (set_text t s)
         else
           let oldwidth := con_linewidth s in
           let oldtotallines := con_totallines s in
           let s := set_size width (CON_TEXTSIZE / width) s in
           let numlines := Z.min oldtotallines (con_totallines s) in
           let numchars := Z.min oldwidth width in
           let tbuf := con_text s in
           t ← fill (con_text s) 0 32 CON_TEXTSIZE;
           t ← copy_lines tbuf (con_current s) oldtotallines oldwidth (con_totallines s) width numchars 0 (Z.to_nat numlines) t;
           mret (Con_ClearNotify (set_text t s)));
    let s := set_backscroll 0 s in
    mret (set_current (con_totallines s - 1) s).

(** The text after [Hunk_AllocName] is zero before it is cleared.
    C: Source/console.c:205-229 Con_Init *)
Definition Con_Init (vid_width : Z) : res console :=
  let s := Console 0 0 0 0 0 0 (replicate (Z.to_nat CON_TEXTSIZE) 0) (replicate (Z.to_nat NUM_CON_TIMES) (f32_of_bits 0)) false in
  t ← fill (con_text s) 0 32 CON_TEXTSIZE;
  Con_CheckResize vid_width (set_size (-1) (con_totallines s) (set_text t s)).

(** C: Source/console.c:245-252 Con_Linefeed *)
Definition Con_Linefeed (s : console) : res console :=
  let s := set_x 0 s in
  n ← (if con_current s =? INT_MAX then Fault (Undefined "int overflow") else mret (con_current s + 1));
  let s := set_current n s in
  let s := if con_numlines s <? con_totallines s then set_numlines (con_numlines s + 1) s else s in
  y ← c_rem (con_current s) (con_totallines s);
  t ← fill (con_text s) (y * con_linewidth s) 32 (con_linewidth s);
  mret (set_text t s).

(** The length of the word at the start, [n] at most.
    C: Source/console.c:296-298 con_linewidth *)
Fixpoint word_length (n : nat) (txt : bytes) : Z :=
  match n, txt with
  | S n, c :: txt => if s8 c <=? 32 then 0 else 1 + word_length n txt
  | _, _ => 0
  end.

(** One character of a text; [txt] is the text from it on.
    C: Source/console.c:293-339 txt *)
Definition print_char (realtime : f32) (mask c : Z) (txt : bytes) (s : console) : res console :=
  let l := word_length (Z.to_nat (con_linewidth s)) txt in
  let s := if negb (l =? con_linewidth s) && (con_linewidth s <? con_x s + l) then set_x 0 s else s in
  let s := if con_cr s then set_cr false (set_current (con_current s - 1) s) else s in
  s ← (if con_x s =? 0 then
         s ← Con_Linefeed s;
         if 0 <=? con_current s then
           i ← c_rem (con_current s) NUM_CON_TIMES;
           mret (set_times (<[Z.to_nat i := realtime]> (con_times s)) s)
         else mret s
       else mret s);
  if c =? 10 then mret (set_x 0 s)
  else if c =? 13 then mret (set_cr true (set_x 0 s))
  else
    y ← c_rem (con_current s) (con_totallines s);
    t ← store (con_text s) (y * con_linewidth s + con_x s) [u8 (c .| mask)];
    let s := set_x (con_x s + 1) (set_text t s) in
    mret (if con_linewidth s <=? con_x s then set_x 0 s else s).

Fixpoint print_chars (realtime : f32) (mask : Z) (txt : bytes) (s : console) : res console :=
  match txt with
  | [] => mret s
  | c :: rest => s ← print_char realtime mask c txt s; print_chars realtime mask rest s
  end.

(** The mask of coloured text, and the text after its mark. *)
Definition colour (txt : bytes) : Z * bytes :=
  match txt with
  | c :: rest => if (c =? 1) || (c =? 2) then (128, rest) else (0, txt)
  | [] => (0, txt)
  end.

(** C: Source/console.c:263-340 Con_Print *)
Definition Con_Print (realtime : f32) (txt : bytes) (s : console) : res console :=
  let s := set_backscroll 0 s in
  let '(mask, txt) := colour txt in
  print_chars realtime mask txt s.

(** C: Source/console.c:342-342 MAXPRINTMSG *)
Definition MAXPRINTMSG : Z := 4096.

(** [text] is what the format and its arguments print.
    C: Source/console.c:351-371 Con_Printf *)
Definition Con_Printf (initialized dedicated : bool) (realtime : f32) (text : bytes) (s : console) : res console :=
  let msg := take (Z.to_nat (MAXPRINTMSG - 1)) text in
  if negb initialized then mret s
  else if dedicated then mret s
  else Con_Print realtime msg s.

(** * Lines of the text *)

Lemma lookup_splice a off d i : (off + length d <= length a)%nat ->
  splice a off d !! i = if decide (off <= i < off + length d)%nat then d !! (i - off)%nat else a !! i.
Proof.
  intros H. unfold splice. destruct (decide (off <= i < off + length d)%nat) as [[H1 H2]|Hn].
  - rewrite lookup_app_r by (rewrite length_take; lia). rewrite length_take, Nat.min_l by lia. by rewrite lookup_app_l by lia.
  - destruct (decide (i < off)%nat).
    + rewrite lookup_app_l by (rewrite length_take; lia). by rewrite lookup_take_lt by lia.
    + rewrite lookup_app_r by (rewrite length_take; lia). rewrite length_take, Nat.min_l by lia. rewrite lookup_app_r, lookup_drop by lia. f_equal. lia.
Qed.

Lemma lookup_slice a off n i : 0 <= off -> slice a off n !! i = if decide (Z.of_nat i < n) then a !! (Z.to_nat off + i)%nat else None.
Proof.
  intros H. unfold slice. case_decide; [rewrite lookup_take_lt, lookup_drop by lia; done|]. apply lookup_take_ge. lia.
Qed.

(** Line [y] of a text cut into lines of [w]. *)
Definition line (t : bytes) (w y : Z) : bytes := slice t (y * w) w.

Lemma line_length t w y : 0 <= y -> 0 <= w -> (y + 1) * w <= zlen t -> zlen (line t w y) = w.
Proof. intros. unfold line. apply slice_length; nia. Qed.

Section Line.
Context (t d : bytes) (w y x : Z).
Hypothesis (Hy : 0 <= y) (Hx : 0 <= x) (Hd : x + zlen d <= w) (Ht : (y + 1) * w <= zlen t).

Lemma line_splice_other y' : 0 <= y' -> y' <> y -> line (splice t (Z.to_nat (y * w + x)) d) w y' = line t w y'.
Proof.
  intros Hy' Hne. assert (y' * w + w <= y * w \/ y * w + w <= y' * w) by (assert (y' + 1 <= y \/ y + 1 <= y') as [] by lia; [left|right]; nia).
  assert (0 <= y * w /\ 0 <= y' * w) as [] by nia.
  apply list_eq. intros i. unfold line. rewrite !lookup_slice by lia. case_decide; [|done]. rewrite lookup_splice by lia. case_decide; [|done]. lia.
Qed.

Lemma line_splice_same : line (splice t (Z.to_nat (y * w + x)) d) w y = splice (line t w y) (Z.to_nat x) d.
Proof.
  assert (0 <= y * w) by nia. pose proof (line_length t w y Hy ltac:(lia) Ht) as Hl.
  apply list_eq. intros i. rewrite (lookup_splice (line t w y)) by lia. unfold line at 1. rewrite lookup_slice by lia.
  rewrite lookup_splice by lia. destruct (decide (Z.of_nat i < w)) as [H1|H1].
  - destruct (decide (Z.to_nat x <= i < Z.to_nat x + length d)%nat) as [H2|H2].
    + rewrite decide_True by lia. f_equal. lia.
    + rewrite decide_False by lia. unfold line. rewrite lookup_slice by lia. by rewrite decide_True by done.
  - rewrite decide_False by lia. unfold line. rewrite lookup_slice by lia. by rewrite decide_False by done.
Qed.
End Line.

(** * The screen: rows, the newest first *)

Record screen : Type := Screen { rows : list bytes; col : Z; ret : bool }.

Definition blank (w : Z) : bytes := replicate (Z.to_nat w) 32.

(** A new row; after a carriage return it takes the place of the newest one. *)
Definition new_row (w : Z) (s : screen) : list bytes :=
  blank w :: (if ret s then drop 1 (rows s) else take (length (rows s) - 1) (rows s)).

Definition put (x c : Z) (rs : list bytes) : list bytes :=
  match rs with r :: rs => <[Z.to_nat x := c]> r :: rs | [] => [] end.

(** The word at the start of a text: everything before the first character that is, as a signed
    character, a blank or less. *)
Fixpoint first_word (txt : bytes) : bytes :=
  match txt with c :: txt => if 32 <? s8 c then c :: first_word txt else [] | [] => [] end.

(** A character of a text: a word that does not fit in the row, but in a row of its own, starts a
    new one. *)
Definition show_char (w mask c : Z) (txt : bytes) (s : screen) : screen :=
  let n := zlen (first_word txt) in
  let x := if (n <? w) && (w <? col s + n) then 0 else col s in
  let rs := if x =? 0 then new_row w s else rows s in
  if c =? 10 then Screen rs 0 false
  else if c =? 13 then Screen rs 0 true
  else Screen (put x (u8 (c .| mask)) rs) (if w <=? x + 1 then 0 else x + 1) false.

Fixpoint show_chars (w mask : Z) (txt : bytes) (s : screen) : screen :=
  match txt with
  | [] => s
  | c :: rest => show_chars w mask rest (show_char w mask c txt s)
  end.

Definition show (w : Z) (txt : bytes) (s : screen) : screen := let '(mask, txt) := colour txt in show_chars w mask txt s.

(** The rows of the console. *)
Definition con_row (s : console) (i : Z) : bytes := line (con_text s) (con_linewidth s) ((con_current s - i) mod con_totallines s).
Definition con_rows (s : console) : list bytes := con_row s <$> seqZ 0 (con_totallines s).
Definition screen_of (s : console) : screen := Screen (con_rows s) (con_x s) (con_cr s).

(** The console between two prints. *)
Record sized (s : console) : Prop := {
  ok_width : 1 <= con_linewidth s;
  ok_total : con_totallines s = CON_TEXTSIZE / con_linewidth s;
  ok_some : 1 <= con_totallines s;
  ok_text : zlen (con_text s) = CON_TEXTSIZE;
  ok_times : zlen (con_times s) = NUM_CON_TIMES;
  ok_current : 0 <= con_current s;
  ok_numlines : 0 <= con_numlines s
}.
Definition con_ok (s : console) : Prop := sized s /\ 0 <= con_x s < con_linewidth s /\ (con_cr s = true -> con_x s = 0).

Lemma total_fits s : sized s -> con_totallines s * con_linewidth s <= CON_TEXTSIZE.
Proof. intros H. rewrite (ok_total s H), Z.mul_comm. apply Z.mul_div_le. pose proof (ok_width s H). lia. Qed.

Lemma line_bound s y : sized s -> 0 <= y < con_totallines s -> (y + 1) * con_linewidth s <= zlen (con_text s).
Proof. intros H Hy. pose proof (total_fits s H). pose proof (ok_width s H). rewrite (ok_text s H). nia. Qed.

Lemma con_rows_length s : sized s -> zlen (con_rows s) = con_totallines s.
Proof. intros H. unfold con_rows. rewrite length_fmap, length_seqZ. pose proof (ok_some s H). lia. Qed.

Lemma c_rem_mod a b : 0 <= a -> 1 <= b -> c_rem a b = Ok (a mod b).
Proof. intros Ha Hb. unfold c_rem. rewrite (proj2 (Z.eqb_neq b 0)) by lia. by rewrite Z.rem_mod_nonneg by lia. Qed.

Lemma mod_distinct a b n : 0 < n -> 0 < a - b < n -> a mod n <> b mod n.
Proof.
  intros Hn Hd E. pose proof (Z.div_mod a n ltac:(lia)) as Ea. pose proof (Z.div_mod b n ltac:(lia)) as Eb. rewrite E in Ea.
  assert (Ed : a - b = n * (a / n - b / n)) by (rewrite Z.mul_sub_distr_l; lia).
  assert (a / n - b / n <= 0 \/ 1 <= a / n - b / n) as [] by lia; nia.
Qed.

(** Only the line of [con_current] changes. *)
Lemma rows_write s x d i : sized s -> 0 <= x -> x + zlen d <= con_linewidth s -> 0 < i < con_totallines s ->
  line (splice (con_text s) (Z.to_nat ((con_current s mod con_totallines s) * con_linewidth s + x)) d) (con_linewidth s)
    ((con_current s - i) mod con_totallines s) = con_row s i.
Proof.
  intros H Hx Hd Hi. pose proof (ok_some s H). pose proof (Z.mod_pos_bound (con_current s) (con_totallines s) ltac:(lia)).
  pose proof (Z.mod_pos_bound (con_current s - i) (con_totallines s) ltac:(lia)).
  apply line_splice_other; try lia; [by apply line_bound|]. apply not_eq_sym, mod_distinct; lia.
Qed.

(** The parts of the state a step keeps. *)
Definition same_size (s s' : console) : Prop := con_linewidth s' = con_linewidth s /\ con_totallines s' = con_totallines s /\ con_backscroll s' = con_backscroll s.

Lemma seqZ_first m n : 1 <= n -> seqZ m n = m :: seqZ (m + 1) (n - 1).
Proof. intros H. rewrite seqZ_cons by lia. unfold Z.succ, Z.pred. done. Qed.

Lemma Con_Linefeed_ok s : sized (set_current (con_current s + 1) s) -> con_current s < INT_MAX ->
  exists s', Con_Linefeed s = Ok s' /\ sized s' /\ same_size s s' /\ con_x s' = 0 /\ con_cr s' = con_cr s /\ con_current s' = con_current s + 1 /\
    con_rows s' = blank (con_linewidth s) :: (con_row s <$> seqZ 0 (con_totallines s - 1)).
Proof.
  intros H Hmax. set (s1 := set_current (con_current s + 1) s) in *. unfold Con_Linefeed. cbn [con_current set_x].
  rewrite (proj2 (Z.eqb_neq _ _)) by lia. cbn [mbind res_bind mret res_ret]. pose proof (ok_current s1 H) as Hc. cbn in Hc. pose proof (ok_some s1 H) as Ht. cbn in Ht.
  pose proof (ok_width s1 H) as Hw. cbn in Hw. pose proof (ok_numlines s1 H) as Hn. cbn in Hn. cbn [con_numlines con_totallines set_current set_x].
  set (s2 := if con_numlines s <? con_totallines s then _ else _).
  assert (E2 : con_linewidth s2 = con_linewidth s /\ con_totallines s2 = con_totallines s /\ con_backscroll s2 = con_backscroll s /\ con_text s2 = con_text s /\
    con_times s2 = con_times s /\ con_x s2 = 0 /\ con_cr s2 = con_cr s /\ con_current s2 = con_current s + 1 /\ 0 <= con_numlines s2).
  { subst s2. case_if; cbn; repeat split; lia. }
  destruct E2 as (E1 & E2 & E3 & E4 & E5 & E6 & E7 & E8 & E9). rewrite E8, E2, c_rem_mod by lia. cbn [mbind res_bind].
  pose proof (Z.mod_pos_bound (con_current s + 1) (con_totallines s) ltac:(lia)) as Hmod. set (y := (con_current s + 1) mod con_totallines s) in *.
  pose proof (line_bound s1 y H Hmod) as Hb. cbn [con_linewidth con_text s1 set_current] in Hb.
  unfold fill. rewrite E1, E4, (proj2 (Z.ltb_ge _ _)) by lia. rewrite store_ok by (rewrite ?length_replicate; nia). cbn [mbind res_bind].
  eexists. split; [done|]. set (t := splice _ _ _). assert (Hlt : length t = length (con_text s)) by (apply length_splice; rewrite length_replicate; nia).
  split; [|split; [by repeat split|split; [done|split; [done|split; [done|]]]]].
  - pose proof (ok_total s1 H) as Htot. pose proof (ok_text s1 H) as Htx. pose proof (ok_times s1 H) as Htm. cbn in Htot, Htx, Htm.
    split; cbn [set_text con_linewidth con_totallines con_text con_times con_current con_numlines]; rewrite ?E1, ?E2, ?E5, ?E8, ?Hlt; lia.
  - unfold con_rows. cbn [set_text con_totallines]. rewrite E2, (seqZ_first 0 (con_totallines s)) by lia. rewrite fmap_cons. f_equal.
    + unfold con_row. cbn [set_text con_text con_linewidth con_current con_totallines]. rewrite E1, E2, E8, Z.sub_0_r. fold y. subst t.
      rewrite <- (Z.add_0_r (y * con_linewidth s)), line_splice_same by (rewrite ?length_replicate; lia).
      pose proof (line_length (con_text s) (con_linewidth s) y ltac:(lia) ltac:(lia) Hb) as Hl.
      unfold splice. cbn [take app Z.to_nat]. rewrite drop_ge by (rewrite length_replicate; lia). by rewrite app_nil_r.
    + replace (seqZ (0 + 1) (con_totallines s - 1)) with (Z.add 1 <$> seqZ 0 (con_totallines s - 1)) by (by rewrite fmap_add_seqZ).
      rewrite <- list_fmap_compose. apply list_fmap_ext. intros k i Hi. apply lookup_seqZ in Hi as [-> Hk].
      pose proof (rows_write s1 0 (replicate (Z.to_nat (con_linewidth s)) 32) (0 + Z.of_nat k + 1) H ltac:(lia)) as HR.
      cbn [con_linewidth con_text con_current con_totallines s1 set_current] in HR. rewrite length_replicate in HR. specialize (HR ltac:(lia) ltac:(lia)).
      cbn [compose]. unfold con_row at 1. cbn [set_text con_text con_linewidth con_current con_totallines]. rewrite E1, E2, E8. subst t.
      fold y in HR. rewrite Z.add_0_r in HR. replace (con_current s + 1 - (1 + (0 + Z.of_nat k))) with (con_current s + 1 - (0 + Z.of_nat k + 1)) by lia.
      rewrite HR. unfold con_row. cbn [s1 set_current con_current con_text con_linewidth con_totallines]. do 2 f_equal. lia.
Qed.

Lemma rows_take s : sized s -> con_row s <$> seqZ 0 (con_totallines s - 1) = take (length (con_rows s) - 1) (con_rows s).
Proof.
  intros H. pose proof (ok_some s H). unfold con_rows. rewrite length_fmap, length_seqZ, <- fmap_take. f_equal.
  apply list_eq. intros i. destruct (decide (Z.of_nat i < con_totallines s - 1)).
  - rewrite lookup_take_lt, !lookup_seqZ_lt by lia. done.
  - rewrite lookup_take_ge, lookup_seqZ_ge by lia. done.
Qed.

Lemma rows_drop s : sized s -> con_row (set_cr false (set_current (con_current s - 1) s)) <$> seqZ 0 (con_totallines s - 1) = drop 1 (con_rows s).
Proof.
  intros H. pose proof (ok_some s H). unfold con_rows. rewrite (seqZ_first 0 (con_totallines s)) by lia. rewrite fmap_cons. cbn [drop].
  replace (seqZ (0 + 1) (con_totallines s - 1)) with (Z.add 1 <$> seqZ 0 (con_totallines s - 1)) by (by rewrite fmap_add_seqZ).
  rewrite drop_0, <- list_fmap_compose. apply list_fmap_ext. intros k i _. unfold con_row. cbn. do 2 f_equal. lia.
Qed.

Lemma rows_put s x c : sized s -> 0 <= x < con_linewidth s -> exists t,
  store (con_text s) (con_current s mod con_totallines s * con_linewidth s + x) [c] = Ok t /\ length t = length (con_text s) /\
  con_rows (set_text t s) = put x c (con_rows s).
Proof.
  intros H Hx. pose proof (ok_some s H). pose proof (Z.mod_pos_bound (con_current s) (con_totallines s) ltac:(lia)) as Hm.
  pose proof (line_bound s _ H Hm) as Hb. set (y := con_current s mod con_totallines s) in *.
  assert (0 <= y * con_linewidth s) by nia. pose proof Hb as Hb'. rewrite Z.mul_add_distr_r in Hb'. rewrite store_ok by (cbn [length]; lia).
  eexists. split; [done|]. split; [apply length_splice; cbn [length]; lia|]. unfold con_rows. cbn [set_text con_totallines].
  rewrite (seqZ_first 0 (con_totallines s)) by lia. rewrite !fmap_cons. cbn [put]. f_equal.
  - unfold con_row. cbn [set_text con_text con_linewidth con_current con_totallines]. rewrite Z.sub_0_r. fold y.
    rewrite line_splice_same by (cbn [length]; lia). pose proof (line_length (con_text s) (con_linewidth s) y ltac:(lia) ltac:(lia) Hb) as Hl.
    rewrite insert_take_drop by lia. unfold splice. cbn [length app]. by replace (Z.to_nat x + 1)%nat with (S (Z.to_nat x)) by lia.
  - apply list_fmap_ext. intros k i Hi. apply lookup_seqZ in Hi as [-> Hk]. apply (rows_write s x [c]); [done|lia|cbn [length]; lia|lia].
Qed.

(** A new row, where one is due. *)
Definition feed (rt : f32) (s : console) : res console :=
  if con_x s =? 0 then
    s ← Con_Linefeed s;
    if 0 <=? con_current s then
      i ← c_rem (con_current s) NUM_CON_TIMES;
      mret (set_times (<[Z.to_nat i := rt]> (con_times s)) s)
    else mret s
  else mret s.

Definition uncr (s : console) : console := if con_cr s then set_cr false (set_current (con_current s - 1) s) else s.

Lemma feed_ok rt s : sized s -> con_current s < INT_MAX -> (con_cr s = true -> con_x s = 0) ->
  exists s', feed rt (uncr s) = Ok s' /\ sized s' /\ same_size s s' /\ con_x s' = con_x s /\ con_cr s' = false /\ con_current s' <= con_current s + 1 /\
    con_rows s' = if con_x s =? 0 then new_row (con_linewidth s) (screen_of s) else con_rows s.
Proof.
  intros H Hmax Hcr. unfold feed, uncr. destruct (con_x s =? 0) eqn:E0; bool_props.
  - assert (Hf : exists s1, Con_Linefeed (uncr s) = Ok s1 /\ sized s1 /\ same_size s s1 /\ con_x s1 = 0 /\ con_cr s1 = false /\ 0 <= con_current s1 <= con_current s + 1 /\
      con_rows s1 = new_row (con_linewidth s) (screen_of s)).
    { pose proof (ok_current s H) as Hc. destruct H as [H1 H2 H3 H4 H5 H6 H7]. assert (H : sized s) by done. unfold uncr. destruct (con_cr s) eqn:Ec.
      - destruct (Con_Linefeed_ok (set_cr false (set_current (con_current s - 1) s))) as (s1 & E & Hs1 & Hsz & Hx1 & Hc1 & Hcu & Hr); [split; cbn; lia|cbn; lia|].
        exists s1. cbn in Hcu, Hc1, Hr, Hsz. split_and!; try done; try lia. rewrite Hr. unfold new_row, screen_of. cbn [ret rows]. rewrite Ec. f_equal. by apply rows_drop.
      - destruct (Con_Linefeed_ok s) as (s1 & E & Hs1 & Hsz & Hx1 & Hc1 & Hcu & Hr); [split; cbn; lia|lia|].
        exists s1. split_and!; try done; try lia; [congruence|]. rewrite Hr. unfold new_row, screen_of. cbn [ret rows]. rewrite Ec. f_equal. by apply rows_take. }
    fold (uncr s). assert (Hx0 : con_x (uncr s) = 0) by (unfold uncr; by destruct (con_cr s)). rewrite Hx0. cbn [Z.eqb].
    destruct Hf as (s1 & -> & Hs1 & Hsz & Hx1 & Hc1 & Hcu & Hr). cbn [mbind res_bind]. rewrite (proj2 (Z.leb_le 0 _)) by lia.
    rewrite c_rem_mod by (unfold NUM_CON_TIMES; lia). cbn [mbind res_bind]. eexists. split; [done|]. destruct Hs1 as [K1 K2 K3 K4 K5 K6 K7].
    split; [split; cbn; rewrite ?length_insert; done|]. cbn. split_and!; try done; try lia; congruence.
  - assert (con_cr s = false) as Ec by (apply not_true_is_false; intros Hc; by apply E0, Hcr). rewrite Ec, (proj2 (Z.eqb_neq _ _)) by done.
    exists s. split_and!; try done. lia.
Qed.

Lemma word_length_first n txt : word_length n txt = Z.of_nat (min n (length (first_word txt))).
Proof.
  revert n. induction txt as [|c txt IH]; intros [|n]; [done..|]. cbn [word_length first_word]. rewrite IH.
  destruct (Z.leb_spec (s8 c) 32), (Z.ltb_spec 32 (s8 c)); cbn [length]; lia.
Qed.

Lemma wraps w x txt : 0 <= w ->
  (let l := word_length (Z.to_nat w) txt in negb (l =? w) && (w <? x + l)) =
  (let n := zlen (first_word txt) in (n <? w) && (w <? x + n)).
Proof.
  intros Hw. cbv zeta. rewrite word_length_first. destruct (Z.ltb_spec (zlen (first_word txt)) w).
  - replace (min (Z.to_nat w) (length (first_word txt))) with (length (first_word txt)) by lia. by rewrite (proj2 (Z.eqb_neq _ w)) by lia.
  - replace (min (Z.to_nat w) (length (first_word txt))) with (Z.to_nat w) by lia. by rewrite Z2Nat.id, Z.eqb_refl by lia.
Qed.

Lemma print_char_ok rt mask c txt s : con_ok s -> con_current s < INT_MAX -> exists s', print_char rt mask c txt s = Ok s' /\ con_ok s' /\ same_size s s' /\
  con_current s' <= con_current s + 1 /\ screen_of s' = show_char (con_linewidth s) mask c txt (screen_of s).
Proof.
  intros (H & Hx & Hcr) Hmax. unfold print_char, show_char. change (col (screen_of s)) with (con_x s). change (rows (screen_of s)) with (con_rows s).
  pose proof (wraps (con_linewidth s) (con_x s) txt ltac:(pose proof (ok_width s H); lia)) as Hwrap. cbv zeta in Hwrap |- *. rewrite <- Hwrap. clear Hwrap. set (l := word_length _ txt).
  set (X := if negb (l =? con_linewidth s) && (con_linewidth s <? con_x s + l) then 0 else con_x s).
  assert (HX : 0 <= X < con_linewidth s /\ (con_x s = 0 -> X = 0)) by (subst X; pose proof (ok_width s H); case_if; lia).
  replace (if negb (l =? con_linewidth s) && (con_linewidth s <? con_x s + l) then set_x 0 s else s) with (set_x X s) by (subst X; case_if; by destruct s).
  clearbody X. assert (Hs1 : sized (set_x X s)) by (destruct H; by split).
  destruct (feed_ok rt (set_x X s) Hs1 Hmax) as (s2 & E2 & Hs2 & (Hw2 & Ht2 & Hb2) & Hx2 & Hc2 & Hcu & Hr); [cbn; intros Hc; apply HX; auto|].
  cbn [con_linewidth con_totallines con_backscroll con_x con_current set_x] in Hw2, Ht2, Hb2, Hx2, Hcu, Hr.
  change (if con_cr (set_x X s) then set_cr false (set_current (con_current (set_x X s) - 1) (set_x X s)) else set_x X s) with (uncr (set_x X s)).
  cbv zeta. fold (feed rt (uncr (set_x X s))). rewrite E2. cbn [mbind res_bind].
  change (new_row (con_linewidth s) (screen_of (set_x X s))) with (new_row (con_linewidth s) (screen_of s)) in Hr.
  change (con_rows (set_x X s)) with (con_rows s) in Hr.
  assert (Hstep : forall s', sized s' -> same_size s2 s' -> con_current s' = con_current s2 -> forall x' r', con_x s' = x' -> con_cr s' = r' -> 0 <= x' < con_linewidth s ->
    (r' = true -> x' = 0) -> con_ok s' /\ same_size s s' /\ con_current s' <= con_current s + 1).
  { intros s' Hs' (K1 & K2 & K3) Hcur x' r' <- <- Hx' Hr'. unfold con_ok, same_size. rewrite K1, K2, K3, Hw2, Ht2, Hb2, Hcur. done. }
  destruct (c =? 10); [|destruct (c =? 13)].
  - exists (set_x 0 s2). split; [done|]. destruct (Hstep (set_x 0 s2)) with (x' := 0) (r' := false) as (? & ? & ?); try done; [by destruct Hs2|lia|].
    split; [done|]. split; [done|]. split; [done|]. unfold screen_of at 1. change (con_rows (set_x 0 s2)) with (con_rows s2). by rewrite Hr, <- Hc2.
  - exists (set_cr true (set_x 0 s2)). split; [done|]. destruct (Hstep (set_cr true (set_x 0 s2))) with (x' := 0) (r' := true) as (? & ? & ?); try done; [by destruct Hs2|lia|].
    split; [done|]. split; [done|]. split; [done|]. unfold screen_of at 1. change (con_rows (set_cr true (set_x 0 s2))) with (con_rows s2). by rewrite Hr.
  - destruct (rows_put s2 X (u8 (c .| mask)) Hs2) as (t & Et & Hlt & Hrt); [lia|]. rewrite Hx2.
    rewrite c_rem_mod by (pose proof (ok_current s2 Hs2); pose proof (ok_some s2 Hs2); lia). cbn [mbind res_bind]. rewrite Et. cbn [mbind res_bind].
    set (x' := if con_linewidth s <=? X + 1 then 0 else X + 1).
    replace (if con_linewidth (set_x (X + 1) (set_text t s2)) <=? con_x (set_x (X + 1) (set_text t s2)) then set_x 0 (set_x (X + 1) (set_text t s2))
      else set_x (X + 1) (set_text t s2)) with (set_x x' (set_text t s2)) by (cbn [con_linewidth con_x set_x set_text]; rewrite Hw2; subst x'; by case_if).
    exists (set_x x' (set_text t s2)). split; [done|]. destruct (Hstep (set_x x' (set_text t s2))) with (x' := x') (r' := false) as (? & ? & ?); try done.
    + destruct Hs2. split; cbn; rewrite ?Hlt; done.
    + subst x'. case_if; lia.
    + split; [done|]. split; [done|]. split; [done|]. unfold screen_of at 1. change (con_rows (set_x x' (set_text t s2))) with (con_rows (set_text t s2)).
      rewrite Hrt, Hr. cbn [set_x set_text con_x con_cr]. by rewrite Hc2.
Qed.

Lemma print_chars_ok rt mask txt : forall s, con_ok s -> con_current s + zlen txt <= INT_MAX -> exists s', print_chars rt mask txt s = Ok s' /\ con_ok s' /\ same_size s s' /\
  screen_of s' = show_chars (con_linewidth s) mask txt (screen_of s).
Proof.
  induction txt as [|c txt IH]; intros s Hs Hmax; [by exists s|]. cbn [length] in Hmax. cbn [print_chars show_chars].
  destruct (print_char_ok rt mask c (c :: txt) s Hs ltac:(lia)) as (s1 & E & Hs1 & (Hw & Ht & Hb) & Hc & Hsc). rewrite E. cbn [mbind res_bind].
  destruct (IH s1 Hs1 ltac:(lia)) as (s2 & E2 & Hs2 & (Hw2 & Ht2 & Hb2) & Hsc2). exists s2. split; [done|]. split; [done|].
  split; [unfold same_size; rewrite Hw2, Ht2, Hb2; done|]. by rewrite Hsc2, Hsc, Hw.
Qed.

Lemma con_print_ok rt txt s : con_ok s -> con_current s + zlen txt <= INT_MAX -> exists s', Con_Print rt txt s = Ok s' /\ con_ok s' /\
  screen_of s' = show (con_linewidth s) txt (screen_of s) /\ con_backscroll s' = 0.
Proof.
  intros (H & Hx & Hcr) Hmax. unfold Con_Print, show. destruct (colour txt) as [mask t] eqn:Ec.
  assert (Hlen : zlen t <= zlen txt) by (unfold colour in Ec; destruct txt as [|c r]; [by injection Ec as <- <-|]; case_if_in Ec; injection Ec as <- <-; cbn; lia).
  destruct (print_chars_ok rt mask t (set_backscroll 0 s)) as (s' & E & Hs' & (_ & _ & Hb) & Hsc); [split; [by destruct H|done]|cbn; lia|].
  exists s'. split; [done|]. split; [done|]. split; [exact Hsc|exact Hb].
Qed.

(** C30: Printing to the console stays in its text buffer and does to the rows of the screen what
    the specification of a terminal says: a word that does not fit in the row but in a row of its own
    starts a new row, a newline ends one, a carriage return starts it anew, a full row is ended, the
    colour mark at the start sets the high bit of all characters, and the oldest row is lost when a
    new one begins.  This is for a console that is [con_ok]: its rows fit in the buffer, and the next
    character is to go before the end of the row ([con_x] is less than [con_linewidth]), with nothing
    before it after a carriage return.  Printing keeps this, but [Con_CheckResize] does not when the
    rows become shorter, and then printing can leave the buffer ([resize_overrun]).  Row numbers stay
    below 2^31. *)
Theorem Con_Print_refines rt txt s : con_ok s -> con_current s + zlen txt <= INT_MAX ->
  exists s', Con_Print rt txt s = Ok s' /\ con_ok s' /\ screen_of s' = show (con_linewidth s) txt (screen_of s) /\ con_backscroll s' = 0.
Proof. apply con_print_ok. Qed.

(** A word that does not fit after 30 characters of a row of 38. *)
Definition short_rows : console := Console 38 862 0 0 3 4 (replicate (Z.to_nat CON_TEXTSIZE) 32) (replicate 16 (f32_of_bits 0)) false.
Definition long_words : bytes := replicate 30 97 ++ [32] ++ replicate 10 98 ++ [13] ++ replicate 40 99 ++ [10].
Lemma Con_Print_refines_witness :
  con_ok short_rows /\ exists s', Con_Print (f32_of_bits 0) long_words short_rows = Ok s' /\ con_ok s' /\ screen_of s' = show 38 long_words (screen_of short_rows).
Proof.
  assert (H : con_ok short_rows) by (split; [split; by_vm|split; [split; by_vm|done]]). split; [done|].
  destruct (Con_Print_refines (f32_of_bits 0) long_words short_rows H) as (s' & E & Hs' & Hsc & _); [by_vm|]. exists s'. exact (conj E (conj Hs' Hsc)).
Defined.

(** ** Another width *)

Lemma copy_chars_ok tbuf n : forall src dst t, 0 <= src -> 0 <= dst -> src + Z.of_nat n <= zlen tbuf -> dst + Z.of_nat n <= zlen t ->
  copy_chars tbuf src dst n t = Ok (splice t (Z.to_nat dst) (slice tbuf src (Z.of_nat n))).
Proof.
  induction n as [|n IH]; intros src dst t Hs Hd Hls Hld; cbn [copy_chars].
  - unfold slice. cbn [Z.to_nat take]. by rewrite splice_nil.
  - destruct (tbuf !! Z.to_nat src) as [c|] eqn:Ec; [|apply lookup_ge_None in Ec; lia]. rewrite (load1_lookup _ _ _ Hs Ec). cbn [mbind res_bind].
    rewrite store_ok by (cbn [length]; lia). cbn [mbind res_bind]. pose proof (length_splice t (Z.to_nat dst) [c] ltac:(cbn [length]; lia)) as Hl.
    rewrite IH by lia. f_equal. assert (Es : slice tbuf src (Z.of_nat (S n)) = c :: slice tbuf (src + 1) (Z.of_nat n)).
    { unfold slice. rewrite (drop_S _ _ _ Ec), !Nat2Z.id. cbn [take]. by replace (Z.to_nat (src + 1)) with (S (Z.to_nat src)) by lia. }
    rewrite Es. replace (Z.to_nat (dst + 1)) with (S (Z.to_nat dst)) by lia. apply splice_cons.
    assert (Hsl : (length (slice tbuf (src + 1) (Z.of_nat n)) <= n)%nat) by (unfold slice; rewrite length_take; lia). lia.
Qed.

(** A row at another width. *)
Definition fit (w : Z) (r : bytes) : bytes := take (Z.to_nat w) (r ++ blank w).

Lemma fit_splice w r n : 0 <= n <= w -> zlen r = n \/ (w <= zlen r /\ n = w) -> splice (blank w) 0 (take (Z.to_nat n) r) = fit w r.
Proof.
  intros Hn Hr. unfold splice, fit, blank. rewrite take_0. rewrite length_take, drop_replicate, take_app. cbn [app].
  rewrite take_replicate. replace (Z.to_nat w - (0 + Nat.min (Z.to_nat n) (length r)))%nat with (Nat.min (Z.to_nat w - length r) (Z.to_nat w)) by lia. f_equal.
  destruct Hr as [Hr|[Hr ->]]; [|done]. by rewrite !take_ge by lia.
Qed.

Lemma total_pos w : 1 <= w <= CON_TEXTSIZE -> 1 <= CON_TEXTSIZE / w /\ CON_TEXTSIZE / w * w <= CON_TEXTSIZE.
Proof. intros Hw. split; [apply Z.div_le_lower_bound; lia|]. rewrite Z.mul_comm. apply Z.mul_div_le. lia. Qed.

Section Resize.
Context (s : console) (w : Z).
Hypothesis (H : sized s) (Hw : 1 <= w <= CON_TEXTSIZE).
Let total : Z := CON_TEXTSIZE / w.
Let numchars : Z := Z.min (con_linewidth s) w.

(** The lines below [i] from the end are still blank, the others are copied. *)
Definition copied (i : Z) (t : bytes) : Prop := zlen t = CON_TEXTSIZE /\
  forall k, 0 <= k < total -> line t w (total - 1 - k) = if k <? i then fit w (con_row s k) else blank w.

Lemma copy_lines_ok n : forall i t, 0 <= i -> i + Z.of_nat n <= Z.min (con_totallines s) total -> copied i t ->
  exists t', copy_lines (con_text s) (con_current s) (con_totallines s) (con_linewidth s) total w numchars i n t = Ok t' /\ copied (i + Z.of_nat n) t'.
Proof.
  pose proof (total_pos w Hw) as [Ht1 Ht2]. fold total in Ht1, Ht2. induction n as [|n IH]; intros i t Hi Hn Hc; cbn [copy_lines]; [exists t; rewrite Z.add_0_r; done|].
  pose proof (ok_width s H) as Hlw. pose proof (ok_current s H) as Hcur. pose proof (ok_some s H) as Hsome. rewrite (proj2 (Z.ltb_lt 0 numchars)) by (unfold numchars; lia).
  rewrite c_rem_mod by lia. cbn [mbind res_bind]. replace ((con_current s - i + con_totallines s) mod con_totallines s) with ((con_current s - i) mod con_totallines s)
    by (replace (con_current s - i + con_totallines s) with (con_current s - i + 1 * con_totallines s) by lia; by rewrite Z.mod_add by lia).
  pose proof (Z.mod_pos_bound (con_current s - i) (con_totallines s) ltac:(lia)) as Hm. pose proof (line_bound s _ H Hm) as Hb. pose proof Hc as [Hlen Hlines].
  set (y := (con_current s - i) mod con_totallines s) in *. pose proof Hb as Hb'. rewrite Z.mul_add_distr_r in Hb'.
  assert (Hdst : 0 <= (total - 1 - i) * w /\ (total - 1 - i + 1) * w <= zlen t) by (split; [nia|rewrite Hlen; nia]). destruct Hdst as [Hd0 Hd1].
  pose proof Hd1 as Hd1'. rewrite Z.mul_add_distr_r in Hd1'. assert (0 <= y * con_linewidth s) by nia. assert (Hnc : 1 <= numchars <= w) by (unfold numchars; lia).
  rewrite copy_chars_ok by (unfold numchars in *; lia). cbn [mbind res_bind]. rewrite (Z2Nat.id numchars) by lia.
  pose proof (slice_length (con_text s) (y * con_linewidth s) numchars ltac:(lia) ltac:(lia) ltac:(unfold numchars; lia)) as Hsl.
  set (t1 := splice _ _ _). replace (i + Z.of_nat (S n)) with (i + 1 + Z.of_nat n) by lia. apply IH; [lia|lia|]. split; [unfold t1; rewrite length_splice; lia|].
  intros k Hk. unfold t1. rewrite <- (Z.add_0_r ((total - 1 - i) * w)). destruct (decide (k = i)) as [->|Hki].
  - rewrite line_splice_same by lia. rewrite (Hlines i Hk), (proj2 (Z.ltb_ge i i)), (proj2 (Z.ltb_lt i (i + 1))) by lia. cbn [Z.to_nat].
    replace (slice (con_text s) (y * con_linewidth s) numchars) with (take (Z.to_nat numchars) (con_row s i)).
    + apply fit_splice; [lia|]. unfold con_row. rewrite line_length by lia. unfold numchars. lia.
    + unfold con_row, line, slice. fold y. rewrite take_take. f_equal. unfold numchars. lia.
  - rewrite line_splice_other by lia. rewrite (Hlines k Hk). destruct (Z.ltb_spec k i), (Z.ltb_spec k (i + 1)); try lia; done.
Qed.
End Resize.

Lemma blank_line w total y (t : bytes) : 0 <= w -> 0 <= y < total -> total * w <= zlen t -> line (replicate (length t) 32) w y = blank w.
Proof.
  intros Hw Hy Ht. unfold line, slice, blank. rewrite drop_replicate, take_replicate. f_equal. assert (y * w + w <= zlen t) by nia. lia.
Qed.

Lemma fill_all (t : bytes) : zlen t = CON_TEXTSIZE -> fill t 0 32 CON_TEXTSIZE = Ok (replicate (length t) 32).
Proof.
  intros H. unfold fill. cbn [CON_TEXTSIZE Z.ltb Z.compare]. change (32768 <? 0) with false. cbn iota.
  rewrite store_ok by (rewrite ?length_replicate; unfold CON_TEXTSIZE in *; lia). unfold splice. rewrite take_0, drop_ge by (rewrite length_replicate; unfold CON_TEXTSIZE in *; lia).
  rewrite app_nil_r. cbn [app]. do 2 f_equal. unfold CON_TEXTSIZE in *. lia.
Qed.

Lemma Con_CheckResize_ok vid_width s : sized s -> let w := (vid_width >> 3) - 2 in let total := CON_TEXTSIZE / w in 1 <= w <= CON_TEXTSIZE -> w <> con_linewidth s ->
  exists s', Con_CheckResize vid_width s = Ok s' /\ sized s' /\ con_linewidth s' = w /\ con_current s' = total - 1 /\ con_x s' = con_x s /\ con_cr s' = con_cr s /\
    con_rows s' = (fit w <$> take (Z.to_nat total) (con_rows s)) ++ replicate (Z.to_nat (total - con_totallines s)) (blank w).
Proof.
  intros H w total Hw Hne. pose proof (total_pos w Hw) as [Ht1 Ht2]. fold total in Ht1, Ht2. unfold Con_CheckResize. fold w.
  rewrite (proj2 (Z.eqb_neq _ _)), (proj2 (Z.ltb_ge w 1)) by (done || lia). cbn [con_text set_size con_totallines con_current]. fold total.
  rewrite fill_all by apply (ok_text s H). cbn [mbind res_bind].
  assert (H0 : copied s w 0 (replicate (length (con_text s)) 32)).
  { split; [rewrite length_replicate; apply (ok_text s H)|]. intros k Hk. rewrite (proj2 (Z.ltb_ge k 0)) by lia. fold total in Hk |- *.
    apply (blank_line w total); [lia|lia|]. rewrite (ok_text s H). lia. }
  pose proof (ok_some s H) as Hsome.
  destruct (copy_lines_ok s w H Hw (Z.to_nat (Z.min (con_totallines s) total)) 0 _ ltac:(lia) ltac:(fold total; lia) H0) as (t & Et & Hlen & Hlines).
  fold total in Et. rewrite Et. cbn [mbind res_bind]. eexists. split; [done|]. destruct H as [K1 K2 K3 K4 K5 K6 K7].
  split; [split; cbn [Con_ClearNotify set_times set_text set_backscroll set_current set_size con_linewidth con_totallines con_text con_times con_current con_numlines]; try done; try lia; by rewrite length_replicate|].
  cbn [Con_ClearNotify set_times set_text set_backscroll set_current set_size con_linewidth con_totallines con_text con_times con_current con_numlines con_x con_cr].
  split; [done|]. split; [done|]. split; [done|]. split; [done|]. fold total in Hlines.
  rewrite Z2Nat.id, Z.add_0_l in Hlines by lia. unfold con_rows at 1. cbn [Con_ClearNotify set_times set_text set_backscroll set_current set_size con_totallines].
  assert (Hrow : forall k, 0 <= k < total -> con_row (set_current (total - 1) (set_backscroll 0 (Con_ClearNotify (set_text t (set_size w total s))))) k =
    if k <? Z.min (con_totallines s) total then fit w (con_row s k) else blank w).
  { intros k Hk. rewrite <- (Hlines k Hk). unfold con_row. cbn [Con_ClearNotify set_times set_text set_backscroll set_current set_size con_text con_linewidth con_current con_totallines].
    by rewrite Z.mod_small by lia. }
  apply list_eq. intros i. rewrite list_lookup_fmap. destruct (decide (Z.of_nat i < total)) as [Hi|Hi].
  - rewrite lookup_seqZ_lt, Z.add_0_l by done. cbn [fmap option_fmap option_map]. rewrite Hrow by lia. unfold con_rows.
    destruct (Z.ltb_spec (Z.of_nat i) (Z.min (con_totallines s) total)) as [Hlt|Hge].
    + rewrite lookup_app_l by (rewrite length_fmap, length_take, length_fmap, length_seqZ; lia).
      rewrite list_lookup_fmap, lookup_take_lt, list_lookup_fmap, lookup_seqZ_lt by lia. cbn. by rewrite Z.add_0_l.
    + rewrite lookup_app_r by (rewrite length_fmap, length_take, length_fmap, length_seqZ; lia). symmetry. apply lookup_replicate_2.
      rewrite length_fmap, length_take, length_fmap, length_seqZ. lia.
  - rewrite lookup_seqZ_ge by lia. symmetry. apply lookup_ge_None. rewrite length_app, length_fmap, length_take, length_replicate. unfold con_rows. rewrite length_fmap, length_seqZ. lia.
Qed.

(** When the width of the screen changes, the newest rows stay, cut or filled up with spaces to
    the new width, as many as fit; the console is again of a size at which nothing is out of
    bounds, but the column of the cursor stays what it was. *)
Theorem Con_CheckResize_spec vid_width s : sized s -> let w := (vid_width >> 3) - 2 in let total := CON_TEXTSIZE / w in 1 <= w <= CON_TEXTSIZE -> w <> con_linewidth s ->
  exists s', Con_CheckResize vid_width s = Ok s' /\ sized s' /\ con_linewidth s' = w /\ con_x s' = con_x s /\
    con_rows s' = (fit w <$> take (Z.to_nat total) (con_rows s)) ++ replicate (Z.to_nat (total - con_totallines s)) (blank w).
Proof.
  intros H w total Hw Hne. destruct (Con_CheckResize_ok vid_width s H Hw Hne) as (s' & E & H1 & H2 & _ & H3 & _ & H4). by exists s'.
Qed.

Lemma Con_CheckResize_spec_witness : let s := Console 78 420 0 0 419 60 (replicate (Z.to_nat CON_TEXTSIZE) 32) (replicate 16 (f32_of_bits 0)) false in
  exists s', Con_CheckResize 320 s = Ok s' /\ con_linewidth s' = 38.
Proof.
  intros s. destruct (Con_CheckResize_spec 320 s) as (s' & E & _ & Hw & _); [split; by_vm|split; by_vm|by_vm|]. exists s'. exact (conj E Hw).
Defined.

Lemma word_length_full w txt : (w <= length txt)%nat -> Forall (fun c => s8 c > 32) (take w txt) -> word_length w txt = Z.of_nat w.
Proof.
  revert txt. induction w as [|w IH]; intros txt Hl Hf; [done|]. destruct txt as [|c txt]; [cbn in Hl; lia|]. cbn [word_length take length] in *.
  apply Forall_cons in Hf as [Hc Hf]. rewrite (proj2 (Z.leb_gt _ _)) by lia. rewrite IH by (done || lia). lia.
Qed.

(** The cursor column is kept when the console becomes narrower.  When it is beyond the new
    width, the next word that is as long as a row is written behind the end of the text buffer. *)
Theorem resize_overrun rt vid_width s c txt : sized s -> let w := (vid_width >> 3) - 2 in 1 <= w <= CON_TEXTSIZE -> w <> con_linewidth s ->
  con_cr s = false -> CON_TEXTSIZE <= CON_TEXTSIZE / w * w - w + con_x s -> 0 < con_x s ->
  (Z.to_nat w <= length (c :: txt))%nat -> Forall (fun c => s8 c > 32) (take (Z.to_nat w) (c :: txt)) ->
  exists s', Con_CheckResize vid_width s = Ok s' /\ Con_Print rt (c :: txt) s' = Fault (Undefined "store outside the object").
Proof.
  intros H w Hw Hne Hcr Hx Hx0 Hlen Hword. destruct (Con_CheckResize_ok vid_width s H Hw Hne) as (s' & E & H1 & H2 & H3 & H4 & H5 & _). exists s'. split; [done|].
  assert (Hc : s8 c > 32) by (replace (Z.to_nat w) with (S (Z.to_nat w - 1)) in Hword by lia; cbn [take] in Hword; by apply Forall_cons in Hword as [? _]).
  assert (Hcn : c <> 1 /\ c <> 2 /\ c <> 10 /\ c <> 13) by (repeat split; intros ->; by vm_compute in Hc).
  destruct Hcn as (C1 & C2 & C3 & C4). unfold Con_Print. cbn [colour]. rewrite (proj2 (Z.eqb_neq c 1)), (proj2 (Z.eqb_neq c 2)) by done. cbn [orb print_chars].
  unfold print_char at 1. cbn [set_backscroll con_linewidth con_x con_cr con_current]. fold w in H2. rewrite H2, H4, word_length_full by done.
  rewrite Z2Nat.id, Z.eqb_refl by lia. cbn [negb andb con_cr set_backscroll con_x]. rewrite H5, Hcr, ?H4. cbn iota. cbn [con_x set_backscroll]. rewrite ?H4, (proj2 (Z.eqb_neq (con_x s) 0)) by lia. cbn [mbind res_bind mret res_ret].
  rewrite (proj2 (Z.eqb_neq c 10)), (proj2 (Z.eqb_neq c 13)) by done. cbn [con_current con_totallines con_linewidth con_x con_text set_backscroll].
  fold w in H3. rewrite (ok_total s' H1), H2, H3, ?H4. pose proof (total_pos w Hw) as [Ht1 Ht2]. rewrite c_rem_mod by lia. cbn [mbind res_bind]. rewrite Z.mod_small by lia.
  unfold store. rewrite (ok_text s' H1). cbn [length]. rewrite andb_comm, (proj2 (Z.leb_gt _ _)); [done|]. rewrite Z.mul_sub_distr_r. lia.
Qed.

Lemma resize_overrun_witness : let s := Console 78 420 0 0 419 60 (replicate (Z.to_nat CON_TEXTSIZE) 32) (replicate 16 (f32_of_bits 0)) false in
  exists s', Con_CheckResize 320 s = Ok s' /\ Con_Print (f32_of_bits 0) (replicate 38 97) s' = Fault (Undefined "store outside the object").
Proof.
  intros s. apply (resize_overrun (f32_of_bits 0) 320 s 97 (replicate 37 97));
    [split; by_vm|split; by_vm|by_vm|done|by_vm|by_vm|apply Nat.leb_le; by_vm|repeat constructor].
Defined.

Lemma Con_Init_ok vid_width : let w := (vid_width >> 3) - 2 in w <= CON_TEXTSIZE -> w <> -1 ->
  exists s, Con_Init vid_width = Ok s /\ con_ok s /\ con_linewidth s = if w <? 1 then 38 else w.
Proof.
  intros w Hw Hne. unfold Con_Init. cbn [con_text]. rewrite fill_all by (rewrite length_replicate; by_vm). cbn [mbind res_bind con_totallines].
  unfold Con_CheckResize. fold w. cbn [set_size con_linewidth set_text con_totallines con_text con_current]. rewrite (proj2 (Z.eqb_neq w (-1))) by done.
  assert (Hl : forall n, zlen (replicate (length (replicate n 0)) 32) = Z.of_nat n) by (intros n; by rewrite !length_replicate).
  destruct (w <? 1) eqn:E1; bool_props.
  - rewrite fill_all by (rewrite Hl; by_vm). cbn [mbind res_bind mret res_ret]. eexists. split; [done|]. split; [|done]. split; [|done].
    split; cbn [set_current set_backscroll set_text set_size con_linewidth con_totallines con_text con_times con_current con_numlines]; rewrite ?length_replicate; by_vm.
  - rewrite fill_all by (rewrite Hl; by_vm). cbn [mbind res_bind]. pose proof (total_pos w ltac:(lia)) as [Ht _].
    rewrite (Z.min_l 0 (CON_TEXTSIZE / w)) by lia. cbn [Z.to_nat copy_lines mbind res_bind mret res_ret]. eexists. split; [done|]. split; [|done]. split; [|cbn; split; [lia|done]].
    split; cbn [Con_ClearNotify set_times set_current set_backscroll set_text set_size con_linewidth con_totallines con_text con_times con_current con_numlines]; try done; try lia; rewrite ?length_replicate; by_vm.
Qed.
