(* ===== verification/Keys.v ===== *)
(** Keys: their names and bindings, key events, and the line editor of the console (Source/keys.c).

    A line being edited and the lines of the history are C strings in arrays of [MAXCMDLINE]
    bytes; a line that does not fit its array is undefined.  The copies that move a line by one
    byte overlap; they are modelled as moving it, which is what a copy from left to right does.
    Text goes to the command buffer of Cmd.v and to the console of Console.v.  The menu, the
    completion of file names, the height of the console and the keys of demo playback are
    parameters; the file with the saved history is not modelled. *)

From S2P Require Import Prelude CFloat CharConv SizeBuf ComString ComMisc Cvar Cmd Console.

(** ** Key numbers, in the order of the enumeration *)

(** C: Source/keys.h:24-24 K_TAB *)
Definition K_TAB : Z := 9.
(** C: Source/keys.h:25-25 K_ENTER *)
Definition K_ENTER : Z := 13.
(** C: Source/keys.h:26-26 K_ESCAPE *)
Definition K_ESCAPE : Z := 27.
(** C: Source/keys.h:31-31 K_BACKSPACE *)
Definition K_BACKSPACE : Z := 127.
(** C: Source/keys.h:38-38 K_UPARROW *)
Definition K_UPARROW : Z := 132.
(** C: Source/keys.h:39-39 K_DOWNARROW *)
Definition K_DOWNARROW : Z := 133.
(** C: Source/keys.h:40-40 K_LEFTARROW *)
Definition K_LEFTARROW : Z := 134.
(** C: Source/keys.h:41-41 K_RIGHTARROW *)
Definition K_RIGHTARROW : Z := 135.
(** C: Source/keys.h:43-43 K_ALT *)
Definition K_ALT : Z := 136.
(** C: Source/keys.h:44-44 K_LALT *)
Definition K_LALT : Z := 137.
(** C: Source/keys.h:45-45 K_RALT *)
Definition K_RALT : Z := 138.
(** C: Source/keys.h:46-46 K_CTRL *)
Definition K_CTRL : Z := 139.
(** C: Source/keys.h:47-47 K_LCTRL *)
Definition K_LCTRL : Z := 140.
(** C: Source/keys.h:48-48 K_RCTRL *)
Definition K_RCTRL : Z := 141.
(** C: Source/keys.h:49-49 K_SHIFT *)
Definition K_SHIFT : Z := 142.
(** C: Source/keys.h:50-50 K_LSHIFT *)
Definition K_LSHIFT : Z := 143.
(** C: Source/keys.h:51-51 K_RSHIFT *)
Definition K_RSHIFT : Z := 144.
(** C: Source/keys.h:52-52 K_F1 *)
Definition K_F1 : Z := 145.
(** C: Source/keys.h:64-64 K_INS *)
Definition K_INS : Z := 157.
(** C: Source/keys.h:65-65 K_DEL *)
Definition K_DEL : Z := 158.
(** C: Source/keys.h:66-66 K_PGDN *)
Definition K_PGDN : Z := 159.
(** C: Source/keys.h:67-67 K_PGUP *)
Definition K_PGUP : Z := 160.
(** C: Source/keys.h:68-68 K_HOME *)
Definition K_HOME : Z := 161.
(** C: Source/keys.h:69-69 K_END *)
Definition K_END : Z := 162.
(** C: Source/keys.h:71-71 K_WIN *)
Definition K_WIN : Z := 163.
(** C: Source/keys.h:72-72 K_LWIN *)
Definition K_LWIN : Z := 164.
(** C: Source/keys.h:73-73 K_RWIN *)
Definition K_RWIN : Z := 165.
(** C: Source/keys.h:156-156 K_MWHEELUP *)
Definition K_MWHEELUP : Z := 244.
(** C: Source/keys.h:157-157 K_MWHEELDOWN *)
Definition K_MWHEELDOWN : Z := 245.

(** C: Source/keys.c:55-202 keynames *)
Definition keynames : list (bytes * Z) :=
  [(cs "TAB", 9); (cs "ENTER", 13); (cs "ESCAPE", 27); (cs "SPACE", 32); (cs "BACKSPACE", 127);
   (cs "CAPSLOCK", 128); (cs "PRINTSCR", 129); (cs "SCRLCK", 130); (cs "SCROLLOCK", 130); (cs "PAUSE", 131);
   (cs "UPARROW", 132); (cs "DOWNARROW", 133); (cs "LEFTARROW", 134); (cs "RIGHTARROW", 135); (cs "ALT", 136);
   (cs "LALT", 137); (cs "RALT", 138); (cs "CTRL", 139); (cs "LCTRL", 140); (cs "RCTRL", 141); (cs "SHIFT", 142);
   (cs "LSHIFT", 143); (cs "RSHIFT", 144); (cs "WINKEY", 163); (cs "LWINKEY", 164); (cs "RWINKEY", 165);
   (cs "POPUPMENU", 166); (cs "NUMLOCK", 167); (cs "KP_NUMLCK", 167); (cs "KP_NUMLOCK", 167);
   (cs "KP_SLASH", 168); (cs "KP_DIVIDE", 168); (cs "KP_STAR", 169); (cs "KP_MULTIPLY", 169);
   (cs "KP_MINUS", 173); (cs "KP_HOME", 170); (cs "KP_7", 170); (cs "KP_UPARROW", 171); (cs "KP_8", 171);
   (cs "KP_PGUP", 172); (cs "KP_9", 172); (cs "KP_PLUS", 177); (cs "KP_LEFTARROW", 174); (cs "KP_4", 174);
   (cs "KP_5", 175); (cs "KP_RIGHTARROW", 176); (cs "KP_6", 176); (cs "KP_END", 178); (cs "KP_1", 178);
   (cs "KP_DOWNARROW", 179); (cs "KP_2", 179); (cs "KP_PGDN", 180); (cs "KP_3", 180); (cs "KP_INS", 181);
   (cs "KP_0", 181); (cs "KP_DEL", 182); (cs "KP_ENTER", 183); (cs "F1", 145); (cs "F2", 146); (cs "F3", 147);
   (cs "F4", 148); (cs "F5", 149); (cs "F6", 150); (cs "F7", 151); (cs "F8", 152); (cs "F9", 153);
   (cs "F10", 154); (cs "F11", 155); (cs "F12", 156); (cs "INS", 157); (cs "DEL", 158); (cs "PGDN", 159);
   (cs "PGUP", 160); (cs "HOME", 161); (cs "END", 162); (cs "MOUSE1", 200); (cs "MOUSE2", 201);
   (cs "MOUSE3", 202); (cs "MOUSE4", 203); (cs "MOUSE5", 204); (cs "MOUSE6", 205); (cs "MOUSE7", 206);
   (cs "MOUSE8", 207); (cs "JOY1", 208); (cs "JOY2", 209); (cs "JOY3", 210); (cs "JOY4", 211); (cs "AUX1", 212);
   (cs "AUX2", 213); (cs "AUX3", 214); (cs "AUX4", 215); (cs "AUX5", 216); (cs "AUX6", 217); (cs "AUX7", 218);
   (cs "AUX8", 219); (cs "AUX9", 220); (cs "AUX10", 221); (cs "AUX11", 222); (cs "AUX12", 223); (cs "AUX13", 224);
   (cs "AUX14", 225); (cs "AUX15", 226); (cs "AUX16", 227); (cs "AUX17", 228); (cs "AUX18", 229);
   (cs "AUX19", 230); (cs "AUX20", 231); (cs "AUX21", 232); (cs "AUX22", 233); (cs "AUX23", 234);
   (cs "AUX24", 235); (cs "AUX25", 236); (cs "AUX26", 237); (cs "AUX27", 238); (cs "AUX28", 239);
   (cs "AUX29", 240); (cs "AUX30", 241); (cs "AUX31", 242); (cs "AUX32", 243); (cs "PAUSE", 131);
   (cs "MWHEELUP", 244); (cs "MWHEELDOWN", 245); (cs "SEMICOLON", 59)].

(** C: Source/keys.h:160-160 MAXCMDLINE *)
Definition MAXCMDLINE : Z := 256.
(** C: Source/keys.c:512-512 MAX_CHAT_SIZE *)
Definition MAX_CHAT_SIZE : Z := 45.

(** C: Source/keys.h:171-174 keydest_t *)
Inductive keydest : Type := key_game | key_console | key_message | key_menu.

#[global] Instance keydest_eq_dec : EqDecision keydest.
Proof. solve_decision. Defined.

(** C: Source/keys.c:30-48 key_lines *)
Record keyst : Type := KeySt {
  keybindings : list (option bytes);
  keydown : list bool;
  key_repeats : list Z;
  key_lines : list bytes;
  edit_line : Z;
  history_line : Z;
  key_linepos : Z;
  key_insert : Z;
  key_dest : keydest;
  key_count : Z;
  key_lastpress : Z;
  chat_buffer : bytes;
  chat_bufferlen : Z;
  team_message : bool;
  kcmd : cmdst;
  kcon : console
}.

Definition set_keybindings (v : list (option bytes)) (s : keyst) : keyst :=
  KeySt v (keydown s) (key_repeats s) (key_lines s) (edit_line s) (history_line s) (key_linepos s)
    (key_insert s) (key_dest s) (key_count s) (key_lastpress s) (chat_buffer s) (chat_bufferlen s)
    (team_message s) (kcmd s) (kcon s).
Definition set_keydown (v : list bool) (s : keyst) : keyst :=
  KeySt (keybindings s) v (key_repeats s) (key_lines s) (edit_line s) (history_line s) (key_linepos s)
    (key_insert s) (key_dest s) (key_count s) (key_lastpress s) (chat_buffer s) (chat_bufferlen s)
    (team_message s) (kcmd s) (kcon s).
Definition set_key_repeats (v : list Z) (s : keyst) : keyst :=
  KeySt (keybindings s) (keydown s) v (key_lines s) (edit_line s) (history_line s) (key_linepos s)
    (key_insert s) (key_dest s) (key_count s) (key_lastpress s) (chat_buffer s) (chat_bufferlen s)
    (team_message s) (kcmd s) (kcon s).
Definition set_key_lines (v : list bytes) (s : keyst) : keyst :=
  KeySt (keybindings s) (keydown s) (key_repeats s) v (edit_line s) (history_line s) (key_linepos s)
    (key_insert s) (key_dest s) (key_count s) (key_lastpress s) (chat_buffer s) (chat_bufferlen s)
    (team_message s) (kcmd s) (kcon s).
Definition set_edit_line (v : Z) (s : keyst) : keyst :=
  KeySt (keybindings s) (keydown s) (key_repeats s) (key_lines s) v (history_line s) (key_linepos s)
    (key_insert s) (key_dest s) (key_count s) (key_lastpress s) (chat_buffer s) (chat_bufferlen s)
    (team_message s) (kcmd s) (kcon s).
Definition set_history_line (v : Z) (s : keyst) : keyst :=
  KeySt (keybindings s) (keydown s) (key_repeats s) (key_lines s) (edit_line s) v (key_linepos s)
    (key_insert s) (key_dest s) (key_count s) (key_lastpress s) (chat_buffer s) (chat_bufferlen s)
    (team_message s) (kcmd s) (kcon s).
Definition set_key_linepos (v : Z) (s : keyst) : keyst :=
  KeySt (keybindings s) (keydown s) (key_repeats s) (key_lines s) (edit_line s) (history_line s) v
    (key_insert s) (key_dest s) (key_count s) (key_lastpress s) (chat_buffer s) (chat_bufferlen s)
    (team_message s) (kcmd s) (kcon s).
Definition set_key_insert (v : Z) (s : keyst) : keyst :=
  KeySt (keybindings s) (keydown s) (key_repeats s) (key_lines s) (edit_line s) (history_line s)
    (key_linepos s) v (key_dest s) (key_count s) (key_lastpress s) (chat_buffer s) (chat_bufferlen s)
    (team_message s) (kcmd s) (kcon s).
Definition set_key_dest (v : keydest) (s : keyst) : keyst :=
  KeySt (keybindings s) (keydown s) (key_repeats s) (key_lines s) (edit_line s) (history_line s)
    (key_linepos s) (key_insert s) v (key_count s) (key_lastpress s) (chat_buffer s) (chat_bufferlen s)
    (team_message s) (kcmd s) (kcon s).
Definition set_key_count (v : Z) (s : keyst) : keyst :=
  KeySt (keybindings s) (keydown s) (key_repeats s) (key_lines s) (edit_line s) (history_line s)
    (key_linepos s) (key_insert s) (key_dest s) v (key_lastpress s) (chat_buffer s) (chat_bufferlen s)
    (team_message s) (kcmd s) (kcon s).
Definition set_key_lastpress (v : Z) (s : keyst) : keyst :=
  KeySt (keybindings s) (keydown s) (key_repeats s) (key_lines s) (edit_line s) (history_line s)
    (key_linepos s) (key_insert s) (key_dest s) (key_count s) v (chat_buffer s) (chat_bufferlen s)
    (team_message s) (kcmd s) (kcon s).
Definition set_chat_buffer (v : bytes) (s : keyst) : keyst :=
  KeySt (keybindings s) (keydown s) (key_repeats s) (key_lines s) (edit_line s) (history_line s)
    (key_linepos s) (key_insert s) (key_dest s) (key_count s) (key_lastpress s) v (chat_bufferlen s)
    (team_message s) (kcmd s) (kcon s).
Definition set_chat_bufferlen (v : Z) (s : keyst) : keyst :=
  KeySt (keybindings s) (keydown s) (key_repeats s) (key_lines s) (edit_line s) (history_line s)
    (key_linepos s) (key_insert s) (key_dest s) (key_count s) (key_lastpress s) (chat_buffer s) v
    (team_message s) (kcmd s) (kcon s).
Definition set_team_message (v : bool) (s : keyst) : keyst :=
  KeySt (keybindings s) (keydown s) (key_repeats s) (key_lines s) (edit_line s) (history_line s)
    (key_linepos s) (key_insert s) (key_dest s) (key_count s) (key_lastpress s) (chat_buffer s)
    (chat_bufferlen s) v (kcmd s) (kcon s).
Definition set_kcmd (v : cmdst) (s : keyst) : keyst :=
  KeySt (keybindings s) (keydown s) (key_repeats s) (key_lines s) (edit_line s) (history_line s)
    (key_linepos s) (key_insert s) (key_dest s) (key_count s) (key_lastpress s) (chat_buffer s)
    (chat_bufferlen s) (team_message s) v (kcon s).
Definition set_kcon (v : console) (s : keyst) : keyst :=
  KeySt (keybindings s) (keydown s) (key_repeats s) (key_lines s) (edit_line s) (history_line s)
    (key_linepos s) (key_insert s) (key_dest s) (key_count s) (key_lastpress s) (chat_buffer s)
    (chat_bufferlen s) (team_message s) (kcmd s) v.

Definition at_ {A} (l : list A) (i : Z) : res A :=
  if 0 <=? i then of_option (Undefined "index outside the array") (l !! Z.to_nat i) else Fault (Undefined "index outside the array").
Definition put_ {A} (l : list A) (i : Z) (v : A) : res (list A) :=
  _ ← at_ l i; mret (<[Z.to_nat i := v]> l).

(** ** Tables made at start *)

(** C: Source/keys.c:837-864 consolekeys *)
Definition consolekeys (k : Z) : bool :=
  ((32 <=? k) && (k <? 128) && negb (k =? 96) && negb (k =? 126)) ||
  bool_decide (k ∈ [K_ENTER; K_TAB; K_LEFTARROW; K_RIGHTARROW; K_UPARROW; K_DOWNARROW; K_BACKSPACE; K_INS; K_DEL; K_HOME; K_END;
    K_PGUP; K_PGDN; K_ALT; K_LALT; K_RALT; K_CTRL; K_LCTRL; K_RCTRL; K_SHIFT; K_LSHIFT; K_RSHIFT; K_MWHEELUP; K_MWHEELDOWN]).

Definition shifted_keys : list (Z * Z) :=
  [(49, 33); (50, 64); (51, 35); (52, 36); (53, 37); (54, 94); (55, 38); (56, 42); (57, 40); (48, 41); (45, 95); (61, 43);
   (44, 60); (46, 62); (47, 63); (59, 58); (39, 34); (91, 123); (93, 125); (96, 126); (92, 124)].

(** C: Source/keys.c:866-890 keyshift *)
Definition keyshift (k : Z) : Z :=
  match list_find (fun e => fst e = k) shifted_keys with
  | Some (_, e) => snd e
  | None => if (97 <=? k) && (k <=? 122) then k - 97 + 65 else k
  end.

(** C: Source/keys.c:892-894 menubound *)
Definition menubound (k : Z) : bool := (k =? K_ESCAPE) || ((K_F1 <=? k) && (k <? K_F1 + 12)).

(** The history when no file has one.
    C: Source/keys.c:828-833 key_lines *)
Definition no_history (s : keyst) : keyst := set_key_linepos 1 (set_key_lines (replicate 64 [93]) s).

(** ** Names and bindings *)

Fixpoint name_find (str : bytes) (l : list (bytes * Z)) : Z :=
  match l with
  | [] => -1
  | (n, k) :: l => if strcaseeq str n then k else name_find str l
  end.

(** [char] is signed.
    C: Source/keys.c:574-590 Key_StringToKeynum *)
Definition Key_StringToKeynum (str : bytes) : Z :=
  match str with
  | [] => -1
  | [c] => s8 c
  | _ => name_find str keynames
  end.

Fixpoint num_find (keynum : Z) (l : list (bytes * Z)) : bytes :=
  match l with
  | [] => cs "<UNKNOWN KEYNUM>"
  | (n, k) :: l => if keynum =? k then n else num_find keynum l
  end.

(** C: Source/keys.c:601-621 Key_KeynumToString *)
Definition Key_KeynumToString (keynum : Z) : bytes :=
  if keynum =? -1 then cs "<KEY NOT FOUND>"
  else if (32 <? keynum) && (keynum <? 127) then [keynum]
  else num_find keynum keynames.

Definition is_group (k : Z) : bool := (k =? K_CTRL) || (k =? K_ALT) || (k =? K_SHIFT) || (k =? K_WIN).

(** A key that is not a group: the calls for the two keys of a group are of this kind.
    C: Source/keys.c:641-649 keybindings *)
Definition set_binding1 (keynum : Z) (b : option bytes) (s : keyst) : res keyst :=
  l ← put_ (keybindings s) keynum b; mret (set_keybindings l s).

(** C: Source/keys.c:628-650 Key_SetBinding *)
Definition Key_SetBinding (keynum : Z) (binding : bytes) (s : keyst) : res keyst :=
  if keynum =? -1 then mret s
  else if is_group keynum then s ← set_binding1 (keynum + 1) (Some binding) s; set_binding1 (keynum + 2) (Some binding) s
  else set_binding1 keynum (Some binding) s.

(** C: Source/keys.c:657-675 Key_Unbind *)
Definition Key_Unbind (keynum : Z) (s : keyst) : res keyst :=
  if keynum =? -1 then mret s
  else if is_group keynum then s ← set_binding1 (keynum + 1) None s; set_binding1 (keynum + 2) None s
  else set_binding1 keynum None s.

Definition print (fmt : string) (args : list bytes) (s : keyst) : keyst := set_kcmd (say fmt args (kcmd s)) s.

(** C: Source/keys.c:682-700 Key_Unbind_f *)
Definition Key_Unbind_f (s : keyst) : res keyst :=
  if negb (Cmd_Argc (kcmd s) =? 2) then mret (print "Usage:  %s <key> : remove commands from a key" [Cmd_Argv 0 (kcmd s)] s)
  else
    let b := Key_StringToKeynum (Cmd_Argv 1 (kcmd s)) in
    if b =? -1 then mret (print "%s isn't a valid key" [Cmd_Argv 1 (kcmd s)] s)
    else Key_Unbind b s.

Fixpoint unbind_from (i : Z) (n : nat) (s : keyst) : res keyst :=
  match n with
  | O => mret s
  | S n =>
      b ← at_ (keybindings s) i;
      s ← (if bool_decide (is_Some b) then Key_Unbind i s else mret s);
      unbind_from (i + 1) n s
  end.

(** C: Source/keys.c:702-709 Key_Unbindall_f *)
Definition Key_Unbindall_f (s : keyst) : res keyst := unbind_from 0 256 s.

(** C: Source/keys.c:711-726 Key_PrintBindInfo *)
Definition Key_PrintBindInfo (keynum : Z) (keyname : option bytes) (s : keyst) : res keyst :=
  let keyname := default (Key_KeynumToString keynum) keyname in
  if keynum =? -1 then mret (print "%s isn't a valid key" [keyname] s)
  else
    b ← at_ (keybindings s) keynum;
    mret (match b with Some b => print "%s = %s" [keyname; b] s | None => print "%s is not bound" [keyname] s end).

(** The command is copied into an array of 1024 bytes.
    C: Source/keys.c:733-784 Key_Bind_f *)
Definition Key_Bind_f (s : keyst) : res keyst :=
  let c := Cmd_Argc (kcmd s) in
  if negb (c =? 2) && negb (c =? 3) then mret (print "bind <key> [command] : attach a command to a key" [] s)
  else
    let b := Key_StringToKeynum (Cmd_Argv 1 (kcmd s)) in
    if b =? -1 then mret (print "%s isn't a valid key" [Cmd_Argv 1 (kcmd s)] s)
    else if c =? 2 then
      if is_group b then
        k1 ← at_ (keybindings s) (b + 1);
        k2 ← at_ (keybindings s) (b + 2);
        match k1, k2 with
        | None, None => Key_PrintBindInfo b (Some (Cmd_Argv 1 (kcmd s))) s
        | Some x, Some y =>
            if bool_decide (x = y) then mret (print "%s = %s" [Cmd_Argv 1 (kcmd s); x] s)
            else s ← Key_PrintBindInfo (b + 1) None s; Key_PrintBindInfo (b + 2) None s
        | _, _ => s ← Key_PrintBindInfo (b + 1) None s; Key_PrintBindInfo (b + 2) None s
        end
      else Key_PrintBindInfo b (Some (Cmd_Argv 1 (kcmd s))) s
    else
      let cmd := Cmd_Argv 2 (kcmd s) in
      if zlen cmd <? 1024 then Key_SetBinding b cmd s else Fault (Undefined "store outside the object").

Definition bind_line (i : Z) (b : bytes) : bytes :=
  cs "bind " ++ [34] ++ Key_KeynumToString i ++ [34; 32; 34] ++ b ++ [34].

Fixpoint write_bindings (i : Z) (l : list (option bytes)) : list bytes :=
  match l with
  | [] => []
  | Some (c :: b) :: l => bind_line i (c :: b) :: write_bindings (i + 1) l
  | _ :: l => write_bindings (i + 1) l
  end.

(** The lines written, without their ends.
    C: Source/keys.c:793-801 Key_WriteBindings *)
Definition Key_WriteBindings (s : keyst) : list bytes := write_bindings 0 (keybindings s).

(** ** Events *)

(** What the line editor and the events ask of the rest of the game. *)
Record kenv : Type := KEnv {
  chatmode : bool;
  forcedup : bool;
  realtime : f32;
  conlines : Z;
  clipboard : option bytes;
  advanced : bool;
  adjust_height : Z -> keyst -> res keyst;
  complete_parameter : bytes -> bytes -> keyst -> res keyst;
  complete_command : keyst -> res keyst;
  menu_key : Z -> keyst -> res keyst;
  toggle_menu : keyst -> res keyst;
  demo_key : Z -> keyst -> res (bool * keyst)
}.

Definition add_text (text : bytes) (s : keyst) : res keyst := c ← Cbuf_AddText text (kcmd s); mret (set_kcmd c s).

(** The line being edited. *)
Definition cur_line (s : keyst) : res bytes := at_ (key_lines s) (edit_line s).
Definition set_cur_line (l : bytes) (s : keyst) : res keyst :=
  if zlen l <? MAXCMDLINE then ls ← put_ (key_lines s) (edit_line s) l; mret (set_key_lines ls s)
  else Fault (Undefined "store outside the object").

Fixpoint first_word (l : bytes) : bytes :=
  match l with
  | c :: l => if s8 c <=? 32 then [] else c :: first_word l
  | [] => []
  end.

(** C: Source/keys.c:212-222 CheckForCommand *)
Definition CheckForCommand (s : keyst) : res (bool * keyst) :=
  l ← cur_line s;
  let command := first_word (take 255 (drop 1 l)) in
  '(v, c) ← Cvar_FindVar command (cv (kcmd s));
  let s := set_kcmd (set_cv c (kcmd s)) s in
  mret (negb (v =? 0) || bool_decide (is_Some (Cmd_FindCommand command (kcmd s))) || bool_decide (is_Some (Cmd_FindAlias command (kcmd s)))
    || bool_decide (is_Some (Cmd_FindLegacyCommand command (kcmd s))), s).

(** C: Source/keys.c:248-269 key *)
Definition ctrl_char (key : Z) : Z :=
  if (48 <=? key) && (key <=? 57) then key - 48 + 0x12
  else match list_find (fun e => fst e = key)
         [(91, 0x10); (93, 0x11); (103, 0x86); (114, 0x87); (121, 0x88); (98, 0x89); (40, 0x80); (61, 0x81); (41, 0x82); (97, 0x83);
          (60, 0x1d); (45, 0x1e); (62, 0x1f); (44, 0x1c); (46, 0x9c); (66, 0x8b); (67, 0x8d)] with
       | Some (_, e) => snd e
       | None => key
       end.

(** C: Source/keys.c:240-275 Key_Extra *)
Definition Key_Extra (key : Z) (s : keyst) : res Z :=
  ctrl ← at_ (keydown s) K_CTRL;
  alt ← at_ (keydown s) K_ALT;
  let key := if ctrl : bool then ctrl_char key else key in
  mret (if alt : bool then key .| 0x80 else key).

(** C: Source/keys.c:370-373 key_linepos *)
Fixpoint back_while (p : Z -> bool) (line : bytes) (pos : nat) : nat :=
  match pos with
  | O => O
  | S n => if (1 <? pos)%nat && p (nth n line 0) then back_while p line n else pos
  end.

(** C: Source/keys.c:385-388 key_linepos *)
Fixpoint forward_while (fuel : nat) (p : Z -> bool) (line : bytes) (pos : nat) : nat :=
  match fuel with
  | O => pos
  | S fuel => if (pos <? length line)%nat && p (nth pos line 0) then forward_while fuel p line (S pos) else pos
  end.

(** The next line of the history that is not empty, or the one being edited.
    C: Source/keys.c:405-407 history_line *)
Fixpoint history_find (fuel : nat) (step edit : Z) (lines : list bytes) (h : Z) : res Z :=
  match fuel with
  | O => Fault OutOfFuel
  | S fuel =>
      let h := (h + step) & 63 in
      l ← at_ lines h;
      c ← match l with [] => Fault (Undefined "uninitialised value") | [_] => mret 0 | _ :: c :: _ => mret c end;
      if negb (h =? edit) && (c =? 0) then history_find fuel step edit lines h else mret h
  end.

Definition is_blank (c : Z) : bool := c =? 32.
Definition not_blank (c : Z) : bool := negb (c =? 32).

(** C: Source/keys.c:291-307 K_ENTER *)
Definition key_enter (e : kenv) (s : keyst) : res keyst :=
  '(talk, s) ← (if chatmode e && cls_connected (kcmd s) then '(b, s) ← CheckForCommand s; mret (negb b, s) else mret (false, s));
  s ← (if talk : bool then add_text (cs "say ") s else mret s);
  l ← cur_line s;
  s ← add_text (drop 1 l) s;
  s ← add_text [10] s;
  con ← Con_Printf true false (realtime e) (l ++ [10]) (kcon s);
  let s := set_kcon con s in
  p ← at_ (key_lines s) (edit_line s - 1);
  let s := if bool_decide (p = l) then s else set_edit_line ((edit_line s + 1) & 63) s in
  let s := set_history_line (edit_line s) s in
  s ← set_cur_line [93] s;
  mret (set_key_linepos 1 s).

(** The patterns that are completed with the names of files. *)
Definition parameter_patterns : list (bytes * bytes) :=
  [(cs "playdemo ", cs "*.dem"); (cs "capture_start ", cs "*.dem"); (cs "capturedemo ", cs "*.dem"); (cs "printtxt ", cs "*.txt");
   (cs "map ", cs "*.bsp"); (cs "exec ", cs "*.cfg"); (cs "load ", cs "*.sav"); (cs "loadsky ", cs "*.tga"); (cs "r_skybox ", cs "*.tga");
   (cs "loadcharset ", cs "*.tga"); (cs "gl_consolefont ", cs "*.tga"); (cs "crosshairimage ", cs "*.tga"); (cs "gamedir ", cs "*")].

(** C: Source/keys.c:309-351 K_TAB *)
Definition key_tab (e : kenv) (s : keyst) : res keyst :=
  l ← cur_line s;
  let cmd := drop 1 l in
  match list_find (fun x => take (length (fst x)) cmd = fst x) parameter_patterns with
  | Some (_, x) => complete_parameter e cmd (snd x) s
  | None =>
      if advanced e then complete_command e s
      else
        p ← match Cmd_CompleteCommand cmd (kcmd s) with Some p => mret (Some p) | None => Cvar_CompleteVariable cmd (cv (kcmd s)) end;
        match p with
        | Some p => s ← set_cur_line (take 1 l ++ p ++ [32]) s; mret (set_key_linepos (zlen p + 2) s)
        | None => mret s
        end
  end.

(** C: Source/keys.c:399-413 K_UPARROW *)
Definition key_up (e : kenv) (s : keyst) : res keyst :=
  ctrl ← at_ (keydown s) K_CTRL;
  if ctrl : bool then adjust_height e (-10) s
  else
    h ← history_find 64 (-1) (edit_line s) (key_lines s) (history_line s);
    let h := if h =? edit_line s then (edit_line s + 1) & 63 else h in
    l ← at_ (key_lines s) h;
    s ← set_cur_line l (set_history_line h s);
    mret (set_key_linepos (zlen l) s).

(** C: Source/keys.c:415-438 K_DOWNARROW *)
Definition key_down (e : kenv) (s : keyst) : res keyst :=
  ctrl ← at_ (keydown s) K_CTRL;
  if ctrl : bool then adjust_height e 10 s
  else if history_line s =? edit_line s then mret s
  else
    h ← history_find 64 1 (edit_line s) (key_lines s) (history_line s);
    let s := set_history_line h s in
    if h =? edit_line s then s ← set_cur_line [93] s; mret (set_key_linepos 1 s)
    else l ← at_ (key_lines s) h; s ← set_cur_line l s; mret (set_key_linepos (zlen l) s).

Definition scroll (n : Z) (s : keyst) : keyst := set_kcon (set_backscroll n (kcon s)) s.

(** Insert [d] at the cursor.
    C: Source/keys.c:487-489 memmove *)
Definition insert_text (d : bytes) (s : keyst) : res keyst :=
  l ← cur_line s;
  if zlen l <? key_linepos s then Fault (Undefined "negative size")
  else
    s ← set_cur_line (take (Z.to_nat (key_linepos s)) l ++ d ++ drop (Z.to_nat (key_linepos s)) l) s;
    mret (set_key_linepos (key_linepos s + zlen d) s).

(** C: Source/keys.c:475-493 cliptext *)
Definition key_paste (e : kenv) (s : keyst) : res keyst :=
  match clipboard e with
  | None => mret s
  | Some clip =>
      l ← cur_line s;
      let len := if MAXCMDLINE - 1 <? zlen clip + zlen l then MAXCMDLINE - 1 - zlen l else zlen clip in
      if 0 <? len then insert_text (take (Z.to_nat len) clip) s else mret s
  end.

(** C: Source/keys.c:495-507 key *)
Definition key_type (key : Z) (s : keyst) : res keyst :=
  if (key <? 32) || (127 <? key) then mret s
  else
    key ← Key_Extra key s;
    l ← cur_line s;
    if MAXCMDLINE - 1 <=? zlen l then mret s else insert_text [key] s.

(** C: Source/keys.c:284-508 Key_Console *)
Definition Key_Console (e : kenv) (key : Z) (s : keyst) : res keyst :=
  l ← cur_line s;
  ctrl ← at_ (keydown s) K_CTRL;
  let pos := key_linepos s in
  if key =? K_ENTER then key_enter e s
  else if key =? K_TAB then key_tab e s
  else if key =? K_BACKSPACE then
    if 1 <? pos then s ← set_cur_line (take (Z.to_nat (pos - 1)) l ++ drop (Z.to_nat pos) l) s; mret (set_key_linepos (pos - 1) s)
    else mret s
  else if key =? K_DEL then
    if pos <? zlen l then set_cur_line (take (Z.to_nat pos) l ++ drop (Z.to_nat (pos + 1)) l) s else mret s
  else if key =? K_LEFTARROW then
    if ctrl : bool then mret (set_key_linepos (Z.of_nat (back_while not_blank l (back_while is_blank l (Z.to_nat pos)))) s)
    else mret (if 1 <? pos then set_key_linepos (pos - 1) s else s)
  else if key =? K_RIGHTARROW then
    if ctrl : bool then
      let p := forward_while (length l) not_blank l (Z.to_nat pos) in
      mret (set_key_linepos (Z.of_nat (forward_while (length l) is_blank l p)) s)
    else mret (if pos <? zlen l then set_key_linepos (pos + 1) s else s)
  else if key =? K_INS then mret (set_key_insert (Z.lxor (key_insert s) 1) s)
  else if key =? K_UPARROW then key_up e s
  else if key =? K_DOWNARROW then key_down e s
  else if (key =? K_PGUP) || (key =? K_MWHEELUP) then
    let n := con_backscroll (kcon s) + (if (ctrl : bool) && (key =? K_PGUP) then (conlines e - 16) >> 3 else 2) in
    mret (scroll (Z.min n (con_numlines (kcon s))) s)
  else if (key =? K_PGDN) || (key =? K_MWHEELDOWN) then
    let n := con_backscroll (kcon s) - (if (ctrl : bool) && (key =? K_PGDN) then (conlines e - 16) >> 3 else 2) in
    mret (scroll (Z.max n 0) s)
  else if key =? K_HOME then mret (if ctrl : bool then scroll (con_numlines (kcon s)) s else set_key_linepos 1 s)
  else if key =? K_END then mret (if ctrl : bool then scroll 0 s else set_key_linepos (zlen l) s)
  else if ((key =? 86) || (key =? 118)) && (ctrl : bool) then key_paste e s
  else key_type key s.

(** C: Source/console.c:124-128 Con_MessageMode_f *)
Definition Con_MessageMode_f (s : keyst) : keyst := set_team_message false (set_key_dest key_message s).
(** C: Source/console.c:135-139 Con_MessageMode2_f *)
Definition Con_MessageMode2_f (s : keyst) : keyst := set_team_message true (set_key_dest key_message s).

(** C: Source/keys.c:529-531 chat_bufferlen *)
Definition clear_chat (s : keyst) : res keyst :=
  b ← store (chat_buffer s) 0 [0]; mret (set_chat_buffer b (set_chat_bufferlen 0 (set_key_dest key_game s))).

(** C: Source/keys.c:516-561 Key_Message *)
Definition Key_Message (key : Z) (s : keyst) : res keyst :=
  if key =? K_ENTER then
    s ← add_text (if team_message s then cs "say_team " ++ [34] else cs "say " ++ [34]) s;
    s ← add_text (until0 (chat_buffer s)) s;
    s ← add_text [34; 10] s;
    clear_chat s
  else if key =? K_ESCAPE then clear_chat s
  else if (key <? 32) || (127 <? key) then mret s
  else if key =? K_BACKSPACE then
    if truth (chat_bufferlen s) then
      let n := chat_bufferlen s - 1 in
      b ← store (chat_buffer s) n [0]; mret (set_chat_buffer b (set_chat_bufferlen n s))
    else mret s
  else if chat_bufferlen s =? MAX_CHAT_SIZE - (if team_message s then 3 else 1) then mret s
  else
    b ← store (chat_buffer s) (chat_bufferlen s) [key];
    let n := chat_bufferlen s + 1 in
    b ← store b n [0];
    mret (set_chat_buffer b (set_chat_bufferlen n s)).

(** What a button adds to the command buffer; [sign] is a plus or a minus. *)
Definition button_text (sign : Z) (cmd : bytes) (key : Z) : bytes := take 1023 ([sign] ++ cmd ++ [32] ++ dec key ++ [10]).

Definition is_button (kb : option bytes) : option bytes :=
  match kb with Some (c :: b) => if c =? 43 then Some b else None | _ => None end.

(** C: Source/keys.c:1021-1035 kb *)
Definition key_release (key : Z) (s : keyst) : res keyst :=
  kb ← at_ (keybindings s) key;
  s ← match is_button kb with Some b => add_text (button_text 45 b key) s | None => mret s end;
  if negb (keyshift key =? key) then
    kb ← at_ (keybindings s) (keyshift key);
    match is_button kb with Some b => add_text (button_text 45 b key) s | None => mret s end
  else mret s.

(** C: Source/keys.c:1045-1060 kb *)
Definition key_press (e : kenv) (key : Z) (s : keyst) : res keyst :=
  '(demo, s) ← (if cls_demoplayback (kcmd s) then demo_key e key s else mret (false, s));
  if demo : bool then mret s
  else
    kb ← at_ (keybindings s) key;
    match kb with
    | None => mret s
    | Some b =>
        match is_button kb with
        | Some c => add_text (button_text 43 c key) s
        | None => s ← add_text b s; add_text [10] s
        end
    end.

Definition repeating (key : Z) : bool :=
  bool_decide (key ∈ [K_BACKSPACE; K_DEL; K_LEFTARROW; K_RIGHTARROW; K_UPARROW; K_DOWNARROW; K_PGUP; K_PGDN]) ||
  ((32 <=? key) && (key <=? 126) && negb (key =? 96)).

(** Where a press that is not a binding goes.
    C: Source/keys.c:1067-1087 key_dest *)
Definition key_focus (e : kenv) (key : Z) (s : keyst) : res keyst :=
  shift ← at_ (keydown s) K_SHIFT;
  let key := if shift : bool then keyshift key else key in
  match key_dest s with
  | key_message => Key_Message key s
  | key_menu => menu_key e key s
  | key_game | key_console => Key_Console e key s
  end.

Definition to_binding (e : kenv) (key : Z) (s : keyst) : bool :=
  match key_dest s with
  | key_menu => menubound key
  | key_console => negb (consolekeys key)
  | key_game => negb (forcedup e) || negb (consolekeys key)
  | key_message => false
  end.

(** The event of one key, after that of the group it belongs to.
    C: Source/keys.c:963-1088 key *)
Definition key_event1 (e : kenv) (key : Z) (down : bool) (s : keyst) : res keyst :=
  d ← put_ (keydown s) key down;
  let s := set_keydown d s in
  r ← (if down then at_ (key_repeats s) key else mret 0);
  rs ← put_ (key_repeats s) key 0;
  let s := if down then s else set_key_repeats rs s in
  let s := set_key_lastpress key s in
  let s := set_key_count (key_count s + 1) s in
  if key_count s <=? 0 then mret s
  else
    rs ← put_ (key_repeats s) key (r + 1);
    let s := if down then set_key_repeats rs s else s in
    if down && (1 <? r + 1) && (negb (repeating key) || (bool_decide (key_dest s = key_game) && cls_connected (kcmd s))) then mret s
    else if key =? K_ESCAPE then
      if negb down then mret s
      else match key_dest s with
           | key_message => Key_Message key s
           | key_menu => menu_key e key s
           | key_game | key_console => toggle_menu e s
           end
    else if negb down then key_release key s
    else if to_binding e key s then key_press e key s
    else key_focus e key s.

(** The group of a key on one side of the keyboard. *)
Definition key_group (key : Z) : option Z :=
  if (key =? K_LALT) || (key =? K_RALT) then Some K_ALT
  else if (key =? K_LCTRL) || (key =? K_RCTRL) then Some K_CTRL
  else if (key =? K_LSHIFT) || (key =? K_RSHIFT) then Some K_SHIFT
  else if (key =? K_LWIN) || (key =? K_RWIN) then Some K_WIN
  else None.

(** C: Source/keys.c:950-1088 Key_Event *)
Definition Key_Event (e : kenv) (key : Z) (down : bool) (s : keyst) : res keyst :=
  s ← match key_group key with Some g => key_event1 e g down s | None => mret s end;
  key_event1 e key down s.

(** C: Source/keys.c:1095-1104 Key_ClearStates *)
Definition Key_ClearStates (s : keyst) : keyst :=
  set_key_repeats (replicate 256 0) (set_keydown (replicate 256 false) s).

(** * Names and bindings *)

(** Keys that have a name of their own. *)
Definition named (k : Z) : bool := (0 <=? k) && (k <? 256) && negb (bool_decide (Key_KeynumToString k = cs "<UNKNOWN KEYNUM>")).

(** The name of every key that has one is read back as the key. *)
Lemma key_name_roundtrip k : named k = true -> Key_StringToKeynum (Key_KeynumToString k) = k /\ quotable (Key_KeynumToString k) \/ k = 34.
Proof.
  intros H. assert (Hall : Forall (fun k => named k = true -> (Key_StringToKeynum (Key_KeynumToString k) = k /\ quotable (Key_KeynumToString k)) \/ k = 34) (seqZ 0 256)).
  { apply (bool_decide_unpack _). vm_compute. exact I. }
  rewrite Forall_forall in Hall. apply Hall; [|done]. apply elem_of_seqZ. unfold named in H. bool_props. lia.
Qed.

(** A binding that its line in the configuration file can hold. *)
Definition savable (k : Z) (b : option bytes) : Prop :=
  match b with
  | None => True
  | Some t => named k = true /\ k <> 34 /\ is_group k = false /\ quotable t /\ (length (Key_KeynumToString k) + length t + 7 <= ARGV_BUF)%nat
  end.

(** Run the lines of a file as commands. *)
Fixpoint run_lines (ls : list bytes) (s : keyst) : res keyst :=
  match ls with
  | [] => mret s
  | l :: ls => c ← Cmd_TokenizeString l (kcmd s); s ← Key_Bind_f (set_kcmd c s); run_lines ls s
  end.

Lemma tokenize_bind k t st : quotable k -> quotable t -> (length k + length t + 7 <= ARGV_BUF)%nat ->
  exists args, Cmd_TokenizeString (cs "bind " ++ [34] ++ k ++ [34; 32; 34] ++ t ++ [34]) st = Ok (set_cmd_args args (set_cmd_argv [cs "bind"; k; t] st)).
Proof.
  intros Hk Ht Hl. unfold Cmd_TokenizeString. set (line := _ ++ _).
  assert (E : line = cs "bind" ++ 32 :: 34 :: k ++ 34 :: 32 :: 34 :: t ++ 34 :: []) by done.
  assert (Hlen : exists n, length line = S (S (S n))) by (rewrite E; cbn; eauto). destruct Hlen as (n & ->). rewrite E.
  assert (Hw : is_word (cs "bind")) by by_decide. unfold ARGV_BUF in Hl.
  rewrite tokenize_word by (try done; unfold MAX_ARGS, ARGV_BUF; cbn; lia). rewrite tokenize_space.
  rewrite tokenize_quoted by (try done; unfold MAX_ARGS, ARGV_BUF; cbn; lia). rewrite tokenize_space.
  rewrite tokenize_quoted by (try done; unfold MAX_ARGS, ARGV_BUF; cbn; lia). rewrite tokenize_end. cbn [mbind res_bind]. eexists. reflexivity.
Qed.

Lemma run_bind k t s : savable k (Some t) -> length (keybindings s) = 256%nat -> exists c,
  (c ← Cmd_TokenizeString (bind_line k t) (kcmd s); Key_Bind_f (set_kcmd c s)) = Ok (set_keybindings (<[Z.to_nat k := Some t]> (keybindings s)) (set_kcmd c s)).
Proof.
  intros (Hn & H34 & Hg & Hq & Hl) Hlen. destruct (key_name_roundtrip k Hn) as [[Hk Hkq]|]; [|done].
  destruct (tokenize_bind _ t (kcmd s) Hkq Hq Hl) as (args & E). unfold bind_line. rewrite E. cbn [mbind res_bind]. eexists.
  unfold Key_Bind_f. cbn [kcmd set_kcmd]. change (Cmd_Argc (set_cmd_args args (set_cmd_argv [cs "bind"; Key_KeynumToString k; t] (kcmd s)))) with 3. cbn [Z.eqb Pos.eqb negb andb].
  change (Cmd_Argv 1 (set_cmd_args args (set_cmd_argv [cs "bind"; Key_KeynumToString k; t] (kcmd s)))) with (Key_KeynumToString k).
  change (Cmd_Argv 2 (set_cmd_args args (set_cmd_argv [cs "bind"; Key_KeynumToString k; t] (kcmd s)))) with t.
  unfold named in Hn. bool_props. rewrite Hk, (proj2 (Z.eqb_neq k (-1))) by lia. destruct Hq as [_ Hq]. rewrite (proj2 (Z.ltb_lt (zlen t) 1024)) by lia.
  unfold Key_SetBinding. rewrite (proj2 (Z.eqb_neq k (-1))), Hg by lia. unfold set_binding1, put_, at_. cbn [keybindings set_kcmd].
  rewrite (proj2 (Z.leb_le 0 k)) by lia. destruct (lookup_lt_is_Some_2 (keybindings s) (Z.to_nat k) ltac:(lia)) as [x ->]. done.
Qed.

Lemma run_lines_ok l : forall i s, 0 <= i -> (forall j b, l !! j = Some b -> savable (i + Z.of_nat j) b) ->
  length (keybindings s) = 256%nat -> (Z.to_nat i + length l <= 256)%nat -> drop (Z.to_nat i) (keybindings s) = replicate (256 - Z.to_nat i) None ->
  exists s', run_lines (write_bindings i l) s = Ok s' /\
    keybindings s' = take (Z.to_nat i) (keybindings s) ++ ((fun b => match b with Some [] => None | _ => b end) <$> l) ++ replicate (256 - Z.to_nat i - length l) None.
Proof.
  induction l as [|b l IH]; intros i s Hi Hsav Hlen Hle Hrest.
  - exists s. split; [done|]. cbn [fmap list_fmap app length]. rewrite Nat.sub_0_r, <- Hrest. by rewrite take_drop.
  - cbn [length] in Hle. assert (Hsav' : forall j x, l !! j = Some x -> savable (i + 1 + Z.of_nat j) x).
    { intros j x Hj. replace (i + 1 + Z.of_nat j) with (i + Z.of_nat (S j)) by lia. by apply Hsav. }
    assert (Hrest' : drop (Z.to_nat (i + 1)) (keybindings s) = replicate (256 - Z.to_nat (i + 1)) None).
    { replace (Z.to_nat (i + 1)) with (Z.to_nat i + 1)%nat by lia. rewrite <- drop_drop, Hrest, drop_replicate. f_equal. lia. }
    assert (Hat : keybindings s !! Z.to_nat i = Some None).
    { rewrite <- (Nat.add_0_r (Z.to_nat i)), <- lookup_drop, Hrest. apply lookup_replicate_2. lia. }
    assert (Hskip : forall b', b' = None -> exists s', run_lines (write_bindings (i + 1) l) s = Ok s' /\
      keybindings s' = take (Z.to_nat i) (keybindings s) ++ (b' :: ((fun b => match b with Some [] => None | _ => b end) <$> l)) ++ replicate (256 - Z.to_nat i - length (b :: l)) None).
    { intros b' ->. destruct (IH (i + 1) s ltac:(lia) Hsav' Hlen ltac:(lia) Hrest') as (s' & E & Ek). exists s'. split; [done|]. rewrite Ek.
      replace (Z.to_nat (i + 1)) with (S (Z.to_nat i)) by lia. rewrite (take_S_r _ _ _ Hat), <- app_assoc. cbn [app length]. do 3 f_equal. f_equal. lia. }
    destruct b as [[|c t]|]; [by apply Hskip| |by apply Hskip].
    cbn [write_bindings run_lines]. pose proof (Hsav 0%nat _ eq_refl) as Hs0. rewrite Z.add_0_r in Hs0.
    destruct (run_bind i (c :: t) s Hs0 Hlen) as (cm & E). destruct (Cmd_TokenizeString (bind_line i (c :: t)) (kcmd s)) as [cm'|]; [|done]. cbn [mbind res_bind] in E |- *.
    rewrite E. cbn [mbind res_bind]. set (s1 := set_keybindings _ _).
    destruct (IH (i + 1) s1 ltac:(lia) Hsav') as (s' & E' & Ek); [cbn; by rewrite length_insert|lia| |].
    { cbn [keybindings s1 set_keybindings]. rewrite drop_insert_lt by lia. done. }
    exists s'. split; [done|]. rewrite Ek. cbn [keybindings s1 set_keybindings]. replace (Z.to_nat (i + 1)) with (S (Z.to_nat i)) by lia.
    rewrite (take_S_r _ _ (Some (c :: t))) by (apply list_lookup_insert_eq; lia). rewrite take_insert_ge by lia. rewrite <- app_assoc. cbn [fmap list_fmap app length]. do 3 f_equal. f_equal. lia.
Qed.

(** The key bindings are restored from the configuration file: executing the lines that were
    written for them, with no key bound, binds every key to the command it had; bindings to the
    empty command are not kept.  (For keys that have a name and are not the quote, and commands
    without quotes that fit the buffer of words.) *)
Theorem bindings_restored s0 s : length (keybindings s0) = 256%nat -> (forall k b, keybindings s0 !! k = Some b -> savable (Z.of_nat k) b) ->
  keybindings s = replicate 256 None ->
  exists s', run_lines (Key_WriteBindings s0) s = Ok s' /\
    keybindings s' = (fun b => match b with Some [] => None | _ => b end) <$> keybindings s0.
Proof.
  intros Hl Hs H0. destruct (run_lines_ok (keybindings s0) 0 s) as (s' & E & Ek); [lia|intros j b Hj; rewrite Z.add_0_l; by apply Hs|by rewrite H0|by rewrite Hl|by rewrite H0|].
  exists s'. split; [done|]. rewrite Ek, Hl. cbn [Z.to_nat take app Nat.sub replicate]. by rewrite app_nil_r.
Qed.

(** A state to start from. *)
Definition demo_keys : keyst :=
  KeySt (replicate 256 None) (replicate 256 false) (replicate 256 0) (replicate 64 [93]) 1 1 1 1 key_game 0 0 (replicate 45 0) 0 false
    (set_cmd_text (SizeBuf false false (repeat 0 100) 100 0) demo_cmd)
    (Console 78 420 0 0 419 0 (replicate (Z.to_nat CON_TEXTSIZE) 32) (replicate 16 (f32_of_bits 0)) false).

Definition demo_env : kenv :=
  KEnv false false (f32_of_bits 0) 100 (Some (cs "map e1m1")) false (fun _ s => Ok s) (fun _ _ s => Ok s) (fun s => Ok s) (fun _ s => Ok s)
    (fun s => Ok s) (fun _ s => Ok (false, s)).

Lemma bindings_restored_witness : let s0 := set_keybindings (<[97%nat := Some (cs "+left")]> (replicate 256 None)) demo_keys in
  exists s', run_lines (Key_WriteBindings s0) demo_keys = Ok s' /\ keybindings s' = keybindings s0.
Proof.
  intros s0. destruct (bindings_restored s0 demo_keys) as (s' & E & Ek); [done| |done|].
  - intros k b Hk. cbn [keybindings s0 set_keybindings] in Hk. destruct (decide (k = 97%nat)) as [->|Hne].
    + injection Hk as <-. split_and!; [by_vm|done|by_vm|by_decide|apply Nat.leb_le; by_vm].
    + rewrite list_lookup_insert_ne in Hk by done. apply lookup_replicate in Hk as [-> _]. done.
  - exists s'. split; [exact E|]. rewrite Ek. by_vm.
Defined.

(** A key given by a byte from 128 on, which is not a key name, is a negative key number, and
    binding it stores outside the table. *)
Lemma bind_negative c t s : 128 <= c < 255 -> (length t < 1024)%nat -> cmd_argv (kcmd s) = [cs "bind"; [c]; t] -> Key_Bind_f s = Fault (Undefined "index outside the array").
Proof.
  intros Hc Ht Ha. assert (H3 : Cmd_Argc (kcmd s) = 3) by (unfold Cmd_Argc; by rewrite Ha).
  assert (H1 : Cmd_Argv 1 (kcmd s) = [c]) by (unfold Cmd_Argv, Cmd_Argc; by rewrite Ha).
  assert (H2 : Cmd_Argv 2 (kcmd s) = t) by (unfold Cmd_Argv, Cmd_Argc; by rewrite Ha).
  assert (Hs : s8 c = c - 256) by (unfold s8; wrap_lia). unfold Key_Bind_f. rewrite H3, H1, H2. cbn [Z.eqb Pos.eqb negb andb Key_StringToKeynum].
  rewrite Hs, (proj2 (Z.eqb_neq _ _)), (proj2 (Z.ltb_lt (zlen t) 1024)) by lia. unfold Key_SetBinding. rewrite (proj2 (Z.eqb_neq _ _)) by lia.
  assert (Hg : is_group (c - 256) = false) by (unfold is_group, K_CTRL, K_ALT, K_SHIFT, K_WIN; rewrite !(proj2 (Z.eqb_neq (c - 256) _)) by lia; done).
  rewrite Hg. unfold set_binding1, put_, at_. by rewrite (proj2 (Z.leb_gt 0 (c - 256))) by lia.
Qed.

(** * Buttons *)

Lemma add_text_ok t s : cbuf_ok (kcmd s) -> zlen (cbuf (kcmd s)) + zlen t < maxsize (cmd_text (kcmd s)) ->
  exists s', add_text t s = Ok s' /\ cbuf_ok (kcmd s') /\ cbuf (kcmd s') = cbuf (kcmd s) ++ t /\ maxsize (cmd_text (kcmd s')) = maxsize (cmd_text (kcmd s)) /\
    keybindings s' = keybindings s /\ s' = set_kcmd (kcmd s') s.
Proof.
  intros Hok Hfit. destruct (AddText_ok (kcmd s) t Hok Hfit) as (b & E & Hb & Hc & Hm). unfold add_text. rewrite E. cbn [mbind res_bind].
  eexists. split; [done|]. cbn [kcmd set_kcmd keybindings]. split_and!; try done.
Qed.

(** What the release of a key adds. *)
Definition release_text (s : keyst) (key : Z) : bytes :=
  let t k := match keybindings s !! Z.to_nat k with Some kb => match is_button kb with Some b => button_text 45 b key | None => [] end | None => [] end in
  t key ++ (if keyshift key =? key then [] else t (keyshift key)).

Lemma keyshift_range k : 0 <= k < 256 -> 0 <= keyshift k < 256.
Proof.
  intros H. assert (Hall : Forall (fun k => 0 <= keyshift k < 256) (seqZ 0 256)) by (apply (bool_decide_unpack _); vm_compute; exact I).
  rewrite Forall_forall in Hall. apply Hall. apply elem_of_seqZ. lia.
Qed.

Lemma at_ok {A} (l : list A) i : 0 <= i < zlen l -> exists x, at_ l i = Ok x /\ l !! Z.to_nat i = Some x.
Proof.
  intros H. unfold at_. rewrite (proj2 (Z.leb_le 0 i)) by lia. destruct (lookup_lt_is_Some_2 l (Z.to_nat i) ltac:(lia)) as [x Hx]. rewrite Hx. by exists x.
Qed.

Lemma key_release_ok key s : 0 <= key < 256 -> length (keybindings s) = 256%nat -> cbuf_ok (kcmd s) ->
  zlen (cbuf (kcmd s)) + zlen (release_text s key) < maxsize (cmd_text (kcmd s)) ->
  exists s', key_release key s = Ok s' /\ cbuf_ok (kcmd s') /\ cbuf (kcmd s') = cbuf (kcmd s) ++ release_text s key /\ s' = set_kcmd (kcmd s') s.
Proof.
  intros Hk Hlen Hok Hfit. unfold release_text in *. unfold key_release. destruct (at_ok (keybindings s) key ltac:(lia)) as (kb & -> & Hkb). rewrite Hkb in *. cbn [mbind res_bind].
  pose proof (keyshift_range key Hk) as Hks. destruct (at_ok (keybindings s) (keyshift key) ltac:(lia)) as (kb2 & Hat2 & Hkb2). rewrite Hkb2 in *.
  set (t1 := match is_button kb with Some b => button_text 45 b key | None => [] end) in *.
  set (t2 := match is_button kb2 with Some b => button_text 45 b key | None => [] end) in *. rewrite length_app in Hfit.
  assert (Hadd : forall (o : option bytes) t s0, t = match o with Some b => button_text 45 b key | None => [] end -> cbuf_ok (kcmd s0) -> zlen (cbuf (kcmd s0)) + zlen t < maxsize (cmd_text (kcmd s0)) ->
    exists s1, match o with Some b => add_text (button_text 45 b key) s0 | None => mret s0 end = Ok s1 /\ cbuf_ok (kcmd s1) /\ cbuf (kcmd s1) = cbuf (kcmd s0) ++ t /\
      maxsize (cmd_text (kcmd s1)) = maxsize (cmd_text (kcmd s0)) /\ keybindings s1 = keybindings s0 /\ s1 = set_kcmd (kcmd s1) s0).
  { intros [b|] t s0 -> H1 H2; [by apply add_text_ok|]. exists s0. rewrite app_nil_r. split_and!; try done. by destruct s0. }
  destruct (Hadd (is_button kb) t1 s eq_refl Hok) as (s1 & E1 & Hok1 & Hc1 & Hm1 & Hb1 & Es1); [lia|]. rewrite E1. cbn [mbind res_bind].
  destruct (keyshift key =? key) eqn:Esh; cbn [negb].
  - exists s1. rewrite app_nil_r. split_and!; done.
  - rewrite Hb1, Hat2. cbn [mbind res_bind]. destruct (Hadd (is_button kb2) t2 s1 eq_refl Hok1) as (s2 & E2 & Hok2 & Hc2 & _ & _ & Es2); [rewrite Hc1, length_app, Hm1; lia|].
    exists s2. split; [done|]. split; [done|]. split; [by rewrite Hc2, Hc1, app_assoc|]. rewrite Es2, Es1. by destruct s.
Qed.

(** Buttons are let go whatever has the focus: the release of a key adds the command that
    matches a press of the button it is bound to, and that of its shifted form, and changes
    nothing else but what is known of the key itself. *)
Theorem Key_Event_release e key s : 0 <= key < 256 -> key_group key = None -> key <> K_ESCAPE -> 0 <= key_count s ->
  length (keybindings s) = 256%nat -> length (keydown s) = 256%nat -> length (key_repeats s) = 256%nat -> cbuf_ok (kcmd s) ->
  zlen (cbuf (kcmd s)) + zlen (release_text s key) < maxsize (cmd_text (kcmd s)) ->
  exists c, Key_Event e key false s = Ok (set_kcmd c (set_key_count (key_count s + 1) (set_key_lastpress key
      (set_key_repeats (<[Z.to_nat key := 0]> (key_repeats s)) (set_keydown (<[Z.to_nat key := false]> (keydown s)) s))))) /\
    cbuf c = cbuf (kcmd s) ++ release_text s key.
Proof.
  intros Hk Hg Hesc Hcnt Hlen Hd Hr Hok Hfit. unfold Key_Event. rewrite Hg. cbn [mbind res_bind mret res_ret]. unfold key_event1, put_.
  destruct (at_ok (keydown s) key ltac:(lia)) as (? & -> & _). cbn [mbind res_bind mret res_ret key_repeats set_keydown].
  destruct (at_ok (key_repeats s) key ltac:(lia)) as (? & -> & _). cbn [mbind res_bind mret res_ret key_count set_key_count set_key_lastpress set_key_repeats set_keydown key_repeats].
  rewrite (proj2 (Z.leb_gt _ _)) by lia. destruct (at_ok (<[Z.to_nat key:=0]> (key_repeats s)) key ltac:(rewrite length_insert; lia)) as (? & -> & _).
  cbn [mbind res_bind mret res_ret andb]. rewrite (proj2 (Z.eqb_neq key K_ESCAPE)) by done. cbn [negb].
  set (s1 := set_key_count _ _). destruct (key_release_ok key s1 Hk Hlen Hok Hfit) as (s' & E & _ & Hc & Es). exists (kcmd s'). rewrite E. split; [by rewrite Es at 1|exact Hc].
Qed.

Lemma Key_Event_release_witness : let s := set_keybindings (<[97%nat := Some (cs "+left")]> (replicate 256 None)) demo_keys in
  exists s', Key_Event demo_env 97 false s = Ok s' /\ cbuf (kcmd s') = cs "-left 97" ++ [10].
Proof.
  intros s. destruct (Key_Event_release demo_env 97 s) as (c & E & Hc); [lia|done|done|by_vm|done|done|done| |by_vm|].
  - split; [|done]. split_and!; by_vm.
  - eexists. split; [exact E|]. cbn [kcmd set_kcmd]. rewrite Hc. by_vm.
Defined.

(** * The line editor *)

Lemma ctrl_ok s b : keydown s !! Z.to_nat K_CTRL = Some b -> at_ (keydown s) K_CTRL = Ok b.
Proof. intros H. unfold at_. change (0 <=? K_CTRL) with true. cbn iota. by rewrite H. Qed.

(** A line: the prompt and a text that fits, without zeros. *)
Definition line_ok (l : bytes) : Prop := head l = Some 93 /\ zlen l < MAXCMDLINE /\ Forall (fun c => c <> 0) l.

Record edit_ok (s : keyst) (l : bytes) : Prop := {
  ed_lines : length (key_lines s) = 64%nat;
  ed_all : Forall line_ok (key_lines s);
  ed_edit : 0 <= edit_line s < 64;
  ed_history : 0 <= history_line s < 64;
  ed_line : key_lines s !! Z.to_nat (edit_line s) = Some l;
  ed_pos : 1 <= key_linepos s <= zlen l;
  ed_keys : length (keydown s) = 256%nat
}.

Lemma edit_line_ok s l : edit_ok s l -> line_ok l.
Proof. intros H. pose proof (ed_all s l H) as Ha. rewrite Forall_forall in Ha. apply Ha. eapply list_elem_of_lookup_2, ed_line, H. Qed.

Lemma cur_line_ok s l : edit_ok s l -> cur_line s = Ok l.
Proof. intros H. unfold cur_line, at_. pose proof (ed_edit s l H). rewrite (proj2 (Z.leb_le _ _)) by lia. by rewrite (ed_line s l H). Qed.

Lemma set_line_ok s l l' pos : edit_ok s l -> line_ok l' -> 1 <= pos <= zlen l' -> exists s1,
  set_cur_line l' s = Ok s1 /\ edit_ok (set_key_linepos pos s1) l'.
Proof.
  intros H Hl' Hpos. unfold set_cur_line, put_, at_. pose proof (ed_edit s l H). destruct Hl' as (H1 & H2 & H3).
  rewrite (proj2 (Z.ltb_lt _ _)), (proj2 (Z.leb_le _ _)), (ed_line s l H) by lia. cbn [mbind res_bind]. eexists. split; [done|].
  destruct H as [K1 K2 K3 K4 K5 K6 K7]. split; cbn [set_key_linepos set_key_lines key_lines edit_line history_line key_linepos keydown]; try done; try lia.
  - by rewrite length_insert.
  - by apply Forall_insert.
  - apply list_lookup_insert_eq. lia.
Qed.

(** The two halves of the line, before and after the cursor. *)
Definition halves (s : keyst) (l : bytes) : bytes * bytes := (take (Z.to_nat (key_linepos s)) l, drop (Z.to_nat (key_linepos s)) l).

Fixpoint drop_while (p : Z -> bool) (l : bytes) : bytes :=
  match l with
  | c :: t => if p c then drop_while p t else l
  | [] => []
  end.

(** Go back over the characters that [p] holds of, not over the prompt. *)
Definition back (p : Z -> bool) (b : bytes) : bytes := take 1 b ++ rev (drop_while p (rev (drop 1 b))).

(** What the keys of the editor do to the halves, as a list that is edited at its end. *)
Definition edited (ctrl : bool) (key : Z) (clip : option bytes) (typed : Z) (h : bytes * bytes) : bytes * bytes :=
  let '(b, a) := h in
  let room := Z.to_nat (MAXCMDLINE - 1 - zlen b - zlen a) in
  if key =? K_BACKSPACE then (if 1 <? zlen b then removelast b else b, a)
  else if key =? K_DEL then (b, drop 1 a)
  else if key =? K_LEFTARROW then
    let b' := if ctrl then back not_blank (back is_blank b) else if 1 <? zlen b then removelast b else b in (b', drop (length b') b ++ a)
  else if key =? K_RIGHTARROW then
    let a' := if ctrl then drop_while is_blank (drop_while not_blank a) else drop 1 a in (b ++ take (length a - length a') a, a')
  else if key =? K_HOME then if ctrl then h else (take 1 b, drop 1 b ++ a)
  else if key =? K_END then if ctrl then h else (b ++ a, [])
  else if ((key =? 86) || (key =? 118)) && ctrl then (b ++ take room (default [] clip), a)
  else if (32 <=? key) && (key <=? 127) then (b ++ take room [typed], a)
  else h.

Lemma back_cons c b : back is_blank (c :: b) = c :: rev (drop_while is_blank (rev b)) /\ back not_blank (c :: b) = c :: rev (drop_while not_blank (rev b)).
Proof. unfold back. cbn [take drop]. by rewrite take_0. Qed.

Lemma drop_while_suffix p l : exists r, l = r ++ drop_while p l.
Proof. induction l as [|c l (r & E)]; [by exists []|]. cbn [drop_while]. destruct (p c); [exists (c :: r); by rewrite E at 1|by exists []]. Qed.

Lemma back_prefix p b : exists r, b = back p b ++ r.
Proof.
  unfold back. destruct (drop_while_suffix p (rev (drop 1 b))) as (r & E). exists (rev r). rewrite <- app_assoc, <- rev_app_distr, <- E, rev_involutive.
  by rewrite take_drop.
Qed.

Lemma back_nonempty p b : b <> [] -> head (back p b) = head b /\ 1 <= zlen (back p b).
Proof. intros Hb. destruct b as [|c b]; [done|]. unfold back. cbn [take app head length]. rewrite take_0. split; [done|]. cbn [app length]. lia. Qed.

Lemma back_while_ok p b : b <> [] -> forall a, back_while p (b ++ a) (length b) = length (back p b).
Proof.
  destruct b as [|c b]; [done|]. intros _. unfold back. cbn [drop take]. rewrite take_0, drop_0. cbn [app length].
  induction b as [|x b IH] using rev_ind; intros a.
  - cbn [length rev drop_while back_while Nat.ltb Nat.leb andb]. done.
  - rewrite rev_app_distr. cbn [rev app drop_while]. rewrite length_app, Nat.add_1_r. change (back_while p (c :: (b ++ [x]) ++ a) (S (S (length b)))) with
      (if (1 <? S (S (length b)))%nat && p (nth (S (length b)) (c :: (b ++ [x]) ++ a) 0) then back_while p (c :: (b ++ [x]) ++ a) (S (length b)) else S (S (length b))).
    change (1 <? S (S (length b)))%nat with true. cbn [andb nth]. rewrite <- app_assoc. cbn [app]. rewrite nth_middle. destruct (p x); [apply IH|].
    cbn [length]. rewrite length_rev. cbn [length]. rewrite length_rev. lia.
Qed.

Lemma drop_while_length p a : (length (drop_while p a) <= length a)%nat.
Proof. destruct (drop_while_suffix p a) as (r & E). rewrite E at 2. rewrite length_app. lia. Qed.

Lemma forward_while_ok p a : forall b fuel, (length a <= fuel)%nat -> forward_while fuel p (b ++ a) (length b) = (length b + (length a - length (drop_while p a)))%nat.
Proof.
  induction a as [|c a IH]; intros b fuel Hf.
  - rewrite app_nil_r. cbn. destruct fuel as [|fuel]; cbn [forward_while]; [lia|]. rewrite Nat.ltb_irrefl. cbn [andb]. lia.
  - cbn [length] in Hf. destruct fuel as [|fuel]; [lia|]. cbn [forward_while]. rewrite (proj2 (Nat.ltb_lt _ _)) by (rewrite length_app; cbn; lia). rewrite nth_middle. cbn [andb drop_while].
    destruct (p c); [|cbn [length]; lia]. pose proof (IH (b ++ [c]) fuel ltac:(lia)) as IH'. rewrite <- app_assoc, length_app in IH'. cbn [app length] in IH'. rewrite Nat.add_1_r in IH'.
    rewrite IH'. pose proof (drop_while_length p a). cbn [length]. lia.
Qed.

Lemma Key_Extra_ok key s : length (keydown s) = 256%nat -> exists typed, Key_Extra key s = Ok typed /\ (32 <= key <= 127 -> typed <> 0).
Proof.
  intros Hl. unfold Key_Extra. destruct (at_ok (keydown s) K_CTRL ltac:(rewrite Hl; split; by_vm)) as (ctrl & -> & _). cbn [mbind res_bind].
  destruct (at_ok (keydown s) K_ALT ltac:(rewrite Hl; split; by_vm)) as (alt & -> & _). cbn [mbind res_bind]. eexists. split; [done|]. intros Hk.
  assert (Hall : Forall (fun k => k <> 0 /\ ctrl_char k <> 0 /\ Z.lor k 0x80 <> 0 /\ Z.lor (ctrl_char k) 0x80 <> 0) (seqZ 32 96)) by (apply (bool_decide_unpack _); vm_compute; exact I).
  rewrite Forall_forall in Hall. destruct (Hall key) as (? & ? & ? & ?); [apply elem_of_seqZ; lia|]. by destruct ctrl, alt.
Qed.

(** A state whose line is cut at the cursor. *)
Lemma edit_halves s l b a : edit_ok s l -> l = b ++ a -> 1 <= zlen b -> edit_ok (set_key_linepos (zlen b) s) l /\ halves (set_key_linepos (zlen b) s) l = (b, a).
Proof.
  intros H -> Hb. split.
  - destruct H as [K1 K2 K3 K4 K5 K6 K7]. split; cbn; try done. rewrite length_app. lia.
  - unfold halves. cbn [key_linepos set_key_linepos]. by rewrite Nat2Z.id, take_app_length, drop_app_length.
Qed.

Lemma edit_replace s l b a : edit_ok s l -> head b = Some 93 -> zlen b + zlen a < MAXCMDLINE -> Forall (fun c => c <> 0) (b ++ a) -> exists s1,
  set_cur_line (b ++ a) s = Ok s1 /\ edit_ok (set_key_linepos (zlen b) s1) (b ++ a) /\ halves (set_key_linepos (zlen b) s1) (b ++ a) = (b, a).
Proof.
  intros H Hh Hl Hnz. assert (Hb : 1 <= zlen b) by (destruct b; [done|]; cbn [length]; lia).
  destruct (set_line_ok s l (b ++ a) (zlen b) H) as (s1 & E & He); [split; [by destruct b|rewrite length_app; split; [lia|done]]|rewrite length_app; lia|].
  exists s1. split; [done|]. split; [done|]. unfold halves. cbn [key_linepos set_key_linepos]. by rewrite Nat2Z.id, take_app_length, drop_app_length.
Qed.

Lemma set_cur_line_pos l s s1 : set_cur_line l s = Ok s1 -> key_linepos s1 = key_linepos s.
Proof. intros E. unfold set_cur_line in E. case_if_in E; [|done]. apply bind_Ok_inv in E as (ls & _ & E'). by injection E' as <-. Qed.

Lemma insert_text_ok s l d : edit_ok s l -> zlen l + zlen d < MAXCMDLINE -> Forall (fun c => c <> 0) d -> let '(b, a) := halves s l in
  exists s' l', insert_text d s = Ok s' /\ edit_ok s' l' /\ halves s' l' = (b ++ d, a).
Proof.
  intros H Hl Hd. unfold halves, insert_text. rewrite (cur_line_ok s l H). cbn [mbind res_bind]. pose proof (ed_pos s l H) as Hp. rewrite (proj2 (Z.ltb_ge _ _)) by lia.
  destruct (edit_line_ok s l H) as (Hh & Hlen & Hnz). set (b := take _ l). set (a := drop _ l).
  assert (Hlb : zlen b = key_linepos s) by (unfold b; rewrite length_take; lia). assert (Hba : l = b ++ a) by (unfold b, a; by rewrite take_drop).
  destruct (edit_replace s l (b ++ d) a H) as (s1 & E & He & Hhv).
  - destruct b; [cbn in Hlb; lia|]. rewrite Hba in Hh. exact Hh.
  - rewrite Hba, length_app in Hl. rewrite length_app. lia.
  - rewrite Hba in Hnz. apply Forall_app in Hnz as [Hn1 Hn2]. repeat (apply Forall_app; split); done.
  - rewrite <- app_assoc in E. rewrite E. cbn [mbind res_bind]. eexists _, _. split; [done|].
    rewrite (set_cur_line_pos _ _ _ E). rewrite length_app in He, Hhv. rewrite Nat2Z.inj_add, Hlb in He, Hhv. done.
Qed.

Lemma removelast_take (l : bytes) n : (1 <= n <= length l)%nat -> removelast (take n l) = take (n - 1) l.
Proof. intros H. rewrite removelast_firstn_len, length_take, take_take. f_equal. lia. Qed.

Definition same_editor (s s' : keyst) : Prop :=
  key_lines s' = key_lines s /\ edit_line s' = edit_line s /\ history_line s' = history_line s /\ key_linepos s' = key_linepos s /\ keydown s' = keydown s.

Lemma edit_same s s' l : edit_ok s l -> same_editor s s' -> edit_ok s' l /\ halves s' l = halves s l.
Proof.
  intros H (E1 & E2 & E3 & E4 & E5). split; [|unfold halves; by rewrite E4]. destruct H. split; rewrite ?E1, ?E2, ?E3, ?E4, ?E5; done.
Qed.

(** Keys whose effect is outside the line: history, command execution, completion. *)
Definition line_key (key : Z) : Prop := key <> K_ENTER /\ key <> K_TAB /\ key <> K_UPARROW /\ key <> K_DOWNARROW.

(** Typing and pasting. *)
Lemma typed_ok e key s l ctrl : edit_ok s l -> (forall c, clipboard e = Some c -> Forall (fun x => x <> 0) c) ->
  exists s' l' typed, Key_Extra key s = Ok typed /\
    (if ((key =? 86) || (key =? 118)) && (ctrl : bool) then key_paste e s else key_type key s) = Ok s' /\ edit_ok s' l' /\
    halves s' l' = (let '(b, a) := halves s l in
      let room := Z.to_nat (MAXCMDLINE - 1 - zlen b - zlen a) in
      if ((key =? 86) || (key =? 118)) && ctrl then (b ++ take room (default [] (clipboard e)), a)
      else if (32 <=? key) && (key <=? 127) then (b ++ take room [typed], a) else (b, a)).
Proof.
  intros H Hclip. destruct (Key_Extra_ok key s (ed_keys s l H)) as (typed & Et & Hnz). destruct (edit_line_ok s l H) as (Hh & Hlen & Hlnz).
  pose proof (insert_text_ok s l) as HI. destruct (halves s l) as [b a] eqn:Eh. unfold halves in Eh. injection Eh as Eb Ea.
  assert (Hba : zlen b + zlen a = zlen l) by (rewrite <- Eb, <- Ea, length_take, length_drop; lia).
  assert (Hid : exists s' l', Ok s = Ok s' /\ edit_ok s' l' /\ halves s' l' = (b, a)) by (exists s, l; split; [done|]; split; [done|]; unfold halves; by rewrite Eb, Ea).
  assert (HM : MAXCMDLINE = 256) by done. destruct (((key =? 86) || (key =? 118)) && ctrl).
  - unfold key_paste. destruct (clipboard e) as [clip|] eqn:Ec.
    + change (default [] (Some clip)) with clip. rewrite (cur_line_ok s l H). cbn [mbind res_bind]. set (len := if MAXCMDLINE - 1 <? zlen clip + zlen l then MAXCMDLINE - 1 - zlen l else zlen clip).
      assert (Hlen' : len = Z.min (zlen clip) (255 - zlen l)) by (unfold len; case_if; lia).
      assert (Ht : take (Z.to_nat (MAXCMDLINE - 1 - zlen b - zlen a)) clip = take (Z.to_nat len) clip).
      { rewrite Hlen'. destruct (decide (zlen clip <= 255 - zlen l)); [rewrite !take_ge by lia; done|]. f_equal. lia. }
      clearbody len. destruct (0 <? len) eqn:E0; bool_props.
      * rewrite Ht. destruct (HI (take (Z.to_nat len) clip) H) as (s' & l' & E & He & Hhv); [rewrite length_take; lia|by apply Forall_take, Hclip|].
        exists s', l', typed. done.
      * destruct Hid as (s' & l' & E & He & Hhv). exists s', l', typed. split; [done|]. split; [done|]. split; [done|]. rewrite Hhv, Ht.
        replace (Z.to_nat len) with 0%nat by lia. by rewrite take_0, app_nil_r.
    + destruct Hid as (s' & l' & E & He & Hhv). exists s', l', typed. change (default [] None) with (nil : bytes). rewrite take_nil, app_nil_r. done.
  - unfold key_type. destruct ((key <? 32) || (127 <? key)) eqn:Ek.
    + assert ((32 <=? key) && (key <=? 127) = false) as -> by (apply not_true_is_false; intros; bool_props; apply orb_true_iff in Ek as [|]; bool_props; lia).
      destruct Hid as (s' & l' & E & He & Hhv). by exists s', l', typed.
    + bool_props. rewrite (proj2 (Z.leb_le 32 key)), (proj2 (Z.leb_le key 127)) by lia. cbn [andb]. rewrite Et. cbn [mbind res_bind]. rewrite (cur_line_ok s l H). cbn [mbind res_bind].
      destruct (MAXCMDLINE - 1 <=? zlen l) eqn:E0; bool_props.
      * destruct Hid as (s' & l' & E & He & Hhv). exists s', l', typed. replace (Z.to_nat (MAXCMDLINE - 1 - zlen b - zlen a)) with 0%nat by lia. rewrite take_0, app_nil_r. done.
      * destruct (HI [typed] H) as (s' & l' & E & He & Hhv); [cbn [length]; lia|repeat constructor; apply Hnz; lia|]. exists s', l', typed.
        rewrite (take_ge [typed]) by (cbn [length]; lia). done.
Qed.

(** *** One key *)

(** The editor is left with the text [v] around the cursor. *)
Definition edits (r : res keyst) (v : bytes * bytes) : Prop := exists s' l', r = Ok s' /\ edit_ok s' l' /\ halves s' l' = v.

Section one_key.

Context (s : keyst) (l b a : bytes) (H : edit_ok s l) (Eh : halves s l = (b, a)).

Lemma halves_parts : b = take (Z.to_nat (key_linepos s)) l /\ a = drop (Z.to_nat (key_linepos s)) l /\ l = b ++ a /\ zlen b = key_linepos s /\ b <> [].
Proof.
  destruct (edit_line_ok s l H) as (Hh & _). pose proof (ed_pos s l H) as Hp. pose proof Eh as E. unfold halves in E. injection E as Eb Ea.
  assert (zlen b = key_linepos s) as Hb by (rewrite <- Eb, length_take; lia). split; [done|]. split; [done|].
  split; [by rewrite <- Eb, <- Ea, take_drop|]. split; [done|]. intros ->. cbn in Hb. lia.
Qed.
Lemma edits_same s' : same_editor s s' -> edits (Ok s') (b, a).
Proof. intros Hs. destruct (edit_same s s' l H Hs) as [He Hv]. exists s', l. split; [done|]. split; [done|]. by rewrite Hv. Qed.
Lemma edits_move b' a' : l = b' ++ a' -> 1 <= zlen b' -> edits (Ok (set_key_linepos (zlen b') s)) (b', a').
Proof. intros E1 E2. destruct (edit_halves s l b' a' H E1 E2) as [He Hv]. by exists (set_key_linepos (zlen b') s), l. Qed.

Lemma removelast_parts : 1 < key_linepos s -> removelast b = take (Z.to_nat (key_linepos s - 1)) l /\ zlen (removelast b) = key_linepos s - 1.
Proof.
  intros E. destruct halves_parts as (Eb & _ & Hl & Hb & _). pose proof (ed_pos s l H).
  assert (removelast b = take (Z.to_nat (key_linepos s - 1)) l) as Hr by (rewrite Eb, removelast_take by lia; f_equal; lia).
  split; [exact Hr|]. rewrite Hr, length_take. lia.
Qed.

Lemma backspace_edits : edits (if 1 <? key_linepos s then
    s1 ← set_cur_line (take (Z.to_nat (key_linepos s - 1)) l ++ drop (Z.to_nat (key_linepos s)) l) s; mret (set_key_linepos (key_linepos s - 1) s1)
  else mret s) (if 1 <? zlen b then removelast b else b, a).
Proof.
  destruct halves_parts as (Eb & Ea & Hl & Hb & Hne). destruct (edit_line_ok s l H) as (Hh & Hlen & Hnz). rewrite Hb.
  destruct (1 <? key_linepos s) eqn:E1; bool_props; [|by apply edits_same]. destruct (removelast_parts E1) as [Hrl Hlr].
  pose proof (ed_pos s l H) as Hp. rewrite <- Hrl, <- Ea. destruct (edit_replace s l (removelast b) a H) as (s1 & -> & He & Hv).
  - rewrite Hrl. destruct l as [|c l']; [done|]. replace (Z.to_nat (key_linepos s - 1)) with (S (Z.to_nat (key_linepos s - 2))) by lia. done.
  - rewrite Hl, length_app in Hlen. lia.
  - rewrite Hrl, Ea. apply Forall_app. split; [by apply Forall_take|by apply Forall_drop].
  - rewrite bind_Ok. rewrite Hlr in He, Hv. by exists (set_key_linepos (key_linepos s - 1) s1), (removelast b ++ a).
Qed.

Lemma end_edits : zlen l <= key_linepos s -> a = [].
Proof. intros E. destruct halves_parts as (_ & -> & _). apply drop_ge. pose proof (ed_pos s l H). lia. Qed.

Lemma delete_edits : edits (if key_linepos s <? zlen l then
    set_cur_line (take (Z.to_nat (key_linepos s)) l ++ drop (Z.to_nat (key_linepos s + 1)) l) s else mret s) (b, drop 1 a).
Proof.
  destruct halves_parts as (Eb & Ea & Hl & Hb & Hne). destruct (edit_line_ok s l H) as (Hh & Hlen & Hnz). pose proof (ed_pos s l H) as Hp.
  destruct (key_linepos s <? zlen l) eqn:E1; bool_props; [|replace (drop 1 a) with a by (by rewrite (end_edits E1)); by apply edits_same].
  assert (drop (Z.to_nat (key_linepos s + 1)) l = drop 1 a) as -> by (rewrite Ea, drop_drop; f_equal; lia). rewrite <- Eb.
  destruct (edit_replace s l b (drop 1 a) H) as (s1 & E & He & Hv).
  - rewrite Hl in Hh. by destruct b.
  - rewrite Hl, length_app in Hlen. rewrite length_drop. lia.
  - rewrite Hl in Hnz. apply Forall_app in Hnz as [Hn1 Hn2]. apply Forall_app. split; [done|by apply Forall_drop].
  - rewrite E. rewrite Hb, <- (set_cur_line_pos _ _ _ E) in He, Hv. exists s1, (b ++ drop 1 a). split; [done|]. by destruct s1.
Qed.

Lemma left_edits (ctrl : bool) : edits (if ctrl then mret (set_key_linepos (Z.of_nat (back_while not_blank l (back_while is_blank l (Z.to_nat (key_linepos s))))) s)
    else mret (if 1 <? key_linepos s then set_key_linepos (key_linepos s - 1) s else s))
  (let b' := if ctrl then back not_blank (back is_blank b) else if 1 <? zlen b then removelast b else b in (b', drop (length b') b ++ a)).
Proof.
  destruct halves_parts as (Eb & Ea & Hl & Hb & Hne). pose proof (ed_pos s l H) as Hp. destruct ctrl; cbv zeta.
  - destruct (back_prefix is_blank b) as (r1 & E1). destruct (back_nonempty is_blank b Hne) as [H1 H1'].
    assert (W1 : back_while is_blank l (length b) = length (back is_blank b)) by (rewrite Hl; by apply back_while_ok).
    set (b1 := back is_blank b) in *. assert (Hb1 : b1 <> []) by (by destruct b1).
    destruct (back_prefix not_blank b1) as (r2 & E2). destruct (back_nonempty not_blank b1 Hb1) as [H2 H2'].
    assert (W2 : back_while not_blank l (length b1) = length (back not_blank b1)) by (rewrite Hl, E1, <- app_assoc; by apply back_while_ok).
    set (b2 := back not_blank b1) in *. rewrite <- Hb, Nat2Z.id, W1, W2.
    replace (drop (length b2) b) with (r2 ++ r1) by (rewrite E1, E2, <- app_assoc; by rewrite drop_app_length).
    apply edits_move; [|done]. by rewrite Hl, E1, E2, <- !app_assoc.
  - rewrite Hb. destruct (1 <? key_linepos s) eqn:E1; bool_props.
    + destruct (removelast_parts E1) as [Hrl Hlr]. rewrite <- Hlr. apply edits_move; [|lia].
      rewrite Hl, app_assoc. f_equal. rewrite <- (take_drop (length (removelast b)) b) at 1. f_equal.
      rewrite Hrl at 2. rewrite Hl, take_app_le by lia. f_equal. lia.
    + rewrite drop_ge by lia. by apply edits_same.
Qed.

Lemma right_edits (ctrl : bool) : edits (if ctrl then
      mret (set_key_linepos (Z.of_nat (forward_while (length l) is_blank l (forward_while (length l) not_blank l (Z.to_nat (key_linepos s))))) s)
    else mret (if key_linepos s <? zlen l then set_key_linepos (key_linepos s + 1) s else s))
  (let a' := if ctrl then drop_while is_blank (drop_while not_blank a) else drop 1 a in (b ++ take (length a - length a') a, a')).
Proof.
  destruct halves_parts as (Eb & Ea & Hl & Hb & Hne). pose proof (ed_pos s l H) as Hp. destruct ctrl; cbv zeta.
  - destruct (drop_while_suffix not_blank a) as (r1 & E1).
    assert (W1 : forward_while (length l) not_blank l (length b) = (length b + (length a - length (drop_while not_blank a)))%nat).
    { rewrite Hl at 2. apply forward_while_ok. rewrite Hl, length_app. lia. }
    set (a1 := drop_while not_blank a) in *. destruct (drop_while_suffix is_blank a1) as (r2 & E2).
    assert (W2 : forward_while (length l) is_blank l (length (b ++ r1)) = (length (b ++ r1) + (length a1 - length (drop_while is_blank a1)))%nat).
    { rewrite Hl at 2. rewrite E1, (app_assoc b). apply forward_while_ok. rewrite Hl, E1, !length_app. lia. }
    set (a2 := drop_while is_blank a1) in *. rewrite <- Hb, Nat2Z.id, W1.
    replace (length b + (length a - length a1))%nat with (length (b ++ r1)) by (rewrite E1, !length_app; lia). rewrite W2.
    replace (length (b ++ r1) + (length a1 - length a2))%nat with (length (b ++ r1 ++ r2)) by (rewrite E2, !length_app; lia).
    replace (take (length a - length a2) a) with (r1 ++ r2) by (by rewrite E1, E2, app_assoc, length_app, Nat.add_sub, take_app_length).
    apply edits_move; [by rewrite Hl, E1, E2, <- !app_assoc|rewrite length_app; lia].
  - destruct (key_linepos s <? zlen l) eqn:E1; bool_props.
    + destruct (decide (a = [])) as [E0|E0]; [rewrite Hl, E0, app_nil_r in E1; lia|]. assert (exists c a', a = c :: a') as (c & a' & Eqa) by (destruct a; eauto; done).
      rewrite Eqa. cbn [drop length]. rewrite drop_0.
      replace (S (length a') - length a')%nat with 1%nat by lia. cbn [take]. rewrite take_0.
      replace (key_linepos s + 1) with (zlen (b ++ [c])) by (rewrite length_app; cbn [length]; lia).
      apply edits_move; [by rewrite Hl, Eqa, <- app_assoc|rewrite length_app; lia].
    + replace (b ++ _, drop 1 a) with (b, a) by (by rewrite (end_edits E1), app_nil_r). by apply edits_same.
Qed.

End one_key.

(** C31: The line editor edits a list at a cursor.  The keys that type, paste, delete and move,
    by characters and by words, do to the text before and after the cursor what [edited] says,
    for every line and cursor; the line never outgrows its array, the cursor stays inside it and
    behind the prompt. *)
Theorem Key_Console_edits e key s l ctrl :
  edit_ok s l -> line_key key -> keydown s !! Z.to_nat K_CTRL = Some ctrl -> (forall c, clipboard e = Some c -> Forall (fun x => x <> 0) c) ->
  exists s' l' typed, Key_Console e key s = Ok s' /\ edit_ok s' l' /\ Key_Extra key s = Ok typed /\
    halves s' l' = edited ctrl key (clipboard e) typed (halves s l).
Proof.
  intros H (N1 & N2 & N3 & N4) Hctrl Hclip. destruct (typed_ok e key s l ctrl H Hclip) as (st & lt & typed & Et & Ety & Hty & Hhty).
  cut (edits (Key_Console e key s) (edited ctrl key (clipboard e) typed (halves s l))); [intros (s' & l' & E); exists s', l', typed; intuition|].
  unfold Key_Console. rewrite (cur_line_ok s l H), bind_Ok, (ctrl_ok s ctrl Hctrl), bind_Ok.
  rewrite (proj2 (Z.eqb_neq key K_ENTER)), (proj2 (Z.eqb_neq key K_TAB)), (proj2 (Z.eqb_neq key K_UPARROW)), (proj2 (Z.eqb_neq key K_DOWNARROW)) by done.
  unfold edited. destruct (halves s l) as [b a] eqn:Eh. destruct (halves_parts s l b a H Eh) as (_ & _ & Hl & Hb & Hne). cbv zeta.
  destruct (key =? K_BACKSPACE); [by eapply backspace_edits|]. destruct (key =? K_DEL); [by eapply delete_edits|].
  destruct (key =? K_LEFTARROW); [by eapply left_edits|]. destruct (key =? K_RIGHTARROW); [by eapply right_edits|].
  destruct (key =? K_INS) eqn:EI; bool_props; [subst key; by apply (edits_same s l b a H Eh)|].
  destruct ((key =? K_PGUP) || (key =? K_MWHEELUP)) eqn:EU; [apply orb_true_iff in EU as [EU|EU]; bool_props; subst key; by apply (edits_same s l b a H Eh)|].
  destruct ((key =? K_PGDN) || (key =? K_MWHEELDOWN)) eqn:ED; [apply orb_true_iff in ED as [ED|ED]; bool_props; subst key; by apply (edits_same s l b a H Eh)|].
  destruct (key =? K_HOME); [destruct ctrl; [by apply (edits_same s l b a H Eh)|]|destruct (key =? K_END); [destruct ctrl; [by apply (edits_same s l b a H Eh)|]|]].
  - destruct b as [|c b]; [done|]. cbn [take drop]. rewrite take_0, drop_0. apply (edits_move s l H [c] (b ++ a)); [done|cbn; lia].
  - replace (zlen l) with (zlen (b ++ a)) by (by rewrite Hl). apply (edits_move s l H); [by rewrite app_nil_r|pose proof (ed_pos s l H); rewrite length_app; lia].
  - by exists st, lt.
Qed.

Lemma demo_edit_ok : edit_ok demo_keys [93].
Proof.
  split; try done; try (split; by_vm). apply Forall_replicate. split; [done|]. split; [by_vm|]. by repeat constructor.
Qed.

Lemma Key_Console_edits_witness : exists s' l' typed, Key_Console demo_env 97 demo_keys = Ok s' /\ edit_ok s' l' /\
  halves s' l' = edited false 97 (clipboard demo_env) typed (halves demo_keys [93]).
Proof.
  destruct (Key_Console_edits demo_env 97 demo_keys [93] false demo_edit_ok) as (s' & l' & typed & E & He & _ & Hv);
    [split_and!; by_vm|by_vm|intros c Hc; injection Hc as <-; by_decide|]. exists s', l', typed. exact (conj E (conj He Hv)).
Defined.

(** ** The history *)

Definition has_text (l : bytes) : bool := match l with _ :: c :: _ => negb (c =? 0) | _ => false end.

Lemma land_63 z : z & 63 = z mod 64.
Proof. apply (Z.land_ones z 6). lia. Qed.

Lemma history_line_at lines h : length lines = 64%nat -> Forall line_ok lines -> 0 <= h < 64 -> exists l, lines !! Z.to_nat h = Some l /\ line_ok l /\
  (l ← at_ lines h; match l with [] => Fault (Undefined "uninitialised value") | [_] => mret 0 | _ :: c :: _ => mret c end) = Ok (if has_text l then nth 1 l 0 else 0) /\
  (has_text l = true -> nth 1 l 0 <> 0).
Proof.
  intros Hlen Hall Hh. destruct (at_ok lines h ltac:(lia)) as (l & -> & Hl). exists l. split; [done|]. rewrite Forall_forall in Hall.
  assert (Hlo : line_ok l) by (eapply Hall, list_elem_of_lookup_2, Hl). split; [done|]. destruct Hlo as (Hd & _ & Hnz). destruct l as [|c [|d l]]; [done| |]; cbn.
  - done.
  - apply Forall_cons in Hnz as [_ [Hd0 _]%Forall_cons]. rewrite (proj2 (Z.eqb_neq d 0)) by done. done.
Qed.

(** The search goes from line to line in one direction, around the ring, to the first that has
    text or to the one being edited. *)
Lemma history_find_ok step edit lines : (step = 1 \/ step = -1) -> length lines = 64%nat -> Forall line_ok lines -> 0 <= edit < 64 ->
  forall fuel h, 0 <= h < 64 -> ((edit - h) * step - 1) mod 64 + 1 <= Z.of_nat fuel ->
  exists k, 1 <= k <= 64 /\ let h' := (h + step * k) mod 64 in history_find fuel step edit lines h = Ok h' /\
    (h' = edit \/ exists l, lines !! Z.to_nat h' = Some l /\ has_text l = true) /\
    forall j, 1 <= j < k -> (h + step * j) mod 64 <> edit /\ forall l, lines !! Z.to_nat ((h + step * j) mod 64) = Some l -> has_text l = false.
Proof.
  intros Hstep Hlen Hall He. induction fuel as [|fuel IH]; intros h Hh Hf; [pose proof (Z.mod_pos_bound ((edit - h) * step - 1) 64 ltac:(lia)); lia|].
  cbn [history_find]. rewrite land_63. set (h1 := (h + step) mod 64). pose proof (Z.mod_pos_bound (h + step) 64 ltac:(lia)) as Hh1. fold h1 in Hh1.
  destruct (history_line_at lines h1 Hlen Hall Hh1) as (l & Hl & Hlo & Eat & Htx). destruct (at_ lines h1) as [l0|]; [|done]. cbn [mbind res_bind] in Eat |- *.
  rewrite Eat. cbn [mbind res_bind].
  destruct (negb (h1 =? edit) && ((if has_text l then nth 1 l 0 else 0) =? 0)) eqn:Ec.
  - apply andb_true_iff in Ec as [Ec1 Ec2]. bool_props. assert (Ht : has_text l = false) by (destruct (has_text l); [exfalso; by apply Htx|done]).
    destruct (IH h1 Hh1) as (k & Hk & Efind & Hend & Hbetween).
    { subst h1. revert Hf Ec1 Hh. destruct Hstep as [-> | ->]; clear -He; intros; Z.to_euclidean_division_equations; lia. }
    assert (Hmod : forall j, (h1 + step * j) mod 64 = (h + step * (j + 1)) mod 64).
    { intros j. unfold h1. rewrite Zplus_mod_idemp_l. f_equal. lia. }
    destruct (decide (k = 64)) as [->|Hk64].
    { exfalso. destruct (Hbetween ((edit - h1) * step mod 64)) as [Hne _].
      - revert Ec1 Hh1. destruct Hstep as [-> | ->]; clear -He; intros; Z.to_euclidean_division_equations; lia.
      - apply Hne. clear -He Hh1 Hstep. destruct Hstep as [-> | ->]; Z.to_euclidean_division_equations; lia. }
    exists (k + 1). cbv zeta in *. rewrite Hmod in Efind, Hend. split; [lia|]. split; [done|]. split; [done|].
    intros j Hj. destruct (decide (j = 1)) as [->|Hj1].
    + rewrite Z.mul_1_r. fold h1. split; [done|]. intros l' Hl'. congruence.
    + replace j with (j - 1 + 1) by lia. rewrite <- Hmod. apply Hbetween. lia.
  - exists 1. rewrite Z.mul_1_r. fold h1. split; [lia|]. split; [done|]. split; [|lia]. apply andb_false_iff in Ec as [Ec|Ec]; bool_props; [by left|right].
    exists l. split; [done|]. by destruct (has_text l).
Qed.

Lemma edit_fuel edit h step : ((edit - h) * step - 1) mod 64 + 1 <= Z.of_nat 64.
Proof. pose proof (Z.mod_pos_bound ((edit - h) * step - 1) 64 ltac:(lia)). lia. Qed.

Lemma edit_history s l h : edit_ok s l -> 0 <= h < 64 -> edit_ok (set_history_line h s) l.
Proof. intros H Hh. destruct H. by split. Qed.

(** The up arrow brings back the nearest earlier line that has text, searching around the ring of
    64 lines from the line shown last; when there is none it shows the line after the one being
    edited.  The search ends, and the line, a copy, can be edited. *)
Theorem key_up_spec e s l : edit_ok s l -> keydown s !! Z.to_nat K_CTRL = Some false ->
  exists s' l' h, Key_Console e K_UPARROW s = Ok s' /\ edit_ok s' l' /\ halves s' l' = (l', []) /\ history_line s' = h /\ h <> edit_line s /\ key_lines s !! Z.to_nat h = Some l' /\
    (has_text l' = true \/ h = (edit_line s + 1) mod 64) /\
    exists k, 1 <= k <= 64 /\ (has_text l' = true -> h = (history_line s - k) mod 64 \/ h = (edit_line s + 1) mod 64) /\
      forall j, 1 <= j < k -> forall x, key_lines s !! Z.to_nat ((history_line s - j) mod 64) = Some x -> has_text x = false.
Proof.
  intros H Hctrl. unfold Key_Console. rewrite (cur_line_ok s l H). cbn [mbind res_bind]. rewrite (ctrl_ok s false Hctrl). cbn [mbind res_bind].
  cbn [Z.eqb Pos.eqb K_UPARROW K_ENTER K_TAB K_BACKSPACE K_DEL K_LEFTARROW K_RIGHTARROW K_INS]. unfold key_up. rewrite (ctrl_ok s false Hctrl). cbn [mbind res_bind].
  pose proof (ed_edit s l H) as He. pose proof (ed_history s l H) as Hh. pose proof (ed_lines s l H) as Hlen. pose proof (ed_all s l H) as Hall.
  destruct (history_find_ok (-1) (edit_line s) (key_lines s) ltac:(by right) Hlen Hall He 64 (history_line s) Hh (edit_fuel _ _ _)) as (k & Hk & Ef & Hend & Hbet).
  rewrite Ef. cbn [mbind res_bind]. set (h0 := (history_line s + -1 * k) mod 64) in *. rewrite land_63. set (h := if h0 =? edit_line s then (edit_line s + 1) mod 64 else h0).
  pose proof (Z.mod_pos_bound (history_line s + -1 * k) 64 ltac:(lia)) as Hh0. fold h0 in Hh0.
  assert (Hne : 0 <= h < 64 /\ h <> edit_line s /\ (h = h0 \/ h = (edit_line s + 1) mod 64)).
  { unfold h. destruct (Z.eqb_spec h0 (edit_line s)) as [E|E]; [|split; [lia|auto]]. pose proof (Z.mod_pos_bound (edit_line s + 1) 64 ltac:(lia)). split; [lia|]. split; [|by right].
    clear -He. Z.to_euclidean_division_equations. lia. }
  destruct Hne as (Hh1 & Hne & Hor). destruct (at_ok (key_lines s) h ltac:(lia)) as (l' & -> & Hl'). cbn [mbind res_bind].
  assert (Hlo : line_ok l') by (rewrite Forall_forall in Hall; eapply Hall, list_elem_of_lookup_2, Hl'). pose proof Hlo as (Hhd & Hl1 & _).
  assert (Hl1' : 1 <= zlen l') by (destruct l'; [done|cbn [length]; lia]).
  destruct (set_line_ok (set_history_line h s) l l' (zlen l') (edit_history s l h H Hh1) Hlo ltac:(lia)) as (s1 & E1 & He1). rewrite E1. cbn [mbind res_bind].
  exists (set_key_linepos (zlen l') s1), l', h. split; [done|]. split; [done|]. split; [unfold halves; cbn [key_linepos set_key_linepos]; by rewrite Nat2Z.id, take_ge, drop_ge by lia|].
  split; [|split; [done|split; [done|split]]].
  - unfold set_cur_line in E1. case_if_in E1; [|done]. apply bind_Ok_inv in E1 as (ls & _ & E1). by injection E1 as <-.
  - destruct Hor as [Eh|Eh]; [|by right]. destruct Hend as [Hend|(x & Hx & Htx)]; [congruence|]. left. rewrite <- Eh in Hx. congruence.
  - exists k. split; [lia|]. replace (history_line s - k) with (history_line s + -1 * k) by lia. fold h0. split; [intros _; exact Hor|].
    intros j Hj x Hx. replace (history_line s - j) with (history_line s + -1 * j) in Hx by lia. by apply (Hbet j Hj).
Qed.

Lemma key_up_spec_witness : exists s' l', Key_Console demo_env K_UPARROW demo_keys = Ok s' /\ edit_ok s' l'.
Proof. destruct (key_up_spec demo_env demo_keys [93] demo_edit_ok) as (s' & l' & h & E & He & _); [by_vm|]. exists s', l'. exact (conj E He). Defined.

(** Enter sends the line, without its prompt, to the command buffer and starts a new line; the line
    stays in the history unless it equals the one before it.  On the first line of the ring there is
    no line before it, and what is compared lies outside the array. *)
Theorem key_enter_spec e s l : edit_ok s l -> chatmode e = false -> cbuf_ok (kcmd s) -> zlen (cbuf (kcmd s)) + zlen l < maxsize (cmd_text (kcmd s)) ->
  con_ok (kcon s) -> con_current (kcon s) + 256 <= INT_MAX -> keydown s !! Z.to_nat K_CTRL = Some false ->
  if edit_line s =? 0 then Key_Console e K_ENTER s = Fault (Undefined "index outside the array")
  else exists s' p, Key_Console e K_ENTER s = Ok s' /\ edit_ok s' [93] /\ cbuf (kcmd s') = cbuf (kcmd s) ++ drop 1 l ++ [10] /\ con_ok (kcon s') /\
    key_lines s !! Z.to_nat (edit_line s - 1) = Some p /\
    edit_line s' = (if bool_decide (p = l) then edit_line s else (edit_line s + 1) mod 64) /\ history_line s' = edit_line s' /\
    key_lines s' = <[Z.to_nat (edit_line s') := [93]]> (key_lines s).
Proof.
  intros H Hchat Hcb Hfit Hcon Hcur Hctrl. unfold Key_Console. rewrite (cur_line_ok s l H). cbn [mbind res_bind]. rewrite (ctrl_ok s false Hctrl). cbn [mbind res_bind].
  change (K_ENTER =? K_ENTER) with true. cbn iota. unfold key_enter. rewrite Hchat. cbn [andb mbind res_bind mret res_ret]. rewrite (cur_line_ok s l H). cbn [mbind res_bind].
  pose proof (edit_line_ok s l H) as (Hhd & Hl & Hnz). assert (Hl1 : 1 <= zlen l) by (destruct l; [done|cbn [length]; lia]).
  destruct (add_text_ok (drop 1 l) s Hcb) as (s1 & E1 & Hcb1 & Hc1 & Hm1 & _ & Es1); [rewrite length_drop; lia|]. rewrite E1. cbn [mbind res_bind].
  destruct (add_text_ok [10] s1 Hcb1) as (s2 & E2 & Hcb2 & Hc2 & _ & _ & Es2); [rewrite Hc1, Hm1, length_app, length_drop; cbn [length]; lia|]. rewrite E2. cbn [mbind res_bind].
  assert (Es : s2 = set_kcmd (kcmd s2) s) by (rewrite Es2, Es1; by destruct s). clear Es1 Es2. set (c2 := kcmd s2) in *. clearbody c2. subst s2. cbn [kcon set_kcmd].
  unfold Con_Printf. cbn [negb]. rewrite take_ge by (unfold MAXCMDLINE, MAXPRINTMSG in *; rewrite length_app; cbn [length]; lia).
  destruct (con_print_ok (realtime e) (l ++ [10]) (kcon s) Hcon) as (con & E3 & Hcon3 & _); [unfold MAXCMDLINE in *; rewrite length_app; cbn [length]; lia|]. rewrite E3. cbn [mbind res_bind].
  cbn [key_lines edit_line set_kcon set_kcmd]. pose proof (ed_edit s l H) as He. destruct (Z.eqb_spec (edit_line s) 0) as [E0|E0].
  - rewrite E0. done.
  - destruct (at_ok (key_lines s) (edit_line s - 1) ltac:(rewrite (ed_lines s l H); lia)) as (p & -> & Hp). cbn [mbind res_bind]. rewrite land_63.
    set (n := if bool_decide (p = l) then edit_line s else (edit_line s + 1) mod 64). assert (Hn : 0 <= n < 64) by (unfold n; pose proof (Z.mod_pos_bound (edit_line s + 1) 64 ltac:(lia)); case_bool_decide; lia).
    set (s3 := if bool_decide (p = l) then _ else _). assert (Hs3 : s3 = set_edit_line n (set_kcon con (set_kcmd c2 s))) by (unfold s3, n; case_bool_decide; [by destruct s|done]).
    rewrite Hs3. cbn [edit_line set_edit_line]. unfold set_cur_line. cbn [edit_line set_history_line set_edit_line set_kcon set_kcmd key_lines]. change (zlen [93] <? MAXCMDLINE) with true. cbn iota.
    unfold put_. destruct (at_ok (key_lines s) n ltac:(rewrite (ed_lines s l H); lia)) as (x & -> & _). cbn [mbind res_bind]. eexists _, p. split; [done|].
    cbn [set_key_linepos set_key_lines set_history_line set_edit_line set_kcon set_kcmd kcmd kcon key_lines edit_line history_line]. split.
    + destruct H as [K1 K2 K3 K4 K5 K6 K7]. split; cbn [set_key_linepos set_key_lines set_history_line set_edit_line set_kcon set_kcmd key_lines edit_line history_line key_linepos keydown]; try done.
      * by rewrite length_insert.
      * apply Forall_insert; [done|]. split; [done|]. split; [by_vm|by repeat constructor].
      * apply list_lookup_insert_eq. lia.
    + split; [rewrite Hc2, Hc1, <- app_assoc; done|]. done.
Qed.

Lemma key_enter_spec_witness : exists s' p, Key_Console demo_env K_ENTER demo_keys = Ok s' /\ edit_ok s' [93] /\ key_lines demo_keys !! 0%nat = Some p.
Proof.
  pose proof (key_enter_spec demo_env demo_keys [93] demo_edit_ok eq_refl) as H.
  destruct H as (s' & p & E & He & _ & _ & Hp & _); [split; [split_and!; by_vm|done]|by_vm|split; [split; by_vm|split; [split; by_vm|done]]|by_vm|by_vm|].
  exists s', p. exact (conj E (conj He Hp)).
Defined.

(** ** Chat *)

(** The chat buffer holds a text of [chat_bufferlen] bytes and its terminator. *)
Definition chat_ok (s : keyst) (t : bytes) : Prop :=
  zlen (chat_buffer s) = MAX_CHAT_SIZE /\ chat_bufferlen s = zlen t /\ zlen t < MAX_CHAT_SIZE /\ Forall (fun c => c <> 0) t /\ exists r, chat_buffer s = t ++ 0 :: r.

(** Typing a chat message appends to it until the buffer is full.  The test for a full buffer asks
    for equality with a limit that depends on the kind of message: when a message that fills the
    buffer is turned into a message to the team, the next character is stored outside it. *)
Theorem Key_Message_spec key s t : chat_ok s t -> 32 <= key < 127 ->
  (zlen t < MAX_CHAT_SIZE - (if team_message s then 3 else 1) -> exists s', Key_Message key s = Ok s' /\ chat_ok s' (t ++ [key])) /\
  (zlen t = MAX_CHAT_SIZE - (if team_message s then 3 else 1) -> Key_Message key s = Ok s) /\
  (zlen t = MAX_CHAT_SIZE - 1 -> Key_Message key (Con_MessageMode2_f s) = Fault (Undefined "store outside the object")).
Proof.
  intros (Hlen & Hbl & Hlt & Hnz & r & Hb) Hk. assert (Hskip : forall (k : res keyst) s0, chat_bufferlen s0 = zlen t ->
    Key_Message key s0 = if zlen t =? MAX_CHAT_SIZE - (if team_message s0 then 3 else 1) then mret s0
      else b ← store (chat_buffer s0) (zlen t) [key]; b ← store b (zlen t + 1) [0]; mret (set_chat_buffer b (set_chat_bufferlen (zlen t + 1) s0))).
  { intros _ s0 E. unfold Key_Message. rewrite E, (proj2 (Z.eqb_neq key K_ENTER)), (proj2 (Z.eqb_neq key K_ESCAPE)) by (unfold K_ENTER, K_ESCAPE; lia).
    rewrite (proj2 (Z.ltb_ge key 32)), (proj2 (Z.ltb_ge 127 key)), (proj2 (Z.eqb_neq key K_BACKSPACE)) by (unfold K_BACKSPACE; lia). done. }
  specialize (Hskip (Ok s)). assert (HM : MAX_CHAT_SIZE = 45) by done. split_and!.
  - intros Hroom. rewrite (Hskip s Hbl), (proj2 (Z.eqb_neq _ _)) by lia. rewrite Hb in *. rewrite length_app in Hlen. cbn [length] in Hlen.
    rewrite store_ok by (rewrite ?length_app; cbn [length]; lia). cbn [mbind res_bind]. rewrite Nat2Z.id, splice_app. cbn [length drop app]. rewrite drop_0.
    destruct r as [|x r]; [cbn [length] in Hlen; destruct (team_message s); lia|]. change (t ++ key :: x :: r) with (t ++ [key] ++ x :: r). rewrite app_assoc.
    rewrite store_ok by (rewrite ?length_app; cbn [length]; lia). cbn [mbind res_bind]. replace (Z.to_nat (zlen t + 1)) with (length (t ++ [key])) by (rewrite length_app; cbn [length]; lia).
    rewrite splice_app. cbn [length drop app]. rewrite drop_0. eexists. split; [done|]. split; [cbn [chat_buffer set_chat_buffer set_chat_bufferlen]; rewrite !length_app; cbn [length] in *; lia|].
    cbn [chat_bufferlen set_chat_buffer set_chat_bufferlen chat_buffer]. rewrite length_app. cbn [length]. split; [lia|]. split; [destruct (team_message s); lia|].
    split; [apply Forall_app; split; [done|]; repeat constructor; lia|by exists r].
  - intros Hfull. by rewrite (Hskip s Hbl), (proj2 (Z.eqb_eq _ _)) by done.
  - intros Hfull. rewrite (Hskip (Con_MessageMode2_f s) Hbl). cbn [team_message Con_MessageMode2_f set_team_message]. rewrite (proj2 (Z.eqb_neq _ _)) by lia.
    cbn [chat_buffer Con_MessageMode2_f set_team_message set_key_dest]. rewrite store_ok by (cbn [length]; lia). cbn [mbind res_bind].
    unfold store. rewrite length_splice by (cbn [length]; lia). cbn [length]. rewrite andb_comm, (proj2 (Z.leb_gt _ _)) by lia. done.
Qed.

Lemma Key_Message_spec_witness : exists s', Key_Message 104 demo_keys = Ok s' /\ chat_ok s' [104].
Proof.
  destruct (Key_Message_spec 104 demo_keys []) as (H & _ & _); [|lia|apply H; by_vm].
  split; [by_vm|split; [by_vm|split; [by_vm|split; [constructor|]]]]. exists (replicate 44 0). by_vm.
Defined.
