(* ===== verification/FloatOrder.v ===== *)
(** The order of floats, and the sign of a difference.

    Comparison of floats is a strict weak order on everything but NaN.  A difference of two finite
    values is negative exactly when the first is smaller: rounding never makes a difference zero,
    because the exact difference is a multiple of the least positive value. *)

From Stdlib Require Import SpecFloat.
From S2P Require Import Prelude CFloat.

Definition not_nan (x : spec_float) : Prop := x <> S754_nan.
Definition finite (x : spec_float) : Prop := match x with S754_zero _ | S754_finite _ _ _ => True | _ => False end.

#[global] Instance not_nan_dec x : Decision (not_nan x).
Proof. unfold not_nan. destruct x; first [right; congruence|left; congruence]. Defined.
#[global] Instance finite_dec x : Decision (finite x).
Proof. destruct x; apply _. Defined.
#[global] Instance f32_valid_dec x : Decision (f32_valid x).
Proof. unfold f32_valid. apply _. Defined.

Ltac float_cases :=
  repeat match goal with
  | |- context [Pos.compare_cont Eq ?a ?b] => change (Pos.compare_cont Eq a b) with (Pos.compare a b)
  | H : context [Pos.compare_cont Eq ?a ?b] |- _ => change (Pos.compare_cont Eq a b) with (Pos.compare a b) in H
  end;
  repeat match goal with
  | H : context [Z.compare ?a ?b] |- _ => destruct (Z.compare_spec a b); subst; cbn in H
  | H : context [Pos.compare ?a ?b] |- _ => destruct (Pos.compare_spec a b); subst; cbn in H
  | |- context [Z.compare ?a ?b] => destruct (Z.compare_spec a b); subst; cbn
  | |- context [Pos.compare ?a ?b] => destruct (Pos.compare_spec a b); subst; cbn
  end; try done; try lia.

Lemma f_lt_le_trans d a c : f_ltb d a = true -> f_ltb c a = false -> not_nan c -> f_ltb d c = true.
Proof.
  unfold f_ltb, SFltb, not_nan. intros H1 H2 Hc.
  destruct d as [[]|[]| |[]], a as [[]|[]| |[]], c as [[]|[]| |[]]; cbn in *; try done; float_cases.
Qed.

Lemma f_le_lt_trans d a c : f_ltb a d = true -> f_ltb a c = false -> not_nan c -> f_ltb c d = true.
Proof.
  unfold f_ltb, SFltb, not_nan. intros H1 H2 Hc.
  destruct d as [[]|[]| |[]], a as [[]|[]| |[]], c as [[]|[]| |[]]; cbn in *; try done; float_cases.
Qed.

Lemma f_leb_ltb x y : not_nan x -> not_nan y -> f_leb x y = negb (f_ltb y x).
Proof.
  unfold f_ltb, SFltb, f_leb, SFleb, not_nan. intros Hx Hy.
  destruct x as [[]|[]| |[]], y as [[]|[]| |[]]; cbn in *; try done; float_cases.
Qed.

Lemma f_ltb_not_nan x y : f_ltb x y = true -> not_nan x /\ not_nan y.
Proof. unfold f_ltb, SFltb, not_nan. destruct x, y; done. Qed.

Lemma f_ltb_asym x y : f_ltb x y = true -> f_ltb y x = false.
Proof.
  unfold f_ltb, SFltb. intros H. destruct (SFcompare y x) as [[]|] eqn:E; try done. exfalso. revert H E.
  destruct x as [[]|[]| |[]], y as [[]|[]| |[]]; cbn; try done; intros; simplify_eq; float_cases.
Qed.

Lemma f_ltb_irrefl x : f_ltb x x = false.
Proof. destruct (f_ltb x x) eqn:E; [|done]. by rewrite (f_ltb_asym _ _ E) in E. Qed.

Lemma f_ltb_trans x y z : f_ltb x y = true -> f_ltb y z = true -> f_ltb x z = true.
Proof.
  intros H1 H2. apply (f_lt_le_trans x y z H1); [by apply f_ltb_asym|apply (f_ltb_not_nan y z H2)].
Qed.

(** * Rounding keeps nonzero values nonzero *)

Lemma iter_pos_spec {A} (f : A -> A) n x : SpecFloat.iter_pos f n x = Nat.iter (Pos.to_nat n) f x.
Proof.
  revert x. induction n as [n IH|n IH|]; intros x; cbn [SpecFloat.iter_pos]; [| |done].
  - rewrite !IH, <- Nat.iter_succ_r, <- Nat.iter_add. f_equal. lia.
  - rewrite !IH, <- Nat.iter_add. f_equal. lia.
Qed.

Lemma shr_1_m r : 0 <= shr_m r -> shr_m (shr_1 r) = shr_m r / 2.
Proof.
  destruct r as [m r s]. cbn [shr_m]. intros Hm. destruct m as [|[p|p|]|p]; [done| | |done|lia]; cbn [shr_1 shr_m].
  - rewrite Pos2Z.inj_xI. apply (Z.div_unique_pos _ 2 _ 1); lia.
  - rewrite Pos2Z.inj_xO. apply (Z.div_unique_pos _ 2 _ 0); lia.
Qed.

Lemma shr_iter_m n r : 0 <= shr_m r -> shr_m (Nat.iter n shr_1 r) = shr_m r / 2 ^ Z.of_nat n.
Proof.
  intros Hr. induction n as [|n IH]; [cbn; by rewrite Z.div_1_r|].
  rewrite Nat.iter_succ, shr_1_m, IH by (rewrite IH; apply Z.div_pos; lia).
  rewrite Z.div_div, Nat2Z.inj_succ, Z.pow_succ_r by lia. f_equal. lia.
Qed.

Lemma shr_m_shift m l e n : 0 <= m -> shr_m (shr (shr_record_of_loc m l) e n).1 = m / 2 ^ Z.max n 0.
Proof.
  intros Hm. assert (shr_m (shr_record_of_loc m l) = m) as E by (by destruct l as [|[]]).
  destruct n as [|n|n]; cbn [shr fst]; [by rewrite Z.div_1_r| |by rewrite Z.div_1_r].
  rewrite iter_pos_spec, shr_iter_m, E by (by rewrite E). do 2 f_equal. lia.
Qed.

Lemma shr_e r e n : (shr r e n).2 = e + Z.max n 0.
Proof. destruct n; cbn; lia. Qed.

Lemma Zdigits_bounds m : 0 < m -> 2 ^ (Zdigits2 m - 1) <= m < 2 ^ Zdigits2 m.
Proof. destruct m as [|m|m]; [lia| |lia]. intros _. apply digits2_bounds. Qed.

Lemma Zdigits_pos m : 0 < m -> 1 <= Zdigits2 m.
Proof. destruct m; cbn; lia. Qed.

Lemma pow2_div_pos m n : 0 < m -> n <= Zdigits2 m - 1 -> 0 < m / 2 ^ Z.max n 0.
Proof.
  intros Hm Hn. apply Z.div_str_pos. pose proof (Zdigits_bounds m Hm). pose proof (Zdigits_pos m Hm).
  assert (2 ^ Z.max n 0 <= 2 ^ (Zdigits2 m - 1)) by (apply Z.pow_le_mono_r; lia). lia.
Qed.

Section format.
Variable prec emax : Z.
Hypothesis Hprec : 0 < prec.

(** A shift to the precision of the format leaves a digit. *)
Lemma shr_fexp_pos m e l : 0 < m -> emin prec emax <= e -> 0 < shr_m (shr_fexp prec emax m e l).1 /\ e <= (shr_fexp prec emax m e l).2.
Proof.
  intros Hm He. unfold shr_fexp. rewrite shr_m_shift, shr_e by lia. split; [|lia].
  apply pow2_div_pos; [done|]. unfold fexp. pose proof (Zdigits_pos m Hm). lia.
Qed.

Definition signed (s : bool) (x : spec_float) : Prop := (exists m e, x = S754_finite s m e) \/ x = S754_infinity s.

Lemma binary_round_aux_signed s m e l : 0 < m -> emin prec emax <= e -> signed s (binary_round_aux prec emax s m e l).
Proof.
  intros Hm He. unfold binary_round_aux. destruct (shr_fexp_pos m e l Hm He) as [H1 H2].
  destruct (shr_fexp prec emax m e l) as [r1 e1]. cbn [fst snd] in *.
  set (m1 := round_nearest_even _ _). assert (0 < m1) as Hm1.
  { unfold m1, round_nearest_even. repeat case_match; lia. }
  destruct (shr_fexp_pos m1 e1 loc_Exact Hm1 ltac:(lia)) as [H3 _].
  destruct (shr_fexp prec emax m1 e1 loc_Exact) as [r2 e2]. cbn [fst] in *.
  destruct (shr_m r2) as [|p|p]; [lia| |lia]. case_if; [left; eauto|by right].
Qed.

Lemma binary_round_signed s m e : emin prec emax <= e -> signed s (binary_round prec emax s m e).
Proof.
  intros He. unfold binary_round, shl_align.
  destruct (fexp prec emax _ - e) eqn:E; cbn; apply binary_round_aux_signed; try lia. unfold fexp. lia.
Qed.

End format.

(** * The order as an order of integers *)

(** A finite value in units of the least positive one. *)
Definition units (x : f32) : Z :=
  match x with S754_finite s m e => cond_Zopp s (Zpos m * 2 ^ (e + 149)) | _ => 0 end.

Lemma valid_digits s m e : f32_valid (S754_finite s m e) -> -149 <= e /\ Zpos m < 2 ^ 24 /\ (-149 < e -> 2 ^ 23 <= Zpos m).
Proof. intros H. apply f32_valid_finite in H. change (2 ^ 24) with 16777216. change (2 ^ 23) with 8388608. lia. Qed.

Lemma mantissa_order m1 e1 m2 e2 : 0 < m1 -> m1 < 2 ^ 24 -> -149 <= e1 < e2 -> 2 ^ 23 <= m2 -> m1 * 2 ^ (e1 + 149) < m2 * 2 ^ (e2 + 149).
Proof.
  intros H0 H1 He H2. assert (2 ^ (e2 + 149) = 2 ^ (e1 + 149) * 2 ^ (e2 - e1)) as ->.
  { rewrite <- Z.pow_add_r by lia. f_equal. lia. }
  assert (2 ^ 1 <= 2 ^ (e2 - e1)) by (apply Z.pow_le_mono_r; lia). assert (0 < 2 ^ (e1 + 149)) by (apply Z.pow_pos_nonneg; lia).
  change (2 ^ 24) with 16777216 in H1. change (2 ^ 23) with 8388608 in H2. change (2 ^ 1) with 2 in *.
  assert (m1 < m2 * 2 ^ (e2 - e1)) by nia. nia.
Qed.

Lemma units_compare s1 m1 e1 s2 m2 e2 : f32_valid (S754_finite s1 m1 e1) -> f32_valid (S754_finite s2 m2 e2) ->
  SFcompare (S754_finite s1 m1 e1) (S754_finite s2 m2 e2) = Some (Z.compare (units (S754_finite s1 m1 e1)) (units (S754_finite s2 m2 e2))).
Proof.
  intros (H1 & H2 & H3)%valid_digits (H4 & H5 & H6)%valid_digits. cbn [SFcompare units]. f_equal.
  change (Pos.compare_cont Eq m1 m2) with (Pos.compare m1 m2). symmetry.
  assert (0 < 2 ^ (e1 + 149) /\ 0 < 2 ^ (e2 + 149)) as [Hp1 Hp2] by (split; apply Z.pow_pos_nonneg; lia).
  destruct s1, s2; cbn [cond_Zopp]; [|apply Z.compare_lt_iff; nia|apply Z.compare_gt_iff; nia|].
  - rewrite Z.compare_opp. destruct (Z.compare_spec e1 e2) as [->|E|E].
    + destruct (Pos.compare_spec m1 m2) as [->|E|E]; cbn [CompOpp]; [apply Z.compare_refl|apply Z.compare_gt_iff; nia|apply Z.compare_lt_iff; nia].
    + apply Z.compare_gt_iff. apply mantissa_order; lia.
    + apply Z.compare_lt_iff. apply mantissa_order; lia.
  - destruct (Z.compare_spec e1 e2) as [->|E|E].
    + destruct (Pos.compare_spec m1 m2) as [->|E|E]; [apply Z.compare_refl|apply Z.compare_lt_iff; nia|apply Z.compare_gt_iff; nia].
    + apply Z.compare_lt_iff. apply mantissa_order; lia.
    + apply Z.compare_gt_iff. apply mantissa_order; lia.
Qed.

Lemma units_finite_sign (s : bool) m e : -149 <= e -> if s then units (S754_finite s m e) < 0 else 0 < units (S754_finite s m e).
Proof. intros He. assert (0 < 2 ^ (e + 149)) by (apply Z.pow_pos_nonneg; lia). destruct s; cbn; nia. Qed.

Lemma f_ltb_units x y : f32_valid x -> f32_valid y -> finite x -> finite y -> f_ltb x y = (units x <? units y).
Proof.
  intros Hx Hy Fx Fy. unfold f_ltb, SFltb. destruct x as [sx| | |sx mx ex], y as [sy| | |sy my ey]; try done.
  - apply valid_digits in Hy as (Hy & _). pose proof (units_finite_sign sy my ey Hy) as H. cbn [SFcompare].
    change (units (S754_zero sx)) with 0. destruct sy; symmetry; [apply Z.ltb_ge|apply Z.ltb_lt]; lia.
  - apply valid_digits in Hx as (Hx & _). pose proof (units_finite_sign sx mx ex Hx) as H. cbn [SFcompare].
    change (units (S754_zero sy)) with 0. destruct sx; symmetry; [apply Z.ltb_lt|apply Z.ltb_ge]; lia.
  - rewrite units_compare by done. unfold Z.ltb. by destruct (Z.compare _ _).
Qed.

Lemma signed_sign s x : signed s x -> f_ltb x (S754_zero false) = s.
Proof. by intros [(m & e & ->)| ->]; destruct s. Qed.

Lemma binary_normalize_sign m e : -149 <= e -> f_ltb (binary_normalize 24 128 m e false) (S754_zero false) = (m <? 0).
Proof.
  intros He. destruct m as [|m|m]; cbn [binary_normalize]; [done| |].
  - rewrite (signed_sign false); [done|]. apply binary_round_signed; unfold emin; lia.
  - rewrite (signed_sign true); [done|]. apply binary_round_signed; unfold emin; lia.
Qed.

Lemma pos_iter_xO d : forall m, Zpos (Pos.iter xO m d) = Zpos m * 2 ^ Zpos d.
Proof.
  induction d as [|d IH] using Pos.peano_ind; intros m; [cbn; lia|].
  rewrite Pos.iter_succ, Pos2Z.inj_succ, Z.pow_succ_r, Pos2Z.inj_xO, IH by lia. lia.
Qed.

Lemma align_units m e ez : ez <= e -> Zpos (fst (shl_align m e ez)) = Zpos m * 2 ^ (e - ez).
Proof.
  intros H. unfold shl_align. destruct (ez - e) as [|p|p] eqn:E; cbn [fst]; [|lia|].
  - replace (e - ez) with 0 by lia. lia.
  - rewrite pos_iter_xO. do 2 f_equal. lia.
Qed.

(** The sign of a difference is the order. *)
Lemma f32_sub_sign x y : f32_valid x -> f32_valid y -> finite x -> finite y ->
  f_ltb (f32_sub x y) (S754_zero false) = f_ltb x y.
Proof.
  intros Hx Hy Fx Fy. rewrite (f_ltb_units x y) by done. unfold f32_sub.
  destruct x as [sx| | |sx mx ex], y as [sy| | |sy my ey]; try done.
  - by destruct sx, sy.
  - apply valid_digits in Hy as (Hy & _). pose proof (units_finite_sign sy my ey Hy) as H. cbn [SFsub].
    change (units (S754_zero sx)) with 0. destruct sy; cbn; symmetry; [apply Z.ltb_ge|apply Z.ltb_lt]; cbn in H; lia.
  - apply valid_digits in Hx as (Hx & _). pose proof (units_finite_sign sx mx ex Hx) as H. cbn [SFsub].
    change (units (S754_zero sy)) with 0. destruct sx; cbn; symmetry; [apply Z.ltb_lt|apply Z.ltb_ge]; cbn in H; lia.
  - apply valid_digits in Hx as (Hx & _). apply valid_digits in Hy as (Hy & _). cbn [SFsub].
    rewrite binary_normalize_sign, !align_units by lia. cbn [units].
    set (ez := Z.min ex ey). assert (0 < 2 ^ (ez + 149)) by (apply Z.pow_pos_nonneg; lia).
    assert (2 ^ (ex + 149) = 2 ^ (ex - ez) * 2 ^ (ez + 149)) as -> by (rewrite <- Z.pow_add_r by lia; f_equal; lia).
    assert (2 ^ (ey + 149) = 2 ^ (ey - ez) * 2 ^ (ez + 149)) as -> by (rewrite <- Z.pow_add_r by lia; f_equal; lia).
    apply eq_bool_prop_intro. rewrite !Is_true_true, !Z.ltb_lt. destruct sx, sy; cbn [cond_Zopp]; nia.
Qed.

Lemma f_0_zero : f32_of_Z 0 = S754_zero false.
Proof. done. Qed.
