(* ===== verification/DecText.v ===== *)
(** Numbers as texts: [atof], [atoi], and what [printf] writes for [%f] and [%i].

    [atof] gives the double nearest to the decimal (or hexadecimal) number at the start of a text,
    as the C library does; the code stores it in a [float].  [%f] writes six decimals, so a float
    is read back unchanged exactly when six decimals are enough for it. *)

From Stdlib Require Import SpecFloat.
From S2P Require Import Prelude CFloat FloatOrder CharConv.
From S2P Require Cvar.

(** * Reading *)

Definition is_space (c : Z) : bool := (c =? 32) || ((9 <=? c) && (c <=? 13)).
Fixpoint skip_spaces (s : bytes) : bytes :=
  match s with c :: s' => if is_space c then skip_spaces s' else s | [] => [] end.

(** A sign, and what comes after it. *)
Definition take_sign (s : bytes) : bool * bytes :=
  match s with c :: s' => if c =? 45 then (true, s') else if c =? 43 then (false, s') else (false, s) | [] => (false, s) end.

Definition hex_value (c : Z) : option Z :=
  if is_digit c then Some (c - 48)
  else let c := lower c in if (97 <=? c) && (c <=? 102) then Some (c - 87) else None.

(** The value of leading hexadecimal digits, how many there are, and what follows. *)
Fixpoint take_hex (v n : Z) (s : bytes) : Z * Z * bytes :=
  match s with
  | c :: s' => match hex_value c with Some d => take_hex (v * 16 + d) (n + 1) s' | None => (v, n, s) end
  | [] => (v, n, s)
  end.

(** An exponent after [mark], or 0 when there is none. *)
Definition c_exponent (mark : Z) (s : bytes) : Z :=
  match s with
  | c :: s =>
      if lower c =? mark then
        let '(neg, s) := take_sign s in
        let '(ds, _) := take_digits s in
        if neg : bool then - undec ds else undec ds
      else 0
  | [] => 0
  end.

(** The double nearest to [d * 10 ^ x], and to [d * 2 ^ x]. *)
Definition dec_f64 (s : bool) (d : positive) (x : Z) : f64 :=
  if 0 <=? x then binary_round 53 1024 s (Z.to_pos (Zpos d * 10 ^ x)) 0
  else let '(m, e, l) := SFdiv_core_binary 53 1024 (Zpos d) 0 (10 ^ (- x)) 0 in binary_round_aux 53 1024 s m e l.

Definition atof (str : bytes) : f64 :=
  let '(neg, s) := take_sign (skip_spaces str) in
  let word := lower <$> take 3 s in
  if bool_decide (word = cs "inf") then S754_infinity neg
  else if bool_decide (word = cs "nan") then S754_nan
  else
    let '(hv, hn, hr) := take_hex 0 0 (drop 2 s) in
    let '(hp, hr) := accept 46 hr in
    let '(hv, hn', hr) := if hp : bool then take_hex hv 0 hr else (hv, 0, hr) in
    if bool_decide (lower <$> take 2 s = cs "0x") && (0 <? hn + hn') then
      match hv with Zpos m => binary_round 53 1024 neg m (c_exponent 112 hr - 4 * hn') | _ => S754_zero neg end
    else
      let '(ip, r) := take_digits s in
      let '(point, r) := accept 46 r in
      let '(fp, r) := if point : bool then take_digits r else ([], r) in
      if bool_decide (ip ++ fp = []) then S754_zero false
      else match undec (ip ++ fp) with
           | Zpos d => dec_f64 neg d (c_exponent 101 r - zlen fp)
           | _ => S754_zero neg
           end.

(** [( float)atof(s)] *)
Definition atof_f32 (s : bytes) : f32 := f32_of_f64 (atof s).

(** Of a number outside [int] the C library returns the nearest one. *)
Definition atoi (str : bytes) : Z :=
  let '(neg, s) := take_sign (skip_spaces str) in
  let v := undec (take_digits s).1 in
  Z.max INT_MIN (Z.min INT_MAX (if neg : bool then - v else v)).

Definition print_i (z : Z) : bytes := (if z <? 0 then [45] else []) ++ dec (Z.abs z).

Example atof_texts : (atof <$> [cs "1.5"; cs " -0.25x"; cs "3e2"; cs "x"; cs "0x1p4"; cs "-0"]) =
  [f64_of_f32 (f32_of_bits 1069547520); f64_of_f32 (f32_of_bits 3196059648); f64_of_Z 300; f64_of_Z 0; f64_of_Z 16; S754_zero true].
Proof. by_vm. Qed.
Example atoi_texts : (atoi <$> [cs "12"; cs "-7 "; cs ""; cs "99999999999"]) = [12; -7; 0; 2147483647].
Proof. by_vm. Qed.

(** * Rounding an exact value *)

Lemma shr_1_double m : shr_1 (Build_shr_record (Zpos m~0) false false) = Build_shr_record (Zpos m) false false.
Proof. done. Qed.

Lemma shr_exact n m : Nat.iter n shr_1 (Build_shr_record (Zpos m * 2 ^ Z.of_nat n) false false) = Build_shr_record (Zpos m) false false.
Proof.
  revert m. induction n as [|n IH]; intros m; [change (2 ^ Z.of_nat 0) with 1; by rewrite Z.mul_1_r|].
  rewrite Nat.iter_succ_r. rewrite Nat2Z.inj_succ, Z.pow_succ_r by lia.
  assert (0 < 2 ^ Z.of_nat n) by (apply Z.pow_pos_nonneg; lia).
  destruct (Zpos m * 2 ^ Z.of_nat n) as [|k|k] eqn:E; [lia| |lia].
  replace (Zpos m * (2 * 2 ^ Z.of_nat n)) with (Zpos k~0) by lia. rewrite shr_1_double, <- E. apply IH.
Qed.

Section exact.
Variable prec emax : Z.

Lemma digits_shift m n : 0 <= n -> Zdigits2 (Zpos m * 2 ^ n) = Zdigits2 (Zpos m) + n.
Proof.
  intros Hn. assert (0 < 2 ^ n) by (apply Z.pow_pos_nonneg; lia).
  pose proof (Zdigits_bounds (Zpos m) ltac:(lia)) as [H1 H2]. pose proof (Zdigits_pos (Zpos m) ltac:(lia)) as H3.
  pose proof (Zdigits_bounds (Zpos m * 2 ^ n) ltac:(lia)) as [H4 H5]. pose proof (Zdigits_pos (Zpos m * 2 ^ n) ltac:(lia)) as H6.
  assert (2 ^ (Zdigits2 (Zpos m) - 1 + n) <= Zpos m * 2 ^ n < 2 ^ (Zdigits2 (Zpos m) + n)) as [H7 H8] by (rewrite !Z.pow_add_r by lia; nia).
  set (a := Zdigits2 (Zpos m * 2 ^ n)) in *. set (b := Zdigits2 (Zpos m)) in *.
  assert (a - 1 < b + n) by (apply (Z.pow_lt_mono_r_iff 2); [lia|lia|eapply Z.le_lt_trans; eassumption]).
  assert (b - 1 + n < a) by (apply (Z.pow_lt_mono_r_iff 2); [lia|lia|eapply Z.le_lt_trans; eassumption]). lia.
Qed.

(** A value the format has is rounded to itself. *)
Lemma round_aux_exact s m e M E : bounded prec emax m e = true -> E <= e -> M = Zpos m * 2 ^ (e - E) ->
  binary_round_aux prec emax s M E loc_Exact = S754_finite s m e.
Proof.
  intros Hb HE ->. unfold bounded, canonical_mantissa in Hb. bool_props.
  assert (shr_fexp prec emax (Zpos m * 2 ^ (e - E)) E loc_Exact = (Build_shr_record (Zpos m) false false, e)) as H1.
  { unfold shr_fexp. rewrite digits_shift by lia. cbn [Zdigits2]. replace (Zpos (digits2_pos m) + (e - E) + E) with (Zpos (digits2_pos m) + e) by lia.
    rewrite H. cbn [shr_record_of_loc]. destruct (e - E) as [|n|n] eqn:En; cbn [shr]; [f_equal; [f_equal; cbn; lia|lia]| |lia].
    rewrite iter_pos_spec. f_equal; [|lia]. rewrite <- (positive_nat_Z n). apply shr_exact. }
  assert (shr_fexp prec emax (Zpos m) e loc_Exact = (Build_shr_record (Zpos m) false false, e)) as H2.
  { unfold shr_fexp. cbn [Zdigits2]. rewrite H, Z.sub_diag. done. }
  unfold binary_round_aux. rewrite H1. cbn [shr_m loc_of_shr_record round_nearest_even]. rewrite H2. cbn [shr_m].
  by assert (e <=? emax - prec = true) as -> by lia.
Qed.

Lemma round_exact s m e m' e' : bounded prec emax m e = true -> e' <= e -> Zpos m' = Zpos m * 2 ^ (e - e') ->
  binary_round prec emax s m' e' = S754_finite s m e.
Proof.
  intros Hb He Hm. unfold binary_round. assert (fexp prec emax (Zpos (digits2_pos m') + e') = e) as Hf.
  { change (Zpos (digits2_pos m')) with (Zdigits2 (Zpos m')). rewrite Hm, digits_shift by lia. unfold bounded, canonical_mantissa in Hb. bool_props.
    cbn [Zdigits2]. rewrite <- H at 2. f_equal. lia. }
  rewrite Hf. unfold shl_align. destruct (e - e') as [|n|n] eqn:En; [| |lia]; rewrite <- En in Hm; by apply round_aux_exact.
Qed.
End exact.

(** * [%f] and [atof] *)

Lemma digits_dec_loop fuel : forall n acc, Cvar.digits fuel n acc = dec_loop fuel n acc.
Proof. induction fuel as [|fuel IH]; intros n acc; [done|]. cbn. case_if; [done|apply IH]. Qed.

(** Six decimals are enough for the float. *)
Definition six_decimals (x : f32) : bool :=
  match x with
  | S754_zero _ => true
  | S754_finite _ m e => (0 <=? e) || ((Zpos m * 1000000) `mod` 2 ^ (- e) =? 0)
  | _ => false
  end.

(** The number of millionths of a float with six decimals. *)
Definition millionths (m : positive) (e : Z) : Z := if 0 <=? e then Zpos m * 2 ^ e * 1000000 else Zpos m * 1000000 / 2 ^ (- e).

Lemma millionths_exact s m e : six_decimals (S754_finite s m e) = true ->
  0 < millionths m e /\ millionths m e * 2 ^ Z.max (- e) 0 = Zpos m * 1000000 * 2 ^ Z.max e 0.
Proof.
  unfold millionths. cbn [six_decimals]. intros H. destruct (0 <=? e) eqn:E; bool_props; cbn [orb] in H.
  - rewrite Z.max_r, Z.max_l by lia. assert (0 < 2 ^ e) by (apply Z.pow_pos_nonneg; lia). nia.
  - bool_props. rewrite Z.max_l, Z.max_r by lia. assert (0 < 2 ^ (- e)) by (apply Z.pow_pos_nonneg; lia).
    pose proof (Z.div_mod (Zpos m * 1000000) (2 ^ (- e)) ltac:(lia)) as Hd. rewrite H in Hd.
    change (2 ^ 0) with 1. set (q := Zpos m * 1000000 / 2 ^ (- e)) in *. nia.
Qed.

(** The quotient is exact, in a position that keeps all digits of the float. *)
Lemma div_exact s m e : f32_valid (S754_finite s m e) -> six_decimals (S754_finite s m e) = true -> exists E,
  SFdiv_core_binary 53 1024 (millionths m e) 0 1000000 0 = (Zpos m * 2 ^ (e - E), E, loc_Exact) /\ E <= e /\ E <= e - 53 + Zdigits2 (Zpos m).
Proof.
  intros Hv H6. pose proof (f32_valid_finite _ _ _ Hv) as (Hm & He & _). destruct (millionths_exact s m e H6) as [Hn0 Hn].
  set (n := millionths m e) in *. unfold SFdiv_core_binary. set (d1 := Zdigits2 n). change (Zdigits2 1000000) with 20.
  set (E := Z.min (fexp 53 1024 (d1 + 0 - (20 + 0))) (0 - 0)).
  pose proof (Zdigits_bounds n Hn0) as [Hd1 _]. fold d1 in Hd1. pose proof (Zdigits_pos n Hn0) as Hd1p. fold d1 in Hd1p.
  pose proof (Zdigits_bounds (Zpos m) ltac:(lia)) as [_ Hdm]. set (dm := Zdigits2 (Zpos m)) in *.
  pose proof (Zdigits_pos (Zpos m) ltac:(lia)) as Hdmp. fold dm in Hdmp.
  assert (d1 - 1 + Z.max (- e) 0 < dm + 20 + Z.max e 0) as Hdig.
  { apply (Z.pow_lt_mono_r_iff 2); [lia|lia|]. rewrite !Z.pow_add_r by lia. change (2 ^ 20) with 1048576.
    assert (0 < 2 ^ Z.max (- e) 0 /\ 0 < 2 ^ Z.max e 0) as [? ?] by (split; apply Z.pow_pos_nonneg; lia).
    eapply Z.le_lt_trans; [apply Z.mul_le_mono_nonneg_r; [lia|exact Hd1]|]. rewrite Hn.
    apply Z.mul_lt_mono_pos_r; [lia|]. nia. }
  assert (E <= d1 - 73 \/ E = -1074) as HE1 by (unfold E, fexp, emin; lia). assert (E <= 0) as HE0 by (unfold E; lia).
  assert (1 <= dm <= 24) as Hdm24.
  { split; [done|]. pose proof (Zdigits_bounds (Zpos m) ltac:(lia)) as [Hlo _]. fold dm in Hlo.
    assert (dm - 1 < 24); [|lia]. apply (Z.pow_lt_mono_r_iff 2); [lia|lia|]. change (2 ^ 24) with 16777216. lia. }
  assert (E <= e /\ E <= e - 53 + dm) as [HEe HEd] by lia.
  exists E. split; [|done].
  assert ((match 0 - 0 - E with Zpos _ => Z.shiftl n (0 - 0 - E) | Z0 => n | Zneg _ => 0 end) = n * 2 ^ (- E)) as ->.
  { destruct (0 - 0 - E) as [|k|k] eqn:Ek; [replace (- E) with 0 by lia; lia| |lia]. rewrite Z.shiftl_mul_pow2 by lia. do 2 f_equal. lia. }
  assert (n * 2 ^ (- E) = Zpos m * 2 ^ (e - E) * 1000000) as ->.
  { assert (0 < 2 ^ Z.max (- e) 0) by (apply Z.pow_pos_nonneg; lia).
    apply (Z.mul_reg_r _ _ (2 ^ Z.max (- e) 0)); [lia|]. transitivity (n * 2 ^ Z.max (- e) 0 * 2 ^ (- E)); [ring|]. rewrite Hn.
    transitivity (Zpos m * 1000000 * (2 ^ Z.max e 0 * 2 ^ (- E))); [ring|]. transitivity (Zpos m * 1000000 * (2 ^ (e - E) * 2 ^ Z.max (- e) 0)); [|ring].
    rewrite <- !Z.pow_add_r by lia. do 2 f_equal. lia. }
  pose proof (Z_div_mult_full (Zpos m * 2 ^ (e - E)) 1000000 ltac:(lia)) as Hq.
  pose proof (Z_mod_mult (Zpos m * 2 ^ (e - E)) 1000000) as Hr. unfold Z.div in Hq. unfold Z.modulo in Hr.
  destruct (Z.div_eucl _ _) as [q r]. by subst q r.
Qed.

(** The double that is read for the millionths of a float narrows to that float. *)
Lemma dec_f64_exact s m e : f32_valid (S754_finite s m e) -> six_decimals (S754_finite s m e) = true ->
  f32_of_f64 (dec_f64 s (Z.to_pos (millionths m e)) (-6)) = S754_finite s m e.
Proof.
  intros Hv H6. destruct (millionths_exact s m e H6) as [Hn _]. unfold dec_f64. cbn [Z.leb Z.compare].
  change (10 ^ (- -6)) with 1000000. rewrite Z2Pos.id by done. destruct (div_exact s m e Hv H6) as (E & -> & HEe & HEd).
  pose proof (f32_valid_finite _ _ _ Hv) as (Hm & He & _). set (dm := Zdigits2 (Zpos m)) in *.
  pose proof (Zdigits_bounds (Zpos m) ltac:(lia)) as [Hlo _]. fold dm in Hlo. pose proof (Zdigits_pos (Zpos m) ltac:(lia)) as Hdmp. fold dm in Hdmp.
  assert (dm <= 24) as Hdm.
  { assert (dm - 1 < 24); [|lia]. apply (Z.pow_lt_mono_r_iff 2); [lia|lia|]. change (2 ^ 24) with 16777216. lia. }
  set (k := 53 - dm). set (m2 := Z.to_pos (Zpos m * 2 ^ k)).
  assert (0 < 2 ^ k) by (apply Z.pow_pos_nonneg; lia). assert (Zpos m2 = Zpos m * 2 ^ k) as Em2 by (unfold m2; rewrite Z2Pos.id by lia; done).
  assert (Zpos (digits2_pos m2) = 53) as Ed2.
  { change (Zpos (digits2_pos m2)) with (Zdigits2 (Zpos m2)). rewrite Em2, digits_shift by lia. fold dm. lia. }
  rewrite (round_aux_exact 53 1024 s m2 (e - k)).
  - unfold f32_of_f64, f_convert. apply round_exact; [exact Hv|lia|]. rewrite Em2. do 2 f_equal. lia.
  - unfold bounded, canonical_mantissa, fexp, emin. rewrite Ed2. apply andb_true_iff. split; [apply Z.eqb_eq|apply Z.leb_le]; lia.
  - lia.
  - rewrite Em2, <- Z.mul_assoc, <- Z.pow_add_r by lia. do 2 f_equal. lia.
Qed.

(** ** The text *)

Lemma dec_loop_len fuel : forall n acc k, n < 10 ^ Z.of_nat k -> (0 < k)%nat -> (length (dec_loop fuel n acc) <= k + length acc)%nat.
Proof.
  induction fuel as [|fuel IH]; intros n acc k Hn Hk; cbn [dec_loop]; [lia|]. case_if; [cbn [length]; lia|].
  destruct k as [|k]; [lia|]. rewrite Nat2Z.inj_succ, Z.pow_succ_r in Hn by lia.
  destruct k as [|k]; [change (10 ^ Z.of_nat 0) with 1 in Hn; lia|].
  eapply Nat.le_trans; [apply (IH _ _ (S k)); [apply Z.div_lt_upper_bound; lia|lia]|cbn [length]; lia].
Qed.

(** The digits that [%f] and [%i] write. *)
Lemma digits_60 n k : 0 <= n < 10 ^ Z.of_nat k -> (0 < k <= 60)%nat -> exists ds, Cvar.digits 60 n [] = ds /\
  all_digits ds /\ undec ds = n /\ ds <> [] /\ (length ds <= k)%nat.
Proof.
  intros [H0 Hk] Hk60. rewrite digits_dec_loop. destruct (dec_loop_spec 60 n [] H0) as (ds & E & H1 & H2 & H3).
  - eapply Z.lt_le_trans; [exact Hk|]. apply Z.pow_le_mono_r; lia.
  - lia.
  - rewrite app_nil_r in E. exists ds. split; [done|]. split; [done|]. split; [done|]. split; [done|].
    rewrite <- E. pose proof (dec_loop_len 60 n [] k Hk ltac:(lia)) as Hl. cbn [length] in Hl. lia.
Qed.

Lemma undec_zeros_app k ds : undec (repeat 48 k ++ ds) = undec ds.
Proof.
  rewrite undec_app. assert (undec (repeat 48 k) = 0) as ->; [|lia]. induction k as [|k IH]; [done|].
  change (repeat 48 (S k)) with ([48] ++ repeat 48 k). by rewrite undec_app, IH.
Qed.

Lemma all_digits_repeat k : all_digits (repeat 48 k).
Proof. induction k; by constructor. Qed.

Lemma print_f_text s m e : f32_valid (S754_finite s m e) -> six_decimals (S754_finite s m e) = true -> exists ip fp,
  Cvar.print_f (S754_finite s m e) = sign_text s ++ ip ++ 46 :: fp /\ all_digits ip /\ all_digits fp /\ ip <> [] /\ length fp = 6%nat /\
  (length ip <= 39)%nat /\ undec (ip ++ fp) = millionths m e.
Proof.
  intros Hv H6. pose proof (f32_valid_finite _ _ _ Hv) as (Hm & He & _). destruct (millionths_exact s m e H6) as [Hn0 Hn].
  unfold Cvar.print_f. assert ((if 0 <=? e then Zpos m * 2 ^ e * 1000000 else Cvar.round_div (Zpos m * 1000000) (2 ^ (- e))) = millionths m e) as ->.
  { unfold millionths. cbn [six_decimals] in H6. destruct (0 <=? e) eqn:E; [done|]. cbn [orb] in H6. bool_props. unfold Cvar.round_div. rewrite H6.
    assert (0 < 2 ^ (- e)) by (apply Z.pow_pos_nonneg; lia). cbn [Z.mul]. do 2 (case_if; [exfalso|done]; revert E0; rewrite ?orb_true_iff, ?andb_true_iff; lia). }
  set (n := millionths m e) in *.
  destruct (digits_60 (n / 1000000) 39) as (ip & Ei & Hi1 & Hi2 & Hi3 & Hi4); [|lia|].
  { split; [apply Z.div_pos; lia|]. apply Z.div_lt_upper_bound; [lia|].
    assert (n <= Zpos m * 1000000 * 2 ^ Z.max e 0).
    { rewrite <- Hn. assert (1 <= 2 ^ Z.max (- e) 0) by (apply (Z.pow_le_mono_r 2 0); lia). nia. }
    assert (2 ^ Z.max e 0 <= 2 ^ 104) by (apply Z.pow_le_mono_r; lia).
    eapply Z.le_lt_trans; [exact H|]. eapply Z.le_lt_trans; [apply Z.mul_le_mono_nonneg; [lia| |apply Z.pow_nonneg; lia|exact H0]|].
    - instantiate (1 := 16777216 * 1000000). lia.
    - by_vm. }
  destruct (digits_60 (n `mod` 1000000) 6) as (fd & Ef & Hf1 & Hf2 & Hf3 & Hf4); [|lia|].
  { pose proof (Z.mod_pos_bound n 1000000 ltac:(lia)). change (10 ^ Z.of_nat 6) with 1000000. lia. }
  rewrite Ei, Ef. exists ip, (repeat 48 (6 - length fd) ++ fd). split; [done|]. split; [done|].
  split; [apply Forall_app; split; [apply all_digits_repeat|done]|]. split; [done|].
  assert (length (repeat 48 (6 - length fd) ++ fd) = 6%nat) as Hl by (rewrite length_app, repeat_length; lia).
  split; [done|]. split; [done|]. rewrite undec_app, undec_zeros_app, Hi2, Hf2, Hl. change (10 ^ Z.of_nat 6) with 1000000.
  pose proof (Z.div_mod n 1000000 ltac:(lia)). lia.
Qed.

(** A float that six decimals are enough for is read back from what [%f] writes. *)
Lemma print_f_read x : f32_valid x -> six_decimals x = true -> atof_f32 (Cvar.print_f x) = x.
Proof.
  intros Hv H6. destruct x as [[]| | |s m e]; [by_vm|by_vm|done|done|].
  destruct (print_f_text s m e Hv H6) as (ip & fp & -> & Hi & Hf & Hne & Hl & _ & Hu). unfold atof_f32, atof.
  assert (exists c ip', ip = c :: ip' /\ is_digit c = true) as (c & ip' & -> & Hc) by (destruct Hi; [done|eauto]).
  assert (take_sign (skip_spaces (sign_text s ++ (c :: ip') ++ 46 :: fp)) = (s, (c :: ip') ++ 46 :: fp)) as ->.
  { unfold is_digit in Hc. bool_props. destruct s; [done|]. cbn [sign_text app skip_spaces]. unfold is_space.
    assert ((c =? 32) || ((9 <=? c) && (c <=? 13)) = false) as -> by (apply orb_false_iff; split; [lia|apply andb_false_iff; lia]).
    cbn [take_sign]. assert (c =? 45 = false) as -> by lia. by assert (c =? 43 = false) as -> by lia. }
  do 2 (rewrite bool_decide_eq_false_2 by (apply no_word; [done|done|by_vm])).
  assert (bool_decide (lower <$> take 2 ((c :: ip') ++ 46 :: fp) = cs "0x") = false) as ->.
  { apply bool_decide_eq_false_2. change (cs "0x") with [48; 120]. destruct Hi as [|? ? _ Hi']; [done|]. cbn. destruct Hi' as [|c2 ip2 Hc2 _]; cbn; [done|].
    intros E. injection E as _ E. unfold is_digit in Hc2. unfold lower in E. bool_props. case_if_in E; bool_props; lia. }
  destruct (take_hex 0 0 _) as [[hv hn] hr]. destruct (accept 46 hr) as [hp hr']. destruct (if hp then _ else _) as [[hv' hn'] hr'']. cbn [andb].
  rewrite take_digits_app by done. cbn [accept]. rewrite Z.eqb_refl, take_digits_all by done.
  rewrite bool_decide_eq_false_2 by done. rewrite Hu. destruct (millionths_exact s m e H6) as [Hn _].
  pose proof (dec_f64_exact s m e Hv H6) as Hd. destruct (millionths m e) as [|d|d]; [lia| |lia]. rewrite Hl.
  exact Hd.
Qed.

(** ** Integers *)

Lemma print_i_read z : is_int z -> atoi (print_i z) = z.
Proof.
  intros Hz. unfold print_i, atoi. destruct (dec_spec (Z.abs z) ltac:(lia)) as (H1 & H2 & H3). revert H1 H2 H3. generalize (dec (Z.abs z)).
  intros [|c ds'] H1 H2 H3; [done|]. inversion H1 as [|? ? Hc H1']; subst.
  assert (take_sign (skip_spaces ((if z <? 0 then [45] else []) ++ c :: ds')) = (z <? 0, c :: ds')) as ->.
  { unfold is_digit in Hc. bool_props. destruct (z <? 0); [done|]. cbn [app skip_spaces]. unfold is_space.
    assert ((c =? 32) || ((9 <=? c) && (c <=? 13)) = false) as -> by (apply orb_false_iff; split; [lia|apply andb_false_iff; lia]).
    cbn [take_sign]. assert (c =? 45 = false) as -> by lia. by assert (c =? 43 = false) as -> by lia. }
  rewrite take_digits_all by done. cbn [fst]. rewrite H2. unfold is_int, INT_MIN, INT_MAX in *. destruct (z <? 0) eqn:Es; bool_props; lia.
Qed.

(** * Floats of bit patterns *)

Lemma word_fields w : 0 <= w < 4294967296 -> exists s ex mant, w = sign_bit s + ex * 8388608 + mant /\ 0 <= ex < 256 /\ 0 <= mant < 8388608.
Proof.
  intros Hw. exists (2147483648 <=? w), ((w / 8388608) `mod` 256), (w `mod` 8388608).
  pose proof (Z.div_mod w 8388608 ltac:(lia)). pose proof (Z.mod_pos_bound w 8388608 ltac:(lia)). pose proof (Z.mod_pos_bound (w / 8388608) 256 ltac:(lia)).
  split; [|done]. pose proof (Z.div_mod (w / 8388608) 256 ltac:(lia)) as Hd. rewrite Z.div_div in Hd by lia. change (8388608 * 256) with 2147483648 in Hd.
  destruct (2147483648 <=? w) eqn:E; bool_props; cbn [sign_bit].
  - assert (w / 2147483648 = 1) as E1 by (symmetry; apply (Z.div_unique w 2147483648 1 (w - 2147483648)); lia). lia.
  - rewrite (Z.div_small w 2147483648) in Hd by lia. lia.
Qed.

Lemma digits2_small m : Zpos m < 8388608 -> Zpos (digits2_pos m) <= 23.
Proof.
  intros Hm. pose proof (digits2_bounds m) as [Hlo _]. set (d := Zpos (digits2_pos m)) in *.
  assert (d - 1 < 23); [|lia]. apply (Z.pow_lt_mono_r_iff 2); [lia|lia|]. change (2 ^ 23) with 8388608. lia.
Qed.
Lemma digits2_normal m : 8388608 <= Zpos m < 16777216 -> Zpos (digits2_pos m) = 24.
Proof.
  intros [H1 H2]. pose proof (digits2_bounds m) as [Hlo Hhi]. set (d := Zpos (digits2_pos m)) in *.
  assert (d - 1 < 24) by (apply (Z.pow_lt_mono_r_iff 2); [lia|lia|]; change (2 ^ 24) with 16777216; lia).
  assert (23 < d) by (apply (Z.pow_lt_mono_r_iff 2); [lia|lia|]; change (2 ^ 23) with 8388608; lia). lia.
Qed.

(** Every 32-bit pattern is a float of the format, and is the pattern of that float unless it is
    not a number. *)
Lemma f32_of_bits_spec w : 0 <= w < 4294967296 -> f32_valid (f32_of_bits w) /\ (not_nan (f32_of_bits w) -> bits_of_f32 (f32_of_bits w) = w).
Proof.
  intros Hw. destruct (word_fields w Hw) as (s & ex & mant & E & Hex & Hm). destruct (f32_fields s ex mant Hex Hm) as (H1 & H2 & H3).
  rewrite <- E in H1, H2, H3. unfold f32_of_bits. rewrite H1, H2, H3. case_if.
  - destruct mant as [|m|m]; [split; [done|]; intros _; cbn; lia| |lia]. split.
    + unfold f32_valid, valid_binary, bounded, canonical_mantissa, fexp, emin. pose proof (digits2_small m ltac:(lia)).
      apply andb_true_iff. split; [apply Z.eqb_eq|apply Z.leb_le]; lia.
    + intros _. cbn [bits_of_f32]. case_if; lia.
  - case_if; [case_if; (split; [done|]); [intros _; cbn; lia|intros Hn; by destruct Hn]|].
    destruct (mant + 8388608) as [|m|m] eqn:Em; [lia| |lia]. split.
    + unfold f32_valid, valid_binary, bounded, canonical_mantissa, fexp, emin. pose proof (digits2_normal m ltac:(lia)) as Hd. rewrite Hd.
      apply andb_true_iff. split; [apply Z.eqb_eq|apply Z.leb_le]; lia.
    + intros _. cbn [bits_of_f32]. case_if; [lia|]. rewrite <- Em. lia.
Qed.
