(* ===== verification/World.v ===== *)
(** World queries (Source/world.c, the links of common.c).

    The area tree divides the world along two axes; every node has a list of triggers and a list
    of solid entities, circular lists with a sentinel (Ring.v).  An entity is a number, its offset
    from [sv.edicts]; the fields of [edict_t] these functions use are a record.  The address of
    the link of entity [e] is [e + 4], the place of [area] in [edict_t]; the sentinels of node [i]
    are at negative addresses.  The clipping hulls of models and the nodes of the world model are
    data; the touch functions of the game program ([PR_ExecuteProgram]) are a parameter. *)

From Stdlib Require Import SpecFloat.
From S2P Require Import Prelude CFloat FloatOrder SizeBuf Ring SvMessage.

Definition vget (v : vec3) (axis : Z) : f32 := if axis =? 0 then vx v else if axis =? 1 then vy v else vz v.
Definition vset (v : vec3) (axis : Z) (x : f32) : vec3 :=
  if axis =? 0 then Vec x (vy v) (vz v) else if axis =? 1 then Vec (vx v) x (vz v) else Vec (vx v) (vy v) x.
Definition vec_sub (a b : vec3) : vec3 := Vec (f32_sub (vx a) (vx b)) (f32_sub (vy a) (vy b)) (f32_sub (vz a) (vz b)).

(** * Links *)

(** C: Source/common.h:75-78 link_s *)
Record link : Type := Link { l_prev : Z; l_next : Z }.

Definition link_at (m : gmap Z link) (l : Z) : res link := of_option (Undefined "no link here") (m !! l).
Definition upd_link (l : Z) (f : link -> link) (m : gmap Z link) : res (gmap Z link) :=
  n ← link_at m l; mret (<[l := f n]> m).
Definition set_l_prev (p : Z) (n : link) : link := Link p (l_next n).
Definition set_l_next (p : Z) (n : link) : link := Link (l_prev n) p.

(** C: Source/common.c:95-98 ClearLink *)
Definition ClearLink (l : Z) (m : gmap Z link) : gmap Z link := <[l := Link l l]> m.

(** C: Source/common.c:100-104 RemoveLink *)
Definition RemoveLink (l : Z) (m : gmap Z link) : res (gmap Z link) :=
  n ← link_at m l;
  m ← upd_link (l_next n) (set_l_prev (l_prev n)) m;
  n ← link_at m l;
  upd_link (l_prev n) (set_l_next (l_next n)) m.

(** C: Source/common.c:106-112 InsertLinkBefore *)
Definition InsertLinkBefore (l before : Z) (m : gmap Z link) : res (gmap Z link) :=
  m ← upd_link l (set_l_next before) m;
  b ← link_at m before;
  m ← upd_link l (set_l_prev (l_prev b)) m;
  n ← link_at m l;
  m ← upd_link (l_prev n) (set_l_next l) m;
  n ← link_at m l;
  upd_link (l_next n) (set_l_prev l) m.

(** * Entities and area nodes *)

(** The fields of an entity that only the movement code uses (Physics.v); [m_gravity] is the field the
    game program may add.
    C: Source/progdefs.h:87-154 velocity *)
Record motion : Type := Motion {
  m_oldorigin : vec3;
  m_velocity : vec3;
  m_angles : vec3;
  m_avelocity : vec3;
  m_punchangle : vec3;
  m_view_ofs : vec3;
  m_v_angle : vec3;
  m_movedir : vec3;
  m_ltime : f32;
  m_nextthink : f32;
  m_think : Z;
  m_blocked : Z;
  m_groundentity : Z;
  m_enemy : Z;
  m_goalentity : Z;
  m_health : f32;
  m_fixangle : f32;
  m_teleport_time : f32;
  m_waterlevel : f32;
  m_watertype : f32;
  m_ideal_yaw : f32;
  m_yaw_speed : f32;
  m_idealpitch : f32;
  m_button0 : f32;
  m_button2 : f32;
  m_impulse : f32;
  m_gravity : f32
}.

(** The fields of an entity that world.c reads or writes, and those above; the leafs are the first
    [num_leafs] elements of [leafnums]. *)
Record ent : Type := Ent {
  e_free : bool;
  e_leafs : list Z;
  v_origin : vec3;
  v_mins : vec3;
  v_maxs : vec3;
  v_absmin : vec3;
  v_absmax : vec3;
  v_size : vec3;
  v_flags : f32;
  v_modelindex : f32;
  v_solid : f32;
  v_movetype : f32;
  v_touch : Z;
  v_owner : Z;
  e_motion : motion
}.
Definition set_abs (mins maxs : vec3) (e : ent) : ent :=
  Ent (e_free e) (e_leafs e) (v_origin e) (v_mins e) (v_maxs e) mins maxs (v_size e) (v_flags e)
    (v_modelindex e) (v_solid e) (v_movetype e) (v_touch e) (v_owner e) (e_motion e).
Definition set_leafs (l : list Z) (e : ent) : ent :=
  Ent (e_free e) l (v_origin e) (v_mins e) (v_maxs e) (v_absmin e) (v_absmax e) (v_size e) (v_flags e)
    (v_modelindex e) (v_solid e) (v_movetype e) (v_touch e) (v_owner e) (e_motion e).

Definition SOLID_NOT : Z := 0.
Definition SOLID_TRIGGER : Z := 1.
Definition SOLID_BSP : Z := 4.
Definition MOVETYPE_PUSH : Z := 7.
Definition FL_MONSTER : Z := 32.
Definition FL_ITEM : Z := 256.
Definition MAX_ENT_LEAFS : nat := 16.
Definition is_solid (e : ent) (s : Z) : bool := f_eqb (v_solid e) (f32_of_Z s).

(** Children are node numbers, -1 for null; the lists are at [trigger_edicts] and [solid_edicts].
    C: Source/world.c:167-174 areanode_s *)
Record areanode : Type := AreaNode { axis : Z; dist : f32; child0 : Z; child1 : Z }.
Definition trigger_edicts (node : Z) : Z := - (2 * node + 1).
Definition solid_edicts (node : Z) : Z := - (2 * node + 2).
Definition set_axis (a : Z) (d : f32) (n : areanode) : areanode := AreaNode a d (child0 n) (child1 n).
Definition set_child0 (c : Z) (n : areanode) : areanode := AreaNode (axis n) (dist n) c (child1 n).
Definition set_child1 (c : Z) (n : areanode) : areanode := AreaNode (axis n) (dist n) (child0 n) c.

(** C: Source/world.c:176-176 AREA_DEPTH *)
Definition AREA_DEPTH : nat := 4.
(** C: Source/world.c:177-177 AREA_NODES *)
Definition AREA_NODES : Z := 32.

(** The nodes, the links of entities and nodes, the entities, the globals [self], [other], [time]
    and [force_retouch] of the game program, the number of entities in use, and the buffer of the
    sounds of the frame.
    C: Source/world.c:179-180 sv_areanodes *)
Record wst : Type := WS {
  sv_areanodes : list areanode;
  sv_numareanodes : Z;
  links : gmap Z link;
  ents : gmap Z ent;
  self : Z;
  other : Z;
  time : f32;
  force_retouch : f32;
  num_edicts : Z;
  sv_datagram : sizebuf
}.
Definition set_areanodes (v : list areanode) (s : wst) : wst := WS v (sv_numareanodes s) (links s) (ents s) (self s) (other s) (time s) (force_retouch s) (num_edicts s) (sv_datagram s).
Definition set_numareanodes (v : Z) (s : wst) : wst := WS (sv_areanodes s) v (links s) (ents s) (self s) (other s) (time s) (force_retouch s) (num_edicts s) (sv_datagram s).
Definition set_links (v : gmap Z link) (s : wst) : wst := WS (sv_areanodes s) (sv_numareanodes s) v (ents s) (self s) (other s) (time s) (force_retouch s) (num_edicts s) (sv_datagram s).
Definition set_ents (v : gmap Z ent) (s : wst) : wst := WS (sv_areanodes s) (sv_numareanodes s) (links s) v (self s) (other s) (time s) (force_retouch s) (num_edicts s) (sv_datagram s).
Definition set_self_other (a b : Z) (s : wst) : wst := WS (sv_areanodes s) (sv_numareanodes s) (links s) (ents s) a b (time s) (force_retouch s) (num_edicts s) (sv_datagram s).
Definition set_time (v : f32) (s : wst) : wst := WS (sv_areanodes s) (sv_numareanodes s) (links s) (ents s) (self s) (other s) v (force_retouch s) (num_edicts s) (sv_datagram s).

Definition node_at (s : wst) (i : Z) : res areanode :=
  if i <? 0 then Fault (Undefined "outside the area nodes")
  else of_option (Undefined "outside the area nodes") (sv_areanodes s !! Z.to_nat i).
Definition upd_node (i : Z) (f : areanode -> areanode) (s : wst) : res wst :=
  n ← node_at s i; mret (set_areanodes (<[Z.to_nat i := f n]> (sv_areanodes s)) s).
Definition ent_at (s : wst) (e : Z) : res ent := of_option (Undefined "no entity here") (ents s !! e).
Definition upd_ent (e : Z) (f : ent -> ent) (s : wst) : res wst :=
  n ← ent_at s e; mret (set_ents (<[e := f n]> (ents s)) s).

(** The link of an entity, and [EDICT_FROM_AREA]. *)
Definition area (e : Z) : Z := e + 4.
Definition EDICT_FROM_AREA (l : Z) : Z := l - 4.

(** [depth] is [AREA_DEPTH] minus the argument of the code.
    C: Source/world.c:187-220 SV_CreateAreaNode *)
Fixpoint SV_CreateAreaNode (depth : nat) (mins maxs : vec3) (s : wst) : res (Z * wst) :=
  let anode := sv_numareanodes s in
  let s := set_numareanodes (anode + 1) s in
  n ← node_at s anode;
  let s := set_links (ClearLink (trigger_edicts anode) (links s)) s in
  let s := set_links (ClearLink (solid_edicts anode) (links s)) s in
  match depth with
  | O => s ← upd_node anode (fun n => AreaNode (-1) (dist n) (-1) (-1)) s; mret (anode, s)
  | S depth =>
      let size := vec_sub maxs mins in
      let ax := if f_ltb (vy size) (vx size) then 0 else 1 in
      let d := f32_of_f64 (f64_mul (f64_div (f64_of_Z 1) (f64_of_Z 2)) (f64_of_f32 (f32_add (vget maxs ax) (vget mins ax)))) in
      s ← upd_node anode (set_axis ax d) s;
      '(c, s) ← SV_CreateAreaNode depth (vset mins ax d) maxs s;
      s ← upd_node anode (set_child0 c) s;
      '(c, s) ← SV_CreateAreaNode depth mins (vset maxs ax d) s;
      s ← upd_node anode (set_child1 c) s;
      mret (anode, s)
  end.

(** [mins] and [maxs] are the bounds of the world model.
    C: Source/world.c:227-234 SV_ClearWorld *)
Definition SV_ClearWorld (mins maxs : vec3) (s : wst) : res wst :=
  let s := set_areanodes (replicate (Z.to_nat AREA_NODES) (AreaNode 0 (S754_zero false) (-1) (-1))) s in
  let s := set_numareanodes 0 s in
  '(_, s) ← SV_CreateAreaNode AREA_DEPTH mins maxs s;
  mret s.

(** C: Source/world.c:241-248 SV_UnlinkEdict *)
Definition SV_UnlinkEdict (e : Z) (s : wst) : res wst :=
  n ← link_at (links s) (area e);
  if l_prev n =? 0 then mret s
  else
    m ← RemoveLink (area e) (links s);
    m ← upd_link (area e) (fun _ => Link 0 0) m;
    mret (set_links m s).

(** * Leafs an entity touches *)

(** [signbits] of a plane: which components of its normal are negative.
    C: Source/gl_model.c:1276-1286 signbits *)
Definition signbits (p : plane) : Z :=
  let neg x b := if f_ltb x (f32_of_Z 0) then b else 0 in
  neg (vx (p_normal p)) 1 .| neg (vy (p_normal p)) 2 .| neg (vz (p_normal p)) 4.

(** The corner of a box that is farthest along the normal, and the opposite one.
    C: Source/mathlib.c:122-159 BoxOnPlaneSide *)
Definition BoxOnPlaneSide (emins emaxs : vec3) (p : plane) : Z :=
  let b := signbits p in
  let pick k far near := if has b k then near else far in
  let far := Vec (pick 1 (vx emaxs) (vx emins)) (pick 2 (vy emaxs) (vy emins)) (pick 4 (vz emaxs) (vz emins)) in
  let near := Vec (pick 1 (vx emins) (vx emaxs)) (pick 2 (vy emins) (vy emaxs)) (pick 4 (vz emins) (vz emaxs)) in
  (if f_leb (p_dist p) (dot (p_normal p) far) then 1 else 0) .| (if f_ltb (dot (p_normal p) near) (p_dist p) then 2 else 0).

(** C: Source/mathlib.h:100-114 BOX_ON_PLANE_SIDE *)
Definition BOX_ON_PLANE_SIDE (emins emaxs : vec3) (p : plane) : Z :=
  if p_type p <? 3 then
    if f_leb (p_dist p) (vget emins (p_type p)) then 1
    else if f_leb (vget emaxs (p_type p)) (p_dist p) then 2 else 3
  else BoxOnPlaneSide emins emaxs p.

(** The leafs found so far are an argument; leaf 0 of a model is its solid leaf, and leaf [n] has
    the number [n - 1].
    C: Source/world.c:311-345 SV_FindTouchedLeafs *)
Fixpoint SV_FindTouchedLeafs (absmin absmax : vec3) (node : mnode) (found : list Z) : list Z :=
  match node with
  | MLeaf contents leaf =>
      if contents =? CONTENTS_SOLID then found
      else if (length found =? MAX_ENT_LEAFS)%nat then found else found ++ [s16 (leaf - 1)]
  | MNode pl c0 c1 =>
      let sides := BOX_ON_PLANE_SIDE absmin absmax pl in
      let found := if has sides 1 then SV_FindTouchedLeafs absmin absmax c0 found else found in
      if has sides 2 then SV_FindTouchedLeafs absmin absmax c1 found else found
  end.

(** * Hulls *)

Definition CONTENTS_EMPTY : Z := -1.

(** C: Source/bspfile.h:151-155 dclipnode_t *)
Record dclipnode : Type := ClipNode { planenum : Z; c_child0 : Z; c_child1 : Z }.
(** C: Source/gl_model.h:184-192 hull_t *)
Record hull : Type := Hull {
  clipnodes : list dclipnode;
  planes : list plane;
  firstclipnode : Z;
  lastclipnode : Z;
  clip_mins : vec3
}.

Definition clipnode_at (h : hull) (num : Z) : res dclipnode :=
  of_option (Undefined "outside the clip nodes") (if num <? 0 then None else clipnodes h !! Z.to_nat num).
Definition plane_at (h : hull) (num : Z) : res plane :=
  of_option (Undefined "outside the planes") (if num <? 0 then None else planes h !! Z.to_nat num).

(** The nodes are set up once, the distances for each box.
    C: Source/world.c:62-86 SV_InitBoxHull *)
Definition SV_InitBoxHull : list dclipnode * list plane :=
  ((fun i =>
      let next := if i =? 5 then CONTENTS_SOLID else i + 1 in
      if (i & 1) =? 0 then ClipNode i CONTENTS_EMPTY next else ClipNode i next CONTENTS_EMPTY) <$> seqZ 0 6,
   (fun i => Plane (i >> 1) (vset vec0 (i >> 1) (f32_of_Z 1)) (S754_zero false)) <$> seqZ 0 6).

(** C: Source/world.c:96-106 SV_HullForBox *)
Definition SV_HullForBox (mins maxs : vec3) : hull :=
  let dists := [vx maxs; vx mins; vy maxs; vy mins; vz maxs; vz mins] in
  Hull SV_InitBoxHull.1 (zip_with (fun p d => Plane (p_type p) (p_normal p) d) SV_InitBoxHull.2 dists) 0 5 vec0.

(** The model of an entity: whether it is a brush model, and its hulls. *)
Record model : Type := Model { mod_brush : bool; hulls : list hull }.

Section queries.

(** [sv.models], with null entries. *)
Variable sv_models : list (option model).

(** The hull and the offset.
    C: Source/world.c:118-157 SV_HullForEntity *)
Definition SV_HullForEntity (e : ent) (mins maxs : vec3) : res (hull * vec3) :=
  if is_solid e SOLID_BSP then
    if negb (f_eqb (v_movetype e) (f32_of_Z MOVETYPE_PUSH)) then Fault (Host_Error "SOLID_BSP without MOVETYPE_PUSH")
    else
      let i := f_to_int (v_modelindex e) in
      m ← of_option (Undefined "outside sv.models") (if i <? 0 then None else sv_models !! Z.to_nat i);
      match m with
      | Some (Model true hs) =>
          let size := vec_sub maxs mins in
          h ← of_option (Undefined "outside the hulls")
                (hs !! (if f_ltb (vx size) (f32_of_Z 3) then 0 else if f_leb (vx size) (f32_of_Z 32) then 1 else 2)%nat);
          mret (h, vec_add (vec_sub (clip_mins h) mins) (v_origin e))
      | _ => Fault (Host_Error "SOLID_BSP with a non-bsp model")
      end
  else mret (SV_HullForBox (vec_sub (v_mins e) maxs) (vec_sub (v_maxs e) mins), v_origin e).

(** C: Source/world.c:441-452 num *)
Fixpoint contents_loop (fuel : nat) (h : hull) (num : Z) (p : vec3) : res Z :=
  if num <? 0 then mret num
  else
    match fuel with
    | O => Fault OutOfFuel
    | S fuel =>
        if (num <? firstclipnode h) || (lastclipnode h <? num) then Fault (Sys_Error "SV_HullPointContents: bad node number")
        else
          node ← clipnode_at h num;
          pl ← plane_at h (planenum node);
          let d := PlaneDiff p pl in
          contents_loop fuel h (if f_ltb d (f32_of_Z 0) then c_child1 node else c_child0 node) p
    end.
(** A walk that visits no node twice has at most as many steps as there are nodes.
    C: Source/world.c:436-455 SV_HullPointContents *)
Definition SV_HullPointContents (h : hull) (num : Z) (p : vec3) : res Z := contents_loop (length (clipnodes h)) h num p.

(** [h] is the first hull of the world model.
    C: Source/world.c:462-465 SV_PointContents *)
Definition SV_PointContents (h : hull) (p : vec3) : res Z := SV_HullPointContents h 0 p.

(** * Traces *)

(** C: Source/world.h:28-37 trace_t *)
Record trace : Type := Trace {
  allsolid : bool;
  startsolid : bool;
  inopen : bool;
  inwater : bool;
  fraction : f32;
  endpos : vec3;
  t_normal : vec3;
  t_dist : f32;
  t_ent : option Z
}.
Definition set_allsolid (b : bool) (t : trace) : trace :=
  Trace b (startsolid t) (inopen t) (inwater t) (fraction t) (endpos t) (t_normal t) (t_dist t) (t_ent t).
Definition set_startsolid (b : bool) (t : trace) : trace :=
  Trace (allsolid t) b (inopen t) (inwater t) (fraction t) (endpos t) (t_normal t) (t_dist t) (t_ent t).
Definition set_inopen (b : bool) (t : trace) : trace :=
  Trace (allsolid t) (startsolid t) b (inwater t) (fraction t) (endpos t) (t_normal t) (t_dist t) (t_ent t).
Definition set_inwater (b : bool) (t : trace) : trace :=
  Trace (allsolid t) (startsolid t) (inopen t) b (fraction t) (endpos t) (t_normal t) (t_dist t) (t_ent t).
Definition set_end (f : f32) (p : vec3) (t : trace) : trace :=
  Trace (allsolid t) (startsolid t) (inopen t) (inwater t) f p (t_normal t) (t_dist t) (t_ent t).
Definition set_plane (n : vec3) (d : f32) (t : trace) : trace :=
  Trace (allsolid t) (startsolid t) (inopen t) (inwater t) (fraction t) (endpos t) n d (t_ent t).
Definition set_t_ent (e : option Z) (t : trace) : trace :=
  Trace (allsolid t) (startsolid t) (inopen t) (inwater t) (fraction t) (endpos t) (t_normal t) (t_dist t) e.

Definition f32_opp : f32 -> f32 := SFopp.
(** [DIST_EPSILON] is 1/32, in double precision. *)
Definition DIST_EPSILON : f64 := f64_div (f64_of_Z 1) (f64_of_Z 32).
Definition f_0 : f32 := f32_of_Z 0.
Definition f_1 : f32 := f32_of_Z 1.

(** [p1 + frac * (p2 - p1)] *)
Definition between (p1 p2 frac : f32) : f32 := f32_add p1 (f32_mul frac (f32_sub p2 p1)).
Definition vec_between (p1 p2 : vec3) (frac : f32) : vec3 :=
  Vec (between (vx p1) (vx p2) frac) (between (vy p1) (vy p2) frac) (between (vz p1) (vz p2) frac).
(** [p1f + (p2f - p1f) * frac] *)
Definition along (p1f p2f frac : f32) : f32 := f32_add p1f (f32_mul (f32_sub p2f p1f) frac).

(** C: Source/common.h:53-53 bound *)
Definition bound01 (frac : f32) : f32 := if f_ltb frac f_0 then f_0 else if f_ltb f_1 frac then f_1 else frac.

(** The point where the line crosses the plane, on the near side of it.
    C: Source/world.c:553-558 frac *)
Definition cross_frac (t1 t2 : f32) : f32 :=
  let e := if f_ltb t1 f_0 then f64_add (f64_of_f32 t1) DIST_EPSILON else f64_sub (f64_of_f32 t1) DIST_EPSILON in
  bound01 (f32_of_f64 (f64_div e (f64_of_f32 (f32_sub t1 t2)))).

(** [DotProduct(plane->normal, p) - plane->dist], the normal first.
    C: Source/world.c:537-546 t1 *)
Definition plane_distance (pl : plane) (p : vec3) : f32 :=
  if p_type pl <? 3 then f32_sub (vget p (p_type pl)) (p_dist pl)
  else f32_sub (dot (p_normal pl) p) (p_dist pl).

(** The point is moved back a tenth of the line at a time until it is outside the solid.
    C: Source/world.c:596-609 frac *)
Fixpoint back_up (fuel : nat) (h : hull) (p1f p2f : f32) (p1 p2 : vec3) (frac midf : f32) (mid : vec3) : res (f32 * vec3) :=
  c ← SV_HullPointContents h (firstclipnode h) mid;
  if negb (c =? CONTENTS_SOLID) then mret (midf, mid)
  else
    match fuel with
    | O => Fault OutOfFuel
    | S fuel =>
        let frac := f32_of_f64 (f64_sub (f64_of_f32 frac) (f64_div (f64_of_Z 1) (f64_of_Z 10))) in
        if f_ltb frac f_0 then mret (midf, mid)
        else back_up fuel h p1f p2f p1 p2 frac (along p1f p2f frac) (vec_between p1 p2 frac)
    end.

(** [fuel] bounds the depth of the tree.
    C: Source/world.c:504-615 SV_RecursiveHullCheck *)
Fixpoint SV_RecursiveHullCheck (fuel : nat) (h : hull) (num : Z) (p1f p2f : f32) (p1 p2 : vec3) (t : trace) : res (bool * trace) :=
  if num <? 0 then
    mret (true,
      if negb (num =? CONTENTS_SOLID) then
        (if num =? CONTENTS_EMPTY then set_inopen true else set_inwater true) (set_allsolid false t)
      else set_startsolid true t)
  else
    match fuel with
    | O => Fault OutOfFuel
    | S fuel =>
        if (num <? firstclipnode h) || (lastclipnode h <? num) then Fault (Sys_Error "SV_RecursiveHullCheck: bad node number")
        else
          node ← clipnode_at h num;
          pl ← plane_at h (planenum node);
          let t1 := plane_distance pl p1 in
          let t2 := plane_distance pl p2 in
          if f_leb f_0 t1 && f_leb f_0 t2 then SV_RecursiveHullCheck fuel h (c_child0 node) p1f p2f p1 p2 t
          else if f_ltb t1 f_0 && f_ltb t2 f_0 then SV_RecursiveHullCheck fuel h (c_child1 node) p1f p2f p1 p2 t
          else
            let frac := cross_frac t1 t2 in
            let midf := along p1f p2f frac in
            let mid := vec_between p1 p2 frac in
            let side := f_ltb t1 f_0 in
            let near := if side then c_child1 node else c_child0 node in
            let far := if side then c_child0 node else c_child1 node in
            '(r, t) ← SV_RecursiveHullCheck fuel h near p1f midf p1 mid t;
            if negb r then mret (false, t)
            else
              c ← SV_HullPointContents h far mid;
              if negb (c =? CONTENTS_SOLID) then SV_RecursiveHullCheck fuel h far midf p2f mid p2 t
              else if allsolid t then mret (false, t)
              else
                let t := if negb side then set_plane (p_normal pl) (p_dist pl) t
                         else set_plane (vec_map f32_opp (p_normal pl)) (f32_opp (p_dist pl)) t in
                '(midf, mid) ← back_up 16 h p1f p2f p1 p2 frac midf mid;
                mret (false, set_end midf mid t)
    end.

(** C: Source/world.c:625-655 SV_ClipMoveToEntity *)
Definition SV_ClipMoveToEntity (n : Z) (e : ent) (start mins maxs stop : vec3) : res trace :=
  let t := Trace true false false false f_1 stop vec0 f_0 None in
  '(h, offset) ← SV_HullForEntity e mins maxs;
  '(_, t) ← SV_RecursiveHullCheck (length (clipnodes h)) h (firstclipnode h) f_0 f_1 (vec_sub start offset) (vec_sub stop offset) t;
  let t := if negb (f_eqb (fraction t) f_1) then set_end (fraction t) (vec_add (endpos t) offset) t else t in
  mret (if f_ltb (fraction t) f_1 || startsolid t then set_t_ent (Some n) t else t).

(** * Linking *)

(** [PR_ExecuteProgram], [sv.time], [sv.edicts] as entity 0, and the nodes of the world model. *)
Variable PR_ExecuteProgram : Z -> wst -> res wst.
Variable sv_time : f64.
Variable world_nodes : mnode.

(** The boxes of two entities have no point in common, as the code tests it. *)
Definition apart (amin amax bmin bmax : vec3) : bool :=
  f_ltb (vx bmax) (vx amin) || f_ltb (vy bmax) (vy amin) || f_ltb (vz bmax) (vz amin) ||
  f_ltb (vx amax) (vx bmin) || f_ltb (vy amax) (vy bmin) || f_ltb (vz amax) (vz bmin).

(** The triggers from link [l] on; the list may change while the touch functions run.
    C: Source/world.c:262-294 touch *)
Fixpoint touch_list (fuel : nat) (e head l : Z) (s : wst) : res wst :=
  if l =? head then mret s
  else if l =? 0 then Fault (Host_Error "NULL area link")
  else
    match fuel with
    | O => Fault OutOfFuel
    | S fuel =>
        n ← link_at (links s) l;
        let next := l_next n in
        let touch := EDICT_FROM_AREA l in
        if touch =? e then touch_list fuel e head next s
        else
          t ← ent_at s touch;
          a ← ent_at s e;
          if (v_touch t =? 0) || negb (is_solid t SOLID_TRIGGER) then touch_list fuel e head next s
          else if apart (v_absmin a) (v_absmax a) (v_absmin t) (v_absmax t) then touch_list fuel e head next s
          else
            let old_self := self s in
            let old_other := other s in
            let s := set_time (f32_of_f64 sv_time) (set_self_other touch e s) in
            s ← PR_ExecuteProgram (v_touch t) s;
            touch_list fuel e head next (set_self_other old_self old_other s)
    end.

(** [depth] bounds the depth of the tree, [fuel] the length of a list.
    C: Source/world.c:255-304 SV_TouchLinks *)
Fixpoint SV_TouchLinks (depth fuel : nat) (e node : Z) (s : wst) : res wst :=
  match depth with
  | O => Fault OutOfFuel
  | S depth =>
      _ ← node_at s node;
      h ← link_at (links s) (trigger_edicts node);
      s ← touch_list fuel e (trigger_edicts node) (l_next h) s;
      n ← node_at s node;
      if axis n =? -1 then mret s
      else
        a ← ent_at s e;
        s ← (if f_ltb (dist n) (vget (v_absmax a) (axis n)) then SV_TouchLinks depth fuel e (child0 n) s else mret s);
        a ← ent_at s e;
        n ← node_at s node;
        if f_ltb (vget (v_absmin a) (axis n)) (dist n) then SV_TouchLinks depth fuel e (child1 n) s else mret s
  end.

(** The box of an entity in the world.
    C: Source/world.c:365-387 absmin *)
Definition abs_box (a : ent) : vec3 * vec3 :=
  let lo := vec_add (v_origin a) (v_mins a) in
  let hi := vec_add (v_origin a) (v_maxs a) in
  let f15 := f32_of_Z 15 in
  if has (f_to_int (v_flags a)) FL_ITEM then
    (Vec (f32_sub (vx lo) f15) (f32_sub (vy lo) f15) (vz lo), Vec (f32_add (vx hi) f15) (f32_add (vy hi) f15) (vz hi))
  else (vec_map (fun x => f32_sub x f_1) lo, vec_map (fun x => f32_add x f_1) hi).

(** The first node the box crosses.
    C: Source/world.c:397-410 node *)
Fixpoint find_node (fuel : nat) (s : wst) (absmin absmax : vec3) (node : Z) : res Z :=
  match fuel with
  | O => Fault OutOfFuel
  | S fuel =>
      n ← node_at s node;
      if axis n =? -1 then mret node
      else if f_ltb (dist n) (vget absmin (axis n)) then find_node fuel s absmin absmax (child0 n)
      else if f_ltb (vget absmax (axis n)) (dist n) then find_node fuel s absmin absmax (child1 n)
      else mret node
  end.

(** The code without the touching of triggers at its end.
    C: Source/world.c:352-416 SV_LinkEdict *)
Definition link_edict (e : Z) (s : wst) : res (bool * wst) :=
  n ← link_at (links s) (area e);
  s ← (if negb (l_prev n =? 0) then SV_UnlinkEdict e s else mret s);
  if e =? 0 then mret (false, s)
  else
    a ← ent_at s e;
    if e_free a then mret (false, s)
    else
      let '(lo, hi) := abs_box a in
      let leafs := if f_truth (v_modelindex a) then SV_FindTouchedLeafs lo hi world_nodes [] else [] in
      let a := set_leafs leafs (set_abs lo hi a) in
      let s := set_ents (<[e := a]> (ents s)) s in
      if is_solid a SOLID_NOT then mret (false, s)
      else
        node ← find_node (Z.to_nat AREA_NODES) s lo hi 0;
        m ← InsertLinkBefore (area e) (if is_solid a SOLID_TRIGGER then trigger_edicts node else solid_edicts node) (links s);
        mret (true, set_links m s).

(** C: Source/world.c:352-421 SV_LinkEdict *)
Definition SV_LinkEdict (fuel : nat) (e : Z) (touch_triggers : bool) (s : wst) : res wst :=
  '(linked, s) ← link_edict e s;
  if (linked : bool) && touch_triggers then SV_TouchLinks (Z.to_nat AREA_NODES) fuel e 0 s else mret s.

(** * Moves *)

Definition MOVE_NOMONSTERS : Z := 1.
Definition MOVE_MISSILE : Z := 2.

(** What stays the same during a move; the trace is passed along.
    C: Source/world.c:31-40 moveclip_t *)
Record moveclip : Type := Clip {
  boxmins : vec3;
  boxmaxs : vec3;
  m_mins : vec3;
  m_maxs : vec3;
  m_mins2 : vec3;
  m_maxs2 : vec3;
  m_start : vec3;
  m_end : vec3;
  m_type : Z;
  passedict : option Z
}.

(** [sv_player], and whether [sv_casper] is set. *)
Variable sv_player : Z.
Variable sv_casper : bool.

(** Does the code clip against the entity at all.
    C: Source/world.c:677-696 touch *)
Definition clips (clip : moveclip) (s : wst) (touch : Z) (t : ent) : res bool :=
  if is_solid t SOLID_NOT then mret false
  else if bool_decide (passedict clip = Some touch) then mret false
  else if is_solid t SOLID_TRIGGER then Fault (Sys_Error "Trigger in clipping list")
  else if (m_type clip =? MOVE_NOMONSTERS) && negb (is_solid t SOLID_BSP) then mret false
  else if apart (boxmins clip) (boxmaxs clip) (v_absmin t) (v_absmax t) then mret false
  else
    match passedict clip with
    | None => mret true
    | Some pe => p ← ent_at s pe; mret (negb (f_truth (vx (v_size p)) && negb (f_truth (vx (v_size t)))))
    end.

(** [touch] and [passedict] do not own each other, and [touch] is not the ghost.
    C: Source/world.c:701-712 touch *)
Definition owner_skip (clip : moveclip) (s : wst) (touch : Z) (t : ent) : res bool :=
  r ← match passedict clip with
      | None => mret false
      | Some pe => p ← ent_at s pe; mret ((v_owner t =? pe) || (v_owner p =? touch))
      end;
  mret (r || ((touch =? sv_player) && sv_casper)).

(** C: Source/world.c:714-730 trace *)
Definition clip_to (clip : moveclip) (touch : Z) (t : ent) (tr : trace) : res trace :=
  let monster := has (f_to_int (v_flags t)) FL_MONSTER in
  t' ← SV_ClipMoveToEntity touch t (m_start clip) (if monster then m_mins2 clip else m_mins clip)
         (if monster then m_maxs2 clip else m_maxs clip) (m_end clip);
  mret (if allsolid t' || startsolid t' || f_ltb (fraction t') (fraction tr) then
          let t' := set_t_ent (Some touch) t' in
          if startsolid tr then set_startsolid true t' else t'
        else if startsolid t' then set_startsolid true tr else tr).

(** The solid entities from link [l] on; the result says whether the code returns from
    [SV_ClipToLinks] here, as it does when nothing can be nearer.
    C: Source/world.c:672-731 solid_edicts *)
Fixpoint clip_list (fuel : nat) (clip : moveclip) (s : wst) (head l : Z) (tr : trace) : res (bool * trace) :=
  if l =? head then mret (false, tr)
  else
    match fuel with
    | O => Fault OutOfFuel
    | S fuel =>
        n ← link_at (links s) l;
        let touch := EDICT_FROM_AREA l in
        t ← ent_at s touch;
        c ← clips clip s touch t;
        if negb c then clip_list fuel clip s head (l_next n) tr
        else if allsolid tr then mret (true, tr)
        else
          sk ← owner_skip clip s touch t;
          tr ← (if (sk : bool) then mret tr else clip_to clip touch t tr);
          clip_list fuel clip s head (l_next n) tr
    end.

(** [depth] bounds the depth of the tree; a list is not longer than the number of links.
    C: Source/world.c:666-741 SV_ClipToLinks *)
Fixpoint SV_ClipToLinks (depth : nat) (clip : moveclip) (s : wst) (node : Z) (tr : trace) : res trace :=
  match depth with
  | O => Fault OutOfFuel
  | S depth =>
      n ← node_at s node;
      h ← link_at (links s) (solid_edicts node);
      '(stop, tr) ← clip_list (size (links s)) clip s (solid_edicts node) (l_next h) tr;
      if (stop : bool) || (axis n =? -1) then mret tr
      else
        tr ← (if f_ltb (dist n) (vget (boxmaxs clip) (axis n)) then SV_ClipToLinks depth clip s (child0 n) tr else mret tr);
        if f_ltb (vget (boxmins clip) (axis n)) (dist n) then SV_ClipToLinks depth clip s (child1 n) tr else mret tr
  end.

(** C: Source/world.c:748-771 SV_MoveBounds *)
Definition SV_MoveBounds (start mins maxs stop : vec3) : vec3 * vec3 :=
  let lo st en mn := f32_sub (f32_add (if f_ltb st en then st else en) mn) f_1 in
  let hi st en mx := f32_add (f32_add (if f_ltb st en then en else st) mx) f_1 in
  (Vec (lo (vx start) (vx stop) (vx mins)) (lo (vy start) (vy stop) (vy mins)) (lo (vz start) (vz stop) (vz mins)),
   Vec (hi (vx start) (vx stop) (vx maxs)) (hi (vy start) (vy stop) (vy maxs)) (hi (vz start) (vz stop) (vz maxs))).

(** C: Source/world.c:778-828 SV_Move *)
Definition SV_Move (s : wst) (start mins maxs stop : vec3) (type : Z) (pass : option Z) : res trace :=
  let type := if sv_casper && bool_decide (pass = Some sv_player)
              then if 4 <=? type then Z.land type (Z.lnot 4) else MOVE_NOMONSTERS
              else type in
  w ← ent_at s 0;
  tr ← SV_ClipMoveToEntity 0 w start mins maxs stop;
  let v15 z := Vec (f32_of_Z z) (f32_of_Z z) (f32_of_Z z) in
  let mins2 := if type =? MOVE_MISSILE then v15 (-15) else mins in
  let maxs2 := if type =? MOVE_MISSILE then v15 15 else maxs in
  let '(bmins, bmaxs) := SV_MoveBounds start mins2 maxs2 stop in
  SV_ClipToLinks (Z.to_nat AREA_NODES) (Clip bmins bmaxs mins maxs mins2 maxs2 start stop type pass) s 0 tr.

(** [true] when the entity is stuck in something.
    C: Source/world.c:476-486 SV_TestEntityPosition *)
Definition SV_TestEntityPosition (s : wst) (e : Z) : res bool :=
  a ← ent_at s e;
  tr ← SV_Move s (v_origin a) (v_mins a) (v_maxs a) (v_origin a) 0 (Some e);
  mret (startsolid tr).

End queries.

(** * Hulls of boxes *)

Definition vec_all (P : f32 -> Prop) (v : vec3) : Prop := P (vx v) /\ P (vy v) /\ P (vz v).
Definition ordinary (x : f32) : Prop := f32_valid x /\ finite x.
#[global] Instance vec_all_dec P `{!forall x, Decision (P x)} v : Decision (vec_all P v).
Proof. unfold vec_all. apply _. Defined.
#[global] Instance ordinary_dec x : Decision (ordinary x).
Proof. unfold ordinary. apply _. Defined.

(** [lo <= x < hi] *)
Definition in_range (lo hi x : f32) : bool := negb (f_ltb x lo) && f_ltb x hi.
Definition in_box (mins maxs p : vec3) : bool :=
  in_range (vx mins) (vx maxs) (vx p) && in_range (vy mins) (vy maxs) (vy p) && in_range (vz mins) (vz maxs) (vz p).

Lemma box_step mins maxs p fuel i next pl :
  clipnodes (SV_HullForBox mins maxs) !! Z.to_nat i = Some next -> planes (SV_HullForBox mins maxs) !! Z.to_nat (planenum next) = Some pl ->
  0 <= i <= 5 -> 0 <= planenum next ->
  contents_loop (S fuel) (SV_HullForBox mins maxs) i p =
  contents_loop fuel (SV_HullForBox mins maxs) (if f_ltb (PlaneDiff p pl) (f32_of_Z 0) then c_child1 next else c_child0 next) p.
Proof.
  intros Hn Hp Hi Hpn. cbn [contents_loop]. assert (i <? 0 = false) as -> by lia.
  change (firstclipnode _) with 0. change (lastclipnode _) with 5.
  assert ((i <? 0) || (5 <? i) = false) as -> by (apply orb_false_iff; split; lia).
  unfold clipnode_at, plane_at. assert (i <? 0 = false) as -> by lia. rewrite Hn. cbn [of_option]. rewrite bind_Ok.
  assert (planenum next <? 0 = false) as -> by lia. rewrite Hp. cbn [of_option]. by rewrite bind_Ok.
Qed.

(** One plane of the box, with the difference its node computes. *)
Ltac box_side d Hs :=
  erewrite box_step; [|vm_compute; reflexivity|vm_compute; reflexivity|split; by_vm|by_vm];
  match goal with |- context [PlaneDiff ?p ?pl] => change (PlaneDiff p pl) with d end;
  cbn [c_child0 c_child1]; rewrite Hs by done.

(** A bounding box turned into a hull of six planes stands for the box: a point is solid in the
    hull exactly when each coordinate is at least the minimum and below the maximum. *)
Theorem box_hull_spec mins maxs p : vec_all ordinary mins -> vec_all ordinary maxs -> vec_all ordinary p ->
  SV_HullPointContents (SV_HullForBox mins maxs) 0 p = Ok (if in_box mins maxs p then CONTENTS_SOLID else CONTENTS_EMPTY).
Proof.
  intros ([? ?] & [? ?] & [? ?]) ([? ?] & [? ?] & [? ?]) ([? ?] & [? ?] & [? ?]).
  assert (forall fuel x, x < 0 -> contents_loop fuel (SV_HullForBox mins maxs) x p = Ok x) as Hend.
  { intros fuel x Hx. destruct fuel; cbn [contents_loop]; assert (x <? 0 = true) as -> by lia; done. }
  assert (forall x d, ordinary x -> ordinary d -> f_ltb (f32_sub x d) (f32_of_Z 0) = f_ltb x d) as Hs
    by (intros x d [] []; by apply f32_sub_sign).
  assert (SV_HullPointContents (SV_HullForBox mins maxs) 0 p = contents_loop 6 (SV_HullForBox mins maxs) 0 p) as -> by done.
  unfold in_box, in_range.
  box_side (f32_sub (vx p) (vx maxs)) Hs. destruct (f_ltb (vx p) (vx maxs)); [|by rewrite Hend, andb_false_r by done].
  box_side (f32_sub (vx p) (vx mins)) Hs. destruct (f_ltb (vx p) (vx mins)); [by rewrite Hend|].
  box_side (f32_sub (vy p) (vy maxs)) Hs. destruct (f_ltb (vy p) (vy maxs)); [|by rewrite Hend, (andb_false_r (negb _)) by done].
  box_side (f32_sub (vy p) (vy mins)) Hs. destruct (f_ltb (vy p) (vy mins)); [by rewrite Hend|].
  box_side (f32_sub (vz p) (vz maxs)) Hs. destruct (f_ltb (vz p) (vz maxs)); [|by rewrite Hend, (andb_false_r (negb _)) by done].
  box_side (f32_sub (vz p) (vz mins)) Hs. destruct (f_ltb (vz p) (vz mins)); by rewrite Hend.
Qed.

(** * Points and traces in hulls *)

(** The nodes of a hull as the map compilers write them: a child comes after its parent. *)
Definition child_ok (h : hull) (i c : Z) : Prop := c < 0 \/ i < c <= lastclipnode h.
Definition node_ok (h : hull) (i : Z) (n : dclipnode) : Prop :=
  child_ok h i (c_child0 n) /\ child_ok h i (c_child1 n) /\ 0 <= planenum n < zlen (planes h).
Definition hull_ok (h : hull) : Prop :=
  0 <= firstclipnode h /\ lastclipnode h < zlen (clipnodes h) /\
  Forall (fun i => forall n, clipnodes h !! i = Some n -> node_ok h (Z.of_nat i) n) (seq 0 (length (clipnodes h))).

Lemma hull_node h num : hull_ok h -> firstclipnode h <= num <= lastclipnode h -> exists n pl,
  clipnode_at h num = Ok n /\ plane_at h (planenum n) = Ok pl /\ pl ∈ planes h /\ node_ok h num n.
Proof.
  intros (H0 & Hl & Hn) Hr. unfold clipnode_at. assert (num <? 0 = false) as -> by lia.
  destruct (lookup_lt_is_Some_2 (clipnodes h) (Z.to_nat num) ltac:(lia)) as [n En].
  rewrite Forall_forall in Hn. assert (node_ok h num n) as Hok.
  { specialize (Hn (Z.to_nat num)). rewrite elem_of_seq in Hn. specialize (Hn ltac:(apply lookup_lt_Some in En; lia) n En).
    by rewrite Z2Nat.id in Hn by lia. }
  destruct Hok as (H1 & H2 & H3). unfold plane_at.
  destruct (lookup_lt_is_Some_2 (planes h) (Z.to_nat (planenum n)) ltac:(lia)) as [pl Epl].
  exists n, pl. rewrite En. assert (planenum n <? 0 = false) as -> by lia. rewrite Epl.
  split; [done|]. split; [done|]. split; [by eapply list_elem_of_lookup_2|done].
Qed.

(** A node number that a walk through the hull can be at. *)
Definition num_ok (h : hull) (num : Z) : Prop := num < 0 \/ firstclipnode h <= num <= lastclipnode h.

(** The walk through a well formed hull ends at some contents. *)
Lemma contents_total h p : hull_ok h -> forall fuel num, num_ok h num -> (num < 0 \/ lastclipnode h - num < Z.of_nat fuel) ->
  exists c, contents_loop fuel h num p = Ok c /\ c < 0.
Proof.
  intros Hok. induction fuel as [|fuel IH]; intros num Hnum Hf; cbn [contents_loop].
  - case_if; [by exists num|]. destruct Hnum; lia.
  - case_if; [by exists num|]. destruct Hnum as [|Hnum]; [lia|].
    destruct (hull_node h num Hok Hnum) as (n & pl & E1 & E2 & _ & (H1 & H2 & _)).
    assert ((num <? firstclipnode h) || (lastclipnode h <? num) = false) as -> by (apply orb_false_iff; split; lia).
    rewrite E1, bind_Ok, E2, bind_Ok. apply IH; unfold num_ok, child_ok in *; case_if; lia.
Qed.

Lemma f32_mul_comm x y : f32_mul x y = f32_mul y x.
Proof.
  unfold f32_mul, SFmul. destruct x as [[]|[]| |[]], y as [[]|[]| |[]]; try done;
  rewrite Pos.mul_comm, Z.add_comm; done.
Qed.

Lemma plane_distance_diff pl p : 0 <= p_type pl -> plane_distance pl p = PlaneDiff p pl.
Proof.
  intros H. unfold plane_distance, PlaneDiff, vget. case_if.
  - do 2 (case_if; [done|]). case_if; [done|lia].
  - do 3 (case_if; [lia|]). f_equal. unfold dot. by rewrite !(f32_mul_comm (_ (p_normal pl))).
Qed.

(** What a trace records at a leaf with contents [c]. *)
Definition mark (c : Z) (t : trace) : trace :=
  if negb (c =? CONTENTS_SOLID) then
    (if c =? CONTENTS_EMPTY then set_inopen true else set_inwater true) (set_allsolid false t)
  else set_startsolid true t.

(** The planes have a type as in the file, and the point is on a side of each. *)
Definition sided (h : hull) (p : vec3) : Prop := Forall (fun pl => 0 <= p_type pl /\ not_nan (PlaneDiff p pl)) (planes h).

Lemma point_trace h p p1f p2f t : sided h p -> forall fuel num c, contents_loop fuel h num p = Ok c ->
  SV_RecursiveHullCheck fuel h num p1f p2f p p t = Ok (true, mark c t).
Proof.
  intros Hs. unfold sided in Hs. rewrite Forall_forall in Hs. induction fuel as [|fuel IH]; intros num c; cbn [contents_loop SV_RecursiveHullCheck].
  - case_if; intros Hc; inv_ok. done.
  - case_if; [intros Hc; inv_ok; done|]. case_if; [done|]. intros (n & En & (pl & Epl & Hc)%bind_Ok_inv)%bind_Ok_inv.
    assert (pl ∈ planes h) as Hin.
    { revert Epl. unfold plane_at. case_if; [done|]. destruct (planes h !! _) eqn:Ep; cbn; intros Epl; simplify_eq. by eapply list_elem_of_lookup_2. }
    rewrite En, bind_Ok, Epl, bind_Ok. destruct (Hs pl Hin) as [Ht Hn]. rewrite plane_distance_diff by done.
    change f_0 with (f32_of_Z 0). rewrite (f_leb_ltb (f32_of_Z 0)) by (done || discriminate).
    destruct (f_ltb (PlaneDiff p pl) (f32_of_Z 0)); cbn [negb andb]; by apply IH.
Qed.

(** Tracing a line of no length through a hull is looking up its point: the trace returns and
    records the contents that [SV_HullPointContents] finds there, so a position is stuck in the
    hull exactly when its point is solid. *)
Theorem point_trace_spec h num p p1f p2f t : hull_ok h -> num_ok h num -> sided h p -> exists c,
  SV_HullPointContents h num p = Ok c /\ c < 0 /\
  SV_RecursiveHullCheck (length (clipnodes h)) h num p1f p2f p p t = Ok (true, mark c t) /\
  (startsolid t = false -> startsolid (mark c t) = (c =? CONTENTS_SOLID)).
Proof.
  intros Hok Hnum Hs. destruct (contents_total h p Hok (length (clipnodes h)) num Hnum) as (c & Hc & Hc0).
  { destruct Hok as (H0 & Hl & _). destruct Hnum; [by left|right; lia]. }
  exists c. split; [done|]. split; [done|]. split; [by apply point_trace|].
  intros Ht. unfold mark. case_if; [|cbn; symmetry; by apply Z.eqb_eq].
  assert (c =? CONTENTS_SOLID = false) as -> by (by apply Z.eqb_neq). case_if; exact Ht.
Qed.

(** * The lists of the area nodes *)

(** [L] gives for each sentinel the links in its list.  Sentinels have negative addresses, links
    of entities positive ones; a link that is in no list is null. *)
Abbreviation lists := (gmap Z (list Z)).
Definition in_lists (L : lists) (a : Z) : Prop := exists h l, L !! h = Some l /\ a ∈ l.

#[global] Instance in_lists_dec L a : Decision (in_lists L a).
Proof.
  assert (forall (i : Z) (l : list Z), Decision (a ∈ l)) as Hd by (intros; apply _).
  exact (@map_Exists_dec _ _ _ _ _ _ _ _ _ _ _ (list Z) (fun _ l => a ∈ l) Hd L).
Defined.

Record areas_ok (m : gmap Z link) (L : lists) : Prop := AreasOk {
  ao_ring : forall h l, L !! h = Some l -> h < 0 /\ ring l_next l_prev m h l /\ NoDup l /\ Forall (fun a => 0 < a) l;
  ao_disjoint : forall h1 h2 l1 l2 a, L !! h1 = Some l1 -> L !! h2 = Some l2 -> a ∈ l1 -> a ∈ l2 -> h1 = h2;
  ao_free : forall a n, 0 < a -> m !! a = Some n -> ~ in_lists L a -> n = Link 0 0
}.

Lemma link_at_ok m a n : m !! a = Some n -> link_at m a = Ok n.
Proof. intros H. unfold link_at. by rewrite H. Qed.

Lemma upd_link_ok m a f n : m !! a = Some n -> upd_link a f m = Ok (<[a := f n]> m).
Proof. intros H. unfold upd_link. by rewrite (link_at_ok m a n). Qed.

Lemma list_nodup m L h l : areas_ok m L -> L !! h = Some l -> NoDup (h :: l) /\ Forall (fun a => 0 < a) l /\ h < 0.
Proof.
  intros H Hl. destruct (ao_ring _ _ H h l Hl) as (Hh & _ & Hnd & Hp). split; [|done].
  apply NoDup_cons. split; [|done]. intros Hin. rewrite Forall_forall in Hp. specialize (Hp h Hin). lia.
Qed.

Lemma lastz_pos h l a : lastz h l = a -> Forall (fun a => 0 < a) l -> h < 0 -> a = h \/ (a ∈ l /\ 0 < a).
Proof.
  intros <- Hp Hh. destruct (lastz_in h l) as [E|E]; [by left|right]. rewrite Forall_forall in Hp. auto.
Qed.
Lemma firstz_pos h l a : firstz l h = a -> Forall (fun a => 0 < a) l -> h < 0 -> a = h \/ (a ∈ l /\ 0 < a).
Proof. intros <- Hp Hh. destruct l as [|b l]; cbn; [by left|]. inversion Hp; subst. right. split; [by left|done]. Qed.

(** One list and its nodes change: the other lists do not notice. *)
Lemma areas_change m m' L h l l' : areas_ok m L -> L !! h = Some l ->
  ring l_next l_prev m' h l' -> NoDup l' -> Forall (fun a => 0 < a) l' ->
  (forall b, b ∈ l' -> b ∈ l \/ ~ in_lists L b) ->
  (forall b, b <> h -> b ∉ l -> b ∉ l' -> m' !! b = m !! b) ->
  (forall b, b ∈ l -> b ∉ l' -> m' !! b = Some (Link 0 0)) ->
  areas_ok m' (<[h := l']> L).
Proof.
  intros H Hl Hr Hnd Hp Hnew Hsame Hnull. destruct (list_nodup _ _ _ _ H Hl) as (_ & Hpl & Hh).
  rewrite Forall_forall in Hpl. pose proof Hp as Hp0. rewrite Forall_forall in Hp0.
  assert (forall b h2 k2, b ∈ l' -> L !! h2 = Some k2 -> b ∈ k2 -> h2 = h) as Honly.
  { intros b h2 k2 Hb Hk Hbk. destruct (Hnew b Hb) as [Hbl|Hbl]; [by eapply (ao_disjoint _ _ H)|]. destruct Hbl. by exists h2, k2. }
  split.
  - intros h' k Hk. destruct (decide (h' = h)) as [->|Hne]; [rewrite lookup_insert_eq in Hk; by injection Hk as <-|].
    rewrite lookup_insert_ne in Hk by done. destruct (ao_ring _ _ H h' k Hk) as (Hh' & Hr' & Hnd' & Hp').
    split; [done|]. split; [|done]. eapply ring_frame; [exact Hr'|]. rewrite Forall_forall in Hp'.
    intros b [->|Hb]%elem_of_cons; apply Hsame; try done.
    + intros Hin. specialize (Hpl h' Hin). lia.
    + intros Hin. specialize (Hp0 h' Hin). lia.
    + intros ->. specialize (Hp' h Hb). lia.
    + intros Hin. apply Hne. by eapply (ao_disjoint _ _ H).
    + intros Hin. by apply Hne, (Honly b h' k).
  - intros h1 h2 k1 k2 b H1 H2 Hb1 Hb2.
    destruct (decide (h1 = h)) as [->|N1], (decide (h2 = h)) as [->|N2]; [done| | |];
      rewrite ?lookup_insert_eq, ?lookup_insert_ne in H1 by done; rewrite ?lookup_insert_eq, ?lookup_insert_ne in H2 by done; simplify_eq.
    + symmetry. by eapply Honly.
    + by eapply Honly.
    + by eapply (ao_disjoint _ _ H).
  - intros b nb Hb Enb Hnot.
    assert (b ∉ l') as Hbl' by (intros Hin; apply Hnot; exists h, l'; by rewrite lookup_insert_eq).
    destruct (decide (b ∈ l)) as [Hbl|Hbl]; [rewrite Hnull in Enb by done; congruence|].
    rewrite Hsame in Enb by (done || lia). apply (ao_free _ _ H b nb Hb Enb). intros (h' & k & Hk & Hbk). apply Hnot.
    exists h', k. rewrite lookup_insert_ne; [done|]. intros <-. rewrite Hl in Hk. by injection Hk as <-.
Qed.

(** What unlinking writes: the neighbours [p] and [q] are joined and the link becomes null. *)
Lemma remove_fields m h l1 a l2 : ring l_next l_prev m h (l1 ++ a :: l2) -> NoDup (h :: l1 ++ a :: l2) ->
  let p := lastz h l1 in let q := firstz l2 h in exists m',
  (m1 ← RemoveLink a m; upd_link a (fun _ => Link 0 0) m1) = Ok m' /\ m' !! a = Some (Link 0 0) /\ dom m' = dom m /\
  fget l_next m' p = Some q /\ fget l_prev m' q = Some p /\
  (forall b, b <> p -> b <> a -> fget l_next m' b = fget l_next m b) /\
  (forall b, b <> q -> b <> a -> fget l_prev m' b = fget l_prev m b) /\
  (forall b, b <> a -> b <> p -> b <> q -> m' !! b = m !! b).
Proof.
  intros Hr Hnd p q. destruct (ring_at _ _ _ _ _ _ _ Hr) as [Hnx Hpv]. fold p in Hpv. fold q in Hnx.
  unfold fget in Hnx, Hpv. destruct (m !! a) as [n|] eqn:Ea; [|done]. cbn in Hnx, Hpv. injection Hnx as Hnx. injection Hpv as Hpv.
  assert (p ∈ h :: l1 /\ q ∈ h :: l2) as [Hpin Hqin].
  { unfold p, q. split; [destruct (lastz_in h l1) as [->|]; set_solver|destruct l2; cbn; set_solver]. }
  assert (a <> p /\ a <> q) as [Hap Haq].
  { clear -Hnd Hpin Hqin. apply NoDup_cons in Hnd as [H1 H2]. apply NoDup_app in H2 as (_ & H2 & H3). apply NoDup_cons in H3 as [H3 _]. set_solver. }
  assert (is_Some (m !! p) /\ is_Some (m !! q)) as [[np Ep] [nq Eq]].
  { split; eapply ring_in; try exact Hr; clear -Hpin Hqin; set_solver. }
  set (m1 := <[q := set_l_prev p nq]> m).
  assert (exists np', m1 !! p = Some np' /\ l_prev np' = (if decide (p = q) then p else l_prev np)) as (np' & Ep1 & Hnp').
  { unfold m1. destruct (decide (p = q)) as [->|]; [by rewrite lookup_insert_eq; eexists|].
    rewrite lookup_insert_ne, Ep by done. by eexists. }
  exists (<[a := Link 0 0]> (<[p := set_l_next q np']> m1)). repeat split.
  - unfold RemoveLink. rewrite (link_at_ok m a n), bind_Ok, Hnx, Hpv, (upd_link_ok m q _ nq), bind_Ok by done.
    fold m1. rewrite (link_at_ok m1 a n) by (unfold m1; by rewrite lookup_insert_ne by done). rewrite bind_Ok, Hnx, Hpv.
    rewrite (upd_link_ok m1 p _ np'), bind_Ok by done. apply (upd_link_ok _ a _ n).
    unfold m1. by rewrite !lookup_insert_ne by done.
  - by rewrite lookup_insert_eq.
  - assert (a ∈ dom m /\ p ∈ dom m /\ q ∈ dom m) as (? & ? & ?) by (rewrite !elem_of_dom; eauto).
    unfold m1. rewrite !dom_insert_L. set_solver.
  - rewrite !fget_insert, decide_False, decide_True by done. done.
  - rewrite !fget_insert, decide_False by done. destruct (decide (q = p)) as [E|E].
    + cbn [set_l_next l_prev]. by rewrite Hnp', decide_True.
    + unfold m1. by rewrite fget_insert, decide_True.
  - intros b Hb1 Hb2. unfold m1. rewrite !fget_insert, !decide_False by done.
    destruct (decide (b = q)) as [->|]; [|done]. unfold fget. by rewrite Eq.
  - intros b Hb1 Hb2. rewrite !fget_insert, decide_False by done. destruct (decide (b = p)) as [->|].
    + cbn [set_l_next l_prev]. rewrite Hnp', decide_False by done. unfold fget. by rewrite Ep.
    + unfold m1. by rewrite fget_insert, decide_False.
  - intros b Hb1 Hb2 Hb3. unfold m1. by rewrite !lookup_insert_ne by done.
Qed.

(** Unlinking: the element leaves its list and its link becomes null. *)
Lemma remove_ok m L h l1 a l2 : areas_ok m L -> L !! h = Some (l1 ++ a :: l2) -> exists m',
  (m1 ← RemoveLink a m; upd_link a (fun _ => Link 0 0) m1) = Ok m' /\ areas_ok m' (<[h := l1 ++ l2]> L) /\
  m' !! a = Some (Link 0 0) /\ dom m' = dom m.
Proof.
  intros H Hl. destruct (ao_ring _ _ H h _ Hl) as (Hh & Hr & Hnd & Hp). destruct (list_nodup _ _ _ _ H Hl) as (Hndh & _ & _).
  destruct (remove_fields m h l1 a l2 Hr Hndh) as (m' & Hm & Ha & Hd & H1 & H2 & H3 & H4 & H5).
  exists m'. split; [done|]. split; [|done]. eapply areas_change; [done|done| | | | | |].
  - by eapply ring_remove.
  - clear -Hnd. apply NoDup_app in Hnd as (H1 & H2 & H3). apply NoDup_cons in H3 as [_ H3]. apply NoDup_app. set_solver.
  - apply Forall_app in Hp as [Hp1 Hp2]. apply Forall_app. inversion Hp2. done.
  - intros b Hb. left. clear -Hb. set_solver.
  - intros b Hb1 Hb2 Hb3. apply H5; intros ->.
    + clear -Hb2. set_solver.
    + destruct (lastz_in h l1) as [E|E]; [congruence|clear -Hb3 E; set_solver].
    + destruct l2 as [|c l2]; cbn in *; [done|clear -Hb3; set_solver].
  - intros b Hb Hb'. assert (b = a) as -> by (clear -Hb Hb'; set_solver). done.
Qed.

(** What linking at the end of a list writes. *)
Lemma insert_fields m h l a : ring l_next l_prev m h l -> NoDup (h :: l) -> a ∉ h :: l -> is_Some (m !! a) ->
  let p := lastz h l in exists m', InsertLinkBefore a h m = Ok m' /\ dom m' = dom m /\
  fget l_next m' p = Some a /\ fget l_next m' a = Some h /\ fget l_prev m' a = Some p /\ fget l_prev m' h = Some a /\
  (forall b, b <> p -> b <> a -> fget l_next m' b = fget l_next m b) /\
  (forall b, b <> h -> b <> a -> fget l_prev m' b = fget l_prev m b) /\
  (forall b, b <> a -> b <> p -> b <> h -> m' !! b = m !! b).
Proof.
  intros Hr Hnd Hna [n Ea] p. pose proof (ring_last _ _ _ _ _ Hr) as Hl. fold p in Hl.
  assert (p ∈ h :: l) as Hpin by (unfold p; destruct (lastz_in h l) as [->|]; set_solver).
  assert (a <> p /\ a <> h) as [Hap Hah] by (clear -Hpin Hna; set_solver).
  destruct (ring_in _ _ _ _ _ p Hr Hpin) as [np Ep]. destruct (ring_in _ _ _ _ _ h Hr ltac:(by left)) as [nh Eh].
  unfold fget in Hl. rewrite Eh in Hl. cbn in Hl. injection Hl as Hl.
  set (m2 := <[a := Link p h]> m). set (m3 := <[p := set_l_next a np]> m2).
  assert (exists nh', m3 !! h = Some nh' /\ l_next nh' = (if decide (h = p) then a else l_next nh)) as (nh' & Eh3 & Hnh').
  { unfold m3, m2. destruct (decide (h = p)) as [<-|]; [by rewrite lookup_insert_eq; eexists|].
    rewrite !lookup_insert_ne, Eh by done. by eexists. }
  exists (<[h := set_l_prev a nh']> m3). repeat split.
  - unfold InsertLinkBefore. rewrite (upd_link_ok m a _ n), bind_Ok by done.
    rewrite (link_at_ok _ h nh), bind_Ok by (by rewrite lookup_insert_ne). rewrite Hl.
    rewrite (upd_link_ok _ a _ (set_l_next h n)), bind_Ok by (by rewrite lookup_insert_eq). rewrite insert_insert_eq.
    change (set_l_prev p (set_l_next h n)) with (Link p h). fold m2.
    rewrite (link_at_ok m2 a (Link p h)), bind_Ok by (unfold m2; by rewrite lookup_insert_eq). cbn [l_prev].
    rewrite (upd_link_ok m2 p _ np), bind_Ok by (unfold m2; by rewrite lookup_insert_ne by done). fold m3.
    rewrite (link_at_ok m3 a (Link p h)), bind_Ok by (unfold m3, m2; by rewrite lookup_insert_ne, lookup_insert_eq by done). cbn [l_next].
    by apply upd_link_ok.
  - assert (a ∈ dom m /\ p ∈ dom m /\ h ∈ dom m) as (? & ? & ?) by (rewrite !elem_of_dom; eauto).
    unfold m3, m2. rewrite !dom_insert_L. set_solver.
  - rewrite fget_insert. destruct (decide (p = h)) as [E|E].
    + cbn [set_l_prev l_next]. by rewrite Hnh', decide_True by done.
    + unfold m3. by rewrite fget_insert, decide_True.
  - unfold m3, m2. rewrite fget_insert, decide_False, fget_insert, decide_False, fget_insert, decide_True by done. done.
  - unfold m3, m2. rewrite fget_insert, decide_False, fget_insert, decide_False, fget_insert, decide_True by done. done.
  - by rewrite fget_insert, decide_True.
  - intros b Hb1 Hb2. rewrite fget_insert. destruct (decide (b = h)) as [->|].
    + cbn [set_l_prev l_next]. rewrite Hnh', decide_False by done. unfold fget. by rewrite Eh.
    + unfold m3, m2. by rewrite fget_insert, decide_False, fget_insert, decide_False by done.
  - intros b Hb1 Hb2. unfold m3, m2. rewrite !fget_insert, decide_False by done. destruct (decide (b = p)) as [->|].
    + cbn [set_l_next l_prev]. unfold fget. by rewrite Ep.
    + by rewrite decide_False.
  - intros b Hb1 Hb2 Hb3. unfold m3, m2. by rewrite !lookup_insert_ne by done.
Qed.

Lemma area_insert_ok m L h l a : areas_ok m L -> L !! h = Some l -> 0 < a -> ~ in_lists L a -> is_Some (m !! a) -> exists m',
  InsertLinkBefore a h m = Ok m' /\ areas_ok m' (<[h := l ++ [a]]> L) /\ dom m' = dom m.
Proof.
  intros H Hl Ha Hna Hm. destruct (ao_ring _ _ H h _ Hl) as (Hh & Hr & Hnd & Hp). destruct (list_nodup _ _ _ _ H Hl) as (Hndh & _ & _).
  assert (a ∉ l) as Hal by (intros Hin; apply Hna; by exists h, l).
  assert (a ∉ h :: l) as Hahl by (rewrite elem_of_cons; intros [->|]; [lia|done]).
  destruct (insert_fields m h l a Hr Hndh Hahl Hm) as (m' & Hm' & Hd & H1 & H2 & H3 & H4 & H5 & H6 & H7).
  exists m'. split; [done|]. split; [|done]. eapply areas_change; [done|done| | | | | |].
  - apply (ring_insert l_next l_prev m m' h l []); rewrite ?app_nil_r; done.
  - apply NoDup_app. split; [done|]. split; [|apply NoDup_singleton]. clear -Hal. set_solver.
  - apply Forall_app. split; [done|]. by constructor.
  - intros b [Hb| ->%list_elem_of_singleton]%elem_of_app; [by left|by right].
  - intros b Hb1 Hb2 Hb3. apply H7; [clear -Hb3; set_solver| |done]. intros ->.
    destruct (lastz_in h l) as [E|E]; [congruence|done].
  - intros b Hb Hb'. clear -Hb Hb'. set_solver.
Qed.

(** * The area tree *)

(** The nodes from [i] down, all with numbers in a range, at most [d] deep. *)
Inductive area_tree (s : wst) (lo hi : Z) : nat -> Z -> Prop :=
| tree_leaf d i n : node_at s i = Ok n -> lo <= i < hi -> axis n = -1 -> area_tree s lo hi (S d) i
| tree_node d i n : node_at s i = Ok n -> lo <= i < hi -> axis n <> -1 ->
    area_tree s lo hi d (child0 n) -> area_tree s lo hi d (child1 n) -> area_tree s lo hi (S d) i.

(** A box that is on one side of each plane on the way from node [i] belongs below node [j]. *)
Inductive placed (s : wst) (absmin absmax : vec3) : Z -> Z -> Prop :=
| placed_here i : placed s absmin absmax i i
| placed_0 i j n : node_at s i = Ok n -> axis n <> -1 -> f_ltb (dist n) (vget absmin (axis n)) = true ->
    placed s absmin absmax (child0 n) j -> placed s absmin absmax i j
| placed_1 i j n : node_at s i = Ok n -> axis n <> -1 -> f_ltb (vget absmax (axis n)) (dist n) = true ->
    placed s absmin absmax (child1 n) j -> placed s absmin absmax i j.

Lemma area_tree_range s lo hi d i : area_tree s lo hi d i -> lo <= i < hi.
Proof. by inversion 1. Qed.

Lemma area_tree_frame s s' lo hi d i : area_tree s lo hi d i ->
  (forall j, lo <= j < hi -> node_at s' j = node_at s j) -> area_tree s' lo hi d i.
Proof. intros H Hn. induction H; [eapply tree_leaf|eapply tree_node]; rewrite ?Hn by done; done. Qed.

Lemma area_tree_weaken s lo hi lo' hi' d i : area_tree s lo hi d i -> lo' <= lo -> hi <= hi' -> area_tree s lo' hi' d i.
Proof. intros H Hl Hh. induction H; [eapply tree_leaf|eapply tree_node]; try done; lia. Qed.

Lemma area_tree_depth s lo hi d d' i : area_tree s lo hi d i -> (d <= d')%nat -> area_tree s lo hi d' i.
Proof.
  intros H. revert d'. induction H as [d i n|d i n ? ? ? ? IH0 ? IH1]; intros [|d'] Hd; try lia; [by eapply tree_leaf|].
  eapply tree_node; try done; [apply IH0|apply IH1]; lia.
Qed.

Lemma placed_frame s s' absmin absmax i j : placed s absmin absmax i j -> sv_areanodes s' = sv_areanodes s -> placed s' absmin absmax i j.
Proof.
  intros H Hn. assert (forall k, node_at s' k = node_at s k) as E by (intros; unfold node_at; by rewrite Hn).
  induction H; [apply placed_here|eapply placed_0|eapply placed_1]; rewrite ?E; done.
Qed.

(** Two readings of one node. *)
Ltac same_node :=
  match goal with
  | H1 : node_at ?s ?i = Ok ?a, H2 : node_at ?s ?i = Ok ?b |- _ =>
      assert (b = a) by congruence; subst b; clear H2
  end.

Lemma placed_range s lo hi absmin absmax i j : placed s absmin absmax i j -> forall d, area_tree s lo hi d i -> lo <= j < hi.
Proof.
  induction 1 as [i|i j n Hn Ha Hd _ IH|i j n Hn Ha Hd _ IH]; intros d Ht; [by eapply area_tree_range| |].
  - inversion Ht; subst; same_node; [done|by eapply IH].
  - inversion Ht; subst; same_node; [done|by eapply IH].
Qed.

Lemma find_node_spec s lo hi absmin absmax : forall fuel i, area_tree s lo hi fuel i ->
  exists j, find_node fuel s absmin absmax i = Ok j /\ placed s absmin absmax i j.
Proof.
  induction fuel as [|fuel IH]; intros i Ht; [by inversion Ht|]. cbn [find_node].
  inversion Ht as [d i' n Hn Hr Ha|d i' n Hn Hr Ha H0 H1]; subst; rewrite Hn, bind_Ok.
  - rewrite Ha. exists i. split; [done|apply placed_here].
  - assert (axis n =? -1 = false) as -> by (by apply Z.eqb_neq).
    case_if; [destruct (IH _ H0) as (j & Hj & Hp); exists j; split; [done|by eapply placed_0]|].
    case_if; [destruct (IH _ H1) as (j & Hj & Hp); exists j; split; [done|by eapply placed_1]|].
    exists i. split; [done|apply placed_here].
Qed.

(** ** Creation *)

Definition is_head (lo hi h : Z) : Prop := exists j, lo <= j < hi /\ (h = trigger_edicts j \/ h = solid_edicts j).

(** The number of nodes of a tree. *)
Definition tree_size (d : nat) : Z := 2 ^ (Z.of_nat d + 1) - 1.
Lemma tree_size_S d : tree_size (S d) = 1 + 2 * tree_size d.
Proof. unfold tree_size. rewrite Nat2Z.inj_succ. replace (Z.succ (Z.of_nat d) + 1) with (Z.succ (Z.of_nat d + 1)) by lia. rewrite Z.pow_succ_r by lia. lia. Qed.
Lemma tree_size_pos d : 1 <= tree_size d.
Proof. induction d; [done|]. rewrite tree_size_S. lia. Qed.

(** What the creation of the nodes [lo] to [hi] leaves: the other nodes, links and entities are
    kept and the new lists are empty. *)
Definition created (s s' : wst) (lo hi : Z) : Prop :=
  sv_numareanodes s' = hi /\ length (sv_areanodes s') = length (sv_areanodes s) /\
  (forall j, 0 <= j < lo -> node_at s' j = node_at s j) /\ ents s' = ents s /\
  (forall h, is_head lo hi h -> links s' !! h = Some (Link h h)) /\
  (forall h, ~ is_head lo hi h -> links s' !! h = links s !! h) /\
  self s' = self s /\ other s' = other s /\ time s' = time s.

Lemma node_at_ok s i : 0 <= i < zlen (sv_areanodes s) -> exists n, node_at s i = Ok n.
Proof.
  intros H. unfold node_at. assert (i <? 0 = false) as -> by lia.
  destruct (lookup_lt_is_Some_2 (sv_areanodes s) (Z.to_nat i) ltac:(lia)) as [n ->]. by exists n.
Qed.

Lemma node_at_set l s i : node_at (set_areanodes l s) i = if i <? 0 then Fault (Undefined "outside the area nodes")
  else of_option (Undefined "outside the area nodes") (l !! Z.to_nat i).
Proof. done. Qed.

Lemma upd_node_ok i f s n : node_at s i = Ok n -> exists s', upd_node i f s = Ok s' /\ node_at s' i = Ok (f n) /\
  (forall j, j <> i -> node_at s' j = node_at s j) /\ length (sv_areanodes s') = length (sv_areanodes s) /\
  sv_numareanodes s' = sv_numareanodes s /\ links s' = links s /\ ents s' = ents s /\ self s' = self s /\ other s' = other s /\ time s' = time s.
Proof.
  intros Hn. unfold upd_node. rewrite Hn, bind_Ok. eexists. split; [done|].
  unfold node_at in Hn. destruct (i <? 0) eqn:Ei; [done|]. destruct (sv_areanodes s !! Z.to_nat i) eqn:El; [|done].
  rewrite !node_at_set, Ei. split; [rewrite list_lookup_insert_eq; [done|by apply lookup_lt_Some in El]|].
  split; [|split; [apply length_insert|done]]. intros j Hj. rewrite node_at_set. unfold node_at. case_if; [done|].
  rewrite list_lookup_insert_ne; [done|lia].
Qed.

Lemma created_trans s s1 s2 lo mid hi : created s s1 lo mid -> created s1 s2 mid hi -> lo <= mid <= hi -> created s s2 lo hi.
Proof.
  intros (A1 & A2 & A3 & A4 & A5 & A6 & A7 & A8 & A9) (B1 & B2 & B3 & B4 & B5 & B6 & B7 & B8 & B9) Hr.
  split; [done|]. split; [congruence|]. split; [intros j Hj; rewrite B3, A3 by lia; done|]. split; [congruence|].
  split; [|split; [|split; [congruence|split; congruence]]].
  - intros h (j & Hj & Hh). destruct (decide (j < mid)).
    + rewrite B6; [apply A5; exists j; split; [lia|done]|]. intros (k & Hk & Hhk). unfold trigger_edicts, solid_edicts in *. lia.
    + apply B5. exists j. split; [lia|done].
  - intros h Hh. rewrite B6, A6; [done| |]; intros (j & Hj & Hhj); apply Hh; exists j; (split; [lia|done]).
Qed.

Lemma created_upd s s1 lo hi f n : created s s1 lo hi -> node_at s1 lo = Ok n -> exists s2, upd_node lo f s1 = Ok s2 /\
  created s s2 lo hi /\ node_at s2 lo = Ok (f n) /\ (forall j, j <> lo -> node_at s2 j = node_at s1 j).
Proof.
  intros (A1 & A2 & A3 & A4 & A5 & A6 & A7 & A8 & A9) Hn.
  destruct (upd_node_ok lo f s1 n Hn) as (s2 & E & H1 & H2 & H3 & H4 & H5 & H6 & H7 & H8 & H9).
  exists s2. split; [done|]. split; [|done]. unfold created. rewrite H3, H4, H5, H6, H7, H8, H9.
  split; [done|]. split; [done|]. split; [intros j Hj; rewrite H2 by lia; auto|done].
Qed.

(** A new node with empty lists. *)
Lemma created_one s n : let lo := sv_numareanodes s in node_at s lo = Ok n -> created s
  (set_links (ClearLink (solid_edicts lo) (links (set_links (ClearLink (trigger_edicts lo) (links s)) (set_numareanodes (lo + 1) s))))
     (set_links (ClearLink (trigger_edicts lo) (links s)) (set_numareanodes (lo + 1) s))) lo (lo + 1).
Proof.
  intros lo Hn. unfold created. cbn [sv_numareanodes sv_areanodes ents links self other time set_links set_numareanodes].
  split; [done|]. split; [done|]. split; [done|]. split; [done|]. split; [|split; [|done]].
  - intros h (j & Hj & Hh). assert (j = lo) as -> by lia. unfold ClearLink, trigger_edicts, solid_edicts in *.
    destruct Hh as [->| ->]; [rewrite lookup_insert_ne by lia|]; by rewrite lookup_insert_eq.
  - intros h Hh. unfold ClearLink. rewrite !lookup_insert_ne; [done| |]; intros <-; apply Hh; exists lo; (split; [lia|]); auto.
Qed.

Lemma create_spec d : forall mins maxs s, let lo := sv_numareanodes s in let hi := lo + tree_size d in
  0 <= lo -> hi <= zlen (sv_areanodes s) -> exists s',
  SV_CreateAreaNode d mins maxs s = Ok (lo, s') /\ created s s' lo hi /\ area_tree s' lo hi (S d) lo.
Proof.
  induction d as [|d IH]; intros mins maxs s lo hi Hlo Hhi;
    match goal with hi := _ + tree_size ?k |- _ => pose proof (tree_size_pos k) as Hp end;
    (destruct (node_at_ok s lo) as [n Hn]; [unfold hi in Hhi; lia|]);
    pose proof (created_one s n Hn) as Hc; fold lo in Hc; cbn [SV_CreateAreaNode]; fold lo;
    change (node_at (set_numareanodes (lo + 1) s) lo) with (node_at s lo); rewrite Hn, bind_Ok;
    set (s1 := set_links (ClearLink (solid_edicts lo) _) _) in *.
  - destruct (created_upd _ _ _ _ (fun n => AreaNode (-1) (dist n) (-1) (-1)) _ Hc Hn) as (s2 & E2 & Hc2 & Hn2 & _).
    rewrite E2, bind_Ok. exists s2. split; [done|]. split; [done|]. apply (tree_leaf _ _ _ _ _ _ Hn2); [|done]. unfold hi. cbn. lia.
  - set (ax := if f_ltb _ _ then 0 else 1). set (dd := f32_of_f64 _).
    assert (hi = lo + 1 + tree_size d + tree_size d) as Ehi by (unfold hi; rewrite tree_size_S; lia).
    destruct (created_upd _ _ _ _ (set_axis ax dd) _ Hc Hn) as (s2 & E2 & Hc2 & Hn2 & _). rewrite E2, bind_Ok. clear E2 Hc.
    destruct (IH (vset mins ax dd) maxs s2) as (s3 & E3 & Hc3 & Ht3).
    { destruct Hc2 as (-> & _). lia. } { destruct Hc2 as (-> & -> & _). lia. }
    assert (sv_numareanodes s2 = lo + 1) as En2 by apply Hc2. rewrite En2 in *. rewrite E3, bind_Ok. clear E3.
    assert (node_at s3 lo = Ok (set_axis ax dd n)) as Hn3 by (destruct Hc3 as (_ & _ & -> & _); [done|lia]).
    pose proof (created_trans _ _ _ _ _ _ Hc2 Hc3 ltac:(lia)) as Hc3'.
    destruct (created_upd _ _ _ _ (set_child0 (lo + 1)) _ Hc3' Hn3) as (s4 & E4 & Hc4 & Hn4 & Hf4). rewrite E4, bind_Ok. clear E4.
    destruct (IH mins (vset maxs ax dd) s4) as (s5 & E5 & Hc5 & Ht5).
    { destruct Hc4 as (-> & _). lia. } { destruct Hc4 as (-> & -> & _). lia. }
    assert (sv_numareanodes s4 = lo + 1 + tree_size d) as En4 by apply Hc4. rewrite En4 in *. rewrite E5, bind_Ok. clear E5.
    assert (forall j, 0 <= j < lo + 1 + tree_size d -> node_at s5 j = node_at s4 j) as Hf5 by apply Hc5.
    assert (node_at s5 lo = Ok (set_child0 (lo + 1) (set_axis ax dd n))) as Hn5 by (rewrite Hf5; [done|lia]).
    pose proof (created_trans _ _ _ _ _ _ Hc4 Hc5 ltac:(lia)) as Hc5'. rewrite <- Ehi in *.
    destruct (created_upd _ _ _ _ (set_child1 (lo + 1 + tree_size d)) _ Hc5' Hn5) as (s6 & E6 & Hc6 & Hn6 & Hf6). rewrite E6, bind_Ok. clear E6.
    exists s6. split; [done|]. split; [done|].
    eapply (tree_node _ _ _ _ _ _ Hn6); [lia|cbn; unfold ax; case_if; lia| |]; cbn [child0 child1 set_child0 set_child1 set_axis].
    + eapply area_tree_weaken; [|instantiate (1 := lo + 1); lia|instantiate (1 := lo + 1 + tree_size d); lia].
      eapply area_tree_frame; [exact Ht3|]. intros j Hj. rewrite Hf6, Hf5, Hf4 by lia. done.
    + eapply area_tree_weaken; [|instantiate (1 := lo + 1 + tree_size d); lia|instantiate (1 := hi); lia].
      eapply area_tree_frame; [exact Ht5|]. intros j Hj. by rewrite Hf6 by lia.
Qed.

(** ** The invariant of the world *)

(** Every entity in a list is known, and its box belongs to the node of the list. *)
Record world_ok (s : wst) (L : lists) : Prop := WorldOk {
  wk_areas : areas_ok (links s) L;
  wk_tree : area_tree s 0 (sv_numareanodes s) (S AREA_DEPTH) 0;
  wk_heads : forall j, 0 <= j < sv_numareanodes s -> is_Some (L !! trigger_edicts j) /\ is_Some (L !! solid_edicts j);
  wk_ents : forall e t, ents s !! e = Some t -> 0 <= e /\ is_Some (links s !! area e);
  wk_placed : forall h l a, L !! h = Some l -> a ∈ l -> exists t j, ents s !! EDICT_FROM_AREA a = Some t /\
    (h = trigger_edicts j \/ h = solid_edicts j) /\ placed s (v_absmin t) (v_absmax t) 0 j
}.

(** Empty lists at the sentinels of nodes 0 to [n - 1]. *)
Definition fresh_lists (n : Z) : lists := list_to_map ((fun h => (h, [])) <$> seqZ (- (2 * n)) (2 * n)).

Lemma fresh_lookup n h l : fresh_lists n !! h = Some l <-> l = [] /\ - (2 * n) <= h < 0.
Proof.
  unfold fresh_lists. rewrite <- elem_of_list_to_map.
  - rewrite list_elem_of_fmap. split.
    + intros (x & Hx & Hin). injection Hx as -> ->. apply elem_of_seqZ in Hin. split; [done|lia].
    + intros [-> Hh]. exists h. split; [done|]. apply elem_of_seqZ. lia.
  - rewrite <- list_fmap_compose. unfold compose. cbn. rewrite list_fmap_id. apply NoDup_seqZ.
Qed.

Lemma head_number n h : - (2 * n) <= h < 0 <-> is_head 0 n h.
Proof.
  unfold is_head, trigger_edicts, solid_edicts. split; [|intros (j & Hj & [->| ->]); lia].
  intros Hh. exists ((- h - 1) / 2). pose proof (Z.div_mod (- h - 1) 2 ltac:(lia)). pose proof (Z.mod_pos_bound (- h - 1) 2 ltac:(lia)). lia.
Qed.

Lemma clear_world_ok mins maxs s :
  (forall e t, ents s !! e = Some t -> 0 <= e /\ is_Some (links s !! area e)) ->
  (forall a n, 0 < a -> links s !! a = Some n -> n = Link 0 0) ->
  exists s', SV_ClearWorld mins maxs s = Ok s' /\ sv_numareanodes s' = 31 /\ ents s' = ents s /\ world_ok s' (fresh_lists 31).
Proof.
  intros He Hn. unfold SV_ClearWorld. set (s0 := set_numareanodes 0 _).
  destruct (create_spec AREA_DEPTH mins maxs s0) as (s' & E & Hc & Ht); [by_vm..|].
  rewrite E, bind_Ok. exists s'. clear E. change (sv_numareanodes s0) with 0 in *. change (0 + tree_size AREA_DEPTH) with 31 in *.
  destruct Hc as (H1 & H2 & H3 & H4 & H5 & H6 & _). change (ents s0) with (ents s) in H4. change (links s0) with (links s) in H6.
  assert (forall a, 0 < a -> links s' !! a = links s !! a) as Hpos.
  { intros a Ha. apply H6. intros Hh. apply head_number in Hh. lia. }
  split; [done|]. split; [done|]. split; [done|]. split.
  - split.
    + intros h l [-> Hh]%fresh_lookup. split; [lia|]. split; [|split; constructor].
      assert (links s' !! h = Some (Link h h)) as El by (by apply H5, head_number).
      unfold ring. cbn [path app]. unfold edge, fget. rewrite El. split; [split; reflexivity|exact I].
    + intros h1 h2 l1 l2 a [-> _]%fresh_lookup _ Ha. by apply not_elem_of_nil in Ha.
    + intros a n Ha El _. rewrite Hpos in El by done. by eapply Hn.
  - by rewrite H1.
  - intros j Hj. rewrite H1 in Hj. split; exists []; apply fresh_lookup; (split; [done|unfold trigger_edicts, solid_edicts; lia]).
  - intros e t Et. rewrite H4 in Et. destruct (He e t Et) as [Hpe Hl]. split; [done|]. rewrite Hpos by (unfold area; lia). done.
  - intros h l a [-> _]%fresh_lookup Ha. by apply not_elem_of_nil in Ha.
Qed.

(** Clearing the world builds the whole area tree: 31 of the 32 nodes are used, whatever the
    bounds of the world are, every node has two empty lists, and the entities are untouched. *)
Theorem SV_ClearWorld_spec mins maxs s :
  (forall e t, ents s !! e = Some t -> 0 <= e /\ is_Some (links s !! area e)) ->
  (forall a n, 0 < a -> links s !! a = Some n -> n = Link 0 0) ->
  exists s', SV_ClearWorld mins maxs s = Ok s' /\ sv_numareanodes s' = 31 /\ ents s' = ents s /\ world_ok s' (fresh_lists 31).
Proof. apply clear_world_ok. Qed.

(** The lists without one link. *)
Definition drop_link (a : Z) (L : lists) : lists := filter (fun b => b <> a) <$> L.

Lemma drop_link_out a L : ~ in_lists (drop_link a L) a.
Proof.
  intros (h & l & Hl & Ha). unfold drop_link in Hl. rewrite lookup_fmap in Hl. destruct (L !! h); [|done]. cbn in Hl. simplify_eq.
  apply list_elem_of_filter in Ha as [Ha _]. done.
Qed.

Lemma filter_ne_id (a : Z) (l : list Z) : a ∉ l -> filter (fun b => b <> a) l = l.
Proof.
  induction l as [|b l IH]; intros Ha; [done|]. rewrite filter_cons_True by (intros ->; apply Ha; by left).
  f_equal. apply IH. intros Hin. apply Ha. by right.
Qed.

Lemma drop_link_id a L : ~ in_lists L a -> drop_link a L = L.
Proof.
  intros H. apply map_eq. intros h. unfold drop_link. rewrite lookup_fmap. destruct (L !! h) as [l|] eqn:El; [|done]. cbn. f_equal.
  apply filter_ne_id. intros Ha. apply H. by exists h, l.
Qed.

Lemma drop_link_insert m L h l1 a l2 : areas_ok m L -> L !! h = Some (l1 ++ a :: l2) -> drop_link a L = <[h := l1 ++ l2]> L.
Proof.
  intros H Hl. apply map_eq. intros h'. unfold drop_link. rewrite lookup_fmap. destruct (decide (h' = h)) as [->|Hne].
  - rewrite Hl, lookup_insert_eq. cbn. f_equal. destruct (list_nodup _ _ _ _ H Hl) as ((_ & Hnd)%NoDup_cons & _).
    apply NoDup_app in Hnd as (_ & H2 & (H3 & _)%NoDup_cons). rewrite filter_app, filter_cons_False by tauto.
    rewrite !filter_ne_id; [done|done|]. clear -H2. set_solver.
  - rewrite lookup_insert_ne by done. destruct (L !! h') as [l|] eqn:El; [|done]. cbn. f_equal. apply filter_ne_id.
    intros Ha. apply Hne. eapply (ao_disjoint _ _ H); [done|done|done|]. clear. set_solver.
Qed.

Lemma drop_link_lookup a L h l : drop_link a L !! h = Some l -> exists l', L !! h = Some l' /\ l = filter (fun b => b <> a) l'.
Proof. unfold drop_link. rewrite lookup_fmap. destruct (L !! h); cbn; intros; simplify_eq. eauto. Qed.

(** The world with other links, and an entity that is in no list changed. *)
Lemma world_ok_change s L L' m es : world_ok s L -> areas_ok m L' -> dom m = dom (links s) ->
  (forall h, is_Some (L !! h) -> is_Some (L' !! h)) ->
  (forall e t, es !! e = Some t -> is_Some (ents s !! e)) ->
  (forall h l a, L' !! h = Some l -> a ∈ l -> (in_lists L a /\ (exists l, L !! h = Some l /\ a ∈ l) /\ es !! EDICT_FROM_AREA a = ents s !! EDICT_FROM_AREA a) \/
     (exists t j, es !! EDICT_FROM_AREA a = Some t /\ (h = trigger_edicts j \/ h = solid_edicts j) /\ placed s (v_absmin t) (v_absmax t) 0 j)) ->
  world_ok (set_links m (set_ents es s)) L'.
Proof.
  intros Hs Ha Hd Hh He Hp. split; cbn [links ents sv_numareanodes set_links set_ents].
  - done.
  - eapply area_tree_frame; [apply (wk_tree _ _ Hs)|done].
  - intros j Hj. destruct (wk_heads _ _ Hs j Hj). auto.
  - intros e t Et. destruct (He e t Et) as [t' Et']. destruct (wk_ents _ _ Hs e t' Et') as [H1 H2]. split; [done|].
    apply elem_of_dom. rewrite Hd. by apply elem_of_dom.
  - intros h l a Hl Hin. destruct (Hp h l a Hl Hin) as [(_ & (l' & Hl' & Hin') & E)|(t & j & E & Hj & Hpl)].
    + destruct (wk_placed _ _ Hs h l' a Hl' Hin') as (t & j & Et & Hj & Hpl). exists t, j. rewrite E. split; [done|].
      split; [done|]. by eapply placed_frame.
    + exists t, j. split; [done|]. split; [done|]. by eapply placed_frame.
Qed.

(** Unlinking an entity takes it out of its list, if it is in one. *)
Lemma unlink_spec s L e t : world_ok s L -> ents s !! e = Some t -> exists m,
  SV_UnlinkEdict e s = Ok (set_links m s) /\ world_ok (set_links m s) (drop_link (area e) L) /\
  areas_ok m (drop_link (area e) L) /\ dom m = dom (links s).
Proof.
  intros Hs He. destruct (wk_ents _ _ Hs e t He) as [Hpe [n En]]. unfold SV_UnlinkEdict.
  rewrite (link_at_ok _ _ n), bind_Ok by done. pose proof (wk_areas _ _ Hs) as Ha.
  destruct (l_prev n =? 0) eqn:Ep; bool_props.
  - assert (~ in_lists L (area e)) as Hout.
    { intros (h & l & Hl & (l1 & l2 & ->)%list_elem_of_split). destruct (ao_ring _ _ Ha h _ Hl) as (Hh & Hr & Hnd & Hp).
      destruct (ring_at _ _ _ _ _ _ _ Hr) as [_ Hpv]. unfold fget in Hpv. rewrite En in Hpv. cbn in Hpv. injection Hpv as Hpv.
      rewrite Ep in Hpv. apply Forall_app in Hp as [Hp _]. destruct (lastz_pos h l1 0); [done|done|done|lia|lia]. }
    exists (links s). rewrite drop_link_id by done. split; [by destruct s|]. split; [by destruct s|done].
  - destruct (decide (in_lists L (area e))) as [(h & l & Hl & (l1 & l2 & ->)%list_elem_of_split)|Hno].
    2: { pose proof (ao_free _ _ Ha (area e) n ltac:(unfold area; lia) En Hno) as ->. done. }
    destruct (remove_ok _ _ _ _ _ _ Ha Hl) as (m & Hm & Hm2 & _ & Hd). rewrite <- (drop_link_insert _ _ _ _ _ _ Ha Hl) in Hm2.
    exists m. unfold mbind in Hm. destruct (RemoveLink (area e) (links s)) as [m1|]; [|done]. rewrite bind_Ok. cbn in Hm. rewrite Hm, bind_Ok.
    split; [done|]. split; [|done]. replace (set_links m s) with (set_links m (set_ents (ents s) s)) by (by destruct s).
    eapply world_ok_change; [done|done|done| |eauto|].
    + intros h' [l' Hl']. unfold drop_link. rewrite lookup_fmap, Hl'. by eexists.
    + intros h' l' a Hl' Ha'. apply drop_link_lookup in Hl' as (k & Hk & ->). apply list_elem_of_filter in Ha' as [_ Ha'].
      left. split; [by exists h', k|]. split; [by exists k|done].
Qed.

(** ** Linking *)

(** An entity with its box in the world and the leafs it touches. *)
Definition linked_ent (world_nodes : mnode) (a : ent) : ent :=
  let '(lo, hi) := abs_box a in
  set_leafs (if f_truth (v_modelindex a) then SV_FindTouchedLeafs lo hi world_nodes [] else []) (set_abs lo hi a).

(** What linking entity [e], that is [a], makes of the lists. *)
Definition linked_lists (s : wst) (e : Z) (a : ent) (L L' : lists) : Prop :=
  if is_solid a SOLID_NOT then L' = drop_link (area e) L
  else exists j l, let h := if is_solid a SOLID_TRIGGER then trigger_edicts j else solid_edicts j in
    placed s (abs_box a).1 (abs_box a).2 0 j /\ drop_link (area e) L !! h = Some l /\
    L' = <[h := l ++ [area e]]> (drop_link (area e) L).

Lemma unlink_first s e n : link_at (links s) (area e) = Ok n ->
  (if negb (l_prev n =? 0) then SV_UnlinkEdict e s else mret s) = SV_UnlinkEdict e s.
Proof. intros Hn. destruct (l_prev n =? 0) eqn:E; cbn [negb]; [|done]. unfold SV_UnlinkEdict. by rewrite Hn, bind_Ok, E. Qed.

(** The other entities keep their place when entity [e] changes. *)
Lemma placed_others s L e (a' : ent) h l b : drop_link (area e) L !! h = Some l -> b ∈ l ->
  in_lists (drop_link (area e) L) b /\ (exists l, drop_link (area e) L !! h = Some l /\ b ∈ l) /\
  <[e := a']> (ents s) !! EDICT_FROM_AREA b = ents s !! EDICT_FROM_AREA b.
Proof.
  intros Hl Hb. split; [by exists h, l|]. split; [by exists l|]. rewrite lookup_insert_ne; [done|].
  intros ->. apply (drop_link_out (area (EDICT_FROM_AREA b)) L). exists h, l. split; [done|].
  replace (area (EDICT_FROM_AREA b)) with b; [done|]. unfold area, EDICT_FROM_AREA. lia.
Qed.

Lemma link_edict_spec world_nodes s L e a : world_ok s L -> ents s !! e = Some a -> exists r s' L',
  link_edict world_nodes e s = Ok (r, s') /\ world_ok s' L' /\ sv_areanodes s' = sv_areanodes s /\
  (if (e =? 0) || e_free a then r = false /\ ents s' = ents s /\ L' = drop_link (area e) L
   else r = negb (is_solid a SOLID_NOT) /\ ents s' = <[e := linked_ent world_nodes a]> (ents s) /\ linked_lists s e a L L').
Proof.
  intros Hw Ha. destruct (wk_ents _ _ Hw e a Ha) as [Hpe [n En]]. unfold link_edict. rewrite (link_at_ok _ _ n), bind_Ok by done.
  rewrite (unlink_first s e n) by (by apply link_at_ok). destruct (unlink_spec s L e a Hw Ha) as (m & Hu & Hw1 & Ham & Hd). rewrite Hu, bind_Ok.
  destruct (e =? 0) eqn:Ee; [by exists false, (set_links m s), (drop_link (area e) L)|].
  unfold ent_at. cbn [ents set_links]. rewrite Ha. cbn [of_option orb]. rewrite bind_Ok.
  destruct (e_free a); [by exists false, (set_links m s), (drop_link (area e) L)|].
  unfold linked_ent, linked_lists. destruct (abs_box a) as [lo hi] eqn:Ebox. cbn [fst snd].
  set (a' := set_leafs _ _). change (is_solid a' ?k) with (is_solid a k).
  assert (forall es m', set_links m' (set_ents es (set_links m s)) = set_links m' (set_ents es s)) as Eset by done.
  destruct (is_solid a SOLID_NOT); cbn [negb].
  - exists false. eexists. exists (drop_link (area e) L). split; [done|]. split; [|done].
    change (set_ents (<[e := a']> (ents s)) (set_links m s)) with (set_links m (set_ents (<[e := a']> (ents s)) (set_links m s))).
    eapply world_ok_change; [exact Hw1|done|done|done| |].
    + intros e' t Et. cbn. destruct (decide (e' = e)) as [->|]; [by eexists|]. rewrite lookup_insert_ne in Et by done. by eexists.
    + intros h l b Hl Hb. left. by apply (placed_others s L e a' h l b).
  - set (s1 := set_ents _ _). assert (area_tree s1 0 (sv_numareanodes s) (Z.to_nat AREA_NODES) 0) as Ht.
    { eapply area_tree_depth; [apply (area_tree_frame (set_links m s)); [apply (wk_tree _ _ Hw1)|done]|unfold AREA_DEPTH, AREA_NODES; lia]. }
    destruct (find_node_spec _ _ _ lo hi _ _ Ht) as (j & -> & Hp). rewrite bind_Ok.
    pose proof (placed_range _ _ _ _ _ _ _ Hp _ Ht) as Hj.
    set (h := if is_solid a SOLID_TRIGGER then trigger_edicts j else solid_edicts j).
    assert (is_Some (drop_link (area e) L !! h)) as [l Hl] by (destruct (wk_heads _ _ Hw1 j Hj); unfold h; by case_if).
    destruct (area_insert_ok m _ h l (area e) Ham Hl) as (m' & Hm' & Ham' & Hd').
    { unfold area. lia. } { apply drop_link_out. } { apply elem_of_dom. rewrite Hd. apply elem_of_dom. by eexists. }
    change (links s1) with m. rewrite Hm', bind_Ok. exists true. eexists. exists (<[h := l ++ [area e]]> (drop_link (area e) L)). split; [done|].
    split; [|split; [done|split; [done|split; [done|exists j, l; split; [by eapply placed_frame|done]]]]].
    eapply (world_ok_change (set_links m s)); [exact Hw1|done|done| | |].
    + intros h' Hh'. destruct (decide (h' = h)) as [->|]; [by rewrite lookup_insert_eq; eexists|by rewrite lookup_insert_ne].
    + intros e' t Et. cbn. destruct (decide (e' = e)) as [->|]; [by eexists|]. rewrite lookup_insert_ne in Et by done. by eexists.
    + intros h' l' b Hl' Hb. destruct (decide (b = area e)) as [->|Hbe].
      * right. exists a', j. assert (EDICT_FROM_AREA (area e) = e) as -> by (unfold area, EDICT_FROM_AREA; lia).
        rewrite lookup_insert_eq. split; [done|]. split; [|by eapply placed_frame].
        destruct (decide (h' = h)) as [->|Hne]; [unfold h; case_if; auto|]. rewrite lookup_insert_ne in Hl' by done.
        destruct (drop_link_out (area e) L). by exists h', l'.
      * left. assert (exists k, drop_link (area e) L !! h' = Some k /\ b ∈ k) as (k & Hk & Hbk).
        { destruct (decide (h' = h)) as [->|]; [|rewrite lookup_insert_ne in Hl' by done; eauto].
          rewrite lookup_insert_eq in Hl'. injection Hl' as <-. exists l. split; [done|].
          apply elem_of_app in Hb as [Hb|Hb%list_elem_of_singleton]; [done|done]. }
        by apply (placed_others s L e a' h' k b).
Qed.

(** Unlinking an entity takes it out of whatever list it is in and leaves everything else. *)
Theorem SV_UnlinkEdict_spec s L e t : world_ok s L -> ents s !! e = Some t -> exists s',
  SV_UnlinkEdict e s = Ok s' /\ world_ok s' (drop_link (area e) L) /\ ~ in_lists (drop_link (area e) L) (area e) /\
  ents s' = ents s /\ sv_areanodes s' = sv_areanodes s.
Proof.
  intros Hw He. destruct (unlink_spec s L e t Hw He) as (m & E & H & _). exists (set_links m s).
  split; [done|]. split; [done|]. split; [apply drop_link_out|done].
Qed.

(** * Moves find the nearest obstacle *)

(** A trace that never got out of the solid also started in it. *)
Definition solid_start (t : trace) : Prop := allsolid t = true -> startsolid t = true.

Lemma mark_solid_start c t : solid_start (mark c t).
Proof. unfold solid_start, mark. repeat case_if; cbn; done. Qed.

Lemma hull_check_solid_start h : forall fuel num p1f p2f p1 p2 t r t',
  SV_RecursiveHullCheck fuel h num p1f p2f p1 p2 t = Ok (r, t') -> solid_start t'.
Proof.
  induction fuel as [|fuel IH]; intros num p1f p2f p1 p2 t r t' H; cbn [SV_RecursiveHullCheck] in H.
  - case_if_in H; [|done]. injection H as _ <-. apply mark_solid_start.
  - case_if_in H; [injection H as _ <-; apply mark_solid_start|]. case_if_in H; [done|].
    apply bind_Ok_inv in H as (node & _ & H). apply bind_Ok_inv in H as (pl & _ & H).
    case_if_in H; [by eapply IH|]. case_if_in H; [by eapply IH|].
    apply bind_Ok_inv in H as ([r1 t1] & Hnear & H). apply IH in Hnear.
    case_if_in H; [by injection H as _ <-|].
    apply bind_Ok_inv in H as (c & _ & H). case_if_in H; [by eapply IH|].
    case_if_in H; [by injection H as _ <-|].
    apply bind_Ok_inv in H as ([midf mid] & _ & H). injection H as _ <-.
    unfold solid_start in *. case_if; exact Hnear.
Qed.

Section nearest.
Context (models : list (option model)) (player : Z) (casper : bool) (s : wst) (L : lists) (clip : moveclip).
Hypothesis Hworld : world_ok s L.

(** The trace against one entity alone. *)
Definition entity_trace (e : Z) (t : ent) : res trace :=
  let monster := has (f_to_int (v_flags t)) FL_MONSTER in
  SV_ClipMoveToEntity models e t (m_start clip) (if monster then m_mins2 clip else m_mins clip)
    (if monster then m_maxs2 clip else m_maxs clip) (m_end clip).

(** Entity [e], that is [t], is one the move can hit: it is near the move and not excluded. *)
Definition obstacle (e : Z) (t : ent) : Prop :=
  ents s !! e = Some t /\ clips clip s e t = Ok true /\ owner_skip player casper clip s e t = Ok false.

(** Entity [e] is in the list of solid entities of a node. *)
Definition in_solid (e : Z) : Prop := exists j l, L !! solid_edicts j = Some l /\ area e ∈ l.

Lemma entity_trace_start e t te : entity_trace e t = Ok te -> solid_start te.
Proof.
  unfold entity_trace, SV_ClipMoveToEntity. intros ([h off] & _ & ([r t'] & H & Ht)%bind_Ok_inv)%bind_Ok_inv.
  apply hull_check_solid_start in H. injection Ht as <-. unfold solid_start in *. repeat case_if; exact H.
Qed.

(** What clipping against the entities [E] makes of the trace [tr]. *)
Record tracks (E : Z -> Prop) (tr tr' : trace) : Prop := Tracks {
  tk_keeps : startsolid tr = true -> startsolid tr' = true;
  tk_start : solid_start tr';
  tk_why : startsolid tr' = true -> startsolid tr = true \/ exists e t te, in_solid e /\ obstacle e t /\ entity_trace e t = Ok te /\ startsolid te = true;
  tk_nearer : startsolid tr' = false -> fraction tr' = fraction tr \/ f_ltb (fraction tr') (fraction tr) = true;
  tk_free : startsolid tr' = false -> forall e t, E e -> obstacle e t -> exists te, entity_trace e t = Ok te /\
    startsolid te = false /\ f_ltb (fraction te) (fraction tr') = false;
  tk_hit : startsolid tr' = false -> tr' = tr \/ exists e t te, in_solid e /\ obstacle e t /\ entity_trace e t = Ok te /\ tr' = set_t_ent (Some e) te
}.

Lemma tracks_refl E tr : solid_start tr -> (forall e t, E e -> ~ obstacle e t) \/ startsolid tr = true -> tracks E tr tr.
Proof.
  intros Hs HE. split; try done; [auto|by left| |by left].
  intros Hf e t He Ho. destruct HE as [HE|]; [by destruct (HE e t)|congruence].
Qed.

Lemma tracks_trans E1 E2 tr tr1 tr2 : tracks E1 tr tr1 -> tracks E2 tr1 tr2 -> tracks (fun e => E1 e \/ E2 e) tr tr2.
Proof.
  intros [A1 A2 A3 A4 A5 A6] [B1 B2 B3 B4 B5 B6].
  assert (startsolid tr2 = false -> startsolid tr1 = false) as Hf by (intros Hf; destruct (startsolid tr1); [by rewrite B1 in Hf|done]).
  split; [auto|done| | | |].
  - intros H. destruct (B3 H) as [H1|H1]; [auto|by right].
  - intros H. specialize (A4 (Hf H)). destruct (B4 H) as [->|Hlt]; [done|right]. destruct A4 as [<-|Hlt2]; [done|by eapply f_ltb_trans].
  - intros H e t [He|He] Ho; [|by eapply B5]. destruct (A5 (Hf H) e t He Ho) as (te & E & Hs & Hlt). exists te. split; [done|]. split; [done|].
    destruct (B4 H) as [->|Hlt2]; [done|]. destruct (f_ltb (fraction te) (fraction tr2)) eqn:El; [|done].
    by rewrite (f_ltb_trans _ _ _ El Hlt2) in Hlt.
  - intros H. destruct (B6 H) as [->|H1]; [auto|by right].
Qed.

Lemma tracks_weaken E E' tr tr' : tracks E tr tr' -> (forall e, E' e -> forall t, obstacle e t -> E e) -> tracks E' tr tr'.
Proof. intros [A1 A2 A3 A4 A5 A6] HE. split; eauto. Qed.

(** One entity. *)
Lemma clip_to_tracks e t te tr : in_solid e -> obstacle e t -> entity_trace e t = Ok te -> solid_start tr -> exists tr',
  clip_to models clip e t tr = Ok tr' /\ tracks (fun e' => e' = e) tr tr'.
Proof.
  intros Hin Ho Hte Hs. pose proof (entity_trace_start _ _ _ Hte) as Hts. unfold clip_to. fold (entity_trace e t). rewrite Hte, bind_Ok. eexists. split; [done|].
  assert (forall t', obstacle e t' -> t' = t) as Hsame by (intros t' [H1 _]; destruct Ho as [H2 _]; congruence).
  pose proof (f_ltb_irrefl (fraction te)) as Hirr.
  destruct (startsolid te) eqn:Est.
  - rewrite orb_true_r. cbn [orb]. set (tr' := if startsolid tr then _ else _).
    assert (startsolid tr' = true) as Etr' by (unfold tr'; by destruct (startsolid tr)).
    split; try congruence. intros _. right. by exists e, t, te.
  - assert (allsolid te = false) as Eal by (destruct (allsolid te) eqn:Ea; [by rewrite (Hts Ea) in Est|done]). rewrite Eal. cbn [orb].
    destruct (f_ltb (fraction te) (fraction tr)) eqn:Elt.
    + destruct (startsolid tr) eqn:Etr.
      * split; cbn; try congruence; [intros _; done|by left].
      * split; cbn; [congruence| |congruence|by right| |].
        -- unfold solid_start. cbn. congruence.
        -- intros _ e' t' -> Ho'. rewrite (Hsame _ Ho'). by exists te.
        -- intros _. right. by exists e, t, te.
    + split; [done|done|by left|by left| |by left]. intros _ e' t' -> Ho'. rewrite (Hsame _ Ho'). by exists te.
Qed.

Hypothesis Hpass : forall pe, passedict clip = Some pe -> is_Some (ents s !! pe).
(** No trigger is in a list of solid entities, and each trace against an obstacle returns. *)
Hypothesis Hsolid : forall e t, in_solid e -> ents s !! e = Some t ->
  is_solid t SOLID_TRIGGER = false /\ (obstacle e t -> exists te, entity_trace e t = Ok te).

Lemma clips_ok e t : is_solid t SOLID_TRIGGER = false -> exists b, clips clip s e t = Ok b.
Proof.
  intros Ht. unfold clips. rewrite Ht. repeat (case_if; [by eexists|]). destruct (passedict clip) as [pe|] eqn:Ep; [|by eexists].
  destruct (Hpass pe) as [p Hp]; [congruence|]. unfold ent_at. rewrite Hp. by eexists.
Qed.

Lemma owner_skip_ok e t : exists b, owner_skip player casper clip s e t = Ok b.
Proof.
  unfold owner_skip. destruct (passedict clip) as [pe|] eqn:Ep; [|by eexists].
  destruct (Hpass pe) as [p Hp]; [congruence|]. unfold ent_at. rewrite Hp. by eexists.
Qed.

Lemma tracks_none E tr : solid_start tr -> (forall e t, E e -> ~ obstacle e t) -> tracks E tr tr.
Proof. intros. apply tracks_refl; auto. Qed.

Lemma clip_list_tracks j : forall l2 l1 fuel tr, L !! solid_edicts j = Some (l1 ++ l2) -> (length l2 <= fuel)%nat -> solid_start tr ->
  exists stop tr', clip_list models player casper fuel clip s (solid_edicts j) (firstz l2 (solid_edicts j)) tr = Ok (stop, tr') /\
    tracks (fun e => area e ∈ l2) tr tr' /\ (stop = true -> startsolid tr' = true).
Proof.
  induction l2 as [|a l2 IH]; intros l1 fuel tr Hl Hf Hs.
  { exists false, tr. cbn [firstz]. split; [by destruct fuel; cbn; rewrite Z.eqb_refl|]. split; [|done]. apply tracks_none; [done|]. intros e t He. by apply not_elem_of_nil in He. }
  destruct fuel as [|fuel]; [cbn in Hf; lia|]. cbn [firstz clip_list].
  pose proof (wk_areas _ _ Hworld) as Ha. destruct (ao_ring _ _ Ha _ _ Hl) as (Hh & Hr & Hnd & Hp).
  assert (0 < a) as Hpa by (rewrite Forall_forall in Hp; apply Hp; set_solver). assert (a =? solid_edicts j = false) as -> by lia.
  destruct (ring_at _ _ _ _ _ _ _ Hr) as [Hnx _]. unfold fget in Hnx. destruct (links s !! a) as [n|] eqn:En; [|done]. cbn in Hnx. injection Hnx as Hnx.
  rewrite (link_at_ok _ _ _ En), bind_Ok, Hnx. destruct (wk_placed _ _ Hworld _ _ a Hl ltac:(set_solver)) as (t & _ & Et & _).
  set (e := EDICT_FROM_AREA a) in *. assert (area e = a) as Hae by (unfold area, e, EDICT_FROM_AREA; lia).
  assert (in_solid e) as Hin by (exists j, (l1 ++ a :: l2); split; [done|rewrite Hae; set_solver]).
  destruct (Hsolid e t Hin Et) as [Htrig Htrace]. unfold ent_at. rewrite Et. cbn [of_option]. rewrite bind_Ok.
  assert (forall e', area e' = a -> e' = e) as Hinj by (intros e' He'; unfold area in *; lia).
  assert (L !! solid_edicts j = Some ((l1 ++ [a]) ++ l2)) as Hl' by (by rewrite <- app_assoc).
  assert (forall tr1 tr2, tracks (fun e' => e' = e) tr tr1 -> tracks (fun e' => area e' ∈ l2) tr1 tr2 -> tracks (fun e' => area e' ∈ a :: l2) tr tr2) as Hjoin.
  { intros tr1 tr2 H1 H2. eapply tracks_weaken; [by eapply tracks_trans|]. intros e' [He'|He']%elem_of_cons _ _; [left; by apply Hinj|by right]. }
  assert (~ obstacle e t -> tracks (fun e' => e' = e) tr tr) as Hskip.
  { intros Hno. apply tracks_none; [done|]. intros e' t' -> Ho. apply Hno. assert (t' = t) as <- by (destruct Ho as [Ho _]; congruence). done. }
  destruct (clips_ok e t Htrig) as [b Hb]. rewrite Hb, bind_Ok. destruct b; cbn [negb].
  2: { destruct (IH _ fuel tr Hl' ltac:(cbn in Hf; lia) Hs) as (st & tr2 & E2 & H2 & H3). exists st, tr2. split; [done|]. split; [|done].
       eapply Hjoin; [|done]. apply Hskip. intros (_ & Hc & _). congruence. }
  destruct (allsolid tr) eqn:Eal; [exists true, tr; split; [done|]; split; [apply tracks_refl; auto|auto]|].
  destruct (owner_skip_ok e t) as [sk Hsk]. rewrite Hsk, bind_Ok. destruct sk.
  - cbn [mret res_ret]. rewrite bind_Ok. destruct (IH _ fuel tr Hl' ltac:(cbn in Hf; lia) Hs) as (st & tr2 & E2 & H2 & H3). exists st, tr2. split; [done|]. split; [|done].
    eapply Hjoin; [|done]. apply Hskip. intros (_ & _ & Hc). congruence.
  - assert (obstacle e t) as Ho by done. destruct (Htrace Ho) as [te Hte].
    destruct (clip_to_tracks e t te tr Hin Ho Hte Hs) as (tr1 & E1 & H1). rewrite E1, bind_Ok.
    destruct (IH _ fuel tr1 Hl' ltac:(cbn in Hf; lia) (tk_start _ _ _ H1)) as (st & tr2 & E2 & H2 & H3). exists st, tr2. split; [done|]. split; [by eapply Hjoin|done].
Qed.

(** An obstacle is near the move. *)
Lemma obstacle_near e t : obstacle e t -> apart (boxmins clip) (boxmaxs clip) (v_absmin t) (v_absmax t) = false.
Proof.
  intros (_ & H & _). unfold clips in H. do 4 (case_if_in H; [done|]). by case_if_in H.
Qed.

Lemma apart_axis amin amax bmin bmax ax : apart amin amax bmin bmax = false -> f_ltb (vget bmax ax) (vget amin ax) = false /\ f_ltb (vget amax ax) (vget bmin ax) = false.
Proof. unfold apart, vget. intros H. bool_props. by repeat case_if. Qed.

Hypothesis Hbox : vec_all not_nan (boxmins clip) /\ vec_all not_nan (boxmaxs clip).

Lemma vget_all P v ax : vec_all P v -> P (vget v ax).
Proof. intros (? & ? & ?). unfold vget. by repeat case_if. Qed.

(** The entities below a node. *)
Definition below (i e : Z) : Prop := exists j l t, L !! solid_edicts j = Some l /\ area e ∈ l /\ ents s !! e = Some t /\
  placed s (v_absmin t) (v_absmax t) i j.

Lemma list_size h l : L !! h = Some l -> (length l <= size (links s))%nat.
Proof.
  intros Hl. destruct (ao_ring _ _ (wk_areas _ _ Hworld) h l Hl) as (_ & Hr & Hnd & _).
  rewrite <- size_dom, <- (size_list_to_set (C := gset Z)) by done. apply subseteq_size. intros a Ha. apply elem_of_list_to_set in Ha.
  apply elem_of_dom. eapply ring_in; [exact Hr|by right].
Qed.

Lemma clip_tree_tracks lo hi d i : 0 <= lo -> hi <= sv_numareanodes s -> area_tree s lo hi d i -> forall tr, solid_start tr -> exists tr',
  SV_ClipToLinks models player casper d clip s i tr = Ok tr' /\ tracks (below i) tr tr'.
Proof.
  intros Hlo Hhi. induction 1 as [d i n Hn Hr Ha|d i n Hn Hr Ha _ IH0 _ IH1]; intros tr Hs; cbn [SV_ClipToLinks]; rewrite Hn, bind_Ok.
  all: destruct (wk_heads _ _ Hworld i ltac:(lia)) as [_ [l Hl]].
  all: destruct (ao_ring _ _ (wk_areas _ _ Hworld) _ _ Hl) as (_ & Hring & _).
  all: pose proof (ring_first _ _ _ _ _ Hring) as Hfst; unfold fget in Hfst; destruct (links s !! solid_edicts i) as [h|] eqn:Eh; [|done];
    cbn in Hfst; injection Hfst as Hfst; rewrite (link_at_ok _ _ _ Eh), bind_Ok, Hfst.
  all: destruct (clip_list_tracks i l [] (size (links s)) tr Hl (list_size _ _ Hl) Hs) as (stop & tr1 & E1 & H1 & Hst); rewrite E1, bind_Ok.
  all: destruct stop; cbn [orb]; [exists tr1; split; [done|]; eapply tracks_weaken; [eapply tracks_trans; [exact H1|apply (tracks_refl (below i)); [apply (tk_start _ _ _ H1)|auto]]|]; by right|].
  - rewrite Ha. exists tr1. split; [done|]. eapply tracks_weaken; [exact H1|]. intros e (j & k & t & Hk & He & _ & Hp) _ _.
    inversion Hp; subst; try same_node; [congruence|done|done].
  - assert (axis n =? -1 = false) as -> by (by apply Z.eqb_neq).
    assert (exists tr2, (if f_ltb (dist n) (vget (boxmaxs clip) (axis n)) then SV_ClipToLinks models player casper d clip s (child0 n) tr1 else mret tr1) = Ok tr2 /\
      tracks (fun e => below (child0 n) e /\ f_ltb (dist n) (vget (boxmaxs clip) (axis n)) = true) tr1 tr2) as (tr2 & E2 & H2).
    { case_if; [destruct (IH0 tr1 (tk_start _ _ _ H1)) as (tr2 & E2 & H2); exists tr2; split; [done|]; eapply tracks_weaken; [exact H2|]; by intros e []|].
      exists tr1. split; [done|]. apply tracks_none; [apply (tk_start _ _ _ H1)|]. intros e t []. congruence. }
    rewrite E2, bind_Ok.
    assert (exists tr3, (if f_ltb (vget (boxmins clip) (axis n)) (dist n) then SV_ClipToLinks models player casper d clip s (child1 n) tr2 else mret tr2) = Ok tr3 /\
      tracks (fun e => below (child1 n) e /\ f_ltb (vget (boxmins clip) (axis n)) (dist n) = true) tr2 tr3) as (tr3 & E3 & H3).
    { case_if; [destruct (IH1 tr2 (tk_start _ _ _ H2)) as (tr3 & E3 & H3); exists tr3; split; [done|]; eapply tracks_weaken; [exact H3|]; by intros e []|].
      exists tr2. split; [done|]. apply tracks_none; [apply (tk_start _ _ _ H2)|]. intros e t []. congruence. }
    exists tr3. split; [done|]. eapply tracks_weaken; [eapply tracks_trans; [exact H1|eapply tracks_trans; [exact H2|exact H3]]|].
    intros e (j & k & t & Hk & He & Het & Hp) t' Ho. assert (t' = t) as -> by (destruct Ho as [Ho _]; congruence).
    destruct (apart_axis _ _ _ _ (axis n) (obstacle_near e t Ho)) as [Hx1 Hx2]. destruct Hbox as [Hb1 Hb2].
    inversion Hp as [|? ? n' Hn' _ Hd Hp'|? ? n' Hn' _ Hd Hp']; subst.
    + left. congruence.
    + same_node. right. left. split; [by exists j, k, t|]. by eapply f_lt_le_trans; [exact Hd| |apply vget_all].
    + same_node. right. right. split; [by exists j, k, t|]. by eapply f_le_lt_trans; [exact Hd| |apply vget_all].
Qed.

End nearest.

(** What a move is clipped with. *)
Definition move_type (player : Z) (casper : bool) (type : Z) (pass : option Z) : Z :=
  if casper && bool_decide (pass = Some player) then if 4 <=? type then Z.land type (Z.lnot 4) else MOVE_NOMONSTERS else type.
Definition move_clip (player : Z) (casper : bool) (start mins maxs stop : vec3) (type : Z) (pass : option Z) : moveclip :=
  let type := move_type player casper type pass in
  let v15 z := Vec (f32_of_Z z) (f32_of_Z z) (f32_of_Z z) in
  let mins2 := if type =? MOVE_MISSILE then v15 (-15) else mins in
  let maxs2 := if type =? MOVE_MISSILE then v15 15 else maxs in
  let '(bmins, bmaxs) := SV_MoveBounds start mins2 maxs2 stop in
  Clip bmins bmaxs mins maxs mins2 maxs2 start stop type pass.

Lemma clip_world_tracks models player casper s L clip tr : world_ok s L ->
  (forall pe, passedict clip = Some pe -> is_Some (ents s !! pe)) ->
  (forall e t, in_solid L e -> ents s !! e = Some t -> is_solid t SOLID_TRIGGER = false /\
     (obstacle player casper s clip e t -> exists te, entity_trace models clip e t = Ok te)) ->
  vec_all not_nan (boxmins clip) /\ vec_all not_nan (boxmaxs clip) -> solid_start tr -> exists tr',
  SV_ClipToLinks models player casper (Z.to_nat AREA_NODES) clip s 0 tr = Ok tr' /\
  tracks models player casper s L clip (in_solid L) tr tr'.
Proof.
  intros Hw Hpass Hsolid Hbox Hs.
  assert (area_tree s 0 (sv_numareanodes s) (Z.to_nat AREA_NODES) 0) as Ht
    by (eapply area_tree_depth; [apply (wk_tree _ _ Hw)|unfold AREA_DEPTH, AREA_NODES; lia]).
  destruct (clip_tree_tracks models player casper s L clip Hw Hpass Hsolid Hbox 0 (sv_numareanodes s) _ 0 ltac:(lia) ltac:(lia) Ht tr Hs) as (tr' & E & H).
  exists tr'. split; [done|]. eapply tracks_weaken; [exact H|]. intros e (j & l & Hl & He) t Ho.
  destruct (wk_placed _ _ Hw _ _ _ Hl He) as (t' & j' & Et & Hj & Hp).
  assert (j' = j) as -> by (unfold trigger_edicts, solid_edicts in *; lia).
  exists j, l, t'. split; [done|]. split; [done|]. split; [|done]. by replace e with (EDICT_FROM_AREA (area e)) by (unfold area, EDICT_FROM_AREA; lia).
Qed.

Lemma SV_Move_clip models player casper s start mins maxs stop type pass w tw : ents s !! 0 = Some w ->
  SV_ClipMoveToEntity models 0 w start mins maxs stop = Ok tw ->
  SV_Move models player casper s start mins maxs stop type pass =
  SV_ClipToLinks models player casper (Z.to_nat AREA_NODES) (move_clip player casper start mins maxs stop type pass) s 0 tw.
Proof.
  intros Hw Ht. unfold SV_Move, ent_at. rewrite Hw. cbn [of_option]. rewrite bind_Ok, Ht, bind_Ok. unfold move_clip, move_type.
  by destruct (SV_MoveBounds _ _ _ _).
Qed.

(** C8: A move looks at every solid entity it could hit and stops at the nearest.  The descent of
    the area tree misses none of the entities whose box touches the box of the move.  When the move
    does not start inside anything, no obstacle alone would have stopped it earlier, and the trace
    returned is that of the world or of one of the obstacles; it starts in the solid exactly when
    it does so for the world or for one obstacle. *)
Theorem SV_Move_nearest models player casper s L start mins maxs stop type pass w tw :
  let clip := move_clip player casper start mins maxs stop type pass in
  let obst e t := in_solid L e /\ obstacle player casper s clip e t in
  world_ok s L -> ents s !! 0 = Some w -> SV_ClipMoveToEntity models 0 w start mins maxs stop = Ok tw ->
  (forall pe, pass = Some pe -> is_Some (ents s !! pe)) ->
  (forall e t, in_solid L e -> ents s !! e = Some t -> is_solid t SOLID_TRIGGER = false /\
     (obst e t -> exists te, entity_trace models clip e t = Ok te)) ->
  vec_all not_nan (boxmins clip) /\ vec_all not_nan (boxmaxs clip) -> exists tr,
  SV_Move models player casper s start mins maxs stop type pass = Ok tr /\
  (startsolid tr = true <-> startsolid tw = true \/ exists e t te, obst e t /\ entity_trace models clip e t = Ok te /\ startsolid te = true) /\
  (startsolid tr = false ->
    f_ltb (fraction tw) (fraction tr) = false /\
    (forall e t, obst e t -> exists te, entity_trace models clip e t = Ok te /\ f_ltb (fraction te) (fraction tr) = false) /\
    (tr = tw \/ exists e t te, obst e t /\ entity_trace models clip e t = Ok te /\ tr = set_t_ent (Some e) te)).
Proof.
  intros clip obst Hw Hw0 Htw Hpass Hsolid Hbox. rewrite (SV_Move_clip models player casper s start mins maxs stop type pass w tw) by done. fold clip.
  destruct (clip_world_tracks models player casper s L clip tw) as (tr & E & H); [done| | |done| |].
  { intros pe Hpe. apply Hpass. unfold clip, move_clip in Hpe. by destruct (SV_MoveBounds _ _ _ _). }
  { intros e t Hin Het. destruct (Hsolid e t Hin Het) as [H1 H2]. split; [done|]. intros Ho. by apply H2. }
  { by eapply (entity_trace_start models (Clip vec0 vec0 mins maxs mins maxs start stop 0 None) 0 w tw); unfold entity_trace; case_if. }
  exists tr. split; [done|]. destruct H as [H1 H2 H3 H4 H5 H6]. split; [split|].
  - intros Hs. destruct (H3 Hs) as [|(e & t & te & Hin & Ho & Ht & Hst)]; [by left|right]. by exists e, t, te.
  - intros [Hs|(e & t & te & [Hin Ho] & Ht & Hst)]; [auto|]. destruct (startsolid tr); [done|].
    destruct (H5 eq_refl e t Hin Ho) as (te' & Ht' & Hst' & _). congruence.
  - intros Hs. split; [|split].
    + destruct (H4 Hs) as [->|Hlt].
      * apply f_ltb_irrefl.
      * by apply f_ltb_asym.
    + intros e t [Hin Ho]. destruct (H5 Hs e t Hin Ho) as (te & Ht & _ & Hlt). by exists te.
    + destruct (H6 Hs) as [->|(e & t & te & Hin & Ho & Ht & ->)]; [by left|right]. by exists e, t, te.
Qed.

(** ** Positions *)

(** The hull that stands for entity [t] can be asked about points, and whether [p] is in it. *)
Definition hull_fits (models : list (option model)) (t : ent) (mins maxs p : vec3) : Prop :=
  exists h off, SV_HullForEntity models t mins maxs = Ok (h, off) /\ hull_ok h /\ num_ok h (firstclipnode h) /\ sided h (vec_sub p off).
Definition stuck_in (models : list (option model)) (t : ent) (mins maxs p : vec3) : Prop :=
  exists h off, SV_HullForEntity models t mins maxs = Ok (h, off) /\
    SV_HullPointContents h (firstclipnode h) (vec_sub p off) = Ok CONTENTS_SOLID.

Lemma point_clip models n t mins maxs p : hull_fits models t mins maxs p -> exists te,
  SV_ClipMoveToEntity models n t p mins maxs p = Ok te /\ (startsolid te = true <-> stuck_in models t mins maxs p).
Proof.
  intros (h & off & Hh & Hok & Hn & Hs). unfold SV_ClipMoveToEntity. rewrite Hh, bind_Ok.
  destruct (point_trace_spec h (firstclipnode h) _ f_0 f_1 (Trace true false false false f_1 p vec0 f_0 None) Hok Hn Hs) as (c & Hc & _ & Ht & Hst).
  rewrite Ht, bind_Ok. specialize (Hst eq_refl). set (t' := mark c _) in *. eexists. split; [done|].
  assert (startsolid t' = true <-> stuck_in models t mins maxs p) as Hiff.
  { rewrite Hst, Z.eqb_eq. split; [intros ->; by exists h, off|]. intros (h' & off' & Hh' & Hc'). congruence. }
  rewrite <- Hiff. repeat case_if; done.
Qed.

(** An entity is stuck where it is exactly when its point is solid in the hull of the world or
    of one of the solid entities it could hit; the test always returns. *)
Theorem SV_TestEntityPosition_spec models player casper s L e a w :
  let p := v_origin a in
  let clip := move_clip player casper p (v_mins a) (v_maxs a) p 0 (Some e) in
  let obst e' t := in_solid L e' /\ obstacle player casper s clip e' t in
  world_ok s L -> ents s !! 0 = Some w -> ents s !! e = Some a ->
  hull_fits models w (v_mins a) (v_maxs a) p ->
  (forall e' t, in_solid L e' -> ents s !! e' = Some t -> is_solid t SOLID_TRIGGER = false /\ (obst e' t -> hull_fits models t (v_mins a) (v_maxs a) p)) ->
  vec_all not_nan (boxmins clip) /\ vec_all not_nan (boxmaxs clip) -> exists r,
  SV_TestEntityPosition models player casper s e = Ok r /\
  (r = true <-> stuck_in models w (v_mins a) (v_maxs a) p \/ exists e' t, obst e' t /\ stuck_in models t (v_mins a) (v_maxs a) p).
Proof.
  intros p clip obst Hw Hw0 He Hwf Hsolid Hbox. destruct (point_clip models 0 w _ _ _ Hwf) as (tw & Htw & Hstw).
  assert (forall e' t, entity_trace models clip e' t = SV_ClipMoveToEntity models e' t p (v_mins a) (v_maxs a) p) as Het.
  { intros e' t. assert (move_type player casper 0 (Some e) =? MOVE_MISSILE = false) as Em by (unfold move_type; case_if; done).
    unfold entity_trace, clip, move_clip. rewrite Em. destruct (SV_MoveBounds _ _ _ _). cbn. by case_if. }
  assert (forall e' t, in_solid L e' -> ents s !! e' = Some t -> is_solid t SOLID_TRIGGER = false /\
    (obstacle player casper s clip e' t -> exists te, entity_trace models clip e' t = Ok te)) as Hs'.
  { intros e' t Hin Ht. destruct (Hsolid e' t Hin Ht) as [H1 H2]. split; [done|]. intros Ho. rewrite Het.
    destruct (point_clip models e' t _ _ _ (H2 (conj Hin Ho))) as (te & E & _). by exists te. }
  unfold SV_TestEntityPosition, ent_at. rewrite He. cbn [of_option]. rewrite bind_Ok.
  rewrite (SV_Move_clip _ _ _ _ _ _ _ _ _ _ w tw Hw0 Htw). fold p clip.
  destruct (clip_world_tracks models player casper s L clip tw) as (tr & E & [H1 _ H3 _ H5 _]); [done| |exact Hs'|done| |].
  { intros pe Hpe. unfold clip, move_clip in Hpe. destruct (SV_MoveBounds _ _ _ _). cbn in Hpe. injection Hpe as <-. by eexists. }
  { apply (entity_trace_start models clip 0 w). by rewrite Het. }
  rewrite E, bind_Ok. exists (startsolid tr). split; [done|]. rewrite <- Hstw. split.
  - intros Hst. destruct (H3 Hst) as [|(e' & t & te & Hin & Ho & Ht & Hte)]; [by left|right]. exists e', t. split; [done|].
    rewrite Het in Ht. destruct (Hsolid e' t Hin ltac:(apply Ho)) as [_ Hf].
    destruct (point_clip models e' t _ _ _ (Hf (conj Hin Ho))) as (te' & Ht' & Hiff). apply Hiff. congruence.
  - intros [Hst|(e' & t & [Hin Ho] & Hst)]; [auto|]. destruct (startsolid tr) eqn:Etr; [done|].
    destruct (H5 eq_refl e' t Hin Ho) as (te & Ht & Hte & _). rewrite Het in Ht. destruct (Hsolid e' t Hin ltac:(apply Ho)) as [_ Hf].
    destruct (point_clip models e' t _ _ _ (Hf (conj Hin Ho))) as (te' & Ht' & Hiff). apply Hiff in Hst. congruence.
Qed.

(** * Touching triggers *)

Section touching.
Context (run : Z -> wst -> res wst) (sv_time : f64) (s0 : wst) (L : lists) (e : Z) (a : ent).
Hypothesis Hworld : world_ok s0 L.
Hypothesis He : ents s0 !! e = Some a.

(** Two states with the same world. *)
Definition same_world (s s' : wst) : Prop :=
  sv_areanodes s' = sv_areanodes s /\ sv_numareanodes s' = sv_numareanodes s /\ links s' = links s /\ ents s' = ents s.

(** Entity [t] is a trigger that entity [e] touches. *)
Definition touches (t : Z) : bool :=
  negb (t =? e) &&
  match ents s0 !! t with
  | Some n => negb (v_touch n =? 0) && is_solid n SOLID_TRIGGER && negb (apart (v_absmin a) (v_absmax a) (v_absmin n) (v_absmax n))
  | None => false
  end.

(** The touch functions of [ts], one after the other, each with [self], [other] and [time] set for
    it and [self] and [other] restored after it. *)
Fixpoint touch_all (ts : list Z) (s : wst) : res wst :=
  match ts with
  | [] => mret s
  | t :: ts =>
      n ← ent_at s0 t;
      s' ← run (v_touch n) (set_time (f32_of_f64 sv_time) (set_self_other t e s));
      touch_all ts (set_self_other (self s) (other s) s')
  end.

Lemma touch_all_app ts1 ts2 s : touch_all (ts1 ++ ts2) s = (s' ← touch_all ts1 s; touch_all ts2 s').
Proof.
  revert s. induction ts1 as [|t ts1 IH]; intros s; cbn [app touch_all]; [done|].
  destruct (ent_at s0 t); [|done]. rewrite !bind_Ok. destruct (run _ _); [|done]. by rewrite !bind_Ok.
Qed.

Lemma touch_all_self ts : forall s s', touch_all ts s = Ok s' -> self s' = self s /\ other s' = other s.
Proof.
  induction ts as [|t ts IH]; intros s s' H; cbn [touch_all] in H; [by injection H as <-|].
  apply bind_Ok_inv in H as (n & _ & H). apply bind_Ok_inv in H as (s1 & _ & H). by apply IH in H.
Qed.

Hypothesis Hrun : forall f s s', run f s = Ok s' -> same_world s s'.

Lemma touch_all_world ts : forall s s', touch_all ts s = Ok s' -> same_world s0 s -> same_world s0 s'.
Proof.
  induction ts as [|t ts IH]; intros s s' H Hs; cbn [touch_all] in H; [by injection H as <-|].
  apply bind_Ok_inv in H as (n & _ & H). apply bind_Ok_inv in H as (s1 & H1 & H). eapply IH; [exact H|].
  apply Hrun in H1 as (E1 & E2 & E3 & E4). destruct Hs as (F1 & F2 & F3 & F4). unfold same_world in *. cbn in *. rewrite <- F1, <- F2, <- F3, <- F4. done.
Qed.

(** The entities of a list that are touched. *)
Definition touched (l : list Z) : list Z := filter (fun t => touches t = true) (EDICT_FROM_AREA <$> l).

Lemma touched_cons x l : touched (x :: l) = (if touches (EDICT_FROM_AREA x) then [EDICT_FROM_AREA x] else []) ++ touched l.
Proof.
  unfold touched. rewrite fmap_cons. destruct (touches (EDICT_FROM_AREA x)) eqn:E; [by rewrite filter_cons_True|].
  rewrite filter_cons_False; [done|]. congruence.
Qed.

Lemma touch_list_spec h : forall l2 l1 fuel s, L !! h = Some (l1 ++ l2) -> (length l2 <= fuel)%nat -> same_world s0 s ->
  touch_list run sv_time fuel e h (firstz l2 h) s = touch_all (touched l2) s.
Proof.
  induction l2 as [|x l2 IH]; intros l1 fuel s Hl Hf Hs; [cbn; destruct fuel; cbn; by rewrite Z.eqb_refl|].
  destruct fuel as [|fuel]; [cbn in Hf; lia|]. cbn [firstz touch_list].
  pose proof (wk_areas _ _ Hworld) as Ha. destruct (ao_ring _ _ Ha _ _ Hl) as (Hh & Hr & Hnd & Hp).
  assert (0 < x) as Hpx by (rewrite Forall_forall in Hp; apply Hp; set_solver).
  assert (x =? h = false) as -> by lia. assert (x =? 0 = false) as -> by lia.
  destruct (ring_at _ _ _ _ _ _ _ Hr) as [Hnx _]. unfold fget in Hnx. destruct (links s0 !! x) as [n|] eqn:En; [|done]. cbn in Hnx. injection Hnx as Hnx.
  destruct Hs as (F1 & F2 & F3 & F4). rewrite F3, (link_at_ok _ _ _ En), bind_Ok, Hnx.
  destruct (wk_placed _ _ Hworld _ _ x Hl ltac:(set_solver)) as (t & _ & Et & _).
  assert (L !! h = Some ((l1 ++ [x]) ++ l2)) as Hl' by (by rewrite <- app_assoc).
  assert (forall s, same_world s0 s -> touch_list run sv_time fuel e h (firstz l2 h) s = touch_all (touched l2) s) as IH'
    by (intros s' Hs'; apply (IH _ fuel s' Hl'); [cbn in Hf; lia|done]).
  rewrite touched_cons. set (y := EDICT_FROM_AREA x) in *. unfold touches at 1. unfold ent_at. rewrite F4, He, Et. cbn [of_option].
  destruct (y =? e); cbn [negb andb app]; [by apply IH'|]. rewrite !bind_Ok.
  destruct (v_touch t =? 0); cbn [negb andb orb app]; [by apply IH'|].
  destruct (is_solid t SOLID_TRIGGER); cbn [negb andb app]; [|by apply IH'].
  destruct (apart _ _ _ _); cbn [negb app]; [by apply IH'|]. cbn [touch_all].
  unfold ent_at. rewrite Et. cbn [of_option]. rewrite bind_Ok. destruct (run _ _) as [s1|] eqn:E1; [|done]. rewrite !bind_Ok. apply IH'.
  apply Hrun in E1 as (G1 & G2 & G3 & G4). unfold same_world in *. cbn in *. by rewrite G1, G2, G3, G4.
Qed.

(** The triggers below a node. *)
Definition trigger_below (i t : Z) : Prop := exists j l n, L !! trigger_edicts j = Some l /\ area t ∈ l /\ ents s0 !! t = Some n /\
  placed s0 (v_absmin n) (v_absmax n) i j.
(** Entity [t] is in the list of triggers of a node. *)
Definition in_trigger (t : Z) : Prop := exists j l, L !! trigger_edicts j = Some l /\ area t ∈ l.

Hypothesis Hbox : vec_all not_nan (v_absmin a) /\ vec_all not_nan (v_absmax a).

Lemma in_touched t l : t ∈ touched l <-> touches t = true /\ area t ∈ l.
Proof.
  unfold touched. rewrite list_elem_of_filter, list_elem_of_fmap. apply and_iff_compat_l. unfold area, EDICT_FROM_AREA. split.
  - intros (x & -> & Hx). by replace (x - 4 + 4) with x by lia.
  - intros Hx. exists (t + 4). split; [lia|done].
Qed.

(** The list of one node. *)
Lemma touch_node_spec i n fuel : node_at s0 i = Ok n -> 0 <= i < sv_numareanodes s0 -> (size (links s0) <= fuel)%nat -> exists l,
  L !! trigger_edicts i = Some l /\
  forall s (k : areanode -> wst -> res wst), same_world s0 s ->
  (_ ← node_at s i; h ← link_at (links s) (trigger_edicts i);
   s ← touch_list run sv_time fuel e (trigger_edicts i) (l_next h) s; n ← node_at s i; k n s) = (s' ← touch_all (touched l) s; k n s').
Proof.
  intros Hn Hi Hf. destruct (wk_heads _ _ Hworld i Hi) as [[l Hl] _]. exists l. split; [done|]. intros s k Hs.
  assert (forall s, same_world s0 s -> node_at s i = Ok n) as Hn' by (intros s' (F1 & _); unfold node_at; by rewrite F1).
  destruct (ao_ring _ _ (wk_areas _ _ Hworld) _ _ Hl) as (_ & Hring & _).
  pose proof (ring_first _ _ _ _ _ Hring) as Hfst. unfold fget in Hfst. destruct (links s0 !! trigger_edicts i) as [h|] eqn:Eh; [|done].
  cbn in Hfst. injection Hfst as Hfst. rewrite (Hn' s Hs), bind_Ok.
  assert (links s = links s0) as -> by apply Hs. rewrite (link_at_ok _ _ _ Eh), bind_Ok, Hfst.
  rewrite (touch_list_spec _ l [] fuel s) by (done || (pose proof (list_size s0 L Hworld _ _ Hl); lia)).
  destruct (touch_all (touched l) s) as [s1|] eqn:E1; [|done]. rewrite !bind_Ok.
  by rewrite (Hn' s1 (touch_all_world _ _ _ E1 Hs)), bind_Ok.
Qed.

Lemma touch_tree_spec lo hi d i fuel : 0 <= lo -> hi <= sv_numareanodes s0 -> (size (links s0) <= fuel)%nat -> area_tree s0 lo hi d i -> exists ts,
  (forall s, same_world s0 s -> SV_TouchLinks run sv_time d fuel e i s = touch_all ts s) /\
  (forall t, t ∈ ts -> touches t = true /\ in_trigger t) /\ (forall t, touches t = true -> trigger_below i t -> t ∈ ts).
Proof.
  intros Hlo Hhi Hf. induction 1 as [d i n Hn Hr Ha|d i n Hn Hr Ha _ (ts0 & A0 & B0 & C0) _ (ts1 & A1 & B1 & C1)];
    destruct (touch_node_spec i n fuel Hn ltac:(lia) Hf) as (l & Hl & Hnode);
    assert (forall t, t ∈ touched l -> touches t = true /\ in_trigger t) as Hsound by (intros t [H1 H2]%in_touched; split; [done|by exists i, l]).
  - exists (touched l). split; [|split; [done|]].
    + intros s Hs. cbn [SV_TouchLinks]. rewrite Hnode, Ha by done. cbn [Z.eqb]. by destruct (touch_all _ _).
    + intros t Ht (j & k & m & Hk & Hin & _ & Hp). apply in_touched. split; [done|].
      inversion Hp; subst; try same_node; [congruence|done|done].
  - set (b0 := f_ltb (dist n) (vget (v_absmax a) (axis n))). set (b1 := f_ltb (vget (v_absmin a) (axis n)) (dist n)).
    exists (touched l ++ (if b0 then ts0 else []) ++ (if b1 then ts1 else [])). split; [|split].
    + intros s Hs. cbn [SV_TouchLinks]. rewrite Hnode by done. assert (axis n =? -1 = false) as -> by (by apply Z.eqb_neq).
      rewrite touch_all_app. destruct (touch_all (touched l) s) as [s1|] eqn:E1; [|done]. rewrite !bind_Ok.
      pose proof (touch_all_world _ _ _ E1 Hs) as Hs1.
      assert (forall s, same_world s0 s -> ent_at s e = Ok a) as Hea by (intros s' (_ & _ & _ & F4); unfold ent_at; by rewrite F4, He).
      rewrite (Hea s1 Hs1), bind_Ok, touch_all_app. fold b0.
      assert ((if b0 then SV_TouchLinks run sv_time d fuel e (child0 n) s1 else mret s1) = touch_all (if b0 then ts0 else []) s1) as -> by (destruct b0; [by apply A0|done]).
      destruct (touch_all _ s1) as [s2|] eqn:E2; [|done]. rewrite !bind_Ok. pose proof (touch_all_world _ _ _ E2 Hs1) as Hs2.
      rewrite (Hea s2 Hs2), bind_Ok. assert (node_at s2 i = Ok n) as -> by (destruct Hs2 as (F1 & _); unfold node_at; by rewrite F1).
      rewrite bind_Ok. fold b1. destruct b1; [by apply A1|done].
    + intros t [Ht|[Ht|Ht]%elem_of_app]%elem_of_app; [auto| |]; (case_if_in Ht; [auto|by apply not_elem_of_nil in Ht]).
    + intros t Ht (j & k & m & Hk & Hin & Hm & Hp).
      assert (apart (v_absmin a) (v_absmax a) (v_absmin m) (v_absmax m) = false) as Hap.
      { unfold touches in Ht. rewrite Hm in Ht. by bool_props. }
      destruct (apart_axis _ _ _ _ (axis n) Hap) as [Hx1 Hx2]. destruct Hbox as [Hb1 Hb2]. rewrite !elem_of_app.
      inversion Hp as [|? ? n' Hn' _ Hd Hp'|? ? n' Hn' _ Hd Hp']; subst.
      * left. apply in_touched. split; [done|]. congruence.
      * same_node. right. left. assert (b0 = true) as -> by (eapply f_lt_le_trans; [exact Hd|done|by apply vget_all]).
        apply C0; [done|]. by exists j, k, m.
      * same_node. right. right. assert (b1 = true) as -> by (eapply f_le_lt_trans; [exact Hd|done|by apply vget_all]).
        apply C1; [done|]. by exists j, k, m.
Qed.

End touching.

(** When touch functions leave the world alone, touching the triggers of the area tree runs the
    touch functions of exactly the triggers that the entity's box touches, and of no other; [self]
    and [other] are what they were before. *)
Theorem SV_TouchLinks_spec run sv_time s L e a fuel : world_ok s L -> ents s !! e = Some a ->
  (forall f s s', run f s = Ok s' -> same_world s s') -> vec_all not_nan (v_absmin a) /\ vec_all not_nan (v_absmax a) ->
  (size (links s) <= fuel)%nat -> exists ts,
  SV_TouchLinks run sv_time (Z.to_nat AREA_NODES) fuel e 0 s = touch_all run sv_time s e ts s /\
  (forall t, t ∈ ts <-> touches s e a t = true /\ in_trigger L t) /\
  (forall s', touch_all run sv_time s e ts s = Ok s' -> self s' = self s /\ other s' = other s /\ same_world s s').
Proof.
  intros Hw He Hrun Hbox Hf.
  assert (area_tree s 0 (sv_numareanodes s) (Z.to_nat AREA_NODES) 0) as Ht
    by (eapply area_tree_depth; [apply (wk_tree _ _ Hw)|unfold AREA_DEPTH, AREA_NODES; lia]).
  destruct (touch_tree_spec run sv_time s L e a Hw He Hrun Hbox 0 (sv_numareanodes s) _ 0 fuel ltac:(lia) ltac:(lia) Hf Ht) as (ts & H1 & H2 & H3).
  exists ts. split; [by apply H1|]. split.
  - intros t. split; [apply H2|]. intros [Htt (j & l & Hl & Hin)]. apply H3; [done|].
    destruct (wk_placed _ _ Hw _ _ _ Hl Hin) as (n & j' & En & Hj & Hp). assert (j' = j) as -> by (unfold trigger_edicts, solid_edicts in *; lia).
    exists j, l, n. split; [done|]. split; [done|]. split; [|done]. by replace t with (EDICT_FROM_AREA (area t)) by (unfold area, EDICT_FROM_AREA; lia).
  - intros s' Hs'. destruct (touch_all_self _ _ _ _ _ _ _ Hs'). split; [done|]. split; [done|]. by eapply touch_all_world.
Qed.

(** C23: Linking an entity puts it at the end of the list of the first area node its box crosses,
    after taking it out of the list it was in; entity 0, free entities and entities that are not
    solid end up in no list.  All other lists and entities stay, so every linked entity can be
    found from the node its box belongs to.  That is all when the triggers are not to be touched.
    When they are, and the entity was put in a list, the touch functions run from the state so
    reached: as long as they leave the areas and the entities alone, those of exactly the triggers
    that the new box touches (when no coordinate of the box is a NaN). *)
Theorem SV_LinkEdict_spec run sv_time world_nodes fuel s L e a : world_ok s L -> ents s !! e = Some a -> exists s' L',
  SV_LinkEdict run sv_time world_nodes fuel e false s = Ok s' /\ world_ok s' L' /\
  (if (e =? 0) || e_free a then ents s' = ents s /\ L' = drop_link (area e) L
   else ents s' = <[e := linked_ent world_nodes a]> (ents s) /\ linked_lists s e a L L') /\
  (if (e =? 0) || e_free a || is_solid a SOLID_NOT then SV_LinkEdict run sv_time world_nodes fuel e true s = Ok s'
   else
     let a' := linked_ent world_nodes a in
     (forall f s s', run f s = Ok s' -> same_world s s') -> vec_all not_nan (v_absmin a') /\ vec_all not_nan (v_absmax a') ->
     (size (links s') <= fuel)%nat -> exists ts,
     SV_LinkEdict run sv_time world_nodes fuel e true s = touch_all run sv_time s' e ts s' /\
     forall t, t ∈ ts <-> touches s' e a' t = true /\ in_trigger L' t).
Proof.
  intros Hw Ha. destruct (link_edict_spec world_nodes s L e a Hw Ha) as (r & s' & L' & E & Hw' & _ & H).
  exists s', L'. unfold SV_LinkEdict. rewrite E, !bind_Ok, andb_false_r, andb_true_r. split; [done|]. split; [done|].
  destruct ((e =? 0) || e_free a) eqn:Ez; cbn [orb]; [destruct H as (-> & H); split; [exact H|done]|].
  destruct H as (-> & He & HL). split; [done|]. destruct (is_solid a SOLID_NOT); [done|]. cbn [negb]. cbv zeta. intros Hrun Hbox Hf.
  destruct (SV_TouchLinks_spec run sv_time s' L' e (linked_ent world_nodes a) fuel Hw' ltac:(rewrite He; apply lookup_insert_eq) Hrun Hbox Hf) as (ts & H1 & H2 & _).
  by exists ts.
Qed.

(** A touch function may remove the next trigger from its list.  Its link is null then, and the
    walk is stopped when it follows it. *)
Lemma touch_removed run sv_time fuel e h l s : l <> h -> h <> 0 -> l <> 0 -> links s !! l = Some (Link 0 0) ->
  EDICT_FROM_AREA l = e \/ (exists a t, ents s !! e = Some a /\ ents s !! EDICT_FROM_AREA l = Some t /\ v_touch t = 0) ->
  touch_list run sv_time (S fuel) e h l s = Fault (Host_Error "NULL area link").
Proof.
  intros Hl H0 Hl0 El Ht. cbn [touch_list]. assert (l =? h = false) as -> by lia. assert (l =? 0 = false) as -> by lia.
  rewrite (link_at_ok _ _ _ El), bind_Ok. cbn [l_next].
  assert (touch_list run sv_time fuel e h 0 s = Fault (Host_Error "NULL area link")) as Hn.
  { destruct fuel; cbn [touch_list]; by assert (0 =? h = false) as -> by lia. }
  destruct (EDICT_FROM_AREA l =? e) eqn:Ee; [done|]. destruct Ht as [Ht|(a & t & Ea & Et & Ht)]; [lia|].
  unfold ent_at. rewrite Et, Ea. cbn [of_option]. rewrite !bind_Ok, Ht. done.
Qed.

(** * A small world *)

(** A floor at height -100, a player, a box in front of it and a trigger around both. *)
Definition vz3 (x y z : Z) : vec3 := Vec (f32_of_Z x) (f32_of_Z y) (f32_of_Z z).
Definition demo_hull : hull := Hull [ClipNode 0 CONTENTS_EMPTY CONTENTS_SOLID] [Plane 2 (vz3 0 0 1) (f32_of_Z (-100))] 0 0 vec0.
Definition demo_models : list (option model) := [None; Some (Model true [demo_hull; demo_hull; demo_hull])].
Definition no_motion : motion :=
  Motion vec0 vec0 vec0 vec0 vec0 vec0 vec0 vec0 f_0 f_0 0 0 0 0 0 f_0 f_0 f_0 f_0 f_0 f_0 f_0 f_0 f_0 f_0 f_0 f_0.
Definition demo_ent (origin : vec3) (size : Z) (modelindex solid movetype touch : Z) : ent :=
  Ent false [] origin (vz3 (- size) (- size) (- size)) (vz3 size size size) vec0 vec0 (vz3 (2 * size) (2 * size) (2 * size)) f_0
    (f32_of_Z modelindex) (f32_of_Z solid) (f32_of_Z movetype) touch 0 no_motion.
Definition demo_ents : gmap Z ent :=
  <[0 := demo_ent vec0 4096 1 SOLID_BSP MOVETYPE_PUSH 0]> (<[1000 := demo_ent (vz3 0 0 0) 16 0 3 3 0]>
  (<[2000 := demo_ent (vz3 100 0 0) 16 0 2 0 0]> (<[3000 := demo_ent (vz3 50 0 0) 60 0 SOLID_TRIGGER 0 7]> ∅))).
Definition demo_nodes : mnode := MNode (Plane 2 (vz3 0 0 1) (f32_of_Z (-100))) (MLeaf (-1) 1) (MLeaf CONTENTS_SOLID 0).
Definition demo0 : wst := WS [] 0 ((fun _ => Link 0 0) <$> kmap area demo_ents) demo_ents 0 0 f_0 f_0 4 (SizeBuf false false (repeat 0 1024%nat) 1024 0).
Definition demo1 : wst := match SV_ClearWorld (vz3 (-4096) (-4096) (-4096)) (vz3 4096 4096 4096) demo0 with Ok s => s | _ => demo0 end.
Definition demo_link (e : Z) (s : wst) : wst := match link_edict demo_nodes e s with Ok (_, s) => s | _ => s end.
Definition demo_world : wst := demo_link 3000 (demo_link 2000 (demo_link 1000 demo1)).

Lemma demo0_ents e t : demo_ents !! e = Some t -> e = 0 \/ e = 1000 \/ e = 2000 \/ e = 3000.
Proof.
  unfold demo_ents. intros H. destruct (decide (e = 0)); [auto|]. destruct (decide (e = 1000)); [auto|].
  destruct (decide (e = 2000)); [auto|]. destruct (decide (e = 3000)); [auto|]. by rewrite !lookup_insert_ne in H by done.
Qed.

Lemma demo0_links : (forall e t, demo_ents !! e = Some t -> 0 <= e /\ is_Some (links demo0 !! area e)) /\
  (forall a n, 0 < a -> links demo0 !! a = Some n -> n = Link 0 0).
Proof.
  split.
  - intros e t He. split; [apply demo0_ents in He; lia|]. cbn [links demo0]. rewrite lookup_fmap, lookup_kmap by (intros x y; unfold area; lia).
    rewrite He. by eexists.
  - intros a n _ H. cbn [links demo0] in H. rewrite lookup_fmap in H. destruct (kmap area demo_ents !! a); [|done]. cbn in H. congruence.
Qed.

Lemma demo_links_world e s L a : world_ok s L -> ents s !! e = Some a -> exists L', world_ok (demo_link e s) L' /\
  (forall e', is_Some (ents s !! e') -> is_Some (ents (demo_link e s) !! e')).
Proof.
  intros Hw Ha. destruct (link_edict_spec demo_nodes s L e a Hw Ha) as (r & s' & L' & E & Hw' & _ & H). exists L'.
  unfold demo_link. rewrite E. split; [done|]. intros e' He'. case_if_in H; destruct H as (_ & -> & _); [done|].
  destruct (decide (e' = e)) as [->|]; [rewrite lookup_insert_eq; by eexists|by rewrite lookup_insert_ne].
Qed.

Lemma demo_world_ok : exists L, world_ok demo_world L.
Proof.
  destruct demo0_links as [H1 H2].
  destruct (clear_world_ok (vz3 (-4096) (-4096) (-4096)) (vz3 4096 4096 4096) demo0 H1 H2) as (s1 & E1 & _ & He1 & Hw1).
  assert (demo1 = s1) as Ed by (unfold demo1; by rewrite E1). rewrite <- Ed in *. clear Ed E1.
  assert (forall e, e = 1000 \/ e = 2000 \/ e = 3000 -> is_Some (ents demo1 !! e)) as Hs1.
  { intros e He. rewrite He1. destruct He as [->|[->| ->]]; by eexists. }
  destruct (Hs1 1000) as [a1 Ha1]; [auto|]. destruct (demo_links_world _ _ _ _ Hw1 Ha1) as (L2 & Hw2 & Hs2).
  destruct (Hs2 2000 (Hs1 2000 ltac:(auto))) as [a2 Ha2]. destruct (demo_links_world _ _ _ _ Hw2 Ha2) as (L3 & Hw3 & Hs3).
  destruct (Hs3 3000 (Hs2 3000 (Hs1 3000 ltac:(auto)))) as [a3 Ha3]. destruct (demo_links_world _ _ _ _ Hw3 Ha3) as (L4 & Hw4 & _). by exists L4.
Qed.

#[global] Instance sided_dec h p : Decision (sided h p).
Proof. unfold sided. apply _. Defined.

(** Check the nodes of a given hull one by one. *)
Ltac check_nodes :=
  match goal with |- Forall _ ?l => let l' := eval vm_compute in l in change l with l' end;
  repeat (apply List.Forall_cons; [intros n Hn; vm_compute in Hn; injection Hn as <-;
    split; [first [left; by_vm|right; split; by_vm]|split; [first [left; by_vm|right; split; by_vm]|split; by_vm]]|]);
  apply List.Forall_nil.

Lemma box_hull_ok mins maxs : hull_ok (SV_HullForBox mins maxs) /\ num_ok (SV_HullForBox mins maxs) 0.
Proof.
  split; [|right; split; by_vm]. split; [by_vm|]. split; [by_vm|].
  check_nodes.
Qed.

(** An entity with a box fits as soon as no distance of the point from its sides is NaN. *)
Lemma box_fits models t mins maxs p : is_solid t SOLID_BSP = false ->
  sided (SV_HullForBox (vec_sub (v_mins t) maxs) (vec_sub (v_maxs t) mins)) (vec_sub p (v_origin t)) -> hull_fits models t mins maxs p.
Proof.
  intros Ht Hs. eexists _, _. unfold SV_HullForEntity. rewrite Ht. split; [done|].
  destruct (box_hull_ok (vec_sub (v_mins t) maxs) (vec_sub (v_maxs t) mins)). done.
Qed.

Lemma demo_trigger L : world_ok demo_world L -> ~ in_solid L 3000.
Proof.
  intros Hw (j & l & Hl & (l1 & l2 & ->)%list_elem_of_split). destruct (ao_ring _ _ (wk_areas _ _ Hw) _ _ Hl) as (Hh & Hr & _ & Hp).
  destruct (ring_at _ _ _ _ _ _ _ Hr) as [Hnx _]. assert (fget l_next (links demo_world) (area 3000) = Some (-1)) as E by by_vm.
  rewrite E in Hnx. injection Hnx as Hnx. apply Forall_app in Hp as [_ Hp]. inversion Hp as [|? ? _ Hp2]; subst.
  destruct (firstz_pos _ l2 (-1) (eq_sym Hnx) Hp2 Hh) as [Hf|[_ Hf]]; [unfold solid_edicts in Hf; lia|lia].
Qed.

Definition demo_move : moveclip := move_clip 1000 false (vz3 0 0 0) (vz3 (-16) (-16) (-16)) (vz3 16 16 16) (vz3 200 0 0) 0 (Some 1000).
Definition demo_stand : moveclip := move_clip 1000 false (vz3 0 0 0) (vz3 (-16) (-16) (-16)) (vz3 16 16 16) (vz3 0 0 0) 0 (Some 1000).

Lemma demo_traces e t : ents demo_world !! e = Some t -> e = 3000 \/
  (is_solid t SOLID_TRIGGER = false /\ is_ok (entity_trace demo_models demo_move e t) = true /\
   (e = 0 \/ (is_solid t SOLID_BSP = false /\
     sided (SV_HullForBox (vec_sub (v_mins t) (vz3 16 16 16)) (vec_sub (v_maxs t) (vz3 (-16) (-16) (-16)))) (vec_sub (vz3 0 0 0) (v_origin t))))).
Proof. revert e t. apply map_Forall_lookup. by_decide. Qed.

Lemma box_hull_spec_witness : SV_HullPointContents (SV_HullForBox (vz3 (-16) (-16) (-24)) (vz3 16 16 32)) 0 (vz3 3 4 5) = Ok CONTENTS_SOLID.
Proof. rewrite (box_hull_spec (vz3 (-16) (-16) (-24)) (vz3 16 16 32) (vz3 3 4 5)); [by_vm|by_decide..]. Defined.

Lemma point_trace_spec_witness : exists c, SV_HullPointContents (SV_HullForBox (vz3 (-16) (-16) (-24)) (vz3 16 16 32)) 0 (vz3 3 4 5) = Ok c /\ c < 0.
Proof.
  destruct (box_hull_ok (vz3 (-16) (-16) (-24)) (vz3 16 16 32)) as [H1 H2].
  destruct (point_trace_spec _ 0 (vz3 3 4 5) f_0 f_1 (Trace true false false false f_1 vec0 vec0 f_0 None) H1 H2 ltac:(by_decide)) as (c & E & Hc & _).
  by exists c.
Defined.

Lemma SV_ClearWorld_spec_witness : exists s', SV_ClearWorld (vz3 (-4096) (-4096) (-4096)) (vz3 4096 4096 4096) demo0 = Ok s' /\ sv_numareanodes s' = 31.
Proof.
  destruct (SV_ClearWorld_spec (vz3 (-4096) (-4096) (-4096)) (vz3 4096 4096 4096) demo0 (proj1 demo0_links) (proj2 demo0_links)) as (s' & E & H & _).
  exists s'. exact (conj E H).
Defined.

Definition linked_size (r : res wst) : nat := match r with Ok s => size (links s) | Fault _ => 0%nat end.
Lemma demo_linked_size : linked_size (SV_LinkEdict (fun _ s => Ok s) f_0 demo_nodes 200 1000 false demo_world) = 66%nat.
Proof. by vm_compute. Qed.
Lemma SV_LinkEdict_spec_witness : exists s' L' ts,
  SV_LinkEdict (fun _ s => Ok s) f_0 demo_nodes 200 1000 false demo_world = Ok s' /\ world_ok s' L' /\
  SV_LinkEdict (fun _ s => Ok s) f_0 demo_nodes 200 1000 true demo_world = touch_all (fun _ s => Ok s) f_0 s' 1000 ts s'.
Proof.
  destruct demo_world_ok as [L Hw]. destruct (ents demo_world !! 1000) as [a|] eqn:Ea; [|by vm_compute in Ea].
  pose proof demo_linked_size as Hsize.
  destruct (SV_LinkEdict_spec (fun _ s => Ok s) f_0 demo_nodes 200 demo_world L 1000 a Hw Ea) as (s' & L' & E & Hw' & _ & Ht).
  rewrite E in Hsize. cbn [linked_size] in Hsize. exists s', L'.
  assert ((1000 =? 0) || e_free a || is_solid a SOLID_NOT = false) as Hlive by (clear -Ea; vm_compute in Ea; injection Ea as <-; by_vm).
  rewrite Hlive in Ht. cbv zeta in Ht. destruct Ht as (ts & Ht & _).
  - intros f s1 s2 Hs. injection Hs as <-. unfold same_world. split; [reflexivity|split; [reflexivity|split; reflexivity]].
  - clear -Ea. vm_compute in Ea. injection Ea as <-. by_decide.
  - rewrite Hsize. lia.
  - exists ts. exact (conj E (conj Hw' Ht)).
Defined.

Lemma SV_UnlinkEdict_spec_witness : exists s' L', SV_UnlinkEdict 1000 demo_world = Ok s' /\ ~ in_lists L' (area 1000).
Proof.
  destruct demo_world_ok as [L Hw]. destruct (ents demo_world !! 1000) as [a|] eqn:Ea; [|by vm_compute in Ea].
  destruct (SV_UnlinkEdict_spec demo_world L 1000 a Hw Ea) as (s' & E & _ & Hn & _). exists s', (drop_link (area 1000) L). exact (conj E Hn).
Defined.

Lemma is_ok_ex {A} (m : res A) : is_ok m = true -> exists a, m = Ok a.
Proof. destruct m; [by eexists|done]. Qed.

Lemma SV_Move_nearest_witness : exists tr, SV_Move demo_models 1000 false demo_world (vz3 0 0 0) (vz3 (-16) (-16) (-16)) (vz3 16 16 16) (vz3 200 0 0) 0 (Some 1000) = Ok tr /\ startsolid tr = false /\ t_ent tr = Some 2000.
Proof.
  destruct demo_world_ok as [L Hw]. destruct (ents demo_world !! 0) as [w|] eqn:Ew; [|by vm_compute in Ew].
  destruct (demo_traces 0 w Ew) as [|(_ & Hok & _)]; [done|]. destruct (is_ok_ex _ Hok) as [tw Htw].
  destruct (SV_Move_nearest demo_models 1000 false demo_world L (vz3 0 0 0) (vz3 (-16) (-16) (-16)) (vz3 16 16 16) (vz3 200 0 0) 0 (Some 1000) w tw Hw Ew) as (tr & E & _).
  - rewrite <- Htw. unfold entity_trace. by case_if.
  - intros pe [= <-]. by_decide.
  - intros e t Hin Het. destruct (demo_traces e t Het) as [->|(Ht & Hok' & _)]; [by destruct (demo_trigger L Hw)|].
    split; [done|]. intros _. by apply is_ok_ex.
  - by_decide.
  - exists tr. split; [exact E|]. clear -E. vm_compute in E. injection E as <-. split; reflexivity.
Defined.

Lemma SV_TestEntityPosition_spec_witness : exists r, SV_TestEntityPosition demo_models 1000 false demo_world 1000 = Ok r.
Proof.
  destruct demo_world_ok as [L Hw]. destruct (ents demo_world !! 0) as [w|] eqn:Ew; [|by vm_compute in Ew].
  destruct (ents demo_world !! 1000) as [a|] eqn:Ea; [|by vm_compute in Ea].
  assert (v_origin a = vz3 0 0 0 /\ v_mins a = vz3 (-16) (-16) (-16) /\ v_maxs a = vz3 16 16 16) as (E1 & E2 & E3)
    by (vm_compute in Ea; injection Ea as <-; split; [|split]; by_vm).
  destruct (SV_TestEntityPosition_spec demo_models 1000 false demo_world L 1000 a w Hw Ew Ea) as (r & E & _); [| | |by exists r].
  - rewrite E1, E2, E3. clear -Ew. vm_compute in Ew. injection Ew as <-. exists demo_hull. eexists. split; [reflexivity|].
    split; [|split; [right; split; by_vm|by_decide]]. split; [by_vm|]. split; [by_vm|].
    check_nodes.
  - intros e' t Hin Het. rewrite E1, E2, E3. destruct (demo_traces e' t Het) as [->|(Ht & _ & Hb)]; [by destruct (demo_trigger L Hw)|].
    split; [done|]. intros _. destruct Hb as [->|[Hb1 Hb2]]; [|by apply box_fits].
    exfalso. destruct Hin as (j & l & Hl & (l1 & l2 & ->)%list_elem_of_split). destruct (ao_ring _ _ (wk_areas _ _ Hw) _ _ Hl) as (Hh & Hr & _ & Hp).
    destruct (ring_at _ _ _ _ _ _ _ Hr) as [Hnx _]. assert (fget l_next (links demo_world) (area 0) = Some 0) as El by by_vm.
    rewrite El in Hnx. injection Hnx as Hnx. apply Forall_app in Hp as [_ Hp]. inversion Hp as [|? ? _ Hp2]; subst.
    destruct (firstz_pos _ l2 0 (eq_sym Hnx) Hp2 Hh) as [Hf|[_ Hf]]; lia.
  - rewrite E1, E2, E3. by_decide.
Defined.

Lemma SV_TouchLinks_spec_witness : exists ts, SV_TouchLinks (fun _ s => Ok s) f_0 (Z.to_nat AREA_NODES) 200 1000 0 demo_world = touch_all (fun _ s => Ok s) f_0 demo_world 1000 ts demo_world.
Proof.
  destruct demo_world_ok as [L Hw]. destruct (ents demo_world !! 1000) as [a|] eqn:Ea; [|by vm_compute in Ea].
  destruct (SV_TouchLinks_spec (fun _ s => Ok s) f_0 demo_world L 1000 a 200 Hw Ea) as (ts & E & _).
  - intros f s s' Hs. injection Hs as <-. unfold same_world. split; [reflexivity|split; [reflexivity|split; reflexivity]].
  - clear -Ea. vm_compute in Ea. injection Ea as <-. by_decide.
  - assert (size (links demo_world) = 66%nat) as -> by by_vm. lia.
  - exists ts. exact E.
Defined.
