(* ===== verification/Sound.v ===== *)
(** Sounds the server starts (Source/sv_main.c, Source/cl_parse.c).

    The server writes a sound to the datagram all clients get; the client reads it and calls
    [S_StartSound], whose arguments are the result here. *)

From Stdlib Require Import SpecFloat.
From S2P Require Import Prelude CFloat FloatOrder SizeBuf SvMessage ClParse World.

(** C: Source/protocol.h:64-64 SND_VOLUME *)
Definition SND_VOLUME : Z := 1.
(** C: Source/protocol.h:65-65 SND_ATTENUATION *)
Definition SND_ATTENUATION : Z := 2.
(** C: Source/protocol.h:92-92 svc_sound *)
Definition svc_sound : Z := 6.
(** C: Source/quakedef.h:73-73 MAX_DATAGRAM *)
Definition MAX_DATAGRAM : Z := 1024.
(** C: Source/sound.h:25-25 DEFAULT_SOUND_PACKET_VOLUME *)
Definition DEFAULT_SOUND_PACKET_VOLUME : Z := 255.
(** C: Source/sound.h:26-26 DEFAULT_SOUND_PACKET_ATTENUATION *)
Definition DEFAULT_SOUND_PACKET_ATTENUATION : f32 := f_1.

(** The entries from number [num] on; a null entry ends the search.
    C: Source/sv_main.c:127-131 sound_num *)
Fixpoint find_sound (sample : bytes) (num : Z) (precache : list (option bytes)) : option Z :=
  match precache with
  | Some s :: precache => if bool_decide (sample = s) then Some num else find_sound sample (num + 1) precache
  | _ => None
  end.

Definition sound_mask (volume : Z) (attenuation : f32) : Z :=
  (if volume =? DEFAULT_SOUND_PACKET_VOLUME then 0 else SND_VOLUME) .|
  (if f_eqb attenuation DEFAULT_SOUND_PACKET_ATTENUATION then 0 else SND_ATTENUATION).

(** The middle of an entity on one axis. *)
Definition middle (origin mins maxs : f32) : f32 :=
  f32_of_f64 (f64_add (f64_of_f32 origin) (f64_mul f64_half (f64_of_f32 (f32_add mins maxs)))).

(** C: Source/sv_main.c:139-157 MSG_WriteByte *)
Definition write_sound (num channel volume : Z) (attenuation : f32) (sound_num : Z) (e : ent) (datagram : sizebuf) : res sizebuf :=
  let mask := sound_mask volume attenuation in
  sb ← MSG_WriteByte datagram svc_sound;
  sb ← MSG_WriteByte sb mask;
  sb ← write_if (has mask SND_VOLUME) (fun sb => MSG_WriteByte sb volume) sb;
  sb ← write_if (has mask SND_ATTENUATION) (fun sb => MSG_WriteByte sb (f_to_int (f32_mul attenuation (f32_of_Z 64)))) sb;
  sb ← MSG_WriteShort sb (Z.shiftl num 3 .| channel);
  sb ← MSG_WriteByte sb sound_num;
  sb ← MSG_WriteCoord sb (middle (vx (v_origin e)) (vx (v_mins e)) (vx (v_maxs e)));
  sb ← MSG_WriteCoord sb (middle (vy (v_origin e)) (vy (v_mins e)) (vy (v_maxs e)));
  MSG_WriteCoord sb (middle (vz (v_origin e)) (vz (v_mins e)) (vz (v_maxs e))).

(** [num] is the number of the entity; [precache] is [sv.sound_precache].
    C: Source/sv_main.c:110-158 SV_StartSound *)
Definition SV_StartSound (precache : list (option bytes)) (num : res Z) (e : ent) (channel : Z) (sample : bytes) (volume : Z)
  (attenuation : f32) (datagram : sizebuf) : res sizebuf :=
  if (volume <? 0) || (255 <? volume) then Fault (Sys_Error "SV_StartSound: volume = %i")
  else if f_ltb attenuation f_0 || f_ltb (f32_of_Z 4) attenuation then Fault (Sys_Error "SV_StartSound: attenuation = %f")
  else if (channel <? 0) || (7 <? channel) then Fault (Sys_Error "SV_StartSound: channel = %i")
  else if MAX_DATAGRAM - 16 <? cursize datagram then mret datagram
  else
    match find_sound sample 1 (drop 1 precache) with
    | None => mret datagram
    | Some sound_num => n ← num; write_sound n channel volume attenuation sound_num e datagram
    end.

(** The arguments of [S_StartSound]; the sample is its number in [cl.sound_precache]. *)
Record started : Type := Started {
  s_ent : Z;
  s_channel : Z;
  s_sound : Z;
  s_pos : vec3;
  s_volume : f32;
  s_attenuation : f32
}.

(** C: Source/cl_parse.c:170-194 CL_ParseStartSoundPacket *)
Definition CL_ParseStartSoundPacket (m : msgstate) : res (started * msgstate) :=
  '(mask, m) ← MSG_ReadByte m;
  '(volume, m) ← read_if (has mask SND_VOLUME) MSG_ReadByte DEFAULT_SOUND_PACKET_VOLUME m;
  '(attenuation, m) ← read_if (has mask SND_ATTENUATION)
    (fun m => '(c, m) ← MSG_ReadByte m; mret (f32_of_f64 (f64_div (f64_of_Z c) (f64_of_Z 64)), m)) DEFAULT_SOUND_PACKET_ATTENUATION m;
  '(channel, m) ← MSG_ReadShort m;
  '(sound_num, m) ← MSG_ReadByte m;
  let ent := Z.shiftr channel 3 in
  if MAX_EDICTS <? ent then Fault (Host_Error "CL_ParseStartSoundPacket: ent = %i")
  else
    '(x, m) ← MSG_ReadCoord m;
    '(y, m) ← MSG_ReadCoord m;
    '(z, m) ← MSG_ReadCoord m;
    mret (Started ent (channel & 7) sound_num (Vec x y z) (f32_of_f64 (f64_div (f64_of_Z volume) (f64_of_Z 255))) attenuation, m).

(** * The message *)

Definition attenuation_byte (a : f32) : Z := u8 (f_to_int (f32_mul a (f32_of_Z 64))).
(** What the client makes of an attenuation. *)
Definition heard (a : f32) : f32 :=
  if f_eqb a DEFAULT_SOUND_PACKET_ATTENUATION then DEFAULT_SOUND_PACKET_ATTENUATION
  else f32_of_f64 (f64_div (f64_of_Z (attenuation_byte a)) (f64_of_Z 64)).
Definition middle_of (e : ent) : vec3 :=
  Vec (middle (vx (v_origin e)) (vx (v_mins e)) (vx (v_maxs e))) (middle (vy (v_origin e)) (vy (v_mins e)) (vy (v_maxs e)))
      (middle (vz (v_origin e)) (vz (v_mins e)) (vz (v_maxs e))).

Definition sound_fields (num channel volume : Z) (attenuation : f32) (sound_num : Z) (e : ent) : list field :=
  let mask := sound_mask volume attenuation in
  [FByte (u8 svc_sound)] ++ [FByte (u8 mask)] ++ opt (has mask SND_VOLUME) (FByte (u8 volume)) ++
  opt (has mask SND_ATTENUATION) (FByte (attenuation_byte attenuation)) ++
  [FShort (s16 (Z.shiftl num 3 .| channel))] ++ [FByte (u8 sound_num)] ++
  [FShort (coord_int (vx (middle_of e)))] ++ [FShort (coord_int (vy (middle_of e)))] ++ [FShort (coord_int (vz (middle_of e)))].

Lemma write_sound_fields h num channel volume attenuation sound_num e sb :
  write_sound num channel volume attenuation sound_num e sb = write_fields h sb (sound_fields num channel volume attenuation sound_num e).
Proof.
  unfold write_sound, sound_fields. cbv zeta.
  repeat (apply write_step;
    [first [apply write_one; first [apply byte_field|apply short_field|apply coord_field]|apply write_if_opt; intros; apply byte_field]|];
    clear sb; intros sb).
  apply write_one, coord_field.
Qed.

Lemma sound_mask_bits volume a : u8 (sound_mask volume a) = sound_mask volume a /\
  has (sound_mask volume a) SND_VOLUME = negb (volume =? 255) /\ has (sound_mask volume a) SND_ATTENUATION = negb (f_eqb a f_1).
Proof. unfold sound_mask, DEFAULT_SOUND_PACKET_VOLUME, DEFAULT_SOUND_PACKET_ATTENUATION. destruct (volume =? 255), (f_eqb a f_1); split_and!; by vm_compute. Qed.

Lemma sound_length num channel volume a n e : zlen (fields_bytes (sound_fields num channel volume a n e)) <= 13.
Proof.
  unfold sound_fields. cbv zeta. rewrite !fields_bytes_app, !length_app. unfold opt.
  destruct (has _ SND_VOLUME), (has _ SND_ATTENUATION); cbn; lia.
Qed.

(** An entity and a channel share a number. *)
Lemma channel_split num channel : 0 <= channel <= 7 -> Z.shiftl num 3 .| channel = 8 * num + channel.
Proof.
  intros H. assert (Z.shiftl num 3 & channel = 0) as H0.
  { apply Z.bits_inj'. intros i Hi. rewrite Z.land_spec, Z.bits_0. destruct (Z.lt_ge_cases i 3).
    - by rewrite Z.shiftl_spec_low.
    - assert (Z.log2 channel < i) as Hl.
      { destruct (Z.eq_dec channel 0) as [E|]; [rewrite E; cbn; lia|]. assert (Z.log2 channel < 3) by (apply Z.log2_lt_pow2; lia). lia. }
      rewrite (Z.bits_above_log2 channel i), andb_false_r by lia. done. }
  pose proof (Z.add_nocarry_lxor _ _ H0) as E. rewrite Z.lxor_lor in E by done. rewrite <- E, Z.shiftl_mul_pow2 by lia. lia.
Qed.

Lemma channel_read num channel : 0 <= num < MAX_EDICTS -> 0 <= channel <= 7 -> let c := s16 (Z.shiftl num 3 .| channel) in
  Z.shiftr c 3 = num /\ c & 7 = channel.
Proof.
  intros Hn Hc c. unfold MAX_EDICTS in Hn. assert (c = 8 * num + channel) as ->.
  { unfold c. rewrite channel_split by done. wrap_lia. }
  split; [rewrite Z.shiftr_div_pow2 by lia; change (2 ^ 3) with 8; symmetry; apply (Z.div_unique _ _ _ channel); lia|].
  change 7 with (Z.ones 3). rewrite Z.land_ones by lia. change (2 ^ 3) with 8. symmetry. apply (Z.mod_unique _ _ num); lia.
Qed.

Lemma find_sound_range sample l : forall n k, find_sound sample n l = Some k -> n <= k < n + zlen l.
Proof.
  induction l as [|[s|] l IH]; intros n k H; cbn in H; [done| |done]. case_bool_decide.
  - injection H as <-. cbn. lia.
  - apply IH in H. cbn. lia.
Qed.

Lemma takes_attenuation c : takes (fun m => '(c, m) ← MSG_ReadByte m; mret (f32_of_f64 (f64_div (f64_of_Z c) (f64_of_Z 64)), m))
  (FByte (u8 c)) (f32_of_f64 (f64_div (f64_of_Z (u8 c)) (f64_of_Z 64))).
Proof. apply (takes_map MSG_ReadByte (fun c => f32_of_f64 (f64_div (f64_of_Z c) (f64_of_Z 64)))), takes_byte. Qed.

(** What the client makes of the message after its first byte. *)
Definition heard_sound (num channel volume : Z) (attenuation : f32) (sound_num : Z) (e : ent) : started :=
  Started num channel sound_num (vec_map sent_coord (middle_of e)) (f32_of_f64 (f64_div (f64_of_Z volume) (f64_of_Z 255))) (heard attenuation).

Lemma sound_read num channel volume a n e m rest : 0 <= num < MAX_EDICTS -> 0 <= channel <= 7 -> 0 <= volume <= 255 -> 1 <= n < 256 ->
  reading m (fields_bytes (sound_fields num channel volume a n e) ++ rest) -> exists m0 m1,
  MSG_ReadByte m = Ok (svc_sound, m0) /\ CL_ParseStartSoundPacket m0 = Ok (heard_sound num channel volume a n e, m1) /\ goes_to m m1 rest.
Proof.
  intros Hnum Hch Hvol Hn Hr. destruct (sound_mask_bits volume a) as (Hu & Hv & Ha).
  unfold sound_fields in Hr. cbv zeta in Hr. rewrite !fields_bytes_app, <- !app_assoc in Hr.
  destruct (takes_fields _ _ _ m _ (takes_byte svc_sound) Hr) as (m0 & E0 & G0).
  destruct (takes_fields _ _ _ m0 _ (takes_byte _) (proj1 G0)) as (m1 & E1 & G1). rewrite Hu in E1.
  destruct (read_if_opt _ _ _ _ DEFAULT_SOUND_PACKET_VOLUME m1 _ (takes_byte volume) (proj1 G1)) as (m2 & E2 & G2).
  destruct (read_if_opt _ _ _ _ DEFAULT_SOUND_PACKET_ATTENUATION m2 _ (takes_attenuation _) (proj1 G2)) as (m3 & E3 & G3).
  destruct (takes_fields _ _ _ m3 _ (takes_short _) (proj1 G3)) as (m4 & E4 & G4).
  destruct (takes_fields _ _ _ m4 _ (takes_byte _) (proj1 G4)) as (m5 & E5 & G5). rewrite u8_id in E5 by lia.
  destruct (takes_fields _ _ _ m5 _ (takes_coord _) (proj1 G5)) as (m6 & E6 & G6).
  destruct (takes_fields _ _ _ m6 _ (takes_coord _) (proj1 G6)) as (m7 & E7 & G7).
  destruct (takes_fields _ _ _ m7 _ (takes_coord _) (proj1 G7)) as (m8 & E8 & G8).
  exists m0, m8. split; [done|]. split; [|by via G0; via G1; via G2; via G3; via G4; via G5; via G6; via G7].
  unfold CL_ParseStartSoundPacket. rewrite E1, bind_Ok, E2, bind_Ok, E3, bind_Ok, E4, bind_Ok, E5, bind_Ok.
  destruct (channel_read num channel Hnum Hch) as [Hc1 Hc2]. cbv zeta. rewrite Hc1, Hc2.
  assert (MAX_EDICTS <? num = false) as -> by lia. rewrite E6, bind_Ok, E7, bind_Ok, E8, bind_Ok. unfold heard_sound, heard. do 2 f_equal.
  rewrite Hv, Ha, u8_id by lia. f_equal.
  - destruct (Z.eqb_spec volume 255) as [->|]; done.
  - unfold DEFAULT_SOUND_PACKET_ATTENUATION. destruct (f_eqb a f_1); done.
Qed.

(** C27: A sound the server starts reaches the client.  When the arguments are in range, the sample is
    precached and the datagram has room, the server appends at most 13 bytes to the datagram and a
    client that reads them starts the sample of the same number on the same entity and channel, at
    the same volume and at the middle of the entity, to the precision of coordinates; the
    attenuation arrives cut to a multiple of 1/64 below 4. *)
Theorem sound_round_trip precache num e channel sample volume attenuation sb n :
  0 <= num < MAX_EDICTS -> 0 <= channel <= 7 -> 0 <= volume <= 255 -> zlen precache <= 256 ->
  f_ltb attenuation f_0 = false -> f_ltb (f32_of_Z 4) attenuation = false ->
  find_sound sample 1 (drop 1 precache) = Some n ->
  sb_wf sb -> cursize sb <= MAX_DATAGRAM - 16 -> MAX_DATAGRAM <= maxsize sb -> exists sb' sent,
    SV_StartSound precache (Ok num) e channel sample volume attenuation sb = Ok sb' /\
    sb_wf sb' /\ contents sb' = contents sb ++ sent /\ zlen sent <= 13 /\
    forall m rest, reading m (sent ++ rest) -> exists m0 m1,
      MSG_ReadByte m = Ok (svc_sound, m0) /\
      CL_ParseStartSoundPacket m0 = Ok (heard_sound num channel volume attenuation n e, m1) /\ goes_to m m1 rest.
Proof.
  intros Hnum Hch Hvol Hl Ha1 Ha2 Hf Hw Hc Hm. pose proof (find_sound_range _ _ _ _ Hf) as Hn. rewrite length_drop in Hn.
  pose proof (sound_length num channel volume attenuation n e) as Hlen.
  destruct (write_fields_spec LittleEndian (sound_fields num channel volume attenuation n e) sb Hw) as (sb' & E & Hw' & Hsent).
  { unfold MAX_DATAGRAM in *. lia. }
  exists sb', (fields_bytes (sound_fields num channel volume attenuation n e)). split.
  { unfold SV_StartSound. rewrite Ha1, Ha2, Hf. assert ((volume <? 0) || (255 <? volume) = false) as -> by lia.
    assert ((channel <? 0) || (7 <? channel) = false) as -> by lia. assert (MAX_DATAGRAM - 16 <? cursize sb = false) as -> by lia.
    cbn [orb]. by rewrite bind_Ok, (write_sound_fields LittleEndian). }
  split; [done|]. split; [done|]. split; [exact Hlen|]. intros m rest. apply sound_read; lia.
Qed.

(** The greatest attenuation the server accepts, 4, arrives as none at all. *)
Lemma attenuation_4_lost : f_ltb (f32_of_Z 4) (f32_of_Z 4) = false /\ heard (f32_of_Z 4) = f_0.
Proof. by vm_compute. Qed.

Definition demo_sound : bytes := cs "demon/dland2.wav".
Definition demo_datagram : sizebuf := SizeBuf false false (repeat 0 1024%nat) 1024 0.
Lemma sound_round_trip_witness : exists sb' sent,
  SV_StartSound [None; Some demo_sound] (Ok 1) (demo_ent vec0 16 0 3 3 0) 0 demo_sound 255 f_1 demo_datagram = Ok sb' /\
  contents sb' = sent /\ zlen sent <= 13.
Proof.
  destruct (sound_round_trip [None; Some demo_sound] 1 (demo_ent vec0 16 0 3 3 0) 0 demo_sound 255 f_1 demo_datagram 1)
    as (sb' & sent & E & _ & Hc & Hl & _); try reflexivity; try (cbn; lia).
  - split; by_vm.
  - split; [split; by_vm|by_vm].
  - by_vm.
  - exists sb', sent. split; [exact E|]. split; [exact Hc|exact Hl].
Defined.
