(* ===== verification/SndMix.v ===== *)
(** Mixing of sounds (Source/snd_mix.c), in the C versions of the inner loops, and a reference that
    computes one sample at a time.

    Times are counts of sample pairs; GetSoundtime of snd_dma.c keeps them far from the limit of an
    [int].  The buffer of the device is an array of samples of its own width.  [S_LoadSound], which
    loads a sound into the cache, is a parameter; the device of Windows is left out. *)

From Stdlib Require Import SpecFloat.
From S2P Require Import Prelude CFloat SizeBuf SvMessage World.

Definition get {A} (l : list A) (i : Z) : res A :=
  if i <? 0 then Fault (Undefined "before an array") else of_option (Undefined "behind an array") (l !! Z.to_nat i).
Definition put {A} (l : list A) (i : Z) (x : A) : res (list A) := '_ ← get l i; mret (<[Z.to_nat i := x]> l).

(** The samples are bytes for the width 1 and shorts for the width 2; files of other widths, whose samples
    the code takes for shorts, are left out.
    C: Source/sound.h:44-52 sfxcache_t *)
Record sfxcache : Type := SfxCache { sc_length : Z; sc_loopstart : Z; sc_speed : Z; sc_width : Z; sc_stereo : Z; sc_data : list Z }.
(** C: Source/sound.h:67-80 channel_t *)
Record channel : Type := Channel {
  ch_sfx : option Z; leftvol : Z; rightvol : Z; ch_end : Z; ch_pos : Z; ch_entnum : Z; ch_entchannel : Z; ch_origin : vec3; dist_mult : f32; master_vol : Z
}.
(** C: Source/sound.h:54-64 dma_t *)
Record dma : Type := Dma { d_channels : Z; d_samples : Z; d_samplebits : Z; d_speed : Z; d_buffer : list Z }.
Definition set_buffer (x : list Z) (d : dma) : dma := Dma (d_channels d) (d_samples d) (d_samplebits d) (d_speed d) x.

Definition set_sfx (x : option Z) (c : channel) : channel :=
  Channel x (leftvol c) (rightvol c) (ch_end c) (ch_pos c) (ch_entnum c) (ch_entchannel c) (ch_origin c) (dist_mult c) (master_vol c).
Definition set_vols (l r : Z) (c : channel) : channel :=
  Channel (ch_sfx c) l r (ch_end c) (ch_pos c) (ch_entnum c) (ch_entchannel c) (ch_origin c) (dist_mult c) (master_vol c).
Definition set_play (e p : Z) (c : channel) : channel :=
  Channel (ch_sfx c) (leftvol c) (rightvol c) e p (ch_entnum c) (ch_entchannel c) (ch_origin c) (dist_mult c) (master_vol c).

(** C: Source/snd_mix.c:34-34 PAINTBUFFER_SIZE *)
Definition PAINTBUFFER_SIZE : Z := 512.

(** [bound] of common.h. *)
Definition bound (a b c : Z) : Z := if c <=? a then a else if b <? a then a else if c <? b then c else b.

(** * Out to the device *)

(** The frames are at [p] in the paint buffer and go to [out].
    C: Source/snd_mix.c:43-54 Snd_WriteLinearBlastStereo16 *)
Fixpoint Snd_WriteLinearBlastStereo16 (snd_vol : Z) (ints : list Z) (frames : nat) (p out : Z) (buf : list Z) : res (list Z) :=
  match frames with
  | O => mret buf
  | S frames =>
      v ← get ints p;
      buf ← put buf out (bound (-32768) (s32 (v * snd_vol) >> 8) 32767);
      v ← get ints (p + 1);
      buf ← put buf (out + 1) (bound (-32768) (s32 (v * snd_vol) >> 8) 32767);
      Snd_WriteLinearBlastStereo16 snd_vol ints frames (p + 2) (out + 2) buf
  end.

(** C: Source/snd_mix.c:102-124 lpos *)
Fixpoint stereo_loop (fuel : nat) (samples snd_vol : Z) (ints : list Z) (p lpaintedtime endtime : Z) (buf : list Z) : res (list Z) :=
  if endtime <=? lpaintedtime then mret buf
  else
    match fuel with
    | O => Fault OutOfFuel
    | S fuel =>
        let lpos := lpaintedtime & ((samples >> 1) - 1) in
        let count := (samples >> 1) - lpos in
        let count := if endtime <? lpaintedtime + count then endtime - lpaintedtime else count in
        buf ← Snd_WriteLinearBlastStereo16 snd_vol ints (Z.to_nat count) p (lpos << 1) buf;
        stereo_loop fuel samples snd_vol ints (p + (count << 1)) (lpaintedtime + ((count << 1) >> 1)) endtime buf
    end.

(** The paint buffer as an array of [int]. *)
Definition ints_of (pb : list (Z * Z)) : list Z := concat ((fun p => [p.1; p.2]) <$> pb).
Definition volume_of (s_volume : f32) : Z := f_to_int (f32_mul s_volume (f32_of_Z 256)).

(** C: Source/snd_mix.c:57-130 S_TransferStereo16 *)
Definition S_TransferStereo16 (s_volume : f32) (pb : list (Z * Z)) (paintedtime endtime : Z) (d : dma) : res dma :=
  buf ← stereo_loop (Z.to_nat (endtime - paintedtime)) (d_samples d) (volume_of s_volume) (ints_of pb) 0 paintedtime endtime (d_buffer d);
  mret (set_buffer buf d).

(** The number written for [val]; a byte is written with an offset of 128.
    C: Source/snd_mix.c:191-197 val *)
Definition out_sample (samplebits val : Z) : Z :=
  let val := if 32767 <? val then 32767 else if val <? -32768 then -32768 else val in
  if samplebits =? 16 then val else u8 ((val >> 8) + 128).
(** C: Source/snd_mix.c:186-215 count *)
Fixpoint transfer_loop (count : nat) (samplebits snd_vol step out_mask : Z) (ints : list Z) (p out_idx : Z) (buf : list Z) : res (list Z) :=
  match count with
  | O => mret buf
  | S count =>
      v ← get ints p;
      buf ← put buf out_idx (out_sample samplebits (s32 (v * snd_vol) >> 8));
      transfer_loop count samplebits snd_vol step out_mask ints (p + step) ((out_idx + 1) & out_mask) buf
  end.
(** C: Source/snd_mix.c:132-234 S_TransferPaintBuffer *)
Definition S_TransferPaintBuffer (s_volume : f32) (pb : list (Z * Z)) (paintedtime endtime : Z) (d : dma) : res dma :=
  if (d_samplebits d =? 16) && (d_channels d =? 2) then S_TransferStereo16 s_volume pb paintedtime endtime d
  else if (d_samplebits d =? 16) || (d_samplebits d =? 8) then
    let out_mask := d_samples d - 1 in
    buf ← transfer_loop (Z.to_nat ((endtime - paintedtime) * d_channels d)) (d_samplebits d) (volume_of s_volume) (3 - d_channels d) out_mask
            (ints_of pb) 0 ((paintedtime * d_channels d) & out_mask) (d_buffer d);
    mret (set_buffer buf d)
  else mret d.

(** * Channels *)

(** C: Source/snd_mix.c:318-325 SND_InitScaletable *)
Definition SND_InitScaletable : list (list Z) := (fun i => (fun j => s8 j * i * 8) <$> seqZ 0 256) <$> seqZ 0 32.

(** [n] samples are added, from the start of the paint buffer; [f] gives what is added for each. *)
Fixpoint add_samples (f : Z -> res (Z * Z)) (n : nat) (i : Z) (pb : list (Z * Z)) : res (list (Z * Z)) :=
  match n with
  | O => mret pb
  | S n =>
      '(l, r) ← f i;
      '(pl, pr) ← get pb i;
      pb ← put pb i (s32 (pl + l), s32 (pr + r));
      add_samples f n (i + 1) pb
  end.
(** C: Source/snd_mix.c:330-352 SND_PaintChannelFrom8 *)
Definition SND_PaintChannelFrom8 (ch : channel) (sc : sfxcache) (count : Z) (pb : list (Z * Z)) : res (channel * list (Z * Z)) :=
  let ch := set_vols (if 255 <? leftvol ch then 255 else leftvol ch) (if 255 <? rightvol ch then 255 else rightvol ch) ch in
  lscale ← get SND_InitScaletable (leftvol ch >> 3);
  rscale ← get SND_InitScaletable (rightvol ch >> 3);
  pb ← add_samples (fun i => data ← get (sc_data sc) (ch_pos ch + i); l ← get lscale data; r ← get rscale data; mret (l, r)) (Z.to_nat count) 0 pb;
  mret (set_play (ch_end ch) (ch_pos ch + count) ch, pb).
(** C: Source/snd_mix.c:357-377 SND_PaintChannelFrom16 *)
Definition SND_PaintChannelFrom16 (ch : channel) (sc : sfxcache) (count : Z) (pb : list (Z * Z)) : res (channel * list (Z * Z)) :=
  pb ← add_samples (fun i => data ← get (sc_data sc) (ch_pos ch + i); mret (s32 (data * leftvol ch) >> 8, s32 (data * rightvol ch) >> 8)) (Z.to_nat count) 0 pb;
  mret (set_play (ch_end ch) (ch_pos ch + count) ch, pb).

(** One channel up to the time [stop]; the samples always go to the start of the paint buffer.
    C: Source/snd_mix.c:275-308 ltime *)
Fixpoint paint_channel (fuel : nat) (sc : sfxcache) (ltime stop : Z) (ch : channel) (pb : list (Z * Z)) : res (channel * list (Z * Z)) :=
  if stop <=? ltime then mret (ch, pb)
  else
    match fuel with
    | O => Fault OutOfFuel
    | S fuel =>
        let count := (if ch_end ch <? stop then ch_end ch else stop) - ltime in
        '(ch, pb) ← (if 0 <? count then (if sc_width sc =? 1 then SND_PaintChannelFrom8 ch sc count pb else SND_PaintChannelFrom16 ch sc count pb)
                     else mret (ch, pb));
        let ltime := if 0 <? count then ltime + count else ltime in
        if ch_end ch <=? ltime then
          if 0 <=? sc_loopstart sc then paint_channel fuel sc ltime stop (set_play (ltime + sc_length sc - sc_loopstart sc) (sc_loopstart sc) ch) pb
          else mret (set_sfx None ch, pb)
        else paint_channel fuel sc ltime stop ch pb
    end.

Section mix.

Context {M : Type} (S_LoadSound : Z -> M -> res (option sfxcache * M)).

Definition paint_fuel (ltime stop : Z) : nat := Z.to_nat (2 * (stop - ltime) + 2).
(** C: Source/snd_mix.c:265-310 ch *)
Fixpoint paint_all (chs : list channel) (paintedtime stop : Z) (m : M) (pb : list (Z * Z)) : res (list channel * M * list (Z * Z)) :=
  match chs with
  | [] => mret ([], m, pb)
  | ch :: chs =>
      '(ch, m, pb) ←
        (match ch_sfx ch with
         | None => mret (ch, m, pb)
         | Some sfx =>
             if (leftvol ch =? 0) && (rightvol ch =? 0) then mret (ch, m, pb)
             else
               '(sc, m) ← S_LoadSound sfx m;
               match sc with
               | None => mret (ch, m, pb)
               | Some sc => '(ch, pb) ← paint_channel (paint_fuel paintedtime stop) sc paintedtime stop ch pb; mret (ch, m, pb)
               end
         end);
      '(chs, m, pb) ← paint_all chs paintedtime stop m pb;
      mret (ch :: chs, m, pb)
  end.

(** What mixing changes; [channels] are the first [total_channels].
    C: Source/snd_mix.c:34-38 paintbuffer *)
Record mixer : Type := Mixer { channels : list channel; paintedtime : Z; paintbuffer : list (Z * Z); shm : dma; sound_memory : M }.

(** C: Source/snd_mix.c:254-315 end *)
Fixpoint paint_blocks (fuel : nat) (s_volume : f32) (endtime : Z) (s : mixer) : res mixer :=
  if endtime <=? paintedtime s then mret s
  else
    match fuel with
    | O => Fault OutOfFuel
    | S fuel =>
        let stop := if PAINTBUFFER_SIZE <? endtime - paintedtime s then paintedtime s + PAINTBUFFER_SIZE else endtime in
        let n := Z.to_nat (stop - paintedtime s) in
        let pb := replicate n (0, 0) ++ drop n (paintbuffer s) in
        '(chs, m, pb) ← paint_all (channels s) (paintedtime s) stop (sound_memory s) pb;
        d ← S_TransferPaintBuffer s_volume pb (paintedtime s) stop (shm s);
        paint_blocks fuel s_volume endtime (Mixer chs stop pb d m)
    end.
(** C: Source/snd_mix.c:248-316 S_PaintChannels *)
Definition S_PaintChannels (s_volume : f32) (endtime : Z) (s : mixer) : res mixer :=
  paint_blocks (Z.to_nat (endtime - paintedtime s)) s_volume endtime s.

End mix.
Arguments mixer : clear implicits.

(** * The reference: one sample at a time *)

Definition add2 (a b : Z * Z) : Z * Z := (s32 (a.1 + b.1), s32 (a.2 + b.2)).
Definition min255 (v : Z) : Z := if 255 <? v then 255 else v.
Definition scale8 (vol data : Z) : Z := s8 data * (min255 vol >> 3) * 8.
(** What a channel gives [i] samples after its position. *)
Definition sample_of (sc : sfxcache) (ch : channel) (i : Z) : Z * Z :=
  let d := nth (Z.to_nat (ch_pos ch + i)) (sc_data sc) 0 in
  if sc_width sc =? 1 then (scale8 (leftvol ch) d, scale8 (rightvol ch) d) else (s32 (d * leftvol ch) >> 8, s32 (d * rightvol ch) >> 8).

Section reference.

Variable snd : Z -> option sfxcache.

Definition heard (ch : channel) : option sfxcache :=
  match ch_sfx ch with Some i => if (leftvol ch =? 0) && (rightvol ch =? 0) then None else snd i | None => None end.
(** The channel [ch] at the time [t], when its position is that of the time [from]. *)
Definition with_channel (from t : Z) (acc : Z * Z) (ch : channel) : Z * Z :=
  match heard ch with Some sc => if t <? ch_end ch then add2 acc (sample_of sc ch (t - from)) else acc | None => acc end.
Definition mixed (from : Z) (chs : list channel) (t : Z) : Z * Z := foldl (with_channel from t) (0, 0) chs.

(** The channel at the time [stop]. *)
Definition advanced (from stop : Z) (ch : channel) : channel :=
  match heard ch with
  | None => ch
  | Some sc =>
      let ch1 := if from <? ch_end ch then
                   set_play (ch_end ch) (ch_pos ch + (Z.min stop (ch_end ch) - from))
                     (if sc_width sc =? 1 then set_vols (min255 (leftvol ch)) (min255 (rightvol ch)) ch else ch)
                 else ch in
      if ch_end ch <=? stop then set_sfx None ch1 else ch1
  end.

(** A sound that does not loop, with the samples up to its end. *)
Definition channel_ok (from : Z) (ch : channel) : Prop :=
  match heard ch with
  | None => True
  | Some sc => sc_loopstart sc < 0 /\ 0 <= ch_pos ch /\ ch_pos ch + (ch_end ch - from) <= zlen (sc_data sc) /\
      (sc_width sc = 1 -> Forall is_byte (sc_data sc) /\ 0 <= leftvol ch /\ 0 <= rightvol ch)
  end.

End reference.

(** The frame of the time [t] in the ring of the device. *)
Definition ring_index (d : dma) (i : Z) : nat := Z.to_nat (i mod d_samples d).
Definition put_frame (s_volume : f32) (d : dma) (t : Z) (v : Z * Z) (buf : list Z) : list Z :=
  let out x := out_sample (d_samplebits d) (s32 (x * volume_of s_volume) >> 8) in
  if d_channels d =? 2 then <[ring_index d (t * 2 + 1) := out v.2]> (<[ring_index d (t * 2) := out v.1]> buf)
  else <[ring_index d t := out v.1]> buf.
Fixpoint play (s_volume : f32) (d : dma) (n : nat) (t : Z) (frame : Z -> Z * Z) (buf : list Z) : list Z :=
  match n with O => buf | S n => play s_volume d n (t + 1) frame (put_frame s_volume d t (frame t) buf) end.

(** ** Painting *)

(** Equations between comparisons. *)
Ltac cmp_lia :=
  repeat match goal with
  | |- context [?a <=? ?b] => destruct (Z.leb_spec a b)
  | |- context [?a <? ?b] => destruct (Z.ltb_spec a b)
  | |- context [?a =? ?b] => destruct (Z.eqb_spec a b)
  end; first [reflexivity | lia].

Lemma get_inside {A} (l : list A) i x : 0 <= i -> l !! Z.to_nat i = Some x -> get l i = Ok x.
Proof. intros H E. unfold get. rewrite (proj2 (Z.ltb_ge i 0)) by lia. by rewrite E. Qed.
Lemma put_inside {A} (l : list A) i x : 0 <= i < zlen l -> put l i x = Ok (<[Z.to_nat i := x]> l).
Proof.
  intros H. unfold put. destruct (lookup_lt_is_Some_2 l (Z.to_nat i)) as [y Hy]; [lia|]. by rewrite (get_inside l i y) by (lia || done).
Qed.

Lemma add_samples_ok f g n : forall j pb, 0 <= j -> (forall i, j <= i < j + Z.of_nat n -> f i = Ok (g i)) -> j + Z.of_nat n <= zlen pb -> exists pb',
  add_samples f n j pb = Ok pb' /\ length pb' = length pb /\
  forall i, pb' !! i = if (j <=? Z.of_nat i) && (Z.of_nat i <? j + Z.of_nat n) then (fun p => add2 p (g (Z.of_nat i))) <$> pb !! i else pb !! i.
Proof.
  induction n as [|n IH]; intros j pb Hj Hf Hl; cbn [add_samples].
  - exists pb. split; [done|]. split; [done|]. intros i. by destruct (_ && _) eqn:E; [bool_props; lia|].
  - rewrite (Hf j) by lia. rewrite bind_Ok. destruct (g j) as [l r] eqn:Eg.
    destruct (lookup_lt_is_Some_2 pb (Z.to_nat j)) as [[pl pr] Hp]; [lia|]. rewrite (get_inside _ _ _ Hj Hp), bind_Ok, put_inside, bind_Ok by lia.
    destruct (IH (j + 1) (<[Z.to_nat j := (s32 (pl + l), s32 (pr + r))]> pb)) as (pb' & -> & Hl' & Hi); [lia|intros; apply Hf; lia|rewrite length_insert; lia|].
    exists pb'. split; [done|]. split; [by rewrite Hl', length_insert|]. intros i. rewrite Hi. destruct (decide (i = Z.to_nat j)) as [->|Hne].
    + rewrite list_lookup_insert_eq, Hp by lia. rewrite Z2Nat.id by lia. assert ((j + 1 <=? j) && (j <? j + 1 + Z.of_nat n) = false) as -> by cmp_lia.
      assert ((j <=? j) && (j <? j + Z.of_nat (S n)) = true) as -> by cmp_lia. cbn. by rewrite Eg.
    + rewrite list_lookup_insert_ne by lia.
      assert ((j + 1 <=? Z.of_nat i) && (Z.of_nat i <? j + 1 + Z.of_nat n) = (j <=? Z.of_nat i) && (Z.of_nat i <? j + Z.of_nat (S n))) as -> by cmp_lia. done.
Qed.

Lemma scaletable_row v : 0 <= v -> get SND_InitScaletable (min255 v >> 3) = Ok ((fun j => s8 j * (min255 v >> 3) * 8) <$> seqZ 0 256).
Proof.
  intros H. assert (0 <= min255 v >> 3 < 32) as Hr.
  { unfold min255. rewrite Z.shiftr_div_pow2 by lia. destruct (255 <? v) eqn:E; [done|]. bool_props. change (2 ^ 3) with 8. split; [apply Z.div_pos; lia|apply Z.div_lt_upper_bound; lia]. }
  apply get_inside; [lia|]. unfold SND_InitScaletable. rewrite list_lookup_fmap, (lookup_seqZ_lt 0 32) by lia. cbn. by rewrite Z2Nat.id by lia.
Qed.
Lemma scaletable_get v d : is_byte d -> get ((fun j => s8 j * (min255 v >> 3) * 8) <$> seqZ 0 256) d = Ok (scale8 v d).
Proof.
  intros Hd. unfold is_byte in Hd. apply get_inside; [lia|]. rewrite list_lookup_fmap, (lookup_seqZ_lt 0 256) by lia. cbn. by rewrite Z2Nat.id by lia.
Qed.

Lemma nth_get l i : 0 <= i < zlen l -> get l i = Ok (nth (Z.to_nat i) l 0).
Proof.
  intros H. destruct (lookup_lt_is_Some_2 l (Z.to_nat i)) as [x Hx]; [lia|]. rewrite (get_inside l i x) by (lia || done).
  by rewrite (nth_lookup_Some _ _ _ _ Hx).
Qed.

(** [pb'] is [pb] with [n] samples [g] added. *)
Definition with_samples (g : Z -> Z * Z) (n : Z) (pb pb' : list (Z * Z)) : Prop :=
  length pb' = length pb /\
  forall i, pb' !! i = if Z.of_nat i <? n then (fun p => add2 p (g (Z.of_nat i))) <$> pb !! i else pb !! i.

Definition clamped (sc : sfxcache) (ch : channel) : channel :=
  if sc_width sc =? 1 then set_vols (min255 (leftvol ch)) (min255 (rightvol ch)) ch else ch.

Lemma paint_run sc ch count pb :
  0 <= ch_pos ch -> 0 <= count <= zlen pb -> ch_pos ch + count <= zlen (sc_data sc) ->
  (sc_width sc = 1 -> Forall is_byte (sc_data sc) /\ 0 <= leftvol ch /\ 0 <= rightvol ch) -> exists pb',
  (if sc_width sc =? 1 then SND_PaintChannelFrom8 ch sc count pb else SND_PaintChannelFrom16 ch sc count pb) =
    Ok (set_play (ch_end ch) (ch_pos ch + count) (clamped sc ch), pb') /\ with_samples (sample_of sc ch) count pb pb'.
Proof.
  intros Hp Hc Hd Hw. unfold clamped, sample_of. destruct (Z.eqb_spec (sc_width sc) 1) as [E|E].
  - destruct (Hw E) as (Hb & Hl & Hr). unfold SND_PaintChannelFrom8. cbv zeta. cbn [leftvol rightvol ch_pos ch_end set_vols].
    fold (min255 (leftvol ch)) (min255 (rightvol ch)). rewrite !scaletable_row by done. rewrite !bind_Ok.
    destruct (add_samples_ok (fun i => data ← get (sc_data sc) (ch_pos ch + i);
        l ← get ((fun j => s8 j * (min255 (leftvol ch) >> 3) * 8) <$> seqZ 0 256) data;
        r ← get ((fun j => s8 j * (min255 (rightvol ch) >> 3) * 8) <$> seqZ 0 256) data; mret (l, r))
      (fun i => let d := nth (Z.to_nat (ch_pos ch + i)) (sc_data sc) 0 in (scale8 (leftvol ch) d, scale8 (rightvol ch) d))
      (Z.to_nat count) 0 pb) as (pb' & -> & Hlen & Hi); [lia| |lia|].
    + intros i Hin. rewrite nth_get by lia. rewrite bind_Ok. assert (is_byte (nth (Z.to_nat (ch_pos ch + i)) (sc_data sc) 0)) as Hby.
      { rewrite Forall_forall in Hb. apply Hb, list_elem_of_In, nth_In. lia. }
      by rewrite !scaletable_get by done.
    + rewrite bind_Ok. exists pb'. split; [done|]. split; [done|]. intros i. rewrite Hi.
      assert ((0 <=? Z.of_nat i) && (Z.of_nat i <? 0 + Z.of_nat (Z.to_nat count)) = (Z.of_nat i <? count)) as -> by cmp_lia. done.
  - unfold SND_PaintChannelFrom16.
    destruct (add_samples_ok (fun i => data ← get (sc_data sc) (ch_pos ch + i); mret (s32 (data * leftvol ch) >> 8, s32 (data * rightvol ch) >> 8))
      (fun i => let d := nth (Z.to_nat (ch_pos ch + i)) (sc_data sc) 0 in (s32 (d * leftvol ch) >> 8, s32 (d * rightvol ch) >> 8))
      (Z.to_nat count) 0 pb) as (pb' & -> & Hlen & Hi); [lia| |lia|].
    + intros i Hin. rewrite nth_get by lia. done.
    + rewrite bind_Ok. exists pb'. split; [done|]. split; [done|]. intros i. rewrite Hi.
      assert ((0 <=? Z.of_nat i) && (Z.of_nat i <? 0 + Z.of_nat (Z.to_nat count)) = (Z.of_nat i <? count)) as -> by cmp_lia. done.
Qed.

(** One channel of sounds that do not loop, over a block. *)
Lemma paint_channel_ok snd fuel sc ch from stop pb :
  heard snd ch = Some sc -> channel_ok snd from ch -> from < stop -> stop - from <= zlen pb -> (2 <= fuel)%nat -> exists pb',
  paint_channel fuel sc from stop ch pb = Ok (advanced snd from stop ch, pb') /\
  length pb' = length pb /\
  forall i, Z.of_nat i < stop - from -> pb' !! i = (fun p => with_channel snd from (from + Z.of_nat i) p ch) <$> pb !! i.
Proof.
  intros Hh Hok Hlt Hlen Hf. unfold channel_ok in Hok. unfold advanced, with_channel. rewrite Hh in *. destruct Hok as (Hloop & Hp & Hend & Hw).
  destruct fuel as [|fuel]; [lia|]. cbn [paint_channel]. rewrite (proj2 (Z.leb_gt stop from)) by lia. cbv zeta.
  destruct (Z.ltb_spec from (ch_end ch)) as [E|E].
  - set (count := (if ch_end ch <? stop then ch_end ch else stop) - from).
    assert (count = Z.min stop (ch_end ch) - from) as Hcount by (unfold count; cmp_lia).
    rewrite (proj2 (Z.ltb_lt 0 count)) by lia.
    destruct (paint_run sc ch count pb Hp ltac:(lia) ltac:(lia) Hw) as (pb' & -> & Hl' & Hi). rewrite bind_Ok. cbn [ch_end set_play].
    exists pb'. split; [|split; [done|]].
    + rewrite Hcount. replace (from + (Z.min stop (ch_end ch) - from)) with (Z.min stop (ch_end ch)) by lia.
      destruct (Z.leb_spec (ch_end ch) stop) as [E1|E1].
      * rewrite Z.min_r by lia. rewrite Z.leb_refl, (proj2 (Z.leb_gt 0 (sc_loopstart sc))) by lia. done.
      * rewrite Z.min_l by lia. rewrite (proj2 (Z.leb_gt (ch_end ch) stop)) by lia. destruct fuel; cbn [paint_channel]; by rewrite Z.leb_refl.
    + intros i Hin. rewrite Hi. rewrite Hcount. replace (from + Z.of_nat i - from) with (Z.of_nat i) by lia.
      assert ((Z.of_nat i <? Z.min stop (ch_end ch) - from) = (from + Z.of_nat i <? ch_end ch)) as -> by cmp_lia.
      destruct (from + Z.of_nat i <? ch_end ch); [done|]. by destruct (pb !! i).
  - set (count := (if ch_end ch <? stop then ch_end ch else stop) - from).
    assert (count <= 0) as Hcount by (unfold count; destruct (ch_end ch <? stop) eqn:E1; bool_props; lia).
    rewrite (proj2 (Z.ltb_ge 0 count)) by lia. rewrite bind_Ok, (proj2 (Z.leb_le (ch_end ch) from)), (proj2 (Z.leb_le (ch_end ch) stop)) by lia.
    rewrite (proj2 (Z.leb_gt 0 (sc_loopstart sc))) by lia. exists pb. split; [done|]. split; [done|].
    intros i Hin. rewrite (proj2 (Z.ltb_ge _ _)) by lia. by destruct (pb !! i).
Qed.

Section blocks.

Context {M : Type} (load : Z -> M -> res (option sfxcache * M)) (snd : Z -> option sfxcache).
Hypothesis loads : forall i m, load i m = Ok (snd i, m).

Lemma paint_all_ok chs from stop m : forall pb, Forall (channel_ok snd from) chs -> from < stop -> stop - from <= zlen pb -> exists pb',
  paint_all load chs from stop m pb = Ok (advanced snd from stop <$> chs, m, pb') /\ length pb' = length pb /\
  forall i, Z.of_nat i < stop - from -> pb' !! i = (fun p => foldl (with_channel snd from (from + Z.of_nat i)) p chs) <$> pb !! i.
Proof.
  induction chs as [|ch chs IH]; intros pb Hok Hlt Hlen; cbn [paint_all].
  - exists pb. split; [done|]. split; [done|]. intros i _. cbn. by destruct (pb !! i).
  - apply Forall_cons in Hok as [Hc Hok].
    assert (exists pb1, (match ch_sfx ch with
       | None => mret (ch, m, pb)
       | Some sfx => if (leftvol ch =? 0) && (rightvol ch =? 0) then mret (ch, m, pb)
           else '(sc, m) ← load sfx m; match sc with None => mret (ch, m, pb)
             | Some sc => '(ch, pb) ← paint_channel (paint_fuel from stop) sc from stop ch pb; mret (ch, m, pb) end end) =
       Ok (advanced snd from stop ch, m, pb1) /\ length pb1 = length pb /\
       forall i, Z.of_nat i < stop - from -> pb1 !! i = (fun p => with_channel snd from (from + Z.of_nat i) p ch) <$> pb !! i) as (pb1 & -> & Hl1 & Hi1).
    { destruct (heard snd ch) as [sc|] eqn:Eh.
      - destruct (paint_channel_ok snd (paint_fuel from stop) sc ch from stop pb Eh Hc Hlt Hlen) as (pb1 & E & Hl & Hi); [unfold paint_fuel; lia|].
        exists pb1. split; [|done]. unfold heard in Eh. destruct (ch_sfx ch); [|done]. destruct (_ && _); [done|]. by rewrite loads, bind_Ok, Eh, E.
      - exists pb. split.
        + unfold advanced. rewrite Eh. unfold heard in Eh. destruct (ch_sfx ch); [|done]. destruct (_ && _); [done|]. by rewrite loads, bind_Ok, Eh.
        + split; [done|]. intros i _. unfold with_channel. rewrite Eh. by destruct (pb !! i). }
    rewrite bind_Ok. destruct (IH pb1 Hok Hlt ltac:(lia)) as (pb' & -> & Hl' & Hi'). rewrite bind_Ok. exists pb'. split; [done|].
    split; [lia|]. intros i Hin. rewrite Hi', Hi1 by done. by destruct (pb !! i).
Qed.

End blocks.

(** ** The ring of the device *)

(** The frames [frame] of [n] times from [t] on are at [p]. *)
Definition frames_at (ints : list Z) (p t n : Z) (frame : Z -> Z * Z) : Prop :=
  forall i, 0 <= i < n -> get ints (p + 2 * i) = Ok (frame (t + i)).1 /\ get ints (p + 2 * i + 1) = Ok (frame (t + i)).2.

Lemma frames_later ints p t n m frame : 0 <= m -> frames_at ints p t n frame -> frames_at ints (p + 2 * m) (t + m) (n - m) frame.
Proof.
  intros Hm H i Hi. destruct (H (m + i) ltac:(lia)) as [H1 H2].
  replace (p + 2 * m + 2 * i) with (p + 2 * (m + i)) by lia. by replace (t + m + i) with (t + (m + i)) by lia.
Qed.
Lemma frames_fewer ints p t n m frame : m <= n -> frames_at ints p t n frame -> frames_at ints p t m frame.
Proof. intros Hm H i Hi. apply H. lia. Qed.

Lemma ints_frames pb (frame : Z -> Z * Z) t n : n <= zlen pb -> (forall i, Z.of_nat i < n -> pb !! i = Some (frame (t + Z.of_nat i))) ->
  frames_at (ints_of pb) 0 t n frame.
Proof.
  intros Hn H i Hi. pose proof (H (Z.to_nat i) ltac:(lia)) as Hp. rewrite Z2Nat.id in Hp by lia. clear H.
  assert (forall (l : list (Z * Z)) j x, l !! j = Some x -> ints_of l !! (2 * j)%nat = Some x.1 /\ ints_of l !! (2 * j + 1)%nat = Some x.2) as Hints.
  { induction l as [|y l IH]; intros j x Hj; [done|]. destruct j as [|j]; [by injection Hj as ->|]. destruct (IH j x Hj) as [H1 H2].
    replace (2 * S j)%nat with (S (S (2 * j))) by lia. replace (S (S (2 * j)) + 1)%nat with (S (S (2 * j + 1))) by lia. done. }
  destruct (Hints _ _ _ Hp) as [H1 H2]. split; apply get_inside; try lia.
  - by replace (Z.to_nat (0 + 2 * i)) with (2 * Z.to_nat i)%nat by lia.
  - by replace (Z.to_nat (0 + 2 * i + 1)) with (2 * Z.to_nat i + 1)%nat by lia.
Qed.

Lemma play_app v d n m frame : forall t buf, play v d (n + m) t frame buf = play v d m (t + Z.of_nat n) frame (play v d n t frame buf).
Proof.
  induction n as [|n IH]; intros t buf; cbn [play Nat.add]; [by rewrite Z.add_0_r|].
  rewrite IH. by replace (t + 1 + Z.of_nat n) with (t + Z.of_nat (S n)) by lia.
Qed.
Lemma play_ext v d n frame frame' : forall t buf, (forall i, t <= i < t + Z.of_nat n -> frame i = frame' i) -> play v d n t frame buf = play v d n t frame' buf.
Proof. induction n as [|n IH]; intros t buf H; [done|]. cbn [play]. rewrite H by lia. apply IH. intros i Hi. apply H. lia. Qed.
Lemma play_set_buffer v d b n frame : forall t buf, play v (set_buffer b d) n t frame buf = play v d n t frame buf.
Proof. induction n as [|n IH]; intros t buf; [done|]. cbn [play]. by rewrite IH. Qed.
Lemma put_frame_length v d t x buf : length (put_frame v d t x buf) = length buf.
Proof. unfold put_frame. destruct (_ =? _); by rewrite !length_insert. Qed.
Lemma play_length v d n frame : forall t buf, length (play v d n t frame buf) = length buf.
Proof. induction n as [|n IH]; intros t buf; [done|]. cbn [play]. by rewrite IH, put_frame_length. Qed.

(** A device of 2^[k] samples of 8 or 16 bits, in one or two channels. *)
Definition device_ok (d : dma) : Prop :=
  (exists k, 1 <= k /\ d_samples d = 2 ^ k) /\ zlen (d_buffer d) = d_samples d /\ (d_channels d = 1 \/ d_channels d = 2) /\
  (d_samplebits d = 8 \/ d_samplebits d = 16).

Lemma mask_mod x k n : 0 <= k -> n = 2 ^ k -> x & (n - 1) = x mod n.
Proof. intros Hk ->. rewrite <- Z.land_ones by done. by rewrite Z.ones_equiv, Z.sub_1_r. Qed.

Lemma out_bound x : bound (-32768) x 32767 = out_sample 16 x.
Proof. unfold bound, out_sample. cbv zeta. change (16 =? 16) with true. cbn iota. change (32767 <=? -32768) with false. cbn iota. cmp_lia. Qed.

Section device.

Context (v : f32) (d : dma) (frame : Z -> Z * Z).
Hypothesis dok : device_ok d.

Lemma blast_ok ints n : d_samplebits d = 16 -> d_channels d = 2 -> forall p t buf half, d_samples d = 2 * half -> zlen buf = d_samples d -> 0 <= p ->
  t mod half + Z.of_nat n <= half -> 0 < half -> frames_at ints p t (Z.of_nat n) frame ->
  Snd_WriteLinearBlastStereo16 (volume_of v) ints n p (2 * (t mod half)) buf = Ok (play v d n t frame buf).
Proof.
  intros Hb Hc. induction n as [|n IH]; intros p t buf half Hh Hl Hp Ht H0 Hfr; [done|]. cbn [Snd_WriteLinearBlastStereo16 play].
  pose proof (Z.mod_pos_bound t half H0) as Hm. destruct (Hfr 0 ltac:(lia)) as [E1 E2]. rewrite Z.mul_0_r, !Z.add_0_r in E1, E2.
  rewrite E1, bind_Ok, put_inside, bind_Ok, E2, bind_Ok, put_inside, bind_Ok by (rewrite ?length_insert; lia).
  assert ((t * 2) mod d_samples d = 2 * (t mod half)) as Ei by (rewrite Hh, Z.mul_comm, Zmult_mod_distr_l; lia).
  assert ((t * 2 + 1) mod d_samples d = 2 * (t mod half) + 1) as Ei1.
  { rewrite Hh. rewrite (Z.div_mod t half) at 1 by lia. replace ((half * (t / half) + t mod half) * 2 + 1) with (2 * (t mod half) + 1 + t / half * (2 * half)) by lia.
    rewrite Z.mod_add by lia. apply Z.mod_small. lia. }
  assert (put_frame v d t (frame t) buf = <[Z.to_nat (2 * (t mod half) + 1) := bound (-32768) (s32 ((frame t).2 * volume_of v) >> 8) 32767]>
    (<[Z.to_nat (2 * (t mod half)) := bound (-32768) (s32 ((frame t).1 * volume_of v) >> 8) 32767]> buf)) as <-.
  { unfold put_frame, ring_index. rewrite Hc, Hb, Ei, Ei1, !out_bound. done. }
  destruct n as [|n]; [done|].
  assert ((t + 1) mod half = t mod half + 1) as Et.
  { rewrite (Z.div_mod t half) at 1 by lia. replace (half * (t / half) + t mod half + 1) with (t mod half + 1 + t / half * half) by lia.
    rewrite Z.mod_add by lia. apply Z.mod_small. lia. }
  replace (2 * (t mod half) + 2) with (2 * ((t + 1) mod half)) by lia. apply IH; [done|by rewrite put_frame_length|lia|lia|done|].
  pose proof (frames_later _ _ _ _ 1 _ ltac:(lia) Hfr) as Hf. replace (Z.of_nat (S (S n)) - 1) with (Z.of_nat (S n)) in Hf by lia. by rewrite Z.mul_1_r in Hf.
Qed.

Lemma stereo_loop_ok ints endtime : d_samplebits d = 16 -> d_channels d = 2 -> forall fuel p t buf, (Z.to_nat (endtime - t) <= fuel)%nat -> zlen buf = d_samples d -> 0 <= p ->
  frames_at ints p t (endtime - t) frame ->
  stereo_loop fuel (d_samples d) (volume_of v) ints p t endtime buf = Ok (play v d (Z.to_nat (endtime - t)) t frame buf).
Proof.
  intros Hb Hc. destruct dok as ((k & Hk & Ek) & _). set (half := 2 ^ (k - 1)). assert (0 < half) as Hhalf by (apply Z.pow_pos_nonneg; lia).
  assert (d_samples d = 2 * half) as Hs by (rewrite Ek; unfold half; rewrite <- Z.pow_succ_r by lia; f_equal; lia).
  induction fuel as [|fuel IH]; intros p t buf Hf Hl Hp Hfr; cbn [stereo_loop].
  - rewrite (proj2 (Z.leb_le endtime t)) by lia. by replace (Z.to_nat (endtime - t)) with 0%nat by lia.
  - destruct (Z.leb_spec endtime t) as [E|E]; [by replace (Z.to_nat (endtime - t)) with 0%nat by lia|]. cbv zeta.
    assert (d_samples d >> 1 = half) as -> by (rewrite Hs, Z.shiftr_div_pow2 by lia; change (2 ^ 1) with 2; rewrite Z.mul_comm, Z.div_mul by lia; done).
    rewrite (mask_mod t (k - 1) half) by (lia || done). pose proof (Z.mod_pos_bound t half Hhalf) as Hm.
    set (count := if endtime <? t + (half - t mod half) then endtime - t else half - t mod half).
    assert (0 < count <= endtime - t /\ t mod half + count <= half) as [Hcount Hcl] by (unfold count; destruct (Z.ltb_spec endtime (t + (half - t mod half))); lia).
    rewrite !Z.shiftl_mul_pow2, Z.shiftr_div_pow2 by lia. change (2 ^ 1) with 2. rewrite Z.div_mul by lia. rewrite (Z.mul_comm (t mod half)).
    rewrite (blast_ok ints (Z.to_nat count) Hb Hc p t buf half) by (first [done|lia|apply (frames_fewer _ _ _ (endtime - t)); [lia|done]]). rewrite bind_Ok.
    rewrite IH; [|lia|by rewrite play_length|lia|].
    + f_equal. replace (Z.to_nat (endtime - t)) with (Z.to_nat count + Z.to_nat (endtime - (t + count)))%nat by lia.
      rewrite play_app. by rewrite Z2Nat.id by lia.
    + replace (endtime - (t + count)) with (endtime - t - count) by lia. rewrite Z.mul_comm. apply frames_later; [lia|done].
Qed.

Lemma ring_step x : 0 <= x mod d_samples d < d_samples d /\ (x mod d_samples d + 1) & (d_samples d - 1) = (x + 1) mod d_samples d.
Proof.
  destruct dok as ((k & Hk & Ek) & _). assert (0 < d_samples d) by (rewrite Ek; apply Z.pow_pos_nonneg; lia).
  split; [by apply Z.mod_pos_bound|]. rewrite (mask_mod _ k) by (lia || done). by rewrite Z.add_mod_idemp_l by lia.
Qed.

Lemma transfer_two ints n : d_channels d = 2 -> forall p t buf, zlen buf = d_samples d -> frames_at ints p t (Z.of_nat n) frame ->
  transfer_loop (2 * n) (d_samplebits d) (volume_of v) 1 (d_samples d - 1) ints p ((t * 2) mod d_samples d) buf = Ok (play v d n t frame buf).
Proof.
  intros Hc. induction n as [|n IH]; intros p t buf Hl Hfr; [done|]. replace (2 * S n)%nat with (S (S (2 * n))) by lia. cbn [transfer_loop play].
  destruct (Hfr 0 ltac:(lia)) as [E1 E2]. rewrite Z.mul_0_r, !Z.add_0_r in E1, E2. destruct (ring_step (t * 2)) as [R1 ->]. destruct (ring_step (t * 2 + 1)) as [R2 ->].
  rewrite E1, bind_Ok, put_inside, bind_Ok, E2, bind_Ok, put_inside, bind_Ok by (rewrite ?length_insert; lia).
  replace (t * 2 + 1 + 1) with ((t + 1) * 2) by lia. replace (p + 1 + 1) with (p + 2 * 1) by lia. rewrite IH; [|by rewrite !length_insert|].
  - unfold put_frame, ring_index. by rewrite Hc.
  - pose proof (frames_later _ _ _ _ 1 _ ltac:(lia) Hfr) as Hf. by replace (Z.of_nat (S n) - 1) with (Z.of_nat n) in Hf by lia.
Qed.

Lemma transfer_one ints n : d_channels d = 1 -> forall p t buf, zlen buf = d_samples d -> frames_at ints p t (Z.of_nat n) frame ->
  transfer_loop n (d_samplebits d) (volume_of v) 2 (d_samples d - 1) ints p (t mod d_samples d) buf = Ok (play v d n t frame buf).
Proof.
  intros Hc. induction n as [|n IH]; intros p t buf Hl Hfr; [done|]. cbn [transfer_loop play].
  destruct (Hfr 0 ltac:(lia)) as [E1 _]. rewrite Z.mul_0_r, !Z.add_0_r in E1. destruct (ring_step t) as [R1 ->].
  rewrite E1, bind_Ok, put_inside, bind_Ok by lia. replace (p + 2) with (p + 2 * 1) by lia. rewrite IH; [|by rewrite length_insert|].
  - unfold put_frame, ring_index. by rewrite Hc.
  - pose proof (frames_later _ _ _ _ 1 _ ltac:(lia) Hfr) as Hf. by replace (Z.of_nat (S n) - 1) with (Z.of_nat n) in Hf by lia.
Qed.

Lemma transfer_ok pb t stop : t <= stop -> frames_at (ints_of pb) 0 t (stop - t) frame ->
  S_TransferPaintBuffer v pb t stop d = Ok (set_buffer (play v d (Z.to_nat (stop - t)) t frame (d_buffer d)) d).
Proof.
  intros Ht Hfr. pose proof dok as ((k & Hk & Ek) & Hl & Hc & Hb). unfold S_TransferPaintBuffer.
  destruct ((d_samplebits d =? 16) && (d_channels d =? 2)) eqn:E; bool_props.
  - unfold S_TransferStereo16. by rewrite stereo_loop_ok by (done || lia).
  - assert ((d_samplebits d =? 16) || (d_samplebits d =? 8) = true) as -> by (destruct Hb as [-> | ->]; done). cbv zeta.
    rewrite (mask_mod _ k) by (lia || done). replace (stop - t) with (Z.of_nat (Z.to_nat (stop - t))) in Hfr by lia. destruct Hc as [Hc|Hc]; rewrite Hc.
    + rewrite !Z.mul_1_r. change (3 - 1) with 2. by rewrite transfer_one by done.
    + change (3 - 2) with 1. replace (Z.to_nat ((stop - t) * 2)) with (2 * Z.to_nat (stop - t))%nat by lia. by rewrite transfer_two by done.
Qed.

End device.

(** ** Blocks *)

Section compose.

Context (snd : Z -> option sfxcache).

Lemma min255_idem x : min255 (min255 x) = min255 x.
Proof. unfold min255. destruct (255 <? x) eqn:E; [done|by rewrite E]. Qed.
Lemma min255_zero x : (min255 x =? 0) = (x =? 0).
Proof. unfold min255. destruct (Z.ltb_spec 255 x); [|done]. symmetry. apply Z.eqb_neq. lia. Qed.

(** What is heard of a channel after the block, and what was heard. *)
Lemma heard_advanced from mid ch sc : heard snd ch = Some sc -> heard snd (advanced snd from mid ch) = if ch_end ch <=? mid then None else Some sc.
Proof.
  intros H. unfold advanced. rewrite H. destruct (ch_end ch <=? mid); [done|]. rewrite <- H. destruct (from <? ch_end ch); [|done].
  destruct (sc_width sc =? 1); [|done]. unfold heard. cbn. by rewrite !min255_zero.
Qed.
Lemma heard_not_advanced from mid ch : heard snd ch = None -> advanced snd from mid ch = ch.
Proof. intros H. unfold advanced. by rewrite H. Qed.

(** The channel after a block in which it did not end. *)
Lemma still_playing from mid ch sc : heard snd ch = Some sc -> from < mid -> mid < ch_end ch ->
  advanced snd from mid ch = set_play (ch_end ch) (ch_pos ch + (mid - from)) (clamped sc ch).
Proof.
  intros H H1 H2. unfold advanced. rewrite H, (proj2 (Z.ltb_lt from (ch_end ch))), (proj2 (Z.leb_gt (ch_end ch) mid)), Z.min_l by lia. done.
Qed.
Lemma sample_clamped sc ch e p i : sample_of sc (set_play e p (clamped sc ch)) i = sample_of sc (set_play e p ch) i.
Proof. unfold sample_of, clamped. destruct (sc_width sc =? 1); [|done]. unfold scale8. cbn. by rewrite !min255_idem. Qed.

Lemma with_channel_later from mid t acc ch : from < mid -> mid <= t ->
  with_channel snd mid t acc (advanced snd from mid ch) = with_channel snd from t acc ch.
Proof.
  intros H1 H2. unfold with_channel. destruct (heard snd ch) as [sc|] eqn:Eh; [|by rewrite heard_not_advanced, Eh].
  rewrite (heard_advanced _ _ _ _ Eh). destruct (Z.leb_spec (ch_end ch) mid); [by rewrite (proj2 (Z.ltb_ge t (ch_end ch))) by lia|].
  rewrite (still_playing _ _ _ _ Eh) by lia. rewrite sample_clamped. cbn [ch_end set_play]. destruct (t <? ch_end ch); [|done].
  f_equal. unfold sample_of. cbn. by replace (ch_pos ch + (mid - from) + (t - mid)) with (ch_pos ch + (t - from)) by lia.
Qed.
Lemma mixed_later from mid t chs : from < mid -> mid <= t -> mixed snd mid (advanced snd from mid <$> chs) t = mixed snd from chs t.
Proof.
  intros H1 H2. unfold mixed. generalize (0, 0). induction chs as [|ch chs IH]; intros acc; [done|]. cbn [fmap list_fmap foldl].
  rewrite with_channel_later by done. apply IH.
Qed.

Lemma advanced_later from mid stop ch : from < mid -> mid < stop -> advanced snd mid stop (advanced snd from mid ch) = advanced snd from stop ch.
Proof.
  intros H1 H2. destruct (heard snd ch) as [sc|] eqn:Eh; [|by rewrite !(heard_not_advanced _ _ ch)].
  pose proof (heard_advanced from mid ch sc Eh) as Ha. destruct (Z.leb_spec (ch_end ch) mid) as [E|E].
  - rewrite (heard_not_advanced _ _ _ Ha). unfold advanced. rewrite Eh, !(proj2 (Z.leb_le _ _)) by lia. destruct (from <? ch_end ch); [|done]. by rewrite !Z.min_r by lia.
  - rewrite (still_playing _ _ _ _ Eh) in * by lia. unfold advanced. rewrite Ha, Eh. cbn [ch_end set_play].
    rewrite (proj2 (Z.ltb_lt mid _)), (proj2 (Z.ltb_lt from _)) by lia.
    assert (set_play (ch_end ch) (ch_pos (set_play (ch_end ch) (ch_pos ch + (mid - from)) (clamped sc ch)) + (Z.min stop (ch_end ch) - mid))
        (if sc_width sc =? 1 then set_vols (min255 (leftvol (set_play (ch_end ch) (ch_pos ch + (mid - from)) (clamped sc ch))))
           (min255 (rightvol (set_play (ch_end ch) (ch_pos ch + (mid - from)) (clamped sc ch)))) (set_play (ch_end ch) (ch_pos ch + (mid - from)) (clamped sc ch))
         else set_play (ch_end ch) (ch_pos ch + (mid - from)) (clamped sc ch)) =
      set_play (ch_end ch) (ch_pos ch + (Z.min stop (ch_end ch) - from)) (clamped sc ch)) as ->; [|done].
    unfold clamped. destruct (sc_width sc =? 1); unfold set_play, set_vols; cbn; rewrite ?min255_idem; f_equal; lia.
Qed.

Lemma ok_later from mid ch : from < mid -> channel_ok snd from ch -> channel_ok snd mid (advanced snd from mid ch).
Proof.
  intros H1 Hok. unfold channel_ok. destruct (heard snd ch) as [sc|] eqn:Eh; [|by rewrite heard_not_advanced, Eh].
  rewrite (heard_advanced _ _ _ _ Eh). destruct (Z.leb_spec (ch_end ch) mid) as [E|E]; [done|]. rewrite (still_playing _ _ _ _ Eh) by lia.
  unfold channel_ok in Hok. rewrite Eh in Hok. destruct Hok as (L1 & L2 & L3 & L4). cbn [ch_pos ch_end set_play].
  split; [done|]. split; [lia|]. split; [lia|]. intros Hw. destruct (L4 Hw) as (A & B & C). split; [done|].
  unfold clamped. rewrite Hw. cbn. unfold min255. split; destruct (255 <? _); lia.
Qed.

End compose.

(** C14: Mixing is computing each sample on its own.  For sounds that do not loop, [S_PaintChannels] works
    in blocks of 512 frames, channel by channel, through a table of scaled bytes, around the end of
    the ring of the device; what is left in the ring is exactly what the reference writes one frame
    after the other: the sum of the samples of all channels that are heard at that time, scaled by
    the volume, limited to 16 bits and cut to the width of the device, in one or two channels.  Each
    channel ends up at the sample of the end time, or free when its sound is over; nothing is read
    outside a sound or written outside the ring. *)
Theorem S_PaintChannels_mixes {M : Type} (load : Z -> M -> res (option sfxcache * M)) snd v endtime s :
  (forall i m, load i m = Ok (snd i, m)) -> Forall (channel_ok snd (paintedtime s)) (channels s) -> device_ok (shm s) ->
  zlen (paintbuffer s) = PAINTBUFFER_SIZE -> paintedtime s < endtime -> exists pb,
  S_PaintChannels load v endtime s = Ok (Mixer (advanced snd (paintedtime s) endtime <$> channels s) endtime pb
    (set_buffer (play v (shm s) (Z.to_nat (endtime - paintedtime s)) (paintedtime s) (mixed snd (paintedtime s) (channels s)) (d_buffer (shm s))) (shm s))
    (sound_memory s)).
Proof.
  intros Hload. unfold S_PaintChannels. assert (Z.to_nat (endtime - paintedtime s) <= Z.to_nat (endtime - paintedtime s))%nat as Hf by lia. revert Hf.
  generalize (Z.to_nat (endtime - paintedtime s)) at 2 3 as fuel. intros fuel. revert s.
  induction fuel as [|fuel IH]; intros [chs from pb d m] Hf Hok Hd Hpb Hlt; cbn [channels paintedtime paintbuffer shm sound_memory] in *; [lia|].
  cbn [paint_blocks]. cbn [channels paintedtime paintbuffer shm sound_memory]. rewrite (proj2 (Z.leb_gt endtime from)) by lia.
  set (stop := if PAINTBUFFER_SIZE <? endtime - from then from + PAINTBUFFER_SIZE else endtime).
  assert (from < stop <= endtime /\ stop - from <= PAINTBUFFER_SIZE) as [Hstop Hsize] by (unfold stop, PAINTBUFFER_SIZE; destruct (Z.ltb_spec 512 (endtime - from)); lia).
  cbv zeta. set (n := Z.to_nat (stop - from)). set (pb0 := replicate n (0, 0) ++ drop n pb).
  assert (zlen pb0 = PAINTBUFFER_SIZE) as Hl0 by (unfold pb0; rewrite length_app, length_replicate, length_drop; lia).
  destruct (paint_all_ok load snd Hload chs from stop m pb0 Hok ltac:(lia) ltac:(lia)) as (pb1 & -> & Hl1 & Hi1). rewrite bind_Ok.
  assert (frames_at (ints_of pb1) 0 from (stop - from) (mixed snd from chs)) as Hfr.
  { apply ints_frames; [lia|]. intros i Hi. rewrite Hi1 by done. unfold pb0. rewrite lookup_app_l by (rewrite length_replicate; lia).
    rewrite lookup_replicate_2 by lia. done. }
  rewrite (transfer_ok v d _ Hd pb1 from stop ltac:(lia) Hfr), bind_Ok. set (d1 := set_buffer _ d).
  destruct (Z.eq_dec stop endtime) as [E|E].
  - exists pb1. destruct fuel; cbn [paint_blocks paintedtime]; rewrite (proj2 (Z.leb_le endtime stop)) by lia; by rewrite <- E.
  - destruct (IH (Mixer (advanced snd from stop <$> chs) stop pb1 d1 m)) as (pb' & ->); cbn [channels paintedtime paintbuffer shm sound_memory].
    + lia.
    + apply Forall_fmap. eapply Forall_impl; [exact Hok|]. intros ch Hch. apply ok_later; [lia|done].
    + destruct Hd as (D1 & D2 & D3). split; [done|]. split; [|done]. unfold d1. cbn. by rewrite play_length.
    + lia.
    + lia.
    + exists pb'. do 2 f_equal.
      * rewrite <- list_fmap_compose. apply list_fmap_ext. intros i ch _. cbn. apply advanced_later; lia.
      * unfold d1. unfold set_buffer at 1. cbn [d_buffer d_channels d_samples d_samplebits d_speed set_buffer].
        replace (Z.to_nat (endtime - from)) with (Z.to_nat (stop - from) + Z.to_nat (endtime - stop))%nat by lia. rewrite play_app.
        replace (from + Z.of_nat (Z.to_nat (stop - from))) with stop by lia. unfold set_buffer at 2. f_equal. rewrite play_set_buffer.
        apply play_ext. intros t Ht. apply mixed_later; lia.
Qed.

(** ** Sounds that loop *)

(** A sound that starts over at or behind its end never lets [S_PaintChannels] go. *)
Lemma paint_channel_hangs sc stop : 0 <= sc_loopstart sc -> sc_length sc <= sc_loopstart sc -> forall fuel ltime ch pb,
  ltime < stop -> ch_end ch <= ltime -> paint_channel fuel sc ltime stop ch pb = Fault OutOfFuel.
Proof.
  intros H0 Hl. induction fuel as [|fuel IH]; intros ltime ch pb Hlt He; cbn [paint_channel]; rewrite (proj2 (Z.leb_gt stop ltime)) by lia; [done|].
  cbv zeta. assert (0 <? (if ch_end ch <? stop then ch_end ch else stop) - ltime = false) as -> by (destruct (Z.ltb_spec (ch_end ch) stop); lia).
  rewrite bind_Ok, (proj2 (Z.leb_le (ch_end ch) ltime)), (proj2 (Z.leb_le 0 (sc_loopstart sc))) by lia. apply IH; cbn; lia.
Qed.

Definition plain_channel (sfx : Z) (stop : Z) : channel := Channel (Some sfx) 256 256 stop 0 0 0 vec0 f_0 255.
(** The second round of a loop is added to the first samples of the block instead of following them. *)
Lemma loop_misplaced : fmap snd (paint_channel 9 (SfxCache 3 0 11025 2 0 [1; 2; 3]) 10 16 (plain_channel 0 13) (replicate 6 (0, 0))) =
  Ok [(2, 2); (4, 4); (6, 6); (0, 0); (0, 0); (0, 0)].
Proof. by vm_compute. Qed.

(** ** The theorem at a concrete input *)

Definition demo_sound (i : Z) : option sfxcache :=
  if i =? 0 then Some (SfxCache 5 (-1) 11025 2 0 [1000; -2000; 32767; 4; 5])
  else if i =? 1 then Some (SfxCache 3 (-1) 11025 1 0 [127; 128; 255]) else None.
Definition demo_mixer : mixer unit :=
  Mixer [plain_channel 0 105; plain_channel 1 102; plain_channel 2 200] 100 (replicate 512 (7, 7)) (Dma 2 16 16 11025 (replicate 16 1)) tt.
Lemma S_PaintChannels_mixes_witness : exists pb,
  S_PaintChannels (fun i m => Ok (demo_sound i, m)) f_1 800 demo_mixer = Ok (Mixer (advanced demo_sound 100 800 <$> channels demo_mixer) 800 pb
    (set_buffer (play f_1 (shm demo_mixer) (Z.to_nat (800 - 100)) 100 (mixed demo_sound 100 (channels demo_mixer)) (d_buffer (shm demo_mixer))) (shm demo_mixer)) tt).
Proof.
  destruct (S_PaintChannels_mixes (fun i m => Ok (demo_sound i, m)) demo_sound f_1 800 demo_mixer) as (pb & E); [done| | |by vm_compute|by vm_compute|by exists pb].
  - apply Forall_cons. split; [do 3 (split; [by vm_compute|]); intros H; by vm_compute in H|]. apply Forall_cons. split; [|by repeat constructor].
    do 3 (split; [by vm_compute|]). intros _. split; [by apply (bool_decide_unpack _); vm_compute|by vm_compute].
  - split; [by exists 4|]. split; [by vm_compute|]. split; [by right|by right].
Defined.
