(* ===== verification/SndMem.v ===== *)
(** Loading of sounds (Source/snd_mem.c): the chunks of a wave file, and resampling to the rate of the
    device.

    A file is the list of the bytes in memory, and pointers into it are offsets, with [None] for null.
    The cache and the files are parameters. *)

From Stdlib Require Import SpecFloat.
From S2P Require Import Prelude CFloat SizeBuf World SndMix.

(** * Wave files *)

(** C: Source/snd_mem.c:161-165 data_p *)
Record riff : Type := Riff { data_p : option Z; iff_end : Z; last_chunk : Z; iff_data : Z; iff_chunk_len : Z }.
(** C: Source/sound.h:82-90 wavinfo_t *)
Record wavinfo : Type := WavInfo { w_rate : Z; w_width : Z; w_channels : Z; w_loopstart : Z; w_samples : Z; w_dataofs : Z }.

Section wav.

Variable wav : bytes.

(** C: Source/snd_mem.c:168-175 GetLittleShort *)
Definition GetLittleShort (p : Z) : res Z :=
  b0 ← load1 wav p; b1 ← load1 wav (p + 1); mret (s16 (b0 + (b1 << 8))).
(** C: Source/snd_mem.c:177-186 GetLittleLong *)
Definition GetLittleLong (p : Z) : res Z :=
  b0 ← load1 wav p; b1 ← load1 wav (p + 1); b2 ← load1 wav (p + 2); b3 ← load1 wav (p + 3);
  mret (s32 (b0 + (b1 << 8) + (b2 << 16) + (b3 << 24))).

(** [!strncmp (p, name, strlen (name))] *)
Fixpoint named (p : Z) (name : bytes) : res bool :=
  match name with [] => mret true | c :: name => b ← load1 wav p; if negb (b =? c) then mret false else named (p + 1) name end.

(** C: Source/snd_mem.c:188-214 FindNextChunk *)
Fixpoint FindNextChunk (fuel : nat) (name : bytes) (r : riff) : res riff :=
  let p := last_chunk r in
  if iff_end r <=? p then mret (Riff None (iff_end r) (last_chunk r) (iff_data r) (iff_chunk_len r))
  else
    match fuel with
    | O => Fault OutOfFuel
    | S fuel =>
        len ← GetLittleLong (p + 4);
        if len <? 0 then mret (Riff None (iff_end r) (last_chunk r) (iff_data r) len)
        else
          let r := Riff (Some p) (iff_end r) (p + 8 + (s32 (len + 1) & Z.lnot 1)) (iff_data r) len in
          found ← named p name;
          if found : bool then mret r else FindNextChunk fuel name r
    end.
Definition chunk_fuel : nat := length wav.
(** C: Source/snd_mem.c:216-220 FindChunk *)
Definition FindChunk (name : bytes) (r : riff) : res riff :=
  FindNextChunk chunk_fuel name (Riff (data_p r) (iff_end r) (iff_data r) (iff_data r) (iff_chunk_len r)).

(** The loop of a sound: its start and, when the LIST chunk has one, the number of samples with it.
    C: Source/snd_mem.c:290-312 info *)
Definition find_loop (r : riff) : res (Z * Z) :=
  r ← FindChunk (cs "cue ") r;
  match data_p r with
  | None => mret (-1, 0)
  | Some p =>
      loopstart ← GetLittleLong (p + 32);
      r ← FindNextChunk chunk_fuel (cs "LIST") r;
      match data_p r with
      | None => mret (loopstart, 0)
      | Some p =>
          mark ← named (p + 28) (cs "mark");
          if mark : bool then i ← GetLittleLong (p + 24); mret (loopstart, s32 (loopstart + i)) else mret (loopstart, 0)
      end
  end.
(** A division by zero is undefined. *)
Definition div_int (a b : Z) : res Z := if b =? 0 then Fault (Undefined "division by zero") else mret (s32 (Z.quot a b)).

(** C: Source/snd_mem.c:244-336 GetWavinfo *)
Definition GetWavinfo (wavlength : Z) : res wavinfo :=
  let none := WavInfo 0 0 0 0 0 0 in
  r ← FindChunk (cs "RIFF") (Riff None wavlength 0 0 0);
  wave ← (match data_p r with None => mret false | Some p => named (p + 8) (cs "WAVE") end);
  match (if wave : bool then data_p r else None) with
  | None => mret none
  | Some p =>
      r ← FindChunk (cs "fmt ") (Riff (data_p r) (iff_end r) (last_chunk r) (p + 12) (iff_chunk_len r));
      match data_p r with
      | None => mret none
      | Some p =>
          format ← GetLittleShort (p + 8);
          if negb (format =? 1) then mret none
          else
            channels ← GetLittleShort (p + 10);
            rate ← GetLittleLong (p + 12);
            bits ← GetLittleShort (p + 22);
            let width := Z.quot bits 8 in
            '(loopstart, looped) ← find_loop r;
            r ← FindChunk (cs "data") r;
            match data_p r with
            | None => mret (WavInfo rate width channels loopstart looped 0)
            | Some p =>
                len ← GetLittleLong (p + 4);
                samples ← div_int len width;
                if truth looped then
                  if samples <? looped then Fault (Sys_Error "Sound %s has a bad loop length")
                  else mret (WavInfo rate width channels loopstart looped (p + 8))
                else mret (WavInfo rate width channels loopstart samples (p + 8))
            end
      end
  end.

End wav.

(** * Resampling *)

(** A sample of the file, as 16 bits.
    C: Source/snd_mem.c:78-81 sample *)
Definition file_sample (inwidth : Z) (data : bytes) (i : Z) : res Z :=
  if inwidth =? 2 then b0 ← load1 data (2 * i); b1 ← load1 data (2 * i + 1); mret (s16 (b0 + (b1 << 8)))
  else b ← load1 data i; mret ((b - 128) << 8).
(** What is kept of a sample: 16 bits, or the byte of a signed char.
    C: Source/snd_mem.c:82-85 sample *)
Definition kept_sample (width sample : Z) : Z := if width =? 2 then s16 sample else u8 (sample >> 8).
(** C: Source/snd_mem.c:72-86 samplefrac *)
Fixpoint resample_loop (n : nat) (inwidth width fracstep samplefrac : Z) (data : bytes) : res (list Z) :=
  match n with
  | O => mret []
  | S n =>
      sample ← file_sample inwidth data (samplefrac >> 8);
      rest ← resample_loop n inwidth width fracstep (s32 (samplefrac + fracstep)) data;
      mret (kept_sample width sample :: rest)
  end.
(** C: Source/snd_mem.c:65-67 data *)
Fixpoint copy_loop (n : nat) (i : Z) (data : bytes) : res (list Z) :=
  match n with
  | O => mret []
  | S n => b ← load1 data i; rest ← copy_loop n (i + 1) data; mret (u8 (b - 128) :: rest)
  end.
(** [speed] is that of the device.
    C: Source/snd_mem.c:33-88 ResampleSfx *)
Definition ResampleSfx (s_loadas8bit : bool) (speed : Z) (sc : sfxcache) (inrate inwidth : Z) (data : bytes) : res sfxcache :=
  let stepscale := f32_div (f32_of_Z inrate) (f32_of_Z speed) in
  let outcount := f_to_int (f32_div (f32_of_Z (sc_length sc)) stepscale) in
  let loopstart := if sc_loopstart sc =? -1 then -1 else f_to_int (f32_div (f32_of_Z (sc_loopstart sc)) stepscale) in
  let width := if s_loadas8bit then 1 else inwidth in
  samples ← (if f_eqb stepscale f_1 && (inwidth =? 1) && (width =? 1) then copy_loop (Z.to_nat outcount) 0 data
             else resample_loop (Z.to_nat outcount) inwidth width (f_to_int (f32_mul stepscale (f32_of_Z 256))) 0 data);
  mret (SfxCache outcount loopstart speed width 0 samples).

(** C: Source/sound.h:44-52 sfxcache_t *)
Definition sizeof_sfxcache : Z := 24.

(** [None] when the sound cannot be had.
    C: Source/snd_mem.c:97-149 S_LoadSound *)
Definition S_LoadSound {M : Type} (Cache_Check : Z -> M -> option sfxcache * M) (Cache_Alloc : Z -> Z -> M -> res (bool * M))
  (write : Z -> sfxcache -> M -> M) (COM_LoadStackFile : bytes -> M -> option bytes * M)
  (s_loadas8bit : bool) (speed : Z) (sfx : Z) (name : bytes) (m : M) : res (option sfxcache * M) :=
  let '(sc, m) := Cache_Check sfx m in
  match sc with
  | Some sc => mret (Some sc, m)
  | None =>
      let '(file, m) := COM_LoadStackFile (cs "sound/" ++ name) m in
      match file with
      | None => mret (None, m)
      | Some data =>
          info ← GetWavinfo (data ++ [0]) (zlen data);
          if negb (w_channels info =? 1) then mret (None, m)
          else
            let stepscale := f32_div (f32_of_Z (w_rate info)) (f32_of_Z speed) in
            let len := s32 (s32 (f_to_int (f32_div (f32_of_Z (w_samples info)) stepscale) * w_width info) * w_channels info) in
            '(room, m) ← Cache_Alloc sfx (s32 (len + sizeof_sfxcache)) m;
            if negb room then mret (None, m)
            else
              sc ← ResampleSfx s_loadas8bit speed (SfxCache (w_samples info) (w_loopstart info) (w_rate info) (w_width info) (w_channels info) [])
                     (w_rate info) (w_width info) (drop (Z.to_nat (w_dataofs info)) (data ++ [0]));
              mret (Some sc, write sfx sc m)
      end
  end.

(** * What is found in a file *)

(** The bytes [l] are at [p]. *)
Definition has_at (wav : bytes) (p : Z) (l : bytes) : Prop := 0 <= p /\ exists rest, drop (Z.to_nat p) wav = l ++ rest.

Lemma has_at_load wav p l i b : has_at wav p l -> 0 <= i -> l !! Z.to_nat i = Some b -> load1 wav (p + i) = Ok b.
Proof.
  intros [Hp [rest E]] Hi Hb. apply load1_lookup; [lia|]. replace (Z.to_nat (p + i)) with (Z.to_nat p + Z.to_nat i)%nat by lia.
  rewrite <- lookup_drop, E. by apply lookup_app_l_Some.
Qed.
Lemma has_at_app wav p l1 l2 : has_at wav p (l1 ++ l2) -> has_at wav p l1 /\ has_at wav (p + zlen l1) l2.
Proof.
  intros [Hp [rest E]]. split; (split; [lia|]).
  - exists (l2 ++ rest). by rewrite app_assoc.
  - exists rest. replace (Z.to_nat (p + zlen l1)) with (Z.to_nat p + length l1)%nat by lia. by rewrite <- drop_drop, E, <- app_assoc, drop_app_length.
Qed.
Lemma has_at_eq wav p q l : has_at wav p l -> p = q -> has_at wav q l.
Proof. by intros H <-. Qed.
Lemma has_at_first wav p c l : has_at wav p (c :: l) -> load1 wav p = Ok c /\ has_at wav (p + 1) l.
Proof.
  intros H. split; [|exact (proj2 (has_at_app wav p [c] l H))]. pose proof (has_at_load wav p (c :: l) 0 c H ltac:(lia) eq_refl) as E.
  by rewrite Z.add_0_r in E.
Qed.

Lemma GetLittleShort_at wav p c : -32768 <= c < 32768 -> has_at wav p (short_bytes c) -> GetLittleShort wav p = Ok c.
Proof.
  intros Hc H. unfold GetLittleShort. apply has_at_first in H as [-> H]. apply has_at_first in H as [-> _]. rewrite !bind_Ok. by rewrite short_bytes_id.
Qed.
Lemma GetLittleLong_at wav p c : is_int c -> has_at wav p (long_bytes c) -> GetLittleLong wav p = Ok c.
Proof.
  intros Hc H. unfold GetLittleLong, long_bytes in *. apply has_at_first in H as [-> H]. apply has_at_first in H as [-> H].
  rewrite <- Z.add_assoc in H. change (1 + 1) with 2 in H. apply has_at_first in H as [-> H].
  rewrite <- Z.add_assoc in H. change (2 + 1) with 3 in H. apply has_at_first in H as [-> _].
  rewrite !bind_Ok. rewrite long_bytes_id; [done|]. unfold is_int, INT_MIN, INT_MAX in Hc. lia.
Qed.

Lemma named_at wav : forall name p l, length l = length name -> has_at wav p l -> named wav p name = Ok (bool_decide (l = name)).
Proof.
  induction name as [|c name IH]; intros p l Hl H; destruct l as [|b l]; try done. cbn [named]. apply has_at_first in H as [-> H]. rewrite bind_Ok.
  destruct (Z.eqb_spec b c) as [->|Hne]; cbn [negb].
  - rewrite (IH _ l) by (done || (cbn in Hl; lia)). f_equal. apply bool_decide_ext. split; [by intros ->|congruence].
  - rewrite bool_decide_eq_false_2 by congruence. done.
Qed.

(** ** Chunks *)

(** A name of four characters and the bytes, with one more when their number is odd. *)
Definition chunk_bytes (c : bytes * bytes) : bytes := c.1 ++ long_bytes (zlen c.2) ++ c.2 ++ replicate (length c.2 `mod` 2) 0.
Definition chunk_ok (c : bytes * bytes) : Prop := length c.1 = 4%nat /\ zlen c.2 < INT_MAX.
Definition chunks_bytes (cs : list (bytes * bytes)) : bytes := concat (chunk_bytes <$> cs).

(** The first chunk with this name, and where it is. *)
Fixpoint find_chunk (name : bytes) (p : Z) (cs : list (bytes * bytes)) : option (Z * bytes) :=
  match cs with [] => None | c :: cs => if decide (c.1 = name) then Some (p, c.2) else find_chunk name (p + zlen (chunk_bytes c)) cs end.

Lemma chunk_length c : length c.1 = 4%nat -> zlen (chunk_bytes c) = 8 + zlen c.2 + zlen c.2 mod 2.
Proof.
  intros H. unfold chunk_bytes. rewrite !length_app, length_replicate, H. cbn [length long_bytes]. rewrite !Nat2Z.inj_add, Nat2Z.inj_mod. lia.
Qed.
Lemma padded n : 0 <= n < INT_MAX -> s32 (n + 1) & Z.lnot 1 = n + n mod 2.
Proof.
  intros H. rewrite s32_id by (unfold INT_MAX in H; lia). change (Z.lnot 1) with (Z.lnot (2 ^ 1 - 1)). rewrite land_lnot_mod by lia. change (2 ^ 1) with 2.
  Z.to_euclidean_division_equations; lia.
Qed.

Lemma FindNextChunk_spec wav name : length name = 4%nat -> forall cs fuel r, Forall chunk_ok cs -> (length cs <= fuel)%nat ->
  has_at wav (last_chunk r) (chunks_bytes cs) -> iff_end r = last_chunk r + zlen (chunks_bytes cs) -> exists last len,
  FindNextChunk wav fuel name r = Ok (Riff (fst <$> find_chunk name (last_chunk r) cs) (iff_end r) last (iff_data r) len).
Proof.
  intros Hname. induction cs as [|c cs IH]; intros fuel r Hok Hf Hat Hend.
  - destruct fuel; cbn [FindNextChunk]; rewrite (proj2 (Z.leb_le (iff_end r) (last_chunk r))) by (cbn in Hend; lia); by eexists _, _.
  - apply Forall_cons in Hok as [[Hn Hlen] Hok]. destruct fuel as [|fuel]; [cbn in Hf; lia|]. cbn [FindNextChunk find_chunk].
    assert (zlen (chunks_bytes (c :: cs)) = zlen (chunk_bytes c) + zlen (chunks_bytes cs)) as Hsum by (unfold chunks_bytes; cbn; rewrite length_app; lia).
    pose proof (chunk_length c Hn) as Hcl. pose proof (Z.mod_pos_bound (zlen c.2) 2). rewrite (proj2 (Z.leb_gt (iff_end r) (last_chunk r))) by lia.
    change (chunks_bytes (c :: cs)) with (chunk_bytes c ++ chunks_bytes cs) in Hat. apply has_at_app in Hat as [Hc Hat].
    unfold chunk_bytes in Hc. apply has_at_app in Hc as [Hc1 Hc]. apply has_at_app in Hc as [Hc2 _].
    rewrite Hn in Hc2. rewrite (GetLittleLong_at wav _ (zlen c.2)) by (try exact Hc2; unfold is_int, INT_MIN; lia). rewrite bind_Ok.
    rewrite (proj2 (Z.ltb_ge (zlen c.2) 0)) by lia. cbv zeta. rewrite padded by lia. rewrite (named_at wav name _ c.1) by (done || congruence). rewrite bind_Ok.
    destruct (decide (c.1 = name)) as [E|E]; [rewrite bool_decide_eq_true_2 by done; by eexists _, _|]. rewrite bool_decide_eq_false_2 by done.
    match goal with |- context [FindNextChunk wav fuel name ?r1] => destruct (IH fuel r1 Hok ltac:(cbn in Hf; lia)) as (last & len & ->) end;
      cbn [last_chunk iff_end iff_data].
    + by replace (last_chunk r + 8 + (zlen c.2 + zlen c.2 `mod` 2)) with (last_chunk r + zlen (chunk_bytes c)) by lia.
    + lia.
    + exists last, len. do 3 f_equal. by replace (last_chunk r + 8 + (zlen c.2 + zlen c.2 `mod` 2)) with (last_chunk r + zlen (chunk_bytes c)) by lia.
Qed.

Lemma find_chunk_at wav name : forall cs p q d, find_chunk name p cs = Some (q, d) -> Forall chunk_ok cs -> has_at wav p (chunks_bytes cs) ->
  has_at wav q (name ++ long_bytes (zlen d) ++ d) /\ length name = 4%nat /\ zlen d < INT_MAX.
Proof.
  induction cs as [|c cs IH]; intros p q d Hf Hok Hat; [done|]. cbn [find_chunk] in Hf. apply Forall_cons in Hok as [[Hn Hl] Hok].
  change (chunks_bytes (c :: cs)) with (chunk_bytes c ++ chunks_bytes cs) in Hat. apply has_at_app in Hat as [Hc Hat].
  destruct (decide (c.1 = name)) as [<-|]; [|by apply (IH _ _ _ Hf)]. injection Hf as <- <-. unfold chunk_bytes in Hc.
  rewrite (app_assoc (long_bytes _)), (app_assoc c.1) in Hc. by apply has_at_app in Hc as [Hc _].
Qed.

Lemma chunks_even cs : Forall chunk_ok cs -> zlen (chunks_bytes cs) mod 2 = 0.
Proof.
  induction 1 as [|c cs [Hn Hl] Hok IH]; [done|]. change (chunks_bytes (c :: cs)) with (chunk_bytes c ++ chunks_bytes cs). rewrite length_app, Nat2Z.inj_add.
  rewrite chunk_length by done. Z.to_euclidean_division_equations; lia.
Qed.
Lemma chunks_count cs : Forall chunk_ok cs -> (length cs <= length (chunks_bytes cs))%nat.
Proof.
  induction 1 as [|c cs [Hn Hl] Hok IH]; [done|]. change (chunks_bytes (c :: cs)) with (chunk_bytes c ++ chunks_bytes cs). rewrite length_app. cbn [length].
  pose proof (chunk_length c Hn). pose proof (Z.mod_pos_bound (zlen c.2) 2). lia.
Qed.

(** A wave file: the RIFF chunk with the others inside. *)
Definition wave_file (chunks : list (bytes * bytes)) : bytes := chunk_bytes (cs "RIFF", cs "WAVE" ++ chunks_bytes chunks).
Definition fmt_payload (channels rate byterate align width : Z) (more : bytes) : bytes :=
  short_bytes 1 ++ short_bytes channels ++ long_bytes rate ++ long_bytes byterate ++ short_bytes align ++ short_bytes (8 * width) ++ more.

Section file.

Context (chunks : list (bytes * bytes)) (tail : bytes).
Hypothesis Hok : Forall chunk_ok chunks.

Let wav := wave_file chunks ++ tail.

Lemma file_length : zlen (wave_file chunks) = 12 + zlen (chunks_bytes chunks).
Proof.
  unfold wave_file. rewrite chunk_length by done. cbn [snd]. rewrite length_app. pose proof (chunks_even chunks Hok).
  cbn [length cs]. rewrite Nat2Z.inj_add. Z.to_euclidean_division_equations; lia.
Qed.
Lemma file_parts : has_at wav 0 (cs "RIFF") /\ has_at wav 8 (cs "WAVE") /\ has_at wav 12 (chunks_bytes chunks) /\ has_at wav 0 (chunks_bytes [(cs "RIFF", cs "WAVE" ++ chunks_bytes chunks)]).
Proof.
  assert (has_at wav 0 (chunk_bytes (cs "RIFF", cs "WAVE" ++ chunks_bytes chunks))) as H by (split; [lia|by exists tail]).
  pose proof H as H'. unfold chunk_bytes in H'. cbn [fst snd] in H'. apply has_at_app in H' as [H1 H']. apply has_at_app in H' as [_ H'].
  apply has_at_app in H' as [H' _]. apply has_at_app in H' as [H2 H3]. split; [exact H1|]. split; [exact H2|]. split; [exact H3|].
  unfold chunks_bytes at 1. cbn [fmap list_fmap concat]. by rewrite app_nil_r.
Qed.

Lemma FindChunk_inside name r : length name = 4%nat -> iff_end r = zlen (wave_file chunks) -> iff_data r = 12 -> exists last len,
  FindChunk wav name r = Ok (Riff (fst <$> find_chunk name 12 chunks) (iff_end r) last 12 len).
Proof.
  intros Hn He Hd. unfold FindChunk. rewrite Hd. destruct file_parts as (_ & _ & Hat & _).
  destruct (FindNextChunk_spec wav name Hn chunks (chunk_fuel wav) (Riff (data_p r) (iff_end r) 12 12 (iff_chunk_len r)) Hok) as (last & len & E); [|exact Hat| |by exists last, len].
  - unfold chunk_fuel, wav. rewrite length_app. pose proof (chunks_count chunks Hok). pose proof file_length. lia.
  - cbn. rewrite He. apply file_length.
Qed.

End file.

(** C26: A wave file is understood.  In a file made of chunks in any order, with others between them and
    bytes behind the end, [GetWavinfo] finds the format and the samples: the rate, the width and the
    number of channels the format chunk says, as many samples as the data chunk holds, where they
    begin, and no loop when there is no cue chunk. *)
Theorem GetWavinfo_reads chunks tail channels rate byterate align width more pf pd d :
  Forall chunk_ok chunks -> zlen (chunks_bytes chunks) + 4 < INT_MAX ->
  find_chunk (cs "fmt ") 12 chunks = Some (pf, fmt_payload channels rate byterate align width more) ->
  find_chunk (cs "cue ") 12 chunks = None -> find_chunk (cs "data") 12 chunks = Some (pd, d) ->
  -32768 <= channels < 32768 -> is_int rate -> 0 < width < 4096 ->
  GetWavinfo (wave_file chunks ++ tail) (zlen (wave_file chunks)) = Ok (WavInfo rate width channels (-1) (zlen d / width) (pd + 8)) /\
  take (length d) (drop (Z.to_nat (pd + 8)) (wave_file chunks ++ tail)) = d.
Proof.
  intros Hok Hsize Hfmt Hcue Hdata Hch Hrate Hwidth. pose proof (FindChunk_inside chunks tail Hok) as Hfind. pose proof (file_length chunks Hok) as Hlen.
  destruct (file_parts chunks tail) as (_ & P1 & P2 & P3).
  set (wav := wave_file chunks ++ tail) in *. set (n := zlen (wave_file chunks)) in *.
  assert (exists last len, FindChunk wav (cs "RIFF") (Riff None n 0 0 0) = Ok (Riff (Some 0) n last 0 len)) as (last & len & E1).
  { destruct (FindNextChunk_spec wav (cs "RIFF") eq_refl [(cs "RIFF", cs "WAVE" ++ chunks_bytes chunks)] (chunk_fuel wav) (Riff None n 0 0 0)) as (last & len & E);
      [|unfold chunk_fuel, wav; rewrite length_app; cbn [length]; lia|exact P3| |by exists last, len].
    - repeat constructor. cbn [snd]. rewrite length_app. cbn [length cs]. lia.
    - unfold chunks_bytes at 1. cbn [fmap list_fmap concat last_chunk iff_end]. by rewrite app_nil_r. }
  clearbody wav n.
  destruct (find_chunk_at _ _ _ _ _ _ Hfmt Hok P2) as (Hf & _). destruct (find_chunk_at _ _ _ _ _ _ Hdata Hok P2) as (Hd & _ & Hdl).
  apply has_at_app in Hf as [_ Hf]. apply has_at_app in Hf as [_ Hf]. apply has_at_app in Hd as [_ Hd]. apply has_at_app in Hd as [Hd1 Hd2].
  unfold fmt_payload in Hf. apply has_at_app in Hf as [F1 Hf]. apply has_at_app in Hf as [F2 Hf]. apply has_at_app in Hf as [F3 Hf].
  apply has_at_app in Hf as [_ Hf]. apply has_at_app in Hf as [_ Hf]. apply has_at_app in Hf as [F4 _].
  repeat match goal with H : context [length (short_bytes ?x)] |- _ => change (length (short_bytes x)) with 2%nat in H
    | H : context [length (long_bytes ?x)] |- _ => change (length (long_bytes x)) with 4%nat in H end. cbn [length cs] in F1, F2, F3, F4, Hd1, Hd2.
  apply (has_at_eq _ _ (pf + 8)) in F1; [|lia]. apply (has_at_eq _ _ (pf + 10)) in F2; [|lia]. apply (has_at_eq _ _ (pf + 12)) in F3; [|lia].
  apply (has_at_eq _ _ (pf + 22)) in F4; [|lia]. apply (has_at_eq _ _ (pd + 4)) in Hd1; [|lia]. apply (has_at_eq _ _ (pd + 8)) in Hd2; [|lia].
  split; [|destruct Hd2 as [_ [rest ->]]; by rewrite take_app_length]. unfold GetWavinfo. rewrite E1, bind_Ok. cbn [data_p].
  rewrite (named_at wav (cs "WAVE") (0 + 8) (cs "WAVE") eq_refl P1), bind_Ok, bool_decide_eq_true_2 by done. cbn [data_p iff_end last_chunk iff_chunk_len].
  destruct (Hfind (cs "fmt ") (Riff (Some 0) n last (0 + 12) len) eq_refl eq_refl eq_refl) as (l1 & n1 & ->). rewrite Hfmt, bind_Ok. cbn [data_p fmap option_fmap option_map fst iff_end].
  rewrite (GetLittleShort_at wav (pf + 8) 1) by (lia || exact F1). rewrite bind_Ok. change (negb (1 =? 1)) with false. cbn iota.
  rewrite (GetLittleShort_at wav (pf + 10) channels) by done. rewrite bind_Ok, (GetLittleLong_at wav (pf + 12) rate) by done.
  rewrite bind_Ok, (GetLittleShort_at wav (pf + 22) (8 * width)) by (lia || exact F4). rewrite bind_Ok.
  unfold find_loop. destruct (Hfind (cs "cue ") (Riff (Some pf) n l1 12 n1) eq_refl eq_refl eq_refl) as (l2 & n2 & ->). rewrite Hcue, bind_Ok. cbn [data_p fmap option_fmap option_map].
  rewrite bind_Ok. destruct (Hfind (cs "data") (Riff (Some pf) n l1 12 n1) eq_refl eq_refl eq_refl) as (l3 & n3 & ->). rewrite Hdata, bind_Ok. cbn [data_p fmap option_fmap option_map fst].
  rewrite (GetLittleLong_at wav (pd + 4) (zlen d)) by (exact Hd1 || (unfold is_int, INT_MIN; lia)). rewrite bind_Ok.
  assert (Z.quot (8 * width) 8 = width) as -> by (rewrite Z.quot_div_nonneg, (Z.mul_comm 8), Z.div_mul by lia; done).
  unfold div_int. rewrite (proj2 (Z.eqb_neq width 0)), Z.quot_div_nonneg by lia. rewrite bind_Ok. change (truth 0) with false. cbn iota.
  rewrite s32_id; [done|]. unfold INT_MAX in Hdl. pose proof (Z.div_le_upper_bound (zlen d) width (zlen d) ltac:(lia) ltac:(nia)).
  pose proof (Z.div_pos (zlen d) width ltac:(lia) ltac:(lia)). lia.
Qed.

Definition demo_data : bytes := [9; 8; 7; 6; 5; 4].
Definition demo_chunks : list (bytes * bytes) :=
  [(cs "fmt ", fmt_payload 1 11025 22050 2 2 [7]); (cs "JUNK", [1; 2; 3]); (cs "data", demo_data)].
Lemma GetWavinfo_reads_witness :
  GetWavinfo (wave_file demo_chunks ++ [5; 5]) (zlen (wave_file demo_chunks)) = Ok (WavInfo 11025 2 1 (-1) (zlen demo_data / 2) (50 + 8)) /\
  take (length demo_data) (drop (Z.to_nat (50 + 8)) (wave_file demo_chunks ++ [5; 5])) = demo_data.
Proof.
  apply (GetWavinfo_reads demo_chunks [5; 5] 1 11025 22050 2 2 [7] 12 50 demo_data);
    [|by vm_compute|by vm_compute|by vm_compute|by vm_compute|by vm_compute|by vm_compute|by vm_compute].
  repeat (apply Forall_cons; split; [split; by vm_compute|]). by apply Forall_nil.
Defined.

(** The same file, parsed. *)
Lemma demo_chunks_parsed : GetWavinfo (wave_file demo_chunks) (zlen (wave_file demo_chunks)) = Ok (WavInfo 11025 2 1 (-1) 3 58).
Proof. by vm_compute. Qed.

(** A format that says less than 8 bits divides by zero. *)
Lemma no_width : let file := wave_file [(cs "fmt ", fmt_payload 1 11025 11025 1 0 []); (cs "data", [1; 2])] in
  GetWavinfo file (zlen file) = Fault (Undefined "division by zero").
Proof. by vm_compute. Qed.

(** * What resampling gives *)

(** Output sample [i] is input sample [i * fracstep / 256]. *)
Lemma resample_closed inwidth width step data g n : forall frac, 0 <= frac -> 0 <= step -> frac + Z.of_nat n * step < 2147483648 ->
  (forall i, (i < n)%nat -> file_sample inwidth data ((frac + Z.of_nat i * step) >> 8) = Ok (g i)) ->
  resample_loop n inwidth width step frac data = Ok ((fun i => kept_sample width (g i)) <$> seq 0 n).
Proof.
  revert g. induction n as [|n IH]; intros g frac H0 Hs Hmax Hg; [done|]. cbn [resample_loop].
  pose proof (Hg 0%nat ltac:(lia)) as E. rewrite Z.mul_0_l, Z.add_0_r in E. rewrite E, bind_Ok. rewrite s32_id by lia.
  rewrite (IH (fun i => g (S i))); [|lia|lia|lia|].
  - rewrite bind_Ok. cbn [seq fmap list_fmap]. rewrite <- seq_shift. unfold mret, res_ret. do 2 f_equal. change (map S (seq 0 n)) with (S <$> seq 0 n).
    by rewrite <- list_fmap_compose.
  - intros i Hi. rewrite <- (Hg (S i)) by lia. do 2 f_equal. lia.
Qed.

(** The special case of [ResampleSfx] is only faster.  For bytes at the rate of the device the loop
    that copies gives what the general loop gives, sample for sample, and reads the same bytes: where
    one would read outside the file so would the other. *)
Theorem fast_path_same n : forall i data, 0 <= i -> (i + Z.of_nat n) * 256 < 2147483648 -> resample_loop n 1 1 256 (i * 256) data = copy_loop n i data.
Proof.
  induction n as [|n IH]; intros i data Hi Hn; [done|]. cbn [resample_loop copy_loop]. rewrite Z.shiftr_div_pow2 by lia. change (2 ^ 8) with 256.
  rewrite Z.div_mul by lia. unfold file_sample. change (1 =? 2) with false. cbn iota. destruct (load1 data i) as [b|]; [|done]. rewrite !bind_Ok.
  rewrite s32_id by lia. replace (i * 256 + 256) with ((i + 1) * 256) by lia. rewrite IH by lia. destruct (copy_loop n (i + 1) data); [|done]. rewrite !bind_Ok.
  unfold kept_sample. change (1 =? 2) with false. cbn iota. by rewrite Z.shiftl_mul_pow2, Z.shiftr_div_pow2, Z.div_mul by lia.
Qed.
Lemma fast_path_same_witness : resample_loop 3 1 1 256 (1 * 256) [1; 2; 3; 200] = copy_loop 3 1 [1; 2; 3; 200].
Proof. apply (fast_path_same 3 1); lia. Defined.
