(* ===== verification/Motion.v ===== *)
(** Movement of entities (Source/sv_phys.c): the steps the kinds of movement share.

    [server] is what stays the same while one frame is simulated: the models and cvars, the game
    program ([PR_ExecuteProgram], a parameter) and the times.  The rest is the state of World.v. *)

From Stdlib Require Import SpecFloat.
From S2P Require Import Prelude CFloat FloatOrder SizeBuf SvMessage World Sound.

(** * Fields *)

Definition set_origin (x : vec3) (e : ent) : ent :=
  Ent (e_free e) (e_leafs e) x (v_mins e) (v_maxs e) (v_absmin e) (v_absmax e) (v_size e) (v_flags e) (v_modelindex e)
    (v_solid e) (v_movetype e) (v_touch e) (v_owner e) (e_motion e).
Definition set_mins_maxs (lo hi : vec3) (e : ent) : ent :=
  Ent (e_free e) (e_leafs e) (v_origin e) lo hi (v_absmin e) (v_absmax e) (v_size e) (v_flags e) (v_modelindex e) (v_solid e)
    (v_movetype e) (v_touch e) (v_owner e) (e_motion e).
Definition set_flags (x : f32) (e : ent) : ent :=
  Ent (e_free e) (e_leafs e) (v_origin e) (v_mins e) (v_maxs e) (v_absmin e) (v_absmax e) (v_size e) x
    (v_modelindex e) (v_solid e) (v_movetype e) (v_touch e) (v_owner e) (e_motion e).
Definition set_solid (x : f32) (e : ent) : ent :=
  Ent (e_free e) (e_leafs e) (v_origin e) (v_mins e) (v_maxs e) (v_absmin e) (v_absmax e) (v_size e) (v_flags e)
    (v_modelindex e) x (v_movetype e) (v_touch e) (v_owner e) (e_motion e).
Definition on_motion (f : motion -> motion) (e : ent) : ent :=
  Ent (e_free e) (e_leafs e) (v_origin e) (v_mins e) (v_maxs e) (v_absmin e) (v_absmax e) (v_size e) (v_flags e) (v_modelindex e)
    (v_solid e) (v_movetype e) (v_touch e) (v_owner e) (f (e_motion e)).

Definition v_oldorigin (e : ent) : vec3 := m_oldorigin (e_motion e).
Definition v_velocity (e : ent) : vec3 := m_velocity (e_motion e).
Definition v_angles (e : ent) : vec3 := m_angles (e_motion e).
Definition v_avelocity (e : ent) : vec3 := m_avelocity (e_motion e).
Definition v_punchangle (e : ent) : vec3 := m_punchangle (e_motion e).
Definition v_view_ofs (e : ent) : vec3 := m_view_ofs (e_motion e).
Definition v_v_angle (e : ent) : vec3 := m_v_angle (e_motion e).
Definition v_movedir (e : ent) : vec3 := m_movedir (e_motion e).
Definition v_ltime (e : ent) : f32 := m_ltime (e_motion e).
Definition v_nextthink (e : ent) : f32 := m_nextthink (e_motion e).
Definition v_think (e : ent) : Z := m_think (e_motion e).
Definition v_blocked (e : ent) : Z := m_blocked (e_motion e).
Definition v_groundentity (e : ent) : Z := m_groundentity (e_motion e).
Definition v_enemy (e : ent) : Z := m_enemy (e_motion e).
Definition v_goalentity (e : ent) : Z := m_goalentity (e_motion e).
Definition v_health (e : ent) : f32 := m_health (e_motion e).
Definition v_fixangle (e : ent) : f32 := m_fixangle (e_motion e).
Definition v_teleport_time (e : ent) : f32 := m_teleport_time (e_motion e).
Definition v_waterlevel (e : ent) : f32 := m_waterlevel (e_motion e).
Definition v_watertype (e : ent) : f32 := m_watertype (e_motion e).
Definition v_ideal_yaw (e : ent) : f32 := m_ideal_yaw (e_motion e).
Definition v_yaw_speed (e : ent) : f32 := m_yaw_speed (e_motion e).
Definition v_idealpitch (e : ent) : f32 := m_idealpitch (e_motion e).
Definition v_button0 (e : ent) : f32 := m_button0 (e_motion e).
Definition v_button2 (e : ent) : f32 := m_button2 (e_motion e).
Definition v_impulse (e : ent) : f32 := m_impulse (e_motion e).
Definition v_gravity (e : ent) : f32 := m_gravity (e_motion e).

Definition set_oldorigin (x : vec3) : ent -> ent := on_motion (fun m =>
  Motion x (m_velocity m) (m_angles m) (m_avelocity m) (m_punchangle m) (m_view_ofs m) (m_v_angle m) (m_movedir m)
    (m_ltime m) (m_nextthink m) (m_think m) (m_blocked m) (m_groundentity m) (m_enemy m) (m_goalentity m) (m_health m)
    (m_fixangle m) (m_teleport_time m) (m_waterlevel m) (m_watertype m) (m_ideal_yaw m) (m_yaw_speed m)
    (m_idealpitch m) (m_button0 m) (m_button2 m) (m_impulse m) (m_gravity m)).
Definition set_velocity (x : vec3) : ent -> ent := on_motion (fun m =>
  Motion (m_oldorigin m) x (m_angles m) (m_avelocity m) (m_punchangle m) (m_view_ofs m) (m_v_angle m) (m_movedir m)
    (m_ltime m) (m_nextthink m) (m_think m) (m_blocked m) (m_groundentity m) (m_enemy m) (m_goalentity m) (m_health m)
    (m_fixangle m) (m_teleport_time m) (m_waterlevel m) (m_watertype m) (m_ideal_yaw m) (m_yaw_speed m)
    (m_idealpitch m) (m_button0 m) (m_button2 m) (m_impulse m) (m_gravity m)).
Definition set_angles (x : vec3) : ent -> ent := on_motion (fun m =>
  Motion (m_oldorigin m) (m_velocity m) x (m_avelocity m) (m_punchangle m) (m_view_ofs m) (m_v_angle m) (m_movedir m)
    (m_ltime m) (m_nextthink m) (m_think m) (m_blocked m) (m_groundentity m) (m_enemy m) (m_goalentity m) (m_health m)
    (m_fixangle m) (m_teleport_time m) (m_waterlevel m) (m_watertype m) (m_ideal_yaw m) (m_yaw_speed m)
    (m_idealpitch m) (m_button0 m) (m_button2 m) (m_impulse m) (m_gravity m)).
Definition set_avelocity (x : vec3) : ent -> ent := on_motion (fun m =>
  Motion (m_oldorigin m) (m_velocity m) (m_angles m) x (m_punchangle m) (m_view_ofs m) (m_v_angle m) (m_movedir m)
    (m_ltime m) (m_nextthink m) (m_think m) (m_blocked m) (m_groundentity m) (m_enemy m) (m_goalentity m) (m_health m)
    (m_fixangle m) (m_teleport_time m) (m_waterlevel m) (m_watertype m) (m_ideal_yaw m) (m_yaw_speed m)
    (m_idealpitch m) (m_button0 m) (m_button2 m) (m_impulse m) (m_gravity m)).
Definition set_punchangle (x : vec3) : ent -> ent := on_motion (fun m =>
  Motion (m_oldorigin m) (m_velocity m) (m_angles m) (m_avelocity m) x (m_view_ofs m) (m_v_angle m) (m_movedir m)
    (m_ltime m) (m_nextthink m) (m_think m) (m_blocked m) (m_groundentity m) (m_enemy m) (m_goalentity m) (m_health m)
    (m_fixangle m) (m_teleport_time m) (m_waterlevel m) (m_watertype m) (m_ideal_yaw m) (m_yaw_speed m)
    (m_idealpitch m) (m_button0 m) (m_button2 m) (m_impulse m) (m_gravity m)).
Definition set_v_angle (x : vec3) : ent -> ent := on_motion (fun m =>
  Motion (m_oldorigin m) (m_velocity m) (m_angles m) (m_avelocity m) (m_punchangle m) (m_view_ofs m) x (m_movedir m)
    (m_ltime m) (m_nextthink m) (m_think m) (m_blocked m) (m_groundentity m) (m_enemy m) (m_goalentity m) (m_health m)
    (m_fixangle m) (m_teleport_time m) (m_waterlevel m) (m_watertype m) (m_ideal_yaw m) (m_yaw_speed m)
    (m_idealpitch m) (m_button0 m) (m_button2 m) (m_impulse m) (m_gravity m)).
Definition set_ltime (x : f32) : ent -> ent := on_motion (fun m =>
  Motion (m_oldorigin m) (m_velocity m) (m_angles m) (m_avelocity m) (m_punchangle m) (m_view_ofs m) (m_v_angle m)
    (m_movedir m) x (m_nextthink m) (m_think m) (m_blocked m) (m_groundentity m) (m_enemy m) (m_goalentity m)
    (m_health m) (m_fixangle m) (m_teleport_time m) (m_waterlevel m) (m_watertype m) (m_ideal_yaw m) (m_yaw_speed m)
    (m_idealpitch m) (m_button0 m) (m_button2 m) (m_impulse m) (m_gravity m)).
Definition set_nextthink (x : f32) : ent -> ent := on_motion (fun m =>
  Motion (m_oldorigin m) (m_velocity m) (m_angles m) (m_avelocity m) (m_punchangle m) (m_view_ofs m) (m_v_angle m)
    (m_movedir m) (m_ltime m) x (m_think m) (m_blocked m) (m_groundentity m) (m_enemy m) (m_goalentity m) (m_health m)
    (m_fixangle m) (m_teleport_time m) (m_waterlevel m) (m_watertype m) (m_ideal_yaw m) (m_yaw_speed m)
    (m_idealpitch m) (m_button0 m) (m_button2 m) (m_impulse m) (m_gravity m)).
Definition set_groundentity (x : Z) : ent -> ent := on_motion (fun m =>
  Motion (m_oldorigin m) (m_velocity m) (m_angles m) (m_avelocity m) (m_punchangle m) (m_view_ofs m) (m_v_angle m)
    (m_movedir m) (m_ltime m) (m_nextthink m) (m_think m) (m_blocked m) x (m_enemy m) (m_goalentity m) (m_health m)
    (m_fixangle m) (m_teleport_time m) (m_waterlevel m) (m_watertype m) (m_ideal_yaw m) (m_yaw_speed m)
    (m_idealpitch m) (m_button0 m) (m_button2 m) (m_impulse m) (m_gravity m)).
Definition set_teleport_time (x : f32) : ent -> ent := on_motion (fun m =>
  Motion (m_oldorigin m) (m_velocity m) (m_angles m) (m_avelocity m) (m_punchangle m) (m_view_ofs m) (m_v_angle m)
    (m_movedir m) (m_ltime m) (m_nextthink m) (m_think m) (m_blocked m) (m_groundentity m) (m_enemy m)
    (m_goalentity m) (m_health m) (m_fixangle m) x (m_waterlevel m) (m_watertype m) (m_ideal_yaw m) (m_yaw_speed m)
    (m_idealpitch m) (m_button0 m) (m_button2 m) (m_impulse m) (m_gravity m)).
Definition set_waterlevel (x : f32) : ent -> ent := on_motion (fun m =>
  Motion (m_oldorigin m) (m_velocity m) (m_angles m) (m_avelocity m) (m_punchangle m) (m_view_ofs m) (m_v_angle m)
    (m_movedir m) (m_ltime m) (m_nextthink m) (m_think m) (m_blocked m) (m_groundentity m) (m_enemy m)
    (m_goalentity m) (m_health m) (m_fixangle m) (m_teleport_time m) x (m_watertype m) (m_ideal_yaw m) (m_yaw_speed m)
    (m_idealpitch m) (m_button0 m) (m_button2 m) (m_impulse m) (m_gravity m)).
Definition set_watertype (x : f32) : ent -> ent := on_motion (fun m =>
  Motion (m_oldorigin m) (m_velocity m) (m_angles m) (m_avelocity m) (m_punchangle m) (m_view_ofs m) (m_v_angle m)
    (m_movedir m) (m_ltime m) (m_nextthink m) (m_think m) (m_blocked m) (m_groundentity m) (m_enemy m)
    (m_goalentity m) (m_health m) (m_fixangle m) (m_teleport_time m) (m_waterlevel m) x (m_ideal_yaw m)
    (m_yaw_speed m) (m_idealpitch m) (m_button0 m) (m_button2 m) (m_impulse m) (m_gravity m)).
Definition set_ideal_yaw (x : f32) : ent -> ent := on_motion (fun m =>
  Motion (m_oldorigin m) (m_velocity m) (m_angles m) (m_avelocity m) (m_punchangle m) (m_view_ofs m) (m_v_angle m)
    (m_movedir m) (m_ltime m) (m_nextthink m) (m_think m) (m_blocked m) (m_groundentity m) (m_enemy m)
    (m_goalentity m) (m_health m) (m_fixangle m) (m_teleport_time m) (m_waterlevel m) (m_watertype m) x
    (m_yaw_speed m) (m_idealpitch m) (m_button0 m) (m_button2 m) (m_impulse m) (m_gravity m)).
Definition set_idealpitch (x : f32) : ent -> ent := on_motion (fun m =>
  Motion (m_oldorigin m) (m_velocity m) (m_angles m) (m_avelocity m) (m_punchangle m) (m_view_ofs m) (m_v_angle m)
    (m_movedir m) (m_ltime m) (m_nextthink m) (m_think m) (m_blocked m) (m_groundentity m) (m_enemy m)
    (m_goalentity m) (m_health m) (m_fixangle m) (m_teleport_time m) (m_waterlevel m) (m_watertype m) (m_ideal_yaw m)
    (m_yaw_speed m) x (m_button0 m) (m_button2 m) (m_impulse m) (m_gravity m)).
Definition set_button0 (x : f32) : ent -> ent := on_motion (fun m =>
  Motion (m_oldorigin m) (m_velocity m) (m_angles m) (m_avelocity m) (m_punchangle m) (m_view_ofs m) (m_v_angle m)
    (m_movedir m) (m_ltime m) (m_nextthink m) (m_think m) (m_blocked m) (m_groundentity m) (m_enemy m)
    (m_goalentity m) (m_health m) (m_fixangle m) (m_teleport_time m) (m_waterlevel m) (m_watertype m) (m_ideal_yaw m)
    (m_yaw_speed m) (m_idealpitch m) x (m_button2 m) (m_impulse m) (m_gravity m)).
Definition set_button2 (x : f32) : ent -> ent := on_motion (fun m =>
  Motion (m_oldorigin m) (m_velocity m) (m_angles m) (m_avelocity m) (m_punchangle m) (m_view_ofs m) (m_v_angle m)
    (m_movedir m) (m_ltime m) (m_nextthink m) (m_think m) (m_blocked m) (m_groundentity m) (m_enemy m)
    (m_goalentity m) (m_health m) (m_fixangle m) (m_teleport_time m) (m_waterlevel m) (m_watertype m) (m_ideal_yaw m)
    (m_yaw_speed m) (m_idealpitch m) (m_button0 m) x (m_impulse m) (m_gravity m)).
Definition set_impulse (x : f32) : ent -> ent := on_motion (fun m =>
  Motion (m_oldorigin m) (m_velocity m) (m_angles m) (m_avelocity m) (m_punchangle m) (m_view_ofs m) (m_v_angle m)
    (m_movedir m) (m_ltime m) (m_nextthink m) (m_think m) (m_blocked m) (m_groundentity m) (m_enemy m)
    (m_goalentity m) (m_health m) (m_fixangle m) (m_teleport_time m) (m_waterlevel m) (m_watertype m) (m_ideal_yaw m)
    (m_yaw_speed m) (m_idealpitch m) (m_button0 m) (m_button2 m) x (m_gravity m)).

Definition upd_force_retouch (x : f32) (s : wst) : wst :=
  WS (sv_areanodes s) (sv_numareanodes s) (links s) (ents s) (self s) (other s) (time s) x (num_edicts s) (sv_datagram s).
Definition set_sv_datagram (x : sizebuf) (s : wst) : wst :=
  WS (sv_areanodes s) (sv_numareanodes s) (links s) (ents s) (self s) (other s) (time s) (force_retouch s) (num_edicts s) x.
Definition set_self (x : Z) (s : wst) : wst := set_self_other x (other s) s.

(** C: Source/server.h:121-131 MOVETYPE_NONE *)
Definition MOVETYPE_NONE : Z := 0.
Definition MOVETYPE_WALK : Z := 3.
Definition MOVETYPE_STEP : Z := 4.
Definition MOVETYPE_FLY : Z := 5.
Definition MOVETYPE_TOSS : Z := 6.
Definition MOVETYPE_NOCLIP : Z := 8.
Definition MOVETYPE_FLYMISSILE : Z := 9.
Definition MOVETYPE_BOUNCE : Z := 10.
(** C: Source/server.h:150-161 FL_FLY *)
Definition FL_FLY : Z := 1.
Definition FL_SWIM : Z := 2.
Definition FL_ONGROUND : Z := 512.
Definition FL_PARTIALGROUND : Z := 1024.
Definition FL_WATERJUMP : Z := 2048.
Definition CONTENTS_WATER : Z := -3.

Definition moves_as (e : ent) (m : Z) : bool := f_eqb (v_movetype e) (f32_of_Z m).
Definition has_flag (e : ent) (b : Z) : bool := has (f_to_int (v_flags e)) b.
Definition add_flag (b : Z) (e : ent) : ent := set_flags (f32_of_Z (f_to_int (v_flags e) .| b)) e.
Definition drop_flag (b : Z) (e : ent) : ent := set_flags (f32_of_Z (f_to_int (v_flags e) & Z.lnot b)) e.

(** * Vectors *)

(** C: Source/mathlib.h:79-83 VectorScale *)
Definition VectorScale (v : vec3) (scale : f32) : vec3 := vec_map (fun x => f32_mul x scale) v.
(** C: Source/mathlib.h:71-77 VectorMA *)
Definition VectorMA (a : vec3) (scale : f32) (b : vec3) : vec3 :=
  let ma x y := f32_add x (f32_mul scale y) in Vec (ma (vx a) (vx b)) (ma (vy a) (vy b)) (ma (vz a) (vz b)).
(** C: Source/mathlib.h:51-54 CrossProduct *)
Definition CrossProduct (a b : vec3) : vec3 :=
  Vec (f32_sub (f32_mul (vy a) (vz b)) (f32_mul (vz a) (vy b)))
      (f32_sub (f32_mul (vz a) (vx b)) (f32_mul (vx a) (vz b)))
      (f32_sub (f32_mul (vx a) (vy b)) (f32_mul (vy a) (vx b))).
(** The three components compare equal to zero. *)
Definition vec_zero (v : vec3) : bool := negb (f_truth (vx v)) && negb (f_truth (vy v)) && negb (f_truth (vz v)).

(** Literals of type [double]. *)
Definition f64_frac (a b : Z) : f64 := f64_div (f64_of_Z a) (f64_of_Z b).
(** [x > 0.7] *)
Definition steep (x : f32) : bool := f_ltb (f64_frac 7 10) (f64_of_f32 x).

(** C: Source/sv_phys.c:181-181 STOP_EPSILON *)
Definition STOP_EPSILON : f64 := f64_frac 1 10.

(** [IS_NAN] holds of infinities too.
    C: Source/mathlib.h:38-39 IS_NAN *)
Definition IS_NAN (x : f32) : bool := match x with S754_nan | S754_infinity _ => true | _ => false end.

(** * The server *)

Record server : Type := Server {
  sv_models : list (option model);
  PR_ExecuteProgram : Z -> wst -> res wst;
  sv_time : f64;
  host_frametime : f64;
  world_nodes : mnode;
  world_hull : hull;
  sv_player : Z;
  sv_casper : bool;
  pr_edict_size : Z;
  sound_precache : list (option bytes);
  sv_maxvelocity : f32;
  sv_gravity : f32;
  sv_nostep : bool;
  has_gravity : bool;
  maxclients : Z;
  client_active : Z -> bool;
  StartFrame : Z;
  PlayerPreThink : Z;
  PlayerPostThink : Z;
  touch_fuel : nat;
  c_sin : f64 -> f64;
  c_cos : f64 -> f64
}.

Section motion.

Context (g : server).

Definition move_ent (s : wst) (a : ent) (stop : vec3) (type e : Z) : res trace :=
  SV_Move (sv_models g) (sv_player g) (sv_casper g) s (v_origin a) (v_mins a) (v_maxs a) stop type (Some e).
Definition test_position (s : wst) (e : Z) : res bool := SV_TestEntityPosition (sv_models g) (sv_player g) (sv_casper g) s e.
Definition link_ent (e : Z) (touch : bool) (s : wst) : res wst :=
  World.SV_LinkEdict (PR_ExecuteProgram g) (sv_time g) (world_nodes g) (touch_fuel g) e touch s.
(** [host_frametime] as a [float]. *)
Definition frametime : f32 := f32_of_f64 (host_frametime g).

(** One component of velocity and origin.
    C: Source/sv_phys.c:91-107 velocity *)
Definition check_component (vel org : f32) : f32 * f32 :=
  let vel := if IS_NAN vel then f_0 else vel in
  let org := if IS_NAN org then f_0 else org in
  (if f_ltb (sv_maxvelocity g) vel then sv_maxvelocity g
   else if f_ltb vel (f32_opp (sv_maxvelocity g)) then f32_opp (sv_maxvelocity g) else vel, org).
(** The messages on the console are left out.
    C: Source/sv_phys.c:86-108 SV_CheckVelocity *)
Definition SV_CheckVelocity (e : Z) : wst -> res wst := upd_ent e (fun a =>
  let '(v0, o0) := check_component (vx (v_velocity a)) (vx (v_origin a)) in
  let '(v1, o1) := check_component (vy (v_velocity a)) (vy (v_origin a)) in
  let '(v2, o2) := check_component (vz (v_velocity a)) (vz (v_origin a)) in
  set_velocity (Vec v0 v1 v2) (set_origin (Vec o0 o1 o2) a)).

(** [false] when the entity removed itself.
    C: Source/sv_phys.c:120-137 SV_RunThink *)
Definition SV_RunThink (e : Z) (s : wst) : res (bool * wst) :=
  a ← ent_at s e;
  let t := v_nextthink a in
  if f_leb t f_0 || f_ltb (f64_add (sv_time g) (host_frametime g)) (f64_of_f32 t) then mret (true, s)
  else
    let t := if f_ltb (f64_of_f32 t) (sv_time g) then f32_of_f64 (sv_time g) else t in
    s ← upd_ent e (set_nextthink f_0) s;
    s ← PR_ExecuteProgram g (v_think a) (set_time t (set_self_other e 0 s));
    a ← ent_at s e;
    mret (negb (e_free a), s).

(** The touch function of [e1], with [e2] as the other.
    C: Source/sv_phys.c:154-159 touch *)
Definition run_touch (e1 e2 : Z) (s : wst) : res wst :=
  a ← ent_at s e1;
  if negb (v_touch a =? 0) && negb (is_solid a SOLID_NOT) then PR_ExecuteProgram g (v_touch a) (set_self_other e1 e2 s) else mret s.
(** C: Source/sv_phys.c:146-170 SV_Impact *)
Definition SV_Impact (e1 e2 : Z) (s : wst) : res wst :=
  let old_self := self s in
  let old_other := other s in
  s ← run_touch e1 e2 (set_time (f32_of_f64 (sv_time g)) s);
  s ← run_touch e2 e1 s;
  mret (set_self_other old_self old_other s).

(** One component of the clipped velocity.
    C: Source/sv_phys.c:196-202 change *)
Definition clip_component (backoff i n : f32) : f32 :=
  let o := f32_sub i (f32_mul n backoff) in
  if f_ltb (SFopp STOP_EPSILON) (f64_of_f32 o) && f_ltb (f64_of_f32 o) STOP_EPSILON then f_0 else o.
(** The flags and the velocity.
    C: Source/sv_phys.c:183-205 ClipVelocity *)
Definition ClipVelocity (inv normal : vec3) (overbounce : f32) : Z * vec3 :=
  let blocked := (if f_ltb f_0 (vz normal) then 1 else 0) .| (if f_truth (vz normal) then 0 else 2) in
  let backoff := f32_mul (dot inv normal) overbounce in
  (blocked, Vec (clip_component backoff (vx inv) (vx normal)) (clip_component backoff (vy inv) (vy normal))
                (clip_component backoff (vz inv) (vz normal))).

(** * Sliding *)

(** C: Source/sv_phys.c:220-220 MAX_CLIP_PLANES *)
Definition MAX_CLIP_PLANES : nat := 5.

(** The velocity along plane [i], when it does not run into another of the planes.
    C: Source/sv_phys.c:302-308 new_velocity *)
Definition slide (original : vec3) (planes : list vec3) (i : nat) : option vec3 :=
  n ← planes !! i;
  let v := (ClipVelocity original n f_1).2 in
  if forallb (fun j => (j =? i)%nat || match planes !! j with Some p => negb (f_ltb (dot v p) f_0) | None => true end)
       (seq 0 (length planes))
  then Some v else None.
(** The first plane that works.
    C: Source/sv_phys.c:300-311 numplanes *)
Definition slide_along (original : vec3) (planes : list vec3) : option vec3 := head (omap (slide original planes) (seq 0 (length planes))).

(** The velocity after [planes] were hit; [None] when the entity stops.
    C: Source/sv_phys.c:300-328 dir *)
Definition redirect (original velocity : vec3) (planes : list vec3) : option vec3 :=
  match slide_along original planes with
  | Some v => Some v
  | None =>
      match planes with
      | [p0; p1] => let dir := CrossProduct p0 p1 in Some (VectorScale dir (dot dir velocity))
      | _ => None
      end
  end.

(** What the ground does to an entity that hits it.
    C: Source/sv_phys.c:268-273 blocked *)
Definition hit_floor (e te : Z) (s : wst) : res wst :=
  t ← ent_at s te;
  if is_solid t SOLID_BSP then upd_ent e (fun a => set_groundentity te (add_flag FL_ONGROUND a)) s else mret s.

(** The state of the move: the planes hit, the velocity before they were, the flags, the time
    left, and the last trace that hit a wall. *)
Record fly : Type := Fly {
  fl_original : vec3;
  fl_planes : list vec3;
  fl_blocked : Z;
  fl_time : f32;
  fl_step : option trace
}.

(** [bumps] counts down from 4.  The result is the flags, the trace stored at [steptrace], and the
    state; a caller that passes a null pointer ignores the trace.
    C: Source/sv_phys.c:237-339 bumpcount *)
Fixpoint fly_loop (bumps : nat) (e : Z) (primal : vec3) (f : fly) (s : wst) : res (Z * option trace * wst) :=
  match bumps with
  | O => mret (fl_blocked f, fl_step f, s)
  | S bumps =>
      a ← ent_at s e;
      if vec_zero (v_velocity a) then mret (fl_blocked f, fl_step f, s)
      else
        tr ← move_ent s a (VectorMA (v_origin a) (fl_time f) (v_velocity a)) 0 e;
        if allsolid tr then s ← upd_ent e (set_velocity vec0) s; mret (3, fl_step f, s)
        else
          let moved := f_ltb f_0 (fraction tr) in
          s ← (if moved then upd_ent e (set_origin (endpos tr)) s else mret s);
          let original := if moved then v_velocity a else fl_original f in
          let planes := if moved then [] else fl_planes f in
          if f_eqb (fraction tr) f_1 then mret (fl_blocked f, fl_step f, s)
          else
            te ← of_option (Sys_Error "SV_FlyMove: !trace.ent") (t_ent tr);
            let floor := steep (vz (t_normal tr)) in
            s ← (if floor then hit_floor e te s else mret s);
            let wall := negb (f_truth (vz (t_normal tr))) in
            let blocked := fl_blocked f .| (if floor then 1 else 0) .| (if wall then 2 else 0) in
            let step := if wall then Some tr else fl_step f in
            s ← SV_Impact e te s;
            a ← ent_at s e;
            if e_free a then mret (blocked, step, s)
            else
              let time_left := f32_sub (fl_time f) (f32_mul (fl_time f) (fraction tr)) in
              if (MAX_CLIP_PLANES <=? length planes)%nat then s ← upd_ent e (set_velocity vec0) s; mret (3, step, s)
              else
                let planes := planes ++ [t_normal tr] in
                match redirect original (v_velocity a) planes with
                | None => s ← upd_ent e (set_velocity vec0) s; mret (7, step, s)
                | Some v =>
                    if f_leb (dot v primal) f_0 then s ← upd_ent e (set_velocity vec0) s; mret (blocked, step, s)
                    else s ← upd_ent e (set_velocity v) s; fly_loop bumps e primal (Fly original planes blocked time_left step) s
                end
  end.

(** [steptrace] is what the caller's trace holds before.
    C: Source/sv_phys.c:221-340 SV_FlyMove *)
Definition SV_FlyMove (e : Z) (time : f32) (steptrace : option trace) (s : wst) : res (Z * option trace * wst) :=
  a ← ent_at s e;
  fly_loop 4 e (v_velocity a) (Fly (v_velocity a) [] 0 time steptrace) s.

(** [time] is [host_frametime], which SV_Trace_Toss changes.
    C: Source/sv_phys.c:349-361 SV_AddGravity *)
Definition SV_AddGravity (time : f64) (e : Z) : wst -> res wst := upd_ent e (fun a =>
  let gr := if has_gravity g && f_truth (v_gravity a) then v_gravity a else f_1 in
  let d := f64_mul (f64_of_f32 (f32_mul gr (sv_gravity g))) time in
  set_velocity (vset (v_velocity a) 2 (f32_of_f64 (f64_sub (f64_of_f32 (vz (v_velocity a))) d))) a).

(** C: Source/sv_phys.c:379-401 SV_PushEntity *)
Definition SV_PushEntity (e : Z) (push : vec3) (s : wst) : res (trace * wst) :=
  a ← ent_at s e;
  let type := if moves_as a MOVETYPE_FLYMISSILE then MOVE_MISSILE
              else if is_solid a SOLID_TRIGGER || is_solid a SOLID_NOT then MOVE_NOMONSTERS else 0 in
  tr ← move_ent s a (vec_add (v_origin a) push) type e;
  s ← upd_ent e (set_origin (endpos tr)) s;
  s ← link_ent e true s;
  s ← match t_ent tr with Some te => SV_Impact e te s | None => mret s end;
  mret (tr, s).

End motion.

(** * Invariants

    What the operations need to know about a property of the state to preserve it: it survives the
    changes of an entity that leave its box, the linking of an entity, and the game program. *)

Definition safe {A} (Q : A -> Prop) (m : res A) : Prop := match m with Ok a => Q a | Fault _ => True end.

Lemma safe_bind {A B} (Q : A -> Prop) (R : B -> Prop) (m : res A) (k : A -> res B) :
  safe Q m -> (forall a, Q a -> safe R (k a)) -> safe R (m ≫= k).
Proof. destruct m; cbn; auto. Qed.
Lemma safe_any {A} (m : res A) : safe (fun _ => True) m.
Proof. by destruct m. Qed.
Lemma safe_ok {A} (Q : A -> Prop) m a : safe Q m -> m = Ok a -> Q a.
Proof. by intros H ->. Qed.

Create HintDb keeps.

(** The changes of entities that the property survives are a parameter; most operations leave the box
    of the entity in the world alone. *)
Definition box_kept (e : Z) (a a' : ent) : Prop := v_absmin a' = v_absmin a /\ v_absmax a' = v_absmax a.

Section invariants.

Context (g : server) (P : wst -> Prop) (U : Z -> ent -> ent -> Prop).

Record preserved : Prop := Preserved {
  pr_ent : forall s e a a', P s -> ents s !! e = Some a -> U e a a' -> P (set_ents (<[e := a']> (ents s)) s);
  pr_link : forall s e r s', P s -> link_edict (world_nodes g) e s = Ok (r, s') -> P s';
  pr_self : forall s x y, P s -> P (set_self_other x y s);
  pr_time : forall s t, P s -> P (set_time t s);
  pr_retouch : forall s x, P s -> P (upd_force_retouch x s);
  pr_sound : forall s d, P s -> P (set_sv_datagram d s);
  pr_run : forall f s s', P s -> PR_ExecuteProgram g f s = Ok s' -> P s'
}.

Hypothesis HP : preserved.

Lemma upd_keeps e f s : P s -> (forall a, U e a (f a)) -> safe P (upd_ent e f s).
Proof.
  intros Hs Hf. unfold upd_ent, ent_at. destruct (ents s !! e) as [a|] eqn:Ea; cbn; [|done].
  by eapply (pr_ent HP).
Qed.
Lemma run_keeps f s : P s -> safe P (PR_ExecuteProgram g f s).
Proof. intros Hs. destruct (PR_ExecuteProgram g f s) eqn:E; cbn; [|done]. by eapply (pr_run HP). Qed.

Lemma touch_list_keeps fuel e h : forall l s, P s -> safe P (touch_list (PR_ExecuteProgram g) (sv_time g) fuel e h l s).
Proof.
  induction fuel as [|fuel IH]; intros l s Hs; cbn [touch_list].
  - destruct (l =? h); [done|]. by destruct (l =? 0).
  - destruct (l =? h); [done|]. destruct (l =? 0); [done|].
    pose proof (pr_self HP). pose proof (pr_time HP). pose proof run_keeps.
    eapply safe_bind; [apply safe_any|]. intros n _. destruct (_ =? e); [by apply IH|].
    eapply safe_bind; [apply safe_any|]. intros t _. eapply safe_bind; [apply safe_any|]. intros a _.
    destruct (_ || _); [by apply IH|]. destruct (apart _ _ _ _); [by apply IH|].
    eapply safe_bind; [apply run_keeps; auto|]. intros s' Hs'. apply IH. auto.
Qed.

Lemma touch_links_keeps depth fuel e : forall node s, P s -> safe P (SV_TouchLinks (PR_ExecuteProgram g) (sv_time g) depth fuel e node s).
Proof.
  induction depth as [|d IH]; intros node s Hs; cbn [SV_TouchLinks]; [done|].
  do 2 (eapply safe_bind; [apply safe_any|]; intros ? _). eapply safe_bind; [by apply touch_list_keeps|]. intros s1 Hs1.
  eapply safe_bind; [apply safe_any|]. intros n _. destruct (axis n =? -1); [done|].
  eapply safe_bind; [apply safe_any|]. intros ? _. eapply (safe_bind P); [destruct (f_ltb _ _); [by apply IH|done]|]. intros s2 Hs2.
  do 2 (eapply safe_bind; [apply safe_any|]; intros ? _). destruct (f_ltb _ _); [by apply IH|done].
Qed.

Lemma link_keeps e touch s : P s -> safe P (link_ent g e touch s).
Proof.
  intros Hs. unfold link_ent, SV_LinkEdict. destruct (link_edict (world_nodes g) e s) as [[r s']|] eqn:E; [|done]. rewrite bind_Ok.
  pose proof (pr_link HP _ _ _ _ Hs E) as Hs'. destruct (_ && _); [|done]. by apply touch_links_keeps.
Qed.

End invariants.

(** A state that differs from one with the property in globals only. *)
Ltac keep_globals :=
  repeat match goal with
  | H : ?P ?s |- ?P ?s => exact H
  | HP : preserved ?g ?P ?U |- ?P _ => first [apply (pr_self g P U HP)|apply (pr_time g P U HP)|apply (pr_retouch g P U HP)|apply (pr_sound g P U HP)]
  end.

(** Goes through a computation: what is read does not matter, what changes the state is in [keeps]. *)
Ltac keep_step :=
  match goal with
  | HP : preserved _ ?P _ |- safe _ (?m ≫= _) =>
      first [ eapply safe_bind; [solve [eauto 4 with keeps nocore]|]
            | match type of m with
              | res wst => eapply (safe_bind P)
              | res (_ * wst) => eapply (safe_bind (fun r => P r.2))
              | _ => eapply safe_bind; [apply safe_any|]
              end ]; cbv beta
  | |- forall p : _ * _, _ => let a := fresh "r" in let b := fresh "s" in intros [a b]; cbn [fst snd]
  | |- forall s : wst, _ -> _ => let s := fresh "s" in let H := fresh "HP" in intros s H
  | |- forall _, _ => intros ?
  | |- safe _ (if ?b then _ else _) => destruct b
  | |- safe _ (match ?x with _ => _ end) => destruct x
  | |- safe _ (mret _) => cbn; solve [keep_globals]
  | |- safe _ (Ok _) => cbn; solve [keep_globals]
  | |- safe _ (Fault _) => exact I
  | |- _ => solve [eauto 4 with keeps nocore]
  end.
Ltac keep := repeat keep_step.

#[export] Hint Extern 1 (safe _ (PR_ExecuteProgram _ _ _)) => (eapply run_keeps; [eassumption|solve [keep_globals]]) : keeps.
#[export] Hint Extern 1 (safe _ (link_ent _ _ _ _)) => (eapply link_keeps; [eassumption|solve [keep_globals]]) : keeps.
#[export] Hint Extern 3 (safe _ (upd_ent _ _ _)) => (eapply upd_keeps; [eassumption|solve [keep_globals]|by intros []]) : keeps.

Section impact_invariants.

Context (g : server) (P : wst -> Prop) (U : Z -> ent -> ent -> Prop) (HP : preserved g P U).

Lemma run_touch_keeps e1 e2 s : P s -> safe P (run_touch g e1 e2 s).
Proof. intros Hs. unfold run_touch. keep. Qed.
#[local] Hint Extern 1 (safe _ (run_touch _ _ _ _)) => (apply run_touch_keeps; solve [keep_globals]) : keeps.
Lemma SV_Impact_keeps e1 e2 s : P s -> safe P (SV_Impact g e1 e2 s).
Proof. intros Hs. unfold SV_Impact. keep. Qed.

End impact_invariants.

#[export] Hint Extern 1 (safe _ (SV_Impact _ _ _ _)) => (eapply SV_Impact_keeps; [eassumption|solve [keep_globals]]) : keeps.

Section motion_invariants.

Context (g : server) (P : wst -> Prop) (HP : preserved g P box_kept).

Lemma SV_CheckVelocity_keeps e s : P s -> safe P (SV_CheckVelocity g e s).
Proof.
  intros Hs. unfold SV_CheckVelocity. eapply upd_keeps; [eassumption|done|]. intros a.
  destruct (check_component g _ _), (check_component g _ _), (check_component g _ _). done.
Qed.

Lemma SV_RunThink_keeps e s : P s -> safe (fun r => P r.2) (SV_RunThink g e s).
Proof. intros Hs. unfold SV_RunThink. keep. Qed.

Lemma hit_floor_keeps e te s : P s -> safe P (hit_floor e te s).
Proof. intros Hs. unfold hit_floor. keep. Qed.
#[local] Hint Extern 1 (safe _ (hit_floor _ _ _)) => (apply hit_floor_keeps; solve [keep_globals]) : keeps.

Lemma fly_loop_keeps n e primal : forall f s, P s -> safe (fun r => P r.2) (fly_loop g n e primal f s).
Proof.
  induction n as [|n IH]; intros f s Hs; cbn [fly_loop]; [exact Hs|]. keep.
Qed.
Lemma SV_FlyMove_keeps e t st s : P s -> safe (fun r => P r.2) (SV_FlyMove g e t st s).
Proof. intros Hs. unfold SV_FlyMove. eapply safe_bind; [apply safe_any|]. intros a _. by apply fly_loop_keeps. Qed.

Lemma SV_AddGravity_keeps t e s : P s -> safe P (SV_AddGravity g t e s).
Proof. intros Hs. unfold SV_AddGravity. keep. Qed.

Lemma SV_PushEntity_keeps e push s : P s -> safe (fun r => P r.2) (SV_PushEntity g e push s).
Proof. intros Hs. unfold SV_PushEntity. keep. Qed.

End motion_invariants.

#[export] Hint Extern 1 (safe _ (SV_CheckVelocity _ _ _)) => (eapply SV_CheckVelocity_keeps; [eassumption|solve [keep_globals]]) : keeps.
#[export] Hint Extern 1 (safe _ (SV_RunThink _ _ _)) => (eapply SV_RunThink_keeps; [eassumption|solve [keep_globals]]) : keeps.
#[export] Hint Extern 1 (safe _ (SV_FlyMove _ _ _ _ _)) => (eapply SV_FlyMove_keeps; [eassumption|solve [keep_globals]]) : keeps.
#[export] Hint Extern 1 (safe _ (SV_AddGravity _ _ _ _)) => (eapply SV_AddGravity_keeps; [eassumption|solve [keep_globals]]) : keeps.
#[export] Hint Extern 1 (safe _ (SV_PushEntity _ _ _ _)) => (eapply SV_PushEntity_keeps; [eassumption|solve [keep_globals]]) : keeps.

(** What linking changes besides the links: one entity, its boxes and leafs. *)
Lemma link_changes nodes e s r s' : link_edict nodes e s = Ok (r, s') -> exists m es, s' = set_links m (set_ents es s) /\
  (es = ents s \/ exists a, ents s !! e = Some a /\ es = <[e := linked_ent nodes a]> (ents s)).
Proof.
  unfold link_edict. intros E. apply bind_Ok_inv in E as (n & _ & E). apply bind_Ok_inv in E as (s1 & E1 & E).
  assert (exists m, s1 = set_links m (set_ents (ents s) s)) as [m ->].
  { destruct (l_prev n =? 0); [cbn in E1; injection E1 as <-; exists (links s); by destruct s|]. cbn [negb] in E1.
    unfold SV_UnlinkEdict in E1. apply bind_Ok_inv in E1 as (n1 & _ & E1).
    destruct (l_prev n1 =? 0); [cbn in E1; injection E1 as <-; exists (links s); by destruct s|].
    apply bind_Ok_inv in E1 as (m1 & _ & E1). apply bind_Ok_inv in E1 as (m2 & _ & E1). cbn in E1. injection E1 as <-. exists m2. by destruct s. }
  destruct (e =? 0); [cbn in E; injection E as _ <-; exists m, (ents s); auto|].
  apply bind_Ok_inv in E as (a & Ea & E). unfold ent_at in Ea. cbn [ents set_links set_ents] in Ea.
  destruct (ents s !! e) as [a'|]; [|done]. cbn in Ea. injection Ea as ->.
  destruct (e_free a); [cbn in E; injection E as _ <-; exists m, (ents s); auto|].
  assert (forall m', exists es, set_links m' (set_ents (<[e := linked_ent nodes a]> (ents s)) s) = set_links m' (set_ents es s) /\
    (es = ents s \/ exists a0, Some a = Some a0 /\ es = <[e := linked_ent nodes a0]> (ents s))) as Hes by (intros m'; eexists; eauto).
  unfold linked_ent in *. destruct (abs_box a) as [lo hi]. cbn [fst snd] in *. destruct (is_solid _ SOLID_NOT).
  - cbn in E. injection E as _ <-. destruct (Hes m) as (es & Ees & Hc). exists m, es. by rewrite <- Ees.
  - apply bind_Ok_inv in E as (node & _ & E). apply bind_Ok_inv in E as (m' & _ & E). cbn in E. injection E as _ <-.
    destruct (Hes m') as (es & Ees & Hc). exists m', es. by rewrite <- Ees.
Qed.
Lemma link_num nodes e s r s' : link_edict nodes e s = Ok (r, s') -> num_edicts s' = num_edicts s.
Proof. intros E. by destruct (link_changes _ _ _ _ _ E) as (m & es & -> & _). Qed.

(** * Velocity *)

Lemma f_leb_refl x : not_nan x -> f_leb x x = true.
Proof. intros H. by rewrite f_leb_ltb, f_ltb_irrefl by done. Qed.
Lemma opp_not_nan x : not_nan x -> not_nan (f32_opp x).
Proof. by destruct x. Qed.
Lemma opp_below x : f_leb f_0 x = true -> f_leb (f32_opp x) x = true /\ f_leb (f32_opp x) f_0 = true.
Proof. rewrite (f_0_zero : f_0 = S754_zero false). by destruct x as [[]|[]| |[]]. Qed.
Lemma is_nan_finite x : IS_NAN x = false -> finite x.
Proof. by destruct x. Qed.
Lemma finite_not_nan x : finite x -> not_nan x.
Proof. by destruct x. Qed.

Definition within_limit (max x : f32) : Prop := f_leb (f32_opp max) x = true /\ f_leb x max = true.

Lemma check_component_spec g vel org v o : not_nan (sv_maxvelocity g) -> f_leb f_0 (sv_maxvelocity g) = true ->
  check_component g vel org = (v, o) ->
  within_limit (sv_maxvelocity g) v /\ finite o /\ (finite org -> o = org) /\ (finite vel -> within_limit (sv_maxvelocity g) vel -> v = vel).
Proof.
  intros Hn Hm H. unfold check_component in H. set (max := sv_maxvelocity g) in *. destruct (opp_below max Hm) as [H1 H2].
  pose proof (opp_not_nan max Hn) as Hn'. pose proof (f_leb_refl max Hn). pose proof (f_leb_refl (f32_opp max) Hn').
  assert (finite (if IS_NAN org then f_0 else org)) as Ho by (destruct (IS_NAN org) eqn:Eo; [done|by apply is_nan_finite]).
  assert (finite org -> (if IS_NAN org then f_0 else org) = org) as Ho' by (by destruct org).
  assert (not_nan (if IS_NAN vel then f_0 else vel)) as Hv by (destruct (IS_NAN vel) eqn:Ev; [done|by apply finite_not_nan, is_nan_finite]).
  assert (finite vel -> (if IS_NAN vel then f_0 else vel) = vel) as Hv' by (by destruct vel).
  set (x := if IS_NAN vel then f_0 else vel) in *. injection H as <- <-. split; [|split; [done|split; [done|]]].
  - unfold within_limit. destruct (f_ltb max x) eqn:E1; [done|]. destruct (f_ltb x (f32_opp max)) eqn:E2; [done|].
    by rewrite !f_leb_ltb, E1, E2 by done.
  - intros Hf [Hl Hh]. rewrite (Hv' Hf) in *. rewrite f_leb_ltb in Hl, Hh by done. apply negb_true_iff in Hl, Hh. by rewrite Hl, Hh.
Qed.

Lemma velocity_origin_id a : let v := v_velocity a in let o := v_origin a in
  set_velocity (Vec (vx v) (vy v) (vz v)) (set_origin (Vec (vx o) (vy o) (vz o)) a) = a.
Proof. destruct a as [f l o ? ? ? ? ? ? ? ? ? ? ? m]. destruct o, m as [o v]. by destruct v. Qed.

(** C22: [SV_CheckVelocity] bounds the velocity.  With a limit that is a number and not negative, every
    component of the velocity is between minus the limit and the limit afterwards and every component
    of the origin is finite, whatever they were, NaN and infinities included; an entity within the
    limits is left as it is. *)
Theorem SV_CheckVelocity_bounds g e s a :
  ents s !! e = Some a -> not_nan (sv_maxvelocity g) -> f_leb f_0 (sv_maxvelocity g) = true -> exists a',
  SV_CheckVelocity g e s = Ok (set_ents (<[e := a']> (ents s)) s) /\
  vec_all (within_limit (sv_maxvelocity g)) (v_velocity a') /\ vec_all finite (v_origin a') /\
  (vec_all finite (v_origin a) -> vec_all finite (v_velocity a) -> vec_all (within_limit (sv_maxvelocity g)) (v_velocity a) -> a' = a).
Proof.
  intros Ha Hn Hm. unfold SV_CheckVelocity, upd_ent, ent_at. rewrite Ha. cbn [of_option]. rewrite bind_Ok. eexists. split; [done|]. cbv zeta.
  destruct (check_component g (vx _) _) as [v0 o0] eqn:E0, (check_component g (vy _) _) as [v1 o1] eqn:E1, (check_component g (vz _) _) as [v2 o2] eqn:E2.
  destruct (check_component_spec g _ _ _ _ Hn Hm E0) as (A1 & A2 & A3 & A4), (check_component_spec g _ _ _ _ Hn Hm E1) as (B1 & B2 & B3 & B4),
    (check_component_spec g _ _ _ _ Hn Hm E2) as (C1 & C2 & C3 & C4).
  split; [done|]. split; [done|]. intros (? & ? & ?) (? & ? & ?) (? & ? & ?).
  rewrite A3, A4, B3, B4, C3, C4 by done. apply velocity_origin_id.
Qed.

(** * Sliding *)

Definition velocity_at (s : wst) (e : Z) : option vec3 := v_velocity <$> ents s !! e.

Section slide.

Context (g : server) (e : Z).
(** The game program leaves the velocity of the entity alone. *)
Hypothesis run_velocity : forall f s s', PR_ExecuteProgram g f s = Ok s' -> velocity_at s' e = velocity_at s e.

Lemma velocity_preserved v : preserved g (fun s => velocity_at s e = Some v) (fun _ a a' => v_velocity a' = v_velocity a).
Proof.
  split; try done.
  - intros s e' a a' Hs Ha Hv. unfold velocity_at in *. cbn. destruct (decide (e' = e)) as [->|]; [|by rewrite lookup_insert_ne].
    rewrite lookup_insert_eq. rewrite Ha in Hs. cbn in *. congruence.
  - intros s e' r s' Hs E. destruct (link_changes _ _ _ _ _ E) as (m & es & -> & [->|(a & Ha & ->)]); [done|].
    unfold velocity_at in *. cbn. destruct (decide (e' = e)) as [->|]; [|by rewrite lookup_insert_ne].
    rewrite lookup_insert_eq. rewrite Ha in Hs. cbn in *. unfold linked_ent. by destruct (abs_box a).
  - intros f s s' Hs E. by rewrite (run_velocity _ _ _ E).
Qed.

Lemma upd_velocity v e' f s s' : upd_ent e' f s = Ok s' -> velocity_at s e = Some v -> (forall a, v_velocity (f a) = v_velocity a) ->
  velocity_at s' e = Some v.
Proof. intros E Hv Hf. exact (safe_ok _ _ _ (upd_keeps g _ _ (velocity_preserved v) e' f s Hv Hf) E). Qed.
Lemma hit_floor_velocity v te s s' : hit_floor e te s = Ok s' -> velocity_at s e = Some v -> velocity_at s' e = Some v.
Proof.
  unfold hit_floor. intros E Hv. apply bind_Ok_inv in E as (t & _ & E). destruct (is_solid t _); [|cbn in E; by injection E as <-].
  by apply (upd_velocity v _ _ _ _ E).
Qed.

Lemma set_velocity_at v s s' : upd_ent e (set_velocity v) s = Ok s' -> velocity_at s' e = Some v.
Proof.
  unfold upd_ent, ent_at, velocity_at. destruct (ents s !! e); [|done]. cbn. intros H. injection H as <-. cbn. by rewrite lookup_insert_eq.
Qed.

(** What a slide may make of the velocity: it stays, becomes zero, or does not oppose the first. *)
Definition slid (primal v : vec3) : Prop := v = primal \/ v = vec0 \/ f_leb (dot v primal) f_0 = false.

Lemma flags_small b (c d : bool) : 0 <= b <= 3 -> 0 <= b .| (if c then 1 else 0) .| (if d then 2 else 0) <= 3.
Proof. intros H. assert (b = 0 \/ b = 1 \/ b = 2 \/ b = 3) as [-> |[-> |[-> | -> ]]] by lia; destruct c, d; by vm_compute. Qed.

Lemma fly_loop_velocity primal n : forall f s v r, velocity_at s e = Some v -> slid primal v -> 0 <= fl_blocked f <= 3 ->
  fly_loop g n e primal f s = Ok r -> 0 <= r.1.1 <= 7 /\ exists v', velocity_at r.2 e = Some v' /\ slid primal v'.
Proof.
  induction n as [|n IH]; intros f s v r Hv Hs Hf E; cbn [fly_loop] in E.
  { cbn in E. injection E as <-. split; [cbn; lia|by exists v]. }
  assert (forall s1 z st, (s ← upd_ent e (set_velocity vec0) s1; mret (z, st, s)) = Ok r -> 0 <= z <= 7 ->
    0 <= r.1.1 <= 7 /\ exists v', velocity_at r.2 e = Some v' /\ slid primal v') as Hzero.
  { intros s1 z st E1 Hz. apply bind_Ok_inv in E1 as (s2 & E1 & E2). cbn in E2. injection E2 as <-. split; [done|].
    exists vec0. split; [by eapply set_velocity_at|right; by left]. }
  pose proof (velocity_preserved v) as HP.
  apply bind_Ok_inv in E as (a & Ea & E). destruct (vec_zero _); [cbn in E; injection E as <-; split; [cbn; lia|by exists v]|].
  apply bind_Ok_inv in E as (tr & _ & E). destruct (allsolid tr); [by eapply Hzero|]. apply bind_Ok_inv in E as (s1 & E1 & E).
  assert (velocity_at s1 e = Some v) as Hv1.
  { destruct (f_ltb _ _); [|cbn in E1; by injection E1 as <-]. by apply (upd_velocity v _ _ _ _ E1). }
  destruct (f_eqb (fraction tr) f_1); [cbn in E; injection E as <-; split; [cbn; lia|by exists v]|].
  apply bind_Ok_inv in E as (te & _ & E). apply bind_Ok_inv in E as (s2 & E2 & E). apply bind_Ok_inv in E as (s3 & E3 & E).
  assert (velocity_at s2 e = Some v) as Hv2.
  { destruct (steep _); [|cbn in E2; by injection E2 as <-]. by apply (hit_floor_velocity v te s1). }
  pose proof (safe_ok _ _ _ (SV_Impact_keeps g _ _ HP _ _ _ Hv2) E3) as Hv3. cbn in Hv3. cbv zeta in E.
  pose proof (flags_small (fl_blocked f) (steep (vz (t_normal tr))) (negb (f_truth (vz (t_normal tr)))) Hf) as Hb.
  apply bind_Ok_inv in E as (a3 & _ & E). destruct (e_free a3); [cbn in E; injection E as <-; split; [cbn; lia|by exists v]|].
  destruct (_ <=? _)%nat; [by eapply Hzero|]. destruct (redirect _ _ _) as [v'|]; [|by eapply Hzero].
  destruct (f_leb (dot v' primal) f_0) eqn:Ed; [eapply Hzero; [exact E|lia]|]. apply bind_Ok_inv in E as (s4 & E4 & E).
  exact ((fun H => IH _ _ v' r (set_velocity_at _ _ _ E4) (or_intror (or_intror Ed)) H E) Hb).
Qed.

End slide.

(** C20: A slide never turns the velocity against itself.  When the functions of the game program leave
    the velocity of the entity alone, the velocity after [SV_FlyMove] is the one before it, or zero,
    or one whose product with the one before is positive (or not a number); the flags are those of
    the comment, between 0 and 7. *)
Theorem SV_FlyMove_velocity g e time st s v clip st' s' :
  (forall f s s', PR_ExecuteProgram g f s = Ok s' -> velocity_at s' e = velocity_at s e) -> velocity_at s e = Some v ->
  SV_FlyMove g e time st s = Ok (clip, st', s') ->
  0 <= clip <= 7 /\ exists v', velocity_at s' e = Some v' /\ slid v v'.
Proof.
  intros Hrun Hv E. unfold SV_FlyMove in E. apply bind_Ok_inv in E as (a & Ea & E).
  assert (v_velocity a = v) as Ev.
  { unfold velocity_at in Hv. unfold ent_at in Ea. destruct (ents s !! e); cbn in *; congruence. }
  rewrite Ev in E. by apply (fly_loop_velocity g e Hrun v 4 (Fly v [] 0 time st) s v _ Hv (or_introl eq_refl) ltac:(cbn; lia) E).
Qed.
