(* ===== verification/Physics.v ===== *)
(** Movement of entities (Source/sv_phys.c): pushers, players, monsters, thrown things, the frame.

    Entity number [i] is at [i * pr_edict_size].  The trace a function leaves uninitialised is
    [None]; using it is undefined.  Messages on the console and the hook of the tools at the end
    of [SV_Physics_Client] are left out; [sin] and [cos] of the C library are parameters. *)

From Stdlib Require Import SpecFloat.
From S2P Require Import Prelude CFloat FloatOrder SizeBuf SvMessage World Sound Motion.

Section physics.

Context (g : server).

(** C: Source/pr_edict.c:1104-1115 NUM_FOR_EDICT *)
Definition NUM_FOR_EDICT (s : wst) (e : Z) : res Z :=
  let b := Z.quot e (pr_edict_size g) in
  if (b <? 0) || (num_edicts s <=? b) then Fault (Sys_Error "NUM_FOR_EDICT: bad pointer") else mret b.
Definition start_sound (e : Z) (sample : bytes) (s : wst) : res wst :=
  a ← ent_at s e;
  d ← SV_StartSound (sound_precache g) (NUM_FOR_EDICT s e) a 0 sample 255 f_1 (sv_datagram s);
  mret (set_sv_datagram d s).

(** The entities that neither push nor are pushed. *)
Definition stays_put (a : ent) : bool := moves_as a MOVETYPE_PUSH || moves_as a MOVETYPE_NONE || moves_as a MOVETYPE_NOCLIP.

(** The numbers of the entities in an invalid position, for which the code prints a message.
    C: Source/sv_phys.c:60-79 SV_CheckAllEnts *)
Fixpoint check_all_loop (fuel : nat) (i : Z) (s : wst) : res (list Z) :=
  if num_edicts s <=? i then mret []
  else
    match fuel with
    | O => Fault OutOfFuel
    | S fuel =>
        let check := i * pr_edict_size g in
        a ← ent_at s check;
        if e_free a || stays_put a then check_all_loop fuel (i + 1) s
        else
          bad ← test_position g s check;
          rest ← check_all_loop fuel (i + 1) s;
          mret (if (bad : bool) then i :: rest else rest)
    end.
Definition SV_CheckAllEnts (s : wst) : res (list Z) := check_all_loop (Z.to_nat MAX_EDICTS) 1 s.

(** * Pushers *)

(** C: Source/sv_phys.c:458-463 check *)
Definition outside (a : ent) (mins maxs : vec3) : bool :=
  f_leb (vx maxs) (vx (v_absmin a)) || f_leb (vy maxs) (vy (v_absmin a)) || f_leb (vz maxs) (vz (v_absmin a)) ||
  f_leb (vx (v_absmax a)) (vx mins) || f_leb (vy (v_absmax a)) (vy mins) || f_leb (vz (v_absmax a)) (vz mins).

(** Is the entity moved along: it stands on the pusher, or is in its way.
    C: Source/sv_phys.c:455-469 check *)
Definition in_the_way (s : wst) (pusher check : Z) (a : ent) (mins maxs : vec3) : res bool :=
  if has_flag a FL_ONGROUND && (v_groundentity a =? pusher) then mret true
  else if outside a mins maxs then mret false
  else test_position g s check.

(** The entities already moved are put back, with the pusher.
    C: Source/sv_phys.c:515-519 moved_edict *)
Fixpoint move_back (moved : list (Z * vec3)) (s : wst) : res wst :=
  match moved with
  | [] => mret s
  | (e, from) :: moved => s ← upd_ent e (set_origin from) s; s ← link_ent g e false s; move_back moved s
  end.

(** The entity [check] stays in the way, and was at [entorig]: the pusher goes back.
    C: Source/sv_phys.c:498-520 blocked *)
Definition block_move (pusher check : Z) (entorig pushorig : vec3) (movetime : f32) (moved : list (Z * vec3)) (s : wst) : res wst :=
  s ← upd_ent check (set_origin entorig) s;
  s ← link_ent g check true s;
  s ← upd_ent pusher (set_origin pushorig) s;
  s ← link_ent g pusher false s;
  s ← upd_ent pusher (fun p => set_ltime (f32_sub (v_ltime p) movetime) p) s;
  p ← ent_at s pusher;
  s ← (if v_blocked p =? 0 then mret s else PR_ExecuteProgram g (v_blocked p) (set_self_other pusher check s));
  move_back moved s.

(** One entity is moved; the result says whether the pusher is blocked by it.
    C: Source/sv_phys.c:471-497 check *)
Definition push_entity (pusher check : Z) (move : vec3) (s : wst) : res (bool * wst) :=
  s ← upd_ent check (fun a => if moves_as a MOVETYPE_WALK then a else drop_flag FL_ONGROUND a) s;
  s ← upd_ent pusher (set_solid (f32_of_Z SOLID_NOT)) s;
  '(_, s) ← SV_PushEntity g check move s;
  s ← upd_ent pusher (set_solid (f32_of_Z SOLID_BSP)) s;
  block ← test_position g s check;
  if negb block then mret (false, s)
  else
    a ← ent_at s check;
    if f_eqb (vx (v_mins a)) (vx (v_maxs a)) then mret (false, s)
    else if is_solid a SOLID_NOT || is_solid a SOLID_TRIGGER then
      let lo := Vec f_0 f_0 (vz (v_mins a)) in
      s ← upd_ent check (set_mins_maxs lo lo) s; mret (false, s)
    else mret (true, s).

(** The entities from number [i] on; [moved] are those moved so far and where they were.
    C: Source/sv_phys.c:445-522 check *)
Fixpoint push_loop (fuel : nat) (pusher : Z) (move mins maxs pushorig : vec3) (movetime : f32) (i : Z) (moved : list (Z * vec3))
  (s : wst) : res wst :=
  if num_edicts s <=? i then mret s
  else
    match fuel with
    | O => Fault OutOfFuel
    | S fuel =>
        let check := i * pr_edict_size g in
        a ← ent_at s check;
        way ← (if e_free a || stays_put a then mret false else in_the_way s pusher check a mins maxs);
        if negb way then push_loop fuel pusher move mins maxs pushorig movetime (i + 1) moved s
        else
          let moved := moved ++ [(check, v_origin a)] in
          '(blocked, s) ← push_entity pusher check move s;
          if blocked : bool then block_move pusher check (v_origin a) pushorig movetime moved s
          else push_loop fuel pusher move mins maxs pushorig movetime (i + 1) moved s
    end.

(** C: Source/sv_phys.c:410-523 SV_PushMove *)
Definition SV_PushMove (pusher : Z) (movetime : f32) (s : wst) : res wst :=
  p ← ent_at s pusher;
  if vec_zero (v_velocity p) then upd_ent pusher (fun p => set_ltime (f32_add (v_ltime p) movetime) p) s
  else
    let move := VectorScale (v_velocity p) movetime in
    s ← upd_ent pusher (fun p => set_ltime (f32_add (v_ltime p) movetime) (set_origin (vec_add (v_origin p) move) p)) s;
    s ← link_ent g pusher false s;
    push_loop (Z.to_nat MAX_EDICTS) pusher move (vec_add (v_absmin p) move) (vec_add (v_absmax p) move) (v_origin p) movetime 1 [] s.

(** C: Source/sv_phys.c:530-559 SV_Physics_Pusher *)
Definition SV_Physics_Pusher (e : Z) (s : wst) : res wst :=
  a ← ent_at s e;
  let oldltime := v_ltime a in
  let thinktime := v_nextthink a in
  let movetime :=
    if f_ltb (f64_of_f32 thinktime) (f64_add (f64_of_f32 oldltime) (host_frametime g)) then
      let m := f32_sub thinktime oldltime in if f_ltb m f_0 then f_0 else m
    else frametime g in
  s ← (if f_truth movetime then SV_PushMove e movetime s else mret s);
  a ← ent_at s e;
  if f_ltb oldltime thinktime && f_leb thinktime (v_ltime a) then
    s ← upd_ent e (set_nextthink f_0) s;
    PR_ExecuteProgram g (v_think a) (set_time (f32_of_f64 (sv_time g)) (set_self_other e 0 s))
  else mret s.

(** * Players *)

(** The positions tried, in order: 18 heights, and nine places at each.
    C: Source/sv_phys.c:598-604 origin *)
Definition nudges (org : vec3) : list vec3 :=
  z ← seqZ 0 18; i ← seqZ (-1) 3; j ← seqZ (-1) 3;
  [Vec (f32_add (vx org) (f32_of_Z i)) (f32_add (vy org) (f32_of_Z j)) (f32_add (vz org) (f32_of_Z z))].
(** C: Source/sv_phys.c:598-611 origin *)
Fixpoint try_nudges (e : Z) (places : list vec3) (s : wst) : res (bool * wst) :=
  match places with
  | [] => mret (false, s)
  | p :: places =>
      s ← upd_ent e (set_origin p) s;
      stuck ← test_position g s e;
      if negb stuck then s ← link_ent g e true s; mret (true, s) else try_nudges e places s
  end.
(** C: Source/sv_phys.c:577-615 SV_CheckStuck *)
Definition SV_CheckStuck (e : Z) (s : wst) : res wst :=
  stuck ← test_position g s e;
  if negb stuck then upd_ent e (fun a => set_oldorigin (v_origin a) a) s
  else
    a ← ent_at s e;
    let org := v_origin a in
    s ← upd_ent e (set_origin (v_oldorigin a)) s;
    stuck ← test_position g s e;
    if negb stuck then link_ent g e true s
    else
      '(free, s) ← try_nudges e (nudges org) s;
      if free : bool then mret s else upd_ent e (set_origin org) s.

Definition contents_at (p : vec3) : res Z := SV_PointContents (world_hull g) p.
Definition in_water (c : Z) : bool := c <=? CONTENTS_WATER.

(** C: Source/sv_phys.c:622-651 SV_CheckWater *)
Definition SV_CheckWater (e : Z) (s : wst) : res (bool * wst) :=
  a ← ent_at s e;
  let at_height z := contents_at (vset (v_origin a) 2 z) in
  feet ← at_height (f32_add (f32_add (vz (v_origin a)) (vz (v_mins a))) f_1);
  '(level, type) ← (
    if negb (in_water feet) then mret (0, CONTENTS_EMPTY)
    else
      let half := f64_mul (f64_of_f32 (f32_add (vz (v_mins a)) (vz (v_maxs a)))) f64_half in
      waist ← at_height (f32_of_f64 (f64_add (f64_of_f32 (vz (v_origin a))) half));
      if negb (in_water waist) then mret (1, feet)
      else
        eyes ← at_height (f32_add (vz (v_origin a)) (vz (v_view_ofs a)));
        mret (if in_water eyes then 3 else 2, feet));
  s ← upd_ent e (fun a => set_waterlevel (f32_of_Z level) (set_watertype (f32_of_Z type) a)) s;
  mret (1 <? level, s).

(** C: Source/mathlib.h:30-32 M_PI *)
Definition M_PI : f64 := S754_finite false 7074237752028440 (-51).
(** C: Source/mathlib.h:36-36 DEG2RAD *)
Definition DEG2RAD (a : f32) : f64 := f64_div (f64_mul (f64_of_f32 a) M_PI) (f64_of_Z 180).
(** Sine and cosine of an angle.
    C: Source/mathlib.c:193-203 angle *)
Definition sincos (a : f32) : f32 * f32 :=
  if f_truth a then
    let angle := f64_of_f32 (f32_of_f64 (DEG2RAD a)) in (f32_of_f64 (c_sin g angle), f32_of_f64 (c_cos g angle))
  else (f_0, f_1).
(** [forward], [right] and [up].
    C: Source/mathlib.c:189-265 AngleVectors *)
Definition AngleVectors (angles : vec3) : vec3 * vec3 * vec3 :=
  let '(sy, cy) := sincos (vy angles) in
  let '(sp, cp) := sincos (vx angles) in
  let neg x := f32_mul (f32_of_Z (-1)) x in
  let forward := Vec (f32_mul cp cy) (f32_mul cp sy) (f32_opp sp) in
  if f_truth (vz angles) then
    let '(sr, cr) := sincos (vz angles) in
    let t := f32_mul sr sp in
    let u := f32_mul cr sp in
    (forward,
     Vec (f32_add (f32_mul (neg t) cy) (f32_mul cr sy)) (f32_sub (f32_mul (neg t) sy) (f32_mul cr cy)) (f32_mul (neg sr) cp),
     Vec (f32_add (f32_mul u cy) (f32_mul sr sy)) (f32_sub (f32_mul u sy) (f32_mul sr cy)) (f32_mul cr cp))
  else (forward, Vec sy (f32_opp cy) f_0, Vec (f32_mul sp cy) (f32_mul sp sy) cp).

(** C: Source/sv_phys.c:658-677 SV_WallFriction *)
Definition SV_WallFriction (e : Z) (steptrace : option trace) (s : wst) : res wst :=
  tr ← of_option (Undefined "SV_WallFriction: the trace is not initialised") steptrace;
  a ← ent_at s e;
  let '(forward, _, _) := AngleVectors (v_v_angle a) in
  let d := f32_of_f64 (f64_add (f64_of_f32 (dot (t_normal tr) forward)) f64_half) in
  if f_leb f_0 d then mret s
  else
    let side := vec_sub (v_velocity a) (VectorScale (t_normal tr) (dot (t_normal tr) (v_velocity a))) in
    let k := f32_add f_1 d in
    upd_ent e (set_velocity (Vec (f32_mul (vx side) k) (f32_mul (vy side) k) (vz (v_velocity a)))) s.

Definition fdist (x y : f32) : f64 := SFabs (f64_of_f32 (f32_sub x y)).

(** C: Source/sv_phys.c:703-713 dir *)
Definition unstick_dirs : list vec3 :=
  (fun d : Z * Z => Vec (f32_of_Z d.1) (f32_of_Z d.2) f_0) <$> [(2, 0); (0, 2); (-2, 0); (0, -2); (2, 2); (-2, 2); (2, -2); (-2, -2)].
(** C: Source/sv_phys.c:700-734 clip *)
Fixpoint unstick_loop (e : Z) (oldorg oldvel : vec3) (dirs : list vec3) (step : option trace) (s : wst) : res (Z * wst) :=
  match dirs with
  | [] => s ← upd_ent e (set_velocity vec0) s; mret (7, s)
  | dir :: dirs =>
      '(_, s) ← SV_PushEntity g e dir s;
      s ← upd_ent e (set_velocity (Vec (vx oldvel) (vy oldvel) f_0)) s;
      '(clip, step, s) ← SV_FlyMove g e (f32_of_f64 (f64_frac 1 10)) step s;
      a ← ent_at s e;
      let far x y := f_ltb (f64_of_Z 4) (fdist x y) in
      if far (vy oldorg) (vy (v_origin a)) || far (vx oldorg) (vx (v_origin a)) then mret (clip, s)
      else s ← upd_ent e (set_origin oldorg) s; unstick_loop e oldorg oldvel dirs step s
  end.
(** C: Source/sv_phys.c:691-735 SV_TryUnstick *)
Definition SV_TryUnstick (e : Z) (oldvel : vec3) (s : wst) : res (Z * wst) :=
  a ← ent_at s e;
  unstick_loop e (v_origin a) oldvel unstick_dirs None s.

(** C: Source/sv_phys.c:744-744 STEPSIZE *)
Definition STEPSIZE : Z := 18.

(** The second try: up, forward and down again.
    C: Source/sv_phys.c:775-827 steptrace *)
Definition walk_step (e : Z) (oldorg oldvel : vec3) (steptrace : option trace) (s : wst) : res wst :=
  a ← ent_at s e;
  let nosteporg := v_origin a in
  let nostepvel := v_velocity a in
  s ← upd_ent e (set_origin oldorg) s;
  let down := f32_of_f64 (f64_add (f64_of_Z (- STEPSIZE)) (f64_mul (f64_of_f32 (vz oldvel)) (host_frametime g))) in
  '(_, s) ← SV_PushEntity g e (vset vec0 2 (f32_of_Z STEPSIZE)) s;
  s ← upd_ent e (set_velocity (Vec (vx oldvel) (vy oldvel) f_0)) s;
  '(clip, steptrace, s) ← SV_FlyMove g e (frametime g) steptrace s;
  a ← ent_at s e;
  let near x y := f_ltb (fdist x y) (f64_frac 1 32) in
  '(clip, s) ← (if truth clip && near (vy oldorg) (vy (v_origin a)) && near (vx oldorg) (vx (v_origin a))
                then SV_TryUnstick e oldvel s else mret (clip, s));
  s ← (if has clip 2 then SV_WallFriction e steptrace s else mret s);
  '(downtrace, s) ← SV_PushEntity g e (vset vec0 2 down) s;
  if steep (vz (t_normal downtrace)) then
    a ← ent_at s e;
    if is_solid a SOLID_BSP then
      te ← of_option (Undefined "EDICT_TO_PROG of a null pointer") (t_ent downtrace);
      upd_ent e (fun a => set_groundentity te (add_flag FL_ONGROUND a)) s
    else mret s
  else upd_ent e (fun a => set_velocity nostepvel (set_origin nosteporg a)) s.

(** C: Source/sv_phys.c:745-828 SV_WalkMove *)
Definition SV_WalkMove (e : Z) (s : wst) : res wst :=
  a ← ent_at s e;
  let oldonground := has_flag a FL_ONGROUND in
  s ← upd_ent e (drop_flag FL_ONGROUND) s;
  '(clip, steptrace, s) ← SV_FlyMove g e (frametime g) None s;
  if negb (has clip 2) then mret s
  else
    b ← ent_at s e;
    if negb oldonground && f_eqb (v_waterlevel b) f_0 then mret s
    else if negb (moves_as b MOVETYPE_WALK) then mret s
    else if sv_nostep g then mret s
    else
      p ← ent_at s (sv_player g);
      if has_flag p FL_WATERJUMP then mret s else walk_step e (v_origin a) (v_velocity a) steptrace s.

(** * Things that are thrown, and monsters *)

(** C: Source/sv_phys.c:945-975 SV_CheckWaterTransition *)
Definition SV_CheckWaterTransition (e : Z) (s : wst) : res wst :=
  a ← ent_at s e;
  cont ← contents_at (v_origin a);
  let enter type level := upd_ent e (fun a => set_waterlevel (f32_of_Z level) (set_watertype (f32_of_Z type) a)) in
  let was_empty := f_eqb (v_watertype a) (f32_of_Z CONTENTS_EMPTY) in
  if negb (f_truth (v_watertype a)) then enter cont 1 s
  else if in_water cont then
    s ← (if was_empty then start_sound e (cs "misc/h2ohit1.wav") s else mret s);
    enter cont 1 s
  else
    s ← (if was_empty then mret s else start_sound e (cs "misc/h2ohit1.wav") s);
    enter CONTENTS_EMPTY cont s.

(** What is left of the frame after the entity hit something.
    C: Source/sv_phys.c:1015-1032 backoff *)
Definition toss_hit (e : Z) (tr : trace) (s : wst) : res wst :=
  a ← ent_at s e;
  let bounce := moves_as a MOVETYPE_BOUNCE in
  let vel := (ClipVelocity (v_velocity a) (t_normal tr) (if bounce then f32_of_f64 (f64_frac 3 2) else f_1)).2 in
  s ← upd_ent e (set_velocity vel) s;
  s ← (if steep (vz (t_normal tr)) && (f_ltb (vz vel) (f32_of_Z 60) || negb bounce) then
         te ← of_option (Undefined "EDICT_TO_PROG of a null pointer") (t_ent tr);
         upd_ent e (fun a => set_avelocity vec0 (set_velocity vec0 (set_groundentity te (add_flag FL_ONGROUND a)))) s
       else mret s);
  SV_CheckWaterTransition e s.

(** C: Source/sv_phys.c:984-1033 SV_Physics_Toss *)
Definition SV_Physics_Toss (e : Z) (s : wst) : res wst :=
  '(alive, s) ← SV_RunThink g e s;
  if negb alive then mret s
  else
    a ← ent_at s e;
    if has_flag a FL_ONGROUND then mret s
    else
      s ← SV_CheckVelocity g e s;
      s ← (if moves_as a MOVETYPE_FLY || moves_as a MOVETYPE_FLYMISSILE then mret s else SV_AddGravity g (host_frametime g) e s);
      s ← upd_ent e (fun a => set_angles (VectorMA (v_angles a) (frametime g) (v_avelocity a)) a) s;
      a ← ent_at s e;
      '(tr, s) ← SV_PushEntity g e (VectorScale (v_velocity a) (frametime g)) s;
      if f_eqb (fraction tr) f_1 then mret s
      else
        a ← ent_at s e;
        if e_free a then mret s else toss_hit e tr s.

(** C: Source/sv_phys.c:1054-1082 SV_Physics_Step *)
Definition SV_Physics_Step (e : Z) (s : wst) : res wst :=
  a ← ent_at s e;
  s ← (if has_flag a (FL_ONGROUND .| FL_FLY .| FL_SWIM) then mret s
       else
         let hitsound := f_ltb (f64_of_f32 (vz (v_velocity a))) (f64_mul (f64_of_f32 (sv_gravity g)) (SFopp (f64_frac 1 10))) in
         s ← SV_AddGravity g (host_frametime g) e s;
         s ← SV_CheckVelocity g e s;
         '(_, _, s) ← SV_FlyMove g e (frametime g) None s;
         s ← link_ent g e true s;
         a ← ent_at s e;
         if has_flag a FL_ONGROUND && hitsound then start_sound e (cs "demon/dland2.wav") s else mret s);
  '(_, s) ← SV_RunThink g e s;
  SV_CheckWaterTransition e s.

(** C: Source/sv_phys.c:907-911 SV_Physics_None *)
Definition SV_Physics_None (e : Z) (s : wst) : res wst := '(_, s) ← SV_RunThink g e s; mret s.

(** C: Source/sv_phys.c:920-930 SV_Physics_Noclip *)
Definition SV_Physics_Noclip (e : Z) (s : wst) : res wst :=
  '(alive, s) ← SV_RunThink g e s;
  if negb alive then mret s
  else
    s ← upd_ent e (fun a => set_origin (VectorMA (v_origin a) (frametime g) (v_velocity a))
                             (set_angles (VectorMA (v_angles a) (frametime g) (v_avelocity a)) a)) s;
    link_ent g e false s.

(** * The frame *)

(** The move of a client; [false] when it removed itself.
    C: Source/sv_phys.c:850-887 movetype *)
Definition client_move (e : Z) (s : wst) : res (bool * wst) :=
  a ← ent_at s e;
  let type := f_to_int (v_movetype a) in
  let think k := '(alive, s) ← SV_RunThink g e s; if negb alive then mret (false, s) else s ← k s; mret (true, s) in
  if type =? MOVETYPE_NONE then think mret
  else if type =? MOVETYPE_WALK then
    think (fun s =>
      '(swims, s) ← SV_CheckWater e s;
      a ← ent_at s e;
      s ← (if negb swims && negb (has_flag a FL_WATERJUMP) then SV_AddGravity g (host_frametime g) e s else mret s);
      s ← SV_CheckStuck e s;
      SV_WalkMove e s)
  else if (type =? MOVETYPE_TOSS) || (type =? MOVETYPE_BOUNCE) then s ← SV_Physics_Toss e s; mret (true, s)
  else if type =? MOVETYPE_FLY then think (fun s => '(_, _, s) ← SV_FlyMove g e (frametime g) None s; mret s)
  else if type =? MOVETYPE_NOCLIP then
    think (upd_ent e (fun a => set_origin (VectorMA (v_origin a) (frametime g) (v_velocity a)) a))
  else Fault (Sys_Error "SV_Physics_client: bad movetype %i").

(** C: Source/sv_phys.c:837-896 SV_Physics_Client *)
Definition SV_Physics_Client (e num : Z) (s : wst) : res wst :=
  if negb (client_active g (num - 1)) then mret s
  else
    let call f s := PR_ExecuteProgram g f (set_time (f32_of_f64 (sv_time g)) (set_self e s)) in
    s ← call (PlayerPreThink g) s;
    s ← SV_CheckVelocity g e s;
    '(alive, s) ← client_move e s;
    if negb alive then mret s
    else s ← link_ent g e true s; call (PlayerPostThink g) s.

(** The kind of movement of one entity.
    C: Source/sv_phys.c:1114-1130 movetype *)
Definition physics_entity (e i : Z) (s : wst) : res wst :=
  a ← ent_at s e;
  if (0 <? i) && (i <=? maxclients g) then SV_Physics_Client e i s
  else if moves_as a MOVETYPE_PUSH then SV_Physics_Pusher e s
  else if moves_as a MOVETYPE_NONE then SV_Physics_None e s
  else if moves_as a MOVETYPE_NOCLIP then SV_Physics_Noclip e s
  else if moves_as a MOVETYPE_STEP then SV_Physics_Step e s
  else if moves_as a MOVETYPE_TOSS || moves_as a MOVETYPE_BOUNCE || moves_as a MOVETYPE_FLY || moves_as a MOVETYPE_FLYMISSILE
       then SV_Physics_Toss e s
  else Fault (Sys_Error "SV_Physics: bad movetype %i").

(** C: Source/sv_phys.c:1104-1131 ent *)
Fixpoint physics_loop (fuel : nat) (i : Z) (s : wst) : res wst :=
  if num_edicts s <=? i then mret s
  else
    match fuel with
    | O => Fault OutOfFuel
    | S fuel =>
        let e := i * pr_edict_size g in
        a ← ent_at s e;
        if e_free a then physics_loop fuel (i + 1) s
        else
          s ← (if f_truth (force_retouch s) then link_ent g e true s else mret s);
          s ← physics_entity e i s;
          physics_loop fuel (i + 1) s
    end.

(** C: Source/sv_phys.c:1096-1100 StartFrame *)
Definition start_frame (s : wst) : res wst :=
  PR_ExecuteProgram g (StartFrame g) (set_time (f32_of_f64 (sv_time g)) (set_self_other 0 0 s)).
(** C: Source/sv_phys.c:1133-1136 force_retouch *)
Definition finish_frame (s : wst) : wst * f64 :=
  (if f_truth (force_retouch s) then upd_force_retouch (f32_sub (force_retouch s) f_1) s else s, f64_add (sv_time g) (host_frametime g)).
(** The state and the new [sv.time].
    C: Source/sv_phys.c:1091-1137 SV_Physics *)
Definition SV_Physics (s : wst) : res (wst * f64) :=
  s ← start_frame s;
  s ← physics_loop (Z.to_nat MAX_EDICTS) 0 s;
  mret (finish_frame s).

(** * Predicting a throw *)

(** The copy of the entity is at [tmp], outside [sv.edicts]; [ignore] is an entity number or null.
    C: Source/sv_phys.c:1152-1165 tent *)
Fixpoint toss_loop (fuel : nat) (tmp : Z) (ignore : option Z) (s : wst) : res (trace * wst) :=
  match fuel with
  | O => Fault OutOfFuel
  | S fuel =>
      let dt := f64_frac 1 20 in
      s ← SV_CheckVelocity g tmp s;
      s ← SV_AddGravity g dt tmp s;
      s ← upd_ent tmp (fun a => set_angles (VectorMA (v_angles a) (f32_of_f64 dt) (v_avelocity a)) a) s;
      a ← ent_at s tmp;
      tr ← move_ent g s a (vec_add (v_origin a) (VectorScale (v_velocity a) (f32_of_f64 dt))) 0 tmp;
      s ← upd_ent tmp (set_origin (endpos tr)) s;
      if bool_decide (t_ent tr = None) || bool_decide (t_ent tr = ignore) then toss_loop fuel tmp ignore s else mret (tr, s)
  end.
(** C: Source/sv_phys.c:1139-1169 SV_Trace_Toss *)
Definition SV_Trace_Toss (fuel : nat) (tmp e : Z) (ignore : option Z) (s : wst) : res trace :=
  a ← ent_at s e;
  '(tr, _) ← toss_loop fuel tmp ignore (set_ents (<[tmp := a]> (ents s)) s);
  mret tr.

End physics.

(** * Invariants of a frame *)

Section frame_invariants.

Context (g : server) (P : wst -> Prop) (HP : preserved g P box_kept).

Lemma start_sound_keeps e sample s : P s -> safe P (start_sound g e sample s).
Proof. intros Hs. unfold start_sound. keep. Qed.
#[local] Hint Extern 1 (safe _ (start_sound _ _ _ _)) => (apply start_sound_keeps; solve [keep_globals]) : keeps.

Lemma move_back_keeps moved : forall s, P s -> safe P (move_back g moved s).
Proof. induction moved as [|[e from] moved IH]; intros s Hs; cbn [move_back]; keep. Qed.
#[local] Hint Extern 1 (safe _ (move_back _ _ _)) => (apply move_back_keeps; solve [keep_globals]) : keeps.
Lemma block_move_keeps pusher check eo po t moved s : P s -> safe P (block_move g pusher check eo po t moved s).
Proof. intros Hs. unfold block_move. keep. Qed.
#[local] Hint Extern 1 (safe _ (block_move _ _ _ _ _ _ _ _)) => (apply block_move_keeps; solve [keep_globals]) : keeps.
Lemma push_entity_keeps pusher check move s : P s -> safe (fun r => P r.2) (push_entity g pusher check move s).
Proof.
  intros Hs. unfold push_entity. eapply safe_bind; [eapply upd_keeps; [eassumption|done|intros a; by destruct (moves_as a _)]|]. keep.
Qed.
#[local] Hint Extern 1 (safe _ (push_entity _ _ _ _ _)) => (apply push_entity_keeps; solve [keep_globals]) : keeps.
Lemma push_loop_keeps fuel pusher move mins maxs po t : forall i moved s, P s -> safe P (push_loop g fuel pusher move mins maxs po t i moved s).
Proof. induction fuel as [|fuel IH]; intros i moved s Hs; cbn [push_loop]; keep. Qed.
#[local] Hint Extern 1 (safe _ (push_loop _ _ _ _ _ _ _ _ _ _ _)) => (apply push_loop_keeps; solve [keep_globals]) : keeps.
Lemma SV_PushMove_keeps pusher t s : P s -> safe P (SV_PushMove g pusher t s).
Proof. intros Hs. unfold SV_PushMove. keep. Qed.
#[local] Hint Extern 1 (safe _ (SV_PushMove _ _ _ _)) => (apply SV_PushMove_keeps; solve [keep_globals]) : keeps.
Lemma SV_Physics_Pusher_keeps e s : P s -> safe P (SV_Physics_Pusher g e s).
Proof. intros Hs. unfold SV_Physics_Pusher. keep. Qed.

Lemma try_nudges_keeps e places : forall s, P s -> safe (fun r => P r.2) (try_nudges g e places s).
Proof. induction places as [|p places IH]; intros s Hs; cbn [try_nudges]; keep. Qed.
#[local] Hint Extern 1 (safe _ (try_nudges _ _ _ _)) => (apply try_nudges_keeps; solve [keep_globals]) : keeps.
Lemma SV_CheckStuck_keeps e s : P s -> safe P (SV_CheckStuck g e s).
Proof. intros Hs. unfold SV_CheckStuck. keep. Qed.
#[local] Hint Extern 1 (safe _ (SV_CheckStuck _ _ _)) => (apply SV_CheckStuck_keeps; solve [keep_globals]) : keeps.
Lemma SV_CheckWater_keeps e s : P s -> safe (fun r => P r.2) (SV_CheckWater g e s).
Proof. intros Hs. unfold SV_CheckWater. keep. Qed.
#[local] Hint Extern 1 (safe _ (SV_CheckWater _ _ _)) => (apply SV_CheckWater_keeps; solve [keep_globals]) : keeps.
Lemma SV_WallFriction_keeps e tr s : P s -> safe P (SV_WallFriction g e tr s).
Proof. intros Hs. unfold SV_WallFriction. keep. Qed.
#[local] Hint Extern 1 (safe _ (SV_WallFriction _ _ _ _)) => (apply SV_WallFriction_keeps; solve [keep_globals]) : keeps.
Lemma unstick_loop_keeps e oldorg oldvel dirs : forall st s, P s -> safe (fun r => P r.2) (unstick_loop g e oldorg oldvel dirs st s).
Proof. induction dirs as [|d dirs IH]; intros st s Hs; cbn [unstick_loop]; keep. Qed.
Lemma SV_TryUnstick_keeps e v s : P s -> safe (fun r => P r.2) (SV_TryUnstick g e v s).
Proof. intros Hs. unfold SV_TryUnstick. eapply safe_bind; [apply safe_any|]. intros a _. by apply unstick_loop_keeps. Qed.
#[local] Hint Extern 1 (safe _ (SV_TryUnstick _ _ _ _)) => (apply SV_TryUnstick_keeps; solve [keep_globals]) : keeps.
Lemma walk_step_keeps e oldorg oldvel st s : P s -> safe P (walk_step g e oldorg oldvel st s).
Proof. intros Hs. unfold walk_step. keep. Qed.
#[local] Hint Extern 1 (safe _ (walk_step _ _ _ _ _ _)) => (apply walk_step_keeps; solve [keep_globals]) : keeps.
Lemma SV_WalkMove_keeps e s : P s -> safe P (SV_WalkMove g e s).
Proof. intros Hs. unfold SV_WalkMove. keep. Qed.
#[local] Hint Extern 1 (safe _ (SV_WalkMove _ _ _)) => (apply SV_WalkMove_keeps; solve [keep_globals]) : keeps.

Lemma SV_CheckWaterTransition_keeps e s : P s -> safe P (SV_CheckWaterTransition g e s).
Proof. intros Hs. unfold SV_CheckWaterTransition. keep. Qed.
#[local] Hint Extern 1 (safe _ (SV_CheckWaterTransition _ _ _)) => (apply SV_CheckWaterTransition_keeps; solve [keep_globals]) : keeps.
Lemma toss_hit_keeps e tr s : P s -> safe P (toss_hit g e tr s).
Proof. intros Hs. unfold toss_hit. keep. Qed.
#[local] Hint Extern 1 (safe _ (toss_hit _ _ _ _)) => (apply toss_hit_keeps; solve [keep_globals]) : keeps.
Lemma SV_Physics_Toss_keeps e s : P s -> safe P (SV_Physics_Toss g e s).
Proof. intros Hs. unfold SV_Physics_Toss. keep. Qed.
#[local] Hint Extern 1 (safe _ (SV_Physics_Toss _ _ _)) => (apply SV_Physics_Toss_keeps; solve [keep_globals]) : keeps.
Lemma SV_Physics_Step_keeps e s : P s -> safe P (SV_Physics_Step g e s).
Proof. intros Hs. unfold SV_Physics_Step. keep. Qed.
Lemma SV_Physics_Noclip_keeps e s : P s -> safe P (SV_Physics_Noclip g e s).
Proof. intros Hs. unfold SV_Physics_Noclip. keep. Qed.

Lemma client_move_keeps e s : P s -> safe (fun r => P r.2) (client_move g e s).
Proof. intros Hs. unfold client_move. keep. Qed.
#[local] Hint Extern 1 (safe _ (client_move _ _ _)) => (apply client_move_keeps; solve [keep_globals]) : keeps.
Lemma SV_Physics_Client_keeps e n s : P s -> safe P (SV_Physics_Client g e n s).
Proof. intros Hs. unfold SV_Physics_Client. keep. Qed.

Lemma physics_entity_keeps e i s : P s -> safe P (physics_entity g e i s).
Proof.
  intros Hs. pose proof SV_Physics_Client_keeps. pose proof SV_Physics_Pusher_keeps. pose proof SV_Physics_Noclip_keeps.
  pose proof SV_Physics_Step_keeps. unfold physics_entity, SV_Physics_None. keep.
Qed.
#[local] Hint Extern 1 (safe _ (physics_entity _ _ _ _)) => (apply physics_entity_keeps; solve [keep_globals]) : keeps.
Lemma physics_loop_keeps fuel : forall i s, P s -> safe P (physics_loop g fuel i s).
Proof. induction fuel as [|fuel IH]; intros i s Hs; cbn [physics_loop]; keep. Qed.
#[local] Hint Extern 1 (safe _ (physics_loop _ _ _ _)) => (apply physics_loop_keeps; solve [keep_globals]) : keeps.
Lemma SV_Physics_keeps s : P s -> safe (fun r => P r.1) (SV_Physics g s).
Proof. intros Hs. unfold SV_Physics, start_frame. keep. cbn. destruct (f_truth _); keep_globals. Qed.

End frame_invariants.

(** ** The frame keeps the world well formed *)

Definition in_world (s : wst) : Prop := exists L, world_ok s L.

Lemma world_box_kept s e a a' : in_world s -> ents s !! e = Some a -> box_kept e a a' -> in_world (set_ents (<[e := a']> (ents s)) s).
Proof.
  intros [L Hw] Ha [Hlo Hhi]. exists L.
  assert (set_ents (<[e := a']> (ents s)) s = set_links (links s) (set_ents (<[e := a']> (ents s)) s)) as -> by done.
  apply (world_ok_change s L L (links s) _ Hw (wk_areas _ _ Hw)); [done|done| |].
  - intros e' t H. destruct (decide (e = e')) as [<-|]; [by exists a|]. rewrite lookup_insert_ne in H by done. by exists t.
  - intros h l b Hl Hin. right. destruct (wk_placed _ _ Hw h l b Hl Hin) as (t & j & Et & Hj & Hp).
    destruct (decide (e = EDICT_FROM_AREA b)) as [->|].
    + exists a', j. rewrite lookup_insert_eq. rewrite Ha in Et. injection Et as <-. rewrite Hlo, Hhi. done.
    + exists t, j. by rewrite lookup_insert_ne.
Qed.

(** A link that is in no list is not unlinked. *)
Lemma unlink_unknown s L n : world_ok s L -> ents s !! 0 = None -> links s !! area 0 = Some n -> n = Link 0 0.
Proof.
  intros Hw Hn El. apply (ao_free _ _ (wk_areas _ _ Hw) (area 0) n); [done|done|]. intros (h & l & Hl & Hin).
  destruct (wk_placed _ _ Hw h l _ Hl Hin) as (t & j & Et & _). change (EDICT_FROM_AREA (area 0)) with 0 in Et. congruence.
Qed.

Lemma world_link nodes s e r s' : in_world s -> link_edict nodes e s = Ok (r, s') -> in_world s'.
Proof.
  intros [L Hw] E. destruct (ents s !! e) as [a|] eqn:Ea.
  - destruct (link_edict_spec nodes s L e a Hw Ea) as (r1 & s1 & L1 & E1 & Hw1 & _). exists L1. congruence.
  - unfold link_edict in E. destruct (links s !! area e) as [n|] eqn:El; [|by unfold link_at in E; rewrite El in E].
    rewrite (link_at_ok _ _ n), bind_Ok in E by done. destruct (e =? 0) eqn:Ez.
    + bool_props. subst e. rewrite (unlink_unknown s L n Hw Ea El) in E. cbn in E. injection E as _ <-. by exists L.
    + apply bind_Ok_inv in E as (s1 & E1 & E). assert (ents s1 = ents s) as He.
      { destruct (l_prev n =? 0); [cbn in E1; by injection E1 as <-|]. cbn [negb] in E1. unfold SV_UnlinkEdict in E1.
        rewrite (link_at_ok _ _ n), bind_Ok in E1 by done. destruct (l_prev n =? 0); [cbn in E1; by injection E1 as <-|].
        apply bind_Ok_inv in E1 as (m1 & _ & E1). apply bind_Ok_inv in E1 as (m2 & _ & E1). cbn in E1. injection E1 as <-. done. }
      unfold ent_at in E. rewrite He, Ea in E. done.
Qed.

Lemma world_same s s' : same_world s s' -> in_world s -> in_world s'.
Proof.
  intros (H1 & H2 & H3 & H4) [L Hw]. exists L. split.
  - rewrite H3. apply (wk_areas _ _ Hw).
  - rewrite H2. eapply area_tree_frame; [apply (wk_tree _ _ Hw)|]. intros. unfold node_at. by rewrite H1.
  - rewrite H2. apply (wk_heads _ _ Hw).
  - rewrite H3, H4. apply (wk_ents _ _ Hw).
  - rewrite H4. intros h l a Hl Hin. destruct (wk_placed _ _ Hw h l a Hl Hin) as (t & j & Et & Hj & Hp). exists t, j.
    split; [done|]. split; [done|]. by eapply placed_frame.
Qed.

Lemma world_preserved g : (forall f s s', in_world s -> PR_ExecuteProgram g f s = Ok s' -> in_world s') -> preserved g in_world box_kept.
Proof.
  intros Hrun. split.
  - apply world_box_kept.
  - intros s e r s'. apply world_link.
  - intros s x y. by apply world_same.
  - intros s t. by apply world_same.
  - intros s x. by apply world_same.
  - intros s d. by apply world_same.
  - done.
Qed.

(** When the functions of the game program keep the area lists well formed, so does a frame: the code
    of a frame changes boxes and lists through [link_edict] only. *)
Theorem SV_Physics_world g s s' t :
  (forall f s s', in_world s -> PR_ExecuteProgram g f s = Ok s' -> in_world s') -> in_world s ->
  SV_Physics g s = Ok (s', t) -> in_world s' /\ t = f64_add (sv_time g) (host_frametime g).
Proof.
  intros Hrun Hs E. split; [exact (safe_ok _ _ _ (SV_Physics_keeps g in_world (world_preserved g Hrun) s Hs) E)|].
  unfold SV_Physics in E. apply bind_Ok_inv in E as (s1 & _ & E). apply bind_Ok_inv in E as (s2 & _ & E). by injection E as _ <-.
Qed.

(** * Pushers move all or nothing *)

Definition origin_at (s : wst) (e : Z) : option vec3 := v_origin <$> ents s !! e.
Definition type_at (s : wst) (e : Z) : option f32 := v_movetype <$> ents s !! e.

(** From [s0] to [s] only entities of [l] have moved, and no kind of movement has changed. *)
Definition still (l : list Z) (s0 s : wst) : Prop :=
  forall e, type_at s e = type_at s0 e /\ (e ∉ l -> origin_at s e = origin_at s0 e).
Definition still_upd (l : list Z) (e : Z) (a a' : ent) : Prop := v_movetype a' = v_movetype a /\ (v_origin a' = v_origin a \/ e ∈ l).

Lemma still_refl l s : still l s s.
Proof. by intros e. Qed.
Lemma still_trans l s0 s1 s2 : still l s0 s1 -> still l s1 s2 -> still l s0 s2.
Proof. intros H1 H2 e. destruct (H1 e) as [Ht1 Ho1], (H2 e) as [Ht2 Ho2]. split; [congruence|]. intros He. rewrite Ho2, Ho1; done. Qed.
Lemma still_weaken l l' s0 s : still l s0 s -> (forall e, e ∈ l -> e ∈ l') -> still l' s0 s.
Proof. intros H Hl e. destruct (H e) as [-> H']. split; [done|]. intros He. apply H'. auto. Qed.

Lemma still_ents l s0 s s' : ents s' = ents s -> still l s0 s -> still l s0 s'.
Proof. intros He H e. unfold type_at, origin_at. rewrite He. apply H. Qed.

Lemma still_insert l s0 s e a a' : still l s0 s -> ents s !! e = Some a -> still_upd l e a a' -> still l s0 (set_ents (<[e := a']> (ents s)) s).
Proof.
  intros H Ha [Ht Ho] e'. destruct (H e') as [H1 H2]. unfold type_at, origin_at in *. cbn [ents set_ents].
  destruct (decide (e = e')) as [<-|]; [|by rewrite lookup_insert_ne].
  rewrite lookup_insert_eq. cbn. rewrite Ha in H1, H2. cbn in H1, H2. rewrite Ht. split; [done|].
  intros He. destruct Ho as [->|]; [auto|done].
Qed.

Lemma still_link l s0 nodes e s r s' : still l s0 s -> link_edict nodes e s = Ok (r, s') -> still l s0 s'.
Proof.
  intros H E. destruct (link_changes _ _ _ _ _ E) as (m & es & -> & [->|(a & Ha & ->)]); [by eapply still_ents|].
  apply (still_ents l s0 (set_ents (<[e := linked_ent nodes a]> (ents s)) s)); [done|].
  apply (still_insert l s0 s e a _ H Ha). unfold linked_ent. destruct (abs_box a). split; [done|by left].
Qed.

Lemma ent_at_inv s e a : ent_at s e = Ok a -> ents s !! e = Some a.
Proof. unfold ent_at. destruct (ents s !! e); cbn; congruence. Qed.

Section push.

Context (g : server).
(** The game program moves nothing while a pusher pushes. *)
Hypothesis run_still : forall f s s', PR_ExecuteProgram g f s = Ok s' -> still [] s s'.

Lemma still_preserved l s0 : preserved g (still l s0) (still_upd l).
Proof.
  split.
  - intros s e a a'. apply still_insert.
  - intros s e r s'. apply still_link.
  - intros s x y. by apply still_ents.
  - intros s t. by apply still_ents.
  - intros s x. by apply still_ents.
  - intros s d. by apply still_ents.
  - intros f s s' H E. eapply still_trans; [exact H|]. eapply still_weaken; [by eapply run_still|]. intros e He. by apply not_elem_of_nil in He.
Qed.

Lemma upd_still l s0 e f s s' : upd_ent e f s = Ok s' -> still l s0 s -> (forall a, still_upd l e a (f a)) -> still l s0 s'.
Proof. intros E H Hf. exact (safe_ok _ _ _ (upd_keeps g _ _ (still_preserved l s0) e f s H Hf) E). Qed.
Lemma link_still l s0 e b s s' : link_ent g e b s = Ok s' -> still l s0 s -> still l s0 s'.
Proof. intros E H. exact (safe_ok _ _ _ (link_keeps g _ _ (still_preserved l s0) e b s H) E). Qed.

(** Putting one of the entities back. *)
Lemma restore_still l s0 e from s s' : still (e :: l) s0 s -> origin_at s0 e = Some from -> upd_ent e (set_origin from) s = Ok s' -> still l s0 s'.
Proof.
  intros H H0 E e'. pose proof (upd_still (e :: l) s0 e (set_origin from) s s' E H ltac:(intros a; split; [done|right; left]) e') as [H1 H2].
  split; [done|]. intros He. destruct (decide (e = e')) as [<-|]; [|apply H2; rewrite elem_of_cons; by intros [->|]].
  unfold upd_ent, ent_at in E. unfold origin_at in *. destruct (ents s !! e); [|done]. cbn in E. injection E as <-. cbn.
  by rewrite lookup_insert_eq.
Qed.

(** The entities of [moved] were where the list says. *)
Definition came_from (s0 : wst) (moved : list (Z * vec3)) : Prop := Forall (fun m => origin_at s0 m.1 = Some m.2) moved.

Lemma move_back_still s0 moved : forall s s', came_from s0 moved -> still moved.*1 s0 s -> move_back g moved s = Ok s' -> still [] s0 s'.
Proof.
  induction moved as [|[e from] moved IH]; intros s s' Hm H E; cbn [move_back] in E; [cbn in E; by injection E as <-|].
  apply Forall_cons in Hm as [H0 Hm]. apply bind_Ok_inv in E as (s1 & E1 & E). apply bind_Ok_inv in E as (s2 & E2 & E).
  apply (IH s2 s' Hm); [|done]. apply (link_still _ _ _ _ _ _ E2). eapply restore_still; [exact H|exact H0|exact E1].
Qed.

Lemma block_move_still s0 pusher check from po t moved s s' : came_from s0 moved -> origin_at s0 pusher = Some po ->
  check ∈ moved.*1 -> still (pusher :: moved.*1) s0 s -> block_move g pusher check from po t moved s = Ok s' -> still [] s0 s'.
Proof.
  intros Hm H0 Hc H E. unfold block_move in E. apply bind_Ok_inv in E as (s1 & E1 & E). apply bind_Ok_inv in E as (s2 & E2 & E).
  apply bind_Ok_inv in E as (s3 & E3 & E). apply bind_Ok_inv in E as (s4 & E4 & E). apply bind_Ok_inv in E as (s5 & E5 & E).
  apply bind_Ok_inv in E as (p & Ep & E). apply bind_Ok_inv in E as (s6 & E6 & E).
  apply (move_back_still s0 moved s6 s' Hm); [|exact E].
  assert (still moved.*1 s0 s5) as H5.
  { apply (upd_still _ _ _ _ _ _ E5); [|intros a; split; [done|by left]]. apply (link_still _ _ _ _ _ _ E4). eapply restore_still; [|exact H0|exact E3].
    apply (link_still _ _ _ _ _ _ E2). apply (upd_still _ _ _ _ _ _ E1 H). intros a. split; [done|right; by right]. }
  destruct (v_blocked p =? 0); [cbn in E6; by injection E6 as <-|].
  exact (pr_run _ _ _ (still_preserved _ s0) _ _ _ (still_ents _ s0 s5 (set_self_other pusher check s5) eq_refl H5) E6).
Qed.

Lemma push_still l s0 pusher check move s r s' : check ∈ l -> still l s0 s -> push_entity g pusher check move s = Ok (r, s') -> still l s0 s'.
Proof.
  intros Hc H E. unfold push_entity in E. apply bind_Ok_inv in E as (s1 & E1 & E). apply bind_Ok_inv in E as (s2 & E2 & E).
  apply bind_Ok_inv in E as ([tr s3] & E3 & E). apply bind_Ok_inv in E as (s4 & E4 & E). apply bind_Ok_inv in E as (b & _ & E).
  assert (still l s0 s4) as H4.
  { apply (upd_still _ _ _ _ _ _ E4); [|intros a; split; [done|by left]]. assert (still l s0 s2) as H2.
    { apply (upd_still _ _ _ _ _ _ E2); [|intros a; split; [done|by left]]. apply (upd_still _ _ _ _ _ _ E1 H).
      intros a. destruct (moves_as a _); split; try done; by left. }
    unfold SV_PushEntity in E3. apply bind_Ok_inv in E3 as (a & _ & E3). apply bind_Ok_inv in E3 as (tr' & _ & E3).
    apply bind_Ok_inv in E3 as (s5 & E5 & E3). apply bind_Ok_inv in E3 as (s6 & E6 & E3). apply bind_Ok_inv in E3 as (s7 & E7 & E3).
    cbn in E3. injection E3 as _ <-. assert (still l s0 s6) as H6.
    { apply (link_still _ _ _ _ _ _ E6). apply (upd_still _ _ _ _ _ _ E5 H2). intros a'. split; [done|by right]. }
    destruct (t_ent tr'); [|cbn in E7; by injection E7 as <-].
    exact (safe_ok _ _ _ (SV_Impact_keeps g _ _ (still_preserved l s0) _ _ _ H6) E7). }
  destruct (negb b); [cbn in E; by injection E as _ <-|]. apply bind_Ok_inv in E as (a & _ & E).
  destruct (f_eqb _ _); [cbn in E; by injection E as _ <-|].
  destruct (_ || _); [|cbn in E; by injection E as _ <-]. apply bind_Ok_inv in E as (s8 & E8 & E). cbn in E. injection E as _ <-.
  apply (upd_still _ _ _ _ _ _ E8 H4). intros a'. split; [done|by left].
Qed.

(** The entities before number [i], the pusher not among them. *)
Definition earlier (pusher i : Z) (moved : list (Z * vec3)) : Prop :=
  Forall (fun m => m.1 <> pusher /\ exists j, j < i /\ m.1 = j * pr_edict_size g) moved.

Lemma earlier_next pusher i moved : earlier pusher i moved -> earlier pusher (i + 1) moved.
Proof. intros H. eapply Forall_impl; [exact H|]. intros m (? & j & ? & ?). split; [done|]. exists j. split; [lia|done]. Qed.

Lemma earlier_in pusher i moved e : earlier pusher i moved -> e ∈ moved.*1 -> e <> pusher /\ exists j, j < i /\ e = j * pr_edict_size g.
Proof. intros H (m & -> & Hin)%list_elem_of_fmap. exact (proj1 (Forall_forall _ _) H m Hin). Qed.

(** What stands on the pusher, or is inside its new place, moves along: the entity at [e], with the
    values [a]. *)
Definition carried (pusher : Z) (mins maxs : vec3) (e : Z) (a : ent) (s : wst) : Prop :=
  ents s !! e = Some a /\ e_free a = false /\ stays_put a = false /\
  in_the_way g s pusher e a mins maxs = Ok true.

(** The entity is pushed, as far as it goes, by [SV_PushEntity] with the pusher out of its way:
    [s] and [s'] are the states before and after, the pusher solid again in the second. *)
Definition shoved (pusher : Z) (move : vec3) (e : Z) (s s' : wst) : Prop :=
  exists sa sb sc tr,
    upd_ent e (fun a => if moves_as a MOVETYPE_WALK then a else drop_flag FL_ONGROUND a) s = Ok sa /\
    upd_ent pusher (set_solid (f32_of_Z SOLID_NOT)) sa = Ok sb /\
    SV_PushEntity g e move sb = Ok (tr, sc) /\
    upd_ent pusher (set_solid (f32_of_Z SOLID_BSP)) sc = Ok s'.

(** Nothing of no width is in the way, no corpse and no trigger. *)
Definition crushable (a : ent) : bool := f_eqb (vx (v_mins a)) (vx (v_maxs a)) || is_solid a SOLID_NOT || is_solid a SOLID_TRIGGER.
(** The entity still stands in a solid. *)
Definition stuck (e : Z) (s : wst) : Prop :=
  test_position g s e = Ok true /\ exists a, ents s !! e = Some a /\ crushable a = false.
(** It stands free, or is crushed: a corpse loses its width and depth. *)
Inductive clear (e : Z) : wst -> wst -> Prop :=
  | clear_free s : test_position g s e = Ok false -> clear e s s
  | clear_thin s a : test_position g s e = Ok true -> ents s !! e = Some a ->
      f_eqb (vx (v_mins a)) (vx (v_maxs a)) = true -> clear e s s
  | clear_corpse s a lo s' : test_position g s e = Ok true -> ents s !! e = Some a -> crushable a = true ->
      lo = Vec f_0 f_0 (vz (v_mins a)) -> upd_ent e (set_mins_maxs lo lo) s = Ok s' -> clear e s s'.

(** From number [i] on up to [j] nothing stops the pusher: what it carries is pushed and then
    clear, the other entities keep their places. *)
Inductive unhindered (pusher : Z) (move mins maxs : vec3) (j : Z) : Z -> wst -> wst -> Prop :=
  | unhindered_end s : unhindered pusher move mins maxs j j s s
  | unhindered_left i s a s' : i < num_edicts s -> ents s !! (i * pr_edict_size g) = Some a ->
      (e_free a || stays_put a = true \/ in_the_way g s pusher (i * pr_edict_size g) a mins maxs = Ok false) ->
      unhindered pusher move mins maxs j (i + 1) s s' -> unhindered pusher move mins maxs j i s s'
  | unhindered_pushed i s a s1 s2 s' : i < num_edicts s -> carried pusher mins maxs (i * pr_edict_size g) a s ->
      shoved pusher move (i * pr_edict_size g) s s1 -> clear (i * pr_edict_size g) s1 s2 ->
      unhindered pusher move mins maxs j (i + 1) s2 s' -> unhindered pusher move mins maxs j i s s'.

(** What [push_entity] answers. *)
Lemma push_entity_spec pusher check move s b s' : push_entity g pusher check move s = Ok (b, s') ->
  exists s1, shoved pusher move check s s1 /\ if b then s' = s1 /\ stuck check s1 else clear check s1 s'.
Proof.
  intros E. unfold push_entity in E. apply bind_Ok_inv in E as (sa & E1 & E). apply bind_Ok_inv in E as (sb & E2 & E).
  apply bind_Ok_inv in E as ([tr sc] & E3 & E). apply bind_Ok_inv in E as (s1 & E4 & E). apply bind_Ok_inv in E as (bl & E5 & E).
  exists s1. split; [by exists sa, sb, sc, tr|]. destruct bl; cbn [negb] in E.
  2: { cbn in E. injection E as <- <-. by apply clear_free. }
  apply bind_Ok_inv in E as (a & Ea & E). apply ent_at_inv in Ea. unfold stuck, crushable.
  destruct (f_eqb _ _) eqn:Ew; [cbn in E; injection E as <- <-; by eapply clear_thin|].
  destruct (_ || _) eqn:Es.
  - apply bind_Ok_inv in E as (s8 & E8 & E). cbn in E. injection E as <- <-. eapply clear_corpse; [done|done| |done|done].
    unfold crushable. by rewrite Ew.
  - cbn in E. injection E as <- <-. split; [done|]. split; [done|]. exists a. split; [done|]. by rewrite Ew.
Qed.

(** The loop: all go along, or one is stuck and then nothing has moved. *)
Lemma push_loop_still s0 s1 pusher po move mins maxs t : 0 < pr_edict_size g -> origin_at s0 pusher = Some po ->
  type_at s0 pusher = Some (f32_of_Z MOVETYPE_PUSH) -> still [pusher] s0 s1 -> forall fuel i moved s s',
  came_from s0 moved -> earlier pusher i moved -> still moved.*1 s1 s ->
  push_loop g fuel pusher move mins maxs po t i moved s = Ok s' ->
  (exists n, unhindered pusher move mins maxs n i s s' /\ num_edicts s' <= n /\ origin_at s' pusher = origin_at s1 pusher) \/
  (exists n a s2 s3, unhindered pusher move mins maxs n i s s2 /\ n < num_edicts s2 /\
     carried pusher mins maxs (n * pr_edict_size g) a s2 /\ shoved pusher move (n * pr_edict_size g) s2 s3 /\
     stuck (n * pr_edict_size g) s3 /\ still [] s0 s').
Proof.
  intros Hsz Hpo Hty H1. induction fuel as [|fuel IH]; intros i moved s s' Hm He H E; cbn [push_loop] in E.
  all: destruct (num_edicts s <=? i) eqn:Hi;
    [cbn in E; injection E as <-; left; exists i; split; [constructor|]; split; [lia|]; apply H; intros Hin; by destruct (earlier_in _ _ _ _ He Hin)|].
  { done. }
  apply Z.leb_gt in Hi. cbv zeta in E. set (check := i * pr_edict_size g) in *. apply bind_Ok_inv in E as (a & Ea & E).
  apply ent_at_inv in Ea. apply bind_Ok_inv in E as (w & Ew & E).
  destruct w; cbn [negb] in E.
  2: { assert (e_free a || stays_put a = true \/ in_the_way g s pusher check a mins maxs = Ok false) as Hl
         by (destruct (e_free a || stays_put a); [by left|by right]).
       destruct (IH (i + 1) moved s s' Hm (earlier_next _ _ _ He) H E) as [(n & Hu & Hn)|(n & b & s2 & s3 & Hu & Hn)].
       - left. exists n. split; [by eapply unhindered_left|done].
       - right. exists n, b, s2, s3. split; [by eapply unhindered_left|done]. }
  assert (check ∉ moved.*1) as Hnew.
  { intros Hin. destruct (earlier_in _ _ _ _ He Hin) as (_ & j & Hj & Hjm). unfold check in Hjm. nia. }
  destruct (e_free a || stays_put a) eqn:Hput; [done|]. apply orb_false_iff in Hput as [Hfree Hput].
  assert (check <> pusher) as Hne.
  { intros Hc. destruct (H check) as [Ht _], (H1 check) as [Ht1 _]. unfold type_at in *. rewrite Hc in *. rewrite Ea in Ht.
    rewrite Ht1, Hty in Ht. cbn in Ht. injection Ht as Ht. unfold stays_put, moves_as in Hput. rewrite Ht in Hput.
    replace (f_eqb (f32_of_Z MOVETYPE_PUSH) (f32_of_Z MOVETYPE_PUSH)) with true in Hput by by_vm. done. }
  assert (origin_at s0 check = Some (v_origin a)) as Hfrom.
  { destruct (H1 check) as [_ Ho1], (H check) as [_ Ho]. rewrite <- Ho1, <- Ho by (done || (rewrite list_elem_of_singleton; congruence)).
    unfold origin_at. by rewrite Ea. }
  apply bind_Ok_inv in E as ([blocked s2] & E2 & E).
  assert (still (moved ++ [(check, v_origin a)]).*1 s1 s2) as H2.
  { apply (push_still _ _ pusher check move s blocked); [rewrite fmap_app; apply elem_of_app; right; by left| |exact E2].
    eapply still_weaken; [exact H|]. intros e. rewrite fmap_app, elem_of_app. by left. }
  assert (came_from s0 (moved ++ [(check, v_origin a)])) as Hm2 by (apply Forall_app; split; [done|by constructor]).
  assert (carried pusher mins maxs check a s) as Hc by done.
  destruct (push_entity_spec _ _ _ _ _ _ E2) as (s3 & Hsh & Hb). destruct blocked.
  - destruct Hb as [-> Hst]. right. exists i, a, s, s3. split; [constructor|]. do 4 (split; [done|]).
    apply (block_move_still s0 pusher check (v_origin a) po t (moved ++ [(check, v_origin a)]) s3); [done|done| | |exact E].
    + rewrite fmap_app, elem_of_app. right. by left.
    + eapply still_trans; eapply still_weaken; [exact H1| |exact H2|]; intros e; [|by right].
      intros ->%list_elem_of_singleton. by left.
  - assert (earlier pusher (i + 1) (moved ++ [(check, v_origin a)])) as He2.
    { apply Forall_app. split; [by apply earlier_next|]. constructor; [|done]. split; [done|]. exists i. split; [lia|done]. }
    destruct (IH (i + 1) (moved ++ [(check, v_origin a)]) s2 s' Hm2 He2 H2 E) as [(n & Hu & Hn)|(n & b & s4 & s5 & Hu & Hn)].
    + left. exists n. split; [by eapply unhindered_pushed|done].
    + right. exists n, b, s4, s5. split; [by eapply unhindered_pushed|done].
Qed.

End push.

(** C6: A pusher moves everything in its way, or nothing.  When the functions of the game program move
    nothing and leave the kinds of movement alone, a pusher that is not at rest is first put where its
    velocity takes it in the time given, and linked there.  Then either every entity it carries, one
    after the other, is pushed by [SV_PushEntity] as far as it goes and stands free afterwards, or has
    no width, or is crushed as a corpse or trigger, and the pusher ends at its new place; or one of
    the entities it carries still stands in a solid after its push, and then every entity of the world
    ends exactly where it was: the pusher, what blocks it, and everything already pushed. *)
Theorem SV_PushMove_all_or_nothing g pusher t s p s' :
  (forall f s s', PR_ExecuteProgram g f s = Ok s' -> still [] s s') -> 0 < pr_edict_size g ->
  ents s !! pusher = Some p -> v_movetype p = f32_of_Z MOVETYPE_PUSH -> vec_zero (v_velocity p) = false ->
  SV_PushMove g pusher t s = Ok s' ->
  let move := VectorScale (v_velocity p) t in
  let mins := vec_add (v_absmin p) move in
  let maxs := vec_add (v_absmax p) move in
  let there := set_ltime (f32_add (v_ltime p) t) (set_origin (vec_add (v_origin p) move) p) in
  exists s1, link_ent g pusher false (set_ents (<[pusher := there]> (ents s)) s) = Ok s1 /\
    ((exists n, unhindered g pusher move mins maxs n 1 s1 s' /\ num_edicts s' <= n /\
        origin_at s' pusher = Some (vec_add (v_origin p) move)) \/
     (exists n a s2 s3, unhindered g pusher move mins maxs n 1 s1 s2 /\ n < num_edicts s2 /\
        carried g pusher mins maxs (n * pr_edict_size g) a s2 /\ shoved g pusher move (n * pr_edict_size g) s2 s3 /\
        stuck g (n * pr_edict_size g) s3 /\ forall e, origin_at s' e = origin_at s e)).
Proof.
  intros Hrun Hsz Hp Hty Hv E. unfold SV_PushMove in E. unfold ent_at in E. rewrite Hp in E. cbn [of_option] in E. rewrite bind_Ok, Hv in E.
  cbv zeta in *. apply bind_Ok_inv in E as (s1 & E1 & E). apply bind_Ok_inv in E as (s2 & E2 & E).
  assert (still [pusher] s s1) as H1 by (apply (upd_still g Hrun _ _ _ _ _ _ E1 (still_refl _ _)); intros a; split; [done|right; by left]).
  unfold upd_ent, ent_at in E1. rewrite Hp in E1. cbn in E1. injection E1 as E1. rewrite E1. exists s2. split; [exact E2|].
  assert (origin_at s1 pusher = Some (vec_add (v_origin p) (VectorScale (v_velocity p) t))) as Ho1
    by (rewrite <- E1; unfold origin_at; cbn; by rewrite lookup_insert_eq).
  pose proof (link_still g Hrun [] s1 _ _ _ _ E2 (still_refl _ _)) as H2.
  destruct (push_loop_still g Hrun s s2 pusher (v_origin p) _ _ _ t Hsz
    ltac:(unfold origin_at; by rewrite Hp) ltac:(unfold type_at; rewrite Hp; cbn; by rewrite Hty)
    (still_trans _ _ _ _ H1 (still_weaken _ _ _ _ H2 ltac:(intros e He; by apply not_elem_of_nil in He)))
    _ _ [] s2 s' ltac:(constructor) ltac:(constructor) (still_refl _ _) E) as [(n & Hu & Hn & H)|(n & a & s3 & s4 & Hu & Hn & Hc & Hs & Ht & H)].
  - left. exists n. split; [done|]. split; [done|]. rewrite H. destruct (H2 pusher) as [_ H3]. rewrite H3; [done|apply not_elem_of_nil].
  - right. exists n, a, s3, s4. do 5 (split; [done|]). intros e. apply H. apply not_elem_of_nil.
Qed.

(** * Stuck players *)

(** Entity [e], that is [a], at another place. *)
Definition at_place (e : Z) (a : ent) (p : vec3) (s : wst) : wst := set_ents (<[e := set_origin p a]> (ents s)) s.

Lemma set_origin_id a : set_origin (v_origin a) a = a.
Proof. by destruct a. Qed.
Lemma at_place_twice e a p q s : at_place e (set_origin p a) q (at_place e a p s) = at_place e a q s.
Proof. unfold at_place. destruct s, a. cbn. by rewrite insert_insert_eq. Qed.
Lemma at_place_home e a s : ents s !! e = Some a -> at_place e a (v_origin a) s = s.
Proof. intros H. unfold at_place. rewrite set_origin_id, insert_id by done. by destruct s. Qed.
Lemma move_to e a p q s : upd_ent e (set_origin q) (at_place e a p s) = Ok (at_place e a q s).
Proof.
  unfold upd_ent, ent_at, at_place. cbn [ents set_ents]. rewrite lookup_insert_eq. cbn. f_equal.
  destruct s, a. cbn. by rewrite insert_insert_eq.
Qed.

Lemma last_from (l : list vec3) : forall p q, List.last (q :: l) p = List.last l q.
Proof.
  induction l as [|r l IH]; intros p q; [done|]. change (List.last (q :: r :: l) p) with (List.last (r :: l) p). by rewrite !IH.
Qed.

Section stuck.

Context (g : server) (e : Z) (a : ent) (s : wst) (free : vec3 -> bool).
(** [free] is the test of the position. *)
Definition tested (p : vec3) : Prop := test_position g (at_place e a p s) e = Ok (negb (free p)).

Lemma try_nudges_spec places p : Forall tested places -> try_nudges g e places (at_place e a p s) =
  match List.find free places with
  | Some q => s' ← link_ent g e true (at_place e a q s); mret (true, s')
  | None => mret (false, at_place e a (List.last places p) s)
  end.
Proof.
  revert p. induction places as [|q places IH]; intros p H; cbn [try_nudges List.find]; [done|].
  apply Forall_cons in H as [Hq H]. rewrite move_to, bind_Ok, Hq, bind_Ok, negb_involutive.
  destruct (free q); [done|]. rewrite IH by done. destruct (List.find free places); [done|].
  by rewrite last_from.
Qed.


End stuck.

(** * Concrete worlds *)

(** A floor at height -100, and a platform that is a box of 64 by 64 by 16. *)
Definition platform_hull : hull := SV_HullForBox (vz3 (-48) (-48) (-40)) (vz3 48 48 24).
Definition phys_server (run : Z -> wst -> res wst) (player : Z) : server :=
  Server [None; Some (Model true [demo_hull; demo_hull; demo_hull]); Some (Model true [platform_hull; platform_hull; platform_hull])]
    run (f64_of_Z 10) (f64_frac 1 10) demo_nodes demo_hull player false 1000
    [None; Some (cs "misc/h2ohit1.wav"); Some (cs "demon/dland2.wav")] (f32_of_Z 2000) (f32_of_Z 800) false false
    0 (fun _ => false) 0 0 0 200 (fun _ => f_0) (fun _ => f_1).
Definition demo_server : server := phys_server (fun _ s => Ok s) 0.

Definition still_ent (origin : vec3) (lo hi : vec3) (modelindex solid movetype : Z) : ent :=
  Ent false [] origin lo hi vec0 vec0 (vec_sub hi lo) f_0 (f32_of_Z modelindex) (f32_of_Z solid) (f32_of_Z movetype) 0 0 no_motion.
(** The world, a platform that rises, a monster and a box. *)
Definition phys_ents (monster obstacle : ent) : gmap Z ent :=
  <[0 := still_ent vec0 (vz3 (-4096) (-4096) (-4096)) (vz3 4096 4096 4096) 1 SOLID_BSP MOVETYPE_PUSH]>
  (<[1000 := set_velocity (vz3 0 0 100) (set_nextthink (f32_of_Z 100) (still_ent (vz3 0 0 0) (vz3 (-32) (-32) (-8)) (vz3 32 32 8) 2 SOLID_BSP MOVETYPE_PUSH))]>
  (<[2000 := monster]>
  (<[3000 := obstacle]> ∅))).
Definition phys_link (e : Z) (s : wst) : wst := match link_edict demo_nodes e s with Ok (_, s) => s | _ => s end.
Definition phys_start (es : gmap Z ent) : wst := WS [] 0 ((fun _ => Link 0 0) <$> kmap area es) es 0 0 f_0 f_0 4 demo_datagram.
Definition phys_clear (s : wst) : wst :=
  match SV_ClearWorld (vz3 (-4096) (-4096) (-4096)) (vz3 4096 4096 4096) s with Ok s => s | _ => s end.
Definition phys_world (monster obstacle : ent) : wst :=
  phys_link 3000 (phys_link 2000 (phys_link 1000 (phys_clear (phys_start (phys_ents monster obstacle))))).
(** A monster, and a box on the platform. *)
Definition monster (movetype : Z) (origin : vec3) : ent := still_ent origin (vz3 (-16) (-16) (-24)) (vz3 16 16 32) 0 3 movetype.
Definition free_box : ent := still_ent (vz3 0 0 20) (vz3 (-8) (-8) (-8)) (vz3 8 8 8) 0 2 MOVETYPE_TOSS.
Definition tenth : f32 := f32_of_f64 (f64_frac 1 10).
(** The box is pushed up, or it is stopped by the monster above it. *)
Definition open_world : wst := phys_world (monster MOVETYPE_STEP (vz3 500 0 0)) free_box.
Definition closed_world : wst := phys_world (monster MOVETYPE_STEP (vz3 0 0 56)) free_box.

Example push_open : match SV_PushMove demo_server 1000 tenth open_world with
  | Ok s => origin_at s 1000 = Some (vz3 0 0 10) /\ origin_at s 3000 = Some (vz3 0 0 30)
  | Fault _ => False
  end.
Proof. vm_compute. split; reflexivity. Qed.
Example push_closed : match SV_PushMove demo_server 1000 tenth closed_world with
  | Ok s => origin_at s 1000 = Some (vz3 0 0 0) /\ origin_at s 3000 = Some (vz3 0 0 20)
  | Fault _ => False
  end.
Proof. vm_compute. split; reflexivity. Qed.

(** ** What the code does not intend *)

(** A throw is predicted with a copy of the entity, which collides with the entity itself. *)
Definition thrown : ent := set_velocity (vz3 50 0 10) (still_ent (vz3 300 0 0) (vz3 (-8) (-8) (-8)) (vz3 8 8 8) 0 2 MOVETYPE_TOSS).
Lemma SV_Trace_Toss_self : match SV_Trace_Toss demo_server 40 (-1000) 3000 None (phys_world (monster MOVETYPE_STEP (vz3 500 0 0)) thrown) with
  | Ok tr => t_ent tr = Some 3000 /\ allsolid tr = true
  | Fault _ => False
  end.
Proof. vm_compute. split; reflexivity. Qed.

(** A player stuck in a solid that walks and finds no way out uses a trace that was never written. *)
Definition stuck_player : ent := set_waterlevel f_1 (set_velocity (vz3 10 0 0) (monster MOVETYPE_WALK (vz3 0 0 0))).
Lemma SV_WalkMove_uninitialised : SV_WalkMove (phys_server (fun _ s => Ok s) 2000) 2000 (phys_world stuck_player free_box) =
  Fault (Undefined "SV_WallFriction: the trace is not initialised").
Proof. by vm_compute. Qed.

(** ** The theorems at concrete inputs *)

Lemma phys_ents_keys m o e t : phys_ents m o !! e = Some t -> 0 <= e.
Proof.
  unfold phys_ents. intros H. destruct (decide (e = 0)); [lia|]. destruct (decide (e = 1000)); [lia|].
  destruct (decide (e = 2000)); [lia|]. destruct (decide (e = 3000)); [lia|]. by rewrite !lookup_insert_ne in H by done.
Qed.

Lemma phys_clear_ok es : (forall e t, es !! e = Some t -> 0 <= e) -> in_world (phys_clear (phys_start es)).
Proof.
  intros Hk. destruct (clear_world_ok (vz3 (-4096) (-4096) (-4096)) (vz3 4096 4096 4096) (phys_start es)) as (s & E & _ & _ & Hw).
  - intros e t He. cbn [ents phys_start] in He. split; [by eapply Hk|]. cbn [links phys_start].
    rewrite lookup_fmap, lookup_kmap by (intros x y; unfold area; lia). rewrite He. by eexists.
  - intros a n _ H. cbn [links phys_start] in H. rewrite lookup_fmap in H. destruct (kmap area es !! a); [|done]. cbn in H. congruence.
  - unfold phys_clear. rewrite E. by exists (fresh_lists 31).
Qed.

Lemma phys_link_ok e s : in_world s -> in_world (phys_link e s).
Proof. intros H. unfold phys_link. destruct (link_edict demo_nodes e s) as [[r s']|] eqn:E; [|done]. by eapply world_link. Qed.

Lemma phys_world_ok m o : in_world (phys_world m o).
Proof. unfold phys_world. do 3 apply phys_link_ok. apply phys_clear_ok. intros e t. apply phys_ents_keys. Qed.

Lemma SV_CheckVelocity_bounds_witness : exists a', SV_CheckVelocity demo_server 1000 open_world = Ok (set_ents (<[1000 := a']> (ents open_world)) open_world) /\
  vec_all (within_limit (f32_of_Z 2000)) (v_velocity a').
Proof.
  destruct (ents open_world !! 1000) as [a|] eqn:Ea; [|by vm_compute in Ea].
  destruct (SV_CheckVelocity_bounds demo_server 1000 open_world a Ea) as (a' & E & H & _); [done|by vm_compute|]. exists a'. exact (conj E H).
Defined.

Lemma run_nothing f s s' : PR_ExecuteProgram demo_server f s = Ok s' -> s' = s.
Proof. cbn. congruence. Qed.

Definition fast_monster : ent := set_velocity (vz3 (-5000) 0 (-3000)) (monster MOVETYPE_STEP (vz3 500 0 0)).
Definition fly_world : wst := phys_world fast_monster free_box.
Lemma fly_ok : is_ok (SV_FlyMove demo_server 2000 tenth None fly_world) = true.
Proof. by vm_compute. Qed.
Lemma fly_start : velocity_at fly_world 2000 = Some (vz3 (-5000) 0 (-3000)).
Proof. by vm_compute. Qed.
Lemma run_nothing_velocity f s s' : PR_ExecuteProgram demo_server f s = Ok s' -> velocity_at s' 2000 = velocity_at s 2000.
Proof. intros H. by rewrite (run_nothing _ _ _ H). Qed.
Lemma SV_FlyMove_velocity_witness : exists clip st' s', SV_FlyMove demo_server 2000 tenth None fly_world = Ok (clip, st', s') /\ 0 <= clip <= 7.
Proof.
  destruct (is_ok_ex _ fly_ok) as [[[clip st'] s'] E]. exists clip, st', s'. split; [exact E|].
  exact (proj1 (SV_FlyMove_velocity _ _ _ _ _ _ _ _ _ run_nothing_velocity fly_start E)).
Defined.

Lemma closed_ok : is_ok (SV_PushMove demo_server 1000 tenth closed_world) = true.
Proof. by vm_compute. Qed.
Lemma open_ok : is_ok (SV_PushMove demo_server 1000 tenth open_world) = true.
Proof. by vm_compute. Qed.
Definition place_of (r : res wst) (e : Z) : option vec3 := match r with Ok s => origin_at s e | Fault _ => None end.
Lemma closed_stays : place_of (SV_PushMove demo_server 1000 tenth closed_world) 1000 = Some (vz3 0 0 0).
Proof. by vm_compute. Qed.
Lemma open_goes : place_of (SV_PushMove demo_server 1000 tenth open_world) 1000 <> origin_at open_world 1000.
Proof. by vm_compute. Qed.
Definition rising (p : ent) : Prop := v_movetype p = f32_of_Z MOVETYPE_PUSH /\ v_origin p = vz3 0 0 0 /\ v_velocity p = vz3 0 0 100.
Lemma closed_pusher : exists p, ents closed_world !! 1000 = Some p /\ rising p.
Proof. eexists. split; [by vm_compute|]. by repeat split. Qed.
Lemma open_pusher : exists p, ents open_world !! 1000 = Some p /\ rising p.
Proof. eexists. split; [by vm_compute|]. by repeat split. Qed.
Lemma platform_step : vec_add (vz3 0 0 0) (VectorScale (vz3 0 0 100) tenth) = vz3 0 0 10.
Proof. by vm_compute. Qed.
Lemma run_nothing_still f s s' : PR_ExecuteProgram demo_server f s = Ok s' -> still [] s s'.
Proof. intros H. rewrite (run_nothing _ _ _ H). apply still_refl. Qed.
(** With the monster above the box, the box is stuck and nothing has moved; without it the platform rises. *)
Lemma SV_PushMove_all_or_nothing_witness :
  (exists s' n s3, SV_PushMove demo_server 1000 tenth closed_world = Ok s' /\ stuck demo_server (n * 1000) s3 /\
     forall e, origin_at s' e = origin_at closed_world e) /\
  (exists s', SV_PushMove demo_server 1000 tenth open_world = Ok s' /\ origin_at s' 1000 = Some (vz3 0 0 10)).
Proof.
  split.
  - destruct (is_ok_ex _ closed_ok) as [s' E], closed_pusher as (p & Ep & Ht & Ho & Hv). pose proof closed_stays as Hc. rewrite E in Hc. cbn in Hc.
    assert (vec_zero (v_velocity p) = false) as Hz by (rewrite Hv; by_vm).
    destruct (SV_PushMove_all_or_nothing demo_server 1000 tenth closed_world p s' run_nothing_still eq_refl Ep Ht Hz E)
      as (s1 & _ & [(n & _ & _ & H)|(n & a & s2 & s3 & _ & _ & _ & _ & Hst & H)]).
    + rewrite Hc, Ho, Hv, platform_step in H. discriminate H.
    + exists s', n, s3. split; [exact E|]. split; [exact Hst|exact H].
  - destruct (is_ok_ex _ open_ok) as [s' E], open_pusher as (p & Ep & Ht & Ho & Hv). pose proof open_goes as Hc. rewrite E in Hc. cbn in Hc.
    assert (vec_zero (v_velocity p) = false) as Hz by (rewrite Hv; by_vm).
    destruct (SV_PushMove_all_or_nothing demo_server 1000 tenth open_world p s' run_nothing_still eq_refl Ep Ht Hz E)
      as (s1 & _ & [(n & _ & _ & H)|(n & a & s2 & s3 & _ & _ & _ & _ & _ & H)]).
    + exists s'. split; [exact E|]. rewrite H, Ho, Hv. by rewrite platform_step.
    + destruct (Hc (H 1000)).
Defined.

Lemma frame_ok : is_ok (SV_Physics demo_server open_world) = true.
Proof. by vm_compute. Qed.
Lemma run_nothing_world f s s' : in_world s -> PR_ExecuteProgram demo_server f s = Ok s' -> in_world s'.
Proof. intros Hs H. by rewrite (run_nothing _ _ _ H). Qed.
Lemma SV_Physics_world_witness : exists s' t, SV_Physics demo_server open_world = Ok (s', t) /\ in_world s'.
Proof.
  destruct (is_ok_ex _ frame_ok) as [[s' t] E]. exists s', t. split; [exact E|].
  exact (proj1 (SV_Physics_world demo_server open_world s' t run_nothing_world (phys_world_ok _ _) E)).
Defined.

(** Where the player of [stuck_player] would be free. *)
Definition free_of (e : Z) (a : ent) (s : wst) (p : vec3) : bool :=
  match test_position demo_server (at_place e a p s) e with Ok b => negb b | Fault _ => false end.
Definition stuck_world : wst := phys_world stuck_player free_box.
Definition tests_ok (e : Z) (s : wst) (a : ent) : bool :=
  forallb (fun p => is_ok (test_position demo_server (at_place e a p s) e)) (v_origin a :: v_oldorigin a :: nudges (v_origin a)).
Lemma tests_ok_spec e s a : tests_ok e s a = true ->
  Forall (tested demo_server e a s (free_of e a s)) (v_origin a :: v_oldorigin a :: nudges (v_origin a)).
Proof.
  unfold tests_ok. rewrite forallb_forall. intros H. apply List.Forall_forall. intros p Hp. specialize (H p Hp).
  unfold tested, free_of. destruct (test_position demo_server _ e) as [b|]; [|done]. by rewrite negb_involutive.
Qed.
Lemma stuck_tested : tests_ok 2000 stuck_world <$> ents stuck_world !! 2000 = Some true.
Proof. by vm_compute. Qed.
