(* ===== verification/SvMove.v ===== *)
(** Steps of monsters (Source/sv_move.c, PF_changeyaw of pr_cmds.c).

    The counters [c_yes] and [c_no], which nothing reads, are left out.  [rand] is the generator of
    common.c. *)

From Stdlib Require Import SpecFloat.
From S2P Require Import Prelude CFloat FloatOrder ComMisc SizeBuf SvMessage World Sound Motion Physics.

Section steps.

Context (g : server).

Definition corner (x y : bool) (mins maxs : vec3) (z : f32) : vec3 :=
  Vec (if x then vx maxs else vx mins) (if y then vy maxs else vy mins) z.
Definition corners : list (bool * bool) := [(false, false); (false, true); (true, false); (true, true)].

(** Are all of the points below the corners solid.
    C: Source/sv_move.c:49-56 start *)
Fixpoint solid_corners (cs : list (bool * bool)) (mins maxs : vec3) (z : f32) : res bool :=
  match cs with
  | [] => mret true
  | (x, y) :: cs =>
      c ← contents_at g (corner x y mins maxs z);
      if negb (c =? CONTENTS_SOLID) then mret false else solid_corners cs mins maxs z
  end.
Definition point_move (s : wst) (e : Z) (start stop : vec3) : res trace :=
  SV_Move (sv_models g) (sv_player g) (sv_casper g) s start vec0 vec0 stop 1 (Some e).
(** Is the ground below each corner within a step of the height [mid]; [bottom] is not used.
    C: Source/sv_move.c:79-91 bottom *)
Fixpoint corners_near (cs : list (bool * bool)) (s : wst) (e : Z) (mins maxs : vec3) (z0 z1 mid : f32) : res bool :=
  match cs with
  | [] => mret true
  | (x, y) :: cs =>
      tr ← point_move s e (corner x y mins maxs z0) (corner x y mins maxs z1);
      if f_eqb (fraction tr) f_1 || f_ltb (f32_of_Z STEPSIZE) (f32_sub mid (vz (endpos tr))) then mret false
      else corners_near cs s e mins maxs z0 z1 mid
  end.
(** C: Source/sv_move.c:36-95 SV_CheckBottom *)
Definition SV_CheckBottom (s : wst) (e : Z) : res bool :=
  a ← ent_at s e;
  let mins := vec_add (v_origin a) (v_mins a) in
  let maxs := vec_add (v_origin a) (v_maxs a) in
  all ← solid_corners corners mins maxs (f32_sub (vz mins) f_1);
  if all : bool then mret true
  else
    let half x y := f32_of_f64 (f64_mul (f64_of_f32 (f32_add x y)) f64_half) in
    let z0 := vz mins in
    let z1 := f32_sub z0 (f32_of_Z (2 * STEPSIZE)) in
    let mid z := Vec (half (vx mins) (vx maxs)) (half (vy mins) (vy maxs)) z in
    tr ← point_move s e (mid z0) (mid z1);
    if f_eqb (fraction tr) f_1 then mret false else corners_near corners s e mins maxs z0 z1 (vz (endpos tr)).

(** C: Source/sv_move.c:144-145 relink *)
Definition relink_ent (e : Z) (relink : bool) (s : wst) : res wst := if relink then link_ent g e true s else mret s.

(** The height a flying monster tries to be at.
    C: Source/sv_move.c:128-135 dz *)
Definition towards_enemy (s : wst) (a : ent) (z : f32) : res f32 :=
  en ← ent_at s (v_enemy a);
  let dz := f32_sub (vz (v_origin a)) (vz (v_origin en)) in
  let z := if f_ltb (f32_of_Z 40) dz then f32_sub z (f32_of_Z 8) else z in
  mret (if f_ltb dz (f32_of_Z 30) then f32_add z (f32_of_Z 8) else z).
(** One try of a flying monster; [None] when it is blocked.
    C: Source/sv_move.c:126-147 neworg *)
Definition fly_try (e : Z) (a : ent) (move : vec3) (relink vertical : bool) (s : wst) : res (option (bool * wst)) :=
  let neworg := vec_add (v_origin a) move in
  z ← (if vertical then towards_enemy s a (vz neworg) else mret (vz neworg));
  tr ← move_ent g s a (vset neworg 2 z) 0 e;
  if f_eqb (fraction tr) f_1 then
    left_water ← (if has_flag a FL_SWIM then c ← contents_at g (endpos tr); mret (c =? CONTENTS_EMPTY) else mret false);
    if left_water : bool then mret (Some (false, s))
    else s ← upd_ent e (set_origin (endpos tr)) s; s ← relink_ent e relink s; mret (Some (true, s))
  else mret None.
(** C: Source/sv_move.c:121-154 enemy *)
Definition fly_step (e : Z) (a : ent) (move : vec3) (relink : bool) (s : wst) : res (bool * wst) :=
  let hunts := negb (v_enemy a =? 0) in
  r ← fly_try e a move relink hunts s;
  match r with
  | Some r => mret r
  | None =>
      if hunts then r ← fly_try e a move relink false s; mret (default (false, s) r) else mret (false, s)
  end.

(** The trace down from a step height above the place; [None] when there is no way.
    C: Source/sv_move.c:157-172 trace *)
Definition down_trace (s : wst) (e : Z) (a : ent) (move : vec3) : res (option trace) :=
  let step := f32_of_Z STEPSIZE in
  let neworg := vec_add (v_origin a) move in
  let top := vset neworg 2 (f32_add (vz neworg) step) in
  let stop := vset top 2 (f32_sub (vz top) (f32_of_Z (2 * STEPSIZE))) in
  let from p := SV_Move (sv_models g) (sv_player g) (sv_casper g) s p (v_mins a) (v_maxs a) stop 0 (Some e) in
  tr ← from top;
  if allsolid tr then mret None
  else if startsolid tr then
    tr ← from (vset top 2 (f32_sub (vz top) step));
    mret (if allsolid tr || startsolid tr then None else Some tr)
  else mret (Some tr).

(** C: Source/sv_move.c:108-216 SV_movestep *)
Definition SV_movestep (e : Z) (move : vec3) (relink : bool) (s : wst) : res (bool * wst) :=
  a ← ent_at s e;
  if has_flag a (FL_SWIM .| FL_FLY) then fly_step e a move relink s
  else
    tr ← down_trace s e a move;
    match tr with
    | None => mret (false, s)
    | Some tr =>
        if f_eqb (fraction tr) f_1 then
          if has_flag a FL_PARTIALGROUND then
            s ← upd_ent e (set_origin (vec_add (v_origin a) move)) s;
            s ← relink_ent e relink s;
            s ← upd_ent e (drop_flag FL_ONGROUND) s; mret (true, s)
          else mret (false, s)
        else
          s1 ← upd_ent e (set_origin (endpos tr)) s;
          ok ← SV_CheckBottom s1 e;
          if negb ok then
            if has_flag a FL_PARTIALGROUND then s ← relink_ent e relink s1; mret (true, s)
            else s ← upd_ent e (set_origin (v_origin a)) s1; mret (false, s)
          else
            te ← of_option (Undefined "EDICT_TO_PROG of a null pointer") (t_ent tr);
            s ← upd_ent e (fun a => set_groundentity te (if has_flag a FL_PARTIALGROUND then drop_flag FL_PARTIALGROUND a else a)) s1;
            s ← relink_ent e relink s;
            mret (true, s)
    end.

(** * Directions *)

(** [((360.0 / 65536) * ((int)((a) * (65536 / 360.0)) & 65535))]
    C: Source/mathlib.h:85-85 anglemod *)
Definition anglemod (a : f64) : f64 :=
  f64_mul (f64_div (f64_of_Z 360) (f64_of_Z 65536))
    (f64_of_Z (f_to_int (f64_mul a (f64_div (f64_of_Z 65536) (f64_of_Z 360))) & 65535)).

(** The yaw of an entity that turns towards its ideal yaw.
    C: Source/pr_cmds.c:1356-1385 current *)
Definition turned_yaw (a : ent) : option f32 :=
  let current := f32_of_f64 (anglemod (f64_of_f32 (vy (v_angles a)))) in
  let ideal := v_ideal_yaw a in
  let speed := v_yaw_speed a in
  if f_eqb current ideal then None
  else
    let move := f32_sub ideal current in
    let move :=
      if f_ltb current ideal then (if f_leb (f32_of_Z 180) move then f32_sub move (f32_of_Z 360) else move)
      else (if f_leb move (f32_of_Z (-180)) then f32_add move (f32_of_Z 360) else move) in
    let move :=
      if f_ltb f_0 move then (if f_ltb speed move then speed else move)
      else (if f_ltb move (f32_opp speed) then f32_opp speed else move) in
    Some (f32_of_f64 (anglemod (f64_of_f32 (f32_add current move)))).
(** C: Source/pr_cmds.c:1350-1386 PF_changeyaw *)
Definition PF_changeyaw (s : wst) : res wst :=
  upd_ent (self s) (fun a => match turned_yaw a with Some y => set_angles (vset (v_angles a) 1 y) a | None => a end) s.

(** C: Source/sv_move.c:230-257 SV_StepDirection *)
Definition SV_StepDirection (e : Z) (yaw dist : f32) (s : wst) : res (bool * wst) :=
  s ← upd_ent e (set_ideal_yaw yaw) s;
  s ← PF_changeyaw s;
  let rad := f64_of_f32 (f32_of_f64 (f64_div (f64_mul (f64_mul (f64_of_f32 yaw) M_PI) (f64_of_Z 2)) (f64_of_Z 360))) in
  let along c := f32_of_f64 (f64_mul c (f64_of_f32 dist)) in
  a ← ent_at s e;
  '(ok, s) ← SV_movestep e (Vec (along (c_cos g rad)) (along (c_sin g rad)) f_0) false s;
  s ← (if ok : bool then
         b ← ent_at s e;
         let delta := f32_sub (vy (v_angles b)) (v_ideal_yaw b) in
         if f_ltb (f32_of_Z 45) delta && f_ltb delta (f32_of_Z 315) then upd_ent e (set_origin (v_origin a)) s else mret s
       else mret s);
  s ← link_ent g e true s;
  mret (ok, s).

(** C: Source/sv_move.c:264-269 SV_FixCheckBottom *)
Definition SV_FixCheckBottom (e : Z) : wst -> res wst := upd_ent e (add_flag FL_PARTIALGROUND).

(** C: Source/sv_move.c:276-276 DI_NODIR *)
Definition DI_NODIR : f32 := f32_of_Z (-1).

(** The first of the directions that can be walked; those equal to [turnaround] are left out. *)
Fixpoint try_dirs (e : Z) (turnaround dist : f32) (dirs : list f32) (s : wst) : res (bool * wst) :=
  match dirs with
  | [] => mret (false, s)
  | d :: dirs =>
      if f_eqb d turnaround then try_dirs e turnaround dist dirs s
      else
        '(ok, s) ← SV_StepDirection e d dist s;
        if ok : bool then mret (true, s) else try_dirs e turnaround dist dirs s
  end.

(** The direction along x and along y to an enemy, and [tdir] for both.
    C: Source/sv_move.c:284-297 d *)
Definition dirs_to (a b : ent) : f32 * f32 :=
  let dx := f32_sub (vx (v_origin b)) (vx (v_origin a)) in
  let dy := f32_sub (vy (v_origin b)) (vy (v_origin a)) in
  (if f_ltb (f32_of_Z 10) dx then f_0 else if f_ltb dx (f32_of_Z (-10)) then f32_of_Z 180 else DI_NODIR,
   if f_ltb dy (f32_of_Z (-10)) then f32_of_Z 270 else if f_ltb (f32_of_Z 10) dy then f32_of_Z 90 else DI_NODIR).
Definition is_dir (d : f32) : bool := negb (f_eqb d DI_NODIR).
Definition direct_dir (d1 d2 : f32) : f32 :=
  f32_of_Z (if f_eqb d1 f_0 then (if f_eqb d2 (f32_of_Z 90) then 45 else 315) else (if f_eqb d2 (f32_of_Z 90) then 135 else 215)).
(** [abs] of the truncated difference. *)
Definition abs_int (x : f32) : Z := s32 (Z.abs (f_to_int x)).

(** All directions but the one back, up or down.
    C: Source/sv_move.c:331-341 tdir *)
Definition search_dirs (up : bool) : list f32 :=
  let l := (fun i => f32_of_Z (45 * i)) <$> seqZ 0 8 in if up then l else reverse l.

(** [None] for the direct try when there is none.
    C: Source/sv_move.c:277-353 SV_NewChaseDir *)
Definition SV_NewChaseDir (actor enemy : Z) (dist : f32) (r : rng) (s : wst) : res (rng * wst) :=
  a ← ent_at s actor;
  b ← ent_at s enemy;
  let olddir := f32_of_f64 (anglemod (f64_of_Z (s32 (45 * f_to_int (f32_div (v_ideal_yaw a) (f32_of_Z 45)))))) in
  let turnaround := f32_of_f64 (anglemod (f64_of_f32 (f32_sub olddir (f32_of_Z 180)))) in
  let dx := f32_sub (vx (v_origin b)) (vx (v_origin a)) in
  let dy := f32_sub (vy (v_origin b)) (vy (v_origin a)) in
  let '(d1, d2) := dirs_to a b in
  '(ok, s) ← try_dirs actor turnaround dist (if is_dir d1 && is_dir d2 then [direct_dir d1 d2] else []) s;
  if ok : bool then mret (r, s)
  else
    let '(x, r) := tas_rand r in
    let swap := truth ((x & 3) & 1) || (abs_int dx <? abs_int dy) in
    let '(d1, d2) := if swap then (d2, d1) else (d1, d2) in
    '(ok, s) ← try_dirs actor turnaround dist (filter (fun d => is_dir d = true) [d1; d2]) s;
    if ok : bool then mret (r, s)
    else
      '(ok, s) ← (if is_dir olddir then SV_StepDirection actor olddir dist s else mret (false, s));
      if ok : bool then mret (r, s)
      else
        let '(x, r) := tas_rand r in
        '(ok, s) ← try_dirs actor turnaround dist (search_dirs (truth (x & 1))) s;
        if ok : bool then mret (r, s)
        else
          '(ok, s) ← (if is_dir turnaround then SV_StepDirection actor turnaround dist s else mret (false, s));
          if ok : bool then mret (r, s)
          else
            s ← upd_ent actor (set_ideal_yaw olddir) s;
            bottom ← SV_CheckBottom s actor;
            s ← (if negb bottom then SV_FixCheckBottom actor s else mret s);
            mret (r, s).

(** C: Source/sv_move.c:360-372 SV_CloseEnough *)
Definition SV_CloseEnough (a goal : ent) (dist : f32) : bool :=
  let ok axis := negb (f_ltb (f32_add (vget (v_absmax a) axis) dist) (vget (v_absmin goal) axis)) &&
                 negb (f_ltb (vget (v_absmax goal) axis) (f32_sub (vget (v_absmin a) axis) dist)) in
  ok 0 && ok 1 && ok 2.

(** [dist] is the parameter of the call; the first component says whether 0 is returned to the game
    program (nothing is otherwise).
    C: Source/sv_move.c:379-401 SV_MoveToGoal *)
Definition SV_MoveToGoal (dist : f32) (r : rng) (s : wst) : res (bool * rng * wst) :=
  let e := self s in
  a ← ent_at s e;
  if negb (has_flag a (FL_ONGROUND .| FL_FLY .| FL_SWIM)) then mret (true, r, s)
  else
    close ← (if v_enemy a =? 0 then mret false else goal ← ent_at s (v_goalentity a); mret (SV_CloseEnough a goal dist));
    if close : bool then mret (false, r, s)
    else
      let '(x, r) := tas_rand r in
      '(walked, s) ← (if (x & 3) =? 1 then mret (false, s) else SV_StepDirection e (v_ideal_yaw a) dist s);
      if walked : bool then mret (false, r, s)
      else '(r, s) ← SV_NewChaseDir e (v_goalentity a) dist r s; mret (false, r, s).

End steps.

(** * Steps *)

Section blocked.

Context (g : server).

Lemma fly_try_false e a move relink vertical s s' : fly_try g e a move relink vertical s = Ok (Some (false, s')) -> s' = s.
Proof.
  unfold fly_try. intros E. apply bind_Ok_inv in E as (z & _ & E). apply bind_Ok_inv in E as (tr & _ & E).
  destruct (f_eqb _ _); [|done]. apply bind_Ok_inv in E as (w & _ & E). destruct w; [cbn in E; by injection E as <-|].
  apply bind_Ok_inv in E as (s1 & _ & E). apply bind_Ok_inv in E as (s2 & _ & E). done.
Qed.

Lemma fly_step_false e a move relink s s' : fly_step g e a move relink s = Ok (false, s') -> s' = s.
Proof.
  unfold fly_step. intros E. apply bind_Ok_inv in E as (r & E1 & E). destruct r as [[b s1]|].
  - cbn in E. injection E as -> ->. by apply fly_try_false in E1.
  - destruct (negb _); [|cbn in E; by injection E as <-]. apply bind_Ok_inv in E as (r & E2 & E). cbn in E.
    destruct r as [[b s1]|]; cbn in E; [|by injection E as <-]. injection E as -> ->. by apply fly_try_false in E2.
Qed.

(** C28: A step that is not possible is not made.  Whenever [SV_movestep] returns false, for walking,
    swimming and flying monsters alike, the whole state is exactly what it was before the call: the
    monster is where it was, is linked where it was, and nothing was touched. *)
Theorem SV_movestep_blocked e move relink s s' : SV_movestep g e move relink s = Ok (false, s') -> s' = s.
Proof.
  unfold SV_movestep. intros E. apply bind_Ok_inv in E as (a & Ea & E). destruct (has_flag a _); [by eapply fly_step_false|].
  apply bind_Ok_inv in E as (r & _ & E). destruct r as [tr|]; [|cbn in E; by injection E as <-].
  assert (ents s !! e = Some a) as Ha by (unfold ent_at in Ea; destruct (ents s !! e); cbn in Ea; congruence).
  destruct (f_eqb _ _).
  - destruct (has_flag a _); [|cbn in E; by injection E as <-]. by repeat (apply bind_Ok_inv in E as (? & _ & E)).
  - apply bind_Ok_inv in E as (s1 & E1 & E). apply bind_Ok_inv in E as (ok & _ & E). destruct ok; cbn [negb] in E.
    + by repeat (apply bind_Ok_inv in E as (? & _ & E)).
    + destruct (has_flag a _); [by repeat (apply bind_Ok_inv in E as (? & _ & E))|]. apply bind_Ok_inv in E as (s2 & E2 & E).
      cbn in E. injection E as <-. unfold upd_ent, ent_at in E1. rewrite Ha in E1. cbn in E1. injection E1 as <-.
      pose proof (move_to e a (endpos tr) (v_origin a) s) as Hm. rewrite (at_place_home e a s Ha) in Hm.
      unfold at_place in Hm. rewrite E2 in Hm. congruence.
Qed.

End blocked.

(** * The world stays well formed *)

Section step_invariants.

Context (g : server) (P : wst -> Prop) (HP : preserved g P box_kept).

Lemma relink_keeps e b s : P s -> safe P (relink_ent g e b s).
Proof. intros Hs. unfold relink_ent. keep. Qed.
#[local] Hint Extern 1 (safe _ (relink_ent _ _ _ _)) => (apply relink_keeps; solve [keep_globals]) : keeps.

Definition opt_keeps (r : option (bool * wst)) : Prop := match r with Some r => P r.2 | None => True end.
Lemma fly_try_keeps e a move relink vertical s : P s -> safe opt_keeps (fly_try g e a move relink vertical s).
Proof.
  intros Hs. unfold fly_try. eapply safe_bind; [apply safe_any|]. intros z _. eapply safe_bind; [apply safe_any|]. intros tr _.
  destruct (f_eqb _ _); [|done]. eapply safe_bind; [apply safe_any|]. intros w _. destruct w; [done|]. keep.
Qed.
Lemma fly_step_keeps e a move relink s : P s -> safe (fun r => P r.2) (fly_step g e a move relink s).
Proof.
  intros Hs. unfold fly_step. eapply safe_bind; [by apply fly_try_keeps|]. intros [r|] Hr; [exact Hr|].
  destruct (negb _); [|exact Hs]. eapply safe_bind; [by apply fly_try_keeps|]. intros [r|] Hr'; [exact Hr'|exact Hs].
Qed.
Lemma SV_movestep_keeps e move relink s : P s -> safe (fun r => P r.2) (SV_movestep g e move relink s).
Proof.
  intros Hs. pose proof fly_step_keeps. unfold SV_movestep. keep.
  eapply upd_keeps; [eassumption|done|]. intros a'. by destruct (has_flag a' _).
Qed.
#[local] Hint Extern 1 (safe _ (SV_movestep _ _ _ _ _)) => (apply SV_movestep_keeps; solve [keep_globals]) : keeps.
Lemma PF_changeyaw_keeps s : P s -> safe P (PF_changeyaw s).
Proof. intros Hs. unfold PF_changeyaw. eapply upd_keeps; [eassumption|done|]. intros a. by destruct (turned_yaw a). Qed.
#[local] Hint Extern 1 (safe _ (PF_changeyaw _)) => (apply PF_changeyaw_keeps; solve [keep_globals]) : keeps.
Lemma SV_StepDirection_keeps e yaw dist s : P s -> safe (fun r => P r.2) (SV_StepDirection g e yaw dist s).
Proof. intros Hs. unfold SV_StepDirection. keep. Qed.
#[local] Hint Extern 1 (safe _ (SV_StepDirection _ _ _ _ _)) => (apply SV_StepDirection_keeps; solve [keep_globals]) : keeps.
Lemma try_dirs_keeps e t dist dirs : forall s, P s -> safe (fun r => P r.2) (try_dirs g e t dist dirs s).
Proof. induction dirs as [|d dirs IH]; intros s Hs; cbn [try_dirs]; keep. Qed.
#[local] Hint Extern 1 (safe _ (try_dirs _ _ _ _ _ _)) => (apply try_dirs_keeps; solve [keep_globals]) : keeps.
Lemma SV_NewChaseDir_keeps actor enemy dist r s : P s -> safe (fun r => P r.2) (SV_NewChaseDir g actor enemy dist r s).
Proof. intros Hs. unfold SV_NewChaseDir, SV_FixCheckBottom. keep. Qed.
#[local] Hint Extern 1 (safe _ (SV_NewChaseDir _ _ _ _ _ _)) => (apply SV_NewChaseDir_keeps; solve [keep_globals]) : keeps.
Lemma SV_MoveToGoal_keeps dist r s : P s -> safe (fun r => P r.2) (SV_MoveToGoal g dist r s).
Proof. intros Hs. unfold SV_MoveToGoal. keep. Qed.

End step_invariants.

(** The frame of a monster's step keeps the world well formed: when the functions of the game program
    do, so do walking towards a goal, choosing a new direction and all the steps tried on the way. *)
Theorem SV_MoveToGoal_world g dist r s b r' s' :
  (forall f s s', in_world s -> PR_ExecuteProgram g f s = Ok s' -> in_world s') -> in_world s ->
  SV_MoveToGoal g dist r s = Ok (b, r', s') -> in_world s'.
Proof. intros Hrun Hs E. exact (safe_ok _ _ _ (SV_MoveToGoal_keeps g in_world (world_preserved g Hrun) dist r s Hs) E). Qed.

(** * Concrete monsters *)

(** South-west is 215, not 225. *)
Lemma direct_dirs : (fun p : Z * Z => direct_dir (f32_of_Z p.1) (f32_of_Z p.2)) <$> [(0, 90); (0, 270); (180, 90); (180, 270)] =
  f32_of_Z <$> [45; 315; 135; 215].
Proof. by vm_compute. Qed.

Definition walker : ent := add_flag FL_ONGROUND (monster MOVETYPE_STEP (vz3 500 0 (-75))).
Definition walk_world : wst := phys_world walker free_box.

Definition demo_rng : rng := Rng 1 0 0 0 0.

(** A step on the floor is made, one off the floor is not. *)
Example step_taken : match SV_movestep demo_server 2000 (vz3 16 0 0) true walk_world with
  | Ok (b, s) => b = true /\ vx <$> origin_at s 2000 = Some (f32_of_Z 516)
  | Fault _ => False
  end.
Proof. vm_compute. split; reflexivity. Qed.

Definition ok_with {A} (f : A -> bool) (m : res A) : bool := match m with Ok a => f a | Fault _ => false end.
Lemma ok_with_ex {A} (f : A -> bool) m : ok_with f m = true -> exists a, m = Ok a /\ f a = true.
Proof. destruct m as [a|]; [|done]. by exists a. Qed.

Lemma drop_ok : ok_with (fun r => negb r.1) (SV_movestep demo_server 2000 (vz3 16 0 100) true walk_world) = true.
Proof. by vm_compute. Qed.
Lemma SV_movestep_blocked_witness : exists s', SV_movestep demo_server 2000 (vz3 16 0 100) true walk_world = Ok (false, s') /\ s' = walk_world.
Proof.
  destruct (ok_with_ex _ _ drop_ok) as ([[] s'] & E & Hb); [discriminate|]. exists s'.
  exact (conj E (SV_movestep_blocked demo_server 2000 (vz3 16 0 100) true walk_world s' E)).
Defined.

Lemma goal_ok : is_ok (SV_MoveToGoal demo_server (f32_of_Z 8) demo_rng (set_self 2000 walk_world)) = true.
Proof. by vm_compute. Qed.
Lemma self_world e s : in_world s -> in_world (set_self e s).
Proof. by apply world_same. Qed.
Lemma walk_self_ok : in_world (set_self 2000 walk_world).
Proof. apply self_world, phys_world_ok. Qed.
Lemma SV_MoveToGoal_world_witness : exists b r s', SV_MoveToGoal demo_server (f32_of_Z 8) demo_rng (set_self 2000 walk_world) = Ok (b, r, s') /\ in_world s'.
Proof.
  destruct (is_ok_ex _ goal_ok) as [[[b r] s'] E]. exists b, r, s'. split; [exact E|].
  exact (SV_MoveToGoal_world demo_server (f32_of_Z 8) demo_rng (set_self 2000 walk_world) b r s' run_nothing_world walk_self_ok E).
Defined.
