(* ===== verification/ClInput.v ===== *)
(** The client's input (Source/cl_input.c): buttons, the movement command, and its way to the server.

    [Cmd_Argv] and [Cmd_Argc] are the list of the arguments.  The pitch drift of the view, the hook of
    the tools and the network are parameters. *)

From Stdlib Require Import SpecFloat.
From S2P Require Import Prelude CFloat FloatOrder ComString SizeBuf SvMessage ClParse World DecText Motion SvMove.

(** * Buttons *)

(** C: Source/client.h:329-333 kbutton_t *)
Record kbutton : Type := KB { down0 : Z; down1 : Z; kstate : Z }.

(** The first argument, when it is not empty.
    C: Source/cl_input.c:65-69 k *)
Definition key_arg (c : bytes) : option Z := match c with [] => None | _ => Some (atoi c) end.

(** C: Source/cl_input.c:60-91 KeyDown *)
Definition KeyDown (c : bytes) (b : kbutton) : kbutton :=
  let k := default (-1) (key_arg c) in
  if (k =? down0 b) || (k =? down1 b) then b
  else
    let press b := if has (kstate b) 1 then b else KB (down0 b) (down1 b) (kstate b .| 3) in
    if down0 b =? 0 then press (KB k (down1 b) (kstate b))
    else if down1 b =? 0 then press (KB (down0 b) k (kstate b))
    else b.

(** C: Source/cl_input.c:93-121 KeyUp *)
Definition KeyUp (c : bytes) (b : kbutton) : kbutton :=
  match key_arg c with
  | None => KB 0 0 4
  | Some k =>
      let release b :=
        if negb (down0 b =? 0) || negb (down1 b =? 0) then b
        else if negb (has (kstate b) 1) then b
        else KB (down0 b) (down1 b) ((kstate b & Z.lnot 1) .| 4) in
      if down0 b =? k then release (KB 0 (down1 b) (kstate b))
      else if down1 b =? k then release (KB (down0 b) 0 (kstate b))
      else b
  end.

(** C: Source/cl_input.c:214-236 CL_KeyState *)
Definition CL_KeyState (b : kbutton) : f32 * kbutton :=
  let s := kstate b in
  let quarters n := f32_div (f32_of_Z n) (f32_of_Z 4) in
  let val := match has s 2, has s 4, has s 1 with
             | true, false, true => 2
             | false, false, true => 4
             | true, true, true => 3
             | true, true, false => 1
             | _, _, _ => 0
             end in
  (quarters val, KB (down0 b) (down1 b) (s & 1)).

(** C: Source/cl_input.c:52-56 kbutton_t *)
Inductive button : Type :=
  | in_mlook | in_klook | in_left | in_right | in_forward | in_back | in_lookup | in_lookdown | in_moveleft | in_moveright
  | in_strafe | in_speed | in_use | in_jump | in_attack | in_up | in_down.
#[export] Instance button_eq : EqDecision button.
Proof. solve_decision. Defined.

(** C: Source/client.h:22-30 usercmd_t *)
Record usercmd : Type := UserCmd { forwardmove : f32; sidemove : f32; upmove : f32 }.

(** The buttons, the view angles, the last command, and the ring of messages that wait to be sent.
    C: Source/cl_input.c:356-359 lag_buff *)
Record inst : Type := Inst {
  buttons : button -> kbutton;
  in_impulse : Z;
  viewangles : vec3;
  prev_viewangles : vec3;
  cl_cmd : usercmd;
  lag_buff : list sizebuf;
  lag_sendtime : list f64;
  lag_head : Z;
  lag_tail : Z;
  movemessages : Z
}.
Definition set_buttons (x : button -> kbutton) (s : inst) : inst :=
  Inst x (in_impulse s) (viewangles s) (prev_viewangles s) (cl_cmd s) (lag_buff s) (lag_sendtime s) (lag_head s) (lag_tail s) (movemessages s).
Definition set_in_impulse (x : Z) (s : inst) : inst :=
  Inst (buttons s) x (viewangles s) (prev_viewangles s) (cl_cmd s) (lag_buff s) (lag_sendtime s) (lag_head s) (lag_tail s) (movemessages s).
Definition set_viewangles (x : vec3) (s : inst) : inst :=
  Inst (buttons s) (in_impulse s) x (prev_viewangles s) (cl_cmd s) (lag_buff s) (lag_sendtime s) (lag_head s) (lag_tail s) (movemessages s).
Definition set_lag (buff : list sizebuf) (times : list f64) (head tail messages : Z) (s : inst) : inst :=
  Inst (buttons s) (in_impulse s) (viewangles s) (prev_viewangles s) (cl_cmd s) buff times head tail messages.

Definition upd_button (n : button) (f : kbutton -> kbutton) (s : inst) : inst :=
  set_buttons (fun n' => if decide (n' = n) then f (buttons s n) else buttons s n') s.
Definition is_down (s : inst) (n : button) : bool := has (kstate (buttons s n)) 1.
Definition argv1 (args : list bytes) : bytes := default [] (args !! 1%nat).

(** The commands of a button, [+forward] and [-forward] for example.
    C: Source/cl_input.c:132-162 IN_UpDown *)
Definition IN_Down (n : button) (args : list bytes) : inst -> inst := upd_button n (KeyDown (argv1 args)).
Definition IN_Up (n : button) (args : list bytes) : inst -> inst := upd_button n (KeyUp (argv1 args)).

(** [swims] is what the code asks about the client besides the button.
    C: Source/cl_input.c:164-171 IN_JumpDown *)
Definition IN_JumpDown (cl_smartjump swims : bool) (args : list bytes) (s : inst) : inst :=
  if cl_smartjump && swims && negb (is_down s in_forward) then IN_Down in_up args s else IN_Down in_jump args s.
(** C: Source/cl_input.c:173-178 IN_JumpUp *)
Definition IN_JumpUp (cl_smartjump : bool) (args : list bytes) (s : inst) : inst :=
  IN_Up in_jump args (if cl_smartjump then IN_Up in_up args s else s).
(** C: Source/cl_input.c:180-180 IN_Impulse *)
Definition IN_Impulse (args : list bytes) : inst -> inst := set_in_impulse (Q_atoi (argv1 args)).

(** C: Source/cl_input.c:182-182 weaponstat *)
Definition weaponstat : list nat := [6; 6; 7; 7; 8; 8; 9]%nat.
(** C: Source/cl_input.c:196-196 impulse *)
Definition usable (items : Z) (stats : list Z) (impulse : Z) : bool :=
  (0 <? impulse) && (impulse <? 9) &&
  ((impulse =? 1) ||
   (has items (Z.shiftl 1 (impulse - 2)) &&
    truth (default 0 (k ← weaponstat !! Z.to_nat (impulse - 2); stats !! k)))).
(** The first weapon of the list that can be used.
    C: Source/cl_input.c:189-202 IN_BestWeapon *)
Definition IN_BestWeapon (items : Z) (stats : list Z) (args : list bytes) (s : inst) : inst :=
  match List.find (usable items stats) (Q_atoi <$> drop 1 args) with Some i => set_in_impulse i s | None => s end.

(** * The movement command *)

(** The value of a button, which forgets its impulses. *)
Definition key_state (n : button) (s : inst) : f32 * inst :=
  let '(v, b) := CL_KeyState (buttons s n) in (v, upd_button n (fun _ => b) s).

(** [bound] of common.h. *)
Definition f_bound (a b c : f32) : f32 := if f_leb c a then a else if f_ltb b a then a else if f_ltb c b then c else b.

(** The cvars the movement depends on. *)
Record move_cvars : Type := MoveCvars {
  cl_anglespeedkey : f32; cl_yawspeed : f32; cl_pitchspeed : f32; cl_upspeed : f32; cl_forwardspeed : f32; cl_backspeed : f32;
  cl_sidespeed : f32; cl_movespeedkey : f32
}.

Section input.

Context (c : move_cvars) (host_frametime : f64).

(** [angle +- speed * rate * CL_KeyState (key)] *)
Definition turn_by (add : bool) (axis : Z) (speed rate : f32) (n : button) (s : inst) : inst :=
  let '(v, s) := key_state n s in
  let d := f32_mul (f32_mul speed rate) v in
  let a := vget (viewangles s) axis in
  set_viewangles (vset (viewangles s) axis (if add then f32_add a d else f32_sub a d)) s.

(** The stop of the pitch drift is left out.
    C: Source/cl_input.c:280-310 CL_AdjustAngles *)
Definition CL_AdjustAngles (s : inst) : inst :=
  let speed := if is_down s in_speed then f32_of_f64 (f64_mul host_frametime (f64_of_f32 (cl_anglespeedkey c))) else f32_of_f64 host_frametime in
  let s := if is_down s in_strafe then s
           else
             let s := turn_by true 1 speed (cl_yawspeed c) in_left (turn_by false 1 speed (cl_yawspeed c) in_right s) in
             set_viewangles (vset (viewangles s) 1 (f32_of_f64 (anglemod (f64_of_f32 (vy (viewangles s)))))) s in
  let s := if is_down s in_klook
           then turn_by true 0 speed (cl_pitchspeed c) in_back (turn_by false 0 speed (cl_pitchspeed c) in_forward s) else s in
  let '(up, s) := key_state in_lookup s in
  let '(down, s) := key_state in_lookdown s in
  let rate := f32_mul speed (cl_pitchspeed c) in
  let pitch := f32_add (f32_sub (vx (viewangles s)) (f32_mul rate up)) (f32_mul rate down) in
  set_viewangles (Vec (f_bound (f32_of_Z (-70)) pitch (f32_of_Z 80)) (vy (viewangles s))
                      (f_bound (f32_of_Z (-50)) (vz (viewangles s)) (f32_of_Z 50))) s.

(** [x +- rate * CL_KeyState (key)] *)
Definition move_by (add : bool) (rate : f32) (n : button) (x : f32) (s : inst) : f32 * inst :=
  let '(v, s) := key_state n s in ((if add then f32_add else f32_sub) x (f32_mul rate v), s).

(** C: Source/cl_input.c:319-353 CL_BaseMove *)
Definition CL_BaseMove (signon : Z) (cmd : usercmd) (s : inst) : usercmd * inst :=
  if negb (signon =? SIGNONS) then (cmd, s)
  else
    let s := CL_AdjustAngles s in
    let '(side, s) := if is_down s in_strafe
                      then let '(x, s) := move_by true (cl_sidespeed c) in_right f_0 s in move_by false (cl_sidespeed c) in_left x s
                      else (f_0, s) in
    let '(side, s) := move_by true (cl_sidespeed c) in_moveright side s in
    let '(side, s) := move_by false (cl_sidespeed c) in_moveleft side s in
    let '(up, s) := move_by true (cl_upspeed c) in_up f_0 s in
    let '(up, s) := move_by false (cl_upspeed c) in_down up s in
    let '(forward, s) := if is_down s in_klook then (f_0, s)
                         else let '(x, s) := move_by true (cl_forwardspeed c) in_forward f_0 s in
                              move_by false (cl_backspeed c) in_back x s in
    let k x := if is_down s in_speed then f32_mul x (cl_movespeedkey c) else x in
    (UserCmd (k forward) (k side) (k up), s).

(** * Sending *)

Definition clc_move : Z := 3.

(** The bits of the buttons.
    C: Source/cl_input.c:435-443 bits *)
Definition button_bits (s : inst) : Z :=
  (if has (kstate (buttons s in_attack)) 3 then 1 else 0) .| (if has (kstate (buttons s in_jump)) 3 then 2 else 0).

(** [angle16] says that the server reads angles of 16 bits.
    C: Source/cl_input.c:414-447 MSG_WriteByte *)
Definition write_move (h : endian) (mtime : f32) (angle16 : bool) (angles : vec3) (cmd : usercmd) (bits impulse : Z) (sb : sizebuf) : res sizebuf :=
  let angle := if angle16 then MSG_WriteAngle16 else MSG_WriteAngle in
  sb ← MSG_WriteByte sb clc_move;
  sb ← MSG_WriteFloat h sb mtime;
  sb ← angle sb (vx angles);
  sb ← angle sb (vy angles);
  sb ← angle sb (vz angles);
  sb ← MSG_WriteShort sb (f_to_int (forwardmove cmd));
  sb ← MSG_WriteShort sb (f_to_int (sidemove cmd));
  sb ← MSG_WriteShort sb (f_to_int (upmove cmd));
  sb ← MSG_WriteByte sb bits;
  MSG_WriteByte sb impulse.

Definition clear_impulse (n : button) : inst -> inst := upd_button n (fun b => KB (down0 b) (down1 b) (kstate b & Z.lnot 2)).

(** What the code reads of the connection. *)
Record link_state : Type := LinkState { demoplayback : bool; connected : bool; l_signon : Z; mod_tasquake : bool; mtime : f32; realtime : f64; cl_lag : f32 }.

Context {N : Type} (NET_SendUnreliableMessage : sizebuf -> N -> res (Z * N)) (CL_Disconnect : N -> res N).

Definition slot_at {A} (l : list A) (i : Z) : res A := of_option (Undefined "outside the ring") (l !! Z.to_nat (i & 31)).

(** C: Source/cl_input.c:371-385 lag_tail *)
Fixpoint send_loop (fuel : nat) (realtime : f64) (s : inst) (n : N) : res (inst * N) :=
  if negb (lag_tail s <? lag_head s) then mret (s, n)
  else
    t ← slot_at (lag_sendtime s) (lag_tail s);
    if negb (f_leb t realtime) then mret (s, n)
    else
      match fuel with
      | O => Fault OutOfFuel
      | S fuel =>
          let tail := u32 (lag_tail s + 1) in
          let messages := s32 (movemessages s + 1) in
          if messages <=? 2 then send_loop fuel realtime (set_lag (lag_buff s) (lag_sendtime s) 0 0 messages s) n
          else
            b ← slot_at (lag_buff s) (u32 (tail - 1));
            '(r, n) ← NET_SendUnreliableMessage b n;
            n ← (if r =? -1 then CL_Disconnect n else mret n);
            send_loop fuel realtime (set_lag (lag_buff s) (lag_sendtime s) (lag_head s) tail messages s) n
      end.
(** C: Source/cl_input.c:366-386 CL_SendLagMove *)
Definition CL_SendLagMove (k : link_state) (s : inst) (n : N) : res (inst * N) :=
  if negb (connected k) || negb (l_signon k =? SIGNONS) then mret (s, n)
  else send_loop (Z.to_nat (lag_head s - lag_tail s)) (realtime k) s n.

(** The message in its place of the ring, and the time it is to be sent.
    C: Source/cl_input.c:402-448 buf *)
Definition queue_move (h : endian) (k : link_state) (cmd : usercmd) (s : inst) : res inst :=
  let lag := f_bound f_0 (cl_lag k) (f32_of_Z 1000) in
  let i := Z.to_nat (lag_head s & 31) in
  buf ← slot_at (lag_buff s) (lag_head s);
  buf ← write_move h (mtime k) (negb (demoplayback k) && mod_tasquake k) (viewangles s) cmd (button_bits s) (in_impulse s)
          (SizeBuf (allowoverflow buf) (overflowed buf) (data buf) 128 0);
  let time := f64_add (realtime k) (f64_div (f64_of_f32 lag) (f64_of_Z 1000)) in
  let s := clear_impulse in_jump (clear_impulse in_attack s) in
  mret (Inst (buttons s) 0 (viewangles s) (viewangles s) cmd (<[i := buf]> (lag_buff s)) (<[i := time]> (lag_sendtime s))
             (u32 (lag_head s + 1)) (lag_tail s) (movemessages s)).

(** [hook] is what the tools make of the command.
    C: Source/cl_input.c:393-455 CL_SendMove *)
Definition CL_SendMove (h : endian) (unpaused : bool) (hook : usercmd -> usercmd) (k : link_state) (cmd : usercmd) (s : inst) (n : N) : res (inst * N) :=
  if negb unpaused then mret (s, n)
  else
    s ← queue_move h k (hook cmd) s;
    if demoplayback k then mret (s, n) else CL_SendLagMove k s n.

End input.

(** * Buttons as sets of keys

    What the comment of the code says a button is: the set of the keys that hold it down, at most two,
    and whether it went down or up since it was last read. *)

Record bspec : Type := BSpec { held : gset Z; went_down : bool; went_up : bool }.

Definition spec_press (k : Z) (b : bspec) : bspec :=
  if decide (k = 0 \/ k ∈ held b \/ (2 <= size (held b))%nat) then b
  else BSpec ({[k]} ∪ held b) (went_down b || bool_decide (held b = ∅)) (went_up b).
(** A release without a key is that of all keys, and it forgets that the button went down. *)
Definition spec_release (k : option Z) (b : bspec) : bspec :=
  match k with
  | None => BSpec ∅ false true
  | Some k => BSpec (held b ∖ {[k]}) (went_down b) (went_up b || (bool_decide (held b <> ∅) && bool_decide (held b ∖ {[k]} = ∅)))
  end.
Definition spec_read (b : bspec) : f32 * bspec :=
  (f32_div (f32_of_Z (match went_down b, went_up b, bool_decide (held b <> ∅) with
                      | true, false, true => 2 | false, false, true => 4 | true, true, true => 3 | true, true, false => 1 | _, _, _ => 0
                      end)) (f32_of_Z 4),
   BSpec (held b) false false).

Definition key_set (k : Z) : gset Z := if decide (k = 0) then ∅ else {[k]}.
Definition keys (b : kbutton) : gset Z := key_set (down0 b) ∪ key_set (down1 b).
Definition state_of (down wd wu : bool) : Z := (if down then 1 else 0) + (if wd then 2 else 0) + (if wu then 4 else 0).
(** The button of the code stands for the one of the specification. *)
Definition stands_for (b : kbutton) (p : bspec) : Prop :=
  keys b = held p /\ (down0 b = down1 b -> down0 b = 0) /\ kstate b = state_of (bool_decide (held p <> ∅)) (went_down p) (went_up p).

Lemma state_bits d wd wu : has (state_of d wd wu) 1 = d /\ has (state_of d wd wu) 2 = wd /\ has (state_of d wd wu) 4 = wu /\
  state_of d wd wu .| 3 = state_of true true wu /\ (state_of d wd wu & Z.lnot 1) .| 4 = state_of false wd true /\
  state_of d wd wu & 1 = state_of d false false.
Proof. destruct d, wd, wu; by vm_compute. Qed.

Lemma keys_elem k b : k ∈ keys b <-> k <> 0 /\ (k = down0 b \/ k = down1 b).
Proof. unfold keys, key_set. repeat case_decide; set_solver. Qed.
Lemma keys_empty b : keys b = ∅ <-> down0 b = 0 /\ down1 b = 0.
Proof.
  split.
  - intros H. assert (forall k, k ∉ keys b) as Hn by (rewrite H; set_solver). setoid_rewrite keys_elem in Hn.
    split; [destruct (decide (down0 b = 0)) as [|Hd]; [done|]; destruct (Hn (down0 b)); auto|].
    destruct (decide (down1 b = 0)) as [|Hd]; [done|]. destruct (Hn (down1 b)); auto.
  - intros [H1 H2]. apply elem_of_equiv_empty_L. intros k. rewrite keys_elem. intros [Hk [-> | ->]]; done.
Qed.
Lemma keys_size b : (down0 b = down1 b -> down0 b = 0) -> (2 <= size (keys b))%nat <-> down0 b <> 0 /\ down1 b <> 0.
Proof.
  intros Hd. unfold keys, key_set. repeat case_decide; rewrite ?(left_id_L ∅ (∪)), ?(right_id_L ∅ (∪)), ?size_empty, ?size_singleton; try lia.
  rewrite size_union, !size_singleton by (apply disjoint_singleton_l; rewrite elem_of_singleton; intros ?; tauto). lia.
Qed.

Lemma key_set_zero : key_set 0 = ∅.
Proof. done. Qed.
Lemma key_set_key k : k <> 0 -> key_set k = {[k]}.
Proof. intros H. unfold key_set. by rewrite decide_False. Qed.
Lemma keys_down0 k d1 st : k <> 0 -> keys (KB k d1 st) = {[k]} ∪ keys (KB 0 d1 st).
Proof. intros H. unfold keys. cbn [down0 down1]. by rewrite key_set_zero, union_empty_l_L, key_set_key. Qed.
Lemma keys_down1 k d0 st : k <> 0 -> keys (KB d0 k st) = {[k]} ∪ keys (KB d0 0 st).
Proof. intros H. unfold keys. cbn [down0 down1]. by rewrite key_set_zero, union_empty_r_L, (key_set_key k H), union_comm_L. Qed.

(** The state after a press and after a release. *)
Lemma press_state (H : gset Z) k wd wu : let st := state_of (bool_decide (H <> ∅)) wd wu in
  (if has st 1 then st else st .| 3) = state_of (bool_decide ({[k]} ∪ H <> ∅)) (wd || bool_decide (H = ∅)) wu.
Proof.
  intros st. destruct (state_bits (bool_decide (H <> ∅)) wd wu) as (B1 & _ & _ & B3 & _). subst st. rewrite B1, B3.
  rewrite (bool_decide_eq_true_2 ({[k]} ∪ H <> ∅)) by set_solver. destruct (decide (H = ∅)) as [E|E].
  - by rewrite (bool_decide_eq_false_2 (H <> ∅)), (bool_decide_eq_true_2 (H = ∅)), orb_true_r by auto.
  - by rewrite (bool_decide_eq_true_2 (H <> ∅)), (bool_decide_eq_false_2 (H = ∅)), orb_false_r by auto.
Qed.

Lemma KeyDown_spec c b p : stands_for b p -> stands_for (KeyDown c b) (spec_press (default (-1) (key_arg c)) p).
Proof.
  destruct b as [d0 d1 st], p as [H wd wu]. intros (Hk & Hd & Hs). unfold KeyDown, spec_press.
  set (k := default (-1) (key_arg c)). cbv zeta.
  pose proof (keys_elem k (KB d0 d1 st)) as Hin. pose proof (keys_size _ Hd) as Hsz. rewrite Hk in Hin, Hsz.
  pose proof (press_state H k wd wu) as Hst. cbn in Hk, Hd, Hs, Hin, Hsz, Hst |- *. subst st.
  destruct (Z.eqb_spec k d0) as [E0|E0], (Z.eqb_spec k d1) as [E1|E1]; cbn [orb];
    try (rewrite decide_True by (destruct (decide (k = 0)); tauto); done).
  destruct (Z.eqb_spec d0 0) as [Z0|Z0]; [|destruct (Z.eqb_spec d1 0) as [Z1|Z1]].
  - subst d0. rewrite decide_False by tauto. split; [|split].
    + etrans; [|exact (f_equal (fun x => {[k]} ∪ x) Hk)]. rewrite <- keys_down0 by done. by destruct (has _ 1).
    + destruct (has _ 1); cbn; tauto.
    + cbn [held went_down went_up]. rewrite <- Hst. by destruct (has _ 1).
  - subst d1. rewrite decide_False by tauto. split; [|split].
    + etrans; [|exact (f_equal (fun x => {[k]} ∪ x) Hk)]. rewrite <- keys_down1 by done. by destruct (has _ 1).
    + destruct (has _ 1); cbn; intros Hx; by destruct E0.
    + cbn [held went_down went_up]. rewrite <- Hst. by destruct (has _ 1).
  - rewrite decide_True by tauto. done.
Qed.

(** The state when the last key is released, and when it is not. *)
Lemma release_state (H : gset Z) k wd wu : k ∈ H -> let st := state_of (bool_decide (H <> ∅)) wd wu in
  let released := wu || (bool_decide (H <> ∅) && bool_decide (H ∖ {[k]} = ∅)) in
  (if bool_decide (H ∖ {[k]} <> ∅) then st else if negb (has st 1) then st else (st & Z.lnot 1) .| 4) =
  state_of (bool_decide (H ∖ {[k]} <> ∅)) wd released.
Proof.
  intros Hk st released. assert (H <> ∅) as Hn by set_solver. subst st released. rewrite (bool_decide_eq_true_2 (H <> ∅)) by done.
  destruct (state_bits true wd wu) as (B1 & _ & _ & _ & B4 & _). destruct (decide (H ∖ {[k]} = ∅)) as [E|E].
  - rewrite (bool_decide_eq_false_2 (H ∖ {[k]} <> ∅)), (bool_decide_eq_true_2 (H ∖ {[k]} = ∅)) by auto. by rewrite B1, B4, orb_true_r.
  - rewrite (bool_decide_eq_true_2 (H ∖ {[k]} <> ∅)), (bool_decide_eq_false_2 (H ∖ {[k]} = ∅)) by auto. by rewrite andb_false_r, orb_false_r.
Qed.

Lemma keys_released b k : (down0 b = down1 b -> down0 b = 0) -> k <> 0 -> down0 b = k \/ down1 b = k ->
  keys (if down0 b =? k then KB 0 (down1 b) (kstate b) else KB (down0 b) 0 (kstate b)) = keys b ∖ {[k]}.
Proof.
  intros Hd Hk0 Hor. apply set_eq. intros x. rewrite elem_of_difference, elem_of_singleton, !keys_elem.
  destruct (Z.eqb_spec (down0 b) k) as [E|E]; cbn; split; intros H; destruct Hor; intuition (try congruence; try lia).
Qed.

Lemma KeyUp_spec c b p : stands_for b p -> key_arg c <> Some 0 -> stands_for (KeyUp c b) (spec_release (key_arg c) p).
Proof.
  intros (Hk & Hd & Hs) Hc. unfold KeyUp, spec_release. destruct (key_arg c) as [k|]; [|done].
  assert (k <> 0) as Hk0 by congruence. destruct p as [H wd wu]. cbn [held went_down went_up] in *.
  pose proof (keys_elem k b) as Hin. rewrite Hk in Hin.
  destruct (decide (down0 b = k \/ down1 b = k)) as [Hor|Hno].
  - pose proof (keys_released b k Hd Hk0 Hor) as Hr. rewrite Hk in Hr.
    pose proof (release_state H k wd wu ltac:(apply Hin; intuition congruence)) as Hst. rewrite <- Hs in Hst.
    set (b' := if down0 b =? k then KB 0 (down1 b) (kstate b) else KB (down0 b) 0 (kstate b)) in *.
    assert (kstate b' = kstate b) as Es by (unfold b'; by destruct (_ =? _)).
    assert (down0 b' = down1 b' -> down0 b' = 0) as Hd' by (unfold b'; destruct (_ =? _); cbn; lia).
    pose proof (keys_empty b') as He. rewrite Hr in He.
    assert ((if down0 b =? k then _ else if down1 b =? k then _ else b) =
      (if negb (down0 b' =? 0) || negb (down1 b' =? 0) then b' else if negb (has (kstate b') 1) then b'
       else KB (down0 b') (down1 b') ((kstate b' & Z.lnot 1) .| 4))) as ->.
    { unfold b'. destruct (Z.eqb_spec (down0 b) k); [done|]. destruct (Z.eqb_spec (down1 b) k); [done|tauto]. }
    assert (negb (down0 b' =? 0) || negb (down1 b' =? 0) = bool_decide (H ∖ {[k]} <> ∅)) as ->.
    { destruct (Z.eqb_spec (down0 b') 0), (Z.eqb_spec (down1 b') 0); symmetry;
        [apply bool_decide_eq_false_2|apply bool_decide_eq_true_2..]; tauto. }
    assert (forall B : bool, let r := (if B then b' else if negb (has (kstate b') 1) then b' else KB (down0 b') (down1 b') ((kstate b' & Z.lnot 1) .| 4)) in
      keys r = keys b' /\ down0 r = down0 b' /\ down1 r = down1 b' /\
      kstate r = if B then kstate b' else if negb (has (kstate b') 1) then kstate b' else (kstate b' & Z.lnot 1) .| 4) as Hsame
      by (intros []; cbv zeta; [done|by destruct (negb _)]).
    destruct (Hsame (bool_decide (H ∖ {[k]} <> ∅))) as (S1 & S2 & S3 & S4). split; [by rewrite S1|]. split; [by rewrite S2, S3|].
    cbn [held went_down went_up]. by rewrite S4, Es, <- Hst.
  - destruct (Z.eqb_spec (down0 b) k); [tauto|]. destruct (Z.eqb_spec (down1 b) k); [tauto|].
    assert (k ∉ H) as Hnk by (rewrite Hin; intuition congruence). assert (H ∖ {[k]} = H) as -> by set_solver. split; [done|]. split; [done|].
    rewrite Hs. f_equal. cbn. destruct (decide (H = ∅)); [rewrite (bool_decide_eq_false_2 (H <> ∅)) by auto|rewrite (bool_decide_eq_false_2 (H = ∅)) by auto];
      by rewrite ?andb_false_r, orb_false_r.
Qed.

Lemma CL_KeyState_spec b p : stands_for b p -> (CL_KeyState b).1 = (spec_read p).1 /\ stands_for (CL_KeyState b).2 (spec_read p).2.
Proof.
  destruct b as [d0 d1 st], p as [H wd wu]. intros (Hk & Hd & Hs). unfold CL_KeyState, spec_read. cbn in *. subst st.
  destruct (state_bits (bool_decide (H <> ∅)) wd wu) as (B1 & B2 & B3 & _ & _ & B5). rewrite B1, B2, B3, B5.
  split; [by destruct wd, wu, (bool_decide _)|]. split; [exact Hk|]. split; [exact Hd|done].
Qed.

(** What happens to a button. *)
Inductive bevent : Type := Pressed (c : bytes) | Released (c : bytes) | Read.
Fixpoint run_button (evs : list bevent) (b : kbutton) : list f32 * kbutton :=
  match evs with
  | [] => ([], b)
  | Pressed c :: evs => run_button evs (KeyDown c b)
  | Released c :: evs => run_button evs (KeyUp c b)
  | Read :: evs => let '(v, b) := CL_KeyState b in let '(vs, b) := run_button evs b in (v :: vs, b)
  end.
Fixpoint run_spec (evs : list bevent) (p : bspec) : list f32 * bspec :=
  match evs with
  | [] => ([], p)
  | Pressed c :: evs => run_spec evs (spec_press (default (-1) (key_arg c)) p)
  | Released c :: evs => run_spec evs (spec_release (key_arg c) p)
  | Read :: evs => let '(v, p) := spec_read p in let '(vs, p) := run_spec evs p in (v :: vs, p)
  end.
(** Key 0 is no key. *)
Definition event_ok (e : bevent) : Prop := match e with Released c => key_arg c <> Some 0 | _ => True end.

(** C16: A button is the set of the keys that hold it.  Through any sequence of presses, releases and
    readings, by any keys and in any order, the numbers of the code stand for the set of at most two
    keys that hold the button down and for whether it went down or up since the last reading; every
    reading gives the quarters the comment of the code promises: released only when the last key is,
    a repeated press counts once, a third key does not count. *)
Theorem button_refines evs : forall b p, stands_for b p -> Forall event_ok evs ->
  (run_button evs b).1 = (run_spec evs p).1 /\ stands_for (run_button evs b).2 (run_spec evs p).2.
Proof.
  induction evs as [|e evs IH]; intros b p Hb Hev; [done|]. apply Forall_cons in Hev as [He Hev]. destruct e as [c|c|]; cbn [run_button run_spec].
  - by apply IH; [apply KeyDown_spec|].
  - by apply IH; [apply KeyUp_spec|].
  - destruct (CL_KeyState_spec b p Hb) as [Hv Hb']. destruct (CL_KeyState b) as [v b'], (spec_read p) as [v' p']. cbn in Hv, Hb'. subst v'.
    destruct (IH b' p' Hb' Hev) as [H1 H2]. destruct (run_button evs b'), (run_spec evs p'). cbn in *. by subst.
Qed.

(** * Angles *)

Lemma f_bound_spec a b c : not_nan a -> not_nan b -> not_nan c -> f_ltb a c = true -> let r := f_bound a b c in
  f_leb a r = true /\ f_leb r c = true.
Proof.
  intros Ha Hb Hc Hac r. subst r. unfold f_bound. rewrite (f_leb_ltb c a), Hac by done. cbn [negb].
  assert (f_leb a c = true) as Hle by (rewrite f_leb_ltb by done; by rewrite f_ltb_asym).
  destruct (f_ltb b a) eqn:E1; [split; [by apply f_leb_refl|done]|]. destruct (f_ltb c b) eqn:E2; [split; [done|by apply f_leb_refl]|].
  by rewrite !f_leb_ltb, E1, E2 by done.
Qed.

(** The view stays within its limits.  After [CL_AdjustAngles] the pitch is from -70 to 80 and the roll
    from -50 to 50, whatever the buttons, the speeds and the angles before, unless it is not a number
    at all. *)
Theorem CL_AdjustAngles_bounds c frametime s :
  let a := viewangles (CL_AdjustAngles c frametime s) in
  (not_nan (vx a) -> f_leb (f32_of_Z (-70)) (vx a) = true /\ f_leb (vx a) (f32_of_Z 80) = true) /\
  (not_nan (vz a) -> f_leb (f32_of_Z (-50)) (vz a) = true /\ f_leb (vz a) (f32_of_Z 50) = true).
Proof.
  unfold CL_AdjustAngles. destruct (key_state in_lookup _) as [up s1]. destruct (key_state in_lookdown s1) as [down s2].
  cbv zeta. cbn [viewangles set_viewangles vx vz]. set (x := f32_add _ _). set (z := vz _).
  assert (forall a b c, f_leb c a = false -> not_nan (f_bound a b c) -> not_nan b) as Hn.
  { intros a b d Had. unfold f_bound. rewrite Had. destruct (f_ltb b a) eqn:E1; [intros _; by destruct (f_ltb_not_nan _ _ E1)|].
    destruct (f_ltb d b) eqn:E2; [intros _; by destruct (f_ltb_not_nan _ _ E2)|done]. }
  split; intros H; apply f_bound_spec; try done; eapply Hn; try exact H; by vm_compute.
Qed.

(** * The queue of messages *)

(** The message at place [i] of the ring, and when it is to be sent. *)
Definition waiting_at (s : inst) (i : Z) : option (f64 * sizebuf) :=
  t ← lag_sendtime s !! Z.to_nat (i & 31); b ← lag_buff s !! Z.to_nat (i & 31); Some (t, b).
(** [q] are the messages that wait, the oldest first. *)
Definition queue_is (s : inst) (q : list (f64 * sizebuf)) : Prop :=
  length (lag_buff s) = 32%nat /\ length (lag_sendtime s) = 32%nat /\ 0 <= lag_tail s /\
  lag_head s = lag_tail s + zlen q /\ lag_head s < 4294967295 /\ zlen q <= 32 /\
  forall i m, q !! i = Some m -> waiting_at s (lag_tail s + Z.of_nat i) = Some m.

Lemma ring_index i : Z.to_nat (i & 31) = Z.to_nat (i `mod` 32).
Proof. change 31 with (Z.ones 5). by rewrite Z.land_ones by lia. Qed.
Lemma ring_bound i : (Z.to_nat (i & 31) < 32)%nat.
Proof. rewrite ring_index. pose proof (Z.mod_pos_bound i 32). lia. Qed.
(** Different places of the queue are different places of the ring. *)
Lemma ring_apart a b : a < b < a + 32 -> Z.to_nat (a & 31) <> Z.to_nat (b & 31).
Proof.
  intros H. rewrite !ring_index. pose proof (Z.mod_pos_bound a 32). pose proof (Z.mod_pos_bound b 32).
  pose proof (Z.div_mod a 32). pose proof (Z.div_mod b 32). intros E. assert (b `mod` 32 = a `mod` 32) by lia.
  assert (b - a = 32 * (b / 32 - a / 32)) by lia. lia.
Qed.

Lemma slot_ok {A} (l : list A) i x : l !! Z.to_nat (i & 31) = Some x -> slot_at l i = Ok x.
Proof. intros H. unfold slot_at. by rewrite H. Qed.

(** A message is added at the end. *)
Lemma queue_push s s' q t b : queue_is s q -> zlen q < 32 -> lag_head s < 4294967294 ->
  lag_buff s' = <[Z.to_nat (lag_head s & 31) := b]> (lag_buff s) -> lag_sendtime s' = <[Z.to_nat (lag_head s & 31) := t]> (lag_sendtime s) ->
  lag_head s' = u32 (lag_head s + 1) -> lag_tail s' = lag_tail s -> queue_is s' (q ++ [(t, b)]).
Proof.
  intros (H1 & H2 & H3 & H4 & H5 & H6 & H7) Hq Hh Eb Et Eh Etl. unfold queue_is, u32 in *. rewrite Eb, Et, Eh, Etl, !length_insert, length_app.
  rewrite Z.mod_small by lia. cbn [length]. split; [done|]. split; [done|]. split; [done|]. split; [lia|]. split; [lia|]. split; [lia|].
  intros i m Hm. unfold waiting_at. rewrite Eb, Et. apply lookup_app_Some in Hm as [Hm|[Hi Hm]].
  - pose proof (lookup_lt_Some _ _ _ Hm). rewrite !list_lookup_insert_ne by (rewrite H4; intros E; symmetry in E; revert E; apply ring_apart; lia).
    exact (H7 i m Hm).
  - apply list_lookup_singleton_Some in Hm as [Hi0 <-]. replace (lag_tail s + Z.of_nat i) with (lag_head s) by lia.
    pose proof (ring_bound (lag_head s)). rewrite !list_lookup_insert_eq by lia. done.
Qed.

Section queue.

Context {N : Type} (send : sizebuf -> N -> res (Z * N)) (disconnect : N -> res N).

(** The messages are sent one after the other; a failure disconnects. *)
Fixpoint send_all (q : list (f64 * sizebuf)) (n : N) : res N :=
  match q with
  | [] => mret n
  | (_, b) :: q => '(r, n) ← send b n; n ← (if r =? -1 then disconnect n else mret n); send_all q n
  end.
(** The messages whose time has come: the longest prefix of them. *)
Fixpoint due (now : f64) (q : list (f64 * sizebuf)) : nat :=
  match q with (t, _) :: q => if f_leb t now then S (due now q) else O | [] => O end.

Lemma send_loop_queue now q : forall s n fuel, queue_is s q -> 2 <= movemessages s -> movemessages s + zlen q < 2000000000 -> (length q <= fuel)%nat -> exists s',
  send_loop send disconnect fuel now s n = (n ← send_all (take (due now q) q) n; mret (s', n)) /\
  queue_is s' (drop (due now q) q) /\ movemessages s' = movemessages s + Z.of_nat (due now q).
Proof.
  induction q as [|[t b] q IH]; intros s n fuel Hq Hm Hmax Hf.
  - exists s. destruct (Hq) as (_ & _ & _ & Hh & _). cbn [length] in Hh. split; [|split; [done|cbn; lia]].
    destruct fuel; cbn [send_loop]; assert (lag_tail s <? lag_head s = false) as -> by lia; done.
  - destruct (Hq) as (H1 & H2 & H3 & H4 & H5 & H6 & H7). cbn [length] in *. destruct fuel as [|fuel]; [lia|]. cbn [send_loop].
    assert (lag_tail s <? lag_head s = true) as -> by lia. cbn [negb].
    pose proof (H7 0%nat _ eq_refl) as H0. rewrite Z.add_0_r in H0. unfold waiting_at in H0.
    destruct (lag_sendtime s !! _) as [t'|] eqn:Et; [|done]. destruct (lag_buff s !! _) as [b'|] eqn:Eb; [|done]. cbn in H0. injection H0 as -> ->.
    rewrite (slot_ok _ _ _ Et), bind_Ok. cbn [due]. destruct (f_leb t now); cbn [negb]; [|by exists s; cbn; rewrite Z.add_0_r].
    assert (u32 (lag_tail s + 1) = lag_tail s + 1) as Etail by (unfold u32; apply Z.mod_small; lia).
    assert (u32 (lag_tail s + 1 - 1) = lag_tail s) as Eprev by (unfold u32; rewrite Z.mod_small; lia).
    assert (s32 (movemessages s + 1) = movemessages s + 1) as Emsg by (unfold s32; rewrite Z.mod_small; lia).
    rewrite Etail, Emsg. cbv zeta. assert (movemessages s + 1 <=? 2 = false) as -> by lia. rewrite Eprev, (slot_ok _ _ _ Eb), bind_Ok.
    set (s1 := set_lag (lag_buff s) (lag_sendtime s) (lag_head s) (lag_tail s + 1) (movemessages s + 1) s).
    assert (queue_is s1 q) as Hq1.
    { unfold queue_is. cbn. split; [done|]. split; [done|]. split; [lia|]. split; [lia|]. split; [done|]. split; [lia|].
      intros i m Hi. pose proof (H7 (S i) m Hi) as Hw. replace (lag_tail s + Z.of_nat (S i)) with (lag_tail s + 1 + Z.of_nat i) in Hw by lia. exact Hw. }
    destruct (send b n) as [[r n1]|] eqn:Es.
    + destruct (if r =? -1 then disconnect n1 else mret n1) as [n2|] eqn:Ed.
      * destruct (IH s1 n2 fuel Hq1 ltac:(cbn; lia) ltac:(cbn; lia) ltac:(lia)) as (s' & E & Hq' & Hm'). exists s'. split; [|split; [exact Hq'|rewrite Hm'; unfold s1; cbn [movemessages set_lag]; lia]].
        cbn [take send_all]. rewrite Es, !bind_Ok, Ed, !bind_Ok. exact E.
      * destruct (IH s1 n1 fuel Hq1 ltac:(cbn; lia) ltac:(cbn; lia) ltac:(lia)) as (s' & _ & Hq' & Hm'). exists s'. split; [|split; [exact Hq'|rewrite Hm'; unfold s1; cbn [movemessages set_lag]; lia]].
        cbn [take send_all]. by rewrite Es, !bind_Ok, Ed.
    + destruct (IH s1 n fuel Hq1 ltac:(cbn; lia) ltac:(cbn; lia) ltac:(lia)) as (s' & _ & Hq' & Hm'). exists s'. split; [|split; [exact Hq'|rewrite Hm'; unfold s1; cbn [movemessages set_lag]; lia]].
      cbn [take send_all]. by rewrite Es.
Qed.

(** The first two moves of a level are not sent, and empty the ring. *)
Lemma send_loop_fresh now q s n fuel : queue_is s q -> 0 <= movemessages s < 2 -> (length q <= fuel)%nat -> exists s',
  send_loop send disconnect fuel now s n = Ok (s', n) /\
  queue_is s' (if decide (due now q = 0%nat) then q else []) /\ movemessages s' = movemessages s + Z.of_nat (min 1 (due now q)).
Proof.
  intros Hq Hm Hf. destruct (Hq) as (H1 & H2 & H3 & H4 & H5 & H6 & H7). destruct q as [|[t b] q]; cbn [length due] in *.
  - exists s. split; [destruct fuel; cbn [send_loop]; assert (lag_tail s <? lag_head s = false) as -> by lia; done|]. split; [done|cbn; lia].
  - destruct fuel as [|fuel]; [lia|]. cbn [send_loop]. assert (lag_tail s <? lag_head s = true) as -> by lia. cbn [negb].
    pose proof (H7 0%nat _ eq_refl) as H0. rewrite Z.add_0_r in H0. unfold waiting_at in H0.
    destruct (lag_sendtime s !! _) as [t'|] eqn:Et; [|done]. destruct (lag_buff s !! _) as [b'|] eqn:Eb; [|done]. cbn in H0. injection H0 as -> ->.
    rewrite (slot_ok _ _ _ Et), bind_Ok. destruct (f_leb t now); cbn [negb]; [|exists s; cbn [decide]; rewrite decide_True by done; split; [done|split; [done|cbn; lia]]].
    assert (s32 (movemessages s + 1) = movemessages s + 1) as -> by (unfold s32; rewrite Z.mod_small; lia). cbv zeta.
    assert (movemessages s + 1 <=? 2 = true) as -> by lia. eexists. split; [by destruct fuel|]. rewrite decide_False by lia.
    split; [|cbn; lia]. unfold queue_is. cbn. do 6 (split; [done|]). intros i m Hi. by rewrite lookup_nil in Hi.
Qed.

End queue.

(** ** What a message of the ring holds *)

Definition angle16_int (x : f32) : Z := Q_rint (f64_div (f64_mul (f64_of_f32 x) (f64_of_Z 65536)) (f64_of_Z 360)) & 65535.
Definition view_field (a16 : bool) (x : f32) : field := if a16 then FShort (s16 (angle16_int x)) else FChar (angle_int x).
Definition move_fields (t : f32) (a16 : bool) (angles : vec3) (cmd : usercmd) (bits impulse : Z) : list field :=
  [FFloat t] ++ [view_field a16 (vx angles)] ++ [view_field a16 (vy angles)] ++ [view_field a16 (vz angles)] ++
  [FShort (s16 (f_to_int (forwardmove cmd)))] ++ [FShort (s16 (f_to_int (sidemove cmd)))] ++ [FShort (s16 (f_to_int (upmove cmd)))] ++
  [FByte (u8 bits)] ++ [FByte (u8 impulse)].


Lemma view_write h (a16 : bool) x sb : (if a16 then MSG_WriteAngle16 else MSG_WriteAngle) sb x = write_field h sb (view_field a16 x).
Proof. destruct a16; [apply (short_field h)|apply angle_field]. Qed.
Lemma write_move_fields h t a16 angles cmd bits impulse sb :
  write_move h t a16 angles cmd bits impulse sb = write_fields h sb (FByte (u8 clc_move) :: move_fields t a16 angles cmd bits impulse).
Proof.
  unfold write_move, move_fields. change (FByte (u8 clc_move) :: ?l) with ([FByte (u8 clc_move)] ++ l).
  apply write_step; [apply write_one, byte_field|]. clear sb. intros sb.
  apply write_step; [by apply write_one|]. clear sb. intros sb.
  do 3 (apply write_step; [apply write_one, view_write|]; clear sb; intros sb).
  do 3 (apply write_step; [apply write_one, short_field|]; clear sb; intros sb).
  apply write_step; [apply write_one, byte_field|]. clear sb. intros sb. apply write_one, byte_field.
Qed.


Lemma move_fields_size t a16 angles cmd bits impulse : zlen (fields_bytes (FByte (u8 clc_move) :: move_fields t a16 angles cmd bits impulse)) <= 19.
Proof. by destruct a16. Qed.

(** The time the new message is to be sent. *)
Definition lag_time (k : link_state) : f64 := f64_add (realtime k) (f64_div (f64_of_f32 (f_bound f_0 (cl_lag k) (f32_of_Z 1000))) (f64_of_Z 1000)).

Lemma queue_move_spec h k cmd s q : queue_is s q -> zlen q < 32 -> lag_head s < 4294967294 -> Forall (fun b => 128 <= zlen (data b)) (lag_buff s) -> exists b s',
  queue_move h k cmd s = Ok s' /\ queue_is s' (q ++ [(lag_time k, b)]) /\ movemessages s' = movemessages s /\ in_impulse s' = 0 /\
  contents b = fields_bytes (FByte (u8 clc_move) ::
    move_fields (mtime k) (negb (demoplayback k) && mod_tasquake k) (viewangles s) cmd (button_bits s) (in_impulse s)).
Proof.
  intros Hq Hlen Hhead Hbufs. destruct (Hq) as (Hl & _). unfold queue_move.
  destruct (lookup_lt_is_Some_2 (lag_buff s) (Z.to_nat (lag_head s & 31))) as [buf Hbuf]; [rewrite Hl; apply ring_bound|].
  rewrite (slot_ok _ _ _ Hbuf), bind_Ok, write_move_fields. set (fs := FByte (u8 clc_move) :: _).
  pose proof (Forall_lookup_1 _ _ _ _ Hbufs Hbuf) as Hdata. cbn beta in Hdata. pose proof (move_fields_size (mtime k) (negb (demoplayback k) && mod_tasquake k) (viewangles s) cmd (button_bits s) (in_impulse s)) as Hsize. fold fs in Hsize.
  destruct (write_fields_spec h fs (SizeBuf (allowoverflow buf) (overflowed buf) (data buf) 128 0)) as (b & -> & _ & Hc).
  { split; cbn; lia. }
  { cbn [cursize maxsize]. lia. }
  rewrite bind_Ok. exists b. eexists. split; [done|]. split; [|done]. by eapply queue_push.
Qed.

(** Moves are sent by a client that is connected and signed on, and not from a demo. *)
Definition may_send (k : link_state) : bool := negb (demoplayback k) && connected k && (l_signon k =? SIGNONS).

(** C21: The moves go out in order, each when its time has come.  With less than 32 messages waiting,
    [CL_SendMove], called while the tools do not pause the game, puts the new move at the end of the
    ring, to be sent after the delay of the cvar [cl_lag] (not more than a second).  A client that is
    connected, signed on and not playing a demo then sends the longest run of the oldest messages that
    are due, each once and in order, disconnecting at a failure; the others keep waiting.  For the
    first two moves that come due in a level ([movemessages] below 2) it sends nothing instead, and
    forgets everything that waits.  Any other client only queues the move.  The ring of 32 places
    and its two counters are this queue, while the 32-bit counters have not wrapped around and the
    buffers of the ring have their 128 bytes. *)
Theorem CL_SendMove_queue {N : Type} (send : sizebuf -> N -> res (Z * N)) disconnect h hook k cmd s n q :
  queue_is s q -> zlen q < 32 -> lag_head s < 4294967294 -> Forall (fun b => 128 <= zlen (data b)) (lag_buff s) ->
  0 <= movemessages s < 1000000000 -> exists b s',
  contents b = fields_bytes (FByte (u8 clc_move) ::
    move_fields (mtime k) (negb (demoplayback k) && mod_tasquake k) (viewangles s) (hook cmd) (button_bits s) (in_impulse s)) /\
  let waiting := q ++ [(lag_time k, b)] in
  let ready := if may_send k then due (realtime k) waiting else O in
  if movemessages s <? 2 then
    CL_SendMove send disconnect h true hook k cmd s n = Ok (s', n) /\
    queue_is s' (if decide (ready = O) then waiting else []) /\ movemessages s' = movemessages s + Z.of_nat (min 1 ready)
  else
    CL_SendMove send disconnect h true hook k cmd s n = (n ← send_all send disconnect (take ready waiting) n; mret (s', n)) /\
    queue_is s' (drop ready waiting) /\ movemessages s' = movemessages s + Z.of_nat ready.
Proof.
  intros Hq Hlen Hhead Hbufs Hm. destruct (queue_move_spec h k (hook cmd) s q) as (b & s1 & E & Hq1 & Hm1 & _ & Hc); [done..|].
  exists b. pose proof Hq1 as (_ & _ & _ & Hh1 & _). set (q1 := q ++ [(lag_time k, b)]) in *.
  assert (zlen q1 = zlen q + 1) as Hl1 by (unfold q1; rewrite length_app; cbn; lia).
  assert (CL_SendMove send disconnect h true hook k cmd s n =
    if may_send k then send_loop send disconnect (Z.to_nat (lag_head s1 - lag_tail s1)) (realtime k) s1 n else Ok (s1, n)) as ->.
  { unfold CL_SendMove, CL_SendLagMove, may_send. rewrite E. cbn [negb]. rewrite bind_Ok.
    destruct (demoplayback k), (connected k), (l_signon k =? SIGNONS); done. }
  destruct (may_send k); cbv zeta.
  2: { exists s1. split; [exact Hc|]. destruct (movemessages s <? 2); [rewrite decide_True by done|]; (split; [done|]; split; [exact Hq1|cbn; lia]). }
  destruct (movemessages s <? 2) eqn:Hf.
  - destruct (send_loop_fresh send disconnect (realtime k) q1 s1 n (Z.to_nat (lag_head s1 - lag_tail s1)) Hq1) as (s' & E' & Hq' & Hm'); [lia|lia|].
    exists s'. split; [exact Hc|]. rewrite <- Hm1. done.
  - destruct (send_loop_queue send disconnect (realtime k) q1 s1 n (Z.to_nat (lag_head s1 - lag_tail s1)) Hq1) as (s' & E' & Hq' & Hm'); [lia|lia|lia|].
    exists s'. split; [exact Hc|]. rewrite <- Hm1. done.
Qed.

(** ** The theorems at concrete inputs *)

Definition two_keys : list bevent := [Pressed (cs "119"); Pressed (cs "119"); Pressed (cs "128"); Released (cs "119"); Read; Pressed (cs "3"); Released (cs "128"); Read].
Lemma button_refines_witness : (run_button two_keys (KB 0 0 0)).1 = (run_spec two_keys (BSpec ∅ false false)).1 /\
  stands_for (run_button two_keys (KB 0 0 0)).2 (run_spec two_keys (BSpec ∅ false false)).2.
Proof.
  apply (button_refines two_keys); [split; [by vm_compute|done]|]. repeat constructor; by vm_compute.
Defined.

(** Two messages wait, sent at 50 and 60, with [messages] moves before. *)
Definition old_move (x : Z) : sizebuf := SizeBuf false false (x :: replicate 127 0) 128 1.
Definition busy_input (messages : Z) : inst :=
  Inst (fun _ => KB 0 0 0) 7 vec0 vec0 (UserCmd f_0 f_0 f_0)
    (replicate 8 (SizeBuf false false (replicate 128 0) 128 0) ++ [old_move 1; old_move 2] ++ replicate 22 (SizeBuf false false (replicate 128 0) 128 0))
    (replicate 8 (f64_of_Z 0) ++ [f64_of_Z 50; f64_of_Z 60] ++ replicate 22 (f64_of_Z 0)) 42 40 messages.
Definition busy_queue : list (f64 * sizebuf) := [(f64_of_Z 50, old_move 1); (f64_of_Z 60, old_move 2)].
Definition demo_link : link_state := LinkState false true 4 true (f32_of_Z 5) (f64_of_Z 100) (f32_of_Z 50).
Lemma busy_queue_is messages : queue_is (busy_input messages) busy_queue.
Proof.
  unfold queue_is. do 6 (split; [by vm_compute|]). intros i m Hi. destruct i as [|[|i]]; [injection Hi as <-|injection Hi as <-|discriminate]; by vm_compute.
Qed.
Lemma busy_room messages : Forall (fun b => 128 <= zlen (data b)) (lag_buff (busy_input messages)).
Proof. apply (bool_decide_unpack _). by vm_compute. Qed.
Lemma due_busy b : due (realtime demo_link) (busy_queue ++ [(lag_time demo_link, b)]) = 2%nat.
Proof. by vm_compute. Qed.

(** The two messages are sent and the new one waits; or they come first in their level. *)
Lemma CL_SendMove_queue_witness :
  (exists b s', CL_SendMove (fun b n => Ok (1, b :: n)) Ok LittleEndian true id demo_link (UserCmd (f32_of_Z 200) f_0 f_0) (busy_input 9) [] =
     Ok (s', [old_move 2; old_move 1]) /\ queue_is s' [(lag_time demo_link, b)]) /\
  (exists s', CL_SendMove (fun b n => Ok (1, b :: n)) Ok LittleEndian true id demo_link (UserCmd (f32_of_Z 200) f_0 f_0) (busy_input 0) [] =
     Ok (s', []) /\ queue_is s' []).
Proof.
  split.
  - destruct (CL_SendMove_queue (fun b n => Ok (1, b :: n)) Ok LittleEndian id demo_link (UserCmd (f32_of_Z 200) f_0 f_0) (busy_input 9) [] busy_queue)
      as (b & s' & _ & H); [apply busy_queue_is|by vm_compute|by vm_compute|apply busy_room|by vm_compute|].
    change (may_send demo_link) with true in H. cbv zeta iota in H. rewrite due_busy in H. destruct H as (E & Hq & _). exists b, s'. exact (conj E Hq).
  - destruct (CL_SendMove_queue (fun b n => Ok (1, b :: n)) Ok LittleEndian id demo_link (UserCmd (f32_of_Z 200) f_0 f_0) (busy_input 0) [] busy_queue)
      as (b & s' & _ & H); [apply busy_queue_is|by vm_compute|by vm_compute|apply busy_room|by vm_compute|].
    change (may_send demo_link) with true in H. cbv zeta iota in H. rewrite due_busy in H. destruct H as (E & Hq & _). exists s'. exact (conj E Hq).
Defined.
