(* ===== verification/SvUser.v ===== *)
(** Players on the server (Source/sv_user.c): what a player's command does to the player, and the
    messages of the clients.

    The commands a message runs ([Cmd_ExecuteString]) and the connection are parameters; messages on
    the console are left out. *)

From Stdlib Require Import SpecFloat.
From S2P Require Import Prelude CFloat FloatOrder SizeBuf Cvar SvMessage ClParse World Sound Motion Physics SvMove ClInput.

(** * Movement *)

(** The cvars that rule the movement of players. *)
Record user_cvars : Type := UserCvars {
  sv_friction : f32; sv_edgefriction : f32; sv_stopspeed : f32; sv_maxspeed : f32; sv_accelerate : f32; sv_idealpitchscale : f32;
  cl_rollspeed : f32; cl_rollangle : f32
}.

Definition f_sqrt (x : f32) : f32 := f32_of_f64 (SFsqrt 53 1024 (f64_of_f32 x)).
(** C: Source/mathlib.c:267-273 VectorLength *)
Definition VectorLength (v : vec3) : f32 := f_sqrt (dot v v).
(** The length, and the vector of length 1.
    C: Source/mathlib.c:275-286 VectorNormalize *)
Definition VectorNormalize (v : vec3) : f32 * vec3 :=
  let len := f_sqrt (dot v v) in (len, if f_truth len then VectorScale v (f32_div f_1 len) else v).

Section user.

Context (g : server) (c : user_cvars).
Definition player (s : wst) : res ent := ent_at s (sv_player g).
Definition upd_player (f : ent -> ent) : wst -> res wst := upd_ent (sv_player g) f.
(** A product with [host_frametime]. *)
Definition per_frame (x : f32) : f64 := f64_mul (f64_of_f32 x) (host_frametime g).

(** The heights of the ground ahead; [None] at a wall or a drop.
    C: Source/sv_user.c:65-84 z *)
Fixpoint ground_ahead (places : list Z) (a : ent) (sinval cosval : f32) (s : wst) : res (option (list f32)) :=
  match places with
  | [] => mret (Some [])
  | i :: places =>
      let away o c := f32_add o (f32_mul (f32_mul c (f32_of_Z (i + 3))) (f32_of_Z 12)) in
      let top := Vec (away (vx (v_origin a)) cosval) (away (vy (v_origin a)) sinval) (f32_add (vz (v_origin a)) (vz (v_view_ofs a))) in
      let bottom := vset top 2 (f32_sub (vz top) (f32_of_Z 160)) in
      tr ← point_move g s (sv_player g) top bottom;
      if allsolid tr || f_eqb (fraction tr) f_1 then mret None
      else
        zs ← ground_ahead places a sinval cosval s;
        mret (zs' ← zs; Some (f32_add (vz top) (f32_mul (fraction tr) (f32_sub (vz bottom) (vz top))) :: zs'))
  end.
Definition ON_EPSILON : f64 := f64_frac 1 10.
Definition about_zero (n : Z) : bool := f_ltb (SFopp ON_EPSILON) (f64_of_Z n) && f_ltb (f64_of_Z n) ON_EPSILON.
(** The direction of the slope and the number of steps; [None] when the changes are mixed.
    C: Source/sv_user.c:86-99 step *)
Fixpoint slope (prev : f32) (zs : list f32) (dir steps : Z) : option (Z * Z) :=
  match zs with
  | [] => Some (dir, steps)
  | z :: zs =>
      let step := f_to_int (f32_sub z prev) in
      if about_zero step then slope z zs dir steps
      else if truth dir && (f_ltb ON_EPSILON (f64_of_Z (step - dir)) || f_ltb (f64_of_Z (step - dir)) (SFopp ON_EPSILON)) then None
      else slope z zs step (steps + 1)
  end.
(** C: Source/sv_user.c:53-111 SV_SetIdealPitch *)
Definition SV_SetIdealPitch (s : wst) : res wst :=
  a ← player s;
  if negb (has_flag a FL_ONGROUND) then mret s
  else
    let angle := f64_of_f32 (f32_of_f64 (f64_div (f64_mul (f64_mul (f64_of_f32 (vy (v_angles a))) M_PI) (f64_of_Z 2)) (f64_of_Z 360))) in
    zs ← ground_ahead (seqZ 0 6) a (f32_of_f64 (c_sin g angle)) (f32_of_f64 (c_cos g angle)) s;
    match zs with
    | Some (z :: zs) =>
        match slope z zs 0 0 with
        | None => mret s
        | Some (dir, steps) =>
            if dir =? 0 then upd_player (set_idealpitch f_0) s
            else if steps <? 2 then mret s
            else upd_player (set_idealpitch (f32_mul (f32_of_Z (- dir)) (sv_idealpitchscale c))) s
        end
    | _ => mret s
    end.

(** C: Source/sv_user.c:119-155 SV_UserFriction *)
Definition SV_UserFriction (s : wst) : res wst :=
  a ← player s;
  let vel := v_velocity a in
  let speed := f_sqrt (f32_add (f32_mul (vx vel) (vx vel)) (f32_mul (vy vel) (vy vel))) in
  if negb (f_truth speed) then mret s
  else
    let ahead o v := f32_add o (f32_mul (f32_div v speed) (f32_of_Z 16)) in
    let start := Vec (ahead (vx (v_origin a)) (vx vel)) (ahead (vy (v_origin a)) (vy vel)) (f32_add (vz (v_origin a)) (vz (v_mins a))) in
    tr ← point_move g s (sv_player g) start (vset start 2 (f32_sub (vz start) (f32_of_Z 34)));
    let friction := if f_eqb (fraction tr) f_1 then f32_mul (sv_friction c) (sv_edgefriction c) else sv_friction c in
    let control := if f_ltb speed (sv_stopspeed c) then sv_stopspeed c else speed in
    let newspeed := f32_of_f64 (f64_sub (f64_of_f32 speed) (f64_mul (per_frame control) (f64_of_f32 friction))) in
    let newspeed := f32_div (if f_ltb newspeed f_0 then f_0 else newspeed) speed in
    upd_player (set_velocity (VectorScale vel newspeed)) s.

(** The velocity after a push of at most [addspeed] along [dir].
    C: Source/sv_user.c:169-178 accelspeed *)
Definition accelerate (addspeed : f32) (accelspeed : f64) (dir vel : vec3) : vec3 :=
  if f_leb addspeed f_0 then vel
  else
    let a := f32_of_f64 accelspeed in
    let a := if f_ltb addspeed a then addspeed else a in
    VectorMA vel a dir.
(** C: Source/sv_user.c:164-179 SV_Accelerate *)
Definition SV_Accelerate (wishdir : vec3) (wishspeed : f32) (s : wst) : res wst :=
  a ← player s;
  let vel := v_velocity a in
  upd_player (set_velocity (accelerate (f32_sub wishspeed (dot vel wishdir))
    (f64_mul (per_frame (sv_accelerate c)) (f64_of_f32 wishspeed)) wishdir vel)) s.
(** [wishspeed] is the global, of which only 30 count for the speed wished.
    C: Source/sv_user.c:181-200 SV_AirAccelerate *)
Definition SV_AirAccelerate (wishveloc : vec3) (wishspeed : f32) (s : wst) : res wst :=
  a ← player s;
  let vel := v_velocity a in
  let '(len, dir) := VectorNormalize wishveloc in
  let wishspd := if f_ltb (f32_of_Z 30) len then f32_of_Z 30 else len in
  upd_player (set_velocity (accelerate (f32_sub wishspd (dot vel dir)) (per_frame (f32_mul (sv_accelerate c) wishspeed)) dir vel)) s.

(** [stopped] is [tas_gamestate == paused && simulating == false].
    C: Source/sv_user.c:202-216 DropPunchAngle *)
Definition DropPunchAngle (stopped : bool) (s : wst) : res wst :=
  if stopped then mret s
  else
    a ← player s;
    let '(len, dir) := VectorNormalize (v_punchangle a) in
    let len := f32_of_f64 (f64_sub (f64_of_f32 len) (f64_mul (f64_of_Z 10) (host_frametime g))) in
    upd_player (set_punchangle (VectorScale dir (if f_ltb len f_0 then f_0 else len))) s.

(** [forward * f + right * r] *)
Definition wish (fwd rt : vec3) (f r : f32) : vec3 :=
  let w x y := f32_add (f32_mul x f) (f32_mul y r) in Vec (w (vx fwd) (vx rt)) (w (vy fwd) (vy rt)) (w (vz fwd) (vz rt)).
(** Not more than [sv_maxspeed].
    C: Source/sv_user.c:240-245 wishspeed *)
Definition cap_speed (wishspeed : f32) (v : vec3) : f32 * vec3 :=
  if f_ltb (sv_maxspeed c) wishspeed then (sv_maxspeed c, VectorScale v (f32_div (sv_maxspeed c) wishspeed)) else (wishspeed, v).

(** C: Source/sv_user.c:223-277 SV_WaterMove *)
Definition SV_WaterMove (cmd : usercmd) (s : wst) : res wst :=
  a ← player s;
  let '(fwd, rt, _) := AngleVectors g (v_v_angle a) in
  let wishvel := wish fwd rt (forwardmove cmd) (sidemove cmd) in
  let idle := negb (f_truth (forwardmove cmd)) && negb (f_truth (sidemove cmd)) && negb (f_truth (upmove cmd)) in
  let wishvel := vset wishvel 2 (if idle then f32_sub (vz wishvel) (f32_of_Z 60) else f32_add (vz wishvel) (upmove cmd)) in
  let '(wishspeed, wishvel) := cap_speed (VectorLength wishvel) wishvel in
  let wishspeed := f32_of_f64 (f64_mul (f64_of_f32 wishspeed) (f64_frac 7 10)) in
  let vel := v_velocity a in
  let speed := VectorLength vel in
  let slowed := f32_of_f64 (f64_sub (f64_of_f32 speed) (f64_mul (f64_mul (host_frametime g) (f64_of_f32 speed)) (f64_of_f32 (sv_friction c)))) in
  let '(newspeed, vel) :=
    if f_truth speed then let n := (if f_ltb slowed f_0 then f_0 else slowed) in (n, VectorScale vel (f32_div n speed)) else (f_0, vel) in
  s ← upd_player (set_velocity vel) s;
  if negb (f_truth wishspeed) then mret s
  else
    upd_player (set_velocity (accelerate (f32_sub wishspeed newspeed) (per_frame (f32_mul (sv_accelerate c) wishspeed)) (VectorNormalize wishvel).2 vel)) s.

(** C: Source/sv_user.c:279-288 SV_WaterJump *)
Definition SV_WaterJump (s : wst) : res wst :=
  a ← player s;
  let done := f_ltb (f64_of_f32 (v_teleport_time a)) (sv_time g) || negb (f_truth (v_waterlevel a)) in
  s ← (if done then upd_player (fun a => set_teleport_time f_0 (drop_flag FL_WATERJUMP a)) s else mret s);
  upd_player (fun a => set_velocity (Vec (vx (v_movedir a)) (vy (v_movedir a)) (vz (v_velocity a))) a) s.

(** C: Source/sv_user.c:295-339 SV_AirMove *)
Definition SV_AirMove (cmd : usercmd) (onground : bool) (s : wst) : res wst :=
  a ← player s;
  let '(fwd, rt, _) := AngleVectors g (v_angles a) in
  let fmove := if f_ltb (sv_time g) (f64_of_f32 (v_teleport_time a)) && f_ltb (forwardmove cmd) f_0 then f_0 else forwardmove cmd in
  let wishvel := vset (wish fwd rt fmove (sidemove cmd)) 2
                   (if f_to_int (v_movetype a) =? MOVETYPE_WALK then f_0 else upmove cmd) in
  let '(len, wishdir) := VectorNormalize wishvel in
  let '(wishspeed, wishvel) := cap_speed len wishvel in
  if moves_as a MOVETYPE_NOCLIP then upd_player (set_velocity wishvel) s
  else if onground then s ← SV_UserFriction s; SV_Accelerate wishdir wishspeed s
  else SV_AirAccelerate wishvel wishspeed s.

(** C: Source/view.c:117-129 V_CalcRoll *)
Definition V_CalcRoll (angles velocity : vec3) : f32 :=
  let '(_, rt, _) := AngleVectors g angles in
  let side := dot velocity rt in
  let sign := if f_ltb side f_0 then f32_of_Z (-1) else f_1 in
  let side := SFabs side in
  f32_mul (if f_ltb side (cl_rollspeed c) then f32_div (f32_mul side (cl_rollangle c)) (cl_rollspeed c) else cl_rollangle c) sign.

(** [running] is [tas_gamestate == unpaused || simulating].
    C: Source/sv_user.c:349-393 SV_ClientThink *)
Definition SV_ClientThink (running stopped : bool) (cmd : usercmd) (s : wst) : res wst :=
  a ← player s;
  if moves_as a MOVETYPE_NONE || negb running then mret s
  else
    let onground := has_flag a FL_ONGROUND in
    s ← DropPunchAngle stopped s;
    a ← player s;
    if f_leb (v_health a) f_0 then mret s
    else
      let v_angle := vec_add (v_v_angle a) (v_punchangle a) in
      let angles := vset (v_angles a) 2 (f32_mul (V_CalcRoll (v_angles a) (v_velocity a)) (f32_of_Z 4)) in
      let angles := if f_truth (v_fixangle a) then angles
                    else Vec (f32_div (f32_opp (vx v_angle)) (f32_of_Z 3)) (vy v_angle) (vz angles) in
      s ← upd_player (set_angles angles) s;
      if has_flag a FL_WATERJUMP then SV_WaterJump s
      else if f_leb (f32_of_Z 2) (v_waterlevel a) && negb (moves_as a MOVETYPE_NOCLIP) then SV_WaterMove cmd s
      else SV_AirMove cmd onground s.

End user.

(** * Messages *)

(** [client_mod] says that the client sends angles of 16 bits.
    C: Source/server.h:79-116 client_t *)
Record client : Type := Client {
  is_active : bool; is_spawned : bool; client_mod : bool; client_edict : Z; client_cmd : usercmd; ping_times : list f32; num_pings : Z
}.
Definition set_client_cmd (x : usercmd) (p : client) : client :=
  Client (is_active p) (is_spawned p) (client_mod p) (client_edict p) x (ping_times p) (num_pings p).

(** C: Source/server.h:76-76 NUM_PING_TIMES *)
Definition NUM_PING_TIMES : Z := 16.
(** C: Source/protocol.h:142-146 clc_nop *)
Definition clc_nop : Z := 1.
Definition clc_disconnect : Z := 2.
Definition clc_stringcmd : Z := 4.

(** What the messages of the clients change: the clients ([svs.clients]), the message that is read,
    the world, [sv_player], and the network with all the rest. *)
Record svs {N : Type} : Type := Svs { clients : list client; message : msgstate; world : wst; host_player : Z; net : N }.
Arguments svs : clear implicits.
Definition set_clients {N} (x : list client) (s : svs N) : svs N := Svs N x (message s) (world s) (host_player s) (net s).
Definition set_message {N} (x : msgstate) (s : svs N) : svs N := Svs N (clients s) x (world s) (host_player s) (net s).
Definition set_world {N} (x : wst) (s : svs N) : svs N := Svs N (clients s) (message s) x (host_player s) (net s).
Definition set_host_player {N} (x : Z) (s : svs N) : svs N := Svs N (clients s) (message s) (world s) x (net s).

Definition client_at {N} (k : nat) (s : svs N) : res client := of_option (Undefined "no such client") (clients s !! k).
Definition put_client {N} (k : nat) (p : client) (s : svs N) : svs N := set_clients (<[k := p]> (clients s)) s.

(** C: Source/sv_user.c:405-407 ping_times *)
Definition add_ping (x : f32) (p : client) : res client :=
  let i := Z.rem (num_pings p) NUM_PING_TIMES in
  if i <? 0 then Fault (Undefined "outside ping_times")
  else mret (Client (is_active p) (is_spawned p) (client_mod p) (client_edict p) (client_cmd p) (<[Z.to_nat i := x]> (ping_times p)) (s32 (num_pings p + 1))).

(** C: Source/sv_user.c:400-435 SV_ReadClientMove *)
Definition SV_ReadClientMove (h : endian) (sv_time : f64) (p : client) (m : msgstate) (s : wst) : res (client * msgstate * wst) :=
  '(t, m) ← MSG_ReadFloat h m;
  p ← add_ping (f32_of_f64 (f64_sub sv_time (f64_of_f32 t))) p;
  let angle := if client_mod p then MSG_ReadAngle16 else MSG_ReadAngle in
  '(a0, m) ← angle m;
  '(a1, m) ← angle m;
  '(a2, m) ← angle m;
  s ← upd_ent (client_edict p) (set_v_angle (Vec a0 a1 a2)) s;
  '(f, m) ← MSG_ReadShort m;
  '(r, m) ← MSG_ReadShort m;
  '(u, m) ← MSG_ReadShort m;
  '(bits, m) ← MSG_ReadByte m;
  s ← upd_ent (client_edict p) (fun a => set_button2 (f32_of_Z ((bits & 2) >> 1)) (set_button0 (f32_of_Z (bits & 1)) a)) s;
  '(i, m) ← MSG_ReadByte m;
  s ← (if truth i then upd_ent (client_edict p) (set_impulse (f32_of_Z i)) s else mret s);
  mret (set_client_cmd (UserCmd (f32_of_Z f) (f32_of_Z r) (f32_of_Z u)) p, m, s).

(** Only the beginning of the command counts.
    C: Source/sv_user.c:490-514 Q_strncasecmp *)
Definition allowed_commands : list bytes :=
  cs <$> ["status"; "name"; "say"; "say_team"; "tell"; "color"; "kill"; "pause"; "spawn"; "begin"; "prespawn"; "kick"; "ping"; "ban";
          "god"; "notarget"; "fly"; "give"; "noclip"; "max"; "monster"; "scrag"; "gimme"; "wraith"].
Definition allowed (s : bytes) : bool := existsb (fun c => strcaseprefix c s) allowed_commands.

(** How the commands of a message end. *)
Inductive ending : Type := NextMessage | KillClient.

Section messages.

Context (h : endian) (sv_time : f64) {N : Type}.
Context (NET_GetMessage : nat -> N -> res (Z * sizebuf * N)) (Cmd_ExecuteString : nat -> bytes -> svs N -> res (svs N)).

(** The commands of one message of the client [k].
    C: Source/sv_user.c:462-532 cmd *)
Fixpoint client_commands (fuel : nat) (k : nat) (s : svs N) : res (ending * svs N) :=
  match fuel with
  | O => Fault OutOfFuel
  | S fuel =>
      p ← client_at k s;
      if negb (is_active p) then mret (KillClient, s)
      else if msg_badread (message s) then mret (KillClient, s)
      else
        '(cmd, m) ← MSG_ReadChar (message s);
        let s := set_message m s in
        if cmd =? -1 then mret (NextMessage, s)
        else if cmd =? clc_nop then client_commands fuel k s
        else if cmd =? clc_stringcmd then
          '(str, m) ← MSG_ReadString (message s);
          let s := set_message m s in
          s ← (if allowed str then Cmd_ExecuteString k str s else mret s);
          client_commands fuel k s
        else if cmd =? clc_disconnect then mret (KillClient, s)
        else if cmd =? clc_move then
          '(p, m, w) ← SV_ReadClientMove h sv_time p (message s) (world s);
          client_commands fuel k (put_client k p (set_message m (set_world w s)))
        else mret (KillClient, s)
  end.
(** [false] when the client is to be killed; [fuel] bounds the messages.
    C: Source/sv_user.c:444-536 SV_ReadClientMessage *)
Fixpoint SV_ReadClientMessage (fuel : nat) (k : nat) (s : svs N) : res (bool * svs N) :=
  match fuel with
  | O => Fault OutOfFuel
  | S fuel =>
      '(r, b, n) ← NET_GetMessage k (net s);
      let m := MsgState b (msg_readcount (message s)) (msg_badread (message s)) in
      let s := Svs N (clients s) m (world s) (host_player s) n in
      if r =? -1 then mret (false, s)
      else if r =? 0 then mret (true, s)
      else
        let s := set_message (MSG_BeginReading (message s)) s in
        '(e, s) ← client_commands (S (S (Z.to_nat (cursize b)))) k s;
        match e with KillClient => mret (false, s) | NextMessage => SV_ReadClientMessage fuel k s end
  end.

Definition with_player (e : Z) (g : server) : server :=
  Server (sv_models g) (PR_ExecuteProgram g) (Motion.sv_time g) (host_frametime g) (world_nodes g) (world_hull g) e (sv_casper g) (pr_edict_size g)
    (sound_precache g) (sv_maxvelocity g) (sv_gravity g) (sv_nostep g) (has_gravity g) (maxclients g) (client_active g) (StartFrame g)
    (PlayerPreThink g) (PlayerPostThink g) (touch_fuel g) (c_sin g) (c_cos g).

Context (SV_DropClient : nat -> svs N -> res (svs N)) (fuel : nat) (g : server) (c : user_cvars).

(** [thinks] is [!sv.paused && (svs.maxclients > 1 || key_dest == key_game) && tas_gamestate == unpaused].
    C: Source/sv_user.c:549-569 host_client *)
Definition run_client (thinks : bool) (k : nat) (s : svs N) : res (svs N) :=
  p ← client_at k s;
  if negb (is_active p) then mret s
  else
    '(ok, s) ← SV_ReadClientMessage fuel k (set_host_player (client_edict p) s);
    if negb ok then SV_DropClient k s
    else
      p ← client_at k s;
      if negb (is_spawned p) then mret (put_client k (set_client_cmd (UserCmd f_0 f_0 f_0) p) s)
      else if thinks then
        w ← SV_ClientThink (with_player (host_player s) g) c true false (client_cmd p) (world s);
        mret (set_world w s)
      else mret s.
Fixpoint run_clients (thinks : bool) (ks : list nat) (s : svs N) : res (svs N) :=
  match ks with [] => mret s | k :: ks => s ← run_client thinks k s; run_clients thinks ks s end.
(** C: Source/sv_user.c:543-571 SV_RunClients *)
Definition SV_RunClients (thinks : bool) (s : svs N) : res (svs N) := run_clients thinks (seq 0 (Z.to_nat (maxclients g))) s.

End messages.

(** * A move from the client to the server *)

Definition sent_angle16 (x : f32) : f32 := f32_of_f64 (f64_mul (f64_of_Z (s16 (angle16_int x))) (f64_div (f64_of_Z 360) (f64_of_Z 65536))).
Definition view_sent (a16 : bool) (x : f32) : f32 := if a16 then sent_angle16 x else sent_angle x.
Definition sent_move (x : f32) : f32 := f32_of_Z (s16 (f_to_int x)).

Lemma takes_view (a16 : bool) x : takes (if a16 then MSG_ReadAngle16 else MSG_ReadAngle) (view_field a16 x) (view_sent a16 x).
Proof.
  destruct a16; [|apply takes_angle].
  apply (takes_map MSG_ReadShort (fun c => f32_of_f64 (f64_mul (f64_of_Z c) (f64_div (f64_of_Z 360) (f64_of_Z 65536))))), takes_short.
Qed.

(** The player's entity with the move. *)
Definition with_move (a16 : bool) (angles : vec3) (bits impulse : Z) (a : ent) : ent :=
  let a := set_button2 (f32_of_Z ((u8 bits & 2) >> 1)) (set_button0 (f32_of_Z (u8 bits & 1)) (set_v_angle (vec_map (view_sent a16) angles) a)) in
  if truth (u8 impulse) then set_impulse (f32_of_Z (u8 impulse)) a else a.

Lemma upd_ent_ok e f s a : ents s !! e = Some a -> upd_ent e f s = Ok (set_ents (<[e := f a]> (ents s)) s).
Proof. intros H. unfold upd_ent, ent_at. by rewrite H. Qed.
Lemma set_ents_twice e a b s : set_ents (<[e := b]> (ents (set_ents (<[e := a]> (ents s)) s))) (set_ents (<[e := a]> (ents s)) s) = set_ents (<[e := b]> (ents s)) s.
Proof. unfold set_ents. cbn. by rewrite insert_insert_eq. Qed.

Lemma SV_ReadClientMove_ok h now p t angles cmd bits impulse m w a rest :
  let a16 := client_mod p in
  f32_valid t -> 0 <= num_pings p -> ents w !! client_edict p = Some a ->
  reading m (fields_bytes (move_fields t a16 angles cmd bits impulse) ++ rest) -> exists p' m',
  SV_ReadClientMove h now p m w = Ok (p', m', set_ents (<[client_edict p := with_move a16 angles bits impulse a]> (ents w)) w) /\
  goes_to m m' rest /\ client_cmd p' = UserCmd (sent_move (forwardmove cmd)) (sent_move (sidemove cmd)) (sent_move (upmove cmd)) /\
  is_active p' = is_active p /\ client_edict p' = client_edict p.
Proof.
  intros a16 Ht Hn Ha Hr. unfold move_fields in Hr. rewrite !fields_bytes_app, <- !app_assoc in Hr. unfold SV_ReadClientMove.
  assert (goes_to m m _) as G0 by (split; [exact Hr|done]).
  read_field (takes_float h _ Ht) G0 m1 G1. unfold add_ping.
  assert (Z.rem (num_pings p) NUM_PING_TIMES <? 0 = false) as -> by (unfold NUM_PING_TIMES; pose proof (Z.rem_nonneg (num_pings p) 16); lia).
  rewrite bind_Ok. cbv zeta. cbn [client_mod client_edict]. fold a16.
  read_field (takes_view a16 (vx angles)) G1 m2 G2. read_field (takes_view a16 (vy angles)) G2 m3 G3. read_field (takes_view a16 (vz angles)) G3 m4 G4.
  rewrite (upd_ent_ok _ _ _ _ Ha), bind_Ok.
  read_field (takes_short (f_to_int (forwardmove cmd))) G4 m5 G5. read_field (takes_short (f_to_int (sidemove cmd))) G5 m6 G6.
  read_field (takes_short (f_to_int (upmove cmd))) G6 m7 G7. read_field (takes_byte bits) G7 m8 G8.
  erewrite upd_ent_ok by (cbn; apply lookup_insert_eq). rewrite set_ents_twice, bind_Ok.
  read_field (takes_byte impulse) G8 m9 G9. eexists _, m9. split.
  - unfold with_move. destruct (truth (u8 impulse)); [|by rewrite bind_Ok].
    erewrite upd_ent_ok by (cbn; apply lookup_insert_eq). by rewrite set_ents_twice, bind_Ok.
  - split; [by via G0; via G1; via G2; via G3; via G4; via G5; via G6; via G7; via G8|done].
Qed.

Lemma read_char_end m : reading m [] -> MSG_ReadChar m = Ok (-1, badread m).
Proof.
  intros (Hw & Hr & Hd). unfold MSG_ReadChar. pose proof (length_contents _ Hw) as Hl. apply (f_equal length) in Hd.
  rewrite length_drop in Hd. cbn in Hd. assert (cursize (net_message m) <=? msg_readcount m = true) as -> by lia. done.
Qed.

Section commands.

Context {N : Type} (h : endian) (now : f64) (exec : nat -> bytes -> svs N -> res (svs N)).

Lemma command_end fuel k (s : svs N) p : clients s !! k = Some p -> is_active p = true -> msg_badread (message s) = false ->
  reading (message s) [] -> client_commands h now exec (S fuel) k s = Ok (NextMessage, set_message (badread (message s)) s).
Proof.
  intros Hk Ha Hb Hr. cbn [client_commands]. unfold client_at. rewrite Hk. cbn [of_option]. by rewrite bind_Ok, Ha, Hb, (read_char_end _ Hr).
Qed.

Lemma command_move fuel k (s : svs N) p t angles cmd bits impulse a rest :
  clients s !! k = Some p -> is_active p = true -> msg_badread (message s) = false ->
  f32_valid t -> 0 <= num_pings p -> ents (world s) !! client_edict p = Some a ->
  reading (message s) (fields_bytes (FByte (u8 clc_move) :: move_fields t (client_mod p) angles cmd bits impulse) ++ rest) -> exists p' m',
  client_commands h now exec (S fuel) k s = client_commands h now exec fuel k (put_client k p' (set_message m'
    (set_world (set_ents (<[client_edict p := with_move (client_mod p) angles bits impulse a]> (ents (world s))) (world s)) s))) /\
  goes_to (message s) m' rest /\ client_cmd p' = UserCmd (sent_move (forwardmove cmd)) (sent_move (sidemove cmd)) (sent_move (upmove cmd)) /\
  is_active p' = is_active p.
Proof.
  intros Hk Hact Hbad Ht Hn Ha Hr. change (fields_bytes (?f :: ?l)) with (field_bytes f ++ fields_bytes l) in Hr. rewrite <- app_assoc in Hr.
  cbn [client_commands]. unfold client_at. rewrite Hk. cbn [of_option]. rewrite bind_Ok, Hact, Hbad. cbn [negb].
  destruct (takes_char clc_move _ _ Hr) as (m1 & -> & G1). rewrite bind_Ok. change (s8 clc_move) with clc_move. cbv zeta.
  change (clc_move =? -1) with false. change (clc_move =? clc_nop) with false. change (clc_move =? clc_stringcmd) with false.
  change (clc_move =? clc_disconnect) with false. change (clc_move =? clc_move) with true. cbn iota. cbn [message set_message world].
  destruct (SV_ReadClientMove_ok h now p t angles cmd bits impulse m1 (world s) a rest Ht Hn Ha (proj1 G1)) as (p' & m2 & -> & G2 & Hcmd & Hact' & _).
  rewrite bind_Ok. exists p', m2. split; [done|]. split; [by via G1|split; [done|congruence]].
Qed.

End commands.

(** C7: A move arrives as it was sent.  The message [CL_SendMove] writes into an empty buffer of 128 bytes
    always fits; when the server receives it as the only message of a player, [SV_ReadClientMessage]
    accepts it and leaves the player with the speeds of the command as 16-bit integers, the view
    angles in the precision the connection agreed on, the two buttons and the impulse, an impulse of
    0 leaving the last one; nothing else of the world changes.  This holds for hosts of either byte
    order on the two sides. *)
Theorem client_move_arrives {N : Type} hc hs (NET_GetMessage : nat -> N -> res (Z * sizebuf * N)) exec now t a16 angles cmd bits impulse buf :
  f32_valid t -> maxsize buf = 128 -> cursize buf = 0 -> sb_wf buf -> exists sb,
  write_move hc t a16 angles cmd bits impulse buf = Ok sb /\
  forall k (s : svs N) p a r n1 last n2 fuel,
  clients s !! k = Some p -> is_active p = true -> client_mod p = a16 -> 0 <= num_pings p -> ents (world s) !! client_edict p = Some a ->
  NET_GetMessage k (net s) = Ok (r, sb, n1) -> 0 < r -> NET_GetMessage k n1 = Ok (0, last, n2) -> (2 <= fuel)%nat -> exists s' p',
  SV_ReadClientMessage hs now NET_GetMessage exec fuel k s = Ok (true, s') /\
  clients s' = <[k := p']> (clients s) /\ net s' = n2 /\
  client_cmd p' = UserCmd (sent_move (forwardmove cmd)) (sent_move (sidemove cmd)) (sent_move (upmove cmd)) /\
  world s' = set_ents (<[client_edict p := with_move a16 angles bits impulse a]> (ents (world s))) (world s).
Proof.
  intros Ht Hmax Hcur Hw. rewrite write_move_fields. set (fs := FByte (u8 clc_move) :: _).
  destruct (write_fields_spec hc fs buf Hw) as (sb & E & Hw' & Hc).
  { rewrite Hmax, Hcur. by destruct a16. }
  assert (contents buf = []) as Hnil by (unfold contents; by rewrite Hcur). rewrite Hnil, app_nil_l in Hc.
  exists sb. split; [exact E|]. intros k s p a r n1 last n2 fuel Hk Hact <- Hn Ha E1 Hr E2 Hf.
  destruct fuel as [|[|fuel]]; [lia|lia|]. cbn [SV_ReadClientMessage]. rewrite E1, bind_Ok.
  assert (r =? -1 = false) as -> by lia. assert (r =? 0 = false) as -> by lia. cbn [message net_message clients world host_player net].
  set (m0 := MSG_BeginReading _). assert (reading m0 (fields_bytes fs)) as H0.
  { split; [done|]. destruct Hw'. split; [cbn; lia|]. cbn. by rewrite Hc. }
  match goal with |- context [client_commands hs now exec _ k ?st] => set (s1 := st) end.
  destruct (command_move hs now exec (S (Z.to_nat (cursize sb))) k s1 p t angles cmd bits impulse a [])
    as (p' & m1 & -> & G & Hcmd & Hact'); [done..|by rewrite app_nil_r|].
  destruct G as (G & Gb & _).
  rewrite (command_end hs now exec _ k _ p'), bind_Ok;
    [|cbn; apply list_lookup_insert_eq; by eapply lookup_lt_Some|by rewrite Hact'|exact Gb|exact G].
  subst s1. cbn [SV_ReadClientMessage net put_client set_clients set_message set_world]. rewrite E2, bind_Ok. eexists _, p'. split; [done|done].
Qed.

(** * What a player's command leaves alone *)

Section frame.

Context (g : server) (c : user_cvars).

(** The entity without what a command may change. *)
Definition at_rest (a : ent) : ent := set_flags f_0 (set_teleport_time f_0 (set_velocity vec0 (set_angles vec0 (set_punchangle vec0 a)))).
Definition apart_from_player (s : wst) : wst := set_ents (alter at_rest (sv_player g) (ents s)) s.

(** The operations that change nothing else. *)
Definition player_only (op : wst -> res wst) : Prop := forall s s', op s = Ok s' -> apart_from_player s' = apart_from_player s.

Lemma upd_player_only f : (forall a, at_rest (f a) = at_rest a) -> player_only (upd_player g f).
Proof.
  intros Hf s s' H. unfold upd_player, upd_ent, ent_at in H. destruct (ents s !! sv_player g) as [a|] eqn:Ea; [|done].
  cbn in H. injection H as <-. unfold apart_from_player, set_ents. cbn. f_equal.
  rewrite alter_insert_eq, Hf. apply map_eq. intros i. destruct (decide (i = sv_player g)) as [->|Hi].
  - by rewrite lookup_insert_eq, lookup_alter_eq, Ea.
  - by rewrite lookup_insert_ne, lookup_alter_ne.
Qed.
Create HintDb player_only.
(** Walks through an operation. *)
Ltac step_only := repeat match goal with
  | E : upd_player g ?f ?s = Ok ?s' |- _ => apply (upd_player_only f (fun a => eq_refl) s s') in E
  | E : ?op ?s = Ok ?s' |- _ =>
      let F := fresh in assert (player_only op) as F by (eauto with player_only); apply (F s s') in E; clear F
  end.
Ltac only_player := intros s s' H; inv_ok; repeat (case_match; inv_ok); step_only; congruence.

Lemma SV_UserFriction_only : player_only (SV_UserFriction g c).
Proof. unfold SV_UserFriction. only_player. Qed.
Lemma SV_Accelerate_only dir speed : player_only (SV_Accelerate g c dir speed).
Proof. unfold SV_Accelerate. only_player. Qed.
Lemma SV_AirAccelerate_only v speed : player_only (SV_AirAccelerate g c v speed).
Proof. unfold SV_AirAccelerate. only_player. Qed.
Lemma DropPunchAngle_only stopped : player_only (DropPunchAngle g stopped).
Proof. unfold DropPunchAngle. only_player. Qed.
Lemma SV_WaterMove_only cmd : player_only (SV_WaterMove g c cmd).
Proof. unfold SV_WaterMove. only_player. Qed.
Lemma SV_WaterJump_only : player_only (SV_WaterJump g).
Proof. unfold SV_WaterJump. only_player. Qed.
#[local] Hint Resolve SV_UserFriction_only SV_Accelerate_only SV_AirAccelerate_only DropPunchAngle_only SV_WaterMove_only SV_WaterJump_only : player_only.
Lemma SV_AirMove_only cmd onground : player_only (SV_AirMove g c cmd onground).
Proof. unfold SV_AirMove. only_player. Qed.
#[local] Hint Resolve SV_AirMove_only : player_only.

(** A command moves only the player.  Whatever the command, the angles, the water and the ground,
    [SV_ClientThink] changes nothing of the world but the velocity, the angles, the punch angle, the
    flags and the teleport time of the player himself: his place, his health and his items, every other
    entity and the lists of the areas are as before.  It moves nobody: that is the physics' part. *)
Theorem SV_ClientThink_frame running stopped cmd s s' : SV_ClientThink g c running stopped cmd s = Ok s' ->
  set_ents (alter at_rest (sv_player g) (ents s')) s' = set_ents (alter at_rest (sv_player g) (ents s)) s.
Proof. revert s s'. change (player_only (SV_ClientThink g c running stopped cmd)). unfold SV_ClientThink. only_player. Qed.

End frame.

(** ** The theorems at concrete inputs *)

Definition alive : ent -> ent := on_motion (fun m =>
  Motion (m_oldorigin m) (m_velocity m) (m_angles m) (m_avelocity m) (m_punchangle m) (m_view_ofs m) (m_v_angle m) (m_movedir m)
    (m_ltime m) (m_nextthink m) (m_think m) (m_blocked m) (m_groundentity m) (m_enemy m) (m_goalentity m) (f32_of_Z 100)
    (m_fixangle m) (m_teleport_time m) (m_waterlevel m) (m_watertype m) (m_ideal_yaw m) (m_yaw_speed m)
    (m_idealpitch m) (m_button0 m) (m_button2 m) (m_impulse m) (m_gravity m)).
Definition user_ent : ent := alive (set_flags (f32_of_Z FL_ONGROUND) (set_velocity (vz3 100 0 0) (monster MOVETYPE_WALK (vz3 500 0 0)))).
Definition user_world : wst := phys_world user_ent free_box.
Definition user_server : server := phys_server (fun _ s => Ok s) 2000.
Definition user_settings : user_cvars :=
  UserCvars (f32_of_Z 4) (f32_of_Z 2) (f32_of_Z 100) (f32_of_Z 320) (f32_of_Z 10) f_1 (f32_of_Z 200) (f32_of_Z 2).
Definition runs_ahead : usercmd := UserCmd (f32_of_Z 200) f_0 f_0.
Notation think := (SV_ClientThink user_server user_settings true false runs_ahead user_world).

(** On the ground the player reaches the speed wished. *)
Example think_walks : (s ← think; a ← ent_at s 2000; mret (f_to_int (vx (v_velocity a)))) = Ok 200.
Proof. by vm_compute. Qed.
Lemma think_ok : is_ok think = true.
Proof. by vm_compute. Qed.

Lemma SV_ClientThink_frame_witness : exists s', think = Ok s' /\
  set_ents (alter at_rest (sv_player user_server) (ents s')) s' = set_ents (alter at_rest (sv_player user_server) (ents user_world)) user_world.
Proof.
  destruct (is_ok_ex _ think_ok) as [s' E]. exists s'. split; [exact E|].
  exact (SV_ClientThink_frame user_server user_settings true false runs_ahead user_world s' E).
Defined.

(** A queue of messages as the network. *)
Definition from_queue (k : nat) (q : list sizebuf) : res (Z * sizebuf * list sizebuf) :=
  match q with b :: q => Ok (2, b, q) | [] => Ok (0, SizeBuf false false [] 0 0, []) end.
Definition empty_move : sizebuf := SizeBuf false false (replicate 128 0) 128 0.
Definition user_client : client := Client true true true 2000 (UserCmd f_0 f_0 f_0) (replicate 16 f_0) 20.
Definition user_state (b : sizebuf) : svs (list sizebuf) := Svs _ [user_client] (MsgState empty_move 0 false) user_world 2000 [b].
Definition looks : vec3 := vz3 10 90 0.

Lemma user_here : is_Some (ents user_world !! 2000).
Proof. apply (bool_decide_unpack _). vm_compute. exact I. Qed.

Lemma client_move_arrives_witness : exists sb s' a,
  write_move LittleEndian (f32_of_Z 3) true looks runs_ahead 3 7 empty_move = Ok sb /\
  SV_ReadClientMessage BigEndian (f64_of_Z 4) from_queue (fun _ _ => Ok) 2 0 (user_state sb) = Ok (true, s') /\
  world s' = set_ents (<[client_edict user_client := with_move true looks 3 7 a]> (ents (world (user_state sb)))) (world (user_state sb)).
Proof.
  destruct (client_move_arrives LittleEndian BigEndian from_queue (fun _ _ => Ok) (f64_of_Z 4) (f32_of_Z 3) true looks runs_ahead 3 7 empty_move)
    as (sb & E & H); [by vm_compute|done..|by vm_compute|]. destruct user_here as [a Ha].
  destruct (H 0%nat (user_state sb) user_client a 2 [] (SizeBuf false false [] 0 0) [] 2%nat) as (s' & p' & E' & _ & _ & _ & Hw);
    [done|done|done|cbn; lia|exact Ha|done|lia|done|lia|]. exists sb, s', a. split; [exact E|]. split; [exact E'|exact Hw].
Defined.
