(* ===== verification/Edict.v ===== *)
(** Entities of the game program (Source/pr_edict.c) and their place in saved games
    (Source/host_cmd.c).

    The state is the machine of PrExec.v, whose [edicts] are the words at [sv.edicts], with the
    number of entities in use, what world.c keeps, and the hunk that new strings come from.  An
    entity is its offset from [sv.edicts] in bytes.  The definitions of fields and globals and the
    names of functions are those of the progs file.  Linking and unlinking an entity (World.v),
    running a function of the game program (PrExec.v with its built-in functions) and the
    allocation of memory (an interface that Hunk.v implements) are parameters.  What is printed to
    the console is left out. *)

From Stdlib Require Import SpecFloat.
From S2P Require Import Prelude CFloat CharConv ComString PrExec DecText.
From S2P Require Cvar Hunk Cache.

(** * The progs file *)

Definition ev_void : Z := 0.
Definition ev_string : Z := 1.
Definition ev_float : Z := 2.
Definition ev_vector : Z := 3.
Definition ev_entity : Z := 4.
Definition ev_field : Z := 5.
Definition ev_function : Z := 6.
Definition DEF_SAVEGLOBAL : Z := 32768.

(** C: Source/pr_edict.c:38-38 type_size *)
Definition type_size : list Z := [1; 1; 1; 3; 1; 1; 1; 1].

(** C: Source/pr_comp.h:128-134 ddef_t *)
Record ddef : Type := Def { d_type : Z; d_ofs : Z; d_name : Z }.
#[global] Instance ddef_eq_dec : EqDecision ddef.
Proof. solve_decision. Defined.

(** The tables of the progs file that this file uses, [progs->entityfields] and [sv.max_edicts]. *)
Record progs_t : Type := Progs {
  fielddefs : list ddef;
  globaldefs : list ddef;
  function_names : list Z;
  entityfields : Z;
  max_edicts : Z
}.

(** Places of fields in [entvars_t], in words; [free] and [freetime] in [edict_t], in bytes. *)
Definition v_modelindex : Z := 0.
Definition v_solid : Z := 9.
Definition v_origin : Z := 10.
Definition v_angles : Z := 19.
Definition v_classname : Z := 28.
Definition v_model : Z := 29.
Definition v_skin : Z := 31.
Definition v_takedamage : Z := 59.
Definition v_colormap : Z := 77.
Definition v_spawnflags : Z := 89.
Definition ed_free : Z := 0.
Definition ed_freetime : Z := 92.

(** * Memory for new strings *)

(** [Hunk_Alloc] gives memory between what it has given before, [hunk_top], and [hunk_limit].
    A block has a header of 16 bytes and is rounded up to 16 bytes. *)
Class HunkAlloc (H : Type) : Type := {
  hunk_alloc : Z -> H -> res (Z * H);
  hunk_top : H -> Z;
  hunk_limit : H -> Z;
  hunk_good : H -> Prop;
  hunk_alloc_ok n h : hunk_good h -> 0 < n < 65536 -> n + 32 <= hunk_limit h - hunk_top h ->
    exists p h', hunk_alloc n h = Ok (p, h') /\ hunk_good h' /\ hunk_limit h' = hunk_limit h /\
      hunk_top h <= p /\ p + n <= hunk_top h' /\ hunk_top h' <= hunk_top h + n + 32
}.

(** What [Hunk_Alloc] of Hunk.v does. *)
#[export] Program Instance hunk_memory : HunkAlloc Cache.memst := {
  hunk_alloc := Hunk.Hunk_Alloc;
  hunk_top st := Cache.hunk_base st + Cache.hunk_low_used st;
  hunk_limit st := Cache.hunk_base st + Cache.hunk_size st - Cache.hunk_high_used st;
  hunk_good st := exists Lo Hs L R, Hunk.hunk_inv st Lo Hs L R
}.
Next Obligation.
  intros n h (Lo & Hs & L & R & Hinv) Hn Hroom. destruct (Hunk.hunk_bytes_ok n ltac:(lia)) as (k & Hk & _ & Hkb).
  destruct (Hunk.AllocName_ok h Lo Hs L R n (cs "unknown") k Hinv ltac:(lia) Hk ltac:(lia) ltac:(lia)) as (st' & L' & R' & E & Hinv' & Hsh & _).
  exists (Cache.hunk_base h + Cache.hunk_low_used h + Hunk.sizeof_hunk), st'.
  destruct Hsh as (_ & Eb & Es & El & Eh & _). cbn in Eb, Es, El, Eh. unfold Hunk.sizeof_hunk in *.
  split; [exact E|]. split; [by do 4 eexists|]. lia.
Qed.

(** [pr_strings] is at [strings_at].
    C: Source/pr_edict.c:24-33 pr_edict_size *)
Record edst (W H : Type) : Type := EdSt {
  machine : vm;
  num_edicts : Z;
  world : W;
  hunk : H;
  strings_at : Z
}.
Arguments EdSt {W H}.
Arguments machine {W H}.
Arguments num_edicts {W H}.
Arguments world {W H}.
Arguments hunk {W H}.
Arguments strings_at {W H}.

Section edict.
Context {W H : Type} `{!HunkAlloc H}.

Definition set_machine (m : vm) (s : edst W H) : edst W H := EdSt m (num_edicts s) (world s) (hunk s) (strings_at s).
Definition set_num_edicts (n : Z) (s : edst W H) : edst W H := EdSt (machine s) n (world s) (hunk s) (strings_at s).
Definition set_hunk (h : H) (s : edst W H) : edst W H := EdSt (machine s) (num_edicts s) (world s) h (strings_at s).
Definition set_world (w : W) (s : edst W H) : edst W H := EdSt (machine s) (num_edicts s) w (hunk s) (strings_at s).

(** A step of the machine, as a step of this state. *)
Definition on_vm {A} (m : M A) (s : edst W H) : res (A * edst W H) :=
  match m (machine s) with Ret a v => Ok (a, set_machine v s) | Throw f _ => Fault f end.
(** Reading the machine. *)
Definition rd {A} (m : M A) (s : edst W H) : res A := r ← on_vm m s; mret r.1.
(** Changing it. *)
Definition wr (m : M unit) (s : edst W H) : res (edst W H) := r ← on_vm m s; mret r.2.

Variable progs : progs_t.
Variable sv_time : f64.
Variable maxclients : Z.
Variables SV_UnlinkEdict SV_LinkEdict : Z -> edst W H -> res (edst W H).
Variable PR_ExecuteProgram : Z -> edst W H -> res (edst W H).

Definition pr_edict_size : Z := 4 * (entityfields progs + edict_v).

(** ** Entities *)

(** C: Source/pr_edict.c:1096-1102 EDICT_NUM *)
Definition EDICT_NUM (n : Z) : res Z :=
  if (n <? 0) || (max_edicts progs <=? n) then Fault (Sys_Error "EDICT_NUM: bad number %i") else mret (n * pr_edict_size).

(** C: Source/pr_edict.c:1104-1115 NUM_FOR_EDICT *)
Definition NUM_FOR_EDICT (e : Z) (s : edst W H) : res Z :=
  let b := Z.quot e pr_edict_size in
  if (b <? 0) || (num_edicts s <=? b) then Fault (Sys_Error "NUM_FOR_EDICT: bad pointer") else mret b.

(** [n] words from field [i] of an entity on become zero. *)
Fixpoint zero_fields (n : nat) (e i : Z) (s : edst W H) : res (edst W H) :=
  match n with
  | O => mret s
  | S n => s ← wr (e_set (field_ofs e i) 0) s; zero_fields n e (i + 1) s
  end.

(** C: Source/pr_edict.c:110-114 ED_ClearEdict *)
Definition ED_ClearEdict (e : Z) (s : edst W H) : res (edst W H) :=
  s ← zero_fields (Z.to_nat (entityfields progs)) e 0 s;
  wr (e_set (e + ed_free) 0) s.

(** Has the entity been free long enough.
    C: Source/pr_edict.c:137-137 freetime *)
Definition reusable (free freetime : Z) : bool :=
  truth free &&
  (f_ltb (f32_of_bits freetime) (f32_of_Z 2) ||
   f_ltb (f64_div (f64_of_Z 1) (f64_of_Z 2)) (f64_sub sv_time (f64_of_f32 (f32_of_bits freetime)))).

(** The first reusable entity of [n] many from number [i] on, or the number after them.
    C: Source/pr_edict.c:132-142 num_edicts *)
Fixpoint find_free (n : nat) (i : Z) (s : edst W H) : res (Z + Z) :=
  match n with
  | O => mret (inr i)
  | S n =>
      e ← EDICT_NUM i;
      free ← rd (e_get (e + ed_free)) s;
      t ← (if truth free then rd (e_get (e + ed_freetime)) s else mret 0);
      if reusable free t then mret (inl e) else find_free n (i + 1) s
  end.

(** C: Source/quakedef.h:76-76 MAX_EDICTS *)
Definition MAX_EDICTS : Z := 2048.

(** C: Source/pr_edict.c:127-152 ED_Alloc *)
Definition ED_Alloc (s : edst W H) : res (Z * edst W H) :=
  r ← find_free (Z.to_nat (num_edicts s - (maxclients + 1))) (maxclients + 1) s;
  match r with
  | inl e => s ← ED_ClearEdict e s; mret (e, s)
  | inr i =>
      if i =? MAX_EDICTS then Fault (Sys_Error "ED_Alloc: no free edicts")
      else
        let s := set_num_edicts (num_edicts s + 1) s in
        e ← EDICT_NUM i;
        s ← ED_ClearEdict e s;
        mret (e, s)
  end.

(** Words written one after the other. *)
Fixpoint write_fields (e : Z) (ws : list (Z * Z)) (s : edst W H) : res (edst W H) :=
  match ws with
  | [] => mret s
  | (i, w) :: ws => s ← wr (e_set (field_ofs e i) w) s; write_fields e ws s
  end.

(** C: Source/pr_edict.c:162-179 ED_Free *)
Definition ED_Free (e : Z) (s : edst W H) : res (edst W H) :=
  s ← SV_UnlinkEdict e s;
  s ← wr (e_set (e + ed_free) 1) s;
  s ← write_fields e [(v_model, 0); (v_takedamage, 0); (v_modelindex, 0); (v_colormap, 0); (v_skin, 0); (v_frame, 0);
       (v_origin, 0); (v_origin + 1, 0); (v_origin + 2, 0); (v_angles, 0); (v_angles + 1, 0); (v_angles + 2, 0);
       (v_nextthink, bits_of_f32 (f32_of_Z (-1))); (v_solid, 0)] s;
  wr (e_set (e + ed_freetime) (bits_of_f32 (f32_of_f64 sv_time))) s.

(** ** Looking up definitions *)

(** The first definition at an offset.
    C: Source/pr_edict.c:193-198 numglobaldefs *)
Fixpoint def_at (defs : list ddef) (ofs : Z) : option ddef :=
  match defs with
  | [] => None
  | d :: defs => if d_ofs d =? ofs then Some d else def_at defs ofs
  end.
(** C: Source/pr_edict.c:208-221 ED_FieldAtOfs *)
Definition ED_FieldAtOfs (ofs : Z) : option ddef := def_at (fielddefs progs) ofs.
(** C: Source/pr_edict.c:188-201 ED_GlobalAtOfs *)
Definition ED_GlobalAtOfs (ofs : Z) : option ddef := def_at (globaldefs progs) ofs.

(** The first of [xs] with a name, by its place. *)
Fixpoint find_name {A} (name_of : A -> Z) (xs : list A) (name : bytes) (i : Z) (s : edst W H) : res (option (Z * A)) :=
  match xs with
  | [] => mret None
  | x :: xs =>
      n ← rd (string_at (name_of x)) s;
      if bool_decide (n = name) then mret (Some (i, x)) else find_name name_of xs name (i + 1) s
  end.
(** C: Source/pr_edict.c:228-241 ED_FindField *)
Definition ED_FindField (name : bytes) (s : edst W H) : res (option ddef) :=
  r ← find_name d_name (fielddefs progs) name 0 s; mret (match r with Some (_, d) => Some d | None => None end).
(** C: Source/pr_edict.c:249-262 ED_FindGlobal *)
Definition ED_FindGlobal (name : bytes) (s : edst W H) : res (option ddef) :=
  r ← find_name d_name (globaldefs progs) name 0 s; mret (match r with Some (_, d) => Some d | None => None end).
(** C: Source/pr_edict.c:269-282 ED_FindFunction *)
Definition ED_FindFunction (name : bytes) (s : edst W H) : res (option Z) :=
  r ← find_name (fun n => n) (function_names progs) name 0 s; mret (match r with Some (i, _) => Some i | None => None end).
(** C: Source/pr_edict.c:75-83 FindFieldOffset *)
Definition FindFieldOffset (field : bytes) (s : edst W H) : res Z :=
  d ← ED_FindField field s; mret (match d with Some d => d_ofs d * 4 | None => 0 end).

(** ** Values as texts *)

(** [type & ~DEF_SAVEGLOBAL] of an [unsigned short]. *)
Definition base_type (type : Z) : Z := Z.land type 32767.

(** The static line of 256 bytes. *)
Definition to_line (t : bytes) : res bytes := if 256 <=? zlen t then Fault (Undefined "line overrun") else mret t.
Definition word_of (ws : list Z) (i : nat) : Z := default 0 (ws !! i).

(** [ws] are the words at [val].
    C: Source/pr_edict.c:351-397 PR_UglyValueString *)
Definition PR_UglyValueString (type : Z) (ws : list Z) (s : edst W H) : res bytes :=
  let type := base_type type in
  let val := s32 (word_of ws 0) in
  let flt i := Cvar.print_f (f32_of_bits (word_of ws i)) in
  if type =? ev_string then t ← rd (string_at val) s; to_line t
  else if type =? ev_entity then n ← NUM_FOR_EDICT val s; to_line (print_i n)
  else if type =? ev_function then
    f ← of_option (Undefined "outside the functions") (at_index (function_names progs) val);
    t ← rd (string_at f) s; to_line t
  else if type =? ev_field then
    match ED_FieldAtOfs val with
    | Some d => t ← rd (string_at (d_name d)) s; to_line t
    | None => Fault (Undefined "null dereference")
    end
  else if type =? ev_void then to_line (cs "void")
  else if type =? ev_float then to_line (flt 0%nat)
  else if type =? ev_vector then to_line (flt 0%nat ++ [32] ++ flt 1%nat ++ [32] ++ flt 2%nat)
  else to_line (cs "bad type " ++ print_i type).

(** [n] words of an entity from field [i] on. *)
Fixpoint read_fields (n : nat) (e i : Z) (s : edst W H) : res (list Z) :=
  match n with
  | O => mret []
  | S n => w ← rd (e_get (field_ofs e i)) s; ws ← read_fields n e (i + 1) s; mret (w :: ws)
  end.

Definition size_of (type : Z) : res nat := n ← of_option (Undefined "outside type_size") (type_size !! Z.to_nat (base_type type)); mret (Z.to_nat n).

(** A key and its value, as they are written. *)
Definition pair_text (name value : bytes) : bytes := [34] ++ name ++ [34; 32; 34] ++ value ++ [34; 10].

(** The lines of the fields that are not zero.
    C: Source/pr_edict.c:522-541 numfielddefs *)
Fixpoint write_defs (defs : list ddef) (e : Z) (s : edst W H) : res bytes :=
  match defs with
  | [] => mret []
  | d :: defs =>
      n ← size_of (d_type d);
      ws ← read_fields n e (d_ofs d) s;
      if forallb (Z.eqb 0) ws then write_defs defs e s
      else
        name ← rd (string_at (d_name d)) s;
        value ← PR_UglyValueString (d_type d) ws s;
        rest ← write_defs defs e s;
        mret (pair_text name value ++ rest)
  end.

(** The text appended to the file.
    C: Source/pr_edict.c:508-544 ED_Write *)
Definition ED_Write (e : Z) (s : edst W H) : res bytes :=
  free ← rd (e_get (e + ed_free)) s;
  if truth free then mret (cs "{" ++ [10] ++ cs "}" ++ [10])
  else
    t ← write_defs (tail (fielddefs progs)) e s;
    mret (cs "{" ++ [10] ++ t ++ cs "}" ++ [10]).

Definition is_saved (d : ddef) : bool :=
  truth (Z.land (d_type d) DEF_SAVEGLOBAL) &&
  (let t := base_type (d_type d) in (t =? ev_string) || (t =? ev_float) || (t =? ev_entity)).

(** C: Source/pr_edict.c:643-657 numglobaldefs *)
Fixpoint write_globals (defs : list ddef) (s : edst W H) : res bytes :=
  match defs with
  | [] => mret []
  | d :: defs =>
      if is_saved d then
        name ← rd (string_at (d_name d)) s;
        w ← rd (g_get (d_ofs d)) s;
        value ← PR_UglyValueString (base_type (d_type d)) [w] s;
        rest ← write_globals defs s;
        mret (pair_text name value ++ rest)
      else write_globals defs s
  end.

(** C: Source/pr_edict.c:636-659 ED_WriteGlobals *)
Definition ED_WriteGlobals (s : edst W H) : res bytes :=
  t ← write_globals (globaldefs progs) s;
  mret (cs "{" ++ [10] ++ t ++ cs "}" ++ [10]).

(** ** Reading *)

(** The escapes of a string: [\n] is a new line, any other character after a backslash is lost. *)
Fixpoint unescape (t : bytes) : bytes :=
  match t with
  | [] => []
  | c :: t' => if c =? 92 then match t' with d :: t'' => (if d =? 110 then 10 else 92) :: unescape t'' | [] => [92] end
               else c :: unescape t'
  end.

(** The offset of the new string from [pr_strings].
    C: Source/pr_edict.c:708-729 ED_NewString *)
Definition ED_NewString (t : bytes) (s : edst W H) : res (Z * edst W H) :=
  '(p, h) ← hunk_alloc (zlen t + 1) (hunk s);
  let ofs := s32 (p - strings_at s) in
  let s := set_hunk h s in
  mret (ofs, set_machine (set_heap_strings (<[ofs := unescape t]> (heap_strings (machine s))) (machine s)) s).

(** Where a value goes: the globals, or the fields of an entity. *)
Inductive place : Type := Globals | Fields (e : Z).
Definition put_word (b : place) (i w : Z) (s : edst W H) : res (edst W H) :=
  match b with Globals => wr (g_set i w) s | Fields e => wr (e_set (field_ofs e i) w) s end.

(** The text up to the next space, and what is after the space. *)
Fixpoint take_word (t : bytes) : bytes * option bytes :=
  match t with
  | [] => ([], None)
  | c :: t => if c =? 32 then ([], Some t) else let '(w, r) := take_word t in (c :: w, r)
  end.

(** The components of a vector; behind the end of the text the array is not initialised.
    C: Source/pr_edict.c:762-772 string *)
Fixpoint put_vector (n : nat) (b : place) (i : Z) (v : option bytes) (s : edst W H) : res (edst W H) :=
  match n with
  | O => mret s
  | S n =>
      match v with
      | None => Fault (Undefined "reads behind the string")
      | Some t =>
          let '(w, r) := take_word t in
          s ← put_word b i (bits_of_f32 (atof_f32 w)) s;
          put_vector n b (i + 1) r s
      end
  end.

(** C: Source/pr_edict.c:740-805 ED_ParseEpair *)
Definition ED_ParseEpair (b : place) (key : ddef) (t : bytes) (s : edst W H) : res (bool * edst W H) :=
  let type := base_type (d_type key) in
  let d := d_ofs key in
  if type =? ev_string then
    '(ofs, s) ← ED_NewString t s;
    s ← put_word b d (u32 ofs) s; mret (true, s)
  else if type =? ev_float then s ← put_word b d (bits_of_f32 (atof_f32 t)) s; mret (true, s)
  else if type =? ev_vector then
    if 128 <=? zlen t then Fault (Undefined "string overrun")
    else s ← put_vector 3 b d (Some t) s; mret (true, s)
  else if type =? ev_entity then e ← EDICT_NUM (atoi t); s ← put_word b d (u32 e) s; mret (true, s)
  else if type =? ev_field then
    def ← ED_FindField t s;
    match def with
    | None => mret (false, s)
    | Some def => w ← rd (g_get (d_ofs def)) s; s ← put_word b d w s; mret (true, s)
    end
  else if type =? ev_function then
    f ← ED_FindFunction t s;
    match f with
    | None => mret (false, s)
    | Some i => s ← put_word b d (u32 i) s; mret (true, s)
    end
  else mret (true, s).

Fixpoint drop_spaces (t : bytes) : bytes := match t with c :: t' => if c =? 32 then drop_spaces t' else t | [] => [] end.
(** A name without its trailing spaces. *)
Definition trim_end (t : bytes) : bytes := rev (drop_spaces (rev t)).

(** A key as the code uses it, and whether its value is the angle about the z axis.
    C: Source/pr_edict.c:841-862 anglehack *)
Definition key_of (token : bytes) : res (bytes * bool) :=
  let anglehack := bool_decide (token = cs "angle") in
  let token := if anglehack then cs "angles" else token in
  let token := if bool_decide (token = cs "light") then cs "light_lev" else token in
  if 256 <=? zlen token then Fault (Undefined "keyname overrun") else mret (trim_end token, anglehack).

Definition is_null (p : cptr) : bool := match p with Null => true | _ => false end.
Definition starts (c : Z) (t : bytes) : bool := match t with x :: _ => x =? c | [] => false end.

(** The pairs up to the closing brace, and whether there was one.
    C: Source/pr_edict.c:831-894 anglehack *)
Fixpoint parse_pairs (fuel : nat) (data : cptr) (e : Z) (init : bool) (s : edst W H) : res (cptr * bool * edst W H) :=
  match fuel with
  | O => Fault OutOfFuel
  | S fuel =>
      '(token, data) ← COM_Parse data;
      if starts 125 token then mret (data, init, s)
      else if is_null data then Fault (Sys_Error "ED_ParseEntity: EOF without closing brace")
      else
        '(keyname, anglehack) ← key_of token;
        '(token, data) ← COM_Parse data;
        if is_null data then Fault (Sys_Error "ED_ParseEntity: EOF without closing brace")
        else if starts 125 token then Fault (Sys_Error "ED_ParseEntity: closing brace without data")
        else if starts 95 keyname then parse_pairs fuel data e true s
        else
          key ← ED_FindField keyname s;
          match key with
          | None => parse_pairs fuel data e true s
          | Some key =>
              token ← (if anglehack : bool then
                         if 32 <=? zlen token then Fault (Undefined "temp overrun") else mret (cs "0 " ++ token ++ cs " 0")
                       else mret token);
              '(ok, s) ← ED_ParseEpair (Fields e) key token s;
              if ok : bool then parse_pairs fuel data e true s else Fault (Host_Error "ED_ParseEdict: parse error")
          end
  end.

(** More pairs than characters do not fit in a text. *)
Definition text_fuel (data : cptr) : nat := match data with At t => S (S (length t)) | _ => 1%nat end.

(** C: Source/pr_edict.c:816-900 ED_ParseEdict *)
Definition ED_ParseEdict (data : cptr) (e : Z) (s : edst W H) : res (cptr * edst W H) :=
  s ← (if negb (e =? 0) then zero_fields (Z.to_nat (entityfields progs)) e 0 s else mret s);
  '(data, init, s) ← parse_pairs (text_fuel data) data e false s;
  s ← (if negb init then wr (e_set (e + ed_free) 1) s else mret s);
  mret (data, s).

(** C: Source/pr_edict.c:671-697 keyname *)
Fixpoint parse_globals (fuel : nat) (data : cptr) (s : edst W H) : res (edst W H) :=
  match fuel with
  | O => Fault OutOfFuel
  | S fuel =>
      '(token, data) ← COM_Parse data;
      if starts 125 token then mret s
      else if is_null data then Fault (Sys_Error "ED_ParseEntity: EOF without closing brace")
      else if 64 <=? zlen token then Fault (Undefined "keyname overrun")
      else
        let keyname := token in
        '(token, data) ← COM_Parse data;
        if is_null data then Fault (Sys_Error "ED_ParseEntity: EOF without closing brace")
        else if starts 125 token then Fault (Sys_Error "ED_ParseEntity: closing brace without data")
        else
          key ← ED_FindGlobal keyname s;
          match key with
          | None => parse_globals fuel data s
          | Some key =>
              '(ok, s) ← ED_ParseEpair Globals key token s;
              if ok : bool then parse_globals fuel data s else Fault (Host_Error "ED_ParseGlobals: parse error")
          end
  end.
(** C: Source/pr_edict.c:666-698 ED_ParseGlobals *)
Definition ED_ParseGlobals (data : cptr) (s : edst W H) : res (edst W H) := parse_globals (text_fuel data) data s.


(** ** The entities of a map *)

(** [deathmatch.value] and [current_skill]. *)
Variable deathmatch : f32.
Variable current_skill : Z.

Definition SPAWNFLAG_NOT_EASY : Z := 256.
Definition SPAWNFLAG_NOT_MEDIUM : Z := 512.
Definition SPAWNFLAG_NOT_HARD : Z := 1024.
Definition SPAWNFLAG_NOT_DEATHMATCH : Z := 2048.

(** Is an entity left out of this game.
    C: Source/pr_edict.c:942-958 inhibit *)
Definition inhibited (flags : Z) : bool :=
  if f_truth deathmatch then truth (Z.land flags SPAWNFLAG_NOT_DEATHMATCH)
  else
    ((current_skill =? 0) && truth (Z.land flags SPAWNFLAG_NOT_EASY)) ||
    ((current_skill =? 1) && truth (Z.land flags SPAWNFLAG_NOT_MEDIUM)) ||
    ((2 <=? current_skill) && truth (Z.land flags SPAWNFLAG_NOT_HARD)).

(** What becomes of an entity that has been read: it is removed or its spawn function runs.
    C: Source/pr_edict.c:941-981 spawnflags *)
Definition spawn_entity (e : Z) (s : edst W H) : res (edst W H) :=
  flags ← rd (e_get (field_ofs e v_spawnflags)) s;
  if inhibited (f_to_int (f32_of_bits flags)) then ED_Free e s
  else
    classname ← rd (e_get (field_ofs e v_classname)) s;
    if negb (truth classname) then ED_Free e s
    else
      name ← rd (string_at (s32 classname)) s;
      func ← ED_FindFunction name s;
      match func with
      | None => ED_Free e s
      | Some f => s ← wr (g_set ofs_self (u32 e)) s; PR_ExecuteProgram f s
      end.

(** C: Source/pr_edict.c:929-982 ent *)
Fixpoint load_entities (fuel : nat) (data : cptr) (first : bool) (s : edst W H) : res (edst W H) :=
  match fuel with
  | O => Fault OutOfFuel
  | S fuel =>
      '(token, data) ← COM_Parse data;
      if is_null data then mret s
      else if negb (starts 123 token) then Fault (Sys_Error "ED_LoadFromFile: found %s when expecting {")
      else
        '(e, s) ← (if first : bool then e ← EDICT_NUM 0; mret (e, s) else ED_Alloc s);
        '(data, s) ← ED_ParseEdict data e s;
        s ← spawn_entity e s;
        load_entities fuel data false s
  end.

(** C: Source/pr_edict.c:918-985 ED_LoadFromFile *)
Definition ED_LoadFromFile (data : cptr) (s : edst W H) : res (edst W H) :=
  s ← wr (g_set ofs_time (bits_of_f32 (f32_of_f64 sv_time))) s;
  load_entities (text_fuel data) data true s.

(** * Memory *)

(** Two arrays of words: the globals and what is at [sv.edicts]. *)
Definition words (g : bool) (s : edst W H) : list Z := if g then pr_globals (machine s) else edicts (machine s).
Definition put_at (g : bool) (k : nat) (w : Z) (s : edst W H) : edst W H :=
  set_machine ((if g then set_pr_globals (<[k := w]> (pr_globals (machine s))) else set_edicts (<[k := w]> (edicts (machine s)))) (machine s)) s.

(** Where the words of a place are, how many it has, and whether they are in memory. *)
Definition is_globals (b : place) : bool := match b with Globals => true | Fields _ => false end.
Definition base (b : place) : Z := match b with Globals => 0 | Fields e => e / 4 + edict_v end.
Definition place_size (b : place) (s : edst W H) : Z := match b with Globals => zlen (pr_globals (machine s)) | Fields _ => entityfields progs end.
Definition place_ok (b : place) (s : edst W H) : Prop :=
  match b with Globals => True | Fields e => 0 <= e /\ e mod 4 = 0 /\ e / 4 + edict_v + entityfields progs <= zlen (edicts (machine s)) end.
Definition inside (b : place) (i : Z) (s : edst W H) : Prop := 0 <= i < place_size b s.
Definition cell (b : place) (i : Z) : nat := Z.to_nat (base b + i).
Definition word (b : place) (s : edst W H) (i : Z) : Z := default 0 (words (is_globals b) s !! cell b i).
Definition put (b : place) (i w : Z) (s : edst W H) : edst W H := put_at (is_globals b) (cell b i) w s.

#[global] Instance place_ok_dec b s : Decision (place_ok b s).
Proof. destruct b; apply _. Defined.

Lemma words_put_at g k w s g' : words g' (put_at g k w s) = if decide (g' = g) then <[k := w]> (words g s) else words g' s.
Proof. by destruct g, g'. Qed.

Lemma place_size_eq b s s' : (forall g, length (words g s') = length (words g s)) -> place_size b s' = place_size b s.
Proof. intros E. destruct b; [|done]. pose proof (E true) as Et. cbn in Et |- *. lia. Qed.
Lemma place_ok_eq b s s' : (forall g, length (words g s') = length (words g s)) -> place_ok b s -> place_ok b s'.
Proof. intros E. destruct b; [done|]. pose proof (E false) as Ef. cbn in Ef |- *. lia. Qed.

Lemma base_pos b s : place_ok b s -> 0 <= base b.
Proof. destruct b; [done|]. cbn. intros (H0 & _). pose proof (Z.div_pos e 4 H0 ltac:(lia)). unfold edict_v. lia. Qed.

Lemma cell_there b i s : place_ok b s -> inside b i s -> (cell b i < length (words (is_globals b) s))%nat.
Proof.
  intros Hb Hi. pose proof (base_pos b s Hb). unfold cell, inside in *. destruct b; cbn [place_size place_ok is_globals words base] in *; lia.
Qed.

Lemma field_place e i : e mod 4 = 0 -> field_ofs e i mod 4 = 0 /\ field_ofs e i / 4 = base (Fields e) + i.
Proof.
  intros He. unfold field_ofs. pose proof (Z.div_mod e 4 ltac:(lia)) as Hd. rewrite He in Hd. cbn [base].
  replace (e + 4 * (edict_v + i)) with ((e / 4 + edict_v + i) * 4) by lia. by rewrite Z_mod_mult, Z_div_mult_full by lia.
Qed.

Lemma get_ok (e : Z) i s : place_ok (Fields e) s -> inside (Fields e) i s -> rd (e_get (field_ofs e i)) s = Ok (word (Fields e) s i).
Proof.
  intros Hb Hi. pose proof (cell_there _ _ _ Hb Hi) as Hc. pose proof (base_pos _ _ Hb) as Hp. destruct (field_place e i (proj1 (proj2 Hb))) as [H1 H2].
  unfold rd, on_vm, e_get. rewrite H1, H2. cbn [negb Z.eqb]. unfold at_index, inside in *. assert (base (Fields e) + i <? 0 = false) as -> by lia.
  unfold word. fold (cell (Fields e) i). apply lookup_lt_is_Some in Hc as [w E]. cbn [is_globals words] in E |- *. by rewrite E.
Qed.

Lemma g_get_ok i s : inside Globals i s -> rd (g_get i) s = Ok (word Globals s i).
Proof.
  intros Hi. pose proof (cell_there Globals i s I Hi) as Hc. unfold rd, on_vm, g_get, at_index, word, cell, inside in *.
  cbn [base] in *. rewrite Z.add_0_l in *. assert (i <? 0 = false) as -> by lia. apply lookup_lt_is_Some in Hc as [w E].
  cbn [is_globals words] in E |- *. by rewrite E.
Qed.

Lemma put_word_ok b i w s : place_ok b s -> inside b i s -> put_word b i w s = Ok (put b i w s).
Proof.
  intros Hb Hi. pose proof (cell_there _ _ _ Hb Hi) as Hc. pose proof (base_pos _ _ Hb) as Hp. unfold inside in Hi.
  apply lookup_lt_is_Some in Hc as [w' E]. unfold cell in E. destruct b as [|e]; cbn [put_word is_globals words base] in *; unfold wr, on_vm.
  - unfold g_set, at_index. assert (i <? 0 = false) as -> by lia. rewrite Z.add_0_l in E. rewrite E. unfold put, put_at, cell. cbn [is_globals base]. by rewrite Z.add_0_l.
  - destruct (field_place e i (proj1 (proj2 Hb))) as [H1 H2]. unfold e_set. rewrite H1, H2. cbn [negb Z.eqb base]. unfold at_index.
    assert (e / 4 + edict_v + i <? 0 = false) as -> by lia. rewrite E. done.
Qed.

Lemma put_lengths b i w s g : length (words g (put b i w s)) = length (words g s).
Proof. unfold put. rewrite words_put_at. case_decide as Hg; [|done]. subst g. apply length_insert. Qed.

Lemma word_put b i w s j : place_ok b s -> inside b i s -> inside b j s -> word b (put b i w s) j = if decide (j = i) then w else word b s j.
Proof.
  intros Hb Hi Hj. pose proof (cell_there _ _ _ Hb Hi) as Hc. pose proof (base_pos _ _ Hb) as Hp. unfold inside in *.
  unfold word, put. rewrite words_put_at, decide_True by done. case_decide as Hd; [subst j; by rewrite list_lookup_insert_eq|].
  rewrite list_lookup_insert_ne; [done|]. unfold cell. lia.
Qed.

(** Is a word of memory one of a place. *)
Definition of_place (b : place) (g : bool) (k : nat) (s : edst W H) : Prop :=
  g = is_globals b /\ base b <= Z.of_nat k < base b + place_size b s.

(** Only words that [P] holds of are different, and the strings that the hunk had are there still. *)
Record apart_on (P : bool -> nat -> Prop) (s s' : edst W H) : Prop := Apart {
  ap_num : num_edicts s' = num_edicts s;
  ap_at : strings_at s' = strings_at s;
  ap_strings : pr_strings (machine s') = pr_strings (machine s);
  ap_lengths : forall g, length (words g s') = length (words g s);
  ap_words : forall g k, ~ P g k -> words g s' !! k = words g s !! k;
  ap_limit : hunk_limit (hunk s') = hunk_limit (hunk s);
  ap_good : hunk_good (hunk s) -> hunk_good (hunk s');
  ap_top : hunk_top (hunk s) <= hunk_top (hunk s');
  ap_heap : forall o, strings_at s + o < hunk_top (hunk s) -> heap_strings (machine s') !! o = heap_strings (machine s) !! o
}.

#[global] Instance apart_on_preorder P : PreOrder (apart_on P).
Proof.
  split; [intros s; by split|]. intros s1 s2 s3 [] []. split; try congruence; try lia; auto.
  - intros g k Hk. rewrite ap_words1 by done. auto.
  - intros o Ho. rewrite ap_heap1 by (rewrite ap_at0; lia). auto.
Qed.

Lemma apart_on_mono (P Q : bool -> nat -> Prop) s s' : (forall g k, P g k -> Q g k) -> apart_on P s s' -> apart_on Q s s'.
Proof. intros HPQ []. split; auto. Qed.

(** Only the words of a place are. *)
Definition apart (b : place) (s s' : edst W H) : Prop := apart_on (fun g k => of_place b g k s) s s'.

Lemma of_place_eq b g k s s' : (forall g, length (words g s') = length (words g s)) -> of_place b g k s' <-> of_place b g k s.
Proof. intros E. unfold of_place. by rewrite (place_size_eq b s s' E). Qed.

#[global] Instance apart_preorder b : PreOrder (apart b).
Proof.
  split; [intros s; unfold apart; reflexivity|]. intros s1 s2 s3 H1 H2. unfold apart in *. etransitivity; [exact H1|].
  eapply apart_on_mono; [|exact H2]. intros g k Hk. by rewrite of_place_eq in Hk by apply H1.
Qed.

Lemma put_apart b i w s : place_ok b s -> inside b i s -> apart b s (put b i w s).
Proof.
  intros Hb Hi. pose proof (base_pos b s Hb). split; try (unfold put, put_at; by destruct (is_globals b)); try done.
  - intros g. apply put_lengths.
  - intros g k Hk. unfold put. rewrite words_put_at. case_decide as Hg; [|done]. subst g. rewrite list_lookup_insert_ne; [done|].
    intros <-. apply Hk. split; [done|]. unfold inside, cell in *. lia.
Qed.

Lemma apart_inside b s s' i : apart b s s' -> inside b i s' <-> inside b i s.
Proof. intros Ha. unfold inside. by rewrite (place_size_eq b s s' (ap_lengths _ _ _ Ha)). Qed.
Lemma apart_ok b s s' : apart b s s' -> place_ok b s -> place_ok b s'.
Proof. intros Ha. apply place_ok_eq, Ha. Qed.

(** ** Clearing *)

Lemma zero_fields_ok n : forall e i s, place_ok (Fields e) s -> 0 <= i -> i + Z.of_nat n <= entityfields progs ->
  exists s', zero_fields n e i s = Ok s' /\ apart (Fields e) s s' /\ hunk s' = hunk s /\ world s' = world s /\ heap_strings (machine s') = heap_strings (machine s) /\
    forall j, inside (Fields e) j s -> word (Fields e) s' j = if decide (i <= j < i + Z.of_nat n) then 0 else word (Fields e) s j.
Proof.
  induction n as [|n IH]; intros e i s Hb Hi Hn; cbn [zero_fields].
  - exists s. split; [done|]. do 4 (split; [done|]). intros j Hj. case_decide; [lia|done].
  - assert (inside (Fields e) i s) as Hf by (unfold inside; cbn; lia). change (wr (e_set (field_ofs e i) 0) s) with (put_word (Fields e) i 0 s).
    rewrite put_word_ok, bind_Ok by done. pose proof (put_apart (Fields e) i 0 s Hb Hf) as Ha.
    destruct (IH e (i + 1) (put (Fields e) i 0 s)) as (s' & E & Hs & Hh & Hw & Hst & Hj); [by eapply apart_ok|lia|lia|].
    exists s'. split; [done|]. split; [by etransitivity|]. do 3 (split; [done|]).
    intros j Hj'. rewrite Hj, word_put by done. repeat case_decide; try lia; done.
Qed.

Lemma zero_all e s : place_ok (Fields e) s -> 0 <= entityfields progs ->
  exists s', zero_fields (Z.to_nat (entityfields progs)) e 0 s = Ok s' /\ apart (Fields e) s s' /\ hunk s' = hunk s /\ world s' = world s /\
    heap_strings (machine s') = heap_strings (machine s) /\ forall j, inside (Fields e) j s -> word (Fields e) s' j = 0.
Proof.
  intros Hb Hn. destruct (zero_fields_ok (Z.to_nat (entityfields progs)) e 0 s Hb) as (s' & E & Ha & Hh & Hw & Hs & Hj); [lia|lia|].
  exists s'. split; [done|]. do 4 (split; [done|]). intros j Hj'. rewrite Hj by done. unfold inside in Hj'. cbn in Hj'. case_decide; [done|lia].
Qed.

(** ** Entities by number *)

Lemma EDICT_NUM_ok n : 0 <= n < max_edicts progs -> EDICT_NUM n = Ok (n * pr_edict_size).
Proof. intros Hn. unfold EDICT_NUM. case_if; [apply orb_true_iff in E as [?|?]; bool_props; lia|done]. Qed.

Lemma NUM_FOR_EDICT_ok n s : 0 <= entityfields progs -> 0 <= n < num_edicts s -> NUM_FOR_EDICT (n * pr_edict_size) s = Ok n.
Proof.
  intros He Hn. unfold NUM_FOR_EDICT. assert (0 < pr_edict_size) by (unfold pr_edict_size, edict_v; lia).
  rewrite Z.quot_mul by lia. case_if; [apply orb_true_iff in E as [?|?]; bool_props; lia|done].
Qed.

(** All entities are in memory. *)
Definition all_there (s : edst W H) : Prop :=
  0 <= entityfields progs /\ max_edicts progs * (entityfields progs + edict_v) <= zlen (edicts (machine s)).

Lemma entity_place n s : all_there s -> 0 <= n < max_edicts progs ->
  place_ok (Fields (n * pr_edict_size)) s /\ n * pr_edict_size mod 4 = 0 /\ n * pr_edict_size / 4 = n * (entityfields progs + edict_v).
Proof.
  intros [H0 Hl] Hn. unfold pr_edict_size. replace (n * (4 * (entityfields progs + edict_v))) with (n * (entityfields progs + edict_v) * 4) by lia.
  rewrite Z_mod_mult, Z_div_mult_full by lia. split; [|done]. cbn [place_ok]. rewrite Z_mod_mult, Z_div_mult_full by lia.
  unfold edict_v in *. split; [nia|]. split; [done|]. nia.
Qed.

(** A word before the fields of an entity. *)
Definition head_word (s : edst W H) (e k : Z) : Z := default 0 (words false s !! Z.to_nat (e / 4 + k)).

Lemma head_get e k s : place_ok (Fields e) s -> 0 <= entityfields progs -> 0 <= k < edict_v -> rd (e_get (e + 4 * k)) s = Ok (head_word s e k).
Proof.
  intros (H0 & H1 & H2) Hn Hk. pose proof (Z.div_mod e 4 ltac:(lia)) as Hd. rewrite H1 in Hd. pose proof (Z.div_pos e 4 H0 ltac:(lia)).
  unfold rd, on_vm, e_get. replace (e + 4 * k) with ((e / 4 + k) * 4) by lia. rewrite Z_mod_mult, Z_div_mult_full by lia. cbn [negb Z.eqb].
  unfold at_index, head_word. cbn [words]. unfold edict_v in *. assert (e / 4 + k <? 0 = false) as -> by lia.
  assert (is_Some (edicts (machine s) !! Z.to_nat (e / 4 + k))) as [w E] by (apply lookup_lt_is_Some; lia). by rewrite E.
Qed.

Lemma head_set e k w s : place_ok (Fields e) s -> 0 <= entityfields progs -> 0 <= k < edict_v ->
  wr (e_set (e + 4 * k) w) s = Ok (put_at false (Z.to_nat (e / 4 + k)) w s).
Proof.
  intros (H0 & H1 & H2) Hn Hk. pose proof (Z.div_mod e 4 ltac:(lia)) as Hd. rewrite H1 in Hd. pose proof (Z.div_pos e 4 H0 ltac:(lia)).
  unfold wr, on_vm, e_set. replace (e + 4 * k) with ((e / 4 + k) * 4) by lia. rewrite Z_mod_mult, Z_div_mult_full by lia. cbn [negb Z.eqb].
  unfold at_index. unfold edict_v in *. assert (e / 4 + k <? 0 = false) as -> by lia.
  assert (is_Some (edicts (machine s) !! Z.to_nat (e / 4 + k))) as [w' E] by (apply lookup_lt_is_Some; lia). by rewrite E.
Qed.

(** A free entity that may be given out again: free for half a second, or since the first two. *)
Definition can_reuse (s : edst W H) (n : Z) : bool :=
  let e := n * pr_edict_size in reusable (head_word s e 0) (head_word s e 23).

Lemma find_free_ok s : all_there s -> forall n i, 0 <= i -> i + Z.of_nat n <= max_edicts progs ->
  exists r, find_free n i s = Ok r /\
    ((exists k, r = inl (k * pr_edict_size) /\ i <= k < i + Z.of_nat n /\ can_reuse s k = true /\ forall j, i <= j < k -> can_reuse s j = false) \/
     (r = inr (i + Z.of_nat n) /\ forall j, i <= j < i + Z.of_nat n -> can_reuse s j = false)).
Proof.
  intros Ht. induction n as [|n IH]; intros i Hi Hn; cbn [find_free].
  { eexists. split; [done|]. right. split; [f_equal; lia|lia]. }
  destruct (entity_place i s Ht ltac:(lia)) as (Hp & _). rewrite EDICT_NUM_ok, bind_Ok by lia.
  change (rd (e_get (i * pr_edict_size + ed_free)) s) with (rd (e_get (i * pr_edict_size + 4 * 0)) s).
  rewrite head_get, bind_Ok by (done || apply Ht). change (i * pr_edict_size + ed_freetime) with (i * pr_edict_size + 4 * 23).
  rewrite head_get by (done || apply Ht).
  assert (exists t, (if truth (head_word s (i * pr_edict_size) 0) then Ok (head_word s (i * pr_edict_size) 23) else mret 0) = Ok t /\
    reusable (head_word s (i * pr_edict_size) 0) t = can_reuse s i) as (t & -> & Et).
  { unfold can_reuse, reusable. destruct (truth _); by eexists. }
  rewrite bind_Ok, Et. destruct (can_reuse s i) eqn:Er.
  - eexists. split; [done|]. left. exists i. split; [done|]. split; [lia|]. split; [done|]. lia.
  - destruct (IH (i + 1)) as (r & E & Hr); [lia|lia|]. exists r. split; [done|].
    assert (forall k, (forall j, i + 1 <= j < k -> can_reuse s j = false) -> forall j, i <= j < k -> can_reuse s j = false) as Hstep.
    { intros k Hk j Hj. destruct (decide (j = i)) as [->|]; [done|apply Hk; lia]. }
    destruct Hr as [(k & -> & Hk & Hc & Hj)|[-> Hj]].
    + left. exists k. split; [done|]. split; [lia|]. split; [done|]. by apply Hstep.
    + right. split; [f_equal; lia|]. apply Hstep. intros j Hjj. apply Hj. lia.
Qed.

(** An entity whose fields are all zero and that is not free; nothing else is different. *)
Definition cleared (e : Z) (s s' : edst W H) : Prop :=
  (forall i, inside (Fields e) i s -> word (Fields e) s' i = 0) /\ head_word s' e 0 = 0 /\
  (forall k, Z.of_nat k <> e / 4 -> ~ of_place (Fields e) false k s -> edicts (machine s') !! k = edicts (machine s) !! k) /\
  pr_globals (machine s') = pr_globals (machine s) /\ hunk s' = hunk s /\ world s' = world s /\
  pr_strings (machine s') = pr_strings (machine s) /\ heap_strings (machine s') = heap_strings (machine s).

Lemma ED_ClearEdict_ok e s : place_ok (Fields e) s -> 0 <= entityfields progs ->
  exists s', ED_ClearEdict e s = Ok s' /\ cleared e s s' /\ num_edicts s' = num_edicts s.
Proof.
  intros Hp Hn. unfold ED_ClearEdict. destruct (zero_all e s Hp Hn) as (s1 & -> & Ha & Hh & Hw & Hs & Hj). rewrite bind_Ok.
  pose proof (apart_ok _ _ _ Ha Hp) as Hp1. pose proof (base_pos _ _ Hp) as Hb. cbn [base] in Hb. pose proof Hp as (He & _ & Hroom).
  pose proof (Z.div_pos e 4 He ltac:(lia)) as He4. change (e + ed_free) with (e + 4 * 0). rewrite head_set by done. rewrite Z.add_0_r.
  eexists. split; [done|]. pose proof (ap_lengths _ _ _ Ha false) as Hlen. cbn [words] in Hlen. split; [|apply Ha]. split.
  - intros i Hi. rewrite <- (Hj i Hi). unfold word. rewrite words_put_at, decide_True by done. rewrite list_lookup_insert_ne; [done|].
    unfold cell, inside in *. cbn [base] in *. unfold edict_v in *. lia.
  - split; [unfold head_word; rewrite words_put_at, decide_True, Z.add_0_r by done; rewrite list_lookup_insert_eq; [done|cbn [words]; unfold edict_v in *; lia]|].
    split.
    + intros k Hk Hk'. change (edicts (machine ?x)) with (words false x). rewrite words_put_at, decide_True by done.
      rewrite list_lookup_insert_ne by lia. by apply (ap_words _ _ _ Ha).
    + split; [|split; [done|split; [done|split; [apply Ha|done]]]]. cbn [machine put_at set_machine set_edicts pr_globals].
      apply list_eq. intros k. apply (ap_words _ _ _ Ha true). intros [Hk _]. discriminate Hk.
Qed.

(** C24: [ED_Alloc].  The first free entity after those of the clients that has been free for half
    a second (or since the first two) is given out again; when there is none, a new one is, as
    long as there is room, and the number of entities goes up by one.  Its fields are all zero, it
    is not free, and no word of another entity changes.  Without room it is [Sys_Error]. *)
Theorem ED_Alloc_spec s : all_there s -> 0 <= maxclients -> maxclients + 1 <= num_edicts s <= max_edicts progs ->
  max_edicts progs <= MAX_EDICTS ->
  (exists n s', ED_Alloc s = Ok (n * pr_edict_size, s') /\ cleared (n * pr_edict_size) s s' /\
     (forall i, maxclients < i < n -> can_reuse s i = false) /\
     ((maxclients < n < num_edicts s /\ can_reuse s n = true /\ num_edicts s' = num_edicts s) \/
      (n = num_edicts s /\ num_edicts s' = num_edicts s + 1))) \/
  (num_edicts s = max_edicts progs /\ (forall i, maxclients < i < num_edicts s -> can_reuse s i = false) /\
   exists msg, ED_Alloc s = Fault (Sys_Error msg)).
Proof.
  intros Ht Hc Hn Hmax. unfold ED_Alloc.
  destruct (find_free_ok s Ht (Z.to_nat (num_edicts s - (maxclients + 1))) (maxclients + 1)) as (r & -> & Hr); [lia|lia|]. rewrite bind_Ok.
  rewrite Z2Nat.id in Hr by lia. replace (maxclients + 1 + (num_edicts s - (maxclients + 1))) with (num_edicts s) in Hr by lia.
  destruct Hr as [(k & -> & Hk & Hck & Hj)|[-> Hj]].
  - left. destruct (entity_place k s Ht ltac:(lia)) as (Hp & _).
    destruct (ED_ClearEdict_ok _ s Hp (proj1 Ht)) as (s' & E & Hcl & En). exists k, s'. rewrite E. split; [done|]. split; [done|].
    split; [intros i Hi; apply Hj; lia|]. left. split; [lia|done].
  - assert (forall i, maxclients < i < num_edicts s -> can_reuse s i = false) as Hj' by (intros i Hi; apply Hj; lia).
    destruct (decide (num_edicts s = max_edicts progs)) as [Hfull|Hroom].
    + right. split; [done|]. split; [done|]. case_if; [by eexists|]. eexists. unfold EDICT_NUM. rewrite Hfull.
      by assert ((max_edicts progs <? 0) || (max_edicts progs <=? max_edicts progs) = true) as -> by lia.
    + left. assert (num_edicts s =? MAX_EDICTS = false) as -> by lia. rewrite EDICT_NUM_ok, bind_Ok by lia.
      destruct (entity_place (num_edicts s) s Ht ltac:(lia)) as (Hp & _).
      destruct (ED_ClearEdict_ok (num_edicts s * pr_edict_size) (set_num_edicts (num_edicts s + 1) s) Hp (proj1 Ht)) as (s' & E & Hcl & En).
      exists (num_edicts s), s'. rewrite E. split; [done|]. split; [exact Hcl|]. split; [done|]. right. by split.
Qed.

(** ** The loops over a text end *)

(** A run that ends, not for want of fuel, with a value that [P] holds of if there is one. *)
Definition gives {A} (P : A -> Prop) (r : res A) : Prop := match r with Ok a => P a | Fault f => f <> OutOfFuel end.
Abbreviation ends := (gives (fun _ => True)).

Lemma gives_bind {A B} (P : B -> Prop) (m : res A) (k : A -> res B) : ends m -> (forall a, m = Ok a -> gives P (k a)) -> gives P (m ≫= k).
Proof. intros Hm Hk. destruct m as [a|f]; [by apply Hk|done]. Qed.
Lemma gives_mono {A} (P Q : A -> Prop) r : gives P r -> (forall a, P a -> Q a) -> gives Q r.
Proof. destruct r; cbn; auto. Qed.
Lemma gives_if {A} (P : A -> Prop) (b : bool) x y : (b = true -> gives P x) -> (b = false -> gives P y) -> gives P (if b then x else y).
Proof. destruct b; auto. Qed.

Lemma ends_rd {A} (m : M A) s : (forall v, match m v with Throw OutOfFuel _ => False | _ => True end) -> ends (rd m s).
Proof. intros Hm. unfold rd, on_vm. specialize (Hm (machine s)). by destruct (m (machine s)) as [|[] ?]. Qed.
Lemma ends_wr (m : M unit) s : (forall v, match m v with Throw OutOfFuel _ => False | _ => True end) -> ends (wr m s).
Proof. intros Hm. unfold wr, on_vm. specialize (Hm (machine s)). by destruct (m (machine s)) as [|[] ?]. Qed.

(** What is left of a text. *)
Definition left_of (p : cptr) : nat := match p with At t => S (length t) | _ => 0 end.

Lemma token_end_inv tok p r : token_end tok p = Ok r -> r = (tok, p).
Proof. unfold token_end. case_if; [|done]. intros. by inv_ok. Qed.

Lemma parse_quoted_left data : forall tok t p, parse_quoted tok data = Ok (t, p) -> (left_of p <= S (length data))%nat.
Proof.
  induction data as [|b data IH]; intros tok t p Hp; cbn [parse_quoted] in Hp.
  - apply token_end_inv in Hp. injection Hp as -> ->. cbn. lia.
  - case_if_in Hp; [apply token_end_inv in Hp; injection Hp as -> ->; cbn; lia|]. inv_ok. apply IH in Hp. cbn [length]. lia.
Qed.

Lemma parse_word_left data : forall tok c t p, parse_word tok c data = Ok (t, p) -> (left_of p <= S (length data))%nat.
Proof.
  induction data as [|b data IH]; intros tok c t p Hp; cbn [parse_word] in Hp; inv_ok.
  - apply token_end_inv in Hp. injection Hp as -> ->. done.
  - case_if_in Hp; [apply token_end_inv in Hp; injection Hp as -> ->; done|]. apply IH in Hp. cbn [length]. lia.
Qed.

(** A token takes characters away. *)
Lemma COM_Parse_left data t p : COM_Parse data = Ok (t, p) -> p = Null \/ (left_of p < left_of data)%nat.
Proof.
  destruct data as [|s|]; cbn [COM_Parse]; intros Hp; [left; by inv_ok| |discriminate Hp].
  destruct (skip_white_total (length s + 1) s) as (o & E & Ho); [lia|]. rewrite E, bind_Ok in Hp.
  destruct o as [[|b d]|]; [left; by inv_ok| |left; by inv_ok]. right. destruct Ho as [Hs _]. apply suffix_length in Hs. cbn [length left_of] in Hs |- *.
  case_if_in Hp; [apply parse_quoted_left in Hp; lia|]. case_if_in Hp; [inv_ok; cbn; lia|]. apply parse_word_left in Hp. lia.
Qed.

Lemma COM_Parse_left_le data t p : COM_Parse data = Ok (t, p) -> (left_of p <= left_of data)%nat.
Proof. intros Hp. destruct (COM_Parse_left _ _ _ Hp) as [->|]; cbn; lia. Qed.

Lemma COM_Parse_ends data : ends (COM_Parse data).
Proof.
  destruct data as [|s|]; cbn [COM_Parse]; [done| |done].
  destruct (skip_white_total (length s + 1) s) as (o & -> & _); [lia|]. rewrite bind_Ok. destruct o as [[|b d]|]; [done| |done].
  assert (forall tok, ends (parse_quoted tok d)) as Hq.
  { induction d as [|c d IH]; intros tok; cbn [parse_quoted]; unfold token_end; repeat case_if; try done.
    apply gives_bind; [unfold token_put; by case_if|]. intros; apply IH. }
  assert (forall tok b, ends (parse_word tok b d)) as Hw.
  { clear. induction d as [|c d IH]; intros tok b; cbn [parse_word]; (apply gives_bind; [unfold token_put; by case_if|]; intros a _);
      unfold token_end; repeat case_if; first [done|apply IH]. }
  repeat case_if; [apply Hq|done|apply Hw].
Qed.

Lemma string_at_ends o v : match string_at o v with Throw OutOfFuel _ => False | _ => True end.
Proof. unfold string_at. destruct (_ !! _); [done|]. by case_if. Qed.
Lemma e_get_ends o v : match e_get o v with Throw OutOfFuel _ => False | _ => True end.
Proof. unfold e_get. case_if; [done|]. by destruct (at_index _ _). Qed.
Lemma e_set_ends o w v : match e_set o w v with Throw OutOfFuel _ => False | _ => True end.
Proof. unfold e_set. case_if; [done|]. by destruct (at_index _ _). Qed.
Lemma g_get_ends o v : match g_get o v with Throw OutOfFuel _ => False | _ => True end.
Proof. unfold g_get. by destruct (at_index _ _). Qed.
Lemma g_set_ends o w v : match g_set o w v with Throw OutOfFuel _ => False | _ => True end.
Proof. unfold g_set. by destruct (at_index _ _). Qed.

Hypothesis alloc_ends : forall n h, ends (hunk_alloc n h).
Hypothesis unlink_ends : forall e s, ends (SV_UnlinkEdict e s).
Hypothesis execute_ends : forall f s, ends (PR_ExecuteProgram f s).

Ltac ends_step := first
  [ done | apply COM_Parse_ends | apply alloc_ends | apply unlink_ends | apply execute_ends
  | apply ends_rd; intros; first [apply string_at_ends | apply e_get_ends | apply g_get_ends]
  | apply ends_wr; intros; first [apply e_set_ends | apply g_set_ends]
  | apply gives_bind; [|intros ? ?]
  | match goal with |- gives _ (match ?x with _ => _ end) => destruct x end ].
Ltac ends_auto := repeat (cbv zeta beta; ends_step).

Lemma find_name_ends {A} (f : A -> Z) xs : forall name i s, ends (find_name f xs name i s).
Proof. induction xs as [|x xs IH]; intros name i s; cbn [find_name]; ends_auto; apply IH. Qed.
Lemma EDICT_NUM_ends n : ends (EDICT_NUM n).
Proof. unfold EDICT_NUM. by case_if. Qed.
Lemma put_word_ends b i w s : ends (put_word b i w s).
Proof. destruct b; cbn; ends_auto. Qed.
Lemma put_vector_ends n : forall b i v s, ends (put_vector n b i v s).
Proof. induction n as [|n IH]; intros b i v s; cbn [put_vector]; ends_auto; (apply put_word_ends || apply IH). Qed.
Lemma zero_fields_ends n : forall e i s, ends (zero_fields n e i s).
Proof. induction n as [|n IH]; intros e i s; cbn [zero_fields]; ends_auto; apply IH. Qed.
Lemma write_fields_ends e ws : forall s, ends (write_fields e ws s).
Proof. induction ws as [|[i w] ws IH]; intros s; cbn [write_fields]; ends_auto; apply IH. Qed.

Lemma ED_ParseEpair_ends b key t s : ends (ED_ParseEpair b key t s).
Proof.
  unfold ED_ParseEpair, ED_NewString, ED_FindField, ED_FindFunction.
  ends_auto; try apply put_word_ends; try apply put_vector_ends; try apply find_name_ends; try apply EDICT_NUM_ends; ends_auto.
Qed.

Lemma key_of_ends tok : ends (key_of tok).
Proof. unfold key_of. ends_auto. Qed.
Lemma ED_FindField_ends name s : ends (ED_FindField name s).
Proof. unfold ED_FindField. ends_auto. apply find_name_ends. Qed.

Lemma parse_pairs_ends fuel : forall data e init s, (left_of data < fuel)%nat ->
  gives (fun r => left_of r.1.1 <= left_of data)%nat (parse_pairs fuel data e init s).
Proof.
  induction fuel as [|fuel IH]; intros data e init s Hf; [lia|]. cbn [parse_pairs].
  apply gives_bind; [apply COM_Parse_ends|]. intros [tok d1] E1. pose proof (COM_Parse_left_le _ _ _ E1) as H1.
  apply gives_if; intros C1; [exact H1|]. apply gives_if; intros C2; [done|].
  apply gives_bind; [apply key_of_ends|]. intros [k h] _.
  apply gives_bind; [apply COM_Parse_ends|]. intros [val d2] E2. destruct (COM_Parse_left _ _ _ E2) as [->|H2]; [done|].
  assert (forall s, gives (fun r => left_of r.1.1 <= left_of data)%nat (parse_pairs fuel d2 e true s)) as Hrec.
  { intros s'. eapply gives_mono; [apply IH; lia|]. cbn beta. lia. }
  apply gives_if; intros C3; [done|]. apply gives_if; intros C4; [done|]. apply gives_if; intros C5; [apply Hrec|].
  apply gives_bind; [apply ED_FindField_ends|]. intros [key|] _; [|apply Hrec].
  apply gives_bind; [ends_auto|]. intros tok' _. apply gives_bind; [apply ED_ParseEpair_ends|]. intros [[] s1] _; [apply Hrec|done].
Qed.

Lemma parse_globals_ends fuel : forall data s, (left_of data < fuel)%nat -> ends (parse_globals fuel data s).
Proof.
  induction fuel as [|fuel IH]; intros data s Hf; [lia|]. cbn [parse_globals].
  apply gives_bind; [apply COM_Parse_ends|]. intros [tok d1] E1. pose proof (COM_Parse_left_le _ _ _ E1) as H1.
  apply gives_if; intros C1; [done|]. apply gives_if; intros C2; [done|]. apply gives_if; intros C3; [done|].
  apply gives_bind; [apply COM_Parse_ends|]. intros [val d2] E2. destruct (COM_Parse_left _ _ _ E2) as [->|H2]; [done|].
  apply gives_if; intros C4; [done|]. apply gives_if; intros C5; [done|].
  apply gives_bind; [unfold ED_FindGlobal; ends_auto; apply find_name_ends|]. intros [key|] _; [|apply IH; lia].
  apply gives_bind; [apply ED_ParseEpair_ends|]. intros [[] s1] _; [apply IH; lia|done].
Qed.

Lemma text_fuel_enough data : (left_of data < text_fuel data)%nat.
Proof. destruct data; cbn; lia. Qed.

Lemma ED_ParseEdict_left data e s : gives (fun r => left_of r.1 <= left_of data)%nat (ED_ParseEdict data e s).
Proof.
  unfold ED_ParseEdict. apply gives_bind; [ends_auto; apply zero_fields_ends|]. intros s1 _.
  pose proof (parse_pairs_ends (text_fuel data) data e false s1 (text_fuel_enough data)) as Hp.
  destruct (parse_pairs _ _ _ _ _) as [[[d i] s2]|f]; [|done]. rewrite bind_Ok. apply gives_bind; [ends_auto|]. intros s3 _. exact Hp.
Qed.

Lemma ED_Free_ends e s : ends (ED_Free e s).
Proof. unfold ED_Free. ends_auto; apply write_fields_ends. Qed.

Lemma ED_ClearEdict_ends e s : ends (ED_ClearEdict e s).
Proof. unfold ED_ClearEdict. ends_auto. apply zero_fields_ends. Qed.

Lemma ED_Alloc_ends s : ends (ED_Alloc s).
Proof.
  assert (forall n i, ends (find_free n i s)) as Hf.
  { induction n as [|n IH]; intros i; cbn [find_free]; ends_auto; (apply EDICT_NUM_ends || apply IH). }
  unfold ED_Alloc. ends_auto; (apply Hf || apply zero_fields_ends || apply EDICT_NUM_ends).
Qed.

Lemma spawn_entity_ends e s : ends (spawn_entity e s).
Proof. unfold spawn_entity, ED_FindFunction. ends_auto; (apply ED_Free_ends || apply find_name_ends || apply write_fields_ends). Qed.

Lemma load_entities_ends fuel : forall data first s, (left_of data < fuel)%nat -> ends (load_entities fuel data first s).
Proof.
  induction fuel as [|fuel IH]; intros data first s Hf; [lia|]. cbn [load_entities].
  apply gives_bind; [apply COM_Parse_ends|]. intros [tok d1] E1. destruct (COM_Parse_left _ _ _ E1) as [->|H1]; [done|].
  apply gives_if; intros C1; [done|]. apply gives_if; intros C2; [done|].
  apply gives_bind; [destruct first; [apply gives_bind; [apply EDICT_NUM_ends|done]|apply ED_Alloc_ends]|]. intros [e s1] _.
  pose proof (ED_ParseEdict_left d1 e s1) as Hp. destruct (ED_ParseEdict d1 e s1) as [[d2 s2]|f]; [|done]. rewrite bind_Ok. cbn [gives fst] in Hp.
  apply gives_bind; [apply spawn_entity_ends|]. intros s3 _. apply IH. lia.
Qed.

(** C38: The loops that read entities and globals end on every text: the rounds the text has
    characters for are enough, whatever is in it.  (That the built-in operations they call end is
    assumed.) *)
Theorem loading_ends data e s :
  ED_ParseEdict data e s <> Fault OutOfFuel /\ ED_ParseGlobals data s <> Fault OutOfFuel /\ ED_LoadFromFile data s <> Fault OutOfFuel.
Proof.
  assert (forall A (r : res A), ends r -> r <> Fault OutOfFuel) as Hr by (intros A [a|f] He; [done|intros E; injection E as ->; by apply He]).
  split; [apply Hr; eapply gives_mono; [apply ED_ParseEdict_left|done]|]. split; apply Hr.
  - apply parse_globals_ends, text_fuel_enough.
  - unfold ED_LoadFromFile. apply gives_bind; [ends_auto|]. intros s1 _. apply load_entities_ends, text_fuel_enough.
Qed.
End edict.

(** * Entities at work *)

(** A hunk of which memory is only taken. *)
Program Definition taken : HunkAlloc Z := {|
  hunk_alloc n h := if h + n <=? 1000000 then Ok (h, h + n) else Fault (Sys_Error "Not enough RAM allocated.");
  hunk_top h := h;
  hunk_limit h := 1000000;
  hunk_good h := True
|}.
Next Obligation. intros n h _ Hn Hroom. cbn beta in Hroom. exists h, (h + n). assert (h + n <=? 1000000 = true) as -> by lia. split; [done|]. split; [done|]. lia. Qed.

#[local] Existing Instance taken.

(** Three entities of two fields; the last two are free, one of them since a quarter of a second. *)
Definition three_progs : progs_t := Progs [] [] [] 2 3.
Definition three_words : list Z :=
  0 :: repeat 0 25 ++ [1] ++ repeat 0 22 ++ [bits_of_f32 (f32_of_Z 9)] ++ [7; 7] ++ [1] ++ repeat 0 22 ++ [bits_of_f32 (f32_of_Z 8)] ++ [7; 7].
Definition three : edst unit Z := EdSt (VM [] [] 0 [] 0 0 0 0 [] three_words [0] ∅ true) 3 tt 100 0.
Definition three_now : f64 := f64_div (f64_of_Z 37) (f64_of_Z 4).

(** The second is the one that is taken. *)
Example three_taken : (match ED_Alloc three_progs three_now 0 three with Ok (e, _) => e | Fault _ => 0 end) = 2 * pr_edict_size three_progs.
Proof. by_vm. Qed.

Lemma ED_Alloc_spec_witness :
  (exists n s', ED_Alloc three_progs three_now 0 three = Ok (n * pr_edict_size three_progs, s') /\ cleared three_progs (n * pr_edict_size three_progs) three s' /\
     (forall i, 0 < i < n -> can_reuse three_progs three_now three i = false) /\
     ((0 < n < num_edicts three /\ can_reuse three_progs three_now three n = true /\ num_edicts s' = num_edicts three) \/
      (n = num_edicts three /\ num_edicts s' = num_edicts three + 1))) \/
  (num_edicts three = max_edicts three_progs /\ (forall i, 0 < i < num_edicts three -> can_reuse three_progs three_now three i = false) /\
   exists msg, ED_Alloc three_progs three_now 0 three = Fault (Sys_Error msg)).
Proof. apply (ED_Alloc_spec three_progs three_now 0 three); [split; by_vm|by_vm|split; by_vm|by_vm]. Defined.

Lemma loading_ends_witness :
  ED_ParseEdict three_progs (At (cs "{ a b")) 0 three <> Fault OutOfFuel /\ ED_ParseGlobals three_progs (At (cs "{ a b")) three <> Fault OutOfFuel /\
  ED_LoadFromFile three_progs three_now 0 (fun _ s => Ok s) (fun _ s => Ok s) (f32_of_Z 0) 0 (At (cs "{ a b")) three <> Fault OutOfFuel.
Proof.
  refine (loading_ends three_progs three_now 0 (fun _ s => Ok s) (fun _ s => Ok s) (f32_of_Z 0) 0 _ _ _ (At (cs "{ a b")) 0 three); [|done|done].
  intros n h. cbn. by destruct (h + n <=? 1000000).
Defined.
