(* ===== verification/EdictText.v ===== *)
(** The texts of entities and globals in saved games (Source/pr_edict.c): what [ED_Write] and
    [ED_WriteGlobals] write of a state is read back by [ED_ParseEdict] and [ED_ParseGlobals], in
    another state of the same game program, as the same values, for the values that have a text
    of their own. *)

From Stdlib Require Import SpecFloat.
From S2P Require Import Prelude CFloat FloatOrder CharConv ComString PrExec DecText Edict.
From S2P Require Cvar.

Section saved.
Context {W H : Type} `{!HunkAlloc H}.
Variable progs : progs_t.
Implicit Types (s : edst W H) (b : place) (d : ddef).

(** * Values that have a text *)

(** The string of a word. *)
Definition text_of s (w : Z) : res bytes := rd (string_at (s32 w)) s.

(** A text that comes back from the file as it is: no quote, no brace, no backslash. *)
Definition plain (t : bytes) : Prop := quotable t /\ zlen t < 256 /\ 125 ∉ t /\ 92 ∉ t.
#[global] Instance plain_dec t : Decision (plain t).
Proof. unfold plain. apply _. Defined.

Definition plain_float (w : Z) : bool := (0 <=? w) && (w <? 4294967296) && six_decimals (f32_of_bits w).
Definition float_text (w : Z) : bytes := Cvar.print_f (f32_of_bits w).

Definition same_text (r : res bytes) (t : bytes) : bool := match r with Ok t' => bool_decide (t' = t) | Fault _ => false end.

(** The text of the value that a definition has in [s], when reading it in [s2] gives the value
    back. *)
Definition value_text b s s2 d : option bytes :=
  let type := base_type (d_type d) in
  let w i := word b s (d_ofs d + i) in
  if type =? ev_string then
    match text_of s (w 0) with Ok t => if bool_decide (plain t) then Some t else None | Fault _ => None end
  else if type =? ev_float then if plain_float (w 0) then Some (float_text (w 0)) else None
  else if type =? ev_vector then
    let t := float_text (w 0) ++ [32] ++ float_text (w 1) ++ [32] ++ float_text (w 2) in
    if plain_float (w 0) && plain_float (w 1) && plain_float (w 2) && (zlen t <? 128) then Some t else None
  else if type =? ev_entity then
    let n := w 0 / pr_edict_size progs in
    if (0 <=? n) && (n <? num_edicts s) && (n <? max_edicts progs) && (w 0 =? n * pr_edict_size progs) && (w 0 <=? INT_MAX)
    then Some (print_i n) else None
  else if type =? ev_function then
    if (0 <=? w 0) && (w 0 <=? INT_MAX) then
      match at_index (function_names progs) (w 0) with
      | Some f =>
          match rd (string_at f) s with
          | Ok t =>
              if bool_decide (plain t) && match ED_FindFunction progs t s2 with Ok (Some i) => i =? w 0 | _ => false end
              then Some t else None
          | Fault _ => None
          end
      | None => None
      end
    else None
  else None.

(** How many words a definition of such a type has. *)
Definition count (d : ddef) : Z := if base_type (d_type d) =? ev_vector then 3 else 1.
Definition values b s d : list Z :=
  word b s (d_ofs d) :: if base_type (d_type d) =? ev_vector then [word b s (d_ofs d + 1); word b s (d_ofs d + 2)] else [].

(** [PR_UglyValueString] writes that text. *)
Lemma to_line_ok t : zlen t < 256 -> to_line t = Ok t.
Proof. intros Ht. unfold to_line. case_if; [lia|done]. Qed.

Lemma print_f_length x : f32_valid x -> six_decimals x = true -> zlen (Cvar.print_f x) <= 47.
Proof.
  intros Hv H6. destruct x as [[]| | |s m e]; [done|done|done|done|].
  destruct (print_f_text s m e Hv H6) as (ip & fp & -> & _ & _ & _ & Hl & Hi & _). unfold sign_text.
  rewrite !length_app. cbn [length]. destruct s; cbn [length]; lia.
Qed.

Lemma plain_float_inv w : plain_float w = true -> 0 <= w < 4294967296 /\ f32_valid (f32_of_bits w) /\ six_decimals (f32_of_bits w) = true /\
  bits_of_f32 (f32_of_bits w) = w.
Proof.
  unfold plain_float. intros Hp. bool_props. destruct (f32_of_bits_spec w) as [Hv Hb]; [lia|]. split; [lia|]. split; [done|]. split; [done|].
  apply Hb. intros E. rewrite E in *. discriminate.
Qed.

Lemma atof_float_text w : plain_float w = true -> bits_of_f32 (atof_f32 (float_text w)) = w.
Proof. intros (_ & Hv & H6 & Hb)%plain_float_inv. unfold float_text. by rewrite print_f_read. Qed.

Lemma float_text_length w : plain_float w = true -> zlen (float_text w) <= 47.
Proof. intros (_ & Hv & H6 & _)%plain_float_inv. by apply print_f_length. Qed.

Lemma print_i_length n : 0 <= n <= 2147483647 -> zlen (print_i n) < 256.
Proof.
  intros Hn. unfold print_i, dec. assert (n <? 0 = false) as -> by lia. rewrite Z.abs_eq by lia. cbn [app].
  pose proof (dec_loop_len (S (Z.to_nat (Z.log2 n))) n [] 10 ltac:(change (10 ^ Z.of_nat 10) with 10000000000; lia) ltac:(lia)). cbn [length] in *. lia.
Qed.

Lemma base_type_idem t : base_type (base_type t) = base_type t.
Proof. unfold base_type. by rewrite <- Z.land_assoc. Qed.

Lemma word_of_values b s d : word_of (values b s d) 0 = word b s (d_ofs d) /\
  (base_type (d_type d) = ev_vector -> word_of (values b s d) 1 = word b s (d_ofs d + 1) /\ word_of (values b s d) 2 = word b s (d_ofs d + 2)).
Proof. unfold values, word_of. by case_if. Qed.

(** Walk through the conditions of a text that is there. *)
Ltac some_text := repeat match goal with
  | E : None = Some _ |- _ => discriminate E
  | E : Some _ = Some _ |- _ => injection E as <-
  | E : (if ?c then _ else _) = Some _ |- _ => let C := fresh "C" in destruct c eqn:C; [|try discriminate E]; bool_props
  | E : match ?x with _ => _ end = Some _ |- _ => let C := fresh "C" in destruct x eqn:C
  | E : bool_decide _ = true |- _ => apply bool_decide_eq_true in E
  end.

Lemma ugly_value b s s2 d t : 0 <= entityfields progs -> value_text b s s2 d = Some t ->
  PR_UglyValueString progs (d_type d) (values b s d) s = Ok t.
Proof.
  intros He Hv. unfold value_text in Hv. unfold PR_UglyValueString. cbv zeta in Hv |- *.
  destruct (word_of_values b s d) as [W0 W12]. rewrite W0. rewrite Z.add_0_r in Hv. set (w := word b s (d_ofs d)) in *.
  destruct (base_type (d_type d) =? ev_string) eqn:T1.
  { unfold text_of in Hv. some_text. rewrite bind_Ok. apply to_line_ok. by destruct C0 as (_ & ? & _). }
  destruct (base_type (d_type d) =? ev_float) eqn:T2.
  { bool_props. rewrite T2. cbn. some_text. apply to_line_ok. pose proof (float_text_length w C). lia. }
  destruct (base_type (d_type d) =? ev_vector) eqn:T3.
  { bool_props. destruct (W12 T3) as [-> ->]. rewrite T3. some_text. unfold ev_vector, ev_string, ev_entity, ev_function, ev_field, ev_void, ev_float. cbn [Z.eqb Pos.eqb]. apply to_line_ok. unfold float_text in *. cbn [app] in *. lia. }
  destruct (base_type (d_type d) =? ev_entity) eqn:T4.
  { some_text. assert (0 <= w <= INT_MAX) by (unfold pr_edict_size, edict_v in *; nia). unfold INT_MAX in *. rewrite s32_id by lia.
    replace w with (w / pr_edict_size progs * pr_edict_size progs) at 1 by lia.
    rewrite NUM_FOR_EDICT_ok, bind_Ok by lia. apply to_line_ok, print_i_length. unfold pr_edict_size, edict_v in *; nia. }
  destruct (base_type (d_type d) =? ev_function) eqn:T5; [|discriminate Hv].
  some_text. rewrite s32_id by (unfold INT_MAX in *; lia). 
  match goal with E : at_index _ _ = Some _ |- _ => rewrite E end. cbn [of_option]. rewrite bind_Ok.
  match goal with E : rd _ _ = Ok _ |- _ => rewrite E end. rewrite bind_Ok. apply to_line_ok.
  by match goal with E : plain _ |- _ => destruct E as (_ & ? & _) end.
Qed.

(** * Reading a value *)

(** Strings and names that are there before reading starts. *)
Definition old s (o : Z) : Prop := strings_at s + o < hunk_top (hunk s).
Definition names_old s : Prop :=
  Forall (fun d => old s (d_name d)) (fielddefs progs) /\ Forall (fun d => old s (d_name d)) (globaldefs progs) /\
  Forall (old s) (function_names progs).

(** A state that can be read into: the place is in memory and offsets of new strings are [int]s. *)
Definition ready b s : Prop :=
  place_ok progs b s /\ hunk_good (hunk s) /\ 0 < hunk_top (hunk s) - strings_at s /\ hunk_limit (hunk s) - strings_at s <= INT_MAX /\ names_old s.

(** Room on the hunk for [n] strings. *)
Definition room (n : nat) s : Prop := 288 * Z.of_nat n <= hunk_limit (hunk s) - hunk_top (hunk s).

Lemma old_apart P s s' o : apart_on P s s' -> old s o -> old s' o.
Proof. intros [] Ho. unfold old in *. lia. Qed.

Lemma string_old P s s' o : apart_on P s s' -> old s o -> rd (string_at o) s' = rd (string_at o) s.
Proof.
  intros [] Ho. unfold rd, on_vm, string_at. rewrite ap_heap, ap_strings by done.
  destruct (heap_strings (machine s) !! o); [done|]. by case_if.
Qed.

Lemma find_name_old {A} (f : A -> Z) xs name P s s' : apart_on P s s' -> Forall (fun x => old s (f x)) xs ->
  forall i, find_name f xs name i s' = find_name f xs name i s.
Proof.
  intros Ha. induction 1 as [|x xs Hx _ IH]; intros i; cbn [find_name]; [done|]. rewrite (string_old P s s' _ Ha Hx).
  destruct (rd (string_at (f x)) s); cbn; [|done]. by rewrite IH.
Qed.

Lemma ready_apart P b s s' : apart_on P s s' -> ready b s -> ready b s'.
Proof.
  intros Ha (H1 & H2 & H3 & H4 & H5 & H6 & H7). pose proof Ha as []. split; [by eapply place_ok_eq|]. split; [auto|]. split; [lia|]. split; [lia|].
  split; [eapply Forall_impl; [exact H5|]; intros; by eapply old_apart|].
  split; (eapply Forall_impl; [eassumption|]; intros; by eapply old_apart).
Qed.

(** What a definition's words say is what they say in [s]. *)
Definition agree_as (is_string : bool) b s s' (i : Z) : Prop :=
  if is_string then old s' (s32 (word b s' i)) /\ text_of s' (word b s' i) = text_of s (word b s i) else word b s' i = word b s i.
Definition of_string d : bool := base_type (d_type d) =? ev_string.

(** Reading the value of [d] into [s1] gives [s1']. *)
Record value_read b s s1 s1' d : Prop := ValueRead {
  vr_apart : apart progs b s1 s1';
  vr_top : hunk_top (hunk s1') <= hunk_top (hunk s1) + 288;
  vr_other : forall j, inside progs b j s1 -> j < d_ofs d \/ d_ofs d + count d <= j -> word b s1' j = word b s1 j;
  vr_value : forall j, d_ofs d <= j < d_ofs d + count d -> agree_as (of_string d) b s s1' j
}.

Lemma unescape_plain t : 92 ∉ t -> unescape t = t.
Proof. induction t as [|c t IH]; cbn; [done|]. intros Hn. apply not_elem_of_cons in Hn as [Hc Hn]. rewrite IH by done. by assert (c =? 92 = false) as -> by lia. Qed.

(** One word that is not a string. *)
Lemma put_read b s s1 d w : ready b s1 -> inside progs b (d_ofs d) s1 -> count d = 1 -> of_string d = false -> word b s (d_ofs d) = w ->
  put_word b (d_ofs d) w s1 = Ok (put b (d_ofs d) w s1) /\ value_read b s s1 (put b (d_ofs d) w s1) d.
Proof.
  intros Hr Hi Hc Hs Hw. assert (place_ok progs b s1) as Hb by apply Hr. split; [by apply (put_word_ok progs)|]. split.
  - by apply put_apart.
  - destruct b; cbn; lia.
  - intros j Hj Hne. rewrite (word_put progs) by done. case_decide; [lia|done].
  - intros j Hj. assert (j = d_ofs d) as -> by lia. unfold agree_as. rewrite Hs, (word_put progs) by done. by rewrite decide_True.
Qed.

Lemma string_read b s s1 d t : ready b s1 -> room 1 s1 -> inside progs b (d_ofs d) s1 -> count d = 1 -> of_string d = true ->
  text_of s (word b s (d_ofs d)) = Ok t -> plain t ->
  exists s', ('(ofs, s2) ← ED_NewString t s1; put_word b (d_ofs d) (u32 ofs) s2) = Ok s' /\ value_read b s s1 s' d.
Proof.
  intros (Hb & Hg & Ht & Hl & Hn) Hroom Hi Hc Hs Htext (Hq & H256 & _ & H92). unfold room in Hroom.
  destruct (hunk_alloc_ok (zlen t + 1) (hunk s1) Hg) as (p & h' & E & Hg' & Hlim & Hp & Hpn & Htop); [lia|lia|].
  unfold ED_NewString. rewrite E, bind_Ok. rewrite unescape_plain by done.
  assert (s32 (p - strings_at s1) = p - strings_at s1) as Hofs by (apply s32_id; unfold INT_MAX in *; lia). rewrite Hofs. cbv zeta.
  set (s2 := set_machine _ _). rewrite bind_Ok.
  assert (apart progs b s1 s2) as Ha.
  { split; try done; try (by intros []); [cbn; lia|]. intros o Ho. cbn [machine s2 set_machine heap_strings set_heap_strings set_hunk].
    rewrite lookup_insert_ne; [done|]. lia. }
  assert (place_ok progs b s2) as Hb2 by (by eapply apart_ok). assert (inside progs b (d_ofs d) s2) as Hi2 by (by eapply apart_inside).
  rewrite (put_word_ok progs) by done. eexists. split; [done|]. pose proof (put_apart progs b (d_ofs d) (u32 (p - strings_at s1)) s2 Hb2 Hi2) as Ha2. split.
  - by etransitivity.
  - destruct b; cbn; lia.
  - intros j Hj Hne. rewrite (word_put progs) by (done || by eapply apart_inside). case_decide; [lia|]. by destruct b.
  - intros j Hj. assert (j = d_ofs d) as -> by lia. unfold agree_as. rewrite Hs, (word_put progs) by done. rewrite decide_True by done.
    rewrite Htext. assert (s32 (u32 (p - strings_at s1)) = p - strings_at s1) as Hu by (rewrite u32_id, s32_id by (unfold INT_MAX in *; lia); done).
    unfold text_of. rewrite Hu. split; [unfold old; destruct b; cbn; lia|].
    unfold rd, on_vm, string_at. assert (heap_strings (machine (put b (d_ofs d) (u32 (p - strings_at s1)) s2)) = heap_strings (machine s2)) as -> by (by destruct b).
    cbn [machine s2 set_machine heap_strings set_heap_strings]. by rewrite lookup_insert_eq.
Qed.

Lemma take_word_space w r : 32 ∉ w -> take_word (w ++ 32 :: r) = (w, Some r).
Proof.
  induction w as [|c w IH]; intros Hn; cbn [take_word app]; [done|]. apply not_elem_of_cons in Hn as [Hc Hn].
  assert (c =? 32 = false) as -> by lia. by rewrite IH.
Qed.
Lemma take_word_end w : 32 ∉ w -> take_word w = (w, None).
Proof. induction w as [|c w IH]; intros Hn; cbn; [done|]. apply not_elem_of_cons in Hn as [Hc Hn]. assert (c =? 32 = false) as -> by lia. by rewrite IH. Qed.

(** Characters of numbers. *)
Definition number_char (c : Z) : Prop := c = 45 \/ c = 46 \/ 48 <= c <= 57.
#[global] Instance number_char_dec c : Decision (number_char c).
Proof. unfold number_char. apply _. Defined.
Lemma digits_number ds : all_digits ds -> Forall number_char ds.
Proof. intros Hd. eapply Forall_impl; [exact Hd|]. intros c Hc. unfold CharConv.is_digit in Hc. bool_props. right; right. lia. Qed.

Lemma float_text_chars w : plain_float w = true -> Forall number_char (float_text w).
Proof.
  intros (_ & Hv & H6 & _)%plain_float_inv. unfold float_text. destruct (f32_of_bits w) as [[]| | |sg m e]; [| |done|done|].
  1, 2: by_decide.
  destruct (print_f_text sg m e Hv H6) as (ip & fp & -> & Hi & Hf & _). rewrite !Forall_app, Forall_cons.
  split; [destruct sg; cbn; repeat constructor; by left|]. split; [by apply digits_number|]. split; [by right; left|by apply digits_number].
Qed.

Lemma print_i_chars n : Forall number_char (print_i n).
Proof.
  unfold print_i. apply Forall_app. split; [case_if; repeat constructor; by left|]. apply digits_number. by apply dec_spec, Z.abs_nonneg.
Qed.

Lemma number_no c t : Forall number_char t -> ~ number_char c -> c ∉ t.
Proof. intros Ht Hc Hin. rewrite Forall_forall in Ht. by apply Hc, Ht. Qed.

Lemma no_space w : plain_float w = true -> 32 ∉ float_text w.
Proof. intros Hp. eapply number_no; [by apply float_text_chars|]. unfold number_char. lia. Qed.

Lemma vector_read b s s1 d : ready b s1 -> inside progs b (d_ofs d) s1 -> inside progs b (d_ofs d + 2) s1 -> count d = 3 -> of_string d = false ->
  let w i := word b s (d_ofs d + i) in
  plain_float (w 0) = true -> plain_float (w 1) = true -> plain_float (w 2) = true ->
  exists s', put_vector 3 b (d_ofs d) (Some (float_text (w 0) ++ [32] ++ float_text (w 1) ++ [32] ++ float_text (w 2))) s1 = Ok s' /\ value_read b s s1 s' d.
Proof.
  intros (Hb & _) Hi0 Hi2 Hc Hs w H0 H1 H2. assert (inside progs b (d_ofs d + 1) s1) as Hi1 by (unfold inside in *; lia).
  cbn [put_vector app]. rewrite take_word_space by (by apply no_space). rewrite atof_float_text, (put_word_ok progs), bind_Ok by done.
  set (sa := put b (d_ofs d) (w 0) s1). assert (apart progs b s1 sa) as Ha by (by apply put_apart).
  rewrite take_word_space by (by apply no_space). assert (place_ok progs b sa) as Hba by (by eapply apart_ok).
  rewrite atof_float_text, (put_word_ok progs), bind_Ok by (done || by eapply apart_inside).
  set (sb := put b (d_ofs d + 1) (w 1) sa). assert (apart progs b sa sb) as Hab by (apply put_apart; [done|by eapply apart_inside]).
  rewrite take_word_end by (by apply no_space). assert (place_ok progs b sb) as Hbb by (by eapply apart_ok).
  replace (d_ofs d + 1 + 1) with (d_ofs d + 2) by lia.
  assert (apart progs b s1 sb) as Hsb by (by etransitivity).
  rewrite atof_float_text, (put_word_ok progs), bind_Ok by (done || by eapply apart_inside).
  set (sc := put b (d_ofs d + 2) (w 2) sb). assert (apart progs b sb sc) as Hbc by (apply put_apart; [done|by eapply apart_inside]).
  exists sc. split; [done|].
  assert (forall j, inside progs b j s1 -> word b sc j = if decide (j = d_ofs d + 2) then w 2 else if decide (j = d_ofs d + 1) then w 1 else
    if decide (j = d_ofs d) then w 0 else word b s1 j) as Hword.
  { intros j Hj. assert (inside progs b j sa /\ inside progs b j sb) as [Hja Hjb] by (split; by eapply apart_inside).
    unfold sc. rewrite (word_put progs) by (done || by eapply apart_inside). case_decide; [done|].
    unfold sb. rewrite (word_put progs) by (done || by eapply apart_inside). case_decide; [done|].
    unfold sa. by rewrite (word_put progs). }
  split; [by etransitivity|unfold sc, sb, sa; destruct b; cbn; lia| |].
  - intros j Hj Hne. rewrite Hword by done. repeat case_decide; try lia; done.
  - intros j Hj. unfold agree_as. rewrite Hs, Hword by (unfold inside in *; lia). unfold w.
    repeat case_decide; try lia; subst j; f_equal; lia.
Qed.

(** The text of a value, read back: the words say what they said, nothing else is different. *)
Lemma ED_ParseEpair_read b s s2 s1 d t : 0 <= entityfields progs -> value_text b s s2 d = Some t -> names_old s2 -> apart progs b s2 s1 ->
  ready b s1 -> room 1 s1 -> inside progs b (d_ofs d) s1 -> inside progs b (d_ofs d + count d - 1) s1 ->
  exists s1', ED_ParseEpair progs b d t s1 = Ok (true, s1') /\ value_read b s s1 s1' d.
Proof.
  intros He Hv Hold Ha Hr Hroom Hi Hi2. unfold value_text in Hv. unfold ED_ParseEpair. cbv zeta in Hv |- *. rewrite !Z.add_0_r in Hv.
  destruct (base_type (d_type d) =? ev_string) eqn:T1.
  { some_text. bool_props. assert (count d = 1) as Hc by (unfold count; by rewrite T1). assert (of_string d = true) as Hs by (unfold of_string; by rewrite T1).
    match goal with E : text_of s _ = Ok ?t |- _ => rename t into t0 end.
    destruct (string_read b s s1 d t0) as (s' & E & Hs'); [done..|]. destruct (ED_NewString t0 s1) as [[ofs sn]|f]; [|discriminate E].
    cbn [mbind res_bind] in E |- *. rewrite E. exists s'. by split. }
  assert (of_string d = false) as Hs by (unfold of_string; lia).
  destruct (base_type (d_type d) =? ev_float) eqn:T2.
  { some_text. bool_props. assert (count d = 1) as Hc by (unfold count; by rewrite T2). rewrite atof_float_text by done.
    destruct (put_read b s s1 d _ Hr Hi Hc Hs eq_refl) as [-> Hrd]. rewrite bind_Ok. by eexists. }
  destruct (base_type (d_type d) =? ev_vector) eqn:T3.
  { assert (count d = 3) as Hc by (unfold count; by rewrite T3). some_text. assert (128 <=? _ = false) as -> by (apply Z.leb_gt; eassumption).
    destruct (vector_read b s s1 d Hr Hi) as (s' & E & Hs'); [by replace (d_ofs d + 2) with (d_ofs d + count d - 1) by lia|done|done|by rewrite Z.add_0_r|done|done|].
    rewrite Z.add_0_r in E. cbn [app] in E. rewrite E, bind_Ok. by eexists. }
  assert (count d = 1) as Hc by (unfold count; by rewrite T3).
  destruct (base_type (d_type d) =? ev_entity) eqn:T4.
  { some_text. set (n := word b s (d_ofs d) / pr_edict_size progs) in *. assert (n <= INT_MAX) by (unfold pr_edict_size, edict_v in *; nia).
    assert (0 <= word b s (d_ofs d)) by (unfold pr_edict_size, edict_v in *; nia). unfold INT_MAX in *.
    rewrite print_i_read by (unfold is_int, INT_MIN, INT_MAX; lia). rewrite EDICT_NUM_ok, bind_Ok by lia.
    destruct (put_read b s s1 d (u32 (n * pr_edict_size progs)) Hr Hi Hc Hs) as [-> Hrd]; [rewrite u32_id; lia|]. rewrite bind_Ok. by eexists. }
  destruct (base_type (d_type d) =? ev_function) eqn:T5; [|discriminate Hv]. bool_props. rewrite T5. unfold ev_function, ev_field. cbn [Z.eqb Pos.eqb].
  some_text. assert (forall t, ED_FindFunction progs t s1 = ED_FindFunction progs t s2) as Hf.
  { intros t. unfold ED_FindFunction. by rewrite (find_name_old _ _ _ _ _ _ Ha (proj2 (proj2 Hold))). }
  rewrite Hf.
  repeat match goal with E : match ?x with _ => _ end = true |- _ => destruct x; try discriminate E end. bool_props. subst z0.
  rewrite bind_Ok. unfold INT_MAX in *. destruct (put_read b s s1 d (u32 (word b s (d_ofs d))) Hr Hi Hc Hs) as [-> Hrd]; [rewrite u32_id; lia|].
  rewrite bind_Ok. by eexists.
Qed.

(** * The pairs of a place *)

(** A name that is read as it was written: not one of those that are changed or left out. *)
Definition key_name (n : bytes) : Prop :=
  plain n /\ n <> cs "angle" /\ n <> cs "light" /\ starts 95 n = false /\ trim_end n = n.
#[global] Instance key_name_dec n : Decision (key_name n).
Proof. unfold key_name. apply _. Defined.

(** Is a word one of a string. *)
Definition string_word (ds : list ddef) (i : Z) : bool := existsb (fun d => of_string d && (d_ofs d =? i)) ds.

(** Strings do not share words with anything else. *)
Definition strings_apart (ds : list ddef) : bool :=
  forallb (fun d => of_string d || forallb (fun i => negb (string_word ds i)) (seqZ (d_ofs d) (count d))) ds.

Lemma string_word_true ds d : d ∈ ds -> of_string d = true -> string_word ds (d_ofs d) = true.
Proof.
  intros Hd Hs. apply existsb_exists. exists d. split; [by apply list_elem_of_In|]. by rewrite Hs, Z.eqb_refl.
Qed.
Lemma strings_apart_word ds d i : strings_apart ds = true -> d ∈ ds -> d_ofs d <= i < d_ofs d + count d ->
  of_string d = false -> string_word ds i = false.
Proof.
  intros Ha Hd Hi Hs. unfold strings_apart in Ha. rewrite forallb_forall in Ha. specialize (Ha d ltac:(by apply list_elem_of_In)).
  rewrite Hs in Ha. cbn [orb] in Ha. rewrite forallb_forall in Ha. apply negb_true_iff, Ha, list_elem_of_In, elem_of_seqZ. lia.
Qed.

Lemma count_string d : of_string d = true -> count d = 1.
Proof. unfold of_string, count. intros Hs. bool_props. by rewrite Hs. Qed.
Lemma count_pos d : 1 <= count d <= 3.
Proof. unfold count. case_if; lia. Qed.

Lemma string_word_of ds d i : strings_apart ds = true -> d ∈ ds -> d_ofs d <= i < d_ofs d + count d -> string_word ds i = of_string d.
Proof.
  intros Ha Hd Hi. destruct (of_string d) eqn:Hs; [|by eapply strings_apart_word]. pose proof (count_string d Hs).
  assert (i = d_ofs d) as -> by lia. by apply string_word_true.
Qed.

(** A word that agrees keeps agreeing while other words are read. *)
Lemma agree_keeps P k b s s1 s1' i : apart_on P s1 s1' -> word b s1' i = word b s1 i -> agree_as k b s s1 i -> agree_as k b s s1' i.
Proof.
  intros Ha Hw Hag. unfold agree_as in *. rewrite Hw. destruct k; [|done]. destruct Hag as [Ho Ht].
  split; [by eapply old_apart|]. rewrite <- Ht. unfold text_of. by eapply string_old.
Qed.

(** What has been read when the definitions [done] have: their words agree with [s], and a word is
    either as it was or agrees. *)
Record have_read (ds done : list ddef) b s s2 s1 : Prop := HaveRead {
  hr_apart : apart progs b s2 s1;
  hr_done : forall d i, d ∈ done -> d_ofs d <= i < d_ofs d + count d -> agree_as (string_word ds i) b s s1 i;
  hr_word : forall i, inside progs b i s2 -> word b s1 i = word b s2 i \/ agree_as (string_word ds i) b s s1 i
}.

Lemma have_read_nil ds b s s2 : have_read ds [] b s s2 s2.
Proof. split; [done|intros d i Hd; by apply not_elem_of_nil in Hd|by left]. Qed.

Lemma have_read_step ds done b s s2 s1 s1' d : strings_apart ds = true -> d ∈ ds ->
  (forall d', d' ∈ d :: done -> 0 <= d_ofs d' /\ d_ofs d' + count d' <= place_size progs b s2) ->
  have_read ds done b s s2 s1 -> value_read b s s1 s1' d -> have_read ds (d :: done) b s s2 s1'.
Proof.
  intros Hds Hd Hin [Ha Hag Hw] [Hva _ Hvo Hvv].
  assert (forall i, inside progs b i s2 -> agree_as (string_word ds i) b s s1 i -> agree_as (string_word ds i) b s s1' i) as Hkeep.
  { intros i Hi Hi2. destruct (decide (d_ofs d <= i < d_ofs d + count d)) as [Hr|Hr].
    - rewrite (string_word_of ds d i) by done. by apply Hvv.
    - eapply agree_keeps; [done| |exact Hi2]. apply Hvo; [|lia]. by eapply apart_inside. }
  split.
  - by etransitivity.
  - intros d' i Hd' Hi. apply elem_of_cons in Hd' as [->|Hd'].
    + rewrite (string_word_of ds d i) by done. by apply Hvv.
    + apply Hkeep; [|by eapply Hag]. specialize (Hin d' ltac:(by apply elem_of_cons; right)). unfold inside. lia.
  - intros i Hi. destruct (decide (d_ofs d <= i < d_ofs d + count d)) as [Hr|Hr].
    + right. rewrite (string_word_of ds d i) by done. by apply Hvv.
    + destruct (Hw i Hi) as [E|Hag']; [left|right; by apply Hkeep]. rewrite <- E. apply Hvo; [|lia]. by eapply apart_inside.
Qed.

(** ** The pairs of an entity *)

Lemma parse_newline_quoted t rest : quotable t -> COM_Parse (At (10 :: 34 :: t ++ 34 :: rest)) = Ok (t, At rest).
Proof.
  intros [Hq Hl]. cbn [COM_Parse]. rewrite Nat.add_1_r.
  assert (forall n, skip_white (S n) (10 :: 34 :: t ++ 34 :: rest) = Ok (Some (34 :: t ++ 34 :: rest))) as -> by done.
  cbn. by rewrite parse_quoted_spec.
Qed.

Lemma parse_newline_brace rest : COM_Parse (At (10 :: 125 :: rest)) = Ok ([125], At rest).
Proof. cbn [COM_Parse]. rewrite Nat.add_1_r. done. Qed.

Lemma starts_no c t : c ∉ t -> starts c t = false.
Proof. destruct t as [|x t]; [done|]. intros Hn. apply not_elem_of_cons in Hn as [Hn _]. cbn. lia. Qed.

(** A value's text is plain in any case. *)
Lemma value_quotable b s s2 d t : 0 <= entityfields progs -> value_text b s s2 d = Some t -> quotable t /\ 125 ∉ t.
Proof.
  intros He Hv. assert (forall t, Forall (fun c => number_char c \/ c = 32) t -> zlen t < 256 -> quotable t /\ 125 ∉ t) as Hnum.
  { intros t' Ht Hl. split; [split; [|lia]|].
    - eapply Forall_impl; [exact Ht|]. unfold number_char. cbn. lia.
    - intros Hin. rewrite Forall_forall in Ht. apply Ht in Hin. unfold number_char in Hin. lia. }
  assert (forall t, Forall number_char t -> Forall (fun c => number_char c \/ c = 32) t) as Hweak.
  { intros t' Ht. eapply Forall_impl; [exact Ht|]. by left. }
  unfold value_text in Hv. cbv zeta in Hv. some_text; bool_props.
  - match goal with E : plain _ |- _ => by destruct E as (? & _ & ? & _) end.
  - apply Hnum; [by apply Hweak, float_text_chars|]. pose proof (float_text_length _ ltac:(eassumption)). lia.
  - apply Hnum; [|cbn [app] in *; lia]. change (32 :: ?x ++ ?y) with ([32] ++ x ++ y).
    apply Forall_app; split; [by apply Hweak, float_text_chars|]. constructor; [by right|].
    apply Forall_app; split; [by apply Hweak, float_text_chars|]. constructor; [by right|]. by apply Hweak, float_text_chars.
  - apply Hnum; [by apply Hweak, print_i_chars|]. apply print_i_length. unfold INT_MAX, pr_edict_size, edict_v in *. nia.
  - match goal with E : plain _ |- _ => by destruct E as (? & _ & ? & _) end.
Qed.

(** Neither a brace nor a zero. *)
Definition clean (t : bytes) : Prop := Forall (fun c => c <> 125 /\ c <> 0) t.

Lemma quotable_clean t : quotable t -> 125 ∉ t -> clean t.
Proof.
  intros [Hq _] Hn. unfold clean. rewrite Forall_forall in Hq |- *. intros c Hc. specialize (Hq c Hc). split; [by intros ->|lia].
Qed.

Lemma pair_clean name value : quotable name -> 125 ∉ name -> quotable value -> 125 ∉ value -> clean (pair_text name value).
Proof.
  intros H1 H2 H3 H4. unfold clean, pair_text. rewrite !Forall_app, !Forall_cons. repeat split; try done; try apply Forall_nil; by apply quotable_clean.
Qed.

(** A pair takes one round. *)
Lemma parse_pair fuel name value rest e init s1 s1' d : key_name name -> quotable value -> 125 ∉ value ->
  ED_FindField progs name s1 = Ok (Some d) -> ED_ParseEpair progs (Fields e) d value s1 = Ok (true, s1') ->
  parse_pairs progs (S fuel) (At (10 :: pair_text name value ++ rest)) e init s1 = parse_pairs progs fuel (At (10 :: rest)) e true s1'.
Proof.
  intros (Hp & Ha & Hl & Hu & Ht) Hq Hb Hf Hr. destruct Hp as (Hqn & H256 & Hbn & _).
  assert (10 :: pair_text name value ++ rest = 10 :: 34 :: name ++ 34 :: [32] ++ 34 :: value ++ 34 :: 10 :: rest) as ->.
  { unfold pair_text. cbn [app]. rewrite <- !app_assoc. cbn [app]. rewrite <- !app_assoc. done. }
  cbn [parse_pairs]. rewrite parse_newline_quoted, bind_Ok by done. rewrite starts_no by done. cbn [is_null].
  assert (key_of name = Ok (name, false)) as ->.
  { unfold key_of. rewrite (bool_decide_eq_false_2 _ Ha). cbv zeta iota. rewrite (bool_decide_eq_false_2 _ Hl).
    assert (256 <=? zlen name = false) as -> by lia. by rewrite Ht. }
  rewrite bind_Ok.
  rewrite COM_Parse_quoted, bind_Ok by (done || by right). cbn [is_null]. rewrite starts_no, Hu, Hf by done. rewrite !bind_Ok, Hr, bind_Ok. done.
Qed.

(** ** An entity *)

Definition nonzero b s d : bool := negb (forallb (Z.eqb 0) (values b s d)).

(** A field of [s] that is left out, or whose value has a text that is read back in [s2]. *)
Definition field_saved (e : Z) s s2 d : bool :=
  (0 <=? d_ofs d) && (d_ofs d + count d <=? entityfields progs) && (base_type (d_type d) <=? 7) &&
  (negb (nonzero (Fields e) s d) ||
   match value_text (Fields e) s s2 d, rd (string_at (d_name d)) s with
   | Some _, Ok n => bool_decide (key_name n) && match ED_FindField progs n s2 with Ok (Some d') => bool_decide (d' = d) | _ => false end
   | _, _ => false
   end).

Lemma size_of_count d : base_type (d_type d) <= 7 -> size_of (d_type d) = Ok (Z.to_nat (count d)).
Proof.
  intros H7. assert (0 <= base_type (d_type d)) as H0 by (unfold base_type; apply Z.land_nonneg; lia).
  unfold size_of, count. set (t := base_type (d_type d)) in *.
  assert (t = 0 \/ t = 1 \/ t = 2 \/ t = 3 \/ t = 4 \/ t = 5 \/ t = 6 \/ t = 7) as Ht by lia.
  by repeat (destruct Ht as [->|Ht]; [done|]); subst t; rewrite Ht.
Qed.

Lemma read_values e s d : place_ok progs (Fields e) s -> 0 <= d_ofs d -> d_ofs d + count d <= entityfields progs ->
  read_fields (Z.to_nat (count d)) e (d_ofs d) s = Ok (values (Fields e) s d).
Proof.
  intros Hb H0 Hn. assert (forall i, 0 <= i < entityfields progs -> rd (e_get (field_ofs e i)) s = Ok (word (Fields e) s i)) as Hg
    by (intros i Hi; by apply (get_ok progs)).
  unfold values, count in *. destruct (base_type (d_type d) =? ev_vector).
  - change (Z.to_nat 3) with 3%nat. cbn [read_fields]. rewrite <- Z.add_assoc, !Hg by lia. done.
  - change (Z.to_nat 1) with 1%nat. cbn [read_fields]. by rewrite Hg by lia.
Qed.

Lemma fields_written all e s s2 : 0 <= entityfields progs -> place_ok progs (Fields e) s -> names_old s2 -> strings_apart all = true ->
  forall ds done s1 init, Forall (fun d => d ∈ all /\ field_saved e s s2 d = true) ds ->
  (forall d, d ∈ done -> 0 <= d_ofs d /\ d_ofs d + count d <= entityfields progs) ->
  have_read all done (Fields e) s s2 s1 -> ready (Fields e) s1 -> room (length ds) s1 ->
  exists txt, write_defs progs ds e s = Ok txt /\ clean txt /\ forall rest fuel, (length txt < fuel)%nat ->
  exists s1' done', parse_pairs progs fuel (At (10 :: txt ++ 125 :: rest)) e init s1 = Ok (At rest, init || existsb (nonzero (Fields e) s) ds, s1') /\
    have_read all done' (Fields e) s s2 s1' /\ (forall d, d ∈ done \/ d ∈ ds /\ nonzero (Fields e) s d = true -> d ∈ done') /\
    apart progs (Fields e) s1 s1' /\ hunk_top (hunk s1') <= hunk_top (hunk s1) + 288 * zlen ds.
Proof.
  intros He Hb Hnames Hall. induction ds as [|d ds IH]; intros done s1 init Hds Hdone Hhr Hr Hroom; cbn [write_defs].
  { exists []. split; [done|]. split; [by constructor|]. intros rest fuel Hf. destruct fuel as [|fuel]; [cbn in Hf; lia|].
    exists s1, done. cbn [app parse_pairs]. rewrite parse_newline_brace, bind_Ok. cbn. rewrite orb_false_r. split; [done|]. split; [done|].
    split; [|split; [reflexivity|lia]]. intros d [Hd|[Hd _]]; [done|by apply not_elem_of_nil in Hd]. }
  apply Forall_cons in Hds as [[Hdall Hd] Hds]. unfold field_saved in Hd. bool_props.
  rewrite size_of_count, bind_Ok, read_values, bind_Ok by done.
  destruct (nonzero (Fields e) s d) eqn:Hz; unfold nonzero in Hz.
  - apply negb_true_iff in Hz. rewrite Hz. assert (nonzero (Fields e) s d = true) as Hz' by (unfold nonzero; by rewrite Hz). rewrite ?Hz' in *. cbn [negb orb] in *.
    destruct (value_text (Fields e) s s2 d) as [value|] eqn:Hv; [|discriminate]. destruct (rd (string_at (d_name d)) s) as [name|] eqn:Hn; [|discriminate].
    rewrite bind_Ok, (ugly_value (Fields e) s s2 d value) by done. rewrite bind_Ok. bool_props.
    match goal with E : bool_decide (key_name name) = true |- _ => apply bool_decide_eq_true in E as Hkey end.
    destruct (ED_FindField progs name s2) as [[d'|]|] eqn:Hf2; [|discriminate..].
    match goal with E : bool_decide (d' = d) = true |- _ => apply bool_decide_eq_true in E as -> end.
    destruct (value_quotable _ _ _ _ _ He Hv) as [Hq H125v].
    assert (ED_FindField progs name s1 = Ok (Some d)) as Hf1.
    { rewrite <- Hf2. unfold ED_FindField. by rewrite (find_name_old _ _ _ _ _ _ (hr_apart _ _ _ _ _ _ Hhr) (proj1 Hnames)). }
    pose proof (count_pos d). destruct (ED_ParseEpair_read (Fields e) s s2 s1 d value) as (s1a & Ep & Hvr); [done|done|done|apply Hhr|done| | | |].
    { unfold room in *; cbn [length] in Hroom; lia. }
    { unfold inside. cbn. lia. }
    { unfold inside. cbn. lia. }
    assert (have_read all (d :: done) (Fields e) s s2 s1a) as Hhr2.
    { eapply have_read_step; [done|done| |done|done]. intros d' Hd'. apply elem_of_cons in Hd' as [->|Hd']; [done|]. cbn. by apply Hdone. }
    pose proof (vr_apart _ _ _ _ _ Hvr) as Hap1. pose proof (vr_top _ _ _ _ _ Hvr) as Htop1. pose proof (ap_limit _ _ _ Hap1) as Hlim1.
    destruct (IH (d :: done) s1a true Hds) as (txt & E & H125 & Hp); [|done|by eapply ready_apart|unfold room in *; cbn [length] in Hroom; lia|].
    { intros d' Hd'. apply elem_of_cons in Hd' as [->|Hd']; [done|]. by apply Hdone. }
    rewrite E, bind_Ok. exists (pair_text name value ++ txt). split; [done|]. split.
    { destruct Hkey as ((Hkq & _ & Hkn & _) & _). by apply Forall_app; split; [apply pair_clean|]. }
    intros rest fuel Hf. destruct fuel as [|fuel]; [lia|]. rewrite <- app_assoc. rewrite (parse_pair fuel name value _ e init s1 s1a d) by done.
    destruct (Hp rest fuel) as (s1' & done' & Ep' & Hhr' & Hdn & Hap & Htop); [unfold pair_text in Hf; rewrite !length_app in Hf; cbn [length] in Hf; lia|].
    exists s1', done'. cbn [existsb]. rewrite Hz', Ep'. cbn [orb]. rewrite orb_true_r. split; [done|]. split; [done|]. split; [|split; [by etransitivity|cbn [length]; lia]].
    intros d' [Hd'|[Hd' Hnz]]; [apply Hdn; left; by apply elem_of_cons; right|]. apply elem_of_cons in Hd' as [->|Hd']; apply Hdn; [left; by apply elem_of_cons; left|by right].
  - apply negb_false_iff in Hz. rewrite Hz. destruct (IH done s1 init Hds Hdone Hhr Hr) as (txt & E & H125 & Hp); [unfold room in *; cbn [length] in Hroom; lia|].
    exists txt. split; [done|]. split; [done|]. intros rest fuel Hf. destruct (Hp rest fuel Hf) as (s1' & done' & Ep & Hhr' & Hdn & Hap & Htop).
    exists s1', done'. cbn [existsb]. assert (nonzero (Fields e) s d = false) as Hz' by (unfold nonzero; by rewrite Hz).
    rewrite Hz'. split; [done|]. split; [done|]. split; [|split; [done|cbn [length]; lia]].
    intros d' [Hd'|[Hd' Hn]]; [apply Hdn; by left|]. apply elem_of_cons in Hd' as [->|Hd']; [congruence|]. apply Hdn. by right.
Qed.

Definition saved_fields : list ddef := tail (fielddefs progs).

(** Every field says in [s'] what it says in [s]: the same words, or a string with the same text. *)
Definition same_fields (e : Z) s s' : Prop :=
  forall d i, d ∈ saved_fields -> d_ofs d <= i < d_ofs d + count d -> agree_as (of_string d) (Fields e) s s' i.

(** The words of an entity, those before its fields included. *)
Definition entity_words (e : Z) (g : bool) (k : nat) : Prop := g = false /\ e / 4 <= Z.of_nat k < e / 4 + edict_v + entityfields progs.

Lemma apart_entity e s s' : apart progs (Fields e) s s' -> apart_on (entity_words e) s s'.
Proof. apply apart_on_mono. intros g k [-> Hk]. cbn in Hk. split; [done|]. unfold edict_v in *. lia. Qed.

Lemma head_apart e s s' : apart progs (Fields e) s s' -> 0 <= e -> e mod 4 = 0 -> head_word s' e 0 = head_word s e 0.
Proof.
  intros Ha He Hm. unfold head_word. rewrite (ap_words _ _ _ Ha); [done|]. intros [_ Hk]. cbn in Hk. pose proof (Z.div_pos e 4 He ltac:(lia)). unfold edict_v in *. lia.
Qed.

(** What an entity needs to be saved in [s] and loaded in [s2]. *)
Record entity_ready (e : Z) s s2 : Prop := EntityReady {
  er_fields : 0 <= entityfields progs;
  er_place : place_ok progs (Fields e) s;
  er_saved : Forall (fun d => field_saved e s s2 d = true) saved_fields;
  er_apart : strings_apart saved_fields = true;
  er_ready : ready (Fields e) s2;
  er_room : room (length saved_fields) s2;
  er_zero : forall i, inside progs (Fields e) i s2 -> word (Fields e) s2 i = 0;
  er_empty : text_of s2 0 = text_of s 0
}.

Definition used (e : Z) s : bool := existsb (nonzero (Fields e) s) saved_fields.

Lemma put_head_apart e w s : place_ok progs (Fields e) s -> 0 <= entityfields progs -> apart_on (entity_words e) s (put_at false (Z.to_nat (e / 4 + 0)) w s).
Proof.
  intros (H0 & _ & Hl) He. pose proof (Z.div_pos e 4 H0 ltac:(lia)). split; try done.
  - intros g. rewrite words_put_at. case_decide; [subst g; apply length_insert|done].
  - intros g k Hk. rewrite words_put_at. case_decide; [subst g|done]. rewrite list_lookup_insert_ne; [done|]. intros <-. apply Hk. split; [done|]. unfold edict_v. lia.
Qed.

Lemma head_put e w s : place_ok progs (Fields e) s -> 0 <= entityfields progs -> head_word (put_at false (Z.to_nat (e / 4 + 0)) w s) e 0 = w.
Proof.
  intros (H0 & _ & Hl) He. pose proof (Z.div_pos e 4 H0 ltac:(lia)). unfold head_word. rewrite words_put_at, decide_True by done.
  rewrite list_lookup_insert_eq; [done|]. cbn [words]. unfold edict_v in *. lia.
Qed.

(** Only what the fields say matters: a word before them can change. *)
Lemma same_fields_head e w s s' : place_ok progs (Fields e) s' -> 0 <= entityfields progs -> Forall (fun d => 0 <= d_ofs d) saved_fields -> same_fields e s s' ->
  same_fields e s (put_at false (Z.to_nat (e / 4 + 0)) w s').
Proof.
  intros Hp He Hd Hs d i Hin Hi. pose proof Hp as (H0 & _ & Hl). specialize (Hs d i Hin Hi). pose proof (Z.div_pos e 4 H0 ltac:(lia)).
  rewrite Forall_forall in Hd. specialize (Hd d Hin).
  assert (word (Fields e) (put_at false (Z.to_nat (e / 4 + 0)) w s') i = word (Fields e) s' i) as Hw.
  { unfold word. rewrite words_put_at, decide_True by done. rewrite list_lookup_insert_ne; [done|]. unfold cell. cbn [base]. unfold edict_v. lia. }
  eapply agree_keeps; [by apply (put_head_apart e)|exact Hw|done].
Qed.

Lemma entity_round_trip e s s2 : entity_ready e s s2 -> exists txt, write_defs progs saved_fields e s = Ok txt /\ clean txt /\
  forall rest, exists s', ED_ParseEdict progs (At (10 :: txt ++ 125 :: rest)) e s2 = Ok (At rest, s') /\ same_fields e s s' /\
    head_word s' e 0 = (if used e s then head_word s2 e 0 else 1) /\ apart_on (entity_words e) s2 s' /\
    hunk_top (hunk s') <= hunk_top (hunk s2) + 288 * zlen saved_fields.
Proof.
  intros [He Hb Hsv Hap Hr Hroom Hz Hempty]. pose proof Hr as (Hb2 & _ & Hpos & _ & Hnames & _).
  assert (exists s2c, (if negb (e =? 0) then zero_fields (Z.to_nat (entityfields progs)) e 0 s2 else mret s2) = Ok s2c /\ apart progs (Fields e) s2 s2c /\
    hunk s2c = hunk s2 /\ forall i, inside progs (Fields e) i s2 -> word (Fields e) s2c i = 0) as (s2c & Ec & Hac & Hhc & Hzc).
  { case_if; [|exists s2; split; [done|]; split; [reflexivity|done]]. destruct (zero_all progs e s2 Hb2 He) as (s2c & E2 & Ha2 & Hh2 & _ & _ & Hj). by exists s2c. }
  assert (have_read saved_fields [] (Fields e) s s2 s2c) as Hhr.
  { split; [done|intros d i Hd; by apply not_elem_of_nil in Hd|]. intros i Hi. left. by rewrite Hz, Hzc. }
  destruct (fields_written saved_fields e s s2 He Hb (proj2 (proj2 (proj2 (proj2 Hr)))) Hap saved_fields [] s2c false) as (txt & Ew & H125 & Hp).
  { rewrite Forall_forall in Hsv |- *. intros d Hd. by split; [|apply Hsv]. }
  { intros d Hd. by apply not_elem_of_nil in Hd. }
  { done. }
  { by eapply ready_apart. }
  { unfold room in *. by rewrite Hhc. }
  exists txt. split; [done|]. split; [done|]. intros rest.
  destruct (Hp rest (text_fuel (At (10 :: txt ++ 125 :: rest)))) as (s1 & done' & Epp & Hhr1 & Hdn & Ha1 & Htop); [cbn; rewrite length_app; lia|].
  unfold ED_ParseEdict. rewrite Ec, bind_Ok, Epp, bind_Ok. cbn [orb]. fold (used e s).
  assert (apart progs (Fields e) s2 s1) as Ha by (by etransitivity). assert (place_ok progs (Fields e) s1) as Hb1 by (by eapply apart_ok).
  assert (same_fields e s s1) as Hsame.
  { intros d i Hd Hi. rewrite Forall_forall in Hsv. specialize (Hsv d Hd). unfold field_saved in Hsv. bool_props.
    destruct (nonzero (Fields e) s d) eqn:Hnz.
    - rewrite <- (string_word_of saved_fields d i) by done. apply (hr_done _ _ _ _ _ _ Hhr1 d i); [|done]. apply Hdn. by right.
    - assert (word (Fields e) s i = 0) as Hw0.
      { unfold nonzero in Hnz. apply negb_false_iff in Hnz. rewrite forallb_forall in Hnz. symmetry. apply Z.eqb_eq, Hnz.
        unfold values, count in *. case_if; cbn; [|left; f_equal; lia].
        destruct (decide (i = d_ofs d)) as [->|]; [by left|]. destruct (decide (i = d_ofs d + 1)) as [->|]; [by right; left|]. right; right; left. f_equal. lia. }
      destruct (hr_word _ _ _ _ _ _ Hhr1 i) as [E|Hag]; [unfold inside; cbn; lia| |by rewrite <- (string_word_of saved_fields d i)].
      rewrite Hz in E by (unfold inside; cbn; lia). unfold agree_as. destruct (of_string d); [|congruence].
      rewrite E, Hw0. split; [eapply old_apart; [exact Ha|]; unfold old; change (s32 0) with 0; lia|].
      rewrite <- Hempty. unfold text_of. eapply string_old; [exact Ha|]. unfold old. change (s32 0) with 0. lia. }
  pose proof Hb2 as (He0 & Hem & _).
  destruct (used e s) eqn:Hu; cbn [negb].
  - rewrite bind_Ok. exists s1. split; [done|]. split; [done|]. split; [by eapply head_apart|]. split; [by apply apart_entity|]. rewrite <- Hhc. lia.
  - replace (e + ed_free) with (e + 4 * 0) by (unfold ed_free; lia). rewrite (head_set progs), bind_Ok by done. eexists. split; [done|]. split.
    + apply same_fields_head; [done|done| |done]. rewrite Forall_forall in Hsv |- *. intros d Hd. specialize (Hsv d Hd). unfold field_saved in Hsv. bool_props. done.
    + split; [by apply head_put|]. split; [etransitivity; [by apply apart_entity|by apply put_head_apart]|]. cbn [hunk put_at set_machine]. rewrite <- Hhc. lia.
Qed.

(** ** The globals *)

Definition saved_globals : list ddef := filter (fun d => is_saved d = true) (globaldefs progs).

(** A saved global whose value has a text that is read back in [s2]; its name fits in 64 bytes. *)
Definition global_saved s s2 d : bool :=
  (0 <=? d_ofs d) && (d_ofs d <? zlen (pr_globals (machine s))) && (d_ofs d <? zlen (pr_globals (machine s2))) &&
  match value_text Globals s s2 d, rd (string_at (d_name d)) s with
  | Some _, Ok n =>
      bool_decide (plain n) && (zlen n <? 64) && match ED_FindGlobal progs n s2 with Ok (Some d') => bool_decide (d' = d) | _ => false end
  | _, _ => false
  end.

Lemma is_saved_count d : is_saved d = true -> count d = 1.
Proof.
  unfold is_saved, count. intros Hs. bool_props. case_if; [|done]. rewrite E in *. discriminate.
Qed.

Lemma parse_global fuel name value rest s1 s1' d : plain name -> zlen name < 64 -> quotable value -> 125 ∉ value ->
  ED_FindGlobal progs name s1 = Ok (Some d) -> ED_ParseEpair progs Globals d value s1 = Ok (true, s1') ->
  parse_globals progs (S fuel) (At (10 :: pair_text name value ++ rest)) s1 = parse_globals progs fuel (At (10 :: rest)) s1'.
Proof.
  intros (Hqn & _ & Hbn & _) H64 Hq Hb Hf Hr.
  assert (10 :: pair_text name value ++ rest = 10 :: 34 :: name ++ 34 :: [32] ++ 34 :: value ++ 34 :: 10 :: rest) as ->.
  { unfold pair_text. cbn [app]. rewrite <- !app_assoc. cbn [app]. rewrite <- !app_assoc. done. }
  cbn [parse_globals]. rewrite parse_newline_quoted, bind_Ok by done. rewrite starts_no by done. cbn [is_null].
  assert (64 <=? zlen name = false) as -> by lia. cbv zeta.
  rewrite COM_Parse_quoted, bind_Ok by (done || by right). cbn [is_null]. rewrite starts_no, Hf by done. rewrite bind_Ok, Hr, bind_Ok. done.
Qed.

Lemma globals_written all s s2 : 0 <= entityfields progs -> names_old s2 -> strings_apart all = true ->
  forall ds done s1, Forall (fun d => is_saved d = true -> d ∈ all /\ global_saved s s2 d = true) ds ->
  (forall d, d ∈ done -> 0 <= d_ofs d /\ d_ofs d + count d <= place_size progs Globals s2) ->
  have_read all done Globals s s2 s1 -> ready Globals s1 -> room (length ds) s1 ->
  exists txt, write_globals progs ds s = Ok txt /\ clean txt /\ forall rest fuel, (length txt < fuel)%nat ->
  exists s1' done', parse_globals progs fuel (At (10 :: txt ++ 125 :: rest)) s1 = Ok s1' /\
    have_read all done' Globals s s2 s1' /\ (forall d, d ∈ done \/ d ∈ ds /\ is_saved d = true -> d ∈ done') /\
    apart progs Globals s1 s1' /\ hunk_top (hunk s1') <= hunk_top (hunk s1) + 288 * zlen ds.
Proof.
  intros He Hnames Hall. induction ds as [|d ds IH]; intros done s1 Hds Hdone Hhr Hr Hroom; cbn [write_globals].
  { exists []. split; [done|]. split; [by constructor|]. intros rest fuel Hf. destruct fuel as [|fuel]; [cbn in Hf; lia|].
    exists s1, done. cbn [app parse_globals]. rewrite parse_newline_brace, bind_Ok. cbn. split; [done|]. split; [done|].
    split; [|split; [reflexivity|lia]]. intros d [Hd|[Hd _]]; [done|by apply not_elem_of_nil in Hd]. }
  apply Forall_cons in Hds as [Hd Hds]. destruct (is_saved d) eqn:Hsv.
  - destruct (Hd eq_refl) as [Hdall Hg]. unfold global_saved in Hg. bool_props. pose proof (is_saved_count d Hsv) as Hc.
    destruct (value_text Globals s s2 d) as [value|] eqn:Hv; [|discriminate]. destruct (rd (string_at (d_name d)) s) as [name|] eqn:Hn; [|discriminate].
    rewrite bind_Ok, (g_get_ok progs), bind_Ok by (unfold inside; cbn; lia).
    assert (PR_UglyValueString progs (base_type (d_type d)) [word Globals s (d_ofs d)] s = Ok value) as ->.
    { rewrite <- (ugly_value Globals s s2 d value He Hv). unfold PR_UglyValueString. rewrite base_type_idem. unfold values.
      revert Hc. unfold count. case_if; [lia|done]. }
    rewrite bind_Ok. bool_props.
    match goal with E : bool_decide (plain name) = true |- _ => apply bool_decide_eq_true in E as Hkey end.
    destruct (ED_FindGlobal progs name s2) as [[d'|]|] eqn:Hf2; [|discriminate..].
    match goal with E : bool_decide (d' = d) = true |- _ => apply bool_decide_eq_true in E as -> end.
    destruct (value_quotable _ _ _ _ _ He Hv) as [Hq H125v].
    assert (ED_FindGlobal progs name s1 = Ok (Some d)) as Hf1.
    { rewrite <- Hf2. unfold ED_FindGlobal. by rewrite (find_name_old _ _ _ _ _ _ (hr_apart _ _ _ _ _ _ Hhr) (proj1 (proj2 Hnames))). }
    assert (inside progs Globals (d_ofs d) s1) as Hin1 by (apply (apart_inside _ _ s2); [apply Hhr|unfold inside; cbn; lia]).
    destruct (ED_ParseEpair_read Globals s s2 s1 d value) as (s1a & Ep & Hvr); [done|done|done|apply Hhr|done| |done| |].
    { unfold room in *; cbn [length] in Hroom; lia. }
    { by replace (d_ofs d + count d - 1) with (d_ofs d) by lia. }
    assert (have_read all (d :: done) Globals s s2 s1a) as Hhr2.
    { eapply have_read_step; [done|done| |done|done]. intros d' Hd'. apply elem_of_cons in Hd' as [->|Hd']; [cbn; lia|]. by apply Hdone. }
    pose proof (vr_apart _ _ _ _ _ Hvr) as Hap1. pose proof (vr_top _ _ _ _ _ Hvr) as Htop1. pose proof (ap_limit _ _ _ Hap1) as Hlim1.
    destruct (IH (d :: done) s1a Hds) as (txt & E & H125 & Hp); [|done|by eapply ready_apart|unfold room in *; cbn [length] in Hroom; lia|].
    { intros d' Hd'. apply elem_of_cons in Hd' as [->|Hd']; [cbn; lia|]. by apply Hdone. }
    rewrite E, bind_Ok. exists (pair_text name value ++ txt). split; [done|]. split.
    { destruct Hkey as (Hkq & _ & Hkn & _). by apply Forall_app; split; [apply pair_clean|]. }
    intros rest fuel Hf. destruct fuel as [|fuel]; [lia|]. rewrite <- app_assoc. rewrite (parse_global fuel name value _ s1 s1a d) by (done || lia).
    destruct (Hp rest fuel) as (s1' & done' & Ep' & Hhr' & Hdn & Hap & Htop); [unfold pair_text in Hf; rewrite !length_app in Hf; cbn [length] in Hf; lia|].
    exists s1', done'. split; [done|]. split; [done|]. split; [|split; [by etransitivity|cbn [length]; lia]].
    intros d' [Hd'|[Hd' Hnz]]; [apply Hdn; left; by apply elem_of_cons; right|]. apply elem_of_cons in Hd' as [->|Hd']; apply Hdn; [left; by apply elem_of_cons; left|by right].
  - destruct (IH done s1 Hds Hdone Hhr Hr) as (txt & E & H125 & Hp); [unfold room in *; cbn [length] in Hroom; lia|].
    exists txt. split; [done|]. split; [done|]. intros rest fuel Hf. destruct (Hp rest fuel Hf) as (s1' & done' & Ep & Hhr' & Hdn & Hap & Htop).
    exists s1', done'. split; [done|]. split; [done|]. split; [|split; [done|cbn [length]; lia]].
    intros d' [Hd'|[Hd' Hn]]; [apply Hdn; by left|]. apply elem_of_cons in Hd' as [->|Hd']; [congruence|]. apply Hdn. by right.
Qed.

(** Every saved global says in [s'] what it says in [s]. *)
Definition same_globals s s' : Prop := forall d, d ∈ saved_globals -> agree_as (of_string d) Globals s s' (d_ofs d).

(** What the globals need to be saved in [s] and loaded in [s2]. *)
Record globals_ready s s2 : Prop := GlobalsReady {
  gr_fields : 0 <= entityfields progs;
  gr_saved : Forall (fun d => global_saved s s2 d = true) saved_globals;
  gr_apart : strings_apart saved_globals = true;
  gr_ready : ready Globals s2;
  gr_room : room (length (globaldefs progs)) s2
}.

Lemma globals_round_trip s s2 : globals_ready s s2 -> exists txt, write_globals progs (globaldefs progs) s = Ok txt /\ clean txt /\
  forall rest, exists s', ED_ParseGlobals progs (At (10 :: txt ++ 125 :: rest)) s2 = Ok s' /\ same_globals s s' /\
    apart progs Globals s2 s' /\ hunk_top (hunk s') <= hunk_top (hunk s2) + 288 * zlen (globaldefs progs).
Proof.
  intros [He Hsv Hap Hr Hroom]. pose proof Hr as (_ & _ & _ & _ & Hnames).
  destruct (globals_written saved_globals s s2 He Hnames Hap (globaldefs progs) [] s2) as (txt & Ew & H125 & Hp).
  { rewrite Forall_forall in Hsv |- *. intros d Hd Hs. assert (d ∈ saved_globals) as Hin by (by apply list_elem_of_filter). split; [done|by apply Hsv]. }
  { intros d Hd. by apply not_elem_of_nil in Hd. }
  { apply have_read_nil. }
  { done. }
  { done. }
  exists txt. split; [done|]. split; [done|]. intros rest.
  destruct (Hp rest (text_fuel (At (10 :: txt ++ 125 :: rest)))) as (s1 & done' & Epp & Hhr1 & Hdn & Ha1 & Htop); [cbn; rewrite length_app; lia|].
  exists s1. split; [done|]. split; [|by split].
  intros d Hd. pose proof Hd as Hd2. apply list_elem_of_filter in Hd2 as [Hs Hd2]. pose proof (is_saved_count d Hs) as Hc.
  rewrite <- (string_word_of saved_globals d (d_ofs d)) by (done || lia). apply (hr_done _ _ _ _ _ _ Hhr1 d); [|lia]. apply Hdn. by right.
Qed.
End saved.
