(* ===== verification/SaveGame.v ===== *)
(** Saving and loading a game (Source/host_cmd.c).

    [Host_Savegame_f] with its conditions and the whole text it writes, and the loop of
    [Host_Loadgame_f] that reads the globals and entities back, with its buffer.  The lines before
    them ([fscanf]), starting the server on the map and connecting to it are left out.  Linking an
    entity is a parameter of [load_entity] and [load_game], because World.v has entities as records
    and here they are words of memory; what is relied on of it ([link_ok]) is that it ends and changes
    only what [SV_LinkEdict] of World.v changes: the boxes of the entity and what is before the
    fields, which is the links and the leafs. *)

From Stdlib Require Import SpecFloat.
From S2P Require Import Prelude CFloat CharConv ComString PrExec DecText Edict EdictText.
From S2P Require Cvar.

Definition SAVEGAME_VERSION : Z := 6.
Definition SAVEGAME_COMMENT_LENGTH : nat := 39.
Definition v_health : Z := 48.

(** [printf (%3i)] *)
Definition print_3i (z : Z) : bytes := let t := print_i z in repeat 32 (3 - length t) ++ t.

(** [kills] has 20 bytes.
    C: Source/host_cmd.c:460-475 Host_SavegameComment *)
Definition Host_SavegameComment (levelname : bytes) (monsters total : Z) : res bytes :=
  let text := repeat 32 SAVEGAME_COMMENT_LENGTH ++ [0] in
  text ← store text 0 levelname;
  let kills := cs "kills:" ++ print_3i monsters ++ cs "/" ++ print_3i total in
  if 20 <=? zlen kills then Fault (Undefined "kills overrun")
  else
    text ← store text 22 kills;
    let text := (fun c => if c =? 32 then 95 else c) <$> take SAVEGAME_COMMENT_LENGTH text in
    mret (until0 text).

(** [strstr (s, )] of two dots. *)
Fixpoint has_dots (s : bytes) : bool :=
  match s with
  | c :: (d :: _) as s' => ((c =? 46) && (d =? 46)) || has_dots s'
  | _ => false
  end.

(** What saving looks at. *)
Record save_env : Type := SaveEnv {
  from_command : bool;
  sv_running : bool;
  intermission : bool;
  sv_maxclients : Z;
  args : list bytes;
  clients : list (bool * Z);
  com_gamedir : bytes;
  can_open : bytes -> bool;
  levelname : bytes;
  monsters : Z;
  total_monsters : Z;
  spawn_parms : list f32;
  skill_level : Z;
  sv_name : bytes;
  sv_now : f64;
  lightstyles : list (option bytes)
}.

Section host.
Context {W H : Type} `{!HunkAlloc H}.
Variable progs : progs_t.
Implicit Types (s : edst W H).

Definition arg (v : save_env) (i : nat) : bytes := default [] (args v !! i).

(** Is a player dead.
    C: Source/host_cmd.c:522-529 health *)
Fixpoint dead_player (cl : list (bool * Z)) s : res bool :=
  match cl with
  | [] => mret false
  | (active, e) :: cl =>
      if active : bool then
        h ← rd (e_get (field_ofs e v_health)) s;
        if f_leb (f32_of_bits h) (f32_of_Z 0) then mret true else dead_player cl s
      else dead_player cl s
  end.

(** The entities from number [i] on, [n] many.
    C: Source/host_cmd.c:562-566 num_edicts *)
Fixpoint write_entities (n : nat) (i : Z) s : res bytes :=
  match n with
  | O => mret []
  | S n => e ← EDICT_NUM progs i; t ← ED_Write progs e s; rest ← write_entities n (i + 1) s; mret (t ++ rest)
  end.

(** C: Source/host_cmd.c:561-566 ED_WriteGlobals *)
Definition write_game s : res bytes :=
  t ← ED_WriteGlobals progs s;
  rest ← write_entities (Z.to_nat (num_edicts s)) 0 s;
  mret (t ++ rest).

Definition line (t : bytes) : bytes := t ++ [10].

(** The file that is written, if one is: its name and its text.
    C: Source/host_cmd.c:482-569 Host_Savegame_f *)
Definition Host_Savegame_f (v : save_env) s : res (option (bytes * bytes)) :=
  if negb (from_command v) then mret None
  else if negb (sv_running v) then mret None
  else if intermission v then mret None
  else if negb (sv_maxclients v =? 1) then mret None
  else if negb (zlen (args v) =? 2) then mret None
  else if has_dots (arg v 1) then mret None
  else
    dead ← dead_player (take (Z.to_nat (sv_maxclients v)) (clients v)) s;
    if dead : bool then mret None
    else
      name ← store (repeat 0 256) 0 (com_gamedir v ++ [47] ++ arg v 1 ++ [0]);
      name ← COM_ForceExtension name (cs ".sav");
      let name := until0 name in
      if negb (can_open v name) then mret None
      else
        comment ← Host_SavegameComment (levelname v) (monsters v) (total_monsters v);
        body ← write_game s;
        mret (Some (name,
          line (print_i SAVEGAME_VERSION) ++ line comment ++ concat ((fun p => line (Cvar.print_f p)) <$> spawn_parms v) ++
          line (print_i (skill_level v)) ++ line (sv_name v) ++ line (Cvar.print_f (sv_now v)) ++
          concat ((fun l => line (default (cs "m") l)) <$> lightstyles v) ++ body)).

(** ** Loading *)

(** The size of the buffer less one. *)
Definition chunk_room : nat := Z.to_nat 32767.

(** What is read up to a closing brace, a zero byte or the end of the file, and whether that end
    was met.
    C: Source/host_cmd.c:654-665 fgetc *)
Fixpoint read_chunk (n : nat) (f : bytes) : bytes * bytes * bool :=
  match n with
  | O => ([], f, false)
  | S n =>
      match f with
      | [] => ([], [], true)
      | c :: f =>
          if c =? 0 then ([], f, false)
          else if c =? 125 then ([c], f, false)
          else let '(t, r, e) := read_chunk n f in (c :: t, r, e)
      end
  end.

(** [SV_LinkEdict (ent, false)] *)
Variable SV_LinkEdict : Z -> edst W H -> res (edst W H).

(** One entity of the file.
    C: Source/host_cmd.c:681-690 ent *)
Definition load_entity (n : Z) (start : cptr) s : res (edst W H) :=
  e ← EDICT_NUM progs n;
  s ← zero_fields (Z.to_nat (entityfields progs)) e 0 s;
  s ← wr (e_set (e + ed_free) 0) s;
  '(_, s) ← ED_ParseEdict progs start e s;
  free ← rd (e_get (e + ed_free)) s;
  if truth free then mret s else SV_LinkEdict e s.

(** The globals and then the entities; [entnum] is -1 for the globals.
    C: Source/host_cmd.c:651-693 entnum *)
Fixpoint load_game (fuel : nat) (f : bytes) (eof : bool) (entnum : Z) s : res (Z * edst W H) :=
  match fuel with
  | O => Fault OutOfFuel
  | S fuel =>
      if eof then mret (entnum, s)
      else
        let '(str, f, eof) := read_chunk chunk_room f in
        if zlen str =? Z.of_nat chunk_room then Fault (Sys_Error "Loadgame buffer overflow")
        else
          '(token, start) ← COM_Parse (At str);
          if bool_decide (token = []) then mret (entnum, s)
          else if negb (bool_decide (token = cs "{")) then Fault (Sys_Error "First token isn't a brace")
          else
            s ← (if entnum =? -1 then ED_ParseGlobals progs start s else load_entity entnum start s);
            load_game fuel f eof (entnum + 1) s
  end.

(** * A saved game is loaded *)

(** Words that linking may change, besides the boxes of the entity: links, leafs and what else is
    between the flag and the time an entity was freed, of every entity. *)
Definition linked_word (g : bool) (k : nat) : Prop :=
  g = false /\ 1 <= Z.of_nat k mod (entityfields progs + edict_v) <= 22.
Definition box_word (e : Z) (g : bool) (k : nat) : Prop :=
  entity_words progs e g k /\ e / 4 + edict_v + 1 <= Z.of_nat k <= e / 4 + edict_v + 6.

Notation entity n := (n * pr_edict_size progs).

Hypothesis link_ok : forall n s, all_there progs s -> 0 <= n < max_edicts progs -> exists s', SV_LinkEdict (entity n) s = Ok s' /\
  apart_on (fun g k => linked_word g k \/ box_word (entity n) g k) s s' /\ hunk s' = hunk s.

Notation is_free s n := (truth (head_word s (entity n) 0)).

(** The text of a part of the file. *)
Definition body (t : bytes) : bytes := [123; 10] ++ t ++ [125].

(** Reading a chunk. *)
Lemma read_chunk_body t : clean t -> forall n rest, (length t < n)%nat -> read_chunk n (t ++ 125 :: rest) = (t ++ [125], rest, false).
Proof.
  induction 1 as [|c t [Hc Hc0] _ IH]; intros n rest Hn; (destruct n as [|n]; [cbn in Hn; lia|]); cbn [read_chunk app]; [done|].
  assert (c =? 0 = false) as -> by lia. assert (c =? 125 = false) as -> by lia. rewrite IH by (cbn [length] in Hn; lia). done.
Qed.

Definition before (pre : bytes) : Prop := pre = [] \/ pre = [10].

Lemma before_clean pre : before pre -> clean pre.
Proof. intros [-> | ->]; [by constructor|]. repeat constructor; lia. Qed.

Lemma parse_brace pre rest : before pre -> COM_Parse (At (pre ++ 123 :: rest)) = Ok ([123], At rest).
Proof. intros [-> | ->]; cbn [COM_Parse]; rewrite Nat.add_1_r; done. Qed.

(** A part of the file takes one round. *)
Lemma load_round fuel pre t rest n s : before pre -> clean t -> zlen t + 4 < 32767 ->
  load_game (S fuel) (pre ++ body t ++ rest) false n s =
  (s' ← (if n =? -1 then ED_ParseGlobals progs (At (10 :: t ++ [125])) s else load_entity n (At (10 :: t ++ [125])) s); load_game fuel rest false (n + 1) s').
Proof.
  intros Hpre Ht Hl. cbn [load_game].
  assert (pre ++ body t ++ rest = (pre ++ 123 :: 10 :: t) ++ 125 :: rest) as -> by (unfold body; cbn [app]; rewrite <- !app_assoc; cbn [app]; by rewrite <- ?app_assoc).
  assert (zlen pre <= 1) as Hpl by (destruct Hpre as [-> | ->]; cbn; lia).
  assert (clean (pre ++ 123 :: 10 :: t)) as Hcl.
  { apply Forall_app; split; [by apply before_clean|]. repeat constructor; try lia. exact Ht. }
  rewrite read_chunk_body by (try done; unfold chunk_room; rewrite length_app; cbn [length]; lia).
  assert (zlen ((pre ++ 123 :: 10 :: t) ++ [125]) =? Z.of_nat chunk_room = false) as ->.
  { unfold chunk_room. apply Z.eqb_neq. rewrite !length_app. cbn [length]. lia. }
  rewrite <- app_assoc. cbn [app]. rewrite parse_brace, bind_Ok by done. rewrite bool_decide_eq_false_2 by done.
  rewrite bool_decide_eq_true_2 by done. done.
Qed.

(** The end of the file. *)
Lemma load_end fuel pre n s : before pre -> load_game (S fuel) pre false n s = Ok (n, s).
Proof. intros [-> | ->]; done. Qed.

(** ** What is loaded stays *)

Notation saved_fields := (saved_fields progs).
Notation saved_globals := (saved_globals progs).
Notation stride := (entityfields progs + edict_v).

(** The entity [n] of [s] as it is in [s'].  One that is free, or has nothing but zeros, is free;
    the boxes, which are worked out again when it is linked, are left out. *)
Definition loaded (s : edst W H) (n : Z) (s' : edst W H) : Prop :=
  let e := entity n in
  if is_free s n || negb (used progs e s) then is_free s' n = true
  else is_free s' n = false /\
    forall d i, d ∈ saved_fields -> d_ofs d <= i < d_ofs d + count d -> ~ 1 <= i <= 6 -> agree_as (of_string d) (Fields e) s s' i.

(** The words that this depends on. *)
Definition spares (n : Z) (P : bool -> nat -> Prop) : Prop :=
  forall j, j = 0 \/ edict_v <= j < stride /\ ~ edict_v + 1 <= j <= edict_v + 6 -> ~ P false (Z.to_nat (n * stride + j)).

Lemma entity_words_at s n : all_there progs s -> 0 <= n < max_edicts progs -> entity n / 4 = n * stride.
Proof. intros Ht Hn. by destruct (entity_place progs n s Ht Hn) as (_ & _ & ->). Qed.

Lemma loaded_keeps P s s1 s2 n : all_there progs s1 -> 0 <= n < max_edicts progs ->
  Forall (fun d => 0 <= d_ofs d /\ d_ofs d + count d <= entityfields progs) saved_fields ->
  spares n P -> apart_on P s1 s2 -> loaded s n s1 -> loaded s n s2.
Proof.
  intros Ht Hn Hd Hs Ha. pose proof (entity_words_at s1 n Ht Hn) as He4. unfold loaded.
  assert (head_word s2 (entity n) 0 = head_word s1 (entity n) 0) as Hh.
  { unfold head_word. rewrite He4. rewrite (ap_words _ _ _ Ha); [done|]. apply Hs. by left. }
  rewrite Hh. case_if; [done|]. intros [Hf Hag]. split; [done|]. intros d i Hin Hi Hbox. specialize (Hag d i Hin Hi Hbox).
  rewrite Forall_forall in Hd. specialize (Hd d Hin). eapply agree_keeps; [exact Ha| |exact Hag].
  unfold word, cell. cbn [is_globals base]. rewrite He4, (ap_words _ _ _ Ha); [done|].
  replace (n * stride + edict_v + i) with (n * stride + (edict_v + i)) by lia. apply Hs. right. unfold edict_v in *. lia.
Qed.

Lemma stride_mod n j : 0 <= entityfields progs -> 0 <= j < stride -> (n * stride + j) mod stride = j.
Proof. intros He Hj. rewrite Z.add_comm, Z_mod_plus_full. by apply Z.mod_small. Qed.

Lemma spares_linked n : 0 <= entityfields progs -> 0 <= n -> spares n linked_word.
Proof.
  intros He Hn j Hj [_ Hk]. assert (0 <= j < stride) as Hjs by (unfold edict_v in *; lia).
  rewrite Z2Nat.id in Hk by (unfold edict_v in *; nia). rewrite stride_mod in Hk by done. unfold edict_v in *. lia.
Qed.

Lemma spares_entity s n m : all_there progs s -> 0 <= n -> 0 <= m < max_edicts progs -> n <> m -> spares n (entity_words progs (entity m)).
Proof.
  intros Ht Hn Hm Hnm j Hj [_ Hk]. pose proof (proj1 Ht) as He. assert (0 <= j < stride) as Hjs by (unfold edict_v in *; lia).
  rewrite (entity_words_at s m Ht Hm), Z2Nat.id in Hk by (unfold edict_v in *; nia). unfold edict_v in *. assert (n < m \/ m < n) as [?|?] by lia; nia.
Qed.

Lemma spares_box s n : all_there progs s -> 0 <= n < max_edicts progs -> spares n (box_word (entity n)).
Proof.
  intros Ht Hn j Hj [_ Hk]. pose proof (proj1 Ht) as He. rewrite (entity_words_at s n Ht Hn) in Hk.
  rewrite Z2Nat.id in Hk by (unfold edict_v in *; nia). unfold edict_v in *. lia.
Qed.

Lemma spares_or n (P Q : bool -> nat -> Prop) : spares n P -> spares n Q -> spares n (fun g k => P g k \/ Q g k).
Proof. intros HP HQ j Hj [H1|H1]; [by apply (HP j)|by apply (HQ j)]. Qed.

(** What is asked of a field does not depend on what has been read since. *)
Lemma field_saved_later P e s s0 s1 d : apart_on P s0 s1 -> names_old progs s0 -> field_saved progs e s s1 d = field_saved progs e s s0 d.
Proof.
  intros Ha (H1 & _ & H3). unfold field_saved.
  assert (value_text progs (Fields e) s s1 d = value_text progs (Fields e) s s0 d) as ->.
  { unfold value_text, ED_FindFunction. cbv zeta. repeat case_if; try done.
    destruct (at_index _ _); [|done]. destruct (rd _ s) as [t|]; [|done]. by rewrite (find_name_old _ _ _ _ _ _ Ha H3). }
  f_equal. f_equal. destruct (value_text _ _ _ _ _); [|done]. destruct (rd _ s); [|done]. f_equal.
  unfold ED_FindField. by rewrite (find_name_old _ _ _ _ _ _ Ha H1).
Qed.

(** ** One entity *)

(** What an entity needs to be saved in [s] and loaded in [s1]. *)
Record saves_entity (s s1 : edst W H) (n : Z) : Prop := SavesEntity {
  se_there : all_there progs s;
  se_there1 : all_there progs s1;
  se_number : 0 <= n < max_edicts progs;
  se_fields : Forall (fun d => 0 <= d_ofs d /\ d_ofs d + count d <= entityfields progs) saved_fields;
  se_saved : is_free s n = false -> Forall (fun d => field_saved progs (entity n) s s1 d = true) saved_fields;
  se_apart : strings_apart saved_fields = true;
  se_ready : ready progs (Fields (entity n)) s1;
  se_room : room (length saved_fields) s1;
  se_empty : text_of s1 0 = text_of s 0
}.

Definition entity_changes (n : Z) (g : bool) (k : nat) : Prop := entity_words progs (entity n) g k \/ linked_word g k.

Lemma field_saved_eq e s s1 s2 d : apart_on (fun _ _ => True) s1 s2 -> names_old progs s1 -> field_saved progs e s s1 d = true -> field_saved progs e s s2 d = true.
Proof. intros Ha Hn Hf. by rewrite (field_saved_later _ _ _ _ _ _ Ha Hn). Qed.

(** The entity cleared and not free, before its text is read. *)
Lemma clear_entity s1 n : all_there progs s1 -> 0 <= n < max_edicts progs -> exists s2,
  (s ← zero_fields (Z.to_nat (entityfields progs)) (entity n) 0 s1; wr (e_set (entity n + ed_free) 0) s) = Ok s2 /\
  apart_on (entity_words progs (entity n)) s1 s2 /\ hunk s2 = hunk s1 /\ head_word s2 (entity n) 0 = 0 /\
  forall i, inside progs (Fields (entity n)) i s2 -> word (Fields (entity n)) s2 i = 0.
Proof.
  intros Ht Hn. destruct (entity_place progs n s1 Ht Hn) as (Hp & Hm & He4). pose proof (proj1 Ht) as He.
  destruct (zero_all progs _ _ Hp He) as (sa & -> & Ha & Hh & _ & _ & Hz). rewrite bind_Ok.
  assert (place_ok progs (Fields (entity n)) sa) as Hpa by (by eapply apart_ok).
  replace (entity n + ed_free) with (entity n + 4 * 0) by (unfold ed_free; lia). rewrite (head_set progs) by done. eexists. split; [done|].
  pose proof (put_head_apart progs (entity n) 0 sa Hpa He) as Hb.
  split; [etransitivity; [by apply apart_entity|exact Hb]|]. split; [done|]. split; [by apply (head_put progs)|].
  intros i Hi. unfold inside in Hi. cbn in Hi. etransitivity; [|apply (Hz i); unfold inside; cbn; lia]. unfold word. rewrite words_put_at, decide_True by done.
  rewrite list_lookup_insert_ne; [done|]. unfold cell. cbn [base]. unfold edict_v in *. destruct Hp as (H0 & _). pose proof (Z.div_pos (entity n) 4 H0 ltac:(lia)). lia.
Qed.

(** Linking an entity that has been read. *)
Lemma link_read s s2 n : all_there progs s2 -> 0 <= n < max_edicts progs ->
  Forall (fun d => 0 <= d_ofs d /\ d_ofs d + count d <= entityfields progs) saved_fields -> loaded s n s2 ->
  exists s', (free ← rd (e_get (entity n + ed_free)) s2; if truth free then mret s2 else SV_LinkEdict (entity n) s2) = Ok s' /\
    loaded s n s' /\ apart_on (entity_changes n) s2 s' /\ hunk s' = hunk s2.
Proof.
  intros Ht Hn Hd Hl. destruct (entity_place progs n s2 Ht Hn) as (Hp & _ & He4). pose proof (proj1 Ht) as He.
  replace (entity n + ed_free) with (entity n + 4 * 0) by (unfold ed_free; lia). rewrite (head_get progs), bind_Ok by done.
  case_if; [exists s2; split; [done|]; split; [done|]; split; [reflexivity|done]|].
  destruct (link_ok n s2 Ht Hn) as (s' & -> & Ha & Hh). exists s'. split; [done|]. split.
  - refine (loaded_keeps _ s s2 s' n Ht Hn Hd _ Ha Hl). apply spares_or; [apply spares_linked; lia|by eapply spares_box].
  - split; [|done]. eapply apart_on_mono; [|exact Ha]. intros g k [Hk|[Hk _]]; [by right|by left].
Qed.

Lemma all_there_apart P s s' : apart_on P s s' -> all_there progs s -> all_there progs s'.
Proof. intros Ha [He Hl]. split; [done|]. pose proof (ap_lengths _ _ _ Ha false) as El. cbn in El. lia. Qed.

(** A free entity is read as free. *)
Lemma parse_free e s2 : place_ok progs (Fields e) s2 -> 0 <= entityfields progs -> exists s',
  ED_ParseEdict progs (At [10; 125]) e s2 = Ok (At [], s') /\ truth (head_word s' e 0) = true /\ apart_on (entity_words progs e) s2 s' /\ hunk s' = hunk s2.
Proof.
  intros Hp He. unfold ED_ParseEdict.
  assert (exists s2c, (if negb (e =? 0) then zero_fields (Z.to_nat (entityfields progs)) e 0 s2 else mret s2) = Ok s2c /\ apart progs (Fields e) s2 s2c /\ hunk s2c = hunk s2)
    as (s2c & -> & Hac & Hhc).
  { case_if; [|exists s2; split; [done|]; split; [reflexivity|done]]. destruct (zero_all progs e s2 Hp He) as (s2c & E2 & Ha2 & Hh2 & _). by exists s2c. }
  rewrite bind_Ok. assert (place_ok progs (Fields e) s2c) as Hpc by (by eapply apart_ok).
  change (parse_pairs progs _ _ e false s2c) with (parse_pairs progs 4 (At (10 :: 125 :: [])) e false s2c). cbn [parse_pairs].
  rewrite parse_newline_brace, !bind_Ok. cbn [starts Z.eqb Pos.eqb]. rewrite bind_Ok. cbn [negb].
  replace (e + ed_free) with (e + 4 * 0) by (unfold ed_free; lia). rewrite (head_set progs), bind_Ok by done.
  eexists. split; [done|]. split; [by rewrite (head_put progs)|]. split; [|done].
  etransitivity; [by apply apart_entity|by apply put_head_apart].
Qed.

Lemma load_entity_ok s s1 n : saves_entity s s1 n -> exists t, ED_Write progs (entity n) s = Ok (body t ++ [10]) /\ clean t /\
  exists s', load_entity n (At (10 :: t ++ [125])) s1 = Ok s' /\ loaded s n s' /\ apart_on (entity_changes n) s1 s' /\
    hunk_top (hunk s') <= hunk_top (hunk s1) + 288 * zlen saved_fields.
Proof.
  intros [Ht Ht1 Hn Hd Hsv Hap Hr Hroom Hem]. destruct (entity_place progs n s Ht Hn) as (Hp & _ & He4). pose proof (proj1 Ht) as He.
  destruct (clear_entity s1 n Ht1 Hn) as (s2 & Ecl & Ha2 & Hh2 & Hf2 & Hz2). pose proof (all_there_apart _ _ _ Ha2 Ht1) as Ht2.
  destruct (entity_place progs n s2 Ht2 Hn) as (Hp2 & _ & _).
  assert (forall start s3 r, ED_ParseEdict progs start (entity n) s2 = Ok (r, s3) -> loaded s n s3 -> apart_on (entity_words progs (entity n)) s2 s3 ->
    hunk_top (hunk s3) <= hunk_top (hunk s2) + 288 * zlen saved_fields -> exists s', load_entity n start s1 = Ok s' /\ loaded s n s' /\
    apart_on (entity_changes n) s1 s' /\ hunk_top (hunk s') <= hunk_top (hunk s1) + 288 * zlen saved_fields) as Hrest.
  { intros start s3 r Ep Hl3 Ha3 Htop. pose proof (all_there_apart _ _ _ Ha3 Ht2) as Ht3. destruct (link_read s s3 n Ht3 Hn Hd Hl3) as (s' & El & Hl & Ha & Hh).
    exists s'. unfold load_entity. rewrite EDICT_NUM_ok, bind_Ok by done. 
    destruct (zero_fields _ _ _ s1) as [sz|]; [|discriminate Ecl]. cbn [mbind res_bind] in Ecl |- *. rewrite Ecl. cbn [mbind res_bind]. rewrite Ep. cbn [mbind res_bind].
    split; [exact El|]. split; [done|]. rewrite Hh, <- Hh2. split; [|done].
    etransitivity; [eapply apart_on_mono; [|exact Ha2]; by left|]. etransitivity; [eapply apart_on_mono; [|exact Ha3]; by left|exact Ha]. }
  unfold ED_Write. replace (entity n + ed_free) with (entity n + 4 * 0) by (unfold ed_free; lia). rewrite (head_get progs), bind_Ok by done.
  destruct (is_free s n) eqn:Hfree.
  - exists []. split; [done|]. split; [by constructor|]. destruct (parse_free (entity n) s2 Hp2 He) as (s3 & Ep & Hf & Ha & Hh).
    eapply Hrest; [exact Ep| |exact Ha|rewrite Hh; lia]. unfold loaded. by rewrite Hfree.
  - destruct (entity_round_trip progs (entity n) s s2) as (txt & Ew & Hcl & Hrt).
    { split; try done.
      - specialize (Hsv eq_refl). rewrite Forall_forall in Hsv |- *. intros d Hin. eapply field_saved_eq; [eapply apart_on_mono; [|exact Ha2]; done|apply Hr|by apply Hsv].
      - by eapply ready_apart.
      - unfold room in *. by rewrite Hh2.
      - rewrite <- Hem. unfold text_of. eapply string_old; [exact Ha2|]. unfold old. change (s32 0) with 0. destruct Hr as (_ & _ & ? & _). lia. }
    exists txt. change (tail (fielddefs progs)) with saved_fields. rewrite Ew, bind_Ok. split; [unfold body; cbn [app]; rewrite <- app_assoc; done|]. split; [done|].
    destruct (Hrt []) as (s3 & Ep & Hsame & Hhead & Ha & Htop). eapply Hrest; [exact Ep| |exact Ha|done].
    unfold loaded. rewrite Hfree. cbn [orb]. rewrite Hhead, Hf2. destruct (used progs (entity n) s); cbn [negb]; [|done]. split; [done|]. intros d i Hin Hi _. by apply Hsame.
Qed.

(** ** The whole game *)

(** A game [s] that can be saved, and loaded from [s0], the state that [SV_SpawnServer] leaves: the
    game program is the same, all entities are in memory, every value has a text of its own, the
    strings fit on the hunk and every part of the file fits in the buffer. *)
Record game_ready (s s0 : edst W H) : Prop := GameReady {
  gm_there : all_there progs s;
  gm_there0 : all_there progs s0;
  gm_number : 0 <= num_edicts s <= max_edicts progs;
  gm_globals : globals_ready progs s s0;
  gm_fields : Forall (fun d => 0 <= d_ofs d /\ d_ofs d + count d <= entityfields progs) saved_fields;
  gm_saved : forall n, 0 <= n < num_edicts s -> is_free s n = false -> Forall (fun d => field_saved progs (entity n) s s0 d = true) saved_fields;
  gm_apart : strings_apart saved_fields = true;
  gm_room : 288 * (zlen (globaldefs progs) + num_edicts s * zlen saved_fields) <= hunk_limit (hunk s0) - hunk_top (hunk s0);
  gm_empty : text_of s0 0 = text_of s 0;
  gm_fits : (forall t, ED_WriteGlobals progs s = Ok t -> zlen t < 32767) /\
    forall n t, 0 <= n < num_edicts s -> ED_Write progs (entity n) s = Ok t -> zlen t < 32767
}.

Definition anything (g : bool) (k : nat) : Prop := True.

Lemma ready_place b b' s1 : ready progs b s1 -> place_ok progs b' s1 -> ready progs b' s1.
Proof. intros (_ & Hr) Hp. by split. Qed.

Lemma game_entity s s0 s1 n : game_ready s s0 -> apart_on anything s0 s1 -> 0 <= n < num_edicts s -> room (length saved_fields) s1 -> saves_entity s s1 n.
Proof.
  intros [Ht Ht0 Hnum Hg Hf Hsv Hap Hroom Hem Hfit] Ha Hn Hr1. pose proof (all_there_apart _ _ _ Ha Ht0) as Ht1.
  assert (0 <= n < max_edicts progs) as Hnm by lia. destruct Hg as [_ _ _ Hrg _]. pose proof Hrg as (_ & _ & Hpos & _ & Hnames).
  split; try done.
  - intros Hfree. specialize (Hsv n Hn Hfree). rewrite Forall_forall in Hsv |- *. intros d Hd. by eapply field_saved_eq; [exact Ha|exact Hnames|apply Hsv].
  - eapply ready_place; [by eapply (ready_apart progs anything Globals)|]. by eapply entity_place.
  - rewrite <- Hem. unfold text_of. eapply string_old; [exact Ha|]. unfold old. change (s32 0) with 0. lia.
Qed.

Lemma load_all s s0 : game_ready s s0 -> forall n i s1, 0 <= i -> i + Z.of_nat n <= num_edicts s -> apart_on anything s0 s1 ->
  288 * (Z.of_nat n * zlen saved_fields) <= hunk_limit (hunk s1) - hunk_top (hunk s1) ->
  exists txt s', write_entities n i s = Ok txt /\
    (forall fuel pre, (n < fuel)%nat -> before pre -> load_game fuel (pre ++ txt) false i s1 = Ok (i + Z.of_nat n, s')) /\
    (forall m, i <= m < i + Z.of_nat n -> loaded s m s') /\
    apart_on (fun g k => exists m, i <= m < i + Z.of_nat n /\ entity_changes m g k) s1 s'.
Proof.
  intros Hgame. pose proof Hgame as [Ht Ht0 Hnum _ Hf _ _ _ _ [_ Hfit]]. pose proof (proj1 Ht) as He.
  induction n as [|n IH]; intros i s1 Hi Hin Ha Hroom; cbn [write_entities].
  { exists [], s1. split; [done|]. split; [|split; [intros; lia|reflexivity]]. intros fuel pre Hfuel Hpre. destruct fuel as [|fuel]; [lia|].
    rewrite app_nil_r, load_end by done. f_equal; f_equal; lia. }
  destruct (load_entity_ok s s1 i) as (t & Ew & Hcl & s2 & El & Hl & Ha2 & Htop).
  { eapply game_entity; [done|done|lia|]. unfold room. nia. }
  assert (apart_on anything s0 s2) as Ha02 by (etransitivity; [exact Ha|by eapply apart_on_mono; [|exact Ha2]]).
  rewrite EDICT_NUM_ok, bind_Ok, Ew, bind_Ok by lia.
  destruct (IH (i + 1) s2) as (txt & s' & Ew' & Hrun & Hl' & Ha'); [lia|lia|done|rewrite (ap_limit _ _ _ Ha2); lia|].
  rewrite Ew', bind_Ok. exists ((body t ++ [10]) ++ txt), s'. split; [done|].
  pose proof (Hfit i _ ltac:(lia) Ew) as Hsize. unfold body in Hsize. rewrite !length_app in Hsize. cbn [length] in Hsize.
  assert (all_there progs s2) as Ht2 by (by eapply all_there_apart). split; [|split].
  - intros fuel pre Hfuel Hpre. destruct fuel as [|fuel]; [lia|].
    replace (pre ++ (body t ++ [10]) ++ txt) with (pre ++ body t ++ [10] ++ txt) by (by rewrite <- app_assoc).
    rewrite load_round by (done || lia). assert (i =? -1 = false) as -> by lia. rewrite El, bind_Ok.
    rewrite Hrun by (lia || by right). f_equal; f_equal; lia.
  - intros m Hm. destruct (decide (m = i)) as [->|Hmi]; [|apply Hl'; lia].
    refine (loaded_keeps _ s s2 s' i Ht2 ltac:(lia) Hf _ Ha' Hl). intros j Hj (m & Hmr & Hch). revert Hch.
    apply (spares_or i (entity_words progs (entity m)) linked_word); [eapply spares_entity; [done|lia|lia|lia]|apply spares_linked; lia|done].
  - etransitivity; [eapply apart_on_mono; [|exact Ha2]|eapply apart_on_mono; [|exact Ha']].
    + intros g k Hk. exists i. split; [lia|done].
    + intros g k (m & Hm & Hk). exists m. split; [lia|done].
Qed.

Lemma game_round_trip s s0 : game_ready s s0 -> exists txt s', write_game s = Ok txt /\
  (forall fuel, (Z.to_nat (num_edicts s) + 2 <= fuel)%nat -> load_game fuel txt false (-1) s0 = Ok (num_edicts s, s')) /\
  same_globals progs s s' /\ forall n, 0 <= n < num_edicts s -> loaded s n s'.
Proof.
  intros Hgame. pose proof Hgame as [Ht Ht0 Hnum Hg Hf _ _ Hroom _ [Hfit _]].
  destruct (globals_round_trip progs s s0 Hg) as (t & Ew & Hcl & Hrt). destruct (Hrt []) as (s1 & Ep & Hsg & Ha1 & Htop1).
  assert (apart_on anything s0 s1) as Ha by (by eapply apart_on_mono; [|exact Ha1]).
  destruct (load_all s s0 Hgame (Z.to_nat (num_edicts s)) 0 s1) as (txt & s' & Ew' & Hrun & Hl & Ha'); [lia|lia|done|rewrite (ap_limit _ _ _ Ha1); lia|].
  assert (ED_WriteGlobals progs s = Ok (body t ++ [10])) as EwG.
  { unfold ED_WriteGlobals. rewrite Ew, bind_Ok. unfold body. cbn [app]. rewrite <- app_assoc. done. }
  pose proof (Hfit _ EwG) as Hsize. unfold body in Hsize. rewrite !length_app in Hsize. cbn [length] in Hsize.
  exists ((body t ++ [10]) ++ txt), s'. split; [unfold write_game; by rewrite EwG, bind_Ok, Ew', bind_Ok|]. split; [|split].
  - intros fuel Hfuel. destruct fuel as [|fuel]; [lia|]. replace ((body t ++ [10]) ++ txt) with ([] ++ body t ++ [10] ++ txt) by (by rewrite <- app_assoc).
    rewrite load_round by (by left || done || lia). cbn [Z.eqb Z.opp Pos.eqb]. rewrite Ep, bind_Ok.
    change (-1 + 1) with 0. rewrite Hrun by (lia || by right). f_equal; f_equal; lia.
  - intros d Hd. specialize (Hsg d Hd). eapply agree_keeps; [exact Ha'| |exact Hsg]. unfold word. cbn [is_globals].
    rewrite (ap_words _ _ _ Ha'); [done|]. intros (m & _ & [[Hk _]|[Hk _]]); discriminate Hk.
  - intros n Hn. apply Hl. lia.
Qed.

(** C5: A game that is saved is loaded, but for entities without values.  Of a game whose values have
    a text of their own (strings without quotes, braces and backslashes, floats with six decimals,
    entities and functions by number and name), that fits on the hunk and in the buffer of the loader,
    the text that [Host_Savegame_f] writes is read back by the loop of [Host_Loadgame_f] to the end of
    the file: as many entities, and every saved global with its value, whatever order the strings
    come to be in.  An entity that is free comes back free.  One that is in use and has a field other
    than zero comes back in use, every saved field with its value, except the words of the two boxes
    [absmin] and [absmax] (fields 1 to 6), which linking works out again.  One in use whose saved
    fields are all zero has no text in its braces and comes back free.  Linking ([SV_LinkEdict],
    [link_ok]) is taken to end, and to change nothing but those boxes, the links and the leafs. *)
Theorem saved_game_loads s s0 : game_ready s s0 -> exists txt s', write_game s = Ok txt /\
  (forall fuel, (Z.to_nat (num_edicts s) + 2 <= fuel)%nat -> load_game fuel txt false (-1) s0 = Ok (num_edicts s, s')) /\
  same_globals progs s s' /\ forall n, 0 <= n < num_edicts s -> loaded s n s'.
Proof. apply game_round_trip. Qed.
End host.

(** * A game *)

#[local] Existing Instance taken.

Definition demo_strings : bytes :=
  [0] ++ cs "classname" ++ [0] ++ cs "health" ++ [0] ++ cs "origin" ++ [0] ++ cs "owner" ++ [0] ++ cs "think" ++ [0] ++
  cs "main" ++ [0] ++ cs "time" ++ [0] ++ cs "mapname" ++ [0] ++ cs "door" ++ [0].
Definition demo_progs : progs_t := Progs
  [Def 0 0 0; Def ev_string 0 1; Def ev_float 7 11; Def ev_vector 8 18; Def ev_entity 11 25; Def ev_function 12 31]
  [Def 0 0 0; Def (DEF_SAVEGLOBAL + ev_float) 2 42; Def (DEF_SAVEGLOBAL + ev_string) 3 47; Def ev_float 4 11]
  [0; 37] 13 4.

Definition demo_vm (globals words : list Z) (heap : gmap Z bytes) : vm :=
  VM globals [] 0 [] 0 0 0 0 [] words demo_strings heap true.
Definition demo_entity (free : Z) (fields : list Z) : list Z := free :: repeat 9 23 ++ fields.

(** The world, an entity that is free and a door at (1.5, -2, 0) that belongs to the world. *)
Definition demo_game : edst unit Z :=
  EdSt (demo_vm [0; 0; bits_of_f32 (f32_of_Z 12); 900; 0]
    (demo_entity 0 [900; 0; 0; 0; 0; 0; 0; 0; 0; 0; 0; 0; 0] ++ demo_entity 1 (repeat 5 13) ++
     demo_entity 0 [55; 1; 1; 1; 2; 2; 2; bits_of_f32 (f32_of_Z 100); 1069547520; bits_of_f32 (f32_of_Z (-2)); 0; 148; 1] ++ demo_entity 1 (repeat 0 13))
    {[900 := cs "start"]}) 3 tt 2000 0.
(** The same program with the map started again. *)
Definition demo_fresh : edst unit Z := EdSt (demo_vm [0; 0; 7; 7; 7] (repeat 3 148) ∅) 1 tt 1500 0.

(** The box of an entity around its origin, and a link of its area. *)
Definition demo_link (e : Z) (s : edst unit Z) : res (edst unit Z) :=
  let side (f : f32 -> f32 -> f32) i := bits_of_f32 (f (f32_of_bits (word (Fields e) s (8 + i))) (f32_of_Z 1)) in
  Ok (foldr (fun m s => put_at false (Z.to_nat (e / 4 + m.1)) m.2 s) s
    [(1, 700); (2, 704); (edict_v + 1, side f32_sub 0); (edict_v + 2, side f32_sub 1); (edict_v + 3, side f32_sub 2);
     (edict_v + 4, side f32_add 0); (edict_v + 5, side f32_add 1); (edict_v + 6, side f32_add 2)]).

Lemma all_true {A} (f : A -> bool) l : forallb f l = true -> Forall (fun x => f x = true) l.
Proof. rewrite forallb_forall, Forall_forall. intros Hf x Hx. by apply Hf, list_elem_of_In. Qed.
Lemma fits_true (r : res bytes) : match r with Ok t => zlen t <? 32767 | Fault _ => true end = true -> forall t, r = Ok t -> zlen t < 32767.
Proof. intros Hr t ->. lia. Qed.

Lemma demo_game_ready : game_ready demo_progs demo_game demo_fresh.
Proof.
  assert (forall n, 0 <= n < num_edicts demo_game -> n = 0 \/ n = 1 \/ n = 2) as H3.
  { intros n Hn. assert (num_edicts demo_game = 3) as E by reflexivity. lia. }
  split.
  - split; by_vm.
  - split; by_vm.
  - split; by_vm.
  - split; [by_vm|apply all_true; by_vm|by_vm| |by_vm].
    split; [exact I|]. split; [exact I|]. split; [by_vm|]. split; [by_vm|]. unfold names_old, old. by_decide.
  - unfold saved_fields. by_decide.
  - intros n [-> |[-> | ->]]%H3 Hf; [apply all_true; by_vm| |apply all_true; by_vm].
    assert (truth (head_word demo_game (1 * pr_edict_size demo_progs) 0) = true) as Ht by by_vm. exfalso. rewrite Ht in Hf. discriminate Hf.
  - by_vm.
  - by_vm.
  - by_vm.
  - split; [apply fits_true; by_vm|]. intros n t [-> |[-> | ->]]%H3; apply fits_true; by_vm.
Qed.

Lemma put_at_apart (P : bool -> nat -> Prop) k w (s : edst unit Z) : P false k -> apart_on P s (put_at false k w s).
Proof.
  intros Hk. split; try done.
  - intros g. rewrite words_put_at. case_decide; [subst g; apply length_insert|done].
  - intros g k' Hk'. rewrite words_put_at. case_decide; [subst g|done]. rewrite list_lookup_insert_ne; [done|]. by intros ->.
Qed.

Lemma demo_link_ok n s : all_there demo_progs s -> 0 <= n < max_edicts demo_progs -> exists s', demo_link (n * pr_edict_size demo_progs) s = Ok s' /\
  apart_on (fun g k => linked_word demo_progs g k \/ box_word demo_progs (n * pr_edict_size demo_progs) g k) s s' /\ hunk s' = hunk s.
Proof.
  intros Ht Hn. destruct (entity_place demo_progs n s Ht Hn) as (_ & _ & He). eexists. split; [reflexivity|]. split; [|reflexivity].
  unfold linked_word, box_word, entity_words. rewrite He. cbn [entityfields demo_progs foldr]. unfold edict_v.
  repeat (etransitivity; [|apply put_at_apart]); [reflexivity|..].
  all: rewrite Z2Nat.id by (cbn [fst]; lia); cbn [fst].
  7, 8: left; split; [reflexivity|]; rewrite (Z.add_comm (n * _)), Z_mod_plus_full; by_decide.
  all: right; split; [split; [reflexivity|lia]|lia].
Qed.

Lemma saved_game_loads_witness : exists txt s', write_game demo_progs demo_game = Ok txt /\
  (forall fuel, (5 <= fuel)%nat -> load_game demo_progs demo_link fuel txt false (-1) demo_fresh = Ok (3, s')) /\
  same_globals demo_progs demo_game s' /\ forall n, 0 <= n < 3 -> loaded demo_progs demo_game n s'.
Proof. exact (saved_game_loads demo_progs demo_link demo_link_ok demo_game demo_fresh demo_game_ready). Defined.

(** The text and what is read of it. *)
Example demo_game_text : (write_game demo_progs demo_game) = Ok (
  cs "{" ++ [10] ++ pair_text (cs "time") (cs "12.000000") ++ pair_text (cs "mapname") (cs "start") ++ cs "}" ++ [10] ++
  cs "{" ++ [10] ++ pair_text (cs "classname") (cs "start") ++ cs "}" ++ [10] ++
  cs "{" ++ [10] ++ cs "}" ++ [10] ++
  cs "{" ++ [10] ++ pair_text (cs "classname") (cs "door") ++ pair_text (cs "health") (cs "100.000000") ++
    pair_text (cs "origin") (cs "1.500000 -2.000000 0.000000") ++ pair_text (cs "owner") (cs "1") ++ pair_text (cs "think") (cs "main") ++ cs "}" ++ [10]).
Proof. by_vm. Qed.
